(* ===== verification/_CoqProject ===== *)
-Q . S2P
Prelude.v
CommonFns.v
CType.v
Buffers.v
Hash.v
HashImpl.v
DagData.v
BuildQueue.v
BuildQueueRing.v
BuildQueueInv.v
BuildQueueSys.v
BuildQueueRun.v
BuildQueueThms.v
HashThms.v
SortedArray.v
HashTable.v
HashSet.v
StatCache.v
IncludeScanner.v
ScanCache.v
PathUtil.v
PathThms.v
Scanner.v
ScannerThms.v
BitSet.v
TargetSelect.v
BinaryWriter.v
FrozenFile.v
DigestCache.v
FileSign.v
InputSignature.v
RunAction.v
Driver.v
DriverThms.v
DriverReach.v
DriverSave.v
ScanSave.v
StateFile.v
StaleOutputs.v
JsonParse.v
JsonThms.v
JsonWriter.v
JsonRound.v
DagGenerator.v
DagFile.v
DagWrite.v
DagLayout.v
DagOrder.v
DagCompile.v
DagRound.v
DagThms.v
DagHost.v
Interpolate.v
InterpolateThms.v
Options.v
Main.v
LinearAlloc.v
Profiler.v
MemoryMap.v
Counting.v
ReadWriteLock.v
CondVar.v
SignalHandler.v
TerminalIo.v
TerminalThms.v
ExecUnix.v
Win32Env.v
PathControl.v
ExecWin32.v
LuaPath.v
LuaInterface.v
LuaProfiler.v
LuaProfilerThms.v
