(* ===== verification/Prelude.v ===== *)
(** * Tundra 2: a verification development

    Tundra is a build system. Lua build scripts describe the build; a JSON
    document with that description is compiled to a memory-mapped file, the
    DAG; later runs map the file, decide which nodes are out of date and run
    their commands on several threads. The C++ of src/src is modelled here by
    functions and step relations, one file per part, and the theorems say what
    each part promises to the parts that use it.

    ** The program and its parts

    A run of the program ([main], src/src/Main.cpp, modelled in Main) goes
    through these stages.

    - Options: [InitOptions] reads the command line (Options).
    - The DAG: [DriverPrepareDag] maps the frozen DAG and checks that it is
      current, or has the front end write the document and compiles it
      (Driver, DagHost). The document is written by the JSON writer
      (JsonWriter), read by the JSON parser (JsonParse) and compiled by the
      generator (DagGenerator) through the binary writer (BinaryWriter). The
      front end finds its scripts and lists directories (LuaInterface), expands
      strings (Interpolate) and handles paths (LuaPath) with native routines,
      and can be profiled (LuaProfiler).
    - Selection: the words of the command line become configurations and nodes
      (TargetSelect, Driver); the nodes needed are collected and handed to the
      build queue (Driver).
    - The build: threads take nodes from a queue and advance each through its
      states (BuildQueue). Outside the queue's lock a thread signs the inputs of
      a node (InputSignature), for which it asks the stat cache (StatCache), the
      digest cache (DigestCache), the scan cache (ScanCache) and the include
      scanners (IncludeScanner, Scanner), or runs its action (RunAction). The
      command is run by ExecuteProcess (ExecUnix, ExecWin32), and what it prints
      is put in order (TerminalIo). A signal ends the build early
      (SignalHandler), and the profiler records what threads do (Profiler).
    - The end: the node states are merged with those of the previous build and
      saved (DriverSave), as are the scan cache and the digest cache; outputs no
      node produces any more are removed (StaleOutputs).

    ** The files

    Common parts.
    - Prelude: machine integers, the faults and the result monad, loops, the
      hint database and tactics, and lemmas the other files share.
    - CommonFns: string hashes, case folding and bit tricks of Common.cpp and
      Common.hpp. CType: the character classes.
    - Hash, HashImpl, HashThms: Hash.cpp, HashFast.cpp, HashSha1.cpp. Streaming
      equals one-shot hashing of the padded text; the padding differs from the
      standard for one residue of the length.
    - SortedArray: SortedArrayUtil.hpp. HashTable, HashSet: HashTable.hpp refines
      a finite map. BitSet: sets in words of 32 bits.
    - BinaryWriter, FrozenFile: BinaryWriter.cpp and BinaryData.hpp. A pointer
      written by the one is followed by the other to the same bytes.
    - PathUtil, PathThms: PathUtil.cpp. The buffer operations compute the
      abstract path, or run over the buffer, exactly when the theorems say.
    - LinearAlloc: MemAllocLinear.cpp. Live blocks are disjoint and aligned.
      Buffers: Buffer.hpp refines a list; the other files hold a buffer as one.
      MemoryMap: MemoryMappedFile.cpp, with open descriptors and mappings: none
      leaks on Unix as long as mmap succeeds.
    - Counting: counting threads in a state. ReadWriteLock: the emulated lock of
      ReadWriteLock.cpp as a concurrent system: exclusion, and no lost wake-up.
      CondVar: the emulated condition variable of ConditionVar.cpp: a broadcast
      with the mutex held returns, one without it may not.
    - Profiler: Profiler.cpp records the scopes of every thread in order.

    The scheduler (BuildQueue.cpp, NodeState.hpp, DagData.hpp, StateData.hpp).
    - DagData: the frozen records and the node state. BuildQueue: every function
      of the file, in a checked build, and the thread as a state machine.
    - BuildQueueRing, BuildQueueInv: the ring buffer as a list; the invariant, and
      that every function preserves it and faults nowhere.
    - BuildQueueSys, BuildQueueRun, BuildQueueThms: interleavings of threads, the
      passes of [DriverBuild], and the theorems: no fault, dependencies first, an
      action once, the limit on expensive nodes, no deadlock, fair builds end,
      what the result of a build means.

    What a thread does outside the lock.
    - StatCache, DigestCache, ScanCache, FileSign: the caches, alone and shared.
      Threads may use the stat cache in any order as long as an output is written
      by one action, nobody asks for it meanwhile, and one thread at a time does
      before; two that race before the action leave a stale record, as shown.
    - IncludeScanner, Scanner, ScannerThms: the scanners of one file and the
      transitive closure. The scanners of a file find the documented include
      lines, except in the named gaps where a keyword is followed directly by
      its item.
    - InputSignature, RunAction: the two long stretches of the thread.
    - TerminalIo, TerminalThms: line buffers and the ownership of the terminal.
    - ExecUnix: the parent's half of ExecuteProcess of ExecUnix.cpp; jobs end,
      and their output does not mix. Win32Env, ExecWin32: ExecWin32.cpp, the
      environment block of a child, response files and temporary files.
    - SignalHandler: SignalHandler.cpp next to the threads that wait. The
      handler broadcasts without the queue's mutex, so its wake-up can be lost
      to a thread between its test and its wait, which is shown here. The
      scheduler's relation has such signals ([EvSignal (Some i)] is missed by
      thread [i]), and its theorems on deadlock and termination hold with them.

    The driver (Driver.cpp, TargetSelect.cpp).
    - TargetSelect, Driver, DriverReach, DriverThms: from the command line to a
      prepared build that satisfies what the scheduler's theorems assume.
    - DriverSave, StateFile, ScanSave, StaleOutputs: what is written at the end
      and what the next run reads. The state read back is the merge the code
      documents for nodes whose outputs are those of the previous build; the
      code keeps the old state of the others too, which is shown here.

    The DAG generator (DagGenerator.cpp, JsonParse.cpp, LuaJsonWriter.cpp).
    - JsonParse, JsonThms, JsonWriter, JsonRound: the parser on its mutable text
      never leaves it and ends; what is written is read back.
    - DagGenerator: every function that writes the file. DagFile: the readers,
      and the [DagData] a document stands for. DagWrite, DagLayout, DagOrder,
      DagCompile, DagRound: assertions about segments, layout of the structures,
      the order of guids, and each piece of [CompileDag].
    - DagThms: the file reads as the document's [DagData], and a document without
      cycles gives a DAG for which the driver's theorems hold. DagHost: running
      the front end, and that a regenerated DAG is accepted. [DriverPrepareDag]
      takes whether the build is checked, since [CHECK] tests nothing in a
      release build; what is said of it holds in both.

    The front end's native routines and the programs.
    - Interpolate, InterpolateThms: LuaInterpolate.cpp computes an expansion on
      plain strings; when it ends. LuaPath: LuaPath.cpp.
    - LuaInterface: finding the script directory, digests and directory listings
      of LuaInterface.cpp; a listing's digest is the one the driver checks.
    - LuaProfiler, LuaProfilerThms: LuaProfiler.cpp; the report has one line for
      every call stack, with its calls and time.
    - Options: [InitOptions] of Main.cpp. Main: the sequence of calls of [main]
      over a class of what its parts answer: a build is saved whatever its
      result, and a driver that was set up is destroyed.
    - PathControl: PathControl.cpp, the edit of the search path of Windows.

    ** How code becomes definitions

    A definition keeps the name of the function it models. A struct is a
    record; a pointer into an array is an index; a [char*] into a buffer is the
    rest of the array, so that reading past the end is a fault. Machine
    integers are [Z] with the wrap written out ([u32], [i32], ...). A failing
    [CHECK], a [Croak], an access out of range and undefined behaviour are
    values of [fault]; functions that can meet one return [res]. Code that
    takes and gives back a lock is split at those points, and the interleavings
    are the steps of a relation or of a function from events to states. What
    the operating system answers is an argument or a class ([Host], [World]).

    ** Fuel and bounds

    A loop whose recursion is not structural takes fuel, and a theorem says the
    fuel its callers give is enough: 8 for [advance_fuel], the longest chain of
    progress states; 65 for [directory_fuel], one more than the segments of a
    path; one more than the number of files for the scanner's work list; the
    number of words and one for [InitOptions]; the depth of the recursion for
    interpolation, bounded in [interpolation_ends]. The JSON parser's fuel is
    the length of the text. Theorems about tables bound them by 2^27 slots and
    files by 2^30 bytes, below which none of the 32-bit sizes wraps; the DAG
    theorems ask for scanners within the first 2^17 bytes of the document's
    structures, 43 bytes each, so that their offsets fit their fields.
    Allocation does not fail, and the stack is as deep as the JSON document
    nests: the linear allocator's [Croak] when it is exhausted is modelled with
    the allocator (LinearAlloc) and not at each of its uses.

    ** Not modelled

    The Lua interpreter (src/lua) is third-party code: reading arguments from
    its stack, pushing results and registering functions (the rest of
    LuaInterface.cpp, LuaMain.cpp) would be statements about it. Threads,
    mutexes, atomic operations and, where they are not emulated, condition
    variables and locks are the operating system's: the step relations state
    what they do. Of the heap allocator only the growth of a block is used, and
    it forwards to the C library. The child's half of ExecuteProcess on Unix is
    a sequence of system calls. Logging, the statistics and the help text of
    main, and the inspection tool (InspectMain.cpp) only print; the re-launch of
    main on Windows depends on the loader. Of files with branches for both
    systems the Unix branch is modelled, and the Windows branch as well for
    paths, mapped files, signals, condition variables, locks and processes. *)

From stdpp Require Export base tactics option list list_numbers numbers sets strings.
From Stdlib Require Export ZArith Lia Ascii.
From Stdlib Require String.

Global Open Scope Z_scope.
Global Open Scope list_scope.

(** ** Machine integers

    A fixed-width C integer is a [Z] kept in range by an explicit wrap. *)

Definition u8 (z : Z) : Z := z mod 2 ^ 8.
Definition u16 (z : Z) : Z := z mod 2 ^ 16.
Definition u32 (z : Z) : Z := z mod 2 ^ 32.
Definition u64 (z : Z) : Z := z mod 2 ^ 64.

(** Conversion to a signed 32-bit integer, two's complement. *)
Definition i32 (z : Z) : Z := (z + 2 ^ 31) mod 2 ^ 32 - 2 ^ 31.

Definition in_u16 (z : Z) : Prop := 0 <= z < 2 ^ 16.
Definition in_u32 (z : Z) : Prop := 0 <= z < 2 ^ 32.
Definition in_i32 (z : Z) : Prop := - 2 ^ 31 <= z < 2 ^ 31.

(** ** Faults and the result monad

    [Croak] terminates the process with a message, [CHECK] aborts a checked
    build, an access outside an array and the other kinds of undefined
    behaviour are faults too, and fuel bounds a loop whose termination is a
    theorem. *)

Inductive fault : Type :=
| Croak (msg : string)
| CheckFailed (expr : string)
| OutOfBounds
| Undefined (what : string)
| LuaError (msg : string)
| OutOfFuel.

Inductive res (A : Type) : Type :=
| OK (a : A)
| Err (f : fault).
Arguments OK {A} a.
Arguments Err {A} f.

#[global] Instance res_ret : MRet res := fun A a => OK a.
#[global] Instance res_bind : MBind res := fun A B k m =>
  match m with OK a => k a | Err f => Err f end.

(** [CHECK(expr)] of Common.hpp in a checked build. *)
Definition check (b : bool) (expr : string) : res unit :=
  if b then OK tt else Err (CheckFailed expr).

Definition of_opt {A} (o : option A) : res A :=
  match o with Some a => OK a | None => Err OutOfBounds end.

(** A loop that threads a state through a list. *)
Fixpoint foldM {A B} (f : A -> B -> res A) (a : A) (l : list B) : res A :=
  match l with
  | [] => OK a
  | b :: l' => a' ← f a b; foldM f a' l'
  end.

(** ** Arrays indexed by C integers *)

Definition zlookup {A} (l : list A) (i : Z) : option A :=
  if bool_decide (0 <= i) then l !! Z.to_nat i else None.

Definition zinsert {A} (i : Z) (x : A) (l : list A) : list A :=
  if bool_decide (0 <= i) then <[Z.to_nat i := x]> l else l.

Notation "l !!z i" := (zlookup l i) (at level 20) : stdpp_scope.
Abbreviation zlen l := (Z.of_nat (length l)).

(** Write with C semantics made total: outside the array is a fault. *)
Definition zwrite {A} (i : Z) (x : A) (l : list A) : res (list A) :=
  match l !!z i with
  | Some _ => OK (zinsert i x l)
  | None => Err OutOfBounds
  end.

(** ** C strings

    A [const char*] is the list of the characters before the terminator. The
    functions that scan a string stop at a NUL in the list as the C code does. *)

Abbreviation cstr := (list ascii).
Definition s2l (s : string) : cstr := String.list_ascii_of_string s.
Coercion s2l : string >-> list.

Definition NUL : ascii := Ascii.zero.

(** [*p] read as an unsigned byte. *)
Definition uchar (c : ascii) : Z := Z.of_N (N_of_ascii c).

(** [*p] read as a (signed) [char]. *)
Definition schar (c : ascii) : Z := if uchar c <? 128 then uchar c else uchar c - 256.

Fixpoint strlen (s : cstr) : Z :=
  match s with
  | [] => 0
  | c :: s' => if Ascii.eqb c NUL then 0 else 1 + strlen s'
  end.

Definition cstr_ok (s : cstr) : Prop := Forall (fun c => c <> NUL) s.

(** [strcmp], on the bytes as unsigned characters. *)
Fixpoint strcmp (a b : cstr) : Z :=
  match a, b with
  | [], [] => 0
  | [], d :: _ => - uchar d
  | c :: _, [] => uchar c
  | c :: a', d :: b' =>
      if Ascii.eqb c d then if Ascii.eqb c NUL then 0 else strcmp a' b'
      else uchar c - uchar d
  end.

Definition streq (a b : cstr) : bool := strcmp a b =? 0.

(** [strncmp(a, b, n) == 0]. *)
Fixpoint strneq (n : nat) (a b : cstr) : bool :=
  match n with
  | O => true
  | S n =>
      match a, b with
      | [], [] => true
      | [], d :: _ => Ascii.eqb d NUL
      | c :: _, [] => Ascii.eqb c NUL
      | c :: a', d :: b' => Ascii.eqb c d && (Ascii.eqb c NUL || strneq n a' b')
      end
  end.

(** ** Automation *)

Create HintDb tundra discriminated.
Create Rewrite HintDb tundra.

(** Case analysis on the scrutinee of the first match or if in the goal. *)
Ltac case_goal :=
  match goal with
  | |- context [match ?x with _ => _ end] =>
      lazymatch x with context [match _ with _ => _ end] => fail | _ => destruct x eqn:? end
  end.

(** The same in a hypothesis. *)
Ltac case_hyp H :=
  match type of H with
  | context [match ?x with _ => _ end] =>
      lazymatch x with context [match _ with _ => _ end] => fail | _ => destruct x eqn:? end
  end.

(** Split a hypothesis [m ≫= k = OK r] into the run of [m] and of [k]. *)
Ltac inv_bind H :=
  match type of H with
  | mbind ?k ?m = OK ?r =>
      let E := fresh "E" in
      destruct m eqn:E; [cbn [mbind res_bind] in H | discriminate H]
  end.

(** Turn boolean comparisons on [Z] in the context into propositions. *)
Ltac zbool :=
  repeat match goal with
  | H : (_ =? _) = true |- _ => apply Z.eqb_eq in H
  | H : (_ =? _) = false |- _ => apply Z.eqb_neq in H
  | H : (_ <? _) = true |- _ => apply Z.ltb_lt in H
  | H : (_ <? _) = false |- _ => apply Z.ltb_ge in H
  | H : (_ <=? _) = true |- _ => apply Z.leb_le in H
  | H : (_ <=? _) = false |- _ => apply Z.leb_gt in H
  | H : bool_decide _ = true |- _ => apply bool_decide_eq_true in H
  | H : bool_decide _ = false |- _ => apply bool_decide_eq_false in H
  | H : (_ && _) = true |- _ => apply andb_true_iff in H as [? ?]
  | H : (_ || _) = false |- _ => apply orb_false_iff in H as [? ?]
  | H : negb _ = true |- _ => apply negb_true_iff in H
  | H : negb _ = false |- _ => apply negb_false_iff in H
  end.

(** ** Machine-integer lemmas *)

Lemma u32_range z : in_u32 (u32 z).
Proof. apply Z.mod_pos_bound. lia. Qed.

Lemma u32_small z : in_u32 z -> u32 z = z.
Proof. intros. by apply Z.mod_small. Qed.

Lemma u64_range z : 0 <= u64 z < 2 ^ 64.
Proof. apply Z.mod_pos_bound. lia. Qed.

Lemma u16_small z : in_u16 z -> u16 z = z.
Proof. intros. by apply Z.mod_small. Qed.

Lemma u16_range z : in_u16 (u16 z).
Proof. apply Z.mod_pos_bound. lia. Qed.

Lemma i32_range z : in_i32 (i32 z).
Proof. unfold i32, in_i32. pose proof (Z.mod_pos_bound (z + 2 ^ 31) (2 ^ 32)). lia. Qed.

Lemma i32_small z : in_i32 z -> i32 z = z.
Proof. unfold i32, in_i32. intros. rewrite Z.mod_small; lia. Qed.

#[export] Hint Resolve u32_range u64_range u16_range i32_range : tundra.

(** A mask of a power of two is a remainder. *)
Lemma land_mask x k : 0 <= k -> Z.land x (2 ^ k - 1) = x mod 2 ^ k.
Proof.
  intros. rewrite <- Z.land_ones by done. f_equal. rewrite Z.ones_equiv. lia.
Qed.

(** ** Array lemmas *)

Lemma zlookup_lt {A} (l : list A) i x : l !!z i = Some x -> 0 <= i < zlen l.
Proof.
  unfold zlookup. case_bool_decide; [|done]. intros ?%lookup_lt_Some. lia.
Qed.

Lemma zlookup_is_Some {A} (l : list A) i : 0 <= i < zlen l -> exists x, l !!z i = Some x.
Proof.
  intros. unfold zlookup. rewrite bool_decide_true by lia.
  apply lookup_lt_is_Some. lia.
Qed.

Lemma zlookup_nat {A} (l : list A) (n : nat) : l !!z Z.of_nat n = l !! n.
Proof. unfold zlookup. rewrite bool_decide_true by lia. by rewrite Nat2Z.id. Qed.

Lemma zlookup_ge {A} (l : list A) i : zlen l <= i -> l !!z i = None.
Proof.
  intros. unfold zlookup. case_bool_decide; [|done]. apply lookup_ge_None. lia.
Qed.

Lemma zlookup_insert_eq {A} (l : list A) i x : 0 <= i < zlen l -> zinsert i x l !!z i = Some x.
Proof.
  intros. unfold zlookup, zinsert. rewrite !bool_decide_true by lia.
  apply list_lookup_insert_eq. lia.
Qed.

Lemma zlookup_insert_ne {A} (l : list A) i j x : i <> j -> zinsert i x l !!z j = l !!z j.
Proof.
  intros. unfold zlookup, zinsert. repeat case_bool_decide; try done.
  apply list_lookup_insert_ne. lia.
Qed.

Lemma zlookup_insert {A} (l : list A) i j x :
  zinsert i x l !!z j = if bool_decide (i = j /\ 0 <= i < zlen l) then Some x else l !!z j.
Proof.
  case_bool_decide as Hd.
  - destruct Hd as [-> ?]. by apply zlookup_insert_eq.
  - destruct (decide (i = j)) as [->|]; [|by apply zlookup_insert_ne].
    unfold zinsert. case_bool_decide; [|done].
    rewrite list_insert_ge by lia. done.
Qed.

Lemma zinsert_length {A} (l : list A) i x : length (zinsert i x l) = length l.
Proof. unfold zinsert. case_bool_decide; [apply length_insert | done]. Qed.

Lemma zwrite_ok {A} i (x : A) l : 0 <= i < zlen l -> zwrite i x l = OK (zinsert i x l).
Proof. intros [y Hy]%zlookup_is_Some. unfold zwrite. by rewrite Hy. Qed.

Lemma zwrite_inv {A} i (x : A) l l' :
  zwrite i x l = OK l' -> l' = zinsert i x l /\ 0 <= i < zlen l.
Proof.
  unfold zwrite. destruct (l !!z i) eqn:E; [|done]. intros [= <-].
  split; [done | by eapply zlookup_lt].
Qed.

Lemma zlookup_app_r {A} (l k : list A) i : 0 <= i -> (l ++ k) !!z (zlen l + i) = k !!z i.
Proof.
  intros. unfold zlookup. rewrite !bool_decide_true by lia. rewrite lookup_app_r by lia. f_equal. lia.
Qed.

Lemma zlookup_middle {A} (l k : list A) x : (l ++ x :: k) !!z zlen l = Some x.
Proof. replace (zlen l) with (zlen l + 0) by lia. by rewrite zlookup_app_r. Qed.

Lemma zwrite_middle {A} (l k : list A) x y : zwrite (zlen l) y (l ++ x :: k) = OK (l ++ y :: k).
Proof.
  unfold zwrite. rewrite zlookup_middle. unfold zinsert. rewrite bool_decide_true by lia. rewrite Nat2Z.id.
  f_equal. rewrite insert_app_r_alt, Nat.sub_diag by done. done.
Qed.

#[export] Hint Rewrite @zinsert_length : tundra.

(** ** Characters and strings *)

Lemma uchar_range c : 0 <= uchar c < 256.
Proof. unfold uchar. pose proof (N_ascii_bounded c). lia. Qed.

Lemma uchar_inj c d : uchar c = uchar d -> c = d.
Proof.
  unfold uchar. intros H%N2Z.inj.
  by rewrite <- (ascii_N_embedding c), <- (ascii_N_embedding d), H.
Qed.

Lemma strlen_nonneg s : 0 <= strlen s.
Proof. induction s as [|c s IH]; cbn; [lia|]. case_match; lia. Qed.

Lemma strlen_ok s : cstr_ok s -> strlen s = zlen s.
Proof.
  induction 1 as [|c s Hc Hs IH]; [done|]. cbn [strlen].
  destruct (Ascii.eqb_spec c NUL); [done|]. rewrite IH. simpl length. lia.
Qed.

Lemma strcmp_refl s : strcmp s s = 0.
Proof.
  induction s as [|c s IH]; [done|]. cbn. rewrite Ascii.eqb_refl. by case_match.
Qed.

Lemma uchar_pos c : c <> NUL -> 0 < uchar c.
Proof.
  intros H. pose proof (uchar_range c). destruct (decide (uchar c = 0)) as [E|]; [|lia].
  exfalso. apply H. by apply uchar_inj.
Qed.

Lemma strcmp_eq a b : cstr_ok a -> cstr_ok b -> strcmp a b = 0 -> a = b.
Proof.
  intros Ha. revert b.
  induction Ha as [|c a Hc Ha IH]; intros [|d b] Hb; cbn; try done.
  - apply Forall_cons in Hb as [Hd _]. apply uchar_pos in Hd. lia.
  - apply uchar_pos in Hc. lia.
  - apply Forall_cons in Hb as [Hd Hb].
    destruct (Ascii.eqb_spec c d) as [->|Hne].
    + destruct (Ascii.eqb_spec d NUL); [done|]. intros. f_equal. by apply IH.
    + intros. exfalso. apply Hne, uchar_inj. lia.
Qed.

Lemma streq_spec a b : cstr_ok a -> cstr_ok b -> streq a b = true <-> a = b.
Proof.
  intros. unfold streq. rewrite Z.eqb_eq. split; [by apply strcmp_eq|].
  intros ->. apply strcmp_refl.
Qed.

#[global] Instance ascii_eq_dec : EqDecision ascii := Ascii.ascii_dec.

(** A string cut at every separator, and pieces put together again. *)
Fixpoint split_on (sep : ascii) (s : cstr) : list cstr :=
  match s with
  | [] => [[]]
  | c :: s' =>
      if Ascii.eqb c sep then [] :: split_on sep s' else
      match split_on sep s' with
      | p :: ps => (c :: p) :: ps
      | [] => [[c]]
      end
  end.

Fixpoint join_with (sep : ascii) (ps : list cstr) : cstr :=
  match ps with
  | [] => []
  | [p] => p
  | p :: ps' => p ++ sep :: join_with sep ps'
  end.

Lemma split_on_not_nil sep s : split_on sep s <> [].
Proof. destruct s as [|c s]; cbn; [done|]. case_match; [done|]. by case_match. Qed.

Lemma split_on_sep sep s : split_on sep (sep :: s) = [] :: split_on sep s.
Proof. cbn. by rewrite Ascii.eqb_refl. Qed.

Lemma split_on_char sep c s p ps : c <> sep -> split_on sep s = p :: ps -> split_on sep (c :: s) = (c :: p) :: ps.
Proof. intros Hc E. cbn. destruct (Ascii.eqb_spec c sep); [done|]. by rewrite E. Qed.

Lemma split_on_pieces sep s : Forall (fun p => sep ∉ p) (split_on sep s).
Proof.
  induction s as [|c s IH]; cbn; [repeat constructor; set_solver|]. destruct (Ascii.eqb_spec c sep) as [->|Hc]; [constructor; [set_solver|done]|].
  destruct IH; constructor; try constructor; set_solver.
Qed.

Lemma split_on_none sep s : sep ∉ s -> split_on sep s = [s].
Proof.
  induction s as [|c s IH]; intros Hs; [done|]. apply not_elem_of_cons in Hs as [Hc Hs]. apply (split_on_char sep c s s []); [done|by apply IH].
Qed.

Lemma split_on_app sep a s : sep ∉ a -> split_on sep (a ++ sep :: s) = a :: split_on sep s.
Proof.
  induction a as [|c a IH]; intros Ha; [apply split_on_sep|]. apply not_elem_of_cons in Ha as [Hc Ha]. by apply split_on_char, IH.
Qed.

Lemma join_split sep s : join_with sep (split_on sep s) = s.
Proof.
  induction s as [|c s IH]; [done|]. cbn. pose proof (split_on_not_nil sep s). destruct (Ascii.eqb_spec c sep) as [->|Hc]; destruct (split_on sep s) as [|p ps]; try done.
  - cbn in *. by rewrite IH.
  - rewrite <- IH. by destruct ps.
Qed.

(** ** More on arrays and masks *)

Lemma mask_mod x k : 0 <= k <= 31 -> Z.land (u32 x) (u32 (2 ^ k - 1)) = x mod 2 ^ k.
Proof.
  intros Hk. pose proof (Z.pow_pos_nonneg 2 k). pose proof (Z.pow_le_mono_r 2 k 31).
  rewrite (u32_small (2 ^ k - 1)) by (unfold in_u32; lia).
  rewrite land_mask by lia. unfold u32.
  replace 32 with (k + (32 - k)) by lia. rewrite Z.pow_add_r by lia.
  rewrite Z.rem_mul_r by lia. rewrite Z.mul_comm, Z_mod_plus_full. apply Z.mod_mod. lia.
Qed.

Lemma zinsert_id {A} i (x : A) l : l !!z i = Some x -> zinsert i x l = l.
Proof.
  intros H. pose proof (zlookup_lt _ _ _ H). unfold zlookup, zinsert in *.
  rewrite bool_decide_true in * by lia. by apply list_insert_id.
Qed.

Lemma zinsert_twice {A} i (x y : A) l : zinsert i x (zinsert i y l) = zinsert i x l.
Proof. unfold zinsert. case_bool_decide; [|done]. apply list_insert_insert_eq. Qed.

Lemma zinsert_commute {A} i j (x y : A) l : i <> j -> zinsert i x (zinsert j y l) = zinsert j y (zinsert i x l).
Proof.
  intros. unfold zinsert. repeat case_bool_decide; try done. apply list_insert_insert_ne. lia.
Qed.

Lemma zlookup_map {A B} (f : A -> B) l i : map f l !!z i = f <$> (l !!z i).
Proof. unfold zlookup. case_bool_decide; [|done]. change (map f l) with (f <$> l). apply list_lookup_fmap. Qed.

Lemma zlookup_cons {A} (a : A) l i : 0 < i -> (a :: l) !!z i = l !!z (i - 1).
Proof.
  intros Hi. unfold zlookup. rewrite !bool_decide_true by lia.
  replace (Z.to_nat i) with (S (Z.to_nat (i - 1))) by lia. done.
Qed.

Lemma zlookup_cons_0 {A} (a : A) l : (a :: l) !!z 0 = Some a.
Proof. done. Qed.

Lemma zlookup_elem {A} (l : list A) i x : l !!z i = Some x -> x ∈ l.
Proof.
  intros H. pose proof (zlookup_lt _ _ _ H). unfold zlookup in H. rewrite bool_decide_true in H by lia.
  by eapply list_elem_of_lookup_2.
Qed.

(** ** Loops in the result monad *)

Lemma foldM_map {A B} (f : A -> res B) (g : A -> B) l : (forall a, a ∈ l -> f a = OK (g a)) ->
  forall acc, foldM (fun out a => b ← f a; OK (out ++ [b])) acc l = OK (acc ++ map g l).
Proof.
  induction l as [|a l IH]; intros Hf acc; cbn [foldM map]; [by rewrite app_nil_r|].
  rewrite (Hf a) by set_solver. cbn [mbind res_bind]. rewrite IH by (intros; apply Hf; set_solver). by rewrite <- app_assoc.
Qed.

Lemma foldM_inv {A B} (P : A -> Prop) (f : A -> B -> res A) l : forall a r,
  (forall a b a', b ∈ l -> P a -> f a b = OK a' -> P a') -> P a -> foldM f a l = OK r -> P r.
Proof.
  induction l as [|b l IH]; intros a r Hf Ha; cbn [foldM]; [by intros [= <-]|].
  destruct (f a b) as [a'|] eqn:E; [|done]. cbn [mbind res_bind]. intros Hr. apply (IH a'); [|by eapply (Hf a b); [set_solver|..]|done].
  intros x y x' Hy. apply Hf. set_solver.
Qed.

Lemma foldM_map_arg {A B C} (f : A -> C -> res A) (g : B -> C) l : forall a, foldM (fun a b => f a (g b)) a l = foldM f a (map g l).
Proof. induction l as [|b l IH]; intros a; cbn; [done|]. destruct (f a (g b)); cbn; [apply IH|done]. Qed.

Lemma foldM_zip {A B C} (f : A -> res C) (F : A -> B -> C) (l : list A) (k : list B) :
  Forall2 (fun a b => f a = OK (F a b)) l k ->
  forall acc, foldM (fun out a => c ← f a; OK (out ++ [c])) acc l = OK (acc ++ zip_with F l k).
Proof.
  induction 1 as [|a b l k E HF IH]; intros acc; cbn [foldM zip_with]; [by rewrite app_nil_r|].
  rewrite E. cbn [mbind res_bind]. rewrite IH. by rewrite <- app_assoc.
Qed.

Lemma foldM_app {A B} (f : A -> B -> res A) l k : forall a, foldM f a (l ++ k) = (a' ← foldM f a l; foldM f a' k).
Proof. induction l as [|b l IH]; intros a; cbn; [done|]. destruct (f a b); cbn; [apply IH|done]. Qed.

Lemma foldM_concat {A B} (f : A -> B -> res A) ls : forall a, foldM (foldM f) a ls = foldM f a (concat ls).
Proof.
  induction ls as [|l ls IH]; intros a; cbn [foldM concat]; [done|]. rewrite foldM_app.
  destruct (foldM f a l); cbn [mbind res_bind]; [apply IH|done].
Qed.

(** An element put in front of one of several chains. *)
Lemma concat_push {A} (ls : list (list A)) k l x : ls !! k = Some l -> concat (<[k := x :: l]> ls) ≡ₚ x :: concat ls.
Proof.
  intros Hk. apply list_elem_of_split_length in Hk as (a & b & -> & ->). rewrite insert_app_r_alt by lia. rewrite Nat.sub_diag. cbn.
  rewrite !concat_app. cbn. by rewrite <- Permutation_middle.
Qed.
