(* ===== verification/CommonFns.v ===== *)
(** * Common: string hashing and bit tricks

    Models src/src/Common.cpp and the inline functions of
    src/src/Common.hpp: the DJB-2 string hashes in both widths and both case
    modes, [FoldCase], [NextPowerOfTwo], [CountTrailingZeroes] and the byte
    swaps. The process and file-system calls of that file are not here. *)

From S2P Require Import Prelude.

(** ** Definitions *)

(** [FoldCase(int c)]: the comparison is made on the unsigned difference. *)
Definition FoldCase (c : Z) : Z :=
  let x := u32 (c - 65) in
  let d := c + 32 in
  if x <? 26 then d else c.

(** The loop of [Djb2Hash]: [hash = hash * 33 + c] in 32 bits. *)
Fixpoint Djb2Hash_loop (hash : Z) (str : cstr) : Z :=
  match str with
  | [] => hash
  | c :: str' => if uchar c =? 0 then hash else Djb2Hash_loop (u32 (hash * 33 + uchar c)) str'
  end.

Definition Djb2Hash (str : cstr) : Z :=
  let hash := Djb2Hash_loop 5381 str in
  if hash =? 0 then 1 else hash.

Fixpoint Djb2Hash64_loop (hash : Z) (str : cstr) : Z :=
  match str with
  | [] => hash
  | c :: str' => if uchar c =? 0 then hash else Djb2Hash64_loop (u64 (hash * 33 + uchar c)) str'
  end.

Definition Djb2Hash64 (str : cstr) : Z :=
  let hash := Djb2Hash64_loop 5381 str in
  if hash =? 0 then 1 else hash.

Fixpoint Djb2HashNoCase_loop (hash : Z) (str : cstr) : Z :=
  match str with
  | [] => hash
  | c :: str' =>
      if uchar c =? 0 then hash
      else Djb2HashNoCase_loop (u32 (hash * 33 + FoldCase (uchar c))) str'
  end.

Definition Djb2HashNoCase (str : cstr) : Z :=
  let hash := Djb2HashNoCase_loop 5381 str in
  if hash =? 0 then 1 else hash.

Fixpoint Djb2HashNoCase64_loop (hash : Z) (str : cstr) : Z :=
  match str with
  | [] => hash
  | c :: str' =>
      if uchar c =? 0 then hash
      else Djb2HashNoCase64_loop (u64 (hash * 33 + FoldCase (uchar c))) str'
  end.

Definition Djb2HashNoCase64 (str : cstr) : Z :=
  let hash := Djb2HashNoCase64_loop 5381 str in
  if hash =? 0 then 1 else hash.

(** The build feature [TUNDRA_CASE_INSENSITIVE_FILESYSTEM] of Config.hpp is
    the argument [ci]. *)
Definition Djb2HashPath (ci : bool) (str : cstr) : Z :=
  if ci then Djb2HashNoCase str else Djb2Hash str.

Definition Djb2HashPath64 (ci : bool) (str : cstr) : Z :=
  if ci then Djb2HashNoCase64 str else Djb2Hash64 str.

(** [NextPowerOfTwo(uint32_t val)] in a release build, and the three checks it
    makes in a checked one. *)
Definition smear (mask : Z) : Z :=
  let mask := Z.lor mask (Z.shiftr mask 16) in
  let mask := Z.lor mask (Z.shiftr mask 8) in
  let mask := Z.lor mask (Z.shiftr mask 4) in
  let mask := Z.lor mask (Z.shiftr mask 2) in
  Z.lor mask (Z.shiftr mask 1).

Definition NextPowerOfTwo (val : Z) : Z :=
  let mask := u32 (val - 1) in
  let mask := smear mask in
  u32 (mask + 1).

Definition NextPowerOfTwo_checked (val : Z) : res Z :=
  let mask := smear (u32 (val - 1)) in
  let pow2 := u32 (mask + 1) in
  _ ← check (val <=? pow2) "pow2 >= val";
  _ ← check (Z.land pow2 mask =? 0) "(pow2 & mask) == 0";
  _ ← check (Z.land pow2 (u32 (Z.lnot mask)) =? pow2) "(pow2 & ~mask) == pow2";
  OK pow2.

(** [BufferPopOne] of Buffer.hpp: the last element and what is left. *)
Definition BufferPopOne {A} (l : list A) : res (A * list A) :=
  match last l with
  | Some x => OK (x, removelast l)
  | None => Err (CheckFailed "size > 0")
  end.

(** [v &= -int32_t(v)] isolates the lowest set bit; the five masks then read
    off its index. *)
Definition CountTrailingZeroes (v : Z) : Z :=
  let v := Z.land v (u32 (- i32 v)) in
  let bit_index := 32 in
  let bit_index := if v =? 0 then bit_index else bit_index - 1 in
  let bit_index := if Z.land v 0x0000ffff =? 0 then bit_index else bit_index - 16 in
  let bit_index := if Z.land v 0x00ff00ff =? 0 then bit_index else bit_index - 8 in
  let bit_index := if Z.land v 0x0f0f0f0f =? 0 then bit_index else bit_index - 4 in
  let bit_index := if Z.land v 0x33333333 =? 0 then bit_index else bit_index - 2 in
  if Z.land v 0x55555555 =? 0 then bit_index else bit_index - 1.

(** [__builtin_bswap32], the little-endian build. *)
Definition LoadBigEndian32 (v : Z) : Z :=
  Z.lor (Z.shiftl (Z.land v 0xff) 24)
    (Z.lor (Z.shiftl (Z.land (Z.shiftr v 8) 0xff) 16)
       (Z.lor (Z.shiftl (Z.land (Z.shiftr v 16) 0xff) 8)
          (Z.land (Z.shiftr v 24) 0xff))).

(** [TD_ALIGN(v, alignment)]. *)
Definition TD_ALIGN (v alignment : Z) : Z :=
  Z.land (v + alignment - 1) (Z.lnot (alignment - 1)).

(** The ASCII lower-casing of a whole string, the reference for [FoldCase]. *)
Definition lower_ascii (c : ascii) : ascii :=
  if (65 <=? uchar c) && (uchar c <=? 90) then ascii_of_N (Z.to_N (uchar c + 32)) else c.

(** ** Hashes *)

Lemma Djb2Hash_loop_range h s : in_u32 h -> in_u32 (Djb2Hash_loop h s).
Proof.
  revert h. induction s as [|c s IH]; intros h Hh; cbn; [done|].
  case_match; [done|]. apply IH, u32_range.
Qed.

Lemma Djb2Hash_range s : 0 < Djb2Hash s < 2 ^ 32.
Proof.
  unfold Djb2Hash. pose proof (Djb2Hash_loop_range 5381 s) as H.
  unfold in_u32 in H. case_match; zbool; lia.
Qed.

Lemma uchar_lower c : uchar (lower_ascii c) = FoldCase (uchar c).
Proof.
  unfold lower_ascii, FoldCase. pose proof (uchar_range c).
  destruct ((65 <=? uchar c) && (uchar c <=? 90)) eqn:E; zbool.
  - rewrite (u32_small (uchar c - 65)) by (unfold in_u32; lia).
    rewrite (proj2 (Z.ltb_lt _ _)) by lia.
    unfold uchar at 1. rewrite N_ascii_embedding by lia. lia.
  - apply andb_false_iff in E. destruct (Z.ltb_spec (u32 (uchar c - 65)) 26); [|done].
    exfalso. unfold u32 in *. destruct E as [?|?]; zbool.
    + rewrite <- (Z.mod_unique (uchar c - 65) (2^32) (-1) (uchar c - 65 + 2^32)) in *; lia.
    + rewrite Z.mod_small in *; lia.
Qed.

Lemma Djb2HashNoCase_loop_lower h s :
  Djb2HashNoCase_loop h s = Djb2Hash_loop h (map lower_ascii s).
Proof.
  revert h. induction s as [|c s IH]; intros h; cbn; [done|].
  rewrite uchar_lower, IH. destruct (Z.eqb_spec (uchar c) 0) as [->|Hne]; [done|].
  rewrite (proj2 (Z.eqb_neq _ _)); [done|]. unfold FoldCase.
  pose proof (uchar_range c). case_match; lia.
Qed.

(** The case-insensitive hash is the plain hash of the lower-cased string. *)
Lemma Djb2HashNoCase_lower s : Djb2HashNoCase s = Djb2Hash (map lower_ascii s).
Proof. unfold Djb2HashNoCase. by rewrite Djb2HashNoCase_loop_lower. Qed.

Lemma Djb2HashNoCase64_loop_lower h s : Djb2HashNoCase64_loop h s = Djb2Hash64_loop h (map lower_ascii s).
Proof.
  revert h. induction s as [|c s IH]; intros h; cbn; [done|].
  rewrite uchar_lower, IH. destruct (Z.eqb_spec (uchar c) 0) as [->|Hne]; [done|].
  rewrite (proj2 (Z.eqb_neq _ _)); [done|]. unfold FoldCase.
  pose proof (uchar_range c). case_match; lia.
Qed.

Lemma Djb2HashNoCase64_lower s : Djb2HashNoCase64 s = Djb2Hash64 (map lower_ascii s).
Proof. unfold Djb2HashNoCase64. by rewrite Djb2HashNoCase64_loop_lower. Qed.

Lemma Djb2HashPath_range ci s : 0 < Djb2HashPath ci s < 2 ^ 32.
Proof.
  unfold Djb2HashPath. destruct ci; [rewrite Djb2HashNoCase_lower|]; apply Djb2Hash_range.
Qed.

#[export] Hint Resolve Djb2Hash_range Djb2HashPath_range : tundra.

(** ** Powers of two *)

Lemma smear_bit_false m i : 0 <= i ->
  Z.testbit (smear m) i = false <-> (forall k, 0 <= k < 32 -> Z.testbit m (i + k) = false).
Proof.
  intros Hi. unfold smear.
  repeat (rewrite ?Z.lor_spec, ?Z.shiftr_spec by lia).
  rewrite !orb_false_iff, <- !Z.add_assoc. cbn [Z.add Pos.add Pos.succ Pos.add_carry].
  split.
  - intros Hb k Hk. destruct_and!.
    assert (Hin : k ∈ seqZ 0 32) by (apply elem_of_seqZ; lia).
    change (seqZ 0 32) with [0;1;2;3;4;5;6;7;8;9;10;11;12;13;14;15;16;17;18;19;20;21;22;23;24;25;26;27;28;29;30;31] in Hin.
    rewrite !elem_of_cons in Hin. rewrite elem_of_nil in Hin.
    destruct_or?; try done; subst k; rewrite ?Z.add_0_r; assumption.
  - intros H. split_and!; try (apply H; lia).
    rewrite <- (Z.add_0_r i). apply H; lia.
Qed.

Lemma smear_ones m : 0 < m < 2 ^ 32 -> smear m = Z.ones (Z.log2 m + 1).
Proof.
  intros Hm. apply Z.bits_inj'. intros i Hi.
  pose proof (Z.log2_nonneg m). assert (Z.log2 m < 32) by (apply Z.log2_lt_pow2; lia).
  destruct (Z.leb_spec i (Z.log2 m)).
  - rewrite Z.ones_spec_low by lia. apply not_false_iff_true.
    rewrite smear_bit_false by done. intros Hf. specialize (Hf (Z.log2 m - i)).
    rewrite Zplus_minus, Z.bit_log2 in Hf by lia. discriminate Hf. lia.
  - rewrite Z.ones_spec_high by lia. apply smear_bit_false; [done|].
    intros k Hk. apply Z.bits_above_log2; lia.
Qed.

Lemma log2_pred_bound val : 2 <= val <= 2 ^ 31 ->
  1 <= Z.log2 (val - 1) + 1 <= 31 /\ 2 ^ (Z.log2 (val - 1) + 1) <= 2 ^ 31.
Proof.
  intros. assert (Z.log2 (val - 1) < 31) by (apply Z.log2_lt_pow2; lia).
  pose proof (Z.log2_nonneg (val - 1)). split; [lia|]. apply Z.pow_le_mono_r; lia.
Qed.

Lemma NextPowerOfTwo_pow2 val : 2 <= val <= 2 ^ 31 ->
  NextPowerOfTwo val = 2 ^ (Z.log2 (val - 1) + 1).
Proof.
  intros Hv. destruct (log2_pred_bound val Hv) as [Hl Hp].
  unfold NextPowerOfTwo. rewrite (u32_small (val - 1)) by (unfold in_u32; lia).
  rewrite smear_ones, Z.ones_equiv by lia.
  pose proof (Z.pow_pos_nonneg 2 (Z.log2 (val - 1) + 1)).
  rewrite u32_small; unfold in_u32; lia.
Qed.

(** Shape used by the clients: a power of two, at least [val], below [2 * val]. *)
Lemma NextPowerOfTwo_bounds val : 1 <= val <= 2 ^ 31 ->
  exists k, 0 <= k <= 31 /\ NextPowerOfTwo val = 2 ^ k /\ val <= 2 ^ k < 2 * val.
Proof.
  intros Hv. destruct (decide (val = 1)) as [->|]; [exists 0; vm_compute; intuition congruence|].
  rewrite NextPowerOfTwo_pow2 by lia.
  destruct (log2_pred_bound val) as [Hl _]; [lia|].
  exists (Z.log2 (val - 1) + 1). split; [lia|]. split; [done|].
  pose proof (Z.log2_spec (val - 1)) as [Hlo Hhi]; [lia|].
  rewrite Z.pow_add_r, Z.pow_1_r by lia.
  rewrite Z.pow_succ_r in Hhi by lia. lia.
Qed.

(** The bit test of the third check: bit [l] survives the complement of the
    mask below it. *)
Lemma land_pow2_compl l : 0 <= l <= 31 -> Z.land (2 ^ l) (u32 (Z.lnot (Z.ones l))) = 2 ^ l.
Proof.
  intros. assert (2 ^ l <= 2 ^ 31) by (apply Z.pow_le_mono_r; lia).
  pose proof (Z.pow_pos_nonneg 2 l).
  unfold u32. rewrite <- Z.land_ones, (Z.land_comm _ (Z.ones 32)), Z.land_assoc by lia.
  rewrite Z.land_ones, Z.mod_small by lia.
  rewrite <- Z.ldiff_land. apply Z.bits_inj'. intros i Hi.
  rewrite Z.ldiff_spec, Z.pow2_bits_eqb by lia.
  destruct (Z.eqb_spec l i) as [->|]; [|done]. by rewrite Z.ones_spec_high by lia.
Qed.

Lemma NextPowerOfTwo_checked_OK val : 1 <= val <= 2 ^ 31 ->
  NextPowerOfTwo_checked val = OK (NextPowerOfTwo val).
Proof.
  intros Hv. destruct (decide (val = 1)) as [->|]; [done|].
  destruct (log2_pred_bound val) as [Hl Hp]; [lia|].
  pose proof (NextPowerOfTwo_pow2 val) as E. specialize (E ltac:(lia)).
  destruct (NextPowerOfTwo_bounds val Hv) as (k & Hk & E' & Hb).
  unfold NextPowerOfTwo_checked. unfold NextPowerOfTwo in *. cbn zeta in *.
  rewrite E. rewrite (u32_small (val - 1)) by (unfold in_u32; lia).
  rewrite smear_ones by lia. unfold check.
  rewrite (proj2 (Z.leb_le val _)) by lia. cbn -[Z.add Z.pow Z.lnot Z.ones u32 Z.land].
  rewrite Z.land_ones, Z_mod_same_full by lia. cbn -[Z.add Z.pow Z.lnot Z.ones u32 Z.land].
  by rewrite land_pow2_compl, Z.eqb_refl by lia.
Qed.

(** ** Trailing zeroes *)

Lemma land_neg_odd q : Z.odd q = true -> Z.land q (- q) = 1.
Proof.
  intros Hq. apply Z.odd_spec in Hq as [r ->]. apply Z.bits_inj'. intros i Hi.
  rewrite Z.land_spec. replace (- (2 * r + 1)) with (2 * Z.lnot r + 1) by (unfold Z.lnot; lia).
  destruct (decide (i = 0)) as [->|].
  - rewrite (Z.testbit_odd_0 r), (Z.testbit_odd_0 (Z.lnot r)). reflexivity.
  - replace i with (Z.succ (i - 1)) by lia.
    rewrite !Z.testbit_odd_succ by lia. rewrite Z.lnot_spec by lia.
    rewrite (Z.bits_above_log2 1 (Z.succ (i - 1))) by (cbn; lia). by destruct (Z.testbit r (i - 1)).
Qed.

Lemma odd_part v : 0 < v -> exists q k, 0 <= k /\ Z.odd q = true /\ v = q * 2 ^ k.
Proof.
  intros Hv. destruct v as [|p|p]; try lia. clear Hv. induction p as [p|p IH|].
  - exists (Z.pos p~1), 0. rewrite Z.pow_0_r, Z.mul_1_r. done.
  - destruct IH as (q & k & Hk & Hq & E). exists q, (k + 1).
    split; [lia|]. split; [done|]. rewrite Z.pow_add_r by lia. lia.
  - exists 1, 0. done.
Qed.

Lemma isolate_lowest q k : 0 <= k < 32 -> Z.odd q = true -> 0 < q * 2 ^ k < 2 ^ 32 ->
  Z.land (q * 2 ^ k) (u32 (- i32 (q * 2 ^ k))) = 2 ^ k.
Proof.
  intros Hk Hq Hv. set (v := q * 2 ^ k) in *.
  assert (E : u32 (- i32 v) = u32 (- v)).
  { unfold u32, i32.
    replace (- ((v + 2 ^ 31) mod 2 ^ 32 - 2 ^ 31)) with (2 ^ 31 - (v + 2 ^ 31) mod 2 ^ 32) by lia.
    rewrite Zdiv.Zminus_mod_idemp_r. f_equal. lia. }
  rewrite E. unfold u32. rewrite <- Z.land_ones, Z.land_assoc by lia.
  replace (Z.land v (- v)) with (2 ^ k).
  - rewrite Z.land_ones by lia. apply Z.mod_small.
    pose proof (Z.pow_lt_mono_r 2 k 32). lia.
  - unfold v. rewrite <- Z.mul_opp_l, <- !Z.shiftl_mul_pow2 by lia.
    rewrite <- Z.shiftl_land, land_neg_odd by done. rewrite Z.shiftl_mul_pow2; lia.
Qed.

Lemma CountTrailingZeroes_pow2 k : 0 <= k < 32 ->
  CountTrailingZeroes (2 ^ k) = k.
Proof.
  intros Hk.
  assert (H : forallb (fun k => CountTrailingZeroes (2 ^ k) =? k) (seqZ 0 32) = true)
    by (vm_compute; reflexivity).
  rewrite forallb_forall in H. apply Z.eqb_eq, H, list_elem_of_In, elem_of_seqZ. lia.
Qed.

Lemma CountTrailingZeroes_odd q k : 0 <= k < 32 -> Z.odd q = true -> 0 < q * 2 ^ k < 2 ^ 32 ->
  CountTrailingZeroes (q * 2 ^ k) = k.
Proof.
  intros Hk Hq Hv. etransitivity; [|by apply (CountTrailingZeroes_pow2 k)].
  assert (E : Z.land (2 ^ k) (u32 (- i32 (2 ^ k))) = 2 ^ k).
  { pose proof (Z.pow_lt_mono_r 2 k 32). pose proof (Z.pow_pos_nonneg 2 k).
    pose proof (isolate_lowest 1 k) as H1. rewrite Z.mul_1_l in H1. apply H1; [lia|done|lia]. }
  unfold CountTrailingZeroes. by rewrite isolate_lowest, E by done.
Qed.

(** The result is the index of the lowest set bit. *)
Lemma CountTrailingZeroes_spec v : 0 < v < 2 ^ 32 ->
  let k := CountTrailingZeroes v in
  0 <= k < 32 /\ Z.testbit v k = true /\ forall j, 0 <= j < k -> Z.testbit v j = false.
Proof.
  intros Hv. destruct (odd_part v) as (q & k & Hk & Hq & E); [lia|].
  assert (k < 32).
  { destruct (Z.lt_ge_cases k 32); [done|]. exfalso.
    pose proof (Z.pow_le_mono_r 2 32 k). assert (0 < q) by nia. nia. }
  cbn zeta. rewrite E, CountTrailingZeroes_odd by (rewrite <- ?E; done || lia).
  split; [lia|]. split.
  - rewrite Z.mul_pow2_bits by lia. by rewrite Z.sub_diag, Z.bit0_odd.
  - intros j Hj. rewrite Z.mul_pow2_bits_low; [done|lia].
Qed.
