(* ===== verification/CType.v ===== *)
(** * Character classes

    The functions of <ctype.h> the program calls, in the C locale. Bytes above
    127 are in no class, as in the common implementations; the C standard leaves
    them undefined for a negative [char]. *)

From S2P Require Import Prelude.

Definition isspace (c : ascii) : bool := let u := uchar c in (u =? 32) || ((9 <=? u) && (u <=? 13)).
Definition isdigit (c : ascii) : bool := let u := uchar c in (48 <=? u) && (u <=? 57).
Definition isupper (c : ascii) : bool := let u := uchar c in (65 <=? u) && (u <=? 90).
Definition islower (c : ascii) : bool := let u := uchar c in (97 <=? u) && (u <=? 122).
Definition isalnum (c : ascii) : bool := isdigit c || isupper c || islower c.
Definition tolower (c : ascii) : Z := if isupper c then uchar c + 32 else uchar c.
Definition isxdigit (c : ascii) : bool := isdigit c || ((97 <=? tolower c) && (tolower c <=? 102)).

(** The value of a hexadecimal digit. *)
Definition xdigit (c : ascii) : Z := if isdigit c then uchar c - 48 else tolower c - 97 + 10.

Fixpoint span (p : ascii -> bool) (s : cstr) : cstr * cstr :=
  match s with
  | c :: s' => if p c then let '(a, b) := span p s' in (c :: a, b) else ([], s)
  | [] => ([], [])
  end.
