(* ===== verification/Buffers.v ===== *)
(** * Buffers

    src/src/Buffer.hpp: an array that grows by reallocation. A buffer has a block
    of the heap, whose elements beyond the size are whatever was there; [junk] is
    what a new block holds. The block has a number, so that it can be said whether
    a pointer into it survives an operation. *)

From S2P Require Import Prelude CommonFns.

(** The capacity after [BufferAlloc]; sizes are numbers of elements in memory, and
    twice such a number fits the [size_t] of the source. *)
Definition BufferAlloc_capacity (capacity old_size count : Z) : Z :=
  if capacity <? old_size + count then
    let new_capacity := if capacity =? 0 then 8 else capacity * 2 in
    if new_capacity <? old_size + count then old_size + count else new_capacity
  else capacity.

Section Buffers.
Context {T : Type} (junk : nat -> T).

(** [m_Storage] is the number of the block and its elements; 0 is the null pointer. *)
Record Buffer : Type := mkBuffer { bu_Block : nat; bu_Storage : list T; bu_Size : Z; bu_Capacity : Z }.

(** The heap gives each new block the next number. *)
Definition heap : Type := nat.

Definition BufferInit : Buffer := mkBuffer 0 [] 0 0.
Definition BufferClear (b : Buffer) : Buffer := mkBuffer (bu_Block b) (bu_Storage b) 0 (bu_Capacity b).

Definition fresh_block (n : Z) : list T := map junk (seq 0 (Z.to_nat n)).

Definition BufferInitWithCapacity (h : heap) (capacity : Z) : heap * Buffer :=
  (S h, mkBuffer (S h) (fresh_block capacity) 0 capacity).

Definition BufferDestroy (b : Buffer) : Buffer := if (bu_Block b =? 0)%nat then b else BufferInit.

(** [realloc] keeps the elements that fit. *)
Definition HeapReallocate (storage : list T) (n : Z) : list T := take (Z.to_nat n) (storage ++ fresh_block n).

(** The buffer, and the index of the first of the new elements. *)
Definition BufferAlloc (h : heap) (b : Buffer) (count : Z) : heap * Buffer * Z :=
  let old_size := bu_Size b in
  if bu_Capacity b <? old_size + count then
    let new_capacity := BufferAlloc_capacity (bu_Capacity b) old_size count in
    (S h, mkBuffer (S h) (HeapReallocate (bu_Storage b) new_capacity) (old_size + count) new_capacity, old_size)
  else (h, mkBuffer (bu_Block b) (bu_Storage b) (old_size + count) (bu_Capacity b), old_size).

(** Writing elements from an index on, which must be in the block. *)
Fixpoint store (storage : list T) (i : Z) (elems : list T) : res (list T) :=
  match elems with
  | [] => OK storage
  | e :: elems => storage ← zwrite i e storage; store storage (i + 1) elems
  end.

Definition BufferAppend (h : heap) (b : Buffer) (elems : list T) : res (heap * Buffer) :=
  let '(h, b, dest) := BufferAlloc h b (zlen elems) in
  storage ← store (bu_Storage b) dest elems;
  OK (h, mkBuffer (bu_Block b) storage (bu_Size b) (bu_Capacity b)).

Definition BufferAllocFill (h : heap) (b : Buffer) (count : Z) (fill_value : T) : res (heap * Buffer) :=
  BufferAppend h b (replicate (Z.to_nat count) fill_value).

Definition BufferAppendOne (h : heap) (b : Buffer) (elem : T) : res (heap * Buffer) := BufferAppend h b [elem].

Definition BufferPop (b : Buffer) : res (Buffer * T) :=
  _ ← check (0 <? bu_Size b) "size > 0";
  x ← of_opt (bu_Storage b !!z (bu_Size b - 1));
  OK (mkBuffer (bu_Block b) (bu_Storage b) (bu_Size b - 1) (bu_Capacity b), x).

(** ** Buffers are lists *)

Definition contents (b : Buffer) : list T := take (Z.to_nat (bu_Size b)) (bu_Storage b).

Record buffer_ok (b : Buffer) : Prop := {
  bo_size : 0 <= bu_Size b <= bu_Capacity b;
  bo_storage : zlen (bu_Storage b) = bu_Capacity b;
  bo_bound : bu_Capacity b < 2 ^ 62;
  bo_block : bu_Block b = 0%nat -> bu_Capacity b = 0 }.

Lemma contents_length b : buffer_ok b -> zlen (contents b) = bu_Size b.
Proof. intros [H1 H2 _ _]. unfold contents. rewrite length_take. lia. Qed.

Lemma store_middle l : forall a old rest, length old = length l -> store (a ++ old ++ rest) (zlen a) l = OK (a ++ l ++ rest).
Proof.
  induction l as [|e l IH]; intros a [|o old] rest Hl; try done. cbn [store app]. rewrite zwrite_middle. cbn [mbind res_bind].
  replace (a ++ e :: old ++ rest) with ((a ++ [e]) ++ old ++ rest) by (by rewrite <- app_assoc). replace (zlen a + 1) with (zlen (a ++ [e])) by (rewrite length_app; cbn; lia).
  rewrite IH by (cbn in Hl; lia). by rewrite <- app_assoc.
Qed.

(** After the allocation the block begins with what was there and has room. *)
Lemma alloc_ok h b count : buffer_ok b -> 0 <= count -> bu_Size b + count < 2 ^ 61 ->
  exists h' b', BufferAlloc h b count = (h', b', bu_Size b) /\ bu_Size b' = bu_Size b + count /\ buffer_ok b' /\
    (exists rest, bu_Storage b' = contents b ++ rest /\ count <= zlen rest) /\
    (bu_Size b + count <= bu_Capacity b -> h' = h /\ bu_Block b' = bu_Block b /\ bu_Capacity b' = bu_Capacity b) /\
    bu_Capacity b' <= Z.max (Z.max 8 (bu_Capacity b)) (2 * (bu_Size b + count)).
Proof.
  intros [H1 H2 H3 H4] Hc Hb. unfold BufferAlloc.
  assert (Hsplit : bu_Storage b = contents b ++ drop (Z.to_nat (bu_Size b)) (bu_Storage b)) by (unfold contents; by rewrite take_drop).
  assert (Hcl : length (contents b) = Z.to_nat (bu_Size b)) by (unfold contents; rewrite length_take; lia).
  destruct (Z.ltb_spec (bu_Capacity b) (bu_Size b + count)).
  - assert (Hn : bu_Size b + count <= BufferAlloc_capacity (bu_Capacity b) (bu_Size b) count <= Z.max 8 (2 * (bu_Size b + count))).
    { unfold BufferAlloc_capacity. repeat case_match; zbool; lia. }
    set (n := BufferAlloc_capacity _ _ _) in *. assert (Hf : length (fresh_block n) = Z.to_nat n) by (unfold fresh_block; by rewrite length_map, length_seq).
    eexists _, _. split; [reflexivity|]. cbn. split; [done|]. split; [|split; [|split; [lia|lia]]].
    + constructor; cbn; [lia| |lia|done]. unfold HeapReallocate. rewrite length_take, length_app. lia.
    + exists (take (Z.to_nat n - Z.to_nat (bu_Size b)) (drop (Z.to_nat (bu_Size b)) (bu_Storage b) ++ fresh_block n)). split.
      * unfold HeapReallocate. rewrite Hsplit at 1. rewrite <- app_assoc, take_app, Hcl, (take_ge (contents b)) by lia. done.
      * rewrite length_take, length_app, length_drop. lia.
  - eexists _, _. split; [reflexivity|]. cbn. split; [done|]. split; [by constructor; cbn; lia|]. split; [|split; [done|lia]].
    eexists. split; [exact Hsplit|]. rewrite length_drop. lia.
Qed.

Lemma append_ok h b l : buffer_ok b -> bu_Size b + zlen l < 2 ^ 61 ->
  exists h' b', BufferAppend h b l = OK (h', b') /\ buffer_ok b' /\ contents b' = contents b ++ l /\
    (bu_Size b + zlen l <= bu_Capacity b -> h' = h /\ bu_Block b' = bu_Block b) /\
    bu_Capacity b' <= Z.max (Z.max 8 (bu_Capacity b)) (2 * zlen (contents b')).
Proof.
  intros Hok Hb. pose proof (contents_length b Hok) as Hl. destruct (alloc_ok h b (zlen l) Hok ltac:(lia) Hb) as (h' & b' & E & Hs & Hok' & (rest & Hst & Hr) & Hkeep & Hcap).
  unfold BufferAppend. rewrite E, Hst, <- Hl. rewrite <- (take_drop (length l) rest), store_middle by (rewrite length_take; lia). cbn [mbind res_bind].
  eexists _, _. split; [reflexivity|]. destruct Hok' as [K1 K2 K3 K4].
  assert (Hc : contents (mkBuffer (bu_Block b') (contents b ++ l ++ drop (length l) rest) (bu_Size b') (bu_Capacity b')) = contents b ++ l).
  { unfold contents at 1. cbn [bu_Size bu_Storage]. rewrite app_assoc. apply take_app_length'. rewrite length_app. lia. }
  rewrite Hc. cbn [bu_Block bu_Capacity]. split; [constructor; cbn; [done| |done|done]|].
  - rewrite <- K2, Hst, !length_app, length_drop. lia.
  - split_and!; [done|intros Hroom; destruct Hkeep as (? & ? & _); [lia|done]|]. rewrite length_app. lia.
Qed.

Lemma pop_ok b : buffer_ok b ->
  match BufferPop b with
  | OK (b', x) => buffer_ok b' /\ contents b = contents b' ++ [x] /\ bu_Block b' = bu_Block b
  | Err _ => contents b = []
  end.
Proof.
  intros Hok. pose proof (contents_length b Hok) as Hl. destruct Hok as [H1 H2 H3 H4]. unfold BufferPop. destruct (Z.ltb_spec 0 (bu_Size b)); cbn [check mbind res_bind].
  - destruct (zlookup_is_Some (bu_Storage b) (bu_Size b - 1)) as [x Hx]; [lia|]. rewrite Hx. cbn. split; [constructor; cbn; lia || done|]. split; [|done].
    unfold contents. cbn. replace (Z.to_nat (bu_Size b)) with (S (Z.to_nat (bu_Size b - 1))) by lia. apply take_S_r.
    unfold zlookup in Hx. by rewrite bool_decide_true in Hx by lia.
  - apply nil_length_inv. lia.
Qed.

(** ** Refinement *)

Inductive buffer_op : Type :=
| OpAppend (elems : list T)
| OpPop
| OpClear
| OpDestroy.

(** The operation on the buffer, and what it returns. *)
Definition buffer_step (hb : heap * Buffer) (o : buffer_op) : res (heap * Buffer * option T) :=
  let '(h, b) := hb in
  match o with
  | OpAppend elems => hb ← BufferAppend h b elems; OK (hb, None)
  | OpPop => '(b, x) ← BufferPop b; OK (h, b, Some x)
  | OpClear => OK (h, BufferClear b, None)
  | OpDestroy => OK (h, BufferDestroy b, None)
  end.

(** The same on lists, as the other components have it. *)
Definition list_step (l : list T) (o : buffer_op) : res (list T * option T) :=
  match o with
  | OpAppend elems => OK (l ++ elems, None)
  | OpPop => '(x, l) ← BufferPopOne l; OK (l, Some x)
  | OpClear | OpDestroy => OK ([], None)
  end.

(** C35. A buffer refines a list: every operation ends and gives what it gives on
    the list of the elements, a pop of the empty buffer alone fails; growing keeps
    the elements, at most doubles the room that is needed, and does not move the
    block when there is room, so that pointers into it stay valid. *)
Theorem buffer_refines_list h b o : buffer_ok b ->
  (match o with OpAppend elems => bu_Size b + zlen elems < 2 ^ 61 | _ => True end) ->
  match list_step (contents b) o with
  | OK (l, r) =>
      exists h' b', buffer_step (h, b) o = OK (h', b', r) /\ buffer_ok b' /\ contents b' = l /\
        bu_Capacity b' <= Z.max (Z.max 8 (bu_Capacity b)) (2 * zlen l) /\
        (match o with OpAppend elems => bu_Size b + zlen elems <= bu_Capacity b | OpDestroy => False | _ => True end -> bu_Block b' = bu_Block b)
  | Err f => buffer_step (h, b) o = Err f
  end.
Proof.
  intros Hok Ho. destruct o as [elems| | |]; cbn [list_step buffer_step].
  - destruct (append_ok h b elems Hok Ho) as (h' & b' & -> & Hok' & Hc & Hk & Hcap). cbn. exists h', b'. rewrite <- Hc. split_and!; try done. intros Hr. by apply Hk.
  - pose proof (pop_ok b Hok) as Hp. pose proof (contents_length b Hok) as Hl. destruct (BufferPop b) as [[b' x]|f] eqn:E.
    + destruct Hp as (Hok' & Hc & Hb). unfold BufferPopOne. rewrite Hc, last_snoc. cbn. exists h, b'. split; [done|]. rewrite removelast_last. split_and!; [done|done| |done].
      unfold BufferPop in E. destruct (0 <? bu_Size b); [|done]. cbn [check mbind res_bind] in E. destruct (bu_Storage b !!z (bu_Size b - 1)); [|done]. cbn in E. injection E as <- _. cbn. lia.
    + unfold BufferPopOne. rewrite Hp. cbn. rewrite Hp in Hl. cbn in Hl. unfold BufferPop in E. rewrite <- Hl in E. cbn in E. by injection E as <-.
  - destruct Hok as [H1 H2 H3 H4]. exists h, (BufferClear b). split_and!; [done|constructor; cbn; lia || done|done|cbn; lia|done].
  - destruct Hok as [H1 H2 H3 H4]. exists h, (BufferDestroy b). split; [done|]. unfold BufferDestroy. destruct (Nat.eqb_spec (bu_Block b) 0) as [E|E].
    + specialize (H4 E). split_and!; [by constructor|unfold contents; apply nil_length_inv; rewrite length_take; lia|lia|done].
    + split_and!; [constructor; cbn; lia|done|cbn; lia|done].
Qed.
End Buffers.

Lemma buffer_refines_list_witness :
  let b := mkBuffer 3 [5; 6; 7; 0] 3 4 in
  exists h' b', buffer_step (fun _ => 9) (3%nat, b) (OpAppend [8; 9]) = OK (h', b', None) /\ buffer_ok b' /\ contents b' = [5; 6; 7; 8; 9].
Proof.
  intros b. destruct (buffer_refines_list (fun _ => 9) 3%nat b (OpAppend [8; 9])) as (h' & b' & H1 & H2 & H3 & _).
  - constructor; cbn; lia.
  - cbn. lia.
  - exists h', b'. split; [exact H1|]. split; [exact H2|]. exact H3.
Defined.
