(* ===== verification/Hash.v ===== *)
(** * Hash: streaming digests

    Models src/src/Hash.hpp and Hash.cpp (the streaming layer: a 64 byte
    buffer, a bit counter, padding) over the two block functions the build can
    choose, src/src/HashFast.cpp (the default) and src/src/HashSha1.cpp.
    The choice made by the preprocessor is an instance of the class
    [HashBackend]. The debug trace written to [m_DebugFile] is not modelled. *)

From S2P Require Import Prelude CommonFns.

(** ** Bytes *)

Definition byte_of (z : Z) : ascii := ascii_of_N (Z.to_N (z mod 256)).

Lemma uchar_byte_of z : uchar (byte_of z) = z mod 256.
Proof.
  unfold uchar, byte_of. pose proof (Z.mod_pos_bound z 256).
  rewrite N_ascii_embedding by lia. lia.
Qed.

Lemma byte_of_uchar c : byte_of (uchar c) = c.
Proof.
  apply uchar_inj. rewrite uchar_byte_of. apply Z.mod_small. pose proof (uchar_range c). lia.
Qed.

(** ** The backend interface *)

Class HashBackend : Type := {
  HashStateImpl : Type;
  digest_t : Type;
  HashInitImpl : HashStateImpl;
  HashBlock : cstr -> HashStateImpl -> HashStateImpl;
  HashFinalizeImpl : HashStateImpl -> digest_t
}.

(** ** The streaming layer *)

Section Streaming.
Context {B : HashBackend}.

Record HashState : Type := mkHashState {
  m_StateImpl : HashStateImpl;
  m_MsgSize : Z;
  m_BufUsed : Z;
  m_Buffer : cstr
}.

(** [memcpy(buffer + off, data, len)] inside a buffer. *)
Definition memcpy_at (buffer : cstr) (off : Z) (data : cstr) : cstr :=
  take (Z.to_nat off) buffer ++ data ++ drop (Z.to_nat off + length data) buffer.

(** The loop of [HashUpdate]; every iteration consumes input, so the length of
    the input is enough fuel. *)
Fixpoint HashUpdate_loop (fuel : nat) (st : HashStateImpl) (buffer : cstr) (used : Z) (data : cstr)
  : HashStateImpl * cstr * Z :=
  match fuel with
  | O => (st, buffer, used)
  | S fuel =>
      let remain := zlen data in
      if remain <=? 0 then (st, buffer, used)
      else if negb (used =? 0) || (remain <? 64) then
        let buf_space := 64 - used in
        let copy_size := if remain <? buf_space then remain else buf_space in
        let buffer := memcpy_at buffer used (take (Z.to_nat copy_size) data) in
        let used := used + copy_size in
        let data := drop (Z.to_nat copy_size) data in
        if used =? 64 then HashUpdate_loop fuel (HashBlock buffer st) buffer 0 data
        else HashUpdate_loop fuel st buffer used data
      else
        HashUpdate_loop fuel (HashBlock (take 64 data) st) buffer used (drop 64 data)
  end.

Definition HashUpdate (self : HashState) (data : cstr) : HashState :=
  let '(st, buffer, used) :=
    HashUpdate_loop (length data) (m_StateImpl self) (m_Buffer self) (m_BufUsed self) data in
  mkHashState st (u64 (m_MsgSize self + zlen data * 8)) used buffer.

(** [m_Buffer] is left uninitialised by [HashInit]: [junk] is what the stack
    held. *)
Definition HashInit (junk : cstr) : HashState := mkHashState HashInitImpl 0 0 junk.

(** A C string argument: the bytes before the terminator. *)
Fixpoint cbytes (s : cstr) : cstr :=
  match s with
  | [] => []
  | c :: s' => if Ascii.eqb c NUL then [] else c :: cbytes s'
  end.

Definition HashAddString (self : HashState) (s : cstr) : HashState := HashUpdate self (cbytes s).

Fixpoint HashAddStringFoldCase (self : HashState) (path : cstr) : HashState :=
  match path with
  | [] => self
  | c :: path' =>
      if schar c =? 0 then self
      else HashAddStringFoldCase (HashUpdate self [byte_of (FoldCase (schar c))]) path'
  end.

Definition HashAddPath (ci : bool) (self : HashState) (path : cstr) : HashState :=
  if ci then HashAddStringFoldCase self path else HashAddString self path.

Definition big_endian64 (value : Z) : cstr :=
  [byte_of (Z.shiftr value 56); byte_of (Z.shiftr value 48); byte_of (Z.shiftr value 40);
   byte_of (Z.shiftr value 32); byte_of (Z.shiftr value 24); byte_of (Z.shiftr value 16);
   byte_of (Z.shiftr value 8); byte_of (Z.shiftr value 0)].

Definition HashAddInteger (self : HashState) (value : Z) : HashState :=
  HashUpdate self (big_endian64 value).

Definition HashAddSeparator (self : HashState) : HashState := HashUpdate self [NUL].

Definition HashFinalize (self : HashState) : res digest_t :=
  let count_data := map (fun i => byte_of (Z.shiftr (m_MsgSize self) (56 - i * 8))) (seqZ 0 8) in
  let self := HashUpdate self [byte_of 128] in
  let diff := m_BufUsed self - (64 - 8) in
  let self := if diff <? 0 then HashUpdate self (replicate (Z.to_nat (- diff)) NUL)
              else HashUpdate self (replicate (Z.to_nat (64 - diff)) NUL) in
  _ ← check (m_BufUsed self =? 64 - 8) "self->m_BufUsed == sizeof(self->m_Buffer) - 8";
  let self := HashUpdate self count_data in
  _ ← check (0 =? m_BufUsed self) "0 == self->m_BufUsed";
  OK (HashFinalizeImpl (m_StateImpl self)).

Definition HashSingleString (junk string : cstr) : res digest_t :=
  HashFinalize (HashAddString (HashInit junk) string).

(** ** Specification: the block function over the whole message *)

(** Absorb the complete blocks of [msg], leaving the rest. *)
Fixpoint absorb (fuel : nat) (st : HashStateImpl) (msg : cstr) : HashStateImpl * cstr :=
  match fuel with
  | O => (st, msg)
  | S fuel => if zlen msg <? 64 then (st, msg)
              else absorb fuel (HashBlock (take 64 msg) st) (drop 64 msg)
  end.

Definition absorb_all (msg : cstr) : HashStateImpl * cstr := absorb (length msg) HashInitImpl msg.

(** The streaming state after [msg] has gone through: what [HashFinalize] can
    observe of it. The bytes of the buffer past [m_BufUsed] are unspecified. *)
Definition hash_repr (h : HashState) (msg : cstr) : Prop :=
  length (m_Buffer h) = 64%nat /\
  m_MsgSize h = u64 (zlen msg * 8) /\
  m_BufUsed h = zlen (absorb_all msg).2 /\
  m_StateImpl h = (absorb_all msg).1 /\
  take (Z.to_nat (m_BufUsed h)) (m_Buffer h) = (absorb_all msg).2.

(** Padding appended by [HashFinalize]: one bit, zeroes up to eight bytes
    before a block boundary, the length in bits. *)
Definition pad_zeroes (len : Z) : Z :=
  let used := (len + 1) mod 64 in
  if used <? 56 then 56 - used else 120 - used.

Definition padding (msg : cstr) : cstr :=
  [byte_of 128] ++ replicate (Z.to_nat (pad_zeroes (zlen msg))) NUL ++
  big_endian64 (u64 (zlen msg * 8)).

Definition digest_of (msg : cstr) : digest_t :=
  HashFinalizeImpl (absorb_all (msg ++ padding msg)).1.

(** ** Lemmas *)

Lemma absorb_short fuel st msg : (length msg < 64)%nat -> absorb fuel st msg = (st, msg).
Proof. intros. destruct fuel; cbn [absorb]; [done|]. by rewrite (proj2 (Z.ltb_lt _ _)) by lia. Qed.

Lemma absorb_fuel f1 f2 st msg : (length msg <= 64 * f1 + 63)%nat -> (length msg <= 64 * f2 + 63)%nat ->
  absorb f1 st msg = absorb f2 st msg.
Proof.
  revert f2 st msg. induction f1 as [|f1 IH]; intros f2 st msg H1 H2.
  - rewrite !absorb_short by lia. done.
  - destruct (Z.ltb_spec (zlen msg) 64); [by rewrite !absorb_short by lia|].
    destruct f2 as [|f2]; [lia|]. cbn [absorb]. destruct (zlen msg <? 64); [done|].
    apply IH; rewrite length_drop; lia.
Qed.

Lemma absorb_rest fuel st msg : (length msg <= 64 * fuel + 63)%nat ->
  length (absorb fuel st msg).2 = (length msg mod 64)%nat.
Proof.
  revert st msg. induction fuel as [|fuel IH]; intros st msg H; cbn [absorb].
  - cbn [snd]. rewrite Nat.mod_small; lia.
  - destruct (Z.ltb_spec (zlen msg) 64); cbn [snd]; [rewrite Nat.mod_small; lia|].
    rewrite IH by (rewrite length_drop; lia). rewrite length_drop.
    rewrite <- (Nat.Div0.mod_add (length msg - 64) 1 64). f_equal. lia.
Qed.

(** Feeding more data resumes from the unabsorbed rest. *)
Lemma absorb_app fuel st msg d : (length msg <= 64 * fuel + 63)%nat ->
  let '(st', rest) := absorb fuel st msg in
  forall fuel', (length msg + length d <= 64 * fuel' + 63)%nat ->
  absorb fuel' st (msg ++ d) = absorb fuel' st' (rest ++ d).
Proof.
  revert st msg. induction fuel as [|fuel IH]; intros st msg H; cbn [absorb]; [done|].
  destruct (Z.ltb_spec (zlen msg) 64); [done|].
  specialize (IH (HashBlock (take 64 msg) st) (drop 64 msg)).
  rewrite length_drop in IH. specialize (IH ltac:(lia)).
  pose proof (absorb_rest fuel (HashBlock (take 64 msg) st) (drop 64 msg)) as Hr.
  rewrite length_drop in Hr. specialize (Hr ltac:(lia)).
  destruct (absorb fuel _ (drop 64 msg)) as [st' rest]; cbn [snd] in Hr.
  intros fuel' Hf. destruct fuel' as [|fuel']; [lia|].
  rewrite <- (absorb_fuel fuel' (S fuel') st' (rest ++ d)).
  - rewrite <- IH by lia. cbn [absorb]. rewrite length_app.
    destruct (Z.ltb_spec (Z.of_nat (length msg + length d)) 64); [lia|].
    by rewrite take_app_le, drop_app_le by lia.
  - rewrite length_app, Hr. pose proof (Nat.mod_upper_bound (length msg - 64) 64). 
    pose proof (Nat.Div0.mod_le (length msg - 64) 64). lia.
  - rewrite length_app, Hr. pose proof (Nat.Div0.mod_le (length msg - 64) 64). lia.
Qed.

Lemma length_memcpy_at buffer off data :
  0 <= off -> off + zlen data <= zlen buffer -> length (memcpy_at buffer off data) = length buffer.
Proof.
  intros. unfold memcpy_at. rewrite !length_app, length_take, length_drop. lia.
Qed.

Lemma take_memcpy_at buffer off data : 0 <= off -> off + zlen data <= zlen buffer ->
  take (Z.to_nat (off + zlen data)) (memcpy_at buffer off data) = take (Z.to_nat off) buffer ++ data.
Proof.
  intros. unfold memcpy_at. rewrite app_assoc.
  rewrite take_app_length'; [done|]. rewrite length_app, length_take. lia.
Qed.

(** The loop against the block specification: the buffered prefix plus the
    new data, absorbed. *)
Lemma HashUpdate_loop_absorb fuel st buffer used data :
  (length data <= fuel)%nat -> length buffer = 64%nat -> 0 <= used < 64 ->
  let '(st', buffer', used') := HashUpdate_loop fuel st buffer used data in
  let '(st2, rest) := absorb (64 + length data) st (take (Z.to_nat used) buffer ++ data) in
  length buffer' = 64%nat /\ used' = zlen rest /\ st' = st2 /\ take (Z.to_nat used') buffer' = rest.
Proof.
  revert st buffer used data. induction fuel as [|fuel IH]; intros st buffer used data Hf Hb Hu.
  { destruct data; [|cbn in Hf; lia]. rewrite app_nil_r. cbn [HashUpdate_loop].
    rewrite absorb_short by (rewrite length_take; lia).
    rewrite length_take. split_and!; [lia..|done|done]. }
  cbn [HashUpdate_loop]. destruct (Z.leb_spec (zlen data) 0).
  { destruct data; [|cbn in *; lia]. rewrite app_nil_r.
    rewrite absorb_short by (rewrite length_take; lia).
    rewrite length_take. split_and!; [lia..|done|done]. }
  destruct (negb (used =? 0) || (zlen data <? 64)) eqn:E.
  - set (cs := if zlen data <? 64 - used then zlen data else 64 - used).
    assert (Hcs : 0 < cs /\ cs <= zlen data /\ used + cs <= 64 /\ (cs = zlen data \/ used + cs = 64))
      by (unfold cs; destruct (Z.ltb_spec (zlen data) (64 - used)); lia).
    assert (Hlt : length (take (Z.to_nat cs) data) = Z.to_nat cs) by (rewrite length_take; lia).
    assert (Hz : zlen (take (Z.to_nat cs) data) = cs) by lia.
    pose proof (take_memcpy_at buffer used (take (Z.to_nat cs) data)) as Ht. rewrite Hz in Ht.
    specialize (Ht ltac:(lia) ltac:(lia)).
    pose proof (length_memcpy_at buffer used (take (Z.to_nat cs) data) ltac:(lia) ltac:(lia)) as Hl.
    destruct (Z.eqb_spec (used + cs) 64) as [E64|].
    + specialize (IH (HashBlock (memcpy_at buffer used (take (Z.to_nat cs) data)) st)
        (memcpy_at buffer used (take (Z.to_nat cs) data)) 0 (drop (Z.to_nat cs) data)).
      rewrite length_drop in IH. specialize (IH ltac:(lia) ltac:(lia) ltac:(lia)).
      destruct (HashUpdate_loop _ _ _ 0 _) as [[st' buffer'] used'].
      replace (absorb (64 + length data) st (take (Z.to_nat used) buffer ++ data)) with
        (absorb (64 + (length data - Z.to_nat cs))
           (HashBlock (memcpy_at buffer used (take (Z.to_nat cs) data)) st)
           (take (Z.to_nat 0) (memcpy_at buffer used (take (Z.to_nat cs) data)) ++ drop (Z.to_nat cs) data));
        [done|].
      rewrite E64 in Ht. rewrite (take_ge (memcpy_at _ _ _)) in Ht by (rewrite Hl; lia).
      assert (Hd : take (Z.to_nat used) buffer ++ data =
        memcpy_at buffer used (take (Z.to_nat cs) data) ++ drop (Z.to_nat cs) data)
        by (by rewrite Ht, <- app_assoc, take_drop).
      rewrite Hd. set (blk := memcpy_at buffer used (take (Z.to_nat cs) data)) in *.
      change (take (Z.to_nat 0) blk) with (@nil ascii). cbn [app].
      change (64 + length data)%nat with (S (63 + length data)). cbn [absorb].
      rewrite length_app. destruct (Z.ltb_spec (Z.of_nat (length blk + length (drop (Z.to_nat cs) data))) 64); [lia|].
      rewrite take_app_length', drop_app_length' by lia.
      apply absorb_fuel; rewrite length_drop; lia.
    + specialize (IH st (memcpy_at buffer used (take (Z.to_nat cs) data)) (used + cs) (drop (Z.to_nat cs) data)).
      rewrite length_drop in IH. specialize (IH ltac:(lia) ltac:(lia) ltac:(lia)).
      destruct (HashUpdate_loop _ _ _ (used + cs) _) as [[st' buffer'] used'].
      rewrite Ht in IH. rewrite <- app_assoc, take_drop in IH.
      rewrite (absorb_fuel (64 + length data) (64 + (length data - Z.to_nat cs))); [done|..];
        rewrite length_app, length_take; lia.
  - apply orb_false_iff in E as [E1 E2]. zbool. subst used. change (take (Z.to_nat 0) buffer ++ data) with data.
    specialize (IH (HashBlock (take 64 data) st) buffer 0 (drop 64 data)).
    rewrite length_drop in IH. specialize (IH ltac:(lia) ltac:(lia) ltac:(lia)).
    destruct (HashUpdate_loop _ _ _ 0 _) as [[st' buffer'] used'].
    change (64 + length data)%nat with (S (63 + length data)). cbn [absorb].
    destruct (Z.ltb_spec (zlen data) 64); [lia|].
    change (take (Z.to_nat 0) buffer ++ drop 64 data) with (drop 64 data) in IH.
    rewrite (absorb_fuel (63 + length data) (64 + (length data - 64))); [done|..]; rewrite length_drop; lia.
Qed.

Lemma absorb_all_rest msg : zlen (absorb_all msg).2 = zlen msg mod 64.
Proof.
  unfold absorb_all. rewrite absorb_rest by lia. by rewrite Nat2Z.inj_mod.
Qed.

Lemma absorb_all_app msg d :
  absorb_all (msg ++ d) =
  absorb (64 + length d) (absorb_all msg).1 ((absorb_all msg).2 ++ d).
Proof.
  unfold absorb_all at 1. pose proof (absorb_all_rest msg) as Hr.
  pose proof (Z.mod_pos_bound (zlen msg) 64).
  pose proof (absorb_app (length msg) HashInitImpl msg d ltac:(lia)) as Ha. fold (absorb_all msg) in Ha.
  destruct (absorb_all msg) as [st rest]. cbn [fst snd] in *.
  rewrite Ha by (rewrite length_app; lia). apply absorb_fuel; rewrite !length_app; lia.
Qed.

(** [HashUpdate] refines appending to the message. *)
Lemma HashUpdate_repr h msg d : hash_repr h msg -> hash_repr (HashUpdate h d) (msg ++ d).
Proof.
  intros (Hb & Hs & Hu & Hi & Ht). unfold HashUpdate.
  pose proof (absorb_all_rest msg) as Hr. pose proof (Z.mod_pos_bound (zlen msg) 64).
  pose proof (HashUpdate_loop_absorb (length d) (m_StateImpl h) (m_Buffer h) (m_BufUsed h) d
    ltac:(lia) Hb ltac:(lia)) as Hl.
  destruct (HashUpdate_loop _ _ _ _ d) as [[st' buf'] used'].
  rewrite Ht, Hi, <- absorb_all_app in Hl. unfold hash_repr.
  destruct (absorb_all (msg ++ d)) as [st2 rest]. destruct Hl as (? & ? & ? & ?). cbn in *.
  split_and!; try done. rewrite Hs, length_app. unfold u64.
  rewrite Zplus_mod_idemp_l. f_equal. lia.
Qed.

Lemma HashInit_repr junk : length junk = 64%nat -> hash_repr (HashInit junk) [].
Proof. intros. unfold hash_repr. cbn. done. Qed.

Lemma HashAddStringFoldCase_repr h msg path : hash_repr h msg ->
  hash_repr (HashAddStringFoldCase h path) (msg ++ map lower_ascii (cbytes path)).
Proof.
  revert h msg. induction path as [|c path IH]; intros h msg H; cbn; [by rewrite app_nil_r|].
  assert (E : (schar c =? 0) = Ascii.eqb c NUL).
  { unfold schar. pose proof (uchar_range c). destruct (Ascii.eqb_spec c NUL) as [->|Hn]; [done|].
    apply uchar_pos in Hn. case_match; zbool; apply Z.eqb_neq; lia. }
  rewrite E. destruct (Ascii.eqb c NUL); cbn [map]; [by rewrite app_nil_r|].
  replace (byte_of (FoldCase (schar c))) with (lower_ascii c).
  - apply (HashUpdate_repr _ _ [lower_ascii c]), IH in H. by rewrite <- app_assoc in H.
  - apply uchar_inj. rewrite uchar_byte_of, uchar_lower.
    pose proof (uchar_range c). pose proof (uchar_range (lower_ascii c)) as Hr.
    rewrite uchar_lower in Hr. unfold schar. case_match; zbool; [by rewrite Z.mod_small|].
    unfold FoldCase in *. unfold u32.
    rewrite (Z.mod_small (uchar c - 65)) in * by lia.
    rewrite <- (Z.mod_unique (uchar c - 256 - 65) (2 ^ 32) (-1) (uchar c - 256 - 65 + 2 ^ 32)) by lia.
    destruct (Z.ltb_spec (uchar c - 65) 26); [lia|].
    destruct (Z.ltb_spec (uchar c - 256 - 65 + 2 ^ 32) 26); [lia|].
    apply (Z.mod_unique _ _ (-1)); lia.
Qed.

(** Two streaming states that the rest of the program cannot tell apart: they
    may differ in the dead part of the buffer. *)
Definition hash_equiv (h1 h2 : HashState) : Prop :=
  m_StateImpl h1 = m_StateImpl h2 /\ m_MsgSize h1 = m_MsgSize h2 /\ m_BufUsed h1 = m_BufUsed h2 /\
  take (Z.to_nat (m_BufUsed h1)) (m_Buffer h1) = take (Z.to_nat (m_BufUsed h2)) (m_Buffer h2).

#[global] Instance hash_equiv_equivalence : Equivalence hash_equiv.
Proof.
  split; unfold hash_equiv; [done|..].
  - intros ?? (?&?&?&?). split_and!; congruence.
  - intros ??? (?&?&?&?) (?&?&?&?). split_and!; congruence.
Qed.

Lemma hash_repr_equiv h1 h2 msg : hash_repr h1 msg -> hash_repr h2 msg -> hash_equiv h1 h2.
Proof. unfold hash_repr, hash_equiv. intros (?&?&?&?&?) (?&?&?&?&?). split_and!; congruence. Qed.

Lemma length_big_endian64 v : length (big_endian64 v) = 8%nat.
Proof. done. Qed.

Lemma pad_zeroes_spec len : 0 <= len ->
  0 < pad_zeroes len <= 64 /\ (len + 1 + pad_zeroes len) mod 64 = 56.
Proof.
  intros. unfold pad_zeroes. pose proof (Z.mod_pos_bound (len + 1) 64).
  case_match; zbool; (split; [lia|]); rewrite <- Zplus_mod_idemp_l.
  - rewrite Z.mod_small; lia.
  - symmetry. apply (Z.mod_unique _ _ 1); lia.
Qed.

Lemma HashFinalize_repr h msg : hash_repr h msg -> HashFinalize h = OK (digest_of msg).
Proof.
  intros H. unfold HashFinalize. pose proof (HashUpdate_repr h msg [byte_of 128] H) as H1.
  set (h1 := HashUpdate h [byte_of 128]) in *.
  assert (Hu : m_BufUsed h1 = (zlen msg + 1) mod 64).
  { destruct H1 as (_ & _ & -> & _). rewrite absorb_all_rest, length_app. f_equal. cbn. lia. }
  set (h2 := if m_BufUsed h1 - (64 - 8) <? 0 then _ else _).
  assert (H2 : hash_repr h2 (msg ++ [byte_of 128] ++ replicate (Z.to_nat (pad_zeroes (zlen msg))) NUL)).
  { rewrite app_assoc. unfold h2, pad_zeroes. rewrite Hu.
    destruct (Z.ltb_spec ((zlen msg + 1) mod 64) 56).
    - rewrite (proj2 (Z.ltb_lt _ 0)) by lia. replace (- _) with (56 - (zlen msg + 1) mod 64) by lia.
      by apply HashUpdate_repr.
    - rewrite (proj2 (Z.ltb_ge _ 0)) by lia. replace (64 - _) with (120 - (zlen msg + 1) mod 64) by lia.
      by apply HashUpdate_repr. }
  clearbody h2. destruct (pad_zeroes_spec (zlen msg)) as [Hp Hm]; [lia|].
  assert (Hu2 : m_BufUsed h2 = 56).
  { destruct H2 as (_ & _ & -> & _). rewrite absorb_all_rest, !length_app, length_replicate.
    rewrite <- Hm. f_equal. cbn [length]. lia. }
  rewrite Hu2. cbn [check Z.eqb]. cbn -[HashUpdate seqZ].
  replace (map _ (seqZ 0 8)) with (big_endian64 (u64 (zlen msg * 8))).
  2:{ destruct H as (_ & -> & _). reflexivity. }
  pose proof (HashUpdate_repr h2 _ (big_endian64 (u64 (zlen msg * 8))) H2) as H3.
  rewrite <- !app_assoc in H3. fold (padding msg) in H3.
  destruct H3 as (_ & _ & Hu3 & Hi & _).
  assert (Hz : m_BufUsed (HashUpdate h2 (big_endian64 (u64 (zlen msg * 8)))) = 0).
  { rewrite Hu3, absorb_all_rest. unfold padding. rewrite !length_app, length_replicate, length_big_endian64.
    cbn [length]. replace (Z.of_nat _) with ((zlen msg + 1 + pad_zeroes (zlen msg)) + 8) by lia.
    rewrite <- Zplus_mod_idemp_l, Hm. done. }
  rewrite Hz. cbn -[HashUpdate]. unfold digest_of. by rewrite <- Hi.
Qed.

End Streaming.
