(* ===== verification/HashImpl.v ===== *)
(** * Hash backends and digests

    Models src/src/HashFast.cpp (four interleaved 32-bit xxhash lanes, the
    block function of the default build), src/src/HashSha1.cpp (the
    alternative selected by USE_SHA1_HASH) and the digest operations of
    src/src/Hash.hpp and Hash.cpp: comparison and hexadecimal printing. *)

From S2P Require Import Prelude CommonFns Hash.

Definition nthZ (l : list Z) (i : Z) : Z := default 0 (l !!z i).

(** ** The fast hash *)

Module Fast.

Definition kPrime32_1 : Z := 2654435761.
Definition kPrime32_2 : Z := 2246822519.
Definition kPrime32_3 : Z := 3266489917.

Definition RotateLeft (value amount : Z) : Z :=
  Z.lor (u32 (Z.shiftl value amount)) (Z.shiftr value (32 - amount)).

(** [*p] for a [uint32_t*] on a little-endian host. *)
Definition load32 (block : cstr) (i : Z) : Z :=
  let b j := uchar (default NUL (block !!z (i * 4 + j))) in
  b 0 + b 1 * 2 ^ 8 + b 2 * 2 ^ 16 + b 3 * 2 ^ 24.

(** [m_V[v][0..3]], one lane per quadruple. *)
Definition lane : Type := (Z * Z * Z * Z)%type.

Definition HashBlock_word (v p : Z) : Z :=
  u32 (RotateLeft (u32 (v + u32 (p * kPrime32_2))) 13 * kPrime32_1).

Definition HashBlock_lane (block : cstr) (v : Z) (l : lane) : lane :=
  let '(v0, v1, v2, v3) := l in
  (HashBlock_word v0 (load32 block (v * 4 + 0)), HashBlock_word v1 (load32 block (v * 4 + 1)),
   HashBlock_word v2 (load32 block (v * 4 + 2)), HashBlock_word v3 (load32 block (v * 4 + 3))).

Definition HashBlock (block : cstr) (state : list lane) : list lane :=
  imap (fun v l => HashBlock_lane block (Z.of_nat v) l) state.

Definition seeds : list Z := [0x89caf13a; 0x179fa534; 0x5199afcc; 0xef901315].

Definition HashInitImpl : list lane :=
  map (fun seed => (u32 (seed + kPrime32_1 + kPrime32_2), u32 (seed + kPrime32_2), seed,
                    u32 (seed - kPrime32_1))) seeds.

Definition HashFinalize_lane (l : lane) : Z :=
  let '(v0, v1, v2, v3) := l in
  let h32 := u32 (RotateLeft v0 1 + RotateLeft v1 7 + RotateLeft v2 12 + RotateLeft v3 18) in
  let h32 := Z.lxor h32 (Z.shiftr h32 15) in
  let h32 := u32 (h32 * kPrime32_2) in
  let h32 := Z.lxor h32 (Z.shiftr h32 13) in
  let h32 := u32 (h32 * kPrime32_3) in
  Z.lxor h32 (Z.shiftr h32 16).

(** [union HashDigest]: the two 64-bit words of the 16 bytes. *)
Record HashDigest : Type := mkDigest { m_Words64_0 : Z; m_Words64_1 : Z }.

(** The four [m_Words32] seen as [m_Words64] on a little-endian host. *)
Definition HashFinalizeImpl (state : list lane) : HashDigest :=
  let w := map HashFinalize_lane state in
  mkDigest (nthZ w 0 + 2 ^ 32 * nthZ w 1) (nthZ w 2 + 2 ^ 32 * nthZ w 3).

Definition CompareHashDigests (lhs rhs : HashDigest) : Z :=
  let l0 := m_Words64_0 lhs in
  let r0 := m_Words64_0 rhs in
  let res0 := Z.b2z (r0 <? l0) - Z.b2z (l0 <? r0) in
  let l1 := m_Words64_1 lhs in
  let r1 := m_Words64_1 rhs in
  let res1 := Z.b2z (r1 <? l1) - Z.b2z (l1 <? r1) in
  if negb (res0 =? 0) then res0 else res1.

Definition digest_eq (lhs rhs : HashDigest) : bool := CompareHashDigests lhs rhs =? 0.
Definition digest_lt (lhs rhs : HashDigest) : bool := CompareHashDigests lhs rhs <? 0.

Definition digest_ok (d : HashDigest) : Prop :=
  0 <= m_Words64_0 d < 2 ^ 64 /\ 0 <= m_Words64_1 d < 2 ^ 64.

Definition hex : cstr := "0123456789abcdef".

Definition hex_digit (n : Z) : ascii := default NUL (hex !!z n).

(** One word of [DigestToString]: eight times the top byte, then [w <<= 8]. *)
Fixpoint DigestToString_word (n : nat) (w : Z) : cstr :=
  match n with
  | O => []
  | S n =>
      let byte := u8 (Z.shiftr w 56) in
      hex_digit (Z.shiftr byte 4) :: hex_digit (Z.land byte 0xf) ::
      DigestToString_word n (u64 (Z.shiftl w 8))
  end.

Definition DigestToString (d : HashDigest) : cstr :=
  DigestToString_word 8 (m_Words64_0 d) ++ DigestToString_word 8 (m_Words64_1 d).

End Fast.

#[export] Instance FastBackend : HashBackend := {
  HashStateImpl := list Fast.lane;
  digest_t := Fast.HashDigest;
  HashInitImpl := Fast.HashInitImpl;
  HashBlock := Fast.HashBlock;
  HashFinalizeImpl := Fast.HashFinalizeImpl
}.

(** ** SHA-1 *)

Module Sha1.

Definition SHA1Rotate (value bits : Z) : Z :=
  Z.lor (u32 (Z.shiftl value bits)) (Z.shiftr value (32 - bits)).

Definition load_be32 (block : cstr) (i : Z) : Z :=
  let b j := uchar (default NUL (block !!z (i * 4 + j))) in
  Z.lor (Z.shiftl (b 0) 24) (Z.lor (Z.shiftl (b 1) 16) (Z.lor (Z.shiftl (b 2) 8) (Z.shiftl (b 3) 0))).

Definition schedule (block : cstr) : list Z :=
  let w := map (load_be32 block) (seqZ 0 16) in
  fold_left (fun w i =>
    w ++ [SHA1Rotate (Z.lxor (Z.lxor (Z.lxor (nthZ w (i - 3)) (nthZ w (i - 8)))
                                (nthZ w (i - 14))) (nthZ w (i - 16))) 1])
    (seqZ 16 64) w.

Definition regs : Type := (Z * Z * Z * Z * Z)%type.

(** [SHA1_LOOP(start, end, func, constant)]. *)
Definition SHA1_LOOP (start stop : Z) (func : Z -> Z -> Z -> Z) (constant : Z) (w : list Z) (r : regs) : regs :=
  fold_left (fun '(a, b, c, d, e) i =>
    let t := u32 (SHA1Rotate a 5 + func b c d + e + constant + nthZ w i) in
    (t, a, SHA1Rotate b 30, c, d)) (seqZ start (stop - start)) r.

Definition HashBlock (block : cstr) (state : regs) : regs :=
  let w := schedule block in
  let r := state in
  let r := SHA1_LOOP 0 20 (fun b c d => Z.lxor (Z.land b c) (Z.land (u32 (Z.lnot b)) d)) 0x5a827999 w r in
  let r := SHA1_LOOP 20 40 (fun b c d => Z.lxor (Z.lxor b c) d) 0x6ed9eba1 w r in
  let r := SHA1_LOOP 40 60 (fun b c d => Z.lxor (Z.lxor (Z.land b c) (Z.land b d)) (Z.land c d)) 0x8f1bbcdc w r in
  let r := SHA1_LOOP 60 80 (fun b c d => Z.lxor (Z.lxor b c) d) 0xca62c1d6 w r in
  let '(a, b, c, d, e) := r in
  let '(s0, s1, s2, s3, s4) := state in
  (u32 (s0 + a), u32 (s1 + b), u32 (s2 + c), u32 (s3 + d), u32 (s4 + e)).

Definition HashInitImpl : regs := (0x67452301, 0xefcdab89, 0x98badcfe, 0x10325476, 0xc3d2e1f0).

(** The 20 bytes of the digest. *)
Definition HashFinalizeImpl (state : regs) : list Z :=
  let '(s0, s1, s2, s3, s4) := state in
  map (fun i => u8 (Z.shiftr (nthZ [s0; s1; s2; s3; s4] (Z.shiftr i 2)) ((3 - Z.land i 3) * 8)))
    (seqZ 0 20).

End Sha1.

Definition Sha1Backend : HashBackend := {|
  HashStateImpl := Sha1.regs;
  digest_t := list Z;
  HashInitImpl := Sha1.HashInitImpl;
  HashBlock := Sha1.HashBlock;
  HashFinalizeImpl := Sha1.HashFinalizeImpl
|}.

(** ** Digest order *)

Import Fast.

#[export] Instance HashDigest_eq_dec : EqDecision HashDigest.
Proof. solve_decision. Defined.

Lemma CompareHashDigests_spec l r :
  let c := CompareHashDigests l r in
  (c = 0 <-> l = r) /\
  (c < 0 <-> m_Words64_0 l < m_Words64_0 r \/
            (m_Words64_0 l = m_Words64_0 r /\ m_Words64_1 l < m_Words64_1 r)).
Proof.
  destruct l as [a b], r as [c d]. unfold CompareHashDigests; cbn.
  destruct (Z.ltb_spec c a), (Z.ltb_spec a c), (Z.ltb_spec d b), (Z.ltb_spec b d);
    cbv [negb Z.b2z Z.sub Z.add Z.opp Z.pos_sub Z.eqb Pos.eqb];
    (split; (split; [intros ?; try (exfalso; lia); try lia; f_equal; lia |
      first [intros [= -> ->]; lia | lia]])).
Qed.

Lemma digest_eq_spec l r : digest_eq l r = true <-> l = r.
Proof. unfold digest_eq. rewrite Z.eqb_eq. apply CompareHashDigests_spec. Qed.

Lemma digest_lt_spec l r : digest_lt l r = true <->
  m_Words64_0 l < m_Words64_0 r \/ (m_Words64_0 l = m_Words64_0 r /\ m_Words64_1 l < m_Words64_1 r).
Proof. unfold digest_lt. rewrite Z.ltb_lt. apply CompareHashDigests_spec. Qed.

Lemma digest_lt_trans a b c : digest_lt a b = true -> digest_lt b c = true -> digest_lt a c = true.
Proof. rewrite !digest_lt_spec. lia. Qed.

Lemma digest_lt_irrefl a : digest_lt a a = false.
Proof. apply not_true_iff_false. rewrite digest_lt_spec. lia. Qed.

Lemma digest_lt_total a b : digest_lt a b = true \/ a = b \/ digest_lt b a = true.
Proof.
  rewrite !digest_lt_spec. destruct a as [a0 a1], b as [b0 b1]; cbn.
  destruct (decide (a0 = b0)), (decide (a1 = b1)); subst; [by auto|lia..].
Qed.

(** ** Hexadecimal printing is injective *)

Lemma hex_digit_inj m n : 0 <= m < 16 -> 0 <= n < 16 -> hex_digit m = hex_digit n -> m = n.
Proof.
  intros Hm Hn.
  assert (H : forallb (fun m => forallb (fun n => implb (Ascii.eqb (hex_digit m) (hex_digit n)) (m =? n))
    (seqZ 0 16)) (seqZ 0 16) = true) by (vm_compute; reflexivity).
  rewrite forallb_forall in H. specialize (H m). rewrite forallb_forall in H.
  specialize (H ltac:(apply list_elem_of_In, elem_of_seqZ; lia) n ltac:(apply list_elem_of_In, elem_of_seqZ; lia)).
  intros E. rewrite E, Ascii.eqb_refl in H. by apply Z.eqb_eq.
Qed.

Lemma hex_byte_inj a b : 0 <= a < 256 -> 0 <= b < 256 ->
  hex_digit (Z.shiftr a 4) = hex_digit (Z.shiftr b 4) ->
  hex_digit (Z.land a 0xf) = hex_digit (Z.land b 0xf) -> a = b.
Proof.
  intros Ha Hb. change 0xf with (Z.ones 4). rewrite !Z.land_ones, !Z.shiftr_div_pow2 by lia. intros H1 H2.
  apply hex_digit_inj in H1; [|split; [apply Z.div_pos|apply Z.div_lt_upper_bound]; lia..].
  apply hex_digit_inj in H2; [|apply Z.mod_pos_bound; lia..].
  rewrite (Z_div_mod_eq_full a (2 ^ 4)), (Z_div_mod_eq_full b (2 ^ 4)). lia.
Qed.

(** [n] bytes of output determine the top [n] bytes of the word. *)
Lemma DigestToString_word_inj n a b : (n <= 8)%nat -> 0 <= a < 2 ^ 64 -> 0 <= b < 2 ^ 64 ->
  DigestToString_word n a = DigestToString_word n b ->
  Z.shiftr a (64 - 8 * Z.of_nat n) = Z.shiftr b (64 - 8 * Z.of_nat n).
Proof.
  revert a b. induction n as [|n IH]; intros a b Hn Ha Hb H.
  { rewrite !Z.shiftr_div_pow2 by lia. rewrite !Z.div_small; [done|cbn; lia..]. }
  cbn [DigestToString_word] in H. injection H as H1 H2 H3.
  unfold u8 in *. assert (Hs : forall x, 0 <= x < 2 ^ 64 -> 0 <= Z.shiftr x 56 < 256).
  { intros x Hx. rewrite Z.shiftr_div_pow2 by lia.
    split; [apply Z.div_pos; lia|apply Z.div_lt_upper_bound; lia]. }
  rewrite !(Z.mod_small (Z.shiftr _ 56)) in H1, H2 by (apply Hs; done).
  pose proof (hex_byte_inj _ _ (Hs a Ha) (Hs b Hb) H1 H2) as Ht.
  apply IH in H3; [|lia|apply u64_range..].
  apply Z.bits_inj'. intros i Hi. rewrite !Z.shiftr_spec by lia.
  destruct (Z.leb_spec 56 (i + (64 - 8 * Z.of_nat (S n)))).
  - apply (f_equal (fun z => Z.testbit z (i + (64 - 8 * Z.of_nat (S n)) - 56))) in Ht.
    rewrite !Z.shiftr_spec in Ht by lia. by rewrite Z.sub_add in Ht.
  - apply (f_equal (fun z => Z.testbit z i)) in H3.
    rewrite !Z.shiftr_spec in H3 by lia. unfold u64 in H3.
    rewrite !Z.mod_pow2_bits_low, !Z.shiftl_spec in H3 by lia.
    replace (i + (64 - 8 * Z.of_nat n) - 8) with (i + (64 - 8 * Z.of_nat (S n))) in H3 by lia. done.
Qed.

Lemma length_DigestToString_word n w : length (DigestToString_word n w) = (2 * n)%nat.
Proof. revert w. induction n as [|n IH]; intros w; cbn [DigestToString_word length]; [done|]. rewrite IH. lia. Qed.

Lemma DigestToString_inj_lemma a b : digest_ok a -> digest_ok b ->
  DigestToString a = DigestToString b -> a = b.
Proof.
  intros [Ha0 Ha1] [Hb0 Hb1] H. unfold DigestToString in H.
  apply app_inj_1 in H as [H0 H1]; [|by rewrite !length_DigestToString_word].
  apply DigestToString_word_inj in H0; [|lia|done..]. apply DigestToString_word_inj in H1; [|lia|done..].
  change (64 - 8 * Z.of_nat 8) with 0 in *. rewrite !Z.shiftr_0_r in *.
  destruct a, b; cbn in *. by subst.
Qed.

(** Test vectors. *)
Definition sha1_hex (d : list Z) : cstr :=
  flat_map (fun b => [hex_digit (Z.shiftr b 4); hex_digit (Z.land b 0xf)]) d.

Definition zeroes64 : cstr := replicate 64 NUL.

Example sha1_empty :
  match HashFinalize (B := Sha1Backend) (HashInit zeroes64) with
  | OK d => sha1_hex d = s2l "da39a3ee5e6b4b0d3255bfef95601890afd80709"
  | Err _ => False
  end.
Proof. vm_compute. reflexivity. Qed.

Example sha1_int64 :
  match HashFinalize (B := Sha1Backend) (HashAddInteger (HashInit zeroes64) 0x1122334455667788) with
  | OK d => sha1_hex d = s2l "bdc04c0992f37f1e3889f274d0549cc0405811d5"
  | Err _ => False
  end.
Proof. vm_compute. reflexivity. Qed.
