(* ===== verification/DagData.v ===== *)
(** * Frozen data and node state

    The records of src/src/DagData.hpp, src/src/StateData.hpp and
    src/src/NodeState.hpp. The prefix [m_] of a C++ member becomes a prefix
    for the struct, since two records of one file cannot share a field name:
    [nd_] for NodeData, [nsd_] for NodeStateData, [ns_] for NodeState.
    A pointer into an array of the memory-mapped file is the index of its
    target. *)

From S2P Require Import Prelude CommonFns Hash HashImpl.

Export Fast(HashDigest, mkDigest, digest_eq, digest_lt, CompareHashDigests).

(** ** DagData.hpp *)

Inductive ScannerType : Type := kCpp | kGeneric.

Record FrozenFileAndHash : Type := mkFile { m_Filename : cstr; m_FilenameHash : Z }.

Record KeywordData : Type := mkKeyword {
  kw_String : cstr; kw_StringLength : Z; kw_ShouldFollow : bool }.

(** [ScannerData] and [GenericScannerData] in one record: the flags and the
    keywords are those of the generic scanner. *)
Record ScannerData : Type := mkScanner {
  sc_ScannerType : ScannerType;
  sc_IncludePaths : list cstr;
  sc_ScannerGuid : HashDigest;
  sc_Flags : Z;
  sc_Keywords : list KeywordData }.

Definition kFlagRequireWhitespace : Z := 1.
Definition kFlagUseSeparators : Z := 2.
Definition kFlagBareMeansSystem : Z := 4.

Definition kFlagOverwriteOutputs : Z := 1.
Definition kFlagPreciousOutputs : Z := 2.
Definition kFlagExpensive : Z := 4.

Record EnvVarData : Type := mkEnv { ev_Name : cstr; ev_Value : cstr }.

Record NodeData : Type := mkNodeData {
  nd_Action : option cstr;
  nd_PreAction : option cstr;
  nd_Annotation : cstr;
  nd_PassIndex : Z;
  nd_Dependencies : list Z;
  nd_BackLinks : list Z;
  nd_InputFiles : list FrozenFileAndHash;
  nd_OutputFiles : list FrozenFileAndHash;
  nd_AuxOutputFiles : list FrozenFileAndHash;
  nd_EnvVars : list EnvVarData;
  nd_Scanner : option ScannerData;
  nd_Flags : Z }.

Record NamedNodeData : Type := mkNamed { nn_Name : cstr; nn_NodeIndex : Z }.

Record BuildTupleData : Type := mkTuple {
  bt_ConfigIndex : Z;
  bt_VariantIndex : Z;
  bt_SubVariantIndex : Z;
  bt_DefaultNodes : list Z;
  bt_AlwaysNodes : list Z;
  bt_NamedNodes : list NamedNodeData }.

Record DagFileSignature : Type := mkFileSig { fsig_Path : cstr; fsig_Timestamp : Z }.
Record DagGlobSignature : Type := mkGlobSig { gsig_Path : cstr; gsig_Digest : HashDigest }.

(** The arrays behind one count ([m_NodeCount], [m_ConfigCount], ...) are lists
    of that length. *)
Record DagData : Type := mkDag {
  dag_NodeGuids : list HashDigest;
  dag_NodeData : list NodeData;
  dag_Passes : list cstr;
  dag_ConfigNames : list cstr;
  dag_ConfigNameHashes : list Z;
  dag_VariantNames : list cstr;
  dag_VariantNameHashes : list Z;
  dag_SubVariantNames : list cstr;
  dag_SubVariantNameHashes : list Z;
  dag_BuildTuples : list BuildTupleData;
  dag_DefaultConfigIndex : Z;
  dag_DefaultVariantIndex : Z;
  dag_DefaultSubVariantIndex : Z;
  dag_FileSignatures : list DagFileSignature;
  dag_GlobSignatures : list DagGlobSignature;
  dag_ShaExtensionHashes : list Z;
  dag_MaxExpensiveCount : Z;
  dag_StateFileName : cstr;
  dag_StateFileNameTmp : cstr;
  dag_ScanCacheFileName : cstr;
  dag_ScanCacheFileNameTmp : cstr;
  dag_DigestCacheFileName : cstr;
  dag_DigestCacheFileNameTmp : cstr }.

Definition dag_NodeCount (dag : DagData) : Z := zlen (dag_NodeData dag).

(** ** StateData.hpp *)

Record NodeStateData : Type := mkNodeStateData {
  nsd_BuildResult : Z;
  nsd_InputSignature : HashDigest;
  nsd_OutputFiles : list cstr;
  nsd_AuxOutputFiles : list cstr }.

(** [m_NodeGuids] and [m_NodeStates], two arrays of [m_NodeCount] entries. *)
Record StateData : Type := mkStateData {
  sd_NodeGuids : list HashDigest;
  sd_NodeStates : list NodeStateData }.

(** ** NodeState.hpp *)

Inductive BuildProgress : Type :=
| kInitial | kBlocked | kUnblocked | kRunAction | kSucceeded | kUpToDate | kFailed | kCompleted.

(** The values of the enumeration, compared by [DriverSaveBuildState]. *)
Definition progress_code (p : BuildProgress) : Z :=
  match p with
  | kInitial => 0 | kBlocked => 1 | kUnblocked => 2 | kRunAction => 3
  | kSucceeded => 100 | kUpToDate => 101 | kFailed => 102 | kCompleted => 200
  end.

#[export] Instance BuildProgress_eq_dec : EqDecision BuildProgress.
Proof. solve_decision. Defined.

Definition kQueued : Z := 1.
Definition kActive : Z := 2.

(** [m_MmapData] is the index of the node in the DAG, [m_MmapState] the record
    of the previous build if there is one. *)
Record NodeState : Type := mkNodeState {
  ns_Flags : Z;
  ns_PassIndex : Z;
  ns_Progress : BuildProgress;
  ns_MmapData : Z;
  ns_MmapState : option NodeStateData;
  ns_BuildResult : Z;
  ns_InputSignature : HashDigest }.

Definition set_flags (f : Z) (s : NodeState) : NodeState :=
  mkNodeState f (ns_PassIndex s) (ns_Progress s) (ns_MmapData s) (ns_MmapState s)
    (ns_BuildResult s) (ns_InputSignature s).
Definition set_progress (p : BuildProgress) (s : NodeState) : NodeState :=
  mkNodeState (ns_Flags s) (ns_PassIndex s) p (ns_MmapData s) (ns_MmapState s)
    (ns_BuildResult s) (ns_InputSignature s).
Definition set_result (r : Z) (s : NodeState) : NodeState :=
  mkNodeState (ns_Flags s) (ns_PassIndex s) (ns_Progress s) (ns_MmapData s) (ns_MmapState s)
    r (ns_InputSignature s).
Definition set_signature (d : HashDigest) (s : NodeState) : NodeState :=
  mkNodeState (ns_Flags s) (ns_PassIndex s) (ns_Progress s) (ns_MmapData s) (ns_MmapState s)
    (ns_BuildResult s) d.

Definition NodeStateIsCompleted (s : NodeState) : bool := bool_decide (ns_Progress s = kCompleted).
Definition NodeStateIsBlocked (s : NodeState) : bool := bool_decide (kBlocked = ns_Progress s).
Definition NodeStateIsQueued (s : NodeState) : bool := negb (Z.land (ns_Flags s) kQueued =? 0).
Definition NodeStateIsActive (s : NodeState) : bool := negb (Z.land (ns_Flags s) kActive =? 0).
Definition NodeStateFlagQueued (s : NodeState) : NodeState := set_flags (Z.lor (ns_Flags s) kQueued) s.
Definition NodeStateFlagUnqueued (s : NodeState) : NodeState :=
  set_flags (Z.land (ns_Flags s) (u16 (Z.lnot kQueued))) s.
Definition NodeStateFlagActive (s : NodeState) : NodeState := set_flags (Z.lor (ns_Flags s) kActive) s.
Definition NodeStateFlagInactive (s : NodeState) : NodeState :=
  set_flags (Z.land (ns_Flags s) (u16 (Z.lnot kActive))) s.

Definition expensive (nd : NodeData) : bool := negb (Z.land (nd_Flags nd) kFlagExpensive =? 0).

(** [!cmd_line || cmd_line[0] == '\0']. *)
Definition empty_action (nd : NodeData) : bool :=
  match nd_Action nd with
  | None => true
  | Some [] => true
  | Some (c :: _) => Ascii.eqb c NUL
  end.
