(* ===== verification/BuildQueue.v ===== *)
(** * BuildQueue: the scheduler

    Models src/src/BuildQueue.hpp and src/src/BuildQueue.cpp. The record
    [BuildQueue] holds the fields of the struct with the node states its
    configuration points to; every function of the file is a function on it,
    in a checked build (a [CHECK] that fails is an [Err]). The mutex is released
    only inside [CheckInputSignature] and [RunAction] and by [CondWait], so a
    thread is a small state machine whose steps are the stretches between
    those points: see [thread_pc] and [sys_step]. *)

From S2P Require Import Prelude CommonFns Hash HashImpl DagData.

(** ** State *)

Definition kFlagEchoCommandLines : Z := 1.
Definition kFlagEchoAnnotations : Z := 2.
Definition kFlagContinueOnError : Z := 4.

Record BuildQueueConfig : Type := mkConfig {
  cfg_Flags : Z;
  cfg_ThreadCount : Z;
  cfg_NodeData : list NodeData;
  cfg_MaxNodes : Z;
  cfg_NodeRemappingTable : list Z;
  cfg_MaxExpensiveCount : Z }.

(** Calls on [m_WorkAvailable], in order, made by one locked stretch. *)
Inductive wake_op : Type := CondSignal | CondBroadcast.

(** [q_NodeState] is the storage [m_Config.m_NodeState] points to; a
    [NodeState*] is an index into it. *)
Record BuildQueue : Type := mkQueue {
  q_Config : BuildQueueConfig;
  q_NodeState : list NodeState;
  q_Queue : list Z;
  q_QueueCapacity : Z;
  q_QueueReadIndex : Z;
  q_QueueWriteIndex : Z;
  q_PendingNodeCount : Z;
  q_FailedNodeCount : Z;
  q_CurrentPassIndex : Z;
  q_ExpensiveRunning : Z;
  q_ExpensiveWaitCount : Z;
  q_ExpensiveWaitList : list Z;
  q_QuitSignalled : bool;
  q_Wakes : list wake_op }.

Definition with_nodes (ns : list NodeState) (q : BuildQueue) : BuildQueue :=
  mkQueue (q_Config q) ns (q_Queue q) (q_QueueCapacity q) (q_QueueReadIndex q) (q_QueueWriteIndex q)
    (q_PendingNodeCount q) (q_FailedNodeCount q) (q_CurrentPassIndex q) (q_ExpensiveRunning q)
    (q_ExpensiveWaitCount q) (q_ExpensiveWaitList q) (q_QuitSignalled q) (q_Wakes q).
Definition with_ring (r : list Z) (rd wr : Z) (q : BuildQueue) : BuildQueue :=
  mkQueue (q_Config q) (q_NodeState q) r (q_QueueCapacity q) rd wr
    (q_PendingNodeCount q) (q_FailedNodeCount q) (q_CurrentPassIndex q) (q_ExpensiveRunning q)
    (q_ExpensiveWaitCount q) (q_ExpensiveWaitList q) (q_QuitSignalled q) (q_Wakes q).
Definition with_counts (pending failed running : Z) (q : BuildQueue) : BuildQueue :=
  mkQueue (q_Config q) (q_NodeState q) (q_Queue q) (q_QueueCapacity q) (q_QueueReadIndex q) (q_QueueWriteIndex q)
    pending failed (q_CurrentPassIndex q) running
    (q_ExpensiveWaitCount q) (q_ExpensiveWaitList q) (q_QuitSignalled q) (q_Wakes q).
Definition with_wait (n : Z) (l : list Z) (q : BuildQueue) : BuildQueue :=
  mkQueue (q_Config q) (q_NodeState q) (q_Queue q) (q_QueueCapacity q) (q_QueueReadIndex q) (q_QueueWriteIndex q)
    (q_PendingNodeCount q) (q_FailedNodeCount q) (q_CurrentPassIndex q) (q_ExpensiveRunning q)
    n l (q_QuitSignalled q) (q_Wakes q).
Definition with_pass (p : Z) (quit : bool) (q : BuildQueue) : BuildQueue :=
  mkQueue (q_Config q) (q_NodeState q) (q_Queue q) (q_QueueCapacity q) (q_QueueReadIndex q) (q_QueueWriteIndex q)
    (q_PendingNodeCount q) (q_FailedNodeCount q) p (q_ExpensiveRunning q)
    (q_ExpensiveWaitCount q) (q_ExpensiveWaitList q) quit (q_Wakes q).
Definition with_wakes (w : list wake_op) (q : BuildQueue) : BuildQueue :=
  mkQueue (q_Config q) (q_NodeState q) (q_Queue q) (q_QueueCapacity q) (q_QueueReadIndex q) (q_QueueWriteIndex q)
    (q_PendingNodeCount q) (q_FailedNodeCount q) (q_CurrentPassIndex q) (q_ExpensiveRunning q)
    (q_ExpensiveWaitCount q) (q_ExpensiveWaitList q) (q_QuitSignalled q) w.

Definition log_wake (w : wake_op) (q : BuildQueue) : BuildQueue := with_wakes (q_Wakes q ++ [w]) q.

(** [*state] and an update through the pointer. *)
Definition get_node (q : BuildQueue) (state : Z) : res NodeState := of_opt (q_NodeState q !!z state).

Definition upd_node (f : NodeState -> NodeState) (state : Z) (q : BuildQueue) : res BuildQueue :=
  s ← get_node q state;
  OK (with_nodes (zinsert state (f s) (q_NodeState q)) q).

(** [state->m_MmapData]. *)
Definition node_data (q : BuildQueue) (state : Z) : res NodeData :=
  s ← get_node q state;
  of_opt (cfg_NodeData (q_Config q) !!z ns_MmapData s).

(** ** The ring buffer *)

Definition AvailableNodeCount (q : BuildQueue) : Z :=
  let queue_mask := u32 (q_QueueCapacity q - 1) in
  Z.land (u32 (q_QueueWriteIndex q - q_QueueReadIndex q)) queue_mask.

(** ** Node lookup *)

Definition GetStateForNode (q : BuildQueue) (src_index : Z) : res (option Z) :=
  state_index ← of_opt (cfg_NodeRemappingTable (q_Config q) !!z src_index);
  if state_index =? -1 then OK None else
  s ← get_node q state_index;
  _ ← check (ns_MmapData s =? src_index) "int(state->m_MmapData - queue->m_Config.m_NodeData) == src_index";
  OK (Some state_index).

Fixpoint deps_ready (q : BuildQueue) (deps : list Z) : res bool :=
  match deps with
  | [] => OK true
  | dep_index :: deps' =>
      o ← GetStateForNode q dep_index;
      match o with
      | None => Err (CheckFailed "state != nullptr")
      | Some state =>
          s ← get_node q state;
          if negb (NodeStateIsCompleted s) then OK false else deps_ready q deps'
      end
  end.

Definition AllDependenciesReady (q : BuildQueue) (state : Z) : res bool :=
  src_node ← node_data q state;
  deps_ready q (nd_Dependencies src_node).

Definition WakeWaiters (q : BuildQueue) (count : Z) : BuildQueue :=
  if 1 <? count then log_wake CondBroadcast q else log_wake CondSignal q.

Definition Enqueue (q : BuildQueue) (state : Z) : res BuildQueue :=
  let write_index := q_QueueWriteIndex q in
  let queue_mask := u32 (q_QueueCapacity q - 1) in
  ready ← AllDependenciesReady q state;
  _ ← check ready "AllDependenciesReady(queue, state)";
  s ← get_node q state;
  _ ← check (negb (NodeStateIsQueued s)) "!NodeStateIsQueued(state)";
  _ ← check (negb (NodeStateIsActive s)) "!NodeStateIsActive(state)";
  _ ← check (negb (NodeStateIsCompleted s)) "!NodeStateIsCompleted(state)";
  nd ← node_data q state;
  _ ← check (nd_PassIndex nd =? q_CurrentPassIndex q) "state->m_MmapData->m_PassIndex == queue->m_CurrentPassIndex";
  let avail_init := AvailableNodeCount q in
  build_queue ← zwrite write_index state (q_Queue q);
  let write_index := Z.land (u32 (write_index + 1)) queue_mask in
  let q := with_ring build_queue (q_QueueReadIndex q) write_index q in
  q ← upd_node NodeStateFlagQueued state q;
  _ ← check (AvailableNodeCount q =? 1 + avail_init) "AvailableNodeCount(queue) == 1 + avail_init";
  OK q.

(** ** Expensive nodes *)

Definition ParkExpensiveNode (q : BuildQueue) (state : Z) : res BuildQueue :=
  q ← upd_node NodeStateFlagQueued state q;
  _ ← check (q_ExpensiveWaitCount q <? q_QueueCapacity q) "queue->m_ExpensiveWaitCount < (int) queue->m_QueueCapacity";
  l ← zwrite (q_ExpensiveWaitCount q) state (q_ExpensiveWaitList q);
  OK (with_wait (q_ExpensiveWaitCount q + 1) l q).

Definition UnparkExpensiveNode (q : BuildQueue) : res BuildQueue :=
  if 0 <? q_ExpensiveWaitCount q then
    let count := q_ExpensiveWaitCount q - 1 in
    node ← of_opt (q_ExpensiveWaitList q !!z count);
    let q := with_wait count (q_ExpensiveWaitList q) q in
    s ← get_node q node;
    _ ← check (NodeStateIsQueued s) "NodeStateIsQueued(node)";
    q ← upd_node NodeStateFlagUnqueued node q;
    q ← upd_node NodeStateFlagInactive node q;
    q ← Enqueue q node;
    OK (log_wake CondSignal q)
  else OK q.

(** ** Dependencies *)

(** The loop of [SetupDependencies]: the number of waits needed and of nodes
    enqueued so far. *)
Fixpoint SetupDependencies_loop (q : BuildQueue) (pass : Z) (deps : list Z) (waits enqueued : Z)
  : res (BuildQueue * Z * Z) :=
  match deps with
  | [] => OK (q, waits, enqueued)
  | dep_index :: deps' =>
      o ← GetStateForNode q dep_index;
      match o with
      | None => Err (CheckFailed "state != nullptr")
      | Some state =>
          nd ← node_data q state;
          _ ← check (nd_PassIndex nd <=? pass) "state->m_MmapData->m_PassIndex <= src_node->m_PassIndex";
          s ← get_node q state;
          if NodeStateIsCompleted s then SetupDependencies_loop q pass deps' waits enqueued
          else if negb (NodeStateIsQueued s) && negb (NodeStateIsActive s) && negb (NodeStateIsBlocked s) then
            q ← Enqueue q state;
            SetupDependencies_loop q pass deps' (waits + 1) (enqueued + 1)
          else SetupDependencies_loop q pass deps' (waits + 1) enqueued
      end
  end.

Definition SetupDependencies (q : BuildQueue) (node : Z) : res (BuildQueue * BuildProgress) :=
  src_node ← node_data q node;
  '(q, dep_waits_needed, enqueue_count) ←
    SetupDependencies_loop q (nd_PassIndex src_node) (nd_Dependencies src_node) 0 0;
  let q := if 0 <? enqueue_count then WakeWaiters q enqueue_count else q in
  if 0 <? dep_waits_needed then OK (q, kBlocked) else OK (q, kUnblocked).

Fixpoint UnblockWaiters_loop (q : BuildQueue) (links : list Z) (enqueued : Z) : res (BuildQueue * Z) :=
  match links with
  | [] => OK (q, enqueued)
  | link :: links' =>
      o ← GetStateForNode q link;
      match o with
      | None => UnblockWaiters_loop q links' enqueued
      | Some waiter =>
          nd ← node_data q waiter;
          if negb (nd_PassIndex nd =? q_CurrentPassIndex q) then UnblockWaiters_loop q links' enqueued else
          ready ← AllDependenciesReady q waiter;
          if negb ready then UnblockWaiters_loop q links' enqueued else
          s ← get_node q waiter;
          if NodeStateIsQueued s || NodeStateIsActive s then UnblockWaiters_loop q links' enqueued else
          q ← Enqueue q waiter;
          UnblockWaiters_loop q links' (enqueued + 1)
      end
  end.

Definition UnblockWaiters (q : BuildQueue) (node : Z) : res BuildQueue :=
  src_node ← node_data q node;
  '(q, enqueue_count) ← UnblockWaiters_loop q (nd_BackLinks src_node) 0;
  OK (if 0 <? enqueue_count then WakeWaiters q enqueue_count else q).

(** ** Up-to-date checks *)

Fixpoint outputs_differ (a : list FrozenFileAndHash) (b : list cstr) : bool :=
  match a, b with
  | f :: a', s :: b' => if negb (strcmp (m_Filename f) s =? 0) then true else outputs_differ a' b'
  | _, _ => false
  end.

Definition OutputFilesDiffer (nd : NodeData) (prev : NodeStateData) : bool :=
  if negb (zlen (nd_OutputFiles nd) =? zlen (nsd_OutputFiles prev)) then true
  else outputs_differ (nd_OutputFiles nd) (nsd_OutputFiles prev).

(** [exists_file f] is what [StatCacheStat(...).Exists()] answers for [f]. *)
Definition OutputFilesMissing (exists_file : cstr -> bool) (nd : NodeData) : bool :=
  existsb (fun f => negb (exists_file (m_Filename f))) (nd_OutputFiles nd).

(** The decision at the end of [CheckInputSignature], [signature] being the
    digest just computed. *)
Definition CheckInputSignature_decide (exists_file : cstr -> bool) (nd : NodeData)
  (prev_state : option NodeStateData) (signature : HashDigest) : BuildProgress :=
  match prev_state with
  | None => kRunAction
  | Some prev =>
      if negb (digest_eq (nsd_InputSignature prev) signature) then kRunAction
      else if negb (nsd_BuildResult prev =? 0) then kRunAction
      else if OutputFilesDiffer nd prev then kRunAction
      else if OutputFilesMissing exists_file nd then kRunAction
      else kUpToDate
  end.

(** ** The node state machine *)

(** Where [AdvanceNode] lets go of the mutex: it returned, or it is inside
    [CheckInputSignature] or [RunAction]. *)
Inductive suspension : Type := Returned | InCheckInputSignature | InRunAction.

(** [--queue->m_ExpensiveRunning] and the unpark after an action. *)
Definition finish_expensive (q : BuildQueue) (node : Z) : res BuildQueue :=
  nd ← node_data q node;
  if expensive nd then
    let q := with_counts (q_PendingNodeCount q) (q_FailedNodeCount q) (q_ExpensiveRunning q - 1) q in
    _ ← check (0 <=? q_ExpensiveRunning q) "queue->m_ExpensiveRunning >= 0";
    UnparkExpensiveNode q
  else OK q.

(** The loop of [AdvanceNode]; a node goes through at most six states between
    two suspensions. *)
Fixpoint AdvanceNode_loop (fuel : nat) (q : BuildQueue) (node : Z) : res (BuildQueue * suspension) :=
  match fuel with
  | O => Err OutOfFuel
  | S fuel =>
      s ← get_node q node;
      match ns_Progress s with
      | kInitial =>
          '(q, p) ← SetupDependencies q node;
          q ← upd_node (set_progress p) node q;
          if bool_decide (kBlocked = p) then
            q ← upd_node NodeStateFlagInactive node q;
            OK (q, Returned)
          else AdvanceNode_loop fuel q node
      | kBlocked =>
          ready ← AllDependenciesReady q node;
          _ ← check ready "AllDependenciesReady(queue, node)";
          q ← upd_node (set_progress kUnblocked) node q;
          AdvanceNode_loop fuel q node
      | kUnblocked =>
          ready ← AllDependenciesReady q node;
          _ ← check ready "AllDependenciesReady(queue, node)";
          OK (q, InCheckInputSignature)
      | kRunAction =>
          nd ← node_data q node;
          if empty_action nd then
            q ← upd_node (set_progress kSucceeded) node q;
            q ← finish_expensive q node;
            AdvanceNode_loop fuel q node
          else if expensive nd then
            if q_ExpensiveRunning q =? cfg_MaxExpensiveCount (q_Config q) then
              q ← ParkExpensiveNode q node;
              OK (q, Returned)
            else
              OK (with_counts (q_PendingNodeCount q) (q_FailedNodeCount q) (q_ExpensiveRunning q + 1) q,
                  InRunAction)
          else OK (q, InRunAction)
      | kSucceeded | kUpToDate =>
          q ← upd_node (set_result 0) node q;
          q ← upd_node (set_progress kCompleted) node q;
          AdvanceNode_loop fuel q node
      | kFailed =>
          let q := with_counts (q_PendingNodeCount q) (q_FailedNodeCount q + 1) (q_ExpensiveRunning q) q in
          let q := log_wake CondBroadcast q in
          q ← upd_node (set_result 1) node q;
          q ← upd_node (set_progress kCompleted) node q;
          AdvanceNode_loop fuel q node
      | kCompleted =>
          let q := with_counts (q_PendingNodeCount q - 1) (q_FailedNodeCount q) (q_ExpensiveRunning q) q in
          q ← UnblockWaiters q node;
          OK (log_wake CondBroadcast q, Returned)
      end
  end.

Definition advance_fuel : nat := 8.

Definition AdvanceNode (q : BuildQueue) (node : Z) : res (BuildQueue * suspension) :=
  s ← get_node q node;
  _ ← check (negb (NodeStateIsCompleted s)) "!NodeStateIsCompleted(node)";
  _ ← check (NodeStateIsActive s) "NodeStateIsActive(node)";
  _ ← check (negb (NodeStateIsQueued s)) "!NodeStateIsQueued(node)";
  AdvanceNode_loop advance_fuel q node.

(** Back in [AdvanceNode] with the mutex after [CheckInputSignature] computed
    [signature] and decided. *)
Definition after_CheckInputSignature (exists_file : cstr -> bool) (signature : HashDigest)
  (q : BuildQueue) (node : Z) : res (BuildQueue * suspension) :=
  q ← upd_node (set_signature signature) node q;
  nd ← node_data q node;
  s ← get_node q node;
  q ← upd_node (set_progress (CheckInputSignature_decide exists_file nd (ns_MmapState s) signature)) node q;
  AdvanceNode_loop advance_fuel q node.

(** What the unlocked part of [RunAction] ended with: the output directories
    could not be made, or a process result. *)
Inductive action_result : Type :=
| DirectoriesFailed
| Executed (return_code : Z) (was_signalled : bool).

Definition action_progress (r : action_result) : BuildProgress :=
  match r with
  | DirectoriesFailed => kFailed
  | Executed return_code _ => if 0 =? return_code then kSucceeded else kFailed
  end.

Definition result_signals (r : action_result) : bool :=
  match r with Executed _ was_signalled => was_signalled | DirectoriesFailed => false end.

(** Back in [AdvanceNode] after [RunAction]; [SignalSet] broadcasts. *)
Definition after_RunAction (r : action_result) (q : BuildQueue) (node : Z) : res (BuildQueue * suspension) :=
  let q := if result_signals r then log_wake CondBroadcast q else q in
  q ← upd_node (set_progress (action_progress r)) node q;
  q ← finish_expensive q node;
  AdvanceNode_loop advance_fuel q node.

Definition NextNode (q : BuildQueue) : res (BuildQueue * option Z) :=
  let avail_count := AvailableNodeCount q in
  if 0 =? avail_count then OK (q, None) else
  let read_index := q_QueueReadIndex q in
  node_index ← of_opt (q_Queue q !!z read_index);
  let q := with_ring (q_Queue q)
    (Z.land (u32 (read_index + 1)) (u32 (q_QueueCapacity q - 1))) (q_QueueWriteIndex q) q in
  s ← get_node q node_index;
  _ ← check (NodeStateIsQueued s) "NodeStateIsQueued(state)";
  _ ← check (negb (NodeStateIsActive s)) "!NodeStateIsActive(state)";
  q ← upd_node NodeStateFlagUnqueued node_index q;
  q ← upd_node NodeStateFlagActive node_index q;
  OK (q, Some node_index).

(** [signalled] is [nullptr != SignalGetReason()]. *)
Definition ShouldKeepBuilding (signalled : bool) (q : BuildQueue) (thread_index : nat) : bool :=
  if signalled then false
  else if (0 <? q_FailedNodeCount q) && (Z.land (cfg_Flags (q_Config q)) kFlagContinueOnError =? 0) then false
  else if q_QuitSignalled q then false
  else if negb (thread_index =? 0)%nat then true
  else 0 <? q_PendingNodeCount q.

(** ** Set-up, tear-down and results *)

(** The arrays and [m_CurrentPassIndex] start uninitialised. *)
Definition BuildQueueInit (junk_ring junk_wait junk_pass : Z) (nodes : list NodeState) (config : BuildQueueConfig) : res BuildQueue :=
  _ ← check ((0 <? cfg_MaxExpensiveCount config) && (cfg_MaxExpensiveCount config <=? cfg_ThreadCount config))
        "config->m_MaxExpensiveCount > 0 && config->m_MaxExpensiveCount <= config->m_ThreadCount";
  capacity ← NextPowerOfTwo_checked (u32 (cfg_MaxNodes config + 1));
  OK (mkQueue config nodes (replicate (Z.to_nat capacity) junk_ring) capacity 0 0 0 0 junk_pass 0 0
        (replicate (Z.to_nat capacity) junk_wait) false []).

Definition BuildQueueDestroy (q : BuildQueue) : BuildQueue :=
  log_wake CondBroadcast (with_pass (q_CurrentPassIndex q) true q).

(** The loop that fills the queue: [build_queue[i] = start_index + i]. *)
Fixpoint fill_range (q : BuildQueue) (start_index i : Z) (count : nat) : res BuildQueue :=
  match count with
  | O => OK q
  | S count =>
      let state := start_index + i in
      q ← upd_node NodeStateFlagQueued state q;
      s ← get_node q state;
      _ ← check (bool_decide (ns_Progress s = kInitial)) "state->m_Progress == BuildProgress::kInitial";
      r ← zwrite i state (q_Queue q);
      fill_range (with_ring r (q_QueueReadIndex q) (q_QueueWriteIndex q) q) start_index (i + 1) count
  end.

(** [BuildQueueBuildNodeRange] up to [BuildLoop]. *)
Definition BuildNodeRange_begin (q : BuildQueue) (start_index count pass_index : Z) : res BuildQueue :=
  _ ← check (start_index + count <=? cfg_MaxNodes (q_Config q)) "start_index + count <= queue->m_Config.m_MaxNodes";
  let q := with_pass pass_index (q_QuitSignalled q) q in
  q ← fill_range q start_index 0 (Z.to_nat count);
  let q := with_counts count 0 (q_ExpensiveRunning q) q in
  let q := with_ring (q_Queue q) 0 count q in
  OK (log_wake CondBroadcast q).

Inductive BuildResult : Type := ResultOk | ResultInterrupted | ResultBuildError | ResultSetupError.

(** The result after [BuildLoop] returned in the main thread. *)
Definition BuildNodeRange_result (signalled : bool) (q : BuildQueue) : BuildResult :=
  if signalled then ResultInterrupted
  else if negb (q_FailedNodeCount q =? 0) then ResultBuildError
  else ResultOk.

(** ** Threads *)

Inductive thread_pc : Type :=
| TReady                 (* at the top of the loop of [BuildLoop] *)
| TWaiting               (* in [CondWait] *)
| TSigning (node : Z)    (* in [CheckInputSignature], mutex released *)
| TRunning (node : Z)    (* in [RunAction], mutex released *)
| TExited.               (* [BuildLoop] returned *)

(** Thread 0 is the main thread; [sys_signalled] is the signal reason. *)
Record sys : Type := mkSys {
  sys_q : BuildQueue;
  sys_threads : list thread_pc;
  sys_signalled : bool }.

Definition unwait (t : thread_pc) : thread_pc := match t with TWaiting => TReady | _ => t end.
Definition is_waiting (t : thread_pc) : bool := match t with TWaiting => true | _ => false end.

Definition count_signals (w : list wake_op) : nat :=
  length (filter (fun o => match o with CondSignal => true | CondBroadcast => false end = true) w).
Definition has_broadcast (w : list wake_op) : bool :=
  existsb (fun o => match o with CondBroadcast => true | CondSignal => false end) w.

(** The condition variable after the calls [w]: a broadcast wakes everyone; a
    signal wakes at least one waiting thread if there is one. [choice] names the
    threads woken by signals. *)
Definition wake (w : list wake_op) (choice : list nat) (threads : list thread_pc) : option (list thread_pc) :=
  if has_broadcast w then Some (map unwait threads) else
  let woken := filter (fun i => is_waiting (default TExited (threads !! i)) = true) (remove_dups choice) in
  let threads' := foldr (fun i ts => alter unwait i ts) threads woken in
  if (count_signals w <=? length woken)%nat || negb (existsb is_waiting threads') then Some threads' else None.

Definition pc_of (s : suspension) (node : Z) : thread_pc :=
  match s with
  | Returned => TReady
  | InCheckInputSignature => TSigning node
  | InRunAction => TRunning node
  end.

(** One iteration of [BuildLoop] by thread [i], up to where it lets the mutex
    go. *)
Definition loop_iteration (signalled : bool) (i : nat) (q : BuildQueue) : res (BuildQueue * thread_pc) :=
  if ShouldKeepBuilding signalled q i then
    '(q, o) ← NextNode q;
    match o with
    | Some node => '(q, s) ← AdvanceNode q node; OK (q, pc_of s node)
    | None => OK (q, TWaiting)
    end
  else OK (q, TExited).

(** What happens next: which thread moves, what the world answered while the
    mutex was released, and whom the condition variable wakes. [SignalSet] sets
    the reason and broadcasts under a mutex of its own, without that of the queue:
    the thread that has the queue's mutex may have found no reason before and begin
    to wait after. [EvSignal missed] is a signal that such a thread does not hear;
    the mutex makes it one thread at most. *)
Inductive event : Type :=
| EvLoop (i : nat) (choice : list nat)
| EvSigned (i : nat) (signature : HashDigest) (exists_file : cstr -> bool) (choice : list nat)
| EvExecuted (i : nat) (r : action_result) (choice : list nat)
| EvSpuriousWakeup (i : nat)
| EvSignal (missed : option nat).

(** Commit a locked stretch of thread [i]: its new position and the wake-ups. *)
Definition commit (s : sys) (i : nat) (choice : list nat) (signalled : bool)
  (r : res (BuildQueue * thread_pc)) : option (res sys) :=
  match r with
  | Err f => Some (Err f)
  | OK (q, pc) =>
      match wake (q_Wakes q) choice (<[i := pc]> (sys_threads s)) with
      | Some threads => Some (OK (mkSys (with_wakes [] q) threads signalled))
      | None => None
      end
  end.

Definition resume (r : res (BuildQueue * suspension)) (node : Z) : res (BuildQueue * thread_pc) :=
  '(q, susp) ← r; OK (q, pc_of susp node).

(** [None] when the event cannot happen in this state. *)
Definition sys_step (s : sys) (e : event) : option (res sys) :=
  match e with
  | EvLoop i choice =>
      match sys_threads s !! i with
      | Some TReady => commit s i choice (sys_signalled s) (loop_iteration (sys_signalled s) i (sys_q s))
      | _ => None
      end
  | EvSigned i signature exists_file choice =>
      match sys_threads s !! i with
      | Some (TSigning node) =>
          commit s i choice (sys_signalled s)
            (resume (after_CheckInputSignature exists_file signature (sys_q s) node) node)
      | _ => None
      end
  | EvExecuted i r choice =>
      match sys_threads s !! i with
      | Some (TRunning node) =>
          commit s i choice (sys_signalled s || result_signals r)
            (resume (after_RunAction r (sys_q s) node) node)
      | _ => None
      end
  | EvSpuriousWakeup i =>
      match sys_threads s !! i with
      | Some TWaiting => Some (OK (mkSys (sys_q s) (<[i := TReady]> (sys_threads s)) (sys_signalled s)))
      | _ => None
      end
  | EvSignal None => Some (OK (mkSys (sys_q s) (map unwait (sys_threads s)) true))
  | EvSignal (Some i) =>
      match sys_threads s !! i, loop_iteration (sys_signalled s) i (sys_q s) with
      | Some TReady, OK (q, TWaiting) => Some (OK (mkSys q (<[i := TWaiting]> (map unwait (sys_threads s))) true))
      | _, _ => None
      end
  end.

(** Executions. *)
Inductive reachable (s0 : sys) : sys -> Prop :=
| reach_init : reachable s0 s0
| reach_step s e s' : reachable s0 s -> sys_step s e = Some (OK s') -> reachable s0 s'.

(** Run a schedule, for concrete executions. *)
Fixpoint run (s : sys) (es : list event) : option (res sys) :=
  match es with
  | [] => Some (OK s)
  | e :: es' => match sys_step s e with Some (OK s') => run s' es' | o => o end
  end.
