(* ===== verification/BuildQueueRing.v ===== *)
(** * The ring buffer and ghost bookkeeping of the build queue

    The queue of src/src/BuildQueue.cpp is a power-of-two array with a read and
    a write index; [contents] is the list it stands for, and the lemmas say what
    one write or one read does to it. The second half is the bookkeeping the
    scheduler's invariant uses: lists that hold exactly the nodes of some status,
    and weighted counts over the statuses. *)

From S2P Require Import Prelude CommonFns Hash HashImpl DagData BuildQueue.

(** ** The ring as a list *)

Definition ring_at (r : list Z) (cap rd k : Z) : Z := default (-1) (r !!z ((rd + k) mod cap)).

Definition contents (q : BuildQueue) : list Z :=
  map (ring_at (q_Queue q) (q_QueueCapacity q) (q_QueueReadIndex q)) (seqZ 0 (AvailableNodeCount q)).

Definition ring_ok (q : BuildQueue) : Prop :=
  (exists k, 0 <= k <= 31 /\ q_QueueCapacity q = 2 ^ k) /\
  zlen (q_Queue q) = q_QueueCapacity q /\
  0 <= q_QueueReadIndex q < q_QueueCapacity q /\
  0 <= q_QueueWriteIndex q < q_QueueCapacity q.

Lemma ring_mod q x : ring_ok q ->
  Z.land (u32 x) (u32 (q_QueueCapacity q - 1)) = x mod q_QueueCapacity q.
Proof. intros ((k & Hk & ->) & _). by apply mask_mod. Qed.

Lemma avail_mod q : ring_ok q ->
  AvailableNodeCount q = (q_QueueWriteIndex q - q_QueueReadIndex q) mod q_QueueCapacity q.
Proof. apply ring_mod. Qed.

Lemma avail_range q : ring_ok q -> 0 <= AvailableNodeCount q < q_QueueCapacity q.
Proof. intros H. rewrite avail_mod by done. destruct H as (_ & _ & ? & ?). apply Z.mod_pos_bound. lia. Qed.

Lemma length_contents q : ring_ok q -> zlen (contents q) = AvailableNodeCount q.
Proof.
  intros H. pose proof (avail_range q H). unfold contents. rewrite length_map, length_seqZ. lia.
Qed.

(** The write position is where the next element goes. *)
Lemma write_pos q : ring_ok q ->
  q_QueueWriteIndex q = (q_QueueReadIndex q + AvailableNodeCount q) mod q_QueueCapacity q.
Proof.
  intros H. rewrite avail_mod by done. destruct H as (_ & _ & ? & ?).
  rewrite Zplus_mod_idemp_r. rewrite Zplus_minus. by rewrite Z.mod_small.
Qed.

Lemma mod_shift_ne rd n k cap : 0 <= k < n -> n < cap -> (rd + n) mod cap <> (rd + k) mod cap.
Proof.
  intros Hk Hn E. apply (f_equal (fun z => (z - (rd + k)) mod cap)) in E.
  rewrite !Zminus_mod_idemp_l, Z.sub_diag, Z.mod_0_l in E by lia.
  replace (rd + n - (rd + k)) with (n - k) in E by lia. rewrite Z.mod_small in E; lia.
Qed.

Definition ring_write (q : BuildQueue) (x : Z) : BuildQueue :=
  with_ring (zinsert (q_QueueWriteIndex q) x (q_Queue q)) (q_QueueReadIndex q)
    ((q_QueueWriteIndex q + 1) mod q_QueueCapacity q) q.

Lemma ring_write_ok q x : ring_ok q -> AvailableNodeCount q + 1 < q_QueueCapacity q ->
  ring_ok (ring_write q x) /\ AvailableNodeCount (ring_write q x) = AvailableNodeCount q + 1 /\
  contents (ring_write q x) = contents q ++ [x].
Proof.
  intros H Hs. pose proof (avail_range q H) as Ha.
  assert (Hok : ring_ok (ring_write q x)).
  { destruct H as (Hc & Hl & Hr & Hw). split; [done|]. cbn. rewrite zinsert_length.
    split; [done|]. split; [done|]. apply Z.mod_pos_bound. lia. }
  assert (Hav : AvailableNodeCount (ring_write q x) = AvailableNodeCount q + 1).
  { rewrite avail_mod by done. cbn. rewrite Zminus_mod_idemp_l.
    rewrite avail_mod in Ha |- * by done. rewrite avail_mod in Hs by done.
    replace (q_QueueWriteIndex q + 1 - q_QueueReadIndex q)
      with (q_QueueWriteIndex q - q_QueueReadIndex q + 1) by lia.
    rewrite <- Zplus_mod_idemp_l. apply Z.mod_small. lia. }
  split_and!; [done..|]. unfold contents. rewrite Hav.
  change (q_QueueReadIndex (ring_write q x)) with (q_QueueReadIndex q).
  change (q_QueueCapacity (ring_write q x)) with (q_QueueCapacity q).
  change (q_Queue (ring_write q x)) with (zinsert (q_QueueWriteIndex q) x (q_Queue q)).
  rewrite seqZ_app, map_app by lia. f_equal.
  - apply map_ext_in. intros k Hk%list_elem_of_In. apply elem_of_seqZ in Hk. unfold ring_at.
    rewrite zlookup_insert_ne; [done|]. rewrite write_pos by done. apply mod_shift_ne; lia.
  - pose proof (write_pos q H) as Hwp. destruct H as (_ & Hl & _ & Hw).
    generalize dependent (AvailableNodeCount q). intros n _ _ _ Hwp.
    rewrite (seqZ_cons _ 1), seqZ_nil, Z.add_0_l by lia. cbn [map]. unfold ring_at.
    by rewrite <- Hwp, zlookup_insert_eq by lia.
Qed.

Definition ring_read (q : BuildQueue) : BuildQueue :=
  with_ring (q_Queue q) ((q_QueueReadIndex q + 1) mod q_QueueCapacity q) (q_QueueWriteIndex q) q.

Lemma ring_read_ok q : ring_ok q -> AvailableNodeCount q <> 0 ->
  ring_ok (ring_read q) /\
  exists x, q_Queue q !!z q_QueueReadIndex q = Some x /\ contents q = x :: contents (ring_read q).
Proof.
  intros H Hn. pose proof (avail_range q H) as Ha.
  assert (Hok : ring_ok (ring_read q)).
  { destruct H as (Hc & Hl & Hr & Hw). split; [done|]. split; [done|]. split; [|done].
    cbn. apply Z.mod_pos_bound. lia. }
  split; [done|].
  assert (Hav : AvailableNodeCount (ring_read q) = AvailableNodeCount q - 1).
  { rewrite avail_mod by done. cbn. rewrite Zminus_mod_idemp_r.
    rewrite avail_mod in Ha, Hn |- * by done.
    replace (q_QueueWriteIndex q - (q_QueueReadIndex q + 1))
      with (q_QueueWriteIndex q - q_QueueReadIndex q - 1) by lia.
    rewrite <- Zminus_mod_idemp_l. apply Z.mod_small. lia. }
  destruct (zlookup_is_Some (q_Queue q) (q_QueueReadIndex q)) as [x Hx].
  { destruct H as (_ & -> & Hr & _). done. }
  exists x. split; [done|]. unfold contents. rewrite Hav.
  change (q_QueueCapacity (ring_read q)) with (q_QueueCapacity q).
  change (q_Queue (ring_read q)) with (q_Queue q).
  change (q_QueueReadIndex (ring_read q)) with ((q_QueueReadIndex q + 1) mod q_QueueCapacity q).
  rewrite (seqZ_cons 0) by lia. cbn [map]. f_equal.
  - unfold ring_at. destruct H as (_ & _ & Hr & _). rewrite Z.add_0_r, Z.mod_small by done. by rewrite Hx.
  - replace (Z.pred (AvailableNodeCount q)) with (AvailableNodeCount q - 1) by lia.
    change (Z.succ 0) with (1 + 0). rewrite <- (fmap_add_seqZ 1 0).
    change (Z.add 1 <$> seqZ 0 (AvailableNodeCount q - 1)) with (map (Z.add 1) (seqZ 0 (AvailableNodeCount q - 1))).
    rewrite map_map. apply map_ext. intros k. unfold ring_at.
    rewrite Zplus_mod_idemp_l. do 3 f_equal. lia.
Qed.

(** ** Statuses *)

(** Where a node of the build is, as seen by the scheduler. [SHand] is the node
    a thread is advancing while it holds the mutex. *)
Inductive status : Type :=
| SRingI           (* in the ring, not looked at yet *)
| SRingB           (* in the ring, its dependencies have completed *)
| SRingU           (* in the ring, unparked *)
| SWait            (* parked *)
| SSign            (* a thread computes its signature *)
| SRun             (* a thread runs its action *)
| SHand
| SBlocked         (* waits for a dependency *)
| SDone (failed : bool)
| SPast            (* of an earlier pass *)
| SFuture.         (* of a later pass *)

#[export] Instance status_eq_dec : EqDecision status.
Proof. solve_decision. Defined.

Definition is_ring (s : status) : bool := match s with SRingI | SRingB | SRingU => true | _ => false end.
Definition is_wait (s : status) : bool := match s with SWait => true | _ => false end.
Definition is_done (s : status) : bool := match s with SDone _ | SPast => true | _ => false end.
Definition is_current (s : status) : bool := match s with SPast | SFuture => false | _ => true end.

(** [l] lists, once each, the nodes whose status satisfies [P]. *)
Definition lists (P : status -> bool) (l : list Z) (sg : list status) : Prop :=
  NoDup l /\ forall j, j ∈ l <-> exists s, sg !!z j = Some s /\ P s = true.

Lemma sg_insert (sg : list status) (i : Z) (s s' : status) : sg !!z i = Some s -> forall j,
  zinsert i s' sg !!z j = if bool_decide (i = j) then Some s' else sg !!z j.
Proof.
  intros Hi j. rewrite zlookup_insert. apply zlookup_lt in Hi as ?.
  repeat case_bool_decide; naive_solver.
Qed.

Section Lists.
Context (P : status -> bool) (sg : list status) (i : Z) (s s' : status).
Hypothesis Hi : sg !!z i = Some s.

Lemma lists_same l : P s = P s' -> lists P l sg -> lists P l (zinsert i s' sg).
Proof.
  intros HP [Hn Hl]. split; [done|]. intros j. rewrite Hl, (sg_insert _ _ _ _ Hi).
  case_bool_decide; [subst|done]. rewrite Hi. split; intros (? & [= <-] & ?); eexists; split; done || congruence.
Qed.

Lemma lists_add l : P s = false -> P s' = true -> lists P l sg -> lists P (l ++ [i]) (zinsert i s' sg).
Proof.
  intros Hs Hs' [Hn Hl]. assert (i ∉ l) by (rewrite Hl; intros (? & ? & ?); congruence). split.
  - apply NoDup_app. split_and!; [done| |apply NoDup_singleton]. intros x Hx ->%list_elem_of_singleton. done.
  - intros j. rewrite elem_of_app, list_elem_of_singleton, Hl, (sg_insert _ _ _ _ Hi).
    case_bool_decide; [subst; naive_solver|]. naive_solver.
Qed.

Lemma lists_remove l1 l2 : P s' = false -> lists P (l1 ++ i :: l2) sg -> lists P (l1 ++ l2) (zinsert i s' sg).
Proof.
  intros Hs' [Hn Hl]. rewrite <- Permutation_middle in Hn. apply NoDup_cons in Hn as [Hni Hn].
  split; [done|]. intros j. specialize (Hl j). rewrite (sg_insert _ _ _ _ Hi).
  rewrite <- Permutation_middle, elem_of_cons in Hl.
  case_bool_decide as E; [subst j|].
  - split; [done|]. intros (? & [= <-] & ?). congruence.
  - rewrite <- Hl. split; [by right|]. intros [?|?]; [congruence|done].
Qed.

Lemma lists_bound l : P s = false -> lists P l sg -> (length l < length sg)%nat.
Proof.
  intros Hs [Hn Hl]. assert (i ∉ l) by (rewrite Hl; intros (? & ? & ?); congruence).
  assert (Hsub : i :: l ⊆ seqZ 0 (zlen sg)).
  { intros x. rewrite elem_of_cons, elem_of_seqZ. intros [->|Hx].
    - apply zlookup_lt in Hi. lia.
    - apply Hl in Hx as (? & Hx%zlookup_lt & _). lia. }
  apply NoDup_submseteq in Hsub; [|by constructor].
  apply submseteq_length in Hsub. rewrite length_seqZ in Hsub. cbn in Hsub. lia.
Qed.

End Lists.

(** ** Weighted counts *)

Fixpoint cnt (f : Z -> status -> Z) (i : Z) (sg : list status) : Z :=
  match sg with
  | [] => 0
  | s :: sg' => f i s + cnt f (i + 1) sg'
  end.

Lemma cnt_insert_nat f i sg k s s' : sg !! k = Some s ->
  cnt f i (<[k := s']> sg) = cnt f i sg - f (i + Z.of_nat k) s + f (i + Z.of_nat k) s'.
Proof.
  revert i k. induction sg as [|x sg IH]; intros i [|k] Hk; cbn in Hk; simplify_eq; cbn [insert list_insert cnt].
  - rewrite Z.add_0_r. lia.
  - change (list_insert k s' sg) with (<[k := s']> sg). rewrite IH by done.
    replace (i + 1 + Z.of_nat k) with (i + Z.of_nat (S k)) by lia. lia.
Qed.

Lemma cnt_insert f sg j s s' : sg !!z j = Some s ->
  cnt f 0 (zinsert j s' sg) = cnt f 0 sg - f j s + f j s'.
Proof.
  intros H. pose proof (zlookup_lt _ _ _ H). unfold zlookup, zinsert in *.
  rewrite bool_decide_true in * by lia. rewrite (cnt_insert_nat _ _ _ _ s) by done.
  by rewrite Z.add_0_l, Z2Nat.id by lia.
Qed.

Lemma cnt_nonneg f i sg : (forall j s, 0 <= f j s) -> 0 <= cnt f i sg.
Proof. intros Hf. revert i. induction sg as [|s sg IH]; intros i; cbn; [done|]. specialize (Hf i s). specialize (IH (i + 1)). lia. Qed.

(** A count that is zero has no witness, and conversely. *)
Lemma cnt_zero_nat f i sg : (forall j s, 0 <= f j s) -> cnt f i sg = 0 ->
  forall k s, sg !! k = Some s -> f (i + Z.of_nat k) s = 0.
Proof.
  intros Hf. revert i. induction sg as [|x sg IH]; intros i H [|k] s Hk; cbn in *; simplify_eq.
  - pose proof (cnt_nonneg f (i + 1) sg Hf). specialize (Hf i s). rewrite Z.add_0_r. lia.
  - pose proof (cnt_nonneg f (i + 1) sg Hf). pose proof (Hf i x).
    replace (i + Z.of_nat (S k)) with (i + 1 + Z.of_nat k) by lia. apply IH; [lia|done].
Qed.

Lemma cnt_zero f sg j s : (forall j s, 0 <= f j s) -> cnt f 0 sg = 0 -> sg !!z j = Some s -> f j s = 0.
Proof.
  intros Hf H Hj. pose proof (zlookup_lt _ _ _ Hj). unfold zlookup in Hj. rewrite bool_decide_true in Hj by lia.
  pose proof (cnt_zero_nat f 0 sg Hf H _ _ Hj) as E. by rewrite Z.add_0_l, Z2Nat.id in E by lia.
Qed.

Lemma cnt_all_zero f i sg : (forall k s, sg !! k = Some s -> f (i + Z.of_nat k) s = 0) -> cnt f i sg = 0.
Proof.
  revert i. induction sg as [|x sg IH]; intros i H; cbn; [done|].
  pose proof (H O x eq_refl) as E. rewrite Z.add_0_r in E. rewrite E, IH; [done|].
  intros k s Hk. specialize (H (S k) s Hk). by replace (i + 1 + Z.of_nat k) with (i + Z.of_nat (S k)) by lia.
Qed.

Lemma cnt_ge_nat f i sg k s : (forall j s, 0 <= f j s) -> sg !! k = Some s -> f (i + Z.of_nat k) s <= cnt f i sg.
Proof.
  intros Hf. revert i k. induction sg as [|x sg IH]; intros i [|k] Hk; cbn in *; simplify_eq.
  - rewrite Z.add_0_r. pose proof (cnt_nonneg f (i + 1) sg Hf). lia.
  - specialize (IH (i + 1) k Hk). specialize (Hf i x).
    replace (i + Z.of_nat (S k)) with (i + 1 + Z.of_nat k) by lia. lia.
Qed.

Lemma cnt_ge f sg j s : (forall j s, 0 <= f j s) -> sg !!z j = Some s -> f j s <= cnt f 0 sg.
Proof.
  intros Hf Hj. pose proof (zlookup_lt _ _ _ Hj). unfold zlookup in Hj. rewrite bool_decide_true in Hj by lia.
  pose proof (cnt_ge_nat f 0 sg _ _ Hf Hj) as E. by rewrite Z.add_0_l, Z2Nat.id in E by lia.
Qed.

Lemma cnt_pos_nat f i sg : 0 < cnt f i sg -> exists k s, sg !! k = Some s /\ 0 < f (i + Z.of_nat k) s.
Proof.
  revert i. induction sg as [|x sg IH]; intros i H; cbn in H; [lia|].
  destruct (decide (0 < f i x)); [exists O, x; by rewrite Z.add_0_r|].
  destruct (IH (i + 1)) as (k & s & Hk & Hf); [lia|]. exists (S k), s. split; [done|].
  by replace (i + Z.of_nat (S k)) with (i + 1 + Z.of_nat k) by lia.
Qed.

Lemma cnt_pos f sg : 0 < cnt f 0 sg -> exists j s, sg !!z j = Some s /\ 0 < f j s.
Proof. intros (k & s & Hk & Hf)%cnt_pos_nat. exists (Z.of_nat k), s. by rewrite zlookup_nat. Qed.
