(* ===== verification/BuildQueueInv.v ===== *)
(** * The scheduler's invariant

    For src/src/BuildQueue.cpp: the static conditions on the node table
    ([static_ok]), the invariant [Inv] relating a queue to a ghost status per
    node, and one lemma per function of the file that says the function runs to
    the end (no [CHECK] fails, no array access is out of range, the fuel is
    enough) and preserves it. *)

From S2P Require Import Prelude CommonFns Hash HashImpl DagData BuildQueue BuildQueueRing.

Section Inv.
Context (cfg : BuildQueueConfig) (mm : list Z).

(** ** Static conditions

    [mm] is the DAG index of every node of the build ([m_MmapData]). *)

Definition ndata (i : Z) : option NodeData :=
  match mm !!z i with Some d => cfg_NodeData cfg !!z d | None => None end.

(** Node [i] depends on node [j] (indices of node states). *)
Definition dep (i j : Z) : Prop :=
  exists nd d, ndata i = Some nd /\ d ∈ nd_Dependencies nd /\ cfg_NodeRemappingTable cfg !!z d = Some j.

Definition is_exp (i : Z) : bool := match ndata i with Some nd => expensive nd | None => false end.

(** What [DriverPrepareNodes] and the DAG file provide: the remapping table
    inverts [mm], dependencies are closed and in no later pass, back links
    mirror dependencies, the graph has no cycle, and an expensive node has a
    command to run. *)
Record static_ok : Prop := {
  so_len : zlen mm = cfg_MaxNodes cfg;
  so_max : cfg_MaxNodes cfg < 2 ^ 31;
  so_data i d : mm !!z i = Some d ->
    (exists nd, cfg_NodeData cfg !!z d = Some nd) /\ cfg_NodeRemappingTable cfg !!z d = Some i;
  so_remap d j : cfg_NodeRemappingTable cfg !!z d = Some j -> j <> -1 -> mm !!z j = Some d;
  so_deps i nd d : ndata i = Some nd -> d ∈ nd_Dependencies nd ->
    exists j nd', cfg_NodeRemappingTable cfg !!z d = Some j /\ j <> -1 /\
      ndata j = Some nd' /\ nd_PassIndex nd' <= nd_PassIndex nd;
  so_back i nd b : ndata i = Some nd -> b ∈ nd_BackLinks nd ->
    exists j, cfg_NodeRemappingTable cfg !!z b = Some j /\ (j = -1 \/ dep j i);
  so_back' i j nd : dep j i -> ndata i = Some nd ->
    exists b, b ∈ nd_BackLinks nd /\ cfg_NodeRemappingTable cfg !!z b = Some j;
  so_rank : exists rank : Z -> nat, forall i j, dep i j -> (rank j < rank i)%nat;
  so_exp i nd : ndata i = Some nd -> expensive nd = true -> empty_action nd = false;
  so_maxexp : 0 < cfg_MaxExpensiveCount cfg
}.

Hypothesis SO : static_ok.

(** ** The invariant *)

Definition ready (sg : list status) (i : Z) : Prop :=
  forall j s, dep i j -> sg !!z j = Some s -> is_done s = true.

Definition blocked_on (sg : list status) (i : Z) : Prop :=
  exists j s, dep i j /\ sg !!z j = Some s /\ is_done s = false.

Definition flags_ok (s : status) (f : Z) : Prop :=
  match s with
  | SRingI | SRingB | SRingU => f = 1
  | SWait => f = 3
  | SSign | SRun | SHand | SDone _ => f = 2
  | SBlocked | SFuture => f = 0
  | SPast => True
  end.

(** [pend] are the blocked nodes whose last dependency has just completed and
    that [UnblockWaiters] has still to enqueue. *)
Definition prog_ok (sg : list status) (pend : Z -> Prop) (i : Z) (s : status) (p : BuildProgress) : Prop :=
  match s with
  | SRingI => p = kInitial
  | SRingB => p = kBlocked /\ ready sg i
  | SRingU | SWait => p = kRunAction /\ ready sg i /\ is_exp i = true
  | SSign => p = kUnblocked /\ ready sg i
  | SRun => p = kRunAction /\ ready sg i
  | SHand => p = kInitial \/ (ready sg i /\ p <> kCompleted)
  | SBlocked => p = kBlocked /\ (blocked_on sg i \/ pend i)
  | SDone _ => p = kCompleted /\ ready sg i
  | SPast => p = kCompleted
  | SFuture => p = kInitial
  end.

Definition result_ok (s : status) (r : Z) : Prop :=
  match s with SDone failed => r = Z.b2z failed | SPast => r = 0 | _ => True end.

Definition pass_ok (cur : Z) (s : status) (nd : NodeData) : Prop :=
  match s with
  | SPast => nd_PassIndex nd < cur
  | SFuture => cur < nd_PassIndex nd
  | _ => nd_PassIndex nd = cur
  end.

Definition pend_w (_ : Z) (s : status) : Z := if is_current s && negb (is_done s) then 1 else 0.
Definition failed_w (_ : Z) (s : status) : Z := match s with SDone true => 1 | _ => 0 end.
Definition run_w (i : Z) (s : status) : Z := match s with SRun => Z.b2z (is_exp i) | _ => 0 end.
Definition unparked_w (_ : Z) (s : status) : Z := match s with SRingU => 1 | _ => 0 end.

(** Work left: an upper bound on the number of locked stretches to come. *)
Definition work_w (_ : Z) (s : status) : Z :=
  match s with
  | SRingI => 7 | SBlocked => 6 | SRingB => 5 | SSign => 4 | SRingU => 3 | SRun | SWait => 2
  | SHand | SDone _ | SPast | SFuture => 0
  end.

Definition parked (q : BuildQueue) : list Z := take (Z.to_nat (q_ExpensiveWaitCount q)) (q_ExpensiveWaitList q).

(** An expensive node in hand that is about to run its action, or to be parked,
    counts as a slot that may be taken. *)
Definition slack (q : BuildQueue) (hand : option Z) : Z :=
  match hand with
  | Some n =>
      match q_NodeState q !!z n with
      | Some st => Z.b2z (bool_decide (ns_Progress st = kRunAction) && is_exp n)
      | None => 0
      end
  | None => 0
  end.

Record Inv (sg : list status) (q : BuildQueue) (hand : option Z) (pend : Z -> Prop) : Prop := {
  iv_cfg : q_Config q = cfg;
  iv_mm : map ns_MmapData (q_NodeState q) = mm;
  iv_len : length sg = length (q_NodeState q);
  iv_flags i s st : sg !!z i = Some s -> q_NodeState q !!z i = Some st -> flags_ok s (ns_Flags st);
  iv_prog i s st : sg !!z i = Some s -> q_NodeState q !!z i = Some st -> prog_ok sg pend i s (ns_Progress st);
  iv_result i s st : sg !!z i = Some s -> q_NodeState q !!z i = Some st -> result_ok s (ns_BuildResult st);
  iv_pass i s nd : sg !!z i = Some s -> ndata i = Some nd -> pass_ok (q_CurrentPassIndex q) s nd;
  iv_ring : ring_ok q;
  iv_cap : cfg_MaxNodes cfg < q_QueueCapacity q;
  iv_contents : lists is_ring (contents q) sg;
  iv_waitlen : zlen (q_ExpensiveWaitList q) = q_QueueCapacity q;
  iv_waitcount : 0 <= q_ExpensiveWaitCount q <= cfg_MaxNodes cfg;
  iv_wait : lists is_wait (parked q) sg;
  iv_hand i : sg !!z i = Some SHand <-> hand = Some i;
  iv_pending : q_PendingNodeCount q = cnt pend_w 0 sg;
  iv_failed : q_FailedNodeCount q = cnt failed_w 0 sg;
  iv_running : q_ExpensiveRunning q = cnt run_w 0 sg;
  iv_limit : q_ExpensiveRunning q <= cfg_MaxExpensiveCount cfg;
  iv_parked : 0 < q_ExpensiveWaitCount q ->
    cfg_MaxExpensiveCount cfg <= q_ExpensiveRunning q + cnt unparked_w 0 sg + slack q hand
}.

Lemma slack_range q hand : 0 <= slack q hand <= 1.
Proof. unfold slack. destruct hand; [|lia]. destruct (q_NodeState q !!z z); [|lia]. by destruct (_ && _). Qed.

Lemma slack_zero q n st : q_NodeState q !!z n = Some st -> (ns_Progress st = kRunAction -> is_exp n = false) ->
  slack q (Some n) = 0.
Proof. intros H Hp. unfold slack. rewrite H. case_bool_decide; [by rewrite Hp|done]. Qed.

Lemma run_w_nonneg i s : 0 <= run_w i s.
Proof. destruct s; cbn; try lia. by destruct (is_exp i). Qed.

Lemma work_w_nonneg i s : 0 <= work_w i s.
Proof. destruct s; cbn; lia. Qed.

(** ** Reading through the invariant *)

(** The part of the invariant that dependency checks read. *)
Record Base (sg : list status) (q : BuildQueue) : Prop := {
  bs_cfg : q_Config q = cfg;
  bs_mm : map ns_MmapData (q_NodeState q) = mm;
  bs_len : length sg = length (q_NodeState q);
  bs_done i s st : sg !!z i = Some s -> q_NodeState q !!z i = Some st -> NodeStateIsCompleted st = is_done s
}.

Lemma inv_base sg q hand pend : Inv sg q hand pend -> Base sg q.
Proof.
  intros I. split; [apply I..|]. intros i s st Hs Hst. pose proof (iv_prog _ _ _ _ I _ _ _ Hs Hst) as Hp.
  unfold NodeStateIsCompleted. destruct s; cbn in *;
    first [apply bool_decide_true | apply bool_decide_false]; intuition congruence.
Qed.

Lemma exp_eq i nd : ndata i = Some nd -> is_exp i = expensive nd.
Proof. unfold is_exp. by intros ->. Qed.

Lemma upd_node_eq q f i st : q_NodeState q !!z i = Some st ->
  upd_node f i q = OK (with_nodes (zinsert i (f st) (q_NodeState q)) q).
Proof. intros H. unfold upd_node, get_node. by rewrite H. Qed.

Section Read.
Context {sg : list status} {q : BuildQueue}.
Hypothesis B : Base sg q.

Lemma sg_node i s : sg !!z i = Some s -> exists st, q_NodeState q !!z i = Some st.
Proof. intros H%zlookup_lt. apply zlookup_is_Some. rewrite <- (bs_len _ _ B). done. Qed.

Lemma node_sg i st : q_NodeState q !!z i = Some st -> exists s, sg !!z i = Some s.
Proof. intros H%zlookup_lt. apply zlookup_is_Some. rewrite (bs_len _ _ B). done. Qed.

Lemma node_mm i st : q_NodeState q !!z i = Some st -> mm !!z i = Some (ns_MmapData st).
Proof. intros H. rewrite <- (bs_mm _ _ B), zlookup_map, H. done. Qed.

Lemma mm_node i d : mm !!z i = Some d -> exists st, q_NodeState q !!z i = Some st /\ ns_MmapData st = d.
Proof.
  rewrite <- (bs_mm _ _ B), zlookup_map. destruct (q_NodeState q !!z i); [|done].
  intros [= <-]. eauto.
Qed.

Lemma node_ndata i st : q_NodeState q !!z i = Some st -> exists nd, ndata i = Some nd.
Proof.
  intros H%node_mm. unfold ndata. rewrite H. by apply (so_data SO) in H as [[nd ->] _]; eauto.
Qed.

Lemma node_data_eq i nd : ndata i = Some nd -> node_data q i = OK nd.
Proof.
  intros H. unfold ndata in H. destruct (mm !!z i) as [d|] eqn:E; [|done].
  destruct (mm_node i d E) as (st & Hst & <-).
  unfold node_data, get_node. rewrite Hst. cbn. rewrite (bs_cfg _ _ B), H. done.
Qed.

Lemma sg_ndata i s : sg !!z i = Some s -> exists nd, ndata i = Some nd.
Proof. intros [st H]%sg_node. by apply node_ndata in H. Qed.

Lemma ndata_sg i nd : ndata i = Some nd -> exists s, sg !!z i = Some s.
Proof.
  unfold ndata. destruct (mm !!z i) eqn:E; [|done]. intros _.
  apply mm_node in E as (st & Hst & _). by apply node_sg in Hst.
Qed.

Lemma get_state i d : cfg_NodeRemappingTable cfg !!z d = Some i -> i <> -1 -> GetStateForNode q d = OK (Some i).
Proof.
  intros H Hi. unfold GetStateForNode. rewrite (bs_cfg _ _ B), H. cbn.
  rewrite (proj2 (Z.eqb_neq _ _)) by done.
  apply (so_remap SO) in H; [|done]. apply mm_node in H as (st & Hst & <-).
  unfold get_node. rewrite Hst. cbn. unfold check. by rewrite Z.eqb_refl.
Qed.

Lemma deps_ready_spec i nd deps : ndata i = Some nd -> deps ⊆ nd_Dependencies nd ->
  exists b, deps_ready q deps = OK b /\
  (b = true -> forall d j s, d ∈ deps -> cfg_NodeRemappingTable cfg !!z d = Some j -> sg !!z j = Some s -> is_done s = true) /\
  (b = false -> blocked_on sg i).
Proof.
  intros Hnd. induction deps as [|d deps IH]; intros Hsub; cbn [deps_ready].
  { exists true. split_and!; [done|intros _ d j s Hd; by apply elem_of_nil in Hd|done]. }
  destruct IH as (b & Hb & Hbt & Hbf); [set_solver|].
  destruct (so_deps SO i nd d Hnd) as (j & nd' & Hj & Hj1 & Hnd' & _); [set_solver|].
  rewrite (get_state j d) by done. cbn. destruct (ndata_sg _ _ Hnd') as [s Hs].
  destruct (sg_node _ _ Hs) as [st Hst]. unfold get_node. rewrite Hst. cbn.
  rewrite (bs_done _ _ B _ _ _ Hs Hst). destruct (is_done s) eqn:Ed; cbn.
  - exists b. split_and!; [done| |done]. intros Hb1 d' j' s' Hd' Hj' Hs'.
    apply elem_of_cons in Hd' as [->|Hd']; [congruence|eauto].
  - exists false. split_and!; [done|done|]. intros _. exists j, s. split_and!; [|done..].
    exists nd, d. split_and!; [done|set_solver|done].
Qed.

Lemma AllDependenciesReady_spec i nd : ndata i = Some nd ->
  exists b, AllDependenciesReady q i = OK b /\ (b = true -> ready sg i) /\ (b = false -> blocked_on sg i).
Proof.
  intros Hnd. unfold AllDependenciesReady. rewrite (node_data_eq i nd Hnd). cbn.
  destruct (deps_ready_spec i nd (nd_Dependencies nd) Hnd) as (b & Hb & Ht & Hf); [done|].
  exists b. split_and!; [done| |done]. intros Hb1 j s (nd' & d & Hnd' & Hd & Hj) Hs.
  simplify_eq. eauto.
Qed.

Lemma ready_check i nd : ndata i = Some nd -> ready sg i -> AllDependenciesReady q i = OK true.
Proof.
  intros Hnd Hr. destruct (AllDependenciesReady_spec i nd Hnd) as ([] & H & _ & Hf); [done|].
  destruct (Hf eq_refl) as (j & s & Hd & Hs & Hn). rewrite (Hr j s Hd Hs) in Hn. done.
Qed.

End Read.

(** ** Moving one node *)

Lemma ready_move sg i s s' k : sg !!z i = Some s -> is_done s = is_done s' ->
  ready (zinsert i s' sg) k <-> ready sg k.
Proof.
  intros Hi Hd. unfold ready. split; intros H j t Hj Ht; specialize (H j).
  - specialize (H (if bool_decide (i = j) then s' else t) Hj). rewrite (sg_insert _ _ _ _ Hi) in H.
    case_bool_decide; [|auto]. subst. simplify_eq. rewrite Hd. auto.
  - rewrite (sg_insert _ _ _ _ Hi) in Ht. case_bool_decide; [|eauto]. subst. simplify_eq.
    rewrite <- Hd. eauto.
Qed.

Lemma blocked_move sg i s s' k : sg !!z i = Some s -> is_done s = is_done s' ->
  blocked_on sg k -> blocked_on (zinsert i s' sg) k.
Proof.
  intros Hi Hd (j & t & Hj & Ht & Hn). exists j, (if bool_decide (i = j) then s' else t).
  rewrite (sg_insert _ _ _ _ Hi). case_bool_decide; subst; simplify_eq; [|eauto].
  split_and!; [done..|congruence].
Qed.

Lemma prog_ok_move sg pend i s s' k t p : sg !!z i = Some s -> is_done s = is_done s' ->
  prog_ok sg pend k t p -> prog_ok (zinsert i s' sg) pend k t p.
Proof.
  intros Hi Hd. destruct t; cbn; rewrite ?(ready_move _ _ _ _ _ Hi Hd); try done.
  intros [? [?|?]]; (split; [done|]); [left; by eapply blocked_move|by right].
Qed.

Lemma map_mm_insert ns i st st' : ns !!z i = Some st -> ns_MmapData st' = ns_MmapData st ->
  map ns_MmapData (zinsert i st' ns) = map ns_MmapData ns.
Proof.
  intros Hst Hm. apply list_eq. intros k. change (map ns_MmapData ?l) with (ns_MmapData <$> l).
  rewrite !list_lookup_fmap, <- !zlookup_nat, zlookup_insert. case_bool_decide; [|done].
  destruct_and!. subst i. rewrite Hst. cbn. by rewrite Hm.
Qed.

(** What a locked stretch leaves alone. *)
Definition frame (q q' : BuildQueue) : Prop :=
  q_Config q' = q_Config q /\ q_CurrentPassIndex q' = q_CurrentPassIndex q /\
  q_QueueCapacity q' = q_QueueCapacity q.

(** One node changes status between two unfinished ones of the current pass. *)
Lemma inv_move sg q hand pend i s s' st st' q' hand' :
  Inv sg q hand pend -> sg !!z i = Some s -> q_NodeState q !!z i = Some st ->
  is_done s = false -> is_done s' = false -> is_current s = true -> is_current s' = true ->
  frame q q' -> q_NodeState q' = zinsert i st' (q_NodeState q) -> ns_MmapData st' = ns_MmapData st ->
  flags_ok s' (ns_Flags st') -> prog_ok sg pend i s' (ns_Progress st') ->
  ring_ok q' -> lists is_ring (contents q') (zinsert i s' sg) ->
  zlen (q_ExpensiveWaitList q') = q_QueueCapacity q ->
  0 <= q_ExpensiveWaitCount q' <= cfg_MaxNodes cfg ->
  lists is_wait (parked q') (zinsert i s' sg) ->
  (forall j, zinsert i s' sg !!z j = Some SHand <-> hand' = Some j) ->
  q_PendingNodeCount q' = q_PendingNodeCount q -> q_FailedNodeCount q' = q_FailedNodeCount q ->
  q_ExpensiveRunning q' = q_ExpensiveRunning q - run_w i s + run_w i s' ->
  q_ExpensiveRunning q' <= cfg_MaxExpensiveCount cfg ->
  (0 < q_ExpensiveWaitCount q' -> cfg_MaxExpensiveCount cfg <=
     q_ExpensiveRunning q' + (cnt unparked_w 0 sg - unparked_w i s + unparked_w i s') + slack q' hand') ->
  Inv (zinsert i s' sg) q' hand' pend.
Proof.
  intros I Hs Hst Hd Hd' Hc Hc' (Fc & Fp & Fk) Hn Hm Hf Hp Hr Hl Hwl Hwc Hw Hh HP HF HR HL HU.
  assert (E : is_done s = is_done s') by congruence.
  assert (Hin : forall j t, zinsert i s' sg !!z j = Some t ->
     (j = i /\ t = s') \/ (j <> i /\ sg !!z j = Some t)).
  { intros j t. rewrite (sg_insert _ _ _ _ Hs). case_bool_decide; naive_solver. }
  pose proof (zlookup_lt _ _ _ Hst).
  assert (Hnd : forall j u, zinsert i st' (q_NodeState q) !!z j = Some u ->
     (j = i /\ u = st') \/ (j <> i /\ q_NodeState q !!z j = Some u)).
  { intros j u. rewrite zlookup_insert. case_bool_decide; naive_solver. }
  split.
  - rewrite Fc. apply I.
  - rewrite Hn, <- (iv_mm _ _ _ _ I). by apply map_mm_insert with (st := st).
  - rewrite Hn, !zinsert_length. apply I.
  - intros j t u Ht Hu. rewrite Hn in Hu. apply Hin in Ht. apply Hnd in Hu.
    destruct Ht as [[-> ->]|[? Ht]], Hu as [[? ->]|[? Hu]]; try done. by eapply (iv_flags _ _ _ _ I).
  - intros j t u Ht Hu. rewrite Hn in Hu. apply Hin in Ht. apply Hnd in Hu.
    apply (prog_ok_move _ _ _ s); [done..|].
    destruct Ht as [[-> ->]|[? Ht]], Hu as [[? ->]|[? Hu]]; try done. by eapply (iv_prog _ _ _ _ I).
  - intros j t u Ht Hu. rewrite Hn in Hu. apply Hin in Ht. apply Hnd in Hu.
    destruct Ht as [[-> ->]|[? Ht]], Hu as [[? ->]|[? Hu]]; try done; [by destruct s'|].
    by eapply (iv_result _ _ _ _ I).
  - intros j t nd Ht Hj. rewrite Fp. apply Hin in Ht as [[-> ->]|[? Ht]]; [|by eapply (iv_pass _ _ _ _ I)].
    pose proof (iv_pass _ _ _ _ I _ _ _ Hs Hj) as HH. destruct s, s'; done.
  - done.
  - rewrite Fk. apply I.
  - done.
  - by rewrite Fk.
  - done.
  - done.
  - done.
  - rewrite HP, (iv_pending _ _ _ _ I), (cnt_insert _ _ _ _ _ Hs). unfold pend_w. rewrite Hd, Hd', Hc, Hc'. lia.
  - rewrite HF, (iv_failed _ _ _ _ I), (cnt_insert _ _ _ _ _ Hs). unfold failed_w.
    destruct s, s'; cbn in *; done || lia.
  - rewrite HR, (iv_running _ _ _ _ I), (cnt_insert _ _ _ _ _ Hs). done.
  - done.
  - rewrite (cnt_insert _ _ _ _ _ Hs). done.
Qed.

(** [pend] only matters for blocked nodes. *)
Lemma inv_pend sg q hand (pend pend' : Z -> Prop) :
  Inv sg q hand pend ->
  (forall k, sg !!z k = Some SBlocked -> pend k -> pend' k \/ blocked_on sg k) ->
  Inv sg q hand pend'.
Proof.
  intros I H. split; try apply I. intros i s st Hs Hst.
  pose proof (iv_prog _ _ _ _ I i s st Hs Hst) as Hp. destruct s; try done. cbn in *.
  destruct Hp as [? [?|Hp]]; (split; [done|]); [by left|]. destruct (H i Hs Hp); auto.
Qed.

(** Fields a function may change without touching the invariant. *)
Lemma inv_wakes sg q hand pend w : Inv sg q hand pend -> Inv sg (with_wakes w q) hand pend.
Proof. intros I. split; apply I. Qed.

(** ** Effects of a stretch on the rest of the system *)

Definition is_held (s : status) : bool := match s with SSign | SRun => true | _ => false end.

Definition is_stable (s : status) : bool := is_held s || is_done s.

(** The nodes other threads hold stay theirs, and no other node completes. *)
Definition keeps (n : Z) (sg sg' : list status) : Prop :=
  forall j s, j <> n -> is_stable s = true -> sg !!z j = Some s <-> sg' !!z j = Some s.

Lemma keeps_refl n sg : keeps n sg sg.
Proof. done. Qed.

Lemma keeps_trans n sg1 sg2 sg3 : keeps n sg1 sg2 -> keeps n sg2 sg3 -> keeps n sg1 sg3.
Proof. intros H1 H2 j s Hj Hs. rewrite (H1 j s Hj Hs). by apply H2. Qed.

Lemma keeps_self n sg s' s : sg !!z n = Some s -> keeps n sg (zinsert n s' sg).
Proof. intros Hn j t Hj Ht. rewrite (sg_insert _ _ _ _ Hn). by rewrite bool_decide_false. Qed.

Lemma keeps_other n sg i s s' : sg !!z i = Some s -> is_stable s = false -> is_stable s' = false ->
  keeps n sg (zinsert i s' sg).
Proof.
  intros Hi Hs Hs' j t Hj Ht. rewrite (sg_insert _ _ _ _ Hi).
  case_bool_decide; [subst|done]. split; intros; simplify_eq; congruence.
Qed.

(** Counters move only with a broadcast. *)
Record ext (q q' : BuildQueue) : Prop := {
  ext_quit : q_QuitSignalled q' = q_QuitSignalled q;
  ext_pass : q_CurrentPassIndex q' = q_CurrentPassIndex q;
  ext_wakes : has_broadcast (q_Wakes q) = true -> has_broadcast (q_Wakes q') = true;
  ext_counts : (q_PendingNodeCount q' = q_PendingNodeCount q /\ q_FailedNodeCount q' = q_FailedNodeCount q) \/
    has_broadcast (q_Wakes q') = true;
  ext_failed : q_FailedNodeCount q <= q_FailedNodeCount q'
}.

Lemma ext_refl q : ext q q.
Proof. split; try done. by left. Qed.

Lemma ext_trans q1 q2 q3 : ext q1 q2 -> ext q2 q3 -> ext q1 q3.
Proof.
  intros [] []. split; [congruence..|auto| |lia].
  destruct ext_counts0 as [[]|?], ext_counts1 as [[]|?]; auto. left. split; congruence.
Qed.

Lemma has_broadcast_app w1 w2 : has_broadcast (w1 ++ w2) = has_broadcast w1 || has_broadcast w2.
Proof. apply existsb_app. Qed.

Lemma ext_log q w : ext q (log_wake w q).
Proof.
  split; try done; cbn; [|by left]. rewrite has_broadcast_app. by intros ->.
Qed.

Lemma ext_fields q q' : q_QuitSignalled q' = q_QuitSignalled q ->
  q_CurrentPassIndex q' = q_CurrentPassIndex q -> q_Wakes q' = q_Wakes q ->
  q_PendingNodeCount q' = q_PendingNodeCount q -> q_FailedNodeCount q' = q_FailedNodeCount q -> ext q q'.
Proof. intros H1 H2 H3 H4 H5. split; [done..|by rewrite H3|by left|lia]. Qed.

Definition work (sg : list status) : Z := cnt work_w 0 sg.

(** ** Enqueue and unpark *)

Lemma Enqueue_eq sg q i st nd : Base sg q -> ring_ok q ->
  q_NodeState q !!z i = Some st -> ndata i = Some nd -> ready sg i ->
  ns_Flags st = 0 -> NodeStateIsCompleted st = false -> nd_PassIndex nd = q_CurrentPassIndex q ->
  AvailableNodeCount q + 1 < q_QueueCapacity q ->
  Enqueue q i = OK (with_nodes (zinsert i (set_flags 1 st) (q_NodeState q)) (ring_write q i)).
Proof.
  intros B R Hst Hnd Hr Hf Hc Hp Ha. unfold Enqueue.
  rewrite (ready_check B i nd Hnd Hr). cbn -[AvailableNodeCount upd_node u32].
  unfold get_node. rewrite Hst. cbn -[AvailableNodeCount upd_node u32].
  unfold NodeStateIsQueued, NodeStateIsActive. rewrite Hf, Hc. cbn -[AvailableNodeCount upd_node u32].
  rewrite (node_data_eq B i nd Hnd). cbn -[AvailableNodeCount upd_node u32].
  rewrite Hp, Z.eqb_refl. cbn -[AvailableNodeCount upd_node u32].
  destruct R as (Rc & Rl & Rr & Rw). rewrite zwrite_ok by lia. cbn -[AvailableNodeCount upd_node u32].
  rewrite (ring_mod q) by done.
  fold (ring_write q i). rewrite (upd_node_eq _ _ _ st) by done. cbn -[AvailableNodeCount u32].
  change (AvailableNodeCount (with_nodes _ ?x)) with (AvailableNodeCount x).
  destruct (ring_write_ok q i) as (_ & -> & _); [done..|].
  rewrite (Z.add_comm 1), Z.eqb_refl. cbn. unfold NodeStateFlagQueued. rewrite Hf. done.
Qed.

Lemma ring_space sg q hand pend i s : Inv sg q hand pend -> sg !!z i = Some s -> is_ring s = false ->
  AvailableNodeCount q + 1 < q_QueueCapacity q.
Proof.
  intros I Hs Hr. pose proof (lists_bound is_ring sg i s Hs _ Hr (iv_contents _ _ _ _ I)) as Hb.
  rewrite <- length_contents by apply I. pose proof (iv_cap _ _ _ _ I).
  rewrite (iv_len _ _ _ _ I) in Hb. pose proof (so_len SO) as Hl.
  rewrite <- (iv_mm _ _ _ _ I), length_map in Hl. lia.
Qed.

Lemma enqueue_blocked sg q pend i : Inv sg q None pend -> sg !!z i = Some SBlocked -> ready sg i ->
  exists q', Enqueue q i = OK q' /\ Inv (zinsert i SRingB sg) q' None pend /\ ext q q'.
Proof.
  intros I Hs Hr. pose proof (inv_base _ _ _ _ I) as B.
  destruct (sg_node B _ _ Hs) as [st Hst]. destruct (node_ndata B _ _ Hst) as [nd Hnd].
  pose proof (ring_space _ _ _ _ _ _ I Hs eq_refl) as Ha.
  pose proof (iv_flags _ _ _ _ I _ _ _ Hs Hst) as Hf. pose proof (iv_prog _ _ _ _ I _ _ _ Hs Hst) as [Hp _].
  rewrite (Enqueue_eq sg q i st nd); try done; [|apply I|by rewrite (bs_done _ _ B _ _ _ Hs Hst)|
    by apply (iv_pass _ _ _ _ I _ _ _ Hs Hnd)].
  eexists. split; [done|]. destruct (ring_write_ok q i) as (R & _ & HC); [apply I|done|].
  split; [|by apply ext_fields].
  apply (inv_move sg q None pend i SBlocked SRingB st (set_flags 1 st)); try done; try by apply I.
  - change (contents (with_nodes _ ?x)) with (contents x). rewrite HC.
    apply (lists_add is_ring sg i SBlocked); [done..|apply I].
  - apply (lists_same is_wait sg i SBlocked); [done..|apply I].
  - intros j. rewrite (sg_insert _ _ _ _ Hs). case_bool_decide; [subst|apply I].
    rewrite <- (iv_hand _ _ _ _ I), Hs. split; done.
  - cbn. lia.
  - intros H. pose proof (iv_parked _ _ _ _ I H) as Hk. cbn in *. lia.
Qed.

Lemma base_flags sg q i st f : Base sg q -> q_NodeState q !!z i = Some st ->
  Base sg (with_nodes (zinsert i (set_flags f st) (q_NodeState q)) q).
Proof.
  intros B Hst. pose proof (zlookup_lt _ _ _ Hst). split.
  - apply B.
  - cbn. rewrite <- (bs_mm _ _ B). apply map_mm_insert with (st := st); done.
  - cbn. rewrite zinsert_length. apply B.
  - intros j s u Hs. cbn. rewrite zlookup_insert. case_bool_decide; [|by apply (bs_done _ _ B)].
    intros [= <-]. destruct_and!. subst j. by apply (bs_done _ _ B _ _ st Hs).
Qed.

Lemma base_progress sg q i st p : Base sg q -> q_NodeState q !!z i = Some st ->
  NodeStateIsCompleted st = false -> p <> kCompleted ->
  Base sg (with_nodes (zinsert i (set_progress p st) (q_NodeState q)) q).
Proof.
  intros B Hst Hc Hp. pose proof (zlookup_lt _ _ _ Hst). split.
  - apply B.
  - cbn. rewrite <- (bs_mm _ _ B). apply map_mm_insert with (st := st); done.
  - cbn. rewrite zinsert_length. apply B.
  - intros j s u Hs. cbn. rewrite zlookup_insert. case_bool_decide; [|by apply (bs_done _ _ B)].
    intros [= <-]. destruct_and!. subst j. rewrite <- (bs_done _ _ B _ _ st Hs Hst), Hc.
    by apply bool_decide_false.
Qed.

Lemma Unpark_eq sg q j st nd : Base sg q -> ring_ok q -> 0 < q_ExpensiveWaitCount q ->
  q_ExpensiveWaitList q !!z (q_ExpensiveWaitCount q - 1) = Some j ->
  q_NodeState q !!z j = Some st -> ndata j = Some nd -> ready sg j ->
  ns_Flags st = 3 -> NodeStateIsCompleted st = false -> nd_PassIndex nd = q_CurrentPassIndex q ->
  AvailableNodeCount q + 1 < q_QueueCapacity q ->
  UnparkExpensiveNode q = OK (log_wake CondSignal (with_nodes (zinsert j (set_flags 1 st) (q_NodeState q))
    (ring_write (with_wait (q_ExpensiveWaitCount q - 1) (q_ExpensiveWaitList q) q) j))).
Proof.
  intros B R Hw Hj Hst Hnd Hr Hf Hc Hp Ha. unfold UnparkExpensiveNode.
  rewrite (proj2 (Z.ltb_lt _ _)) by done. rewrite Hj. cbn -[Enqueue upd_node].
  unfold get_node. cbn -[Enqueue upd_node]. rewrite Hst. cbn -[Enqueue upd_node].
  unfold NodeStateIsQueued. rewrite Hf. cbn -[Enqueue upd_node].
  set (q1 := with_wait (q_ExpensiveWaitCount q - 1) (q_ExpensiveWaitList q) q).
  pose proof (zlookup_lt _ _ _ Hst).
  rewrite (upd_node_eq q1 _ _ st) by done. cbn -[Enqueue upd_node].
  unfold NodeStateFlagUnqueued. rewrite Hf. change (Z.land 3 (u16 (Z.lnot kQueued))) with 2.
  rewrite (upd_node_eq _ _ _ (set_flags 2 st)) by (cbn; by apply zlookup_insert_eq). cbn -[Enqueue upd_node].
  rewrite zinsert_twice. unfold NodeStateFlagInactive. cbn -[Enqueue upd_node Z.land u16 Z.lnot].
  change (Z.land 2 (u16 (Z.lnot kActive))) with 0.
  change (set_flags 0 (set_flags 2 st)) with (set_flags 0 st).
  assert (B1 : Base sg (with_nodes (zinsert j (set_flags 0 st) (q_NodeState q)) q)) by by apply base_flags.
  rewrite (Enqueue_eq sg _ j (set_flags 0 st) nd); try done.
  - cbn. by rewrite zinsert_twice.
  - split; apply B1.
  - cbn. by apply zlookup_insert_eq.
Qed.

Lemma parked_last q j : 0 < q_ExpensiveWaitCount q <= zlen (q_ExpensiveWaitList q) ->
  q_ExpensiveWaitList q !!z (q_ExpensiveWaitCount q - 1) = Some j ->
  parked q = take (Z.to_nat (q_ExpensiveWaitCount q - 1)) (q_ExpensiveWaitList q) ++ [j].
Proof.
  intros Hw Hj. unfold parked. replace (Z.to_nat (q_ExpensiveWaitCount q)) with (S (Z.to_nat (q_ExpensiveWaitCount q - 1))) by lia.
  apply take_S_r. unfold zlookup in Hj. by rewrite bool_decide_true in Hj by lia.
Qed.

(** The unpark seen from the invariant: the last parked node enters the ring. *)
Lemma unpark_inv sg q pend : Inv sg q None pend -> 0 < q_ExpensiveWaitCount q ->
  exists j st, q_NodeState q !!z j = Some st /\ sg !!z j = Some SWait /\
  q_ExpensiveWaitList q !!z (q_ExpensiveWaitCount q - 1) = Some j /\
  Inv (zinsert j SRingU sg) (log_wake CondSignal (with_nodes (zinsert j (set_flags 1 st) (q_NodeState q))
    (ring_write (with_wait (q_ExpensiveWaitCount q - 1) (q_ExpensiveWaitList q) q) j))) None pend.
Proof.
  intros I Hw. pose proof (inv_base _ _ _ _ I) as B.
  pose proof (iv_waitcount _ _ _ _ I). pose proof (iv_waitlen _ _ _ _ I). pose proof (iv_cap _ _ _ _ I).
  destruct (zlookup_is_Some (q_ExpensiveWaitList q) (q_ExpensiveWaitCount q - 1)) as [j Hj]; [lia|].
  pose proof (parked_last q j ltac:(lia) Hj) as Hpk.
  assert (Hs : sg !!z j = Some SWait).
  { destruct (iv_wait _ _ _ _ I) as [_ Hl]. destruct (proj1 (Hl j)) as (s & Hs & Hw').
    - rewrite Hpk. set_solver.
    - by destruct s. }
  destruct (sg_node B _ _ Hs) as [st Hst]. exists j, st. split_and!; [done..|].
  destruct (iv_prog _ _ _ _ I _ _ _ Hs Hst) as (Hp & Hr & He).
  set (q1 := with_wait (q_ExpensiveWaitCount q - 1) (q_ExpensiveWaitList q) q).
  assert (R1 : ring_ok q1) by apply I.
  destruct (ring_write_ok q1 j R1) as (R & _ & HC); [by apply (ring_space _ _ _ _ _ _ I Hs)|].
  apply inv_wakes.
  apply (inv_move sg q None pend j SWait SRingU st (set_flags 1 st)); try done; try by apply I.
  - change (contents (with_nodes _ ?x)) with (contents x). rewrite HC.
    apply (lists_add is_ring sg j SWait); [done..|apply I].
  - cbn. lia.
  - change (parked _) with (take (Z.to_nat (q_ExpensiveWaitCount q - 1)) (q_ExpensiveWaitList q)).
    rewrite <- (app_nil_r (take _ _)). apply (lists_remove is_wait sg j SWait SRingU Hs); [done|].
    rewrite <- Hpk. apply I.
  - intros k. rewrite (sg_insert _ _ _ _ Hs). case_bool_decide; [subst|apply I].
    rewrite <- (iv_hand _ _ _ _ I), Hs. split; done.
  - cbn. lia.
  - intros _. pose proof (iv_parked _ _ _ _ I Hw) as Hk. cbn in *. lia.
Qed.

Abbreviation no_pend := (fun _ : Z => False).

(** A running node comes back to the hand of the thread that ran it. *)
Lemma run_to_hand sg q n st p q' :
  Inv sg q None no_pend -> sg !!z n = Some SRun -> q_NodeState q !!z n = Some st ->
  p <> kCompleted -> p <> kRunAction -> frame q q' ->
  q_NodeState q' = zinsert n (set_progress p st) (q_NodeState q) ->
  q_Queue q' = q_Queue q -> q_QueueReadIndex q' = q_QueueReadIndex q -> q_QueueWriteIndex q' = q_QueueWriteIndex q ->
  q_ExpensiveWaitCount q' = q_ExpensiveWaitCount q -> q_ExpensiveWaitList q' = q_ExpensiveWaitList q ->
  q_PendingNodeCount q' = q_PendingNodeCount q -> q_FailedNodeCount q' = q_FailedNodeCount q ->
  q_ExpensiveRunning q' = q_ExpensiveRunning q - Z.b2z (is_exp n) ->
  (0 < q_ExpensiveWaitCount q -> cfg_MaxExpensiveCount cfg <= q_ExpensiveRunning q' + cnt unparked_w 0 sg) ->
  Inv (zinsert n SHand sg) q' (Some n) no_pend.
Proof.
  intros I Hs Hst Hp Hp' F Hn F1 F2 F3 F4 F5 F6 F7 HR HU. pose proof F as (Fc & Fp & Fk).
  destruct (iv_prog _ _ _ _ I _ _ _ Hs Hst) as (_ & Hr).
  assert (Ea : AvailableNodeCount q' = AvailableNodeCount q) by (unfold AvailableNodeCount; by rewrite Fk, F2, F3).
  apply (inv_move sg q None no_pend n SRun SHand st (set_progress p st)); try done.
  - by apply (iv_flags _ _ _ _ I _ _ _ Hs Hst).
  - cbn. by right.
  - unfold ring_ok. rewrite Fk, F1, F2, F3. apply I.
  - unfold contents. rewrite Ea, Fk, F1, F2. apply (lists_same is_ring sg n SRun); [done..|apply I].
  - rewrite F5. apply I.
  - rewrite F4. apply I.
  - unfold parked. rewrite F4, F5. apply (lists_same is_wait sg n SRun); [done..|apply I].
  - intros k. rewrite (sg_insert _ _ _ _ Hs). case_bool_decide; [split; congruence|].
    rewrite (iv_hand _ _ _ _ I). split; naive_solver.
  - cbn. lia.
  - pose proof (iv_limit _ _ _ _ I). destruct (is_exp n); cbn in *; lia.
  - rewrite F4. intros Hw. specialize (HU Hw). pose proof (slack_range q' (Some n)). cbn -[slack]. lia.
Qed.

(** What [finish_run] promises. *)
Definition back_in_hand (sg : list status) (q : BuildQueue) (n : Z) (p : BuildProgress) (r : res BuildQueue) : Prop :=
  exists q' sg' st, r = OK q' /\ Inv sg' q' (Some n) no_pend /\ ready sg' n /\
  q_NodeState q' !!z n = Some st /\ ns_Progress st = p /\
  keeps n sg sg' /\ ext q q' /\ work sg' + 1 <= work sg.

(** No node is parked, or the action was not an expensive one. *)
Lemma finish_run_simple sg q n st p q' :
  Inv sg q None no_pend -> sg !!z n = Some SRun -> q_NodeState q !!z n = Some st ->
  q_NodeState q' = zinsert n (set_progress p st) (q_NodeState q) ->
  Inv (zinsert n SHand sg) q' (Some n) no_pend -> ext q q' -> back_in_hand sg q n p (OK q').
Proof.
  intros I Hs Hst Hn I' E. destruct (iv_prog _ _ _ _ I _ _ _ Hs Hst) as (_ & Hr).
  exists q', (zinsert n SHand sg), (set_progress p st). split_and!; try done.
  - by apply (ready_move _ _ SRun).
  - rewrite Hn. apply zlookup_insert_eq. by apply zlookup_lt in Hst.
  - by eapply keeps_self.
  - unfold work. rewrite (cnt_insert _ _ _ _ _ Hs). cbn. lia.
Qed.

(** The slot goes to the node parked last. *)
Lemma finish_run_unpark sg q n st p :
  let q1 := with_nodes (zinsert n (set_progress p st) (q_NodeState q)) q in
  let q2 := with_counts (q_PendingNodeCount q) (q_FailedNodeCount q) (q_ExpensiveRunning q - 1) q1 in
  Inv sg q None no_pend -> sg !!z n = Some SRun -> q_NodeState q !!z n = Some st ->
  p <> kCompleted -> p <> kRunAction -> is_exp n = true -> 0 < q_ExpensiveWaitCount q ->
  back_in_hand sg q n p (UnparkExpensiveNode q2).
Proof.
  intros q1 q2 I Hs Hst Hp Hp' He Hw. pose proof (inv_base _ _ _ _ I) as B. pose proof (zlookup_lt _ _ _ Hst).
  destruct (unpark_inv sg q no_pend I Hw) as (j & stj & Hstj & Hsj & Hj & I1).
  destruct (node_ndata B _ _ Hstj) as [ndj Hndj].
  destruct (iv_prog _ _ _ _ I _ _ _ Hs Hst) as (_ & Hr).
  destruct (iv_prog _ _ _ _ I _ _ _ Hsj Hstj) as (Hpj & Hrj & Hej).
  assert (Hnj : n <> j) by (intros ->; congruence).
  assert (Hs1 : zinsert j SRingU sg !!z n = Some SRun)
    by (rewrite (sg_insert _ _ _ _ Hsj); by rewrite bool_decide_false).
  eexists _, (zinsert n SHand (zinsert j SRingU sg)), (set_progress p st). split; [|split_and!].
  - apply (Unpark_eq sg q2 j stj ndj); try done.
    + assert (Bp : Base sg q1) by (by apply base_progress; try rewrite (bs_done _ _ B _ _ _ Hs Hst)).
      split; apply Bp.
    + apply I.
    + cbn. rewrite zlookup_insert_ne; done.
    + by apply (iv_flags _ _ _ _ I _ _ _ Hsj).
    + by apply (bs_done _ _ B _ _ _ Hsj).
    + by apply (iv_pass _ _ _ _ I _ _ _ Hsj Hndj).
    + by apply (ring_space _ _ _ _ _ _ I Hsj).
  - apply (run_to_hand _ _ n st p) with (1 := I1); try done; cbn.
    + by rewrite zlookup_insert_ne.
    + by rewrite zinsert_commute.
    + rewrite He. cbn. lia.
    + intros _. pose proof (iv_parked _ _ _ _ I Hw) as Hk. rewrite (cnt_insert _ _ _ _ _ Hsj). cbn in *. lia.
  - apply (ready_move _ _ SRun); [done..|]. by apply (ready_move _ _ SWait).
  - cbn. rewrite zlookup_insert_ne by done. by apply zlookup_insert_eq.
  - done.
  - apply (keeps_trans _ _ (zinsert j SRingU sg)); [by apply (keeps_other _ _ _ SWait)|by eapply keeps_self].
  - split; try done; cbn; [|by left]. rewrite has_broadcast_app. by intros ->.
  - unfold work. rewrite (cnt_insert _ _ _ _ _ Hs1), (cnt_insert _ _ _ _ _ Hsj). cbn. lia.
Qed.

(** After an action: the progress is stored, the expensive slot given back and
    one parked node, if any, put in the ring. *)
Lemma finish_run sg q n p : Inv sg q None no_pend -> sg !!z n = Some SRun -> p <> kCompleted -> p <> kRunAction ->
  back_in_hand sg q n p (q1 ← upd_node (set_progress p) n q; finish_expensive q1 n).
Proof.
  intros I Hs Hp Hp'. pose proof (inv_base _ _ _ _ I) as B. destruct (sg_node B _ _ Hs) as [st Hst].
  destruct (node_ndata B _ _ Hst) as [nd Hnd]. pose proof (zlookup_lt _ _ _ Hst).
  rewrite (upd_node_eq q _ _ st) by done. set (q1 := with_nodes _ q). cbn [mbind res_bind].
  assert (B1 : Base sg q1) by (by apply base_progress; try rewrite (bs_done _ _ B _ _ _ Hs Hst)).
  unfold finish_expensive. rewrite (node_data_eq B1 n nd Hnd). cbn [mbind res_bind].
  rewrite <- (exp_eq n nd Hnd). destruct (is_exp n) eqn:He.
  - assert (Hpos : 1 <= q_ExpensiveRunning q).
    { rewrite (iv_running _ _ _ _ I). change 1 with (Z.b2z true). rewrite <- He.
      by apply (cnt_ge run_w sg n SRun); [apply run_w_nonneg|]. }
    set (q2 := with_counts _ _ _ q1).
    unfold check. rewrite (proj2 (Z.leb_le _ _)) by (cbn; lia). cbn [mbind res_bind].
    destruct (Z.ltb_spec 0 (q_ExpensiveWaitCount q)) as [Hw|Hw].
    { by apply (finish_run_unpark sg q n st p). }
    replace (UnparkExpensiveNode q2) with (OK q2).
    + apply (finish_run_simple sg q n st p); try done; [|by apply ext_fields].
      apply (run_to_hand sg q n st p); try done; [rewrite He; done|lia].
    + unfold UnparkExpensiveNode. by rewrite (proj2 (Z.ltb_ge 0 (q_ExpensiveWaitCount q2))).
  - apply (finish_run_simple sg q n st p); try done; [|by apply ext_fields].
    apply (run_to_hand sg q n st p); try done; [rewrite He; cbn; lia|].
    intros Hw. pose proof (iv_parked _ _ _ _ I Hw) as Hk. cbn in *. lia.
Qed.

(** ** Completion *)

Lemma ready_done sg i s failed k : sg !!z i = Some s -> ready sg k -> ready (zinsert i (SDone failed) sg) k.
Proof.
  intros Hi H j t Hj. rewrite (sg_insert _ _ _ _ Hi). case_bool_decide; [by intros [= <-]|eauto].
Qed.

Lemma blocked_done sg i s failed k : sg !!z i = Some s -> blocked_on sg k ->
  blocked_on (zinsert i (SDone failed) sg) k \/ dep k i.
Proof.
  intros Hi (j & t & Hj & Ht & Hn). destruct (decide (j = i)) as [->|]; [by right|]. left.
  exists j, t. rewrite (sg_insert _ _ _ _ Hi). by rewrite bool_decide_false by congruence.
Qed.

Lemma prog_ok_done sg i s failed k t p : sg !!z i = Some s ->
  prog_ok sg no_pend k t p -> prog_ok (zinsert i (SDone failed) sg) (fun k => dep k i) k t p.
Proof.
  intros Hi. pose proof (fun k => ready_done sg i s failed k Hi). destruct t; cbn; try done; try naive_solver.
  intros [? [?|[]]]. split; [done|]. by eapply blocked_done.
Qed.

(** The node in hand completes; the nodes that wait for it become pending. *)
Lemma inv_complete sg q n st failed q' :
  Inv sg q (Some n) no_pend -> q_NodeState q !!z n = Some st -> ready sg n ->
  ns_Progress st <> kRunAction -> frame q q' ->
  q_NodeState q' = zinsert n (set_progress kCompleted (set_result (Z.b2z failed) st)) (q_NodeState q) ->
  q_Queue q' = q_Queue q -> q_QueueReadIndex q' = q_QueueReadIndex q -> q_QueueWriteIndex q' = q_QueueWriteIndex q ->
  q_ExpensiveWaitCount q' = q_ExpensiveWaitCount q -> q_ExpensiveWaitList q' = q_ExpensiveWaitList q ->
  q_ExpensiveRunning q' = q_ExpensiveRunning q ->
  q_PendingNodeCount q' = q_PendingNodeCount q - 1 -> q_FailedNodeCount q' = q_FailedNodeCount q + Z.b2z failed ->
  Inv (zinsert n (SDone failed) sg) q' None (fun k => dep k n).
Proof.
  intros I Hst Hr Hra (Fc & Fp & Fk) Hn F1 F2 F3 F4 F5 F6 HP HF.
  assert (Hs : sg !!z n = Some SHand) by by apply I.
  assert (Hin : forall j t, zinsert n (SDone failed) sg !!z j = Some t ->
     (j = n /\ t = SDone failed) \/ (j <> n /\ sg !!z j = Some t)).
  { intros j t. rewrite (sg_insert _ _ _ _ Hs). case_bool_decide; naive_solver. }
  pose proof (zlookup_lt _ _ _ Hst).
  assert (Hnd : forall j u, q_NodeState q' !!z j = Some u ->
     (j = n /\ u = set_progress kCompleted (set_result (Z.b2z failed) st)) \/ (j <> n /\ q_NodeState q !!z j = Some u)).
  { intros j u. rewrite Hn, zlookup_insert. case_bool_decide; naive_solver. }
  assert (Ea : AvailableNodeCount q' = AvailableNodeCount q) by (unfold AvailableNodeCount; by rewrite Fk, F2, F3).
  assert (Ec : contents q' = contents q) by (unfold contents; by rewrite Ea, Fk, F1, F2).
  assert (Ew : parked q' = parked q) by (unfold parked; by rewrite F4, F5).
  split.
  - rewrite Fc. apply I.
  - rewrite Hn, <- (iv_mm _ _ _ _ I). by apply map_mm_insert with (st := st).
  - rewrite Hn, !zinsert_length. apply I.
  - intros j t u [[-> ->]|[? Ht]]%Hin [[? ->]|[? Hu]]%Hnd; try done.
    + by apply (iv_flags _ _ _ _ I _ _ _ Hs Hst).
    + by eapply (iv_flags _ _ _ _ I).
  - intros j t u [[-> ->]|[? Ht]]%Hin [[? ->]|[? Hu]]%Hnd; try done.
    + split; [done|]. by eapply ready_done.
    + eapply prog_ok_done; [done|]. by eapply (iv_prog _ _ _ _ I).
  - intros j t u [[-> ->]|[? Ht]]%Hin [[? ->]|[? Hu]]%Hnd; try done. by eapply (iv_result _ _ _ _ I).
  - intros j t nd [[-> ->]|[? Ht]]%Hin Hj; rewrite Fp; [|by eapply (iv_pass _ _ _ _ I)].
    by apply (iv_pass _ _ _ _ I _ _ _ Hs Hj).
  - unfold ring_ok. rewrite Fk, F1, F2, F3. apply I.
  - rewrite Fk. apply I.
  - rewrite Ec. apply (lists_same is_ring sg n SHand); [done..|apply I].
  - rewrite Fk, F5. apply I.
  - rewrite F4. apply I.
  - rewrite Ew. apply (lists_same is_wait sg n SHand); [done..|apply I].
  - intros j. split; [|done]. intros [[? ?]|[? Ht]]%Hin; [done|]. apply (iv_hand _ _ _ _ I) in Ht. congruence.
  - rewrite HP, (iv_pending _ _ _ _ I), (cnt_insert _ _ _ _ _ Hs). cbn. lia.
  - rewrite HF, (iv_failed _ _ _ _ I), (cnt_insert _ _ _ _ _ Hs). cbn. by destruct failed; cbn; lia.
  - rewrite F6, (iv_running _ _ _ _ I), (cnt_insert _ _ _ _ _ Hs). cbn. lia.
  - rewrite F6. apply I.
  - rewrite F4, F6, (cnt_insert _ _ _ _ _ Hs). intros Hw. pose proof (iv_parked _ _ _ _ I Hw) as Hk.
    rewrite (slack_zero q n st Hst) in Hk by done. cbn in *. lia.
Qed.

(** [UnblockWaiters] enqueues every pending node. *)
Lemma UnblockWaiters_loop_spec links sg q c : 
  (forall b, b ∈ links -> exists j, cfg_NodeRemappingTable cfg !!z b = Some j /\ (j = -1 \/ exists nd, ndata j = Some nd)) ->
  Inv sg q None (fun k => exists b, b ∈ links /\ cfg_NodeRemappingTable cfg !!z b = Some k) ->
  exists q' c' sg', UnblockWaiters_loop q links c = OK (q', c') /\ Inv sg' q' None no_pend /\
  (forall n, keeps n sg sg') /\ ext q q' /\ work sg' <= work sg /\
  (forall i f, sg !!z i = Some (SDone f) -> sg' !!z i = Some (SDone f)).
Proof.
  revert sg q c. induction links as [|b links IH]; intros sg q c Hb I.
  { exists q, c, sg. split_and!; [done| |done|apply ext_refl|lia|done].
    eapply inv_pend; [exact I|]. intros k _ (b & Hx & _). by apply elem_of_nil in Hx. }
  cbn [UnblockWaiters_loop]. pose proof (inv_base _ _ _ _ I) as B.
  assert (Hskip : (forall k, sg !!z k = Some SBlocked -> cfg_NodeRemappingTable cfg !!z b = Some k -> blocked_on sg k) ->
    exists q' c' sg', UnblockWaiters_loop q links c = OK (q', c') /\ Inv sg' q' None no_pend /\
      (forall n, keeps n sg sg') /\ ext q q' /\ work sg' <= work sg /\
      (forall i f, sg !!z i = Some (SDone f) -> sg' !!z i = Some (SDone f))).
  { intros Hk. apply IH; [intros; apply Hb; set_solver|]. eapply inv_pend; [exact I|].
    intros k HB (b' & [->|?]%elem_of_cons & Hb'); [right; by apply Hk|left; eauto]. }
  destruct (Hb b) as (j & Hj & Hj'); [set_solver|].
  destruct (decide (j = -1)) as [->|Hj1].
  { unfold GetStateForNode. rewrite (bs_cfg _ _ B), Hj. cbn -[UnblockWaiters_loop]. apply Hskip.
    intros k Hk Hk'. by simplify_eq. }
  destruct Hj' as [|[nd Hnd]]; [done|]. rewrite (get_state B j b) by done. cbn -[UnblockWaiters_loop Enqueue AllDependenciesReady].
  rewrite (node_data_eq B j nd Hnd). cbn -[UnblockWaiters_loop Enqueue AllDependenciesReady].
  destruct (ndata_sg B _ _ Hnd) as [s Hs]. destruct (sg_node B _ _ Hs) as [st Hst].
  pose proof (iv_pass _ _ _ _ I _ _ _ Hs Hnd) as Hpass.
  pose proof (iv_flags _ _ _ _ I _ _ _ Hs Hst) as Hf.
  destruct (Z.eqb_spec (nd_PassIndex nd) (q_CurrentPassIndex q)) as [Hp|Hp]; cbn -[UnblockWaiters_loop Enqueue AllDependenciesReady].
  2:{ apply Hskip. intros k Hk Hk'. by simplify_eq. }
  destruct (AllDependenciesReady_spec B j nd Hnd) as (r & -> & Hrt & Hrf). cbn -[UnblockWaiters_loop Enqueue].
  destruct r; cbn -[UnblockWaiters_loop Enqueue].
  2:{ apply Hskip. intros k Hk Hk'. simplify_eq. by apply Hrf. }
  unfold get_node. rewrite Hst. cbn -[UnblockWaiters_loop Enqueue NodeStateIsQueued NodeStateIsActive].
  destruct (NodeStateIsQueued st || NodeStateIsActive st) eqn:Hqa.
  { apply Hskip. intros k Hk Hk'. simplify_eq. cbn in Hf.
    unfold NodeStateIsQueued, NodeStateIsActive in Hqa. by rewrite Hf in Hqa. }
  assert (s = SBlocked) as ->.
  { unfold NodeStateIsQueued, NodeStateIsActive in Hqa. destruct s; cbn in Hf; try rewrite Hf in Hqa; try done; cbn in Hpass; lia. }
  destruct (enqueue_blocked _ _ _ _ I Hs (Hrt eq_refl)) as (q1 & -> & I1 & E1). cbn [mbind res_bind].
  destruct (IH (zinsert j SRingB sg) q1 (c + 1)) as (q' & c' & sg' & -> & I' & K' & E' & W' & D').
  - intros; apply Hb; set_solver.
  - eapply inv_pend; [exact I1|]. intros k Hk (b' & [->|?]%elem_of_cons & Hb'); [|left; eauto].
    simplify_eq. rewrite (sg_insert _ _ _ _ Hs) in Hk. by rewrite bool_decide_true in Hk.
  - exists q', c', sg'. split_and!; [done..| | | |].
    + intros n. apply (keeps_trans _ _ (zinsert j SRingB sg)); [by apply (keeps_other _ _ _ SBlocked)|done].
    + by eapply ext_trans.
    + unfold work in *. rewrite (cnt_insert _ _ _ _ _ Hs) in W'. cbn in W'. lia.
    + intros i f Hi. apply D'. rewrite (sg_insert _ _ _ _ Hs). case_bool_decide; [congruence|done].
Qed.

(** [SetupDependencies] never enqueues: every unfinished node of the pass is
    already queued, active or blocked. It only reports whether to wait. *)
Lemma SetupDependencies_loop_spec sg q hand i nd deps w :
  Inv sg q hand no_pend -> ndata i = Some nd -> nd_PassIndex nd = q_CurrentPassIndex q ->
  deps ⊆ nd_Dependencies nd -> 0 <= w ->
  exists w', SetupDependencies_loop q (nd_PassIndex nd) deps w 0 = OK (q, w', 0) /\ w <= w' /\
  (w' = w -> forall d j s, d ∈ deps -> cfg_NodeRemappingTable cfg !!z d = Some j -> sg !!z j = Some s -> is_done s = true) /\
  (w < w' -> blocked_on sg i).
Proof.
  intros I Hnd Hcur. pose proof (inv_base _ _ _ _ I) as B. revert w.
  induction deps as [|d deps IH]; intros w Hsub Hw; cbn [SetupDependencies_loop].
  { exists w. split_and!; [done|lia| |lia]. intros _ d j s Hd. by apply elem_of_nil in Hd. }
  destruct (so_deps SO i nd d Hnd) as (j & nd' & Hj & Hj1 & Hnd' & Hle); [set_solver|].
  rewrite (get_state B j d) by done. cbn -[SetupDependencies_loop].
  rewrite (node_data_eq B j nd' Hnd'). cbn -[SetupDependencies_loop].
  unfold check. rewrite (proj2 (Z.leb_le _ _)) by done. cbn -[SetupDependencies_loop].
  destruct (ndata_sg B _ _ Hnd') as [s Hs]. destruct (sg_node B _ _ Hs) as [st Hst].
  unfold get_node. rewrite Hst. cbn -[SetupDependencies_loop NodeStateIsQueued NodeStateIsActive NodeStateIsBlocked NodeStateIsCompleted].
  rewrite (bs_done _ _ B _ _ _ Hs Hst). destruct (is_done s) eqn:Ed.
  - destruct (IH w) as (w' & -> & Hle' & Ht & Hf); [set_solver|done|]. exists w'. split_and!; [done..| |done].
    intros E d' j' s' [->|Hd']%elem_of_cons Hj' Hs'; [congruence|eauto].
  - assert (Hbusy : negb (NodeStateIsQueued st) && negb (NodeStateIsActive st) && negb (NodeStateIsBlocked st) = false).
    { pose proof (iv_flags _ _ _ _ I _ _ _ Hs Hst) as Hfl. pose proof (iv_prog _ _ _ _ I _ _ _ Hs Hst) as Hpr.
      pose proof (iv_pass _ _ _ _ I _ _ _ Hs Hnd') as Hpa.
      unfold NodeStateIsQueued, NodeStateIsActive, NodeStateIsBlocked.
      destruct s; cbn in Hfl, Hpr, Hpa, Ed; try done; try rewrite Hfl; try done; [|lia].
      destruct Hpr as [-> _]. done. }
    rewrite Hbusy. destruct (IH (w + 1)) as (w' & -> & Hle' & Ht & Hf); [set_solver|lia|].
    exists w'. split_and!; [done|lia|lia|]. intros _. exists j, s. split_and!; [|done..].
    exists nd, d. split_and!; [done|set_solver|done].
Qed.

Lemma SetupDependencies_spec sg q n nd : Inv sg q (Some n) no_pend -> ndata n = Some nd ->
  exists p, SetupDependencies q n = OK (q, p) /\
  ((p = kBlocked /\ blocked_on sg n) \/ (p = kUnblocked /\ ready sg n)).
Proof.
  intros I Hnd. pose proof (inv_base _ _ _ _ I) as B. unfold SetupDependencies.
  rewrite (node_data_eq B n nd Hnd). cbn -[SetupDependencies_loop].
  assert (Hs : sg !!z n = Some SHand) by by apply I.
  destruct (SetupDependencies_loop_spec sg q (Some n) n nd (nd_Dependencies nd) 0 I Hnd) as (w & -> & Hw & Ht & Hf);
    [by apply (iv_pass _ _ _ _ I _ _ _ Hs Hnd)|done|lia|].
  cbn. destruct (Z.ltb_spec 0 w).
  - exists kBlocked. split; [done|]. left. auto.
  - exists kUnblocked. split; [done|]. right. split; [done|]. intros j s (nd' & d & Hnd' & Hd & Hj) Hs'.
    simplify_eq. eapply Ht; eauto. lia.
Qed.

(** ** The node state machine *)

(** Where the node is when the stretch ends; with [fin] it must be done. *)
Definition landed (fin : bool) (sg : list status) (n : Z) (susp : suspension) : Prop :=
  match susp with
  | Returned => exists s, sg !!z n = Some s /\ is_held s = false /\ (fin = true -> is_done s = true)
  | InCheckInputSignature => sg !!z n = Some SSign /\ fin = false
  | InRunAction => sg !!z n = Some SRun /\ fin = false
  end.

(** A stretch that puts nodes in an empty ring, or completes one, ends with a
    broadcast. *)
Definition told (fin : bool) (q q' : BuildQueue) : Prop :=
  has_broadcast (q_Wakes q') = true \/ (fin = false /\ (contents q = [] -> contents q' = [])).

(** What a stretch that starts with node [n] in hand ends with: no fault, the
    invariant, and the node where the suspension says it is. *)
Definition Post (fin : bool) (sg : list status) (q : BuildQueue) (n bound : Z) (r : res (BuildQueue * suspension)) : Prop :=
  exists q' susp sg', r = OK (q', susp) /\ Inv sg' q' None no_pend /\ keeps n sg sg' /\ ext q q' /\
  work sg' <= work sg + bound /\ landed fin sg' n susp /\ told fin q q'.

Lemma landed_false fin sg n susp : landed fin sg n susp -> landed false sg n susp.
Proof. destruct susp; cbn; [intros (s & ? & ? & _)|naive_solver..]. by exists s. Qed.

Lemma Post_weaken fin fin' sg q q1 n b b' r : ext q q1 -> b <= b' -> fin = fin' \/ fin' = false -> contents q1 = contents q ->
  Post fin sg q1 n b r -> Post fin' sg q n b' r.
Proof.
  intros E Hb Hf Ec (q' & susp & sg' & -> & I & K & E' & W & M & T). exists q', susp, sg'.
  split_and!; try done; [by eapply ext_trans|lia| |unfold told in *; rewrite <- Ec; naive_solver].
  destruct susp; cbn in *; [|naive_solver..]. destruct M as (s & ? & ? & ?). exists s. naive_solver.
Qed.

Lemma adv_completed sg q n st failed q1 fuel :
  Inv sg q (Some n) no_pend -> q_NodeState q !!z n = Some st -> ready sg n ->
  ns_Progress st <> kRunAction -> frame q q1 ->
  q_NodeState q1 = zinsert n (set_progress kCompleted (set_result (Z.b2z failed) st)) (q_NodeState q) ->
  q_Queue q1 = q_Queue q -> q_QueueReadIndex q1 = q_QueueReadIndex q -> q_QueueWriteIndex q1 = q_QueueWriteIndex q ->
  q_ExpensiveWaitCount q1 = q_ExpensiveWaitCount q -> q_ExpensiveWaitList q1 = q_ExpensiveWaitList q ->
  q_ExpensiveRunning q1 = q_ExpensiveRunning q -> q_QuitSignalled q1 = q_QuitSignalled q ->
  q_PendingNodeCount q1 = q_PendingNodeCount q -> q_FailedNodeCount q1 = q_FailedNodeCount q + Z.b2z failed ->
  Post true sg q n 0 (AdvanceNode_loop (S fuel) q1 n).
Proof.
  intros I Hst Hr Hra F Hn F1 F2 F3 F4 F5 F6 F7 HP HF. pose proof (zlookup_lt _ _ _ Hst) as Hlt.
  assert (Hs : sg !!z n = Some SHand) by by apply I.
  destruct (node_ndata (inv_base _ _ _ _ I) _ _ Hst) as [nd Hnd].
  cbn [AdvanceNode_loop]. unfold get_node. rewrite Hn, zlookup_insert_eq by done. cbn -[UnblockWaiters].
  set (q2 := with_counts (q_PendingNodeCount q1 - 1) (q_FailedNodeCount q1) (q_ExpensiveRunning q1) q1).
  assert (I2 : Inv (zinsert n (SDone failed) sg) q2 None (fun k => dep k n)).
  { apply (inv_complete sg q n st failed q2 I); try done. cbn. lia. }
  unfold UnblockWaiters. rewrite (node_data_eq (inv_base _ _ _ _ I2) n nd Hnd). cbn -[UnblockWaiters_loop].
  destruct (UnblockWaiters_loop_spec (nd_BackLinks nd) (zinsert n (SDone failed) sg) q2 0)
    as (q3 & c & sg3 & -> & I3 & K3 & E3 & W3 & D3).
  - intros b Hb. destruct (so_back SO n nd b Hnd Hb) as (j & Hj & Hj'). exists j. split; [done|].
    destruct Hj' as [|(nd' & ? & ? & _)]; eauto.
  - eapply inv_pend; [exact I2|]. intros k _ Hk. left. by apply (so_back' SO n k nd).
  - assert (E4 : ext q3 (if 0 <? c then WakeWaiters q3 c else q3)).
    { destruct (0 <? c); [|apply ext_refl]. unfold WakeWaiters. destruct (1 <? c); apply ext_log. }
    assert (I4 : Inv sg3 (if 0 <? c then WakeWaiters q3 c else q3) None no_pend).
    { destruct (0 <? c); [|done]. unfold WakeWaiters. destruct (1 <? c); by apply inv_wakes. }
    cbn [mbind res_bind]. set (q4 := if 0 <? c then _ else q3) in *.
    pose proof (ext_trans _ _ _ E3 E4) as E.
    exists (log_wake CondBroadcast q4), Returned, sg3. split_and!; [done|by apply inv_wakes|..].
    + apply (keeps_trans _ _ (zinsert n (SDone failed) sg)); [by eapply keeps_self|done].
    + assert (Hb : has_broadcast (q_Wakes (log_wake CondBroadcast q4)) = true)
        by (cbn; rewrite has_broadcast_app; apply orb_true_r).
      split; cbn -[has_broadcast]; try done; [..|by right|].
      * rewrite (ext_quit _ _ E). cbn. done.
      * rewrite (ext_pass _ _ E). cbn. apply F.
      * pose proof (ext_failed _ _ E) as Hfl. cbn in Hfl. destruct failed; cbn in *; lia.
    + unfold work in *. rewrite (cnt_insert _ _ _ _ _ Hs) in W3. cbn in W3. lia.
    + exists (SDone failed). split; [|done]. apply D3. rewrite (sg_insert _ _ _ _ Hs). by rewrite bool_decide_true.
    + left. cbn. rewrite has_broadcast_app. apply orb_true_r.
Qed.

Lemma inv_hand_progress sg q n st p : Inv sg q (Some n) no_pend -> q_NodeState q !!z n = Some st ->
  ready sg n -> p <> kCompleted -> (ns_Progress st = kRunAction -> is_exp n = false) ->
  Inv sg (with_nodes (zinsert n (set_progress p st) (q_NodeState q)) q) (Some n) no_pend.
Proof.
  intros I Hst Hr Hp Hz. assert (Hs : sg !!z n = Some SHand) by by apply I.
  rewrite <- (zinsert_id n SHand sg Hs).
  apply (inv_move sg q (Some n) no_pend n SHand SHand st (set_progress p st)); try done; rewrite ?(zinsert_id n SHand sg Hs);
    try by apply I.
  - by apply (iv_flags _ _ _ _ I _ _ _ Hs Hst).
  - cbn. by right.
  - cbn. lia.
  - intros Hw. pose proof (iv_parked _ _ _ _ I Hw) as Hk. rewrite (slack_zero q n st Hst Hz) in Hk.
    set (q' := with_nodes _ q). pose proof (slack_range q' (Some n)). cbn -[slack] in *. lia.
Qed.

(** The node in hand takes a resting status; the queue fields are as given. *)
Lemma hand_off sg n s' : sg !!z n = Some SHand -> (forall i, sg !!z i = Some SHand <-> Some n = Some i) ->
  s' <> SHand -> forall j, zinsert n s' sg !!z j = Some SHand <-> None = Some j.
Proof.
  intros Hs Hh Hs' j. rewrite (sg_insert _ _ _ _ Hs). case_bool_decide; [split; [congruence|done]|].
  rewrite Hh. split; [|done]. congruence.
Qed.

Lemma adv_finished sg q n st fuel : Inv sg q (Some n) no_pend -> q_NodeState q !!z n = Some st -> ready sg n ->
  ns_Progress st = kSucceeded \/ ns_Progress st = kUpToDate \/ ns_Progress st = kFailed ->
  Post true sg q n 0 (AdvanceNode_loop (S (S fuel)) q n).
Proof.
  intros I Hst Hr Hp. pose proof (zlookup_lt _ _ _ Hst).
  assert (Hra : ns_Progress st <> kRunAction) by (destruct Hp as [?|[?|?]]; congruence).
  remember (S fuel) as f1 eqn:Ef. cbn [AdvanceNode_loop]. unfold get_node. rewrite Hst. cbn [of_opt mbind res_bind].
  assert (Hok : Post true sg q n 0
    (AdvanceNode_loop f1 (with_nodes (zinsert n (set_progress kCompleted (set_result 0 st)) (q_NodeState q)) q) n)).
  { subst f1. apply (adv_completed sg q n st false); try done. cbn. lia. }
  assert (Hko : Post true sg q n 0
    (AdvanceNode_loop f1 (with_nodes (zinsert n (set_progress kCompleted (set_result 1 st)) (q_NodeState q))
       (log_wake CondBroadcast (with_counts (q_PendingNodeCount q) (q_FailedNodeCount q + 1) (q_ExpensiveRunning q) q))) n)).
  { subst f1. by apply (adv_completed sg q n st true). }
  assert (Hupd : forall r q0, q_NodeState q0 = q_NodeState q ->
    (q1 ← upd_node (set_result r) n q0; q2 ← upd_node (set_progress kCompleted) n q1; AdvanceNode_loop f1 q2 n) =
    AdvanceNode_loop f1 (with_nodes (zinsert n (set_progress kCompleted (set_result r st)) (q_NodeState q)) q0) n).
  { intros r q0 E0. rewrite (upd_node_eq q0 _ _ st) by (by rewrite E0). cbn [mbind res_bind]. rewrite E0.
    rewrite (upd_node_eq _ _ _ (set_result r st)) by (cbn; by apply zlookup_insert_eq).
    cbn [mbind res_bind with_nodes q_NodeState]. by rewrite zinsert_twice. }
  destruct Hp as [ -> | [ -> | -> ] ]; rewrite Hupd by done; done.
Qed.

(** The node in hand goes on to a status outside the queue's lists. *)
Lemma hand_to sg q n st s' st' q' : Inv sg q (Some n) no_pend -> q_NodeState q !!z n = Some st ->
  is_ring s' = false -> is_wait s' = false -> is_done s' = false -> is_current s' = true -> s' <> SHand ->
  frame q q' -> q_NodeState q' = zinsert n st' (q_NodeState q) -> ns_MmapData st' = ns_MmapData st ->
  flags_ok s' (ns_Flags st') -> prog_ok sg no_pend n s' (ns_Progress st') ->
  q_Queue q' = q_Queue q -> q_QueueReadIndex q' = q_QueueReadIndex q -> q_QueueWriteIndex q' = q_QueueWriteIndex q ->
  q_ExpensiveWaitCount q' = q_ExpensiveWaitCount q -> q_ExpensiveWaitList q' = q_ExpensiveWaitList q ->
  q_PendingNodeCount q' = q_PendingNodeCount q -> q_FailedNodeCount q' = q_FailedNodeCount q ->
  q_ExpensiveRunning q' = q_ExpensiveRunning q + run_w n s' -> q_ExpensiveRunning q' <= cfg_MaxExpensiveCount cfg ->
  slack q (Some n) <= run_w n s' ->
  Inv (zinsert n s' sg) q' None no_pend.
Proof.
  intros I Hst H1 H2 H3 H4 H5 F Hn Hm Hf Hp F1 F2 F3 F4 F5 F6 F7 HR HL HU.
  assert (Hs : sg !!z n = Some SHand) by by apply I. pose proof F as (Fc & Fp & Fk).
  assert (Ea : AvailableNodeCount q' = AvailableNodeCount q) by (unfold AvailableNodeCount; by rewrite Fk, F2, F3).
  apply (inv_move sg q (Some n) no_pend n SHand s' st st'); try done.
  - unfold ring_ok. rewrite Fk, F1, F2, F3. apply I.
  - unfold contents. rewrite Ea, Fk, F1, F2. apply (lists_same is_ring sg n SHand); [done..|apply I].
  - rewrite F5. apply I.
  - rewrite F4. apply I.
  - unfold parked. rewrite F4, F5. apply (lists_same is_wait sg n SHand); [done..|apply I].
  - apply (hand_off sg); [done|apply I|done].
  - cbn. lia.
  - rewrite F4. intros Hw. pose proof (iv_parked _ _ _ _ I Hw).
    assert (unparked_w n s' = 0) by by destruct s'. cbn -[slack]. change (slack q' None) with 0. lia.
Qed.

(** [RunAction] lets go of the mutex with the node's slot taken. *)
Lemma adv_run_go sg q n st r : Inv sg q (Some n) no_pend -> q_NodeState q !!z n = Some st -> ready sg n ->
  ns_Progress st = kRunAction -> r = q_ExpensiveRunning q + Z.b2z (is_exp n) -> r <= cfg_MaxExpensiveCount cfg ->
  Post false sg q n 2 (OK (with_counts (q_PendingNodeCount q) (q_FailedNodeCount q) r q, InRunAction)).
Proof.
  intros I Hst Hr Hp Er Hle. assert (Hs : sg !!z n = Some SHand) by by apply I.
  eexists _, _, (zinsert n SRun sg). split; [done|]. split_and!.
  - apply (hand_to sg q n st SRun st); try done.
    + by rewrite zinsert_id.
    + by apply (iv_flags _ _ _ _ I _ _ _ Hs Hst).
    + unfold slack. rewrite Hst, bool_decide_true by done. done.
  - by eapply keeps_self.
  - by apply ext_fields.
  - unfold work. rewrite (cnt_insert _ _ _ _ _ Hs). cbn. lia.
  - split; [|done]. rewrite (sg_insert _ _ _ _ Hs). by rewrite bool_decide_true.
  - by right.
Qed.

(** All slots are taken: the node is parked. *)
Lemma adv_run_park sg q n st : Inv sg q (Some n) no_pend -> q_NodeState q !!z n = Some st -> ready sg n ->
  ns_Progress st = kRunAction -> is_exp n = true -> q_ExpensiveRunning q = cfg_MaxExpensiveCount cfg ->
  Post false sg q n 2 (q' ← ParkExpensiveNode q n; OK (q', Returned)).
Proof.
  intros I Hst Hr Hp He Emax. assert (Hs : sg !!z n = Some SHand) by by apply I.
  pose proof (iv_flags _ _ _ _ I _ _ _ Hs Hst) as Hf. cbn in Hf.
  unfold ParkExpensiveNode. rewrite (upd_node_eq _ _ _ st) by done. cbn [mbind res_bind].
  pose proof (iv_waitcount _ _ _ _ I) as Hwc0. pose proof (iv_waitlen _ _ _ _ I) as Hwl. pose proof (iv_cap _ _ _ _ I) as Hcap.
  assert (Hwc : q_ExpensiveWaitCount q < cfg_MaxNodes cfg).
  { pose proof (lists_bound is_wait sg n SHand Hs _ eq_refl (iv_wait _ _ _ _ I)) as Hb.
    unfold parked in Hb. rewrite length_take in Hb. rewrite (iv_len _ _ _ _ I) in Hb. pose proof (so_len SO) as Hl.
    rewrite <- (iv_mm _ _ _ _ I), length_map in Hl. lia. }
  unfold check. cbn [with_nodes q_ExpensiveWaitCount q_QueueCapacity q_ExpensiveWaitList].
  rewrite (proj2 (Z.ltb_lt _ _)) by lia. cbn [mbind res_bind]. rewrite zwrite_ok by lia. cbn [mbind res_bind].
  eexists _, _, (zinsert n SWait sg). split; [done|]. split_and!.
  - apply (inv_move sg q (Some n) no_pend n SHand SWait st (NodeStateFlagQueued st)); try done; try by apply I.
    + cbn. by rewrite Hf.
    + apply (lists_same is_ring sg n SHand); [done..|apply I].
    + cbn. by rewrite zinsert_length.
    + cbn. lia.
    + replace (parked _) with (parked q ++ [n]); [by apply (lists_add is_wait sg n SHand); [..|apply I]|].
      unfold parked. cbn. unfold zinsert. rewrite bool_decide_true by lia.
      replace (Z.to_nat (q_ExpensiveWaitCount q + 1)) with (S (Z.to_nat (q_ExpensiveWaitCount q))) by lia.
      rewrite (take_S_r _ _ n) by (apply list_lookup_insert_eq; lia). f_equal. rewrite take_insert_ge by lia. done.
    + apply (hand_off sg); [done|apply I|done].
    + cbn. lia.
    + intros _. assert (0 <= cnt unparked_w 0 sg) by (apply cnt_nonneg; intros ? []; cbn; lia). cbn. lia.
  - by eapply keeps_self.
  - by apply ext_fields.
  - unfold work. rewrite (cnt_insert _ _ _ _ _ Hs). cbn. lia.
  - exists SWait. rewrite (sg_insert _ _ _ _ Hs), bool_decide_true by done. done.
  - by right.
Qed.

Lemma adv_run sg q n st fuel : Inv sg q (Some n) no_pend -> q_NodeState q !!z n = Some st -> ready sg n ->
  ns_Progress st = kRunAction -> Post false sg q n 2 (AdvanceNode_loop (S (S (S fuel))) q n).
Proof.
  intros I Hst Hr Hp. pose proof (zlookup_lt _ _ _ Hst). pose proof (inv_base _ _ _ _ I) as B.
  destruct (node_ndata B _ _ Hst) as [nd Hnd]. pose proof (exp_eq n nd Hnd) as Ex.
  remember (S (S fuel)) as f2 eqn:Ef. cbn [AdvanceNode_loop]. unfold get_node. rewrite Hst.
  cbn [of_opt mbind res_bind]. rewrite Hp, (node_data_eq B n nd Hnd). cbn [mbind res_bind].
  destruct (empty_action nd) eqn:Hea.
  { assert (Hex : expensive nd = false).
    { destruct (expensive nd) eqn:Hex; [|done]. by rewrite (so_exp SO n nd Hnd Hex) in Hea. }
    assert (I1 : Inv sg (with_nodes (zinsert n (set_progress kSucceeded st) (q_NodeState q)) q) (Some n) no_pend)
      by (apply inv_hand_progress; [done..|intros _; congruence]).
    rewrite (upd_node_eq _ _ _ st) by done. cbn [mbind res_bind]. set (q1 := with_nodes _ q) in *.
    unfold finish_expensive. rewrite (node_data_eq (inv_base _ _ _ _ I1) n nd Hnd). cbn [mbind res_bind]. rewrite Hex. cbn [mbind res_bind]. subst f2.
    apply (Post_weaken true _ sg q q1 n 0); [by apply ext_fields|lia|by right|done|].
    apply (adv_finished sg q1 n (set_progress kSucceeded st)); try done; [|by left].
    cbn. by apply zlookup_insert_eq. }
  pose proof (iv_limit _ _ _ _ I) as Hlim. rewrite <- Ex. destruct (is_exp n) eqn:He.
  - rewrite (iv_cfg _ _ _ _ I). destruct (Z.eqb_spec (q_ExpensiveRunning q) (cfg_MaxExpensiveCount cfg)) as [Emax|Emax].
    + by apply (adv_run_park sg q n st).
    + apply (adv_run_go sg q n st); try done; [by rewrite He|lia].
  - pose proof (adv_run_go sg q n st (q_ExpensiveRunning q) I Hst Hr Hp) as HP.
    rewrite He in HP. destruct q. apply HP; cbn in *; lia.
Qed.

Lemma adv_unblocked sg q n st fuel : Inv sg q (Some n) no_pend -> q_NodeState q !!z n = Some st -> ready sg n ->
  ns_Progress st = kUnblocked -> Post false sg q n 4 (AdvanceNode_loop (S fuel) q n).
Proof.
  intros I Hst Hr Hp. pose proof (inv_base _ _ _ _ I) as B.
  assert (Hs : sg !!z n = Some SHand) by by apply I. destruct (node_ndata B _ _ Hst) as [nd Hnd].
  cbn [AdvanceNode_loop]. unfold get_node. rewrite Hst. cbn [of_opt mbind res_bind].
  rewrite Hp, (ready_check B n nd Hnd Hr). cbn.
  eexists _, _, (zinsert n SSign sg). split; [done|]. split_and!.
  - apply (hand_to sg q n st SSign st); try done.
    + by rewrite zinsert_id.
    + by apply (iv_flags _ _ _ _ I _ _ _ Hs Hst).
    + cbn. lia.
    + apply I.
    + rewrite (slack_zero q n st Hst); [done|congruence].
  - by eapply keeps_self.
  - apply ext_refl.
  - unfold work. rewrite (cnt_insert _ _ _ _ _ Hs). cbn. lia.
  - split; [|done]. rewrite (sg_insert _ _ _ _ Hs). by rewrite bool_decide_true.
  - by right.
Qed.

Lemma adv_to_unblocked sg q n st fuel : Inv sg q (Some n) no_pend -> q_NodeState q !!z n = Some st -> ready sg n ->
  (ns_Progress st = kRunAction -> is_exp n = false) ->
  Post false sg q n 4 (AdvanceNode_loop (S fuel) (with_nodes (zinsert n (set_progress kUnblocked st) (q_NodeState q)) q) n).
Proof.
  intros I Hst Hr Hz. pose proof (zlookup_lt _ _ _ Hst).
  pose proof (inv_hand_progress sg q n st kUnblocked I Hst Hr ltac:(done) Hz) as I1.
  set (q1 := with_nodes _ q) in *. apply (Post_weaken false _ sg q q1 n 4 4); [by apply ext_fields|done|by left|done|].
  apply (adv_unblocked _ _ _ (set_progress kUnblocked st) _ I1); [cbn; by apply zlookup_insert_eq|done..].
Qed.

Lemma adv_blocked sg q n st fuel : Inv sg q (Some n) no_pend -> q_NodeState q !!z n = Some st -> ready sg n ->
  ns_Progress st = kBlocked -> Post false sg q n 4 (AdvanceNode_loop (S (S fuel)) q n).
Proof.
  intros I Hst Hr Hp. pose proof (inv_base _ _ _ _ I) as B. destruct (node_ndata B _ _ Hst) as [nd Hnd].
  remember (S fuel) as f1 eqn:Ef. cbn [AdvanceNode_loop]. unfold get_node. rewrite Hst. cbn [of_opt mbind res_bind].
  rewrite Hp, (ready_check B n nd Hnd Hr). cbn [check mbind res_bind].
  rewrite (upd_node_eq _ _ _ st) by done. cbn [mbind res_bind]. subst f1. apply adv_to_unblocked; [done..|congruence].
Qed.

Lemma adv_initial sg q n st fuel : Inv sg q (Some n) no_pend -> q_NodeState q !!z n = Some st ->
  ns_Progress st = kInitial -> Post false sg q n 6 (AdvanceNode_loop (S (S fuel)) q n).
Proof.
  intros I Hst Hp. pose proof (inv_base _ _ _ _ I) as B. destruct (node_ndata B _ _ Hst) as [nd Hnd].
  assert (Hs : sg !!z n = Some SHand) by by apply I. pose proof (zlookup_lt _ _ _ Hst).
  pose proof (iv_flags _ _ _ _ I _ _ _ Hs Hst) as Hf. cbn in Hf.
  remember (S fuel) as f1 eqn:Ef. cbn [AdvanceNode_loop]. unfold get_node. rewrite Hst. cbn [of_opt mbind res_bind].
  rewrite Hp. destruct (SetupDependencies_spec sg q n nd I Hnd) as (p & -> & Hcase). cbn [mbind res_bind].
  rewrite (upd_node_eq _ _ _ st) by done. cbn [mbind res_bind].
  destruct Hcase as [[-> Hb]|[-> Hr]].
  2:{ rewrite bool_decide_false by done. subst f1. apply (Post_weaken false _ sg q q n 4); [apply ext_refl|lia|by left|done|].
      apply adv_to_unblocked; [done..|congruence]. }
  rewrite bool_decide_true by done.
  rewrite (upd_node_eq _ _ _ (set_progress kBlocked st)) by (cbn; by apply zlookup_insert_eq).
  cbn [mbind res_bind]. eexists _, _, (zinsert n SBlocked sg). split; [done|]. split_and!.
  - apply (hand_to sg q n st SBlocked (NodeStateFlagInactive (set_progress kBlocked st))); try done.
    + cbn. by rewrite zinsert_twice.
    + cbn -[Z.land u16 Z.lnot]. by rewrite Hf.
    + cbn. auto.
    + cbn. lia.
    + apply I.
    + rewrite (slack_zero q n st Hst); [done|congruence].
  - by eapply keeps_self.
  - by apply ext_fields.
  - unfold work. rewrite (cnt_insert _ _ _ _ _ Hs). cbn. lia.
  - exists SBlocked. rewrite (sg_insert _ _ _ _ Hs), bool_decide_true by done. done.
  - by right.
Qed.

(** ** Locked stretches *)

(** Work still to come for the node in hand. *)
Definition hand_w (p : BuildProgress) : Z :=
  match p with
  | kInitial => 6
  | kBlocked | kUnblocked => 4
  | kRunAction => 2
  | kSucceeded | kUpToDate | kFailed | kCompleted => 0
  end.

(** The action is over, or there was none to run. *)
Definition finished (p : BuildProgress) : bool :=
  match p with kSucceeded | kUpToDate | kFailed | kCompleted => true | _ => false end.

Lemma adv_hand sg q n st : Inv sg q (Some n) no_pend -> q_NodeState q !!z n = Some st ->
  Post (finished (ns_Progress st)) sg q n (hand_w (ns_Progress st)) (AdvanceNode_loop advance_fuel q n).
Proof.
  intros I Hst. assert (Hs : sg !!z n = Some SHand) by by apply I.
  destruct (iv_prog _ _ _ _ I _ _ _ Hs Hst) as [Hp|[Hr Hp]].
  { rewrite Hp. by apply (adv_initial sg q n st). }
  unfold advance_fuel. destruct (ns_Progress st) eqn:E; cbn [hand_w].
  - by apply (adv_initial sg q n st).
  - by apply (adv_blocked sg q n st).
  - by apply (adv_unblocked sg q n st).
  - by apply (adv_run sg q n st).
  - apply (adv_finished sg q n st); auto.
  - apply (adv_finished sg q n st); auto.
  - apply (adv_finished sg q n st); auto.
  - done.
Qed.

Lemma AdvanceNode_spec sg q n st : Inv sg q (Some n) no_pend -> q_NodeState q !!z n = Some st ->
  Post (finished (ns_Progress st)) sg q n (hand_w (ns_Progress st)) (AdvanceNode q n).
Proof.
  intros I Hst. assert (Hs : sg !!z n = Some SHand) by by apply I.
  pose proof (iv_flags _ _ _ _ I _ _ _ Hs Hst) as Hf. cbn in Hf.
  unfold AdvanceNode, get_node. rewrite Hst. cbn -[AdvanceNode_loop NodeStateIsCompleted NodeStateIsActive NodeStateIsQueued].
  rewrite (bs_done _ _ (inv_base _ _ _ _ I) _ _ _ Hs Hst). unfold NodeStateIsActive, NodeStateIsQueued. rewrite Hf.
  by apply adv_hand.
Qed.

Lemma NextNode_empty sg q : Inv sg q None no_pend -> contents q = [] -> NextNode q = OK (q, None).
Proof.
  intros I Hc. unfold NextNode. rewrite <- length_contents by apply I. by rewrite Hc.
Qed.

Lemma ring_weight sg n s p : is_ring s = true -> prog_ok sg no_pend n s p ->
  work_w n s = hand_w p + 1 /\ unparked_w n s = Z.b2z (bool_decide (p = kRunAction) && is_exp n) /\
  prog_ok sg no_pend n SHand p.
Proof. intros Hs Hp. destruct s; try done; cbn in Hp; [|destruct Hp as [? ?]|destruct Hp as (? & ? & He)]; subst; cbn; try rewrite He; auto. Qed.

Lemma NextNode_spec sg q : Inv sg q None no_pend -> contents q <> [] ->
  exists n st s q', NextNode q = OK (q', Some n) /\ sg !!z n = Some s /\ is_ring s = true /\
  contents q = n :: contents q' /\ Inv (zinsert n SHand sg) q' (Some n) no_pend /\
  q_NodeState q' !!z n = Some st /\ work_w n s = hand_w (ns_Progress st) + 1 /\ ext q q'.
Proof.
  intros I Hc. pose proof (length_contents q (iv_ring _ _ _ _ I)) as Hl.
  assert (Ha : AvailableNodeCount q <> 0) by (destruct (contents q); cbn in *; [done|lia]).
  destruct (ring_read_ok q (iv_ring _ _ _ _ I) Ha) as (R & n & Hn & HC).
  destruct (proj1 (proj2 (iv_contents _ _ _ _ I) n)) as (s & Hs & Hr); [rewrite HC; set_solver|].
  pose proof (inv_base _ _ _ _ I) as B. destruct (sg_node B _ _ Hs) as [st Hst]. pose proof (zlookup_lt _ _ _ Hst).
  pose proof (iv_flags _ _ _ _ I _ _ _ Hs Hst) as Hf. assert (Hf1 : ns_Flags st = 1) by by destruct s.
  destruct (ring_weight sg n s (ns_Progress st) Hr (iv_prog _ _ _ _ I _ _ _ Hs Hst)) as (Hw & Hu & Hp).
  exists n, (set_flags 2 st), s, (with_nodes (zinsert n (set_flags 2 st) (q_NodeState q)) (ring_read q)). split_and!; try done.
  - unfold NextNode. rewrite (proj2 (Z.eqb_neq _ _)) by done. rewrite Hn. cbn [of_opt mbind res_bind].
    rewrite (ring_mod q) by apply I. fold (ring_read q). unfold get_node. cbn [ring_read with_ring q_NodeState].
    rewrite Hst. cbn -[upd_node u32 NodeStateIsQueued NodeStateIsActive].
    unfold NodeStateIsQueued, NodeStateIsActive. rewrite Hf1. cbn [Z.land kQueued kActive]. cbn -[upd_node u32 ring_read].
    rewrite (upd_node_eq _ _ _ st) by done. cbn -[upd_node u32 ring_read u16].
    rewrite (upd_node_eq _ _ _ (NodeStateFlagUnqueued st)) by (cbn -[u16]; by apply zlookup_insert_eq).
    cbn -[u16]. rewrite zinsert_twice. unfold NodeStateFlagUnqueued, NodeStateFlagActive. by rewrite Hf1.
  - apply (inv_move sg q None no_pend n s SHand st (set_flags 2 st)); try done; try by apply I.
    + by destruct s.
    + by destruct s.
    + change (contents (with_nodes _ ?x)) with (contents x).
      apply (lists_remove is_ring sg n s SHand Hs [] (contents (ring_read q)) eq_refl).
      rewrite app_nil_l, <- HC. apply I.
    + apply (lists_same is_wait sg n s); [done|by destruct s|apply I].
    + clear Hu. intros j. rewrite (sg_insert _ _ _ _ Hs). case_bool_decide; [split; congruence|]. rewrite (iv_hand _ _ _ _ I). split; [done|congruence].
    + destruct s; cbn in *; done || lia.
    + intros Hwc. pose proof (iv_parked _ _ _ _ I Hwc) as Hk. unfold slack in *. cbn [with_nodes q_NodeState].
      rewrite zlookup_insert_eq by done. cbn -[unparked_w] in *. rewrite Hu. cbn. lia.
  - cbn. by apply zlookup_insert_eq.
  - by apply ext_fields.
Qed.

Lemma after_CheckInputSignature_spec sg q n ex sig : Inv sg q None no_pend -> sg !!z n = Some SSign ->
  exists r, Post false sg q n (-1) r /\ after_CheckInputSignature ex sig q n = r.
Proof.
  intros I Hs. pose proof (inv_base _ _ _ _ I) as B. destruct (sg_node B _ _ Hs) as [st Hst].
  destruct (node_ndata B _ _ Hst) as [nd Hnd]. pose proof (zlookup_lt _ _ _ Hst).
  destruct (iv_prog _ _ _ _ I _ _ _ Hs Hst) as (Hp & Hr).
  eexists. split; [|done]. unfold after_CheckInputSignature.
  rewrite (upd_node_eq _ _ _ st) by done. cbn [mbind res_bind]. set (q1 := with_nodes _ q).
  assert (Hst1 : q_NodeState q1 !!z n = Some (set_signature sig st)) by (by apply zlookup_insert_eq).
  assert (B1 : Base sg q1).
  { split; try apply B; cbn.
    - rewrite <- (bs_mm _ _ B). by apply map_mm_insert with (st := st).
    - rewrite zinsert_length. apply B.
    - intros j t u Ht. rewrite zlookup_insert. case_bool_decide; [|by apply (bs_done _ _ B)].
      intros [= <-]. destruct_and!. subst j. by apply (bs_done _ _ B _ _ st Ht). }
  rewrite (node_data_eq B1 n nd Hnd). cbn [mbind res_bind]. unfold get_node. rewrite Hst1. cbn [of_opt mbind res_bind].
  rewrite (upd_node_eq _ _ _ _ Hst1). cbn [mbind res_bind].
  set (p := CheckInputSignature_decide _ _ _ _).
  assert (Hpp : p = kRunAction \/ p = kUpToDate).
  { unfold p, CheckInputSignature_decide. repeat case_match; auto. }
  set (q2 := with_nodes _ q1). set (st2 := set_progress p (set_signature sig st)).
  assert (I2 : Inv (zinsert n SHand sg) q2 (Some n) no_pend).
  { apply (inv_move sg q None no_pend n SSign SHand st st2); try done; try by apply I.
    - cbn. by rewrite zinsert_twice.
    - by apply (iv_flags _ _ _ _ I _ _ _ Hs Hst).
    - cbn. right. split; [done|]. by destruct Hpp as [ -> | -> ].
    - apply (lists_same is_ring sg n SSign); [done..|apply I].
    - apply (lists_same is_wait sg n SSign); [done..|apply I].
    - intros j. rewrite (sg_insert _ _ _ _ Hs). case_bool_decide; [split; congruence|].
      rewrite (iv_hand _ _ _ _ I). split; [done|congruence].
    - cbn. lia.
    - intros Hw. pose proof (iv_parked _ _ _ _ I Hw) as Hk. pose proof (slack_range q2 (Some n)). cbn -[slack] in *.
      change (slack q None) with 0 in Hk. lia. }
  assert (Hst2 : q_NodeState q2 !!z n = Some st2) by (cbn; apply zlookup_insert_eq; by rewrite zinsert_length).
  destruct (adv_hand _ q2 n st2 I2 Hst2) as (q' & susp & sg' & E & I' & K & X & W & M & T).
  exists q', susp, sg'. split_and!; try done.
  - apply (keeps_trans _ _ (zinsert n SHand sg)); [by eapply keeps_self|done].
  - apply (ext_trans _ q2); [by apply ext_fields|done].
  - unfold work in *. rewrite (cnt_insert _ _ _ _ _ Hs) in W. cbn -[hand_w] in W.
    assert (hand_w p <= 2) by (destruct Hpp as [ -> | -> ]; cbn; lia). change (ns_Progress st2) with p in W. lia.
  - by eapply landed_false.
  - destruct T as [T|[_ T]]; [by left|by right].
Qed.

Lemma after_RunAction_spec sg q n r : Inv sg q None no_pend -> sg !!z n = Some SRun ->
  Post true sg q n (-1) (after_RunAction r q n).
Proof.
  intros I Hs. unfold after_RunAction. set (q0 := if result_signals r then _ else q).
  assert (I0 : Inv sg q0 None no_pend) by (unfold q0; destruct (result_signals r); [by apply inv_wakes|done]).
  assert (E0 : ext q q0) by (unfold q0; destruct (result_signals r); [apply ext_log|apply ext_refl]).
  assert (Hp : action_progress r = kSucceeded \/ action_progress r = kFailed)
    by (destruct r; cbn; [by right|]; case_match; auto).
  destruct (finish_run sg q0 n (action_progress r) I0 Hs) as (q1 & sg1 & st & Eq & I1 & Hr1 & Hst & Hpr & K1 & E1 & W1);
    [by destruct Hp as [ -> | -> ]..|].
  assert (Hbind : (q1 ← upd_node (set_progress (action_progress r)) n q0; q2 ← finish_expensive q1 n; AdvanceNode_loop advance_fuel q2 n)
    = (q2 ← (q1 ← upd_node (set_progress (action_progress r)) n q0; finish_expensive q1 n); AdvanceNode_loop advance_fuel q2 n)).
  { by destruct (upd_node _ n q0). }
  rewrite Hbind, Eq. cbn [mbind res_bind].
  destruct (adv_hand sg1 q1 n st I1 Hst) as (q' & susp & sg' & E & I' & K & X & W & M & T).
  exists q', susp, sg'. split_and!; try done.
  - by eapply keeps_trans.
  - eapply ext_trans; [exact E0|]. by eapply ext_trans.
  - rewrite Hpr in W. destruct Hp as [Hp|Hp]; rewrite Hp in W; cbn in W; lia.
  - rewrite Hpr in M. destruct Hp as [Hp|Hp]; by rewrite Hp in M.
  - rewrite Hpr in T. left. destruct Hp as [Hp|Hp]; rewrite Hp in T; by destruct T as [?|[]].
Qed.

End Inv.
