(* ===== verification/BuildQueueSys.v ===== *)
(** * The scheduler as a concurrent system

    The threads of src/src/BuildQueue.cpp over the queue: [SysInv] ties what
    each thread is doing to the statuses of the queue's invariant, [sys_step_inv]
    preserves it over every event, and the theorems about whole executions
    follow: no check ever fails, dependencies come first, the expensive limit
    holds, no deadlock, and fair executions end. *)

From S2P Require Import Prelude CommonFns Hash HashImpl DagData BuildQueue BuildQueueRing BuildQueueInv.

Abbreviation no_pend := (fun _ : Z => False).

(** ** Waking threads *)

Definition holds (t : thread_pc) : option (Z * status) :=
  match t with
  | TSigning n => Some (n, SSign)
  | TRunning n => Some (n, SRun)
  | _ => None
  end.

(** A thread that will take the mutex again without being woken. *)
Definition awake (t : thread_pc) : bool :=
  match t with TReady | TSigning _ | TRunning _ => true | TWaiting | TExited => false end.

Definition may_wake (t t' : thread_pc) : Prop := t' = t \/ (t = TWaiting /\ t' = TReady).

Definition woken (ts ts' : list thread_pc) : Prop := Forall2 may_wake ts ts'.

Lemma woken_refl ts : woken ts ts.
Proof. induction ts; constructor; [by left|done]. Qed.

Lemma woken_trans ts1 ts2 ts3 : woken ts1 ts2 -> woken ts2 ts3 -> woken ts1 ts3.
Proof.
  intros H1. revert ts3. induction H1 as [|a b l1 l2 Hab _ IH]; intros ts3 H2; inv H2; constructor; [|by apply IH].
  destruct Hab as [ -> | [ -> -> ] ]; [done|]. match goal with H : may_wake TReady _ |- _ => destruct H as [ -> | [? ?] ] end;
    [by right|done].
Qed.

Lemma woken_alter ts k : woken ts (alter unwait k ts).
Proof.
  revert k. induction ts as [|t ts IH]; intros [|k]; cbn; try constructor; try apply IH; try apply woken_refl.
  - destruct t; cbn; unfold may_wake; auto.
  - by left.
Qed.

Lemma woken_map ts : woken ts (map unwait ts).
Proof. induction ts as [|t ts IH]; cbn; constructor; [|done]. destruct t; unfold may_wake; cbn; auto. Qed.

Lemma woken_insert_map ts i t : woken (<[i := t]> ts) (<[i := t]> (map unwait ts)).
Proof. apply Forall2_insert; [apply woken_map|by left]. Qed.

Lemma woken_fold ts l : woken ts (foldr (fun k ts => alter unwait k ts) ts l).
Proof.
  induction l as [|k l IH]; cbn; [apply woken_refl|]. eapply woken_trans; [exact IH|apply woken_alter].
Qed.

Lemma map_unwait_not_waiting ts k : map unwait ts !! k <> Some TWaiting.
Proof. change (map unwait ts) with (unwait <$> ts). rewrite list_lookup_fmap. destruct (ts !! k) as [[]|]; done. Qed.

Lemma wake_woken w choice ts ts' : wake w choice ts = Some ts' ->
  woken ts ts' /\ (has_broadcast w = true -> forall k, ts' !! k <> Some TWaiting).
Proof.
  unfold wake. destruct (has_broadcast w).
  - intros [= <-]. split; [apply woken_map|]. intros _. apply map_unwait_not_waiting.
  - case_match; [|done]. intros [= <-]. split; [apply woken_fold|done].
Qed.

Section Woken.
Context (ts ts' : list thread_pc).
Hypothesis W : woken ts ts'.

Lemma woken_r k t' : ts' !! k = Some t' -> exists t, ts !! k = Some t /\ may_wake t t'.
Proof. intros H. by apply (Forall2_lookup_r _ _ _ _ _ W H). Qed.

Lemma woken_l k t : ts !! k = Some t -> exists t', ts' !! k = Some t' /\ may_wake t t'.
Proof. intros H. by apply (Forall2_lookup_l _ _ _ _ _ W H). Qed.

Lemma woken_holds k n h : (exists t, ts !! k = Some t /\ holds t = Some (n, h)) <->
  (exists t', ts' !! k = Some t' /\ holds t' = Some (n, h)).
Proof.
  split.
  - intros (t & Ht & Hh). destruct (woken_l k t Ht) as (t' & Ht' & [ -> | [ -> -> ] ]); [eauto|done].
  - intros (t' & Ht' & Hh). destruct (woken_r k t' Ht') as (t & Ht & [ -> | [ -> -> ] ]); [eauto|done].
Qed.

Lemma woken_waiting k : ts' !! k = Some TWaiting -> ts !! k = Some TWaiting.
Proof. intros H. destruct (woken_r k _ H) as (t & Ht & [ <- | [? ?] ]); done. Qed.

Lemma woken_awake k t : ts !! k = Some t -> awake t = true -> ts' !! k = Some t.
Proof. intros H Ha. destruct (woken_l k t H) as (t' & Ht' & [ -> | [ -> -> ] ]); done. Qed.

Lemma woken_exited k : ts !! k = Some TExited <-> ts' !! k = Some TExited.
Proof.
  split; intros H.
  - by destruct (woken_l k _ H) as (t' & Ht' & [ -> | [? ?] ]).
  - by destruct (woken_r k _ H) as (t' & Ht' & [ <- | [? ?] ]).
Qed.

End Woken.

(** ** What a step does to the threads *)

Lemma commit_shape s i c sig r s' : commit s i c sig r = Some (OK s') ->
  exists q pc ts', r = OK (q, pc) /\ s' = mkSys (with_wakes [] q) ts' sig /\ woken (<[i := pc]> (sys_threads s)) ts'.
Proof.
  unfold commit. destruct r as [[q pc]|]; [|done]. destruct (wake _ _ _) as [ts'|] eqn:Hw; [|done].
  intros [= <-]. apply wake_woken in Hw as [Hw _]. eauto 6.
Qed.

Lemma resume_shape r n q pc : resume r n = OK (q, pc) -> exists susp, r = OK (q, susp) /\ pc = pc_of susp n.
Proof. destruct r as [[q' susp]|]; [|done]. cbn. intros [= <- <-]. eauto. Qed.

Lemma pc_of_awake susp n : awake (pc_of susp n) = true.
Proof. by destruct susp. Qed.

(** The thread an event moves. *)
Definition mover (e : event) : option nat :=
  match e with
  | EvLoop i _ | EvSigned i _ _ _ | EvExecuted i _ _ | EvSpuriousWakeup i => Some i
  | EvSignal missed => missed
  end.

Lemma step_shape s e s' : sys_step s e = Some (OK s') ->
  (mover e = None /\ woken (sys_threads s) (sys_threads s') /\ sys_signalled s' = true) \/
  exists i pc, mover e = Some i /\ woken (<[i := pc]> (sys_threads s)) (sys_threads s') /\
  (sys_signalled s = true -> sys_signalled s' = true) /\ (exists t, sys_threads s !! i = Some t /\ t <> TExited) /\
  (pc = TExited -> ShouldKeepBuilding (sys_signalled s) (sys_q s) i = false /\
     sys_q s' = with_wakes [] (sys_q s) /\ sys_signalled s' = sys_signalled s).
Proof.
  destruct e as [i c|i sig ex c|i r c|i|[i|]]; cbn [sys_step].
  6:{ intros [= <-]. left. split_and!; [done|apply woken_map|done]. }
  5:{ intros H. right. exists i, TWaiting. destruct (sys_threads s !! i) as [[]|] eqn:Hi; try done.
      destruct (loop_iteration _ _ _) as [[q []]|]; try done. simplify_eq.
      split_and!; [done|apply woken_insert_map|done|eauto|done]. }
  all: intros H; right; exists i; destruct (sys_threads s !! i) as [[]|] eqn:Hi; try done.
  - apply commit_shape in H as (q & pc & ts' & E & -> & W). exists pc. split_and!; try done; [eauto|].
    intros ->. unfold loop_iteration in E. destruct (ShouldKeepBuilding _ _ _).
    + destruct (NextNode _) as [[q1 [n|]]|]; cbn in E; [|done..].
      destruct (AdvanceNode q1 n) as [[q2 susp]|]; cbn in E; [|done]. simplify_eq. by destruct susp.
    + by simplify_eq.
  - apply commit_shape in H as (q & pc & ts' & E & -> & W). apply resume_shape in E as (susp & _ & ->).
    eexists. split_and!; try done; [eauto|]. by destruct susp.
  - apply commit_shape in H as (q & pc & ts' & E & -> & W). apply resume_shape in E as (susp & _ & ->).
    eexists. split_and!; try done; [cbn; by intros ->|eauto|]. by destruct susp.
  - simplify_eq. exists TReady. split_and!; try done; [apply woken_refl|eauto].
Qed.

Lemma step_signalled s e s' : sys_step s e = Some (OK s') -> sys_signalled s = true -> sys_signalled s' = true.
Proof. intros [(_ & _ & ?)|(i & pc & _ & _ & ? & _)]%step_shape; auto. Qed.

(** A thread leaves its loop only by its own decision. *)
Lemma step_exited s e s' k : sys_step s e = Some (OK s') -> sys_threads s' !! k = Some TExited ->
  sys_threads s !! k = Some TExited \/
  (ShouldKeepBuilding (sys_signalled s) (sys_q s) k = false /\ sys_q s' = with_wakes [] (sys_q s) /\
   sys_signalled s' = sys_signalled s).
Proof.
  intros [(_ & W & _)|(i & pc & _ & W & _ & _ & Hx)]%step_shape Hk.
  - left. by apply (woken_exited _ _ W).
  - apply (woken_exited _ _ W), list_lookup_insert_Some in Hk as [(<- & -> & _)|[_ Hk]]; auto.
Qed.

(** Threads an event does not move stay where they are, or are woken. *)
Lemma step_other s e s' k t : sys_step s e = Some (OK s') -> mover e <> Some k ->
  sys_threads s !! k = Some t -> awake t = true -> sys_threads s' !! k = Some t.
Proof.
  intros [(_ & W & _)|(i & pc & Hm & W & _)]%step_shape Hk Ht Ha.
  - by apply (woken_awake _ _ W).
  - apply (woken_awake _ _ W); [|done]. rewrite list_lookup_insert_ne; [done|congruence].
Qed.

Section Sys.
Context (cfg : BuildQueueConfig) (mm : list Z).
Hypothesis SO : static_ok cfg mm.

(** ** The invariant of the system *)

Record SysInv (sg : list status) (s : sys) : Prop := {
  si_inv : Inv cfg mm sg (sys_q s) None no_pend;
  si_wakes : q_Wakes (sys_q s) = [];
  si_main : (0 < length (sys_threads s))%nat;
  si_holds i t n h : sys_threads s !! i = Some t -> holds t = Some (n, h) -> sg !!z n = Some h;
  si_unique i i' t t' n h h' : sys_threads s !! i = Some t -> sys_threads s !! i' = Some t' ->
    holds t = Some (n, h) -> holds t' = Some (n, h') -> i = i';
  si_held n h : is_held h = true -> sg !!z n = Some h ->
    exists i t, sys_threads s !! i = Some t /\ holds t = Some (n, h);
  si_waiting i : sys_threads s !! i = Some TWaiting -> ShouldKeepBuilding false (sys_q s) i = true;
  si_empty i : sys_threads s !! i = Some TWaiting -> contents (sys_q s) = []
}.

Lemma holds_held t n h : holds t = Some (n, h) -> is_held h = true.
Proof. by destruct t; intros [= <- <-]. Qed.

Lemma held_stable h : is_held h = true -> is_stable h = true.
Proof. by destruct h. Qed.

Lemma keep_same sig q q' i : q_Config q' = q_Config q -> q_QuitSignalled q' = q_QuitSignalled q ->
  q_PendingNodeCount q' = q_PendingNodeCount q -> q_FailedNodeCount q' = q_FailedNodeCount q ->
  ShouldKeepBuilding sig q' i = ShouldKeepBuilding sig q i.
Proof. intros H1 H2 H3 H4. unfold ShouldKeepBuilding. by rewrite H1, H2, H3, H4. Qed.

Lemma keep_unsignalled sig q i : ShouldKeepBuilding sig q i = true -> ShouldKeepBuilding false q i = true.
Proof. by destruct sig. Qed.

(** A locked stretch of thread [i] on node [n] that leaves it awake. *)
Lemma commit_inv sg s i t0 n sg' q' pc sig' ts' :
  SysInv sg s -> sys_threads s !! i = Some t0 ->
  (forall n' h, holds t0 = Some (n', h) -> n' = n) ->
  (holds t0 = None -> forall h, is_held h = true -> sg !!z n <> Some h) ->
  Inv cfg mm sg' q' None no_pend -> keeps n sg sg' -> ext (sys_q s) q' -> told false (sys_q s) q' ->
  (forall h, is_held h = true -> sg' !!z n = Some h <-> holds pc = Some (n, h)) ->
  (forall n' h, holds pc = Some (n', h) -> n' = n) -> awake pc = true ->
  woken (<[i := pc]> (sys_threads s)) ts' ->
  (has_broadcast (q_Wakes q') = true -> forall k, ts' !! k <> Some TWaiting) ->
  SysInv sg' (mkSys (with_wakes [] q') ts' sig').
Proof.
  intros SI Ht0 Hn0 Hfree I K E HT Hpc Hpcn Haw W Hb.
  assert (Hlt : (i < length (sys_threads s))%nat) by by eapply lookup_lt_Some.
  assert (Hown : forall k t n' h, sys_threads s !! k = Some t -> holds t = Some (n', h) -> k <> i -> n' <> n).
  { intros k t n' h Hk Hh Hki ->. destruct (holds t0) as [[n0 h0]|] eqn:E0.
    - apply Hki. rewrite (Hn0 n0 h0 eq_refl) in E0. by apply (si_unique _ _ SI k i t t0 n h h0).
    - apply (Hfree eq_refl h); [by eapply holds_held|]. by eapply (si_holds _ _ SI). }
  assert (Hin : forall k t, <[i := pc]> (sys_threads s) !! k = Some t ->
     (k = i /\ t = pc) \/ (k <> i /\ sys_threads s !! k = Some t)).
  { intros k t Hk. destruct (decide (k = i)) as [ -> |].
    - rewrite list_lookup_insert_eq in Hk by done. left. by simplify_eq.
    - rewrite list_lookup_insert_ne in Hk by done. by right. }
  split; cbn [sys_q sys_threads sys_signalled].
  - by apply inv_wakes.
  - done.
  - rewrite <- (Forall2_length _ _ _ W), length_insert. apply SI.
  - intros k t n' h Hk Hh. destruct (proj2 (woken_holds _ _ W k n' h)) as (t1 & Hk1 & Hh1); [eauto|].
    apply Hin in Hk1 as [[ -> -> ]|[Hki Hk1]].
    + pose proof (Hpcn _ _ Hh1) as ->. apply Hpc; [by eapply holds_held|done].
    + apply K; [by eapply Hown|by eapply held_stable, holds_held|]. by eapply (si_holds _ _ SI).
  - intros k k' t t' n' h h' Hk Hk' Hh Hh'.
    destruct (proj2 (woken_holds _ _ W k n' h)) as (t1 & Hk1 & Hh1); [eauto|].
    destruct (proj2 (woken_holds _ _ W k' n' h')) as (t1' & Hk1' & Hh1'); [eauto|].
    apply Hin in Hk1 as [[ -> -> ]|[Hki Hk1]], Hk1' as [[ -> -> ]|[Hki' Hk1']]; try done.
    + destruct (Hown _ _ _ _ Hk1' Hh1' Hki'). by apply Hpcn in Hh1.
    + destruct (Hown _ _ _ _ Hk1 Hh1 Hki). by apply Hpcn in Hh1'.
    + by apply (si_unique _ _ SI k k' t1 t1' n' h h').
  - intros n' h Hh Hs. destruct (decide (n' = n)) as [ -> |Hne].
    + exists i. apply (woken_holds _ _ W). exists pc. rewrite list_lookup_insert_eq by done. split; [done|]. by apply Hpc.
    + apply K in Hs; [|done|by apply held_stable]. destruct (si_held _ _ SI n' h Hh Hs) as (k & t & Hk & Hkh).
      exists k. apply (woken_holds _ _ W). exists t. rewrite list_lookup_insert_ne; [done|].
      intros ->. simplify_eq. by apply Hn0 in Hkh.
  - intros k Hk. destruct (has_broadcast (q_Wakes q')) eqn:Eb; [by destruct (Hb eq_refl k)|].
    destruct (ext_counts _ _ E) as [[Hp Hf]|]; [|congruence].
    apply (woken_waiting _ _ W) in Hk. apply Hin in Hk as [[ -> <- ]|[? Hk]]; [done|].
    rewrite <- (si_waiting _ _ SI k Hk). apply keep_same; try done; [|by apply (ext_quit _ _ E)].
    cbn. by rewrite (iv_cfg _ _ _ _ _ _ I), (iv_cfg _ _ _ _ _ _ (si_inv _ _ SI)).
  - intros k Hk. destruct HT as [Eb|[_ HT]]; [by destruct (Hb Eb k)|].
    apply (woken_waiting _ _ W) in Hk. apply Hin in Hk as [[ -> <- ]|[? Hk]]; [done|]. by apply HT, (si_empty _ _ SI k).
Qed.

(** A thread that holds nothing stops or waits, others may wake up and a signal
    may arrive. *)
Lemma idle_inv sg s i pc ts' sig' :
  SysInv sg s -> sys_threads s !! i = Some TReady -> holds pc = None ->
  (pc = TWaiting -> ShouldKeepBuilding (sys_signalled s) (sys_q s) i = true) ->
  (pc = TWaiting -> contents (sys_q s) = []) -> woken (<[i := pc]> (sys_threads s)) ts' ->
  SysInv sg (mkSys (sys_q s) ts' sig').
Proof.
  intros SI Hi Hpc Hw Ha W. assert (Hlt : (i < length (sys_threads s))%nat) by by eapply lookup_lt_Some.
  assert (Hin : forall k n h, (exists t, <[i := pc]> (sys_threads s) !! k = Some t /\ holds t = Some (n, h)) <->
    (exists t, sys_threads s !! k = Some t /\ holds t = Some (n, h))).
  { intros k n h. destruct (decide (k = i)) as [ -> |].
    - rewrite list_lookup_insert_eq by done. rewrite Hi. split; intros (t & [= <-] & ?); (done || congruence).
    - by rewrite list_lookup_insert_ne. }
  split; cbn [sys_q sys_threads sys_signalled]; try apply SI.
  - rewrite <- (Forall2_length _ _ _ W), length_insert. apply SI.
  - intros k t n h Hk Hh. destruct (proj1 (Hin k n h)) as (t1 & Hk1 & Hh1); [apply (woken_holds _ _ W); eauto|].
    by eapply (si_holds _ _ SI).
  - intros k k' t t' n h h' Hk Hk' Hh Hh'.
    destruct (proj1 (Hin k n h)) as (t1 & Hk1 & Hh1); [apply (woken_holds _ _ W); eauto|].
    destruct (proj1 (Hin k' n h')) as (t1' & Hk1' & Hh1'); [apply (woken_holds _ _ W); eauto|].
    by apply (si_unique _ _ SI k k' t1 t1' n h h').
  - intros n h Hh Hs. destruct (si_held _ _ SI n h Hh Hs) as (k & t & Hk & Hkh).
    exists k. apply (woken_holds _ _ W), Hin. eauto.
  - intros k Hk%(woken_waiting _ _ W). destruct (decide (k = i)) as [ -> |].
    + rewrite list_lookup_insert_eq in Hk by done. eapply keep_unsignalled, Hw. by simplify_eq.
    + rewrite list_lookup_insert_ne in Hk by done. by apply (si_waiting _ _ SI).
  - intros k Hk%(woken_waiting _ _ W). destruct (decide (k = i)) as [ -> |].
    + rewrite list_lookup_insert_eq in Hk by done. apply Ha. by simplify_eq.
    + rewrite list_lookup_insert_ne in Hk by done. by apply (si_empty _ _ SI k).
Qed.

(** Threads wake up, and a signal may have arrived. *)
Lemma woken_inv sg s ts' sig' :
  SysInv sg s -> woken (sys_threads s) ts' ->
  SysInv sg (mkSys (sys_q s) ts' sig').
Proof.
  intros SI W. split; cbn [sys_q sys_threads sys_signalled]; try apply SI.
  - rewrite <- (Forall2_length _ _ _ W). apply SI.
  - intros k t n h Hk Hh. destruct (proj2 (woken_holds _ _ W k n h)) as (t1 & Hk1 & Hh1); [eauto|].
    by eapply (si_holds _ _ SI).
  - intros k k' t t' n h h' Hk Hk' Hh Hh'.
    destruct (proj2 (woken_holds _ _ W k n h)) as (t1 & Hk1 & Hh1); [eauto|].
    destruct (proj2 (woken_holds _ _ W k' n h')) as (t1' & Hk1' & Hh1'); [eauto|].
    by apply (si_unique _ _ SI k k' t1 t1' n h h').
  - intros n h Hh Hs. destruct (si_held _ _ SI n h Hh Hs) as (k & t & Hk & Hkh).
    exists k. apply (woken_holds _ _ W). eauto.
  - intros k Hk. apply (si_waiting _ _ SI). by apply (woken_waiting _ _ W).
  - intros k Hk%(woken_waiting _ _ W). by apply (si_empty _ _ SI k).
Qed.

(** ** Every event preserves it *)

(** An event takes some work off the build, or leaves the queue as it is. *)
Definition idle_event (s : sys) (e : event) (s' : sys) : Prop :=
  match e with
  | EvLoop i _ =>
      if ShouldKeepBuilding (sys_signalled s) (sys_q s) i then contents (sys_q s) = []
      else sys_threads s' !! i = Some TExited
  | EvSigned _ _ _ _ | EvExecuted _ _ _ => False
  | EvSpuriousWakeup _ | EvSignal None => True
  | EvSignal (Some i) => ShouldKeepBuilding (sys_signalled s) (sys_q s) i = true /\ contents (sys_q s) = []
  end.

(** What no locked stretch does: quit, change pass, forget a failure. *)
Definition calm (q q' : BuildQueue) : Prop :=
  q_QuitSignalled q' = q_QuitSignalled q /\ q_CurrentPassIndex q' = q_CurrentPassIndex q /\
  q_FailedNodeCount q <= q_FailedNodeCount q'.

Lemma calm_refl q : calm q q.
Proof. unfold calm. split_and!; done || lia. Qed.

Definition done_stays (sg sg' : list status) : Prop :=
  forall j t, is_done t = true -> sg !!z j = Some t -> sg' !!z j = Some t.

Definition step_outcome (sg : list status) (s : sys) (e : event) (r : res sys) : Prop :=
  exists s' sg', r = OK s' /\ SysInv sg' s' /\ calm (sys_q s) (sys_q s') /\ done_stays sg sg' /\
  (forall i n r c, e = EvExecuted i r c -> sys_threads s !! i = Some (TRunning n) ->
     exists t, sg' !!z n = Some t /\ is_done t = true) /\
  (work sg' + 1 <= work sg \/ (sg' = sg /\ sys_q s' = sys_q s /\ idle_event s e s')).

Lemma idle_outcome sg s e s' : SysInv sg s' -> sys_q s' = sys_q s -> idle_event s e s' -> step_outcome sg s e (OK s').
Proof.
  intros SI Hq Hid. exists s', sg. split; [done|]. split; [done|]. split; [rewrite Hq; apply calm_refl|].
  split; [by intros ? ?|]. split; [|by right]. intros i n r c -> _. done.
Qed.

Lemma no_wakes q : q_Wakes q = [] -> with_wakes [] q = q.
Proof. destruct q. cbn. by intros ->. Qed.

(** A stretch described by [Post] that thread [i] commits. *)
Lemma commit_post fin sg s i t0 n q1 sg1 b c sig' r e :
  SysInv sg s -> sys_threads s !! i = Some t0 ->
  (forall n' h, holds t0 = Some (n', h) -> n' = n) ->
  (holds t0 = None -> forall h, is_held h = true -> sg !!z n <> Some h) ->
  (forall t, sg !!z n = Some t -> is_done t = false) ->
  (forall i' r' c', e = EvExecuted i' r' c' -> i' = i /\ fin = true /\ t0 = TRunning n) ->
  keeps n sg sg1 -> ext (sys_q s) q1 -> told false (sys_q s) q1 ->
  Post cfg mm fin sg1 q1 n b r -> work sg1 + b + 1 <= work sg ->
  forall o, commit s i c sig' (resume r n) = Some o -> step_outcome sg s e o.
Proof.
  intros SI Ht0 Hn0 Hfree Hnd Hex K0 E0 T0 (q' & susp & sg' & -> & I' & K & E & W & M & T) Hb o. cbn.
  destruct (wake _ _ _) as [ts'|] eqn:Hw; [|done]. intros [= <-].
  apply wake_woken in Hw as [Hw Hbr]. eexists _, sg'. split; [done|].
  pose proof (ext_trans _ _ _ E0 E) as E1. pose proof (keeps_trans _ _ _ _ K0 K) as K1.
  split; [|split; [split_and!; apply E1|split; [|split; [|left; lia]]]].
  2:{ intros j t Ht Hj. apply K1; [|by destruct t|done]. intros ->. by rewrite (Hnd t Hj) in Ht. }
  2:{ intros i' n' r' c' -> Hi'. destruct (Hex _ _ _ eq_refl) as ( -> & -> & -> ). simplify_eq.
      destruct susp; [|by destruct M..]. destruct M as (u & ? & _ & Hu). eauto. }
  eapply (commit_inv sg s i t0 n sg' q' (pc_of susp n)); try done.
  - destruct T as [T|[_ T]]; [by left|]. destruct T0 as [T0|[_ T0]]; [left; by apply (ext_wakes _ _ E)|right; auto].
  - intros h Hh. destruct susp; cbn.
    + destruct M as (s0 & M & Hs0 & _). split; [|done]. rewrite M. intros [= ->]. congruence.
    + rewrite (proj1 M). split; intros H; simplify_eq; done.
    + rewrite (proj1 M). split; intros [= <-]; done.
  - intros n' h. destruct susp; cbn; congruence.
  - by destruct susp.
Qed.

Lemma ring_not_held s : is_ring s = true -> is_held s = false.
Proof. by destruct s. Qed.

Lemma step_loop sg s i c o : SysInv sg s -> sys_step s (EvLoop i c) = Some o -> step_outcome sg s (EvLoop i c) o.
Proof.
  intros SI. cbn [sys_step]. destruct (sys_threads s !! i) as [[]|] eqn:Hi; try done.
  pose proof (si_inv _ _ SI) as I. pose proof (no_wakes _ (si_wakes _ _ SI)) as Hw0.
  unfold loop_iteration. destruct (ShouldKeepBuilding _ _ _) eqn:Hk.
  - destruct (decide (contents (sys_q s) = [])) as [Hc|Hc].
    + rewrite (NextNode_empty cfg mm sg) by done. cbn [mbind res_bind commit].
      destruct (wake _ _ _) as [ts'|] eqn:Hw; [|done]. intros [= <-]. apply wake_woken in Hw as [Hw _].
      rewrite Hw0. apply idle_outcome; [|done|cbn; by rewrite Hk]. eapply (idle_inv sg s i TWaiting); auto.
    + destruct (NextNode_spec cfg mm SO sg _ I Hc) as (n & st & s0 & q1 & -> & Hs0 & Hr & HC & I1 & Hst & Hwk & E1).
      cbn [mbind res_bind]. change (commit s i c _ ?x) with (commit s i c (sys_signalled s) (resume (AdvanceNode q1 n) n)).
      eapply (commit_post (finished (ns_Progress st)) sg s i TReady n q1 (zinsert n SHand sg) (hand_w (ns_Progress st)));
        try done.
      * intros _ h Hh Hn. rewrite Hs0 in Hn. simplify_eq. by rewrite ring_not_held in Hh.
      * intros t Ht. assert (t = s0) as -> by congruence. by destruct s0.
      * by eapply keeps_self.
      * by right.
      * by apply AdvanceNode_spec.
      * unfold work. rewrite (cnt_insert _ _ _ _ _ Hs0), Hwk. cbn. lia.
  - cbn [commit]. destruct (wake _ _ _) as [ts'|] eqn:Hw; [|done]. intros [= <-]. apply wake_woken in Hw as [Hw _].
    assert (Hlt : (i < length (sys_threads s))%nat) by by eapply lookup_lt_Some.
    rewrite Hw0. apply idle_outcome; [|done|].
    2:{ cbn. rewrite Hk. apply (woken_exited _ _ Hw). by apply list_lookup_insert_eq. }
    by eapply (idle_inv sg s i TExited).
Qed.

Lemma step_signed sg s i sig ex c o : SysInv sg s -> sys_step s (EvSigned i sig ex c) = Some o ->
  step_outcome sg s (EvSigned i sig ex c) o.
Proof.
  intros SI. cbn [sys_step]. destruct (sys_threads s !! i) as [[]|] eqn:Hi; try done.
  pose proof (si_holds _ _ SI i _ node SSign Hi eq_refl) as Hs.
  destruct (after_CheckInputSignature_spec cfg mm SO sg (sys_q s) node ex sig (si_inv _ _ SI) Hs) as (r & P & ->).
  eapply (commit_post false sg s i (TSigning node) node (sys_q s) sg (-1)); try done; [| |apply ext_refl|by right|lia].
  - intros n' h. cbn. congruence.
  - intros t Ht. by simplify_eq.
Qed.

Lemma after_RunAction_signal rc q n :
  after_RunAction (Executed rc true) q n = after_RunAction (Executed rc false) (log_wake CondBroadcast q) n.
Proof. reflexivity. Qed.

Lemma step_executed sg s i r c o : SysInv sg s -> sys_step s (EvExecuted i r c) = Some o ->
  step_outcome sg s (EvExecuted i r c) o.
Proof.
  intros SI. cbn [sys_step]. destruct (sys_threads s !! i) as [[]|] eqn:Hi; try done.
  pose proof (si_holds _ _ SI i _ node SRun Hi eq_refl) as Hs.
  pose proof (after_RunAction_spec cfg mm SO sg (sys_q s) node r (si_inv _ _ SI) Hs) as P.
  eapply (commit_post true sg s i (TRunning node) node (sys_q s) sg (-1)); try done; [| | |apply ext_refl|by right|lia].
  - intros n' h. cbn. congruence.
  - intros t Ht. by simplify_eq.
  - intros i' r' c' [= <- <- <-]. done.
Qed.

(** No check fails, no access is out of range and the fuel is enough, whatever
    happens next; and the invariant is preserved. *)
Lemma sys_step_inv sg s e o : SysInv sg s -> sys_step s e = Some o -> step_outcome sg s e o.
Proof.
  intros SI. destruct e as [i c|i sig ex c|i r c|i|[i|]].
  - by apply step_loop.
  - by apply step_signed.
  - by apply step_executed.
  - cbn. destruct (sys_threads s !! i) as [[]|] eqn:Hi; try done. intros [= <-].
    assert (Hlt : (i < length (sys_threads s))%nat) by by eapply lookup_lt_Some.
    assert (W : woken (sys_threads s) (<[i := TReady]> (sys_threads s))).
    { replace (<[i := TReady]> (sys_threads s)) with (alter unwait i (sys_threads s)); [apply woken_alter|].
      apply list_eq. intros k. destruct (decide (k = i)) as [ -> |].
      - by rewrite list_lookup_alter_eq, list_lookup_insert_eq, Hi.
      - by rewrite list_lookup_alter_ne, list_lookup_insert_ne. }
    apply idle_outcome; [|done..]. by apply woken_inv.
  - cbn [sys_step]. destruct (sys_threads s !! i) as [[]|] eqn:Hi; try done.
    unfold loop_iteration. destruct (ShouldKeepBuilding _ _ _) eqn:Hk; [|done].
    destruct (decide (contents (sys_q s) = [])) as [Hc|Hc].
    + rewrite (NextNode_empty cfg mm sg) by (done || apply SI). cbn [mbind res_bind]. intros [= <-].
      apply idle_outcome; [|done..]. eapply (idle_inv sg s i TWaiting); auto. apply woken_insert_map.
    + destruct (NextNode_spec cfg mm SO sg _ (si_inv _ _ SI) Hc) as (n & st & s0 & q1 & -> & _). cbn [mbind res_bind].
      destruct (AdvanceNode q1 n) as [[q2 susp]|]; [|done]. by destruct susp.
  - intros [= <-]. apply idle_outcome; [|done..].
    apply woken_inv; [done|apply woken_map].
Qed.

(** ** No deadlock *)

Lemma pend_nonneg i s : 0 <= pend_w i s.
Proof. unfold pend_w. case_match; lia. Qed.

(** An unfinished node of the current pass has something to do: it is in the
    ring, or a thread holds it. Blocked and parked nodes alone are impossible. *)
Lemma progress_possible sg s : SysInv sg s -> 0 < q_PendingNodeCount (sys_q s) ->
  contents (sys_q s) <> [] \/ exists i t n h, sys_threads s !! i = Some t /\ holds t = Some (n, h).
Proof.
  intros SI HP. pose proof (si_inv _ _ SI) as I. pose proof (inv_base _ _ _ _ _ _ I) as B.
  destruct (decide (contents (sys_q s) = [])) as [Hc|]; [right|by left].
  destruct (decide (Exists (fun t => is_Some (holds t)) (sys_threads s))) as [He|Hne].
  { apply Exists_exists in He as (t & [i Hi]%list_elem_of_lookup & [[n h] Hh]). eauto 6. }
  exfalso. assert (Hst : forall i t, sg !!z i = Some t -> is_current t = true -> is_done t = false -> t = SBlocked \/ t = SWait).
  { intros i t Ht Hcur Hd. destruct t; try done; auto; exfalso.
    1-3: assert (Hin : i ∈ contents (sys_q s)) by (apply (proj2 (iv_contents _ _ _ _ _ _ I)); eauto);
         rewrite Hc in Hin; by apply elem_of_nil in Hin.
    1-2: destruct (fun H => si_held _ _ SI i _ H Ht) as (k & u & Hu & Hh); [done|]; apply Hne, Exists_exists;
         exists u; split; [by eapply list_elem_of_lookup_2|by rewrite Hh].
    apply (iv_hand _ _ _ _ _ _ I) in Ht. done. }
  assert (Hnw : forall i, sg !!z i <> Some SWait).
  { intros i Hi. assert (Hin : i ∈ parked (sys_q s)) by (apply (proj2 (iv_wait _ _ _ _ _ _ I)); eauto).
    assert (Hw : 0 < q_ExpensiveWaitCount (sys_q s)).
    { pose proof (iv_waitcount _ _ _ _ _ _ I). destruct (decide (q_ExpensiveWaitCount (sys_q s) = 0)) as [E|]; [|lia].
      unfold parked in Hin. rewrite E in Hin. by apply elem_of_nil in Hin. }
    pose proof (iv_parked _ _ _ _ _ _ I Hw) as Hk. rewrite (iv_running _ _ _ _ _ _ I) in Hk. cbn in Hk.
    rewrite !cnt_all_zero in Hk.
    - pose proof (so_maxexp _ _ SO). lia.
    - intros k t Ht. rewrite <- zlookup_nat in Ht. destruct t; try done. by destruct (Hst _ _ Ht).
    - intros k t Ht. rewrite <- zlookup_nat in Ht. destruct t; try done. by destruct (Hst _ _ Ht). }
  destruct (so_rank _ _ SO) as [rank Hrank].
  assert (Hall : forall m i, (rank i < m)%nat -> sg !!z i <> Some SBlocked).
  { induction m as [|m IH]; intros i Hm Hi; [lia|]. destruct (sg_node _ _ B _ _ Hi) as [st Hstt].
    destruct (iv_prog _ _ _ _ _ _ I _ _ _ Hi Hstt) as (_ & [(j & t & Hd & Hj & Hnd)|[]]).
    assert (Hcur : is_current t = true).
    { destruct Hd as (nd & d & Hndi & Hin & Hrm). destruct (so_deps _ _ SO i nd d Hndi Hin) as (j' & nd' & Hj' & _ & Hnd' & Hle).
      simplify_eq. pose proof (iv_pass _ _ _ _ _ _ I _ _ _ Hj Hnd'). pose proof (iv_pass _ _ _ _ _ _ I _ _ _ Hi Hndi).
      destruct t; try done; cbn in *. lia. }
    destruct (Hst j t Hj Hcur Hnd) as [ -> | -> ]; [|by apply Hnw in Hj].
    apply (IH j); [|done]. specialize (Hrank i j Hd). lia. }
  rewrite (iv_pending _ _ _ _ _ _ I), cnt_all_zero in HP; [done|].
  intros k t Ht. rewrite <- zlookup_nat in Ht. unfold pend_w. destruct (is_current t && negb (is_done t)) eqn:E; [|done].
  apply andb_true_iff in E as [E1 E2%negb_true_iff]. destruct (Hst _ _ Ht E1 E2) as [ -> | -> ]; [|by apply Hnw in Ht].
  by apply (Hall (S (rank (Z.of_nat k)))) in Ht; [|lia].
Qed.

(** While the main thread is in its loop some thread is awake. *)
Lemma some_awake sg s : SysInv sg s -> sys_threads s !! 0%nat <> Some TExited ->
  exists i t, sys_threads s !! i = Some t /\ awake t = true.
Proof.
  intros SI H0. destruct (lookup_lt_is_Some_2 (sys_threads s) 0%nat (si_main _ _ SI)) as [t0 Ht0].
  destruct (awake t0) eqn:Ha; [eauto|]. destruct t0; try done.
  pose proof (si_waiting _ _ SI _ Ht0) as Hk.
  assert (HP : 0 < q_PendingNodeCount (sys_q s)).
  { unfold ShouldKeepBuilding in Hk. repeat case_match; try done. by apply Z.ltb_lt. }
  destruct (progress_possible sg s SI HP) as [Hc|(i & t & n & h & Hi & Hh)].
  - by destruct Hc; apply (si_empty _ _ SI) in Ht0.
  - exists i, t. split; [done|]. by destruct t.
Qed.

(** ** Fair executions end *)

Definition inside (t : thread_pc) : Z := match t with TExited => 0 | _ => 1 end.
Fixpoint threads_inside (ts : list thread_pc) : Z :=
  match ts with [] => 0 | t :: ts' => inside t + threads_inside ts' end.

Lemma inside_range t : 0 <= inside t <= 1.
Proof. destruct t; cbn; lia. Qed.

Lemma threads_inside_range ts : 0 <= threads_inside ts <= zlen ts.
Proof.
  induction ts as [|t ts IH]; [cbn; lia|]. rewrite length_cons. pose proof (inside_range t).
  change (threads_inside (t :: ts)) with (inside t + threads_inside ts). lia.
Qed.

Lemma threads_inside_woken ts ts' : woken ts ts' -> threads_inside ts' = threads_inside ts.
Proof.
  induction 1 as [|t t' ts ts' Ht _ IH]; [done|]. cbn. rewrite IH. by destruct Ht as [ -> | [ -> -> ] ].
Qed.

Lemma threads_inside_insert ts i t pc : ts !! i = Some t ->
  threads_inside (<[i := pc]> ts) = threads_inside ts - inside t + inside pc.
Proof.
  revert i. induction ts as [|x ts IH]; intros [|i] Hi; cbn in Hi; simplify_eq; cbn; [lia|].
  change (list_insert i pc ts) with (<[i := pc]> ts). rewrite IH by done. lia.
Qed.

Lemma step_inside s e s' : sys_step s e = Some (OK s') ->
  threads_inside (sys_threads s') <= threads_inside (sys_threads s) /\ length (sys_threads s') = length (sys_threads s) /\
  forall i, mover e = Some i -> sys_threads s' !! i = Some TExited ->
  threads_inside (sys_threads s') + 1 <= threads_inside (sys_threads s).
Proof.
  intros [(Hm & W & _)|(i & pc & Hm & W & _ & (t & Ht & Hne) & _)]%step_shape.
  - rewrite (threads_inside_woken _ _ W), <- (Forall2_length _ _ _ W). split_and!; [lia|done|congruence].
  - rewrite (threads_inside_woken _ _ W), (threads_inside_insert _ _ _ _ Ht), <- (Forall2_length _ _ _ W), length_insert.
    pose proof (inside_range pc). assert (inside t = 1) by by destruct t. split_and!; [lia|done|].
    intros k Hk Hx. simplify_eq. apply (woken_exited _ _ W) in Hx. rewrite list_lookup_insert_eq in Hx by (by eapply lookup_lt_Some).
    simplify_eq. cbn. lia.
Qed.

Definition meas (sg : list status) (s : sys) : Z :=
  work sg * (zlen (sys_threads s) + 1) + threads_inside (sys_threads s).

Lemma work_nonneg sg : 0 <= work sg.
Proof. apply cnt_nonneg, work_w_nonneg. Qed.

Lemma meas_nonneg sg s : 0 <= meas sg s.
Proof. unfold meas. pose proof (work_nonneg sg). pose proof (threads_inside_range (sys_threads s)). nia. Qed.

(** A step lowers the measure, or it is an idle one that keeps a thread inside. *)
Lemma step_meas sg s e s' : SysInv sg s -> sys_step s e = Some (OK s') ->
  exists sg', SysInv sg' s' /\ (meas sg' s' < meas sg s \/
    (sg' = sg /\ sys_q s' = sys_q s /\ meas sg' s' = meas sg s /\ idle_event s e s' /\
     forall i, mover e = Some i -> sys_threads s' !! i <> Some TExited)).
Proof.
  intros SI Hs. destruct (sys_step_inv sg s e _ SI Hs) as (s1 & sg' & [= <-] & SI' & _ & _ & _ & Hc).
  destruct (step_inside s e s' Hs) as (Hle & Hlen & Hx). exists sg'. split; [done|].
  pose proof (threads_inside_range (sys_threads s')). pose proof (threads_inside_range (sys_threads s)).
  unfold meas. rewrite Hlen in *. destruct Hc as [Hw|( -> & Hq & Hid)]; [left; nia|].
  destruct (decide (threads_inside (sys_threads s') < threads_inside (sys_threads s))); [left; lia|right].
  split_and!; try done; [lia|]. intros i Hm Hi. specialize (Hx i Hm Hi). lia.
Qed.

Section Fair.
Context (sigma : nat -> sys) (ev : nat -> event).
Hypothesis steps : forall n, sys_step (sigma n) (ev n) = Some (OK (sigma (S n))).
(** A thread that can run does run, sooner or later. *)
Hypothesis fair : forall n k t, sys_threads (sigma n) !! k = Some t -> awake t = true ->
  exists m, (n <= m)%nat /\ mover (ev m) = Some k.

Lemma fair_first n k t : sys_threads (sigma n) !! k = Some t -> awake t = true ->
  exists m, (n <= m)%nat /\ mover (ev m) = Some k /\ sys_threads (sigma m) !! k = Some t.
Proof.
  intros Hk Ha. destruct (fair n k t Hk Ha) as (m & Hm & Hmv). remember (m - n)%nat as d eqn:Ed.
  revert n Hk Hm Ed. induction d as [|d IH]; intros n Hk Hm Ed.
  - assert (m = n) as -> by lia. eauto.
  - destruct (decide (mover (ev n) = Some k)); [eauto|].
    destruct (IH (S n)) as (m' & ? & ? & ?); [by eapply step_other|lia|lia|]. exists m'. split; [lia|done].
Qed.

Lemma run_to n m sg : (n <= m)%nat -> SysInv sg (sigma n) ->
  (exists j sg', (n <= j)%nat /\ SysInv sg' (sigma j) /\ meas sg' (sigma j) < meas sg (sigma n)) \/
  (SysInv sg (sigma m) /\ sys_q (sigma m) = sys_q (sigma n) /\ meas sg (sigma m) = meas sg (sigma n)).
Proof.
  intros Hm SI. induction Hm as [|m Hm IH]; [by right|]. destruct IH as [?|(SIm & Hq & Hme)]; [by left|].
  destruct (step_meas sg _ _ _ SIm (steps m)) as (sg' & SI' & [Hlt|( -> & Hq' & Hme' & _)]).
  - left. exists (S m), sg'. split_and!; [lia|done|lia].
  - right. split_and!; [done|congruence|lia].
Qed.

(** Some awake thread whose next move lowers the measure. *)
Lemma actor sg s : SysInv sg s -> sys_threads s !! 0%nat <> Some TExited ->
  exists k t, sys_threads s !! k = Some t /\ awake t = true /\
  forall s1 e s2, SysInv sg s1 -> sys_q s1 = sys_q s -> sys_threads s1 !! k = Some t -> mover e = Some k ->
  sys_step s1 e = Some (OK s2) -> idle_event s1 e s2 -> sys_threads s2 !! k = Some TExited.
Proof.
  intros SI H0. destruct (decide (Exists (fun t => is_Some (holds t)) (sys_threads s))) as [He|Hne].
  { apply Exists_exists in He as (t & [i Hi]%list_elem_of_lookup & [[n h] Hh]). exists i, t. split; [done|].
    split; [by destruct t|]. intros s1 e s2 _ _ Hi1 Hm Hs Hid.
    destruct e; cbn in Hm; simplify_eq; cbn [sys_step] in Hs; rewrite Hi1 in Hs; destruct t; done. }
  assert (Hready : forall k t, sys_threads s !! k = Some t -> awake t = true -> t = TReady).
  { intros k t Hk Ha. destruct t; try done; exfalso; apply Hne, Exists_exists; eexists;
      (split; [by eapply list_elem_of_lookup_2|by eexists]). }
  assert (Hloop : forall k, sys_threads s !! k = Some TReady ->
    (forall sig, ShouldKeepBuilding sig (sys_q s) k = true -> contents (sys_q s) <> []) ->
    exists k t, sys_threads s !! k = Some t /\ awake t = true /\
    forall s1 e s2, SysInv sg s1 -> sys_q s1 = sys_q s -> sys_threads s1 !! k = Some t -> mover e = Some k ->
    sys_step s1 e = Some (OK s2) -> idle_event s1 e s2 -> sys_threads s2 !! k = Some TExited).
  { intros k Hk Hc. exists k, TReady. split_and!; [done..|]. intros s1 e s2 _ Hq Hk1 Hm Hs Hid.
    destruct e; cbn in Hm; simplify_eq; cbn [sys_step] in Hs; rewrite Hk1 in Hs; try done.
    all: cbn in Hid; rewrite Hq in Hid.
    - destruct (ShouldKeepBuilding (sys_signalled s1) (sys_q s) k) eqn:E; [|done]. by destruct (Hc _ E).
    - destruct Hid as [E Hid]. by destruct (Hc _ E). }
  destruct (decide (contents (sys_q s) = [])) as [Hc|Hc].
  2:{ destruct (some_awake sg s SI H0) as (k & t & Hk & Ha). rewrite (Hready k t Hk Ha) in Hk. by apply (Hloop k). }
  assert (HP : forall sig, ShouldKeepBuilding sig (sys_q s) 0 = true -> contents (sys_q s) <> []).
  { intros sig Hk. assert (HP : 0 < q_PendingNodeCount (sys_q s)).
    { unfold ShouldKeepBuilding in Hk. repeat case_match; try done. by apply Z.ltb_lt. }
    destruct (progress_possible sg s SI HP) as [?|(i & t & n & h & Hi & Hh)]; [done|].
    destruct Hne. apply Exists_exists. exists t. split; [by eapply list_elem_of_lookup_2|by rewrite Hh]. }
  destruct (lookup_lt_is_Some_2 (sys_threads s) 0%nat (si_main _ _ SI)) as [t0 Ht0].
  apply (Hloop 0%nat); [|done]. destruct (awake t0) eqn:Ha; [by rewrite (Hready _ _ Ht0 Ha) in Ht0|].
  destruct t0; try done. apply (si_waiting _ _ SI) in Ht0. by destruct (HP _ Ht0).
Qed.

Lemma fair_main n sg : SysInv sg (sigma n) -> exists m, (n <= m)%nat /\ sys_threads (sigma m) !! 0%nat = Some TExited.
Proof.
  remember (Z.to_nat (meas sg (sigma n))) as w eqn:Ew. revert n sg Ew.
  induction (lt_wf w) as [w _ IH]. intros n sg -> SI.
  destruct (decide (inside (default TReady (sys_threads (sigma n) !! 0%nat)) = 0)) as [Hx|Hx].
  { exists n. split; [done|]. destruct (sys_threads (sigma n) !! 0%nat) as [[]|]; done. }
  destruct (actor sg (sigma n) SI) as (k & t & Hk & Ha & Hact).
  { intros E. by rewrite E in Hx. }
  destruct (fair_first n k t Hk Ha) as (m & Hm & Hmv & Hkm).
  assert (Hdown : forall j sg', (n <= j)%nat -> SysInv sg' (sigma j) -> meas sg' (sigma j) < meas sg (sigma n) ->
    exists m, (n <= m)%nat /\ sys_threads (sigma m) !! 0%nat = Some TExited).
  { intros j sg' Hj SIj Hlt. pose proof (meas_nonneg sg' (sigma j)).
    destruct (IH (Z.to_nat (meas sg' (sigma j))) ltac:(lia) j sg' eq_refl SIj) as (m' & ? & ?). exists m'. split; [lia|done]. }
  destruct (run_to n m sg Hm SI) as [(j & sg' & Hj & SIj & Hlt)|(SIm & Hq & Hme)]; [by eapply Hdown|].
  destruct (step_meas sg _ _ _ SIm (steps m)) as (sg' & SI' & [Hlt|( -> & Hq' & _ & Hid & Hin)]).
  - apply (Hdown (S m) sg'); [lia|done|lia].
  - destruct (Hin k Hmv). by apply (Hact (sigma m) (ev m)).
Qed.

End Fair.

End Sys.
