(* ===== verification/BuildQueueRun.v ===== *)
(** * Builds: passes over the scheduler

    [BuildQueueInit], [BuildQueueBuildNodeRange] and the pass loop of
    [DriverBuild] (src/src/BuildQueue.cpp, src/src/Driver.cpp) around the
    system of [BuildQueueSys]: a [session] is what can happen between
    [BuildQueueInit] and [BuildQueueDestroy]. *)

From S2P Require Import Prelude CommonFns Hash HashImpl DagData BuildQueue BuildQueueRing BuildQueueInv BuildQueueSys.

(** ** Filling the queue *)

(** The state [fill_range] leaves behind. *)
Lemma fill_range_spec start i n q :
  (forall j, i <= j < i + Z.of_nat n -> exists st, q_NodeState q !!z (start + j) = Some st /\ ns_Progress st = kInitial) ->
  0 <= i -> i + Z.of_nat n <= zlen (q_Queue q) ->
  exists ns r, fill_range q start i n = OK (with_ring r (q_QueueReadIndex q) (q_QueueWriteIndex q) (with_nodes ns q)) /\
  length ns = length (q_NodeState q) /\ length r = length (q_Queue q) /\
  (forall k, ns !!z k = if bool_decide (start + i <= k < start + i + Z.of_nat n)
     then NodeStateFlagQueued <$> (q_NodeState q !!z k) else q_NodeState q !!z k) /\
  (forall k, r !!z k = if bool_decide (i <= k < i + Z.of_nat n) then Some (start + k) else q_Queue q !!z k).
Proof.
  revert i q. induction n as [|n IH]; intros i q Hst Hi Hlen.
  { exists (q_NodeState q), (q_Queue q). split_and!; try done; [by destruct q|..];
      intros k; rewrite bool_decide_false by lia; done. }
  destruct (Hst i) as (st & Hs & Hp); [lia|]. pose proof (zlookup_lt _ _ _ Hs).
  cbn [fill_range]. rewrite (upd_node_eq _ _ _ st) by done. cbn [mbind res_bind].
  unfold get_node. cbn [with_nodes q_NodeState]. rewrite zlookup_insert_eq by done. cbn [of_opt mbind res_bind].
  unfold check. rewrite bool_decide_true by done. cbn [mbind res_bind with_nodes q_Queue]. rewrite zwrite_ok by lia. cbn [mbind res_bind].
  set (q1 := with_ring _ _ _ _).
  destruct (IH (i + 1) q1) as (ns & r & -> & Hln & Hlr & Hns & Hr).
  - intros j Hj. destruct (Hst j) as (st' & Hs' & Hp'); [lia|]. exists st'. split; [|done].
    cbn. rewrite zlookup_insert_ne by lia. done.
  - lia.
  - cbn. rewrite zinsert_length. lia.
  - exists ns, r. split_and!; [done|..].
    + rewrite Hln. cbn. by rewrite zinsert_length.
    + rewrite Hlr. cbn. by rewrite zinsert_length.
    + intros k. rewrite Hns. cbn. destruct (decide (k = start + i)) as [ -> |].
      * rewrite bool_decide_false, bool_decide_true by lia. rewrite zlookup_insert_eq by done. by rewrite Hs.
      * rewrite zlookup_insert_ne by done. repeat case_bool_decide; done || lia.
    + intros k. rewrite Hr. cbn. destruct (decide (k = i)) as [ -> |].
      * rewrite bool_decide_false, bool_decide_true by lia. apply zlookup_insert_eq. lia.
      * rewrite zlookup_insert_ne by done. repeat case_bool_decide; done || lia.
Qed.

(** [BuildQueueBuildNodeRange] up to [BuildLoop], in the main thread, which is
    not in the loop. *)
Definition start_pass (s : sys) (start_index count pass_index : Z) : res sys :=
  q ← BuildNodeRange_begin (sys_q s) start_index count pass_index;
  OK (mkSys (with_wakes [] q) (<[0%nat := TReady]> (map unwait (sys_threads s))) (sys_signalled s)).

Section Run.
Context (cfg : BuildQueueConfig) (mm : list Z).
Hypothesis SO : static_ok cfg mm.

(** ** Starting a pass *)

(** The queue before pass [p]: earlier passes are complete, later ones have not
    been touched. *)
Record Fresh (p : Z) (q : BuildQueue) : Prop := {
  fr_cfg : q_Config q = cfg;
  fr_mm : map ns_MmapData (q_NodeState q) = mm;
  fr_past i st nd : q_NodeState q !!z i = Some st -> ndata cfg mm i = Some nd -> nd_PassIndex nd < p ->
    ns_Progress st = kCompleted /\ ns_BuildResult st = 0;
  fr_next i st nd : q_NodeState q !!z i = Some st -> ndata cfg mm i = Some nd -> p <= nd_PassIndex nd ->
    ns_Progress st = kInitial /\ ns_Flags st = 0;
  fr_cap : (exists k, 0 <= k <= 31 /\ q_QueueCapacity q = 2 ^ k) /\ cfg_MaxNodes cfg < q_QueueCapacity q;
  fr_ring : zlen (q_Queue q) = q_QueueCapacity q;
  fr_wait : zlen (q_ExpensiveWaitList q) = q_QueueCapacity q /\ q_ExpensiveWaitCount q = 0;
  fr_running : q_ExpensiveRunning q = 0
}.

Definition begin_status (p d : Z) : status :=
  match cfg_NodeData cfg !!z d with
  | Some nd => if nd_PassIndex nd <? p then SPast else if p <? nd_PassIndex nd then SFuture else SRingI
  | None => SPast
  end.

Definition begin_sg (p : Z) : list status := map (begin_status p) mm.

Lemma begin_lookup p i s : begin_sg p !!z i = Some s -> exists nd, ndata cfg mm i = Some nd /\
  ((s = SPast /\ nd_PassIndex nd < p) \/ (s = SFuture /\ p < nd_PassIndex nd) \/ (s = SRingI /\ nd_PassIndex nd = p)).
Proof.
  unfold begin_sg. rewrite zlookup_map. destruct (mm !!z i) as [d|] eqn:E; [|done]. intros [= <-].
  destruct (so_data _ _ SO i d E) as [[nd Hnd] _]. exists nd. unfold ndata, begin_status. rewrite E, Hnd.
  split; [done|]. destruct (Z.ltb_spec (nd_PassIndex nd) p); [auto|]. destruct (Z.ltb_spec p (nd_PassIndex nd)); [auto|].
  right. right. split; [done|lia].
Qed.

Lemma begin_is p i nd : ndata cfg mm i = Some nd -> exists s, begin_sg p !!z i = Some s /\
  (is_ring s = true <-> nd_PassIndex nd = p).
Proof.
  intros Hnd. unfold ndata in Hnd. destruct (mm !!z i) as [d|] eqn:E; [|done].
  exists (begin_status p d). unfold begin_sg. rewrite zlookup_map, E. split; [done|].
  unfold begin_status. rewrite Hnd.
  destruct (Z.ltb_spec (nd_PassIndex nd) p), (Z.ltb_spec p (nd_PassIndex nd)); cbn; split; done || lia.
Qed.

(** The nodes of pass [p] are [start .. start + count - 1]. *)
Definition pass_range (p start count : Z) : Prop :=
  0 <= start /\ 0 <= count /\ start + count <= zlen mm /\
  forall i nd, ndata cfg mm i = Some nd -> nd_PassIndex nd = p <-> start <= i < start + count.

Lemma mm_ndata i : 0 <= i < zlen mm -> exists nd, ndata cfg mm i = Some nd.
Proof.
  intros [d Hd]%zlookup_is_Some. unfold ndata. rewrite Hd. by apply (so_data _ _ SO) in Hd as [? _].
Qed.

Lemma begin_ring p start count : pass_range p start count -> lists is_ring (seqZ start count) (begin_sg p).
Proof.
  intros (H0 & H1 & H2 & Hr). split; [apply NoDup_seqZ|]. intros j. rewrite elem_of_seqZ. split.
  - intros Hj. destruct (mm_ndata j) as [nd Hnd]; [lia|].
    destruct (begin_is p j nd Hnd) as (s & Hs & Hi). exists s. split; [done|]. apply Hi, (Hr j nd Hnd). lia.
  - intros (s & Hs & Hi). destruct (begin_lookup p j s Hs) as (nd & Hnd & Hc).
    apply (Hr j nd Hnd). destruct Hc as [[ -> ?]|[[ -> ?]|[ -> ?]]]; done.
Qed.

Lemma cnt_lists (P : status -> bool) l : P SFuture = false ->
  forall sg, lists P l sg -> cnt (fun _ s => if P s then 1 else 0) 0 sg = zlen l.
Proof.
  intros EF. induction l as [|x l IH]; intros sg [Hn Hl].
  - cbn. apply cnt_all_zero. intros k s Hk. destruct (P s) eqn:E; [|done].
    assert (Hx : Z.of_nat k ∈ @nil Z) by (apply Hl; exists s; rewrite zlookup_nat; done). by apply elem_of_nil in Hx.
  - destruct (proj1 (Hl x)) as (s & Hs & HP); [set_solver|].
    pose proof (lists_remove P sg x s SFuture Hs [] l EF (conj Hn Hl)) as H1. cbn in H1.
    specialize (IH _ H1). rewrite (cnt_insert _ _ _ _ _ Hs), HP, EF in IH. cbn. lia.
Qed.

Lemma cnt_ext f g i sg : (forall k s, sg !! k = Some s -> f (i + Z.of_nat k) s = g (i + Z.of_nat k) s) ->
  cnt f i sg = cnt g i sg.
Proof.
  revert i. induction sg as [|x sg IH]; intros i H; [done|]. cbn.
  pose proof (H O x eq_refl) as E. rewrite Z.add_0_r in E. rewrite E. f_equal. apply IH.
  intros k s Hk. specialize (H (S k) s Hk). by replace (i + 1 + Z.of_nat k) with (i + Z.of_nat (S k)) by lia.
Qed.

Lemma begin_cnt_zero f p : (forall i, f i SPast = 0) -> (forall i, f i SFuture = 0) -> (forall i, f i SRingI = 0) ->
  cnt f 0 (begin_sg p) = 0.
Proof.
  intros H1 H2 H3. apply cnt_all_zero. intros k s Hk. rewrite <- zlookup_nat in Hk.
  destruct (begin_lookup p _ s Hk) as (nd & _ & [[ -> _]|[[ -> _]|[ -> _]]]); auto.
Qed.

Lemma begin_pending p start count : pass_range p start count -> cnt pend_w 0 (begin_sg p) = count.
Proof.
  intros H. rewrite (cnt_ext _ (fun _ s => if is_ring s then 1 else 0)).
  - rewrite (cnt_lists is_ring (seqZ start count)); [|done|by apply begin_ring].
    destruct H as (_ & ? & _). rewrite length_seqZ. lia.
  - intros k s Hk. rewrite <- zlookup_nat in Hk.
    by destruct (begin_lookup p _ s Hk) as (nd & _ & [[ -> _]|[[ -> _]|[ -> _]]]).
Qed.

(** Every node after the range was flagged. *)
Lemma begin_nodes p start count q ns : Fresh p q -> pass_range p start count ->
  (forall k, ns !!z k = if bool_decide (start <= k < start + count)
     then NodeStateFlagQueued <$> (q_NodeState q !!z k) else q_NodeState q !!z k) ->
  forall i s st, begin_sg p !!z i = Some s -> ns !!z i = Some st ->
  flags_ok s (ns_Flags st) /\ prog_ok cfg mm (begin_sg p) no_pend i s (ns_Progress st) /\ result_ok s (ns_BuildResult st).
Proof.
  intros F (_ & _ & _ & Hr) Hns i s st Hs. rewrite Hns. destruct (begin_lookup p i s Hs) as (nd & Hnd & Hcase).
  pose proof (Hr i nd Hnd) as Hri. case_bool_decide as Eb.
  - destruct (q_NodeState q !!z i) as [st0|] eqn:E0; [|done]. intros [= <-].
    destruct Hcase as [[ -> ?]|[[ -> ?]|[ -> ?]]]; try (exfalso; lia).
    destruct (fr_next _ _ F _ _ _ E0 Hnd) as [Hp Hf]; [lia|]. cbn. by rewrite Hf.
  - intros Hst. destruct Hcase as [[ -> ?]|[[ -> ?]|[ -> ?]]]; try (exfalso; lia).
    + destruct (fr_past _ _ F _ _ _ Hst Hnd) as [Hp Hf]; done.
    + destruct (fr_next _ _ F _ _ _ Hst Hnd) as [Hp Hf]; [lia|]. done.
Qed.

(** [BuildQueueBuildNodeRange] up to its loop establishes the invariant. *)
Lemma begin_inv p start count q : Fresh p q -> pass_range p start count ->
  exists q', BuildNodeRange_begin q start count p = OK q' /\ Inv cfg mm (begin_sg p) q' None no_pend /\
  q_PendingNodeCount q' = count /\ q_FailedNodeCount q' = 0 /\ q_CurrentPassIndex q' = p /\
  q_QuitSignalled q' = q_QuitSignalled q /\ contents q' = seqZ start count.
Proof.
  intros F HR. pose proof HR as (H0 & H1 & H2 & Hr). pose proof (so_len _ _ SO) as Hml.
  destruct (fr_cap _ _ F) as [[kc [Hkc Hcap]] Hmax].
  assert (Hlm : zlen (q_NodeState q) = zlen mm) by (rewrite <- (fr_mm _ _ F), length_map; done).
  unfold BuildNodeRange_begin, check. rewrite (fr_cfg _ _ F), (proj2 (Z.leb_le _ _)) by lia. cbn [mbind res_bind].
  destruct (fill_range_spec start 0 (Z.to_nat count) (with_pass p (q_QuitSignalled q) q)) as (ns & r & -> & Hln & Hlr & Hns & Hrr).
  - intros j Hj. destruct (mm_ndata (start + j)) as [nd Hnd]; [lia|].
    destruct (zlookup_is_Some (q_NodeState q) (start + j)) as [st Hst]; [lia|]. exists st. split; [done|].
    apply (fr_next _ _ F _ _ _ Hst Hnd). apply Z.eq_le_incl. symmetry. apply (Hr _ _ Hnd). lia.
  - done.
  - cbn. rewrite (fr_ring _ _ F). lia.
  - cbn [mbind res_bind]. eexists. split; [done|].
    set (q' := log_wake _ _). change (q_NodeState (with_pass p _ q)) with (q_NodeState q) in *.
    change (q_Queue (with_pass p _ q)) with (q_Queue q) in *. rewrite Z.add_0_r in Hns. rewrite Z2Nat.id in * by done.
    assert (Rok : ring_ok q').
    { split; [eauto|]. cbn. rewrite Hlr, (fr_ring _ _ F). split; [done|]. lia. }
    assert (Ha : AvailableNodeCount q' = count).
    { rewrite avail_mod by done. cbn. rewrite Z.sub_0_r. apply Z.mod_small. lia. }
    assert (Hc : contents q' = seqZ start count).
    { unfold contents. rewrite Ha. 
      replace (seqZ start count) with (Z.add start <$> seqZ 0 count) by (by rewrite fmap_add_seqZ, Z.add_0_r).
      apply map_ext_in. intros k Hk%list_elem_of_In. apply elem_of_seqZ in Hk. unfold ring_at. cbn.
      rewrite Z.mod_small by lia. rewrite Hrr, bool_decide_true by lia. done. }
    split; [|done]. split.
    + apply F.
    + cbn. rewrite <- (fr_mm _ _ F). apply list_eq. intros k. change (map ns_MmapData ?l) with (ns_MmapData <$> l).
      rewrite !list_lookup_fmap, <- !zlookup_nat, Hns. case_bool_decide; [|done]. by destruct (q_NodeState q !!z _).
    + unfold begin_sg. rewrite length_map. cbn. rewrite Hln. lia.
    + intros i s st Hs Hst. by apply (begin_nodes p start count q ns F HR Hns i s st).
    + intros i s st Hs Hst. by apply (begin_nodes p start count q ns F HR Hns i s st).
    + intros i s st Hs Hst. by apply (begin_nodes p start count q ns F HR Hns i s st).
    + intros i s nd Hs Hnd. destruct (begin_lookup p i s Hs) as (nd' & Hnd' & Hcase). simplify_eq.
      destruct Hcase as [[ -> ?]|[[ -> ?]|[ -> ?]]]; done.
    + done.
    + done.
    + rewrite Hc. by apply begin_ring.
    + apply F.
    + cbn. rewrite (proj2 (fr_wait _ _ F)). lia.
    + unfold parked. cbn. rewrite (proj2 (fr_wait _ _ F)). split; [apply NoDup_nil_2|].
      intros j. split; [by intros ?%elem_of_nil|]. intros (s & Hs & Hw).
      by destruct (begin_lookup p j s Hs) as (nd & _ & [[ -> _]|[[ -> _]|[ -> _]]]).
    + intros i. split; [|done]. intros Hs. by destruct (begin_lookup p i _ Hs) as (nd & _ & [[? _]|[[? _]|[? _]]]).
    + cbn. by rewrite (begin_pending p start count).
    + cbn. by rewrite begin_cnt_zero.
    + cbn. rewrite (fr_running _ _ F). by rewrite begin_cnt_zero.
    + cbn. rewrite (fr_running _ _ F). pose proof (so_maxexp _ _ SO). lia.
    + cbn. rewrite (proj2 (fr_wait _ _ F)). lia.
Qed.

(** ** Sessions *)

Definition pass_start (counts : list Z) (k : nat) : Z := foldr Z.add 0 (take k counts).

(** The nodes as [DriverPrepareNodes] leaves them. *)
Definition fresh_nodes (nodes : list NodeState) : Prop :=
  map ns_MmapData nodes = mm /\ forall i st, nodes !!z i = Some st -> ns_Progress st = kInitial /\ ns_Flags st = 0.

(** What can happen between [BuildQueueInit] and [BuildQueueDestroy] in the loop
    of [DriverBuild]: [session k r s] says the system can be in state [s] after
    [k] passes were begun, [r] being [build_result], which the main thread reads
    after its loop. *)
Inductive session (nodes : list NodeState) (counts : list Z) : nat -> option BuildResult -> sys -> Prop :=
| ses_init junk1 junk2 junk3 q :
    BuildQueueInit junk1 junk2 junk3 nodes cfg = OK q ->
    session nodes counts 0 (Some ResultOk)
      (mkSys q (TExited :: replicate (Z.to_nat (cfg_ThreadCount cfg - 1)) TReady) false)
| ses_event k r s e s' :
    session nodes counts k r s -> sys_step s e = Some (OK s') -> session nodes counts k r s'
| ses_result k s :
    session nodes counts k None s -> sys_threads s !! 0%nat = Some TExited ->
    session nodes counts k (Some (BuildNodeRange_result (sys_signalled s) (sys_q s))) s
| ses_pass k s c s' :
    session nodes counts k (Some ResultOk) s -> counts !! k = Some c ->
    start_pass s (pass_start counts k) c (Z.of_nat k) = OK s' ->
    session nodes counts (S k) None s'.

Lemma session_run nodes counts k r es : forall s s', session nodes counts k r s -> run s es = Some (OK s') ->
  session nodes counts k r s'.
Proof.
  induction es as [|e es IH]; intros s s' Hs; cbn; [by intros [= <-]|].
  destruct (sys_step s e) as [[s1|]|] eqn:E; try done. intros Hr. by apply (IH s1); [eapply ses_event|].
Qed.

(** Before the first pass the workers find nothing to do. *)
Record IdleInv (s : sys) : Prop := {
  id_fresh : Fresh 0 (sys_q s);
  id_quit : q_QuitSignalled (sys_q s) = false;
  id_ring : q_QueueReadIndex (sys_q s) = 0 /\ q_QueueWriteIndex (sys_q s) = 0;
  id_main : sys_threads s !! 0%nat = Some TExited;
  id_wakes : q_Wakes (sys_q s) = [];
  id_holds i t : sys_threads s !! i = Some t -> holds t = None
}.

Lemma idle_threads s i pc ts' : IdleInv s -> sys_threads s !! i = Some TReady -> holds pc = None ->
  woken (<[i := pc]> (sys_threads s)) ts' -> ts' !! 0%nat = Some TExited /\ forall k t, ts' !! k = Some t -> holds t = None.
Proof.
  intros I Hi Hpc W. split.
  - apply (woken_exited _ _ W). rewrite list_lookup_insert_ne; [apply I|]. intros ->. by rewrite (id_main _ I) in Hi.
  - intros k t Hk. destruct (woken_r _ _ W k t Hk) as (t0 & Hk0 & [ -> | [ -> -> ] ]); [|done].
    apply list_lookup_insert_Some in Hk0 as [(_ & <- & _)|[_ Hk0]]; [done|]. by eapply (id_holds _ I).
Qed.

Lemma idle_step s e o : IdleInv s -> sys_step s e = Some o -> exists s', o = OK s' /\ IdleInv s'.
Proof.
  intros I. assert (Hmk : forall ts' sig', ts' !! 0%nat = Some TExited -> (forall k t, ts' !! k = Some t -> holds t = None) ->
    IdleInv (mkSys (sys_q s) ts' sig')).
  { intros ts' sig' H0 H1. split; try done; apply I. }
  assert (Hnn : NextNode (sys_q s) = OK (sys_q s, None)).
  { unfold NextNode, AvailableNodeCount. by rewrite (proj1 (id_ring _ I)), (proj2 (id_ring _ I)). }
  destruct e as [i c|i sig ex c|i r c|i|[i|]]; cbn [sys_step].
  - destruct (sys_threads s !! i) as [[]|] eqn:Hi; try done. unfold loop_iteration.
    destruct (ShouldKeepBuilding _ _ _); rewrite ?Hnn; cbn [mbind res_bind commit];
      (destruct (wake _ _ _) as [ts'|] eqn:Hw; [|done]); intros [= <-]; apply wake_woken in Hw as [Hw _];
      rewrite (no_wakes _ (id_wakes _ I)); eexists; (split; [done|]);
      apply Hmk; by apply (idle_threads s i _ ts' I Hi) with (2 := Hw).
  - destruct (sys_threads s !! i) as [[]|] eqn:Hi; try done. by apply (id_holds _ I) in Hi.
  - destruct (sys_threads s !! i) as [[]|] eqn:Hi; try done. by apply (id_holds _ I) in Hi.
  - destruct (sys_threads s !! i) as [[]|] eqn:Hi; try done. intros [= <-]. eexists. split; [done|]. apply Hmk.
    + rewrite list_lookup_insert_ne; [apply I|]. intros ->. by rewrite (id_main _ I) in Hi.
    + intros k t [(_ & <- & _)|[_ Hk]]%list_lookup_insert_Some; [done|]. by eapply (id_holds _ I).
  - destruct (sys_threads s !! i) as [[]|] eqn:Hi; try done. unfold loop_iteration. destruct (ShouldKeepBuilding _ _ _); [|done].
    rewrite Hnn. cbn [mbind res_bind]. intros [= <-]. eexists. split; [done|].
    apply Hmk; by apply (idle_threads s i TWaiting _ I Hi) with (2 := woken_insert_map _ _ _).
  - intros [= <-]. eexists. split; [done|]. apply Hmk.
    + change (map unwait ?l) with (unwait <$> l). by rewrite list_lookup_fmap, (id_main _ I).
    + intros k t Hk. destruct (woken_r _ _ (woken_map _) k t Hk) as (t0 & Hk0 & [ -> | [ -> -> ] ]); [|done].
      by eapply (id_holds _ I).
Qed.

(** [BuildQueueInit] does not fail and leaves an empty queue. *)
Lemma init_idle j1 j2 j3 nodes q : fresh_nodes nodes -> (forall i nd, ndata cfg mm i = Some nd -> 0 <= nd_PassIndex nd) ->
  BuildQueueInit j1 j2 j3 nodes cfg = OK q ->
  IdleInv (mkSys q (TExited :: replicate (Z.to_nat (cfg_ThreadCount cfg - 1)) TReady) false).
Proof.
  intros [Hmm Hf] Hpass. unfold BuildQueueInit, check. case_match; [|done]. cbn [mbind res_bind].
  pose proof (so_max _ _ SO). pose proof (so_len _ _ SO).
  rewrite u32_small by (unfold in_u32; lia).
  destruct (NextPowerOfTwo_bounds (cfg_MaxNodes cfg + 1)) as (k & Hk & Ek & Hb); [lia|].
  rewrite NextPowerOfTwo_checked_OK by lia. cbn [mbind res_bind]. rewrite Ek. intros [= <-].
  split; cbn [sys_q sys_threads]; try done; [split|]; cbn; rewrite ?length_replicate; try done.
  - intros i st nd _ Hnd Hp. apply Hpass in Hnd. lia.
  - intros i st nd Hst _ _. by apply (Hf i).
  - split; [eauto|lia].
  - lia.
  - split; [lia|done].
  - intros [|i] t; cbn; [by intros [= <-]|]. by intros [-> _]%lookup_replicate.
Qed.

(** ** The invariant of a session *)

(** Why the main thread may have left its loop. *)
Definition main_out (s : sys) : Prop :=
  sys_threads s !! 0%nat = Some TExited ->
  sys_signalled s = true \/
  (0 < q_FailedNodeCount (sys_q s) /\ Z.land (cfg_Flags cfg) kFlagContinueOnError = 0) \/
  q_PendingNodeCount (sys_q s) = 0.

Definition SesInv (k : nat) (r : option BuildResult) (s : sys) : Prop :=
  match k with
  | O => IdleInv s /\ r = Some ResultOk
  | S k => exists sg, SysInv cfg mm sg s /\ q_CurrentPassIndex (sys_q s) = Z.of_nat k /\
      q_QuitSignalled (sys_q s) = false /\ main_out s /\
      (r = Some ResultOk -> q_PendingNodeCount (sys_q s) = 0 /\ q_FailedNodeCount (sys_q s) = 0)
  end.

Lemma pend_w_nonneg i s : 0 <= pend_w i s.
Proof. unfold pend_w. case_match; lia. Qed.

Lemma done_status sg s i t : SysInv cfg mm sg s -> q_PendingNodeCount (sys_q s) = 0 -> sg !!z i = Some t ->
  t = SPast \/ t = SFuture \/ exists b, t = SDone b.
Proof.
  intros SI H0 Hi. rewrite (iv_pending _ _ _ _ _ _ (si_inv _ _ _ _ SI)) in H0.
  pose proof (cnt_zero _ _ _ _ pend_w_nonneg H0 Hi) as Hz. destruct t; cbn in Hz; try done; eauto.
Qed.

Lemma done_work sg s : SysInv cfg mm sg s -> q_PendingNodeCount (sys_q s) = 0 -> work sg = 0.
Proof.
  intros SI H0. apply cnt_all_zero. intros k t Hk. rewrite <- zlookup_nat in Hk.
  by destruct (done_status sg s _ t SI H0 Hk) as [ -> | [ -> | [b -> ] ] ].
Qed.

Lemma failed_w_nonneg i s : 0 <= failed_w i s.
Proof. by destruct s as [| | | | | | | |[]| |]. Qed.

Lemma done_ok sg s i b : SysInv cfg mm sg s -> q_FailedNodeCount (sys_q s) = 0 -> sg !!z i = Some (SDone b) -> b = false.
Proof.
  intros SI H0 Hi. rewrite (iv_failed _ _ _ _ _ _ (si_inv _ _ _ _ SI)) in H0.
  pose proof (cnt_zero _ _ _ _ failed_w_nonneg H0 Hi) as Hz. by destruct b.
Qed.

Lemma done_fresh sg s : SysInv cfg mm sg s -> q_PendingNodeCount (sys_q s) = 0 -> q_FailedNodeCount (sys_q s) = 0 ->
  Fresh (q_CurrentPassIndex (sys_q s) + 1) (sys_q s).
Proof.
  intros SI H0 Hf0. pose proof (si_inv _ _ _ _ SI) as I. pose proof (inv_base _ _ _ _ _ _ I) as B. split.
  - apply I.
  - apply I.
  - intros i st nd Hst Hnd Hp. destruct (node_sg _ _ B _ _ Hst) as [t Ht].
    pose proof (iv_prog _ _ _ _ _ _ I _ _ _ Ht Hst) as Hpr. pose proof (iv_pass _ _ _ _ _ _ I _ _ _ Ht Hnd) as Hpa.
    pose proof (iv_result _ _ _ _ _ _ I _ _ _ Ht Hst) as Hre.
    destruct (done_status sg s i t SI H0 Ht) as [ -> | [ -> | [b -> ] ] ]; cbn in *; [done|lia|].
    rewrite (done_ok sg s i b SI Hf0 Ht) in Hre. by split; [apply Hpr|].
  - intros i st nd Hst Hnd Hp. destruct (node_sg _ _ B _ _ Hst) as [t Ht].
    pose proof (iv_prog _ _ _ _ _ _ I _ _ _ Ht Hst) as Hpr. pose proof (iv_pass _ _ _ _ _ _ I _ _ _ Ht Hnd) as Hpa.
    pose proof (iv_flags _ _ _ _ _ _ I _ _ _ Ht Hst) as Hfl.
    destruct (done_status sg s i t SI H0 Ht) as [ -> | [ -> | [b -> ] ] ]; cbn in *; [lia|done|lia].
  - split; [apply I|apply I].
  - apply I.
  - split; [apply I|]. pose proof (iv_waitcount _ _ _ _ _ _ I) as Hwc. pose proof (iv_waitlen _ _ _ _ _ _ I).
    pose proof (iv_cap _ _ _ _ _ _ I). pose proof (iv_wait _ _ _ _ _ _ I) as [_ Hl].
    destruct (decide (q_ExpensiveWaitCount (sys_q s) = 0)) as [|Hne]; [done|exfalso].
    destruct (parked (sys_q s)) as [|x l] eqn:Ep.
    { apply (f_equal length) in Ep. unfold parked in Ep. rewrite length_take in Ep. cbn in Ep. lia. }
    destruct (proj1 (Hl x)) as (t & Ht & Hw); [set_solver|].
    by destruct (done_status sg s x t SI H0 Ht) as [ -> | [ -> | [b -> ] ] ].
  - rewrite (iv_running _ _ _ _ _ _ I). apply cnt_all_zero. intros k t Hk. rewrite <- zlookup_nat in Hk.
    by destruct (done_status sg s _ t SI H0 Hk) as [ -> | [ -> | [b -> ] ] ].
Qed.

Lemma done_holds sg s i t : SysInv cfg mm sg s -> q_PendingNodeCount (sys_q s) = 0 ->
  sys_threads s !! i = Some t -> holds t = None.
Proof.
  intros SI H0 Hi. destruct (holds t) as [[n h]|] eqn:E; [|done]. pose proof (holds_held _ _ _ E) as Hh.
  pose proof (si_holds _ _ _ _ SI _ _ _ _ Hi E) as Hs.
  by destruct (done_status sg s n h SI H0 Hs) as [ -> | [ -> | [b -> ] ] ].
Qed.

(** Starting a pass over a finished one. *)
Lemma start_pass_inv s p start count : Fresh p (sys_q s) -> q_QuitSignalled (sys_q s) = false ->
  (forall i t, sys_threads s !! i = Some t -> holds t = None) -> (0 < length (sys_threads s))%nat ->
  pass_range p start count ->
  exists s', start_pass s start count p = OK s' /\ SysInv cfg mm (begin_sg p) s' /\
  q_CurrentPassIndex (sys_q s') = p /\ q_QuitSignalled (sys_q s') = false /\ sys_threads s' !! 0%nat = Some TReady /\
  q_PendingNodeCount (sys_q s') = count /\ q_FailedNodeCount (sys_q s') = 0 /\
  contents (sys_q s') = seqZ start count.
Proof.
  intros F Hq Hh Hlen HR. destruct (begin_inv p start count (sys_q s) F HR) as (q' & Eq & I & Hp & Hf & Hc & Hqs & Hco).
  unfold start_pass. rewrite Eq. cbn [mbind res_bind]. eexists. split; [done|].
  assert (Hmap : forall k t, map unwait (sys_threads s) !! k = Some t -> holds t = None /\ t <> TWaiting).
  { intros k t Hk. split; [|intros ->; by apply map_unwait_not_waiting in Hk].
    destruct (woken_r _ _ (woken_map _) k t Hk) as (t0 & Hk0 & [ -> | [ -> -> ] ]); [by eapply Hh|done]. }
  assert (Hth : forall k t, <[0%nat := TReady]> (map unwait (sys_threads s)) !! k = Some t -> holds t = None /\ t <> TWaiting).
  { intros k t [(_ & <- & _)|[_ Hk]]%list_lookup_insert_Some; [done|by eapply Hmap]. }
  split; [|cbn; rewrite Hqs; split_and!; try done; apply list_lookup_insert_eq; by rewrite length_map].
  split; cbn [sys_q sys_threads sys_signalled].
  - by apply inv_wakes.
  - done.
  - by rewrite length_insert, length_map.
  - intros i t n h Hi E. apply Hth in Hi as [Hi _]. congruence.
  - intros i i' t t' n h h' Hi _ E. apply Hth in Hi as [Hi _]. congruence.
  - intros n h Hh' Hs. by destruct (begin_lookup p n h Hs) as (nd & _ & [[ -> _]|[[ -> _]|[ -> _]]]).
  - intros i Hi. by apply Hth in Hi as [_ Hi].
  - intros i Hi. by apply Hth in Hi as [_ Hi].
Qed.

(** [m_PassNodeCount] cuts the node array into passes. *)
Definition passes_ok (counts : list Z) : Prop :=
  (forall i nd, ndata cfg mm i = Some nd -> 0 <= nd_PassIndex nd) /\
  forall k c, counts !! k = Some c -> pass_range (Z.of_nat k) (pass_start counts k) c.

Lemma ses_event_inv k r s e o : SesInv k r s -> sys_step s e = Some o -> exists s', o = OK s' /\ SesInv k r s'.
Proof.
  destruct k as [|k]; cbn.
  { intros [I Hr] Hs. destruct (idle_step s e o I Hs) as (s' & -> & I'). eauto. }
  intros (sg & SI & Hp & Hq & Hmo & Hr) Hs.
  destruct (sys_step_inv cfg mm SO sg s e o SI Hs) as (s' & sg' & -> & SI' & (Cq & Cp & Cf) & _ & _ & Hc).
  exists s'. split; [done|]. exists sg'. split_and!; [done|congruence..| |].
  - assert (H0 : q_PendingNodeCount (sys_q s) = 0 -> q_PendingNodeCount (sys_q s') = 0).
    { intros H0. destruct Hc as [Hw|(_ & -> & _)]; [|done]. rewrite (done_work sg s SI H0) in Hw.
      pose proof (work_nonneg sg'). lia. }
    intros Hx. destruct (step_exited s e s' 0%nat Hs Hx) as [Hx0|(Hk & Eq & Es)].
    + destruct (Hmo Hx0) as [?|[[? ?]|?]]; [left; by eapply step_signalled|right; left; split; [lia|done]|auto].
    + unfold main_out in *. rewrite Eq, Es. cbn. clear -Hk Hq SI. unfold ShouldKeepBuilding in Hk.
      rewrite (iv_cfg _ _ _ _ _ _ (si_inv _ _ _ _ SI)) in Hk. rewrite Hq in Hk.
      destruct (sys_signalled s); [auto|]. right. destruct (_ && _) eqn:E.
      * apply andb_true_iff in E as [?%Z.ltb_lt ?%Z.eqb_eq]. auto.
      * cbn in Hk. apply Z.ltb_ge in Hk. right. pose proof (iv_pending _ _ _ _ _ _ (si_inv _ _ _ _ SI)) as E1.
        pose proof (cnt_nonneg pend_w 0 sg pend_w_nonneg). lia.
  - intros HR. destruct (Hr HR) as [H0 H1]. destruct Hc as [Hw|(_ & -> & _)]; [|done].
    rewrite (done_work sg s SI H0) in Hw. pose proof (work_nonneg sg'). lia.
Qed.

Lemma ses_start_inv counts k s c : SesInv k (Some ResultOk) s -> passes_ok counts -> counts !! k = Some c ->
  exists s', start_pass s (pass_start counts k) c (Z.of_nat k) = OK s' /\ SesInv (S k) None s'.
Proof.
  intros IH [_ HR] Hc.
  assert (Hst : Fresh (Z.of_nat k) (sys_q s) /\ q_QuitSignalled (sys_q s) = false /\
    (forall i t, sys_threads s !! i = Some t -> holds t = None) /\ (0 < length (sys_threads s))%nat).
  { destruct k as [|k].
    - destruct IH as [I _]. split_and!; try apply I. eapply lookup_lt_Some, I.
    - destruct IH as (sg & SI & Hp & Hq & _ & Hr). destruct (Hr eq_refl) as [H0 Hf0].
      pose proof (done_fresh sg s SI H0 Hf0) as F. rewrite Hp in F.
      split_and!; try done; [|intros i t Hi; by eapply done_holds|apply SI].
      by replace (Z.of_nat (S k)) with (Z.of_nat k + 1) by lia. }
  destruct Hst as (F & Hq & Hh & Hl).
  destruct (start_pass_inv s (Z.of_nat k) (pass_start counts k) c F Hq Hh Hl (HR k c Hc)) as (s1 & E & SI & Hp1 & Hq1 & H01 & _).
  exists s1. split; [done|]. exists (begin_sg (Z.of_nat k)). split_and!; try done. intros Hx. congruence.
Qed.

Lemma session_inv nodes counts k r s : fresh_nodes nodes -> passes_ok counts ->
  session nodes counts k r s -> SesInv k r s.
Proof.
  intros Hn [Hp0 HR]. induction 1 as [j1 j2 j3 q Hi|k r s e s' _ IH Hs|k s _ IH Hx|k s c s' _ IH Hc Hs].
  - split; [|done]. by eapply init_idle.
  - by destruct (ses_event_inv k r s e _ IH Hs) as (s1 & [= <-] & ?).
  - destruct k as [|k]; [by destruct IH|]. destruct IH as (sg & SI & Hp & Hq & Hmo & _). exists sg. split_and!; try done.
    unfold BuildNodeRange_result. destruct (sys_signalled s) eqn:Es; [done|].
    destruct (Z.eqb_spec (q_FailedNodeCount (sys_q s)) 0); [|done]. intros _.
    destruct (Hmo Hx) as [?|[[? ?]|?]]; [congruence|lia|done].
  - destruct (ses_start_inv counts k s c IH (conj Hp0 HR) Hc) as (s1 & E & SI). rewrite Hs in E. by simplify_eq.
Qed.

Lemma session_start nodes counts k s c : fresh_nodes nodes -> passes_ok counts ->
  session nodes counts k (Some ResultOk) s -> counts !! k = Some c ->
  exists s', start_pass s (pass_start counts k) c (Z.of_nat k) = OK s' /\ SesInv (S k) None s'.
Proof. intros Hn Hp Hs Hc. apply ses_start_inv; try done. by apply (session_inv nodes counts). Qed.

End Run.
