(* ===== verification/BuildQueueThms.v ===== *)
(** * Theorems about builds

    The statements about src/src/BuildQueue.cpp that a user of the scheduler
    relies on, over the sessions of [BuildQueueRun], with a boolean check of the
    static conditions and a small build on which every theorem is applied. *)

From S2P Require Import Prelude CommonFns Hash HashImpl DagData BuildQueue BuildQueueRing BuildQueueInv BuildQueueSys BuildQueueRun.

(** ** The conditions, together and decided *)

(** A configuration with its fresh node states and pass sizes, as [DriverBuild]
    hands them to the queue. Among its conditions ([static_ok]) is one that the
    driver does not check: a node flagged expensive has an action. *)
Record build_ok (cfg : BuildQueueConfig) (nodes : list NodeState) (counts : list Z) : Prop := {
  bo_static : static_ok cfg (map ns_MmapData nodes);
  bo_nodes : fresh_nodes (map ns_MmapData nodes) nodes;
  bo_passes : passes_ok cfg (map ns_MmapData nodes) counts
}.

Section Decide.
Context (cfg : BuildQueueConfig) (nodes : list NodeState) (counts : list Z) (rank : list nat).

Definition mm : list Z := map ns_MmapData nodes.
Definition remap (d : Z) : option Z := cfg_NodeRemappingTable cfg !!z d.
Definition rank_of (i : Z) : nat := default 0%nat (rank !!z i).

Definition depb (i j : Z) : bool :=
  match ndata cfg mm i with
  | Some nd => existsb (fun d => bool_decide (remap d = Some j)) (nd_Dependencies nd)
  | None => false
  end.

Definition dep_okb (i : Z) (nd : NodeData) (d : Z) : bool :=
  match remap d with
  | Some j => negb (j =? -1) && (rank_of j <? rank_of i)%nat &&
      match ndata cfg mm j with Some nd' => nd_PassIndex nd' <=? nd_PassIndex nd | None => false end
  | None => false
  end.

Definition back_okb (i b : Z) : bool :=
  match remap b with Some j => (j =? -1) || depb j i | None => false end.

Definition node_okb (i : Z) : bool :=
  match mm !!z i with
  | None => false
  | Some d =>
      match cfg_NodeData cfg !!z d with
      | None => false
      | Some nd =>
          bool_decide (remap d = Some i) && forallb (dep_okb i nd) (nd_Dependencies nd) &&
          forallb (back_okb i) (nd_BackLinks nd) &&
          forallb (fun j => negb (depb j i) || existsb (fun b => bool_decide (remap b = Some j)) (nd_BackLinks nd))
            (seqZ 0 (zlen mm)) &&
          (negb (expensive nd) || negb (empty_action nd)) && (0 <=? nd_PassIndex nd)
      end
  end.

Definition remap_okb (d : Z) : bool :=
  match remap d with Some j => (j =? -1) || bool_decide (mm !!z j = Some d) | None => true end.

Definition pass_okb (k : nat) : bool :=
  match counts !! k with
  | None => true
  | Some c =>
      let start := pass_start counts k in
      (0 <=? start) && (0 <=? c) && (start + c <=? zlen mm) &&
      forallb (fun i => match ndata cfg mm i with
                        | Some nd => Bool.eqb (nd_PassIndex nd =? Z.of_nat k) ((start <=? i) && (i <? start + c))
                        | None => true
                        end) (seqZ 0 (zlen mm))
  end.

Definition build_okb : bool :=
  (zlen mm =? cfg_MaxNodes cfg) && (cfg_MaxNodes cfg <? 2 ^ 31) && (0 <? cfg_MaxExpensiveCount cfg) &&
  forallb node_okb (seqZ 0 (zlen mm)) && forallb remap_okb (seqZ 0 (zlen (cfg_NodeRemappingTable cfg))) &&
  forallb (fun st => bool_decide (ns_Progress st = kInitial) && (ns_Flags st =? 0)) nodes &&
  forallb pass_okb (seq 0 (length counts)).

Lemma forallb_range (f : Z -> bool) n i : forallb f (seqZ 0 n) = true -> 0 <= i < n -> f i = true.
Proof. intros H Hi. rewrite forallb_forall in H. apply H, list_elem_of_In, elem_of_seqZ. lia. Qed.

Lemma ndata_range i nd : ndata cfg mm i = Some nd -> 0 <= i < zlen mm /\ exists d, mm !!z i = Some d /\ cfg_NodeData cfg !!z d = Some nd.
Proof. unfold ndata. destruct (mm !!z i) as [d|] eqn:E; [|done]. intros Hn. apply zlookup_lt in E as ?. eauto. Qed.

Lemma depb_spec i j : depb i j = true <-> dep cfg mm i j.
Proof.
  unfold depb, dep. destruct (ndata cfg mm i) as [nd|]; [|split; [done|naive_solver]].
  rewrite existsb_exists. split.
  - intros (d & Hd%list_elem_of_In & Hj%bool_decide_eq_true). eauto 6.
  - intros (nd' & d & [= <-] & Hd & Hj). exists d. split; [by apply list_elem_of_In|by apply bool_decide_eq_true].
Qed.

Section Sound.
Hypothesis H : build_okb = true.

Lemma okb_parts : zlen mm = cfg_MaxNodes cfg /\ cfg_MaxNodes cfg < 2 ^ 31 /\ 0 < cfg_MaxExpensiveCount cfg /\
  forallb node_okb (seqZ 0 (zlen mm)) = true /\ forallb remap_okb (seqZ 0 (zlen (cfg_NodeRemappingTable cfg))) = true /\
  forallb (fun st => bool_decide (ns_Progress st = kInitial) && (ns_Flags st =? 0)) nodes = true /\
  forallb pass_okb (seq 0 (length counts)) = true.
Proof.
  unfold build_okb in H. rewrite !andb_true_iff in H.
  destruct H as ((((((H1%Z.eqb_eq & H2%Z.ltb_lt) & H3%Z.ltb_lt) & H4) & H5) & H6) & H7). done.
Qed.

Lemma okb_node i nd : ndata cfg mm i = Some nd ->
  (exists d, mm !!z i = Some d /\ cfg_NodeData cfg !!z d = Some nd /\ remap d = Some i) /\
  (forall d, d ∈ nd_Dependencies nd -> dep_okb i nd d = true) /\
  (forall b, b ∈ nd_BackLinks nd -> back_okb i b = true) /\
  (forall j, 0 <= j < zlen mm -> dep cfg mm j i -> exists b, b ∈ nd_BackLinks nd /\ remap b = Some j) /\
  (expensive nd = true -> empty_action nd = false) /\ 0 <= nd_PassIndex nd.
Proof.
  intros (Hi & d & Hd & Hnd)%ndata_range. destruct okb_parts as (_ & _ & _ & Hn & _).
  pose proof (forallb_range _ _ i Hn Hi) as Hok. unfold node_okb in Hok. rewrite Hd, Hnd in Hok.
  rewrite !andb_true_iff in Hok. destruct Hok as (((((H1 & H2) & H3) & H4) & H5) & H6). split_and!.
  - exists d. by apply bool_decide_eq_true in H1.
  - intros d' Hd'. rewrite forallb_forall in H2. by apply H2, list_elem_of_In.
  - intros b Hb. rewrite forallb_forall in H3. by apply H3, list_elem_of_In.
  - intros j Hj Hdep%depb_spec. pose proof (forallb_range _ _ j H4 Hj) as Hx. cbn in Hx. rewrite Hdep in Hx. cbn in Hx.
    apply existsb_exists in Hx as (b & Hb%list_elem_of_In & Hr%bool_decide_eq_true). eauto.
  - intros He. rewrite He in H5. by apply negb_true_iff in H5.
  - by apply Z.leb_le in H6.
Qed.

Lemma okb_dep i nd d : ndata cfg mm i = Some nd -> d ∈ nd_Dependencies nd ->
  exists j nd', remap d = Some j /\ j <> -1 /\ (rank_of j < rank_of i)%nat /\ ndata cfg mm j = Some nd' /\ nd_PassIndex nd' <= nd_PassIndex nd.
Proof.
  intros Hnd Hd. destruct (okb_node i nd Hnd) as (_ & H2 & _). specialize (H2 d Hd). unfold dep_okb in H2.
  destruct (remap d) as [j|]; [|done]. rewrite !andb_true_iff in H2. destruct H2 as ((H2 & H3) & H4).
  destruct (ndata cfg mm j) as [nd'|] eqn:E; [|done]. exists j, nd'.
  apply negb_true_iff, Z.eqb_neq in H2. apply Nat.ltb_lt in H3. apply Z.leb_le in H4. done.
Qed.

Lemma build_okb_static : static_ok cfg mm.
Proof.
  destruct okb_parts as (H1 & H2 & H3 & H4 & H5 & _). split; try done.
  - intros i d Hd. assert (Hi : 0 <= i < zlen mm) by by eapply zlookup_lt.
    pose proof (forallb_range _ _ i H4 Hi) as Hok. unfold node_okb in Hok. rewrite Hd in Hok.
    destruct (cfg_NodeData cfg !!z d) as [nd|] eqn:E; [|done]. rewrite !andb_true_iff in Hok.
    destruct Hok as (((((Hr & _) & _) & _) & _) & _). apply bool_decide_eq_true in Hr. eauto.
  - intros d j Hd Hj. assert (Hi : 0 <= d < zlen (cfg_NodeRemappingTable cfg)) by by eapply zlookup_lt.
    pose proof (forallb_range _ _ d H5 Hi) as Hok. unfold remap_okb, remap in Hok. rewrite Hd in Hok.
    apply orb_true_iff in Hok as [?%Z.eqb_eq|?%bool_decide_eq_true]; done.
  - intros i nd d Hnd Hd. destruct (okb_dep i nd d Hnd Hd) as (j & nd' & ? & ? & _ & ? & ?). eauto 6.
  - intros i nd b Hnd Hb. destruct (okb_node i nd Hnd) as (_ & _ & Hbk & _). specialize (Hbk b Hb). unfold back_okb, remap in Hbk.
    destruct (cfg_NodeRemappingTable cfg !!z b) as [j|] eqn:E; [|done]. exists j. split; [done|].
    apply orb_true_iff in Hbk as [?%Z.eqb_eq|?%depb_spec]; auto.
  - intros i j nd Hd Hnd. destruct (okb_node i nd Hnd) as (_ & _ & _ & Hb & _).
    destruct Hd as (nd' & d & Hnd' & Hr). apply Hb; [|by exists nd', d]. by apply ndata_range in Hnd' as [? _].
  - exists rank_of. intros i j (nd & d & Hnd & Hd & Hj). destruct (okb_dep i nd d Hnd Hd) as (j' & nd' & Hr & _ & ? & _).
    unfold remap in Hr. by simplify_eq.
  - intros i nd Hnd. apply (okb_node i nd Hnd).
Qed.

Lemma build_okb_sound : build_ok cfg nodes counts.
Proof.
  destruct okb_parts as (_ & _ & _ & _ & _ & H6 & H7). split; [apply build_okb_static|split; [done|]|split].
  - intros i st Hst. rewrite forallb_forall in H6. pose proof (zlookup_lt _ _ _ Hst). unfold zlookup in Hst.
    rewrite bool_decide_true in Hst by lia. apply list_elem_of_lookup_2, list_elem_of_In, H6 in Hst.
    by apply andb_true_iff in Hst as [?%bool_decide_eq_true ?%Z.eqb_eq].
  - intros i nd Hnd. apply (okb_node i nd Hnd).
  - intros k c Hc. rewrite forallb_forall in H7. assert (Hk : pass_okb k = true).
    { apply H7, in_seq. apply lookup_lt_Some in Hc. lia. }
    unfold pass_okb in Hk. rewrite Hc, !andb_true_iff in Hk. destruct Hk as (((?%Z.leb_le & ?%Z.leb_le) & ?%Z.leb_le) & Hr).
    split_and!; try done. intros i nd Hnd. apply ndata_range in Hnd as Hi. destruct Hi as [Hi _].
    pose proof (forallb_range _ _ i Hr Hi) as Hx. cbn in Hx. change (map ns_MmapData nodes) with mm in Hnd. rewrite Hnd in Hx.
    apply eqb_prop in Hx. destruct (Z.eqb_spec (nd_PassIndex nd) (Z.of_nat k)), (Z.leb_spec (pass_start counts k) i),
      (Z.ltb_spec i (pass_start counts k + c)); cbn in Hx; split; done || lia.
Qed.

End Sound.
End Decide.

(** ** A small build

    Two threads, one expensive slot. Node 0 of the DAG generates a source, 1 and
    2 compile (expensive), 3 is not part of the build, 4 links in the second
    pass. *)
Module Demo.

Definition node (action : string) (pass : Z) (deps back : list Z) (flags : Z) : NodeData :=
  mkNodeData (Some (s2l action)) None (s2l action) pass deps back [] [] [] [] None flags.

Definition data : list NodeData :=
  [ node "gen" 0 [] [1] 0; node "cc a" 0 [0] [4] kFlagExpensive; node "cc b" 0 [] [4] kFlagExpensive;
    node "unused" 0 [] [] 0; node "ld" 1 [1; 2] [] 0 ].

Definition cfg : BuildQueueConfig := mkConfig 0 2 data 4 [0; 1; 2; -1; 3] 1.
Definition fresh (d : Z) (pass : Z) : NodeState := mkNodeState 0 pass kInitial d None 0 (mkDigest 0 0).
Definition nodes : list NodeState := [fresh 0 0; fresh 1 0; fresh 2 0; fresh 4 1].
Definition counts : list Z := [3; 1].

Lemma demo_ok : build_ok cfg nodes counts.
Proof. apply (build_okb_sound cfg nodes counts [0; 1; 0; 2]%nat). vm_compute. reflexivity. Qed.

End Demo.

(** ** Helpers *)

Lemma fold_unwait (ts : list thread_pc) (l : list nat) (k : nat) : foldr (fun i ts => alter unwait i ts) ts l !! k =
  if bool_decide (k ∈ l) then unwait <$> (ts !! k) else ts !! k.
Proof.
  induction l as [|i l IH]; [rewrite bool_decide_false; [done|apply not_elem_of_nil]|]. cbn [foldr].
  destruct (decide (i = k)) as [ -> |Hne].
  - rewrite list_lookup_alter_eq, IH, (bool_decide_true (k ∈ k :: l)) by set_solver.
    case_bool_decide; [|done]. by destruct (ts !! k) as [[]|].
  - rewrite list_lookup_alter_ne, IH by done.
    destruct (decide (k ∈ l)); [by rewrite !bool_decide_true by set_solver|by rewrite !bool_decide_false by set_solver].
Qed.

(** Waking everybody is always allowed. *)
Lemma wake_all w ts : exists ts', wake w (seq 0 (length ts)) ts = Some ts'.
Proof.
  unfold wake. destruct (has_broadcast w); [eauto|]. set (l := filter _ _). set (ts' := foldr _ ts l).
  replace (existsb is_waiting ts') with false; [rewrite orb_true_r; eauto|].
  symmetry. apply not_true_is_false. rewrite existsb_exists. intros (t & Ht & Hw).
  apply list_elem_of_In, list_elem_of_lookup in Ht as [k Hk]. unfold ts' in Hk. rewrite fold_unwait in Hk.
  case_bool_decide as E.
  { destruct (ts !! k) as [u|]; [|done]. cbn in Hk. simplify_eq. by destruct u. }
  apply E. unfold l. apply list_elem_of_filter. rewrite Hk. split; [done|].
  apply elem_of_remove_dups, elem_of_seq. apply lookup_lt_Some in Hk. lia.
Qed.

Lemma commit_all s i sig q pc : exists s', commit s i (seq 0 (length (<[i := pc]> (sys_threads s)))) sig (OK (q, pc)) = Some (OK s').
Proof. cbn [commit]. destruct (wake_all (q_Wakes q) (<[i := pc]> (sys_threads s))) as [ts' ->]. eauto. Qed.

(** An awake thread can always move. *)
Lemma awake_enabled s i t : sys_threads s !! i = Some t -> awake t = true ->
  exists e o, mover e = Some i /\ sys_step s e = Some o.
Proof.
  intros Hi Ha.
  assert (Hc : forall sig r, exists c o, commit s i c sig r = Some o).
  { intros sig [[q pc]|f]; [|by exists []; eauto].
    destruct (commit_all s i sig q pc) as [s' Hs]. eauto. }
  destruct t as [| |node|node|]; try done.
  - destruct (Hc (sys_signalled s) (loop_iteration (sys_signalled s) i (sys_q s))) as (c & o & Ho).
    exists (EvLoop i c), o. cbn. by rewrite Hi.
  - destruct (Hc (sys_signalled s) (resume (after_CheckInputSignature (fun _ => true) (mkDigest 0 0) (sys_q s) node) node)) as (c & o & Ho).
    exists (EvSigned i (mkDigest 0 0) (fun _ => true) c), o. cbn [sys_step]. by rewrite Hi.
  - destruct (Hc (sys_signalled s || result_signals DirectoriesFailed) (resume (after_RunAction DirectoriesFailed (sys_q s) node) node)) as (c & o & Ho).
    exists (EvExecuted i DirectoriesFailed c), o. cbn [sys_step]. by rewrite Hi.
Qed.

Definition node_running (t : thread_pc) : option Z := match t with TRunning n => Some n | _ => None end.
Definition running_nodes (s : sys) : list Z := omap node_running (sys_threads s).

(** [x] can be listed once per expensive running node. *)
Lemma running_count cfg m l : forall sg, NoDup l ->
  (forall x, x ∈ l -> sg !!z x = Some SRun /\ is_exp cfg m x = true) -> zlen l <= cnt (run_w cfg m) 0 sg.
Proof.
  induction l as [|x l IH]; intros sg Hn Hx; [apply cnt_nonneg, run_w_nonneg|].
  apply NoDup_cons in Hn as [Hni Hn]. destruct (Hx x) as [Hs He]; [set_solver|].
  specialize (IH (zinsert x SHand sg) Hn). rewrite (cnt_insert _ _ _ _ _ Hs) in IH. cbn in IH. rewrite He in IH. cbn in IH.
  rewrite length_cons. enough (zlen l <= cnt (run_w cfg m) 0 sg - 1 + 0) by lia. apply IH.
  intros y Hy. rewrite (sg_insert _ _ _ _ Hs). rewrite bool_decide_false by (intros ->; done). apply Hx. set_solver.
Qed.

Lemma running_nodes_nodup s : 
  (forall i i' t t' n h h', sys_threads s !! i = Some t -> sys_threads s !! i' = Some t' ->
    holds t = Some (n, h) -> holds t' = Some (n, h') -> i = i') -> NoDup (running_nodes s).
Proof.
  unfold running_nodes. generalize (sys_threads s). intros ts. induction ts as [|t ts IH]; intros Hu; [by constructor|].
  assert (IH' : NoDup (omap node_running ts)).
  { apply IH. intros i i' t1 t1' n h h' H1 H2 H3 H4. specialize (Hu (S i) (S i') t1 t1' n h h' H1 H2 H3 H4). lia. }
  cbn. destruct (node_running t) as [n|] eqn:E; [|done]. constructor; [|done].
  intros (t' & Ht' & E')%list_elem_of_omap. apply list_elem_of_lookup in Ht' as [k Hk].
  specialize (Hu O (S k) t t' n SRun SRun eq_refl Hk). destruct t, t'; try done; cbn in *; simplify_eq.
  by specialize (Hu eq_refl eq_refl).
Qed.

Section Theorems.
Context (cfg : BuildQueueConfig) (nodes : list NodeState) (counts : list Z).
Abbreviation m := (map ns_MmapData nodes).

Lemma session_step_inv k r s e o : build_ok cfg nodes counts -> session cfg nodes counts k r s ->
  sys_step s e = Some o -> exists s', o = OK s' /\ SesInv cfg m k r s'.
Proof. intros [SO Hn Hp] Hs. by apply (ses_event_inv cfg m SO), (session_inv cfg m SO nodes counts). Qed.

Lemma session_sys k r s : build_ok cfg nodes counts -> session cfg nodes counts (S k) r s ->
  exists sg, SysInv cfg m sg s /\ q_CurrentPassIndex (sys_q s) = Z.of_nat k /\
  (r = Some ResultOk -> q_PendingNodeCount (sys_q s) = 0 /\ q_FailedNodeCount (sys_q s) = 0).
Proof.
  intros [SO Hn Hp] Hs. destruct (session_inv cfg m SO nodes counts _ _ _ Hn Hp Hs) as (sg & ? & ? & _ & _ & ?). eauto.
Qed.

(** In a session nothing is held before the first pass. *)
Lemma session_holds k r s i t n h : build_ok cfg nodes counts -> session cfg nodes counts k r s ->
  sys_threads s !! i = Some t -> holds t = Some (n, h) -> exists k' sg, k = S k' /\ SysInv cfg m sg s /\ sg !!z n = Some h.
Proof.
  intros B Hs Hi Hh. destruct k as [|k].
  - destruct B as [SO Hn Hp]. destruct (session_inv cfg m SO nodes counts _ _ _ Hn Hp Hs) as [I _].
    apply (id_holds _ _ _ I) in Hi. congruence.
  - destruct (session_sys k r s B Hs) as (sg & SI & _). exists k, sg. split_and!; try done. by eapply (si_holds _ _ _ _ SI).
Qed.

(** C2. In a build whose nodes flagged expensive all have an action (and whose
    tables are consistent, [build_ok]), nothing that can happen makes the scheduler
    fail a CHECK, read or write outside an array, or loop: every event of every
    session, and every start of the next pass, ends in a state. The condition on
    expensive nodes is needed, [expensive_empty_action_faults]. *)
Theorem scheduler_never_faults k r s :
  build_ok cfg nodes counts -> session cfg nodes counts k r s ->
  (forall e o, sys_step s e = Some o -> exists s', o = OK s') /\
  (forall c, r = Some ResultOk -> counts !! k = Some c ->
     exists s', start_pass s (pass_start counts k) c (Z.of_nat k) = OK s').
Proof.
  intros B Hs. split.
  - intros e o He. destruct (session_step_inv k r s e o B Hs He) as (s' & -> & _). eauto.
  - intros c -> Hc. destruct B as [SO Hn Hp].
    by destruct (session_start cfg m SO nodes counts k s c Hn Hp Hs Hc) as (s' & -> & _); eauto.
Qed.

(** C1. When a thread computes the signature of a node or runs its action,
    every node it depends on has completed. *)
Theorem dependencies_complete_first k r s i n j :
  build_ok cfg nodes counts -> session cfg nodes counts k r s ->
  sys_threads s !! i = Some (TRunning n) \/ sys_threads s !! i = Some (TSigning n) -> dep cfg m n j ->
  exists st, q_NodeState (sys_q s) !!z j = Some st /\ ns_Progress st = kCompleted.
Proof.
  intros B Hs Hi Hd.
  assert (exists t h, sys_threads s !! i = Some t /\ holds t = Some (n, h) /\ is_held h = true) as (t & h & Ht & Hh & Hhh)
    by (destruct Hi as [Hi|Hi]; eauto 6).
  destruct (session_holds k r s i t n h B Hs Ht Hh) as (k' & sg & -> & SI & Hn).
  pose proof (si_inv _ _ _ _ SI) as I. pose proof (inv_base _ _ _ _ _ _ I) as Ba. destruct B as [SO _ _].
  destruct (sg_node _ _ Ba _ _ Hn) as [st Hst].
  assert (Hr : ready cfg m sg n) by (pose proof (iv_prog _ _ _ _ _ _ I _ _ _ Hn Hst); destruct h; try done; naive_solver).
  destruct Hd as (nd & d & Hnd & Hin & Hrm). destruct (so_deps _ _ SO n nd d Hnd Hin) as (j' & nd' & Hj & _ & Hnd' & _).
  simplify_eq. destruct (ndata_sg _ _ Ba _ _ Hnd') as [u Hu]. destruct (sg_node _ _ Ba _ _ Hu) as [su Hsu].
  exists su. split; [done|]. pose proof (bs_done _ _ _ _ Ba _ _ _ Hu Hsu) as Hc.
  rewrite (Hr j u) in Hc; [by apply bool_decide_eq_true in Hc|by exists nd, d|done].
Qed.

(** No two threads work on the same node. *)
Theorem one_thread_per_node k r s i i' n :
  build_ok cfg nodes counts -> session cfg nodes counts k r s ->
  sys_threads s !! i = Some (TRunning n) \/ sys_threads s !! i = Some (TSigning n) ->
  sys_threads s !! i' = Some (TRunning n) \/ sys_threads s !! i' = Some (TSigning n) -> i = i'.
Proof.
  intros B Hs Hi Hi'.
  assert (Hex : forall i, sys_threads s !! i = Some (TRunning n) \/ sys_threads s !! i = Some (TSigning n) ->
    exists t h, sys_threads s !! i = Some t /\ holds t = Some (n, h)) by (intros ? [?|?]; eauto).
  destruct (Hex i Hi) as (t & h & Ht & Hh), (Hex i' Hi') as (t' & h' & Ht' & Hh').
  destruct (session_holds k r s i t n h B Hs Ht Hh) as (k' & sg & -> & SI & _).
  by eapply (si_unique _ _ _ _ SI).
Qed.

(** C26. In a build whose nodes flagged expensive all have an action (part of
    [build_ok]; [expensive_empty_action_faults] is what happens without), the
    threads never run more expensive actions at once than [m_MaxExpensiveCount],
    and [m_ExpensiveRunning] is within that limit. *)
Theorem expensive_limit k r s :
  build_ok cfg nodes counts -> session cfg nodes counts (S k) r s ->
  zlen (filter (fun n => is_exp cfg m n = true) (running_nodes s)) <= q_ExpensiveRunning (sys_q s) <= cfg_MaxExpensiveCount cfg.
Proof.
  intros B Hs. destruct (session_sys k r s B Hs) as (sg & SI & _). pose proof (si_inv _ _ _ _ SI) as I.
  split; [|apply I]. rewrite (iv_running _ _ _ _ _ _ I). apply running_count.
  - apply NoDup_filter, running_nodes_nodup, SI.
  - intros x [He (t & Ht & Hx)%list_elem_of_omap]%list_elem_of_filter. split; [|done].
    apply list_elem_of_lookup in Ht as [i Hi]. apply (si_holds _ _ _ _ SI i t); [done|]. by destruct t; simplify_eq/=.
Qed.

(** A node that has completed stays so. *)
Definition completed (q : BuildQueue) (n : Z) : Prop :=
  exists st, q_NodeState q !!z n = Some st /\ ns_Progress st = kCompleted.

Lemma completed_done sg s n : SysInv cfg m sg s -> completed (sys_q s) n <-> exists t, sg !!z n = Some t /\ is_done t = true.
Proof.
  intros SI. pose proof (inv_base _ _ _ _ _ _ (si_inv _ _ _ _ SI)) as Ba. split.
  - intros (st & Hst & Hp). destruct (node_sg _ _ Ba _ _ Hst) as [t Ht]. exists t. split; [done|].
    rewrite <- (bs_done _ _ _ _ Ba _ _ _ Ht Hst). by apply bool_decide_eq_true.
  - intros (t & Ht & Hd). destruct (sg_node _ _ Ba _ _ Ht) as [st Hst]. exists st. split; [done|].
    rewrite <- (bs_done _ _ _ _ Ba _ _ _ Ht Hst) in Hd. by apply bool_decide_eq_true in Hd.
Qed.

Lemma idle_not_completed s n : build_ok cfg nodes counts -> IdleInv cfg m s -> ~ completed (sys_q s) n.
Proof.
  intros [SO _ Hp] I (st & Hst & Hc). pose proof (id_fresh _ _ _ I) as F.
  destruct (mm_ndata cfg m SO n) as [nd Hnd].
  { pose proof (zlookup_lt _ _ _ Hst) as Hl. by rewrite <- (fr_mm _ _ _ _ F), length_map. }
  destruct (fr_next _ _ _ _ F n st nd Hst Hnd (proj1 Hp n nd Hnd)). congruence.
Qed.

Lemma start_completed k s c s' n : build_ok cfg nodes counts -> session cfg nodes counts k (Some ResultOk) s ->
  counts !! k = Some c -> start_pass s (pass_start counts k) c (Z.of_nat k) = OK s' ->
  completed (sys_q s) n -> completed (sys_q s') n.
Proof.
  intros B Hs Hc Hst Hn. pose proof B as [SO Hf Hp].
  destruct (session_start cfg m SO nodes counts k s c Hf Hp Hs Hc) as (s1 & E & sg' & SI' & Hk' & _). rewrite Hst in E. simplify_eq.
  destruct k as [|k].
  { destruct (session_inv cfg m SO nodes counts _ _ _ Hf Hp Hs) as [I _]. by destruct (idle_not_completed s n B I). }
  destruct (session_sys k _ s B Hs) as (sg & SI & Hk & _).
  apply (completed_done sg s n SI) in Hn as (t & Ht & Hd).
  pose proof (inv_base _ _ _ _ _ _ (si_inv _ _ _ _ SI)) as Ba. pose proof (inv_base _ _ _ _ _ _ (si_inv _ _ _ _ SI')) as Ba'.
  destruct (sg_ndata _ _ SO Ba _ _ Ht) as [nd Hnd]. destruct (ndata_sg _ _ Ba' _ _ Hnd) as [t' Ht'].
  apply (completed_done sg' s1 n SI'). exists t'. split; [done|].
  pose proof (iv_pass _ _ _ _ _ _ (si_inv _ _ _ _ SI) _ _ _ Ht Hnd) as H1.
  pose proof (iv_pass _ _ _ _ _ _ (si_inv _ _ _ _ SI') _ _ _ Ht' Hnd) as H2.
  rewrite Hk in H1. rewrite Hk' in H2. destruct t; try done; cbn in H1; destruct t'; try done; cbn in H2; lia.
Qed.

(** C3. Every action runs at most once in a build: the node is completed when
    [RunAction] returns, stays so in every later state and pass, and no thread
    works on a completed node. *)
Theorem action_runs_once k r s :
  build_ok cfg nodes counts -> session cfg nodes counts k r s ->
  (forall i n a c s', sys_threads s !! i = Some (TRunning n) ->
     sys_step s (EvExecuted i a c) = Some (OK s') -> completed (sys_q s') n) /\
  (forall n, completed (sys_q s) n ->
     (forall i, sys_threads s !! i <> Some (TRunning n) /\ sys_threads s !! i <> Some (TSigning n)) /\
     (forall e s', sys_step s e = Some (OK s') -> completed (sys_q s') n) /\
     (forall c s', r = Some ResultOk -> counts !! k = Some c ->
        start_pass s (pass_start counts k) c (Z.of_nat k) = OK s' -> completed (sys_q s') n)).
Proof.
  intros B Hs. pose proof B as [SO Hf Hp]. split.
  - intros i n a c s' Hi He. destruct (session_holds k r s i _ n SRun B Hs Hi eq_refl) as (k' & sg & -> & SI & _).
    destruct (sys_step_inv cfg m SO sg s _ _ SI He) as (s1 & sg' & [= <-] & SI' & _ & _ & Hx & _).
    apply (completed_done sg' s' n SI'). by eapply Hx.
  - intros n Hn. destruct k as [|k].
    { destruct (session_inv cfg m SO nodes counts _ _ _ Hf Hp Hs) as [I _]. by destruct (idle_not_completed s n B I). }
    destruct (session_sys k r s B Hs) as (sg & SI & _).
    apply (completed_done sg s n SI) in Hn as Hd. destruct Hd as (t & Ht & Hd). split_and!.
    + intros i. split; intros Hi.
      * pose proof (si_holds _ _ _ _ SI i _ n SRun Hi eq_refl). by simplify_eq.
      * pose proof (si_holds _ _ _ _ SI i _ n SSign Hi eq_refl). by simplify_eq.
    + intros e s' He. destruct (sys_step_inv cfg m SO sg s e _ SI He) as (s1 & sg' & [= <-] & SI' & _ & Hst & _).
      apply (completed_done sg' s' n SI'). eauto.
    + intros c s' -> Hc He. by apply (start_completed (S k) s c s' n).
Qed.

(** C6. When [BuildQueueBuildNodeRange] returns kOk for a pass, every node of
    that pass and of the passes before has completed with result 0. *)
Theorem ok_means_built k s i st nd :
  build_ok cfg nodes counts -> session cfg nodes counts (S k) (Some ResultOk) s ->
  q_NodeState (sys_q s) !!z i = Some st -> ndata cfg m i = Some nd -> nd_PassIndex nd <= Z.of_nat k ->
  ns_Progress st = kCompleted /\ ns_BuildResult st = 0.
Proof.
  intros B Hs Hst Hnd Hle. destruct (session_sys k _ s B Hs) as (sg & SI & Hk & Hr).
  destruct (Hr eq_refl) as [H0 H1]. destruct B as [SO _ _].
  apply (fr_past _ _ _ _ (done_fresh cfg m SO sg s SI H0 H1) i st nd Hst Hnd). lia.
Qed.

(** C7. [BuildQueueBuildNodeRange] answers kBuildError exactly when no signal
    arrived and some node of the pass completed with a result other than 0. *)
Theorem error_means_failed k s :
  build_ok cfg nodes counts -> session cfg nodes counts (S k) None s ->
  BuildNodeRange_result (sys_signalled s) (sys_q s) = ResultBuildError <->
  sys_signalled s = false /\ exists i st nd, q_NodeState (sys_q s) !!z i = Some st /\ ndata cfg m i = Some nd /\
    nd_PassIndex nd = Z.of_nat k /\ ns_Progress st = kCompleted /\ ns_BuildResult st <> 0.
Proof.
  intros B Hs. destruct (session_sys k _ s B Hs) as (sg & SI & Hk & _). destruct B as [SO _ _].
  pose proof (si_inv _ _ _ _ SI) as I. pose proof (inv_base _ _ _ _ _ _ I) as Ba.
  unfold BuildNodeRange_result. destruct (sys_signalled s); [split; [done|naive_solver]|].
  destruct (Z.eqb_spec (q_FailedNodeCount (sys_q s)) 0) as [H0|H0]; cbn; rewrite (iv_failed _ _ _ _ _ _ I) in H0.
  - split; [done|]. intros (_ & i & st & nd & Hst & Hnd & Hpa & Hp & Hr). destruct (node_sg _ _ Ba _ _ Hst) as [t Ht].
    pose proof (cnt_zero _ _ _ _ failed_w_nonneg H0 Ht) as Hz. pose proof (iv_result _ _ _ _ _ _ I _ _ _ Ht Hst) as Hre.
    pose proof (bs_done _ _ _ _ Ba _ _ _ Ht Hst) as Hd. unfold NodeStateIsCompleted in Hd. rewrite bool_decide_true in Hd by done.
    destruct t as [| | | | | | | |[]| |]; done.
  - split; [|done]. intros _. split; [done|].
    destruct (cnt_pos failed_w sg) as (i & t & Ht & Hf); [pose proof (cnt_nonneg _ 0 sg failed_w_nonneg); lia|].
    destruct (sg_node _ _ Ba _ _ Ht) as [st Hst]. destruct (sg_ndata _ _ SO Ba _ _ Ht) as [nd Hnd]. exists i, st, nd.
    pose proof (iv_pass _ _ _ _ _ _ I _ _ _ Ht Hnd) as Hpa. pose proof (iv_prog _ _ _ _ _ _ I _ _ _ Ht Hst) as Hpr.
    pose proof (iv_result _ _ _ _ _ _ I _ _ _ Ht Hst) as Hre.
    destruct t as [| | | | | | | |[]| |]; cbn in *; try lia. split_and!; try done; [by rewrite Hpa|apply Hpr|by rewrite Hre].
Qed.

(** C5. No deadlock: while the main thread is in its loop some thread can take
    a step without being woken by another. It is so even when a signal falls
    between a thread's test of the reason and its wait, so that the broadcast of
    the signal does not reach the thread: a node that is left to build is in the
    ring, where only threads that are awake find it, or in the hands of a thread. *)
Theorem no_deadlock k r s :
  build_ok cfg nodes counts -> session cfg nodes counts (S k) r s -> sys_threads s !! 0%nat <> Some TExited ->
  exists i t e s', sys_threads s !! i = Some t /\ awake t = true /\ mover e = Some i /\ sys_step s e = Some (OK s').
Proof.
  intros B Hs H0. destruct (session_sys k r s B Hs) as (sg & SI & _).
  destruct (some_awake cfg m (bo_static _ _ _ B) sg s SI H0) as (i & t & Hi & Ha).
  destruct (awake_enabled s i t Hi Ha) as (e & o & Hm & He).
  destruct (session_step_inv (S k) r s e o B Hs He) as (s' & -> & _). eauto 8.
Qed.

(** C4. Every fair execution ends the pass: if threads that can run eventually
    run, whatever the actions return, whoever is woken, with spurious wake-ups and
    with signals, heard or missed by a thread about to wait, the main thread leaves
    its loop. *)
Theorem fair_build_terminates k r (sigma : nat -> sys) (ev : nat -> event) :
  build_ok cfg nodes counts -> session cfg nodes counts (S k) r (sigma 0%nat) ->
  (forall n, sys_step (sigma n) (ev n) = Some (OK (sigma (S n)))) ->
  (forall n i t, sys_threads (sigma n) !! i = Some t -> awake t = true -> exists n', (n <= n')%nat /\ mover (ev n') = Some i) ->
  exists n, sys_threads (sigma n) !! 0%nat = Some TExited.
Proof.
  intros B Hs Hst Hf. destruct (session_sys k r _ B Hs) as (sg & SI & _).
  destruct (fair_main cfg m (bo_static _ _ _ B) sigma ev Hst Hf 0%nat sg SI) as (n & _ & Hn). eauto.
Qed.

End Theorems.

(** ** The small build, run *)

Module DemoRun.
Import Demo.

Definition no_sys : sys := mkSys (mkQueue cfg [] [] 0 0 0 0 0 0 0 0 [] false []) [] false.
Definition state (o : option (res sys)) : sys := match o with Some (OK s) => s | _ => no_sys end.
Definition q0 : BuildQueue := match BuildQueueInit 0 0 0 nodes cfg with OK q => q | Err _ => sys_q no_sys end.
Definition s0 : sys := mkSys q0 [TExited; TReady] false.
Definition s1 : sys := state (Some (start_pass s0 0 3 0)).

Definition sign (i : nat) : event := EvSigned i (mkDigest 7 7) (fun _ => true) [].
Definition exec (i : nat) (code : Z) : event := EvExecuted i (Executed code false) [0%nat; 1%nat].
Definition loop (i : nat) : event := EvLoop i [].

(** Thread 0 runs the generator, thread 1 compiles [b]. *)
Definition to_mid : list event := [loop 0; loop 1; loop 1; sign 0; sign 1].
(** The generator ends, [a] is parked, [b] ends, [a] is unparked and runs. *)
Definition to_end : list event :=
  to_mid ++ [exec 0 0; loop 0; sign 0; loop 0; exec 1 0; loop 1; exec 1 0; loop 0].
(** The generator fails. *)
Definition to_fail : list event := to_mid ++ [exec 0 1; loop 0].

Definition mid : sys := state (run s1 to_mid).
Definition ended : sys := state (run s1 to_end).
Definition failed : sys := state (run s1 to_fail).

Lemma init_session : session cfg nodes counts 0 (Some ResultOk) s0.
Proof. apply (ses_init cfg nodes counts 0 0 0 q0). vm_compute. reflexivity. Qed.

Lemma first_session : session cfg nodes counts 1 None s1.
Proof. apply (ses_pass cfg nodes counts 0 s0 3); [apply init_session|done|]. vm_compute. reflexivity. Qed.

Lemma after_session es : run s1 es = Some (OK (state (run s1 es))) -> session cfg nodes counts 1 None (state (run s1 es)).
Proof. apply session_run, first_session. Qed.

Lemma mid_session : session cfg nodes counts 1 None mid.
Proof. apply after_session. vm_compute. reflexivity. Qed.

Lemma ended_session : session cfg nodes counts 1 (Some ResultOk) ended.
Proof.
  change (Some ResultOk) with (Some (BuildNodeRange_result (sys_signalled ended) (sys_q ended))).
  apply ses_result; [apply after_session|]; vm_compute; reflexivity.
Qed.

Lemma failed_session : session cfg nodes counts 1 None failed.
Proof. apply after_session. vm_compute. reflexivity. Qed.

End DemoRun.

(** ** The theorems on the small build *)

Import Demo DemoRun.

Lemma scheduler_never_faults_witness :
  (forall e o, sys_step mid e = Some o -> exists s', o = OK s') /\ (exists s', start_pass ended 3 1 1 = OK s').
Proof.
  split.
  - apply (scheduler_never_faults cfg nodes counts 1 None mid demo_ok mid_session).
  - exact (proj2 (scheduler_never_faults cfg nodes counts 1 (Some ResultOk) ended demo_ok ended_session) 1 eq_refl eq_refl).
Defined.

(** Thread 1 is about to link in the second pass: its dependency 1 is done. *)
Definition linking : sys := state (run (state (Some (start_pass ended 3 1 1))) [loop 0]).

Lemma linking_session : session cfg nodes counts 2 None linking.
Proof.
  apply (session_run cfg nodes counts 2 None [loop 0] (state (Some (start_pass ended 3 1 1)))); [|vm_compute; reflexivity].
  apply (ses_pass cfg nodes counts 1 ended 1); [apply ended_session|done|]. vm_compute. reflexivity.
Qed.

Lemma dependencies_complete_first_witness :
  exists st, q_NodeState (sys_q linking) !!z 1 = Some st /\ ns_Progress st = kCompleted.
Proof.
  apply (dependencies_complete_first cfg nodes counts 2 None linking 0 3 1 demo_ok linking_session).
  - right. vm_compute. reflexivity.
  - exists (node "ld" 1 [1; 2] [] 0), 1. split_and!; [reflexivity| |reflexivity]. left.
Defined.

Lemma one_thread_per_node_witness : 1%nat = 1%nat.
Proof.
  apply (one_thread_per_node cfg nodes counts 1 None mid 1 1 2 demo_ok mid_session); left; vm_compute; reflexivity.
Defined.

Lemma expensive_limit_witness :
  zlen (filter (fun n => is_exp cfg (map ns_MmapData nodes) n = true) (running_nodes mid)) = 1 /\
  zlen (filter (fun n => is_exp cfg (map ns_MmapData nodes) n = true) (running_nodes mid)) <=
    q_ExpensiveRunning (sys_q mid) <= cfg_MaxExpensiveCount cfg.
Proof. split; [vm_compute; reflexivity|]. apply (expensive_limit cfg nodes counts 0 None mid demo_ok mid_session). Defined.

Lemma action_runs_once_witness : completed (sys_q (state (run mid [exec 0 0]))) 0.
Proof.
  apply (proj1 (action_runs_once cfg nodes counts 1 None mid demo_ok mid_session) 0%nat 0 (Executed 0 false) [0%nat; 1%nat]);
    vm_compute; reflexivity.
Defined.

Lemma ok_means_built_witness : exists st, q_NodeState (sys_q ended) !!z 2 = Some st /\
  (ns_Progress st = kCompleted /\ ns_BuildResult st = 0).
Proof.
  destruct (q_NodeState (sys_q ended) !!z 2) as [st|] eqn:E; [|vm_compute in E; discriminate E].
  exists st. split; [reflexivity|].
  apply (ok_means_built cfg nodes counts 0 ended 2 st (node "cc b" 0 [] [4] kFlagExpensive) demo_ok ended_session E); [reflexivity|].
  cbn. lia.
Defined.

Lemma error_means_failed_witness :
  exists i st nd, q_NodeState (sys_q failed) !!z i = Some st /\ ndata cfg (map ns_MmapData nodes) i = Some nd /\
    nd_PassIndex nd = 0 /\ ns_Progress st = kCompleted /\ ns_BuildResult st <> 0.
Proof.
  apply (proj1 (error_means_failed cfg nodes counts 0 failed demo_ok failed_session)). vm_compute. reflexivity.
Defined.

Lemma no_deadlock_witness : exists i t e s', sys_threads mid !! i = Some t /\ awake t = true /\ mover e = Some i /\
  sys_step mid e = Some (OK s').
Proof.
  apply (no_deadlock cfg nodes counts 0 None mid demo_ok mid_session). vm_compute. discriminate.
Defined.

(** The main thread finds nothing to do and begins to wait just after a signal
    it has not seen; the worker's action ends and wakes it. *)
Definition sched : list event :=
  to_mid ++ [exec 0 0; loop 0; sign 0; EvSignal (Some 0%nat); exec 1 0; loop 0; loop 1].
Definition ev_at (n : nat) : event := nth n sched (EvSignal None).
Fixpoint states_of (s : sys) (es : list event) : list sys :=
  match es with [] => [] | e :: es' => s :: states_of (state (sys_step s e)) es' end.
Definition state_at (n : nat) : sys := nth n (states_of s1 sched) (state (run s1 sched)).

Lemma state_at_steps n : sys_step (state_at n) (ev_at n) = Some (OK (state_at (S n))).
Proof. do 12 (destruct n as [|n]; [vm_compute; reflexivity|]). destruct n; vm_compute; reflexivity. Qed.

Lemma state_at_fair n i t : sys_threads (state_at n) !! i = Some t -> awake t = true ->
  exists n', (n <= n')%nat /\ mover (ev_at n') = Some i.
Proof.
  intros Hi Ha. assert (Hi2 : (i < 2)%nat).
  { apply lookup_lt_Some in Hi. assert (Hl : length (sys_threads (state_at n)) = 2%nat); [|lia].
    do 12 (destruct n as [|n]; [vm_compute; reflexivity|]). destruct n; vm_compute; reflexivity. }
  destruct (decide (n < 12)%nat) as [Hn|Hn].
  - destruct i as [|[|i]]; [|exists 11%nat; split; [lia|reflexivity]|lia].
    destruct (decide (n < 11)%nat); [exists 10%nat; split; [lia|reflexivity]|].
    assert (n = 11)%nat as -> by lia; vm_compute in Hi; by simplify_eq.
  - exfalso. do 12 (destruct n as [|n]; [lia|]).
    destruct i as [|[|i]]; [..|lia]; destruct n; vm_compute in Hi; simplify_eq; done.
Qed.

Lemma fair_build_terminates_witness :
  (sys_threads (state_at 9) = [TWaiting; TRunning 2] /\ sys_signalled (state_at 9) = true) /\
  exists n, sys_threads (state_at n) !! 0%nat = Some TExited.
Proof.
  split; [vm_compute; split; reflexivity|].
  exact (fair_build_terminates cfg nodes counts 0 None state_at ev_at demo_ok first_session state_at_steps state_at_fair).
Defined.

(** ** The queue as a list *)

Lemma Enqueue_shape q x q' : ring_ok q -> Enqueue q x = OK q' ->
  exists ns, q' = with_nodes ns (ring_write q x) /\ AvailableNodeCount (ring_write q x) = 1 + AvailableNodeCount q.
Proof.
  intros R H. unfold Enqueue in H. repeat inv_bind H.
  assert (Hw : 0 <= q_QueueWriteIndex q < zlen (q_Queue q)) by (destruct R as (_ & -> & _ & ?); done).
  rewrite (ring_mod q _ R) in *. rewrite zwrite_ok in * by done. simplify_eq. fold (ring_write q x) in *.
  match goal with E : upd_node _ _ _ = OK _ |- _ => unfold upd_node, get_node in E;
    destruct (q_NodeState (ring_write q x) !!z x) eqn:?; cbn in E; [simplify_eq|done] end.
  eexists. split; [done|]. unfold check in *. repeat case_match; try done. zbool.
  match goal with H : AvailableNodeCount (with_nodes _ _) = _ |- _ => exact H end.
Qed.

(** The ring buffer is a first-in first-out queue: an enqueue that passes
    its checks appends, a dequeue takes the head, and it finds nothing exactly
    when the queue is empty. The comparison [AvailableNodeCount(queue) == 1 +
    avail_init] alone rules out a full ring. *)
Theorem ring_is_fifo q x q' : ring_ok q ->
  (Enqueue q x = OK q' -> ring_ok q' /\ contents q' = contents q ++ [x]) /\
  (NextNode q = OK (q', Some x) -> ring_ok q' /\ contents q = x :: contents q') /\
  (NextNode q = OK (q', None) -> q' = q /\ contents q = []).
Proof.
  intros R. pose proof (avail_range q R) as Ha. pose proof (length_contents q R) as Hl. split_and!.
  - intros (ns & -> & Hav)%Enqueue_shape; [|done].
    assert (Hs : AvailableNodeCount q + 1 < q_QueueCapacity q).
    { rewrite avail_mod in Hav.
      - pose proof (Z.mod_pos_bound (q_QueueWriteIndex (ring_write q x) - q_QueueReadIndex (ring_write q x)) (q_QueueCapacity (ring_write q x))).
        change (q_QueueCapacity (ring_write q x)) with (q_QueueCapacity q) in *. lia.
      - destruct R as (? & ? & ? & ?). split; [done|]. cbn. rewrite zinsert_length.
        split; [done|]. split; [done|]. apply Z.mod_pos_bound. lia. }
    destruct (ring_write_ok q x R Hs) as (R' & _ & HC). done.
  - unfold NextNode. destruct (Z.eqb_spec 0 (AvailableNodeCount q)) as [|Hne]; [done|]. intros H.
    destruct (ring_read_ok q R) as (R' & n & Hn & HC); [lia|]. rewrite Hn in H. cbn [of_opt mbind res_bind] in H.
    rewrite (ring_mod q _ R) in H. fold (ring_read q) in H. repeat inv_bind H. unfold upd_node, get_node in *. simplify_eq.
    repeat match goal with E : (_ ← of_opt ?o; _) = OK _ |- _ => destruct o; cbn in E; [simplify_eq|done] end. done.
  - unfold NextNode. destruct (Z.eqb_spec 0 (AvailableNodeCount q)) as [E|].
    + intros [= <-]. split; [done|]. destruct (contents q); [done|]. rewrite length_cons in Hl. lia.
    + intros H. repeat inv_bind H. done.
Qed.

Definition popped : BuildQueue := match NextNode (sys_q s1) with OK (q, _) => q | Err _ => sys_q no_sys end.

Lemma s1_ring : ring_ok (sys_q s1).
Proof. split; [exists 3; vm_compute; intuition congruence|]. vm_compute. intuition congruence. Qed.

Lemma ring_is_fifo_witness : contents (sys_q s1) = 0 :: contents popped.
Proof.
  destruct (ring_is_fifo (sys_q s1) 0 popped s1_ring) as (_ & Hpop & _). apply Hpop. vm_compute. reflexivity.
Defined.

(** ** Up-to-date checks *)

Lemma OutputFilesDiffer_spec nd prev :
  Forall cstr_ok (map m_Filename (nd_OutputFiles nd)) -> Forall cstr_ok (nsd_OutputFiles prev) ->
  OutputFilesDiffer nd prev = false <-> nsd_OutputFiles prev = map m_Filename (nd_OutputFiles nd).
Proof.
  unfold OutputFilesDiffer. generalize (nd_OutputFiles nd) as a, (nsd_OutputFiles prev) as b. intros a b Ha Hb.
  destruct (Z.eqb_spec (zlen a) (zlen b)) as [El|El]; cbn.
  2:{ split; [done|]. intros ->. by rewrite length_map in El. }
  assert (El' : length a = length b) by lia. clear El. revert b Hb El'. induction a as [|f a IH]; intros [|s b] Hb El; try done.
  cbn in *. inversion Ha; inversion Hb; subst. pose proof (strcmp_eq (m_Filename f) s) as Hs.
  destruct (Z.eqb_spec (strcmp (m_Filename f) s) 0) as [E|E]; cbn.
  - rewrite IH by (done || lia). apply Hs in E; [|done..]. subst. split; [by intros ->|by intros [= ->]].
  - split; [done|]. intros [= -> ->]. destruct E. apply strcmp_refl.
Qed.

(** C25. A node is skipped as up to date exactly when the last build recorded
    it with the same input signature and result 0, for the same output files,
    and every output still exists; in every other case its action is to run. *)
Theorem up_to_date_iff exists_file nd prev_state signature :
  Forall cstr_ok (map m_Filename (nd_OutputFiles nd)) ->
  (forall prev, prev_state = Some prev -> Forall cstr_ok (nsd_OutputFiles prev)) ->
  let d := CheckInputSignature_decide exists_file nd prev_state signature in
  (d = kUpToDate <-> exists prev, prev_state = Some prev /\ nsd_InputSignature prev = signature /\
     nsd_BuildResult prev = 0 /\ nsd_OutputFiles prev = map m_Filename (nd_OutputFiles nd) /\
     forall f, f ∈ nd_OutputFiles nd -> exists_file (m_Filename f) = true) /\
  (d <> kUpToDate -> d = kRunAction).
Proof.
  intros Hc Hp. unfold CheckInputSignature_decide. destruct prev_state as [prev|]; [|naive_solver].
  pose proof (OutputFilesDiffer_spec nd prev Hc (Hp prev eq_refl)) as Ho.
  pose proof (digest_eq_spec (nsd_InputSignature prev) signature) as Hd.
  assert (Hm : OutputFilesMissing exists_file nd = false <-> forall f, f ∈ nd_OutputFiles nd -> exists_file (m_Filename f) = true).
  { unfold OutputFilesMissing. rewrite <- not_true_iff_false, existsb_exists. split.
    - intros H f Hf. destruct (exists_file _) eqn:E; [done|]. destruct H. exists f. rewrite E. by split; [apply list_elem_of_In|].
    - intros H (f & Hf%list_elem_of_In & E). by rewrite (H f Hf) in E. }
  assert (Hno : forall P : Prop, (P -> False) -> (kRunAction = kUpToDate <-> P) /\ (kRunAction <> kUpToDate -> kRunAction = kRunAction))
    by (intros P HP; split; [split; [done|by intros ?%HP]|done]).
  destruct (digest_eq (nsd_InputSignature prev) signature); cbn.
  2:{ apply Hno. intros (p & [= <-] & E & _). by apply Hd in E. }
  destruct (Z.eqb_spec (nsd_BuildResult prev) 0); cbn; [|by apply Hno; intros (p & [= <-] & _ & E & _)].
  destruct (OutputFilesDiffer nd prev); cbn; [apply Hno; intros (p & [= <-] & _ & _ & E & _); by apply Ho in E|].
  destruct (OutputFilesMissing exists_file nd); cbn.
  { apply Hno. intros (p & [= <-] & _ & _ & _ & E). by apply Hm in E. }
  split; [split; [|done]|done]. intros _. exists prev. split_and!; try done; [by apply Hd|by apply Ho|by apply Hm].
Qed.

Lemma up_to_date_iff_witness :
  let nd := mkNodeData None None [] 0 [] [] [] [mkFile (s2l "a.o") 0] [] [] None 0 in
  let prev := mkNodeStateData 0 (mkDigest 1 2) [s2l "a.o"] [] in
  CheckInputSignature_decide (fun _ => true) nd (Some prev) (mkDigest 1 2) = kUpToDate.
Proof.
  intros nd prev. apply (up_to_date_iff (fun _ => true) nd (Some prev) (mkDigest 1 2)).
  - repeat constructor; discriminate.
  - intros p [= <-]. repeat constructor; discriminate.
  - exists prev. repeat split; reflexivity.
Defined.

(** ** Two behaviours worth knowing *)

(** An expensive node whose command line is empty is marked succeeded without
    taking a slot, but still gives one back. *)
Module EmptyExpensive.

Definition data : list NodeData := [node "" 0 [] [] kFlagExpensive].
Definition config : BuildQueueConfig := mkConfig 0 1 data 1 [0] 1.
Definition start : sys :=
  match BuildQueueInit 0 0 0 [fresh 0 0] config with
  | OK q => state (Some (start_pass (mkSys q [TExited] false) 0 1 0))
  | Err _ => no_sys
  end.

End EmptyExpensive.

(** The static condition on expensive nodes is needed: a build of one
    expensive node without a command fails the check on [m_ExpensiveRunning]. *)
Theorem expensive_empty_action_faults :
  run EmptyExpensive.start [loop 0; sign 0] = Some (Err (CheckFailed "queue->m_ExpensiveRunning >= 0")).
Proof. vm_compute. reflexivity. Qed.

(** With kFlagContinueOnError the generator of the small build fails and the
    compilation that needs its output runs all the same. *)
Module KeepGoing.

Definition config : BuildQueueConfig := mkConfig kFlagContinueOnError 2 data 4 [0; 1; 2; -1; 3] 1.
Definition start : sys :=
  match BuildQueueInit 0 0 0 nodes config with
  | OK q => state (Some (start_pass (mkSys q [TExited; TReady] false) 0 3 0))
  | Err _ => no_sys
  end.
Definition late : sys := state (run start (to_mid ++ [exec 1 0; exec 0 1; loop 0; sign 0])).

End KeepGoing.

(** Completion is not success: under kFlagContinueOnError a thread runs the
    action of a node whose dependency has failed. *)
Theorem failed_dependency_still_runs :
  sys_threads KeepGoing.late !! 0%nat = Some (TRunning 1) /\ dep KeepGoing.config (map ns_MmapData nodes) 1 0 /\
  exists st, q_NodeState (sys_q KeepGoing.late) !!z 0 = Some st /\ ns_Progress st = kCompleted /\ ns_BuildResult st = 1.
Proof.
  split; [vm_compute; reflexivity|]. split.
  - exists (node "cc a" 0 [0] [4] kFlagExpensive), 0. split_and!; [reflexivity|left|reflexivity].
  - eexists. split; vm_compute; [reflexivity|]. split; reflexivity.
Qed.

