(* ===== verification/HashThms.v ===== *)
(** * Theorems about hashing

    What users of src/src/Hash.cpp, src/src/HashFast.cpp, src/src/HashSha1.cpp
    and of the string hashes of src/src/Common.cpp rely on. *)

From S2P Require Import Prelude CommonFns Hash HashImpl.

(** One call on a hash state between [HashInit] and [HashFinalize]. *)
Inductive hash_call : Type :=
| AddBytes (data : cstr)
| AddString (s : cstr)
| AddPath (ci : bool) (s : cstr)
| AddInteger (v : Z)
| AddSeparator.

Section Calls.
Context {B : HashBackend}.

Definition do_call (h : HashState) (c : hash_call) : HashState :=
  match c with
  | AddBytes data => HashUpdate h data
  | AddString s => HashAddString h s
  | AddPath ci s => HashAddPath ci h s
  | AddInteger v => HashAddInteger h v
  | AddSeparator => HashAddSeparator h
  end.

(** The bytes a call stands for. *)
Definition call_bytes (c : hash_call) : cstr :=
  match c with
  | AddBytes data => data
  | AddString s => cbytes s
  | AddPath ci s => if ci then map lower_ascii (cbytes s) else cbytes s
  | AddInteger v => big_endian64 v
  | AddSeparator => [NUL]
  end.

Lemma do_call_repr h msg c : hash_repr h msg -> hash_repr (do_call h c) (msg ++ call_bytes c).
Proof.
  intros H. destruct c as [d|s|ci s|v|]; cbn; try by apply HashUpdate_repr.
  destruct ci; [by apply HashAddStringFoldCase_repr|by apply HashUpdate_repr].
Qed.

Lemma do_calls_repr cs : forall h msg, hash_repr h msg ->
  hash_repr (foldl do_call h cs) (msg ++ concat (map call_bytes cs)).
Proof.
  induction cs as [|c cs IH]; intros h msg H; cbn; [by rewrite app_nil_r|].
  rewrite app_assoc. by apply IH, do_call_repr.
Qed.

(** C39. Streaming computes the digest of the concatenated message: for every
    sequence of calls, whatever the uninitialised buffer held, [HashFinalize]
    passes its two checks and its result depends only on the bytes, not on how
    they were cut into calls. *)
Theorem hash_streaming junk cs : length junk = 64%nat ->
  HashFinalize (foldl do_call (HashInit junk) cs) = OK (digest_of (concat (map call_bytes cs))).
Proof.
  intros Hj. apply HashFinalize_repr. apply (do_calls_repr cs (HashInit junk) []). by apply HashInit_repr.
Qed.

End Calls.

Lemma hash_streaming_witness :
  HashFinalize (B := FastBackend) (foldl do_call (HashInit zeroes64) [AddString (s2l "ab"); AddSeparator; AddBytes (s2l "c")]) =
  HashFinalize (B := FastBackend) (foldl do_call (HashInit zeroes64) [AddString (s2l "a"); AddString (s2l "b"); AddBytes (NUL :: s2l "c")]).
Proof.
  rewrite (hash_streaming (B := FastBackend) zeroes64 [AddString (s2l "ab"); AddSeparator; AddBytes (s2l "c")]) by reflexivity.
  rewrite (hash_streaming (B := FastBackend) zeroes64 [AddString (s2l "a"); AddString (s2l "b"); AddBytes (NUL :: s2l "c")]) by reflexivity.
  reflexivity.
Defined.

(** Case-insensitive and case-sensitive path hashing agree up to the case
    of letters: folding while hashing is hashing the lower-case string, so on a
    case-insensitive file system equal names hash equal. The hash is never 0,
    the value that marks a free slot of a hash table. *)
Theorem path_hash_folds ci a b : map lower_ascii a = map lower_ascii b ->
  Djb2HashPath true a = Djb2HashPath true b /\ Djb2HashPath true a = Djb2Hash (map lower_ascii a) /\
  0 < Djb2HashPath ci a < 2 ^ 32.
Proof.
  intros H. pose proof (Djb2HashPath_range ci a). cbn. rewrite !Djb2HashNoCase_lower. by rewrite H.
Qed.

Lemma path_hash_folds_witness : Djb2HashPath true (s2l "Foo.C") = Djb2HashPath true (s2l "fOO.c").
Proof. apply (path_hash_folds true (s2l "Foo.C") (s2l "fOO.c")). reflexivity. Defined.

(** The printed form of a digest determines it: 32 hexadecimal digits, and
    two digests that print the same are equal. *)
Theorem digest_string_injective a b : Fast.digest_ok a -> Fast.digest_ok b ->
  length (Fast.DigestToString a) = 32%nat /\ (Fast.DigestToString a = Fast.DigestToString b -> a = b).
Proof.
  intros Ha Hb. split; [|by apply DigestToString_inj_lemma].
  unfold Fast.DigestToString. by rewrite length_app, !length_DigestToString_word.
Qed.

Lemma digest_string_injective_witness : length (Fast.DigestToString (Fast.mkDigest 1 2)) = 32%nat.
Proof. apply (digest_string_injective (Fast.mkDigest 1 2) (Fast.mkDigest 1 2)); vm_compute; intuition congruence. Defined.

(** The padding of FIPS 180: a one bit, then the least number of zero bytes
    that leaves eight bytes of the block for the length. *)
Definition fips_padding (msg : cstr) : cstr :=
  [byte_of 128] ++ replicate (Z.to_nat ((55 - zlen msg) mod 64)) NUL ++ big_endian64 (u64 (zlen msg * 8)).

(** [HashFinalize] pads as the standard does except when the message ends
    one byte before the length field (length 55 modulo 64), where it inserts a
    whole block of zeroes. *)
Theorem padding_standard_except_55 msg :
  (zlen msg mod 64 <> 55 -> padding msg = fips_padding msg) /\
  (zlen msg mod 64 = 55 -> zlen (padding msg) = zlen (fips_padding msg) + 64).
Proof.
  unfold padding, fips_padding, pad_zeroes. set (n := zlen msg). pose proof (Z.mod_pos_bound n 64).
  assert (E1 : (n + 1) mod 64 = if n mod 64 =? 63 then 0 else n mod 64 + 1).
  { rewrite <- Zplus_mod_idemp_l. destruct (Z.eqb_spec (n mod 64) 63) as [ -> |]; [done|]. apply Z.mod_small. lia. }
  assert (E2 : (55 - n) mod 64 = if n mod 64 <=? 55 then 55 - n mod 64 else 119 - n mod 64).
  { rewrite <- Zminus_mod_idemp_r. destruct (Z.leb_spec (n mod 64) 55); [apply Z.mod_small; lia|].
    replace (55 - n mod 64) with (119 - n mod 64 + (-1) * 64) by lia. rewrite Z_mod_plus_full. apply Z.mod_small. lia. }
  rewrite E1, E2. split; intros Hn.
  - enough (E : forall r, 0 <= r < 64 -> r <> 55 ->
      (if (if r =? 63 then 0 else r + 1) <? 56 then 56 - (if r =? 63 then 0 else r + 1) else 120 - (if r =? 63 then 0 else r + 1)) =
      (if r <=? 55 then 55 - r else 119 - r)) by (by rewrite E by lia).
    intros r Hr Hr'. destruct (Z.eqb_spec r 63); [by subst|]. cbv iota. destruct (Z.ltb_spec (r + 1) 56), (Z.leb_spec r 55); lia.
  - rewrite Hn, !length_app, !length_replicate, !length_big_endian64. reflexivity.
Qed.

Lemma padding_standard_except_55_witness : padding (s2l "abc") = fips_padding (s2l "abc").
Proof. apply (padding_standard_except_55 (s2l "abc")). vm_compute. discriminate. Defined.

(** [NextPowerOfTwo] returns the least power of two that is at least its
    argument, for arguments 1 to 2^31, and passes its own check. *)
Theorem next_power_of_two val : 1 <= val <= 2 ^ 31 ->
  exists k, 0 <= k <= 31 /\ NextPowerOfTwo_checked val = OK (2 ^ k) /\ val <= 2 ^ k < 2 * val.
Proof.
  intros Hv. destruct (NextPowerOfTwo_bounds val Hv) as (k & Hk & Ek & Hb).
  exists k. rewrite NextPowerOfTwo_checked_OK, Ek by done. done.
Qed.

Lemma next_power_of_two_witness : exists k, 0 <= k <= 31 /\ NextPowerOfTwo_checked 5 = OK (2 ^ k) /\ 5 <= 2 ^ k < 2 * 5.
Proof. apply (next_power_of_two 5). lia. Defined.
