(* ===== verification/SortedArray.v ===== *)
(** * Sorted arrays

    Models src/src/SortedArrayUtil.hpp: [BinarySearch] (with the
    [std::lower_bound] it calls) and [TraverseSortedArrays], and states what is
    assumed of [std::sort]. *)

From stdpp Require Import sorting.
From S2P Require Import Prelude CommonFns Hash HashImpl DagData.

(** ** BinarySearch *)

Section Search.
Context {A : Type} (lt eq : A -> A -> bool).

(** [std::lower_bound] on [table[first .. first + count)]. *)
Fixpoint lower_bound (fuel : nat) (table : list A) (key : A) (first count : Z) : Z :=
  match fuel with
  | O => first
  | S fuel =>
      if 0 <? count then
        let step := Z.div count 2 in
        let mid := first + step in
        match table !!z mid with
        | Some x => if lt x key then lower_bound fuel table key (mid + 1) (count - (step + 1))
                    else lower_bound fuel table key first step
        | None => first
        end
      else first
  end.

(** The index of the element found; [nullptr] is [None]. *)
Definition BinarySearch (table : list A) (count : Z) (key : A) : option Z :=
  if 0 <? count then
    let iter := lower_bound (Z.to_nat count) table key 0 count in
    if iter =? count then None else
    match table !!z iter with
    | Some x => if eq x key then Some iter else None
    | None => None
    end
  else None.

End Search.

(** ** TraverseSortedArrays *)

(** The calls made: [inl i] is [callback1(i)], [inr i] is [callback2(i)]. The
    suffixes of the key arrays and the indices [i1], [i2] advance together. *)
Fixpoint traverse_from (keys1 : list HashDigest) (i1 : Z) : list HashDigest -> Z -> list (Z + Z) :=
  fix go (keys2 : list HashDigest) (i2 : Z) : list (Z + Z) :=
    match keys1, keys2 with
    | record_1 :: keys1', record_2 :: keys2' =>
        let compare := CompareHashDigests record_1 record_2 in
        if compare <=? 0 then
          inl i1 :: traverse_from keys1' (i1 + 1) (if 0 =? compare then keys2' else keys2) (if 0 =? compare then i2 + 1 else i2)
        else inr i2 :: go keys2' (i2 + 1)
    | _ :: keys1', [] => inl i1 :: traverse_from keys1' (i1 + 1) [] i2
    | [], _ :: keys2' => inr i2 :: go keys2' (i2 + 1)
    | [], [] => []
    end.

Definition TraverseSortedArrays (keys1 keys2 : list HashDigest) : list (Z + Z) := traverse_from keys1 0 keys2 0.

(** ** std::sort

    What the C++ standard promises: a permutation in which no element is less
    than an earlier one. Elements that compare equal come in any order. *)
Class StdSort : Type := {
  std_sort : forall {A : Type}, (A -> A -> bool) -> list A -> list A;
  std_sort_perm : forall {A : Type} (lt : A -> A -> bool) (l : list A), std_sort lt l ≡ₚ l;
  std_sort_sorted : forall {A : Type} (lt : A -> A -> bool) (l : list A),
    (forall x y z, lt x y = false -> lt y z = false -> lt x z = false) ->
    (forall x y, lt x y = true -> lt y x = false) ->
    StronglySorted (fun x y => lt y x = false) (std_sort lt l)
}.

(** An instance, for running the model: insertion sort. *)
Section Insertion.
Context {A : Type} (lt : A -> A -> bool).

Fixpoint insert (x : A) (l : list A) : list A :=
  match l with
  | [] => [x]
  | y :: l' => if lt y x then y :: insert x l' else x :: l
  end.

Definition insertion_sort (l : list A) : list A := foldr insert [] l.

Lemma insert_perm x l : insert x l ≡ₚ x :: l.
Proof.
  induction l as [|y l IH]; cbn; [done|]. destruct (lt y x); [|done].
  rewrite IH. by apply perm_swap.
Qed.

Lemma insertion_sort_perm l : insertion_sort l ≡ₚ l.
Proof. induction l as [|x l IH]; cbn; [done|]. by rewrite insert_perm, IH. Qed.

Hypothesis lt_trans : forall x y z, lt x y = false -> lt y z = false -> lt x z = false.
Hypothesis lt_asym : forall x y, lt x y = true -> lt y x = false.

Lemma insert_sorted x l : StronglySorted (fun x y => lt y x = false) l ->
  StronglySorted (fun x y => lt y x = false) (insert x l).
Proof.
  induction 1 as [|y l Hs IH Hf]; cbn; [repeat constructor|].
  destruct (lt y x) eqn:E; constructor; try done.
  - rewrite insert_perm. constructor; [by apply lt_asym|done].
  - by constructor.
  - constructor; [done|]. eapply Forall_impl; [exact Hf|]. cbn. intros z Hz. by eapply lt_trans.
Qed.

Lemma insertion_sort_sorted l : StronglySorted (fun x y => lt y x = false) (insertion_sort l).
Proof. induction l as [|x l IH]; cbn; [constructor|]. by apply insert_sorted. Qed.

End Insertion.

#[export] Instance insertion_std_sort : StdSort := {
  std_sort := @insertion_sort;
  std_sort_perm := @insertion_sort_perm;
  std_sort_sorted := fun A lt l H1 H2 => insertion_sort_sorted lt H1 H2 l
}.

(** ** Lemmas: binary search *)

Section SearchLemmas.
Context {A : Type} (lt eq : A -> A -> bool) (table : list A) (key : A).
(** Elements below [key] come first. *)
Hypothesis sorted : forall i j x y, table !!z i = Some x -> table !!z j = Some y -> i <= j ->
  lt y key = true -> lt x key = true.

Lemma lower_bound_spec fuel first count : count <= Z.of_nat fuel -> 0 <= first -> 0 <= count -> first + count <= zlen table ->
  (forall i x, 0 <= i < first -> table !!z i = Some x -> lt x key = true) ->
  (forall i x, first + count <= i -> table !!z i = Some x -> lt x key = false) ->
  let r := lower_bound lt fuel table key first count in
  first <= r <= first + count /\
  (forall i x, 0 <= i < r -> table !!z i = Some x -> lt x key = true) /\
  (forall i x, r <= i -> table !!z i = Some x -> lt x key = false).
Proof.
  revert first count. induction fuel as [|fuel IH]; intros first count Hf H0 Hc Hlen Hlo Hhi; cbn.
  { assert (count = 0) as -> by lia. rewrite Z.add_0_r in *. split_and!; auto; lia. }
  destruct (Z.ltb_spec 0 count) as [Hp|Hp].
  2:{ assert (count = 0) as -> by lia. rewrite Z.add_0_r in *. split_and!; auto; lia. }
  assert (Hst : 0 <= count / 2 < count) by (split; [apply Z.div_pos; lia|apply Z.div_lt; lia]).
  destruct (zlookup_is_Some table (first + count / 2)) as [x Hx]; [lia|]. rewrite Hx.
  destruct (lt x key) eqn:E.
  - destruct (IH (first + count / 2 + 1) (count - (count / 2 + 1))) as (Hr & Hl & Hh); try lia.
    + intros i y Hi Hy. eapply (sorted i (first + count / 2)); try done. lia.
    + intros i y Hi. apply Hhi. lia.
    + split_and!; try done; lia.
  - destruct (IH first (count / 2)) as (Hr & Hl & Hh); try lia; [done| |split_and!; try done; lia].
    intros i y Hi Hy. destruct (lt y key) eqn:Ey; [|done].
    by rewrite (sorted (first + count / 2) i x y Hx Hy ltac:(lia) Ey) in E.
Qed.

Hypothesis eq_spec : forall x, eq x key = true <-> x = key.
Hypothesis irrefl : lt key key = false.
Hypothesis total : forall x, lt x key = false -> x <> key -> lt key x = true.
Hypothesis above : forall i j x y, table !!z i = Some x -> table !!z j = Some y -> i <= j ->
  lt key x = true -> lt key y = true.

Lemma BinarySearch_spec : match BinarySearch lt eq table (zlen table) key with
  | Some i => table !!z i = Some key
  | None => key ∉ table
  end.
Proof.
  unfold BinarySearch. destruct (Z.ltb_spec 0 (zlen table)) as [Hp|Hp].
  2:{ destruct table; [apply not_elem_of_nil|rewrite length_cons in Hp; lia]. }
  destruct (lower_bound_spec (Z.to_nat (zlen table)) 0 (zlen table)) as (Hr & Hlo & Hhi); try lia.
  { intros i x Hi Hx. apply zlookup_lt in Hx. lia. }
  set (r := lower_bound _ _ _ _ _ _) in *.
  assert (Hin : key ∈ table -> exists i, table !!z i = Some key /\ r <= i).
  { intros [k Hk]%list_elem_of_lookup. rewrite <- zlookup_nat in Hk. exists (Z.of_nat k). split; [done|].
    destruct (decide (r <= Z.of_nat k)); [done|]. by rewrite (Hlo (Z.of_nat k) key ltac:(lia) Hk) in irrefl. }
  destruct (Z.eqb_spec r (zlen table)) as [E|E].
  { intros (i & Hi & ?)%Hin. apply zlookup_lt in Hi. lia. }
  destruct (zlookup_is_Some table r) as [x Hx]; [lia|]. rewrite Hx. destruct (eq x key) eqn:Ex.
  - by apply eq_spec in Ex as ->.
  - intros (i & Hi & Hle)%Hin. assert (x <> key) by (intros ->; rewrite (proj2 (eq_spec key)) in Ex; done).
    pose proof (above r i x key Hx Hi Hle (total x (Hhi r x ltac:(lia) Hx) ltac:(done))). congruence.
Qed.

End SearchLemmas.

(** ** Lemmas: strictly sorted digests *)

Abbreviation ssorted := (StronglySorted (fun a b => digest_lt a b = true)).

Lemma ssorted_lookup (l : list HashDigest) i j x y : ssorted l -> l !!z i = Some x -> l !!z j = Some y -> i < j ->
  digest_lt x y = true.
Proof.
  intros Hs Hi Hj Hij. pose proof (zlookup_lt _ _ _ Hi). pose proof (zlookup_lt _ _ _ Hj). unfold zlookup in *.
  rewrite bool_decide_true in Hi, Hj by lia. assert (Hn : (Z.to_nat i < Z.to_nat j)%nat) by lia.
  revert Hi Hj Hn. generalize (Z.to_nat i) (Z.to_nat j). clear -Hs. induction Hs as [|a l Hs IH Hf]; [done|].
  intros [|n] [|m] Hi Hj Hn; cbn in *; try lia.
  - simplify_eq. rewrite Forall_lookup in Hf. by eapply Hf.
  - apply (IH n m); [done..|lia].
Qed.

Lemma ssorted_nodup l : ssorted l -> NoDup l.
Proof.
  induction 1 as [|a l Hs IH Hf]; constructor; [|done]. intros Hin. rewrite Forall_forall in Hf.
  specialize (Hf a Hin). cbn in Hf. by rewrite digest_lt_irrefl in Hf.
Qed.

Lemma digest_search l key : ssorted l ->
  match BinarySearch digest_lt digest_eq l (zlen l) key with
  | Some i => l !!z i = Some key
  | None => key ∉ l
  end.
Proof.
  intros Hs. apply BinarySearch_spec.
  - intros i j x y Hi Hj Hij Hy. destruct (decide (i = j)) as [ -> |]; [by simplify_eq|].
    eapply digest_lt_trans; [|exact Hy]. apply (ssorted_lookup l i j); [done..|lia].
  - intros x. apply digest_eq_spec.
  - apply digest_lt_irrefl.
  - intros x Hx Hne. destruct (digest_lt_total x key) as [|[|]]; congruence.
  - intros i j x y Hi Hj Hij Hx. destruct (decide (i = j)) as [ -> |]; [by simplify_eq|].
    eapply digest_lt_trans; [exact Hx|]. apply (ssorted_lookup l i j); [done..|lia].
Qed.

(** ** Lemmas: traversal *)

Definition from_left (c : Z + Z) : option Z := match c with inl i => Some i | inr _ => None end.

(** The key a call is made for. *)
Definition call_key (keys1 keys2 : list HashDigest) (i1 i2 : Z) (c : Z + Z) : option HashDigest :=
  match c with inl i => keys1 !!z (i - i1) | inr i => keys2 !!z (i - i2) end.

Section Traverse.

Lemma traverse_nil_l keys2 i1 i2 : traverse_from [] i1 keys2 i2 = map inr (seqZ i2 (zlen keys2)).
Proof.
  revert i2. induction keys2 as [|b keys2 IH]; intros i2; [done|]. rewrite length_cons.
  rewrite seqZ_cons by lia. cbn [map]. change (traverse_from [] i1 (b :: keys2) i2) with (inr i2 :: traverse_from [] i1 keys2 (i2 + 1)).
  rewrite IH. do 3 f_equal; lia.
Qed.

Lemma traverse_nil_r keys1 i1 i2 : traverse_from keys1 i1 [] i2 = map inl (seqZ i1 (zlen keys1)).
Proof.
  revert i1. induction keys1 as [|a keys1 IH]; intros i1; [done|]. rewrite length_cons.
  rewrite seqZ_cons by lia. cbn [map]. change (traverse_from (a :: keys1) i1 [] i2) with (inl i1 :: traverse_from keys1 (i1 + 1) [] i2).
  rewrite IH. do 3 f_equal; lia.
Qed.

Lemma traverse_step a keys1 b keys2 i1 i2 : traverse_from (a :: keys1) i1 (b :: keys2) i2 =
  if CompareHashDigests a b <=? 0 then
    inl i1 :: traverse_from keys1 (i1 + 1) (if 0 =? CompareHashDigests a b then keys2 else b :: keys2)
                (if 0 =? CompareHashDigests a b then i2 + 1 else i2)
  else inr i2 :: traverse_from (a :: keys1) i1 keys2 (i2 + 1).
Proof. done. Qed.

(** Induction along the traversal of two strictly sorted arrays. *)
Lemma traverse_ind (P : list HashDigest -> Z -> list HashDigest -> Z -> list (Z + Z) -> Prop) :
  (forall i1 keys2 i2, ssorted keys2 -> P [] i1 keys2 i2 (map inr (seqZ i2 (zlen keys2)))) ->
  (forall keys1 i1 i2, ssorted keys1 -> P keys1 i1 [] i2 (map inl (seqZ i1 (zlen keys1)))) ->
  (forall a keys1 i1 keys2 i2 tr, ssorted (a :: keys1) -> ssorted (a :: keys2) ->
     P keys1 (i1 + 1) keys2 (i2 + 1) tr -> P (a :: keys1) i1 (a :: keys2) i2 (inl i1 :: tr)) ->
  (forall a keys1 i1 b keys2 i2 tr, digest_lt a b = true -> ssorted (a :: keys1) -> ssorted (b :: keys2) ->
     P keys1 (i1 + 1) (b :: keys2) i2 tr -> P (a :: keys1) i1 (b :: keys2) i2 (inl i1 :: tr)) ->
  (forall a keys1 i1 b keys2 i2 tr, digest_lt b a = true -> ssorted (a :: keys1) -> ssorted (b :: keys2) ->
     P (a :: keys1) i1 keys2 (i2 + 1) tr -> P (a :: keys1) i1 (b :: keys2) i2 (inr i2 :: tr)) ->
  forall keys1 i1 keys2 i2, ssorted keys1 -> ssorted keys2 -> P keys1 i1 keys2 i2 (traverse_from keys1 i1 keys2 i2).
Proof.
  intros H1 H2 H3 H4 H5 keys1. induction keys1 as [|a keys1 IH1]; intros i1 keys2 i2 S1 S2.
  { rewrite traverse_nil_l. by apply H1. }
  revert i2. induction keys2 as [|b keys2 IH2]; intros i2.
  { rewrite traverse_nil_r. by apply H2. }
  rewrite traverse_step. pose proof (CompareHashDigests_spec a b) as [Hz _].
  apply StronglySorted_inv in S1 as S1'. apply StronglySorted_inv in S2 as S2'.
  destruct (Z.eqb_spec 0 (CompareHashDigests a b)) as [E|E].
  - rewrite (proj2 (Z.leb_le _ _)) by lia. assert (a = b) as <- by (apply Hz; lia).
    apply H3; [done..|]. apply IH1; [apply S1'|apply S2'].
  - destruct (Z.leb_spec (CompareHashDigests a b) 0) as [E'|E'].
    + apply H4; [apply Z.ltb_lt; lia|done..|]. by apply IH1; [apply S1'|].
    + apply H5; [|done..|apply IH2, S2'].
      destruct (digest_lt_total a b) as [Hlt|[ -> |]]; [apply Z.ltb_lt in Hlt; lia| |done].
      destruct Hz as [_ Hz]. rewrite Hz in E by done. done.
Qed.

Lemma traverse_left keys1 i1 keys2 i2 : ssorted keys1 -> ssorted keys2 ->
  omap from_left (traverse_from keys1 i1 keys2 i2) = seqZ i1 (zlen keys1).
Proof.
  revert keys1 i1 keys2 i2. apply (traverse_ind (fun keys1 i1 keys2 i2 tr => omap from_left tr = seqZ i1 (zlen keys1))).
  - intros i1 keys2 i2 _. induction (seqZ i2 _) as [|x l IH]; [done|exact IH].
  - intros keys1 i1 i2 _. induction (seqZ i1 _) as [|x l IH]; [done|]. cbn. f_equal. exact IH.
  - intros a keys1 i1 keys2 i2 tr _ _ IH. rewrite length_cons, seqZ_cons by lia. cbn. rewrite IH. do 2 f_equal. lia.
  - intros a keys1 i1 b keys2 i2 tr _ _ _ IH. rewrite length_cons, seqZ_cons by lia. cbn. rewrite IH. do 2 f_equal. lia.
  - intros a keys1 i1 b keys2 i2 tr _ _ _ IH. exact IH.
Qed.

Lemma ssorted_head_notin a l k : ssorted (a :: l) -> k ∈ l -> digest_lt a k = true.
Proof. intros [_ Hf]%StronglySorted_inv Hk. rewrite Forall_forall in Hf. by apply Hf. Qed.

Lemma traverse_right keys1 i1 keys2 i2 : ssorted keys1 -> ssorted keys2 -> forall j,
  inr j ∈ traverse_from keys1 i1 keys2 i2 <-> exists k, keys2 !!z (j - i2) = Some k /\ k ∉ keys1.
Proof.
  revert keys1 i1 keys2 i2.
  apply (traverse_ind (fun keys1 i1 keys2 i2 tr => forall j, inr j ∈ tr <-> exists k, keys2 !!z (j - i2) = Some k /\ k ∉ keys1)).
  - intros i1 keys2 i2 _ j. rewrite list_elem_of_fmap. split.
    + intros (x & [= ->] & Hx). apply elem_of_seqZ in Hx. destruct (zlookup_is_Some keys2 (x - i2)) as [k Hk]; [lia|].
      exists k. split; [done|apply not_elem_of_nil].
    + intros (k & Hk & _). exists j. split; [done|]. apply elem_of_seqZ. apply zlookup_lt in Hk. lia.
  - intros keys1 i1 i2 _ j. rewrite list_elem_of_fmap. split; [by intros (x & [=] & _)|].
    intros (k & Hk & _). apply zlookup_lt in Hk. cbn in Hk. lia.
  - intros a keys1 i1 keys2 i2 tr S1 S2 IH j. rewrite elem_of_cons, IH. split.
    + intros [[=]|(k & Hk & Hn)]. exists k. pose proof (zlookup_lt _ _ _ Hk). rewrite zlookup_cons by lia.
      replace (j - i2 - 1) with (j - (i2 + 1)) by lia. split; [done|]. rewrite not_elem_of_cons. split; [|done].
      intros ->. pose proof (ssorted_head_notin a keys2 a S2 (zlookup_elem _ _ _ Hk)) as Hx. by rewrite digest_lt_irrefl in Hx.
    + intros (k & Hk & Hn). right. exists k. apply not_elem_of_cons in Hn as [Hka Hn]. split; [|done].
      pose proof (zlookup_lt _ _ _ Hk). destruct (decide (j = i2)) as [ -> |].
      { rewrite Z.sub_diag, zlookup_cons_0 in Hk. congruence. }
      rewrite zlookup_cons in Hk by lia. by replace (j - (i2 + 1)) with (j - i2 - 1) by lia.
  - intros a keys1 i1 b keys2 i2 tr Hab S1 S2 IH j. rewrite elem_of_cons, IH. split.
    + intros [[=]|(k & Hk & Hn)]. exists k. split; [done|]. rewrite not_elem_of_cons. split; [|done]. intros ->.
      pose proof (zlookup_elem _ _ _ Hk) as Hin. apply elem_of_cons in Hin as [ -> |Hin]; [by rewrite digest_lt_irrefl in Hab|].
      pose proof (ssorted_head_notin b keys2 a S2 Hin) as Hx. pose proof (digest_lt_trans _ _ _ Hab Hx) as Hy.
      by rewrite digest_lt_irrefl in Hy.
    + intros (k & Hk & Hn). right. exists k. split; [done|]. by apply not_elem_of_cons in Hn as [_ Hn].
  - intros a keys1 i1 b keys2 i2 tr Hba S1 S2 IH j. rewrite elem_of_cons, IH. split.
    + intros [[= ->]|(k & Hk & Hn)].
      * exists b. rewrite Z.sub_diag. split; [done|]. rewrite not_elem_of_cons. split; [intros ->; by rewrite digest_lt_irrefl in Hba|].
        intros Hin. pose proof (digest_lt_trans _ _ _ Hba (ssorted_head_notin a keys1 b S1 Hin)) as Hy. by rewrite digest_lt_irrefl in Hy.
      * exists k. pose proof (zlookup_lt _ _ _ Hk). rewrite zlookup_cons by lia. split; [|done].
        by replace (j - i2 - 1) with (j - (i2 + 1)) by lia.
    + intros (k & Hk & Hn). pose proof (zlookup_lt _ _ _ Hk). destruct (decide (j = i2)) as [ -> |]; [by left|right].
      rewrite zlookup_cons in Hk by lia. exists k. split; [|done]. by replace (j - (i2 + 1)) with (j - i2 - 1) by lia.
Qed.

Lemma call_key_l a keys1 keys2 i1 i2 c k : call_key keys1 keys2 (i1 + 1) i2 c = Some k ->
  call_key (a :: keys1) keys2 i1 i2 c = Some k.
Proof.
  destruct c as [i|i]; cbn; [|done]. intros H. pose proof (zlookup_lt _ _ _ H). rewrite zlookup_cons by lia.
  by replace (i - i1 - 1) with (i - (i1 + 1)) by lia.
Qed.

Lemma call_key_r b keys1 keys2 i1 i2 c k : call_key keys1 keys2 i1 (i2 + 1) c = Some k ->
  call_key keys1 (b :: keys2) i1 i2 c = Some k.
Proof.
  destruct c as [i|i]; cbn; [done|]. intros H. pose proof (zlookup_lt _ _ _ H). rewrite zlookup_cons by lia.
  by replace (i - i2 - 1) with (i - (i2 + 1)) by lia.
Qed.

Lemma seqZ_keys (keys : list HashDigest) i : Forall2 (fun j k => keys !!z (j - i) = Some k) (seqZ i (zlen keys)) keys.
Proof.
  apply Forall2_same_length_lookup_2; [rewrite length_seqZ; lia|]. intros n x y Hx Hy.
  apply lookup_seqZ in Hx as [ -> ?]. replace (i + Z.of_nat n - i) with (Z.of_nat n) by lia. by rewrite zlookup_nat.
Qed.

(** The calls come in strictly increasing order of key. *)
Lemma traverse_keys keys1 i1 keys2 i2 : ssorted keys1 -> ssorted keys2 ->
  exists ks, Forall2 (fun c k => call_key keys1 keys2 i1 i2 c = Some k) (traverse_from keys1 i1 keys2 i2) ks /\
  ssorted ks /\ (forall k, k ∈ ks -> k ∈ keys1 \/ k ∈ keys2).
Proof.
  revert keys1 i1 keys2 i2.
  apply (traverse_ind (fun keys1 i1 keys2 i2 tr => exists ks, Forall2 (fun c k => call_key keys1 keys2 i1 i2 c = Some k) tr ks /\
    ssorted ks /\ (forall k, k ∈ ks -> k ∈ keys1 \/ k ∈ keys2))).
  - intros i1 keys2 i2 S2. exists keys2. split_and!; [|done|auto]. apply Forall2_fmap_l, seqZ_keys.
  - intros keys1 i1 i2 S1. exists keys1. split_and!; [|done|auto]. apply Forall2_fmap_l, seqZ_keys.
  - intros a keys1 i1 keys2 i2 tr S1 S2 (ks & HF & Hs & Hin). exists (a :: ks). split_and!.
    + constructor; [cbn; by rewrite Z.sub_diag|]. eapply Forall2_impl; [exact HF|]. intros c k Hc. by apply call_key_l, call_key_r.
    + constructor; [done|]. apply Forall_forall. intros k [Hk|Hk]%Hin;
        [exact (ssorted_head_notin a keys1 k S1 Hk)|exact (ssorted_head_notin a keys2 k S2 Hk)].
    + intros k [ -> |[?|?]%Hin]%elem_of_cons; set_solver.
  - intros a keys1 i1 b keys2 i2 tr Hab S1 S2 (ks & HF & Hs & Hin). exists (a :: ks). split_and!.
    + constructor; [cbn; by rewrite Z.sub_diag|]. eapply Forall2_impl; [exact HF|]. intros c k Hc. by apply call_key_l.
    + constructor; [done|]. apply Forall_forall. intros k [Hk|[ -> |Hk]%elem_of_cons]%Hin;
        [exact (ssorted_head_notin a keys1 k S1 Hk)|done|].
      exact (digest_lt_trans _ _ _ Hab (ssorted_head_notin b keys2 k S2 Hk)).
    + intros k [ -> |[?|?]%Hin]%elem_of_cons; set_solver.
  - intros a keys1 i1 b keys2 i2 tr Hba S1 S2 (ks & HF & Hs & Hin). exists (b :: ks). split_and!.
    + constructor; [cbn; by rewrite Z.sub_diag|]. eapply Forall2_impl; [exact HF|]. intros c k Hc. by apply call_key_r.
    + constructor; [done|]. apply Forall_forall. intros k [[ -> |Hk]%elem_of_cons|Hk]%Hin;
        [done| |exact (ssorted_head_notin b keys2 k S2 Hk)].
      exact (digest_lt_trans _ _ _ Hba (ssorted_head_notin a keys1 k S1 Hk)).
    + intros k [ -> |[?|?]%Hin]%elem_of_cons; set_solver.
Qed.

End Traverse.

(** [BinarySearch] on a strictly sorted table finds the key exactly when it
    is there. *)
Theorem binary_search_finds l key : ssorted l ->
  match BinarySearch digest_lt digest_eq l (zlen l) key with
  | Some i => l !!z i = Some key
  | None => key ∉ l
  end.
Proof. apply digest_search. Qed.

Lemma binary_search_finds_witness :
  let l := [mkDigest 1 5; mkDigest 2 0; mkDigest 2 7] in
  BinarySearch digest_lt digest_eq l (zlen l) (mkDigest 2 7) = Some 2 /\
  match BinarySearch digest_lt digest_eq l (zlen l) (mkDigest 2 7) with
  | Some i => l !!z i = Some (mkDigest 2 7)
  | None => mkDigest 2 7 ∉ l
  end.
Proof.
  intros l. split; [vm_compute; reflexivity|]. apply (binary_search_finds l (mkDigest 2 7)).
  repeat constructor.
Defined.

(** [TraverseSortedArrays] over two strictly sorted arrays calls the first
    callback once for every element of the first array, in order; the second
    callback once for exactly the elements whose key is not in the first array;
    and all calls come in strictly increasing order of key. *)
Theorem traverse_merges keys1 keys2 : ssorted keys1 -> ssorted keys2 ->
  let tr := TraverseSortedArrays keys1 keys2 in
  omap from_left tr = seqZ 0 (zlen keys1) /\
  (forall j, inr j ∈ tr <-> exists k, keys2 !!z j = Some k /\ k ∉ keys1) /\
  exists ks, Forall2 (fun c k => call_key keys1 keys2 0 0 c = Some k) tr ks /\ ssorted ks.
Proof.
  intros S1 S2 tr. split_and!.
  - by apply traverse_left.
  - intros j. pose proof (traverse_right keys1 0 keys2 0 S1 S2 j) as H. by rewrite Z.sub_0_r in H.
  - destruct (traverse_keys keys1 0 keys2 0 S1 S2) as (ks & ? & ? & _). eauto.
Qed.

Lemma traverse_merges_witness : omap from_left (TraverseSortedArrays [mkDigest 1 0; mkDigest 3 0] [mkDigest 2 0; mkDigest 3 0]) = [0; 1].
Proof. apply (traverse_merges [mkDigest 1 0; mkDigest 3 0] [mkDigest 2 0; mkDigest 3 0]); repeat constructor. Defined.

(** ** Sorting by a digest *)

Section SortByKey.
Context `{StdSort} {A : Type} (key : A -> HashDigest).

Abbreviation by_key := (fun a b => digest_lt (key a) (key b)).

Lemma sorted_by_key_weak l : StronglySorted (fun x y => digest_lt (key y) (key x) = false) (std_sort by_key l).
Proof.
  apply (std_sort_sorted by_key).
  - intros x y z Hxy Hyz. destruct (digest_lt (key x) (key z)) eqn:E; [|done].
    destruct (digest_lt_total (key y) (key z)) as [|[Eyz|Hzy]]; [congruence|rewrite Eyz in Hxy; congruence|].
    pose proof (digest_lt_trans _ _ _ E Hzy). congruence.
  - intros x y Hxy. destruct (digest_lt (key y) (key x)) eqn:E; [|done]. pose proof (digest_lt_trans _ _ _ Hxy E) as Hx. by rewrite digest_lt_irrefl in Hx.
Qed.

Lemma weak_nodup_strict l : StronglySorted (fun x y => digest_lt (key y) (key x) = false) l -> NoDup (map key l) -> ssorted (map key l).
Proof.
  induction 1 as [|r k Hs IH Hf]; intros Hnd; [constructor|]. cbn [map] in *. apply NoDup_cons in Hnd as [Hn Hnd]. constructor; [by apply IH|].
  rewrite Forall_map. rewrite Forall_forall in Hf |- *. intros x Hx. specialize (Hf x Hx).
  destruct (digest_lt_total (key r) (key x)) as [|[E|]]; [done| |congruence]. destruct Hn. rewrite E. by apply (list_elem_of_fmap_2 key).
Qed.

Lemma sorted_by_key l : NoDup (map key l) -> std_sort by_key l ≡ₚ l /\ ssorted (map key (std_sort by_key l)).
Proof.
  intros Hnd. pose proof (std_sort_perm by_key l) as Hp. split; [done|]. apply weak_nodup_strict; [apply sorted_by_key_weak|by rewrite Hp].
Qed.
End SortByKey.
