(* ===== verification/HashTable.v ===== *)
(** * The string hash table

    Models src/src/HashTable.hpp: an open-addressing table with linear probing,
    grown fourfold when the load passes 80/256. The three parallel arrays of the
    struct, always allocated and indexed together, are one list of slots; a hash
    of zero marks a free slot. [HashSet] is the table without payloads. *)

From stdpp Require Import gmap.
From S2P Require Import Prelude CommonFns.

Section Table.
Context {T : Type} (zero : T).

Record slot : Type := mkSlot { sl_Hash : Z; sl_String : cstr; sl_Payload : T }.

Definition free_slot : slot := mkSlot 0 [] zero.

Record HashTable : Type := mkTable {
  ht_Slots : list slot;
  ht_TableSize : Z;
  ht_TableSizeShift : Z;
  ht_RecordCount : Z }.

Definition HashTableInit : HashTable := mkTable [] 0 0 0.

(** [HashTableDestroy] frees the arrays and initialises the table again. *)
Definition HashTableDestroy (self : HashTable) : HashTable := HashTableInit.

(** Characters are compared as [int]s made from (signed) chars. *)
Fixpoint FastCompareNoCase (lhs rhs : cstr) : Z :=
  let lc := match lhs with c :: _ => schar c | [] => 0 end in
  let rc := match rhs with c :: _ => schar c | [] => 0 end in
  let diff := FoldCase lc - FoldCase rc in
  if negb (diff =? 0) then diff
  else if (lc =? 0) || (rc =? 0) then 0
  else match lhs, rhs with
       | _ :: lhs', _ :: rhs' => FastCompareNoCase lhs' rhs'
       | _, _ => 0
       end.

(** [ci] is the template flag kFlagCaseInsensitive. *)
Definition compare_fn (ci : bool) (l r : cstr) : Z := if ci then FastCompareNoCase l r else strcmp l r.

Fixpoint lookup_loop (fuel : nat) (ci : bool) (slots : list slot) (size hash : Z) (string : cstr) (index : Z) : res Z :=
  match fuel with
  | O => Err OutOfFuel
  | S fuel =>
      candidate ← of_opt (slots !!z index);
      if sl_Hash candidate =? 0 then OK (-1)
      else if (hash =? sl_Hash candidate) && (compare_fn ci (sl_String candidate) string =? 0) then OK index
      else lookup_loop fuel ci slots size hash string (Z.land (u32 (index + 1)) (u32 (size - 1)))
  end.

Definition HashTableBaseLookup (ci : bool) (self : HashTable) (hash : Z) (string : cstr) : res Z :=
  let size := ht_TableSize self in
  if 0 =? size then OK (-1)
  else lookup_loop (Z.to_nat size) ci (ht_Slots self) size hash string (Z.land (u32 hash) (u32 (size - 1))).

Definition HashTableLookup (ci : bool) (self : HashTable) (hash : Z) (string : cstr) : res (option T) :=
  index ← HashTableBaseLookup ci self hash string;
  if -1 =? index then OK None else
  s ← of_opt (ht_Slots self !!z index);
  OK (Some (sl_Payload s)).

Definition HashSetLookup (ci : bool) (self : HashTable) (hash : Z) (string : cstr) : res bool :=
  index ← HashTableBaseLookup ci self hash string;
  OK (negb (-1 =? index)).

(** [while (hashes[index] != 0) index = (index + 1) & mask;] *)
Fixpoint probe (fuel : nat) (slots : list slot) (size index : Z) : res Z :=
  match fuel with
  | O => Err OutOfFuel
  | S fuel =>
      s ← of_opt (slots !!z index);
      if sl_Hash s =? 0 then OK index else probe fuel slots size (Z.land (u32 (index + 1)) (u32 (size - 1)))
  end.

(** One iteration of the loop of [HashTableGrow]. *)
Definition rehash (size : Z) (slots : list slot) (s : slot) : res (list slot) :=
  if sl_Hash s =? 0 then OK slots else
  index ← probe (Z.to_nat size) slots size (Z.land (u32 (sl_Hash s)) (u32 (size - 1)));
  zwrite index s slots.

Fixpoint rehash_all (size : Z) (slots old : list slot) : res (list slot) :=
  match old with
  | [] => OK slots
  | s :: old' => slots ← rehash size slots s; rehash_all size slots old'
  end.

Definition HashTableGrow (self : HashTable) : res HashTable :=
  let new_shift := Z.max (u32 (ht_TableSizeShift self + 2)) 7 in
  let new_size := u32 (Z.shiftl 1 new_shift) in
  slots ← rehash_all new_size (replicate (Z.to_nat new_size) free_slot) (ht_Slots self);
  OK (mkTable slots new_size new_shift (ht_RecordCount self)).

(** The index returned, with the payload of the slot left as it was. *)
Definition HashTableBaseInsert (self : HashTable) (hash : Z) (string : cstr) : res (HashTable * Z) :=
  let record_count := ht_RecordCount self in
  let load := Z.shiftr (u64 (0x100 * u32 (record_count + 1))) (ht_TableSizeShift self) in
  self ← (if 0x050 <? load then HashTableGrow self else OK self);
  let table_size := ht_TableSize self in
  index ← probe (Z.to_nat table_size) (ht_Slots self) table_size (Z.land (u32 hash) (u32 (table_size - 1)));
  old ← of_opt (ht_Slots self !!z index);
  slots ← zwrite index (mkSlot hash string (sl_Payload old)) (ht_Slots self);
  OK (mkTable slots table_size (ht_TableSizeShift self) (u32 (record_count + 1)), index).

Definition HashTableInsert (self : HashTable) (hash : Z) (string : cstr) (payload : T) : res HashTable :=
  '(self, index) ← HashTableBaseInsert self hash string;
  s ← of_opt (ht_Slots self !!z index);
  slots ← zwrite index (mkSlot (sl_Hash s) (sl_String s) payload) (ht_Slots self);
  OK (mkTable slots (ht_TableSize self) (ht_TableSizeShift self) (ht_RecordCount self)).

(** A write through the pointer [HashTableLookup] returns, when it is not null;
    the payload before the write is returned too. *)
Definition HashTableUpdate (ci : bool) (self : HashTable) (hash : Z) (string : cstr) (f : T -> T) : res (HashTable * option T) :=
  index ← HashTableBaseLookup ci self hash string;
  if -1 =? index then OK (self, None) else
  s ← of_opt (ht_Slots self !!z index);
  slots ← zwrite index (mkSlot (sl_Hash s) (sl_String s) (f (sl_Payload s))) (ht_Slots self);
  OK (mkTable slots (ht_TableSize self) (ht_TableSizeShift self) (ht_RecordCount self), Some (sl_Payload s)).

(** A set is a table without payloads. *)
Definition HashSetInsert (self : HashTable) (hash : Z) (string : cstr) : res HashTable :=
  '(self, _) ← HashTableBaseInsert self hash string;
  OK self.

(** The occupied slots in table order: the calls [HashTableWalk] makes, the
    position in the list being the index passed. *)
Definition entries (self : HashTable) : list slot := filter (fun s => sl_Hash s <> 0) (ht_Slots self).

Definition HashTableWalk (self : HashTable) : res (list slot) :=
  _ ← check (zlen (entries self) =? ht_RecordCount self) "index == self->m_RecordCount";
  OK (entries self).

(** ** Probing *)

(** Position [d] steps after [h]. *)
Definition pos (size h d : Z) : Z := (h + d) mod size.

Definition occupied (slots : list slot) (i : Z) : Prop := exists s, slots !!z i = Some s /\ sl_Hash s <> 0.

Definition pow2_size (size : Z) : Prop := exists k, 7 <= k <= 30 /\ size = 2 ^ k.

Lemma pow2_pos size : pow2_size size -> 128 <= size <= 2 ^ 30.
Proof.
  intros (k & Hk & ->). split; [apply (Z.pow_le_mono_r 2 7); lia|apply Z.pow_le_mono_r; lia].
Qed.

Lemma mask_size size x : pow2_size size -> Z.land (u32 x) (u32 (size - 1)) = x mod size.
Proof. intros (k & Hk & ->). apply mask_mod. lia. Qed.

Lemma pos_next size h d : 0 < size -> (pos size h d + 1) mod size = pos size h (d + 1).
Proof. intros. unfold pos. rewrite Zplus_mod_idemp_l. f_equal. lia. Qed.

Section Probe.
Context (size : Z) (slots : list slot).
Hypothesis Hsize : pow2_size size.
Hypothesis Hlen : zlen slots = size.

Lemma pos_lookup h d : exists s, slots !!z pos size h d = Some s.
Proof. apply zlookup_is_Some. rewrite Hlen. unfold pos. pose proof (pow2_pos size Hsize). apply Z.mod_pos_bound. lia. Qed.

(** The first free position at or after [h]. *)
Lemma probe_spec h n d fuel : (n < fuel)%nat -> ~ occupied slots (pos size h (d + Z.of_nat n)) ->
  exists e, d <= e <= d + Z.of_nat n /\ probe fuel slots size (pos size h d) = OK (pos size h e) /\
  ~ occupied slots (pos size h e) /\ forall c, d <= c < e -> occupied slots (pos size h c).
Proof.
  revert d fuel. induction n as [|n IH]; intros d fuel Hf Hfree; destruct fuel as [|fuel]; try lia; cbn [probe].
  - rewrite Z.add_0_r in Hfree. destruct (pos_lookup h d) as [s Hs]. rewrite Hs. cbn.
    destruct (Z.eqb_spec (sl_Hash s) 0); [|by destruct Hfree; exists s].
    exists d. split_and!; [lia|lia|done|done|intros c Hc; lia].
  - destruct (pos_lookup h d) as [s Hs]. rewrite Hs. cbn [of_opt mbind res_bind]. destruct (Z.eqb_spec (sl_Hash s) 0) as [E|E].
    + exists d. split_and!; [lia|lia|done| |intros c Hc; lia]. intros (s' & Hs' & ?). congruence.
    + rewrite mask_size, pos_next by (done || (pose proof (pow2_pos size Hsize); lia)).
      destruct (IH (d + 1) fuel) as (e & He & -> & Hfe & Hoc); [lia| |].
      { by replace (d + 1 + Z.of_nat n) with (d + Z.of_nat (S n)) by lia. }
      exists e. split_and!; try done; [lia|lia|]. intros c Hc. destruct (decide (c = d)) as [ -> |]; [by exists s|].
      apply Hoc. lia.
Qed.

Lemma probe_start h e0 : 0 <= e0 < size -> ~ occupied slots (pos size h e0) ->
  exists e, 0 <= e < size /\ probe (Z.to_nat size) slots size (h mod size) = OK (pos size h e) /\
  ~ occupied slots (pos size h e) /\ forall c, 0 <= c < e -> occupied slots (pos size h c).
Proof.
  intros He Hf. destruct (probe_spec h (Z.to_nat e0) 0 (Z.to_nat size)) as (e & He' & Hp & Hx); [lia|by rewrite Z.add_0_l, Z2Nat.id by lia|].
  exists e. split; [lia|]. unfold pos at 1 in Hp. rewrite Z.add_0_r in Hp. done.
Qed.

End Probe.

(** The index of a slot as a position after a hash. *)
Lemma index_pos size h i : 0 < size -> 0 <= i < size -> pos size h ((i - h) mod size) = i.
Proof.
  intros Hs Hi. unfold pos. rewrite Zplus_mod_idemp_r. replace (h + (i - h)) with i by lia. by apply Z.mod_small.
Qed.

Lemma pos_dist size h d : 0 <= d < size -> (pos size h d - h) mod size = d.
Proof.
  intros Hd. unfold pos. rewrite Zminus_mod_idemp_l. replace (h + d - h) with d by lia. by apply Z.mod_small.
Qed.

(** Every record can be reached by probing from its hash. *)
Definition probes_ok (size : Z) (slots : list slot) : Prop :=
  forall i s, slots !!z i = Some s -> sl_Hash s <> 0 ->
  forall d, 0 <= d < (i - sl_Hash s) mod size -> occupied slots (pos size (sl_Hash s) d).

Lemma occupied_insert slots i s j : sl_Hash s <> 0 -> 0 <= i < zlen slots -> occupied slots j \/ j = i -> occupied (zinsert i s slots) j.
Proof.
  intros Hs Hi. destruct (decide (j = i)) as [ -> |]; intros H.
  - exists s. by rewrite zlookup_insert_eq.
  - destruct H as [(s' & Hs' & ?)|]; [|done]. exists s'. by rewrite zlookup_insert_ne.
Qed.

Lemma filter_insert_free slots i s : ~ occupied slots i -> 0 <= i < zlen slots -> sl_Hash s <> 0 ->
  filter (fun s => sl_Hash s <> 0) (zinsert i s slots) ≡ₚ s :: filter (fun s => sl_Hash s <> 0) slots.
Proof.
  intros Hf Hi Hs. destruct (zlookup_is_Some slots i Hi) as [x Hx]. unfold zinsert, zlookup in *.
  rewrite bool_decide_true in * by lia. rewrite insert_take_drop by lia.
  rewrite <- (take_drop_middle slots (Z.to_nat i) x Hx) at 3. rewrite !filter_app.
  rewrite (filter_cons_True _ s) by done. rewrite (filter_cons_False _ x).
  - by rewrite Permutation_middle.
  - intros E. apply Hf. exists x. split; [|done]. unfold zlookup. by rewrite bool_decide_true by lia.
Qed.

(** Storing a record at the place probing finds. *)
Lemma place_ok size slots s e : pow2_size size -> zlen slots = size -> probes_ok size slots -> sl_Hash s <> 0 ->
  0 <= e < size -> ~ occupied slots (pos size (sl_Hash s) e) ->
  (forall c, 0 <= c < e -> occupied slots (pos size (sl_Hash s) c)) ->
  probes_ok size (zinsert (pos size (sl_Hash s) e) s slots) /\
  filter (fun s => sl_Hash s <> 0) (zinsert (pos size (sl_Hash s) e) s slots) ≡ₚ s :: filter (fun s => sl_Hash s <> 0) slots.
Proof.
  intros Hz Hlen Hp Hs He Hfree Hoc. pose proof (pow2_pos size Hz) as Hpos.
  set (i := pos size (sl_Hash s) e) in *. assert (Hi : 0 <= i < zlen slots) by (rewrite Hlen; apply Z.mod_pos_bound; lia).
  split; [|by apply filter_insert_free]. intros j t Hj Ht d Hd. apply occupied_insert; [done..|].
  destruct (decide (j = i)) as [ -> |Hne].
  - rewrite zlookup_insert_eq in Hj by done. simplify_eq. left. apply Hoc. unfold i in Hd. rewrite pos_dist in Hd by lia. lia.
  - rewrite zlookup_insert_ne in Hj by done. left. by apply (Hp j t).
Qed.

Lemma filter_true (l : list slot) : Forall (fun s => sl_Hash s <> 0) l -> filter (fun s => sl_Hash s <> 0) l = l.
Proof. induction 1; [done|]. rewrite filter_cons_True by done. by f_equal. Qed.

(** A table that is not full has a free position after any hash. *)
Lemma free_exists size slots h : pow2_size size -> zlen slots = size ->
  zlen (filter (fun s => sl_Hash s <> 0) slots) < size -> exists e, 0 <= e < size /\ ~ occupied slots (pos size h e).
Proof.
  intros Hz Hlen Hlt. pose proof (pow2_pos size Hz).
  assert (Hex : Exists (fun s => sl_Hash s = 0) slots).
  { destruct (decide (Exists (fun s => sl_Hash s = 0) slots)) as [|Hn]; [done|exfalso].
    assert (Hall : Forall (fun s => sl_Hash s <> 0) slots).
    { apply Forall_forall. intros s Hin E. apply Hn, Exists_exists. eauto. }
    rewrite filter_true in Hlt by done. lia. }
  apply Exists_exists in Hex as (s & [k Hk]%list_elem_of_lookup & E). rewrite <- zlookup_nat in Hk.
  pose proof (zlookup_lt _ _ _ Hk). exists ((Z.of_nat k - h) mod size). split; [apply Z.mod_pos_bound; lia|].
  rewrite index_pos by lia. intros (s' & Hs' & ?). congruence.
Qed.

(** ** The invariant *)

Abbreviation used := (filter (fun s : slot => sl_Hash s <> 0)).

(** The table has been allocated. *)
Record ht_live (t : HashTable) : Prop := {
  hl_shift : 7 <= ht_TableSizeShift t <= 30;
  hl_size : ht_TableSize t = 2 ^ ht_TableSizeShift t;
  hl_len : zlen (ht_Slots t) = ht_TableSize t;
  hl_probes : probes_ok (ht_TableSize t) (ht_Slots t);
  hl_count : ht_RecordCount t = zlen (entries t);
  hl_load : 256 * ht_RecordCount t < 81 * ht_TableSize t
}.

Definition ht_ok (t : HashTable) : Prop := t = HashTableInit \/ ht_live t.

Lemma count_entries t : ht_ok t -> ht_RecordCount t = zlen (entries t).
Proof. intros [->|L]; [done|apply L]. Qed.

Lemma live_pow2 t : ht_live t -> pow2_size (ht_TableSize t).
Proof. intros L. exists (ht_TableSizeShift t). pose proof (hl_shift t L). split; [lia|apply L]. Qed.

Lemma rehash_all_ok size old : forall slots, pow2_size size -> zlen slots = size -> probes_ok size slots ->
  zlen (used slots) + zlen (used old) < size ->
  exists slots', rehash_all size slots old = OK slots' /\ zlen slots' = size /\ probes_ok size slots' /\
  used slots' ≡ₚ used slots ++ used old.
Proof.
  induction old as [|s old IH]; intros slots Hz Hlen Hp Hlt; cbn [rehash_all].
  { exists slots. split_and!; try done. by rewrite app_nil_r. }
  unfold rehash. destruct (Z.eqb_spec (sl_Hash s) 0) as [E|E].
  { cbn [mbind res_bind]. rewrite filter_cons_False in Hlt |- * by naive_solver. by apply IH. }
  rewrite filter_cons_True in Hlt |- * by done. rewrite length_cons in Hlt.
  destruct (free_exists size slots (sl_Hash s) Hz Hlen) as (e0 & He0 & Hf0); [lia|].
  rewrite mask_size by done. destruct (probe_start size slots Hz Hlen (sl_Hash s) e0 He0 Hf0) as (e & He & -> & Hf & Hoc).
  cbn [mbind res_bind]. pose proof (pow2_pos size Hz).
  rewrite zwrite_ok by (rewrite Hlen; apply Z.mod_pos_bound; lia). cbn [mbind res_bind].
  destruct (place_ok size slots s e Hz Hlen Hp E He Hf Hoc) as [Hp' HP].
  destruct (IH (zinsert (pos size (sl_Hash s) e) s slots)) as (slots' & -> & Hl' & Hp'' & HP'); try done.
  - by rewrite zinsert_length.
  - rewrite HP, length_cons. lia.
  - exists slots'. split_and!; try done. rewrite HP', HP. cbn. by rewrite Permutation_middle.
Qed.

Lemma used_free n : used (replicate n free_slot) = [].
Proof. induction n as [|n IH]; [done|]. cbn [replicate]. by rewrite filter_cons_False by (cbn; naive_solver). Qed.

Lemma fresh_probes size n : probes_ok size (replicate n free_slot).
Proof.
  intros i s Hi Hs. pose proof (zlookup_lt _ _ _ Hi). unfold zlookup in Hi. rewrite bool_decide_true in Hi by lia.
  by apply lookup_replicate in Hi as [ -> _].
Qed.

(** [HashTableGrow] keeps the records and makes room. *)
Lemma grow_ok t : ht_ok t -> ht_TableSizeShift t <= 28 ->
  exists t', HashTableGrow t = OK t' /\ pow2_size (ht_TableSize t') /\ zlen (ht_Slots t') = ht_TableSize t' /\
  probes_ok (ht_TableSize t') (ht_Slots t') /\ entries t' ≡ₚ entries t /\ ht_RecordCount t' = ht_RecordCount t /\
  7 <= ht_TableSizeShift t' <= 30 /\ ht_TableSize t' = 2 ^ ht_TableSizeShift t' /\
  256 * (ht_RecordCount t + 1) < 81 * ht_TableSize t'.
Proof.
  intros Hok Hsh. unfold HashTableGrow.
  assert (Hs0 : 0 <= ht_TableSizeShift t) by (destruct Hok as [ -> |L]; [done|pose proof (hl_shift t L); lia]).
  rewrite (u32_small (_ + 2)) by (unfold in_u32; lia). set (k := Z.max _ 7).
  assert (Hk : 7 <= k <= 30) by lia. assert (H128 : 2 ^ 7 <= 2 ^ k) by (apply Z.pow_le_mono_r; lia).
  assert (Hmax : 2 ^ k <= 2 ^ 30) by (apply Z.pow_le_mono_r; lia).
  rewrite Z.shiftl_1_l, u32_small by (unfold in_u32; lia).
  assert (Hz : pow2_size (2 ^ k)) by (exists k; split; [lia|done]).
  assert (Hroom : 256 * (ht_RecordCount t + 1) < 81 * 2 ^ k /\ ht_RecordCount t = zlen (entries t)).
  { destruct Hok as [ -> |L]; [split; [cbn in *; lia|done]|]. pose proof (hl_load t L) as Hl. pose proof (hl_shift t L).
    rewrite (hl_size t L) in Hl. assert (2 ^ (ht_TableSizeShift t + 2) <= 2 ^ k) by (apply Z.pow_le_mono_r; lia).
    rewrite Z.pow_add_r in * by lia. split; [|apply L]. change (2 ^ 2) with 4 in *. lia. }
  destruct Hroom as [Hroom Hcnt].
  destruct (rehash_all_ok (2 ^ k) (ht_Slots t) (replicate (Z.to_nat (2 ^ k)) free_slot)) as (slots & -> & Hl & Hp & HP); try done.
  - rewrite length_replicate. lia.
  - apply fresh_probes.
  - rewrite used_free. cbn [length]. fold (entries t). lia.
  - cbn [mbind res_bind]. eexists. split; [done|]. cbn. split_and!; try done; try lia.
    unfold entries. cbn. by rewrite HP, used_free.
Qed.

(** The table [HashTableBaseInsert] stores into: grown if need be. *)
Lemma make_room t : ht_ok t -> ht_RecordCount t < 2 ^ 27 ->
  exists t0, (if 0x50 <? Z.shiftr (u64 (256 * u32 (ht_RecordCount t + 1))) (ht_TableSizeShift t) then HashTableGrow t else OK t) = OK t0 /\
  pow2_size (ht_TableSize t0) /\ zlen (ht_Slots t0) = ht_TableSize t0 /\
  probes_ok (ht_TableSize t0) (ht_Slots t0) /\ entries t0 ≡ₚ entries t /\ ht_RecordCount t0 = ht_RecordCount t /\
  7 <= ht_TableSizeShift t0 <= 30 /\ ht_TableSize t0 = 2 ^ ht_TableSizeShift t0 /\
  256 * (ht_RecordCount t + 1) < 81 * ht_TableSize t0.
Proof.
  intros Hok Hn. assert (Hc0 : 0 <= ht_RecordCount t) by (destruct Hok as [ -> |L]; [done|rewrite (hl_count t L); lia]).
  rewrite (u32_small (_ + 1)) by (unfold in_u32; lia). unfold u64. rewrite Z.mod_small by lia.
  destruct Hok as [ -> |L]; [apply (grow_ok HashTableInit); [by left|done]|].
  pose proof (hl_shift t L). rewrite Z.shiftr_div_pow2 by lia.
  pose proof (Z.pow_pos_nonneg 2 (ht_TableSizeShift t)) as Hp2.
  pose proof (Z.mul_div_le (256 * (ht_RecordCount t + 1)) (2 ^ ht_TableSizeShift t)).
  pose proof (Z.mul_succ_div_gt (256 * (ht_RecordCount t + 1)) (2 ^ ht_TableSizeShift t)).
  set (load := 256 * (ht_RecordCount t + 1) / 2 ^ ht_TableSizeShift t) in *.
  destruct (Z.ltb_spec 0x50 load) as [Hg|Hg].
  - apply grow_ok; [by right|]. destruct (Z.le_gt_cases (ht_TableSizeShift t) 28); [done|exfalso].
    assert (2 ^ 29 <= 2 ^ ht_TableSizeShift t) by (apply Z.pow_le_mono_r; lia). nia.
  - exists t. split_and!; try done; try apply L; [by apply live_pow2|]. rewrite (hl_size t L). nia.
Qed.

(** [HashTableInsert] adds one record. *)
Lemma insert_ok t hash string payload : ht_ok t -> 0 < hash < 2 ^ 32 -> ht_RecordCount t < 2 ^ 27 ->
  exists t', HashTableInsert t hash string payload = OK t' /\ ht_ok t' /\
  entries t' ≡ₚ mkSlot hash string payload :: entries t.
Proof.
  intros Hok Hh Hn. unfold HashTableInsert, HashTableBaseInsert.
  destruct (make_room t Hok Hn) as (t0 & -> & Hz & Hl & Hp & HP & Hc & Hsh & Hsz & Hroom). cbn [mbind res_bind].
  set (s := mkSlot hash string payload). pose proof (pow2_pos _ Hz).
  assert (Hcnt : zlen (used (ht_Slots t0)) = ht_RecordCount t).
  { change (used (ht_Slots t0)) with (entries t0). rewrite HP.
    destruct Hok as [ -> |L]; [done|by rewrite (hl_count t L)]. }
  destruct (free_exists (ht_TableSize t0) (ht_Slots t0) hash Hz Hl) as (e0 & He0 & Hf0); [lia|].
  rewrite mask_size by done. destruct (probe_start _ _ Hz Hl hash e0 He0 Hf0) as (e & He & -> & Hf & Hoc).
  cbn [mbind res_bind]. set (i := pos (ht_TableSize t0) hash e) in *.
  assert (Hi : 0 <= i < zlen (ht_Slots t0)) by (rewrite Hl; apply Z.mod_pos_bound; lia).
  destruct (zlookup_is_Some (ht_Slots t0) i Hi) as [o Ho]. rewrite Ho. cbn [of_opt mbind res_bind].
  rewrite zwrite_ok by done. cbn [mbind res_bind ht_Slots ht_TableSize ht_TableSizeShift ht_RecordCount].
  rewrite zlookup_insert_eq by done. cbn [of_opt mbind res_bind]. rewrite zwrite_ok by (by rewrite zinsert_length).
  cbn [mbind res_bind sl_Hash sl_String]. rewrite zinsert_twice. eexists. split; [done|].
  destruct (place_ok _ _ s e Hz Hl Hp) as [Hp' HP']; try done; [cbn; lia|].
  assert (HE : used (zinsert i s (ht_Slots t0)) ≡ₚ s :: entries t) by (by rewrite <- HP).
  split; [|exact HE]. right. assert (0 <= ht_RecordCount t) by (rewrite <- Hcnt; lia).
  rewrite u32_small by (unfold in_u32; lia).
  split; cbn [ht_Slots ht_TableSize ht_TableSizeShift ht_RecordCount]; try done.
  - by rewrite zinsert_length.
  - change (entries _) with (used (zinsert i s (ht_Slots t0))). rewrite HE, length_cons.
    assert (zlen (entries t) = ht_RecordCount t) by (rewrite <- Hcnt; change (used (ht_Slots t0)) with (entries t0); by rewrite HP).
    lia.
Qed.

(** Without a payload to set, [HashTableInsert] is [HashSetInsert]. *)
Lemma set_insert_ok t hash string t' : (forall x y : T, x = y) ->
  HashTableInsert t hash string zero = OK t' -> HashSetInsert t hash string = OK t'.
Proof.
  intros HT. unfold HashTableInsert, HashSetInsert. destruct (HashTableBaseInsert t hash string) as [[t1 i]|] eqn:E; [|done].
  cbn [mbind res_bind]. destruct (ht_Slots t1 !!z i) as [s|] eqn:Es; [|done]. cbn [of_opt mbind res_bind].
  assert (Hs : mkSlot (sl_Hash s) (sl_String s) zero = s) by (destruct s; f_equal; apply HT). rewrite Hs.
  unfold zwrite. rewrite Es. cbn [mbind res_bind]. rewrite zinsert_id by done. by destruct t1.
Qed.

(** ** Lookup *)

Definition matches (ci : bool) (hash : Z) (string : cstr) (s : slot) : bool :=
  (hash =? sl_Hash s) && (compare_fn ci (sl_String s) string =? 0).

Lemma lookup_loop_spec ci size slots hash string n d fuel : pow2_size size -> zlen slots = size -> (n < fuel)%nat ->
  ~ occupied slots (pos size hash (d + Z.of_nat n)) ->
  (lookup_loop fuel ci slots size hash string (pos size hash d) = OK (-1) /\
     exists e, d <= e <= d + Z.of_nat n /\ ~ occupied slots (pos size hash e) /\
     forall c s, d <= c < e -> slots !!z pos size hash c = Some s -> matches ci hash string s = false) \/
  exists i s, lookup_loop fuel ci slots size hash string (pos size hash d) = OK i /\ slots !!z i = Some s /\
     sl_Hash s <> 0 /\ matches ci hash string s = true.
Proof.
  intros Hz Hl. revert d fuel. induction n as [|n IH]; intros d fuel Hf Hfree; destruct fuel as [|fuel]; try lia; cbn [lookup_loop];
    destruct (pos_lookup size slots Hz Hl hash d) as [s Hs]; rewrite Hs; cbn [of_opt mbind res_bind];
    (destruct (Z.eqb_spec (sl_Hash s) 0) as [E|E]; [left; split; [done|]; exists d; split; [lia|]; split; [|intros c t Hc; lia];
      intros (t & Ht & ?); congruence|]).
  - rewrite Z.add_0_r in Hfree. destruct Hfree. by exists s.
  - fold (matches ci hash string s). destruct (matches ci hash string s) eqn:Em; [right; eauto 6|].
    rewrite mask_size, pos_next by (done || (pose proof (pow2_pos size Hz); lia)).
    destruct (IH (d + 1) fuel) as [(-> & e & He & Hfe & Hno)|?]; [lia| | |by right].
    { by replace (d + 1 + Z.of_nat n) with (d + Z.of_nat (S n)) by lia. }
    left. split; [done|]. exists e. split_and!; try done; [lia|lia|]. intros c t Hc Ht.
    destruct (decide (c = d)) as [ -> |]; [congruence|]. apply (Hno c t); [lia|done].
Qed.

(** [HashTableBaseLookup] ends, and finds a matching record when there is one. *)
Lemma base_lookup_ok ci t hash string : ht_ok t ->
  (HashTableBaseLookup ci t hash string = OK (-1) /\ forall s, s ∈ entries t -> matches ci hash string s = false) \/
  exists i s, HashTableBaseLookup ci t hash string = OK i /\ 0 <= i /\ ht_Slots t !!z i = Some s /\ s ∈ entries t /\
    matches ci hash string s = true.
Proof.
  intros [ -> |L]; [left; split; [done|]; by intros s ?%elem_of_nil|].
  pose proof (live_pow2 t L) as Hz. pose proof (pow2_pos _ Hz). pose proof (hl_len t L) as Hl.
  unfold HashTableBaseLookup. rewrite (proj2 (Z.eqb_neq 0 _)) by lia. rewrite mask_size by done.
  destruct (free_exists (ht_TableSize t) (ht_Slots t) hash Hz Hl) as (e0 & He0 & Hf0).
  { pose proof (hl_load t L). pose proof (hl_count t L). unfold entries in *. lia. }
  assert (Es : hash mod ht_TableSize t = pos (ht_TableSize t) hash 0) by (unfold pos; by rewrite Z.add_0_r). rewrite Es.
  destruct (lookup_loop_spec ci (ht_TableSize t) (ht_Slots t) hash string (Z.to_nat e0) 0 (Z.to_nat (ht_TableSize t)) Hz Hl)
    as [(-> & e & He & Hfe & Hno)|(i & s & -> & Hi & Hs & Hm)]; [lia|by rewrite Z.add_0_l, Z2Nat.id by lia|left|right].
  - split; [done|]. intros s Hin. apply list_elem_of_filter in Hin as [Hs Hin].
    apply list_elem_of_lookup in Hin as [k Hk]. rewrite <- zlookup_nat in Hk. pose proof (zlookup_lt _ _ _ Hk).
    destruct (matches ci hash string s) eqn:Em; [|done]. exfalso. pose proof Em as Em'.
    unfold matches in Em'. apply andb_true_iff in Em' as [Eh%Z.eqb_eq _]. subst hash.
    set (d := (Z.of_nat k - sl_Hash s) mod ht_TableSize t).
    assert (Hd : 0 <= d < ht_TableSize t) by (apply Z.mod_pos_bound; lia).
    assert (Hkd : pos (ht_TableSize t) (sl_Hash s) d = Z.of_nat k) by (apply index_pos; lia).
    destruct (Z.lt_ge_cases d e) as [Hlt|Hge].
    + rewrite (Hno d s) in Em; [done|lia|by rewrite Hkd].
    + destruct (decide (e = d)) as [ -> |Hne]; [apply Hfe; rewrite Hkd; by exists s|].
      apply Hfe. apply (hl_probes t L (Z.of_nat k) s Hk Hs). fold d. lia.
  - exists i, s. split_and!; try done; [apply zlookup_lt in Hi; lia|]. apply list_elem_of_filter. split; [done|].
    by eapply zlookup_elem.
Qed.

(** A lookup does not look at the payloads. *)
Lemma lookup_loop_payload ci slots size i s v : slots !!z i = Some s -> forall fuel hash string j,
  lookup_loop fuel ci (zinsert i (mkSlot (sl_Hash s) (sl_String s) v) slots) size hash string j = lookup_loop fuel ci slots size hash string j.
Proof.
  intros Hs fuel hash string. pose proof (zlookup_lt _ _ _ Hs). induction fuel as [|fuel IH]; intros j; cbn [lookup_loop]; [done|].
  rewrite zlookup_insert. case_bool_decide as Hd; [destruct Hd as [-> _]; rewrite Hs|];
    [cbn [of_opt mbind res_bind sl_Hash sl_String]|destruct (slots !!z j); [|done]; cbn [of_opt mbind res_bind]]; by rewrite IH.
Qed.

(** An update changes what lookups of its record answer and nothing else. *)
Lemma update_lookups ci t hash string f t' r : HashTableUpdate ci t hash string f = OK (t', r) ->
  HashTableLookup ci t' hash string = OK (f <$> r) /\
  forall h q, HashTableLookup ci t' h q = HashTableLookup ci t h q \/ exists v, r = Some v /\ HashTableLookup ci t' h q = OK (Some (f v)).
Proof.
  unfold HashTableUpdate. destruct (HashTableBaseLookup ci t hash string) as [i|] eqn:Ei; cbn [mbind res_bind]; [|done].
  destruct (Z.eqb_spec (-1) i) as [E1|E1].
  { intros [= <- <-]. split; [|by left]. unfold HashTableLookup. rewrite Ei. cbn [mbind res_bind]. by rewrite (proj2 (Z.eqb_eq (-1) i)). }
  destruct (ht_Slots t !!z i) as [s|] eqn:Hs; cbn [of_opt mbind res_bind]; [|done]. pose proof (zlookup_lt _ _ _ Hs).
  rewrite zwrite_ok by done. cbn [mbind res_bind]. intros [= <- <-]. set (t' := mkTable _ _ _ _).
  assert (Hsame : forall h q, HashTableBaseLookup ci t' h q = HashTableBaseLookup ci t h q).
  { intros h q. unfold HashTableBaseLookup. cbn [t' ht_TableSize ht_Slots]. case_match; [done|]. by apply lookup_loop_payload. }
  unfold HashTableLookup. split.
  - rewrite Hsame, Ei. cbn [mbind res_bind]. rewrite (proj2 (Z.eqb_neq (-1) i)) by done. cbn [t' ht_Slots]. by rewrite zlookup_insert_eq.
  - intros h q. rewrite Hsame. destruct (HashTableBaseLookup ci t h q) as [j|]; cbn [mbind res_bind]; [|by left].
    destruct (-1 =? j); [by left|]. cbn [t' ht_Slots]. rewrite zlookup_insert. case_bool_decide; [|by left]. right. eexists. done.
Qed.

(** Where a lookup answers, the record updated is the one found. *)
Lemma update_ok ci t hash string f : ht_ok t ->
  (HashTableUpdate ci t hash string f = OK (t, None) /\ HashTableLookup ci t hash string = OK None /\
     forall s, s ∈ entries t -> matches ci hash string s = false) \/
  exists t' s l1 l2, HashTableUpdate ci t hash string f = OK (t', Some (sl_Payload s)) /\
    HashTableLookup ci t hash string = OK (Some (sl_Payload s)) /\ ht_ok t' /\ matches ci hash string s = true /\
    ht_RecordCount t' = ht_RecordCount t /\
    entries t = l1 ++ s :: l2 /\ entries t' = l1 ++ mkSlot (sl_Hash s) (sl_String s) (f (sl_Payload s)) :: l2.
Proof.
  intros Hok. unfold HashTableUpdate, HashTableLookup.
  destruct (base_lookup_ok ci t hash string Hok) as [[-> Hno]|(i & s & -> & Hi & Hs & Hin & Hm)]; [by left|right].
  cbn [mbind res_bind]. rewrite (proj2 (Z.eqb_neq (-1) i)) by lia. rewrite Hs. cbn [of_opt mbind res_bind].
  pose proof (zlookup_lt _ _ _ Hs) as Hlt. rewrite zwrite_ok by done. cbn [mbind res_bind].
  set (s' := mkSlot _ _ _). apply list_elem_of_filter in Hin as [Hh _].
  assert (Hk : ht_Slots t !! Z.to_nat i = Some s) by (unfold zlookup in Hs; by rewrite bool_decide_true in Hs by lia).
  assert (Ei : zinsert i s' (ht_Slots t) = take (Z.to_nat i) (ht_Slots t) ++ s' :: drop (S (Z.to_nat i)) (ht_Slots t)).
  { unfold zinsert. rewrite bool_decide_true by lia. by rewrite insert_take_drop by lia. }
  assert (E1 : entries t = used (take (Z.to_nat i) (ht_Slots t)) ++ s :: used (drop (S (Z.to_nat i)) (ht_Slots t))).
  { unfold entries. rewrite <- (take_drop_middle _ _ _ Hk) at 1. by rewrite filter_app, filter_cons_True. }
  eexists _, s, _, _. split_and!; [done|done| |done|done|exact E1|].
  - right. destruct Hok as [->|L]; [done|]. pose proof (hl_count t L) as Hcnt.
    split; cbn [ht_Slots ht_TableSize ht_TableSizeShift ht_RecordCount]; try apply L.
    + rewrite zinsert_length. apply L.
    + intros j x Hj Hx d Hd. apply occupied_insert; [done..|]. left. rewrite zlookup_insert in Hj. case_bool_decide as Hd'.
      * destruct Hd' as [-> _]. injection Hj as <-. by apply (hl_probes t L j s).
      * by apply (hl_probes t L j x).
    + rewrite Hcnt, E1. unfold entries. cbn [ht_Slots]. rewrite Ei, filter_app, filter_cons_True by done. rewrite !length_app. done.
  - unfold entries. cbn [ht_Slots]. by rewrite Ei, filter_app, filter_cons_True.
Qed.

End Table.

Arguments slot : clear implicits.
Arguments HashTable : clear implicits.

(** ** String comparison *)

(** What a comparison function of the table distinguishes. *)
Definition canon (ci : bool) (s : cstr) : cstr := if ci then map lower_ascii s else s.

Lemma fold_schar c : FoldCase (schar c) = schar (lower_ascii c).
Proof. destruct c as [[] [] [] [] [] [] [] []]; vm_compute; reflexivity. Qed.

Lemma schar_inj c d : schar c = schar d -> c = d.
Proof.
  unfold schar. pose proof (uchar_range c). pose proof (uchar_range d). intros E. apply uchar_inj.
  repeat case_match; zbool; lia.
Qed.

Lemma schar_zero c : schar c = 0 <-> c = NUL.
Proof. split; [|by intros ->]. intros E. by apply schar_inj. Qed.

Lemma lower_nul c : lower_ascii c = NUL -> c = NUL.
Proof. destruct c as [[] [] [] [] [] [] [] []]; vm_compute; congruence. Qed.

Lemma FastCompareNoCase_spec a b : cstr_ok a -> cstr_ok b ->
  FastCompareNoCase a b = 0 <-> map lower_ascii a = map lower_ascii b.
Proof.
  intros Ha. revert b. induction Ha as [|c a Hc Ha IH]; intros [|d b] Hb.
  - done.
  - cbn [FastCompareNoCase]. apply Forall_cons in Hb as [Hd _]. rewrite fold_schar. change (FoldCase 0) with 0.
    destruct (Z.eqb_spec (0 - schar (lower_ascii d)) 0) as [E|E]; [|split; [done|by intros [=]]].
    destruct Hd. apply lower_nul, schar_zero. lia.
  - cbn [FastCompareNoCase]. rewrite fold_schar. change (FoldCase 0) with 0.
    destruct (Z.eqb_spec (schar (lower_ascii c) - 0) 0) as [E|E]; [|split; [done|by intros [=]]].
    destruct Hc. apply lower_nul, schar_zero. lia.
  - apply Forall_cons in Hb as [Hd Hb]. cbn [FastCompareNoCase map]. rewrite !fold_schar.
    destruct (Z.eqb_spec (schar (lower_ascii c) - schar (lower_ascii d)) 0) as [E|E]; cbn [negb].
    + rewrite (proj2 (Z.eqb_neq (schar c) 0)), (proj2 (Z.eqb_neq (schar d) 0)) by (by rewrite schar_zero). cbn [orb].
      rewrite IH by done. assert (lower_ascii c = lower_ascii d) as -> by (apply schar_inj; lia).
      split; [by intros ->|by intros [= ->]].
    + split; [done|]. intros [= Ec _]. rewrite Ec in E. lia.
Qed.

Lemma compare_fn_spec ci a b : cstr_ok a -> cstr_ok b -> compare_fn ci a b = 0 <-> canon ci a = canon ci b.
Proof.
  intros Ha Hb. destruct ci; cbn; [by apply FastCompareNoCase_spec|]. split; [by apply strcmp_eq|]. intros ->. apply strcmp_refl.
Qed.

(** ** The table as a finite map *)

Section Map.
Context {T : Type} (zero : T) (ci : bool).

Definition slot_key (s : slot T) : Z * cstr := (sl_Hash s, canon ci (sl_String s)).

(** Every key is stored once. *)
Definition keyed (t : HashTable T) : Prop :=
  NoDup (map slot_key (entries t)) /\ Forall (fun s => cstr_ok (sl_String s)) (entries t).

Definition table_map (t : HashTable T) : gmap (Z * cstr) T :=
  list_to_map (map (fun s => (slot_key s, sl_Payload s)) (entries t)).

Lemma map_fst_pairs (l : list (slot T)) : (map (fun s => (slot_key s, sl_Payload s)) l).*1 = map slot_key l.
Proof. induction l as [|s l IH]; cbn; [done|]. by f_equal. Qed.

Lemma matches_key hash string s : cstr_ok string -> cstr_ok (sl_String s) ->
  matches ci hash string s = true <-> slot_key s = (hash, canon ci string).
Proof.
  intros H1 H2. unfold matches, slot_key. rewrite andb_true_iff, !Z.eqb_eq, compare_fn_spec by done.
  split; [by intros [ -> -> ]|by intros [= -> ->]].
Qed.

Lemma table_map_lookup t k v : keyed t -> table_map t !! k = Some v <-> exists s, s ∈ entries t /\ slot_key s = k /\ sl_Payload s = v.
Proof.
  intros [Hn _]. unfold table_map. rewrite <- elem_of_list_to_map by (by rewrite map_fst_pairs).
  change (map ?f ?l) with (f <$> l). rewrite list_elem_of_fmap. split.
  - intros (s & [= -> ->] & Hs). eauto.
  - intros (s & Hs & <- & <-). eauto.
Qed.

Lemma lookup_refines t hash string : ht_ok t -> keyed t -> cstr_ok string ->
  HashTableLookup ci t hash string = OK (table_map t !! (hash, canon ci string)).
Proof.
  intros Hok Hk Hs. unfold HashTableLookup.
  destruct (base_lookup_ok ci t hash string Hok) as [[ -> Hno]|(i & s & -> & Hi & Hsi & Hin & Hm)]; cbn [mbind res_bind].
  - change (-1 =? -1) with true. cbv iota. f_equal. symmetry. apply eq_None_not_Some. intros [v Hv].
    apply table_map_lookup in Hv as (s & Hin & Hkey & _); [|done]. destruct Hk as [_ Hf]. rewrite Forall_forall in Hf.
    apply matches_key in Hkey; [|done|by apply Hf]. by rewrite (Hno s Hin) in Hkey.
  - rewrite (proj2 (Z.eqb_neq (-1) i)) by lia. rewrite Hsi. cbn. f_equal. symmetry. apply table_map_lookup; [done|].
    exists s. split_and!; try done. destruct Hk as [_ Hf]. rewrite Forall_forall in Hf. apply matches_key; [done|by apply Hf|done].
Qed.

Lemma insert_refines t hash string payload : ht_ok t -> keyed t -> cstr_ok string -> 0 < hash < 2 ^ 32 ->
  ht_RecordCount t < 2 ^ 27 -> table_map t !! (hash, canon ci string) = None ->
  exists t', HashTableInsert zero t hash string payload = OK t' /\ ht_ok t' /\ keyed t' /\
  table_map t' = <[(hash, canon ci string) := payload]> (table_map t) /\ entries t' ≡ₚ mkSlot hash string payload :: entries t.
Proof.
  intros Hok Hk Hs Hh Hn Hnone. destruct (insert_ok zero t hash string payload Hok Hh Hn) as (t' & E & Hok' & HP).
  assert (Hk' : keyed t').
  { destruct Hk as [Hnd Hf]. split.
    - rewrite HP. cbn. constructor; [|done]. intros (s & Hkey & Hin)%list_elem_of_In%in_map_iff.
      assert (table_map t !! (hash, canon ci string) = Some (sl_Payload s)); [|congruence].
      apply table_map_lookup; [done|]. exists s. split_and!; [by apply list_elem_of_In|done|done].
    - rewrite HP. by constructor. }
  exists t'. split_and!; try done. unfold table_map.
  rewrite (list_to_map_proper _ (map (fun s => (slot_key s, sl_Payload s)) (mkSlot hash string payload :: entries t))).
  - done.
  - rewrite map_fst_pairs. apply Hk'.
  - by rewrite HP.
Qed.

Lemma update_refines t hash string f : ht_ok t -> keyed t -> cstr_ok string ->
  exists t', HashTableUpdate ci t hash string f = OK (t', table_map t !! (hash, canon ci string)) /\ ht_ok t' /\ keyed t' /\
  ht_RecordCount t' = ht_RecordCount t /\ table_map t' = alter f (hash, canon ci string) (table_map t).
Proof.
  intros Hok Hk Hs. pose proof (lookup_refines t hash string Hok Hk Hs) as El.
  destruct (update_ok ci t hash string f Hok) as [(-> & E0 & _)|(t' & s & l1 & l2 & -> & E0 & Hok' & Hm & Hc & E1 & E2)];
    rewrite El in E0; injection E0 as E0; rewrite E0.
  - exists t. split_and!; try done. symmetry. apply alter_id. intros x Hx. congruence.
  - exists t'. assert (Ek : map slot_key (entries t') = map slot_key (entries t)) by (rewrite E1, E2, !map_app; done).
    assert (Hk' : keyed t').
    { destruct Hk as [Hn HF]. split; [by rewrite Ek|]. rewrite E1 in HF. rewrite E2. by decompose_Forall. }
    split_and!; try done. destruct Hk as [Hn HF]. rewrite Forall_forall in HF.
    assert (Hkey : slot_key s = (hash, canon ci string)) by (apply matches_key; [done|apply HF; rewrite E1; set_solver|done]).
    unfold table_map. rewrite E1, E2, !map_app. cbn [map sl_Payload]. rewrite <- Hkey.
    rewrite E1, map_app in Hn. cbn [map] in Hn. apply NoDup_app in Hn as (_ & Hd & _).
    assert (Hni : list_to_map (M := gmap (Z * cstr) T) (map (fun s => (slot_key s, sl_Payload s)) l1) !! slot_key s = None).
    { apply not_elem_of_list_to_map. change (map ?f ?l) with (f <$> l). rewrite <- list_fmap_compose.
      intros Hx. apply (Hd (slot_key s)); [exact Hx|set_solver]. }
    rewrite !list_to_map_app. cbn [list_to_map foldr]. cbn. apply map_eq. intros k. destruct (decide (k = slot_key s)) as [->|Hne].
    + rewrite lookup_alter_eq. rewrite !lookup_union_r by done. by rewrite !lookup_insert_eq.
    + rewrite lookup_alter_ne by done. rewrite !lookup_union, !lookup_insert_ne by done. done.
Qed.

Lemma walk_refines t : ht_ok t -> keyed t ->
  exists es, HashTableWalk t = OK es /\ map_to_list (table_map t) ≡ₚ map (fun s => (slot_key s, sl_Payload s)) es.
Proof.
  intros Hok [Hn _]. exists (entries t). split.
  - unfold HashTableWalk, check. destruct Hok as [ -> |L]; [done|]. by rewrite (hl_count t L), Z.eqb_refl.
  - unfold table_map. apply map_to_list_to_map. by rewrite map_fst_pairs.
Qed.

(** C38. The hash table implements a finite map from (hash, string) to payloads,
    strings being compared up to case when the table is case-insensitive: a
    lookup always ends and returns the map's value; an insert of a new key, with
    whatever growth it triggers, updates the map at that key; a walk visits
    exactly the map's bindings and its count check passes. *)
Theorem hash_table_refines_map t hash string payload : ht_ok t -> keyed t -> cstr_ok string ->
  HashTableLookup ci t hash string = OK (table_map t !! (hash, canon ci string)) /\
  (exists es, HashTableWalk t = OK es /\ map_to_list (table_map t) ≡ₚ map (fun s => (slot_key s, sl_Payload s)) es) /\
  (0 < hash < 2 ^ 32 -> ht_RecordCount t < 2 ^ 27 -> table_map t !! (hash, canon ci string) = None ->
   exists t', HashTableInsert zero t hash string payload = OK t' /\ ht_ok t' /\ keyed t' /\
   table_map t' = <[(hash, canon ci string) := payload]> (table_map t)).
Proof.
  intros Hok Hk Hs. split_and!; [by apply lookup_refines|by apply walk_refines|].
  intros Hh Hn H0. destruct (insert_refines t hash string payload Hok Hk Hs Hh Hn H0) as (t' & ? & ? & ? & ? & _). eauto 6.
Qed.

Lemma init_ok : ht_ok (HashTableInit (T := T)) /\ keyed HashTableInit /\ table_map HashTableInit = ∅.
Proof. split_and!; [by left|split; constructor|done]. Qed.

End Map.

Lemma hash_table_refines_map_witness :
  exists t', HashTableInsert 0 HashTableInit 7 (s2l "a.c") 42 = OK t' /\ ht_ok t' /\ keyed true t' /\
  table_map true t' = <[(7, s2l "a.c") := 42]> ∅.
Proof.
  refine (proj2 (proj2 (hash_table_refines_map 0 true HashTableInit 7 (s2l "a.c") 42 _ _ _)) _ _ _);
    [by left|split; constructor|repeat constructor; discriminate|lia|cbn; lia|reflexivity].
Defined.
