(* ===== verification/HashSet.v ===== *)
(** * Path sets

    [HashSet<kFlagPathStrings>] (HashTable.hpp) as its clients use it: keyed by
    the hash of the path, "insert unless already there". The set stands for the
    strings up to the case folding of the file system. *)

From stdpp Require Import gmap.
From S2P Require Import Prelude CommonFns HashTable.

Abbreviation HashSet := (HashTable unit).
Abbreviation empty_set := (HashTableInit (T := unit)).

Section PathSet.
Context (ci : bool).

(** [if (!HashSetLookup(set, hash, s)) HashSetInsert(set, hash, s);] *)
Definition set_add (set : HashSet) (hash : Z) (s : cstr) : res HashSet :=
  found ← HashSetLookup ci set hash s;
  match found with true => OK set | false => HashSetInsert tt set hash s end.

Definition strings (set : HashSet) : list cstr := map sl_String (entries set).
Definition keys (set : HashSet) : list cstr := map (canon ci) (strings set).

(** Every string is filed under its own hash. *)
Record set_ok (set : HashSet) : Prop := {
  so_table : ht_ok set;
  so_keyed : keyed ci set;
  so_hash : Forall (fun s => sl_Hash s = Djb2HashPath ci (sl_String s)) (entries set) }.

Lemma empty_set_ok : set_ok empty_set.
Proof. split; [by left|split; constructor|constructor]. Qed.

Lemma hash_canon a b : canon ci a = canon ci b -> Djb2HashPath ci a = Djb2HashPath ci b.
Proof. unfold canon, Djb2HashPath. destruct ci; [|by intros ->]. rewrite !Djb2HashNoCase_lower. by intros ->. Qed.

Lemma keys_elem set k : k ∈ keys set <-> exists s, s ∈ entries set /\ canon ci (sl_String s) = k.
Proof.
  unfold keys, strings. rewrite map_map. change (map ?f ?l) with (f <$> l). rewrite list_elem_of_fmap. naive_solver.
Qed.

Lemma keyed_strings set s : set_ok set -> s ∈ strings set -> cstr_ok s.
Proof.
  intros Hs. unfold strings. change (map ?f ?l) with (f <$> l). rewrite list_elem_of_fmap. intros (x & -> & Hx).
  destruct (so_keyed set Hs) as [_ HF]. rewrite Forall_forall in HF. by apply HF.
Qed.

Lemma keys_NoDup set : set_ok set -> NoDup (keys set).
Proof.
  intros Hs. destruct (so_keyed set Hs) as [Hn _]. pose proof (so_hash set Hs) as Hh. unfold keys, strings. rewrite map_map.
  revert Hn Hh. induction (entries set) as [|s l IH]; cbn; [constructor|]. intros Hn Hh. apply NoDup_cons in Hn as [Hni Hn].
  apply Forall_cons in Hh as [Hs0 Hh]. constructor; [|by apply IH]. intros (x & Ex & Hx)%list_elem_of_In%in_map_iff.
  apply Hni, list_elem_of_In, in_map_iff. exists x. split; [|done]. unfold slot_key. rewrite Ex, Hs0. f_equal.
  rewrite Forall_forall in Hh. rewrite (Hh x) by (by apply list_elem_of_In). by apply hash_canon.
Qed.

Lemma lookup_set set s : set_ok set -> cstr_ok s ->
  HashSetLookup ci set (Djb2HashPath ci s) s = OK (bool_decide (canon ci s ∈ keys set)).
Proof.
  intros Hs Hc. unfold HashSetLookup. destruct (so_keyed set Hs) as [_ HF]. rewrite Forall_forall in HF.
  destruct (base_lookup_ok ci set (Djb2HashPath ci s) s (so_table set Hs)) as [[-> Hno]|(i & x & -> & Hi & _ & Hin & Hm)]; cbn [mbind res_bind].
  - change (negb (-1 =? -1)) with false. f_equal. symmetry. apply bool_decide_eq_false. rewrite keys_elem. intros (x & Hx & Ex).
    pose proof (Hno x Hx) as Em. assert (matches ci (Djb2HashPath ci s) s x = true); [|congruence].
    apply matches_key; [done|by apply HF|]. unfold slot_key. rewrite Ex. f_equal. pose proof (so_hash set Hs) as Hh.
    rewrite Forall_forall in Hh. rewrite (Hh x Hx). by apply hash_canon.
  - rewrite (proj2 (Z.eqb_neq (-1) i)) by lia. f_equal. symmetry. apply bool_decide_eq_true. rewrite keys_elem. exists x. split; [done|].
    apply matches_key in Hm; [|done|by apply HF]. by injection Hm as _ ->.
Qed.

(** [set'] is [set] with the strings of [l] put in one after the other. *)
Record adds (set : HashSet) (l : list cstr) (set' : HashSet) : Prop := {
  ad_ok : set_ok set';
  ad_keys : forall k, k ∈ keys set' <-> k ∈ keys set \/ k ∈ map (canon ci) l;
  ad_from : forall s, s ∈ strings set' -> s ∈ strings set \/ s ∈ l;
  ad_size : zlen (entries set') <= zlen (entries set) + zlen l }.

Lemma adds_nil set : set_ok set -> adds set [] set.
Proof. intros. split; [done|set_solver|set_solver|lia]. Qed.

Lemma adds_app s1 l1 s2 l2 s3 : adds s1 l1 s2 -> adds s2 l2 s3 -> adds s1 (l1 ++ l2) s3.
Proof.
  intros [? K1 F1 Z1] [? K2 F2 Z2]. split; [done| | |].
  - intros k. rewrite K2, K1, map_app, elem_of_app. tauto.
  - intros s Hs. rewrite elem_of_app. destruct (F2 s Hs) as [Hs'|]; [|tauto]. destruct (F1 s Hs'); tauto.
  - rewrite length_app. lia.
Qed.

Lemma set_add_ok set s : set_ok set -> cstr_ok s -> zlen (entries set) < 2 ^ 27 ->
  exists set', set_add set (Djb2HashPath ci s) s = OK set' /\ adds set [s] set'.
Proof.
  intros Hs Hc Hn. unfold set_add. rewrite lookup_set by done. cbn [mbind res_bind]. case_bool_decide as Hin.
  - exists set. split; [done|]. split; [done| |set_solver|lia]. intros k. cbn. set_solver.
  - assert (Hnone : table_map ci set !! (Djb2HashPath ci s, canon ci s) = None).
    { apply eq_None_not_Some. intros [v Hv]. apply table_map_lookup in Hv as (x & Hx & Ek & _); [|apply Hs].
      apply Hin, keys_elem. exists x. by injection Ek. }
    assert (Hcount : ht_RecordCount set = zlen (entries set)).
    { destruct (so_table set Hs) as [->|L]; [done|by apply hl_count]. }
    destruct (insert_refines tt ci set (Djb2HashPath ci s) s tt (so_table _ Hs) (so_keyed _ Hs) Hc (Djb2HashPath_range ci s))
      as (set' & E & Hok & Hk & _ & HP); [lia|done|].
    exists set'. split; [apply set_insert_ok; [by intros [] []|done]|]. split.
    + split; [done|done|]. rewrite HP. constructor; [done|apply Hs].
    + intros k. rewrite !keys_elem. cbn. split.
      * intros (x & Hx & <-). rewrite HP in Hx. apply elem_of_cons in Hx as [->|Hx]; [right; set_solver|left; eauto].
      * intros [(x & Hx & <-)|Hx].
        -- exists x. split; [rewrite HP; set_solver|done].
        -- apply list_elem_of_singleton in Hx as ->. exists (mkSlot (Djb2HashPath ci s) s tt). split; [rewrite HP; set_solver|done].
    + intros x. unfold strings. change (map ?f ?l) with (f <$> l). rewrite list_elem_of_fmap. intros (y & -> & Hy).
      rewrite HP in Hy. apply elem_of_cons in Hy as [->|Hy]; [set_solver|]. left. apply list_elem_of_fmap. eauto.
    + rewrite HP. cbn. lia.
Qed.

(** A loop that adds the strings [g b] for every [b]. *)
Lemma foldM_adds {B} (f : HashSet -> B -> res HashSet) (g : B -> list cstr) l : forall set,
  (forall set b, b ∈ l -> set_ok set -> zlen (entries set) + zlen (g b) < 2 ^ 27 -> exists set', f set b = OK set' /\ adds set (g b) set') ->
  set_ok set -> zlen (entries set) + zlen (concat (map g l)) < 2 ^ 27 ->
  exists set', foldM f set l = OK set' /\ adds set (concat (map g l)) set'.
Proof.
  induction l as [|b l IH]; intros set Hf Hs Hn; cbn [foldM map concat] in *.
  { exists set. split; [done|by apply adds_nil]. }
  rewrite length_app in Hn. destruct (Hf set b) as (s1 & -> & A1); [set_solver|done|lia|]. cbn [mbind res_bind].
  destruct (IH s1) as (s2 & -> & A2); [intros; apply Hf; [set_solver|done|done]|apply A1|pose proof (ad_size _ _ _ A1); lia|].
  exists s2. split; [done|by eapply adds_app].
Qed.

End PathSet.
