(* ===== verification/StatCache.v ===== *)
(** * The stat cache

    FileInfo.hpp, FileInfo.cpp ([GetFileInfo]), StatCache.hpp, StatCache.cpp.
    The cache is shared by all build threads; [StatCacheStat] takes its lock
    twice, once to look the path up and once to insert what the file system
    answered, and other threads run in between. The operations are definitions
    here, and the interleavings of the threads that use them a step relation. *)

From stdpp Require Import gmap.
From S2P Require Import Prelude CommonFns HashTable HashSet.

(** ** File information *)

Record FileInfo : Type := mkInfo { fi_Flags : Z; fi_Size : Z; fi_Timestamp : Z }.

Definition kFlagExists : Z := Z.shiftl 1 0.
Definition kFlagError : Z := Z.shiftl 1 1.
Definition kFlagFile : Z := Z.shiftl 1 2.
Definition kFlagDirectory : Z := Z.shiftl 1 3.
Definition kFlagDirty : Z := Z.shiftl 1 30.

Definition Exists (i : FileInfo) : bool := negb (Z.land kFlagExists (fi_Flags i) =? 0).
Definition IsFile (i : FileInfo) : bool := negb (Z.land kFlagFile (fi_Flags i) =? 0).
Definition IsDirectory (i : FileInfo) : bool := negb (Z.land kFlagDirectory (fi_Flags i) =? 0).

(** What [stat] of the operating system answers: the fields of the buffer the
    program reads, or the value of [errno]. *)
Inductive stat_result : Type :=
| StatOK (st_mode st_mtime st_size : Z)
| StatFailed (errno : Z).

Definition S_IFMT : Z := 61440.
Definition S_IFDIR : Z := 16384.
Definition S_IFREG : Z := 32768.
Definition ENOENT : Z := 2.

Definition GetFileInfo (r : stat_result) : FileInfo :=
  match r with
  | StatOK st_mode st_mtime st_size =>
      let flags := kFlagExists in
      let flags := if Z.land st_mode S_IFMT =? S_IFDIR then Z.lor flags kFlagDirectory
                   else if Z.land st_mode S_IFMT =? S_IFREG then Z.lor flags kFlagFile else flags in
      mkInfo flags (u64 st_size) (u64 st_mtime)
  | StatFailed errno => mkInfo (if errno =? ENOENT then 0 else kFlagError) 0 0
  end.

(** ** The operations *)

Abbreviation StatCache := (HashTable FileInfo).
Definition no_info : FileInfo := mkInfo 0 0 0.

Definition StatCacheInit : StatCache := HashTableInit.

Section Ops.
Context (ci : bool).

Definition is_dirty (i : FileInfo) : bool := negb (Z.land (fi_Flags i) kFlagDirty =? 0).

Definition StatCacheInsert (self : StatCache) (hash : Z) (path : cstr) (info : FileInfo) : res StatCache :=
  HashTableInsert no_info self hash path info.

Definition StatCacheMarkDirty (self : StatCache) (path : cstr) (hash : Z) : res StatCache :=
  '(self, _) ← HashTableUpdate ci self hash path (fun fi => mkInfo kFlagDirty (fi_Size fi) (fi_Timestamp fi));
  OK self.

(** The part of [StatCacheStat] under the read lock: a clean record, if any. *)
Definition StatCacheStat_read (self : StatCache) (path : cstr) (hash : Z) : res (option FileInfo) :=
  fi ← HashTableLookup ci self hash path;
  match fi with
  | Some fi => if is_dirty fi then OK None else OK (Some fi)
  | None => OK None
  end.

(** [stat] is the file system at the time of the call. *)
Definition StatCacheStat (stat : cstr -> stat_result) (self : StatCache) (path : cstr) (hash : Z) : res (StatCache * FileInfo) :=
  fi ← StatCacheStat_read self path hash;
  match fi with
  | Some fi => OK (self, fi)
  | None =>
      let file_info := GetFileInfo (stat path) in
      self ← StatCacheInsert self hash path file_info;
      OK (self, file_info)
  end.

End Ops.

(** ** Threads

    [ss_Stat] is the file system, indexed by the canonical form of a path;
    [ss_Pending] the records read from it and not yet inserted; [ss_Busy] the
    paths being written, with whether they were marked dirty after the last
    write; [ss_Done] the paths that have been written. *)

Record stat_sys : Type := mkStat {
  ss_Cache : StatCache;
  ss_Stat : cstr -> stat_result;
  ss_Pending : list (cstr * FileInfo);
  ss_Busy : gmap cstr bool;
  ss_Done : gset cstr
}.

Section Threads.
Context (ci : bool).
(** The files written during the build, and the directories made for them. *)
Context (outputs dirs : gset cstr).
Context (Hdisj : outputs ## dirs).

Definition write_file (k : cstr) (r : stat_result) (stat : cstr -> stat_result) : cstr -> stat_result :=
  fun p => if bool_decide (p = k) then r else stat p.

Abbreviation key p := (canon ci p).
Abbreviation hash_of p := (Djb2HashPath ci p).

(** What the steps leave out is what the build graph rules out: an output is
    written by one action, nobody asks for it meanwhile, and before its action one
    thread at a time does, that of the node ([step_begin], [step_miss]). Everything
    else may happen at once: lookups of the same path by several threads, of
    outputs that have been written, of other files and of directories; and
    directories are made and marked by any thread at any time ([step_dir],
    [step_mark_dir]). *)
Inductive stat_step : stat_sys -> stat_sys -> Prop :=
| step_miss t stat pd busy dn p :
    cstr_ok p -> busy !! key p = None -> (key p ∈ outputs -> key p ∉ dn -> key p ∉ map (fun x => key x.1) pd) ->
    StatCacheStat_read ci t p (hash_of p) = OK None ->
    stat_step (mkStat t stat pd busy dn) (mkStat t stat ((p, GetFileInfo (stat (key p))) :: pd) busy dn)
| step_insert t stat pd1 pd2 busy dn p info t' :
    StatCacheInsert t (hash_of p) p info = OK t' ->
    stat_step (mkStat t stat (pd1 ++ (p, info) :: pd2) busy dn) (mkStat t' stat (pd1 ++ pd2) busy dn)
| step_begin t stat pd busy dn k :
    k ∈ outputs -> k ∉ dn -> k ∉ map (fun x => key x.1) pd ->
    stat_step (mkStat t stat pd busy dn) (mkStat t stat pd (<[k := false]> busy) ({[k]} ∪ dn))
| step_write t stat pd busy dn k r :
    is_Some (busy !! k) ->
    stat_step (mkStat t stat pd busy dn) (mkStat t (write_file k r stat) pd (<[k := false]> busy) dn)
| step_mark t stat pd busy dn p t' :
    cstr_ok p -> is_Some (busy !! key p) -> StatCacheMarkDirty ci t p (hash_of p) = OK t' ->
    stat_step (mkStat t stat pd busy dn) (mkStat t' stat pd (<[key p := true]> busy) dn)
| step_end t stat pd busy dn k :
    busy !! k = Some true ->
    stat_step (mkStat t stat pd busy dn) (mkStat t stat pd (delete k busy) dn)
| step_dir t stat pd busy dn k r :
    k ∈ dirs -> Exists (GetFileInfo r) = true ->
    stat_step (mkStat t stat pd busy dn) (mkStat t (write_file k r stat) pd busy dn)
| step_mark_dir t stat pd busy dn p t' :
    cstr_ok p -> key p ∈ dirs -> StatCacheMarkDirty ci t p (hash_of p) = OK t' ->
    stat_step (mkStat t stat pd busy dn) (mkStat t' stat pd busy dn).

(** ** The invariant *)

Definition slot_path (x : slot FileInfo) : cstr := key (sl_String x).

(** The records for every path, in the table or on their way to it. *)
Definition records (s : stat_sys) : list cstr :=
  map slot_path (entries (ss_Cache s)) ++ map (fun x => key x.1) (ss_Pending s).

Definition current (s : stat_sys) (k : cstr) : FileInfo := GetFileInfo (ss_Stat s k).

Record stat_inv (s : stat_sys) : Prop := {
  si_table : ht_ok (ss_Cache s);
  si_hash : forall x, x ∈ entries (ss_Cache s) -> cstr_ok (sl_String x) /\ sl_Hash x = hash_of (sl_String x);
  si_record : forall x, x ∈ entries (ss_Cache s) -> ss_Busy s !! slot_path x = None -> slot_path x ∉ dirs ->
    sl_Payload x = current s (slot_path x) \/ (is_dirty (sl_Payload x) = true /\ slot_path x ∈ ss_Done s);
  si_dirs : forall x, x ∈ entries (ss_Cache s) -> slot_path x ∈ dirs -> Exists (sl_Payload x) = true -> Exists (current s (slot_path x)) = true;
  si_pending : forall p i, (p, i) ∈ ss_Pending s -> cstr_ok p /\ ss_Busy s !! key p = None /\ (key p ∉ dirs -> i = current s (key p)) /\
    (key p ∈ dirs -> Exists i = true -> Exists (current s (key p)) = true);
  si_single : forall k, k ∈ outputs -> k ∉ ss_Done s \/ is_Some (ss_Busy s !! k) ->
    (length (filter (fun q => q = k) (records s)) <= 1)%nat;
  si_marked : forall x, x ∈ entries (ss_Cache s) -> ss_Busy s !! slot_path x = Some true -> is_dirty (sl_Payload x) = true;
  si_busy : forall k, is_Some (ss_Busy s !! k) -> k ∈ outputs /\ k ∈ ss_Done s
}.

Lemma get_clean r : is_dirty (GetFileInfo r) = false.
Proof. destruct r as [m t z|e]; cbn; repeat case_match; reflexivity. Qed.

Lemma matches_path x p : cstr_ok p -> cstr_ok (sl_String x) -> sl_Hash x = hash_of (sl_String x) ->
  matches ci (hash_of p) p x = true <-> slot_path x = key p.
Proof.
  intros Hp Hx Hh. rewrite matches_key by done. unfold slot_key, slot_path. split; [by intros [= _ ->]|].
  intros E. rewrite E, Hh. f_equal. by apply hash_canon.
Qed.

(** What the read lock protects: a clean record is the file's information. *)
Lemma read_ok s p : stat_inv s -> cstr_ok p -> ss_Busy s !! key p = None ->
  (StatCacheStat_read ci (ss_Cache s) p (hash_of p) = OK None /\
     (key p ∉ dirs -> key p ∉ ss_Done s -> key p ∉ map slot_path (entries (ss_Cache s)))) \/
  exists i, StatCacheStat_read ci (ss_Cache s) p (hash_of p) = OK (Some i) /\ (key p ∉ dirs -> i = current s (key p)) /\
    (key p ∈ dirs -> Exists i = true -> Exists (current s (key p)) = true).
Proof.
  intros I Hp Hb. unfold StatCacheStat_read, HashTableLookup.
  destruct (base_lookup_ok ci (ss_Cache s) (hash_of p) p (si_table s I)) as [[-> Hno]|(i & x & -> & Hi & Hs & Hin & Hm)]; cbn [mbind res_bind].
  - left. split; [done|]. intros _ _ (x & Ex & Hx)%list_elem_of_fmap. destruct (si_hash s I x Hx) as [Hc Hh].
    assert (matches ci (hash_of p) p x = true) by (by apply matches_path). by rewrite Hno in *.
  - rewrite (proj2 (Z.eqb_neq (-1) i)) by lia. rewrite Hs. cbn [of_opt mbind res_bind]. destruct (si_hash s I x Hin) as [Hc Hh].
    apply matches_path in Hm; try done. destruct (is_dirty (sl_Payload x)) eqn:Ed.
    + left. split; [done|]. intros Hnd Hnn _. destruct (si_record s I x Hin) as [E|[_ Hd]]; [by rewrite Hm..| |by rewrite Hm in Hd].
      rewrite E in Ed. unfold current in Ed. by rewrite get_clean in Ed.
    + right. exists (sl_Payload x). split; [done|]. rewrite <- Hm. split; [|by apply (si_dirs s I)].
      intros Hnd. destruct (si_record s I x Hin) as [E|[E _]]; [by rewrite Hm|done|done|congruence].
Qed.

Lemma count_cons (k q : cstr) l : length (filter (fun x => x = k) (q :: l)) = ((if bool_decide (q = k) then 1 else 0) + length (filter (fun x => x = k) l))%nat.
Proof. rewrite filter_cons. by repeat case_decide; case_bool_decide. Qed.

Lemma count_zero (k : cstr) l : k ∉ l -> length (filter (fun x => x = k) l) = 0%nat.
Proof.
  intros Hk. rewrite length_zero_iff_nil. destruct (filter (fun x => x = k) l) as [|q l'] eqn:E; [done|]. exfalso.
  assert (Hq : q ∈ filter (fun x => x = k) l) by (rewrite E; set_solver). apply list_elem_of_filter in Hq as [-> ?]. done.
Qed.

Lemma miss_inv t stat pd busy dn p : stat_inv (mkStat t stat pd busy dn) ->
  cstr_ok p -> busy !! key p = None -> (key p ∈ outputs -> key p ∉ dn -> key p ∉ map (fun x => key x.1) pd) ->
  StatCacheStat_read ci t p (hash_of p) = OK None ->
  stat_inv (mkStat t stat ((p, GetFileInfo (stat (key p))) :: pd) busy dn).
Proof.
  intros I Hp Hb Hpd E. pose proof (read_ok _ p I Hp Hb) as Hr. cbn [ss_Cache] in Hr.
  destruct Hr as [[_ Hno]|(? & Hr & _)]; [|congruence]. destruct I as [I1 I2 I3 I8 I4 I5 I6 I7]. split; try done; cbn in *.
  - intros q i [[= -> ->]|Hq]%elem_of_cons; [done|by apply I4].
  - intros k Hk Hd. specialize (I5 k Hk Hd). unfold records in *. cbn [ss_Cache ss_Pending map fst] in *.
    rewrite <- Permutation_middle, count_cons. case_bool_decide as Ek; [subst k|done].
    destruct Hd as [Hd|[b Hd]]; [|congruence]. rewrite count_zero; [lia|]. intros Hin. apply elem_of_app in Hin as [Hin|Hin].
    + apply (Hno ltac:(set_solver) Hd Hin).
    + by apply (Hpd Hk).
Qed.

Lemma insert_inv t stat pd1 pd2 busy dn p info t' : stat_inv (mkStat t stat (pd1 ++ (p, info) :: pd2) busy dn) ->
  ht_RecordCount t < 2 ^ 27 -> StatCacheInsert t (hash_of p) p info = OK t' ->
  stat_inv (mkStat t' stat (pd1 ++ pd2) busy dn).
Proof.
  intros [I1 I2 I3 I8 I4 I5 I6 I7] Hn E. cbn in *. unfold StatCacheInsert in E.
  destruct (insert_ok no_info t (hash_of p) p info I1 (Djb2HashPath_range ci p) Hn) as (t1 & E1 & Hok & HP).
  rewrite E1 in E. injection E as ->. destruct (I4 p info) as (Hp & Hb & Ei & Ed); [set_solver|]. unfold current in Ei, Ed. cbn in Ei, Ed.
  split; cbn; try done.
  - intros x. rewrite HP. intros [->|Hx]%elem_of_cons; [done|by apply I2].
  - intros x. rewrite HP. intros [->|Hx]%elem_of_cons; [left; by apply Ei|by apply I3].
  - intros x. rewrite HP. intros [->|Hx]%elem_of_cons; [by apply Ed|by apply I8].
  - intros q i Hq. apply I4. set_solver.
  - intros k Hk Hd. specialize (I5 k Hk Hd). unfold records in *. cbn [ss_Cache ss_Pending] in *. rewrite HP.
    etransitivity; [|exact I5]. rewrite !map_app. cbn [map fst]. rewrite !(assoc (++)), <- !Permutation_middle. done.
  - intros x. rewrite HP. intros [->|Hx]%elem_of_cons; [|by apply I6]. unfold slot_path. cbn [sl_String]. by rewrite Hb.
Qed.

Lemma mark_inv t stat pd busy dn p t' : stat_inv (mkStat t stat pd busy dn) ->
  cstr_ok p -> is_Some (busy !! key p) -> StatCacheMarkDirty ci t p (hash_of p) = OK t' ->
  stat_inv (mkStat t' stat pd (<[key p := true]> busy) dn).
Proof.
  intros [I1 I2 I3 I8 I4 I5 I6 I7] Hp Hb E. cbn in *. unfold StatCacheMarkDirty in E.
  assert (Hbusy : forall k, is_Some (<[key p:=true]> busy !! k) <-> is_Some (busy !! k)).
  { intros k. destruct (decide (k = key p)) as [->|]; [rewrite lookup_insert_eq; naive_solver|by rewrite lookup_insert_ne]. }
  destruct (update_ok ci t (hash_of p) p (fun fi => mkInfo kFlagDirty (fi_Size fi) (fi_Timestamp fi)) I1)
    as [(E1 & _ & Hno)|(t1 & x & l1 & l2 & E1 & _ & Hok & Hm & _ & El & El')]; rewrite E1 in E; injection E as <-.
  - split; cbn; try done.
    + intros x Hx. rewrite lookup_insert_None. intros [Hx' _]. by apply I3.
    + intros q i Hq. destruct (I4 q i Hq) as (? & Hbq & ? & ?). split_and!; try done. rewrite lookup_insert_ne; [done|].
      intros Eq. rewrite <- Eq in Hbq. destruct Hb. congruence.
    + intros k Hk Hd. apply I5; [done|]. by rewrite <- Hbusy.
    + intros x Hx. destruct (I2 x Hx). destruct (decide (slot_path x = key p)) as [Ek|Ek].
      * apply matches_path in Ek; try done. by rewrite Hno in Ek.
      * rewrite lookup_insert_ne by done. by apply I6.
    + intros k. rewrite Hbusy. apply I7.
  - set (x' := mkSlot _ _ _) in El'. assert (Hx : x ∈ entries t) by (rewrite El; set_solver). destruct (I2 x Hx) as [Hc Hh].
    apply matches_path in Hm; try done. destruct (I7 (key p) Hb) as [Ho Hd].
    assert (Hpaths : map slot_path (entries t1) = map slot_path (entries t)) by (rewrite El, El', !map_app; done).
    assert (Hcase : forall y, y ∈ entries t1 -> y = x' \/ (y ∈ entries t /\ slot_path y <> key p)).
    { intros y. rewrite El'. intros Hy. assert (Hy' : y = x' \/ y ∈ l1 ++ l2) by set_solver.
      destruct Hy' as [|Hyl]; [by left|right]. split; [rewrite El; set_solver|]. intros Ey.
      specialize (I5 (key p) Ho (or_intror Hb)). unfold records in I5. cbn [ss_Cache ss_Pending] in I5. rewrite El in I5.
      rewrite map_app in I5. cbn [map] in I5. rewrite <- app_assoc, <- app_comm_cons, <- Permutation_middle, count_cons in I5.
      rewrite bool_decide_true in I5 by done. assert (Hz : length (filter (fun q => q = key p) (map slot_path l1 ++ map slot_path l2 ++ map (fun x => key x.1) pd)) = 0%nat) by lia.
      rewrite length_zero_iff_nil in Hz. assert (Hin : key p ∈ @nil cstr); [|set_solver]. rewrite <- Hz. apply list_elem_of_filter. split; [done|].
      rewrite <- Ey. rewrite !elem_of_app. apply elem_of_app in Hyl as [Hyl|Hyl]; [left|right; left]; by apply (list_elem_of_fmap_2 slot_path). }
    split; cbn; try done.
    + intros y [->|[Hy _]]%Hcase; [done|by apply I2].
    + intros y [->|[Hy Hne]]%Hcase.
      * change (slot_path x') with (slot_path x). rewrite Hm, lookup_insert_eq. done.
      * rewrite lookup_insert_ne by done. by apply I3.
    + intros y [->|[Hy _]]%Hcase; [by intros _ [=]|by apply I8].
    + intros q i Hq. destruct (I4 q i Hq) as (? & Hbq & ? & ?). split_and!; try done. rewrite lookup_insert_ne; [done|].
      intros Eq. rewrite <- Eq in Hbq. destruct Hb. congruence.
    + intros k Hk Hd'. unfold records. cbn [ss_Cache ss_Pending]. rewrite Hpaths. apply (I5 k Hk). by rewrite <- Hbusy.
    + intros y [->|[Hy Hne]]%Hcase; [done|]. rewrite lookup_insert_ne by done. by apply I6.
    + intros k. rewrite Hbusy. apply I7.
Qed.

(** Nothing is asked of a path that is being written. *)
Lemma begin_stat_inv t stat pd busy dn k : stat_inv (mkStat t stat pd busy dn) ->
  k ∈ outputs -> k ∉ dn -> k ∉ map (fun x => key x.1) pd -> stat_inv (mkStat t stat pd (<[k := false]> busy) ({[k]} ∪ dn)).
Proof.
  intros [I1 I2 I3 I8 I4 I5 I6 I7] Hk Hd Hp. cbn in *. split; cbn; try done.
  - intros x Hx. rewrite lookup_insert_None. intros [Hx' _]. intros Hnd. destruct (I3 x Hx Hx' Hnd) as [?|[? ?]]; [by left|right; set_solver].
  - intros q i Hq. destruct (I4 q i Hq) as (? & Hbq & ? & ?). split_and!; try done. rewrite lookup_insert_ne; [done|].
    intros ->. apply Hp. by apply (list_elem_of_fmap_2 (fun x => key x.1) pd (q, i)).
  - intros q Hq Hd'. apply I5; [done|]. destruct (decide (q = k)) as [->|]; [by left|].
    rewrite lookup_insert_ne in Hd' by done. destruct Hd' as [Hd'|]; [left; set_solver|by right].
  - intros x Hx. rewrite lookup_insert_Some. intros [[_ ?]|[_ ?]]; [done|by apply I6].
  - intros q Hq. destruct (decide (q = k)) as [->|]; [set_solver|]. rewrite lookup_insert_ne in Hq by done. destruct (I7 q Hq). set_solver.
Qed.

Lemma write_inv t stat pd busy dn k r : stat_inv (mkStat t stat pd busy dn) -> is_Some (busy !! k) ->
  stat_inv (mkStat t (write_file k r stat) pd (<[k := false]> busy) dn).
Proof.
  intros [I1 I2 I3 I8 I4 I5 I6 I7] Hk. cbn in *.
  assert (Hbusy : forall q, is_Some (<[k:=false]> busy !! q) <-> is_Some (busy !! q)).
  { intros q. destruct (decide (q = k)) as [->|]; [rewrite lookup_insert_eq; naive_solver|by rewrite lookup_insert_ne]. }
  assert (Hcur : forall q, busy !! q = None -> write_file k r stat q = stat q).
  { intros q Hq. unfold write_file. case_bool_decide; [subst; destruct Hk; congruence|done]. }
  unfold current in *. cbn in *. split; cbn; try done.
  - intros x Hx. rewrite lookup_insert_None. intros [Hx' _]. unfold current. cbn. rewrite Hcur by done. by apply I3.
  - intros x Hx Hd. unfold current. cbn. rewrite Hcur; [by apply I8|]. destruct (busy !! slot_path x) eqn:Eb; [|done].
    destruct (I7 (slot_path x) ltac:(eauto)). set_solver.
  - intros q i Hq. destruct (I4 q i Hq) as (? & Hbq & ? & ?). unfold current. cbn. rewrite Hcur by done. split_and!; try done.
    rewrite lookup_insert_ne; [done|]. intros ->. destruct Hk; congruence.
  - intros q Hq Hd. apply I5; [done|]. by rewrite <- Hbusy.
  - intros x Hx. rewrite lookup_insert_Some. intros [[_ ?]|[_ ?]]; [done|by apply I6].
  - intros q. rewrite Hbusy. apply I7.
Qed.

Lemma end_inv t stat pd busy dn k : stat_inv (mkStat t stat pd busy dn) -> busy !! k = Some true ->
  stat_inv (mkStat t stat pd (delete k busy) dn).
Proof.
  intros [I1 I2 I3 I8 I4 I5 I6 I7] Hk. cbn in *. split; cbn; try done.
  - intros x Hx. rewrite lookup_delete_None. intros [Ek|Hx'] Hnd; [|by apply I3]. right. split; [apply I6; congruence|].
    rewrite <- Ek. apply I7. eauto.
  - intros q i Hq. destruct (I4 q i Hq) as (? & Hbq & ? & ?). split_and!; try done. rewrite lookup_delete_None. by right.
  - intros q Hq Hd. apply I5; [done|]. destruct Hd as [|[b Hb]]; [by left|right]. apply lookup_delete_Some in Hb as [_ Hb]. eauto.
  - intros x Hx. rewrite lookup_delete_Some. intros [_ ?]. by apply I6.
  - intros q [b Hb]. apply lookup_delete_Some in Hb as [_ Hb]. apply I7. eauto.
Qed.

(** Directories appear, and are marked, at any time. *)
Lemma dir_inv t stat pd busy dn k r : stat_inv (mkStat t stat pd busy dn) -> k ∈ dirs -> Exists (GetFileInfo r) = true ->
  stat_inv (mkStat t (write_file k r stat) pd busy dn).
Proof.
  intros [I1 I2 I3 I8 I4 I5 I6 I7] Hk Hr.
  assert (Hcur : forall q, q ∉ dirs -> write_file k r stat q = stat q).
  { intros q Hq. unfold write_file. by rewrite bool_decide_false by congruence. }
  assert (Hex : forall q, Exists (GetFileInfo (stat q)) = true -> Exists (GetFileInfo (write_file k r stat q)) = true).
  { intros q Hq. unfold write_file. by case_bool_decide. }
  unfold current in *. cbn in *. split; cbn; try done; unfold current; cbn.
  - intros x Hx Hb Hd. rewrite Hcur by done. by apply I3.
  - intros x Hx Hd He. by apply Hex, I8.
  - intros q i Hq. destruct (I4 q i Hq) as (? & ? & Hn & Hd). split_and!; [done|done| |auto]. intros Hq'. rewrite Hcur by done. auto.
Qed.

Lemma mark_dir_inv t stat pd busy dn p t' : stat_inv (mkStat t stat pd busy dn) ->
  cstr_ok p -> key p ∈ dirs -> StatCacheMarkDirty ci t p (hash_of p) = OK t' -> stat_inv (mkStat t' stat pd busy dn).
Proof.
  intros [I1 I2 I3 I8 I4 I5 I6 I7] Hp Hd E. cbn in *. unfold StatCacheMarkDirty in E.
  destruct (update_ok ci t (hash_of p) p (fun fi => mkInfo kFlagDirty (fi_Size fi) (fi_Timestamp fi)) I1)
    as [(E1 & _ & Hno)|(t1 & x & l1 & l2 & E1 & _ & Hok & Hm & _ & El & El')]; rewrite E1 in E; injection E as <-; [done|].
  set (x' := mkSlot _ _ _) in El'. assert (Hx : x ∈ entries t) by (rewrite El; set_solver). destruct (I2 x Hx) as [Hc Hh].
  apply matches_path in Hm; try done. change (slot_path x) with (slot_path x') in Hm.
  assert (Hpaths : map slot_path (entries t1) = map slot_path (entries t)) by (rewrite El, El', !map_app; done).
  assert (Hcase : forall y, y ∈ entries t1 -> y = x' \/ y ∈ entries t).
  { intros y. rewrite El', El. set_solver. }
  split; cbn; try done.
  - intros y [->|Hy]%Hcase; [done|by apply I2].
  - intros y [->|Hy]%Hcase; [by rewrite Hm|by apply I3].
  - intros y [->|Hy]%Hcase; [by intros _ [=]|by apply I8].
  - intros k Hk Hd'. unfold records. cbn [ss_Cache ss_Pending]. rewrite Hpaths. by apply I5.
  - intros y [->|Hy]%Hcase; [done|by apply I6].
Qed.

(** Runs of the system, with room in the table. *)
Inductive stat_run : stat_sys -> stat_sys -> Prop :=
| run_nil s : stat_run s s
| run_step s1 s2 s3 : ht_RecordCount (ss_Cache s1) < 2 ^ 27 -> stat_step s1 s2 -> stat_run s2 s3 -> stat_run s1 s3.

Lemma step_stat_inv s s' : ht_RecordCount (ss_Cache s) < 2 ^ 27 -> stat_step s s' -> stat_inv s -> stat_inv s'.
Proof.
  intros Hn Hst I. destruct Hst.
  - by apply miss_inv.
  - by eapply insert_inv.
  - by apply begin_stat_inv.
  - by apply write_inv.
  - by eapply mark_inv.
  - by apply end_inv.
  - by apply dir_inv.
  - by eapply mark_dir_inv.
Qed.

Lemma run_stat_inv s s' : stat_run s s' -> stat_inv s -> stat_inv s'.
Proof. induction 1; [done|]. intros. eauto using step_stat_inv. Qed.

Definition stat_start (stat : cstr -> stat_result) : stat_sys := mkStat StatCacheInit stat [] ∅ ∅.

Lemma start_stat_inv stat : stat_inv (stat_start stat).
Proof. split; cbn; try (by intros ? ?%elem_of_nil); try (by intros ? ? ?%elem_of_nil); [by left|intros; cbn; lia|by intros k [? ?]]. Qed.

(** C17. The stat cache is coherent under the guarantee of the build graph that
    StatCache.cpp relies on: an output is written by one action, nobody asks for it
    while it is written, and before that only the thread of its node does. After
    any interleaving of lookups and insertions by any number of threads, races for
    the same path included, of the actions' writes and the marking of what they
    wrote, and of the making and marking of directories, asking the cache for a
    path that nobody is writing ends, and the answer is the information the file
    system has at that moment; for a directory that the build makes, the answer
    that it exists is true (threads race to make it, and the answer that it is
    missing may be late). *)
Theorem stat_cache_coherent stat s p : stat_run (stat_start stat) s -> ht_RecordCount (ss_Cache s) < 2 ^ 27 ->
  cstr_ok p -> ss_Busy s !! key p = None ->
  exists t' i, StatCacheStat ci (fun q => ss_Stat s (key q)) (ss_Cache s) p (hash_of p) = OK (t', i) /\
  (key p ∉ dirs -> i = GetFileInfo (ss_Stat s (key p))) /\
  (key p ∈ dirs -> Exists i = true -> Exists (GetFileInfo (ss_Stat s (key p))) = true).
Proof.
  intros Hr Hn Hp Hb. pose proof (run_stat_inv _ _ Hr (start_stat_inv stat)) as I. unfold StatCacheStat.
  destruct (read_ok s p I Hp Hb) as [[-> _]|(i & -> & Hi)]; cbn [mbind res_bind]; [|eauto]. unfold StatCacheInsert.
  destruct (insert_ok no_info (ss_Cache s) (hash_of p) p (GetFileInfo (ss_Stat s (key p))) (si_table s I) (Djb2HashPath_range ci p) Hn)
    as (t' & -> & _). cbn. eauto 6.
Qed.

End Threads.

(** ** The contract for a thread that only asks

    While the file system stands still, a cache with room for [n] more records
    answers [n] questions with the truth. *)

Section Contract.
Context (ci : bool) (stat : cstr -> stat_result).
Context (Hcanon : forall p q, canon ci p = canon ci q -> stat p = stat q).

Record stat_valid (n : Z) (t : StatCache) : Prop := {
  sv_table : ht_ok t;
  sv_hash : forall x, x ∈ entries t -> cstr_ok (sl_String x) /\ sl_Hash x = Djb2HashPath ci (sl_String x);
  sv_info : forall x, x ∈ entries t -> is_dirty (sl_Payload x) = true \/ sl_Payload x = GetFileInfo (stat (sl_String x));
  sv_room : ht_RecordCount t + n < 2 ^ 27 }.

Lemma stat_valid_le n m t : m <= n -> stat_valid n t -> stat_valid m t.
Proof. intros Hm [? ? ? ?]. split; try done. lia. Qed.

Lemma stat_init_valid n : n < 2 ^ 27 -> stat_valid n StatCacheInit.
Proof. intros Hn. split; [by left|by intros ? ?%elem_of_nil|by intros ? ?%elem_of_nil|cbn; lia]. Qed.

Lemma stat_answers n t p : stat_valid n t -> 0 < n -> cstr_ok p ->
  exists t', StatCacheStat ci stat t p (Djb2HashPath ci p) = OK (t', GetFileInfo (stat p)) /\ stat_valid (n - 1) t'.
Proof.
  intros H Hn Hp. unfold StatCacheStat, StatCacheStat_read, HashTableLookup.
  assert (Hmiss : exists t', (self ← StatCacheInsert t (Djb2HashPath ci p) p (GetFileInfo (stat p)); OK (self, GetFileInfo (stat p))) =
    OK (t', GetFileInfo (stat p)) /\ stat_valid (n - 1) t').
  { pose proof (sv_room n t H) as Hr.
    destruct (insert_ok no_info t (Djb2HashPath ci p) p (GetFileInfo (stat p)) (sv_table n t H) (Djb2HashPath_range ci p)) as (t' & E & Hok & HP); [lia|].
    unfold StatCacheInsert. rewrite E. cbn [mbind res_bind]. exists t'. split; [done|]. split; [done| | |].
    - intros x. rewrite HP. intros [->|Hx]%elem_of_cons; [done|by apply (sv_hash n t H)].
    - intros x. rewrite HP. intros [->|Hx]%elem_of_cons; [by right|by apply (sv_info n t H)].
    - rewrite count_entries, HP by done. cbn [length]. rewrite count_entries in Hr by apply H. lia. }
  destruct (base_lookup_ok ci t (Djb2HashPath ci p) p (sv_table n t H)) as [[-> _]|(i & x & -> & Hi & Hs & Hin & Hm)]; cbn [mbind res_bind].
  - exact Hmiss.
  - rewrite (proj2 (Z.eqb_neq (-1) i)) by lia. rewrite Hs. cbn [of_opt mbind res_bind]. destruct (sv_hash n t H x Hin) as [Hc Hh].
    apply matches_path in Hm; try done. destruct (is_dirty (sl_Payload x)) eqn:Ed; cbn [mbind res_bind]; [exact Hmiss|].
    exists t. split; [|apply (stat_valid_le n); [lia|done]]. destruct (sv_info n t H x Hin) as [|E]; [congruence|].
    rewrite E. do 3 f_equal. by apply Hcanon.
Qed.

End Contract.

(** ** Marking *)

Section Marking.
Context (ci : bool).

(** What is left of a table when a record is marked. *)
Record marked_from (t t' : StatCache) : Prop := {
  mf_table : ht_ok t';
  mf_count : ht_RecordCount t' = ht_RecordCount t;
  mf_records : forall x, x ∈ entries t' -> exists y, y ∈ entries t /\ sl_String x = sl_String y /\ sl_Hash x = sl_Hash y /\
    (sl_Payload x = sl_Payload y \/ fi_Flags (sl_Payload x) = kFlagDirty);
  mf_missed : forall q h, StatCacheStat_read ci t q h = OK None -> StatCacheStat_read ci t' q h = OK None }.

Lemma marks_refl t : ht_ok t -> marked_from t t.
Proof. intros Ht. split; try done. intros x Hx. exists x. auto. Qed.

Lemma marks_trans t1 t2 t3 : marked_from t1 t2 -> marked_from t2 t3 -> marked_from t1 t3.
Proof.
  intros [A1 A2 A3 A4] [B1 B2 B3 B4]. split; [done|congruence| |auto]. intros x Hx. destruct (B3 x Hx) as (y & Hy & -> & -> & Ey).
  destruct (A3 y Hy) as (z & Hz & -> & -> & Ez). exists z. split_and!; try done. destruct Ey as [->|]; [done|by right].
Qed.

(** The record that a lookup finds is the one marked, so the next question for
    the path goes to the file system. *)
Lemma mark_ok t p h : ht_ok t -> exists t', StatCacheMarkDirty ci t p h = OK t' /\ marked_from t t' /\ StatCacheStat_read ci t' p h = OK None.
Proof.
  intros Ht. unfold StatCacheMarkDirty. set (f := fun fi => mkInfo kFlagDirty (fi_Size fi) (fi_Timestamp fi)).
  destruct (update_ok ci t h p f Ht) as [(E & El & _)|(t' & s & l1 & l2 & E & El & Hok & _ & Hc & E1 & E2)]; rewrite E; cbn [mbind res_bind].
  { exists t. split; [done|]. split; [by apply marks_refl|]. unfold StatCacheStat_read. by rewrite El. }
  exists t'. split; [done|]. destruct (update_lookups _ _ _ _ _ _ _ E) as [Hp Hq].
  split; [|unfold StatCacheStat_read; by rewrite Hp]. split; [done|done| |].
  - intros x. rewrite E1, E2. intros Hx. assert (Hx' : x = mkSlot (sl_Hash s) (sl_String s) (f (sl_Payload s)) \/ x ∈ l1 ++ s :: l2) by set_solver.
    destruct Hx' as [->|Hx']; [exists s|exists x; auto]. split_and!; [set_solver|done|done|by right].
  - intros q hq. unfold StatCacheStat_read. destruct (Hq hq q) as [->|(v & _ & ->)]; [done|]. intros _. reflexivity.
Qed.

End Marking.

(** An output is asked for, missing; two threads race to make its directory; the
    action writes the output and marks it; two threads race to look it up. *)
Module DemoStat.

Definition dir : cstr := s2l "out".
Definition path : cstr := s2l "out/a.o".
Definition hash : Z := Djb2HashPath false path.
Definition fresh (p : cstr) : stat_result := StatFailed ENOENT.
Definition made : cstr -> stat_result := write_file dir (StatOK S_IFDIR 900 0) fresh.
Definition written : cstr -> stat_result := write_file path (StatOK S_IFREG 1000 64) made.

Definition run {A} (d : A) (r : res A) : A := match r with OK a => a | Err _ => d end.
Definition put (p : cstr) (r : stat_result) (t : StatCache) : StatCache :=
  run StatCacheInit (StatCacheInsert t (Djb2HashPath false p) p (GetFileInfo r)).
Definition mark (p : cstr) (t : StatCache) : StatCache := run StatCacheInit (StatCacheMarkDirty false t p (Djb2HashPath false p)).

Definition asked : StatCache := put path (StatFailed ENOENT) StatCacheInit.
Definition raced : StatCache := mark dir (put dir (StatFailed ENOENT) (put dir (StatFailed ENOENT) asked)).
Definition marked : StatCache := mark path raced.
Definition shared : StatCache := put path (StatOK S_IFREG 1000 64) (put path (StatOK S_IFREG 1000 64) marked).
Definition busy : gmap cstr bool := delete path (<[path := true]> (<[path := false]> (<[path := false]> ∅))).
Definition final : stat_sys := mkStat shared written [] busy ({[path]} ∪ ∅).

Lemma reached : stat_run false {[path]} {[dir]} (stat_start fresh) final.
Proof.
  assert (Hp : cstr_ok path) by (repeat constructor; discriminate). assert (Hd : cstr_ok dir) by (repeat constructor; discriminate).
  set (missing := GetFileInfo (StatFailed ENOENT)). set (info := GetFileInfo (StatOK S_IFREG 1000 64)).
  eapply run_step; [cbn; lia|apply (step_miss false _ _ _ _ [] ∅ ∅ path); [done|apply lookup_empty|intros _ _ H; by apply elem_of_nil in H|reflexivity]|].
  eapply run_step; [cbn; lia|apply (step_insert false _ _ StatCacheInit fresh [] [] ∅ ∅ path missing asked); vm_compute; reflexivity|].
  eapply run_step; [vm_compute; reflexivity|apply (step_miss false _ _ asked _ [] ∅ ∅ dir); [done|apply lookup_empty|set_solver|vm_compute; reflexivity]|].
  eapply run_step; [vm_compute; reflexivity|apply (step_miss false _ _ asked _ [(dir, missing)] ∅ ∅ dir); [done|apply lookup_empty|set_solver|vm_compute; reflexivity]|].
  eapply run_step; [vm_compute; reflexivity|apply (step_dir false _ _ _ fresh _ _ _ dir (StatOK S_IFDIR 900 0)); [set_solver|reflexivity]|].
  eapply run_step; [vm_compute; reflexivity|apply (step_insert false _ _ asked made [] [(dir, missing)] ∅ ∅ dir missing); vm_compute; reflexivity|].
  eapply run_step; [vm_compute; reflexivity|eapply (step_insert false _ _ _ made [] [] ∅ ∅ dir missing); vm_compute; reflexivity|].
  eapply run_step; [vm_compute; reflexivity|apply (step_mark_dir false _ _ _ made [] ∅ ∅ dir raced); [done|set_solver|vm_compute; reflexivity]|].
  eapply run_step; [vm_compute; reflexivity|apply (step_begin false _ _ raced _ [] ∅ ∅ path); set_solver|].
  eapply run_step; [vm_compute; reflexivity|apply (step_write false _ _ _ made [] _ _ path (StatOK S_IFREG 1000 64)); rewrite lookup_insert_eq; eauto|].
  eapply run_step; [vm_compute; reflexivity|apply (step_mark false _ _ raced _ [] _ _ path marked); [done|vm_compute; eauto|vm_compute; reflexivity]|].
  eapply run_step; [vm_compute; reflexivity|apply (step_end false _ _ marked _ [] _ _ path); vm_compute; reflexivity|].
  eapply run_step; [vm_compute; reflexivity|apply (step_miss false _ _ marked written [] busy _ path); [done|vm_compute; reflexivity|set_solver|vm_compute; reflexivity]|].
  eapply run_step; [vm_compute; reflexivity|apply (step_miss false _ _ marked written _ busy _ path); [done|vm_compute; reflexivity|set_solver|vm_compute; reflexivity]|].
  eapply run_step; [vm_compute; reflexivity|apply (step_insert false _ _ marked written [] [(path, info)] busy _ path info); vm_compute; reflexivity|].
  eapply run_step; [vm_compute; reflexivity|apply (step_insert false _ _ _ written [] [] busy _ path info shared); vm_compute; reflexivity|].
  apply run_nil.
Qed.

End DemoStat.

Lemma stat_cache_coherent_witness :
  exists t', StatCacheStat false (fun q => ss_Stat DemoStat.final (canon false q)) (ss_Cache DemoStat.final) DemoStat.path
    (Djb2HashPath false DemoStat.path) = OK (t', mkInfo 5 64 1000).
Proof.
  destruct (stat_cache_coherent false {[DemoStat.path]} {[DemoStat.dir]} ltac:(set_solver) DemoStat.fresh DemoStat.final DemoStat.path DemoStat.reached)
    as (t' & i & E & Hi & _); [vm_compute; reflexivity|repeat constructor; discriminate|vm_compute; reflexivity|].
  exists t'. rewrite E, Hi; [reflexivity|]. apply (bool_decide_eq_false_1 _). vm_compute. reflexivity.
Defined.

(** Why the thread of the node has to be alone before the action. Two threads ask
    for an output that does not exist yet, and the table has two records of it, in
    its last slot and its first. The action writes the file, and the first of the
    records is marked. When the table grows the records change places, and the
    other, that says that the file is missing, is found. *)
Module EarlyRace.

Definition path : cstr := s2l "out/bq".
Definition others : list cstr := map (fun c => s2l "src/" ++ [c]) (s2l "abcdefghijklmnopqrstuvwxyzABCDEFGHIJKLM").
Definition marked : StatCache := DemoStat.mark path (DemoStat.put path (StatFailed ENOENT) (DemoStat.put path (StatFailed ENOENT) StatCacheInit)).
Definition grown : StatCache := foldl (fun t p => DemoStat.put p (StatOK S_IFREG 1 1) t) marked others.

End EarlyRace.

Lemma early_race_goes_stale : let h := Djb2HashPath false EarlyRace.path in
  StatCacheStat_read false EarlyRace.marked EarlyRace.path h = OK None /\
  StatCacheStat_read false EarlyRace.grown EarlyRace.path h = OK (Some (GetFileInfo (StatFailed ENOENT))).
Proof. vm_compute. split; reflexivity. Qed.

(** The record that was marked is never replaced: every later question misses,
    asks the file system again and adds one more record for the same path. *)
Lemma dirty_record_stays :
  exists t1 t2 t3, let ask t := StatCacheStat false DemoStat.written t DemoStat.path DemoStat.hash in
  let info := GetFileInfo (DemoStat.written DemoStat.path) in
  ask DemoStat.marked = OK (t1, info) /\ ask t1 = OK (t2, info) /\ ask t2 = OK (t3, info) /\
  ht_RecordCount DemoStat.marked = 3 /\ ht_RecordCount t1 = 4 /\ ht_RecordCount t2 = 5 /\ ht_RecordCount t3 = 6.
Proof.
  set (ask t := StatCacheStat false DemoStat.written t DemoStat.path DemoStat.hash).
  set (next t := (DemoStat.run (StatCacheInit, no_info) (ask t)).1).
  exists (next DemoStat.marked), (next (next DemoStat.marked)), (next (next (next DemoStat.marked))).
  vm_compute. auto 10.
Qed.
