(* ===== verification/IncludeScanner.v ===== *)
(** * Include scanners

    IncludeScanner.cpp: the functions that find the includes of one file. A
    [char*] into the buffer is the rest of the array from there, its terminator
    included, so a read beyond the array is a fault. The buffer is cut into
    lines in place, by a NUL over every line feed. *)

From S2P Require Import Prelude CType CommonFns Hash HashImpl DagData.

Record IncludeData : Type := mkInclude {
  id_String : cstr; id_StringLen : Z; id_IsSystemInclude : bool; id_ShouldFollow : bool }.

(** [*p] *)
Definition deref (p : cstr) : res ascii := of_opt (head p).

(** [while (isspace( *p )) ++p;] *)
Fixpoint skip_spaces (p : cstr) : res cstr :=
  match p with
  | [] => Err OutOfBounds
  | c :: p' => if isspace c then skip_spaces p' else OK p
  end.

(** The loop that looks for the closing separator: the text before it, or
    nothing when the line ends first. *)
Fixpoint find_closing (closing_separator : ascii) (start : cstr) : res (option cstr) :=
  match start with
  | [] => Err OutOfBounds
  | ch :: start' =>
      if Ascii.eqb ch closing_separator then OK (Some [])
      else if Ascii.eqb ch NUL then OK None
      else str ← find_closing closing_separator start'; OK (option_map (cons ch) str)
  end.

Definition quote : ascii := "034"%char.
Definition newline : ascii := "010"%char.

Definition ScanCppLine (start : cstr) : res (option IncludeData) :=
  start ← skip_spaces start;
  c ← deref start;
  let start := tail start in
  if negb (Ascii.eqb c "#"%char) then OK None else
  start ← skip_spaces start;
  if negb (strneq 7 (s2l "include") start) then OK None else
  let start := drop 7 start in
  c ← deref start;
  let start := tail start in
  if negb (isspace c) then OK None else
  start ← skip_spaces start;
  c ← deref start;
  let start := tail start in
  match (if Ascii.eqb c "<"%char then Some ">"%char else if Ascii.eqb c quote then Some quote else None) with
  | None => OK None
  | Some closing_separator =>
      str ← find_closing closing_separator start;
      OK (option_map (fun s => mkInclude s (zlen s) (Ascii.eqb ">"%char closing_separator) true) str)
  end.

(** The buffer from [p] on with the line feed overwritten, and the next line. *)
Fixpoint GetNextLine (p : cstr) : res (cstr * option cstr) :=
  match p with
  | [] => Err OutOfBounds
  | c :: p' =>
      if Ascii.eqb c newline then OK (NUL :: p', Some p')
      else if Ascii.eqb c NUL then OK (p, None)
      else '(q, next) ← GetNextLine p'; OK (c :: q, next)
  end.

(** The loop over the lines, with the function for one line as an argument;
    [IncludeDataList] is the list of what was found, in order. *)
Fixpoint scan_lines (fuel : nat) (scan_line : cstr -> res (option IncludeData)) (includes : list IncludeData) (linep : option cstr)
    : res (list IncludeData) :=
  match linep with
  | None => OK includes
  | Some linep =>
      match fuel with
      | O => Err OutOfFuel
      | S fuel =>
          '(line, linep) ← GetNextLine linep;
          d ← scan_line line;
          scan_lines fuel scan_line (includes ++ option_list d) linep
      end
  end.

Definition ScanIncludesCpp (buffer : cstr) : res (list IncludeData) :=
  scan_lines (S (length buffer)) ScanCppLine [] (Some buffer).

(** ** The configurable scanner *)

(** [strncmp(kwdata.m_String, start, kwdata.m_StringLength)] over the keywords. *)
Fixpoint find_keyword (keywords : list KeywordData) (start : cstr) : option KeywordData :=
  match keywords with
  | [] => None
  | kwdata :: keywords' =>
      if strneq (Z.to_nat (kw_StringLength kwdata)) (kw_String kwdata) start then Some kwdata else find_keyword keywords' start
  end.

(** [while ( *start && !isspace( *start )) ++start;] *)
Fixpoint next_token (start : cstr) : res cstr :=
  match start with
  | [] => Err OutOfBounds
  | c :: start' =>
      if Ascii.eqb c NUL || isspace c then OK []
      else str ← next_token start'; OK (c :: str)
  end.

Definition closing_of (c : ascii) : option ascii :=
  if Ascii.eqb c "<"%char then Some ">"%char
  else if Ascii.eqb c ">"%char then Some "<"%char
  else if Ascii.eqb c quote then Some quote
  else None.

(** The record for the text found, its length kept in an unsigned short. *)
Definition make_include (str : cstr) (is_system : bool) (keyword : KeywordData) : IncludeData :=
  let len := u16 (zlen str) in
  mkInclude (take (Z.to_nat len) str) len is_system (kw_ShouldFollow keyword).

Definition ScanLineGeneric (start_in : cstr) (config : ScannerData) : res (option IncludeData) :=
  let require_ws := negb (Z.land (sc_Flags config) kFlagRequireWhitespace =? 0) in
  let use_separators := negb (Z.land (sc_Flags config) kFlagUseSeparators =? 0) in
  let bare_is_system := negb (Z.land (sc_Flags config) kFlagBareMeansSystem =? 0) in
  start ← skip_spaces start_in;
  if require_ws && Nat.eqb (length start) (length start_in) then OK None else
  match find_keyword (sc_Keywords config) start with
  | None => OK None
  | Some keyword =>
      let start := drop (Z.to_nat (kw_StringLength keyword)) start in
      c ← deref start;
      let start := tail start in
      if negb (isspace c) then OK None else
      start ← skip_spaces start;
      if use_separators then
        c ← deref start;
        let start := tail start in
        match closing_of c with
        | None => OK None
        | Some closing_separator =>
            str ← find_closing closing_separator start;
            OK (option_map (fun s => make_include s (Ascii.eqb ">"%char closing_separator) keyword) str)
        end
      else
        str ← next_token start;
        match str with
        | [] => OK None
        | _ => OK (Some (make_include str bare_is_system keyword))
        end
  end.

Definition ScanIncludesGeneric (buffer : cstr) (config : ScannerData) : res (list IncludeData) :=
  scan_lines (S (length buffer)) (fun line => ScanLineGeneric line config) [] (Some buffer).

(** ** What a scanner should find *)

Definition spaces (ws : cstr) : Prop := Forall (fun c => isspace c = true) ws.

(** The text does not start with a space. *)
Definition no_space (s : cstr) : Prop := match s with c :: _ => isspace c = false | [] => True end.

(** The lines of a text, cut at the line feeds. *)
Fixpoint lines (text : cstr) : list cstr :=
  match text with
  | [] => [[]]
  | c :: text' =>
      if Ascii.eqb c newline then [] :: lines text'
      else match lines text' with l :: ls => (c :: l) :: ls | [] => [[c]] end
  end.

(** The records of the lines in [R], in order, and of no others. *)
Inductive exactly (R : cstr -> IncludeData -> Prop) : list cstr -> list IncludeData -> Prop :=
| exactly_nil : exactly R [] []
| exactly_hit l d ls ds : R l d -> exactly R ls ds -> exactly R (l :: ls) (d :: ds)
| exactly_miss l ls ds : (forall d, ~ R l d) -> exactly R ls ds -> exactly R (l :: ls) ds.

(** An include line: [# include "name"] or [# include <name>]. *)
Inductive cpp_include : cstr -> IncludeData -> Prop :=
| cpp_include_intro ws1 ws2 ws3 opening closing name rest :
    spaces ws1 -> spaces ws2 -> spaces ws3 ->
    (opening, closing) ∈ [("<"%char, ">"%char); (quote, quote)] -> closing ∉ name ->
    cpp_include (ws1 ++ "#"%char :: ws2 ++ s2l "include" ++ ws3 ++ opening :: name ++ closing :: rest)
      (mkInclude name (zlen name) (bool_decide (closing = ">"%char)) true).

(** The text without the spaces at its start, and whether its first character is
    something else than a space. *)
Fixpoint trim (s : cstr) : cstr := match s with c :: s' => if isspace c then trim s' else s | [] => [] end.
Definition starts_solid (s : cstr) : bool := match s with c :: _ => negb (isspace c) | [] => false end.

(** The word [include] is directly followed by something. *)
Definition cpp_gap (line : cstr) : bool :=
  match trim line with
  | c :: line' => Ascii.eqb c "#"%char && bool_decide (s2l "include" `prefix_of` trim line') && starts_solid (drop 7 (trim line'))
  | [] => false
  end.

(** The records of the include lines, in order, and of no other lines; lines of
    [gap] may be passed over. *)
Inductive found (R : cstr -> IncludeData -> Prop) (gap : cstr -> bool) : list cstr -> list IncludeData -> Prop :=
| found_nil : found R gap [] []
| found_hit l d ls ds : R l d -> found R gap ls ds -> found R gap (l :: ls) (d :: ds)
| found_miss l ls ds : (forall d, ~ R l d) -> found R gap ls ds -> found R gap (l :: ls) ds
| found_gap l ls ds : gap l = true -> found R gap ls ds -> found R gap (l :: ls) ds.

(** What the scanner recognises: include lines with a space after the word. *)
Inductive cpp_recognised : cstr -> IncludeData -> Prop :=
| cpp_recognised_intro ws1 ws2 ws3 opening closing name rest :
    spaces ws1 -> spaces ws2 -> spaces ws3 -> ws3 <> [] ->
    (opening, closing) ∈ [("<"%char, ">"%char); (quote, quote)] -> closing ∉ name ->
    cpp_recognised (ws1 ++ "#"%char :: ws2 ++ s2l "include" ++ ws3 ++ opening :: name ++ closing :: rest)
      (mkInclude name (zlen name) (bool_decide (closing = ">"%char)) true).

Lemma exactly_found R R' gap ls ds : (forall l d, R l d -> R' l d) -> (forall l d, R' l d -> R l d \/ gap l = true) ->
  exactly R ls ds -> found R' gap ls ds.
Proof.
  intros H1 H2. induction 1 as [|l d ls ds Hl _ IH|l ls ds Hl _ IH]; [constructor|by apply found_hit; [apply H1|]|].
  destruct (gap l) eqn:Eg; [by apply found_gap|]. apply found_miss; [|done].
  intros d Hd. destruct (H2 l d Hd) as [?|?]; [by destruct (Hl d)|congruence].
Qed.

Lemma trim_spaces ws body : spaces ws -> no_space body -> trim (ws ++ body) = body.
Proof. intros Hw Hb. induction Hw as [|c ws Hc _ IH]; cbn; [|by rewrite Hc]. destruct body as [|c b]; cbn in *; [done|by rewrite Hb]. Qed.

Lemma cpp_recognised_include l d : cpp_recognised l d -> cpp_include l d.
Proof. intros [ws1 ws2 ws3 op cl name rest H1 H2 H3 _ Hoc Hni]. by apply cpp_include_intro. Qed.

Lemma cpp_include_cases l d : cpp_include l d -> cpp_recognised l d \/ cpp_gap l = true.
Proof.
  intros [ws1 ws2 ws3 op cl name rest H1 H2 H3 Hoc Hni]. destruct ws3 as [|w ws3]; [right|left; by apply cpp_recognised_intro].
  unfold cpp_gap. rewrite trim_spaces, trim_spaces by done. cbn [app]. rewrite bool_decide_true by by eexists.
  rewrite (drop_app_length (s2l "include")). set_unfold in Hoc. by destruct Hoc as [[= -> ->]|[[= -> ->]|[]]].
Qed.

(** ** Reading a line *)

Lemma isspace_nul : isspace NUL = false.
Proof. reflexivity. Qed.

Lemma skip_over ws body r : spaces ws -> no_space body -> skip_spaces (ws ++ body ++ NUL :: r) = OK (body ++ NUL :: r).
Proof.
  intros Hw Hb. induction Hw as [|c ws Hc _ IH]; cbn [app skip_spaces]; [|by rewrite Hc].
  destruct body as [|c b]; cbn in *; [done|by rewrite Hb].
Qed.

Lemma split_spaces line : exists ws body, line = ws ++ body /\ spaces ws /\ no_space body.
Proof.
  induction line as [|c l (ws & body & -> & Hw & Hb)]; [exists [], []; split_and!; [done|constructor|done]|].
  destruct (isspace c) eqn:E; [|exists [], (c :: ws ++ body); split_and!; [done|constructor|done]].
  exists (c :: ws), body. split_and!; [done|by constructor|done].
Qed.

Lemma find_closing_hit c name rest r : cstr_ok name -> c ∉ name -> find_closing c (name ++ c :: rest ++ r) = OK (Some name).
Proof.
  induction name as [|x name IH]; cbn [app find_closing]; [by rewrite Ascii.eqb_refl|]. intros [Hx Hn]%Forall_cons Hni.
  destruct (Ascii.eqb_spec x c) as [->|_]; [set_solver|]. destruct (Ascii.eqb_spec x NUL); [done|].
  rewrite IH by set_solver. done.
Qed.

Lemma find_closing_ok c s r : cstr_ok s -> c <> NUL ->
  (find_closing c (s ++ NUL :: r) = OK None /\ (c ∉ s)) \/
  exists name rest, s = name ++ c :: rest /\ (c ∉ name) /\ find_closing c (s ++ NUL :: r) = OK (Some name).
Proof.
  intros Hs Hc. induction Hs as [|x s Hx Hs IH]; cbn [app find_closing].
  { left. destruct (Ascii.eqb_spec NUL c); [congruence|]. cbn. split; [done|set_solver]. }
  destruct (Ascii.eqb_spec x c) as [->|Hne]; [right; exists [], s; split_and!; [done|set_solver|done]|].
  destruct (Ascii.eqb_spec x NUL); [done|]. destruct IH as [[-> ?]|(name & rest & -> & ? & ->)]; cbn.
  - left. split; [done|set_solver].
  - right. exists (x :: name), rest. split_and!; [done|set_solver|done].
Qed.

Lemma strneq_prefix kw tl r : strneq (length kw) kw (kw ++ tl ++ r) = true.
Proof. induction kw as [|c kw IH]; [done|]. cbn. rewrite Ascii.eqb_refl, IH. by rewrite orb_true_r. Qed.

Lemma strneq_is_prefix kw body r : cstr_ok kw -> strneq (length kw) kw (body ++ NUL :: r) = true -> exists tl, body = kw ++ tl.
Proof.
  intros Hk. revert body. induction Hk as [|c kw Hc Hk IH]; intros [|b body]; cbn [length app strneq]; [eauto|eauto| |].
  - intros [E _]%andb_true_iff. apply Ascii.eqb_eq in E. done.
  - intros [E E2]%andb_true_iff. apply Ascii.eqb_eq in E. subst b. destruct (Ascii.eqb_spec c NUL); [done|].
    destruct (IH body E2) as [tl ->]. by exists tl.
Qed.

Lemma nul_ok s t : cstr_ok (s ++ t) <-> cstr_ok s /\ cstr_ok t.
Proof. apply Forall_app. Qed.

Lemma deref_app c s : deref (c :: s) = OK c.
Proof. done. Qed.

Lemma spaces_app ws x : spaces (x :: ws) -> isspace x = true /\ spaces ws.
Proof. by intros [? ?]%Forall_cons. Qed.

Lemma cpp_complete line d r : cstr_ok line -> cpp_recognised line d -> ScanCppLine (line ++ NUL :: r) = OK (Some d).
Proof.
  intros Hok Hi. destruct Hi as [ws1 ws2 ws3 op cl name rest H1 H2 H3 Hne Hoc Hni]. unfold ScanCppLine.
  destruct ws3 as [|w ws3]; [done|]. apply spaces_app in H3 as [Hw H3].
  rewrite <- app_assoc, skip_over by done. cbn [mbind res_bind app tail]. rewrite deref_app. cbn [mbind res_bind].
  change (Ascii.eqb "#" "#") with true. cbn [negb]. rewrite <- app_assoc, skip_over by done. cbn [mbind res_bind].
  rewrite <- app_assoc. rewrite (strneq_prefix (s2l "include")). cbn [negb]. rewrite (drop_app_length (s2l "include")).
  cbn [app]. rewrite deref_app. cbn [mbind res_bind tail]. rewrite Hw. cbn [negb].
  assert (Ho : isspace op = false) by (set_unfold in Hoc; destruct Hoc as [[= -> ->]|[[= -> ->]|[]]]; reflexivity).
  rewrite <- app_assoc, skip_over by done. cbn [mbind res_bind app]. rewrite deref_app. cbn [mbind res_bind tail].
  assert (Hcl : cl <> NUL) by (set_unfold in Hoc; destruct Hoc as [[= -> ->]|[[= -> ->]|[]]]; discriminate).
  assert (Hname : cstr_ok name) by (unfold cstr_ok in *; decompose_Forall; done).
  assert (Hf : find_closing cl ((name ++ cl :: rest) ++ NUL :: r) = OK (Some name)).
  { rewrite <- app_assoc. cbn [app]. by apply find_closing_hit. }
  set_unfold in Hoc. destruct Hoc as [[= -> ->]|[[= -> ->]|[]]]; cbn [Ascii.eqb Bool.eqb quote]; rewrite Hf; cbn [mbind res_bind option_map]; done.
Qed.

Lemma cpp_sound line r : cstr_ok line ->
  exists o, ScanCppLine (line ++ NUL :: r) = OK o /\ forall d, o = Some d -> cpp_recognised line d.
Proof.
  intros Hok. unfold ScanCppLine. destruct (split_spaces line) as (ws1 & b1 & -> & H1 & Hb1).
  apply nul_ok in Hok as [_ Hok]. rewrite <- app_assoc, skip_over by done. cbn [mbind res_bind].
  destruct b1 as [|c b1]; cbn [app]; rewrite deref_app; cbn [mbind res_bind tail]; [by exists None|].
  destruct (Ascii.eqb_spec c "#"%char) as [->|]; cbn [negb]; [|by exists None]. apply Forall_cons in Hok as [_ Hok].
  destruct (split_spaces b1) as (ws2 & b2 & -> & H2 & Hb2). apply nul_ok in Hok as [_ Hok].
  rewrite <- app_assoc, skip_over by done. cbn [mbind res_bind].
  destruct (strneq 7 (s2l "include") (b2 ++ NUL :: r)) eqn:Ep; cbn [negb]; [|by exists None].
  apply (strneq_is_prefix (s2l "include")) in Ep as [b3 ->]; [|repeat constructor; discriminate].
  rewrite <- app_assoc, (drop_app_length (s2l "include")). apply nul_ok in Hok as [_ Hok].
  destruct b3 as [|w b3]; cbn [app]; rewrite deref_app; cbn [mbind res_bind tail]; [by exists None|].
  destruct (isspace w) eqn:Ew; cbn [negb]; [|by exists None]. apply Forall_cons in Hok as [_ Hok].
  destruct (split_spaces b3) as (ws3 & b4 & -> & H3 & Hb4). apply nul_ok in Hok as [_ Hok].
  rewrite <- app_assoc, skip_over by done. cbn [mbind res_bind].
  destruct b4 as [|op b4]; cbn [app]; rewrite deref_app; cbn [mbind res_bind tail]; [by exists None|]. apply Forall_cons in Hok as [_ Hok].
  assert (Hm : forall cl, (op, cl) ∈ [("<"%char, ">"%char); (quote, quote)] -> exists o,
    (str ← find_closing cl (b4 ++ NUL :: r); OK (option_map (fun s => mkInclude s (zlen s) (Ascii.eqb ">"%char cl) true) str)) = OK o /\
    forall d, o = Some d -> cpp_recognised (ws1 ++ "#"%char :: ws2 ++ s2l "include" ++ w :: ws3 ++ op :: b4) d).
  { intros cl Hc. assert (Hcl : cl <> NUL) by (set_unfold in Hc; destruct Hc as [[= -> ->]|[[= -> ->]|[]]]; discriminate).
    destruct (find_closing_ok cl b4 r Hok Hcl) as [[-> _]|(name & rest & -> & Hni & ->)]; cbn [mbind res_bind option_map]; [by exists None|].
    assert (Eb : Ascii.eqb ">"%char cl = bool_decide (cl = ">"%char)) by (set_unfold in Hc; destruct Hc as [[= -> ->]|[[= -> ->]|[]]]; reflexivity).
    rewrite Eb. eexists. split; [done|]. intros d [= <-].
    by apply (cpp_recognised_intro ws1 ws2 (w :: ws3) op cl name rest); [..|by constructor| |done|]. }
  destruct (Ascii.eqb_spec op "<"%char) as [->|]; [apply Hm; set_solver|].
  destruct (Ascii.eqb_spec op quote) as [->|]; [apply Hm; set_solver|by exists None].
Qed.

(** ** The lines of a file *)

Lemma lines_cons text : exists l ls, lines text = l :: ls.
Proof. induction text as [|c t (l & ls & E)]; cbn; [eauto|]. rewrite E. case_match; eauto. Qed.

Lemma next_line text r : cstr_ok text -> exists l ls, lines text = l :: ls /\ cstr_ok l /\
  ((ls = [] /\ GetNextLine (text ++ NUL :: r) = OK (l ++ NUL :: r, None)) \/
   exists text', cstr_ok text' /\ (length text' < length text)%nat /\ ls = lines text' /\
     GetNextLine (text ++ NUL :: r) = OK (l ++ NUL :: text' ++ NUL :: r, Some (text' ++ NUL :: r))).
Proof.
  induction 1 as [|c t Hc Ht (l & ls & E & Hl & IH)]; cbn [app GetNextLine lines].
  { exists [], []. split_and!; [done|constructor|]. left. done. }
  destruct (Ascii.eqb_spec c newline) as [->|].
  { exists [], (lines t). split_and!; [done|constructor|]. right. exists t. cbn. auto. }
  destruct (Ascii.eqb_spec c NUL); [done|]. rewrite E. exists (c :: l), ls. split_and!; [done|by constructor|].
  destruct IH as [[-> ->]|(t' & Ht' & Hlen & -> & ->)]; cbn [mbind res_bind]; [by left|].
  right. exists t'. cbn [length]. split_and!; [done|lia|done|done].
Qed.

Lemma scan_lines_ok (R : cstr -> IncludeData -> Prop) scan_line :
  (forall line r, cstr_ok line -> exists o, scan_line (line ++ NUL :: r) = OK o /\ forall d, o = Some d <-> R line d) ->
  forall fuel text r acc, cstr_ok text -> (length text < fuel)%nat ->
  exists ds, scan_lines fuel scan_line acc (Some (text ++ NUL :: r)) = OK (acc ++ ds) /\ exactly R (lines text) ds.
Proof.
  intros HR. induction fuel as [|fuel IH]; intros text r acc Ht Hf; [lia|]. cbn [scan_lines].
  destruct (next_line text r Ht) as (l & ls & -> & Hl & Hcase).
  assert (Hfound : forall o ds, (forall d, o = Some d <-> R l d) -> exactly R ls ds -> exactly R (l :: ls) (option_list o ++ ds)).
  { intros [d|] ds Ho Hds; cbn; [apply exactly_hit; [by apply Ho|done]|apply exactly_miss; [|done]]. intros d Hd. by apply Ho in Hd. }
  destruct Hcase as [[-> ->]|(t' & Ht' & Hlen & -> & ->)]; cbn [mbind res_bind].
  - destruct (HR l r Hl) as (o & -> & Ho). cbn [mbind res_bind]. exists (option_list o ++ []). split.
    + rewrite app_nil_r. by destruct fuel.
    + apply Hfound; [done|constructor].
  - destruct (HR l (t' ++ NUL :: r) Hl) as (o & -> & Ho). cbn [mbind res_bind].
    destruct (IH t' r (acc ++ option_list o) Ht') as (ds & -> & Hds); [lia|]. rewrite <- app_assoc.
    eexists. split; [done|by apply Hfound].
Qed.

Lemma cpp_line_ok line r : cstr_ok line -> exists o, ScanCppLine (line ++ NUL :: r) = OK o /\ forall d, o = Some d <-> cpp_recognised line d.
Proof.
  intros Hok. destruct (cpp_sound line r Hok) as (o & E & Hs). exists o. split; [done|]. intros d. split; [apply Hs|].
  intros Hd. apply (cpp_complete line d r Hok) in Hd. congruence.
Qed.

(** The C++ scanner reads any text and reports exactly the include lines. *)
Lemma scan_cpp_ok text r : cstr_ok text ->
  exists ds, ScanIncludesCpp (text ++ NUL :: r) = OK ds /\ exactly cpp_recognised (lines text) ds.
Proof.
  intros Ht. unfold ScanIncludesCpp.
  destruct (scan_lines_ok cpp_recognised ScanCppLine cpp_line_ok (S (length (text ++ NUL :: r))) text r [] Ht) as (ds & E & F).
  { rewrite length_app. cbn. lia. }
  exists ds. by rewrite E.
Qed.

(** ** The configurable scanner *)

Section Generic.
Context (config : ScannerData).

Abbreviation require_ws := (negb (Z.land (sc_Flags config) kFlagRequireWhitespace =? 0)).
Abbreviation use_separators := (negb (Z.land (sc_Flags config) kFlagUseSeparators =? 0)).
Abbreviation bare_is_system := (negb (Z.land (sc_Flags config) kFlagBareMeansSystem =? 0)).

(** The first keyword of the configuration that [body] starts with. *)
Definition first_keyword (body : cstr) (kw : KeywordData) : Prop :=
  exists ks1 ks2, sc_Keywords config = ks1 ++ kw :: ks2 /\ kw_String kw `prefix_of` body /\
  Forall (fun k => ~ kw_String k `prefix_of` body) ks1.

Definition keywords_ok : Prop :=
  Forall (fun k => cstr_ok (kw_String k) /\ kw_StringLength k = zlen (kw_String k)) (sc_Keywords config).

(** What follows the keyword: the name between separators, or a bare word. *)
Inductive item : cstr -> cstr -> bool -> Prop :=
| item_separated opening closing name rest :
    use_separators = true -> closing_of opening = Some closing -> closing ∉ name ->
    item (opening :: name ++ closing :: rest) name (bool_decide (closing = ">"%char))
| item_bare name rest :
    use_separators = false -> name <> [] -> Forall (fun c => isspace c = false) name ->
    match rest with c :: _ => isspace c = true | [] => True end ->
    item (name ++ rest) name bare_is_system.

(** An include line: after the keyword comes the item, with spaces between them
    that a bare word cannot do without. *)
Inductive generic_include : cstr -> IncludeData -> Prop :=
| generic_include_intro ws1 kw body ws2 tl name sys :
    spaces ws1 -> (require_ws = true -> ws1 <> []) -> no_space body -> first_keyword body kw ->
    body = kw_String kw ++ ws2 ++ tl -> spaces ws2 -> (use_separators = false -> ws2 <> []) -> item tl name sys ->
    generic_include (ws1 ++ body) (make_include name sys kw).

(** The first keyword of the line is directly followed by something. *)
Definition generic_gap (line : cstr) : bool :=
  match list_find (fun k => kw_String k `prefix_of` trim line) (sc_Keywords config) with
  | Some (_, kw) => starts_solid (drop (length (kw_String kw)) (trim line))
  | None => false
  end.

(** What the scanner recognises: include lines with a space after the keyword. *)
Inductive generic_recognised : cstr -> IncludeData -> Prop :=
| generic_recognised_intro ws1 kw body w ws2 tl name sys :
    spaces ws1 -> (require_ws = true -> ws1 <> []) -> no_space body -> first_keyword body kw ->
    body = kw_String kw ++ w :: ws2 ++ tl -> isspace w = true -> spaces ws2 -> item tl name sys ->
    generic_recognised (ws1 ++ body) (make_include name sys kw).

Lemma generic_recognised_include l d : generic_recognised l d -> generic_include l d.
Proof.
  intros [ws1 kw body w ws2 tl name sys H1 Hreq Hb Hfk Hbody Hw H2 Hitem].
  by apply (generic_include_intro ws1 kw body (w :: ws2) tl); try done; constructor.
Qed.

Lemma generic_include_cases l d : generic_include l d -> generic_recognised l d \/ generic_gap l = true.
Proof.
  intros [ws1 kw body ws2 tl name sys H1 Hreq Hb Hfk Hbody H2 Hne Hitem]. destruct ws2 as [|w ws2].
  - right. destruct Hitem as [op cl name rest Hu Hc Hni|name rest Hu _ _ _]; [|by destruct (Hne Hu)].
    unfold generic_gap. rewrite trim_spaces by done. destruct Hfk as (ks1 & ks2 & -> & Hp & HF).
    rewrite list_find_app_r; [|apply list_find_None; done]. cbn [list_find]. rewrite decide_True by done.
    cbn. rewrite Hbody, drop_app_length. cbn. unfold closing_of in Hc.
    destruct (Ascii.eqb_spec op "<"%char) as [->|]; [done|]. destruct (Ascii.eqb_spec op ">"%char) as [->|]; [done|].
    by destruct (Ascii.eqb_spec op quote) as [->|].
  - left. apply spaces_app in H2 as [Hw H2]. by apply (generic_recognised_intro ws1 kw body w ws2 tl).
Qed.

Context (Hkw : keywords_ok).

Lemma find_keyword_ok body r :
  match find_keyword (sc_Keywords config) (body ++ NUL :: r) with
  | Some kw => first_keyword body kw
  | None => forall kw, ~ first_keyword body kw
  end.
Proof.
  unfold first_keyword. pose proof Hkw as HK. unfold keywords_ok in HK. clear Hkw. induction HK as [|k ks [Hk Hl] _ IH]; cbn [find_keyword].
  { intros kw (ks1 & ks2 & E & _). by destruct ks1. }
  rewrite Hl, Nat2Z.id. destruct (strneq (length (kw_String k)) (kw_String k) (body ++ NUL :: r)) eqn:E.
  - apply strneq_is_prefix in E as [tl ->]; [|done]. exists [], ks. split_and!; [done|by eexists|constructor].
  - assert (Hnp : ~ kw_String k `prefix_of` body).
    { intros [tl ->]. rewrite <- app_assoc, strneq_prefix in E. done. }
    destruct (find_keyword ks (body ++ NUL :: r)) as [kw|].
    + destruct IH as (ks1 & ks2 & -> & Hp & HF). exists (k :: ks1), ks2. split_and!; [done|done|by constructor].
    + intros kw (ks1 & ks2 & E' & Hp & HF). destruct ks1 as [|k1 ks1]; injection E' as -> E'; [done|].
      apply Forall_cons in HF as [_ HF]. apply (IH kw). by exists ks1, ks2.
Qed.

Lemma first_keyword_in body kw : first_keyword body kw -> cstr_ok (kw_String kw) /\ kw_StringLength kw = zlen (kw_String kw).
Proof.
  intros (ks1 & ks2 & E & _). unfold keywords_ok in Hkw. rewrite Forall_forall in Hkw. apply Hkw. rewrite E. set_solver.
Qed.

Lemma first_keyword_det body k1 k2 : first_keyword body k1 -> first_keyword body k2 -> k1 = k2.
Proof.
  intros (a1 & a2 & E0 & Hp & HF) (b1 & b2 & E & Hp' & HF'). rewrite E0 in E. clear E0.
  revert b1 E HF'. induction HF as [|x a1 Hx HF IH]; intros [|y b1] E HF'; cbn in E; injection E as E1 E2; subst; try done.
  - apply Forall_cons in HF' as [? _]. done.
  - apply Forall_cons in HF' as [_ HF']. by apply (IH b1).
Qed.

Lemma next_token_ok s r : cstr_ok s -> exists name rest, s = name ++ rest /\ Forall (fun c => isspace c = false) name /\
  match rest with c :: _ => isspace c = true | [] => True end /\ next_token (s ++ NUL :: r) = OK name.
Proof.
  induction 1 as [|c s Hc Hs (name & rest & -> & HF & Hr & E)]; cbn [app next_token].
  { exists [], []. split_and!; done. }
  destruct (Ascii.eqb_spec c NUL); [done|]. cbn [orb]. destruct (isspace c) eqn:Ec.
  - exists [], (c :: name ++ rest). split_and!; done.
  - rewrite E. exists (c :: name), rest. split_and!; [done|by constructor|done|done].
Qed.

Lemma next_token_bare name rest r : cstr_ok name -> Forall (fun c => isspace c = false) name ->
  match rest with c :: _ => isspace c = true | [] => True end -> next_token (name ++ rest ++ NUL :: r) = OK name.
Proof.
  intros Hn HF Hr. induction name as [|c name IH]; cbn [app next_token].
  - destruct rest as [|c rest]; cbn; [done|]. by rewrite Hr, orb_true_r.
  - apply Forall_cons in Hn as [Hc Hn]. apply Forall_cons in HF as [Hs HF]. destruct (Ascii.eqb_spec c NUL); [done|].
    rewrite Hs. cbn [orb]. rewrite IH by done. done.
Qed.

Lemma closing_props op cl : closing_of op = Some cl ->
  isspace op = false /\ cl <> NUL /\ Ascii.eqb ">"%char cl = bool_decide (cl = ">"%char).
Proof.
  unfold closing_of. destruct (Ascii.eqb_spec op "<"%char) as [->|]; [by intros [= <-]|].
  destruct (Ascii.eqb_spec op ">"%char) as [->|]; [by intros [= <-]|].
  destruct (Ascii.eqb_spec op quote) as [->|]; [by intros [= <-]|done].
Qed.

(** The part of [ScanLineGeneric] after the keyword and its spaces. *)
Definition scan_item (keyword : KeywordData) (start : cstr) : res (option IncludeData) :=
  if use_separators then
    c ← deref start;
    let start := tail start in
    match closing_of c with
    | None => OK None
    | Some closing_separator =>
        str ← find_closing closing_separator start;
        OK (option_map (fun s => make_include s (Ascii.eqb ">"%char closing_separator) keyword) str)
    end
  else
    str ← next_token start;
    match str with
    | [] => OK None
    | _ => OK (Some (make_include str bare_is_system keyword))
    end.

Lemma item_complete kw tl name sys r : cstr_ok tl -> item tl name sys ->
  no_space tl /\ scan_item kw (tl ++ NUL :: r) = OK (Some (make_include name sys kw)).
Proof.
  intros Hok Hi. unfold scan_item. destruct Hi as [op cl name rest Hu Hc Hni|name rest Hu Hne HF Hr]; rewrite Hu.
  - destruct (closing_props op cl Hc) as (Hs & Hn & Eb). split; [done|]. cbn [app]. rewrite deref_app. cbn [mbind res_bind tail].
    rewrite Hc, <- app_assoc. cbn [app]. rewrite find_closing_hit; [|unfold cstr_ok in *; decompose_Forall; done|done].
    cbn [mbind res_bind option_map]. by rewrite Eb.
  - split; [destruct name; [done|by apply Forall_cons in HF as [? _]]|]. apply nul_ok in Hok as [Hok _].
    rewrite <- app_assoc, next_token_bare by done. cbn [mbind res_bind]. by destruct name.
Qed.

Lemma item_sound kw tl r : cstr_ok tl -> exists o, scan_item kw (tl ++ NUL :: r) = OK o /\
  forall d, o = Some d -> exists name sys, item tl name sys /\ d = make_include name sys kw.
Proof.
  intros Hok. unfold scan_item. destruct use_separators eqn:Hu.
  - destruct tl as [|op tl]; cbn [app]; rewrite deref_app; cbn [mbind res_bind tail]; [by exists None|].
    destruct (closing_of op) as [cl|] eqn:Hc; [|by exists None]. destruct (closing_props op cl Hc) as (_ & Hn & Eb).
    apply Forall_cons in Hok as [_ Hok].
    destruct (find_closing_ok cl tl r Hok Hn) as [[-> _]|(name & rest & -> & Hni & ->)]; cbn [mbind res_bind option_map]; [by exists None|].
    rewrite Eb. eexists. split; [done|]. intros d [= <-]. eexists _, _. split; [|done]. by apply item_separated.
  - destruct (next_token_ok tl r Hok) as (name & rest & -> & HF & Hr & ->). cbn [mbind res_bind].
    destruct name as [|c name]; [by exists None|]. eexists. split; [done|]. intros d [= <-]. eexists _, _. split; [|done]. by apply item_bare.
Qed.

Lemma generic_eq line : ScanLineGeneric line config =
  (start ← skip_spaces line;
   if require_ws && Nat.eqb (length start) (length line) then OK None else
   match find_keyword (sc_Keywords config) start with
   | None => OK None
   | Some keyword =>
       c ← deref (drop (Z.to_nat (kw_StringLength keyword)) start);
       if negb (isspace c) then OK None else
       start ← skip_spaces (tail (drop (Z.to_nat (kw_StringLength keyword)) start));
       scan_item keyword start
   end).
Proof. reflexivity. Qed.

Lemma ws_length {A} (ws body : list A) : Nat.eqb (length body) (length (ws ++ body)) = bool_decide (ws = []).
Proof. rewrite length_app. destruct ws; cbn; [apply Nat.eqb_refl|]. apply Nat.eqb_neq. lia. Qed.

Lemma generic_complete line d r : cstr_ok line -> generic_recognised line d -> ScanLineGeneric (line ++ NUL :: r) config = OK (Some d).
Proof.
  intros Hok Hi. destruct Hi as [ws1 kw body w ws2 tl name sys H1 Hreq Hb Hfk Hbody Hw H2 Hitem]. rewrite generic_eq.
  rewrite <- app_assoc, skip_over by done. cbn [mbind res_bind]. rewrite ws_length.
  destruct require_ws; cbn [andb]; [rewrite bool_decide_false by auto|];
  (pose proof (find_keyword_ok body r) as Hf; destruct (find_keyword (sc_Keywords config) (body ++ NUL :: r)) as [kw'|]; [|by destruct (Hf kw)];
   rewrite (first_keyword_det body kw' kw) by done; destruct (first_keyword_in body kw Hfk) as [Hk ->];
   rewrite Nat2Z.id, Hbody, <- app_assoc, drop_app_length; cbn [app]; rewrite deref_app; cbn [mbind res_bind tail]; rewrite Hw; cbn [negb];
   apply nul_ok in Hok as [_ Hok]; rewrite Hbody in Hok; apply nul_ok in Hok as [_ Hok]; apply Forall_cons in Hok as [_ Hok];
   apply nul_ok in Hok as [_ Hok]; destruct (item_complete kw tl name sys r Hok Hitem) as [Hns Hs];
   rewrite <- app_assoc, skip_over by done; exact Hs).
Qed.

Lemma generic_sound line r : cstr_ok line ->
  exists o, ScanLineGeneric (line ++ NUL :: r) config = OK o /\ forall d, o = Some d -> generic_recognised line d.
Proof.
  intros Hok. rewrite generic_eq. destruct (split_spaces line) as (ws1 & body & -> & H1 & Hb).
  apply nul_ok in Hok as [_ Hok]. rewrite <- app_assoc, skip_over by done. cbn [mbind res_bind]. rewrite ws_length.
  destruct (require_ws && bool_decide (ws1 = [])) eqn:Hreq; [by exists None|].
  pose proof (find_keyword_ok body r) as Hf. destruct (find_keyword (sc_Keywords config) (body ++ NUL :: r)) as [kw|]; [|by exists None].
  destruct (first_keyword_in body kw Hf) as [Hk ->]. rewrite Nat2Z.id. destruct Hf as (ks1 & ks2 & E & [tl Hbody] & HF).
  assert (Hfk : first_keyword body kw) by (exists ks1, ks2; split_and!; [done|by exists tl|done]).
  rewrite Hbody, <- app_assoc, drop_app_length. rewrite Hbody in Hok. apply nul_ok in Hok as [_ Hok].
  destruct tl as [|w tl]; cbn [app]; rewrite deref_app; cbn [mbind res_bind tail]; [by exists None|].
  destruct (isspace w) eqn:Ew; cbn [negb]; [|by exists None]. apply Forall_cons in Hok as [_ Hok].
  destruct (split_spaces tl) as (ws2 & tl2 & -> & H2 & Hb2). apply nul_ok in Hok as [_ Hok].
  rewrite <- app_assoc, skip_over by done. cbn [mbind res_bind].
  destruct (item_sound kw tl2 r Hok) as (o & -> & Ho). exists o. split; [done|]. intros d Hd.
  destruct (Ho d Hd) as (name & sys & Hitem & ->). rewrite <- Hbody.
  eapply generic_recognised_intro; try done. intros Hr. rewrite Hr in Hreq. cbn [andb] in Hreq. by apply bool_decide_eq_false in Hreq.
Qed.

Lemma generic_line_ok line r : cstr_ok line ->
  exists o, ScanLineGeneric (line ++ NUL :: r) config = OK o /\ forall d, o = Some d <-> generic_recognised line d.
Proof.
  intros Hok. destruct (generic_sound line r Hok) as (o & E & Hs). exists o. split; [done|]. intros d. split; [apply Hs|].
  intros Hd. apply (generic_complete line d r Hok) in Hd. congruence.
Qed.

Lemma scan_generic_ok text r : cstr_ok text ->
  exists ds, ScanIncludesGeneric (text ++ NUL :: r) config = OK ds /\ exactly generic_recognised (lines text) ds.
Proof.
  intros Ht. unfold ScanIncludesGeneric.
  destruct (scan_lines_ok generic_recognised (fun l => ScanLineGeneric l config) generic_line_ok (S (length (text ++ NUL :: r))) text r [] Ht) as (ds & E & F).
  { rewrite length_app. cbn. lia. }
  exists ds. by rewrite E.
Qed.

End Generic.

(** C23. The include scanners read nothing outside their buffer, end on every text
    and report the include lines of the file, in order, and nothing else: for C++
    the lines [# include "name"] and [# include <name>], for a configured scanner
    the lines that start with the first matching keyword of its list and go on with
    an item, between separators or bare as its flags ask. One kind of include line
    is passed over, that whose keyword is directly followed by the item, without a
    space ([cpp_gap], [generic_gap]): [#include"a.h"] and the [<file>path</file>] of
    resource files, [include_scanner_gaps]. (The length of a name is an unsigned
    short in the configured scanner, which cuts longer names.) *)
Theorem include_scanners_exact text config r : cstr_ok text -> keywords_ok config ->
  (exists ds, ScanIncludesCpp (text ++ NUL :: r) = OK ds /\ found cpp_include cpp_gap (lines text) ds) /\
  (exists ds, ScanIncludesGeneric (text ++ NUL :: r) config = OK ds /\ found (generic_include config) (generic_gap config) (lines text) ds).
Proof.
  intros Ht Hk. split.
  - destruct (scan_cpp_ok text r Ht) as (ds & E & F). exists ds. split; [done|].
    eapply exactly_found; [apply cpp_recognised_include|apply cpp_include_cases|done].
  - destruct (scan_generic_ok config Hk text r Ht) as (ds & E & F). exists ds. split; [done|].
    eapply exactly_found; [apply generic_recognised_include|apply generic_include_cases|done].
Qed.

Module DemoScan.

Definition text : cstr := s2l "int a;" ++ [newline] ++ s2l "  # include <a.h> // x" ++ [newline] ++ s2l "#include " ++ [quote] ++ s2l "b.h" ++ [quote].
Definition nasm : ScannerData := mkScanner kGeneric [] (mkDigest 0 0) 2 [mkKeyword (s2l "%include") 8 true].

End DemoScan.

Lemma include_scanners_exact_witness :
  forallb (fun l => negb (cpp_gap l)) (lines DemoScan.text) = true /\
  found cpp_include cpp_gap (lines DemoScan.text) [mkInclude (s2l "a.h") 3 true true; mkInclude (s2l "b.h") 3 false true].
Proof.
  split; [vm_compute; reflexivity|].
  destruct (include_scanners_exact DemoScan.text DemoScan.nasm [] ltac:(repeat constructor; discriminate)
    ltac:(repeat constructor; discriminate)) as [(ds & E & F) _].
  replace (ScanIncludesCpp (DemoScan.text ++ NUL :: [])) with
    (OK [mkInclude (s2l "a.h") 3 true true; mkInclude (s2l "b.h") 3 false true]) in E by (vm_compute; reflexivity).
  by injection E as <-.
Defined.

(** The scanner the Qt rules set up for resource files: keyword [<file] followed
    by a name between separators. *)
Definition qrc_scanner : ScannerData := mkScanner kGeneric [s2l "."] (mkDigest 0 0) kFlagUseSeparators [mkKeyword (s2l "<file") 5 false].

(** Two kinds of include lines are not seen: a directive without a space after
    the word, which C accepts, and, since the generic scanner asks for a space
    after the keyword too, the line [<file>a.png</file>] of a resource file for
    which the case of the separator [>] was added. *)
Theorem include_scanner_gaps :
  ScanIncludesCpp (s2l "#include" ++ [quote] ++ s2l "a.h" ++ [quote; newline; NUL]) = OK [] /\
  ScanIncludesGeneric (s2l "<file>a.png</file>" ++ [newline; NUL]) qrc_scanner = OK [] /\
  ScanIncludesGeneric (s2l "<file >a.png</file>" ++ [newline; NUL]) qrc_scanner = OK [mkInclude (s2l "a.png") 5 false false].
Proof. split; [|split]; vm_compute; reflexivity. Qed.
