(* ===== verification/ScanCache.v ===== *)
(** * The scan cache

    ScanCache.cpp, ScanCache.hpp, ScanData.hpp: which files a file includes,
    by the digest of its name and scanner and its time stamp. Results of earlier
    builds are in a sorted frozen table, those of this session in a hash table
    of chained records. A record that is already in a chain is changed in place;
    the keys of the records are distinct, so a record pointer is its key. *)

From stdpp Require Import gmap sorting.
From S2P Require Import Prelude CommonFns Hash HashImpl DagData SortedArray.

Record ScanCacheEntry : Type := mkScanEntry { ce_FileTimestamp : Z; ce_IncludedFiles : list FrozenFileAndHash }.

Record ScanData : Type := mkScanData {
  sn_EntryCount : Z;
  sn_Keys : list HashDigest;
  sn_Data : list ScanCacheEntry;
  sn_AccessTimes : list Z }.

(** [ScanCache::Record]; a chain of records is a list. *)
Record ScanRecord : Type := mkRecord { r_Key : HashDigest; r_FileTimestamp : Z; r_Includes : list FrozenFileAndHash }.

Record ScanCache : Type := mkScanCache {
  ca_FrozenData : option ScanData;
  ca_RecordCount : Z;
  ca_TableSize : Z;
  ca_Table : list (list ScanRecord);
  ca_FrozenAccess : list bool }.

Section Cache.
Context (ci : bool).

Definition ComputeScanCacheKey (filename : cstr) (scanner_hash : HashDigest) : HashDigest :=
  let path_hash := Djb2HashPath64 ci filename in
  mkDigest (Z.lxor (Fast.m_Words64_0 scanner_hash) path_hash) (Fast.m_Words64_1 scanner_hash).

Definition ScanCacheInit : ScanCache := mkScanCache None 0 0 [] [].

Fixpoint keys_sorted (keys : list HashDigest) : bool :=
  match keys with
  | a :: (b :: _) as keys' => negb (digest_lt b a) && keys_sorted keys'
  | _ => true
  end.

Definition ScanCacheSetCache (self : ScanCache) (frozen_data : option ScanData) : res ScanCache :=
  match frozen_data with
  | None => OK (mkScanCache None (ca_RecordCount self) (ca_TableSize self) (ca_Table self) (ca_FrozenAccess self))
  | Some d =>
      if keys_sorted (take (Z.to_nat (sn_EntryCount d)) (sn_Keys d))
      then OK (mkScanCache frozen_data (ca_RecordCount self) (ca_TableSize self) (ca_Table self) (replicate (Z.to_nat (sn_EntryCount d)) false))
      else Err (Croak "Header scanning cache is not sorted")
  end.

(** [key.m_Words32[0] & (table_size - 1)] on a little-endian machine. *)
Definition table_index (table_size : Z) (key : HashDigest) : Z :=
  Z.land (u32 (Fast.m_Words64_0 key)) (u32 (table_size - 1)).

Definition find_record (key : HashDigest) (chain : list ScanRecord) : option ScanRecord :=
  List.find (fun r => digest_eq key (r_Key r)) chain.

Definition LookupDynamic (self : ScanCache) (key : HashDigest) : res (option ScanRecord) :=
  let table_size := ca_TableSize self in
  if 0 <? table_size then
    chain ← of_opt (ca_Table self !!z table_index table_size key);
    OK (find_record key chain)
  else OK None.

(** The frozen part of a lookup: the included files, with the entry flagged. *)
Definition lookup_frozen (self : ScanCache) (key : HashDigest) (timestamp : Z) : res (ScanCache * option (list FrozenFileAndHash)) :=
  match ca_FrozenData self with
  | None => OK (self, None)
  | Some scan_data =>
      let count := sn_EntryCount scan_data in
      match BinarySearch digest_lt digest_eq (sn_Keys scan_data) count key with
      | None => OK (self, None)
      | Some index =>
          entry ← of_opt (sn_Data scan_data !!z index);
          if ce_FileTimestamp entry =? timestamp then
            access ← zwrite index true (ca_FrozenAccess self);
            OK (mkScanCache (ca_FrozenData self) (ca_RecordCount self) (ca_TableSize self) (ca_Table self) access,
                Some (ce_IncludedFiles entry))
          else OK (self, None)
      end
  end.

Definition ScanCacheLookup (self : ScanCache) (key : HashDigest) (timestamp : Z) : res (ScanCache * option (list FrozenFileAndHash)) :=
  '(self, frozen) ← lookup_frozen self key timestamp;
  match frozen with
  | Some files => OK (self, Some files)
  | None =>
      record ← LookupDynamic self key;
      match record with
      | Some record => if r_FileTimestamp record =? timestamp then OK (self, Some (r_Includes record)) else OK (self, None)
      | None => OK (self, None)
      end
  end.

(** [r->m_Next = new_table[index]; new_table[index] = r;] *)
Definition rehash_record (new_size : Z) (new_table : list (list ScanRecord)) (r : ScanRecord) : res (list (list ScanRecord)) :=
  let index := table_index new_size (r_Key r) in
  chain ← of_opt (new_table !!z index);
  zwrite index (r :: chain) new_table.

Definition ScanCachePrepareInsert (self : ScanCache) : res ScanCache :=
  let old_size := ca_TableSize self in
  let load := u32 (0x100 * ca_RecordCount self) / old_size in
  if (0 <? old_size) && (load <? 0xc0) then OK self else
  new_size ← NextPowerOfTwo_checked (u32 (old_size + 1));
  let new_size := if new_size <? 64 then 64 else new_size in
  new_table ← foldM (foldM (rehash_record new_size)) (replicate (Z.to_nat new_size) []) (ca_Table self);
  OK (mkScanCache (ca_FrozenData self) (ca_RecordCount self) (u32 new_size) new_table (ca_FrozenAccess self)).

(** The record the pointer leads to is overwritten. *)
Definition set_record (key : HashDigest) (timestamp : Z) (includes : list FrozenFileAndHash) (r : ScanRecord) : ScanRecord :=
  if digest_eq key (r_Key r) then mkRecord (r_Key r) timestamp includes else r.

Definition ScanCacheInsert (self : ScanCache) (key : HashDigest) (timestamp : Z) (included_files : list cstr) : res ScanCache :=
  record ← LookupDynamic self key;
  match record with
  | Some r =>
      if r_FileTimestamp r =? timestamp then OK self else
      self ← ScanCachePrepareInsert self;
      let includes := map (fun f => mkFile f (Djb2HashPath ci f)) included_files in
      OK (mkScanCache (ca_FrozenData self) (ca_RecordCount self) (ca_TableSize self)
            (map (map (set_record key timestamp includes)) (ca_Table self)) (ca_FrozenAccess self))
  | None =>
      self ← ScanCachePrepareInsert self;
      let index := table_index (ca_TableSize self) key in
      let includes := map (fun f => mkFile f (Djb2HashPath ci f)) included_files in
      chain ← of_opt (ca_Table self !!z index);
      table ← zwrite index (mkRecord key timestamp includes :: chain) (ca_Table self);
      OK (mkScanCache (ca_FrozenData self) (u32 (ca_RecordCount self + 1)) (ca_TableSize self) table (ca_FrozenAccess self))
  end.

Definition ScanCacheDirty (self : ScanCache) : bool := 0 <? ca_RecordCount self.

End Cache.

(** ** The session's records as a finite map *)

#[export] Instance HashDigest_countable : Countable HashDigest.
Proof.
  refine (inj_countable' (fun d => (Fast.m_Words64_0 d, Fast.m_Words64_1 d)) (fun p => mkDigest p.1 p.2) _). by intros [a b].
Defined.

Definition records (c : ScanCache) : list ScanRecord := concat (ca_Table c).

(** What a record says: the time stamp of the file and what it includes. *)
Definition fact (r : ScanRecord) : Z * list FrozenFileAndHash := (r_FileTimestamp r, r_Includes r).

Definition session (c : ScanCache) : gmap HashDigest (Z * list FrozenFileAndHash) :=
  list_to_map (map (fun r => (r_Key r, fact r)) (records c)).

(** Every record is in the chain of its key. *)
Definition filed (size : Z) (table : list (list ScanRecord)) : Prop :=
  forall i chain r, table !!z i = Some chain -> r ∈ chain -> table_index size (r_Key r) = i.

Record table_ok (c : ScanCache) : Prop := {
  tk_size : exists k, 6 <= k <= 31 /\ ca_TableSize c = 2 ^ k;
  tk_len : zlen (ca_Table c) = ca_TableSize c;
  tk_filed : filed (ca_TableSize c) (ca_Table c) }.

Record cache_ok (c : ScanCache) : Prop := {
  co_table : (ca_TableSize c = 0 /\ ca_Table c = []) \/ table_ok c;
  co_keys : NoDup (map r_Key (records c));
  co_count : ca_RecordCount c = zlen (records c);
  co_room : ca_TableSize c <= Z.max 64 (4 * ca_RecordCount c) }.

(** ** Lemmas: the table *)

Lemma index_range size key : (exists k, 6 <= k <= 31 /\ size = 2 ^ k) -> 0 <= table_index size key < size.
Proof.
  intros (k & Hk & ->). unfold table_index. rewrite mask_mod by lia. apply Z.mod_pos_bound. apply Z.pow_pos_nonneg; lia.
Qed.

Lemma concat_insert {A} (table : list (list A)) i chain chain' r : table !!z i = Some chain -> chain' = r :: chain ->
  concat (zinsert i chain' table) ≡ₚ r :: concat table.
Proof.
  intros Hi ->. pose proof (zlookup_lt _ _ _ Hi). unfold zlookup, zinsert in *. rewrite bool_decide_true in * by lia.
  by apply concat_push.
Qed.

Lemma filed_insert size table chain r : filed size table -> table !!z table_index size (r_Key r) = Some chain ->
  filed size (zinsert (table_index size (r_Key r)) (r :: chain) table).
Proof.
  intros Hf Hc i ch x Hi Hx. rewrite zlookup_insert in Hi. case_bool_decide as Hd.
  - destruct Hd as [<- _]. injection Hi as <-. apply elem_of_cons in Hx as [->|Hx]; [done|by apply (Hf _ chain)].
  - by apply (Hf i ch).
Qed.

Lemma rehash_record_ok size table r : (exists k, 6 <= k <= 31 /\ size = 2 ^ k) -> zlen table = size -> filed size table ->
  exists table', rehash_record size table r = OK table' /\ zlen table' = size /\ filed size table' /\ concat table' ≡ₚ r :: concat table.
Proof.
  intros Hs Hl Hf. pose proof (index_range size (r_Key r) Hs) as Hi. unfold rehash_record.
  destruct (zlookup_is_Some table (table_index size (r_Key r))) as [chain Hc]; [lia|]. rewrite Hc. cbn [of_opt mbind res_bind].
  rewrite zwrite_ok by lia. eexists. split; [done|]. split_and!; [by rewrite zinsert_length|by apply filed_insert|by apply (concat_insert table _ chain)].
Qed.

Lemma rehash_ok size l : forall table, (exists k, 6 <= k <= 31 /\ size = 2 ^ k) -> zlen table = size -> filed size table ->
  exists table', foldM (rehash_record size) table l = OK table' /\ zlen table' = size /\ filed size table' /\
  concat table' ≡ₚ l ++ concat table.
Proof.
  induction l as [|r l IH]; intros table Hs Hl Hf; cbn [foldM]; [by exists table|].
  destruct (rehash_record_ok size table r Hs Hl Hf) as (t1 & -> & Hl1 & Hf1 & HP1). cbn [mbind res_bind].
  destruct (IH t1 Hs Hl1 Hf1) as (t2 & -> & Hl2 & Hf2 & HP2). exists t2. split_and!; try done.
  rewrite HP2, HP1. cbn. by rewrite Permutation_middle.
Qed.

Lemma concat_nil {A} n : concat (replicate n (@nil A)) = [].
Proof. by induction n. Qed.

Lemma filed_empty size n : filed size (replicate n []).
Proof.
  intros i chain r Hi Hr. apply zlookup_elem in Hi. apply elem_of_replicate in Hi as [-> _]. by apply elem_of_nil in Hr.
Qed.

Lemma size_range c : cache_ok c -> ca_RecordCount c < 2 ^ 24 -> 0 <= ca_TableSize c < 2 ^ 27.
Proof.
  intros H Hn. pose proof (co_room c H). destruct (co_table c H) as [[-> _]|T]; [lia|].
  destruct (tk_size c T) as (k & Hk & E). pose proof (Z.pow_pos_nonneg 2 k). lia.
Qed.

Lemma grown_size c : cache_ok c -> ca_RecordCount c < 2 ^ 24 ->
  exists k, 6 <= k <= 31 /\ 2 ^ k <= Z.max 64 (2 * ca_TableSize c) /\
  (new_size ← NextPowerOfTwo_checked (u32 (ca_TableSize c + 1)); OK (if new_size <? 64 then 64 else new_size)) = OK (2 ^ k).
Proof.
  intros H Hn. pose proof (size_range c H Hn) as Hs.
  rewrite u32_small by (unfold in_u32; lia). destruct (NextPowerOfTwo_bounds (ca_TableSize c + 1)) as (k & Hk & Ek & Hb); [lia|].
  rewrite NextPowerOfTwo_checked_OK, Ek by lia. cbn [mbind res_bind]. destruct (Z.ltb_spec (2 ^ k) 64) as [Hl|Hl].
  - exists 6. split_and!; [lia..|done].
  - exists k. assert (6 <= k). { destruct (Z.le_gt_cases 6 k); [done|]. assert (2 ^ k <= 2 ^ 5) by (apply Z.pow_le_mono_r; lia). lia. }
    split; [lia|]. split; [|done].
    destruct (co_table c H) as [[E0 _]|T]; [rewrite E0 in Hb; lia|]. destruct (tk_size c T) as (j & Hj & Ej). rewrite Ej in Hb |- *.
    assert (k < j + 2). { apply (Z.pow_lt_mono_r_iff 2); [lia|lia|]. rewrite Z.pow_add_r by lia. lia. }
    assert (2 ^ k <= 2 ^ (j + 1)) by (apply Z.pow_le_mono_r; lia). rewrite Z.pow_add_r in * by lia. lia.
Qed.

(** [ScanCachePrepareInsert] keeps the records and makes sure there is a table. *)
Lemma prepare_ok c : cache_ok c -> ca_RecordCount c < 2 ^ 24 ->
  exists c', ScanCachePrepareInsert c = OK c' /\ cache_ok c' /\ table_ok c' /\ records c' ≡ₚ records c /\
  ca_RecordCount c' = ca_RecordCount c /\ ca_FrozenData c' = ca_FrozenData c /\ ca_FrozenAccess c' = ca_FrozenAccess c.
Proof.
  intros H Hn. assert (H0 : 0 <= ca_RecordCount c) by (rewrite (co_count c H); lia).
  unfold ScanCachePrepareInsert. rewrite (u32_small (256 * _)) by (unfold in_u32; lia). destruct (_ && _) eqn:E.
  - apply andb_true_iff in E as [E%Z.ltb_lt _]. exists c. destruct (co_table c H) as [[? _]|T]; [lia|]. done.
  - destruct (grown_size c H Hn) as (k & Hk & Hk2 & Eg). destruct (NextPowerOfTwo_checked _) as [n|]; [|done]. cbn [mbind res_bind] in Eg |- *.
    injection Eg as ->. rewrite foldM_concat. pose proof (Z.pow_pos_nonneg 2 k).
    destruct (rehash_ok (2 ^ k) (concat (ca_Table c)) (replicate (Z.to_nat (2 ^ k)) [])) as (t & -> & Hl & Hf & HP);
      [by exists k|rewrite length_replicate; lia|apply filed_empty|]. rewrite concat_nil, app_nil_r in HP. cbn [mbind res_bind].
    assert (Hu : u32 (2 ^ k) = 2 ^ k) by (apply u32_small; pose proof (Z.pow_le_mono_r 2 k 31); unfold in_u32; lia). rewrite Hu.
    assert (T : table_ok (mkScanCache (ca_FrozenData c) (ca_RecordCount c) (2 ^ k) t (ca_FrozenAccess c))) by (split; [by exists k|done|done]).
    eexists. split; [done|]. split_and!; try done. split; [by right| | |].
    + unfold records in *. cbn [ca_Table]. rewrite HP. apply H.
    + unfold records in *. cbn [ca_Table ca_RecordCount]. rewrite HP. apply H.
    + cbn [ca_TableSize ca_RecordCount]. destruct (Z.ltb_spec 0 (ca_TableSize c)) as [Hp|Hp]; [|lia]. cbn [andb] in E.
      apply Z.ltb_ge in E. pose proof (Z.mul_div_le (256 * ca_RecordCount c) (ca_TableSize c) Hp). nia.
Qed.

Lemma same_table c c' : cache_ok c -> ca_Table c' = ca_Table c -> ca_TableSize c' = ca_TableSize c -> ca_RecordCount c' = ca_RecordCount c -> cache_ok c'.
Proof.
  intros [Ht Hk Hc Hr] E1 E2 E3. split; unfold records in *; rewrite ?E1, ?E2, ?E3; try done.
  destruct Ht as [?|[Hs Hl Hf]]; [by left|right]. split; by rewrite ?E1, ?E2.
Qed.

(** ** Lemmas: the session map *)

Lemma session_keys c : (map (fun r => (r_Key r, fact r)) (records c)).*1 = map r_Key (records c).
Proof. induction (records c) as [|r l IH]; cbn; [done|]. by f_equal. Qed.

Lemma session_lookup c key v : NoDup (map r_Key (records c)) ->
  session c !! key = Some v <-> exists r, r ∈ records c /\ r_Key r = key /\ fact r = v.
Proof.
  intros Hn. unfold session. rewrite <- elem_of_list_to_map by (by rewrite session_keys).
  change (map ?f ?l) with (f <$> l). rewrite list_elem_of_fmap. split.
  - intros (r & [= -> ->] & Hr). eauto.
  - intros (r & Hr & <- & <-). eauto.
Qed.

Lemma find_record_ok key chain : match find_record key chain with
  | Some r => r ∈ chain /\ r_Key r = key
  | None => forall r, r ∈ chain -> r_Key r <> key
  end.
Proof.
  unfold find_record. destruct (List.find _ chain) as [r|] eqn:E.
  - apply find_some in E as [Hr E]. apply digest_eq_spec in E. split; [by apply list_elem_of_In|done].
  - intros r Hr Ek. pose proof (find_none _ _ E r (proj1 (list_elem_of_In _ _) Hr)) as Hf. apply not_true_iff_false in Hf. apply Hf.
    by apply digest_eq_spec.
Qed.

Lemma in_records c r : r ∈ records c <-> exists i chain, ca_Table c !!z i = Some chain /\ r ∈ chain.
Proof.
  unfold records. rewrite list_elem_of_In, in_concat. split.
  - intros (chain & Hc & Hr). apply list_elem_of_In in Hc, Hr. apply list_elem_of_lookup in Hc as [i Hi]. rewrite <- zlookup_nat in Hi. eauto.
  - intros (i & chain & Hi & Hr). exists chain. split; [|by apply list_elem_of_In]. apply list_elem_of_In. by eapply zlookup_elem.
Qed.

(** [LookupDynamic] ends and finds the session's record of the key. *)
Lemma lookup_dynamic_ok c key : cache_ok c -> exists o, LookupDynamic c key = OK o /\ fact <$> o = session c !! key /\
  match o with Some r => r ∈ records c /\ r_Key r = key | None => forall r, r ∈ records c -> r_Key r <> key end.
Proof.
  intros H. unfold LookupDynamic.
  assert (Hm : forall o, match o with Some r => r ∈ records c /\ r_Key r = key | None => forall r, r ∈ records c -> r_Key r <> key end ->
    fact <$> o = session c !! key).
  { intros [r|] Ho; cbn; symmetry.
    - apply session_lookup; [apply H|]. destruct Ho. eauto.
    - apply eq_None_not_Some. intros [v (r & Hr & Ek & _)%session_lookup]; [|apply H]. by apply (Ho r). }
  destruct (co_table c H) as [[-> Ht]|T].
  - exists None. change (0 <? 0) with false. split; [done|].
    assert (Hno : forall r, r ∈ records c -> r_Key r <> key) by (intros r Hr; unfold records in Hr; rewrite Ht in Hr; by apply elem_of_nil in Hr).
    split; [by apply (Hm None)|done].
  - pose proof (index_range _ key (tk_size c T)) as Hi. destruct (Z.ltb_spec 0 (ca_TableSize c)); [|lia].
    destruct (zlookup_is_Some (ca_Table c) (table_index (ca_TableSize c) key)) as [chain Hc]; [rewrite (tk_len c T); lia|].
    rewrite Hc. cbn [of_opt mbind res_bind]. exists (find_record key chain). split; [done|].
    pose proof (find_record_ok key chain) as Hf.
    assert (Ho : match find_record key chain with Some r => r ∈ records c /\ r_Key r = key | None => forall r, r ∈ records c -> r_Key r <> key end).
    { destruct (find_record key chain) as [r|].
      - destruct Hf. split; [|done]. apply in_records. eauto.
      - intros r Hr Ek. apply in_records in Hr as (i & ch & Hch & Hr). pose proof (tk_filed c T i ch r Hch Hr) as Ei. rewrite Ek in Ei.
        subst i. rewrite Hc in Hch. injection Hch as <-. by apply (Hf r). }
    split; [by apply Hm|done].
Qed.

(** What the session knows after [ScanCacheInsert]. *)
Definition learn (ci : bool) (key : HashDigest) (timestamp : Z) (files : list cstr)
    (m : gmap HashDigest (Z * list FrozenFileAndHash)) : gmap HashDigest (Z * list FrozenFileAndHash) :=
  if bool_decide (fst <$> m !! key = Some timestamp) then m
  else <[key := (timestamp, map (fun f => mkFile f (Djb2HashPath ci f)) files)]> m.

Lemma session_perm c c' : NoDup (map r_Key (records c)) -> records c ≡ₚ records c' -> session c = session c'.
Proof.
  intros Hn HP. unfold session. apply list_to_map_proper; [by rewrite session_keys|by rewrite HP].
Qed.

Lemma set_record_key key ts inc r : r_Key (set_record key ts inc r) = r_Key r.
Proof. unfold set_record. by case_match. Qed.

Lemma overwrite_ok c key ts inc c' r : cache_ok c -> r ∈ records c -> r_Key r = key ->
  c' = mkScanCache (ca_FrozenData c) (ca_RecordCount c) (ca_TableSize c) (map (map (set_record key ts inc)) (ca_Table c)) (ca_FrozenAccess c) ->
  cache_ok c' /\ session c' = <[key := (ts, inc)]> (session c).
Proof.
  intros H Hr Ek E. assert (Er : records c' = map (set_record key ts inc) (records c)) by (rewrite E; unfold records; cbn; by rewrite concat_map).
  assert (Ekeys : map r_Key (records c') = map r_Key (records c)).
  { rewrite Er, map_map. apply map_ext. intros x. apply set_record_key. }
  assert (H' : cache_ok c').
  { split.
    - destruct (co_table c H) as [[E0 Et]|T]; [left; rewrite E; cbn; by rewrite E0, Et|right]. rewrite E. split; cbn; [apply T|by rewrite length_map, (tk_len c T)|].
      intros i chain x Hi Hx. rewrite zlookup_map in Hi. destruct (ca_Table c !!z i) as [ch|] eqn:Hc; [|done]. injection Hi as <-.
      apply list_elem_of_fmap in Hx as (y & -> & Hy). rewrite set_record_key. by apply (tk_filed c T i ch).
    - rewrite Ekeys. apply H.
    - rewrite Er, length_map, E. cbn. apply H.
    - rewrite E. cbn. apply H. }
  split; [done|]. apply map_eq. intros k. apply option_eq. intros v. rewrite session_lookup by apply H'. rewrite Er. split.
  - intros (x & (y & -> & Hy)%list_elem_of_fmap & Ekx & <-). rewrite set_record_key in Ekx. unfold set_record. destruct (digest_eq key (r_Key y)) eqn:Ed.
    + apply digest_eq_spec in Ed. rewrite <- Ekx, Ed, lookup_insert_eq. done.
    + rewrite lookup_insert_ne. { apply session_lookup; [apply H|]. eauto. } intros <-. rewrite <- Ekx in Ed.
      apply not_true_iff_false in Ed. apply Ed. by apply digest_eq_spec.
  - destruct (decide (k = key)) as [->|Hne].
    + rewrite lookup_insert_eq. intros [= <-]. exists (set_record key ts inc r). split; [by apply (list_elem_of_fmap_2 (set_record key ts inc))|].
      rewrite set_record_key. split; [done|]. unfold set_record. by rewrite (proj2 (digest_eq_spec key (r_Key r))) by done.
    + rewrite lookup_insert_ne by done. intros (y & Hy & Eky & <-)%session_lookup; [|apply H]. exists (set_record key ts inc y).
      split; [by apply (list_elem_of_fmap_2 (set_record key ts inc))|]. rewrite set_record_key. split; [done|]. unfold set_record.
      destruct (digest_eq key (r_Key y)) eqn:Ed; [|done]. apply digest_eq_spec in Ed. congruence.
Qed.

Lemma scan_insert_ok ci c key ts files : cache_ok c -> ca_RecordCount c < 2 ^ 24 ->
  exists c', ScanCacheInsert ci c key ts files = OK c' /\ cache_ok c' /\ session c' = learn ci key ts files (session c) /\
  ca_FrozenData c' = ca_FrozenData c /\ ca_FrozenAccess c' = ca_FrozenAccess c /\ ca_RecordCount c' <= ca_RecordCount c + 1.
Proof.
  intros H Hn. unfold ScanCacheInsert. destruct (lookup_dynamic_ok c key H) as (o & -> & Ho & Hr). cbn [mbind res_bind]. unfold learn. rewrite <- Ho.
  destruct (prepare_ok c H Hn) as (c1 & E1 & H1 & T1 & HP & Hc1 & Hd1 & Ha1).
  assert (Hs1 : session c1 = session c) by (symmetry; apply session_perm; [apply H|by rewrite HP]). destruct o as [r|]; cbn [fmap option_fmap option_map fst fact].
  - destruct Hr as [Hr Ek]. destruct (Z.eqb_spec (r_FileTimestamp r) ts) as [->|Hts].
    + exists c. rewrite bool_decide_true by done. split_and!; try done; lia.
    + rewrite bool_decide_false by congruence. rewrite E1. cbn [mbind res_bind].
      set (inc := map _ files). set (c2 := mkScanCache _ _ _ _ _).
      destruct (overwrite_ok c1 key ts inc c2 r H1) as [H2 Hs2]; [by rewrite HP|done|done|].
      exists c2. split_and!; try done; [by rewrite Hs2, Hs1|cbn; lia].
  - rewrite bool_decide_false by done. rewrite E1. cbn [mbind res_bind]. set (inc := map _ files).
    set (rec := mkRecord key ts inc). pose proof (index_range _ key (tk_size c1 T1)) as Hi.
    destruct (rehash_record_ok (ca_TableSize c1) (ca_Table c1) rec (tk_size c1 T1) (tk_len c1 T1) (tk_filed c1 T1)) as (t & Et & Hl & Hf & HPt).
    unfold rehash_record in Et. cbn [r_Key rec] in Et. cbv zeta in Et. destruct (ca_Table c1 !!z table_index (ca_TableSize c1) key) as [chain|]; [|done].
    cbn [of_opt mbind res_bind] in Et |- *. rewrite Et. cbn [mbind res_bind]. set (c2 := mkScanCache _ _ _ _ _).
    assert (Hrec : records c2 ≡ₚ rec :: records c) by (unfold records at 1; cbn [c2 ca_Table]; rewrite HPt; fold (records c1); by rewrite HP).
    assert (Hn0 : 0 <= ca_RecordCount c) by (rewrite (co_count c H); lia).
    assert (Hcount : ca_RecordCount c2 = ca_RecordCount c + 1) by (cbn; rewrite Hc1; apply u32_small; unfold in_u32; lia).
    assert (H2 : cache_ok c2).
    { split; [right; split; [apply T1|done|done]| | |].
      - rewrite Hrec. cbn [map]. constructor; [|apply H]. intros (x & Ex & Hx)%list_elem_of_fmap. by apply (Hr x Hx).
      - rewrite Hcount, Hrec, (co_count c H). cbn [length]. lia.
      - rewrite Hcount. cbn [c2 ca_TableSize]. pose proof (co_room c1 H1). lia. }
    exists c2. split_and!; try done; [|lia]. unfold session at 1.
    rewrite (list_to_map_proper _ (map (fun r => (r_Key r, fact r)) (rec :: records c))); [done|rewrite session_keys; apply H2|by rewrite Hrec].
Qed.

(** ** Lookups *)

Record frozen_ok (d : ScanData) : Prop := {
  fo_sorted : ssorted (sn_Keys d);
  fo_keys : zlen (sn_Keys d) = sn_EntryCount d;
  fo_data : zlen (sn_Data d) = sn_EntryCount d;
  fo_times : zlen (sn_AccessTimes d) = sn_EntryCount d }.

(** The frozen records as a map. *)
Definition frozen_facts (d : ScanData) : gmap HashDigest (Z * list FrozenFileAndHash) :=
  list_to_map (zip (sn_Keys d) (map (fun e => (ce_FileTimestamp e, ce_IncludedFiles e)) (sn_Data d))).

Definition frozen (c : ScanCache) : gmap HashDigest (Z * list FrozenFileAndHash) :=
  match ca_FrozenData c with Some d => frozen_facts d | None => ∅ end.

Record scan_ok (c : ScanCache) : Prop := {
  sk_cache : cache_ok c;
  sk_frozen : forall d, ca_FrozenData c = Some d -> frozen_ok d /\ zlen (ca_FrozenAccess c) = sn_EntryCount d }.

(** The answer for a file with this time stamp. *)
Definition known (m : gmap HashDigest (Z * list FrozenFileAndHash)) (key : HashDigest) (timestamp : Z) : option (list FrozenFileAndHash) :=
  match m !! key with Some (t, files) => if t =? timestamp then Some files else None | None => None end.

Lemma frozen_lookup d key : frozen_ok d ->
  match BinarySearch digest_lt digest_eq (sn_Keys d) (sn_EntryCount d) key with
  | Some i => exists e, sn_Data d !!z i = Some e /\ 0 <= i < sn_EntryCount d /\
      frozen_facts d !! key = Some (ce_FileTimestamp e, ce_IncludedFiles e)
  | None => frozen_facts d !! key = None
  end.
Proof.
  intros [Hs Hk Hd _]. rewrite <- Hk. pose proof (digest_search (sn_Keys d) key Hs) as Hb.
  assert (Hz : (zip (sn_Keys d) (map (fun e => (ce_FileTimestamp e, ce_IncludedFiles e)) (sn_Data d))).*1 = sn_Keys d).
  { apply fst_zip. rewrite length_map. lia. }
  destruct (BinarySearch _ _ _ _ _) as [i|].
  - pose proof (zlookup_lt _ _ _ Hb) as Hi. destruct (zlookup_is_Some (sn_Data d) i) as [e He]; [lia|]. exists e. split_and!; [done|lia|lia|].
    apply elem_of_list_to_map; [rewrite Hz; by apply ssorted_nodup|]. unfold zlookup in Hb, He. rewrite bool_decide_true in Hb, He by lia.
    apply list_elem_of_lookup. exists (Z.to_nat i). apply lookup_zip_with_Some. eexists _, _. split_and!; [done|done|].
    change (map ?f ?l) with (f <$> l). by rewrite list_lookup_fmap, He.
  - apply not_elem_of_list_to_map. by rewrite Hz.
Qed.

Lemma scan_lookup_ok c key ts : scan_ok c ->
  exists c', ScanCacheLookup c key ts = OK (c', match known (frozen c) key ts with Some f => Some f | None => known (session c) key ts end) /\
  scan_ok c' /\ session c' = session c /\ frozen c' = frozen c /\ ca_RecordCount c' = ca_RecordCount c /\ ca_FrozenData c' = ca_FrozenData c.
Proof.
  intros [H Hf]. unfold ScanCacheLookup, lookup_frozen.
  assert (Hdyn : exists c', (record ← LookupDynamic c key; match record with
      | Some record => if r_FileTimestamp record =? ts then OK (c, Some (r_Includes record)) else OK (c, None)
      | None => OK (c, None) end) = OK (c', known (session c) key ts) /\ c' = c).
  { exists c. split; [|done]. destruct (lookup_dynamic_ok c key H) as (o & -> & Ho & _). cbn [mbind res_bind]. unfold known. rewrite <- Ho.
    destruct o as [r|]; cbn; [by case_match|done]. }
  destruct Hdyn as (c0 & Hdyn & ->).
  assert (Hmiss : known (frozen c) key ts = None -> exists c',
    (record ← LookupDynamic c key; match record with
      | Some record => if r_FileTimestamp record =? ts then OK (c, Some (r_Includes record)) else OK (c, None)
      | None => OK (c, None) end) = OK (c', match known (frozen c) key ts with Some f => Some f | None => known (session c) key ts end) /\
    scan_ok c' /\ session c' = session c /\ frozen c' = frozen c /\ ca_RecordCount c' = ca_RecordCount c /\ ca_FrozenData c' = ca_FrozenData c).
  { intros ->. exists c. split; [done|]. split_and!; try done. }
  unfold frozen in *. destruct (ca_FrozenData c) as [d|] eqn:Ed; cbn [mbind res_bind]; [|by apply Hmiss].
  destruct (Hf d eq_refl) as [Hd Ha]. pose proof (frozen_lookup d key Hd) as Hl. unfold known in *.
  destruct (BinarySearch _ _ _ _ _) as [i|]; cbn [mbind res_bind]; [|rewrite Hl in *; by apply Hmiss].
  destruct Hl as (e & -> & Hi & El). rewrite El in *. cbn [of_opt mbind res_bind].
  destruct (ce_FileTimestamp e =? ts); cbn [mbind res_bind]; [|by apply Hmiss].
  rewrite zwrite_ok by lia. cbn [mbind res_bind]. eexists. split; [done|]. cbn [ca_FrozenData ca_RecordCount]. split_and!; try done.
  split; [by apply (same_table c)|]. cbn. intros d' [= <-]. rewrite zinsert_length. done.
Qed.

(** C22. The scan cache implements two finite maps from scan keys to a time stamp
    and a list of includes: what earlier builds found and what this session
    found. A lookup always ends and answers from the first map, else from the
    second, when the time stamp recorded there is the file's; it changes
    neither. An insert, whatever table growth it triggers, replaces the
    session's entry unless that entry is for the same time stamp already. *)
Theorem scan_cache_refines ci c key ts files : scan_ok c -> ca_RecordCount c < 2 ^ 24 ->
  (exists c', ScanCacheLookup c key ts = OK (c', match known (frozen c) key ts with Some f => Some f | None => known (session c) key ts end) /\
     scan_ok c' /\ session c' = session c /\ frozen c' = frozen c) /\
  (exists c', ScanCacheInsert ci c key ts files = OK c' /\ scan_ok c' /\
     session c' = learn ci key ts files (session c) /\ frozen c' = frozen c).
Proof.
  intros H Hn. split.
  - destruct (scan_lookup_ok c key ts H) as (c' & -> & Hok & Hs & Hf & _). eauto 6.
  - destruct (scan_insert_ok ci c key ts files (sk_cache c H) Hn) as (c' & -> & Hok & Hs & Hd & Ha & _).
    exists c'. unfold frozen. rewrite Hd. split_and!; try done. split; [done|]. rewrite Hd, Ha. apply H.
Qed.

Lemma init_scan_ok : scan_ok ScanCacheInit.
Proof. split; [|done]. split; [by left|constructor|done|done]. Qed.

Lemma scan_cache_refines_witness : exists c', ScanCacheInsert false ScanCacheInit (mkDigest 5 6) 100 [s2l "a.h"] = OK c' /\ scan_ok c' /\
  session c' = {[mkDigest 5 6 := (100, [mkFile (s2l "a.h") (Djb2HashPath false (s2l "a.h"))])]} /\ frozen c' = ∅.
Proof. exact (proj2 (scan_cache_refines false ScanCacheInit (mkDigest 5 6) 100 [s2l "a.h"] init_scan_ok eq_refl)). Defined.
