(* ===== verification/PathUtil.v ===== *)
(** * Paths

    Models src/src/PathUtil.hpp and src/src/PathUtil.cpp: the fixed-size path
    buffer, parsing with [.] and [..] resolution, concatenation, stripping and
    formatting. The arrays have their sizes, so a [memcpy] past the end of
    [m_Data] is an [OutOfBounds]. The abstract path is a record of flags, the
    number of leading [..] and the list of segments. *)

From S2P Require Import Prelude CommonFns.

Definition kMaxPathLength : Z := 512.
Definition kMaxPathSegments : Z := 64.

Inductive PathType : Type := kUnix | kWindows.

Definition kFlagAbsolute : Z := 1.
Definition kFlagWindowsDevicePath : Z := 2.

Record PathBuffer : Type := mkPath {
  pb_Type : PathType;
  pb_Flags : Z;
  pb_SegCount : Z;
  pb_LeadingDotDots : Z;
  pb_SegEnds : list Z;
  pb_Data : cstr }.

Definition SegLength (p : PathBuffer) (i : Z) : res Z :=
  _ ← check (u16 i <? pb_SegCount p) "uint16_t(i) < m_SegCount";
  e ← of_opt (pb_SegEnds p !!z i);
  if 0 <? i then
    b ← of_opt (pb_SegEnds p !!z (i - 1));
    OK (u16 (e - b))
  else OK e.

(** [n] bytes at [off], as [memcpy] and [memcmp] see them. *)
Definition bytes_at (s : cstr) (off n : Z) : cstr := take (Z.to_nat n) (drop (Z.to_nat off) s).

(** [memcpy] into an array. *)
Definition copy_into (dst : cstr) (off : Z) (src : cstr) : res cstr :=
  if off + zlen src <=? zlen dst then
    OK (take (Z.to_nat off) dst ++ src ++ drop (Z.to_nat off + length src) dst)
  else Err OutOfBounds.

(** [operator==]: the data is compared over the length of the last segment. *)
Definition path_eq (a b : PathBuffer) : res bool :=
  if negb (pb_SegCount a =? pb_SegCount b) then OK false
  else if pb_SegCount a =? 0 then OK true
  else
    if bool_decide (take (Z.to_nat (pb_SegCount a)) (pb_SegEnds a) = take (Z.to_nat (pb_SegCount a)) (pb_SegEnds b)) then
      n ← SegLength a (pb_SegCount a - 1);
      OK (bool_decide (bytes_at (pb_Data a) 0 n = bytes_at (pb_Data b) 0 n))
    else OK false.

Definition PathIsAbsolute (p : PathBuffer) : bool := negb (Z.land (pb_Flags p) kFlagAbsolute =? 0).

Definition is_device (p : PathBuffer) : bool := negb (Z.land (pb_Flags p) kFlagWindowsDevicePath =? 0).

Definition BufferSize (p : PathBuffer) (seg_count : Z) : res Z :=
  _ ← check (u16 seg_count <=? pb_SegCount p) "uint16_t(seg_count) <= path->m_SegCount";
  if 0 <? seg_count then of_opt (pb_SegEnds p !!z (seg_count - 1)) else OK 0.

(** ** Parsing *)

Record PathSeg : Type := mkSeg { ps_offset : Z; ps_len : Z; ps_dotdot : bool; ps_drop : bool }.

Definition slash : ascii := "/"%char.
Definition backslash : ascii := "\"%char.

(** A character that ends a segment; the end of the list is the terminator. *)
Definition is_sep (c : ascii) : bool := Ascii.eqb backslash c || Ascii.eqb slash c.

(** A segment ends at [pos]. *)
Definition add_seg (path : cstr) (pos last : Z) (segments : list PathSeg) : res (list PathSeg) :=
  let len := pos - last in
  if 0 <? len then
    let is_dotdot := (2 =? len) && bool_decide (bytes_at path last 2 = s2l "..") in
    let is_dot := (1 =? len) && bool_decide (bytes_at path last 1 = s2l ".") in
    if zlen segments =? kMaxPathSegments then Err (Croak "too many segments in path; limit is %d")
    else OK (segments ++ [mkSeg (u16 last) (u16 len) is_dotdot is_dot])
  else OK segments.

Fixpoint PathGetSegments_loop (path scratch : cstr) (pos last : Z) (segments : list PathSeg) : res (list PathSeg) :=
  match scratch with
  | [] => add_seg path pos last segments
  | ch :: scratch' =>
      if Ascii.eqb ch NUL then add_seg path pos last segments
      else if is_sep ch then
        segments ← add_seg path pos last segments;
        PathGetSegments_loop path scratch' (pos + 1) (pos + 1) segments
      else PathGetSegments_loop path scratch' (pos + 1) last segments
  end.

Definition PathGetSegments (path : cstr) : res (list PathSeg) := PathGetSegments_loop path path 0 0 [].

(** The loop from the last segment to the first: the drops it leaves over and
    the segments with their drop marks. *)
Fixpoint drop_segments (segments : list PathSeg) : Z * list PathSeg :=
  match segments with
  | [] => (0, [])
  | s :: segments' =>
      let '(dotdot_drops, rest) := drop_segments segments' in
      if ps_drop s then (dotdot_drops, s :: rest)
      else if ps_dotdot s then (u16 (dotdot_drops + 1), mkSeg (ps_offset s) (ps_len s) (ps_dotdot s) true :: rest)
      else if 0 <? dotdot_drops then (u16 (dotdot_drops - 1), mkSeg (ps_offset s) (ps_len s) (ps_dotdot s) true :: rest)
      else (dotdot_drops, s :: rest)
  end.

Fixpoint copy_segments (path : cstr) (segments : list PathSeg) (data : cstr) (ends : list Z) (count pos : Z)
  : res (cstr * list Z * Z) :=
  match segments with
  | [] => OK (data, ends, count)
  | s :: segments' =>
      if ps_drop s then copy_segments path segments' data ends count pos
      else if kMaxPathLength <=? pos then Err (Croak "Path too long: %s")
      else
        data ← copy_into data pos (bytes_at path (ps_offset s) (ps_len s));
        let pos := u16 (pos + ps_len s) in
        ends ← zwrite count pos ends;
        copy_segments path segments' data ends (u16 (count + 1)) pos
  end.

Definition isalpha (c : ascii) : bool :=
  let u := uchar c in ((65 <=? u) && (u <=? 90)) || ((97 <=? u) && (u <=? 122)).

Definition char_at (s : cstr) (i : nat) : ascii := default NUL (s !! i).

(** The flags of a path and the path without a leading separator. *)
Definition path_prefix (type : PathType) (path : cstr) : Z * cstr :=
  match type with
  | kUnix => if Ascii.eqb slash (char_at path 0) then (kFlagAbsolute, tail path) else (0, path)
  | kWindows =>
      if is_sep (char_at path 0) then (kFlagAbsolute, tail path)
      else if isalpha (char_at path 0) && Ascii.eqb ":"%char (char_at path 1) && is_sep (char_at path 2) then
        (Z.lor kFlagAbsolute kFlagWindowsDevicePath, path)
      else (0, path)
  end.

(** [junk_ends] and [junk_data] are what the buffer held before. *)
Definition PathInit (junk_ends : list Z) (junk_data : cstr) (path : cstr) (type : PathType) : res PathBuffer :=
  let '(flags, path) := path_prefix type path in
  segments ← PathGetSegments path;
  let '(dotdot_drops, segments) := drop_segments segments in
  '(data, ends, count) ← copy_segments path segments junk_data junk_ends 0 0;
  OK (mkPath type flags count dotdot_drops ends data).

(** ** Operations *)

Definition with_count (n : Z) (p : PathBuffer) : PathBuffer :=
  mkPath (pb_Type p) (pb_Flags p) n (pb_LeadingDotDots p) (pb_SegEnds p) (pb_Data p).

Definition PathStripLast (p : PathBuffer) : PathBuffer * bool :=
  let min_seg_count := if is_device p then 1 else 0 in
  if min_seg_count <? pb_SegCount p then (with_count (pb_SegCount p - 1) p, true) else (p, false).

(** Throwing away one [..] of the other path, [count] times: segments left and
    leading [..] gained. *)
Fixpoint strip_dotdots (count : nat) (min_seg_count seg_count dotdots : Z) : Z * Z :=
  match count with
  | O => (seg_count, dotdots)
  | S count =>
      if min_seg_count <? seg_count then strip_dotdots count min_seg_count (seg_count - 1) dotdots
      else if seg_count =? 0 then strip_dotdots count min_seg_count seg_count (u16 (dotdots + 1))
      else strip_dotdots count min_seg_count seg_count dotdots
  end.

(** [m_SegEnds[seg_count + i] = other->m_SegEnds[i] + keep_buffer] for the
    [count] segments of the other path. *)
Fixpoint append_ends (count : nat) (i seg_count keep : Z) (other ends : list Z) : res (list Z) :=
  match count with
  | O => OK ends
  | S count =>
      e ← of_opt (other !!z i);
      ends ← zwrite (seg_count + i) (u16 (e + keep)) ends;
      append_ends count (i + 1) seg_count keep other ends
  end.

Definition PathConcatImpl (buffer other : PathBuffer) : res PathBuffer :=
  _ ← check (negb (PathIsAbsolute other)) "!PathIsAbsolute(other)";
  let min_seg_count := if is_device buffer then 1 else 0 in
  let '(seg_count, dotdots) :=
    strip_dotdots (Z.to_nat (pb_LeadingDotDots other)) min_seg_count (pb_SegCount buffer) (pb_LeadingDotDots buffer) in
  let dotdots := if PathIsAbsolute buffer then 0 else dotdots in
  keep_buffer ← BufferSize buffer seg_count;
  other_buffer ← BufferSize other (pb_SegCount other);
  _ ← check (seg_count + pb_SegCount other <=? kMaxPathSegments) "seg_count + other->m_SegCount <= kMaxPathSegments";
  _ ← check (keep_buffer + other_buffer <=? kMaxPathLength) "keep_buffer + other_buffer <= kMaxPathLength";
  data ← copy_into (pb_Data buffer) keep_buffer (bytes_at (pb_Data other) 0 other_buffer);
  ends ← append_ends (Z.to_nat (pb_SegCount other)) 0 seg_count keep_buffer (pb_SegEnds other) (pb_SegEnds buffer);
  OK (mkPath (pb_Type buffer) (pb_Flags buffer) (u16 (seg_count + pb_SegCount other)) dotdots ends data).

(** [PathConcat] of two buffers. *)
Definition PathConcat (buffer other : PathBuffer) : res PathBuffer :=
  if PathIsAbsolute other then OK other else PathConcatImpl buffer other.

(** [PathConcat] with a string, of the native path type. *)
Definition PathConcatString (native : PathType) (junk_ends : list Z) (junk_data : cstr) (buffer : PathBuffer) (other : cstr) : res PathBuffer :=
  buf ← PathInit junk_ends junk_data other native;
  PathConcat buffer buf.

Definition pathsep (p : PathBuffer) : ascii := match pb_Type p with kWindows => backslash | kUnix => slash end.

(** The sum of the segment lengths before [start_seg]. *)
Fixpoint skip_segments (n : nat) (p : PathBuffer) (i off : Z) : res Z :=
  match n with
  | O => OK off
  | S n => l ← SegLength p i; skip_segments n p (i + 1) (u16 (off + l))
  end.

(** The loop over the segments; [out] is what has been written. *)
Fixpoint format_segments (n : nat) (p : PathBuffer) (start_seg i off : Z) (out : cstr) : res cstr :=
  match n with
  | O => OK out
  | S n =>
      len ← SegLength p i;
      if kMaxPathLength <=? zlen out + len + 1 then Err (Croak "Path too long") else
      let out := if start_seg <? i then out ++ [pathsep p] else out in
      format_segments n p start_seg (i + 1) (u16 (off + len)) (out ++ bytes_at (pb_Data p) off len)
  end.

(** The leading separators are written without a check: past the end of
    [output] they are out of bounds. *)
Definition PathFormatPartial (p : PathBuffer) (start_seg end_seg : Z) : res cstr :=
  let lead := if (start_seg =? 0) && (Z.land (pb_Flags p) (Z.lor kFlagAbsolute kFlagWindowsDevicePath) =? kFlagAbsolute)
              then [pathsep p] else [] in
  let out := lead ++ concat (replicate (Z.to_nat (pb_LeadingDotDots p)) (s2l ".." ++ [pathsep p])) in
  if kMaxPathLength <? zlen out then Err OutOfBounds else
  off ← skip_segments (Z.to_nat start_seg) p 0 0;
  out ← format_segments (Z.to_nat (end_seg + 1 - start_seg)) p start_seg start_seg off out;
  if kMaxPathLength <=? zlen out then Err OutOfBounds else OK out.

Definition PathFormat (p : PathBuffer) : res cstr := PathFormatPartial p 0 (pb_SegCount p - 1).

(** ** The test data of unittest/test_PathUtil.cpp *)

Definition junk_e : list Z := replicate 64 7.
Definition junk_d : cstr := replicate 512 "?"%char.

Definition init_format (type : PathType) (path : cstr) : res cstr :=
  p ← PathInit junk_e junk_d path type; PathFormat p.

Definition concat_format (type : PathType) (a b : cstr) : res cstr :=
  a ← PathInit junk_e junk_d a type;
  b ← PathInit junk_e junk_d b type;
  p ← PathConcat a b;
  PathFormat p.

Example test_init : forallb (fun '(t, i, o) => match init_format t (s2l i) with OK s => bool_decide (s = s2l o) | Err _ => false end)
  [(kUnix, "", ""); (kUnix, "////", "/"); (kUnix, "/foo///bar.c/", "/foo/bar.c"); (kUnix, "/foo/./bar.c/", "/foo/bar.c");
   (kUnix, "/foo/../bar.c/", "/bar.c"); (kUnix, "foo/../../bar.c", "../bar.c"); (kUnix, "../../../bar.c", "../../../bar.c");
   (kUnix, "././.", ""); (kWindows, "foo/../../bar.c", "..\bar.c"); (kWindows, "x:/foo", "x:\foo")]%string = true.
Proof. vm_compute. reflexivity. Qed.

Example test_concat : forallb (fun '(t, a, b, o) => match concat_format t (s2l a) (s2l b) with OK s => bool_decide (s = s2l o) | Err _ => false end)
  [(kUnix, "", "", ""); (kUnix, "/", "foo.c", "/foo.c"); (kUnix, "/bar", "../../foo.c", "/foo.c"); (kUnix, "/bar", "/foo.c", "/foo.c");
   (kUnix, "a/b/c/d", "../..", "a/b"); (kWindows, "x:\foo", "..\..\bar.h", "x:\bar.h")]%string = true.
Proof. vm_compute. reflexivity. Qed.
