(* ===== verification/PathThms.v ===== *)
(** * Theorems about paths

    For src/src/PathUtil.cpp: the abstract path a buffer stands for, the
    reference algorithms (splitting into tokens, resolving dots with a stack),
    and that the buffer operations implement them. *)

From S2P Require Import Prelude CommonFns PathUtil.

(** ** Reference definitions *)

Record apath : Type := mkAPath { ap_Type : PathType; ap_Flags : Z; ap_Up : Z; ap_Segs : list cstr }.

Definition flush (cur : cstr) : list cstr := match cur with [] => [] | _ => [cur] end.

(** The maximal runs of non-separators. *)
Fixpoint tokens_from (cur s : cstr) : list cstr :=
  match s with
  | [] => flush cur
  | c :: s' => if is_sep c then flush cur ++ tokens_from [] s' else tokens_from (cur ++ [c]) s'
  end.

Definition tokens (s : cstr) : list cstr := tokens_from [] s.

Definition dot : cstr := s2l ".".
Definition dotdot : cstr := s2l "..".

(** Reading from the left with a stack: [..] pops, or counts when there is
    nothing left to pop. *)
Definition walk (st : Z * list cstr) (seg : cstr) : Z * list cstr :=
  if bool_decide (seg = dot) then st
  else if bool_decide (seg = dotdot) then
    match st with (up, []) => (up + 1, []) | (up, _ :: stk) => (up, stk) end
  else (st.1, seg :: st.2).

Definition resolve (segs : list cstr) : Z * list cstr :=
  let '(up, stk) := foldl walk (0, []) segs in (up, rev stk).

(** The abstract path of a string. *)
Definition parse (type : PathType) (path : cstr) : apath :=
  let '(flags, rest) := path_prefix type path in
  let '(up, segs) := resolve (tokens rest) in
  mkAPath type flags up segs.

(** ** Representation *)

Fixpoint ends_from (base : Z) (segs : list cstr) : list Z :=
  match segs with
  | [] => []
  | s :: segs' => (base + zlen s) :: ends_from (base + zlen s) segs'
  end.

Record repr (p : PathBuffer) (a : apath) : Prop := {
  rp_type : pb_Type p = ap_Type a;
  rp_flags : pb_Flags p = ap_Flags a;
  rp_up : pb_LeadingDotDots p = ap_Up a;
  rp_up_range : in_u16 (ap_Up a);
  rp_count : pb_SegCount p = zlen (ap_Segs a);
  rp_ends_len : zlen (pb_SegEnds p) = kMaxPathSegments;
  rp_data_len : zlen (pb_Data p) = kMaxPathLength;
  rp_count_max : zlen (ap_Segs a) <= kMaxPathSegments;
  rp_size_max : zlen (concat (ap_Segs a)) <= kMaxPathLength;
  rp_ends : take (length (ap_Segs a)) (pb_SegEnds p) = ends_from 0 (ap_Segs a);
  rp_data : take (length (concat (ap_Segs a))) (pb_Data p) = concat (ap_Segs a)
}.

(** ** Resolution from the right and from the left agree *)

(** The loop of [PathInit], on tokens. *)
Fixpoint resolve_right (segs : list cstr) : Z * list cstr :=
  match segs with
  | [] => (0, [])
  | s :: segs' =>
      let '(d, kept) := resolve_right segs' in
      if bool_decide (s = dot) then (d, kept)
      else if bool_decide (s = dotdot) then (d + 1, kept)
      else if 0 <? d then (d - 1, kept) else (d, s :: kept)
  end.

Lemma resolve_right_range segs : 0 <= (resolve_right segs).1 <= zlen segs.
Proof.
  induction segs as [|s segs IH]; [done|]. rewrite length_cons. cbn [resolve_right].
  destruct (resolve_right segs) as [d kept]. cbn in IH. repeat case_match; zbool; cbn; lia.
Qed.

Lemma resolve_right_length segs : zlen (resolve_right segs).2 <= zlen segs.
Proof.
  induction segs as [|s segs IH]; [done|]. rewrite length_cons. cbn [resolve_right].
  destruct (resolve_right segs) as [d kept]. cbn [snd] in IH.
  repeat case_match; cbn [snd]; rewrite ?length_cons; lia.
Qed.

(** Popping [d] times. *)
Definition pops (d : Z) (st : Z * list cstr) : Z * list cstr :=
  (st.1 + Z.max 0 (d - zlen st.2), drop (Z.to_nat d) st.2).

Lemma walk_right segs st : foldl walk st segs =
  let '(d, kept) := resolve_right segs in
  let '(up, stk) := pops d st in (up, rev kept ++ stk).
Proof.
  revert st. induction segs as [|s segs IH]; intros [up stk]; cbn [foldl resolve_right].
  { unfold pops. cbn. f_equal. lia. }
  rewrite IH. pose proof (resolve_right_range segs) as Hr. destruct (resolve_right segs) as [d kept]. cbn [fst] in Hr.
  unfold walk. case_bool_decide; [done|]. case_bool_decide.
  - unfold pops. destruct stk as [|x stk]; cbn [fst snd length].
    + rewrite !drop_nil. f_equal. lia.
    + replace (Z.to_nat (d + 1)) with (S (Z.to_nat d)) by lia. cbn [drop]. f_equal. lia.
  - unfold pops. cbn [fst snd]. rewrite length_cons. destruct (Z.ltb_spec 0 d) as [Hd|Hd].
    + replace (Z.to_nat d) with (S (Z.to_nat (d - 1))) by lia. cbn [drop]. f_equal. lia.
    + assert (d = 0) as -> by lia. cbn. rewrite <- app_assoc. cbn. f_equal. lia.
Qed.

Lemma walk_start segs : foldl walk (0, []) segs = ((resolve_right segs).1, rev (resolve_right segs).2).
Proof.
  rewrite walk_right. pose proof (resolve_right_range segs) as Hr. destruct (resolve_right segs) as [d kept].
  unfold pops. cbn in *. rewrite drop_nil, app_nil_r. f_equal. lia.
Qed.

Lemma resolve_eq segs : resolve segs = resolve_right segs.
Proof. unfold resolve. rewrite walk_start, rev_involutive. by destruct (resolve_right segs). Qed.

(** ** Splitting *)

(** A segment record describes a token of [path]. *)
Definition seg_is (path : cstr) (g : PathSeg) (t : cstr) : Prop :=
  bytes_at path (ps_offset g) (ps_len g) = t /\ ps_len g = zlen t /\
  ps_dotdot g = bool_decide (t = dotdot) /\ ps_drop g = bool_decide (t = dot).

Lemma length_bytes_at s off n : 0 <= off -> 0 <= n -> off + n <= zlen s -> zlen (bytes_at s off n) = n.
Proof. intros. unfold bytes_at. rewrite length_take, length_drop. lia. Qed.

Lemma add_seg_ok path pos last segs toks : 0 <= last <= pos -> pos <= zlen path -> zlen path < 2 ^ 16 ->
  Forall2 (seg_is path) segs toks -> zlen (toks ++ flush (bytes_at path last (pos - last))) <= kMaxPathSegments ->
  exists segs', add_seg path pos last segs = OK segs' /\ Forall2 (seg_is path) segs' (toks ++ flush (bytes_at path last (pos - last))).
Proof.
  intros Hl Hp Hlen HF Hmax. unfold add_seg. pose proof (length_bytes_at path last (pos - last) ltac:(lia) ltac:(lia) ltac:(lia)) as Hb.
  destruct (Z.ltb_spec 0 (pos - last)) as [Hpos|Hpos].
  2:{ assert (pos - last = 0) as E by lia. rewrite E in *. cbn. rewrite app_nil_r. eauto. }
  set (t := bytes_at path last (pos - last)) in *.
  assert (Hf : flush t = [t]) by (destruct t; [cbn in Hb; lia|done]). rewrite Hf in *.
  rewrite length_app in Hmax. cbn [length] in Hmax. pose proof (Forall2_length _ _ _ HF) as El.
  rewrite (proj2 (Z.eqb_neq (zlen segs) _)) by lia. eexists. split; [done|]. apply Forall2_app; [done|]. constructor; [|constructor].
  rewrite !u16_small by (unfold in_u16; lia). unfold seg_is. cbn [ps_offset ps_len ps_dotdot ps_drop]. split_and!; [done|lia|..].
  - destruct (Z.eqb_spec 2 (pos - last)) as [E|E]; [by unfold t; rewrite <- E|].
    cbn [andb]. symmetry. apply bool_decide_eq_false. intros Et. rewrite Et in Hb. change (zlen dotdot) with 2 in Hb. lia.
  - destruct (Z.eqb_spec 1 (pos - last)) as [E|E]; [by unfold t; rewrite <- E|].
    cbn [andb]. symmetry. apply bool_decide_eq_false. intros Et. rewrite Et in Hb. change (zlen dot) with 1 in Hb. lia.
Qed.

Lemma bytes_at_snoc path last pos c scratch : 0 <= last <= pos -> drop (Z.to_nat pos) path = c :: scratch ->
  bytes_at path last (pos + 1 - last) = bytes_at path last (pos - last) ++ [c].
Proof.
  intros Hl Hd. unfold bytes_at. replace (Z.to_nat (pos + 1 - last)) with (S (Z.to_nat (pos - last))) by lia.
  apply take_S_r. rewrite lookup_drop. replace (Z.to_nat last + Z.to_nat (pos - last))%nat with (Z.to_nat pos + 0)%nat by lia.
  by rewrite <- lookup_drop, Hd.
Qed.

Lemma get_segments_loop path scratch : forall pos last segs toks, 0 <= last <= pos -> drop (Z.to_nat pos) path = scratch ->
  pos + zlen scratch = zlen path -> zlen path < 2 ^ 16 -> cstr_ok path -> Forall2 (seg_is path) segs toks ->
  zlen (toks ++ tokens_from (bytes_at path last (pos - last)) scratch) <= kMaxPathSegments ->
  exists segs', PathGetSegments_loop path scratch pos last segs = OK segs' /\
  Forall2 (seg_is path) segs' (toks ++ tokens_from (bytes_at path last (pos - last)) scratch).
Proof.
  induction scratch as [|c scratch IH]; intros pos last segs toks Hl Hd Hlen Hmax Hok HF Hcnt; cbn [PathGetSegments_loop tokens_from] in *.
  { apply add_seg_ok; try done. cbn in Hlen. lia. }
  rewrite length_cons in Hlen.
  assert (Hc : c <> NUL).
  { apply (proj1 (Forall_forall _ _) Hok). rewrite <- (take_drop (Z.to_nat pos) path), Hd. set_solver. }
  assert (Hd' : drop (Z.to_nat (pos + 1)) path = scratch).
  { replace (Z.to_nat (pos + 1)) with (Z.to_nat pos + 1)%nat by lia. rewrite <- drop_drop, Hd. done. }
  destruct (Ascii.eqb_spec c NUL); [done|]. destruct (is_sep c).
  - rewrite app_assoc in Hcnt |- *.
    destruct (add_seg_ok path pos last segs toks) as (segs1 & -> & HF1); try done; [lia| |].
    { rewrite length_app in Hcnt. lia. }
    cbn [mbind res_bind].
    destruct (IH (pos + 1) (pos + 1) segs1 (toks ++ flush (bytes_at path last (pos - last)))) as (segs' & E & HF'); try done; try lia.
    + by rewrite Z.sub_diag.
    + rewrite Z.sub_diag in HF'. eauto.
  - rewrite <- (bytes_at_snoc path last pos c scratch) in Hcnt |- * by done. apply IH; try done; lia.
Qed.

Lemma get_segments path : zlen path < 2 ^ 16 -> cstr_ok path -> zlen (tokens path) <= kMaxPathSegments ->
  exists segs, PathGetSegments path = OK segs /\ Forall2 (seg_is path) segs (tokens path).
Proof.
  intros Hlen Hok Hc. destruct (get_segments_loop path path 0 0 [] []) as (segs & E & HF); try done. by exists segs.
Qed.

(** ** Dropping *)

(** The segments kept and the tokens they stand for. *)
Definition kept_are (path : cstr) (segs : list PathSeg) (toks : list cstr) : Prop :=
  Forall2 (fun g t => bytes_at path (ps_offset g) (ps_len g) = t /\ ps_len g = zlen t)
    (filter (fun g => ps_drop g = false) segs) toks.

Lemma drop_segments_ok path segs toks : Forall2 (seg_is path) segs toks -> zlen toks <= kMaxPathSegments ->
  (drop_segments segs).1 = (resolve_right toks).1 /\ kept_are path (drop_segments segs).2 (resolve_right toks).2.
Proof.
  induction 1 as [|g t segs toks (Hb & Hl & Hdd & Hdr) HF IH]; intros Hlen; [split; [done|constructor]|].
  rewrite length_cons in Hlen. specialize (IH ltac:(lia)) as [E K]. cbn [drop_segments resolve_right].
  pose proof (resolve_right_range toks) as Hr. destruct (drop_segments segs) as [d segs'], (resolve_right toks) as [d' kept].
  cbn [fst snd] in *. subst d'. rewrite Hdr, Hdd. unfold kept_are, kMaxPathSegments in *.
  case_bool_decide; [split; [done|]; cbn [snd]; rewrite filter_cons_False; [done|by rewrite Hdr]|].
  case_bool_decide; [rewrite u16_small by (unfold in_u16; lia); split; [done|]; cbn [snd]; by rewrite filter_cons_False|].
  destruct (Z.ltb_spec 0 d); [rewrite u16_small by (unfold in_u16; lia); split; [done|]; cbn [snd]; by rewrite filter_cons_False|].
  split; [done|]. cbn [snd]. rewrite filter_cons_True by done. by constructor.
Qed.

(** ** Copying *)

(** A name: no separator, not empty. *)
Definition name_ok (t : cstr) : Prop := t <> [] /\ Forall (fun c => is_sep c = false) t.

Lemma tokens_from_ok cur s : Forall (fun c => is_sep c = false) cur -> Forall name_ok (tokens_from cur s).
Proof.
  revert cur. induction s as [|c s IH]; intros cur Hc; cbn.
  - destruct cur; [constructor|]. constructor; [|constructor]. by split.
  - destruct (is_sep c) eqn:E.
    + apply Forall_app. split; [|apply IH; constructor]. destruct cur; [constructor|]. constructor; [|constructor]. by split.
    + apply IH. apply Forall_app. split; [done|]. by constructor.
Qed.

Lemma resolve_right_kept segs : Forall (fun t => t ∈ segs /\ t <> dot /\ t <> dotdot) (resolve_right segs).2.
Proof.
  induction segs as [|s segs IH]; cbn; [constructor|]. destruct (resolve_right segs) as [d kept]. cbn in IH.
  assert (IH' : Forall (fun t => t ∈ s :: segs /\ t <> dot /\ t <> dotdot) kept).
  { eapply Forall_impl; [exact IH|]. intros t (? & ? & ?). split; [set_solver|done]. }
  repeat case_bool_decide; [done..|]. case_match; cbn; [done|]. constructor; [|done]. split; [set_solver|done].
Qed.

Lemma ends_from_app base a b : ends_from base (a ++ b) = ends_from base a ++ ends_from (base + zlen (concat a)) b.
Proof.
  revert base. induction a as [|s a IH]; intros base; cbn [ends_from app concat]; [by rewrite Z.add_0_r|].
  rewrite IH, length_app. do 2 f_equal. f_equal. lia.
Qed.

Lemma length_ends_from base a : length (ends_from base a) = length a.
Proof. revert base. induction a as [|s a IH]; intros base; cbn; [done|]. by rewrite IH. Qed.

Lemma concat_snoc (a : list cstr) t : concat (a ++ [t]) = concat a ++ t.
Proof. rewrite concat_app. cbn. by rewrite app_nil_r. Qed.

(** Writing at the end of what has been written. *)
Lemma copy_into_end dst src done : take (length done) dst = done -> zlen done + zlen src <= zlen dst ->
  exists dst', copy_into dst (zlen done) src = OK dst' /\ length dst' = length dst /\ take (length (done ++ src)) dst' = done ++ src.
Proof.
  intros Ht Hl. unfold copy_into. rewrite (proj2 (Z.leb_le _ _)) by lia. eexists. split; [done|].
  rewrite Nat2Z.id, Ht. split; [rewrite !length_app, length_drop; lia|].
  rewrite app_assoc. by rewrite take_app_length.
Qed.

Lemma write_end (ends : list Z) done x : take (length done) ends = done -> zlen done < zlen ends ->
  zwrite (zlen done) x ends = OK (zinsert (zlen done) x ends) /\ take (length (done ++ [x])) (zinsert (zlen done) x ends) = done ++ [x].
Proof.
  intros Ht Hl. split; [apply zwrite_ok; lia|]. unfold zinsert. rewrite bool_decide_true by lia. rewrite Nat2Z.id.
  rewrite length_app, Nat.add_comm. cbn [length Nat.add].
  rewrite (take_S_r _ _ x) by (apply list_lookup_insert_eq; lia). rewrite take_insert_ge by lia. by rewrite Ht.
Qed.

Lemma copy_segments_ok path segs : forall toks done data ends, kept_are path segs toks -> Forall name_ok toks ->
  zlen data = kMaxPathLength -> zlen ends = kMaxPathSegments ->
  zlen (done ++ toks) <= kMaxPathSegments -> zlen (concat (done ++ toks)) <= kMaxPathLength ->
  take (length (concat done)) data = concat done -> take (length done) ends = ends_from 0 done ->
  exists data' ends', copy_segments path segs data ends (zlen done) (zlen (concat done)) = OK (data', ends', zlen (done ++ toks)) /\
  zlen data' = kMaxPathLength /\ zlen ends' = kMaxPathSegments /\
  take (length (concat (done ++ toks))) data' = concat (done ++ toks) /\ take (length (done ++ toks)) ends' = ends_from 0 (done ++ toks).
Proof.
  unfold kMaxPathLength, kMaxPathSegments.
  induction segs as [|g segs IH]; intros toks done data ends HK HN Hd He Hc Hs Htd Hte; cbn [copy_segments].
  { unfold kept_are in HK. cbn in HK. inversion HK; subst. rewrite app_nil_r. eauto 10. }
  unfold kept_are in HK. destruct (ps_drop g) eqn:Edr.
  { rewrite filter_cons_False in HK by (by rewrite Edr). by apply IH. }
  rewrite filter_cons_True in HK by done. apply Forall2_cons_inv_l in HK as (t & toks' & [Hb Hl] & HK' & ->).
  apply Forall_cons in HN as [[Hne _] HN']. rewrite cons_middle, app_assoc in *.
  assert (Hlt : 0 < zlen t) by (destruct t; [done|rewrite length_cons; lia]).
  assert (Hs1 : zlen (concat done) + zlen t <= 512).
  { rewrite concat_app, length_app, concat_snoc, length_app in Hs. lia. }
  assert (Hc1 : zlen done + 1 <= 64) by (rewrite !length_app in Hc; cbn in Hc; lia).
  unfold kMaxPathLength. rewrite (proj2 (Z.leb_gt _ _)) by lia. rewrite Hb.
  destruct (copy_into_end data t (concat done)) as (data1 & -> & Hd1 & Htd1); [done|lia|]. cbn [mbind res_bind].
  rewrite Hl, (u16_small (zlen (concat done) + zlen t)) by (unfold in_u16; lia).
  destruct (write_end ends (ends_from 0 done) (zlen (concat done) + zlen t)) as [Hw Htw];
    [by rewrite length_ends_from|rewrite length_ends_from; lia|]. rewrite length_ends_from in Hw. rewrite Hw. cbn [mbind res_bind].
  rewrite ?(u16_small (zlen done + 1)) by (unfold in_u16; lia).
  replace (zlen done + 1) with (zlen (done ++ [t])) by (rewrite length_app; cbn; lia).
  replace (zlen (concat done) + zlen t) with (zlen (concat (done ++ [t]))) by (rewrite concat_snoc, length_app; lia).
  apply IH; try done.
  - lia.
  - rewrite zinsert_length. lia.
  - by rewrite concat_snoc.
  - rewrite ends_from_app. cbn [ends_from]. rewrite Z.add_0_l. rewrite !length_app, length_ends_from in Htw. cbn [length] in Htw.
    rewrite length_app. cbn [length]. rewrite concat_snoc, length_app.
    replace (Z.of_nat (length (concat done) + length t)) with (zlen (concat done) + zlen t) by lia. done.
Qed.

(** [PathInit] parses: within the limits of the buffer it never croaks or
    writes out of bounds, and the buffer stands for the parsed path. *)
Lemma PathInit_ok je jd path type : zlen je = kMaxPathSegments -> zlen jd = kMaxPathLength ->
  cstr_ok path -> zlen path < 2 ^ 16 ->
  zlen (tokens (path_prefix type path).2) <= kMaxPathSegments ->
  zlen (concat (ap_Segs (parse type path))) <= kMaxPathLength ->
  exists p, PathInit je jd path type = OK p /\ repr p (parse type path).
Proof.
  intros He Hd Hok Hlen Ht Hs. unfold PathInit, parse in *. destruct (path_prefix type path) as [flags rest] eqn:Ep. cbn [snd] in Ht.
  assert (Hrest : cstr_ok rest /\ zlen rest <= zlen path).
  { destruct path as [|c path]; unfold path_prefix in Ep; repeat case_match; simplify_eq; cbn [tail]; try done; try (split; [done|lia]);
      split; [by apply Forall_cons in Hok as [_ ?]|rewrite length_cons; lia|by apply Forall_cons in Hok as [_ ?]|rewrite length_cons; lia]. }
  destruct (get_segments rest) as (segs & -> & HF); [lia|apply Hrest|done|]. cbn [mbind res_bind].
  destruct (drop_segments_ok rest segs (tokens rest) HF Ht) as [Eup HK]. pose proof (resolve_right_range (tokens rest)) as Hr.
  pose proof (resolve_right_kept (tokens rest)) as Hkept. pose proof (resolve_right_length (tokens rest)) as Hkc.
  rewrite resolve_eq in *.
  destruct (drop_segments segs) as [d segs'], (resolve_right (tokens rest)) as [up kept]. cbn [fst snd ap_Segs] in *. subst d.
  assert (Hnames : Forall name_ok kept).
  { pose proof (tokens_from_ok [] rest (Forall_nil_2 _)) as Hn. rewrite Forall_forall in Hn.
    eapply Forall_impl; [exact Hkept|]. intros t (Hin & _). by apply Hn. }
  destruct (copy_segments_ok rest segs' kept [] jd je) as (data & ends & Ecopy & ? & ? & ? & ?); try done.
  { cbn [app]. lia. }
  change (copy_segments rest segs' jd je 0 0 = OK (data, ends, zlen kept)) in Ecopy. rewrite Ecopy.
  cbn [mbind res_bind]. eexists. split; [done|]. unfold in_u16, kMaxPathSegments in *.
  split; cbn; unfold in_u16, kMaxPathSegments; try done; lia.
Qed.

(** ** Reading a buffer *)

Lemma ends_from_lookup base segs i s : segs !! i = Some s -> ends_from base segs !! i = Some (base + zlen (concat (take i segs)) + zlen s).
Proof.
  revert base i. induction segs as [|x segs IH]; intros base [|i] H; cbn in H |- *; simplify_eq.
  - f_equal. lia.
  - rewrite (IH _ _ H), length_app. f_equal. lia.
Qed.

Lemma length_concat_take_S (segs : list cstr) i s : segs !! i = Some s -> zlen (concat (take (S i) segs)) = zlen (concat (take i segs)) + zlen s.
Proof. intros H. rewrite (take_S_r _ _ _ H), concat_snoc, length_app. lia. Qed.

Lemma length_concat_take (segs : list cstr) i : zlen (concat (take i segs)) <= zlen (concat segs).
Proof. rewrite <- (take_drop i segs) at 2. rewrite concat_app, length_app. lia. Qed.

Section Reading.
Context (p : PathBuffer) (a : apath) (HR : repr p a).

Lemma seg_end i s : ap_Segs a !! i = Some s -> pb_SegEnds p !!z Z.of_nat i = Some (zlen (concat (take i (ap_Segs a))) + zlen s).
Proof.
  intros H. rewrite zlookup_nat. pose proof (ends_from_lookup 0 _ _ _ H) as E. rewrite <- (rp_ends p a HR) in E.
  rewrite lookup_take in E. case_decide; [|done]. rewrite E. f_equal.
Qed.

Lemma seg_length i s : ap_Segs a !! i = Some s -> SegLength p (Z.of_nat i) = OK (zlen s).
Proof.
  intros H. pose proof (lookup_lt_Some _ _ _ H) as Hi. destruct HR. unfold kMaxPathSegments, kMaxPathLength in *.
  pose proof (length_concat_take_S _ _ _ H) as El. pose proof (length_concat_take (ap_Segs a) (S i)) as Hm.
  unfold SegLength. rewrite (u16_small (Z.of_nat i)) by (unfold in_u16; lia). rewrite (proj2 (Z.ltb_lt (Z.of_nat i) _)) by lia.
  cbn [check mbind res_bind]. rewrite (seg_end i s H). cbn [of_opt mbind res_bind].
  destruct i as [|i]; [cbn; f_equal; lia|].
  rewrite (proj2 (Z.ltb_lt _ _)) by lia. replace (Z.of_nat (S i) - 1) with (Z.of_nat i) by lia.
  destruct (lookup_lt_is_Some_2 (ap_Segs a) i) as [s' Hs']; [lia|]. rewrite (seg_end i s' Hs'). cbn [of_opt mbind res_bind].
  rewrite (length_concat_take_S _ _ _ Hs'). rewrite u16_small by (unfold in_u16; lia). f_equal. lia.
Qed.

Lemma buffer_size n : (n <= length (ap_Segs a))%nat -> BufferSize p (Z.of_nat n) = OK (zlen (concat (take n (ap_Segs a)))).
Proof.
  intros Hn. destruct HR. unfold kMaxPathSegments in *. unfold BufferSize.
  rewrite u16_small by (unfold in_u16; lia). rewrite (proj2 (Z.leb_le _ _)) by lia. cbn [check mbind res_bind].
  destruct n as [|n]; [done|]. rewrite (proj2 (Z.ltb_lt _ _)) by lia. replace (Z.of_nat (S n) - 1) with (Z.of_nat n) by lia.
  destruct (lookup_lt_is_Some_2 (ap_Segs a) n) as [s Hs]; [lia|]. rewrite (seg_end n s Hs). cbn [of_opt]. by rewrite (length_concat_take_S _ _ _ Hs).
Qed.

Lemma seg_bytes i s : ap_Segs a !! i = Some s -> bytes_at (pb_Data p) (zlen (concat (take i (ap_Segs a)))) (zlen s) = s.
Proof.
  intros H. pose proof (rp_data p a HR) as E. pose proof (take_drop_middle _ _ _ H) as Em. rewrite <- Em in E at 1. rewrite <- Em in E at 3.
  rewrite !concat_app in E. cbn [concat] in E. unfold bytes_at. rewrite !Nat2Z.id.
  apply (f_equal (fun l => take (length s) (drop (length (concat (take i (ap_Segs a)))) l))) in E.
  rewrite drop_app_length, take_app_length in E. rewrite <- E at 2.
  rewrite !take_drop_commute, take_take. do 2 f_equal. rewrite !length_app. lia.
Qed.
End Reading.

(** ** Formatting *)

Definition sep_of (t : PathType) : ascii := match t with kWindows => backslash | kUnix => slash end.

Definition prefixed (sep : ascii) (segs : list cstr) : cstr := concat (map (cons sep) segs).

Definition join (sep : ascii) (segs : list cstr) : cstr := match segs with [] => [] | s :: segs' => s ++ prefixed sep segs' end.

Definition lead (a : apath) : cstr :=
  (if Z.land (ap_Flags a) (Z.lor kFlagAbsolute kFlagWindowsDevicePath) =? kFlagAbsolute then [sep_of (ap_Type a)] else [])
  ++ concat (replicate (Z.to_nat (ap_Up a)) (dotdot ++ [sep_of (ap_Type a)])).

(** What a path is written as. *)
Definition format (a : apath) : cstr := lead a ++ join (sep_of (ap_Type a)) (ap_Segs a).

Lemma format_segments_rest p a : repr p a -> forall n i out, (0 < i)%nat -> (i + n = length (ap_Segs a))%nat ->
  zlen (out ++ prefixed (sep_of (ap_Type a)) (drop i (ap_Segs a))) < kMaxPathLength ->
  format_segments n p 0 (Z.of_nat i) (zlen (concat (take i (ap_Segs a)))) out = OK (out ++ prefixed (sep_of (ap_Type a)) (drop i (ap_Segs a))).
Proof.
  intros HR. induction n as [|n IH]; intros i out Hi Hn Hl; cbn [format_segments].
  { rewrite drop_ge by lia. cbn. by rewrite app_nil_r. }
  destruct (lookup_lt_is_Some_2 (ap_Segs a) i) as [s Hs]; [lia|]. rewrite (seg_length _ _ HR i s Hs). cbn [mbind res_bind].
  rewrite (drop_S _ _ _ Hs) in Hl |- *. cbn [prefixed map concat] in Hl |- *. fold (prefixed (sep_of (ap_Type a)) (drop (S i) (ap_Segs a))) in *.
  rewrite !length_app, length_cons in Hl. unfold kMaxPathLength in *.
  rewrite (proj2 (Z.leb_gt _ _)) by lia. rewrite (proj2 (Z.ltb_lt _ _)) by lia. rewrite (seg_bytes _ _ HR i s Hs).
  pose proof (length_concat_take (ap_Segs a) (S i)) as Hm. pose proof (rp_size_max _ _ HR) as Hx. unfold kMaxPathLength in Hx.
  rewrite (length_concat_take_S _ _ _ Hs) in Hm. rewrite u16_small by (unfold in_u16; lia).
  rewrite <- (length_concat_take_S _ _ _ Hs). replace (Z.of_nat i + 1) with (Z.of_nat (S i)) by lia.
  rewrite IH; [|lia|lia|].
  - f_equal. unfold pathsep, sep_of. rewrite (rp_type _ _ HR). rewrite <- !app_assoc. done.
  - rewrite !length_app. cbn [length]. lia.
Qed.

Lemma PathFormat_ok p a : repr p a -> zlen (format a) + 1 < kMaxPathLength -> PathFormat p = OK (format a).
Proof.
  intros HR Hl. unfold PathFormat, PathFormatPartial, format, lead in *. rewrite Z.eqb_refl. cbn [andb].
  rewrite (rp_flags _ _ HR), (rp_up _ _ HR). replace (pathsep p) with (sep_of (ap_Type a)) by (unfold pathsep; by rewrite (rp_type _ _ HR)).
  fold dotdot. fold (lead a) in Hl |- *. rewrite length_app in Hl. unfold kMaxPathLength in *.
  rewrite (proj2 (Z.ltb_ge _ _)) by lia. cbn [Z.to_nat skip_segments mbind res_bind]. rewrite (rp_count _ _ HR).
  replace (Z.to_nat (zlen (ap_Segs a) - 1 + 1 - 0)) with (length (ap_Segs a)) by lia.
  destruct (ap_Segs a) as [|s segs] eqn:Es; cbn [length format_segments mbind res_bind join] in *.
  { rewrite app_nil_r. rewrite (proj2 (Z.leb_gt _ _)) by lia. done. }
  assert (H0 : ap_Segs a !! 0%nat = Some s) by (by rewrite Es). rewrite length_app in Hl.
  pose proof (seg_length _ _ HR 0 s H0) as El. change (Z.of_nat 0) with 0 in El. rewrite El. cbn [mbind res_bind]. unfold kMaxPathLength. rewrite (proj2 (Z.leb_gt _ _)) by lia.
  pose proof (seg_bytes _ _ HR 0 s H0) as Eb. change (bytes_at (pb_Data p) 0 (zlen s) = s) in Eb. change (skip_segments (Z.to_nat 0) p 0 0) with (OK 0). cbn [mbind res_bind]. rewrite Eb.
  change (0 <? 0) with false. change (0 + 1) with (Z.of_nat 1). cbn iota. pose proof (format_segments_rest _ _ HR (length segs) 1 (lead a ++ s)) as Hrest.
  rewrite Es in Hrest. cbn [take concat drop length] in Hrest. rewrite drop_0 in Hrest. rewrite app_nil_r in Hrest.
  pose proof (rp_size_max _ _ HR) as Hx. rewrite Es in Hx. cbn [concat] in Hx. rewrite length_app in Hx. unfold kMaxPathLength in *.
  rewrite Z.add_0_l, u16_small by (unfold in_u16; lia). rewrite Hrest; [|lia|lia|rewrite !length_app; lia].
  cbn [mbind res_bind]. rewrite (proj2 (Z.leb_gt _ _)) by (rewrite !length_app; lia). by rewrite <- app_assoc.
Qed.

(** ** Stripping *)

Definition with_segs (segs : list cstr) (a : apath) : apath := mkAPath (ap_Type a) (ap_Flags a) (ap_Up a) segs.

(** The first [k] segments are a path in the same buffer. *)
Lemma repr_take p a k : repr p a -> (k <= length (ap_Segs a))%nat -> repr (with_count (Z.of_nat k) p) (with_segs (take k (ap_Segs a)) a).
Proof.
  intros HR Hk. destruct HR. pose proof (length_concat_take (ap_Segs a) k) as Hc.
  assert (Hl : length (take k (ap_Segs a)) = k) by (rewrite length_take; lia).
  assert (Ec : concat (ap_Segs a) = concat (take k (ap_Segs a)) ++ concat (drop k (ap_Segs a))) by (by rewrite <- concat_app, take_drop).
  assert (Ee : exists rest, ends_from 0 (ap_Segs a) = ends_from 0 (take k (ap_Segs a)) ++ rest).
  { eexists. rewrite <- ends_from_app. by rewrite take_drop. }
  destruct Ee as [rest Ee].
  split; cbn [with_count with_segs pb_Type pb_Flags pb_SegCount pb_LeadingDotDots pb_SegEnds pb_Data ap_Type ap_Flags ap_Up ap_Segs]; try done; try lia.
  - apply (f_equal (take k)) in rp_ends0. rewrite take_take, Nat.min_l, Ee in rp_ends0 by lia.
    rewrite Hl, rp_ends0. rewrite take_app_le by (rewrite length_ends_from; lia). apply take_ge. rewrite length_ends_from. lia.
  - apply (f_equal (take (length (concat (take k (ap_Segs a)))))) in rp_data0.
    rewrite take_take, Nat.min_l in rp_data0 by lia. by rewrite Ec, take_app_length in rp_data0.
Qed.

Lemma PathStripLast_ok p a : repr p a -> Z.land (ap_Flags a) kFlagWindowsDevicePath = 0 \/ 1 < zlen (ap_Segs a) -> ap_Segs a <> [] ->
  exists p', PathStripLast p = (p', true) /\ repr p' (with_segs (removelast (ap_Segs a)) a).
Proof.
  intros HR Hdev Hne. unfold PathStripLast. pose proof (rp_count _ _ HR) as Hc.
  assert (Hpos : 0 < zlen (ap_Segs a)) by (destruct (ap_Segs a); [done|rewrite length_cons; lia]).
  assert (Hlt : ((if is_device p then 1 else 0) <? pb_SegCount p) = true).
  { unfold is_device. rewrite (rp_flags _ _ HR). destruct Hdev as [->|Hd]; [cbn|case_match]; apply Z.ltb_lt; lia. }
  rewrite Hlt. eexists. split; [done|]. rewrite Hc.
  replace (zlen (ap_Segs a) - 1) with (Z.of_nat (pred (length (ap_Segs a)))) by lia.
  rewrite removelast_firstn_len. apply repr_take; [done|lia].
Qed.

(** ** Concatenation *)

(** The segments kept and the [..] gained when [n] [..] are taken off a path
    of [sc] segments. The drive of a device path stays. *)
Definition keep_count (device : bool) (sc n : Z) : Z := Z.max (if device then Z.min 1 sc else 0) (sc - n).
Definition up_gain (device : bool) (sc n : Z) : Z := if device then if sc =? 0 then n else 0 else Z.max 0 (n - sc).

Definition adevice (a : apath) : bool := negb (Z.land (ap_Flags a) kFlagWindowsDevicePath =? 0).
Definition aabsolute (a : apath) : bool := negb (Z.land (ap_Flags a) kFlagAbsolute =? 0).

Definition aconcat (a b : apath) : apath :=
  if aabsolute b then b
  else mkAPath (ap_Type a) (ap_Flags a)
         (if aabsolute a then 0 else ap_Up a + up_gain (adevice a) (zlen (ap_Segs a)) (ap_Up b))
         (take (Z.to_nat (keep_count (adevice a) (zlen (ap_Segs a)) (ap_Up b))) (ap_Segs a) ++ ap_Segs b).

Lemma strip_dotdots_ok n : forall (device : bool) sc d, 0 <= sc -> 0 <= d -> d + Z.of_nat n < 2 ^ 16 ->
  strip_dotdots n (if device then 1 else 0) sc d = (keep_count device sc (Z.of_nat n), d + up_gain device sc (Z.of_nat n)).
Proof.
  induction n as [|n IH]; intros device sc d Hs Hd Hm; cbn [strip_dotdots].
  { unfold keep_count, up_gain. f_equal; repeat case_match; zbool; lia. }
  destruct (Z.ltb_spec (if device then 1 else 0) sc).
  - rewrite IH by (destruct device; lia). unfold keep_count, up_gain. destruct device; f_equal; repeat case_match; zbool; lia.
  - destruct (Z.eqb_spec sc 0).
    + rewrite u16_small by (unfold in_u16; lia). rewrite IH by lia. unfold keep_count, up_gain. destruct device; f_equal; repeat case_match; zbool; lia.
    + rewrite IH by lia. unfold keep_count, up_gain. destruct device; f_equal; repeat case_match; zbool; lia.
Qed.

(** Appending the ends of [segs], from index [i] on, after those of [done]. *)
Lemma append_ends_ok other segs (done : list cstr) : forall n i ends, (i + n = length segs)%nat ->
  take (length segs) other = ends_from 0 segs -> zlen (done ++ segs) <= zlen ends -> zlen (concat (done ++ segs)) < 2 ^ 16 ->
  take (length done + i) ends = ends_from 0 (done ++ take i segs) ->
  exists ends', append_ends n (Z.of_nat i) (zlen done) (zlen (concat done)) other ends = OK ends' /\
  length ends' = length ends /\ take (length (done ++ segs)) ends' = ends_from 0 (done ++ segs).
Proof.
  induction n as [|n IH]; intros i ends Hn Ho Hl Hc Ht; cbn [append_ends].
  { rewrite (take_ge segs) in Ht by lia. exists ends. rewrite length_app. replace (length segs) with i by lia. done. }
  destruct (lookup_lt_is_Some_2 segs i) as [s Hs]; [lia|].
  assert (El : other !!z Z.of_nat i = Some (zlen (concat (take i segs)) + zlen s)).
  { rewrite zlookup_nat. pose proof (ends_from_lookup 0 _ _ _ Hs) as E. rewrite <- Ho, lookup_take in E. case_decide; [|done]. by rewrite E. }
  rewrite El. cbn [of_opt mbind res_bind]. pose proof (length_concat_take segs (S i)) as Hm. pose proof (length_concat_take_S _ _ _ Hs) as Es.
  rewrite concat_app, length_app in Hc. rewrite length_app in Hl. rewrite u16_small by (unfold in_u16; lia).
  assert (Hlen : zlen (ends_from 0 (done ++ take i segs)) = zlen done + Z.of_nat i).
  { rewrite length_ends_from, length_app, length_take. lia. }
  destruct (write_end ends (ends_from 0 (done ++ take i segs)) (zlen (concat (take i segs)) + zlen s + zlen (concat done))) as [Hw Htw].
  { rewrite <- Ht at 2. f_equal. lia. }
  { lia. }
  rewrite Hlen in Hw, Htw. rewrite Hw. cbn [mbind res_bind]. replace (Z.of_nat i + 1) with (Z.of_nat (S i)) by lia.
  destruct (IH (S i) (zinsert (zlen done + Z.of_nat i) (zlen (concat (take i segs)) + zlen s + zlen (concat done)) ends)) as (e & -> & He & Hte); [lia|done|..].
  - rewrite zinsert_length, length_app. lia.
  - rewrite concat_app, length_app. lia.
  - rewrite (take_S_r _ _ _ Hs), app_assoc, ends_from_app. cbn [ends_from].
    rewrite length_app in Htw. cbn [length] in Htw. replace (length (ends_from 0 (done ++ take i segs)) + 1)%nat with (length done + S i)%nat in Htw by lia.
    rewrite Htw. do 2 f_equal. rewrite concat_app, length_app. lia.
  - exists e. rewrite zinsert_length in He. done.
Qed.

Lemma PathConcat_ok p q a b : repr p a -> repr q b -> ap_Up a + ap_Up b < 2 ^ 16 ->
  zlen (ap_Segs (aconcat a b)) <= kMaxPathSegments -> zlen (concat (ap_Segs (aconcat a b))) <= kMaxPathLength ->
  exists r, PathConcat p q = OK r /\ repr r (aconcat a b).
Proof.
  intros HA HB Hup Hseg Hbytes. unfold PathConcat, aconcat in *.
  replace (PathIsAbsolute q) with (aabsolute b) by (unfold PathIsAbsolute, aabsolute; by rewrite (rp_flags _ _ HB)).
  destruct (aabsolute b) eqn:Eb; [by exists q|]. unfold PathConcatImpl. cbn [ap_Segs] in *.
  replace (PathIsAbsolute q) with false by (unfold PathIsAbsolute; rewrite (rp_flags _ _ HB); done).
  replace (PathIsAbsolute p) with (aabsolute a) by (unfold PathIsAbsolute, aabsolute; by rewrite (rp_flags _ _ HA)).
  replace (is_device p) with (adevice a) by (unfold is_device, adevice; by rewrite (rp_flags _ _ HA)).
  cbn [negb check mbind res_bind]. pose proof (rp_up_range _ _ HA) as Ha. pose proof (rp_up_range _ _ HB) as Hb. unfold in_u16 in Ha, Hb.
  rewrite (rp_up _ _ HA), (rp_up _ _ HB), (rp_count _ _ HA), (rp_count _ _ HB), strip_dotdots_ok by lia. rewrite Z2Nat.id by lia.
  set (g := up_gain (adevice a) (zlen (ap_Segs a)) (ap_Up b)). assert (Hg : 0 <= g <= ap_Up b) by (unfold g, up_gain; repeat case_match; lia).
  set (k := Z.to_nat (keep_count (adevice a) (zlen (ap_Segs a)) (ap_Up b))) in *.
  assert (Hk : keep_count (adevice a) (zlen (ap_Segs a)) (ap_Up b) = Z.of_nat k /\ (k <= length (ap_Segs a))%nat).
  { unfold k, keep_count. case_match; lia. }
  destruct Hk as [-> Hk]. pose proof (repr_take p a k HA Hk) as HT. set (A := take k (ap_Segs a)) in *. cbn zeta.
  assert (HlA : length A = k) by (unfold A; rewrite length_take; lia).
  rewrite (buffer_size p a HA k Hk). fold A. rewrite (buffer_size q b HB (length (ap_Segs b))) by lia.
  rewrite firstn_all. cbn [mbind res_bind]. rewrite concat_app, !length_app in *. unfold kMaxPathSegments, kMaxPathLength in *.
  rewrite (proj2 (Z.leb_le (Z.of_nat k + _) _)) by lia. rewrite (proj2 (Z.leb_le (zlen (concat A) + _) _)) by lia. cbn [check mbind res_bind].
  replace (bytes_at (pb_Data q) 0 (zlen (concat (ap_Segs b)))) with (concat (ap_Segs b)) by
    (unfold bytes_at; rewrite Nat2Z.id; symmetry; apply (rp_data _ _ HB)).
  pose proof (rp_data_len _ _ HA) as Hdl. pose proof (rp_ends_len _ _ HA) as Hel. unfold kMaxPathSegments, kMaxPathLength in Hdl, Hel.
  destruct (copy_into_end (pb_Data p) (concat (ap_Segs b)) (concat A)) as (data & -> & Hd & Htd); [apply (rp_data _ _ HT)|lia|].
  cbn [mbind res_bind]. rewrite !Nat2Z.id.
  destruct (append_ends_ok (pb_SegEnds q) (ap_Segs b) A (length (ap_Segs b)) 0 (pb_SegEnds p)) as (ends & He & Hle & Hte);
    [lia|apply (rp_ends _ _ HB)|rewrite length_app; lia|rewrite concat_app, length_app; lia| |].
  { cbn [take]. rewrite app_nil_r, Nat.add_0_r. apply (rp_ends _ _ HT). }
  rewrite HlA in He. change (Z.of_nat 0) with 0 in He. rewrite He. cbn [mbind res_bind]. eexists. split; [done|].
  rewrite u16_small by (unfold in_u16; lia).
  split; cbn [pb_Type pb_Flags pb_SegCount pb_LeadingDotDots pb_SegEnds pb_Data ap_Type ap_Flags ap_Up ap_Segs];
    unfold kMaxPathSegments, kMaxPathLength, in_u16; rewrite ?concat_app; rewrite ?length_app in *; try done; try lia.
  - apply HA.
  - apply HA.
  - destruct (aabsolute a); lia.
Qed.

(** ** Tokens of composed strings *)

Lemma tokens_from_sep cur a c b : is_sep c = true -> tokens_from cur (a ++ c :: b) = tokens_from cur a ++ tokens b.
Proof.
  intros Hc. revert cur. induction a as [|x a IH]; intros cur; cbn [app tokens_from]; [by rewrite Hc|].
  destruct (is_sep x); [rewrite IH; by rewrite app_assoc|apply IH].
Qed.

Lemma tokens_sep a b : tokens (a ++ slash :: b) = tokens a ++ tokens b.
Proof. by apply tokens_from_sep. Qed.

Lemma tokens_from_name t cur rest : Forall (fun c => is_sep c = false) t -> tokens_from cur (t ++ rest) = tokens_from (cur ++ t) rest.
Proof.
  intros Ht. revert cur. induction Ht as [|c t Hc Ht IH]; intros cur; cbn [app tokens_from]; [by rewrite app_nil_r|].
  rewrite Hc, IH. by rewrite <- app_assoc.
Qed.

Lemma tokens_prefixed segs : forall cur, cur <> [] -> Forall name_ok segs -> tokens_from cur (prefixed slash segs) = cur :: segs.
Proof.
  induction segs as [|s segs IH]; intros cur Hc HF; [by destruct cur|].
  apply Forall_cons in HF as [[Hs Hn] HF]. cbn [prefixed map concat app tokens_from]. fold (prefixed slash segs).
  change (is_sep slash) with true. cbn iota. rewrite tokens_from_name by done. cbn [app]. rewrite IH by done. by destruct cur.
Qed.

Lemma tokens_join segs : Forall name_ok segs -> tokens (join slash segs) = segs.
Proof.
  intros HF. destruct segs as [|s segs]; [done|]. apply Forall_cons in HF as [[Hs Hn] HF].
  unfold tokens. cbn [join]. rewrite tokens_from_name by done. by apply tokens_prefixed.
Qed.

Lemma tokens_ups n rest : tokens (concat (replicate n (dotdot ++ [slash])) ++ rest) = replicate n dotdot ++ tokens rest.
Proof.
  induction n as [|n IH]; [done|]. cbn [replicate concat]. rewrite <- !app_assoc. unfold tokens at 1. cbn [app].
  rewrite (tokens_from_sep [] dotdot slash) by done. by rewrite IH.
Qed.

Lemma resolve_names segs : Forall (fun t => t <> dot /\ t <> dotdot) segs -> resolve_right segs = (0, segs).
Proof.
  induction 1 as [|t segs [Hd Hdd] HF IH]; [done|]. cbn [resolve_right]. rewrite IH.
  by rewrite !bool_decide_false by done.
Qed.

Lemma resolve_ups n segs : (resolve_right segs).1 = 0 -> resolve_right (replicate n dotdot ++ segs) = (Z.of_nat n, (resolve_right segs).2).
Proof.
  intros H0. induction n as [|n IH]; cbn [replicate app resolve_right]; [destruct (resolve_right segs); cbn in *; by subst|].
  rewrite IH. rewrite bool_decide_false, bool_decide_true by done. f_equal. lia.
Qed.

Lemma resolve_right_app a b : resolve_right (a ++ b) =
  let '(da, ka) := resolve_right a in let '(db, kb) := resolve_right b in
  (da + Z.max 0 (db - zlen ka), take (length ka - Z.to_nat db) ka ++ kb).
Proof.
  pose proof (walk_start (a ++ b)) as E. rewrite foldl_app, walk_start, walk_right in E.
  destruct (resolve_right a) as [da ka], (resolve_right b) as [db kb], (resolve_right (a ++ b)) as [d k].
  unfold pops in E. cbn [fst snd] in E. injection E as Ed Ek. rewrite length_rev in Ed. rewrite <- Ed. f_equal.
  apply (f_equal (@rev _)) in Ek. rewrite rev_involutive, skipn_rev, rev_app_distr, !rev_involutive in Ek. by rewrite <- Ek.
Qed.

(** ** Lengths of tokens *)

Lemma tokens_from_Forall (P : ascii -> Prop) cur s : Forall P cur -> Forall P s -> Forall (Forall P) (tokens_from cur s).
Proof.
  intros Hc Hs. revert cur Hc. induction Hs as [|c s HP Hs IH]; intros cur Hc; cbn.
  - destruct cur; [constructor|]. constructor; [done|constructor].
  - destruct (is_sep c).
    + apply Forall_app. split; [|apply IH; constructor]. destruct cur; [constructor|]. constructor; [done|constructor].
    + apply IH, Forall_app. split; [done|]. by constructor.
Qed.

Lemma tokens_from_bytes cur s : zlen (concat (tokens_from cur s)) <= zlen cur + zlen s.
Proof.
  revert cur. induction s as [|c s IH]; intros cur; cbn [tokens_from].
  - destruct cur; cbn [flush concat]; rewrite ?app_nil_r; lia.
  - rewrite length_cons. destruct (is_sep c).
    + rewrite concat_app, length_app. specialize (IH []). cbn [length] in IH.
      destruct cur; cbn [flush concat]; rewrite ?app_nil_r; cbn [length]; lia.
    + specialize (IH (cur ++ [c])). rewrite length_app in IH. cbn [length] in IH. lia.
Qed.

Lemma resolve_right_bytes segs : zlen (concat (resolve_right segs).2) <= zlen (concat segs).
Proof.
  induction segs as [|s segs IH]; [done|]. cbn [resolve_right concat]. rewrite length_app.
  destruct (resolve_right segs) as [d kept]. cbn [snd] in IH. repeat case_match; cbn [snd concat]; rewrite ?length_app; lia.
Qed.

Lemma resolve_right_count segs : (resolve_right segs).1 + zlen (resolve_right segs).2 <= zlen segs.
Proof.
  induction segs as [|s segs IH]; [done|]. cbn [resolve_right]. rewrite length_cons.
  destruct (resolve_right segs) as [d kept]. cbn [fst snd] in IH. repeat case_match; zbool; cbn [fst snd]; rewrite ?length_cons; lia.
Qed.

Lemma unix_prefix path : path_prefix kUnix path = (0, path) \/ exists rest, path = slash :: rest /\ path_prefix kUnix path = (kFlagAbsolute, rest).
Proof.
  destruct path as [|c path]; [by left|]. unfold path_prefix. change (char_at (c :: path) 0) with c. cbn [tail]. destruct (Ascii.eqb_spec slash c) as [<-|]; [right|by left]. eauto.
Qed.

Lemma tokens_unix_rest path : tokens (path_prefix kUnix path).2 = tokens path.
Proof. by destruct (unix_prefix path) as [E|(rest & -> & E)]; rewrite E. Qed.

Lemma parse_unix_eq path : parse kUnix path =
  mkAPath kUnix (path_prefix kUnix path).1 (resolve_right (tokens path)).1 (resolve_right (tokens path)).2.
Proof.
  pose proof (tokens_unix_rest path) as E. unfold parse. destruct (path_prefix kUnix path) as [flags rest]. cbn [fst snd] in *.
  by rewrite resolve_eq, E, (surjective_pairing (resolve_right _)).
Qed.

Lemma parse_bounds path : 0 <= ap_Up (parse kUnix path) <= zlen (tokens path) /\
  ap_Up (parse kUnix path) + zlen (ap_Segs (parse kUnix path)) <= zlen (tokens path) /\
  zlen (concat (ap_Segs (parse kUnix path))) <= zlen path.
Proof.
  rewrite parse_unix_eq. cbn [ap_Up ap_Segs]. pose proof (resolve_right_range (tokens path)). pose proof (resolve_right_count (tokens path)).
  pose proof (resolve_right_bytes (tokens path)) as Hb. pose proof (tokens_from_bytes [] path) as Ht. cbn [length] in Ht. unfold tokens in *. lia.
Qed.

Lemma PathInit_fits je jd path : zlen je = kMaxPathSegments -> zlen jd = kMaxPathLength ->
  cstr_ok path -> zlen path <= kMaxPathLength -> zlen (tokens path) <= kMaxPathSegments ->
  exists p, PathInit je jd path kUnix = OK p /\ repr p (parse kUnix path).
Proof.
  intros. pose proof (parse_bounds path). unfold kMaxPathLength in *. apply PathInit_ok; try done; unfold kMaxPathLength; try lia.
  by rewrite tokens_unix_rest.
Qed.

(** * The properties *)


Definition demo_win : cstr := s2l "x:\foo\..\..\.\bar//baz".


(** Absolute paths drop the [..] that go above the root when they are
    concatenated. *)
Definition clamp (a : apath) : apath := mkAPath (ap_Type a) (ap_Flags a) (if aabsolute a then 0 else ap_Up a) (ap_Segs a).

(** Small enough for the buffers. *)
Definition fits (path : cstr) : Prop := cstr_ok path /\ zlen path <= kMaxPathLength /\ zlen (tokens path) <= kMaxPathSegments.

Lemma aconcat_parse a b : a <> [] -> char_at b 0 <> slash ->
  aconcat (parse kUnix a) (parse kUnix b) = clamp (parse kUnix (a ++ slash :: b)).
Proof.
  intros Ha Hb. unfold parse. assert (Eb : path_prefix kUnix b = (0, b)).
  { destruct (unix_prefix b) as [E|(rest & -> & E)]; [done|]. by destruct Hb. }
  rewrite Eb. assert (Eab : path_prefix kUnix (a ++ slash :: b) = ((path_prefix kUnix a).1, (path_prefix kUnix a).2 ++ slash :: b)).
  { destruct a as [|c a]; [done|]. unfold path_prefix, char_at. cbn [app lookup list_lookup default]. by case_match. }
  rewrite Eab. destruct (path_prefix kUnix a) as [flags rest] eqn:Ea. cbn [fst snd]. rewrite !resolve_eq.
  rewrite tokens_sep, resolve_right_app.
  pose proof (resolve_right_range (tokens b)) as Hr.
  destruct (resolve_right (tokens rest)) as [da ka], (resolve_right (tokens b)) as [db kb]. cbn [fst] in Hr.
  assert (Hf : flags = 0 \/ flags = kFlagAbsolute) by (destruct (unix_prefix a) as [E|(? & ? & E)]; rewrite Ea in E; naive_solver).
  unfold aconcat, clamp, keep_count, up_gain, aabsolute, adevice. cbn [ap_Type ap_Flags ap_Up ap_Segs].
  assert (Hdev : (Z.land flags kFlagWindowsDevicePath =? 0) = true) by (by destruct Hf as [-> | ->]).
  rewrite Hdev. change (Z.land 0 kFlagAbsolute =? 0) with true. cbn [negb]. f_equal; do 2 f_equal; lia.
Qed.

(** Concatenation resolves. For a non-empty Unix path [a] and a relative
    path [b] that fit the buffers together, parsing both and concatenating the
    buffers succeeds and gives the path that parsing [a/b] gives, with the
    [..] above the root of an absolute path dropped. *)
Theorem path_concat_resolves je jd je' jd' a b :
  zlen je = kMaxPathSegments -> zlen jd = kMaxPathLength -> zlen je' = kMaxPathSegments -> zlen jd' = kMaxPathLength ->
  a <> [] -> char_at b 0 <> slash -> fits (a ++ slash :: b) ->
  exists p q r, PathInit je jd a kUnix = OK p /\ PathInit je' jd' b kUnix = OK q /\ PathConcat p q = OK r /\
  repr r (clamp (parse kUnix (a ++ slash :: b))).
Proof.
  intros He Hd He' Hd' Ha Hb (Hok & Hlen & Htok). rewrite <- aconcat_parse by done.
  rewrite tokens_sep, length_app in Htok.
  apply Forall_app in Hok as [Hoka Hokb]. apply Forall_cons in Hokb as [_ Hokb]. rewrite length_app, length_cons in Hlen.
  destruct (PathInit_fits je jd a) as (p & Ep & Hp); [done..|lia|lia|].
  destruct (PathInit_fits je' jd' b) as (q & Eq & Hq); [done..|lia|lia|].
  exists p, q. destruct (PathConcat_ok p q (parse kUnix a) (parse kUnix b) Hp Hq) as (r & Er & Hr); [..|by exists r].
  - pose proof (parse_bounds a). pose proof (parse_bounds b). unfold kMaxPathSegments in *. lia.
  - rewrite aconcat_parse by done. cbn [clamp ap_Segs]. pose proof (parse_bounds (a ++ slash :: b)) as Hx.
    rewrite tokens_sep, length_app in Hx. lia.
  - rewrite aconcat_parse by done. cbn [clamp ap_Segs]. pose proof (parse_bounds (a ++ slash :: b)) as Hx.
    rewrite length_app, length_cons in Hx. lia.
Qed.

Lemma path_concat_resolves_witness :
  (exists p q r, PathInit junk_e junk_d (s2l "/usr/./lib") kUnix = OK p /\ PathInit junk_e junk_d (s2l "../../../inc/x.h") kUnix = OK q /\
   PathConcat p q = OK r /\ repr r (clamp (parse kUnix (s2l "/usr/./lib/../../../inc/x.h")))) /\
  clamp (parse kUnix (s2l "/usr/./lib/../../../inc/x.h")) = mkAPath kUnix 1 0 [s2l "inc"; s2l "x.h"].
Proof.
  split; [|vm_compute; reflexivity].
  apply (path_concat_resolves junk_e junk_d junk_e junk_d (s2l "/usr/./lib") (s2l "../../../inc/x.h")); [reflexivity..|discriminate|discriminate|].
  split; [apply (bool_decide_eq_true_1 _); vm_compute; reflexivity|split; vm_compute; discriminate].
Defined.

(** ** Format, then parse *)

Lemma parse_segs_ok path : cstr_ok path -> Forall (fun t => name_ok t /\ t <> dot /\ t <> dotdot /\ cstr_ok t) (ap_Segs (parse kUnix path)).
Proof.
  intros Hok. rewrite parse_unix_eq. cbn [ap_Segs]. pose proof (tokens_from_ok [] path (Forall_nil_2 _)) as Hn.
  pose proof (tokens_from_Forall _ [] path (Forall_nil_2 _) Hok) as Hc. rewrite Forall_forall in Hn, Hc.
  eapply Forall_impl; [apply resolve_right_kept|]. intros t (Hin & Hd & Hdd). split_and!; try done; [by apply Hn|by apply Hc].
Qed.

Lemma prefixed_cstr segs : Forall cstr_ok segs -> cstr_ok (prefixed slash segs).
Proof.
  induction 1 as [|s segs Hs HF IH]; [constructor|]. cbn [prefixed map concat]. apply Forall_app. split; [|done].
  constructor; [discriminate|done].
Qed.

Lemma join_cstr segs : Forall cstr_ok segs -> cstr_ok (join slash segs).
Proof. destruct 1; [constructor|]. apply Forall_app. split; [done|by apply prefixed_cstr]. Qed.

Lemma ups_cstr n : cstr_ok (concat (replicate n (dotdot ++ [slash]))).
Proof. induction n as [|n IH]; [constructor|]. cbn [replicate concat]. apply Forall_app. split; [|done]. repeat constructor; discriminate. Qed.

(** A canonical Unix path: what the parser can give. *)
Record canonical (a : apath) : Prop := {
  cn_type : ap_Type a = kUnix;
  cn_flags : ap_Flags a = 0 \/ ap_Flags a = kFlagAbsolute;
  cn_up : 0 <= ap_Up a;
  cn_segs : Forall (fun t => name_ok t /\ t <> dot /\ t <> dotdot /\ cstr_ok t) (ap_Segs a) }.

Lemma parse_canonical path : cstr_ok path -> canonical (parse kUnix path).
Proof.
  intros Hok. split; [by rewrite parse_unix_eq| | |by apply parse_segs_ok].
  - rewrite parse_unix_eq. cbn [ap_Flags]. destruct (unix_prefix path) as [E|(rest & _ & E)]; rewrite E; cbn; auto.
  - apply parse_bounds.
Qed.

(** What follows the root of a formatted path. *)
Definition body (a : apath) : cstr := concat (replicate (Z.to_nat (ap_Up a)) (dotdot ++ [slash])) ++ join slash (ap_Segs a).

Lemma format_unix a : canonical a -> format a = (if ap_Flags a =? 0 then [] else [slash]) ++ body a.
Proof.
  intros [Ht Hf Hu Hs]. unfold format, lead, body. rewrite Ht. cbn [sep_of]. rewrite <- app_assoc. f_equal. by destruct Hf as [-> | ->].
Qed.

Lemma body_cstr a : canonical a -> cstr_ok (body a).
Proof.
  intros [Ht Hf Hu Hs]. unfold body. apply Forall_app. split; [apply ups_cstr|]. apply join_cstr.
  eapply Forall_impl; [exact Hs|]. naive_solver.
Qed.

Lemma body_tokens a : canonical a -> tokens (body a) = replicate (Z.to_nat (ap_Up a)) dotdot ++ ap_Segs a.
Proof.
  intros [Ht Hf Hu Hs]. unfold body. rewrite tokens_ups, tokens_join; [done|]. eapply Forall_impl; [exact Hs|]. naive_solver.
Qed.

Lemma body_relative a : canonical a -> path_prefix kUnix (body a) = (0, body a).
Proof.
  intros [Ht Hf Hu Hs]. destruct (unix_prefix (body a)) as [E|(rest & E & _)]; [done|]. exfalso. unfold body in E.
  destruct (Z.to_nat (ap_Up a)); [|by cbn in E]. destruct (ap_Segs a) as [|s segs]; [done|].
  apply Forall_cons in Hs as [[[Hne Hn] _] _]. destruct s as [|c s]; [done|]. cbn in E. injection E as -> _.
  by apply Forall_cons in Hn as [? _].
Qed.

Lemma parse_format a : canonical a -> parse kUnix (format a) = a /\ tokens (format a) = replicate (Z.to_nat (ap_Up a)) dotdot ++ ap_Segs a.
Proof.
  intros Ha. pose proof (body_tokens a Ha) as Et.
  assert (Etf : tokens (format a) = tokens (body a)).
  { rewrite format_unix by done. by case_match. }
  split; [|by rewrite Etf]. rewrite parse_unix_eq, Etf, Et, resolve_ups, resolve_names; cycle 1.
  { eapply Forall_impl; [apply Ha|]. naive_solver. }
  { rewrite resolve_names; [done|]. eapply Forall_impl; [apply Ha|]. naive_solver. }
  assert (Ef : (path_prefix kUnix (format a)).1 = ap_Flags a).
  { rewrite format_unix by done. destruct (cn_flags a Ha) as [Ef|Ef]; rewrite Ef; [|done]. change ((path_prefix kUnix (body a)).1 = 0). by rewrite body_relative. }
  rewrite Ef. pose proof (cn_up a Ha). rewrite Z2Nat.id by done. cbn. rewrite <- (cn_type a Ha). by destruct a.
Qed.

(** Formatting is the inverse of parsing. For a Unix path whose normal form
    fits the buffers, parsing and formatting succeed, and parsing the output
    again gives the same abstract path, so formatting it gives the same string:
    the output is a fixed point. *)
Theorem path_format_roundtrip je jd je' jd' path :
  zlen je = kMaxPathSegments -> zlen jd = kMaxPathLength -> zlen je' = kMaxPathSegments -> zlen jd' = kMaxPathLength ->
  fits path -> zlen (format (parse kUnix path)) + 1 < kMaxPathLength ->
  exists p s q, PathInit je jd path kUnix = OK p /\ PathFormat p = OK s /\ PathInit je' jd' s kUnix = OK q /\
  repr q (parse kUnix path) /\ PathFormat q = OK s.
Proof.
  intros He Hd He' Hd' (Hok & Hlen & Htok) Hfit. pose proof (parse_canonical path Hok) as Hc. pose proof (parse_bounds path) as Hb.
  destruct (PathInit_fits je jd path) as (p & Ep & Hp); [done..|]. pose proof (PathFormat_ok p _ Hp Hfit) as Ef.
  destruct (parse_format _ Hc) as [Epf Etf].
  destruct (PathInit_fits je' jd' (format (parse kUnix path))) as (q & Eq & Hq); [done..| | | |].
  - rewrite format_unix by done. apply Forall_app. split; [|by apply body_cstr]. case_match; [constructor|].
    constructor; [discriminate|constructor].
  - lia.
  - rewrite Etf, length_app, length_replicate. lia.
  - rewrite Epf in Hq. exists p, (format (parse kUnix path)), q. split_and!; try done. by apply PathFormat_ok.
Qed.

Lemma path_format_roundtrip_witness :
  exists p s q, PathInit junk_e junk_d (s2l "a/./b/../../../c//d") kUnix = OK p /\ PathFormat p = OK s /\
  PathInit junk_e junk_d s kUnix = OK q /\ repr q (parse kUnix (s2l "a/./b/../../../c//d")) /\ PathFormat q = OK s.
Proof.
  apply path_format_roundtrip; [reflexivity..| |vm_compute; reflexivity].
  split; [apply (bool_decide_eq_true_1 _); vm_compute; reflexivity|split; vm_compute; discriminate].
Defined.

(** Equality of buffers is too coarse: only as many bytes as the last
    segment has are compared, so the distinct paths [ab/c] and [ax/d] are
    equal for [operator==]. *)
Theorem path_equality_too_coarse :
  (p ← PathInit junk_e junk_d (s2l "ab/c") kUnix; q ← PathInit junk_e junk_d (s2l "ax/d") kUnix; path_eq p q) = OK true /\
  parse kUnix (s2l "ab/c") <> parse kUnix (s2l "ax/d").
Proof. split; [vm_compute; reflexivity|]. vm_compute. discriminate. Qed.

(** A path of one segment longer than the buffer is written past its end:
    the length is only checked before the copy. *)
Theorem path_init_overflows je jd path : zlen jd = kMaxPathLength ->
  Forall (fun c => is_sep c = false) path -> cstr_ok path -> kMaxPathLength < zlen path < 2 ^ 16 ->
  PathInit je jd path kUnix = Err OutOfBounds.
Proof.
  intros Hd Hn Hok Hlen. unfold kMaxPathLength in *.
  assert (Hne : path <> []) by (intros ->; cbn in Hlen; lia).
  assert (Ep : path_prefix kUnix path = (0, path)).
  { destruct (unix_prefix path) as [E|(rest & -> & _)]; [done|]. by apply Forall_cons in Hn as [? _]. }
  assert (Et : tokens path = [path]).
  { unfold tokens. rewrite <- (app_nil_r path) at 1. rewrite tokens_from_name by done. cbn. by destruct path. }
  unfold PathInit. rewrite Ep. destruct (get_segments path) as (segs & -> & HF); [lia|done|rewrite Et; cbn; unfold kMaxPathSegments; lia|].
  rewrite Et in HF. inversion HF as [|g t segs' ts (Hb & Hl & Hdd & Hdr) HF' E1 E2]; subst. inversion HF'; subst. cbn [mbind res_bind drop_segments].
  assert (path <> dot /\ path <> dotdot) as [H1 H2] by (split; intros ->; cbn in Hlen; lia).
  rewrite Hdr, Hdd, !bool_decide_false by done. cbn [Z.ltb Z.compare copy_segments]. rewrite Hdr, bool_decide_false by done.
  unfold copy_into. rewrite Hb. cbn. rewrite (proj2 (Z.leb_gt _ _)) by lia. done.
Qed.

Lemma path_init_overflows_witness : PathInit junk_e junk_d (replicate 513 "a"%char) kUnix = Err OutOfBounds.
Proof.
  apply path_init_overflows; [reflexivity| | |split; vm_compute; reflexivity]; apply (bool_decide_eq_true_1 _); vm_compute; reflexivity.
Defined.

(** ** Paths the buffers can hold *)

Section Fitting.
Context (native : PathType).

(** A path the buffers can hold. *)
Record path_ok (path : cstr) : Prop := {
  po_cstr : cstr_ok path;
  po_size : zlen path < 2 ^ 16;
  po_segs : zlen (tokens (path_prefix native path).2) <= kMaxPathSegments;
  po_bytes : zlen (concat (ap_Segs (parse native path))) <= kMaxPathLength;
  po_format : zlen (format (parse native path)) + 1 < kMaxPathLength }.

Lemma prefix_cstr path : cstr_ok path -> cstr_ok (path_prefix native path).2.
Proof.
  destruct path as [|c path]; intros Hok; unfold path_prefix; repeat case_match; cbn [snd tail]; try done; by apply Forall_cons in Hok as [_ ?].
Qed.

Lemma segs_cstr path : cstr_ok path -> Forall cstr_ok (ap_Segs (parse native path)).
Proof.
  intros Hok%prefix_cstr. unfold parse. destruct (path_prefix native path) as [flags rest]. cbn [snd] in Hok.
  rewrite resolve_eq. pose proof (resolve_right_kept (tokens rest)) as Hk.
  pose proof (tokens_from_Forall (fun c => c <> NUL) [] rest (Forall_nil_2 _) Hok) as Ht. rewrite Forall_forall in Ht.
  destruct (resolve_right (tokens rest)) as [up kept]. cbn [ap_Segs snd] in *.
  eapply Forall_impl; [exact Hk|]. intros t (Hin & _). by apply Ht.
Qed.

Lemma sep_of_nul t : sep_of t <> NUL.
Proof. by destruct t. Qed.

Lemma prefixed_cstr_any sep segs : sep <> NUL -> Forall cstr_ok segs -> cstr_ok (prefixed sep segs).
Proof.
  intros Hs. induction 1 as [|s segs Hs' HF IH]; [constructor|]. cbn [prefixed map concat]. apply Forall_app. split; [|done].
  by constructor.
Qed.

Lemma format_cstr a : Forall cstr_ok (ap_Segs a) -> cstr_ok (format a).
Proof.
  intros HF. unfold format. apply Forall_app. split.
  - unfold lead. apply Forall_app. pose proof (sep_of_nul (ap_Type a)). split.
    + case_match; repeat constructor; done.
    + induction (Z.to_nat (ap_Up a)) as [|n IH]; [constructor|]. cbn [replicate concat]. apply Forall_app. split; [|done].
      repeat constructor; try discriminate. done.
  - destruct HF; [constructor|]. cbn [join]. apply Forall_app. split; [done|]. apply prefixed_cstr_any; [apply sep_of_nul|done].
Qed.

End Fitting.
