(* ===== verification/Scanner.v ===== *)
(** * Implicit dependencies

    Scanner.cpp: the files an input file includes, directly and through other
    includes. Every file is scanned, or its includes are taken from the scan
    cache; an include is resolved to the first existing file of its candidates;
    what is found goes into a set and on a stack of files still to be scanned.
    The file system answers [stat] and [open] and does not change meanwhile. *)

From stdpp Require Import gmap sorting.
From S2P Require Import Prelude CType CommonFns Hash HashImpl DagData SortedArray HashTable HashSet PathUtil PathThms StatCache IncludeScanner ScanCache.

(** What [fopen], [fseek], [ftell] and [fread] give for a file. *)
Inductive open_result : Type :=
| Unreadable
| ReadFailed
| Contents (bytes : cstr).

Section Scanner.
Context (ci : bool) (native : PathType) (je : list Z) (jd : cstr).
Context (stat : cstr -> stat_result) (open : cstr -> open_result).

Definition IncludeSetAdd (self : HashSet) (string : cstr) (hash : Z) : res (HashSet * bool) :=
  found ← HashSetLookup ci self hash string;
  match found with
  | true => OK (self, false)
  | false => self ← HashSetInsert tt self hash string; OK (self, true)
  end.

(** A candidate: the path [buffer] followed by the include. *)
Definition try_path (stat_cache : StatCache) (buffer include_buf : PathBuffer) : res (StatCache * option cstr) :=
  buffer ← PathConcat buffer include_buf;
  path_buf ← PathFormat buffer;
  '(stat_cache, info) ← StatCacheStat ci stat stat_cache path_buf (Djb2HashPath ci path_buf);
  OK (stat_cache, if Exists info then Some path_buf else None).

Fixpoint try_include_paths (stat_cache : StatCache) (include_buf : PathBuffer) (include_paths : list cstr) : res (StatCache * option cstr) :=
  match include_paths with
  | [] => OK (stat_cache, None)
  | include_path :: include_paths' =>
      buffer ← PathInit je jd include_path native;
      '(stat_cache, found) ← try_path stat_cache buffer include_buf;
      match found with
      | Some path => OK (stat_cache, Some path)
      | None => try_include_paths stat_cache include_buf include_paths'
      end
  end.

Definition FindFile (stat_cache : StatCache) (filename : cstr) (scanner_config : ScannerData) (include : IncludeData)
    : res (StatCache * option cstr) :=
  filename_buf ← PathInit je jd filename native;
  include_buf ← PathInit je jd (id_String include) native;
  '(stat_cache, found) ←
    (if negb (id_IsSystemInclude include) then try_path stat_cache (PathStripLast filename_buf).1 include_buf
     else OK (stat_cache, None));
  match found with
  | Some path => OK (stat_cache, Some path)
  | None => try_include_paths stat_cache include_buf (sc_IncludePaths scanner_config)
  end.

Definition ScanFile (stat_cache : StatCache) (filename : cstr) (file_data : cstr) (scanner_config : ScannerData) : res (StatCache * list cstr) :=
  includes ← match sc_ScannerType scanner_config with
    | kGeneric => ScanIncludesGeneric file_data scanner_config
    | kCpp => ScanIncludesCpp file_data
    end;
  foldM (fun '(stat_cache, found_includes) include =>
    '(stat_cache, found) ← FindFile stat_cache filename scanner_config include;
    OK (stat_cache, found_includes ++ option_list found)) (stat_cache, []) includes.

(** The array handed to the scanner: a line feed and a NUL after the bytes of
    the file, and a UTF-8 mark skipped. *)
Definition utf8_mark : list Z := [0xef; 0xbb; 0xbf].

Definition scan_start (bytes : cstr) : cstr :=
  let buffer := bytes ++ [newline; NUL] in
  if (3 <=? zlen bytes) && bool_decide (map uchar (take 3 buffer) = utf8_mark) then drop 3 buffer else buffer.

Record scan_state : Type := mkScan {
  st_Stat : StatCache;
  st_Scan : ScanCache;
  st_Set : HashSet;
  st_Stack : list cstr }.

(** A file found: new ones are scheduled for scanning. *)
Definition add_found (acc : HashSet * list cstr) (file : FrozenFileAndHash) : res (HashSet * list cstr) :=
  let '(incset, stack) := acc in
  '(incset, is_new) ← IncludeSetAdd incset (m_Filename file) (m_FilenameHash file);
  OK (incset, match is_new with true => stack ++ [m_Filename file] | false => stack end).

(** One iteration of the loop, for the file popped. *)
Definition scan_one (scanner_config : ScannerData) (fn : cstr) (s : scan_state) : res scan_state :=
  '(stat_cache, info) ← StatCacheStat ci stat (st_Stat s) fn (Djb2HashPath ci fn);
  let s := mkScan stat_cache (st_Scan s) (st_Set s) (st_Stack s) in
  if negb (Exists info) then OK s else
  let scan_key := ComputeScanCacheKey ci fn (sc_ScannerGuid scanner_config) in
  '(scan_cache, cache_result) ← ScanCacheLookup (st_Scan s) scan_key (fi_Timestamp info);
  match cache_result with
  | Some files =>
      '(incset, stack) ← foldM add_found (st_Set s, st_Stack s) files;
      OK (mkScan stat_cache scan_cache incset stack)
  | None =>
      let s := mkScan stat_cache scan_cache (st_Set s) (st_Stack s) in
      match open fn with
      | Unreadable | Contents [] => OK s
      | r =>
          '(stat_cache, found_includes) ←
            match r with
            | Contents bytes => ScanFile stat_cache fn (scan_start bytes) scanner_config
            | _ => OK (stat_cache, [])
            end;
          scan_cache ← ScanCacheInsert ci scan_cache scan_key (fi_Timestamp info) found_includes;
          '(incset, stack) ← foldM add_found (st_Set s, st_Stack s) (map (fun f => mkFile f (Djb2HashPath ci f)) found_includes);
          OK (mkScan stat_cache scan_cache incset stack)
      end
  end.

Fixpoint scan_loop (fuel : nat) (scanner_config : ScannerData) (s : scan_state) : res scan_state :=
  match st_Stack s with
  | [] => OK s
  | _ =>
      match fuel with
      | O => Err OutOfFuel
      | S fuel =>
          '(fn, stack) ← BufferPopOne (st_Stack s);
          s ← scan_one scanner_config fn (mkScan (st_Stat s) (st_Scan s) (st_Set s) stack);
          scan_loop fuel scanner_config s
      end
  end.

Definition ScanImplicitDeps (fuel : nat) (stat_cache : StatCache) (scan_cache : ScanCache) (scanner_config : ScannerData) (file_name : cstr)
    : res (StatCache * ScanCache * list FrozenFileAndHash) :=
  s ← scan_loop fuel scanner_config (mkScan stat_cache scan_cache empty_set [file_name]);
  slots ← HashTableWalk (st_Set s);
  OK (st_Stat s, st_Scan s, map (fun x => mkFile (sl_String x) (sl_Hash x)) slots).

End Scanner.
