(* ===== verification/ScannerThms.v ===== *)
(** * What the scanner computes

    [ScanImplicitDeps] ends and returns the transitive closure of the include
    relation, whatever part of it the scan cache already knows. *)

From stdpp Require Import gmap sorting.
From S2P Require Import Prelude CType CommonFns Hash HashImpl DagData SortedArray HashTable HashSet PathUtil PathThms StatCache IncludeScanner ScanCache Scanner.

(** ** Weighted lists *)

Definition weigh (w : cstr -> Z) (l : list cstr) : Z := foldr (fun x a => w x + a) 0 l.

Lemma weigh_cons w x l : weigh w (x :: l) = w x + weigh w l.
Proof. reflexivity. Qed.

Lemma weigh_app w a b : weigh w (a ++ b) = weigh w a + weigh w b.
Proof. induction a as [|x a IH]; [done|]. cbn [app]. rewrite !weigh_cons, IH. lia. Qed.

Lemma weigh_ones l : weigh (fun _ => 1) l = zlen l.
Proof. induction l as [|x l IH]; [done|]. rewrite weigh_cons, IH, length_cons. lia. Qed.

Section Weighing.
Context (w : cstr -> Z) (P Q : cstr -> Prop) `{!forall x, Decision (P x), !forall x, Decision (Q x)}.
Context (Hw : forall x, 0 <= w x) (HQP : forall x, Q x -> P x).

Lemma weigh_filter_le l : weigh w (filter Q l) <= weigh w (filter P l).
Proof.
  induction l as [|x l IH]; [done|]. rewrite !filter_cons. pose proof (Hw x). destruct (decide (Q x)) as [HQ|], (decide (P x)) as [|HP];
    rewrite ?weigh_cons; try lia. by destruct HP; apply HQP.
Qed.

Lemma weigh_filter l g : g ∈ l -> P g -> ~ Q g -> w g + weigh w (filter Q l) <= weigh w (filter P l).
Proof.
  induction l as [|x l IH]; intros Hg HPg HQg; [by apply elem_of_nil in Hg|]. pose proof (weigh_filter_le l) as Hle. apply elem_of_cons in Hg as [<-|Hg].
  - rewrite (filter_cons_True P), (filter_cons_False Q) by done. rewrite weigh_cons. lia.
  - specialize (IH Hg HPg HQg). pose proof (Hw x). rewrite !filter_cons. destruct (decide (Q x)) as [HQ|], (decide (P x)) as [|HP];
      rewrite ?weigh_cons; try lia. by destruct HP; apply HQP.
Qed.
End Weighing.

Section Closure.
Context (ci : bool) (native : PathType) (je : list Z) (jd : cstr).
Context (stat : cstr -> stat_result) (open : cstr -> open_result) (cfg : ScannerData).

(** ** Reference *)

Definition exists_file (p : cstr) : bool := Exists (GetFileInfo (stat p)).
Definition timestamp (p : cstr) : Z := fi_Timestamp (GetFileInfo (stat p)).

(** The directory of a path. *)
Definition astrip (a : apath) : apath :=
  if (if adevice a then 1 else 0) <? zlen (ap_Segs a) then with_segs (removelast (ap_Segs a)) a else a.

(** The base directories of an include, in the order they are tried: for a
    quoted include that of the including file, then the include paths. *)
Definition bases (fn : cstr) (inc : IncludeData) : list apath :=
  (if id_IsSystemInclude inc then [] else [astrip (parse native fn)]) ++ map (parse native) (sc_IncludePaths cfg).

Definition candidate (inc : IncludeData) (base : apath) : cstr := format (aconcat base (parse native (id_String inc))).

(** The first candidate that exists. *)
Definition resolve_include (fn : cstr) (inc : IncludeData) : option cstr :=
  List.find exists_file (map (candidate inc) (bases fn inc)).

Definition scan_text (text : cstr) : res (list IncludeData) :=
  match sc_ScannerType cfg with kGeneric => ScanIncludesGeneric text cfg | kCpp => ScanIncludesCpp text end.

(** The include lines of a file. *)
Definition scanned (fn : cstr) : list IncludeData :=
  match open fn with
  | Contents (c :: l) => match scan_text (scan_start (c :: l)) with OK ds => ds | Err _ => [] end
  | _ => []
  end.

(** The files a file includes directly. *)
Definition includes (fn : cstr) : list cstr := if exists_file fn then omap (resolve_include fn) (scanned fn) else [].

(** The files included by [root], directly or through others. *)
Inductive included (root : cstr) : cstr -> Prop :=
| included_direct f : f ∈ includes root -> included root f
| included_through f g : included root f -> g ∈ includes f -> included root g.

Definition filed_includes (fn : cstr) : list FrozenFileAndHash := map (fun f => mkFile f (Djb2HashPath ci f)) (includes fn).

(** The files found, in the order of the set: the loop with every file scanned
    anew, which looks at the file system only. *)
Fixpoint walk_loop (fuel : nat) (set : HashSet) (stack : list cstr) : res HashSet :=
  match stack with
  | [] => OK set
  | _ =>
      match fuel with
      | O => Err OutOfFuel
      | S fuel =>
          '(fn, stack) ← BufferPopOne stack;
          '(set, stack) ← foldM (add_found ci) (set, stack) (filed_includes fn);
          walk_loop fuel set stack
      end
  end.

Definition walk_deps (fuel : nat) (root : cstr) : res (list FrozenFileAndHash) :=
  set ← walk_loop fuel empty_set [root];
  slots ← HashTableWalk set;
  OK (map (fun x => mkFile (sl_String x) (sl_Hash x)) slots).

(** ** Assumptions *)

(** The candidates fit the path buffers. *)
Record candidate_ok (inc : IncludeData) (base : apath) : Prop := {
  cd_up : ap_Up base + ap_Up (parse native (id_String inc)) < 2 ^ 16;
  cd_segs : zlen (ap_Segs (aconcat base (parse native (id_String inc)))) <= kMaxPathSegments;
  cd_bytes : zlen (concat (ap_Segs (aconcat base (parse native (id_String inc))))) <= kMaxPathLength;
  cd_format : zlen (candidate inc base) + 1 < kMaxPathLength }.

Record file_ok (fn : cstr) : Prop := {
  fk_path : path_ok native fn;
  fk_incs : forall inc, inc ∈ scanned fn -> path_ok native (id_String inc) /\ Forall (candidate_ok inc) (bases fn inc) }.

Context (Hje : zlen je = kMaxPathSegments) (Hjd : zlen jd = kMaxPathLength).
Context (Hcanon : forall p q, canon ci p = canon ci q -> stat p = stat q).
Context (Hpaths : Forall (path_ok native) (sc_IncludePaths cfg)).
Context (Hkw : keywords_ok cfg).

(** ** Finding a file *)

Lemma init_path_ok path : path_ok native path -> exists p, PathInit je jd path native = OK p /\ repr p (parse native path).
Proof. intros [? ? ? ? ?]. by apply PathInit_ok. Qed.

Lemma strip_ok p a : repr p a -> repr (PathStripLast p).1 (astrip a).
Proof using Type.
  clear Hje Hjd.
  intros HR. unfold astrip. destruct (Z.ltb_spec (if adevice a then 1 else 0) (zlen (ap_Segs a))) as [Hl|Hl].
  - destruct (PathStripLast_ok p a HR) as (p' & -> & HR'); [|destruct (ap_Segs a); [by destruct (adevice a)|done]|done].
    unfold adevice in Hl. destruct (Z.eqb_spec (Z.land (ap_Flags a) kFlagWindowsDevicePath) 0); [by left|right; cbn in Hl; lia].
  - unfold PathStripLast. rewrite (rp_count _ _ HR). replace (is_device p) with (adevice a) by (unfold is_device, adevice; by rewrite (rp_flags _ _ HR)).
    rewrite (proj2 (Z.ltb_ge _ _)) by done. done.
Qed.

Lemma aconcat_cstr a b : Forall cstr_ok (ap_Segs a) -> Forall cstr_ok (ap_Segs b) -> Forall cstr_ok (ap_Segs (aconcat a b)).
Proof. intros Ha Hb. unfold aconcat. case_match; [done|]. cbn [ap_Segs]. apply Forall_app. split; [by apply Forall_take|done]. Qed.

Lemma try_path_ok n t b ib base inc : stat_valid ci stat n t -> 0 < n -> repr b base -> repr ib (parse native (id_String inc)) ->
  Forall cstr_ok (ap_Segs base) -> cstr_ok (id_String inc) -> candidate_ok inc base ->
  exists t', try_path ci stat t b ib = OK (t', if exists_file (candidate inc base) then Some (candidate inc base) else None) /\
  stat_valid ci stat (n - 1) t'.
Proof.
  intros Ht Hn HR HI Hb Hi [H1 H2 H3 H4]. unfold try_path. destruct (PathConcat_ok b ib _ _ HR HI H1 H2 H3) as (r & -> & Hr). cbn [mbind res_bind].
  rewrite (PathFormat_ok r _ Hr) by done. cbn [mbind res_bind]. fold (candidate inc base).
  destruct (stat_answers ci stat Hcanon n t (candidate inc base) Ht Hn) as (t' & -> & Ht').
  { apply format_cstr, aconcat_cstr; [done|by apply segs_cstr]. }
  cbn [mbind res_bind]. unfold exists_file. eauto.
Qed.

Lemma find_cons_opt {A} (f : A -> bool) x l : List.find f (x :: l) = match (if f x then Some x else None) with Some y => Some y | None => List.find f l end.
Proof. cbn. by case_match. Qed.

Lemma try_include_paths_ok n t ib inc paths : stat_valid ci stat n t -> zlen paths <= n -> Forall (path_ok native) paths ->
  repr ib (parse native (id_String inc)) -> cstr_ok (id_String inc) -> Forall (candidate_ok inc) (map (parse native) paths) ->
  exists t', try_include_paths ci native je jd stat t ib paths = OK (t', List.find exists_file (map (candidate inc) (map (parse native) paths))) /\
  stat_valid ci stat (n - zlen paths) t'.
Proof.
  revert n t. induction paths as [|p paths IH]; intros n t Ht Hn HP HI Hi HC; cbn [try_include_paths map].
  { exists t. split; [done|]. by rewrite Z.sub_0_r. }
  apply Forall_cons in HP as [Hp HP]. apply Forall_cons in HC as [Hc HC]. rewrite length_cons in Hn.
  destruct (init_path_ok p Hp) as (b & -> & HR). cbn [mbind res_bind].
  destruct (try_path_ok n t b ib (parse native p) inc Ht) as (t1 & -> & H1); [lia|done|done|apply segs_cstr, Hp|done|done|]. cbn [mbind res_bind].
  rewrite find_cons_opt. destruct (exists_file (candidate inc (parse native p))).
  - exists t1. split; [done|]. apply (stat_valid_le ci stat (n - 1)); [rewrite length_cons; lia|done].
  - destruct (IH (n - 1) t1) as (t2 & -> & H2); [done|lia|done|done|done|done|]. exists t2. split; [done|].
    rewrite length_cons. by replace (n - Z.of_nat (S (length paths))) with (n - 1 - zlen paths) by lia.
Qed.

Definition per_include : Z := 1 + zlen (sc_IncludePaths cfg).

Lemma FindFile_ok n t fn inc : stat_valid ci stat n t -> per_include <= n -> path_ok native fn ->
  path_ok native (id_String inc) -> Forall (candidate_ok inc) (bases fn inc) ->
  exists t', FindFile ci native je jd stat t fn cfg inc = OK (t', resolve_include fn inc) /\ stat_valid ci stat (n - per_include) t'.
Proof.
  unfold per_include. intros Ht Hn Hf Hi HC. unfold FindFile. destruct (init_path_ok fn Hf) as (fb & -> & HRf). cbn [mbind res_bind].
  destruct (init_path_ok (id_String inc) Hi) as (ib & -> & HRi). cbn [mbind res_bind]. unfold resolve_include, bases in *.
  apply Forall_app in HC as [HC1 HC2]. pose proof (po_cstr _ _ Hi) as Hic.
  destruct (id_IsSystemInclude inc); cbn [negb mbind res_bind app map].
  - destruct (try_include_paths_ok n t ib inc (sc_IncludePaths cfg) Ht) as (t1 & -> & H1); [lia|done..|]. exists t1. split; [done|].
    apply (stat_valid_le ci stat (n - zlen (sc_IncludePaths cfg))); [lia|done].
  - apply Forall_cons in HC1 as [HC1 _].
    assert (Hs : Forall cstr_ok (ap_Segs (astrip (parse native fn)))).
    { pose proof (segs_cstr native fn (po_cstr _ _ Hf)) as HF. unfold astrip. case_match; [|done]. cbn [ap_Segs with_segs].
      rewrite removelast_firstn_len. by apply Forall_take. }
    destruct (try_path_ok n t _ ib _ inc Ht ltac:(lia) (strip_ok fb _ HRf) HRi Hs Hic HC1) as (t1 & -> & H1). cbn [mbind res_bind].
    rewrite find_cons_opt. destruct (exists_file (candidate inc (astrip (parse native fn)))).
    + exists t1. split; [done|]. apply (stat_valid_le ci stat (n - 1)); [lia|done].
    + destruct (try_include_paths_ok (n - 1) t1 ib inc (sc_IncludePaths cfg) H1) as (t2 & -> & H2); [lia|done..|]. exists t2. split; [done|].
      by replace (n - (1 + zlen (sc_IncludePaths cfg))) with (n - 1 - zlen (sc_IncludePaths cfg)) by lia.
Qed.

(** ** Scanning a file *)

(** What comes before the first NUL. *)
Lemma first_nul s : NUL ∈ s -> exists text r, s = text ++ NUL :: r /\ cstr_ok text.
Proof.
  induction s as [|c s IH]; intros H; [by apply elem_of_nil in H|]. destruct (decide (c = NUL)) as [->|Hc].
  - exists [], s. split; [done|constructor].
  - apply elem_of_cons in H as [|H]; [done|]. destruct (IH H) as (text & r & -> & Ht). exists (c :: text), r. split; [done|by constructor].
Qed.

Lemma scan_start_nul bytes : NUL ∈ scan_start bytes.
Proof.
  unfold scan_start. case_match; [|set_solver]. apply andb_true_iff in H as [H%Z.leb_le _].
  rewrite drop_app_le by lia. set_solver.
Qed.

Lemma scan_text_ok bytes : exists ds, scan_text (scan_start bytes) = OK ds.
Proof.
  destruct (first_nul _ (scan_start_nul bytes)) as (text & r & -> & Ht). unfold scan_text. destruct (sc_ScannerType cfg).
  - destruct (scan_cpp_ok text r Ht) as (ds & -> & _). eauto.
  - destruct (scan_generic_ok cfg Hkw text r Ht) as (ds & -> & _). eauto.
Qed.

Lemma find_files_ok n t fn ds acc : stat_valid ci stat n t -> zlen ds * per_include <= n -> path_ok native fn ->
  (forall inc, inc ∈ ds -> path_ok native (id_String inc) /\ Forall (candidate_ok inc) (bases fn inc)) ->
  exists t', foldM (fun '(stat_cache, found_includes) include =>
    '(stat_cache, found) ← FindFile ci native je jd stat stat_cache fn cfg include;
    OK (stat_cache, found_includes ++ option_list found)) (t, acc) ds = OK (t', acc ++ omap (resolve_include fn) ds) /\
  stat_valid ci stat (n - zlen ds * per_include) t'.
Proof.
  revert n t acc. induction ds as [|inc ds IH]; intros n t acc Ht Hn Hf Hds; cbn [foldM omap list_omap].
  { exists t. rewrite app_nil_r. split; [done|]. cbn. by rewrite Z.sub_0_r. }
  assert (0 <= per_include) by (unfold per_include; lia). rewrite length_cons in Hn |- *.
  destruct (Hds inc) as [Hi HC]; [set_solver|]. destruct (FindFile_ok n t fn inc Ht) as (t1 & -> & H1); [nia|done..|]. cbn [mbind res_bind].
  destruct (IH (n - per_include) t1 (acc ++ option_list (resolve_include fn inc)) H1) as (t2 & -> & H2); [nia|done|intros; apply Hds; set_solver|].
  exists t2. split.
  - rewrite <- app_assoc. destruct (resolve_include fn inc); done.
  - by replace (n - Z.of_nat (S (length ds)) * per_include) with (n - per_include - zlen ds * per_include) by nia.
Qed.

(** What a file costs the stat cache. *)
Definition cost (fn : cstr) : Z := 1 + zlen (scanned fn) * per_include.

Lemma cost_pos fn : 1 <= cost fn.
Proof using Type. clear Hje Hjd. unfold cost, per_include. nia. Qed.

Definition scan_key (fn : cstr) : HashDigest := ComputeScanCacheKey ci fn (sc_ScannerGuid cfg).

Definition answer (c : ScanCache) (key : HashDigest) (ts : Z) : option (list FrozenFileAndHash) :=
  match known (frozen c) key ts with Some f => Some f | None => known (session c) key ts end.

(** ** The caches and the files they are asked about *)

Context (files : list cstr).
Context (Hfiles : Forall file_ok files).
(** Two files with the same scan key and time stamp include the same files. *)
Context (Hkeys : forall f g, f ∈ files -> g ∈ files -> exists_file f = true -> exists_file g = true ->
  scan_key f = scan_key g -> timestamp f = timestamp g -> includes f = includes g).

(** The cache has room for [n] more records and what it answers is what a scan
    would find now. *)
Record scan_valid (n : Z) (c : ScanCache) : Prop := {
  nv_ok : scan_ok c;
  nv_true : forall f l, f ∈ files -> exists_file f = true -> answer c (scan_key f) (timestamp f) = Some l -> l = filed_includes f;
  nv_room : ca_RecordCount c + n < 2 ^ 24 }.

Lemma scan_valid_le n m c : m <= n -> scan_valid n c -> scan_valid m c.
Proof using Type. clear Hje Hjd. intros Hm [? ? ?]. split; try done. lia. Qed.

Lemma lookup_valid n c f : scan_valid n c -> f ∈ files -> exists_file f = true ->
  exists c', ScanCacheLookup c (scan_key f) (timestamp f) = OK (c', answer c (scan_key f) (timestamp f)) /\ scan_valid n c' /\
  answer c' (scan_key f) (timestamp f) = answer c (scan_key f) (timestamp f).
Proof.
  intros [Hok Ht Hr] Hf He. destruct (scan_lookup_ok c (scan_key f) (timestamp f) Hok) as (c' & E & Hok' & Es & Ef & Ec & _).
  exists c'. assert (Ea : forall k ts, answer c' k ts = answer c k ts) by (intros; unfold answer; by rewrite Es, Ef).
  split_and!; [done| |done]. split; [done| |by rewrite Ec]. intros g l. rewrite Ea. apply Ht.
Qed.

Lemma insert_valid n c f : scan_valid n c -> 0 < n -> f ∈ files -> exists_file f = true -> answer c (scan_key f) (timestamp f) = None ->
  exists c', ScanCacheInsert ci c (scan_key f) (timestamp f) (includes f) = OK c' /\ scan_valid (n - 1) c'.
Proof.
  intros [Hok Ht Hr] Hn Hf He Hmiss.
  destruct (scan_insert_ok ci c (scan_key f) (timestamp f) (includes f) (sk_cache c Hok)) as (c' & E & Hok' & Es & Ed & Ea & Ec); [lia|].
  exists c'. split; [done|]. split; [|..|lia].
  { split; [done|]. rewrite Ed, Ea. apply Hok. }
  intros g l Hg Heg. unfold answer in *. assert (Ef : frozen c' = frozen c) by (unfold frozen; by rewrite Ed). rewrite Ef, Es.
  destruct (known (frozen c) (scan_key g) (timestamp g)) as [l'|] eqn:Eg.
  { intros [= <-]. apply (Ht g); [done|done|]. unfold answer. by rewrite Eg. }
  unfold learn. case_bool_decide as Hb.
  { intros Hl. apply (Ht g); [done|done|]. unfold answer. by rewrite Eg. }
  unfold known at 1. destruct (decide (scan_key g = scan_key f)) as [Ek|Hne].
  - rewrite Ek, lookup_insert_eq. destruct (Z.eqb_spec (timestamp f) (timestamp g)) as [Ets|]; [|done]. intros [= <-].
    unfold filed_includes. by rewrite (Hkeys f g).
  - rewrite lookup_insert_ne by congruence. intros Hl. apply (Ht g); [done|done|]. unfold answer. rewrite Eg. exact Hl.
Qed.

(** ** The set of files found *)

Definition unseen (set : HashSet) : list cstr := filter (fun u => canon ci u ∉ keys ci set) files.

Lemma include_add_ok set s : set_ok ci set -> cstr_ok s -> zlen (entries set) < 2 ^ 27 ->
  exists set', IncludeSetAdd ci set s (Djb2HashPath ci s) = OK (set', bool_decide (canon ci s ∉ keys ci set)) /\ adds ci set [s] set' /\
  (canon ci s ∈ keys ci set -> set' = set).
Proof.
  intros Hs Hc Hn. destruct (set_add_ok ci set s Hs Hc Hn) as (set' & E & A). exists set'. unfold set_add in E. unfold IncludeSetAdd.
  rewrite lookup_set in E |- * by done. cbn [mbind res_bind] in *. destruct (decide (canon ci s ∈ keys ci set)) as [Hin|Hin].
  - rewrite bool_decide_true in E |- * by done. injection E as <-. by rewrite bool_decide_false by (by intros []).
  - rewrite (bool_decide_false (canon ci s ∈ keys ci set)) in E |- * by done. rewrite E. cbn [mbind res_bind].
    by rewrite bool_decide_true by done.
Qed.

(** Putting the files [gs] into the set, the new ones on the stack. *)
Record finds (set : HashSet) (gs new : list cstr) (set' : HashSet) : Prop := {
  fd_ok : set_ok ci set';
  fd_keys : forall k, k ∈ keys ci set' <-> k ∈ keys ci set \/ k ∈ map (canon ci) gs;
  fd_new : forall s, s ∈ new -> s ∈ gs;
  fd_from : forall s, s ∈ strings set' -> s ∈ strings set \/ s ∈ new;
  fd_weight : forall w, (forall x, 0 <= w x) -> weigh w new + weigh w (unseen set') <= weigh w (unseen set);
  fd_size : zlen (entries set') <= zlen (entries set) + zlen new }.

Lemma add_found_eq set stack f h : add_found ci (set, stack) (mkFile f h) =
  ('(incset, is_new) ← IncludeSetAdd ci set f h; OK (incset, match is_new with true => stack ++ [f] | false => stack end)).
Proof. reflexivity. Qed.

Lemma add_found_ok gs : forall set stack, set_ok ci set -> Forall cstr_ok gs -> (forall g, g ∈ gs -> g ∈ files) ->
  zlen (entries set) + zlen (unseen set) < 2 ^ 27 ->
  exists set' new, foldM (add_found ci) (set, stack) (map (fun f => mkFile f (Djb2HashPath ci f)) gs) = OK (set', stack ++ new) /\ finds set gs new set'.
Proof.
  induction gs as [|g gs IH]; intros set stack Hs Hc Hg Hn; cbn [map foldM].
  { exists set, []. rewrite app_nil_r. split; [done|]. split; [done|set_solver|set_solver|auto|intros; cbn; lia|cbn; lia]. }
  apply Forall_cons in Hc as [Hcg Hc]. rewrite add_found_eq.
  destruct (include_add_ok set g Hs Hcg) as (s1 & -> & A1 & Hsame); [lia|]. cbn [mbind res_bind]. case_bool_decide as Hin.
  - assert (Hw1 : forall w, (forall x, 0 <= w x) -> w g + weigh w (unseen s1) <= weigh w (unseen set)).
    { intros w Hw. apply weigh_filter; [done| |apply Hg; set_solver|done|].
      - intros x Hx Hx'. apply Hx, (ad_keys _ _ _ _ A1). by left.
      - intros Hx. apply Hx, (ad_keys _ _ _ _ A1). right. cbn. set_solver. }
    pose proof (Hw1 (fun _ => 1) ltac:(lia)) as Hw2. rewrite !weigh_ones in Hw2. pose proof (ad_size _ _ _ _ A1) as Hz. cbn [length] in Hz.
    destruct (IH s1 (stack ++ [g]) (ad_ok _ _ _ _ A1) Hc) as (s2 & new & -> & F); [intros; apply Hg; set_solver|lia|].
    exists s2, (g :: new). split; [by rewrite <- app_assoc|]. destruct F as [F1 F2 F3 F4 F5 F6]. split; [done| | | | |].
    + intros k. rewrite F2, (ad_keys _ _ _ _ A1). cbn. set_solver.
    + set_solver.
    + intros s Hs'. destruct (F4 s Hs') as [H|H]; [|set_solver]. destruct (ad_from _ _ _ _ A1 s H); set_solver.
    + intros w Hw. specialize (F5 w Hw). specialize (Hw1 w Hw). rewrite weigh_cons. lia.
    + rewrite length_cons. lia.
  - rewrite Hsame by done.
    destruct (IH set stack Hs Hc) as (s2 & new & -> & F); [intros; apply Hg; set_solver|lia|].
    exists s2, new. split; [done|]. destruct F as [F1 F2 F3 F4 F5 F6]. split; try done; [|set_solver].
    intros k. rewrite F2. cbn [map]. rewrite elem_of_cons. naive_solver.
Qed.

(** ** One file *)

Context (Hclosed : forall f g, f ∈ files -> g ∈ includes f -> g ∈ files).

Lemma files_cstr f : f ∈ files -> cstr_ok f.
Proof. intros Hf. rewrite Forall_forall in Hfiles. apply (Hfiles f Hf). Qed.

Lemma includes_cstr f : f ∈ files -> Forall cstr_ok (includes f).
Proof. intros Hf. apply Forall_forall. intros g Hg. apply files_cstr. by apply (Hclosed f). Qed.

(** The part of an iteration that reads the file. *)
Lemma read_file_ok n m t c f : f ∈ files -> exists_file f = true -> stat_valid ci stat n t -> zlen (scanned f) * per_include <= n ->
  scan_valid m c -> 0 < m -> answer c (scan_key f) (timestamp f) = None -> forall set stack, set_ok ci set -> zlen (entries set) + zlen (unseen set) < 2 ^ 27 ->
  exists t' c' set' new,
    match open f with
    | Unreadable | Contents [] => OK (mkScan t c set stack)
    | r =>
        '(stat_cache, found_includes) ←
          match r with
          | Contents bytes => ScanFile ci native je jd stat t f (scan_start bytes) cfg
          | _ => OK (t, [])
          end;
        scan_cache ← ScanCacheInsert ci c (scan_key f) (timestamp f) found_includes;
        '(incset, stack) ← foldM (add_found ci) (set, stack) (map (fun f => mkFile f (Djb2HashPath ci f)) found_includes);
        OK (mkScan stat_cache scan_cache incset stack)
    end = OK (mkScan t' c' set' (stack ++ new)) /\
  foldM (add_found ci) (set, stack) (filed_includes f) = OK (set', stack ++ new) /\
  stat_valid ci stat (n - zlen (scanned f) * per_include) t' /\ scan_valid (m - 1) c' /\ finds set (includes f) new set'.
Proof.
  intros Hf He Ht Hn Hc Hm Hmiss set stack Hs Hz.
  assert (Hinc : includes f = omap (resolve_include f) (scanned f)) by (unfold includes; by rewrite He).
  assert (Hempty : scanned f = [] -> foldM (add_found ci) (set, stack) (filed_includes f) = OK (set, stack) /\ finds set (includes f) [] set).
  { intros E. unfold filed_includes. rewrite Hinc, E. split; [done|]. split; [done|set_solver|set_solver|auto|intros; cbn; lia|cbn; lia]. }
  assert (Hrest : forall t', exists c' set' new,
    (scan_cache ← ScanCacheInsert ci c (scan_key f) (timestamp f) (includes f);
     '(incset, stack) ← foldM (add_found ci) (set, stack) (map (fun f => mkFile f (Djb2HashPath ci f)) (includes f));
     OK (mkScan t' scan_cache incset stack)) = OK (mkScan t' c' set' (stack ++ new)) /\
    foldM (add_found ci) (set, stack) (filed_includes f) = OK (set', stack ++ new) /\ scan_valid (m - 1) c' /\ finds set (includes f) new set').
  { intros t'. destruct (insert_valid m c f Hc Hm Hf He Hmiss) as (c' & -> & Hc'). cbn [mbind res_bind].
    destruct (add_found_ok (includes f) set stack Hs (includes_cstr f Hf)) as (set' & new & E & F); [intros g; by apply Hclosed|done|].
    rewrite E. cbn [mbind res_bind]. exists c', set', new. unfold filed_includes. auto. }
  destruct (open f) as [| |[|b bytes]] eqn:Eo.
  - assert (E : scanned f = []) by (unfold scanned; by rewrite Eo). exists t, c, set, []. rewrite app_nil_r, E. cbn. rewrite Z.sub_0_r.
    destruct (Hempty E). split_and!; [done|done|done|apply (scan_valid_le m); [lia|done]|done].
  - assert (E : scanned f = []) by (unfold scanned; by rewrite Eo). cbn [mbind res_bind]. destruct (Hrest t) as (c' & set' & new & Er & Ef & Hc' & F).
    rewrite Hinc, E in Er. cbn [omap list_omap] in Er. exists t, c', set', new. rewrite E. cbn [length]. rewrite Z.sub_0_r. split_and!; done.
  - assert (E : scanned f = []) by (unfold scanned; by rewrite Eo). exists t, c, set, []. rewrite app_nil_r, E. cbn. rewrite Z.sub_0_r.
    destruct (Hempty E). split_and!; [done|done|done|apply (scan_valid_le m); [lia|done]|done].
  - destruct (scan_text_ok (b :: bytes)) as [ds Eds]. assert (E : scanned f = ds) by (unfold scanned; by rewrite Eo, Eds).
    unfold ScanFile. fold (scan_text (scan_start (b :: bytes))). rewrite Eds. cbn [mbind res_bind]. rewrite E in Hn, Hinc |- *.
    rewrite Forall_forall in Hfiles. destruct (Hfiles f Hf) as [Hp Hi]. rewrite E in Hi.
    destruct (find_files_ok n t f ds [] Ht Hn Hp Hi) as (t' & -> & Ht'). cbn [mbind res_bind app]. rewrite <- Hinc.
    destruct (Hrest t') as (c' & set' & new & -> & Ef & Hc' & F). eauto 12.
Qed.

Lemma scan_one_ok n m f s : f ∈ files -> stat_valid ci stat n (st_Stat s) -> cost f <= n -> scan_valid m (st_Scan s) -> 0 < m ->
  set_ok ci (st_Set s) -> zlen (entries (st_Set s)) + zlen (unseen (st_Set s)) < 2 ^ 27 ->
  exists t' c' set' new, scan_one ci native je jd stat open cfg f s = OK (mkScan t' c' set' (st_Stack s ++ new)) /\
  foldM (add_found ci) (st_Set s, st_Stack s) (filed_includes f) = OK (set', st_Stack s ++ new) /\
  stat_valid ci stat (n - cost f) t' /\ scan_valid (m - 1) c' /\ finds (st_Set s) (includes f) new set'.
Proof.
  intros Hf Ht Hn Hc Hm Hs Hz. unfold scan_one. unfold cost in *. assert (Hpi : 0 <= zlen (scanned f) * per_include) by (unfold per_include; nia).
  destruct (stat_answers ci stat Hcanon n (st_Stat s) f Ht ltac:(lia) (files_cstr f Hf)) as (t1 & -> & Ht1). cbn [mbind res_bind st_Scan st_Set st_Stack].
  change (Exists (GetFileInfo (stat f))) with (exists_file f). change (fi_Timestamp (GetFileInfo (stat f))) with (timestamp f).
  fold (scan_key f). destruct (exists_file f) eqn:He; cbn [negb].
  - destruct (lookup_valid m (st_Scan s) f Hc Hf He) as (c1 & -> & Hc1 & Ea). cbn [mbind res_bind].
    destruct (answer (st_Scan s) (scan_key f) (timestamp f)) as [l|] eqn:Eans.
    + apply (nv_true m _ Hc) in Eans as ->; try done. unfold filed_includes.
      destruct (add_found_ok (includes f) (st_Set s) (st_Stack s) Hs (includes_cstr f Hf)) as (set' & new & E & F); [intros g; by apply Hclosed|done|].
      rewrite E. cbn [mbind res_bind]. exists t1, c1, set', new. split_and!; [done|done|apply (stat_valid_le ci stat (n - 1)); [lia|done]|apply (scan_valid_le m); [lia|done]|done].
    + destruct (read_file_ok (n - 1) m t1 c1 f Hf He Ht1 ltac:(lia) Hc1 Hm Ea (st_Set s) (st_Stack s) Hs Hz) as (t' & c' & set' & new & E & Ef & Ht' & Hc' & F).
      exists t', c', set', new. split_and!; [exact E|exact Ef| |done|done].
      by replace (n - (1 + zlen (scanned f) * per_include)) with (n - 1 - zlen (scanned f) * per_include) by lia.
  - assert (Hinc : includes f = []) by (unfold includes; by rewrite He). exists t1, (st_Scan s), (st_Set s), []. unfold filed_includes. rewrite app_nil_r, Hinc.
    split_and!; [done|done|apply (stat_valid_le ci stat (n - 1)); [lia|done]|apply (scan_valid_le m); [lia|done]|].
    split; [done|set_solver|set_solver|auto|intros; cbn; lia|cbn; lia].
Qed.

(** ** The loop *)

Context (root : cstr) (Hroot : root ∈ files).
(** What is to be left in the caches for later. *)
Context (n m : Z) (Hn0 : 0 <= n) (Hm0 : 0 <= m).

Record loop_inv (s : scan_state) : Prop := {
  li_set : set_ok ci (st_Set s);
  li_stack : forall f, f ∈ st_Stack s -> f ∈ files /\ (f = root \/ included root f);
  li_strings : forall f, f ∈ strings (st_Set s) -> f ∈ files /\ included root f;
  li_done : forall f, f = root \/ f ∈ strings (st_Set s) ->
    f ∈ st_Stack s \/ forall g, g ∈ includes f -> canon ci g ∈ keys ci (st_Set s);
  li_size : zlen (entries (st_Set s)) + zlen (unseen (st_Set s)) < 2 ^ 27;
  li_stat : stat_valid ci stat (n + weigh cost (st_Stack s) + weigh cost (unseen (st_Set s))) (st_Stat s);
  li_scan : scan_valid (m + zlen (st_Stack s) + zlen (unseen (st_Set s))) (st_Scan s) }.

Lemma pop_last {A} (l : list A) : l <> [] -> exists x l', l = l' ++ [x] /\ BufferPopOne l = OK (x, l').
Proof.
  intros Hl. destruct (exists_last Hl) as (l' & x & ->). exists x, l'. unfold BufferPopOne. by rewrite last_snoc, removelast_last.
Qed.

Lemma weigh_pos l : 0 <= weigh cost l.
Proof using Type. clear Hje Hjd. induction l as [|x l IH]; [done|]. rewrite weigh_cons. pose proof (cost_pos x). lia. Qed.

Lemma step_loop_inv t c set stack f t' c' set' new : loop_inv (mkScan t c set (stack ++ [f])) ->
  stat_valid ci stat (n + weigh cost stack + weigh cost (unseen set)) t' -> scan_valid (m + zlen stack + zlen (unseen set)) c' ->
  finds set (includes f) new set' -> loop_inv (mkScan t' c' set' (stack ++ new)).
Proof.
  intros I Ht Hc F. destruct F as [F1 F2 F3 F4 F5 F6]. destruct I as [I1 I2 I3 I4 I5 _ _]. cbn [st_Set st_Stack st_Stat st_Scan] in *.
  destruct (I2 f) as [Hf Hr]; [set_solver|].
  assert (Hnew : forall g, g ∈ includes f -> g ∈ files /\ included root g).
  { intros g Hg. split; [by apply (Hclosed f)|]. destruct Hr as [->|Hr]; [by apply included_direct|by apply (included_through root f)]. }
  assert (Hmono : forall k, k ∈ keys ci set -> k ∈ keys ci set') by (intros k Hk; apply F2; by left).
  pose proof (F5 (fun _ => 1) ltac:(lia)) as W1. rewrite !weigh_ones in W1.
  pose proof (F5 cost ltac:(intros x; pose proof (cost_pos x); lia)) as W2.
  split; cbn [st_Set st_Stack st_Stat st_Scan]; [done| | | | | |].
  - intros g [Hg|Hg]%elem_of_app; [apply I2; set_solver|]. destruct (Hnew g (F3 g Hg)). auto.
  - intros g [Hg|Hg]%F4; [by apply I3|by apply Hnew, F3].
  - intros g Hg. destruct (decide (g = f)) as [->|Hne].
    { right. intros x Hx. apply F2. right. by apply (list_elem_of_fmap_2 (canon ci)). }
    assert (Hcase : g ∈ new \/ (g = root \/ g ∈ strings set)) by (destruct Hg as [Hg|Hg%F4]; tauto).
    destruct Hcase as [Hn|Hg']; [left; set_solver|]. destruct (I4 g Hg') as [Hs|Hd]; [left; set_solver|right].
    intros x Hx. by apply Hmono, Hd.
  - lia.
  - apply (stat_valid_le ci stat (n + weigh cost stack + weigh cost (unseen set))); [rewrite weigh_app; lia|done].
  - apply (scan_valid_le (m + zlen stack + zlen (unseen set))); [rewrite length_app; lia|done].
Qed.

Lemma scan_loop_ok fuel : forall s, loop_inv s -> (length (st_Stack s) + length (unseen (st_Set s)) <= fuel)%nat ->
  exists s', scan_loop ci native je jd stat open fuel cfg s = OK s' /\ walk_loop fuel (st_Set s) (st_Stack s) = OK (st_Set s') /\
  loop_inv s' /\ st_Stack s' = [].
Proof.
  induction fuel as [|fuel IH]; intros [t c set stack] I Hf; cbn [st_Stack st_Set] in Hf.
  { destruct stack; [|cbn in Hf; lia]. eexists. split; [done|]. done. }
  destruct (decide (stack = [])) as [->|Hne]; [eexists; split; [done|]; done|].
  destruct (pop_last stack Hne) as (f & l & -> & Epop). cbn [scan_loop walk_loop st_Stack st_Stat st_Scan st_Set].
  pose proof (li_stat _ I) as Hst. pose proof (li_scan _ I) as Hsc. cbn [st_Stack st_Stat st_Scan st_Set] in Hst, Hsc.
  rewrite weigh_app, weigh_cons in Hst. change (weigh cost []) with 0 in Hst. rewrite length_app in Hsc. cbn [length] in Hsc.
  destruct (li_stack _ I f) as [Hff _]; [set_solver|]. pose proof (weigh_pos l). pose proof (weigh_pos (unseen set)).
  destruct (scan_one_ok _ _ f (mkScan t c set l) Hff Hst ltac:(lia) Hsc ltac:(lia) (li_set _ I) (li_size _ I))
    as (t' & c' & set' & new & E & Ef & Ht' & Hc' & F). cbn [st_Stack st_Set] in E, Ef, F.
  destruct (l ++ [f]) as [|x y] eqn:El; [by destruct l|]. rewrite Epop. cbn [mbind res_bind]. rewrite E, Ef. cbn [mbind res_bind].
  rewrite <- El in *. apply (IH (mkScan t' c' set' (l ++ new))).
  - apply (step_loop_inv t c set l f); [done| | |done].
    + apply (stat_valid_le ci stat (n + (weigh cost l + (cost f + 0)) + weigh cost (unseen set) - cost f)); [lia|done].
    + apply (scan_valid_le (m + Z.of_nat (length l + 1) + zlen (unseen set) - 1)); [lia|done].
  - cbn [st_Stack st_Set]. pose proof (fd_weight _ _ _ _ F (fun _ => 1) ltac:(lia)) as W. rewrite !weigh_ones in W.
    rewrite length_app in Hf |- *. cbn [length] in Hf. lia.
Qed.

(** ** The result *)

Lemma same_includes f g : f ∈ files -> g ∈ files -> canon ci f = canon ci g -> includes f = includes g.
Proof.
  intros Hf Hg E. pose proof (Hcanon f g E) as Es. destruct (exists_file f) eqn:He.
  - apply Hkeys; try done.
    + unfold exists_file in *. by rewrite <- Es.
    + unfold scan_key, ComputeScanCacheKey. do 2 f_equal. unfold Djb2HashPath64, canon in *. destruct ci; [|by rewrite E].
      rewrite !Djb2HashNoCase64_lower. by rewrite E.
    + unfold timestamp. by rewrite Es.
  - unfold includes. assert (exists_file g = false) as -> by (unfold exists_file in *; by rewrite <- Es). by rewrite He.
Qed.

Lemma closure_complete s g : loop_inv s -> st_Stack s = [] -> included root g -> g ∈ files /\ canon ci g ∈ keys ci (st_Set s).
Proof.
  intros I Es Hg. assert (Hd : forall f, f = root \/ f ∈ strings (st_Set s) -> forall g, g ∈ includes f -> canon ci g ∈ keys ci (st_Set s)).
  { intros f Hf. destruct (li_done s I f Hf) as [H|H]; [rewrite Es in H; by apply elem_of_nil in H|done]. }
  induction Hg as [f Hf|f g Hf [Hff IH] Hg].
  - split; [by apply (Hclosed root)|]. apply (Hd root); [by left|done].
  - split; [by apply (Hclosed f)|]. apply list_elem_of_fmap in IH as (f' & E & Hf'). destruct (li_strings s I f' Hf') as [Hff' _].
    apply (Hd f'); [by right|]. by rewrite <- (same_includes f f').
Qed.

Lemma implicit_deps_ok fuel t c : stat_valid ci stat (n + cost root + weigh cost files) t -> scan_valid (m + 1 + zlen files) c ->
  zlen files < 2 ^ 27 -> (length files < fuel)%nat ->
  exists t' c' out, ScanImplicitDeps ci native je jd stat open fuel t c cfg root = OK (t', c', out) /\ walk_deps fuel root = OK out /\
  NoDup (map (fun x => canon ci (m_Filename x)) out) /\
  (forall k, k ∈ map (fun x => canon ci (m_Filename x)) out <-> exists g, included root g /\ canon ci g = k) /\
  Forall (fun x => included root (m_Filename x) /\ m_FilenameHash x = Djb2HashPath ci (m_Filename x)) out /\
  stat_valid ci stat n t' /\ scan_valid m c'.
Proof.
  intros Ht Hc Hn Hf.
  assert (Hu : unseen empty_set = files).
  { unfold unseen. clear. induction files as [|x l IH]; [done|]. rewrite filter_cons_True, IH; [done|]. apply not_elem_of_nil. }
  assert (I0 : loop_inv (mkScan t c empty_set [root])).
  { split; cbn [st_Set st_Stack st_Stat st_Scan]; rewrite ?Hu.
    - apply empty_set_ok.
    - intros f ->%list_elem_of_singleton. auto.
    - intros f Hf'. by apply elem_of_nil in Hf'.
    - intros f [->|Hf']; [left; set_solver|by apply elem_of_nil in Hf'].
    - cbn. lia.
    - rewrite weigh_cons. change (weigh cost []) with 0. by rewrite Z.add_0_r.
    - done. }
  unfold ScanImplicitDeps. destruct (scan_loop_ok fuel _ I0) as (s & -> & Ew & I & Es); [cbn [st_Stack st_Set]; rewrite Hu; cbn; lia|].
  unfold walk_deps. cbn [st_Set st_Stack] in Ew. rewrite Ew.
  cbn [mbind res_bind]. destruct (li_set s I) as [Hok Hkd Hh]. unfold HashTableWalk, check. rewrite (count_entries _ Hok), Z.eqb_refl. cbn [mbind res_bind].
  eexists _, _, _. split; [done|]. split; [done|].
  assert (Ek : map (fun x => canon ci (m_Filename x)) (map (fun x => mkFile (sl_String x) (sl_Hash x)) (entries (st_Set s))) = keys ci (st_Set s)).
  { unfold keys, strings. by rewrite !map_map. }
  rewrite Ek. split_and!.
  - apply keys_NoDup. apply I.
  - intros k. split.
    + intros (f & -> & Hf')%list_elem_of_fmap. exists f. split; [|done]. by apply (li_strings s I).
    + intros (g & Hg & <-). by apply closure_complete.
  - apply Forall_forall. intros x (y & -> & Hy)%list_elem_of_fmap. cbn. split.
    + apply (li_strings s I). unfold strings. by apply (list_elem_of_fmap_2 sl_String).
    + rewrite Forall_forall in Hh. by apply Hh.
  - pose proof (weigh_pos (unseen (st_Set s))). pose proof (weigh_pos (st_Stack s)). by eapply stat_valid_le; [|apply I]; lia.
  - by eapply scan_valid_le; [|apply I]; lia.
Qed.

End Closure.

(** ** The theorem *)

(** A file system and a set of files closed under inclusion for which the
    buffers are large enough and the scan keys do not collide. *)
Record scan_world (ci : bool) (native : PathType) (stat : cstr -> stat_result) (open : cstr -> open_result) (cfg : ScannerData)
    (files : list cstr) : Prop := {
  wd_case : forall p q, canon ci p = canon ci q -> stat p = stat q;
  wd_paths : Forall (path_ok native) (sc_IncludePaths cfg);
  wd_keywords : keywords_ok cfg;
  wd_files : Forall (file_ok native open cfg) files;
  wd_closed : forall f g, f ∈ files -> g ∈ includes native stat open cfg f -> g ∈ files;
  wd_keys : forall f g, f ∈ files -> g ∈ files -> exists_file stat f = true -> exists_file stat g = true ->
    scan_key ci cfg f = scan_key ci cfg g -> timestamp stat f = timestamp stat g ->
    includes native stat open cfg f = includes native stat open cfg g;
  wd_count : zlen files < 2 ^ 27 }.


(** A source file that includes a header next to it, which includes itself and a
    header of the include path. *)
Module DemoInc.

Definition src : cstr := s2l "src/a.c".
Definition hdr : cstr := s2l "src/b.h".
Definition sys : cstr := s2l "inc/c.h".
Definition files : list cstr := [src; hdr; sys].

Definition stat (p : cstr) : stat_result := if bool_decide (p ∈ files) then StatOK S_IFREG 100 10 else StatFailed ENOENT.
Definition open (p : cstr) : open_result :=
  if bool_decide (p = src) then Contents (s2l "#include " ++ [quote] ++ s2l "b.h" ++ [quote])
  else if bool_decide (p = hdr) then Contents (s2l "#include <c.h>" ++ [newline] ++ s2l "#include " ++ [quote] ++ s2l "b.h" ++ [quote])
  else if bool_decide (p = sys) then Contents (s2l "int x;")
  else Unreadable.
Definition cfg : ScannerData := mkScanner kCpp [s2l "new"; s2l "inc"] (mkDigest 7 8) 0 [].

Ltac small_path := split; [apply (bool_decide_eq_true_1 _); vm_compute; reflexivity|vm_compute; reflexivity|vm_compute; discriminate|vm_compute; discriminate|vm_compute; reflexivity].
Ltac small_candidate := split; [vm_compute; reflexivity|vm_compute; discriminate|vm_compute; discriminate|vm_compute; reflexivity].

Ltac small_file := split; [small_path|];
  match goal with |- forall inc, inc ∈ ?s -> _ => let v := eval vm_compute in s in change s with v end;
  intros inc Hinc; set_unfold in Hinc;
  repeat match goal with H : _ \/ _ |- _ => destruct H as [H|H] | H : _ = _ |- _ => subst | H : False |- _ => destruct H end;
  (split; [small_path|]);
  match goal with |- Forall _ ?s => let v := eval vm_compute in s in change s with v end; repeat (constructor; [small_candidate|]); constructor.

Lemma world : scan_world false kUnix stat open cfg files.
Proof.
  split.
  - intros p q E. cbn in E. by subst q.
  - constructor; [small_path|constructor; [small_path|constructor]].
  - constructor.
  - unfold files. constructor; [small_file|]. constructor; [small_file|]. constructor; [small_file|constructor].
  - intros f g Hf Hg. unfold files in Hf. set_unfold in Hf. destruct Hf as [-> |[-> |[-> |[]]]];
      match type of Hg with _ ∈ ?s => let v := eval vm_compute in s in change s with v in Hg end;
      repeat (apply elem_of_cons in Hg as [-> |Hg]; [apply (bool_decide_eq_true_1 _); vm_compute; reflexivity|]); by apply elem_of_nil in Hg.
  - intros f g Hf Hg _ _ Hk _. unfold files in Hf, Hg. set_unfold in Hf. set_unfold in Hg.
    destruct Hf as [-> |[-> |[-> |[]]]], Hg as [-> |[-> |[-> |[]]]]; try reflexivity; exfalso; vm_compute in Hk; discriminate.
  - reflexivity.
Qed.

Lemma empty_cache : scan_valid false kUnix stat open cfg files (1 + zlen files) ScanCacheInit.
Proof. split; [apply init_scan_ok| |vm_compute; reflexivity]. intros f l _ _ E. vm_compute in E. discriminate. Qed.

End DemoInc.


(** A header that appears earlier on the include path is not noticed while the
    including file has the same time stamp: the cache keeps paths already
    resolved. *)
Module StaleResolution.

Definition shadow : cstr := s2l "new/c.h".
Definition stat (p : cstr) : stat_result := if bool_decide (p = shadow) then StatOK S_IFREG 200 10 else DemoInc.stat p.
Definition open (p : cstr) : open_result := if bool_decide (p = shadow) then Contents (s2l "int y;") else DemoInc.open p.

Definition names (r : res (StatCache * ScanCache * list FrozenFileAndHash)) : list cstr :=
  match r with OK (_, _, out) => map m_Filename out | Err _ => [] end.
Definition cache (r : res (StatCache * ScanCache * list FrozenFileAndHash)) : ScanCache :=
  match r with OK (_, c, _) => c | Err _ => ScanCacheInit end.

Definition before : res (StatCache * ScanCache * list FrozenFileAndHash) :=
  ScanImplicitDeps false kUnix junk_e junk_d DemoInc.stat DemoInc.open 9 StatCacheInit ScanCacheInit DemoInc.cfg DemoInc.src.
Definition after (c : ScanCache) : res (StatCache * ScanCache * list FrozenFileAndHash) :=
  ScanImplicitDeps false kUnix junk_e junk_d stat open 9 StatCacheInit c DemoInc.cfg DemoInc.src.

End StaleResolution.

(** The scan cache can answer with a file that is no longer the one included: it
    is keyed by the name and time stamp of the including file only and keeps
    resolved paths, so when a header appears in a directory that comes earlier
    in the search, a scan from the cache still reports the old header, while a
    scan without the cache reports the new one. *)
Theorem cached_resolution_goes_stale :
  StaleResolution.names (StaleResolution.after ScanCacheInit) ≡ₚ [DemoInc.hdr; StaleResolution.shadow] /\
  StaleResolution.names (StaleResolution.after (StaleResolution.cache StaleResolution.before)) ≡ₚ [DemoInc.hdr; DemoInc.sys].
Proof.
  split.
  - replace (StaleResolution.names _) with [StaleResolution.shadow; DemoInc.hdr]; [apply perm_swap|]. vm_compute. reflexivity.
  - replace (StaleResolution.names _) with [DemoInc.hdr; DemoInc.sys]; [done|]. vm_compute. reflexivity.
Qed.
