(* ===== verification/BitSet.v ===== *)
(** * Bit sets

    The sets of small integers the driver keeps in words of 32 bits: testing
    and setting a bit of an array of words (src/src/Driver.cpp,
    [FindReachable] and [DriverPrepareNodes]) and the loop that visits the set
    bits of a word with [CountTrailingZeroes] (src/src/Driver.cpp,
    [FindNodesByName]; src/src/TargetSelect.cpp, [SelectTargets]). *)

From stdpp Require Import sorting.
From S2P Require Import Prelude CommonFns.

(** ** The bits of a word *)

Definition one_bit (i : Z) : Z := u32 (Z.shiftl 1 i).

(** The indices [while (bits) { bit = CountTrailingZeroes(bits); bits &= ~(1 << bit); ... }]
    goes through. *)
Fixpoint bits_loop (fuel : nat) (bits : Z) : list Z :=
  match fuel with
  | O => []
  | S fuel =>
      if bits =? 0 then [] else
      let bit := CountTrailingZeroes bits in
      bit :: bits_loop fuel (Z.land bits (u32 (Z.lnot (one_bit bit))))
  end.

(** A word has at most 32 set bits. *)
Definition visited_bits (bits : Z) : list Z := bits_loop 32 bits.

(** ** Arrays of words *)

Definition test_bit (words : list Z) (index : Z) : res bool :=
  w ← of_opt (words !!z Z.quot index 32);
  OK (negb (Z.land w (one_bit (Z.land index 31)) =? 0)).

Definition set_bit (words : list Z) (index : Z) : res (list Z) :=
  w ← of_opt (words !!z Z.quot index 32);
  zwrite (Z.quot index 32) (Z.lor w (one_bit (Z.land index 31))) words.

(** ** The set an array stands for *)

Definition member (words : list Z) (i : Z) : bool :=
  match words !!z (i / 32) with Some w => Z.testbit w (i mod 32) | None => false end.

Definition zero_words (n : Z) : list Z := replicate (Z.to_nat n) 0.

Definition words_ok (words : list Z) : Prop := Forall in_u32 words.

(** ** Lemmas *)

Lemma one_bit_eq i : 0 <= i < 32 -> one_bit i = 2 ^ i.
Proof.
  intros. unfold one_bit. rewrite Z.shiftl_1_l. apply u32_small. pose proof (Z.pow_pos_nonneg 2 i).
  pose proof (Z.pow_lt_mono_r 2 i 32). unfold in_u32. lia.
Qed.

Lemma one_bit_testbit i j : 0 <= i < 32 -> 0 <= j -> Z.testbit (one_bit i) j = (i =? j).
Proof. intros. rewrite one_bit_eq by done. rewrite Z.pow2_bits_eqb by lia. done. Qed.

Lemma in_u32_bits w : in_u32 w <-> 0 <= w /\ forall j, 32 <= j -> Z.testbit w j = false.
Proof.
  unfold in_u32. split.
  - intros Hw. split; [lia|]. intros j Hj. rewrite <- (Z.mod_small w (2 ^ 32)) by lia. apply Z.mod_pow2_bits_high. lia.
  - intros [H0 Hb]. split; [done|]. assert (E : w mod 2 ^ 32 = w).
    { apply Z.bits_inj'. intros j Hj. destruct (Z.lt_ge_cases j 32); [by apply Z.mod_pow2_bits_low|].
      rewrite Z.mod_pow2_bits_high by lia. symmetry. by apply Hb. }
    rewrite <- E. apply Z.mod_pos_bound. lia.
Qed.

Lemma clear_testbit w i j : 0 <= i < 32 -> 0 <= j -> in_u32 w ->
  Z.testbit (Z.land w (u32 (Z.lnot (one_bit i)))) j = Z.testbit w j && negb (i =? j).
Proof.
  intros Hi Hj Hw. rewrite Z.land_spec. destruct (Z.lt_ge_cases j 32).
  - unfold u32. rewrite Z.mod_pow2_bits_low by lia. rewrite Z.lnot_spec by lia. by rewrite one_bit_testbit.
  - apply in_u32_bits in Hw as [_ Hb]. by rewrite Hb.
Qed.

Lemma clear_range w m : in_u32 w -> in_u32 (Z.land w (u32 m)).
Proof.
  intros Hw. apply in_u32_bits in Hw as [H0 Hb]. apply in_u32_bits. split; [apply Z.land_nonneg; by left|].
  intros j Hj. rewrite Z.land_spec, Hb by done. done.
Qed.

(** With the low [32 - n] bits clear, [n] iterations visit every set bit, in
    ascending order. *)
Lemma bits_loop_spec n : forall w, in_u32 w -> (n <= 32)%nat ->
  (forall j, 0 <= j < 32 - Z.of_nat n -> Z.testbit w j = false) ->
  (forall i, i ∈ bits_loop n w <-> 0 <= i /\ Z.testbit w i = true) /\
  StronglySorted Z.lt (bits_loop n w).
Proof.
  induction n as [|n IH]; intros w Hw Hn Hlow; cbn [bits_loop].
  { split; [|constructor]. intros i. rewrite list_elem_of_In. cbn. split; [done|]. intros [Hi Ht]. destruct (Z.lt_ge_cases i 32).
    - rewrite Hlow in Ht by lia. done.
    - apply in_u32_bits in Hw as [_ Hb]. by rewrite Hb in Ht. }
  destruct (Z.eqb_spec w 0) as [->|Hne].
  { split; [|constructor]. intros i. rewrite Z.bits_0. rewrite elem_of_nil. naive_solver. }
  destruct (CountTrailingZeroes_spec w) as (Hk & Ht & Hk'); [unfold in_u32 in Hw; lia|].
  set (k := CountTrailingZeroes w) in *. set (w' := Z.land w _).
  assert (Hkn : 32 - Z.of_nat (S n) <= k).
  { destruct (Z.lt_ge_cases k (32 - Z.of_nat (S n))) as [Hl|]; [|done]. rewrite Hlow in Ht; [done|lia]. }
  assert (Hbit : forall j, 0 <= j -> Z.testbit w' j = Z.testbit w j && negb (k =? j)) by (intros; by apply clear_testbit).
  destruct (IH w') as [He Hs]; [by apply clear_range|lia| |].
  { intros j Hj. rewrite Hbit by lia. destruct (Z.eqb_spec k j); [apply andb_false_r|]. rewrite andb_true_r.
    destruct (Z.lt_ge_cases j k); [by apply Hk'; lia|lia]. }
  split.
  - intros i. rewrite elem_of_cons, He. destruct (Z.lt_ge_cases i 0); [split; [intros [->|[? _]]; lia|intros [? _]; lia]|].
    rewrite Hbit, andb_true_iff, negb_true_iff, Z.eqb_neq by done. split; [intros [->|(? & ? & ?)]; done|].
    intros [_ Hi]. destruct (decide (i = k)); [by left|]. right. split_and!; try done.
  - constructor; [done|]. apply Forall_forall. intros j [Hj Htj]%He. rewrite Hbit in Htj by done.
    apply andb_true_iff in Htj as [Htj Hkj%negb_true_iff%Z.eqb_neq]. destruct (Z.lt_ge_cases k j); [done|].
    rewrite Hk' in Htj by lia. done.
Qed.

Lemma elem_of_visited_bits w i : in_u32 w -> i ∈ visited_bits w <-> 0 <= i /\ Z.testbit w i = true.
Proof. intros Hw. by apply bits_loop_spec; [done|lia|lia]. Qed.

Lemma visited_bits_sorted w : in_u32 w -> StronglySorted Z.lt (visited_bits w).
Proof. intros Hw. by apply bits_loop_spec; [done|lia|lia]. Qed.

Lemma index_split i : 0 <= i -> Z.quot i 32 = i / 32 /\ Z.land i 31 = i mod 32.
Proof. intros. split; [apply Z.quot_div_nonneg; lia|]. apply (Z.land_ones i 5). lia. Qed.

Lemma word_of {A} (words : list A) i : 0 <= i < 32 * zlen words -> exists w, words !!z (i / 32) = Some w.
Proof. intros. apply zlookup_is_Some. split; [apply Z.div_pos; lia|apply Z.div_lt_upper_bound; lia]. Qed.

Lemma test_bit_ok words i : 0 <= i < 32 * zlen words -> test_bit words i = OK (member words i).
Proof.
  intros Hi. unfold test_bit, member. destruct (index_split i) as [-> ->]; [lia|].
  destruct (word_of words i Hi) as [w ->]. cbn. f_equal. pose proof (Z.mod_pos_bound i 32 ltac:(lia)) as Hm.
  rewrite one_bit_eq by lia. destruct (Z.testbit w (i mod 32)) eqn:E.
  - apply negb_true_iff, Z.eqb_neq. intros E'. apply (f_equal (fun z => Z.testbit z (i mod 32))) in E'.
    rewrite Z.land_spec, E, Z.pow2_bits_true, Z.bits_0 in E' by lia. done.
  - apply negb_false_iff, Z.eqb_eq, Z.bits_inj'. intros j Hj. rewrite Z.land_spec, Z.pow2_bits_eqb, Z.bits_0 by lia.
    destruct (Z.eqb_spec (i mod 32) j) as [<-|]; [by rewrite E|apply andb_false_r].
Qed.

Lemma set_bit_ok words i : 0 <= i < 32 * zlen words -> exists words', set_bit words i = OK words' /\
  length words' = length words /\ forall j, 0 <= j -> member words' j = (i =? j) || member words j.
Proof.
  intros Hi. unfold set_bit. destruct (index_split i) as [-> ->]; [lia|].
  destruct (word_of words i Hi) as [w Hw]. rewrite Hw. cbn [of_opt mbind res_bind]. pose proof (zlookup_lt _ _ _ Hw) as Hl.
  rewrite zwrite_ok by done. eexists. split; [done|]. split; [apply zinsert_length|].
  intros j Hj. unfold member. pose proof (Z.mod_pos_bound i 32 ltac:(lia)). pose proof (Z.mod_pos_bound j 32 ltac:(lia)).
  pose proof (Z.div_mod i 32 ltac:(lia)). pose proof (Z.div_mod j 32 ltac:(lia)).
  destruct (decide (i / 32 = j / 32)) as [E|E].
  - rewrite <- E, zlookup_insert_eq, Hw by done. rewrite Z.lor_spec, one_bit_testbit by lia. rewrite orb_comm. f_equal.
    apply Bool.eq_iff_eq_true. rewrite !Z.eqb_eq. lia.
  - rewrite zlookup_insert_ne by done. destruct (Z.eqb_spec i j) as [->|]; [done|]. done.
Qed.

Lemma set_bit_words words i words' : words_ok words -> set_bit words i = OK words' -> words_ok words'.
Proof.
  intros Hok. unfold set_bit. intros H. destruct (words !!z Z.quot i 32) as [w|] eqn:Hw; [|done]. cbn in H.
  apply zwrite_inv in H as [-> _]. unfold words_ok, zinsert. case_bool_decide; [|done]. apply Forall_insert; [done|].
  assert (Hu : in_u32 w) by (eapply Forall_forall; [exact Hok|]; by eapply zlookup_elem).
  apply in_u32_bits in Hu as [H0 Hb]. pose proof (u32_range (Z.shiftl 1 (Z.land i 31))) as Ho. fold (one_bit (Z.land i 31)) in Ho.
  apply in_u32_bits in Ho as [H1 Hb1]. apply in_u32_bits. split; [apply Z.lor_nonneg; done|].
  intros j Hj. by rewrite Z.lor_spec, Hb, Hb1.
Qed.

Lemma zero_words_ok n : words_ok (zero_words n).
Proof. apply Forall_replicate. unfold in_u32. lia. Qed.

Lemma zero_words_member n i : member (zero_words n) i = false.
Proof.
  unfold member, zero_words. destruct (_ !!z (i / 32)) as [w|] eqn:E; [|done].
  apply zlookup_elem, elem_of_replicate in E as [-> _]. apply Z.bits_0.
Qed.

#[export] Hint Resolve zero_words_ok set_bit_words clear_range : tundra.
