(* ===== verification/TargetSelect.v ===== *)
(** * Target selection

    Models src/src/TargetSelect.hpp and src/src/TargetSelect.cpp: the words of
    the command line become a list of (config, variant, subvariant) triples and
    a list of node names. *)

From S2P Require Import Prelude CommonFns BitSet.

(** ** TargetSelect.hpp *)

Record TargetSpec : Type := mkTarget { ts_ConfigIndex : Z; ts_VariantIndex : Z; ts_SubVariantIndex : Z }.

#[export] Instance TargetSpec_eq_dec : EqDecision TargetSpec.
Proof. solve_decision. Defined.

(** [operator==] and [operator<]. *)
Definition target_eq (l r : TargetSpec) : bool :=
  (ts_ConfigIndex l =? ts_ConfigIndex r) && (ts_VariantIndex l =? ts_VariantIndex r) && (ts_SubVariantIndex l =? ts_SubVariantIndex r).

Definition target_lt (l r : TargetSpec) : bool :=
  if ts_ConfigIndex l <? ts_ConfigIndex r then true
  else if ts_ConfigIndex r <? ts_ConfigIndex l then false
  else if ts_VariantIndex l <? ts_VariantIndex r then true
  else if ts_VariantIndex r <? ts_VariantIndex l then false
  else ts_SubVariantIndex l <? ts_SubVariantIndex r.

(** The counts are the lengths of the arrays of hashes. *)
Record TargetSelectInput : Type := mkTSInput {
  tsi_ConfigNameHashes : list Z;
  tsi_VariantNameHashes : list Z;
  tsi_SubVariantNameHashes : list Z;
  tsi_InputNames : list cstr;
  tsi_DefaultConfigIndex : Z;
  tsi_DefaultVariantIndex : Z;
  tsi_DefaultSubVariantIndex : Z }.

(** ** TargetSelect.cpp *)

Record InputSpec : Type := mkInputSpec { is_ConfigIndex : Z; is_VariantIndex : Z; is_SubVariantIndex : Z }.

Fixpoint FindHash_loop (i : Z) (hashes : list Z) (hash : Z) : option Z :=
  match hashes with
  | [] => None
  | h :: hashes' => if h =? hash then Some i else FindHash_loop (i + 1) hashes' hash
  end.

Definition FindHash (hashes : list Z) (hash : Z) : option Z := FindHash_loop 0 hashes hash.

(** [strchr]: the index of the character. *)
Fixpoint strchr (s : cstr) (c : ascii) : option nat :=
  match s with
  | [] => None
  | x :: s' => if Ascii.eqb x c then Some O else if Ascii.eqb x NUL then None else S <$> strchr s' c
  end.

Definition dash : ascii := "-"%char.

(** The pieces of [config-variant-subvariant]; the first dash is part of the
    config. *)
Definition split_spec (name : cstr) : option (cstr * option cstr * option cstr) :=
  let buffer := take 255 name in
  match strchr buffer dash with
  | None => None
  | Some dash1 =>
      let rest1 := drop (dash1 + 1) buffer in
      match strchr rest1 dash with
      | None => Some (buffer, None, None)
      | Some dash2 =>
          let config := take (dash1 + 1 + dash2) buffer in
          let rest2 := drop (dash2 + 1) rest1 in
          match strchr rest2 dash with
          | None => Some (config, Some rest2, None)
          | Some dash3 => Some (config, Some (take dash3 rest2), Some (drop (dash3 + 1) rest2))
          end
      end
  end.

(** The index of an optional piece: [-1] when there is none. *)
Definition find_piece (hashes : list Z) (piece : option cstr) : option Z :=
  match piece with
  | Some s => FindHash hashes (Djb2Hash s)
  | None => Some (-1)
  end.

Definition DestructureInputSpec (input : TargetSelectInput) (name : cstr) : option InputSpec :=
  match split_spec name with
  | None => None
  | Some (config, variant, subvariant) =>
      match FindHash (tsi_ConfigNameHashes input) (Djb2Hash config) with
      | None => None
      | Some c =>
          match find_piece (tsi_VariantNameHashes input) variant with
          | None => None
          | Some v =>
              match find_piece (tsi_SubVariantNameHashes input) subvariant with
              | None => None
              | Some sv => Some (mkInputSpec c v sv)
              end
          end
      end
  end.

(** What the loop over the words has collected. *)
Record Selection : Type := mkSelection {
  sel_specs : list InputSpec; sel_subvariant_bits : Z; sel_variant_bits : Z; sel_names : list cstr }.

Definition select_word (input : TargetSelectInput) (st : Selection) (input_name : cstr) : Selection :=
  let input_hash := Djb2Hash input_name in
  match FindHash (tsi_SubVariantNameHashes input) input_hash with
  | Some item_index => mkSelection (sel_specs st) (Z.lor (sel_subvariant_bits st) (one_bit item_index)) (sel_variant_bits st) (sel_names st)
  | None =>
      match FindHash (tsi_VariantNameHashes input) input_hash with
      | Some item_index => mkSelection (sel_specs st) (sel_subvariant_bits st) (Z.lor (sel_variant_bits st) (one_bit item_index)) (sel_names st)
      | None =>
          match DestructureInputSpec input input_name with
          | Some spec => mkSelection (sel_specs st ++ [spec]) (sel_subvariant_bits st) (sel_variant_bits st) (sel_names st)
          | None => mkSelection (sel_specs st) (sel_subvariant_bits st) (sel_variant_bits st) (sel_names st ++ [input_name])
          end
      end
  end.

Definition select_words (input : TargetSelectInput) : Selection :=
  foldl (select_word input) (mkSelection [] 0 0 []) (tsi_InputNames input).

Definition select_defaults (input : TargetSelectInput) (st : Selection) : Selection :=
  mkSelection
    (if (zlen (sel_specs st) =? 0) && (0 <=? tsi_DefaultConfigIndex input) then [mkInputSpec (tsi_DefaultConfigIndex input) (-1) (-1)] else sel_specs st)
    (if (sel_subvariant_bits st =? 0) && (0 <=? tsi_DefaultSubVariantIndex input) then one_bit (tsi_DefaultSubVariantIndex input) else sel_subvariant_bits st)
    (if (sel_variant_bits st =? 0) && (0 <=? tsi_DefaultVariantIndex input) then one_bit (tsi_DefaultVariantIndex input) else sel_variant_bits st)
    (sel_names st).

(** The innermost body: append unless it is there. *)
Definition add_target (output : list TargetSpec) (spec : TargetSpec) : list TargetSpec :=
  if existsb (fun o => target_eq o spec) output then output else output ++ [spec].

Definition expand_spec (subvariant_bits variant_bits : Z) (output : list TargetSpec) (spec : InputSpec) : list TargetSpec :=
  let vbits := if 0 <=? is_VariantIndex spec then one_bit (is_VariantIndex spec) else variant_bits in
  foldl (fun output variant_index =>
    let svbits := if 0 <=? is_SubVariantIndex spec then one_bit (is_SubVariantIndex spec) else subvariant_bits in
    foldl (fun output subvariant_index => add_target output (mkTarget (is_ConfigIndex spec) variant_index subvariant_index))
      output (visited_bits svbits))
    output (visited_bits vbits).

(** The targets and the names that are left; [output] starts empty. *)
Definition SelectTargets (input : TargetSelectInput) : res (list TargetSpec * list cstr) :=
  if (32 <? zlen (tsi_ConfigNameHashes input)) || (32 <? zlen (tsi_VariantNameHashes input)) || (32 <? zlen (tsi_SubVariantNameHashes input))
  then Err (Croak "too many configs/variants/subvariants -- keep it below 32")
  else
    let st := select_defaults input (select_words input) in
    OK (foldl (expand_spec (sel_subvariant_bits st) (sel_variant_bits st)) [] (sel_specs st), sel_names st).

(** ** Reference: what each word means *)

(** The first entry with the hash of a name. *)
Definition index_of (hashes : list Z) (name : cstr) : option Z :=
  (fun r => Z.of_nat r.1) <$> list_find (fun h => h = Djb2Hash name) hashes.

(** A specification is a list of words with dashes between them, of which the
    first 255 characters count: two words for the config, one for the variant,
    and the others for the subvariant. *)
Definition spec_pieces (name : cstr) : option (cstr * option cstr * option cstr) :=
  match split_on "-"%char (take 255 name) with
  | platform :: toolset :: more =>
      Some (platform ++ s2l "-" ++ toolset, head more,
        match more with _ :: (_ :: _) as words => Some (join_with "-"%char words) | _ => None end)
  | _ => None
  end.

(** Every piece names an entry of its list; [-1] is a piece that is not there. *)
Definition spec_of (input : TargetSelectInput) (name : cstr) : option InputSpec :=
  '(config, variant, subvariant) ← spec_pieces name;
  c ← index_of (tsi_ConfigNameHashes input) config;
  v ← from_option (index_of (tsi_VariantNameHashes input)) (Some (-1)) variant;
  sv ← from_option (index_of (tsi_SubVariantNameHashes input)) (Some (-1)) subvariant;
  Some (mkInputSpec c v sv).

Inductive word_class : Type := WSubVariant (i : Z) | WVariant (i : Z) | WSpec (s : InputSpec) | WName.

Definition classify (input : TargetSelectInput) (name : cstr) : word_class :=
  match index_of (tsi_SubVariantNameHashes input) name, index_of (tsi_VariantNameHashes input) name, spec_of input name with
  | Some i, _, _ => WSubVariant i
  | None, Some i, _ => WVariant i
  | None, None, Some s => WSpec s
  | None, None, None => WName
  end.

Definition word_variant (w : word_class) : option Z := match w with WVariant i => Some i | _ => None end.
Definition word_subvariant (w : word_class) : option Z := match w with WSubVariant i => Some i | _ => None end.
Definition word_spec (w : word_class) : option InputSpec := match w with WSpec s => Some s | _ => None end.

Definition is_name (w : word_class) : bool := match w with WName => true | _ => false end.

(** A list of choices, or the default when it is empty and there is one. *)
Definition or_default {A} (l : list A) (has_default : bool) (d : A) : list A :=
  match l with [] => if has_default then [d] else [] | _ => l end.

Section Wanted.
Context (input : TargetSelectInput).

Definition words : list word_class := map (classify input) (tsi_InputNames input).

Definition wanted_variants : list Z :=
  or_default (omap word_variant words) (0 <=? tsi_DefaultVariantIndex input) (tsi_DefaultVariantIndex input).
Definition wanted_subvariants : list Z :=
  or_default (omap word_subvariant words) (0 <=? tsi_DefaultSubVariantIndex input) (tsi_DefaultSubVariantIndex input).
Definition wanted_specs : list InputSpec :=
  or_default (omap word_spec words) (0 <=? tsi_DefaultConfigIndex input) (mkInputSpec (tsi_DefaultConfigIndex input) (-1) (-1)).

(** An index named in the specification, or any of the wanted ones. *)
Definition chosen (named : Z) (wanted : list Z) (i : Z) : Prop := if 0 <=? named then i = named else i ∈ wanted.

Definition selected (t : TargetSpec) : Prop := exists s, s ∈ wanted_specs /\ ts_ConfigIndex t = is_ConfigIndex s /\
  chosen (is_VariantIndex s) wanted_variants (ts_VariantIndex t) /\
  chosen (is_SubVariantIndex s) wanted_subvariants (ts_SubVariantIndex t).

Definition names_left : list cstr :=
  filter (fun n => is_name (classify input n) = true) (tsi_InputNames input).

(** At most 32 of each, the default indices are indices, and the words are C strings. *)
Record input_ok : Prop := {
  io_names : Forall cstr_ok (tsi_InputNames input);
  io_config : zlen (tsi_ConfigNameHashes input) <= 32;
  io_variant : zlen (tsi_VariantNameHashes input) <= 32 /\ tsi_DefaultVariantIndex input < 32;
  io_subvariant : zlen (tsi_SubVariantNameHashes input) <= 32 /\ tsi_DefaultSubVariantIndex input < 32 }.
End Wanted.

(** ** Lemmas *)

Lemma FindHash_loop_range i hashes hash k : FindHash_loop i hashes hash = Some k -> i <= k < i + zlen hashes.
Proof.
  revert i. induction hashes as [|h hashes IH]; intros i; cbn; [done|]. destruct (h =? hash).
  - intros [= <-]. lia.
  - intros H%IH. lia.
Qed.

Lemma FindHash_range hashes hash k : FindHash hashes hash = Some k -> 0 <= k < zlen hashes.
Proof. intros H%FindHash_loop_range. lia. Qed.

Lemma FindHash_loop_index hashes name : forall i, FindHash_loop i hashes (Djb2Hash name) = Z.add i <$> index_of hashes name.
Proof.
  unfold index_of. induction hashes as [|h hashes IH]; intros i; cbn [FindHash_loop list_find]; [done|]. destruct (Z.eqb_spec h (Djb2Hash name)) as [E|E].
  - rewrite decide_True by done. cbn. f_equal. lia.
  - rewrite decide_False, IH by done. destruct (list_find _ hashes) as [[n x]|]; cbn; [|done]. f_equal. lia.
Qed.

Lemma FindHash_index hashes name : FindHash hashes (Djb2Hash name) = index_of hashes name.
Proof. unfold FindHash. rewrite FindHash_loop_index. by destruct (index_of hashes name). Qed.

Lemma index_of_range hashes name k : index_of hashes name = Some k -> 0 <= k < zlen hashes.
Proof. rewrite <- FindHash_index. apply FindHash_range. Qed.

Lemma strchr_spec s c : cstr_ok s -> c <> NUL ->
  match strchr s c with
  | None => c ∉ s
  | Some n => exists a b, s = a ++ c :: b /\ c ∉ a /\ length a = n
  end.
Proof.
  intros Hs Hc. induction Hs as [|x s Hx Hs IH]; cbn [strchr]; [apply not_elem_of_nil|]. destruct (Ascii.eqb_spec x c) as [->|Hne].
  { exists [], s. split_and!; [done|apply not_elem_of_nil|done]. }
  destruct (Ascii.eqb_spec x NUL) as [->|_]; [done|]. destruct (strchr s c) as [n|]; cbn.
  - destruct IH as (a & b & -> & Ha & <-). exists (x :: a), b. split_and!; [done|set_solver|done].
  - set_solver.
Qed.

(** The cuts at three dashes, one after the other, are the pieces. *)
Lemma split_spec_pieces name : cstr_ok name -> split_spec name = spec_pieces name.
Proof.
  intros Hn. unfold split_spec, spec_pieces. assert (Hs : cstr_ok (take 255 name)) by (by apply Forall_take). fold dash. generalize dependent (take 255 name). intros s Hs.
  pose proof (strchr_spec s dash Hs ltac:(done)) as H1. destruct (strchr s dash) as [n|]; [|by rewrite split_on_none].
  destruct H1 as (a & s1 & -> & Ha & <-). rewrite split_on_app by done. apply Forall_app in Hs as [_ [_ Hs1]%Forall_cons].
  replace (drop (length a + 1) (a ++ dash :: s1)) with s1 by (by rewrite <- drop_drop, drop_app_length).
  pose proof (strchr_spec s1 dash Hs1 ltac:(done)) as H2. destruct (strchr s1 dash) as [n1|]; [|by rewrite split_on_none].
  destruct H2 as (b & s2 & -> & Hb & <-). rewrite split_on_app by done. apply Forall_app in Hs1 as [_ [_ Hs2]%Forall_cons].
  replace (drop (length b + 1) (b ++ dash :: s2)) with s2 by (by rewrite <- drop_drop, drop_app_length).
  replace (take (length a + 1 + length b) (a ++ dash :: b ++ dash :: s2)) with (a ++ s2l "-" ++ b)
    by (rewrite (app_assoc a (s2l "-") b), <- (take_app_length (((a ++ s2l "-") ++ b)) (dash :: s2)); rewrite !length_app, <- !app_assoc; done).
  pose proof (strchr_spec s2 dash Hs2 ltac:(done)) as H3. destruct (strchr s2 dash) as [n2|]; [|by rewrite split_on_none].
  destruct H3 as (v & s3 & -> & Hv & <-). rewrite split_on_app by done. rewrite take_app_length. cbn [head].
  replace (drop (length v + 1) (v ++ dash :: s3)) with s3 by (by rewrite <- drop_drop, drop_app_length).
  pose proof (join_split dash s3) as Hj. pose proof (split_on_not_nil dash s3). destruct (split_on dash s3); [done|]. by rewrite Hj.
Qed.

Lemma DestructureInputSpec_spec input name : cstr_ok name -> DestructureInputSpec input name = spec_of input name.
Proof.
  intros Hn. unfold DestructureInputSpec, spec_of. rewrite split_spec_pieces by done. destruct (spec_pieces name) as [[[config variant] subvariant]|]; [|done]. cbn.
  rewrite FindHash_index. assert (E : forall hashes p, find_piece hashes p = from_option (index_of hashes) (Some (-1)) p) by (intros ? [?|]; [apply FindHash_index|done]).
  rewrite !E. by destruct (index_of _ config), (from_option _ _ variant), (from_option _ _ subvariant).
Qed.

(** A word that stands for a list of indices. *)
Definition bits_are (bits : Z) (l : list Z) : Prop :=
  in_u32 bits /\ (forall i, 0 <= i -> Z.testbit bits i = true <-> i ∈ l) /\ Forall (fun i => 0 <= i < 32) l.

Lemma bits_are_nil : bits_are 0 [].
Proof. split_and!; [unfold in_u32; lia| |constructor]. intros. rewrite Z.bits_0, elem_of_nil. done. Qed.

Lemma bits_are_add bits l i : 0 <= i < 32 -> bits_are bits l -> bits_are (Z.lor bits (one_bit i)) (l ++ [i]).
Proof.
  intros Hi (Hu & Hb & Hl). split_and!.
  - apply in_u32_bits in Hu as [H0 Hh]. rewrite one_bit_eq by done. pose proof (Z.pow_pos_nonneg 2 i).
    apply in_u32_bits. split; [apply Z.lor_nonneg; lia|]. intros j Hj. rewrite Z.lor_spec, Hh, Z.pow2_bits_eqb by lia. apply Z.eqb_neq. lia.
  - intros j Hj. rewrite Z.lor_spec, one_bit_testbit, orb_true_iff, Z.eqb_eq, elem_of_app, Hb, list_elem_of_singleton by done. naive_solver.
  - apply Forall_app. split; [done|]. by constructor.
Qed.

Lemma bits_are_zero bits l : bits_are bits l -> (bits =? 0) = bool_decide (l = []).
Proof.
  intros (Hu & Hb & Hl). apply Bool.eq_iff_eq_true. rewrite Z.eqb_eq, bool_decide_eq_true. split.
  - intros ->. destruct l as [|i l]; [done|]. apply Forall_cons in Hl as [Hi _].
    assert (Z.testbit 0 i = true) as H by (apply Hb; [lia|set_solver]). by rewrite Z.bits_0 in H.
  - intros ->. apply Z.bits_inj'. intros j Hj. rewrite Z.bits_0. destruct (Z.testbit bits j) eqn:E; [|done].
    apply Hb in E; [|done]. by apply elem_of_nil in E.
Qed.

Lemma bits_are_default bits l d : bits_are bits l -> d < 32 ->
  bits_are (if (bits =? 0) && (0 <=? d) then one_bit d else bits) (or_default l (0 <=? d) d).
Proof.
  intros Hb Hd. rewrite (bits_are_zero _ _ Hb). destruct l as [|x l]; cbn [or_default].
  - rewrite bool_decide_true by done. cbn [andb]. destruct (Z.leb_spec 0 d); [|done].
    pose proof (bits_are_add 0 [] d ltac:(lia) bits_are_nil) as H'. by rewrite Z.lor_0_l in H'.
  - by rewrite bool_decide_false.
Qed.

Lemma elem_of_bits bits l i : bits_are bits l -> i ∈ visited_bits bits <-> i ∈ l.
Proof.
  intros (Hu & Hb & Hl). rewrite elem_of_visited_bits by done. split; [intros [H0 H]; by apply Hb|].
  intros Hi. rewrite Forall_forall in Hl. pose proof (Hl i Hi). split; [lia|]. apply Hb; [lia|done].
Qed.

(** The loop over the words computes the reference lists. *)
Lemma select_words_spec input : input_ok input ->
  let st := select_words input in
  sel_specs st = omap word_spec (words input) /\
  bits_are (sel_subvariant_bits st) (omap word_subvariant (words input)) /\
  bits_are (sel_variant_bits st) (omap word_variant (words input)) /\
  sel_names st = names_left input.
Proof.
  intros Hok. unfold select_words, words, names_left. pose proof (io_names _ Hok) as Hns. revert Hns. generalize (tsi_InputNames input) as ns.
  induction ns as [|n ns IH] using rev_ind; intros Hns; [split_and!; [done|apply bits_are_nil..|done]|].
  cbn zeta in *. apply Forall_app in Hns as [Hns [Hn _]%Forall_cons]. specialize (IH Hns).
  rewrite foldl_app, map_app, !omap_app, filter_app. cbn [foldl map omap list_omap]. destruct IH as (I1 & I2 & I3 & I4).
  set (st := foldl _ _ _) in *. rewrite (filter_cons _ n []), filter_nil. unfold select_word, classify.
  rewrite !FindHash_index, DestructureInputSpec_spec by done. destruct (index_of (tsi_SubVariantNameHashes input) _) as [i|] eqn:E1; cbn.
  { apply index_of_range in E1. pose proof (io_subvariant _ Hok). rewrite !app_nil_r. split_and!; try done. apply bits_are_add; [lia|done]. }
  destruct (index_of (tsi_VariantNameHashes input) _) as [i|] eqn:E2; cbn.
  { apply index_of_range in E2. pose proof (io_variant _ Hok). rewrite !app_nil_r. split_and!; try done. apply bits_are_add; [lia|done]. }
  destruct (spec_of input n) as [s|]; cbn; rewrite !app_nil_r; split_and!; try done; by rewrite ?I1, ?I4.
Qed.

Lemma target_eq_spec a b : target_eq a b = true <-> a = b.
Proof.
  unfold target_eq. rewrite !andb_true_iff, !Z.eqb_eq. destruct a, b. cbn. split; [intros [[-> ->] ->]; done|intros [= -> -> ->]; done].
Qed.

Lemma add_target_spec out t : NoDup out -> NoDup (add_target out t) /\ forall x, x ∈ add_target out t <-> x ∈ out \/ x = t.
Proof.
  intros Hn. unfold add_target. destruct (existsb _ out) eqn:E.
  - apply existsb_exists in E as (o & Ho%list_elem_of_In & Et%target_eq_spec). subst o. split; [done|]. intros x. split; [by left|]. by intros [?| ->].
  - assert (Ht : t ∉ out).
    { intros Hin%list_elem_of_In. apply not_true_iff_false in E. apply E, existsb_exists. exists t. split; [done|by apply target_eq_spec]. }
    split; [|intros x; by rewrite elem_of_app, list_elem_of_singleton]. apply NoDup_app. split_and!; [done|set_solver|apply NoDup_singleton].
Qed.

(** Folding a step that adds a set of targets. *)
Lemma foldl_adds {A} (f : list TargetSpec -> A -> list TargetSpec) (P : A -> TargetSpec -> Prop) l :
  (forall out a, a ∈ l -> NoDup out -> NoDup (f out a) /\ forall x, x ∈ f out a <-> x ∈ out \/ P a x) ->
  forall out, NoDup out -> NoDup (foldl f out l) /\ forall x, x ∈ foldl f out l <-> x ∈ out \/ exists a, a ∈ l /\ P a x.
Proof.
  induction l as [|a l IH]; intros Hf out Hn; cbn [foldl].
  { split; [done|]. intros x. split; [by left|]. intros [?|(a & Ha & _)]; [done|by apply elem_of_nil in Ha]. }
  destruct (Hf out a) as [Hn' Hx]; [by left|done|]. destruct (IH (fun o b Hb => Hf o b (list_elem_of_further _ _ _ Hb)) _ Hn') as [Hn'' Hx']. split; [done|]. intros x. rewrite Hx', Hx.
  setoid_rewrite elem_of_cons. naive_solver.
Qed.

Lemma expand_spec_adds svbits vbits svs vs spec : bits_are svbits svs -> bits_are vbits vs ->
  is_VariantIndex spec < 32 -> is_SubVariantIndex spec < 32 -> forall out, NoDup out ->
  NoDup (expand_spec svbits vbits out spec) /\ forall x, x ∈ expand_spec svbits vbits out spec <->
  x ∈ out \/ (ts_ConfigIndex x = is_ConfigIndex spec /\ chosen (is_VariantIndex spec) vs (ts_VariantIndex x) /\
              chosen (is_SubVariantIndex spec) svs (ts_SubVariantIndex x)).
Proof.
  intros Hs Hv Lv Ls out Hn. unfold expand_spec.
  assert (Hch : forall named wanted bits, named < 32 -> bits_are bits wanted -> forall i,
    i ∈ visited_bits (if 0 <=? named then one_bit named else bits) <-> chosen named wanted i).
  { intros named wanted bits Hl Hb i. unfold chosen. destruct (Z.leb_spec 0 named); [|by apply elem_of_bits].
    pose proof (bits_are_add 0 [] named ltac:(lia) bits_are_nil) as H'. rewrite Z.lor_0_l in H'.
    rewrite (elem_of_bits _ _ _ H'). cbn [app]. by rewrite list_elem_of_singleton. }
  destruct (foldl_adds (fun output variant_index => foldl (fun output subvariant_index =>
      add_target output (mkTarget (is_ConfigIndex spec) variant_index subvariant_index)) output
      (visited_bits (if 0 <=? is_SubVariantIndex spec then one_bit (is_SubVariantIndex spec) else svbits)))
    (fun v x => exists sv, chosen (is_SubVariantIndex spec) svs sv /\ x = mkTarget (is_ConfigIndex spec) v sv)
    (visited_bits (if 0 <=? is_VariantIndex spec then one_bit (is_VariantIndex spec) else vbits))) with (out := out) as [Hn' Hx]; [|done|].
  - intros out' v _ Hn'. destruct (foldl_adds (fun output sv => add_target output (mkTarget (is_ConfigIndex spec) v sv))
      (fun sv x => x = mkTarget (is_ConfigIndex spec) v sv)
      (visited_bits (if 0 <=? is_SubVariantIndex spec then one_bit (is_SubVariantIndex spec) else svbits))
      (fun o a _ => add_target_spec o _) out' Hn') as [Hn'' Hx]. split; [done|]. intros x. rewrite Hx. by setoid_rewrite (Hch _ svs).
  - split; [done|]. intros x. rewrite Hx. setoid_rewrite (Hch _ vs); [|done..]. apply or_iff_compat_l. split.
    + intros (v & Hv' & sv & Hsv & ->). done.
    + destruct x as [c v sv]. cbn. intros (-> & ? & ?). eauto.
Qed.

Lemma piece_range hashes piece k : zlen hashes <= 32 -> from_option (index_of hashes) (Some (-1)) piece = Some k -> k < 32.
Proof. intros Hl. destruct piece as [s|]; cbn; [intros H%index_of_range; lia|intros [= <-]; lia]. Qed.

Lemma spec_of_range input name s : input_ok input -> spec_of input name = Some s -> is_VariantIndex s < 32 /\ is_SubVariantIndex s < 32.
Proof.
  intros Hok. destruct (io_variant _ Hok), (io_subvariant _ Hok). unfold spec_of. destruct (spec_pieces name) as [[[config variant] subvariant]|]; [|done]. cbn.
  destruct (index_of _ config) as [c|]; [|done]. cbn. destruct (from_option _ _ variant) as [v|] eqn:Ev; [|done]. cbn.
  destruct (from_option _ _ subvariant) as [sv|] eqn:Es; [|done]. intros [= <-]. cbn. eauto using piece_range.
Qed.

Lemma wanted_specs_range input s : input_ok input -> s ∈ wanted_specs input -> is_VariantIndex s < 32 /\ is_SubVariantIndex s < 32.
Proof.
  intros Hok. unfold wanted_specs. assert (H : forall s, s ∈ omap word_spec (words input) -> is_VariantIndex s < 32 /\ is_SubVariantIndex s < 32).
  { clear s. intros s (w & Hw & Es)%list_elem_of_omap. unfold words in Hw. apply list_elem_of_fmap in Hw as (n & -> & _).
    unfold classify in Es. destruct (index_of (tsi_SubVariantNameHashes input) n), (index_of (tsi_VariantNameHashes input) n), (spec_of input n) eqn:E; cbn in Es; simplify_eq. by eapply spec_of_range. }
  destruct (omap word_spec (words input)) as [|x l]; cbn [or_default]; [|apply H].
  case_match; [|by intros ?%elem_of_nil]. intros ->%list_elem_of_singleton. cbn. lia.
Qed.

(** C28. Target selection picks exactly the wanted triples. The command line is
    read word by word: the name of a subvariant or variant adds it to the
    wanted ones; [config-variant-subvariant], where the config is two words with a
    dash between them, the variant is one word and optional, and what follows it,
    dashes and all, is the subvariant, asks for that configuration when each
    piece names one; and anything else is a node name. When no word names a
    variant, subvariant or configuration the default is wanted. The output has
    every triple of a requested configuration with a wanted variant and
    subvariant, no other and none twice, and the names in their order. *)
Theorem target_selection_exact input : input_ok input ->
  exists out, SelectTargets input = OK (out, names_left input) /\ NoDup out /\ forall t, t ∈ out <-> selected input t.
Proof.
  intros Hok. unfold SelectTargets. destruct (io_variant _ Hok) as [Hv Hvd], (io_subvariant _ Hok) as [Hs Hsd]. pose proof (io_config _ Hok).
  rewrite !(proj2 (Z.ltb_ge _ _)) by done. cbn [orb]. destruct (select_words_spec input Hok) as (E1 & B1 & B2 & E2).
  pose proof (bits_are_default _ _ _ B1 Hsd) as D1. pose proof (bits_are_default _ _ _ B2 Hvd) as D2.
  fold (wanted_subvariants input) in D1. fold (wanted_variants input) in D2. unfold select_defaults. cbn [sel_specs sel_subvariant_bits sel_variant_bits sel_names].
  assert (Ew : (if (zlen (sel_specs (select_words input)) =? 0) && (0 <=? tsi_DefaultConfigIndex input)
    then [mkInputSpec (tsi_DefaultConfigIndex input) (-1) (-1)] else sel_specs (select_words input)) = wanted_specs input).
  { unfold wanted_specs. rewrite E1. destruct (omap word_spec (words input)) as [|x l]; [|done]. cbn. by destruct (0 <=? _). }
  rewrite Ew, E2. eexists. split; [done|].
  match type of D1 with bits_are ?b _ => set (svbits := b) in * end. match type of D2 with bits_are ?b _ => set (vbits := b) in * end.
  destruct (foldl_adds (expand_spec svbits vbits) (fun s x => ts_ConfigIndex x = is_ConfigIndex s /\
      chosen (is_VariantIndex s) (wanted_variants input) (ts_VariantIndex x) /\
      chosen (is_SubVariantIndex s) (wanted_subvariants input) (ts_SubVariantIndex x)) (wanted_specs input)) with (out := @nil TargetSpec) as [Hn Hx].
  - intros out s Hin Hn. destruct (wanted_specs_range input s Hok Hin). by apply expand_spec_adds.
  - constructor.
  - split; [done|]. intros t. rewrite Hx, elem_of_nil. unfold selected. naive_solver.
Qed.

Definition demo_input : TargetSelectInput :=
  mkTSInput (map Djb2Hash [s2l "win32-msvc"; s2l "macosx-clang"]) (map Djb2Hash [s2l "debug"; s2l "release"])
    (map Djb2Hash [s2l "default"; s2l "no-log"]) [s2l "release"; s2l "macosx-clang"; s2l "all"; s2l "win32-msvc-debug-no-log"] 0 0 0.

Lemma target_selection_exact_witness :
  SelectTargets demo_input = OK ([mkTarget 1 1 0; mkTarget 0 0 1], [s2l "all"]) /\
  exists out, SelectTargets demo_input = OK (out, names_left demo_input) /\ NoDup out /\ forall t, t ∈ out <-> selected demo_input t.
Proof.
  split; [vm_compute; reflexivity|]. apply target_selection_exact. split; [repeat constructor; discriminate|vm_compute; discriminate|split..]; vm_compute; done.
Defined.
