(* ===== verification/BinaryWriter.v ===== *)
(** * Writing frozen data

    Models src/src/BinaryWriter.hpp and src/src/BinaryWriter.cpp (segments,
    pointer fix-ups, layout) and src/src/BinaryData.hpp (self-relative pointers
    and arrays in a mapped file). A byte is a [Z] below 256; a segment is
    written by appending; a file is the bytes of the segments one after the
    other. *)

From S2P Require Import Prelude CommonFns.

(** ** Segments *)

Record BinaryLocator : Type := mkLoc { bl_SegIndex : Z; bl_Offset : Z }.
Record BinaryFixup : Type := mkFixup { fx_PointerOffset : Z; fx_Target : BinaryLocator }.

Record BinarySegment : Type := mkSegment {
  sg_Index : Z;
  sg_GlobalOffset : Z;
  sg_Bytes : list Z;
  sg_Fixups : list BinaryFixup }.

Definition BinarySegmentSize (self : BinarySegment) : Z := zlen (sg_Bytes self).

Definition BinarySegmentInit (index : Z) : BinarySegment := mkSegment index (-1) [] [].

(** [BinarySegmentWrite] appends. *)
Definition BinarySegmentWrite (data : list Z) (seg : BinarySegment) : BinarySegment :=
  mkSegment (sg_Index seg) (sg_GlobalOffset seg) (sg_Bytes seg ++ data) (sg_Fixups seg).

Definition BinarySegmentAlign (alignment : Z) (self : BinarySegment) : BinarySegment :=
  let offset := zlen (sg_Bytes self) in
  let aligned := Z.land (offset + alignment - 1) (u64 (Z.lnot (alignment - 1))) in
  BinarySegmentWrite (replicate (Z.to_nat (aligned - offset)) 0xfe) self.

(** The bytes of a little-endian integer of [n] bytes. *)
Fixpoint le_bytes (n : nat) (v : Z) : list Z :=
  match n with
  | O => []
  | S n => v mod 256 :: le_bytes n (v / 256)
  end.

Definition BinarySegmentWriteUint8 (v : Z) : BinarySegment -> BinarySegment := BinarySegmentWrite (le_bytes 1 (u8 v)).
Definition BinarySegmentWriteInt16 (v : Z) : BinarySegment -> BinarySegment := BinarySegmentWrite (le_bytes 2 (u16 v)).
Definition BinarySegmentWriteInt32 (v : Z) : BinarySegment -> BinarySegment := BinarySegmentWrite (le_bytes 4 (u32 v)).
Definition BinarySegmentWriteInt64 (v : Z) : BinarySegment -> BinarySegment := BinarySegmentWrite (le_bytes 8 (u64 v)).
Definition BinarySegmentWriteUint32 (v : Z) : BinarySegment -> BinarySegment := BinarySegmentWrite (le_bytes 4 (u32 v)).
Definition BinarySegmentWriteUint64 (v : Z) : BinarySegment -> BinarySegment := BinarySegmentWrite (le_bytes 8 (u64 v)).

(** The characters before the terminator, and the terminator. *)
Definition string_bytes (s : cstr) : list Z := map uchar (take (Z.to_nat (strlen s)) s) ++ [0].

Definition BinarySegmentWriteStringData (s : cstr) : BinarySegment -> BinarySegment := BinarySegmentWrite (string_bytes s).

Definition BinarySegmentWriteNullPointer : BinarySegment -> BinarySegment := BinarySegmentWriteUint32 0.

Definition BinarySegmentWritePointer (locator : BinaryLocator) (seg : BinarySegment) : BinarySegment :=
  let fixup := mkFixup (zlen (sg_Bytes seg)) locator in
  BinarySegmentWriteUint32 0x7eeeeeee (mkSegment (sg_Index seg) (sg_GlobalOffset seg) (sg_Bytes seg) (sg_Fixups seg ++ [fixup])).

Definition BinarySegmentPosition (self : BinarySegment) : BinaryLocator := mkLoc (sg_Index self) (zlen (sg_Bytes self)).

(** [memcpy] of four bytes into the segment. *)
Definition patch (bytes : list Z) (off : Z) (data : list Z) : res (list Z) :=
  if (0 <=? off) && (off + zlen data <=? zlen bytes)
  then OK (take (Z.to_nat off) bytes ++ data ++ drop (Z.to_nat off + length data) bytes)
  else Err OutOfBounds.

Definition fixup_pointer (my_seg_base : Z) (segs : list BinarySegment) (bytes : list Z) (fixup : BinaryFixup) : res (list Z) :=
  target ← of_opt (segs !!z bl_SegIndex (fx_Target fixup));
  let source_pos := my_seg_base + fx_PointerOffset fixup in
  let dest_pos := sg_GlobalOffset target + bl_Offset (fx_Target fixup) in
  let delta := dest_pos - source_pos in
  let delta32 := i32 delta in
  if negb (delta32 =? delta) then Err (Croak "pointer relocation too big")
  else patch bytes (fx_PointerOffset fixup) (le_bytes 4 (u32 delta32)).

Definition BinarySegmentFixupPointers (segs : list BinarySegment) (self : BinarySegment) : res BinarySegment :=
  bytes ← foldM (fixup_pointer (sg_GlobalOffset self) segs) (sg_Bytes self) (sg_Fixups self);
  OK (mkSegment (sg_Index self) (sg_GlobalOffset self) bytes (sg_Fixups self)).

(** ** Writers *)

Abbreviation BinaryWriter := (list BinarySegment).

Definition BinaryWriterAddSegment (w : BinaryWriter) : BinaryWriter := w ++ [BinarySegmentInit (zlen w)].

(** Global positions: each segment starts where the one before it ends. *)
Fixpoint place_segments (offset : Z) (segs : list BinarySegment) : list BinarySegment :=
  match segs with
  | [] => []
  | s :: segs' => mkSegment (sg_Index s) offset (sg_Bytes s) (sg_Fixups s) :: place_segments (offset + BinarySegmentSize s) segs'
  end.

Definition BinaryWriterFinalize (w : BinaryWriter) : res BinaryWriter :=
  let segs := place_segments 0 (map (BinarySegmentAlign 16) w) in
  foldM (fun out s => s ← BinarySegmentFixupPointers segs s; OK (out ++ [s])) [] segs.

(** The bytes written when opening the file and every [fwrite] succeed. *)
Definition BinaryWriterFlush (w : BinaryWriter) : res (list Z) :=
  segs ← BinaryWriterFinalize w;
  OK (concat (map sg_Bytes segs)).

(** ** Reading: BinaryData.hpp *)

(** A little-endian word of the mapped file. *)
Definition read_u32 (bytes : list Z) (off : Z) : option Z :=
  match bytes !!z off, bytes !!z (off + 1), bytes !!z (off + 2), bytes !!z (off + 3) with
  | Some a, Some b, Some c, Some d => Some (a + 2 ^ 8 * b + 2 ^ 16 * c + 2 ^ 24 * d)
  | _, _, _, _ => None
  end.

Definition read_i32 (file : list Z) (off : Z) : option Z := i32 <$> read_u32 file off.

(** [FrozenPtr::Get]: relative to the pointer itself, zero is null. *)
Definition FrozenPtr_Get (file : list Z) (addr : Z) : option (option Z) :=
  match read_i32 file addr with
  | Some m_Offset => Some (if m_Offset =? 0 then None else Some (addr + m_Offset))
  | None => None
  end.

(** ** What a segment means: bytes and references *)

Inductive item : Type := IByte (b : Z) | IPtr (target : BinaryLocator).

Definition item_size (i : item) : Z := match i with IByte _ => 1 | IPtr _ => 4 end.
Definition items_size (l : list item) : Z := foldr (fun i n => item_size i + n) 0 l.

Definition placeholder : list Z := le_bytes 4 0x7eeeeeee.

Definition item_bytes (i : item) : list Z := match i with IByte b => [b] | IPtr _ => placeholder end.

(** The bytes before fix-up and the fix-ups, for items from offset [off]. *)
Definition flat (l : list item) : list Z := concat (map item_bytes l).

Fixpoint fixups_from (off : Z) (l : list item) : list BinaryFixup :=
  match l with
  | [] => []
  | IByte _ :: l' => fixups_from (off + 1) l'
  | IPtr t :: l' => mkFixup off t :: fixups_from (off + 4) l'
  end.

(** The bytes after fix-up: [addr] maps a locator to its place in the file and
    [pos] is the place of the first item. *)
Fixpoint render (addr : BinaryLocator -> Z) (pos : Z) (l : list item) : list Z :=
  match l with
  | [] => []
  | IByte b :: l' => b :: render addr (pos + 1) l'
  | IPtr t :: l' => le_bytes 4 (u32 (addr t - pos)) ++ render addr (pos + 4) l'
  end.

Definition seg_is (s : BinarySegment) (index : Z) (l : list item) : Prop :=
  sg_Index s = index /\ sg_Bytes s = flat l /\ sg_Fixups s = fixups_from 0 l.

(** Where the segments of a file start. *)
Definition aligned16 (n : Z) : Z := 16 * ((n + 15) / 16).
Definition padded (l : list item) : list item := l ++ replicate (Z.to_nat (aligned16 (items_size l) - items_size l)) (IByte 0xfe).

Fixpoint bases (offset : Z) (segs : list (list item)) : list Z :=
  match segs with
  | [] => []
  | l :: segs' => offset :: bases (offset + items_size (padded l)) segs'
  end.

Definition address (segs : list (list item)) (t : BinaryLocator) : Z := default 0 (bases 0 segs !!z bl_SegIndex t) + bl_Offset t.

Fixpoint render_all (addr : BinaryLocator -> Z) (offset : Z) (segs : list (list item)) : list Z :=
  match segs with
  | [] => []
  | l :: segs' => render addr offset (padded l) ++ render_all addr (offset + items_size (padded l)) segs'
  end.

(** The file the segments stand for. *)
Definition file_of (segs : list (list item)) : list Z := render_all (address segs) 0 segs.

(** References name a segment of the file and the file is small enough for
    32-bit offsets. *)
Definition targets_ok (segs : list (list item)) : Prop :=
  (forall l t, l ∈ segs -> IPtr t ∈ l -> 0 <= bl_SegIndex t < zlen segs /\ 0 <= bl_Offset t < 2 ^ 30) /\
  zlen (file_of segs) <= 2 ^ 30.

(** ** Lemmas: integers as bytes *)

Lemma length_le_bytes n v : length (le_bytes n v) = n.
Proof. revert v. induction n as [|n IH]; intros v; cbn; [done|]. by rewrite IH. Qed.

Lemma le_bytes_app n m v : le_bytes (n + m) v = le_bytes n v ++ le_bytes m (v / 256 ^ Z.of_nat n).
Proof.
  revert v. induction n as [|n IH]; intros v; [cbn; by rewrite Z.div_1_r|]. cbn [Nat.add le_bytes app]. rewrite IH. do 2 f_equal.
  rewrite Z.div_div by (try apply Z.pow_pos_nonneg; lia). f_equal. replace (Z.of_nat (S n)) with (1 + Z.of_nat n) by lia.
  by rewrite Z.pow_add_r by lia.
Qed.

Lemma le_bytes_mod n v : le_bytes n (v mod 256 ^ Z.of_nat n) = le_bytes n v.
Proof.
  revert v. induction n as [|n IH]; intros v; [done|]. cbn [le_bytes]. replace (Z.of_nat (S n)) with (1 + Z.of_nat n) by lia.
  pose proof (Z.pow_pos_nonneg 256 (Z.of_nat n)). rewrite Z.pow_add_r, Z.pow_1_r by lia. rewrite Z.rem_mul_r by lia.
  pose proof (Z.mod_pos_bound v 256 ltac:(lia)). rewrite (Z.add_comm (v mod 256)), Z.mul_comm. f_equal.
  - rewrite Z.add_comm, Z_mod_plus_full. by apply Z.mod_mod.
  - rewrite Z.div_add_l by lia. rewrite (Z.div_small (v mod 256)) by done. rewrite Z.add_0_r. apply IH.
Qed.

(** A run of bytes at a place of the file. *)
Definition has (file : list Z) (off : Z) (bytes : list Z) : Prop := exists pre post, file = pre ++ bytes ++ post /\ zlen pre = off.

Lemma has_app file off a b : has file off (a ++ b) <-> has file off a /\ has file (off + zlen a) b.
Proof.
  split.
  - intros (pre & post & -> & <-). split; [exists pre, (b ++ post); by rewrite <- app_assoc|].
    exists (pre ++ a), post. split; [by rewrite <- !app_assoc|rewrite length_app; lia].
  - intros [(pre & post & E & Ho) (pre' & post' & E' & Ho')]. exists pre, post'. split; [|done].
    assert (pre' = pre ++ a) as ->; [|by rewrite E', <- !app_assoc].
    rewrite E in E'. rewrite app_assoc in E'. apply app_inj_1 in E' as [? _]; [done|]. rewrite length_app. lia.
Qed.

Lemma has_lookup file off b : has file off [b] -> file !!z off = Some b.
Proof.
  intros (pre & post & -> & <-). rewrite zlookup_nat. rewrite lookup_app_r by lia. by rewrite Nat.sub_diag.
Qed.

Lemma has_cons file off b l : has file off (b :: l) <-> has file off [b] /\ has file (off + 1) l.
Proof. apply (has_app file off [b] l). Qed.

Lemma has_range file off l : has file off l -> 0 <= off /\ off + zlen l <= zlen file.
Proof. intros (pre & post & -> & <-). rewrite !length_app. lia. Qed.

Lemma read_u32_has file off v : in_u32 v -> has file off (le_bytes 4 v) -> read_u32 file off = Some v.
Proof.
  intros Hv H. unfold in_u32 in Hv. cbn [le_bytes] in H.
  apply has_cons in H as [H0%has_lookup H]. apply has_cons in H as [H1%has_lookup H]. apply has_cons in H as [H2%has_lookup H3%has_lookup].
  unfold read_u32. replace (off + 2) with (off + 1 + 1) by lia. replace (off + 3) with (off + 1 + 1 + 1) by lia. rewrite H0, H1, H2, H3. f_equal.
  rewrite !Z.div_div by lia. change (256 * 256) with (2 ^ 16). change (2 ^ 16 * 256) with (2 ^ 24).
  rewrite (Z.mod_small (v / 2 ^ 24) 256) by (split; [apply Z.div_pos; lia|apply Z.div_lt_upper_bound; lia]).
  pose proof (Z.div_mod v 256 ltac:(lia)). pose proof (Z.div_mod (v / 256) 256 ltac:(lia)) as H5. rewrite Z.div_div in H5 by lia.
  pose proof (Z.div_mod (v / 2 ^ 16) 256 ltac:(lia)) as H6. rewrite Z.div_div in H6 by lia. change (256 * 256) with (2 ^ 16) in H5.
  change (2 ^ 16 * 256) with (2 ^ 24) in H6. lia.
Qed.

Lemma i32_u32 v : i32 (u32 v) = i32 v.
Proof. unfold i32, u32. by rewrite Zplus_mod_idemp_l. Qed.

Lemma read_i32_has file off v : in_i32 v -> has file off (le_bytes 4 (u32 v)) -> read_i32 file off = Some v.
Proof. intros Hv H. unfold read_i32. rewrite (read_u32_has _ _ (u32 v)) by (done || apply u32_range). cbn. by rewrite i32_u32, i32_small. Qed.

(** ** Lemmas: items *)

Lemma items_size_app a b : items_size (a ++ b) = items_size a + items_size b.
Proof. unfold items_size. induction a as [|i a IH]; cbn [app foldr]; [done|]. rewrite IH. lia. Qed.

Lemma items_size_nonneg l : 0 <= items_size l.
Proof. unfold items_size. induction l as [|[] l IH]; cbn [foldr item_size]; lia. Qed.

Lemma flat_app a b : flat (a ++ b) = flat a ++ flat b.
Proof. unfold flat. by rewrite map_app, concat_app. Qed.

Lemma length_flat l : zlen (flat l) = items_size l.
Proof.
  induction l as [|i l IH]; [done|]. change (flat (i :: l)) with (item_bytes i ++ flat l).
  change (items_size (i :: l)) with (item_size i + items_size l). rewrite length_app, Nat2Z.inj_add, IH. by destruct i.
Qed.

Lemma fixups_from_app off a b : fixups_from off (a ++ b) = fixups_from off a ++ fixups_from (off + items_size a) b.
Proof.
  revert off. induction a as [|[] a IH]; intros off; cbn [app fixups_from].
  - by rewrite Z.add_0_r.
  - rewrite IH. do 2 f_equal. change (items_size (IByte b0 :: a)) with (1 + items_size a). lia.
  - rewrite IH. cbn [app]. do 3 f_equal. change (items_size (IPtr target :: a)) with (4 + items_size a). lia.
Qed.

Lemma render_app addr pos a b : render addr pos (a ++ b) = render addr pos a ++ render addr (pos + items_size a) b.
Proof.
  revert pos. induction a as [|[] a IH]; intros pos; cbn [app render].
  - by rewrite Z.add_0_r.
  - rewrite IH. cbn [app]. do 3 f_equal. change (items_size (IByte b0 :: a)) with (1 + items_size a). lia.
  - rewrite IH, <- app_assoc. do 2 f_equal. f_equal. change (items_size (IPtr target :: a)) with (4 + items_size a). lia.
Qed.

Lemma length_render addr pos l : zlen (render addr pos l) = items_size l.
Proof.
  unfold items_size. revert pos. induction l as [|[] l IH]; intros pos; cbn [render foldr item_size]; [done|..].
  - rewrite length_cons. rewrite <- (IH (pos + 1)). lia.
  - rewrite length_app, length_le_bytes. rewrite <- (IH (pos + 4)). lia.
Qed.

Definition ibytes (l : list Z) : list item := map IByte l.

Lemma ibytes_size l : items_size (ibytes l) = zlen l.
Proof. unfold ibytes, items_size. induction l as [|b l IH]; [done|]. cbn [map foldr item_size]. rewrite IH, length_cons. lia. Qed.

Lemma flat_ibytes l : flat (ibytes l) = l.
Proof. unfold flat, ibytes. induction l as [|b l IH]; cbn in *; [done|]. by rewrite IH. Qed.

Lemma fixups_ibytes off l : fixups_from off (ibytes l) = [].
Proof. revert off. induction l as [|b l IH]; intros off; cbn; [done|]. apply IH. Qed.

Lemma render_ibytes addr pos l : render addr pos (ibytes l) = l.
Proof. revert pos. induction l as [|b l IH]; intros pos; cbn; [done|]. f_equal. apply IH. Qed.

(** ** Lemmas: writing *)

Lemma seg_init index : seg_is (BinarySegmentInit index) index [].
Proof. done. Qed.

Lemma seg_write data s index l : seg_is s index l -> seg_is (BinarySegmentWrite data s) index (l ++ ibytes data).
Proof.
  intros (Hi & Hb & Hf). unfold seg_is. cbn. rewrite flat_app, flat_ibytes, fixups_from_app, fixups_ibytes, app_nil_r, Hb. done.
Qed.

Lemma seg_write_pointer t s index l : seg_is s index l -> seg_is (BinarySegmentWritePointer t s) index (l ++ [IPtr t]).
Proof.
  intros (Hi & Hb & Hf). unfold seg_is, BinarySegmentWritePointer. cbn. rewrite flat_app, fixups_from_app, Hb, Hf, length_flat. done.
Qed.

Lemma seg_position s index l : seg_is s index l -> BinarySegmentPosition s = mkLoc index (items_size l).
Proof. intros (Hi & Hb & _). unfold BinarySegmentPosition. by rewrite Hi, Hb, length_flat. Qed.

Lemma align_mask n : 0 <= n < 2 ^ 62 -> Z.land (n + 16 - 1) (u64 (Z.lnot (16 - 1))) = aligned16 n.
Proof.
  intros Hn. unfold aligned16. replace (n + 16 - 1) with (n + 15) by lia. set (x := n + 15).
  assert (E : Z.land x (u64 (Z.lnot (16 - 1))) = Z.ldiff x (Z.ones 4)).
  { apply Z.bits_inj'. intros j Hj. rewrite Z.land_spec, Z.ldiff_spec. unfold u64. destruct (Z.lt_ge_cases j 64).
    - rewrite Z.mod_pow2_bits_low, Z.lnot_spec by lia. done.
    - rewrite Z.mod_pow2_bits_high by lia. rewrite andb_false_r.
      assert (Z.testbit x j = false) as ->; [|done]. rewrite Z.bits_above_log2; [done|lia|]. apply Z.log2_lt_pow2; [lia|].
      pose proof (Z.pow_le_mono_r 2 64 j). lia. }
  rewrite E, Z.ldiff_ones_r by lia. rewrite Z.shiftl_mul_pow2, Z.shiftr_div_pow2 by lia. unfold x. change (2 ^ 4) with 16. lia.
Qed.

Lemma seg_align s index l : items_size l < 2 ^ 62 -> seg_is s index l -> seg_is (BinarySegmentAlign 16 s) index (padded l).
Proof.
  intros Hl Hs. pose proof (items_size_nonneg l). unfold BinarySegmentAlign. assert (Eb : zlen (sg_Bytes s) = items_size l) by (destruct Hs as (_ & -> & _); apply length_flat).
  rewrite Eb, align_mask by lia. pose proof (seg_write (replicate (Z.to_nat (aligned16 (items_size l) - items_size l)) 0xfe) s index l Hs) as Hw.
  unfold padded. unfold ibytes in Hw. change (map IByte ?x) with (IByte <$> x) in Hw. by rewrite fmap_replicate in Hw.
Qed.

(** ** Lemmas: fix-up *)

Section Fixup.
Context (segs : list BinarySegment) (addr : BinaryLocator -> Z) (base : Z).

Lemma patch_middle pre old post data : length data = length old -> patch (pre ++ old ++ post) (zlen pre) data = OK (pre ++ data ++ post).
Proof.
  intros Hl. unfold patch. rewrite (proj2 (Z.leb_le 0 _)) by lia. rewrite (proj2 (Z.leb_le _ _)) by (rewrite !length_app; lia). cbn [andb].
  rewrite Nat2Z.id, Hl, take_app_length. rewrite <- drop_drop, drop_app_length. by rewrite drop_app_length.
Qed.

Lemma fixup_loop l : forall pre,
  (forall t, IPtr t ∈ l -> exists s, segs !!z bl_SegIndex t = Some s /\ sg_GlobalOffset s + bl_Offset t = addr t) ->
  (forall t k, IPtr t ∈ l -> 0 <= k <= items_size l -> in_i32 (addr t - (base + zlen pre + k))) ->
  foldM (fixup_pointer base segs) (pre ++ flat l) (fixups_from (zlen pre) l) = OK (pre ++ render addr (base + zlen pre) l).
Proof.
  induction l as [|[b|t] l IH]; intros pre Ht Hd; cbn [fixups_from foldM].
  - done.
  - change (flat (IByte b :: l)) with ([b] ++ flat l). cbn [render]. pose proof (items_size_nonneg l) as Hn.
    change (items_size (IByte b :: l)) with (1 + items_size l) in Hd.
    replace (zlen pre + 1) with (zlen (pre ++ [b])) by (rewrite length_app; cbn; lia). rewrite app_assoc, IH.
    + rewrite <- app_assoc. cbn [app]. rewrite length_app. cbn [length]. do 4 f_equal. lia.
    + intros t Hin. apply Ht. set_solver.
    + intros t k Hin Hk. rewrite length_app. cbn [length]. replace (base + Z.of_nat (length pre + 1) + k) with (base + zlen pre + (k + 1)) by lia. apply Hd; [set_solver|lia].
  - change (flat (IPtr t :: l)) with (placeholder ++ flat l). cbn [render]. pose proof (items_size_nonneg l) as Hn.
    change (items_size (IPtr t :: l)) with (4 + items_size l) in Hd.
    destruct (Ht t ltac:(set_solver)) as (s & Hs & Ea). unfold fixup_pointer at 2. cbn [fx_Target fx_PointerOffset]. rewrite Hs. cbn [of_opt mbind res_bind].
    rewrite Ea. assert (Hfit : in_i32 (addr t - (base + zlen pre))).
    { specialize (Hd t 0 ltac:(set_solver) ltac:(lia)). by rewrite Z.add_0_r in Hd. }
    rewrite i32_small, Z.eqb_refl by done. cbn [negb]. rewrite patch_middle by (by rewrite length_le_bytes). cbn [mbind res_bind].
    set (data := le_bytes 4 _). assert (Hl : zlen data = 4) by (unfold data; by rewrite length_le_bytes).
    replace (zlen pre + 4) with (zlen (pre ++ data)) by (rewrite length_app; lia). rewrite app_assoc, IH.
    + rewrite <- app_assoc. rewrite length_app. do 4 f_equal. lia.
    + intros t' Hin. apply Ht. set_solver.
    + intros t' k Hin Hk. rewrite length_app. replace (base + Z.of_nat (length pre + length data) + k) with (base + zlen pre + (k + 4)) by lia. apply Hd; [set_solver|lia].
Qed.
End Fixup.

(** ** Lemmas: layout *)

Definition holds (s : BinarySegment) (l : list item) : Prop := sg_Bytes s = flat l /\ sg_Fixups s = fixups_from 0 l.

Lemma placed_ok w segs : forall off, Forall2 holds w segs -> Forall (fun l => items_size l < 2 ^ 62) segs ->
  Forall2 (fun s p => sg_GlobalOffset s = p.1 /\ holds s p.2) (place_segments off (map (BinarySegmentAlign 16) w)) (zip (bases off segs) (map padded segs)).
Proof.
  intros off HF. revert off. induction HF as [|s l w segs [Hb Hf] HF IH]; intros off Hs; cbn [map place_segments bases zip zip_with]; [constructor|].
  apply Forall_cons in Hs as [Hl Hs].
  destruct (seg_align s (sg_Index s) l Hl (conj eq_refl (conj Hb Hf))) as (_ & Eb & Ef). unfold BinarySegmentSize.
  constructor; [done|]. rewrite Eb, length_flat. by apply IH.
Qed.

Lemma length_bases off segs : length (bases off segs) = length segs.
Proof. revert off. induction segs as [|l segs IH]; intros off; cbn; [done|]. by rewrite IH. Qed.

Lemma length_render_all addr off segs : zlen (render_all addr off segs) = foldr (fun l n => items_size (padded l) + n) 0 segs.
Proof.
  revert off. induction segs as [|l segs IH]; intros off; cbn [render_all foldr]; [done|]. rewrite length_app, Nat2Z.inj_add, length_render, IH. done.
Qed.

(** A base and the end of its segment are inside the file. *)
Lemma bases_range segs : forall off i b l, bases off segs !! i = Some b -> segs !! i = Some l ->
  off <= b /\ b + items_size (padded l) <= off + foldr (fun l n => items_size (padded l) + n) 0 segs.
Proof.
  assert (Hn : forall segs, 0 <= foldr (fun l n => items_size (padded l) + n) 0 segs).
  { clear. induction segs as [|l segs IH]; cbn [foldr]; [done|]. pose proof (items_size_nonneg (padded l)). lia. }
  induction segs as [|x segs IH]; intros off i b l Hb Hl; [done|]. cbn [bases foldr] in *. pose proof (items_size_nonneg (padded x)). pose proof (Hn segs).
  destruct i as [|i]; cbn in Hb, Hl; simplify_eq; [lia|]. specialize (IH _ _ _ _ Hb Hl). lia.
Qed.

Lemma bases_mono segs : forall off i j b c l, (i < j)%nat -> bases off segs !! i = Some b -> segs !! i = Some l -> bases off segs !! j = Some c ->
  b + items_size (padded l) <= c.
Proof.
  induction segs as [|x segs IH]; intros off i j b c l Hij Hb Hl Hc; [done|]. cbn [bases] in *. destruct j as [|j]; [lia|]. cbn in Hc.
  destruct i as [|i]; cbn in Hb, Hl; simplify_eq.
  - assert (exists m, segs !! j = Some m) as [m Hm]. { apply lookup_lt_is_Some. apply lookup_lt_Some in Hc. by rewrite length_bases in Hc. }
    by apply (bases_range segs _ j c m).
  - apply (IH (off + items_size (padded x)) i j b c l); try done. lia.
Qed.

(** Every segment is in the file at its base. *)
Lemma render_all_has addr segs : forall pre off i b l, zlen pre = off -> bases off segs !! i = Some b -> segs !! i = Some l ->
  has (pre ++ render_all addr off segs) b (render addr b (padded l)).
Proof.
  induction segs as [|x segs IH]; intros pre off i b l Hp Hb Hl; [done|]. cbn [bases render_all] in *. destruct i as [|i]; cbn in Hb, Hl; simplify_eq.
  - by exists pre, (render_all addr (zlen pre + items_size (padded l)) segs).
  - rewrite app_assoc. apply (IH _ _ i); try done. rewrite length_app, Nat2Z.inj_add, length_render. done.
Qed.

Lemma file_has segs i b l : bases 0 segs !! i = Some b -> segs !! i = Some l -> has (file_of segs) b (render (address segs) b l).
Proof.
  intros Hb Hl. pose proof (render_all_has (address segs) segs [] 0 i b l eq_refl Hb Hl) as H. cbn [app] in H. fold (file_of segs) in H.
  unfold padded in H. rewrite render_app in H. by apply has_app in H as [H _].
Qed.

Lemma padded_size l : items_size l <= items_size (padded l) /\ items_size (padded l) mod 16 = 0.
Proof.
  unfold padded. rewrite items_size_app. assert (E : forall n, items_size (replicate n (IByte 254)) = Z.of_nat n).
  { induction n as [|n IH]; [done|]. cbn [replicate]. change (items_size (IByte 254 :: ?x)) with (1 + items_size x). lia. }
  rewrite E. pose proof (items_size_nonneg l). unfold aligned16. pose proof (Z.div_mod (items_size l + 15) 16 ltac:(lia)).
  pose proof (Z.mod_pos_bound (items_size l + 15) 16 ltac:(lia)). split; [lia|].
  rewrite Z2Nat.id by lia. replace (items_size l + _) with (((items_size l + 15) / 16) * 16) by lia. apply Z.mod_mul. lia.
Qed.

Lemma seg_size_small segs l : targets_ok segs -> l ∈ segs -> items_size (padded l) <= 2 ^ 30.
Proof.
  intros [_ Hsz] [i Hi]%list_elem_of_lookup. unfold file_of in Hsz. rewrite length_render_all in Hsz.
  destruct (lookup_lt_is_Some_2 (bases 0 segs) i) as [b Hb]; [rewrite length_bases; by eapply lookup_lt_Some|].
  pose proof (bases_range segs 0 i b l Hb Hi). lia.
Qed.

Lemma padded_ptr l t : IPtr t ∈ padded l -> IPtr t ∈ l.
Proof. unfold padded. rewrite elem_of_app. intros [?|[? _]%elem_of_replicate]; done. Qed.

(** What a flush writes is what the items mean. *)
Lemma flush_ok w segs : Forall2 holds w segs -> targets_ok segs -> BinaryWriterFlush w = OK (file_of segs).
Proof.
  intros HF HT. pose proof HT as [Htar Hsz]. unfold BinaryWriterFlush, BinaryWriterFinalize.
  assert (Hsmall : Forall (fun l => items_size l < 2 ^ 62) segs).
  { apply Forall_forall. intros l Hl. pose proof (seg_size_small segs l HT Hl). pose proof (padded_size l). lia. }
  pose proof (placed_ok w segs 0 HF Hsmall) as HP. set (placed := place_segments 0 _) in *. set (spec := zip _ _) in *.
  assert (Hsp : forall i p, spec !! i = Some p -> exists l, bases 0 segs !! i = Some p.1 /\ segs !! i = Some l /\ p.2 = padded l).
  { intros i [b pl] H. unfold spec in H. apply lookup_zip_Some in H as [H1 H2]. change (map padded segs) with (padded <$> segs) in H2.
    rewrite list_lookup_fmap in H2. destruct (segs !! i) as [l|] eqn:E; [|done]. cbn in H2. simplify_eq. eauto. }
  assert (Htarget : forall t, 0 <= bl_SegIndex t < zlen segs -> exists s b, placed !!z bl_SegIndex t = Some s /\
    bases 0 segs !!z bl_SegIndex t = Some b /\ sg_GlobalOffset s = b).
  { intros t Hidx. assert (Hz : bl_SegIndex t = Z.of_nat (Z.to_nat (bl_SegIndex t))) by lia.
    assert (exists p, spec !! Z.to_nat (bl_SegIndex t) = Some p) as [p Hp].
    { apply lookup_lt_is_Some. unfold spec. rewrite length_zip_with, length_bases, length_map. lia. }
    destruct (Forall2_lookup_r _ _ _ _ _ HP Hp) as (s & Hs & Ho & _). destruct (Hsp _ _ Hp) as (l & Hb' & _). exists s, p.1.
    rewrite Hz, !zlookup_nat. done. }
  rewrite (foldM_zip _ (fun s p => mkSegment (sg_Index s) (sg_GlobalOffset s) (render (address segs) p.1 p.2) (sg_Fixups s)) placed spec).
  - cbn [mbind res_bind app]. f_equal. unfold file_of. clear Htarget Hsp.
    assert (Hb : forall off, Forall2 (fun s p => sg_GlobalOffset s = p.1 /\ holds s p.2) placed (zip (bases off segs) (map padded segs)) ->
      concat (map sg_Bytes (zip_with (fun s p => mkSegment (sg_Index s) (sg_GlobalOffset s) (render (address segs) p.1 p.2) (sg_Fixups s)) placed
        (zip (bases off segs) (map padded segs)))) = render_all (address segs) off segs).
    { generalize (address segs) as addr. intros addr. clearbody placed. clear. revert placed. induction segs as [|l segs IH]; intros placed off HF.
      - cbn in HF. by inversion HF.
      - cbn [bases map zip zip_with] in HF. apply Forall2_cons_inv_r in HF as (s & placed' & _ & HF & ->). cbn. f_equal. by apply IH. }
    by apply Hb.
  - apply Forall2_same_length_lookup. split; [by eapply Forall2_length|]. intros i s p Hs Hp.
    pose proof (Forall2_lookup_lr _ _ _ _ _ _ HP Hs Hp) as (Ho & Hbytes & Hfix). destruct (Hsp i p Hp) as (l & Hb & Hl & E2).
    unfold BinarySegmentFixupPointers. rewrite Hbytes, Hfix, Ho.
    pose proof (fixup_loop placed (address segs) p.1 p.2 []) as Hfl. cbn [app length] in Hfl. rewrite Z.add_0_r in Hfl.
    change (Z.of_nat 0) with 0 in Hfl. rewrite Hfl; [done|..].
    + intros t Hin. rewrite E2 in Hin. apply padded_ptr in Hin. destruct (Htar l t) as [Hidx _]; [by eapply list_elem_of_lookup_2|done|].
      destruct (Htarget t Hidx) as (s' & b' & Hs' & Hb' & Ho'). exists s'. split; [done|]. unfold address. by rewrite Hb', Ho'.
    + intros t k Hin Hk. rewrite E2 in Hin, Hk. apply padded_ptr in Hin. assert (Hlin : l ∈ segs) by (by eapply list_elem_of_lookup_2).
      destruct (Htar l t Hlin Hin) as [Hidx Hoff]. destruct (Htarget t Hidx) as (s' & b' & _ & Hb' & _). unfold address. rewrite Hb'. cbn [default].
      assert (Hz : bl_SegIndex t = Z.of_nat (Z.to_nat (bl_SegIndex t))) by lia. rewrite Hz, zlookup_nat in Hb'.
      destruct (lookup_lt_is_Some_2 segs (Z.to_nat (bl_SegIndex t))) as [l' Hl']; [lia|]. pose proof (items_size_nonneg (padded l')).
      pose proof (bases_range segs 0 _ _ _ Hb' Hl') as R1. pose proof (bases_range segs 0 _ _ _ Hb Hl) as R2.
      unfold file_of in Hsz. rewrite length_render_all in Hsz. unfold in_i32. cbn. lia.
Qed.

(** ** Sequences of writes *)

Inductive wop : Type := WBytes (seg : nat) (data : list Z) | WPointer (seg : nat) (target : BinaryLocator).

Definition do_op (w : BinaryWriter) (op : wop) : BinaryWriter :=
  match op with
  | WBytes i data => alter (BinarySegmentWrite data) i w
  | WPointer i t => alter (BinarySegmentWritePointer t) i w
  end.

Definition spec_op (segs : list (list item)) (op : wop) : list (list item) :=
  match op with
  | WBytes i data => alter (fun l => l ++ ibytes data) i segs
  | WPointer i t => alter (fun l => l ++ [IPtr t]) i segs
  end.

(** A writer with [n] empty segments. *)
Definition new_writer (n : nat) : BinaryWriter := Nat.iter n BinaryWriterAddSegment [].

Definition writer_is (w : BinaryWriter) (segs : list (list item)) : Prop :=
  length w = length segs /\ forall i s l, w !! i = Some s -> segs !! i = Some l -> seg_is s (Z.of_nat i) l.

Lemma new_writer_is n : writer_is (new_writer n) (replicate n []).
Proof.
  unfold new_writer. induction n as [|n [Hl Hs]]; [split; [done|]; intros i s l H; done|]. cbn [Nat.iter nat_rect].
  set (w := Nat.iter n BinaryWriterAddSegment []) in *. change (nat_rect _ _ _ n) with w. unfold BinaryWriterAddSegment.
  rewrite length_replicate in Hl. split; [rewrite length_app, length_replicate; cbn; lia|].
  intros i s l Hi Hr. apply lookup_replicate in Hr as [-> Hr]. apply lookup_app_Some in Hi as [Hi|[Hle Hi]].
  - apply (Hs i); [done|]. apply lookup_replicate. split; [done|]. apply lookup_lt_Some in Hi. lia.
  - apply list_lookup_singleton_Some in Hi as [Hi <-]. assert (i = length w) as -> by lia. apply seg_init.
Qed.

Lemma alter_is f g w segs i : (forall s n l, seg_is s n l -> seg_is (f s) n (g l)) -> writer_is w segs -> writer_is (alter f i w) (alter g i segs).
Proof.
  intros Hfg [Hl Hs]. split; [by rewrite !length_alter|]. intros j s l Hj Hk. destruct (decide (i = j)) as [->|Hne].
  - rewrite list_lookup_alter_eq in Hj. rewrite (list_lookup_alter_eq g segs j) in Hk. destruct (w !! j) as [s0|] eqn:E1; [|done]. destruct (segs !! j) as [l0|] eqn:E2; [|done].
    cbn in Hj, Hk. simplify_eq. apply Hfg. by apply Hs.
  - rewrite list_lookup_alter_ne in Hj by done. rewrite (list_lookup_alter_ne g segs i j) in Hk by done. by apply Hs.
Qed.

Lemma do_op_is w segs op : writer_is w segs -> writer_is (do_op w op) (spec_op segs op).
Proof. destruct op; apply alter_is; intros; [by apply seg_write|by apply seg_write_pointer]. Qed.

Lemma do_ops_is ops : forall w segs, writer_is w segs -> writer_is (foldl do_op w ops) (foldl spec_op segs ops).
Proof. induction ops as [|op ops IH]; intros w segs H; cbn [foldl]; [done|]. by apply IH, do_op_is. Qed.

Lemma writer_holds w segs : writer_is w segs -> Forall2 holds w segs.
Proof. intros [Hl Hs]. apply Forall2_same_length_lookup. split; [done|]. intros i s l Hi Hj. by destruct (Hs i s l Hi Hj) as (_ & ? & ?). Qed.

Lemma item_has segs i l a x c : segs !! i = Some l -> l = a ++ x :: c ->
  has (file_of segs) (address segs (mkLoc (Z.of_nat i) (items_size a))) (render (address segs) (address segs (mkLoc (Z.of_nat i) (items_size a))) [x]).
Proof.
  intros Hl ->. destruct (lookup_lt_is_Some_2 (bases 0 segs) i) as [b Hb]; [rewrite length_bases; by eapply lookup_lt_Some|].
  pose proof (file_has segs i b _ Hb Hl) as H. rewrite render_app in H. apply has_app in H as [_ H]. rewrite length_render in H.
  unfold address at 1 3. cbn [bl_SegIndex bl_Offset]. rewrite zlookup_nat, Hb. cbn [default].
  change (x :: c) with ([x] ++ c) in H. rewrite render_app in H. by apply has_app in H as [H _].
Qed.

(** Frozen pointers lead where they were aimed. For any sequence of writes
    of bytes and of pointers to [n] segments, in which pointers aim at offsets
    of those segments and the whole stays below a gigabyte, flushing succeeds;
    the file is a whole number of 16-byte units; every byte is found at the
    place of its segment and offset; and [FrozenPtr::Get] on every pointer
    gives the place it was aimed at (a pointer to itself would read as null). *)
Theorem frozen_pointers_resolve n ops : let segs := foldl spec_op (replicate n []) ops in
  targets_ok segs ->
  exists file, BinaryWriterFlush (foldl do_op (new_writer n) ops) = OK file /\ zlen file mod 16 = 0 /\
  forall i l a x c, segs !! i = Some l -> l = a ++ x :: c ->
    let place := address segs (mkLoc (Z.of_nat i) (items_size a)) in
    match x with
    | IByte b => file !!z place = Some b
    | IPtr t => FrozenPtr_Get file place = Some (if address segs t =? place then None else Some (address segs t))
    end.
Proof.
  intros segs HT. pose proof (do_ops_is ops _ _ (new_writer_is n)) as Hw. fold segs in Hw. exists (file_of segs).
  split; [by apply flush_ok; [apply writer_holds|]|]. split.
  - unfold file_of. rewrite length_render_all. clear. induction segs as [|l segs IH]; cbn [foldr]; [done|].
    rewrite Z.add_mod by lia. destruct (padded_size l) as [_ ->]. by rewrite IH.
  - intros i l a x c Hl E place. pose proof (item_has segs i l a x c Hl E) as H. fold place in H. destruct x as [b|t].
    + by apply has_lookup.
    + cbn [render] in H. rewrite app_nil_r in H. unfold FrozenPtr_Get.
      assert (Hfit : in_i32 (address segs t - place)).
      { destruct HT as [Htar Hsz]. destruct (Htar l t) as [Hidx Hoff]; [by eapply list_elem_of_lookup_2|rewrite E; set_solver|].
        pose proof (has_range _ _ _ H) as Hr. rewrite length_le_bytes in Hr. unfold address in *.
        assert (Hz : bl_SegIndex t = Z.of_nat (Z.to_nat (bl_SegIndex t))) by lia. rewrite Hz, zlookup_nat.
        destruct (lookup_lt_is_Some_2 segs (Z.to_nat (bl_SegIndex t))) as [l' Hl']; [lia|].
        destruct (lookup_lt_is_Some_2 (bases 0 segs) (Z.to_nat (bl_SegIndex t))) as [b Hb]; [rewrite length_bases; lia|]. rewrite Hb. cbn [default].
        pose proof (bases_range segs 0 _ _ _ Hb Hl'). pose proof (items_size_nonneg (padded l')). unfold file_of in Hsz, Hr. rewrite length_render_all in Hsz, Hr.
        unfold in_i32. change (id b) with b. lia. }
      rewrite (read_i32_has _ _ _ Hfit H). f_equal. destruct (Z.eqb_spec (address segs t - place) 0), (Z.eqb_spec (address segs t) place); try lia; [done|].
      f_equal. lia.
Qed.

Definition demo_ops : list wop :=
  [WBytes 0 [1; 2; 3; 4]; WPointer 0 (mkLoc 1 2); WBytes 1 [104; 105; 33; 0]; WPointer 1 (mkLoc 0 0); WPointer 1 (mkLoc 1 8)].

Lemma frozen_pointers_resolve_witness : let segs := foldl spec_op (replicate 2 []) demo_ops in
  exists file, BinaryWriterFlush (foldl do_op (new_writer 2) demo_ops) = OK file /\ zlen file mod 16 = 0 /\
  forall i l a x c, segs !! i = Some l -> l = a ++ x :: c ->
    let place := address segs (mkLoc (Z.of_nat i) (items_size a)) in
    match x with
    | IByte b => file !!z place = Some b
    | IPtr t => FrozenPtr_Get file place = Some (if address segs t =? place then None else Some (address segs t))
    end.
Proof.
  apply (frozen_pointers_resolve 2 demo_ops). split; [|vm_compute; discriminate].
  intros l t Hl Ht. assert (Hall : Forall (Forall (fun x => match x with IPtr t => 0 <= bl_SegIndex t < 2 /\ 0 <= bl_Offset t < 2 ^ 30 | _ => True end))
    (foldl spec_op (replicate 2 []) demo_ops)) by (cbn; repeat constructor; cbn; lia).
  rewrite Forall_forall in Hall. specialize (Hall l Hl). rewrite Forall_forall in Hall. exact (Hall _ Ht).
Defined.
