(* ===== verification/FrozenFile.v ===== *)
(** * Frozen files

    What the readers of memory mapped files do (src/src/BinaryData.hpp): integers,
    digests, strings, pointers and arrays at an offset, and that they find what
    the binary writer put there. *)

From S2P Require Import Prelude CommonFns Hash HashImpl DagData BinaryWriter.

(** The 16 bytes of a [HashDigest]. *)
Definition digest_bytes (d : HashDigest) : list Z := le_bytes 8 (Fast.m_Words64_0 d) ++ le_bytes 8 (Fast.m_Words64_1 d).

(** ** Reading *)

Definition read_u64 (file : list Z) (off : Z) : option Z :=
  match read_u32 file off, read_u32 file (off + 4) with Some lo, Some hi => Some (lo + 2 ^ 32 * hi) | _, _ => None end.

Definition read_digest (file : list Z) (off : Z) : option HashDigest :=
  match read_u64 file off, read_u64 file (off + 8) with Some a, Some b => Some (mkDigest a b) | _, _ => None end.

(** A terminated string. *)
Fixpoint read_string_from (bytes : list Z) : option cstr :=
  match bytes with
  | [] => None
  | b :: bytes' => if b =? 0 then Some [] else match read_string_from bytes' with Some s => Some (ascii_of_N (Z.to_N b) :: s) | None => None end
  end.

Definition read_string (file : list Z) (off : Z) : option cstr := read_string_from (drop (Z.to_nat off) file).

(** The target of a pointer that is not null. *)
Definition deref (file : list Z) (addr : Z) : option Z := match FrozenPtr_Get file addr with Some (Some t) => Some t | _ => None end.

(** [n] elements of size [size] from [off]. *)
Fixpoint read_array {A} (read : Z -> option A) (size : Z) (n : nat) (off : Z) : option (list A) :=
  match n with
  | O => Some []
  | S n => match read off, read_array read size n (off + size) with Some x, Some l => Some (x :: l) | _, _ => None end
  end.

(** ** Reading what was written *)

Lemma u64_small z : 0 <= z < 2 ^ 64 -> u64 z = z.
Proof. intros. by apply Z.mod_small. Qed.

Lemma read_u64_has file off v : 0 <= v < 2 ^ 64 -> has file off (le_bytes 8 v) -> read_u64 file off = Some v.
Proof.
  intros Hv H. change 8%nat with (4 + 4)%nat in H. rewrite le_bytes_app in H. apply has_app in H as [H1 H2]. rewrite length_le_bytes in H2.
  change (256 ^ Z.of_nat 4) with (2 ^ 32) in H2. change (Z.of_nat 4) with 4 in H2. unfold read_u64.
  rewrite <- (le_bytes_mod 4 v) in H1. change (256 ^ Z.of_nat 4) with (2 ^ 32) in H1.
  rewrite (read_u32_has _ _ _ (Z.mod_pos_bound v (2 ^ 32) ltac:(lia)) H1).
  rewrite (read_u32_has _ _ (v / 2 ^ 32)); [|unfold in_u32; split; [apply Z.div_pos; lia|apply Z.div_lt_upper_bound; lia]|done].
  f_equal. pose proof (Z.div_mod v (2 ^ 32) ltac:(lia)). lia.
Qed.

Lemma length_digest_bytes d : length (digest_bytes d) = 16%nat.
Proof. unfold digest_bytes. by rewrite length_app, !length_le_bytes. Qed.

Lemma read_digest_has file off d : Fast.digest_ok d -> has file off (digest_bytes d) -> read_digest file off = Some d.
Proof.
  intros [H0 H1] H. unfold digest_bytes in H. apply has_app in H as [Ha Hb]. rewrite length_le_bytes in Hb. change (Z.of_nat 8) with 8 in Hb.
  unfold read_digest. rewrite (read_u64_has _ _ _ H0 Ha), (read_u64_has _ _ _ H1 Hb). by destruct d.
Qed.

Lemma read_string_from_ok s rest : cstr_ok s -> read_string_from (map uchar s ++ [0] ++ rest) = Some s.
Proof.
  induction 1 as [|c s Hc Hs IH]; [done|]. cbn [map app read_string_from]. pose proof (uchar_pos c Hc). rewrite (proj2 (Z.eqb_neq _ _)) by lia.
  change ((0 :: rest)) with ([0] ++ rest). rewrite IH. do 2 f_equal. unfold uchar. rewrite N2Z.id. apply ascii_N_embedding.
Qed.

Lemma string_bytes_ok s : cstr_ok s -> string_bytes s = map uchar s ++ [0].
Proof. intros Hs. unfold string_bytes. rewrite strlen_ok by done. by rewrite Nat2Z.id, firstn_all. Qed.

Lemma read_string_has file off s : cstr_ok s -> has file off (string_bytes s) -> read_string file off = Some s.
Proof.
  intros Hs (pre & post & -> & <-). unfold read_string. rewrite Nat2Z.id, drop_app_length, string_bytes_ok by done.
  rewrite <- app_assoc. by apply read_string_from_ok.
Qed.

Lemma deref_has file pos t : in_i32 (t - pos) -> t <> pos -> has file pos (le_bytes 4 (u32 (t - pos))) -> deref file pos = Some t.
Proof.
  intros Hi Hne H. unfold deref, FrozenPtr_Get. rewrite (read_i32_has _ _ _ Hi H). rewrite (proj2 (Z.eqb_neq _ _)) by lia. f_equal. lia.
Qed.

(** ** Items in a file *)

Section Items.
Context (file : list Z) (addr : BinaryLocator -> Z).

Definition has_items (pos : Z) (l : list item) : Prop := has file pos (render addr pos l).

Lemma has_items_app pos a b : has_items pos (a ++ b) <-> has_items pos a /\ has_items (pos + items_size a) b.
Proof. unfold has_items. by rewrite render_app, has_app, length_render. Qed.

Lemma has_items_bytes pos l : has_items pos (ibytes l) <-> has file pos l.
Proof. unfold has_items. by rewrite render_ibytes. Qed.

Lemma has_items_ptr pos t : has_items pos [IPtr t] -> has file pos (le_bytes 4 (u32 (addr t - pos))).
Proof. unfold has_items. cbn [render]. by rewrite app_nil_r. Qed.

Lemma deref_forward pos t : has_items pos [IPtr t] -> pos < addr t <= 2 ^ 30 -> deref file pos = Some (addr t).
Proof.
  intros H Ht. apply has_items_ptr in H. pose proof (has_range _ _ _ H). apply deref_has; [unfold in_i32; lia|lia|done].
Qed.
End Items.

Lemma ibytes_no_ptr l t : IPtr t ∉ ibytes l.
Proof. unfold ibytes. intros (x & [=] & _)%list_elem_of_fmap. Qed.

(** ** Where the segments are *)

Section Layout.
Context (segs : list (list item)).

Definition seg_base (i : nat) : Z := default 0 (bases 0 segs !! i).

Lemma seg_base_is i : (i < length segs)%nat -> bases 0 segs !! i = Some (seg_base i).
Proof. intros Hi. unfold seg_base. destruct (lookup_lt_is_Some_2 (bases 0 segs) i) as [b ->]; [by rewrite length_bases|done]. Qed.

Lemma seg_address i o : (i < length segs)%nat -> address segs (mkLoc (Z.of_nat i) o) = seg_base i + o.
Proof. intros Hi. unfold address. cbn [bl_SegIndex bl_Offset]. by rewrite zlookup_nat, seg_base_is. Qed.

Lemma seg_has i l : segs !! i = Some l -> has_items (file_of segs) (address segs) (seg_base i) l.
Proof. intros Hl. apply (file_has _ i); [|done]. apply seg_base_is. by apply lookup_lt_Some in Hl. Qed.

End Layout.
