(* ===== verification/DigestCache.v ===== *)
(** * The digest cache

    DigestCache.hpp, DigestCache.cpp: the digest of the contents of a file, by
    its name, valid for one time stamp of the file. The cache is a hash table;
    between builds it is a file of fixed-size records with pointers to the
    names. *)

From stdpp Require Import gmap.
From S2P Require Import Prelude CommonFns Hash HashImpl DagData HashTable BinaryWriter FrozenFile.

Record DigestCacheRecord : Type := mkDigestRecord { dg_ContentDigest : HashDigest; dg_Timestamp : Z; dg_AccessTime : Z }.

Definition no_record : DigestCacheRecord := mkDigestRecord (mkDigest 0 0) 0 0.

Record DigestCache : Type := mkDigestCache { dc_Table : HashTable DigestCacheRecord; dc_AccessTime : Z }.

(** [struct FrozenDigestRecord], the padding left out. *)
Record FrozenDigestRecord : Type := mkFrozenDigest {
  fdr_Timestamp : Z; fdr_AccessTime : Z; fdr_FilenameHash : Z; fdr_ContentDigest : HashDigest; fdr_Filename : cstr }.

Definition DigestMagicNumber : Z := Z.lxor 0x12781fa6 0x7810221e.

(** [now] is [time(nullptr)] at the call. *)
Definition DigestCacheInit (now : Z) : DigestCache := mkDigestCache HashTableInit now.

(** *** The file *)

Definition read_digest_record (file : list Z) (off : Z) : option FrozenDigestRecord :=
  match read_u64 file off, read_u64 file (off + 8), read_u32 file (off + 16), read_digest file (off + 20), deref file (off + 36) with
  | Some ts, Some access, Some hash, Some d, Some p =>
      match read_string file p with Some s => Some (mkFrozenDigest ts access hash d s) | None => None end
  | _, _, _, _, _ => None
  end.

Definition read_digest_records (file : list Z) : option (list FrozenDigestRecord) :=
  match read_i32 file 4 with
  | Some count =>
      if count =? 0 then Some [] else
      match deref file 8 with
      | Some p => read_array (read_digest_record file) 48 (Z.to_nat count) p
      | None => None
      end
  | None => None
  end.

(** One iteration of the loop of [DigestCacheOpen]. *)
Definition open_record (cutoff_time : Z) (table : HashTable DigestCacheRecord) (record : FrozenDigestRecord) : res (HashTable DigestCacheRecord) :=
  if fdr_AccessTime record <? cutoff_time then OK table
  else HashTableInsert no_record table (fdr_FilenameHash record) (fdr_Filename record)
         (mkDigestRecord (fdr_ContentDigest record) (fdr_Timestamp record) (fdr_AccessTime record)).

Definition week : Z := 7 * 24 * 60 * 60.

(** [file] is the mapping, when there is one. *)
Definition DigestCacheOpen (time_now : Z) (self : DigestCache) (file : option (list Z)) : res DigestCache :=
  match file with
  | None => OK self
  | Some file =>
      magic ← of_opt (read_u32 file 0);
      if magic =? DigestMagicNumber then
        let cutoff_time := u64 (time_now - week) in
        records ← of_opt (read_digest_records file);
        table ← foldM (open_record cutoff_time) (dc_Table self) records;
        OK (mkDigestCache table (dc_AccessTime self))
      else OK self
  end.

(** [save_record]: the array and the string segment. *)
Definition save_record (segs : BinarySegment * BinarySegment) (s : slot DigestCacheRecord) : BinarySegment * BinarySegment :=
  let '(array_seg, string_seg) := segs in
  let r := sl_Payload s in
  let array_seg := BinarySegmentWriteUint64 (dg_Timestamp r) array_seg in
  let array_seg := BinarySegmentWriteUint64 (dg_AccessTime r) array_seg in
  let array_seg := BinarySegmentWriteUint32 (sl_Hash s) array_seg in
  let array_seg := BinarySegmentWrite (digest_bytes (dg_ContentDigest r)) array_seg in
  let array_seg := BinarySegmentWritePointer (BinarySegmentPosition string_seg) array_seg in
  let string_seg := BinarySegmentWriteStringData (sl_String s) string_seg in
  let array_seg := BinarySegmentWriteUint32 0 array_seg in
  let array_seg := BinarySegmentWriteUint32 0 array_seg in
  (array_seg, string_seg).

(** The bytes of the file that replaces the old one. *)
Definition DigestCacheSave (self : DigestCache) : res (list Z) :=
  let main_seg := BinarySegmentInit 0 in
  let array_seg := BinarySegmentInit 1 in
  let string_seg := BinarySegmentInit 2 in
  let array_ptr := BinarySegmentPosition array_seg in
  slots ← HashTableWalk (dc_Table self);
  let '(array_seg, string_seg) := foldl save_record (array_seg, string_seg) slots in
  let main_seg := BinarySegmentWriteUint32 DigestMagicNumber main_seg in
  let main_seg := BinarySegmentWriteInt32 (ht_RecordCount (dc_Table self)) main_seg in
  let main_seg := BinarySegmentWritePointer array_ptr main_seg in
  BinaryWriterFlush [main_seg; array_seg; string_seg].

(** *** Lookups *)

Section Ops.
Context (ci : bool).

Definition DigestCacheGet (self : DigestCache) (filename : cstr) (hash timestamp : Z) : res (DigestCache * option HashDigest) :=
  r ← HashTableLookup ci (dc_Table self) hash filename;
  match r with
  | Some r =>
      if dg_Timestamp r =? timestamp then
        '(table, _) ← HashTableUpdate ci (dc_Table self) hash filename
                        (fun r => mkDigestRecord (dg_ContentDigest r) (dg_Timestamp r) (dc_AccessTime self));
        OK (mkDigestCache table (dc_AccessTime self), Some (dg_ContentDigest r))
      else OK (self, None)
  | None => OK (self, None)
  end.

Definition DigestCacheSet (self : DigestCache) (filename : cstr) (hash timestamp : Z) (digest : HashDigest) : res DigestCache :=
  let record := mkDigestRecord digest timestamp (dc_AccessTime self) in
  '(table, r) ← HashTableUpdate ci (dc_Table self) hash filename (fun _ => record);
  match r with
  | Some _ => OK (mkDigestCache table (dc_AccessTime self))
  | None =>
      table ← HashTableInsert no_record (dc_Table self) hash filename record;
      OK (mkDigestCache table (dc_AccessTime self))
  end.

(** ** The cache as a map *)

Definition digests (c : DigestCache) : gmap (Z * cstr) DigestCacheRecord := table_map ci (dc_Table c).

Record digest_ok (c : DigestCache) : Prop := {
  dk_table : ht_ok (dc_Table c);
  dk_keyed : keyed ci (dc_Table c) }.

Lemma digest_get_ok c f ts : digest_ok c -> cstr_ok f ->
  let k := (Djb2HashPath ci f, canon ci f) in
  exists c', DigestCacheGet c f (Djb2HashPath ci f) ts =
    OK (c', match digests c !! k with Some r => if dg_Timestamp r =? ts then Some (dg_ContentDigest r) else None | None => None end) /\
  digest_ok c' /\ ht_RecordCount (dc_Table c') = ht_RecordCount (dc_Table c) /\
  forall k', (fun r => (dg_ContentDigest r, dg_Timestamp r)) <$> digests c' !! k' = (fun r => (dg_ContentDigest r, dg_Timestamp r)) <$> digests c !! k'.
Proof.
  intros [Hok Hk] Hf k. unfold DigestCacheGet. rewrite lookup_refines by done. cbn [mbind res_bind]. fold (digests c) k.
  destruct (digests c !! k) as [r|] eqn:E; [|by exists c]. destruct (dg_Timestamp r =? ts); [|by exists c].
  destruct (update_refines ci (dc_Table c) (Djb2HashPath ci f) f (fun r => mkDigestRecord (dg_ContentDigest r) (dg_Timestamp r) (dc_AccessTime c)) Hok Hk Hf)
    as (t & -> & Hok' & Hk' & Hc & Em). cbn [mbind res_bind]. eexists. split; [done|]. split_and!; [done|done|].
  intros k'. unfold digests. cbn [dc_Table]. rewrite Em. fold k. destruct (decide (k' = k)) as [->|Hne].
  - rewrite lookup_alter_eq. by destruct (table_map ci (dc_Table c) !! k).
  - by rewrite lookup_alter_ne.
Qed.

Lemma digest_set_ok c f ts d : digest_ok c -> cstr_ok f -> ht_RecordCount (dc_Table c) < 2 ^ 27 ->
  exists c', DigestCacheSet c f (Djb2HashPath ci f) ts d = OK c' /\ digest_ok c' /\
  digests c' = <[(Djb2HashPath ci f, canon ci f) := mkDigestRecord d ts (dc_AccessTime c)]> (digests c) /\
  ht_RecordCount (dc_Table c') <= ht_RecordCount (dc_Table c) + 1.
Proof.
  intros [Hok Hk] Hf Hn. unfold DigestCacheSet. set (rec := mkDigestRecord d ts (dc_AccessTime c)).
  destruct (update_refines ci (dc_Table c) (Djb2HashPath ci f) f (fun _ => rec) Hok Hk Hf) as (t & -> & Hok' & Hk' & Hc & Em). cbn [mbind res_bind].
  set (k := (Djb2HashPath ci f, canon ci f)) in *. destruct (table_map ci (dc_Table c) !! k) as [r|] eqn:E.
  - eexists. split; [done|]. split_and!; [done| |cbn; lia]. unfold digests. cbn [dc_Table]. rewrite Em. apply map_eq. intros k'.
    destruct (decide (k' = k)) as [->|Hne]; [by rewrite lookup_alter_eq, lookup_insert_eq, E|by rewrite lookup_alter_ne, lookup_insert_ne].
  - destruct (insert_refines no_record ci (dc_Table c) (Djb2HashPath ci f) f rec Hok Hk Hf (Djb2HashPath_range ci f) Hn E) as (t' & -> & Hok2 & Hk2 & Em2 & HP).
    cbn [mbind res_bind]. eexists. split; [done|]. split_and!; [done|done|]. cbn [dc_Table]. rewrite (count_entries t'), HP by done.
    cbn [length]. rewrite (count_entries (dc_Table c)) by done. lia.
Qed.

End Ops.

(** ** The file round trip *)

Section File.
Context (ci : bool).

Abbreviation dslot := (slot DigestCacheRecord).

Definition rec_item (soff : Z) (s : dslot) : list item :=
  let r := sl_Payload s in
  ibytes (le_bytes 8 (u64 (dg_Timestamp r)) ++ le_bytes 8 (u64 (dg_AccessTime r)) ++ le_bytes 4 (u32 (sl_Hash s)) ++ digest_bytes (dg_ContentDigest r)) ++
  IPtr (mkLoc 2 soff) :: ibytes (le_bytes 4 (u32 0) ++ le_bytes 4 (u32 0)).

Fixpoint rec_items (soff : Z) (l : list dslot) : list item :=
  match l with
  | [] => []
  | s :: l' => rec_item soff s ++ rec_items (soff + zlen (string_bytes (sl_String s))) l'
  end.

Definition name_bytes (l : list dslot) : list Z := concat (map (fun s => string_bytes (sl_String s)) l).

Definition digest_main (n : Z) : list item :=
  ibytes (le_bytes 4 (u32 DigestMagicNumber) ++ le_bytes 4 (u32 n)) ++ [IPtr (mkLoc 1 0)].

Definition digest_segs (l : list dslot) : list (list item) := [digest_main (zlen l); rec_items 0 l; ibytes (name_bytes l)].

(** What the file holds of a slot. *)
Definition frozen_of (s : dslot) : FrozenDigestRecord :=
  mkFrozenDigest (dg_Timestamp (sl_Payload s)) (dg_AccessTime (sl_Payload s)) (sl_Hash s) (dg_ContentDigest (sl_Payload s)) (sl_String s).

Record slot_ok (s : dslot) : Prop := {
  dl_time : 0 <= dg_Timestamp (sl_Payload s) < 2 ^ 64;
  dl_access : 0 <= dg_AccessTime (sl_Payload s) < 2 ^ 64;
  dl_hash : 0 < sl_Hash s < 2 ^ 32;
  dl_digest : Fast.digest_ok (dg_ContentDigest (sl_Payload s));
  dl_name : cstr_ok (sl_String s) }.

Lemma rec_item_size soff s : items_size (rec_item soff s) = 48.
Proof. unfold rec_item. rewrite items_size_app, ibytes_size, !length_app, !length_le_bytes, length_digest_bytes. reflexivity. Qed.

Lemma rec_items_size l : forall soff, items_size (rec_items soff l) = 48 * zlen l.
Proof. induction l as [|s l IH]; intros soff; [done|]. cbn [rec_items]. rewrite items_size_app, rec_item_size, IH, length_cons. lia. Qed.

Lemma name_bytes_snoc l s : name_bytes (l ++ [s]) = name_bytes l ++ string_bytes (sl_String s).
Proof. unfold name_bytes. rewrite map_app, concat_app. cbn. by rewrite app_nil_r. Qed.

Lemma rec_items_snoc l s : forall soff, rec_items soff (l ++ [s]) = rec_items soff l ++ rec_item (soff + zlen (name_bytes l)) s.
Proof.
  induction l as [|x l IH]; intros soff; cbn [app rec_items]; [by rewrite Z.add_0_r, app_nil_r|].
  rewrite IH, <- app_assoc. do 2 f_equal. f_equal. unfold name_bytes. cbn [map concat]. rewrite length_app. lia.
Qed.

Lemma save_record_is done aseg sseg s : seg_is aseg 1 (rec_items 0 done) -> seg_is sseg 2 (ibytes (name_bytes done)) ->
  seg_is (save_record (aseg, sseg) s).1 1 (rec_items 0 (done ++ [s])) /\ seg_is (save_record (aseg, sseg) s).2 2 (ibytes (name_bytes (done ++ [s]))).
Proof.
  intros Ha Hs. unfold save_record. cbn [fst snd]. split.
  - rewrite rec_items_snoc, Z.add_0_l. unfold rec_item. rewrite (seg_position _ _ _ Hs), ibytes_size.
    unfold ibytes. rewrite !map_app, <- !app_assoc. cbn [app]. rewrite !app_assoc.
    rewrite cons_middle, !app_assoc. by apply seg_write, seg_write, seg_write_pointer, seg_write, seg_write, seg_write, seg_write.
  - rewrite name_bytes_snoc. unfold ibytes. rewrite map_app. by apply seg_write.
Qed.

Lemma save_records_is l : forall done aseg sseg, seg_is aseg 1 (rec_items 0 done) -> seg_is sseg 2 (ibytes (name_bytes done)) ->
  seg_is (foldl save_record (aseg, sseg) l).1 1 (rec_items 0 (done ++ l)) /\ seg_is (foldl save_record (aseg, sseg) l).2 2 (ibytes (name_bytes (done ++ l))).
Proof.
  induction l as [|s l IH]; intros done aseg sseg Ha Hs; cbn [foldl]; [by rewrite app_nil_r|].
  destruct (save_record_is done aseg sseg s Ha Hs) as [Ha' Hs']. rewrite cons_middle, app_assoc.
  destruct (save_record (aseg, sseg) s) as [a1 s1]. by apply IH.
Qed.

(** *** Reading the records back *)

Section Reader.
Context (file : list Z) (addr : BinaryLocator -> Z) (B2 : Z).
Hypothesis Hsize : zlen file <= 2 ^ 30.
Hypothesis Haddr : forall o, addr (mkLoc 2 o) = B2 + o.

Lemma read_record_ok s pos soff : slot_ok s -> pos + 48 <= B2 -> 0 <= soff -> has_items file addr pos (rec_item soff s) ->
  has file (B2 + soff) (string_bytes (sl_String s)) -> read_digest_record file pos = Some (frozen_of s).
Proof.
  intros [Ht Hac Hh Hd Hn] Hp Ho Hi Hs. unfold rec_item in Hi. change (IPtr ?t :: ?l) with ([IPtr t] ++ l) in Hi.
  apply has_items_app in Hi as [Hb Hi]. rewrite ibytes_size, !length_app, !length_le_bytes, length_digest_bytes in Hi.
  change (Z.of_nat (8 + (8 + (4 + 16)))) with 36 in Hi. apply has_items_app in Hi as [Hptr _].
  apply has_items_bytes in Hb. apply has_app in Hb as [H1 Hb]. apply has_app in Hb as [H2 Hb]. apply has_app in Hb as [H3 H4].
  rewrite !length_le_bytes in *. change (Z.of_nat 8) with 8 in *. change (Z.of_nat 4) with 4 in *.
  unfold u64 in H1, H2. rewrite Z.mod_small in H1, H2 by done. rewrite u32_small in H3 by (unfold in_u32; lia).
  replace (pos + 8 + 8) with (pos + 16) in H3 by lia. replace (pos + 8 + 8 + 4) with (pos + 20) in H4 by lia.
  unfold read_digest_record. rewrite (read_u64_has _ _ _ Ht H1), (read_u64_has _ _ _ Hac H2).
  rewrite (read_u32_has _ _ (sl_Hash s)) by (done || unfold in_u32; lia). rewrite (read_digest_has _ _ _ Hd H4).
  pose proof (has_range _ _ _ Hs). rewrite (deref_forward file addr (pos + 36) _ Hptr) by (rewrite Haddr; lia).
  rewrite Haddr, (read_string_has _ _ _ Hn Hs). done.
Qed.

Lemma read_records_ok l : forall pos soff, Forall slot_ok l -> pos + 48 * zlen l <= B2 -> 0 <= soff ->
  has_items file addr pos (rec_items soff l) -> has file (B2 + soff) (name_bytes l) ->
  read_array (read_digest_record file) 48 (length l) pos = Some (map frozen_of l).
Proof.
  induction l as [|s l IH]; intros pos soff HF Hp Ho Hi Hn; cbn [length read_array map]; [done|].
  apply Forall_cons in HF as [Hs HF]. rewrite length_cons in Hp. cbn [rec_items] in Hi. apply has_items_app in Hi as [Hi1 Hi2]. rewrite rec_item_size in Hi2.
  unfold name_bytes in Hn. cbn [map concat] in Hn. apply has_app in Hn as [Hn1 Hn2].
  rewrite (read_record_ok s pos soff) by (done || lia).
  rewrite (IH (pos + 48) (soff + zlen (string_bytes (sl_String s)))); [done|done|lia|lia|done|]. by rewrite Z.add_assoc.
Qed.
End Reader.

Lemma digest_magic_range : in_u32 DigestMagicNumber.
Proof. vm_compute. split; [discriminate|reflexivity]. Qed.

Section Load.
Context (l : list dslot) (Hok : Forall slot_ok l) (Hsz : zlen (file_of (digest_segs l)) <= 2 ^ 30).
Abbreviation dbase := (seg_base (digest_segs l)).

Lemma digest_bases : dbase 0 = 0 /\ dbase 1 = 16 /\ dbase 1 + 48 * zlen l <= dbase 2 /\
  dbase 2 + zlen (name_bytes l) <= zlen (file_of (digest_segs l)).
Proof.
  unfold file_of. rewrite length_render_all. unfold seg_base, digest_segs. cbn [bases lookup list_lookup default foldr]. unfold id.
  pose proof (padded_size (rec_items 0 l)). pose proof (padded_size (ibytes (name_bytes l))). rewrite rec_items_size, ibytes_size in *.
  change (items_size (padded (digest_main (zlen l)))) with 16. lia.
Qed.

Lemma rec_targets t : forall k off, IPtr t ∈ rec_items off k -> bl_SegIndex t = 2 /\ off <= bl_Offset t <= off + zlen (name_bytes k).
Proof.
  induction k as [|s k IH]; intros off; cbn [rec_items]; [by intros ?%elem_of_nil|]. unfold name_bytes in *. cbn [map concat]. rewrite length_app.
  rewrite elem_of_app. intros [H|H%IH]; [|lia]. unfold rec_item in H. rewrite elem_of_app, elem_of_cons in H.
  destruct H as [H|[[= ->]|H]]; [by apply ibytes_no_ptr in H|cbn; lia|by apply ibytes_no_ptr in H].
Qed.

Lemma digest_targets_ok : targets_ok (digest_segs l).
Proof.
  split; [|done]. pose proof digest_bases. intros k t Hk Ht. change (zlen (digest_segs l)) with 3. unfold digest_segs in Hk.
  rewrite !elem_of_cons, elem_of_nil in Hk. destruct Hk as [->|[->|[->|[]]]].
  - unfold digest_main in Ht. rewrite elem_of_app, !elem_of_cons, elem_of_nil in Ht. destruct Ht as [Ht|[[= ->]|[]]]; [by apply ibytes_no_ptr in Ht|cbn; lia].
  - apply rec_targets in Ht. lia.
  - by apply ibytes_no_ptr in Ht.
Qed.

Lemma read_digest_file : read_u32 (file_of (digest_segs l)) 0 = Some DigestMagicNumber /\
  read_digest_records (file_of (digest_segs l)) = Some (map frozen_of l).
Proof.
  pose proof digest_bases as (E0 & E1 & E2 & E3). set (file := file_of (digest_segs l)) in *. set (addr := address (digest_segs l)).
  pose proof (seg_has (digest_segs l) 0 _ eq_refl) as Hm. pose proof (seg_has (digest_segs l) 1 _ eq_refl) as Hr. pose proof (seg_has (digest_segs l) 2 _ eq_refl) as Hn.
  fold file addr in Hm, Hr, Hn. rewrite E0 in Hm. unfold digest_main in Hm. apply (proj1 (has_items_app _ _ _ _ _)) in Hm as [Hm Hp].
  apply (proj1 (has_items_bytes _ _ _ _)), has_app in Hm as [Hm1 Hm2]. rewrite ibytes_size, length_app, !length_le_bytes in Hp. rewrite length_le_bytes in Hm2.
  change (0 + Z.of_nat (4 + 4)) with 8 in Hp. change (0 + Z.of_nat 4) with 4 in Hm2. rewrite (u32_small _ digest_magic_range) in Hm1.
  split; [by apply read_u32_has; [apply digest_magic_range|]|]. unfold read_digest_records.
  rewrite (read_i32_has _ _ (zlen l)) by (done || unfold in_i32; lia). destruct (decide (l = [])) as [E|Hne]; [rewrite E; done|].
  assert (Hpos : 0 < zlen l) by (destruct l; [done|rewrite length_cons; lia]). rewrite (proj2 (Z.eqb_neq _ _)) by lia.
  assert (A1 : addr (mkLoc 1 0) = dbase 1) by (pose proof (seg_address (digest_segs l) 1 0 ltac:(cbn; lia)) as A; rewrite Z.add_0_r in A; exact A).
  rewrite (deref_forward file addr 8 _ Hp) by lia. rewrite A1, Nat2Z.id.
  rewrite (read_records_ok file addr (dbase 2) Hsz) with (soff := 0); try done; try lia.
  - rewrite Z.add_0_r. by apply (proj1 (has_items_bytes _ addr _ _)).
Qed.
End Load.

(** *** Filling the table *)

Lemma open_record_eq cutoff t s : open_record cutoff t (frozen_of s) =
  if dg_AccessTime (sl_Payload s) <? cutoff then OK t
  else HashTableInsert no_record t (sl_Hash s) (sl_String s)
         (mkDigestRecord (dg_ContentDigest (sl_Payload s)) (dg_Timestamp (sl_Payload s)) (dg_AccessTime (sl_Payload s))).
Proof. reflexivity. Qed.

Lemma open_records_ok cutoff l : forall t, ht_ok t -> keyed ci t -> Forall slot_ok l -> NoDup (map (slot_key ci) l) ->
  (forall s, s ∈ l -> table_map ci t !! slot_key ci s = None) -> ht_RecordCount t + zlen l < 2 ^ 27 ->
  exists t', foldM (open_record cutoff) t (map frozen_of l) = OK t' /\ ht_ok t' /\ keyed ci t' /\
  forall k v, table_map ci t' !! k = Some v <-> table_map ci t !! k = Some v \/
    exists s, s ∈ l /\ slot_key ci s = k /\ sl_Payload s = v /\ cutoff <= dg_AccessTime v.
Proof.
  induction l as [|s l IH]; intros t Hok Hk HF Hn Hd Hc; cbn [map foldM].
  { exists t. split_and!; try done. intros k v. split; [auto|]. intros [|(s & Hs & _)]; [done|by apply elem_of_nil in Hs]. }
  apply Forall_cons in HF as [[Hts Hac Hh Hdg Hnm] HF]. apply NoDup_cons in Hn as [Hni Hn]. rewrite length_cons in Hc. rewrite open_record_eq.
  destruct (Z.ltb_spec (dg_AccessTime (sl_Payload s)) cutoff) as [Hlt|Hge].
  - cbn [mbind res_bind]. destruct (IH t Hok Hk HF Hn) as (t' & -> & Hok' & Hk' & Hm); [intros; apply Hd; set_solver|lia|]. exists t'. split_and!; try done.
    intros k v. rewrite Hm. split; [naive_solver set_solver|]. intros [|(x & [->|Hx]%elem_of_cons & Ek & Ev & Hv)]; [by left|subst; lia|naive_solver].
  - assert (Er : mkDigestRecord (dg_ContentDigest (sl_Payload s)) (dg_Timestamp (sl_Payload s)) (dg_AccessTime (sl_Payload s)) = sl_Payload s) by (by destruct (sl_Payload s)).
    rewrite Er. destruct (insert_refines no_record ci t (sl_Hash s) (sl_String s) (sl_Payload s) Hok Hk Hnm Hh) as (t1 & -> & Hok1 & Hk1 & Em & HP);
      [lia|apply (Hd s); set_solver|]. cbn [mbind res_bind]. fold (slot_key ci s) in Em.
    destruct (IH t1 Hok1 Hk1 HF Hn) as (t' & -> & Hok' & Hk' & Hm).
    { intros x Hx. rewrite Em, lookup_insert_ne; [apply Hd; set_solver|]. intros E. apply Hni. rewrite E. by apply (list_elem_of_fmap_2 (slot_key ci)). }
    { rewrite (count_entries t1), HP by done. cbn [length]. rewrite (count_entries t) in Hc by done. lia. }
    exists t'. split_and!; try done. intros k v. rewrite Hm, Em. destruct (decide (k = slot_key ci s)) as [->|Hne].
    + rewrite lookup_insert_eq, (Hd s) by set_solver. split.
      * intros [[= <-]|(x & Hx & Ek & Ev & Hv)]; right; [exists s; split_and!; [set_solver|done..]|exists x; split_and!; [set_solver|done..]].
      * intros [|(x & [->|Hx]%elem_of_cons & Ek & Ev & Hv)]; [done|left; by rewrite Ev|]. destruct Hni. rewrite <- Ek. by apply (list_elem_of_fmap_2 (slot_key ci)).
    + rewrite lookup_insert_ne by done. split.
      * intros [|(x & Hx & Ek & Ev & Hv)]; [by left|right; exists x; split_and!; [set_solver|done..]].
      * intros [|(x & [->|Hx]%elem_of_cons & Ek & Ev & Hv)]; [by left|by destruct Hne|right; eauto 6].
Qed.

Lemma save_ok c : ht_ok (dc_Table c) -> Forall slot_ok (entries (dc_Table c)) -> zlen (file_of (digest_segs (entries (dc_Table c)))) <= 2 ^ 30 ->
  DigestCacheSave c = OK (file_of (digest_segs (entries (dc_Table c)))).
Proof.
  intros Hok HF Hsz. unfold DigestCacheSave, HashTableWalk, check. rewrite (count_entries _ Hok), Z.eqb_refl. cbn [mbind res_bind].
  set (l := entries (dc_Table c)) in *.
  destruct (save_records_is l [] (BinarySegmentInit 1) (BinarySegmentInit 2) (seg_init 1) (seg_init 2)) as [Ha Hs]. cbn [app] in Ha, Hs.
  destruct (foldl save_record (BinarySegmentInit 1, BinarySegmentInit 2) l) as [aseg sseg]. cbn [fst snd] in Ha, Hs.
  apply flush_ok; [|by apply digest_targets_ok]. unfold digest_segs. repeat constructor; try apply Ha; try apply Hs.
Qed.

(** C21. The digest cache survives on disk: saving a cache and opening the file in a
    later run gives back exactly the records that were used during the week
    before that run, each under its file name with its digest, time stamp and
    access time. *)
Theorem digest_cache_roundtrip c now : digest_ok ci c -> Forall slot_ok (entries (dc_Table c)) ->
  zlen (file_of (digest_segs (entries (dc_Table c)))) <= 2 ^ 30 ->
  exists bytes c', DigestCacheSave c = OK bytes /\ DigestCacheOpen now (DigestCacheInit now) (Some bytes) = OK c' /\ digest_ok ci c' /\
  digests ci c' = filter (fun kr => u64 (now - week) <= dg_AccessTime kr.2) (digests ci c).
Proof.
  intros [Hok Hk] HF Hsz. exists (file_of (digest_segs (entries (dc_Table c)))). set (l := entries (dc_Table c)) in *.
  assert (Hlen : zlen l < 2 ^ 27) by (pose proof (digest_bases l); lia).
  destruct (open_records_ok (u64 (now - week)) l HashTableInit) as (t & E & Hok' & Hk' & Hm); [by left|split; constructor|exact HF|apply Hk|intros; apply lookup_empty|cbn; lia|].
  exists (mkDigestCache t now). split; [by apply save_ok|]. split.
  { unfold DigestCacheOpen. destruct (read_digest_file l HF Hsz) as [-> ->]. cbn [of_opt mbind res_bind]. rewrite Z.eqb_refl.
    cbn [DigestCacheInit dc_Table dc_AccessTime]. rewrite E. done. }
  split; [done|]. unfold digests. cbn [dc_Table]. apply map_eq. intros k. apply option_eq. intros v. rewrite Hm, map_lookup_filter_Some, (table_map_lookup ci (dc_Table c) k v Hk).
  cbn [snd]. split.
  - intros [H|(s & Hs & Ek & Ev & Hv)]; [done|]. split; [eauto|done].
  - intros [(s & Hs & Ek & Ev) Hv]. right. exists s. auto.
Qed.

End File.

Module DemoDigest.

Definition file : cstr := s2l "src/a.c".
Definition cache : DigestCache :=
  match DigestCacheSet false (DigestCacheInit 5000000) file (Djb2HashPath false file) 123 (mkDigest 4 5) with OK c => c | Err _ => DigestCacheInit 0 end.

Lemma cache_ok : digest_ok false cache /\ Forall slot_ok (entries (dc_Table cache)).
Proof.
  destruct (digest_set_ok false (DigestCacheInit 5000000) file 123 (mkDigest 4 5)) as (c & E & Hok & _); [split; [by left|split; constructor]|repeat constructor; discriminate|cbn; lia|].
  unfold cache. rewrite E. split; [done|]. vm_compute in E. injection E as <-. vm_compute. constructor; [|constructor].
  split; cbn; [lia..| |repeat constructor; discriminate]. split; cbn; lia.
Qed.

End DemoDigest.

Lemma digest_cache_roundtrip_witness : exists bytes c', DigestCacheSave DemoDigest.cache = OK bytes /\
  DigestCacheOpen 5000600 (DigestCacheInit 5000600) (Some bytes) = OK c' /\ digest_ok false c' /\
  digests false c' = filter (fun kr => u64 (5000600 - week) <= dg_AccessTime kr.2) (digests false DemoDigest.cache).
Proof. apply (digest_cache_roundtrip false DemoDigest.cache 5000600); [apply DemoDigest.cache_ok|apply DemoDigest.cache_ok|vm_compute; discriminate]. Defined.
