(* ===== verification/FileSign.v ===== *)
(** * File signatures

    FileSign.cpp: what stands for a file in the signature of a node. Files with
    certain extensions are represented by the digest of their contents, taken
    from the digest cache when the time stamp has not changed, all others by
    their time stamp. Also the digest of a directory listing, which the DAG
    keeps for every directory the build scripts looked at. *)

From stdpp Require Import gmap sorting.
From S2P Require Import Prelude CommonFns Hash HashImpl HashThms DagData SortedArray HashTable StatCache PathUtil BinaryWriter FrozenFile DigestCache.

Section FileSign.
Context (ci : bool) (stat : cstr -> stat_result).
(** The bytes of a file, when it can be opened for reading. *)
Context (contents : cstr -> option cstr).
(** What the stack held where the hash buffers are. *)
Context (junk : cstr).

(** [~0ull] *)
Definition all_ones : Z := 2 ^ 64 - 1.

(** [HashUpdate(state, &digest, sizeof(digest))] *)
Definition digest_memory (d : HashDigest) : cstr := map byte_of (digest_bytes d).

(** [while (size_t nbytes = fread(buffer, 1, sizeof buffer, f)) HashUpdate(&h, buffer, nbytes);] *)
Fixpoint hash_contents (fuel : nat) (h : HashState) (bytes : cstr) : HashState :=
  match fuel, bytes with
  | S fuel, _ :: _ => hash_contents fuel (HashUpdate h (take (Z.to_nat 8192) bytes)) (drop (Z.to_nat 8192) bytes)
  | _, _ => h
  end.

(** The branch for a digest that is not in the cache. *)
Definition sign_contents (state : HashState) (stat_cache : StatCache) (digest_cache : DigestCache) (filename : cstr) (fn_hash timestamp : Z)
    : res (HashState * StatCache * DigestCache) :=
  match contents filename with
  | None => OK (HashAddString state (s2l "<missing>"), stat_cache, digest_cache)
  | Some bytes =>
      digest ← HashFinalize (hash_contents (length bytes) (HashInit junk) bytes);
      digest_cache ← DigestCacheSet ci digest_cache filename fn_hash timestamp digest;
      OK (HashUpdate state (digest_memory digest), stat_cache, digest_cache)
  end.

Definition ComputeFileSignatureSha1 (state : HashState) (stat_cache : StatCache) (digest_cache : DigestCache) (filename : cstr) (fn_hash : Z)
    : res (HashState * StatCache * DigestCache) :=
  '(stat_cache, file_info) ← StatCacheStat ci stat stat_cache filename fn_hash;
  if negb (Exists file_info) then OK (HashAddInteger state all_ones, stat_cache, digest_cache) else
  '(digest_cache, digest) ← DigestCacheGet ci digest_cache filename fn_hash (fi_Timestamp file_info);
  match digest with
  | Some digest => OK (HashUpdate state (digest_memory digest), stat_cache, digest_cache)
  | None => sign_contents state stat_cache digest_cache filename fn_hash (fi_Timestamp file_info)
  end.

Definition ComputeFileSignatureTimestamp (out : HashState) (stat_cache : StatCache) (filename : cstr) (hash : Z) : res (HashState * StatCache) :=
  '(stat_cache, info) ← StatCacheStat ci stat stat_cache filename hash;
  OK (HashAddInteger out (if Exists info then fi_Timestamp info else all_ones), stat_cache).

(** [strrchr(s, c)]: the string from the last [c] on. *)
Fixpoint strrchr (s : cstr) (c : ascii) : option cstr :=
  match s with
  | [] => None
  | x :: s' =>
      match strrchr s' c with
      | Some r => Some r
      | None => if Ascii.eqb x c then Some s else None
      end
  end.

(** The extension is one of those to be signed by contents. *)
Definition signed_by_contents (filename : cstr) (sha_extension_hashes : list Z) : bool :=
  match strrchr filename "."%char with
  | Some ext => existsb (fun h => h =? Djb2Hash ext) sha_extension_hashes
  | None => false
  end.

Definition ComputeFileSignature (out : HashState) (stat_cache : StatCache) (digest_cache : DigestCache) (filename : cstr) (fn_hash : Z)
    (sha_extension_hashes : list Z) : res (HashState * StatCache * DigestCache) :=
  if signed_by_contents filename sha_extension_hashes
  then ComputeFileSignatureSha1 out stat_cache digest_cache filename fn_hash
  else
    '(out, stat_cache) ← ComputeFileSignatureTimestamp out stat_cache filename fn_hash;
    OK (out, stat_cache, digest_cache).

(** ** Reference *)

Definition content_digest (bytes : cstr) : HashDigest := digest_of (B := FastBackend) bytes.

(** The bytes that stand for a file. *)
Definition file_signature (sha_extension_hashes : list Z) (f : cstr) : cstr :=
  let info := GetFileInfo (stat f) in
  if negb (Exists info) then big_endian64 all_ones
  else if signed_by_contents f sha_extension_hashes then
    match contents f with
    | Some bytes => digest_memory (content_digest bytes)
    | None => s2l "<missing>"
    end
  else big_endian64 (fi_Timestamp info).

(** A digest cache with room for [n] more records: a record for the current time
    stamp of a file holds the digest of its contents. *)
Record digest_valid (n : Z) (c : DigestCache) : Prop := {
  dv_ok : digest_ok ci c;
  dv_true : forall f r, cstr_ok f -> digests ci c !! (Djb2HashPath ci f, canon ci f) = Some r ->
    dg_Timestamp r = fi_Timestamp (GetFileInfo (stat f)) -> Exists (GetFileInfo (stat f)) = true ->
    exists bytes, contents f = Some bytes /\ dg_ContentDigest r = content_digest bytes;
  dv_room : ht_RecordCount (dc_Table c) + n < 2 ^ 27 }.

Lemma digest_valid_le n m c : m <= n -> digest_valid n c -> digest_valid m c.
Proof. intros Hm [? ? ?]. split; try done. lia. Qed.

Lemma digest_init_valid n now : n < 2 ^ 27 -> digest_valid n (DigestCacheInit now).
Proof. intros Hn. split; [split; [by left|split; constructor]| |cbn; lia]. intros f r _ Hr. unfold digests in Hr. cbn in Hr. by rewrite lookup_empty in Hr. Qed.

Context (Hjunk : length junk = 64%nat).
Context (Hstat : forall p q, canon ci p = canon ci q -> stat p = stat q).
Context (Hcontents : forall p q, canon ci p = canon ci q -> contents p = contents q).

Lemma hash_contents_repr fuel : forall h msg bytes, (length bytes <= fuel)%nat -> hash_repr h msg -> hash_repr (hash_contents fuel h bytes) (msg ++ bytes).
Proof.
  induction fuel as [|fuel IH]; intros h msg bytes Hf Hh.
  - destruct bytes; [|cbn in Hf; lia]. by rewrite app_nil_r.
  - destruct bytes as [|b bytes]; [by rewrite app_nil_r|]. cbn [hash_contents]. set (k := Z.to_nat 8192). replace (msg ++ b :: bytes) with ((msg ++ take k (b :: bytes)) ++ drop k (b :: bytes)) by (by rewrite <- app_assoc, take_drop).
    apply IH; [rewrite length_drop; cbn [length] in Hf |- *; unfold k; lia|]. by apply HashUpdate_repr.
Qed.

Lemma set_valid n c f bytes : digest_valid n c -> 0 < n -> cstr_ok f -> contents f = Some bytes ->
  exists c', DigestCacheSet ci c f (Djb2HashPath ci f) (fi_Timestamp (GetFileInfo (stat f))) (content_digest bytes) = OK c' /\ digest_valid (n - 1) c'.
Proof.
  intros [Hok Ht Hr] Hn Hf Hb.
  destruct (digest_set_ok ci c f (fi_Timestamp (GetFileInfo (stat f))) (content_digest bytes) Hok Hf) as (c' & -> & Hok' & Em & Hc); [lia|].
  exists c'. split; [done|]. split; [done| |lia]. intros g r Hg. rewrite Em.
  destruct (decide (canon ci g = canon ci f)) as [E|Hne].
  - rewrite E. rewrite (HashSet.hash_canon ci g f E), lookup_insert_eq. intros [= <-] _ _. exists bytes. by rewrite (Hcontents g f).
  - rewrite lookup_insert_ne by congruence. by apply Ht.
Qed.

(** A file whose digest is not in the cache. *)
Lemma digest_miss_ok n h msg t c f : hash_repr h msg -> digest_valid n c -> 0 < n -> cstr_ok f ->
  exists h' c', sign_contents h t c f (Djb2HashPath ci f) (fi_Timestamp (GetFileInfo (stat f))) = OK (h', t, c') /\
  hash_repr h' (msg ++ match contents f with Some bytes => digest_memory (content_digest bytes) | None => s2l "<missing>" end) /\
  digest_valid (n - 1) c'.
Proof.
  intros Hh Hc Hn Hf. unfold sign_contents. destruct (contents f) as [bytes|] eqn:Eb.
  - rewrite (HashFinalize_repr _ bytes) by (by apply (hash_contents_repr _ _ [] bytes); [lia|apply HashInit_repr]).
    fold (content_digest bytes). cbn [mbind res_bind].
    destruct (set_valid n c f bytes Hc Hn Hf Eb) as (c2 & -> & V2). cbn [mbind res_bind]. eexists _, _. split; [done|].
    split; [by apply HashUpdate_repr|done].
  - eexists _, _. split; [done|]. split; [by apply (HashUpdate_repr _ _ (s2l "<missing>"))|apply (digest_valid_le n); [lia|done]].
Qed.

(** ** The signature of a file is what the reference says *)

Lemma file_signature_ok n m h msg t c f exts : hash_repr h msg -> stat_valid ci stat n t -> 0 < n -> digest_valid m c -> 0 < m -> cstr_ok f ->
  exists h' t' c', ComputeFileSignature h t c f (Djb2HashPath ci f) exts = OK (h', t', c') /\
  hash_repr h' (msg ++ file_signature exts f) /\ stat_valid ci stat (n - 1) t' /\ digest_valid (m - 1) c'.
Proof.
  intros Hh Ht Hn Hc Hm Hf. unfold ComputeFileSignature, ComputeFileSignatureSha1, ComputeFileSignatureTimestamp, file_signature.
  destruct (stat_answers ci stat Hstat n t f Ht Hn Hf) as (t' & -> & Ht').
  assert (Hc' : digest_valid (m - 1) c) by (apply (digest_valid_le m); [lia|done]).
  destruct (signed_by_contents f exts); cbn [mbind res_bind].
  - destruct (Exists (GetFileInfo (stat f))) eqn:He; cbn [negb].
    + destruct (digest_get_ok ci c f (fi_Timestamp (GetFileInfo (stat f))) (dv_ok m c Hc) Hf) as (c1 & -> & Hok1 & Hc1 & Hsame). cbn [mbind res_bind].
      assert (V1 : digest_valid m c1).
      { split; [done| |rewrite Hc1; apply Hc]. intros g r Hg Hr Hts Heg. specialize (Hsame (Djb2HashPath ci g, canon ci g)). rewrite Hr in Hsame. cbn in Hsame.
        destruct (digests ci c !! _) as [r0|] eqn:E0; [|done]. cbn in Hsame. injection Hsame as Ed Ets.
        destruct (dv_true m c Hc g r0 Hg E0) as (bytes & ? & ?); [congruence|done|]. exists bytes. split; [done|congruence]. }
      destruct (digest_miss_ok m h msg t' c1 f Hh V1 Hm Hf) as (h2 & c2 & E2 & Hh2 & V2).
      destruct (digests ci c !! (Djb2HashPath ci f, canon ci f)) as [r|] eqn:Er; [|exists h2, t', c2; split_and!; [exact E2|done..]].
      destruct (Z.eqb_spec (dg_Timestamp r) (fi_Timestamp (GetFileInfo (stat f)))) as [Ets|Ets]; [|exists h2, t', c2; split_and!; [exact E2|done..]].
      destruct (dv_true m c Hc f r Hf Er Ets He) as (bytes & -> & ->). eexists _, _, _. split; [done|].
      split_and!; [by apply HashUpdate_repr|done|apply (digest_valid_le m); [lia|done]].
    + eexists _, _, _. split; [done|]. split_and!; [by apply HashUpdate_repr|done|done].
  - eexists _, _, _. split; [done|]. destruct (Exists (GetFileInfo (stat f))); cbn [negb]; split_and!; try done; by apply HashUpdate_repr.
Qed.

End FileSign.

(** ** Directory listings *)

Lemma strcmp_flip a : forall b, strcmp b a = - strcmp a b.
Proof.
  induction a as [|c a IH]; intros [|d b]; cbn; try lia.
  rewrite (Ascii.eqb_sym d c). destruct (Ascii.eqb_spec c d) as [->|]; [|lia]. destruct (Ascii.eqb d NUL); [done|]. apply IH.
Qed.

Ltac uchar_ranges := repeat match goal with x : ascii |- _ => lazymatch goal with H : 0 <= uchar x < 256 |- _ => fail | _ => pose proof (uchar_range x) end end.

Lemma strcmp_le_trans a : forall b c, strcmp a b <= 0 -> strcmp b c <= 0 -> strcmp a c <= 0.
Proof.
  induction a as [|x a IH]; intros [|y b] [|z c]; cbn [strcmp]; uchar_ranges; try lia.
  - intros H1 H2. assert (uchar x = 0) by lia. destruct (Ascii.eqb_spec x z) as [->|]; [|lia].
    destruct (Ascii.eqb_spec z NUL) as [|Hz]; [lia|]. apply uchar_pos in Hz. lia.
  - destruct (Ascii.eqb_spec x y) as [->|]; destruct (Ascii.eqb_spec y NUL) as [->|Hy]; try lia; change (uchar NUL) with 0 in *; try lia.
  - destruct (Ascii.eqb_spec x y) as [->|Hxy].
    + destruct (Ascii.eqb_spec y NUL) as [->|Hy].
      * destruct (Ascii.eqb_spec NUL z); [done|]. done.
      * destruct (Ascii.eqb_spec y z) as [->|]; [|done]. apply IH.
    + intros L1. destruct (Ascii.eqb_spec y z) as [->|Hyz].
      * intros _. destruct (Ascii.eqb_spec x z); [congruence|lia].
      * intros L2. destruct (Ascii.eqb_spec x z) as [->|]; [|lia]. exfalso. apply Hxy, uchar_inj. lia.
Qed.

(** What [opendir] and [readdir] give for a directory: the names of its
    entries, or nothing when it cannot be opened. *)
Class DirectoryReader : Type := { read_names : cstr -> option (list cstr) }.

Section Listing.
Context (stat : cstr -> stat_result).

(** Entries that only serve to cause regeneration: the directory itself and its
    parent, swap files, the build system's own files, backup files. *)
Definition ShouldFilter (name : cstr) : bool :=
  let len := zlen name in
  if (1 =? len) && Ascii.eqb (char_at name 0) "."%char then true
  else if (2 =? len) && Ascii.eqb (char_at name 0) "."%char && Ascii.eqb (char_at name 1) "."%char then true
  else if (4 <=? len) && Ascii.eqb (char_at name 0) "."%char && bool_decide (bytes_at name (len - 4) 4 = s2l ".swp") then true
  else if (9 <=? len) && bool_decide (bytes_at name 0 9 = s2l ".tundra2.") then true
  else (1 <? len) && Ascii.eqb (char_at name (Z.to_nat (len - 1))) "~"%char.

(** [sizeof(full_fn)] *)
Definition kFullName : Z := 512.

Definition list_entry (path d_name : cstr) : option (FileInfo * cstr) :=
  if ShouldFilter d_name then None
  else if kFullName <=? zlen d_name + zlen path + 2 then None
  else Some (GetFileInfo (stat (path ++ "/"%char :: d_name)), d_name).

(** The calls of the callback, in order. *)
Definition ListDirectory (names : option (list cstr)) (path : cstr) : list (FileInfo * cstr) :=
  if kFullName <? zlen path + 1 then []
  else match names with
       | None => []
       | Some names => omap (list_entry path) names
       end.

(** The entries that are not noise. *)
Definition wanted (names : list cstr) : list cstr := filter (fun n => ShouldFilter n = false) names.

Lemma list_wanted path names : omap (list_entry path) names = omap (list_entry path) (wanted names).
Proof.
  unfold wanted. induction names as [|n names IH]; [done|]. rewrite filter_cons. cbn [omap list_omap].
  case_decide as Hd; cbn [omap list_omap]; [by rewrite IH|]. unfold list_entry at 1. by destruct (ShouldFilter n).
Qed.

Lemma list_cstr path names : Forall cstr_ok names -> Forall (fun e => cstr_ok e.2) (omap (list_entry path) names).
Proof.
  intros HF. rewrite Forall_forall in HF. apply Forall_forall. intros e (n & Hn & En)%list_elem_of_omap. unfold list_entry in En.
  repeat case_match; try done. injection En as <-. by apply HF.
Qed.

End Listing.

Section Glob.
Context (ci : bool) (junk : cstr) `{StdSort} (stat : cstr -> stat_result) {dirs : DirectoryReader}.

(** [SortStringPtrs] with [qsort]. *)
Definition string_lt (l r : cstr) : bool := strcmp l r <? 0.

Definition add_entry (h : HashState) (p : cstr) : HashState := HashAddSeparator (HashAddPath ci h p).

Definition CalculateGlobSignatureFor (path : cstr) : res HashDigest :=
  let listing := ListDirectory stat (read_names path) path in
  let m_Dirs := map snd (filter (fun e => IsDirectory e.1 = true) listing) in
  let m_Files := map snd (filter (fun e => IsDirectory e.1 = false) listing) in
  let h := HashInit junk in
  let h := foldl add_entry h (std_sort string_lt m_Dirs) in
  let h := foldl add_entry h (std_sort string_lt m_Files) in
  HashFinalize h.

(** The bytes of a listing. *)
Definition glob_bytes (p : cstr) : cstr := call_bytes (AddPath ci p) ++ [NUL].

Lemma add_entries_repr l : forall h msg, hash_repr h msg -> hash_repr (foldl add_entry h l) (msg ++ concat (map glob_bytes l)).
Proof.
  induction l as [|p l IH]; intros h msg Hh; cbn [foldl map concat]; [by rewrite app_nil_r|]. rewrite app_assoc. apply IH.
  unfold glob_bytes. rewrite app_assoc. by apply (do_call_repr _ _ AddSeparator), (do_call_repr _ _ (AddPath ci p)).
Qed.

Lemma string_sorted l : StronglySorted (fun x y => strcmp x y <= 0) (std_sort string_lt l).
Proof.
  assert (Hs : StronglySorted (fun x y => string_lt y x = false) (std_sort string_lt l)).
  { apply std_sort_sorted; unfold string_lt; [intros x y z; rewrite !Z.ltb_ge|intros x y; rewrite Z.ltb_lt, Z.ltb_ge, (strcmp_flip x y); lia].
    rewrite (strcmp_flip y x), (strcmp_flip z y), (strcmp_flip z x). pose proof (strcmp_le_trans z y x). lia. }
  induction Hs as [|x k _ IH HFx]; constructor; [done|]. apply (Forall_impl _ _ _ HFx). intros y E%Z.ltb_ge. rewrite (strcmp_flip y x). lia.
Qed.

Lemma sorted_unique l k : Forall cstr_ok l -> l ≡ₚ k -> std_sort string_lt l = std_sort string_lt k.
Proof.
  intros HF HP. apply (StronglySorted_unique_strong (fun x y => strcmp x y <= 0)); [|apply string_sorted..|by rewrite !std_sort_perm].
  intros x y Hx Hy H1 H2. rewrite std_sort_perm in Hx, Hy. rewrite <- HP in Hy. rewrite Forall_forall in HF.
  apply strcmp_eq; [by apply HF|by apply HF|]. pose proof (strcmp_flip y x). lia.
Qed.

(** What a listing says, whatever the order it comes in: the paths of the
    directories in it, sorted, then those of the files, each with a terminator. *)
Definition listing_message (listing : list (FileInfo * cstr)) : cstr :=
  let paths (dirs : bool) := map snd (filter (fun e => IsDirectory e.1 = dirs) listing) in
  concat (map glob_bytes (std_sort string_lt (paths true) ++ std_sort string_lt (paths false))).

Lemma listing_message_perm l k : Forall (fun e => cstr_ok e.2) l -> l ≡ₚ k -> listing_message l = listing_message k.
Proof.
  intros HF HP. unfold listing_message. do 3 f_equal; apply sorted_unique; try (by rewrite HP); 
    rewrite Forall_map, Forall_forall; intros e [_ He]%list_elem_of_filter; rewrite Forall_forall in HF; by apply HF.
Qed.

Lemma glob_signature_is path : length junk = 64%nat -> CalculateGlobSignatureFor path = OK (digest_of (B := FastBackend) (listing_message (ListDirectory stat (read_names path) path))).
Proof.
  intros Hj. unfold CalculateGlobSignatureFor, listing_message. rewrite map_app, concat_app.
  erewrite HashFinalize_repr; [reflexivity|]. apply add_entries_repr. apply (add_entries_repr _ _ []), HashInit_repr, Hj.
Qed.

End Glob.


(** The signature of a directory is the digest of the names in it that are not
    noise, directories first, each group sorted and every name terminated. It is
    always computed; neither the order in which the system lists the directory,
    nor swap and backup files or the build system's own, nor what was on the
    stack changes it. *)
Theorem glob_signature_order_free `{StdSort} (ci : bool) (junk junk' : cstr) stat (dirs dirs' : DirectoryReader) (path : cstr) names names' :
  length junk = 64%nat -> length junk' = 64%nat ->
  read_names (DirectoryReader := dirs) path = Some names -> read_names (DirectoryReader := dirs') path = Some names' ->
  Forall cstr_ok names -> wanted names ≡ₚ wanted names' ->
  CalculateGlobSignatureFor ci junk stat (dirs := dirs) path =
    OK (digest_of (B := FastBackend) (listing_message ci (ListDirectory stat (Some (wanted names)) path))) /\
  CalculateGlobSignatureFor ci junk' stat (dirs := dirs') path = CalculateGlobSignatureFor ci junk stat (dirs := dirs) path.
Proof.
  intros Hj Hj' En En' HF HP. rewrite !glob_signature_is by done. rewrite En, En'. unfold ListDirectory.
  rewrite (list_wanted stat path names), (list_wanted stat path names'). split; [done|]. case_match; [done|].
  rewrite (listing_message_perm ci (omap (list_entry stat path) (wanted names)) (omap (list_entry stat path) (wanted names'))); [done| |by rewrite HP].
  apply list_cstr. rewrite Forall_forall in HF. apply Forall_forall. intros n [_ Hn]%list_elem_of_filter. by apply HF.
Qed.

Module DemoListing.
Definition ones64 : cstr := replicate 64 (byte_of 255).
Definition stat (p : cstr) : stat_result := if bool_decide (p = s2l "src/sub") then StatOK S_IFDIR 1 0 else StatOK S_IFREG 7 10.
Definition names : list cstr := map s2l ["b.c"; "."; ".."; "sub"; "a.c"]%string.
Definition names' : list cstr := map s2l [".."; "."; ".a.c.swp"; "sub"; "a.c~"; "a.c"; "b.c"; ".tundra2.dag"]%string.
Definition one : DirectoryReader := {| read_names _ := Some names |}.
Definition other : DirectoryReader := {| read_names _ := Some names' |}.
End DemoListing.

Lemma glob_signature_order_free_witness :
  listing_message false (ListDirectory DemoListing.stat (Some (wanted DemoListing.names)) (s2l "src")) = concat (map (fun s => s2l s ++ [NUL]) ["sub"; "a.c"; "b.c"]%string) /\
  CalculateGlobSignatureFor false zeroes64 DemoListing.stat (dirs := DemoListing.other) (s2l "src") =
  CalculateGlobSignatureFor false DemoListing.ones64 DemoListing.stat (dirs := DemoListing.one) (s2l "src").
Proof.
  split; [reflexivity|].
  apply (glob_signature_order_free false DemoListing.ones64 zeroes64 DemoListing.stat DemoListing.one DemoListing.other (s2l "src") DemoListing.names DemoListing.names').
  - reflexivity.
  - reflexivity.
  - reflexivity.
  - reflexivity.
  - repeat constructor; discriminate.
  - replace (wanted DemoListing.names') with (map s2l ["sub"; "a.c"; "b.c"]%string) by (vm_compute; reflexivity).
    replace (wanted DemoListing.names) with (s2l "b.c" :: map s2l ["sub"; "a.c"]%string) by (vm_compute; reflexivity).
    exact (Permutation_cons_append (map s2l ["sub"; "a.c"]%string) (s2l "b.c")).
Defined.
