(* ===== verification/InputSignature.v ===== *)
(** * The input signature of a node

    The part of [CheckInputSignature] (BuildQueue.cpp) that runs without the
    queue's mutex: the digest of the command lines, of the input files and of
    the files they include, through the stat, digest and scan caches, and the
    decision that follows. The decision alone is [CheckInputSignature_decide] of
    the build queue, which takes the digest and the file system's answers as
    given; here both are computed. *)

From stdpp Require Import gmap sorting.
From S2P Require Import Prelude CType CommonFns Hash HashImpl HashThms DagData BuildQueue SortedArray HashTable HashSet StatCache IncludeScanner ScanCache PathUtil PathThms Scanner ScannerThms FrozenFile DigestCache FileSign.

Section InputSignature.
Context (ci : bool) (native : PathType) (je : list Z) (jd : cstr).
Context (stat : cstr -> stat_result) (open : cstr -> open_result) (contents : cstr -> option cstr).
Context (junk : cstr) (fuel : nat).
(** [m_ShaDigestExtensions] *)
Context (exts : list Z).

(** The hash state and the caches of the configuration. *)
Record sign_state : Type := mkSign {
  sg_Hash : HashState;
  sg_Stat : StatCache;
  sg_Digest : DigestCache;
  sg_Scan : ScanCache }.

(** Path and signature of one file. *)
Definition sign_file (s : sign_state) (f : FrozenFileAndHash) : res sign_state :=
  let sighash := HashAddPath ci (sg_Hash s) (m_Filename f) in
  '(sighash, stat_cache, digest_cache) ←
    ComputeFileSignature ci stat contents junk sighash (sg_Stat s) (sg_Digest s) (m_Filename f) (m_FilenameHash f) exts;
  OK (mkSign sighash stat_cache digest_cache (sg_Scan s)).

(** An input file and what it includes. *)
Definition sign_input (scanner : option ScannerData) (s : sign_state) (input : FrozenFileAndHash) : res sign_state :=
  s ← sign_file s input;
  match scanner with
  | None => OK s
  | Some scanner =>
      '(stat_cache, scan_cache, included_files) ←
        ScanImplicitDeps ci native je jd stat open fuel (sg_Stat s) (sg_Scan s) scanner (m_Filename input);
      foldM sign_file (mkSign (sg_Hash s) stat_cache (sg_Digest s) scan_cache) included_files
  end.

(** [HashAddString] of a null pointer reads through it. *)
Definition add_action (h : HashState) (action : option cstr) : res HashState :=
  match action with
  | Some a => OK (HashAddSeparator (HashAddString h a))
  | None => Err OutOfBounds
  end.

Definition add_pre_action (h : HashState) (pre_action : option cstr) : HashState :=
  match pre_action with
  | Some a => HashAddSeparator (HashAddString h a)
  | None => h
  end.

Fixpoint files_missing (stat_cache : StatCache) (files : list FrozenFileAndHash) : res (StatCache * bool) :=
  match files with
  | [] => OK (stat_cache, false)
  | f :: files' =>
      '(stat_cache, i) ← StatCacheStat ci stat stat_cache (m_Filename f) (m_FilenameHash f);
      if negb (Exists i) then OK (stat_cache, true) else files_missing stat_cache files'
  end.

(** [OutputFilesMissing], through the cache. *)
Definition OutputFilesMissing_cached (stat_cache : StatCache) (nd : NodeData) : res (StatCache * bool) :=
  files_missing stat_cache (nd_OutputFiles nd).

Definition decide_cached (stat_cache : StatCache) (nd : NodeData) (prev_state : option NodeStateData) (signature : HashDigest)
    : res (StatCache * BuildProgress) :=
  match prev_state with
  | None => OK (stat_cache, kRunAction)
  | Some prev =>
      if negb (digest_eq (nsd_InputSignature prev) signature) then OK (stat_cache, kRunAction)
      else if negb (nsd_BuildResult prev =? 0) then OK (stat_cache, kRunAction)
      else if OutputFilesDiffer nd prev then OK (stat_cache, kRunAction)
      else
        '(stat_cache, missing) ← OutputFilesMissing_cached stat_cache nd;
        OK (stat_cache, match missing with true => kRunAction | false => kUpToDate end)
  end.

(** The caches afterwards, [m_InputSignature] and the next state. *)
Definition CheckInputSignature (stat_cache : StatCache) (digest_cache : DigestCache) (scan_cache : ScanCache)
    (nd : NodeData) (prev_state : option NodeStateData)
    : res (StatCache * DigestCache * ScanCache * HashDigest * BuildProgress) :=
  sighash ← add_action (HashInit junk) (nd_Action nd);
  let sighash := add_pre_action sighash (nd_PreAction nd) in
  s ← foldM (sign_input (nd_Scanner nd)) (mkSign sighash stat_cache digest_cache scan_cache) (nd_InputFiles nd);
  signature ← HashFinalize (sg_Hash s);
  '(stat_cache, next_state) ← decide_cached (sg_Stat s) nd prev_state signature;
  OK (stat_cache, sg_Digest s, sg_Scan s, signature, next_state).

(** ** Reference: the message that is hashed, a function of the file system *)

Definition file_message (f : cstr) : cstr := call_bytes (AddPath ci f) ++ file_signature stat contents exts f.

Definition deps_of (cfg : ScannerData) (f : cstr) : list cstr :=
  match walk_deps ci native stat open cfg fuel f with OK l => map m_Filename l | Err _ => [] end.

Definition input_message (scanner : option ScannerData) (f : cstr) : cstr :=
  file_message f ++
  match scanner with Some cfg => concat (map file_message (deps_of cfg f)) | None => [] end.

Definition action_message (action : option cstr) : cstr :=
  match action with Some a => cbytes a ++ [NUL] | None => [] end.

Definition node_message (nd : NodeData) : cstr :=
  action_message (nd_Action nd) ++ action_message (nd_PreAction nd) ++
  concat (map (fun f => input_message (nd_Scanner nd) (m_Filename f)) (nd_InputFiles nd)).

(** ** Assumptions *)

Context (files : list cstr).

Definition filed (f : FrozenFileAndHash) : Prop := cstr_ok (m_Filename f) /\ m_FilenameHash f = Djb2HashPath ci (m_Filename f).

(** What signing a file may add to the stat, digest and scan caches. *)
Definition scan_room (scanner : option ScannerData) (f : cstr) : Z :=
  match scanner with Some cfg => cost open cfg f + weigh (cost open cfg) files | None => 0 end.
Definition found_room (scanner : option ScannerData) : Z :=
  match scanner with Some cfg => zlen files | None => 0 end.

Definition input_room (scanner : option ScannerData) (f : FrozenFileAndHash) : Z := 1 + scan_room scanner (m_Filename f) + found_room scanner.

Definition total (w : FrozenFileAndHash -> Z) (l : list FrozenFileAndHash) : Z := foldr (fun x a => w x + a) 0 l.

Record sign_world (scanner : option ScannerData) (inputs : list FrozenFileAndHash) : Prop := {
  sw_stat : forall p q, canon ci p = canon ci q -> stat p = stat q;
  sw_contents : forall p q, canon ci p = canon ci q -> contents p = contents q;
  sw_filed : Forall filed inputs;
  sw_scan : forall cfg, scanner = Some cfg -> scan_world ci native stat open cfg files /\ Forall (fun f => m_Filename f ∈ files) inputs;
  sw_fuel : (length files < fuel)%nat }.

(** The caches are right and have room for so many more records. *)
Record caches_ok (scanner : option ScannerData) (n m k : Z) (s : sign_state) : Prop := {
  co_stat : stat_valid ci stat n (sg_Stat s);
  co_digest : digest_valid ci stat contents m (sg_Digest s);
  co_scan : forall cfg, scanner = Some cfg -> scan_valid ci native stat open cfg files k (sg_Scan s) }.

(** ** Lemmas *)

Context (Hjunk : length junk = 64%nat) (Hje : zlen je = kMaxPathSegments) (Hjd : zlen jd = kMaxPathLength).
Context (scanner : option ScannerData) (inputs : list FrozenFileAndHash) (W : sign_world scanner inputs).

Lemma sign_file_ok n m k s msg f : caches_ok scanner n m k s -> 0 < n -> 0 < m -> hash_repr (sg_Hash s) msg -> filed f ->
  exists s', sign_file s f = OK s' /\ hash_repr (sg_Hash s') (msg ++ file_message (m_Filename f)) /\ caches_ok scanner (n - 1) (m - 1) k s'.
Proof.
  intros [C1 C2 C3] Hn Hm Hh [Hc Hf]. unfold sign_file. rewrite Hf.
  destruct (file_signature_ok ci stat contents junk Hjunk (sw_stat _ _ W) (sw_contents _ _ W) n m (HashAddPath ci (sg_Hash s) (m_Filename f))
    (msg ++ call_bytes (AddPath ci (m_Filename f))) (sg_Stat s) (sg_Digest s) (m_Filename f) exts) as (h & t & c & -> & Hh' & Ht & Hd); try done.
  { by apply (do_call_repr _ _ (AddPath ci (m_Filename f))). }
  cbn [mbind res_bind]. eexists. split; [done|]. cbn [sg_Hash]. split; [unfold file_message; by rewrite app_assoc|]. by split.
Qed.

Lemma sign_files_ok l : forall n m k s msg, caches_ok scanner n m k s -> zlen l <= n -> zlen l <= m -> hash_repr (sg_Hash s) msg -> Forall filed l ->
  exists s', foldM sign_file s l = OK s' /\ hash_repr (sg_Hash s') (msg ++ concat (map file_message (map m_Filename l))) /\
  caches_ok scanner (n - zlen l) (m - zlen l) k s'.
Proof.
  induction l as [|f l IH]; intros n m k s msg C Hn Hm Hh HF; cbn [foldM map concat length].
  { exists s. rewrite app_nil_r, !Z.sub_0_r. done. }
  apply Forall_cons in HF as [Hf HF]. cbn [length] in Hn, Hm.
  destruct (sign_file_ok n m k s msg f C) as (s1 & -> & H1 & C1); [lia..|done|done|]. cbn [mbind res_bind].
  destruct (IH (n - 1) (m - 1) k s1 (msg ++ file_message (m_Filename f)) C1) as (s2 & -> & H2 & C2); [lia..|exact H1|done|].
  exists s2. split; [done|]. rewrite app_assoc. split; [done|].
  replace (n - Z.of_nat (S (length l))) with (n - 1 - zlen l) by lia. by replace (m - Z.of_nat (S (length l))) with (m - 1 - zlen l) by lia.
Qed.

Lemma caches_le n m k n' m' k' s : n' <= n -> m' <= m -> k' <= k -> caches_ok scanner n m k s -> caches_ok scanner n' m' k' s.
Proof.
  intros H1 H2 H3 [C1 C2 C3]. split; [by apply (stat_valid_le ci stat n)|by apply (digest_valid_le ci stat contents m)|].
  intros cfg E. apply (scan_valid_le ci native stat open cfg files k); [done|by apply C3].
Qed.

(** Each file found is one of [files]. *)
Lemma out_length cfg root (out : list FrozenFileAndHash) : scan_world ci native stat open cfg files -> root ∈ files ->
  NoDup (map (fun x => canon ci (m_Filename x)) out) ->
  Forall (fun x => included native stat open cfg root (m_Filename x) /\ m_FilenameHash x = Djb2HashPath ci (m_Filename x)) out ->
  zlen out <= zlen files /\ Forall filed out.
Proof.
  intros SW Hr Hnd HF.
  assert (Hin : forall g, included native stat open cfg root g -> g ∈ files).
  { intros g Hg. induction Hg as [g Hg|f g _ IH Hg]; [by apply (wd_closed _ _ _ _ _ _ SW root)|by apply (wd_closed _ _ _ _ _ _ SW f)]. }
  rewrite Forall_forall in HF. split.
  - assert (Hs : map (canon ci) (map m_Filename out) ⊆+ map (canon ci) files).
    { apply NoDup_submseteq; [by rewrite map_map|]. intros k (g & -> & (x & -> & Hx)%list_elem_of_fmap)%list_elem_of_fmap.
      apply (list_elem_of_fmap_2 (canon ci)), Hin. by apply HF. }
    apply submseteq_length in Hs. rewrite !length_map in Hs. lia.
  - apply Forall_forall. intros x Hx. destruct (HF x Hx) as [Hi Hh]. split; [|done].
    apply (files_cstr native open cfg files (wd_files _ _ _ _ _ _ SW)). by apply Hin.
Qed.

Lemma sign_input_ok n m k s msg f : caches_ok scanner n m k s -> input_room scanner f <= n -> 1 + found_room scanner <= m -> 1 + found_room scanner <= k ->
  hash_repr (sg_Hash s) msg -> filed f -> f ∈ inputs ->
  exists s', sign_input scanner s f = OK s' /\ hash_repr (sg_Hash s') (msg ++ input_message scanner (m_Filename f)) /\
  caches_ok scanner (n - input_room scanner f) (m - (1 + found_room scanner)) (k - (1 + found_room scanner)) s'.
Proof.
  intros C Hn Hm Hk Hh Hf Hin. unfold sign_input, input_message, input_room in *.
  assert (0 <= scan_room scanner (m_Filename f) /\ 0 <= found_room scanner) as [Hs0 Hf0].
  { unfold scan_room, found_room. destruct scanner as [cfg|]; [|done]. pose proof (weigh_pos open cfg files). pose proof (cost_pos open cfg (m_Filename f)). lia. }
  destruct (sign_file_ok n m k s msg f C) as (s1 & -> & H1 & [C1 C2 C3]); [lia..|done|done|]. cbn [mbind res_bind].
  assert (scanner = None \/ exists cfg, scanner = Some cfg) as [E|[cfg E]] by (destruct scanner; eauto).
  - exists s1. assert (Er : forall f, scan_room scanner f = 0) by (intros; by rewrite E). assert (Ef : found_room scanner = 0) by (by rewrite E).
    rewrite Er, Ef. split; [by rewrite E|]. split; [rewrite E; by rewrite app_nil_r|]. apply (caches_le (n - 1) (m - 1) k); [lia..|]. by split.
  - destruct (sw_scan _ _ W cfg E) as [SW HF]. assert (Er : forall f, scan_room scanner f = cost open cfg f + weigh (cost open cfg) files) by (intros; by rewrite E).
    assert (Ef : found_room scanner = zlen files) by (by rewrite E). rewrite Er, Ef in *. replace (match scanner with Some cfg => concat (map file_message (deps_of cfg (m_Filename f))) | None => [] end)
      with (concat (map file_message (deps_of cfg (m_Filename f)))) by (by rewrite E).
    rewrite E. rewrite Forall_forall in HF. specialize (HF f Hin).
    set (X := cost open cfg (m_Filename f) + weigh (cost open cfg) files) in *.
    destruct (implicit_deps_ok ci native je jd stat open cfg Hje Hjd (wd_case _ _ _ _ _ _ SW) (wd_paths _ _ _ _ _ _ SW) (wd_keywords _ _ _ _ _ _ SW)
      files (wd_files _ _ _ _ _ _ SW) (wd_keys _ _ _ _ _ _ SW) (wd_closed _ _ _ _ _ _ SW) (m_Filename f) HF
      (n - 1 - X) (k - 1 - zlen files) ltac:(lia) ltac:(lia) fuel (sg_Stat s1) (sg_Scan s1)) as (t2 & c2 & out & -> & Ew & Hnd & _ & HFo & T2 & S2).
    { replace (n - 1 - X + cost open cfg (m_Filename f) + weigh (cost open cfg) files) with (n - 1) by (unfold X; lia). done. }
    { replace (k - 1 - zlen files + 1 + zlen files) with k by lia. by apply C3. }
    { apply SW. }
    { apply W. }
    cbn [mbind res_bind]. destruct (out_length cfg _ out SW HF Hnd HFo) as [Hl Hfd].
    destruct (sign_files_ok out (n - 1 - X) (m - 1) (k - 1 - zlen files) (mkSign (sg_Hash s1) t2 (sg_Digest s1) c2)
      (msg ++ file_message (m_Filename f))) as (s2 & -> & H2 & C4).
    + split; [done|done|]. rewrite E. intros ? [= <-]. done.
    + unfold X in *. lia.
    + lia.
    + exact H1.
    + done.
    + exists s2. split; [done|]. unfold deps_of. rewrite Ew, app_assoc. split; [done|]. rewrite <- E.
      apply (caches_le (n - 1 - X - zlen out) (m - 1 - zlen out) (k - 1 - zlen files)); [lia..|done].
Qed.

Lemma sign_inputs_ok l : forall n m k s msg, caches_ok scanner n m k s -> total (input_room scanner) l <= n ->
  zlen l * (1 + found_room scanner) <= m -> zlen l * (1 + found_room scanner) <= k ->
  hash_repr (sg_Hash s) msg -> Forall filed l -> (forall f, f ∈ l -> f ∈ inputs) ->
  exists s', foldM (sign_input scanner) s l = OK s' /\
  hash_repr (sg_Hash s') (msg ++ concat (map (fun f => input_message scanner (m_Filename f)) l)) /\
  caches_ok scanner (n - total (input_room scanner) l) (m - zlen l * (1 + found_room scanner)) (k - zlen l * (1 + found_room scanner)) s'.
Proof.
  assert (Hroom : 0 <= found_room scanner) by (unfold found_room; destruct scanner; lia).
  assert (Htotal : forall l, 0 <= total (input_room scanner) l).
  { intros l'. induction l' as [|f l' IH]; cbn [total foldr]; [done|]. fold (total (input_room scanner) l').
    assert (0 <= scan_room scanner (m_Filename f)); [|unfold input_room at 1; lia]. clear W IH. unfold scan_room. destruct scanner as [cfg|]; [|done].
    pose proof (weigh_pos open cfg files). pose proof (cost_pos open cfg (m_Filename f)). lia. }
  induction l as [|f l IH]; intros n m k s msg C Hn Hm Hk Hh HF Hin; cbn [foldM map concat length].
  { exists s. rewrite app_nil_r. cbn. rewrite !Z.sub_0_r. done. }
  apply Forall_cons in HF as [Hf HF]. cbn [length total foldr] in Hn, Hm, Hk |- *. fold (total (input_room scanner) l) in Hn |- *. specialize (Htotal l).
  destruct (sign_input_ok n m k s msg f C) as (s1 & -> & H1 & C1); [lia|nia|nia|done|done|apply Hin; set_solver|]. cbn [mbind res_bind].
  destruct (IH _ _ _ s1 (msg ++ input_message scanner (m_Filename f)) C1) as (s2 & -> & H2 & C2); [lia|nia|nia|done|done|intros; apply Hin; set_solver|].
  exists s2. split; [done|]. rewrite app_assoc. split; [done|]. eapply caches_le; [| | |exact C2]; lia.
Qed.

Lemma files_missing_ok l : forall n t, stat_valid ci stat n t -> zlen l <= n -> Forall filed l ->
  exists t', files_missing t l = OK (t', existsb (fun f => negb (exists_file stat (m_Filename f))) l) /\ stat_valid ci stat (n - zlen l) t'.
Proof.
  induction l as [|f l IH]; intros n t Ht Hn HF; cbn [files_missing existsb length] in *.
  { exists t. by rewrite Z.sub_0_r. }
  apply Forall_cons in HF as [[Hc Hf] HF]. rewrite Hf. destruct (stat_answers ci stat (sw_stat _ _ W) n t (m_Filename f) Ht) as (t1 & -> & H1); [lia|done|].
  cbn [mbind res_bind]. fold (exists_file stat (m_Filename f)). destruct (exists_file stat (m_Filename f)); cbn [negb orb].
  - destruct (IH (n - 1) t1 H1) as (t2 & -> & H2); [lia|done|]. exists t2. split; [done|]. eapply stat_valid_le; [|exact H2]. lia.
  - exists t1. split; [done|]. eapply stat_valid_le; [|exact H1]. lia.
Qed.

Lemma decide_cached_ok n t nd prev sig : stat_valid ci stat n t -> zlen (nd_OutputFiles nd) <= n -> Forall filed (nd_OutputFiles nd) ->
  exists t', decide_cached t nd prev sig = OK (t', CheckInputSignature_decide (exists_file stat) nd prev sig) /\ stat_valid ci stat (n - zlen (nd_OutputFiles nd)) t'.
Proof.
  intros Ht Hn HF. unfold decide_cached, CheckInputSignature_decide.
  assert (Hle : stat_valid ci stat (n - zlen (nd_OutputFiles nd)) t) by (eapply stat_valid_le; [|exact Ht]; lia).
  destruct prev as [p|]; [|by eauto]. destruct (negb (digest_eq _ _)); [by eauto|]. destruct (negb (nsd_BuildResult p =? 0)); [by eauto|].
  destruct (OutputFilesDiffer nd p); [by eauto|].
  unfold OutputFilesMissing_cached. destruct (files_missing_ok _ n t Ht Hn HF) as (t' & -> & H'). cbn [mbind res_bind]. eauto.
Qed.

Lemma CheckInputSignature_ok n m k t d c nd prev a : nd_Scanner nd = scanner -> nd_InputFiles nd = inputs -> nd_Action nd = Some a ->
  Forall filed (nd_OutputFiles nd) ->
  caches_ok scanner (n + total (input_room scanner) inputs + zlen (nd_OutputFiles nd)) (m + zlen inputs * (1 + found_room scanner)) (k + zlen inputs * (1 + found_room scanner))
    (mkSign (HashInit junk) t d c) -> 0 <= n -> 0 <= m -> 0 <= k ->
  exists t' d' c', let sig := digest_of (B := FastBackend) (node_message nd) in
  CheckInputSignature t d c nd prev = OK (t', d', c', sig, CheckInputSignature_decide (exists_file stat) nd prev sig) /\
  caches_ok scanner n m k (mkSign (HashInit junk) t' d' c').
Proof.
  intros Es Ei Ea Ho [C1 C2 C3] Hn Hm Hk. unfold CheckInputSignature. rewrite Ea. cbn [add_action mbind res_bind].
  set (h := add_pre_action _ _).
  assert (Hh : hash_repr h (action_message (nd_Action nd) ++ action_message (nd_PreAction nd))).
  { assert (H0 : hash_repr (HashAddSeparator (HashAddString (HashInit junk) a)) (cbytes a ++ [NUL])).
    { apply (do_call_repr _ _ AddSeparator), (do_call_repr _ [] (AddString a)). by apply HashInit_repr. }
    unfold h. rewrite Ea. cbn [action_message]. destruct (nd_PreAction nd) as [b|]; cbn [add_pre_action action_message]; [|by rewrite app_nil_r].
    rewrite app_assoc. by apply (do_call_repr _ _ AddSeparator), (do_call_repr _ _ (AddString b)). }
  rewrite Es, Ei. destruct (sign_inputs_ok inputs (n + total (input_room scanner) inputs + zlen (nd_OutputFiles nd)) (m + zlen inputs * (1 + found_room scanner))
    (k + zlen inputs * (1 + found_room scanner)) (mkSign h t d c)
    (action_message (nd_Action nd) ++ action_message (nd_PreAction nd))) as (s & -> & Hs & [S1 S2 S3]); [by split|lia|lia|lia|done|apply W|done|].
  cbn [mbind res_bind]. rewrite (HashFinalize_repr _ _ Hs). cbn [mbind res_bind].
  destruct (decide_cached_ok _ (sg_Stat s) nd prev (digest_of (B := FastBackend) (node_message nd)) S1) as (t' & E & Ht'); [lia|done|].
  exists t', (sg_Digest s), (sg_Scan s). unfold node_message in E |- *. rewrite Es, Ei, <- app_assoc in *. rewrite E. cbn [mbind res_bind]. split; [done|].
  apply (caches_le (n + total (input_room scanner) inputs + zlen (nd_OutputFiles nd) - total (input_room scanner) inputs - zlen (nd_OutputFiles nd))
    (m + zlen inputs * (1 + found_room scanner) - zlen inputs * (1 + found_room scanner))
    (k + zlen inputs * (1 + found_room scanner) - zlen inputs * (1 + found_room scanner))); [lia..|]. by split.
Qed.

End InputSignature.


(** A node that compiles the source file of [DemoInc]; headers are signed by
    their contents. *)
Module DemoSign.

Definition contents (p : cstr) : option cstr := match DemoInc.open p with Contents b => Some b | _ => None end.
Definition file (s : string) : FrozenFileAndHash := mkFile (s2l s) (Djb2HashPath false (s2l s)).
Definition nd : NodeData :=
  mkNodeData (Some (s2l "cc -c src/a.c")) None (s2l "Cc a.o") 0 [] [] [file "src/a.c"] [file "a.o"] [] [] (Some DemoInc.cfg) 0.
Definition exts : list Z := [Djb2Hash (s2l ".h")].

Lemma demo_sign_world : sign_world false kUnix DemoInc.stat DemoInc.open contents 4 DemoInc.files (nd_Scanner nd) (nd_InputFiles nd).
Proof.
  split; [intros p q E; cbn in E; by subst q..| | |cbn; lia].
  - constructor; [|constructor]. split; [repeat constructor; discriminate|done].
  - intros cfg [= <-]. split; [apply DemoInc.world|]. constructor; [|constructor]. cbn. set_solver.
Qed.

End DemoSign.

