(* ===== verification/RunAction.v ===== *)
(** * Running the action of a node

    The part of [RunAction] (BuildQueue.cpp) between giving the queue's mutex
    back and returning: the directories of the outputs are made, old outputs are
    removed, the commands run, and the stat cache is told about every output.
    The build queue's model takes the outcome, an [action_result], as given; here
    it is computed, in a world that answers the system calls. *)

From stdpp Require Import gmap sorting.
From S2P Require Import Prelude CommonFns DagData BuildQueue SortedArray HashTable HashSet StatCache PathUtil PathThms Scanner ScannerThms.

(** The system calls: [stat], [mkdir] (null or the value of [errno]), [remove]
    (whose result is ignored) and [ExecuteProcess] (return code and whether the
    child was signalled). *)
Class ActionWorld (W : Type) : Type := {
  aw_stat : W -> cstr -> stat_result;
  aw_mkdir : W -> cstr -> W * option Z;
  aw_remove : W -> cstr -> W;
  aw_exec : W -> cstr -> list EnvVarData -> Z -> W * (Z * bool)
}.

Definition EEXIST : Z := 17.

Section RunAction.
Context {W : Type} `{ActionWorld W}.
Context (ci : bool) (native : PathType) (je : list Z) (jd : cstr).

Definition MakeDirectory (w : W) (path : cstr) : W * bool :=
  let '(w, rc) := aw_mkdir w path in
  (w, match rc with None => true | Some errno => EEXIST =? errno end).

Fixpoint MakeDirectoriesRecursive (fuel : nat) (w : W) (stat_cache : StatCache) (dir : PathBuffer) : res (W * StatCache * bool) :=
  match fuel with
  | O => Err OutOfFuel
  | S fuel =>
      let parent_dir := (PathStripLast dir).1 in
      top ← path_eq dir parent_dir;
      match top with
      | true => OK (w, stat_cache, true)
      | false =>
          '(w, stat_cache, made) ← MakeDirectoriesRecursive fuel w stat_cache parent_dir;
          match made with
          | false => OK (w, stat_cache, false)
          | true =>
              path ← PathFormat dir;
              '(stat_cache, info) ← StatCacheStat ci (aw_stat w) stat_cache path (Djb2HashPath ci path);
              if Exists info then OK (w, stat_cache, true)
              else
                let '(w, success) := MakeDirectory w path in
                stat_cache ← StatCacheMarkDirty ci stat_cache path (Djb2HashPath ci path);
                OK (w, stat_cache, success)
          end
      end
  end.

(** The recursion ends at the root, after at most one call per segment. *)
Definition directory_fuel : nat := S (Z.to_nat kMaxPathSegments).

Definition MakeDirectoriesForFile (w : W) (stat_cache : StatCache) (buffer : PathBuffer) : res (W * StatCache * bool) :=
  MakeDirectoriesRecursive directory_fuel w stat_cache (PathStripLast buffer).1.

Fixpoint make_output_directories (w : W) (stat_cache : StatCache) (outputs : list FrozenFileAndHash) : res (W * StatCache * bool) :=
  match outputs with
  | [] => OK (w, stat_cache, true)
  | output_file :: outputs' =>
      output ← PathInit je jd (m_Filename output_file) native;
      '(w, stat_cache, made) ← MakeDirectoriesForFile w stat_cache output;
      match made with
      | false => OK (w, stat_cache, false)
      | true => make_output_directories w stat_cache outputs'
      end
  end.

(** [StatCacheMarkDirty] for every output. *)
Definition mark_outputs (stat_cache : StatCache) (outputs : list FrozenFileAndHash) : res StatCache :=
  foldM (fun stat_cache output => StatCacheMarkDirty ci stat_cache (m_Filename output) (m_FilenameHash output)) stat_cache outputs.

(** The loops that remove the outputs and mark them. *)
Definition remove_outputs (w : W) (stat_cache : StatCache) (outputs : list FrozenFileAndHash) : res (W * StatCache) :=
  foldM (fun '(w, stat_cache) output =>
    let w := aw_remove w (m_Filename output) in
    stat_cache ← StatCacheMarkDirty ci stat_cache (m_Filename output) (m_FilenameHash output);
    OK (w, stat_cache)) (w, stat_cache) outputs.

(** [cmd_line] is not null or empty here. *)
Definition run_commands (w : W) (nd : NodeData) (cmd_line : cstr) (job_id : Z) : W * (Z * bool) :=
  let '(w, result) := match nd_PreAction nd with
    | Some pre_cmd_line => aw_exec w pre_cmd_line (nd_EnvVars nd) job_id
    | None => (w, (0, false))
    end in
  if 0 =? result.1 then aw_exec w cmd_line (nd_EnvVars nd) job_id else (w, result).

Definition RunAction (w : W) (stat_cache : StatCache) (nd : NodeData) (cmd_line : cstr) (job_id : Z) : res (W * StatCache * action_result) :=
  '(w, stat_cache, made) ← make_output_directories w stat_cache (nd_OutputFiles nd);
  match made with
  | false => OK (w, stat_cache, DirectoriesFailed)
  | true =>
      '(w, stat_cache) ←
        (if 0 =? Z.land (nd_Flags nd) kFlagOverwriteOutputs then remove_outputs w stat_cache (nd_OutputFiles nd) else OK (w, stat_cache));
      let '(w, (return_code, was_signalled)) := run_commands w nd cmd_line job_id in
      stat_cache ← mark_outputs stat_cache (nd_OutputFiles nd);
      '(w, stat_cache) ←
        (if 0 =? return_code then OK (w, stat_cache)
         else if 0 =? Z.land kFlagPreciousOutputs (nd_Flags nd) then remove_outputs w stat_cache (nd_OutputFiles nd) else OK (w, stat_cache));
      OK (w, stat_cache, Executed return_code was_signalled)
  end.

(** ** What the world promises *)

Definition exists_in (w : W) (p : cstr) : Prop := Exists (GetFileInfo (aw_stat w p)) = true.

(** [mkdir] makes the directory or says that it exists, and removes nothing. *)
Class ActionWorldOk : Prop := {
  ok_case : forall w p q, canon ci p = canon ci q -> aw_stat w p = aw_stat w q;
  ok_made : forall w p w' rc, aw_mkdir w p = (w', rc) -> rc = None \/ rc = Some EEXIST -> exists_in w' p;
  ok_kept : forall w p q, exists_in w q -> exists_in (aw_mkdir w p).1 q }.
Context {WOk : ActionWorldOk}.

(** A cache that does not know of a file that is gone, with room for [n] more
    records. *)
Record grounded (n : Z) (w : W) (t : StatCache) : Prop := {
  gr_table : ht_ok t;
  gr_hash : forall x, x ∈ entries t -> cstr_ok (sl_String x) /\ sl_Hash x = Djb2HashPath ci (sl_String x);
  gr_exists : forall x, x ∈ entries t -> Exists (sl_Payload x) = true -> exists_in w (sl_String x);
  gr_room : ht_RecordCount t + n < 2 ^ 27 }.

Lemma grounded_le n m w t : m <= n -> grounded n w t -> grounded m w t.
Proof. intros Hm [? ? ? ?]. split; try done. lia. Qed.

Lemma grounded_world n w w' t : (forall p, exists_in w p -> exists_in w' p) -> grounded n w t -> grounded n w' t.
Proof. intros Hw [? ? He ?]. split; try done. intros x Hx Hex. by apply Hw, He. Qed.

Lemma grounded_marked n w t t' : marked_from ci t t' -> grounded n w t -> grounded n w t'.
Proof.
  intros [M1 M2 M3 _] [G1 G2 G3 G4]. split; [done| | |by rewrite M2].
  - intros x Hx. destruct (M3 x Hx) as (y & Hy & -> & -> & _). by apply G2.
  - intros x Hx He. destruct (M3 x Hx) as (y & Hy & Es & _ & Ep). rewrite Es. apply G3; [done|]. destruct Ep as [Ep|Ep]; [by rewrite <- Ep|].
    unfold Exists in He. by rewrite Ep in He.
Qed.

Lemma stat_grounded n w t p : grounded n w t -> 0 < n -> cstr_ok p ->
  exists t' i, StatCacheStat ci (aw_stat w) t p (Djb2HashPath ci p) = OK (t', i) /\ grounded (n - 1) w t' /\ (Exists i = true -> exists_in w p).
Proof.
  intros G Hn Hp. unfold StatCacheStat, StatCacheStat_read, HashTableLookup.
  assert (Hmiss : exists t' i, (self ← StatCacheInsert t (Djb2HashPath ci p) p (GetFileInfo (aw_stat w p)); OK (self, GetFileInfo (aw_stat w p))) = OK (t', i) /\
    grounded (n - 1) w t' /\ (Exists i = true -> exists_in w p)).
  { pose proof (gr_room n w t G) as Hr.
    destruct (insert_ok no_info t (Djb2HashPath ci p) p (GetFileInfo (aw_stat w p)) (gr_table n w t G) (Djb2HashPath_range ci p)) as (t' & E & Hok & HP); [lia|].
    unfold StatCacheInsert. rewrite E. cbn [mbind res_bind]. exists t', (GetFileInfo (aw_stat w p)). split; [done|]. split; [|done]. split; [done| | |].
    - intros x. rewrite HP. intros [->|Hx]%elem_of_cons; [done|by apply (gr_hash n w t G)].
    - intros x. rewrite HP. intros [->|Hx]%elem_of_cons; [done|by apply (gr_exists n w t G)].
    - rewrite count_entries, HP by done. cbn [length]. rewrite count_entries in Hr by apply G. lia. }
  destruct (base_lookup_ok ci t (Djb2HashPath ci p) p (gr_table n w t G)) as [[-> Hno]|(i & x & -> & Hi & Hs & Hin & Hm)]; cbn [mbind res_bind]; [done|].
  rewrite (proj2 (Z.eqb_neq (-1) i)) by lia. rewrite Hs. cbn [of_opt mbind res_bind]. destruct (is_dirty (sl_Payload x)); [done|].
  exists t, (sl_Payload x). split; [done|]. split; [apply (grounded_le n); [lia|done]|]. intros He. destruct (gr_hash n w t G x Hin) as [Hc Hh].
  apply matches_key in Hm; try done. injection Hm as _ Hm. unfold exists_in. rewrite <- (ok_case w _ _ Hm). by apply (gr_exists n w t G).
Qed.

(** ** Directories *)

Lemma MakeDirectory_ok w p : exists w' b, MakeDirectory w p = (w', b) /\ (forall q, exists_in w q -> exists_in w' q) /\ (b = true -> exists_in w' p).
Proof.
  unfold MakeDirectory. pose proof (ok_kept w p) as Hk. destruct (aw_mkdir w p) as [w' rc] eqn:E. eexists _, _. split; [done|]. split; [done|].
  destruct rc as [e|]; [|intros _; by apply (ok_made w p w' None E); left]. intros Ee%Z.eqb_eq. subst e. apply (ok_made w p w' (Some EEXIST) E). by right.
Qed.

(** The directories above and including [a], from the root down: its root
    is not one of them. *)
Fixpoint ancestors (n : nat) (a : apath) : list apath :=
  match n with
  | O => []
  | S n => if (if adevice a then 1 else 0) <? zlen (ap_Segs a) then ancestors n (astrip a) ++ [a] else []
  end.

Definition directories (f : cstr) : list apath := let d := astrip (parse native f) in ancestors (length (ap_Segs d)) d.

Lemma path_eq_refl p a : repr p a -> path_eq p p = OK true.
Proof.
  intros R. unfold path_eq. rewrite Z.eqb_refl. cbn [negb]. destruct (Z.eqb_spec (pb_SegCount p) 0) as [|Hn]; [done|]. rewrite bool_decide_true by done.
  rewrite (rp_count _ _ R) in *. destruct (lookup_lt_is_Some_2 (ap_Segs a) (pred (length (ap_Segs a)))) as [s Hs]; [lia|].
  replace (zlen (ap_Segs a) - 1) with (Z.of_nat (pred (length (ap_Segs a)))) by lia. rewrite (seg_length _ _ R _ s Hs). cbn [mbind res_bind].
  by rewrite bool_decide_true.
Qed.

Lemma path_eq_parent p a : repr p a -> path_eq p (PathStripLast p).1 = OK (negb ((if adevice a then 1 else 0) <? zlen (ap_Segs a))).
Proof.
  intros R. unfold PathStripLast. rewrite (rp_count _ _ R). replace (is_device p) with (adevice a) by (unfold is_device, adevice; by rewrite (rp_flags _ _ R)).
  destruct (Z.ltb_spec (if adevice a then 1 else 0) (zlen (ap_Segs a))); cbn [fst negb]; [|by apply (path_eq_refl _ a)].
  unfold path_eq. cbn [with_count pb_SegCount]. rewrite (rp_count _ _ R). by rewrite (proj2 (Z.eqb_neq _ _)) by lia.
Qed.

Lemma astrip_shorter a : (if adevice a then 1 else 0) < zlen (ap_Segs a) -> length (ap_Segs a) = S (length (ap_Segs (astrip a))).
Proof.
  intros Hl. unfold astrip. rewrite (proj2 (Z.ltb_lt _ _) Hl). cbn [ap_Segs with_segs]. rewrite removelast_firstn_len, length_take.
  destruct (adevice a); lia.
Qed.

Lemma astrip_cstr a : Forall cstr_ok (ap_Segs a) -> Forall cstr_ok (ap_Segs (astrip a)).
Proof. intros HF. unfold astrip. case_match; [|done]. cbn [ap_Segs with_segs]. rewrite removelast_firstn_len. by apply Forall_take. Qed.

Definition formats (l : list apath) : Prop := Forall (fun d => zlen (format d) + 1 < kMaxPathLength) l.

Lemma make_recursive_ok fuel : forall n w t p a, repr p a -> Forall cstr_ok (ap_Segs a) -> formats (ancestors (length (ap_Segs a)) a) ->
  (length (ap_Segs a) < fuel)%nat -> grounded n w t -> zlen (ap_Segs a) <= n ->
  exists w' t' b, MakeDirectoriesRecursive fuel w t p = OK (w', t', b) /\ (forall q, exists_in w q -> exists_in w' q) /\
  grounded (n - zlen (ap_Segs a)) w' t' /\ (b = true -> Forall (fun d => exists_in w' (format d)) (ancestors (length (ap_Segs a)) a)).
Proof.
  induction fuel as [|fuel IH]; intros n w t p a R Hc Hf Hfuel G Hn; [lia|]. cbn [MakeDirectoriesRecursive].
  rewrite (path_eq_parent p a R). cbn [mbind res_bind].
  destruct (Z.ltb_spec (if adevice a then 1 else 0) (zlen (ap_Segs a))) as [Hl|Hl]; cbn [negb].
  2:{ exists w, t, true. split; [done|]. split; [done|]. split; [apply (grounded_le n); [lia|done]|]. intros _.
      destruct (ap_Segs a) as [|s l] eqn:Es; [constructor|]. cbn [ancestors length]. rewrite Es. by rewrite (proj2 (Z.ltb_ge _ _)). }
  pose proof (astrip_shorter a Hl) as El. set (m := length (ap_Segs (astrip a))) in *. rewrite El in Hf |- *. cbn [ancestors] in Hf |- *.
  rewrite (proj2 (Z.ltb_lt _ _) Hl) in Hf |- *. apply Forall_app in Hf as [Hf Hfa]. apply Forall_cons in Hfa as [Hfa _].
  destruct (IH n w t (PathStripLast p).1 (astrip a)) as (w1 & t1 & b1 & -> & Hw1 & G1 & H1); [by apply strip_ok|by apply astrip_cstr|done|lia|done|lia|].
  cbn [mbind res_bind]. fold m in G1, H1. destruct b1.
  2:{ exists w1, t1, false. split_and!; try done. apply (grounded_le (n - Z.of_nat m)); [lia|done]. }
  rewrite (PathFormat_ok p a R Hfa). cbn [mbind res_bind].
  destruct (stat_grounded _ w1 t1 (format a) G1) as (t2 & i & -> & G2 & H2); [lia|by apply format_cstr|]. cbn [mbind res_bind].
  destruct (Exists i) eqn:Ei.
  { exists w1, t2, true. split; [done|]. split; [done|]. split; [apply (grounded_le (n - Z.of_nat m - 1)); [lia|done]|]. intros _.
    apply Forall_app. split; [by apply H1|]. constructor; [by apply H2|constructor]. }
  destruct (MakeDirectory_ok w1 (format a)) as (w2 & b & -> & Hw2 & Hb).
  destruct (mark_ok ci t2 (format a) (Djb2HashPath ci (format a)) (gr_table _ _ _ G2)) as (t3 & -> & M & _). cbn [mbind res_bind].
  exists w2, t3, b. split; [done|]. split; [by intros q Hq; apply Hw2, Hw1|]. split.
  { apply (grounded_le (n - Z.of_nat m - 1)); [lia|]. by apply (grounded_marked _ _ t2), (grounded_world _ w1). }
  intros ->. apply Forall_app. split; [|by constructor; [apply Hb|constructor]]. eapply Forall_impl; [by apply H1|]. intros d Hd. by apply Hw2.
Qed.

(** ** The outputs *)

Record output_ok (f : FrozenFileAndHash) : Prop := {
  oo_path : path_ok native (m_Filename f);
  oo_hash : m_FilenameHash f = Djb2HashPath ci (m_Filename f);
  oo_formats : formats (directories (m_Filename f)) }.

Context (Hje : zlen je = kMaxPathSegments) (Hjd : zlen jd = kMaxPathLength).

Lemma make_outputs_ok outs : forall n w t, grounded n w t -> kMaxPathSegments * zlen outs <= n -> Forall output_ok outs ->
  exists w' t' b, make_output_directories w t outs = OK (w', t', b) /\ (forall q, exists_in w q -> exists_in w' q) /\
  grounded (n - kMaxPathSegments * zlen outs) w' t' /\
  (b = true -> Forall (fun f => Forall (fun d => exists_in w' (format d)) (directories (m_Filename f))) outs).
Proof.
  induction outs as [|f outs IH]; intros n w t G Hn HF; cbn [make_output_directories length] in *.
  { exists w, t, true. split_and!; try done. by rewrite Z.mul_0_r, Z.sub_0_r. }
  apply Forall_cons in HF as [[Hp _ Hfm] HF]. destruct (init_path_ok native je jd Hje Hjd (m_Filename f) Hp) as (p & -> & R). cbn [mbind res_bind].
  pose proof (strip_ok p _ R) as R'. set (d := astrip (parse native (m_Filename f))) in *. pose proof (rp_count_max _ _ R') as Hd. unfold kMaxPathSegments in *.
  destruct (make_recursive_ok directory_fuel n w t _ d R') as (w1 & t1 & b & E & Hw1 & G1 & H1);
    [apply astrip_cstr, segs_cstr, Hp|done|unfold directory_fuel, kMaxPathSegments; lia|done|lia|].
  unfold MakeDirectoriesForFile. rewrite E. cbn [mbind res_bind]. destruct b.
  2:{ exists w1, t1, false. split_and!; try done. apply (grounded_le (n - zlen (ap_Segs d))); [lia|done]. }
  destruct (IH (n - zlen (ap_Segs d)) w1 t1 G1) as (w2 & t2 & b & -> & Hw2 & G2 & H2); [lia|done|].
  exists w2, t2, b. split; [done|]. split; [by intros q Hq; apply Hw2, Hw1|]. split; [eapply grounded_le; [|exact G2]; lia|].
  intros Hb. constructor; [|by apply H2]. eapply Forall_impl; [by apply H1|]. intros x Hx. by apply Hw2.
Qed.

(** The next question for each of these goes to the file system. *)
Definition forgotten (t : StatCache) (outs : list FrozenFileAndHash) : Prop :=
  Forall (fun f => StatCacheStat_read ci t (m_Filename f) (m_FilenameHash f) = OK None) outs.

Lemma forgotten_marked t t' outs : marked_from ci t t' -> forgotten t outs -> forgotten t' outs.
Proof. intros M HF. eapply Forall_impl; [exact HF|]. intros f. apply (mf_missed ci t t' M). Qed.

Lemma mark_outputs_ok outs : forall t, ht_ok t -> exists t', mark_outputs t outs = OK t' /\ marked_from ci t t' /\ forgotten t' outs.
Proof.
  unfold mark_outputs. induction outs as [|f outs IH]; intros t Ht; cbn [foldM].
  { exists t. split; [done|]. split; [by apply marks_refl|constructor]. }
  destruct (mark_ok ci t (m_Filename f) (m_FilenameHash f) Ht) as (t1 & -> & M1 & H1). cbn [mbind res_bind].
  destruct (IH t1 (mf_table ci t t1 M1)) as (t2 & -> & M2 & H2). exists t2. split; [done|]. split; [by eapply marks_trans|].
  constructor; [by apply (mf_missed ci t1 t2 M2)|done].
Qed.

Definition remove_all (w : W) (outs : list FrozenFileAndHash) : W := foldl (fun w f => aw_remove w (m_Filename f)) w outs.

Lemma remove_outputs_ok outs : forall w t, ht_ok t ->
  exists t', remove_outputs w t outs = OK (remove_all w outs, t') /\ marked_from ci t t' /\ forgotten t' outs.
Proof.
  unfold remove_outputs, remove_all. induction outs as [|f outs IH]; intros w t Ht; cbn [foldM foldl].
  { exists t. split; [done|]. split; [by apply marks_refl|constructor]. }
  destruct (mark_ok ci t (m_Filename f) (m_FilenameHash f) Ht) as (t1 & -> & M1 & H1). cbn [mbind res_bind].
  destruct (IH (aw_remove w (m_Filename f)) t1 (mf_table ci t t1 M1)) as (t2 & -> & M2 & H2). exists t2. split; [done|]. split; [by eapply marks_trans|].
  constructor; [by apply (mf_missed ci t1 t2 M2)|done].
Qed.

(** Removing works, and brings nothing back. *)
Definition removes : Prop := forall w p, ~ exists_in (aw_remove w p) p /\ forall q, exists_in (aw_remove w p) q -> exists_in w q.

Lemma remove_all_ok outs : removes -> forall w, Forall (fun f => ~ exists_in (remove_all w outs) (m_Filename f)) outs.
Proof.
  intros Hr. assert (Hold : forall l w q, exists_in (remove_all w l) q -> exists_in w q).
  { induction l as [|f l IH]; intros w q Hq; [done|]. by apply (Hr w (m_Filename f)), IH. }
  induction outs as [|f outs IH]; intros w; constructor; [|apply IH].
  intros He. by apply (Hr w (m_Filename f)), (Hold outs).
Qed.

(** ** Commands in order *)

(** Each command of a list runs in the world that the one before has left, until
    one fails or the last has run, whose result it is. *)
Inductive runs (env : list EnvVarData) (job_id : Z) : W -> list cstr -> W -> Z * bool -> Prop :=
| runs_last w cmd w' result : aw_exec w cmd env job_id = (w', result) -> runs env job_id w [cmd] w' result
| runs_next w cmd w1 signalled cmds w' result : aw_exec w cmd env job_id = (w1, (0, signalled)) ->
    runs env job_id w1 cmds w' result -> runs env job_id w (cmd :: cmds) w' result
| runs_stop w cmd cmds w' rc signalled : aw_exec w cmd env job_id = (w', (rc, signalled)) -> rc <> 0 ->
    runs env job_id w (cmd :: cmds) w' (rc, signalled).

(** The pre-action, if there is one, then the action. *)
Definition commands (nd : NodeData) (cmd_line : cstr) : list cstr := option_list (nd_PreAction nd) ++ [cmd_line].

Lemma run_commands_runs w nd cmd_line job_id w' result : run_commands w nd cmd_line job_id = (w', result) ->
  runs (nd_EnvVars nd) job_id w (commands nd cmd_line) w' result.
Proof.
  unfold run_commands, commands. destruct (nd_PreAction nd) as [pre|]; [|by apply runs_last].
  destruct (aw_exec w pre _ job_id) as [w1 [rc sig]] eqn:E. cbn [fst option_list app]. destruct (Z.eqb_spec 0 rc) as [<-|Hne].
  - intros E'. eapply runs_next; [done|]. by apply runs_last.
  - intros [= <- <-]. by apply runs_stop.
Qed.

(** The outcome of an action: the directories are there, the old outputs are
    gone unless the action overwrites them, the commands have run, and the outputs
    of a failed action are removed unless they are precious. *)
Record outcome (nd : NodeData) (cmd_line : cstr) (job_id : Z) (w1 w' : W) (r : action_result) : Prop := {
  oc_dirs : Forall (fun f => Forall (fun d => exists_in w1 (format d)) (directories (m_Filename f))) (nd_OutputFiles nd);
  oc_run : exists w2 w3 rc signalled,
    w2 = (if 0 =? Z.land (nd_Flags nd) kFlagOverwriteOutputs then remove_all w1 (nd_OutputFiles nd) else w1) /\
    runs (nd_EnvVars nd) job_id w2 (commands nd cmd_line) w3 (rc, signalled) /\
    r = Executed rc signalled /\
    w' = if negb (0 =? rc) && (0 =? Z.land kFlagPreciousOutputs (nd_Flags nd)) then remove_all w3 (nd_OutputFiles nd) else w3;
  oc_clean : removes -> action_progress r = kFailed -> Z.land kFlagPreciousOutputs (nd_Flags nd) = 0 ->
    Forall (fun f => ~ exists_in w' (m_Filename f)) (nd_OutputFiles nd) }.

Lemma run_action_ok n w t nd cmd_line job_id : grounded n w t -> kMaxPathSegments * zlen (nd_OutputFiles nd) <= n -> Forall output_ok (nd_OutputFiles nd) ->
  exists w' t' r, RunAction w t nd cmd_line job_id = OK (w', t', r) /\ ht_ok t' /\
  ((r = DirectoriesFailed /\ grounded 0 w' t' /\ forall q, exists_in w q -> exists_in w' q) \/
   exists w1, (forall q, exists_in w q -> exists_in w1 q) /\ outcome nd cmd_line job_id w1 w' r /\ forgotten t' (nd_OutputFiles nd)).
Proof.
  intros G Hn HF. unfold RunAction. destruct (make_outputs_ok _ n w t G Hn HF) as (w1 & t1 & b & -> & Hw1 & G1 & H1). cbn [mbind res_bind].
  destruct b.
  2:{ exists w1, t1, DirectoriesFailed. split; [done|]. split; [apply G1|]. left. split_and!; try done. apply (grounded_le (n - kMaxPathSegments * zlen (nd_OutputFiles nd))); [lia|done]. }
  set (w2 := if 0 =? Z.land (nd_Flags nd) kFlagOverwriteOutputs then remove_all w1 (nd_OutputFiles nd) else w1).
  assert (exists t2, (if 0 =? Z.land (nd_Flags nd) kFlagOverwriteOutputs then remove_outputs w1 t1 (nd_OutputFiles nd) else OK (w1, t1)) = OK (w2, t2) /\ ht_ok t2) as (t2 & -> & Hok2).
  { unfold w2. case_match; [|exists t1; split; [done|apply G1]]. destruct (remove_outputs_ok (nd_OutputFiles nd) w1 t1 (gr_table _ _ _ G1)) as (t2 & -> & M & _).
    exists t2. split; [done|apply M]. }
  cbn [mbind res_bind]. destruct (run_commands w2 nd cmd_line job_id) as [w3 [rc sig]] eqn:Er.
  destruct (mark_outputs_ok (nd_OutputFiles nd) t2 Hok2) as (t3 & -> & M3 & F3). cbn [mbind res_bind].
  set (w4 := if negb (0 =? rc) && (0 =? Z.land kFlagPreciousOutputs (nd_Flags nd)) then remove_all w3 (nd_OutputFiles nd) else w3).
  assert (exists t4, (if 0 =? rc then OK (w3, t3) else if 0 =? Z.land kFlagPreciousOutputs (nd_Flags nd) then remove_outputs w3 t3 (nd_OutputFiles nd) else OK (w3, t3)) =
    OK (w4, t4) /\ ht_ok t4 /\ forgotten t4 (nd_OutputFiles nd)) as (t4 & -> & Hok4 & F4).
  { pose proof (mf_table _ _ _ M3) as Hok3. unfold w4. destruct (0 =? rc); cbn [negb andb]; [eauto|]. case_match; [|eauto].
    destruct (remove_outputs_ok (nd_OutputFiles nd) w3 t3 Hok3) as (t4 & -> & M4 & F4). exists t4. split; [done|]. split; [apply M4|done]. }
  cbn [mbind res_bind]. exists w4, t4, (Executed rc sig). split; [done|]. split; [done|]. right. exists w1. split; [done|]. split; [|done].
  split; [by apply H1|exists w2, w3, rc, sig; split_and!; try done; by apply run_commands_runs|]. intros Hr Hf Hp. cbn [action_progress] in Hf. unfold w4. rewrite Hp. destruct (0 =? rc); [done|].
  cbn [negb andb]. change (0 =? 0) with true. by apply remove_all_ok.
Qed.

End RunAction.

(** C14. An action leaves the file system and the stat cache consistent. With a stat
    cache that knows of no file that is gone, the unlocked part of [RunAction]
    ends without a fault. Either a directory could not be made: then no command
    ran, and nothing that existed is gone. Or every directory above every
    output existed, the old outputs were removed unless they are overwritten,
    the pre-action, if the node has one, ran first and the action ran in the world
    it left if and only if it returned 0, and the stat cache has
    forgotten every output, so that the next question about one is put to the
    file system; when the action failed and its outputs are not precious, none of
    them is left, provided that [remove] works. *)
Theorem run_action_consistent {W} `{ActionWorld W} ci native je jd `{!ActionWorldOk ci} n w t nd cmd_line job_id :
  zlen je = kMaxPathSegments -> zlen jd = kMaxPathLength ->
  grounded ci n w t -> kMaxPathSegments * zlen (nd_OutputFiles nd) <= n -> Forall (output_ok ci native) (nd_OutputFiles nd) ->
  exists w' t' r, RunAction ci native je jd w t nd cmd_line job_id = OK (w', t', r) /\ ht_ok t' /\
  ((r = DirectoriesFailed /\ grounded ci 0 w' t' /\ forall q, exists_in w q -> exists_in w' q) \/
   exists w1, (forall q, exists_in w q -> exists_in w1 q) /\ outcome native nd cmd_line job_id w1 w' r /\ forgotten ci t' (nd_OutputFiles nd)).
Proof. intros Hje Hjd. by apply run_action_ok. Qed.

(** A world of files without contents: the command [gen] makes a header, and the
    command [cc] makes an object file, and fails when the header is not there. *)
Module DemoAction.

Definition object : cstr := s2l "out/obj/a.o".
Definition header : cstr := s2l "a.h".

Instance world : ActionWorld (list cstr) := {
  aw_stat w p := if bool_decide (p ∈ w) then StatOK S_IFDIR 1 0 else StatFailed ENOENT;
  aw_mkdir w p := if bool_decide (p ∈ w) then (w, Some EEXIST) else (p :: w, None);
  aw_remove w p := filter (fun q => q <> p) w;
  aw_exec w cmd _ _ :=
    if bool_decide (cmd = s2l "gen") then (header :: w, (0, false))
    else (object :: w, (if bool_decide (header ∈ w) then 0 else 1, false))
}.

Lemma exists_in_iff w p : exists_in w p <-> p ∈ w.
Proof. unfold exists_in. cbn. case_bool_decide; split; done. Qed.

Instance world_ok : ActionWorldOk false.
Proof.
  split.
  - intros w p q E. cbn in E. by subst q.
  - intros w p w' rc E _. rewrite exists_in_iff. cbn in E. case_bool_decide; injection E as <- _; set_solver.
  - intros w p q. rewrite !exists_in_iff. cbn. case_bool_decide; set_solver.
Qed.

(** Without its pre-action the action fails. *)
Definition nd (pre : option cstr) : NodeData :=
  mkNodeData (Some (s2l "cc")) pre (s2l "Cc") 0 [] [] [] [mkFile object (Djb2HashPath false object)] [] [] None 0.

End DemoAction.

Lemma run_action_consistent_witness :
  (exists t', RunAction (H := DemoAction.world) false kUnix junk_e junk_d [] StatCacheInit (DemoAction.nd None) (s2l "cc") 0 =
    OK ([s2l "out/obj"; s2l "out"], t', Executed 1 false)) /\
  exists t', RunAction (H := DemoAction.world) false kUnix junk_e junk_d [] StatCacheInit (DemoAction.nd (Some (s2l "gen"))) (s2l "cc") 0 =
    OK ([DemoAction.object; DemoAction.header; s2l "out/obj"; s2l "out"], t', Executed 0 false) /\
    forgotten false t' (nd_OutputFiles (DemoAction.nd (Some (s2l "gen")))).
Proof.
  split; [eexists; vm_compute; reflexivity|].
  destruct (run_action_consistent (H := DemoAction.world) (ActionWorldOk0 := DemoAction.world_ok) false kUnix junk_e junk_d 64 [] StatCacheInit
    (DemoAction.nd (Some (s2l "gen"))) (s2l "cc") 0 eq_refl eq_refl)
    as (w' & t' & r & E & _ & [[-> _]|(w1 & _ & [_ Hr _] & Hf)]).
  - split; [by left|by intros ? ?%elem_of_nil|by intros ? ?%elem_of_nil|vm_compute; reflexivity].
  - vm_compute. discriminate.
  - constructor; [|constructor]. split.
    + split; [apply (bool_decide_eq_true_1 _); vm_compute; reflexivity|vm_compute; reflexivity|vm_compute; discriminate|vm_compute; discriminate|vm_compute; reflexivity].
    + reflexivity.
    + match goal with |- formats ?s => let v := eval vm_compute in s in change s with v end. repeat (constructor; [vm_compute; reflexivity|]). constructor.
  - exfalso. vm_compute in E. discriminate.
  - clear Hr. vm_compute in E. injection E as <- <- <-. eexists. split; [|exact Hf]. vm_compute. reflexivity.
Defined.
