(* ===== verification/Driver.v ===== *)
(** * The driver: from the DAG to a prepared build

    Models the first half of src/src/Driver.cpp: options, the check that the
    frozen DAG is current, selecting nodes for the command line, preparing the
    node states and configuring the build queue. What the file system answers
    (mapped files, time stamps, directory digests, the working directory) and
    what running the Lua front end does are parameters. *)

From stdpp Require Import sorting.
From S2P Require Import Prelude CommonFns Hash HashImpl DagData BuildQueue SortedArray PathUtil BitSet TargetSelect BinaryWriter.

(** ** Options *)

Record DriverOptions : Type := mkOptions {
  opt_ShowHelp : bool; opt_DryRun : bool; opt_ForceDagRegen : bool; opt_ShowTargets : bool;
  opt_DebugMessages : bool; opt_Verbose : bool; opt_SpammyVerbose : bool; opt_DisplayStats : bool;
  opt_GenDagOnly : bool; opt_Quiet : bool; opt_IdeGen : bool; opt_Clean : bool; opt_Rebuild : bool;
  opt_DebugSigning : bool; opt_ContinueOnError : bool; opt_QuickstartGen : bool;
  opt_ThreadCount : Z;
  opt_WorkingDir : option cstr; opt_DAGFileName : cstr; opt_ProfileOutput : option cstr }.

Definition DriverOptionsInit (cpu_count : Z) : DriverOptions :=
  mkOptions false false false false false false false false false false false false false false false false
    cpu_count None (s2l ".tundra2.dag") None.

Definition kMaxPasses : Z := 64.

(** The members the functions below use. *)
Record Driver : Type := mkDriver {
  dr_Options : DriverOptions;
  dr_DagData : DagData;
  dr_StateData : option StateData;
  dr_NodeRemap : list Z;
  dr_Nodes : list NodeState;
  dr_PassNodeCount : list Z }.

(** [DriverInit], with the DAG and the state [DriverInitData] loads. *)
Definition DriverInit (options : DriverOptions) (dag : DagData) (state : option StateData) : Driver :=
  mkDriver options dag state [] [] (replicate (Z.to_nat kMaxPasses) 0).

(** ** Loading frozen data *)

(** The mapped bytes when the size and the magic number fit; [mapping] is what
    [MmapFileMap] gives. *)
Definition LoadFrozenData (sizeof magic : Z) (mapping : option (list Z)) : option (list Z) :=
  match mapping with
  | Some bytes =>
      if zlen bytes <? sizeof then None
      else if bool_decide (read_u32 bytes 0 = Some magic) then Some bytes else None
  | None => None
  end.

Section Dag.
(** Whether CHECKED_BUILD is on, and the outside world: what is in the DAG file,
    running the front end, time stamps and digests of directory listings. *)
Context {W : Type} (checked : bool) (load_dag : W -> option DagData) (generate_dag : W -> res (W * bool))
  (timestamp : W -> cstr -> Z) (glob_signature : W -> cstr -> res HashDigest).

(** The paranoia check of a checked build. *)
Fixpoint guids_sorted (guids : list HashDigest) : res unit :=
  match guids with
  | a :: (b :: _) as rest => if digest_lt b a then Err (Croak "DAG data is not sorted by guid") else guids_sorted rest
  | _ => OK tt
  end.

Fixpoint file_signatures_match (w : W) (sigs : list DagFileSignature) : bool :=
  match sigs with
  | [] => true
  | sig :: sigs' => if negb (timestamp w (fsig_Path sig) =? fsig_Timestamp sig) then false else file_signatures_match w sigs'
  end.

Fixpoint glob_signatures_match (w : W) (sigs : list DagGlobSignature) : res bool :=
  match sigs with
  | [] => OK true
  | sig :: sigs' =>
      digest ← glob_signature w (gsig_Path sig);
      if negb (digest_eq digest (gsig_Digest sig)) then OK false else glob_signatures_match w sigs'
  end.

Definition DriverCheckDagSignatures (w : W) (dag_data : DagData) : res bool :=
  _ ← (if checked then guids_sorted (dag_NodeGuids dag_data) else OK tt);
  if kMaxPasses <? zlen (dag_Passes dag_data) then OK false
  else if negb (file_signatures_match w (dag_FileSignatures dag_data)) then OK false
  else glob_signatures_match w (dag_GlobSignatures dag_data).

(** The second half: generate, load and, in a checked build, check. *)
Definition regenerate_dag (w : W) : res (W * option DagData) :=
  '(w, ok) ← generate_dag w;
  if negb ok then OK (w, None) else
  match load_dag w with
  | None => OK (w, None)
  | Some dag =>
      _ ← (if checked then b ← DriverCheckDagSignatures w dag; check b "DriverCheckDagSignatures(self)" else OK tt);
      OK (w, Some dag)
  end.

(** [None] stands for the return value [false]. *)
Definition DriverPrepareDag (options : DriverOptions) (w : W) : res (W * option DagData) :=
  if opt_ForceDagRegen options then regenerate_dag w else
  match load_dag w with
  | Some dag =>
      b ← DriverCheckDagSignatures w dag;
      match b with true => OK (w, Some dag) | false => regenerate_dag w end
  | None => regenerate_dag w
  end.
End Dag.

(** ** Selecting nodes *)

Fixpoint find_tuple (tuples : list BuildTupleData) (spec : TargetSpec) : option BuildTupleData :=
  match tuples with
  | [] => None
  | tuple :: tuples' =>
      if (bt_ConfigIndex tuple =? ts_ConfigIndex spec) && (bt_VariantIndex tuple =? ts_VariantIndex spec) &&
         (bt_SubVariantIndex tuple =? ts_SubVariantIndex spec)
      then Some tuple else find_tuple tuples' spec
  end.

Definition FindBuildTuple (dag : DagData) (spec : TargetSpec) : option BuildTupleData := find_tuple (dag_BuildTuples dag) spec.

(** Depth-first; the fuel bounds the depth of the recursion. *)
Fixpoint FindReachable (fuel : nat) (dag : DagData) (node_bits : list Z) (index : Z) : res (list Z) :=
  match fuel with
  | O => Err OutOfFuel
  | S fuel =>
      seen ← test_bit node_bits index;
      match seen with
      | true => OK node_bits
      | false =>
          node_bits ← set_bit node_bits index;
          node ← of_opt (dag_NodeData dag !!z index);
          foldM (FindReachable fuel dag) node_bits (nd_Dependencies node)
      end
  end.

(** A path through the graph that visits no node twice is no longer than the
    number of nodes. *)
Definition reach_fuel (dag : DagData) : nat := S (length (dag_NodeData dag)).

Definition FindReachableNodes (dag : DagData) (node_bits : list Z) (tuple : BuildTupleData) : res (list Z) :=
  foldM (fun bits named_node => FindReachable (reach_fuel dag) dag bits (nn_NodeIndex named_node)) node_bits (bt_NamedNodes tuple).

Section Names.
(** The platform: path separator and case sensitivity; the working directory;
    what a path buffer on the stack holds. *)
Context (native : PathType) (ci : bool) (cwd : cstr) (junk_ends : list Z) (junk_data : cstr).

Definition native_sep : ascii := match native with kWindows => backslash | kUnix => slash end.

(** [PathCompare(a, b) == 0] and [PathCompareN(a, b, n) == 0]. *)
Definition path_same (a b : cstr) : bool := if ci then streq (map lower_ascii a) (map lower_ascii b) else streq a b.
Definition path_same_n (n : nat) (a b : cstr) : bool := if ci then strneq n (map lower_ascii a) (map lower_ascii b) else strneq n a b.

Definition find_named (named_nodes : list NamedNodeData) (name : cstr) : option Z :=
  match find (fun named_node => streq (nn_Name named_node) name) named_nodes with
  | Some named_node => Some (nn_NodeIndex named_node)
  | None => None
  end.

(** The name relative to the working directory, when it is below it. *)
Definition search_name (name : cstr) : res cstr :=
  let cwd := cwd ++ [native_sep] in
  path ← PathInit junk_ends junk_data name native;
  path_fmt ← PathFormat path;
  OK (if path_same_n (length cwd) path_fmt cwd then drop (length cwd) path_fmt else name).

Definition file_matches (filename_hash : Z) (filename : cstr) (f : FrozenFileAndHash) : bool :=
  (filename_hash =? m_FilenameHash f) && path_same (m_Filename f) filename.

Definition node_matches (filename_hash : Z) (filename : cstr) (node : NodeData) : bool :=
  existsb (file_matches filename_hash filename) (nd_InputFiles node) ||
  existsb (file_matches filename_hash filename) (nd_OutputFiles node).

(** The set bits of one word, then of the next. *)
Fixpoint find_in_bits (dag : DagData) (filename_hash : Z) (filename : cstr) (base_index : Z) (bits : list Z) : res (option Z) :=
  match bits with
  | [] => OK None
  | bit :: bits' =>
      node ← of_opt (dag_NodeData dag !!z (base_index + bit));
      if node_matches filename_hash filename node then OK (Some (base_index + bit))
      else find_in_bits dag filename_hash filename base_index bits'
  end.

Fixpoint find_in_words (dag : DagData) (filename_hash : Z) (filename : cstr) (base_index : Z) (words : list Z) : res (option Z) :=
  match words with
  | [] => OK None
  | w :: words' =>
      found ← find_in_bits dag filename_hash filename base_index (visited_bits w);
      match found with
      | Some i => OK (Some i)
      | None => find_in_words dag filename_hash filename (base_index + 32) words'
      end
  end.

(** [bits] is [None] until [bits_valid]. *)
Definition find_one_name (dag : DagData) (tuple : BuildTupleData) (st : option (list Z) * list Z) (name : cstr)
  : res (option (list Z) * list Z) :=
  let '(bits, out_nodes) := st in
  match find_named (bt_NamedNodes tuple) name with
  | Some index => OK (bits, out_nodes ++ [index])
  | None =>
      filename ← search_name name;
      let filename_hash := Djb2HashPath ci filename in
      node_bits ← match bits with
                  | Some node_bits => OK node_bits
                  | None => FindReachableNodes dag (zero_words ((dag_NodeCount dag + 31) / 32)) tuple
                  end;
      found ← find_in_words dag filename_hash filename 0 node_bits;
      OK (Some node_bits, out_nodes ++ match found with Some index => [index] | None => [] end)
  end.

Definition FindNodesByName (dag : DagData) (out_nodes : list Z) (names : list cstr) (tuple : BuildTupleData) : res (list Z) :=
  '(_, out_nodes) ← foldM (find_one_name dag tuple) (None, out_nodes) names;
  OK out_nodes.

Definition select_input (dag : DagData) (targets : list cstr) : TargetSelectInput :=
  mkTSInput (dag_ConfigNameHashes dag) (dag_VariantNameHashes dag) (dag_SubVariantNameHashes dag) targets
    (dag_DefaultConfigIndex dag) (dag_DefaultVariantIndex dag) (dag_DefaultSubVariantIndex dag).

Definition select_spec (dag : DagData) (named_targets : list cstr) (out_nodes : list Z) (spec : TargetSpec) : res (list Z) :=
  match FindBuildTuple dag spec with
  | None => Err (Croak "couldn't find build tuple in DAG")
  | Some tuple =>
      out_nodes ← (if 0 <? zlen named_targets then FindNodesByName dag out_nodes named_targets tuple
                   else OK (out_nodes ++ bt_DefaultNodes tuple));
      OK (out_nodes ++ bt_AlwaysNodes tuple)
  end.

(** [std::unique]. *)
Fixpoint unique (l : list Z) : list Z :=
  match l with
  | a :: (b :: _) as rest => if a =? b then unique rest else a :: unique rest
  | _ => l
  end.

Definition DriverSelectNodes `{StdSort} (dag : DagData) (targets : list cstr) : res (list Z) :=
  '(target_specs, named_targets) ← SelectTargets (select_input dag targets);
  out_nodes ← foldM (select_spec dag named_targets) [] target_specs;
  OK (unique (std_sort Z.ltb out_nodes)).

(** ** Preparing nodes *)

(** The work list loop: the visited bits, the node indices in order of
    discovery, the counts per pass. *)
Fixpoint prepare_loop (fuel : nat) (dag : DagData) (node_stack visited node_indices pass_count : list Z) : res (list Z * list Z) :=
  match node_stack with
  | [] => OK (node_indices, pass_count)
  | _ =>
      match fuel with
      | O => Err OutOfFuel
      | S fuel =>
          '(dag_index, node_stack) ← BufferPopOne node_stack;
          seen ← test_bit visited dag_index;
          match seen with
          | true => prepare_loop fuel dag node_stack visited node_indices pass_count
          | false =>
          node ← of_opt (dag_NodeData dag !!z dag_index);
          _ ← check (u32 (nd_PassIndex node) <? u32 (zlen (dag_Passes dag))) "uint32_t(node->m_PassIndex) < uint32_t(dag->m_Passes.GetCount())";
          visited ← set_bit visited dag_index;
          n ← of_opt (pass_count !!z nd_PassIndex node);
          pass_count ← zwrite (nd_PassIndex node) (n + 1) pass_count;
          prepare_loop fuel dag (node_stack ++ nd_Dependencies node) visited (node_indices ++ [dag_index]) pass_count
          end
      end
  end.

(** Every node is expanded once, so no more indices than these are pushed. *)
Definition prepare_fuel (dag : DagData) (node_stack : list Z) : nat :=
  length node_stack + foldr (fun node n => length (nd_Dependencies node) + n)%nat 0%nat (dag_NodeData dag).

Definition zero_digest : HashDigest := mkDigest 0 0.

(** The zeroed state of a node with its data, pass and previous state. *)
Definition init_node (dag : DagData) (state : option StateData) (index : Z) : res NodeState :=
  node ← of_opt (dag_NodeData dag !!z index);
  guid ← of_opt (dag_NodeGuids dag !!z index);
  let old :=
    match state with
    | Some state_data =>
        match BinarySearch digest_lt digest_eq (sd_NodeGuids state_data) (zlen (sd_NodeGuids state_data)) guid with
        | Some state_index => sd_NodeStates state_data !!z state_index
        | None => None
        end
    | None => None
    end in
  OK (mkNodeState 0 (u16 (nd_PassIndex node)) kInitial index old 0 zero_digest).

Definition init_nodes (dag : DagData) (state : option StateData) (node_indices : list Z) : res (list NodeState) :=
  foldM (fun out index => n ← init_node dag state index; OK (out ++ [n])) [] node_indices.

Fixpoint remap_loop (node_remap : list Z) (local_index : Z) (nodes : list NodeState) : res (list Z) :=
  match nodes with
  | [] => OK node_remap
  | n :: nodes' =>
      old ← of_opt (node_remap !!z ns_MmapData n);
      _ ← check (old =? -1) "node_remap[global_index] == -1";
      node_remap ← zwrite (ns_MmapData n) local_index node_remap;
      remap_loop node_remap (local_index + 1) nodes'
  end.

Definition compare_node_passes (l r : NodeState) : bool := ns_PassIndex l <? ns_PassIndex r.

Definition DriverPrepareNodes `{StdSort} (self : Driver) (targets : list cstr) : res Driver :=
  let dag := dr_DagData self in
  node_stack ← DriverSelectNodes dag targets;
  '(node_indices, pass_count) ←
    prepare_loop (prepare_fuel dag node_stack) dag node_stack (zero_words ((dag_NodeCount dag + 31) / 32)) [] (dr_PassNodeCount self);
  out_nodes ← init_nodes dag (dr_StateData self) node_indices;
  let out_nodes := std_sort compare_node_passes out_nodes in
  node_remap ← remap_loop (replicate (Z.to_nat (dag_NodeCount dag)) (-1)) 0 out_nodes;
  OK (mkDriver (dr_Options self) dag (dr_StateData self) node_remap out_nodes pass_count).
End Names.

(** ** Building *)

(** [n] nodes of [pass], from index [i]. *)
Fixpoint check_pass_nodes (nodes : list NodeState) (pass : Z) (n : nat) (i : Z) : res Z :=
  match n with
  | O => OK i
  | S n =>
      node ← of_opt (nodes !!z i);
      _ ← check (ns_PassIndex node =? pass) "self->m_Nodes[i].m_PassIndex == pass";
      check_pass_nodes nodes pass n (i + 1)
  end.

Fixpoint check_passes (nodes : list NodeState) (counts : list Z) (pass i : Z) : res Z :=
  match counts with
  | [] => OK i
  | c :: counts' => i ← check_pass_nodes nodes pass (Z.to_nat c) i; check_passes nodes counts' (pass + 1) i
  end.

Fixpoint check_remap (node_remap : list Z) (i : Z) (nodes : list NodeState) : res unit :=
  match nodes with
  | [] => OK tt
  | state :: nodes' =>
      remapped_index ← of_opt (node_remap !!z ns_MmapData state);
      _ ← check (u64 remapped_index =? i) "size_t(remapped_index) == i";
      check_remap node_remap (i + 1) nodes'
  end.

Definition max_expensive (dag : DagData) (options : DriverOptions) : Z :=
  if dag_MaxExpensiveCount dag <? 0 then opt_ThreadCount options
  else Z.max (Z.min (dag_MaxExpensiveCount dag) (opt_ThreadCount options)) 1.

Definition queue_flags (options : DriverOptions) : Z :=
  let flags := 0 in
  let flags := if opt_Verbose options then Z.lor flags (Z.lor kFlagEchoAnnotations kFlagEchoCommandLines) else flags in
  let flags := if negb (opt_Quiet options) then Z.lor flags kFlagEchoAnnotations else flags in
  if opt_ContinueOnError options then Z.lor flags kFlagContinueOnError else flags.

(** The pass sizes the loop of [DriverBuild] goes through. *)
Definition pass_counts (self : Driver) : list Z := take (length (dag_Passes (dr_DagData self))) (dr_PassNodeCount self).

(** [DriverBuild] up to [BuildQueueInit]: the two checks of a checked build and
    the configuration. The passes are the sessions of the scheduler over
    [dr_Nodes] and [pass_counts]. *)
Definition DriverBuild_config (self : Driver) : res BuildQueueConfig :=
  i ← check_passes (dr_Nodes self) (pass_counts self) 0 0;
  _ ← check (i =? zlen (dr_Nodes self)) "size_t(i) == self->m_Nodes.m_Size";
  _ ← check_remap (dr_NodeRemap self) 0 (dr_Nodes self);
  OK (mkConfig (queue_flags (dr_Options self)) (opt_ThreadCount (dr_Options self)) (dag_NodeData (dr_DagData self))
        (zlen (dr_Nodes self)) (dr_NodeRemap self) (max_expensive (dr_DagData self) (dr_Options self))).
