(* ===== verification/DriverThms.v ===== *)
(** * Theorems about the driver

    For src/src/Driver.cpp: [FindReachable] computes reachability, preparing the
    nodes gives exactly the closure of the selected ones, and what the driver
    hands to the build queue satisfies the conditions ([build_ok]) under which
    the scheduler's theorems are proved. *)

From stdpp Require Import sorting.
From S2P Require Import Prelude CommonFns Hash HashImpl DagData BuildQueue BuildQueueInv BuildQueueRun BuildQueueThms.
From S2P Require Import SortedArray PathUtil BitSet TargetSelect Driver.

(** ** A well-formed DAG *)

Section Dag.
Context (dag : DagData).

Definition node_at (i : Z) : option NodeData := dag_NodeData dag !!z i.

(** [i] depends on [d], as indices of the DAG. *)
Definition depends (i d : Z) : Prop := exists nd, node_at i = Some nd /\ d ∈ nd_Dependencies nd.

Definition in_dag (i : Z) : Prop := 0 <= i < dag_NodeCount dag.

(** What the DAG generator promises of the file it writes. *)
Record dag_ok : Prop := {
  dk_guids : length (dag_NodeGuids dag) = length (dag_NodeData dag) /\ ssorted (dag_NodeGuids dag);
  dk_count : dag_NodeCount dag < 2 ^ 31;
  dk_passes : zlen (dag_Passes dag) <= kMaxPasses;
  dk_pass i nd : node_at i = Some nd -> 0 <= nd_PassIndex nd < zlen (dag_Passes dag);
  dk_deps i nd d : node_at i = Some nd -> d ∈ nd_Dependencies nd ->
    exists nd', node_at d = Some nd' /\ nd_PassIndex nd' <= nd_PassIndex nd;
  dk_back i nd b : node_at i = Some nd -> b ∈ nd_BackLinks nd <-> depends b i;
  dk_rank : exists rank : Z -> nat, forall i d, depends i d -> (rank d < rank i)%nat;
  dk_exp i nd : node_at i = Some nd -> expensive nd = true -> empty_action nd = false;
  dk_tuples t : t ∈ dag_BuildTuples dag ->
    Forall in_dag (bt_DefaultNodes t) /\ Forall in_dag (bt_AlwaysNodes t) /\ Forall (fun n => in_dag (nn_NodeIndex n)) (bt_NamedNodes t)
}.

(** The nodes a set of roots needs. *)
Inductive reach (roots : list Z) : Z -> Prop :=
| reach_root r : r ∈ roots -> reach roots r
| reach_dep i d : reach roots i -> depends i d -> reach roots d.

Lemma node_in_dag i nd : node_at i = Some nd -> in_dag i.
Proof. intros H. by apply zlookup_lt in H. Qed.

Lemma in_dag_node i : in_dag i -> exists nd, node_at i = Some nd.
Proof. apply zlookup_is_Some. Qed.

Hypothesis Hok : dag_ok.

Lemma depends_in_dag i d : depends i d -> in_dag d.
Proof. intros (nd & Hn & Hd). destruct (dk_deps Hok i nd d Hn Hd) as (nd' & Hn' & _). by eapply node_in_dag. Qed.

Lemma reach_in_dag roots i : Forall in_dag roots -> reach roots i -> in_dag i.
Proof. intros HF. rewrite Forall_forall in HF. induction 1; [by apply HF|by eapply depends_in_dag]. Qed.

Lemma words_cover i : in_dag i -> 0 <= i < 32 * zlen (zero_words ((dag_NodeCount dag + 31) / 32)).
Proof.
  intros Hi. unfold in_dag in Hi. unfold zero_words. rewrite length_replicate.
  assert (0 <= (dag_NodeCount dag + 31) / 32) by (apply Z.div_pos; lia). rewrite Z2Nat.id by done.
  pose proof (Z.div_mod (dag_NodeCount dag + 31) 32 ltac:(lia)). pose proof (Z.mod_pos_bound (dag_NodeCount dag + 31) 32 ltac:(lia)). lia.
Qed.

(** ** The work list *)

Definition ndeps (nd : NodeData) : nat := length (nd_Dependencies nd).

(** Dependencies of the nodes not yet visited. *)
Fixpoint todo (f : Z -> bool) (i : Z) (nodes : list NodeData) : nat :=
  match nodes with
  | [] => 0
  | nd :: nodes' => (if f i then 0 else ndeps nd) + todo f (i + 1) nodes'
  end%nat.

Lemma todo_ext f g i nodes : (forall j, i <= j -> f j = g j) -> todo f i nodes = todo g i nodes.
Proof. revert i. induction nodes as [|nd nodes IH]; intros i H; cbn; [done|]. rewrite (H i) by lia. f_equal. apply IH. intros. apply H. lia. Qed.

Lemma todo_visit f g nodes : forall i k nd, nodes !!z k = Some nd -> f (i + k) = false ->
  (forall j, i <= j -> g j = (i + k =? j) || f j) -> todo f i nodes = (ndeps nd + todo g i nodes)%nat.
Proof.
  induction nodes as [|x nodes IH]; intros i k nd Hk Hf Hg; [by apply zlookup_lt in Hk; cbn in Hk; lia|].
  pose proof (zlookup_lt _ _ _ Hk) as Hr. cbn [todo]. rewrite (Hg i) by lia. destruct (decide (k = 0)) as [->|Hne].
  - rewrite Z.add_0_r in *. rewrite Z.eqb_refl, Hf. cbn in Hk. injection Hk as ->. cbn [orb].
    rewrite (todo_ext f g (i + 1)); [lia|]. intros j Hj. rewrite Hg by lia. by rewrite (proj2 (Z.eqb_neq i j)) by lia.
  - rewrite zlookup_cons in Hk by lia. rewrite (proj2 (Z.eqb_neq (i + k) i)) by lia. cbn [orb].
    rewrite (IH (i + 1) (k - 1) nd Hk); [lia| |].
    + by replace (i + 1 + (k - 1)) with (i + k) by lia.
    + intros j Hj. replace (i + 1 + (k - 1)) with (i + k) by lia. apply Hg. lia.
Qed.

Lemma todo_start f i nodes : (forall j, f j = false) -> todo f i nodes = foldr (fun node n => length (nd_Dependencies node) + n)%nat 0%nat nodes.
Proof. intros H. revert i. induction nodes as [|nd nodes IH]; intros i; cbn; [done|]. by rewrite H, IH. Qed.

(** The number of indices in a pass. *)
Definition pass_of (i : Z) : Z := match node_at i with Some nd => nd_PassIndex nd | None => -1 end.
Definition in_pass (k : Z) (l : list Z) : Z := zlen (filter (fun i => pass_of i = k) l).

Record LoopInv (roots node_stack visited node_indices pass_count : list Z) : Prop := {
  li_bits i : 0 <= i -> member visited i = true <-> i ∈ node_indices;
  li_len : length visited = length (zero_words ((dag_NodeCount dag + 31) / 32));
  li_nodup : NoDup node_indices;
  li_range : Forall in_dag (node_stack ++ node_indices);
  li_reach i : i ∈ node_stack ++ node_indices -> reach roots i;
  li_roots i : i ∈ roots -> i ∈ node_stack ++ node_indices;
  li_closed i d : i ∈ node_indices -> depends i d -> d ∈ node_stack ++ node_indices;
  li_passes k : 0 <= k < kMaxPasses -> pass_count !!z k = Some (in_pass k node_indices)
}.

Lemma in_pass_snoc k l i : in_pass k (l ++ [i]) = in_pass k l + Z.b2z (pass_of i =? k).
Proof.
  unfold in_pass. rewrite filter_app, length_app. rewrite filter_cons, filter_nil.
  case_decide as E; cbn [length]; [rewrite (proj2 (Z.eqb_eq _ _)) by done|rewrite (proj2 (Z.eqb_neq _ _)) by done]; cbn; lia.
Qed.

Lemma loop_pop_seen roots stack i visited idxs pc : LoopInv roots (stack ++ [i]) visited idxs pc -> member visited i = true ->
  LoopInv roots stack visited idxs pc.
Proof.
  intros I Hm. assert (Hi : i ∈ idxs).
  { apply (li_bits _ _ _ _ _ I); [|done]. pose proof (li_range _ _ _ _ _ I) as HF. rewrite !Forall_app, Forall_singleton in HF.
    unfold in_dag in HF. lia. }
  assert (Hsub : forall j, j ∈ (stack ++ [i]) ++ idxs <-> j ∈ stack ++ idxs) by (intros j; set_solver).
  destruct I. split; try done.
  - apply Forall_forall. intros j Hj. rewrite Forall_forall in li_range0. by apply li_range0, Hsub.
  - intros j Hj. by apply li_reach0, Hsub.
  - intros j Hj. by apply Hsub, li_roots0.
  - intros j d Hj Hd. apply Hsub. by eapply li_closed0.
Qed.

Lemma loop_push roots stack i nd visited visited' idxs pc pc' :
  LoopInv roots (stack ++ [i]) visited idxs pc -> node_at i = Some nd -> member visited i = false ->
  length visited' = length visited -> (forall j, 0 <= j -> member visited' j = (i =? j) || member visited j) ->
  (forall k, 0 <= k < kMaxPasses -> pc' !!z k = Some (in_pass k idxs + Z.b2z (nd_PassIndex nd =? k))) ->
  LoopInv roots (stack ++ nd_Dependencies nd) visited' (idxs ++ [i]) pc'.
Proof.
  intros I Hn Hm Hl Hb Hp. pose proof (node_in_dag _ _ Hn) as Hr. destruct I. unfold in_dag in Hr.
  assert (Hdi : forall d, d ∈ nd_Dependencies nd -> depends i d) by (intros d Hd; by exists nd).
  split.
  - intros j Hj. rewrite Hb, orb_true_iff, Z.eqb_eq, elem_of_app, list_elem_of_singleton, li_bits0 by done. naive_solver.
  - congruence.
  - apply NoDup_app. split_and!; [done| |apply NoDup_singleton]. intros j Hj ->%list_elem_of_singleton.
    apply li_bits0 in Hj; [congruence|lia].
  - apply Forall_forall. intros j. rewrite !elem_of_app, list_elem_of_singleton. rewrite Forall_forall in li_range0.
    intros [[Hj|Hj]|[Hj| ->]]; [apply li_range0; set_solver|by eapply depends_in_dag, Hdi|apply li_range0; set_solver|done].
  - intros j. rewrite !elem_of_app, list_elem_of_singleton. assert (Hi : reach roots i) by (apply li_reach0; set_solver).
    intros [[Hj|Hj]|[Hj| ->]]; [apply li_reach0; set_solver|by eapply reach_dep, Hdi|apply li_reach0; set_solver|done].
  - intros j Hj%li_roots0. set_solver.
  - intros j d. rewrite elem_of_app, list_elem_of_singleton. intros [Hj| ->] Hd.
    + pose proof (li_closed0 j d Hj Hd). set_solver.
    + destruct Hd as (nd' & Hn' & Hd). rewrite Hn in Hn'. simplify_eq. set_solver.
  - intros k Hk. rewrite Hp, in_pass_snoc by done. unfold pass_of. by rewrite Hn.
Qed.

Lemma prepare_loop_ok roots fuel : forall stack visited idxs pc, LoopInv roots stack visited idxs pc -> zlen pc = kMaxPasses ->
  (length stack + todo (member visited) 0 (dag_NodeData dag) <= fuel)%nat ->
  exists idxs' pc' visited', prepare_loop fuel dag stack visited idxs pc = OK (idxs', pc') /\
  zlen pc' = kMaxPasses /\ LoopInv roots [] visited' idxs' pc'.
Proof.
  induction fuel as [|fuel IH]; intros stack visited idxs pc I Hpc Hf.
  { destruct stack; [|cbn in Hf; lia]. cbn. by exists idxs, pc, visited. }
  destruct stack as [|i stack _] using rev_ind; [cbn; by exists idxs, pc, visited|].
  assert (Hstk : prepare_loop (S fuel) dag (stack ++ [i]) visited idxs pc =
    ('(dag_index, node_stack) ← OK (i, stack); seen ← test_bit visited dag_index;
     match seen with true => prepare_loop fuel dag node_stack visited idxs pc | false =>
       node ← of_opt (dag_NodeData dag !!z dag_index);
       _ ← check (u32 (nd_PassIndex node) <? u32 (zlen (dag_Passes dag))) "uint32_t(node->m_PassIndex) < uint32_t(dag->m_Passes.GetCount())";
       visited ← set_bit visited dag_index; n ← of_opt (pc !!z nd_PassIndex node); pass_count ← zwrite (nd_PassIndex node) (n + 1) pc;
       prepare_loop fuel dag (node_stack ++ nd_Dependencies node) visited (idxs ++ [dag_index]) pass_count end)).
  { cbn [prepare_loop]. unfold BufferPopOne. rewrite last_snoc, removelast_last. by destruct stack. }
  rewrite Hstk. clear Hstk. cbn [mbind res_bind].
  assert (Hr : in_dag i). { pose proof (li_range _ _ _ _ _ I) as HF. rewrite !Forall_app, Forall_singleton in HF. apply HF. }
  pose proof (words_cover i Hr) as Hw. rewrite <- (li_len _ _ _ _ _ I) in Hw. rewrite test_bit_ok by done. cbn [mbind res_bind].
  rewrite length_app in Hf. cbn [length] in Hf. destruct (member visited i) eqn:Em.
  { apply IH; [by eapply loop_pop_seen|done|lia]. }
  destruct (in_dag_node i Hr) as [nd Hn]. unfold node_at in Hn. rewrite Hn. cbn [of_opt mbind res_bind].
  pose proof (dk_pass Hok i nd Hn) as Hpi. pose proof (dk_passes Hok) as Hps. unfold kMaxPasses in *.
  rewrite !u32_small by (unfold in_u32; lia). rewrite (proj2 (Z.ltb_lt _ _)) by lia. cbn [check mbind res_bind].
  destruct (set_bit_ok visited i Hw) as (visited' & -> & Hl' & Hb'). cbn [mbind res_bind].
  rewrite (li_passes _ _ _ _ _ I (nd_PassIndex nd)) by (unfold kMaxPasses; lia). cbn [of_opt mbind res_bind].
  rewrite zwrite_ok by lia. cbn [mbind res_bind].
  apply IH; [|rewrite zinsert_length; lia|].
  - eapply loop_push; try done. intros k Hk. rewrite zlookup_insert. case_bool_decide as Hc.
    + destruct Hc as [<- _]. by rewrite Z.eqb_refl.
    + rewrite (li_passes _ _ _ _ _ I) by done. rewrite (proj2 (Z.eqb_neq _ _)) by (unfold kMaxPasses in Hk; lia). cbn. f_equal. lia.
  - rewrite length_app. rewrite (todo_visit (member visited) (member visited') (dag_NodeData dag) 0 i nd Hn) in Hf; [unfold ndeps in Hf; lia|done|].
    intros j Hj. rewrite Z.add_0_l. by apply Hb'.
Qed.

(** What the work list loop computes. *)
Lemma prepare_loop_closure roots pc : Forall in_dag roots -> pc = replicate (Z.to_nat kMaxPasses) 0 ->
  exists idxs pc', prepare_loop (prepare_fuel dag roots) dag roots (zero_words ((dag_NodeCount dag + 31) / 32)) [] pc = OK (idxs, pc') /\
  NoDup idxs /\ Forall in_dag idxs /\ (forall i, i ∈ idxs <-> reach roots i) /\ zlen pc' = kMaxPasses /\
  forall k, 0 <= k < kMaxPasses -> pc' !!z k = Some (in_pass k idxs).
Proof.
  intros HF ->. destruct (prepare_loop_ok roots (prepare_fuel dag roots) roots (zero_words ((dag_NodeCount dag + 31) / 32)) []
    (replicate (Z.to_nat kMaxPasses) 0)) as (idxs & pc' & v & E & Hl & I); [|done|..].
  - split; rewrite ?app_nil_r; try done.
    + intros i _. rewrite zero_words_member, elem_of_nil. done.
    + constructor.
    + intros i. apply reach_root.
    + intros i d Hi. by apply elem_of_nil in Hi.
    + intros k Hk. rewrite <- (Z2Nat.id k), zlookup_nat by lia. apply lookup_replicate_2. lia.
  - unfold prepare_fuel. rewrite (todo_start (member _)); [lia|]. intros j. apply zero_words_member.
  - exists idxs, pc'. split; [done|]. destruct I. split_and!; try done. intros i. split; [intros; by apply li_reach0|].
    induction 1 as [r Hr|i d _ IH Hd]; [by apply li_roots0|by eapply li_closed0].
Qed.
End Dag.

(** ** Node states *)

(** The record of the previous build for a guid. *)
Definition old_state (state : option StateData) (guid : HashDigest) : option NodeStateData :=
  match state with
  | Some sd =>
      match BinarySearch digest_lt digest_eq (sd_NodeGuids sd) (zlen (sd_NodeGuids sd)) guid with
      | Some k => sd_NodeStates sd !!z k
      | None => None
      end
  | None => None
  end.

Definition fresh_node (dag : DagData) (state : option StateData) (i : Z) : NodeState :=
  mkNodeState 0 (pass_of dag i) kInitial i (dag_NodeGuids dag !!z i ≫= old_state state) 0 zero_digest.

Lemma init_nodes_ok dag state idxs : dag_ok dag -> Forall (in_dag dag) idxs ->
  init_nodes dag state idxs = OK (map (fresh_node dag state) idxs).
Proof.
  intros Hok HF. unfold init_nodes. rewrite (foldM_map _ (fresh_node dag state)); [done|].
  intros i Hi. rewrite Forall_forall in HF. destruct (in_dag_node dag i (HF i Hi)) as [nd Hn]. unfold init_node, fresh_node, pass_of.
  rewrite Hn. unfold node_at in Hn. rewrite Hn. cbn [of_opt mbind res_bind].
  destruct (zlookup_is_Some (dag_NodeGuids dag) i) as [g Hg].
  { destruct (dk_guids _ Hok) as [El _]. rewrite El. by apply HF. }
  rewrite Hg. cbn. f_equal. f_equal. apply u16_small. pose proof (dk_pass _ Hok i nd Hn). pose proof (dk_passes _ Hok).
  unfold in_u16, kMaxPasses in *. lia.
Qed.

(** ** Remapping *)

Lemma remap_loop_ok nodes : forall remap l, NoDup (map ns_MmapData nodes) ->
  (forall n, n ∈ nodes -> remap !!z ns_MmapData n = Some (-1)) ->
  exists remap', remap_loop remap l nodes = OK remap' /\ length remap' = length remap /\
  (forall k n, nodes !!z k = Some n -> remap' !!z ns_MmapData n = Some (l + k)) /\
  (forall d, d ∉ map ns_MmapData nodes -> remap' !!z d = remap !!z d).
Proof.
  induction nodes as [|n nodes IH]; intros remap l Hnd Hm; cbn [remap_loop map].
  { exists remap. split_and!; try done. intros k n Hk. apply zlookup_lt in Hk. cbn in Hk. lia. }
  apply NoDup_cons in Hnd as [Hn Hnd]. pose proof (Hm n ltac:(set_solver)) as H0. rewrite H0. cbn [of_opt mbind res_bind].
  change (-1 =? -1) with true. cbn [check mbind res_bind]. pose proof (zlookup_lt _ _ _ H0) as Hr. rewrite zwrite_ok by done. cbn [mbind res_bind].
  destruct (IH (zinsert (ns_MmapData n) l remap) (l + 1) Hnd) as (remap' & -> & Hl & Hk & Hd).
  { intros x Hx. rewrite zlookup_insert_ne; [by apply Hm; set_solver|]. intros E. apply Hn. rewrite E. by apply list_elem_of_fmap_2. }
  exists remap'. rewrite zinsert_length in Hl. split_and!; try done.
  - intros k x Hx. destruct (decide (k = 0)) as [->|].
    + cbn in Hx. injection Hx as <-. rewrite Hd, zlookup_insert_eq, Z.add_0_r by done. done.
    + pose proof (zlookup_lt _ _ _ Hx). rewrite zlookup_cons in Hx by lia. rewrite (Hk _ _ Hx). f_equal. lia.
  - intros d Hnin. rewrite Hd by set_solver. apply zlookup_insert_ne. set_solver.
Qed.

(** ** Passes of a sorted array *)

Definition below (k : Z) (l : list Z) : Z := zlen (filter (fun p => p < k) l).
Definition equals (k : Z) (l : list Z) : Z := zlen (filter (fun p => p = k) l).

Lemma below_succ k l : below (k + 1) l = below k l + equals k l.
Proof.
  unfold below, equals. induction l as [|p l IH]; [done|]. rewrite !filter_cons. repeat case_decide; rewrite ?length_cons; lia.
Qed.

Lemma below_nonneg k l : Forall (fun p => 0 <= p) l -> k <= 0 -> below k l = 0.
Proof.
  intros HF Hk. unfold below. induction HF as [|p l Hp HF IH]; [done|]. rewrite filter_cons. case_decide; [lia|done].
Qed.

Lemma sorted_below l : StronglySorted Z.le l -> forall i p k, l !!z i = Some p -> p < k <-> i < below k l.
Proof.
  unfold below. induction 1 as [|x l Hs IH Hf]; intros i p k Hi; [by apply zlookup_lt in Hi; cbn in Hi; lia|].
  pose proof (zlookup_lt _ _ _ Hi) as Hr. rewrite filter_cons. destruct (decide (i = 0)) as [->|Hne].
  - cbn in Hi. injection Hi as ->. case_decide; rewrite ?length_cons; [lia|]. split; [lia|]. intros H0.
    destruct (filter _ l) as [|y ys] eqn:E; [cbn in H0; lia|].
    assert (Hy : y ∈ filter (fun p => p < k) l) by (rewrite E; set_solver). apply list_elem_of_filter in Hy as [Hy Hin].
    rewrite Forall_forall in Hf. pose proof (Hf y Hin). lia.
  - rewrite zlookup_cons in Hi by lia. rewrite (IH (i - 1) p k Hi). case_decide as Hx; rewrite ?length_cons; [lia|].
    split; intros Hlt; [|lia]. apply (IH (i - 1) p k Hi) in Hlt. rewrite Forall_forall in Hf.
    pose proof (Hf p (zlookup_elem _ _ _ Hi)). lia.
Qed.

Lemma sorted_pass l i p k : StronglySorted Z.le l -> l !!z i = Some p -> p = k <-> below k l <= i < below k l + equals k l.
Proof.
  intros Hs Hi. rewrite <- below_succ. pose proof (sorted_below l Hs i p k Hi). pose proof (sorted_below l Hs i p (k + 1) Hi). lia.
Qed.

Lemma foldr_add_snoc l x : foldr Z.add 0 (l ++ [x]) = foldr Z.add 0 l + x.
Proof. induction l as [|y l IH]; cbn in *; lia. Qed.

Lemma pass_start_below counts l : Forall (fun p => 0 <= p) l ->
  (forall k c, counts !! k = Some c -> c = equals (Z.of_nat k) l) ->
  forall k, (k <= length counts)%nat -> pass_start counts k = below (Z.of_nat k) l.
Proof.
  intros HF Hc. induction k as [|k IH]; intros Hk; [cbn; by rewrite below_nonneg|].
  destruct (lookup_lt_is_Some_2 counts k) as [c Hck]; [lia|]. unfold pass_start in *. rewrite (take_S_r _ _ _ Hck), foldr_add_snoc.
  rewrite IH by lia. rewrite (Hc k c Hck). replace (Z.of_nat (S k)) with (Z.of_nat k + 1) by lia. by rewrite below_succ.
Qed.

Lemma below_all k l : Forall (fun p => p < k) l -> below k l = zlen l.
Proof. unfold below. induction 1 as [|p l Hp HF IH]; [done|]. rewrite filter_cons. case_decide; [rewrite !length_cons; lia|done]. Qed.

Lemma below_le k l : below k l <= zlen l.
Proof. unfold below. pose proof (length_filter (fun p => p < k) l). lia. Qed.

Lemma equals_map dag k l : equals k (map (pass_of dag) l) = in_pass dag k l.
Proof.
  unfold equals, in_pass. f_equal. induction l as [|d l IH]; [done|]. cbn [map]. rewrite !filter_cons.
  repeat case_decide; try done. rewrite !length_cons. by f_equal.
Qed.

(** ** The checks of [DriverBuild] *)

Lemma check_pass_nodes_ok nodes p n : forall i,
  (forall j, i <= j < i + Z.of_nat n -> map ns_PassIndex nodes !!z j = Some p) ->
  check_pass_nodes nodes p n i = OK (i + Z.of_nat n).
Proof.
  induction n as [|n IH]; intros i Hp; cbn [check_pass_nodes]; [f_equal; lia|].
  specialize (Hp i ltac:(lia)) as Hi. rewrite zlookup_map in Hi. destruct (nodes !!z i) as [x|]; [|done]. cbn in Hi. injection Hi as Hi.
  cbn [of_opt mbind res_bind]. rewrite (proj2 (Z.eqb_eq _ _)) by done. cbn [check mbind res_bind]. rewrite IH; [f_equal; lia|].
  intros j Hj. apply Hp. lia.
Qed.

Lemma check_passes_ok nodes counts : forall p i, Forall (fun c => 0 <= c) counts ->
  (forall k c j, counts !! k = Some c -> i + pass_start counts k <= j < i + pass_start counts k + c ->
     map ns_PassIndex nodes !!z j = Some (p + Z.of_nat k)) ->
  check_passes nodes counts p i = OK (i + foldr Z.add 0 counts).
Proof.
  induction counts as [|c counts IH]; intros p i HF Hp; cbn [check_passes foldr]; [f_equal; lia|].
  apply Forall_cons in HF as [Hc HF]. rewrite check_pass_nodes_ok.
  - cbn [mbind res_bind]. rewrite Z2Nat.id by done. rewrite IH; [f_equal; lia|done|].
    intros k c' j Hk Hj. replace (p + 1 + Z.of_nat k) with (p + Z.of_nat (S k)) by lia. apply (Hp (S k) c'); [done|].
    unfold pass_start in *. cbn [take foldr]. lia.
  - intros j Hj. replace p with (p + Z.of_nat 0) by lia. apply (Hp 0%nat c); [done|]. unfold pass_start. cbn [take foldr]. lia.
Qed.

Lemma check_remap_ok remap nodes : forall i, 0 <= i -> i + zlen nodes < 2 ^ 64 ->
  (forall k n, nodes !!z k = Some n -> remap !!z ns_MmapData n = Some (i + k)) -> check_remap remap i nodes = OK tt.
Proof.
  induction nodes as [|n nodes IH]; intros i Hi Hl Hr; cbn [check_remap]; [done|]. rewrite length_cons in Hl.
  rewrite (Hr 0 n) by done. cbn [of_opt mbind res_bind]. unfold u64. rewrite Z.mod_small by lia. rewrite Z.add_0_r, Z.eqb_refl.
  cbn [check mbind res_bind]. apply IH; [lia|lia|]. intros k x Hk. pose proof (zlookup_lt _ _ _ Hk).
  rewrite (Hr (k + 1) x); [f_equal; lia|]. rewrite zlookup_cons by lia. by replace (k + 1 - 1) with k by lia.
Qed.

(** ** The prepared build *)

Section Prepared.
Context `{StdSort} (dag : DagData) (Hok : dag_ok dag) (state : option StateData) (roots idxs : list Z).
Hypothesis Hnd : NoDup idxs.
Hypothesis Hin : Forall (in_dag dag) idxs.
Hypothesis Hreach : forall i, i ∈ idxs <-> reach dag roots i.

Definition prepared : list NodeState := std_sort compare_node_passes (map (fresh_node dag state) idxs).
Definition pmm : list Z := map ns_MmapData prepared.

Lemma pmm_perm : pmm ≡ₚ idxs.
Proof.
  unfold pmm, prepared. rewrite std_sort_perm, map_map. cbn. by rewrite map_id.
Qed.

Lemma prepared_fresh n : n ∈ prepared -> n = fresh_node dag state (ns_MmapData n) /\ ns_MmapData n ∈ idxs.
Proof.
  unfold prepared. rewrite std_sort_perm. intros (i & -> & Hi)%list_elem_of_fmap. done.
Qed.

Lemma prepared_passes : map ns_PassIndex prepared = map (pass_of dag) pmm.
Proof.
  unfold pmm. rewrite map_map. apply map_ext_in. intros n [-> _]%list_elem_of_In%prepared_fresh. done.
Qed.

Lemma passes_sorted : StronglySorted Z.le (map (pass_of dag) pmm).
Proof.
  rewrite <- prepared_passes. pose proof (std_sort_sorted compare_node_passes (map (fresh_node dag state) idxs)) as Hs.
  fold prepared in Hs. unfold compare_node_passes in Hs at 1 2 3 4 5.
  assert (Hs' : StronglySorted (fun x y => compare_node_passes y x = false) prepared).
  { apply Hs; intros *; rewrite ?Z.ltb_ge, ?Z.ltb_lt; lia. }
  clear Hs. induction Hs' as [|n l Hs IH Hf]; cbn; constructor; [done|]. apply Forall_map. eapply Forall_impl; [exact Hf|].
  intros x. cbn. unfold compare_node_passes. rewrite Z.ltb_ge. done.
Qed.

Lemma pmm_lookup i d : pmm !!z i = Some d -> d ∈ idxs /\ exists nd, node_at dag d = Some nd.
Proof.
  intros Hd. apply zlookup_elem in Hd. rewrite pmm_perm in Hd. split; [done|]. rewrite Forall_forall in Hin. by apply in_dag_node, Hin.
Qed.

Lemma pmm_nodup : NoDup pmm.
Proof. by rewrite pmm_perm. Qed.

Lemma pmm_inj i j d : pmm !!z i = Some d -> pmm !!z j = Some d -> i = j.
Proof.
  intros Hi Hj. pose proof (zlookup_lt _ _ _ Hi). pose proof (zlookup_lt _ _ _ Hj). unfold zlookup in *. rewrite bool_decide_true in Hi, Hj by lia.
  pose proof (NoDup_lookup _ _ _ _ pmm_nodup Hi Hj). lia.
Qed.

Lemma pmm_has d : d ∈ idxs -> exists i, pmm !!z i = Some d.
Proof. rewrite <- pmm_perm. intros [i Hi]%list_elem_of_lookup. exists (Z.of_nat i). by rewrite zlookup_nat. Qed.

Context (remap : list Z).
Hypothesis Hlen : length remap = length (dag_NodeData dag).
Hypothesis Hto : forall i d, pmm !!z i = Some d -> remap !!z d = Some i.
Hypothesis Hno : forall d, d ∉ pmm -> in_dag dag d -> remap !!z d = Some (-1).

Lemma remap_inv d j : remap !!z d = Some j -> j <> -1 -> pmm !!z j = Some d.
Proof.
  intros Hd Hj. assert (Hr : in_dag dag d). { apply zlookup_lt in Hd. unfold in_dag, dag_NodeCount. lia. }
  destruct (decide (d ∈ pmm)) as [Hp|Hp]; [|rewrite Hno in Hd by done; congruence].
  apply list_elem_of_lookup in Hp as [i Hi]. rewrite <- zlookup_nat in Hi. rewrite (Hto _ _ Hi) in Hd. by simplify_eq.
Qed.

Context (flags threads max_exp : Z).
Hypothesis Hexp : 0 < max_exp.

Definition pcfg : BuildQueueConfig := mkConfig flags threads (dag_NodeData dag) (zlen prepared) remap max_exp.

Lemma pndata i nd : ndata pcfg pmm i = Some nd -> exists d, pmm !!z i = Some d /\ node_at dag d = Some nd.
Proof. unfold ndata. cbn. destruct (pmm !!z i) as [d|]; [|done]. eauto. Qed.

Lemma pdep_depends i j : dep pcfg pmm i j -> exists di dj, pmm !!z i = Some di /\ remap !!z dj = Some j /\ depends dag di dj.
Proof. intros (nd & d & Hn & Hd & Hj). apply pndata in Hn as (di & Hi & Hn). exists di, d. split_and!; try done. by exists nd. Qed.

Lemma dep_index i d nd : pmm !!z i = Some d -> node_at dag d = Some nd -> forall e, e ∈ nd_Dependencies nd -> exists j, pmm !!z j = Some e.
Proof.
  intros Hi Hn e He. apply pmm_has, Hreach. apply pmm_lookup in Hi as [Hi _]. eapply reach_dep; [by apply Hreach|]. by exists nd.
Qed.

Lemma prepared_static : static_ok pcfg pmm.
Proof.
  split.
  - unfold pmm. rewrite length_map. done.
  - pose proof (dk_count _ Hok). cbn. replace (zlen prepared) with (zlen pmm) by (unfold pmm; by rewrite length_map).
    rewrite pmm_perm. pose proof (submseteq_length idxs (seqZ 0 (dag_NodeCount dag))) as Hl. rewrite length_seqZ in Hl.
    assert (length idxs <= Z.to_nat (dag_NodeCount dag))%nat; [|unfold dag_NodeCount in *; lia]. apply Hl.
    apply NoDup_submseteq; [done|]. intros x Hx. apply elem_of_seqZ. rewrite Forall_forall in Hin. specialize (Hin x Hx). unfold in_dag in Hin. lia.
  - intros i d Hd. split; [by apply pmm_lookup in Hd as [_ ?]|by apply Hto].
  - apply remap_inv.
  - intros i nd d (di & Hi & Hn)%pndata Hd. destruct (dk_deps _ Hok _ _ _ Hn Hd) as (nd' & Hn' & Hp).
    destruct (dep_index i di nd Hi Hn d Hd) as [j Hj]. exists j, nd'. split_and!; [by apply Hto|apply zlookup_lt in Hj; lia| |done].
    unfold ndata. by rewrite Hj.
  - intros i nd b (di & Hi & Hn)%pndata Hb. apply (dk_back _ Hok _ _ _ Hn) in Hb as (ndb & Hnb & Hdb).
    pose proof (node_in_dag _ _ _ Hnb) as Hrb. destruct (decide (b ∈ pmm)) as [Hp|Hp]; [|exists (-1); split; [by apply Hno|by left]].
    apply list_elem_of_lookup in Hp as [j Hj]. rewrite <- zlookup_nat in Hj. exists (Z.of_nat j). split; [by apply Hto|]. right.
    exists ndb, di. unfold ndata. rewrite Hj. split_and!; try done. by apply Hto.
  - intros i j nd (dj & di & Hj & Hi & Hdep)%pdep_depends (di' & Hi' & Hn)%pndata.
    apply remap_inv in Hi as Hi2; [|apply zlookup_lt in Hi'; lia]. rewrite Hi' in Hi2. injection Hi2 as <-.
    exists dj. split; [by apply (dk_back _ Hok _ _ _ Hn)|by apply Hto].
  - destruct (dk_rank _ Hok) as [rank Hr]. exists (fun i => default 0%nat (rank <$> (pmm !!z i))).
    intros i j (nd & d & Hn & Hd & Hj). apply pndata in Hn as (di & Hi & Hn). destruct (dep_index i di nd Hi Hn d Hd) as [j' Hj'].
    change (remap !!z d = Some j) in Hj. rewrite (Hto _ _ Hj') in Hj. injection Hj as <-. rewrite Hi, Hj'. cbn. apply Hr. by exists nd.
  - intros i nd (di & Hi & Hn)%pndata. by apply (dk_exp _ Hok di).
  - done.
Qed.

Lemma equals_in_pass k : equals k (map (pass_of dag) pmm) = in_pass dag k idxs.
Proof.
  transitivity (in_pass dag k pmm); [|unfold in_pass; by rewrite pmm_perm].
  apply equals_map.
Qed.

Lemma passes_nonneg : Forall (fun p => 0 <= p) (map (pass_of dag) pmm).
Proof.
  apply Forall_map, Forall_forall. intros d Hd. rewrite pmm_perm in Hd. rewrite Forall_forall in Hin.
  destruct (in_dag_node dag d (Hin d Hd)) as [nd Hn]. unfold pass_of. rewrite Hn. by apply (dk_pass _ Hok d nd).
Qed.

Lemma prepared_pass_ok counts : (forall k c, counts !! k = Some c -> c = in_pass dag (Z.of_nat k) idxs) -> passes_ok pcfg pmm counts.
Proof.
  intros Hc. assert (Hc' : forall k c, counts !! k = Some c -> c = equals (Z.of_nat k) (map (pass_of dag) pmm)).
  { intros k c Hk. rewrite equals_in_pass. by apply Hc. }
  split; [intros i nd (d & _ & Hn)%pndata; by apply (dk_pass _ Hok d nd)|].
  intros k c Hk. rewrite (pass_start_below counts _ passes_nonneg Hc') by (apply lookup_lt_Some in Hk; lia).
  rewrite (Hc' _ _ Hk). unfold pass_range. split_and!; [unfold below; lia|unfold equals; lia| |].
  - rewrite <- below_succ. pose proof (below_le (Z.of_nat k + 1) (map (pass_of dag) pmm)) as Hb. by rewrite length_map in Hb.
  - intros i nd (d & Hd & Hn)%pndata. rewrite <- (sorted_pass _ _ (nd_PassIndex nd) _ passes_sorted); [done|].
    rewrite zlookup_map, Hd. cbn. unfold pass_of. by rewrite Hn.
Qed.

Lemma prepared_build_ok counts : (forall k c, counts !! k = Some c -> c = in_pass dag (Z.of_nat k) idxs) -> build_ok pcfg prepared counts.
Proof.
  intros Hc. split; [apply prepared_static|split; [done|]|by apply prepared_pass_ok].
  intros i n Hn. apply zlookup_elem, prepared_fresh in Hn as [-> _]. done.
Qed.

Section Counts.
Context (counts : list Z).
Hypothesis Hcounts : forall k c, counts !! k = Some c -> c = in_pass dag (Z.of_nat k) idxs.
Hypothesis Hpasses : length counts = length (dag_Passes dag).

Lemma counts_total : foldr Z.add 0 counts = zlen prepared.
Proof.
  pose proof (pass_start_below counts (map (pass_of dag) pmm) passes_nonneg) as Hs.
  rewrite <- (firstn_all counts). fold (pass_start counts (length counts)). rewrite Hs; [|..|done].
  - rewrite below_all; [unfold pmm; by rewrite !length_map|]. apply Forall_map, Forall_forall. intros d Hd. rewrite pmm_perm in Hd.
    rewrite Forall_forall in Hin. destruct (in_dag_node dag d (Hin d Hd)) as [nd Hn]. unfold pass_of. rewrite Hn, Hpasses. by apply (dk_pass _ Hok d nd).
  - intros k c Hk. rewrite equals_in_pass. by apply Hcounts.
Qed.

Lemma prepared_checks : check_passes prepared counts 0 0 = OK (zlen prepared).
Proof.
  destruct (prepared_pass_ok counts Hcounts) as [_ Hr]. rewrite check_passes_ok.
  - by rewrite counts_total.
  - apply Forall_lookup. intros k c Hk. by apply Hr in Hk as (_ & ? & _).
  - intros k c j Hk Hj. rewrite Z.add_0_l in *. destruct (Hr k c Hk) as (H0 & H1 & H2 & Hiff).
    rewrite prepared_passes, zlookup_map. destruct (zlookup_is_Some pmm j) as [d Hd]; [lia|]. rewrite Hd. cbn. f_equal.
    destruct (pmm_lookup _ _ Hd) as [_ [nd Hn]]. unfold pass_of. rewrite Hn. apply (Hiff j nd); [|lia]. unfold ndata. by rewrite Hd.
Qed.
End Counts.
End Prepared.

(** ** The selected nodes are nodes *)

Lemma unique_sub l x : x ∈ unique l -> x ∈ l.
Proof.
  induction l as [|a [|b l] IH]; [done|done|]. cbn [unique]. destruct (a =? b); [intros ?%IH; set_solver|].
  rewrite elem_of_cons. intros [->|?%IH]; set_solver.
Qed.

Lemma find_named_in nodes name i : find_named nodes name = Some i -> exists n, n ∈ nodes /\ nn_NodeIndex n = i.
Proof.
  unfold find_named. destruct (find _ nodes) as [n|] eqn:E; [|done]. apply find_some in E as [E%list_elem_of_In _]. intros [= <-]. eauto.
Qed.

Section Select.
Context (native : PathType) (ci : bool) (cwd : cstr) (junk_ends : list Z) (junk_data : cstr) (dag : DagData) (Hok : dag_ok dag).

Lemma find_in_bits_in h fn base bits i : find_in_bits ci dag h fn base bits = OK (Some i) -> in_dag dag i.
Proof.
  induction bits as [|b bits IH]; cbn; [done|]. destruct (dag_NodeData dag !!z (base + b)) as [nd|] eqn:E; [|done]. cbn [of_opt mbind res_bind].
  case_match; [|done]. intros [= <-]. by apply zlookup_lt in E.
Qed.

Lemma find_in_words_in h fn words : forall base i, find_in_words ci dag h fn base words = OK (Some i) -> in_dag dag i.
Proof.
  induction words as [|w words IH]; intros base i; cbn [find_in_words]; [done|].
  destruct (find_in_bits _ _ _ _ _ _) as [[j|]|] eqn:E; cbn; [|apply IH|done]. intros [= <-]. by eapply find_in_bits_in.
Qed.

Lemma find_one_name_in tuple st name st' : tuple ∈ dag_BuildTuples dag -> Forall (in_dag dag) st.2 ->
  find_one_name native ci cwd junk_ends junk_data dag tuple st name = OK st' -> Forall (in_dag dag) st'.2.
Proof.
  intros Ht HF. destruct st as [bits out]. cbn in HF. unfold find_one_name.
  destruct (find_named _ _) as [i|] eqn:Ef.
  - apply find_named_in in Ef as (n & Hn & <-). intros [= <-]. cbn. apply Forall_app. split; [done|].
    destruct (dk_tuples _ Hok _ Ht) as (_ & _ & Hnn). rewrite Forall_forall in Hnn. apply Forall_singleton. by apply Hnn.
  - destruct (search_name _ _ _ _ _) as [fn|]; [|done]. cbn [mbind res_bind]. destruct (match bits with Some _ => _ | None => _ end) as [nb|]; [|done].
    cbn [mbind res_bind]. destruct (find_in_words _ _ _ _ _ _) as [[i|]|] eqn:Ew; [| |done]; cbn; intros [= <-]; cbn.
    + apply Forall_app. split; [done|]. apply Forall_singleton. by eapply find_in_words_in.
    + by rewrite app_nil_r.
Qed.

Lemma find_tuple_in tuples spec t : find_tuple tuples spec = Some t -> t ∈ tuples.
Proof. induction tuples as [|x tuples IH]; cbn; [done|]. case_match; [intros [= <-]; set_solver|intros ?%IH; set_solver]. Qed.

Lemma select_spec_in names out spec out' : Forall (in_dag dag) out ->
  select_spec native ci cwd junk_ends junk_data dag names out spec = OK out' -> Forall (in_dag dag) out'.
Proof.
  intros HF. unfold select_spec, FindBuildTuple. destruct (find_tuple _ _) as [t|] eqn:E; [|done]. apply find_tuple_in in E.
  destruct (dk_tuples _ Hok _ E) as (Hd & Ha & _). destruct (0 <? zlen names).
  - unfold FindNodesByName. destruct (foldM _ _ names) as [st|] eqn:Ef; [|done]. destruct st as [bits o]. cbn. intros [= <-].
    apply Forall_app. split; [|done].
    apply (foldM_inv (fun st => Forall (in_dag dag) st.2)) in Ef; [done| |done]. intros st n st' _ Hst. by apply find_one_name_in.
  - cbn. intros [= <-]. by rewrite !Forall_app.
Qed.

Lemma select_nodes_in `{StdSort} targets roots : DriverSelectNodes native ci cwd junk_ends junk_data dag targets = OK roots -> Forall (in_dag dag) roots.
Proof.
  unfold DriverSelectNodes. destruct (SelectTargets _) as [[specs names]|]; [|done]. cbn [mbind res_bind].
  destruct (foldM _ _ specs) as [out|] eqn:E; [|done]. cbn. intros [= <-].
  apply (foldM_inv (Forall (in_dag dag))) in E; [|intros; by eapply select_spec_in|constructor].
  apply Forall_forall. intros x Hx%unique_sub. rewrite std_sort_perm in Hx. rewrite Forall_forall in E. by apply E.
Qed.
End Select.

(** ** Deciding well-formedness *)

Section Decide.
Context (dag : DagData) (rank : list nat).

Definition drank (i : Z) : nat := default 0%nat (rank !!z i).
Definition indices : list Z := seqZ 0 (dag_NodeCount dag).
Definition in_dagb (i : Z) : bool := (0 <=? i) && (i <? dag_NodeCount dag).
Definition dependsb (i d : Z) : bool := match node_at dag i with Some nd => bool_decide (d ∈ nd_Dependencies nd) | None => false end.

Definition dag_node_okb (i : Z) : bool :=
  match node_at dag i with
  | None => false
  | Some nd =>
      (0 <=? nd_PassIndex nd) && (nd_PassIndex nd <? zlen (dag_Passes dag)) &&
      forallb (fun d => (drank d <? drank i)%nat &&
        match node_at dag d with Some nd' => nd_PassIndex nd' <=? nd_PassIndex nd | None => false end) (nd_Dependencies nd) &&
      forallb (fun b => dependsb b i) (nd_BackLinks nd) &&
      forallb (fun b => negb (dependsb b i) || bool_decide (b ∈ nd_BackLinks nd)) indices &&
      (negb (expensive nd) || negb (empty_action nd))
  end.

Definition tuple_okb (t : BuildTupleData) : bool :=
  forallb in_dagb (bt_DefaultNodes t) && forallb in_dagb (bt_AlwaysNodes t) && forallb (fun n => in_dagb (nn_NodeIndex n)) (bt_NamedNodes t).

Definition dag_okb : bool :=
  (length (dag_NodeGuids dag) =? length (dag_NodeData dag))%nat && bool_decide (ssorted (dag_NodeGuids dag)) &&
  (dag_NodeCount dag <? 2 ^ 31) && (zlen (dag_Passes dag) <=? kMaxPasses) && forallb dag_node_okb indices &&
  forallb tuple_okb (dag_BuildTuples dag).

Lemma dependsb_spec i d : dependsb i d = true <-> depends dag i d.
Proof.
  unfold dependsb, depends. destruct (node_at dag i) as [nd|]; [|naive_solver]. rewrite bool_decide_eq_true. naive_solver.
Qed.

Lemma in_dagb_Forall l : forallb in_dagb l = true -> Forall (in_dag dag) l.
Proof.
  intros H. rewrite forallb_forall in H. apply Forall_forall. intros x Hx%list_elem_of_In%H. unfold in_dagb in Hx. unfold in_dag. zbool. lia.
Qed.

Lemma dag_okb_sound : dag_okb = true -> dag_ok dag.
Proof.
  unfold dag_okb. rewrite !andb_true_iff. intros (((((H1%Nat.eqb_eq & H2%bool_decide_eq_true) & H3%Z.ltb_lt) & H4%Z.leb_le) & H5) & H6).
  assert (Hn : forall i nd, node_at dag i = Some nd -> (0 <= nd_PassIndex nd < zlen (dag_Passes dag)) /\
    (forall d, d ∈ nd_Dependencies nd -> (drank d < drank i)%nat /\ exists nd', node_at dag d = Some nd' /\ nd_PassIndex nd' <= nd_PassIndex nd) /\
    (forall b, b ∈ nd_BackLinks nd -> depends dag b i) /\ (forall b, depends dag b i -> b ∈ nd_BackLinks nd) /\
    (expensive nd = true -> empty_action nd = false)).
  { intros i nd Hi. pose proof (forallb_range _ _ i H5 (node_in_dag _ _ _ Hi)) as Hx. unfold dag_node_okb in Hx. rewrite Hi, !andb_true_iff in Hx.
    destruct Hx as (((((P0%Z.leb_le & P1%Z.ltb_lt) & D) & B) & B') & E). rewrite !forallb_forall in *. split_and!; try done.
    - intros d Hd%list_elem_of_In%D. apply andb_true_iff in Hd as [Hr%Nat.ltb_lt Hp]. split; [done|].
      destruct (node_at dag d) as [nd'|]; [|done]. apply Z.leb_le in Hp. eauto.
    - intros b Hb%list_elem_of_In%B. by apply dependsb_spec.
    - intros b Hb. assert (Hin : b ∈ indices). { destruct Hb as (ndb & Hb & _). apply elem_of_seqZ. apply node_in_dag in Hb. unfold in_dag in Hb. lia. }
      apply list_elem_of_In, B' in Hin. apply dependsb_spec in Hb. rewrite Hb in Hin. by apply bool_decide_eq_true in Hin.
    - destruct (expensive nd), (empty_action nd); done. }
  split; try done.
  - intros i nd Hi. by apply Hn in Hi as (? & _).
  - intros i nd d Hi Hd. apply Hn in Hi as (_ & Hx & _). by apply Hx.
  - intros i nd b Hi. apply Hn in Hi as (_ & _ & Hx & Hy & _). split; auto.
  - exists drank. intros i d (nd & Hi & Hd). apply Hn in Hi as (_ & Hx & _). by apply Hx.
  - intros i nd Hi. by apply Hn in Hi as (_ & _ & _ & _ & Hx).
  - intros t Ht%list_elem_of_In. rewrite forallb_forall in H6. apply H6 in Ht. unfold tuple_okb in Ht. rewrite !andb_true_iff in Ht.
    destruct Ht as ((? & ?) & Hnn). split_and!; try by apply in_dagb_Forall. rewrite forallb_forall in Hnn. apply Forall_forall.
    intros n Hin%list_elem_of_In%Hnn. unfold in_dagb in Hin. unfold in_dag. zbool. lia.
Qed.
End Decide.

(** A DAG with the nodes of the demo build, one configuration and a named node. *)
Module DemoDag.
Definition guids : list HashDigest := [mkDigest 1 5; mkDigest 2 0; mkDigest 2 7; mkDigest 3 3; mkDigest 9 1].
Definition dag : DagData :=
  mkDag guids Demo.data [s2l "Compile"; s2l "Link"] [s2l "linux-gcc"] [Djb2Hash (s2l "linux-gcc")] [s2l "debug"] [Djb2Hash (s2l "debug")]
    [s2l "default"] [Djb2Hash (s2l "default")] [mkTuple 0 0 0 [4] [] [mkNamed (s2l "prog") 4; mkNamed (s2l "obj") 1]] 0 0 0 [] [] [] (-1)
    (s2l ".state") (s2l ".state.tmp") (s2l ".scan") (s2l ".scan.tmp") (s2l ".digest") (s2l ".digest.tmp").
Definition options : DriverOptions := DriverOptionsInit 4.
Definition old : NodeStateData := mkNodeStateData 0 (mkDigest 77 88) [] [].
Definition state : StateData := mkStateData [mkDigest 2 0] [old].

Lemma demo_dag_ok : dag_ok dag.
Proof. apply (dag_okb_sound dag [0; 1; 0; 0; 2]%nat). vm_compute. reflexivity. Qed.
End DemoDag.

(** * The properties *)

Lemma max_expensive_range dag options : 0 < opt_ThreadCount options -> 0 < max_expensive dag options <= opt_ThreadCount options.
Proof. intros. unfold max_expensive. destruct (Z.ltb_spec (dag_MaxExpensiveCount dag) 0); lia. Qed.

(** The configuration step accepts what the preparation produced. *)
Lemma build_config_ok `{StdSort} dag state options roots idxs remap pc : dag_ok dag -> NoDup idxs -> Forall (in_dag dag) idxs ->
  (forall i, i ∈ idxs <-> reach dag roots i) -> length remap = length (dag_NodeData dag) ->
  (forall i n, prepared dag state idxs !!z i = Some n -> remap !!z ns_MmapData n = Some i) ->
  (forall d, d ∉ pmm dag state idxs -> in_dag dag d -> remap !!z d = Some (-1)) ->
  zlen pc = kMaxPasses -> (forall k, 0 <= k < kMaxPasses -> pc !!z k = Some (in_pass dag k idxs)) -> 0 < opt_ThreadCount options ->
  let self := mkDriver options dag state remap (prepared dag state idxs) pc in
  exists cfg, DriverBuild_config self = OK cfg /\ build_ok cfg (dr_Nodes self) (pass_counts self).
Proof.
  intros Hok Hnd Hin Hreach Hlen Hto Hno Hpc Hk Ht self.
  assert (Hc : forall k c, pass_counts self !! k = Some c -> c = in_pass dag (Z.of_nat k) idxs /\ Z.of_nat k < kMaxPasses).
  { intros k c Hkc. unfold pass_counts in Hkc. rewrite lookup_take in Hkc. case_decide; [|done]. cbn in Hkc.
    assert (Z.of_nat k < kMaxPasses) by (apply lookup_lt_Some in Hkc; lia). specialize (Hk (Z.of_nat k) ltac:(lia)).
    rewrite zlookup_nat in Hk. split; [congruence|done]. }
  assert (Hto' : forall i d, pmm dag state idxs !!z i = Some d -> remap !!z d = Some i).
  { intros i d. unfold pmm. rewrite zlookup_map. destruct (prepared dag state idxs !!z i) as [n|] eqn:E; [|done]. intros [= <-]. by apply Hto. }
  pose proof (max_expensive_range dag options Ht) as Hme.
  pose proof (prepared_build_ok dag Hok state roots idxs Hnd Hin Hreach remap Hlen Hto' Hno (queue_flags options) (opt_ThreadCount options)
    (max_expensive dag options) (proj1 Hme) (pass_counts self) (fun k c Hkc => proj1 (Hc k c Hkc))) as HB.
  assert (Hplen : length (pass_counts self) = length (dag_Passes dag)).
  { unfold pass_counts. rewrite length_take. cbn. pose proof (dk_passes _ Hok). unfold kMaxPasses in *. lia. }
  pose proof (so_max _ _ (bo_static _ _ _ HB)) as Hmax. cbn in Hmax.
  unfold DriverBuild_config. cbn [dr_Nodes self dr_NodeRemap dr_DagData dr_Options].
  rewrite (prepared_checks dag Hok state idxs Hin remap Hlen 0 0 0 (pass_counts self) (fun k c Hkc => proj1 (Hc k c Hkc)) Hplen).
  cbn [mbind res_bind]. rewrite Z.eqb_refl. cbn [check mbind res_bind]. rewrite check_remap_ok by (done || lia). cbn [mbind res_bind]. eauto.
Qed.

(** C8. What the driver hands to the scheduler is what the scheduler needs. For
    a well-formed DAG and any selection of nodes, [DriverPrepareNodes] succeeds
    (the work list loop ends, no index is out of range, no [CHECK] fails)
    whatever order [std::sort] leaves equal elements in; the nodes are exactly
    those the selected ones transitively depend on, each once, each with the
    record the previous build saved under its guid; the paranoia checks of
    [DriverBuild] pass; and the configuration, nodes and pass sizes satisfy the
    conditions of the scheduler's theorems. *)
Theorem prepared_build_valid `{StdSort} native ci cwd junk_ends junk_data options dag state targets roots :
  dag_ok dag -> 0 < opt_ThreadCount options -> DriverSelectNodes native ci cwd junk_ends junk_data dag targets = OK roots ->
  exists self cfg,
    DriverPrepareNodes native ci cwd junk_ends junk_data (DriverInit options dag state) targets = OK self /\
    DriverBuild_config self = OK cfg /\ build_ok cfg (dr_Nodes self) (pass_counts self) /\
    NoDup (map ns_MmapData (dr_Nodes self)) /\
    (forall d, d ∈ map ns_MmapData (dr_Nodes self) <-> reach dag roots d) /\
    (forall n, n ∈ dr_Nodes self -> ns_MmapState n = dag_NodeGuids dag !!z ns_MmapData n ≫= old_state state).
Proof.
  intros Hok Ht Hsel. pose proof (select_nodes_in _ _ _ _ _ dag Hok targets roots Hsel) as Hroots.
  destruct (prepare_loop_closure dag Hok roots _ Hroots eq_refl) as (idxs & pc & Eloop & Hnd & Hin & Hreach & Hpc & Hk).
  unfold DriverPrepareNodes. cbn [DriverInit dr_DagData dr_PassNodeCount dr_StateData dr_Options]. rewrite Hsel. cbn [mbind res_bind].
  rewrite Eloop. cbn [mbind res_bind]. rewrite init_nodes_ok by done. cbn [mbind res_bind]. fold (prepared dag state idxs).
  assert (Hm1 : forall d, in_dag dag d -> replicate (Z.to_nat (dag_NodeCount dag)) (-1) !!z d = Some (-1)).
  { intros d Hd. unfold in_dag in Hd. rewrite <- (Z2Nat.id d), zlookup_nat by lia. apply lookup_replicate_2. lia. }
  destruct (remap_loop_ok (prepared dag state idxs) (replicate (Z.to_nat (dag_NodeCount dag)) (-1)) 0) as (remap & -> & Hlen & Hto & Hno).
  { by apply pmm_nodup. }
  { intros n [_ Hn]%prepared_fresh. apply Hm1. rewrite Forall_forall in Hin. by apply Hin. }
  cbn [mbind res_bind]. rewrite length_replicate in Hlen.
  destruct (build_config_ok dag state options roots idxs remap pc) as (cfg & Ecfg & HB); try done.
  { unfold dag_NodeCount in Hlen. lia. }
  { intros d Hd Hr. rewrite Hno by done. by apply Hm1. }
  eexists _, cfg. split; [done|]. split; [done|]. split; [done|]. cbn [dr_Nodes]. split; [by apply pmm_nodup|]. split.
  - intros d. fold (pmm dag state idxs). rewrite pmm_perm. apply Hreach.
  - intros n [-> _]%prepared_fresh. done.
Qed.

Lemma prepared_build_valid_witness :
  let select := DriverSelectNodes kUnix false (s2l "/w") junk_e junk_d DemoDag.dag in
  select [] = OK [4] /\ select [s2l "obj"; s2l "debug"] = OK [1] /\
  exists self cfg,
    DriverPrepareNodes kUnix false (s2l "/w") junk_e junk_d (DriverInit DemoDag.options DemoDag.dag (Some DemoDag.state)) [] = OK self /\
    DriverBuild_config self = OK cfg /\ build_ok cfg (dr_Nodes self) (pass_counts self) /\
    NoDup (map ns_MmapData (dr_Nodes self)) /\
    (forall d, d ∈ map ns_MmapData (dr_Nodes self) <-> reach DemoDag.dag [4] d) /\
    (forall n, n ∈ dr_Nodes self -> ns_MmapState n = dag_NodeGuids DemoDag.dag !!z ns_MmapData n ≫= old_state (Some DemoDag.state)).
Proof.
  split; [vm_compute; reflexivity|]. split; [vm_compute; reflexivity|].
  apply prepared_build_valid; [apply DemoDag.demo_dag_ok|reflexivity|vm_compute; reflexivity].
Defined.

(** ** The DAG is current *)

Section Current.
Context {W : Type} (timestamp : W -> cstr -> Z).

Lemma file_signatures_spec w l : file_signatures_match timestamp w l = true <-> Forall (fun s => timestamp w (fsig_Path s) = fsig_Timestamp s) l.
Proof.
  induction l as [|s l IH]; cbn; [split; [constructor|done]|]. rewrite Forall_cons.
  destruct (Z.eqb_spec (timestamp w (fsig_Path s)) (fsig_Timestamp s)); cbn; [rewrite IH; naive_solver|split; [done|naive_solver]].
Qed.

Context (glob_signature : W -> cstr -> res HashDigest).

(** The files and directories the DAG was generated from are as recorded. *)
Definition dag_current (w : W) (dag : DagData) : Prop :=
  zlen (dag_Passes dag) <= kMaxPasses /\
  Forall (fun s => timestamp w (fsig_Path s) = fsig_Timestamp s) (dag_FileSignatures dag) /\
  Forall (fun s => exists d, glob_signature w (gsig_Path s) = OK d /\ digest_eq d (gsig_Digest s) = true) (dag_GlobSignatures dag).

Lemma glob_signatures_spec w l : glob_signatures_match glob_signature w l = OK true <->
  Forall (fun s => exists d, glob_signature w (gsig_Path s) = OK d /\ digest_eq d (gsig_Digest s) = true) l.
Proof.
  induction l as [|s l IH]; cbn; [split; [constructor|done]|]. rewrite Forall_cons.
  destruct (glob_signature w (gsig_Path s)) as [d|]; cbn [mbind res_bind]; [|split; [done|by intros [(? & ? & _) _]]].
  destruct (digest_eq d (gsig_Digest s)) eqn:E; cbn; [rewrite IH|split; [done|intros [(? & [= <-] & ?) _]; congruence]].
  split; [intros Hl; split; [by exists d|done]|by intros [_ Hl]].
Qed.

(** In a checked build the guids have to be sorted as well. *)
Definition guids_checked (checked : bool) (dag : DagData) : Prop := checked = true -> guids_sorted (dag_NodeGuids dag) = OK tt.

Lemma check_signatures_spec checked w dag : guids_checked checked dag ->
  DriverCheckDagSignatures checked timestamp glob_signature w dag = OK true <-> dag_current w dag.
Proof.
  unfold DriverCheckDagSignatures, dag_current. intros Hg.
  assert ((if checked then guids_sorted (dag_NodeGuids dag) else OK tt) = OK tt) as -> by (destruct checked; [by apply Hg|done]).
  cbn [mbind res_bind]. rewrite <- file_signatures_spec, <- glob_signatures_spec.
  destruct (Z.ltb_spec kMaxPasses (zlen (dag_Passes dag))); [split; [done|lia]|].
  destruct (file_signatures_match _ _ _); cbn; naive_solver.
Qed.

Lemma check_signatures_answer checked w dag b : DriverCheckDagSignatures checked timestamp glob_signature w dag = OK b ->
  b = true <-> dag_current w dag.
Proof.
  intros Hc. rewrite <- (check_signatures_spec checked); [rewrite Hc; split; congruence|].
  intros ->. unfold DriverCheckDagSignatures in Hc. by destruct (guids_sorted _) as [[]|].
Qed.

Context (load_dag : W -> option DagData) (generate_dag : W -> res (W * bool)).

Lemma regenerate_ok checked w w' dag : regenerate_dag checked load_dag generate_dag timestamp glob_signature w = OK (w', Some dag) ->
  load_dag w' = Some dag /\ generate_dag w = OK (w', true) /\ (checked = true -> dag_current w' dag).
Proof.
  unfold regenerate_dag. destruct (generate_dag w) as [[w1 [|]]|]; [|done|done]. cbn [mbind res_bind negb].
  destruct (load_dag w1) as [d|] eqn:El; [|done]. destruct checked; [|intros [= <- <-]; done].
  destruct (DriverCheckDagSignatures true _ _ w1 d) as [b|] eqn:Ec; [|done]. cbn. destruct b; [|done]. cbn. intros [= <- <-].
  split_and!; [done..|]. intros _. by apply (check_signatures_answer true w1 d true).
Qed.

(** C27. A DAG file that is not current is not used, and a current one is not
    generated again. Whatever [DriverPrepareDag] accepts is what the DAG file then
    holds. Either nothing was generated: regeneration was not forced, and the file
    has at most 64 passes and every time stamp and directory digest as recorded in
    it. Or the front end was run and succeeded, because regeneration was forced, or
    there was no file, or the one there was not current; what it wrote is taken as
    it is, and checked in the same way only in a checked build, where CHECK is
    compiled in (a file that is out of date as soon as it is written does exist,
    [renamed_dag_fails_check]; another build takes it and generates it again next
    time). When regeneration is not forced and the file on disk is current (and, in
    a checked build, sorted), it is used and nothing is generated. *)
Theorem dag_current_or_regenerated checked options w :
  (forall w' dag, DriverPrepareDag checked load_dag generate_dag timestamp glob_signature options w = OK (w', Some dag) ->
     load_dag w' = Some dag /\
     ((w' = w /\ opt_ForceDagRegen options = false /\ dag_current w dag) \/
      (generate_dag w = OK (w', true) /\ (checked = true -> dag_current w' dag) /\
       (opt_ForceDagRegen options = true \/ load_dag w = None \/ exists old, load_dag w = Some old /\ ~ dag_current w old)))) /\
  (forall dag, opt_ForceDagRegen options = false -> load_dag w = Some dag -> guids_checked checked dag -> dag_current w dag ->
     DriverPrepareDag checked load_dag generate_dag timestamp glob_signature options w = OK (w, Some dag)).
Proof.
  unfold DriverPrepareDag. split.
  - intros w' dag. destruct (opt_ForceDagRegen options); [intros (? & ? & ?)%regenerate_ok; auto 6|].
    destruct (load_dag w) as [d|] eqn:El; [|intros (? & ? & ?)%regenerate_ok; auto 7].
    destruct (DriverCheckDagSignatures checked _ _ w d) as [b|] eqn:Ec; [|done]. cbn. apply check_signatures_answer in Ec. destruct b.
    + intros [= <- <-]. split; [done|]. left. split_and!; [done..|]. by apply Ec.
    + intros (? & ? & ?)%regenerate_ok. split; [done|]. right. split_and!; [done..|]. right. right. exists d. split; [done|].
      by intros ?%Ec.
  - intros dag -> El Hs Hc. rewrite El, (proj2 (check_signatures_spec checked w dag Hs) Hc). done.
Qed.
End Current.

(** A world of one script: its time stamp now, and that in the DAG file. *)
Module DemoCurrent.
Definition signed (t : Z) : DagData :=
  mkDag [] [] [] [] [] [] [] [] [] [] 0 0 0 [mkFileSig (s2l "tundra.lua") t] [] [] (-1) [] [] [] [] [] [].
Definition load (w : Z * Z) : option DagData := Some (signed w.2).
Definition generate (w : Z * Z) : res ((Z * Z) * bool) := OK ((w.1, w.1), true).
Definition timestamp (w : Z * Z) (path : cstr) : Z := w.1.
Definition glob (w : Z * Z) (path : cstr) : res HashDigest := OK (mkDigest 0 0).
Definition prepare (w : Z * Z) : res ((Z * Z) * option DagData) :=
  DriverPrepareDag false load generate timestamp glob DemoDag.options w.
End DemoCurrent.

Lemma dag_current_or_regenerated_witness :
  DemoCurrent.prepare (7, 7) = OK ((7, 7), Some (DemoCurrent.signed 7)) /\
  DemoCurrent.load (8, 8) = Some (DemoCurrent.signed 8) /\
  (((8, 8) = (8, 7) /\ opt_ForceDagRegen DemoDag.options = false /\ dag_current DemoCurrent.timestamp DemoCurrent.glob (8, 7) (DemoCurrent.signed 8)) \/
   (DemoCurrent.generate (8, 7) = OK ((8, 8), true) /\ (false = true -> dag_current DemoCurrent.timestamp DemoCurrent.glob (8, 8) (DemoCurrent.signed 8)) /\
    (opt_ForceDagRegen DemoDag.options = true \/ DemoCurrent.load (8, 7) = None \/
     exists old, DemoCurrent.load (8, 7) = Some old /\ ~ dag_current DemoCurrent.timestamp DemoCurrent.glob (8, 7) old))).
Proof.
  split.
  - apply (proj2 (dag_current_or_regenerated DemoCurrent.timestamp DemoCurrent.glob DemoCurrent.load DemoCurrent.generate false DemoDag.options (7, 7)));
      [reflexivity|reflexivity|discriminate|]. split_and!; [vm_compute; discriminate|repeat constructor|constructor].
  - apply (proj1 (dag_current_or_regenerated DemoCurrent.timestamp DemoCurrent.glob DemoCurrent.load DemoCurrent.generate false DemoDag.options (8, 7))).
    vm_compute. reflexivity.
Defined.
