(* ===== verification/DriverReach.v ===== *)
(** * Reachability and name lookup in the driver

    For src/src/Driver.cpp: [FindReachable] marks exactly the nodes reachable
    from its roots, and [FindNodesByName] maps a name to the named node, or to
    the first reachable node with such an input or output file. *)

From stdpp Require Import sorting.
From S2P Require Import Prelude CommonFns Hash HashImpl DagData SortedArray PathUtil BitSet TargetSelect Driver DriverThms.

Section Reach.
Context (dag : DagData) (Hok : dag_ok dag).

(** Nodes not yet marked. *)
Definition unseen (words : list Z) : nat := length (filter (fun i => member words i = false) (seqZ 0 (dag_NodeCount dag))).

Lemma filter_length_mono {A} (P Q : A -> Prop) `{forall x, Decision (P x)} `{forall x, Decision (Q x)} (l : list A) :
  (forall x, x ∈ l -> P x -> Q x) -> (length (filter P l) <= length (filter Q l))%nat.
Proof.
  induction l as [|x l IH]; intros Hi; [done|]. specialize (IH (fun y Hy => Hi y (list_elem_of_further _ _ _ Hy))).
  rewrite !filter_cons. repeat case_decide; cbn; try lia. exfalso. apply (Hi x) in H1; [done|set_solver].
Qed.

Lemma unseen_mono words words' : (forall j, 0 <= j -> member words j = true -> member words' j = true) -> (unseen words' <= unseen words)%nat.
Proof.
  intros Hm. apply filter_length_mono. intros i [Hi _]%elem_of_seqZ H'. destruct (member words i) eqn:E; [|done].
  rewrite Hm in H'; done.
Qed.

Lemma filter_length_strict {A} (P Q : A -> Prop) `{forall x, Decision (P x)} `{forall x, Decision (Q x)} (l : list A) a :
  (forall x, x ∈ l -> P x -> Q x) -> a ∈ l -> Q a -> ~ P a -> (length (filter P l) < length (filter Q l))%nat.
Proof.
  induction l as [|x l IH]; intros Hi Ha Hq Hp; [by apply elem_of_nil in Ha|].
  pose proof (filter_length_mono P Q l (fun y Hy => Hi y (list_elem_of_further _ _ _ Hy))) as Hm.
  rewrite !filter_cons. apply elem_of_cons in Ha as [->|Ha].
  - rewrite (decide_True (P := Q x)), (decide_False (P := P x)) by done. cbn. lia.
  - specialize (IH (fun y Hy => Hi y (list_elem_of_further _ _ _ Hy)) Ha Hq Hp). repeat case_decide; cbn; try lia.
    exfalso. apply (Hi x) in H1; [done|set_solver].
Qed.

Lemma unseen_set words words' i : in_dag dag i -> member words i = false ->
  (forall j, 0 <= j -> member words' j = (i =? j) || member words j) -> (unseen words' < unseen words)%nat.
Proof.
  intros Hi Hm Hb. unfold in_dag in Hi. apply (filter_length_strict _ _ _ i).
  - intros j [Hj _]%elem_of_seqZ H'. rewrite Hb in H' by done. by apply orb_false_iff in H' as [_ ?].
  - apply elem_of_seqZ. lia.
  - done.
  - rewrite Hb, Z.eqb_refl by lia. done.
Qed.

(** What a search leaves behind: [S] is where the new marks may be, and the
    dependencies of a newly marked node are marked. *)
Record Marked (words words' : list Z) (S : Z -> Prop) : Prop := {
  mk_len : length words' = length words;
  mk_ok : words_ok words -> words_ok words';
  mk_mono j : 0 <= j -> member words j = true -> member words' j = true;
  mk_in j : 0 <= j -> member words' j = true -> member words j = true \/ S j;
  mk_closed j d : 0 <= j -> member words' j = true -> member words j = false -> depends dag j d -> member words' d = true
}.

Lemma marked_refl words S : Marked words words S.
Proof. split; try done; [by left|congruence]. Qed.

Lemma marked_trans w1 w2 w3 S T : Marked w1 w2 S -> Marked w2 w3 T -> Marked w1 w3 (fun j => S j \/ T j).
Proof.
  intros A B. split.
  - by rewrite (mk_len _ _ _ B), (mk_len _ _ _ A).
  - intros. by apply (mk_ok _ _ _ B), (mk_ok _ _ _ A).
  - intros. by apply (mk_mono _ _ _ B), (mk_mono _ _ _ A).
  - intros j Hj [H|?]%(mk_in _ _ _ B); [apply (mk_in _ _ _ A) in H; naive_solver|auto|done].
  - intros j d Hj H3 H1 Hd. pose proof (depends_in_dag dag Hok j d Hd) as Hr. unfold in_dag in Hr.
    destruct (member w2 j) eqn:E; [|by apply (mk_closed _ _ _ B) with j]. apply (mk_mono _ _ _ B); [lia|]. by apply (mk_closed _ _ _ A) with j.
Qed.

Lemma marked_weaken w1 w2 (S T : Z -> Prop) : (forall j, S j -> T j) -> Marked w1 w2 S -> Marked w1 w2 T.
Proof. intros HST A. split; try apply A. intros j Hj H. destruct (mk_in _ _ _ A j Hj H); auto. Qed.

Lemma reach_sub l l' j : (forall x, x ∈ l -> reach dag l' x) -> reach dag l j -> reach dag l' j.
Proof. intros Hs. induction 1; [by apply Hs|by eapply reach_dep]. Qed.

Definition sized (words : list Z) : Prop := length words = length (zero_words ((dag_NodeCount dag + 31) / 32)).

(** A list of searches, given that one search works. *)
Lemma fold_reachable (find : list Z -> Z -> res (list Z)) (bound : nat) :
  (forall words i, in_dag dag i -> sized words -> (unseen words <= bound)%nat ->
     exists words', find words i = OK words' /\ Marked words words' (reach dag [i]) /\ member words' i = true) ->
  forall l words, Forall (in_dag dag) l -> sized words -> (unseen words <= bound)%nat ->
  exists words', foldM find words l = OK words' /\ Marked words words' (reach dag l) /\ forall i, i ∈ l -> member words' i = true.
Proof.
  intros Hf. induction l as [|i l IH]; intros words HF Hsz Hb; cbn [foldM].
  { exists words. split_and!; [done|apply marked_refl|]. intros i Hi. by apply elem_of_nil in Hi. }
  apply Forall_cons in HF as [Hi HF]. destruct (Hf words i Hi Hsz Hb) as (w1 & -> & M1 & H1). cbn [mbind res_bind].
  destruct (IH w1 HF) as (w2 & -> & M2 & H2).
  { unfold sized in *. by rewrite (mk_len _ _ _ M1). }
  { pose proof (unseen_mono words w1 (mk_mono _ _ _ M1)). lia. }
  exists w2. split_and!; [done| |].
  - eapply marked_weaken; [|by eapply marked_trans]. intros j [Hj|Hj]; (eapply reach_sub; [|exact Hj]); intros x Hx; apply reach_root; set_solver.
  - intros j [->|Hj]%elem_of_cons; [|by apply H2]. apply (mk_mono _ _ _ M2); [unfold in_dag in Hi; lia|done].
Qed.

Lemma FindReachable_ok fuel : forall words i, in_dag dag i -> sized words -> (unseen words < fuel)%nat ->
  exists words', FindReachable fuel dag words i = OK words' /\ Marked words words' (reach dag [i]) /\ member words' i = true.
Proof.
  induction fuel as [|fuel IH]; intros words i Hi Hsz Hb; [lia|]. cbn [FindReachable].
  pose proof (words_cover dag i Hi) as Hw. rewrite <- Hsz in Hw. rewrite test_bit_ok by done. cbn [mbind res_bind].
  destruct (member words i) eqn:Em; [exists words; split_and!; [done|apply marked_refl|done]|].
  destruct (set_bit_ok words i Hw) as (w1 & E1 & Hl1 & Hm1). rewrite E1. cbn [mbind res_bind].
  destruct (in_dag_node dag i Hi) as [nd Hn]. unfold node_at in Hn. rewrite Hn. cbn [of_opt mbind res_bind].
  pose proof (unseen_set words w1 i Hi Em Hm1) as Hlt.
  destruct (fold_reachable (FindReachable fuel dag) (unseen w1)) with (l := nd_Dependencies nd) (words := w1) as (w2 & -> & M2 & H2).
  - intros w j Hj Hs Hu. apply IH; [done..|lia].
  - apply Forall_forall. intros d Hd. apply (depends_in_dag dag Hok i). by exists nd.
  - unfold sized in *. congruence.
  - done.
  - unfold in_dag in Hi. assert (Hi1 : member w1 i = true) by (rewrite Hm1, Z.eqb_refl by lia; done).
    exists w2. split; [done|]. split; [|by apply (mk_mono _ _ _ M2); [lia|]]. split.
    + rewrite (mk_len _ _ _ M2). done.
    + intros Ho. apply (mk_ok _ _ _ M2). by eapply set_bit_words.
    + intros j Hj H. apply (mk_mono _ _ _ M2); [done|]. rewrite Hm1, H by done. apply orb_true_r.
    + intros j Hj [H|H]%(mk_in _ _ _ M2); [| |done].
      * rewrite Hm1 in H by done. apply orb_true_iff in H as [->%Z.eqb_eq|H]; [right; apply reach_root; set_solver|by left].
      * right. eapply reach_sub; [|exact H]. intros d Hd. apply (reach_dep _ _ i); [apply reach_root; set_solver|]. by exists nd.
    + intros j d Hj H3 H1 Hd. destruct (member w1 j) eqn:E; [|by apply (mk_closed _ _ _ M2) with j].
      rewrite Hm1, H1, orb_false_r in E by done. apply Z.eqb_eq in E as <-. destruct Hd as (nd' & Hn' & Hd). unfold node_at in Hn'.
      rewrite Hn in Hn'. simplify_eq. by apply H2.
Qed.

Lemma unseen_max words : (unseen words <= length (dag_NodeData dag))%nat.
Proof. unfold unseen. etransitivity; [apply length_filter|]. rewrite length_seqZ. unfold dag_NodeCount. lia. Qed.

Definition entry_points (tuple : BuildTupleData) : list Z := map nn_NodeIndex (bt_NamedNodes tuple).

Lemma FindReachableNodes_ok tuple : tuple ∈ dag_BuildTuples dag ->
  exists words, FindReachableNodes dag (zero_words ((dag_NodeCount dag + 31) / 32)) tuple = OK words /\ words_ok words /\
  (forall i, 0 <= i -> member words i = true <-> reach dag (entry_points tuple) i) /\ length words = length (zero_words ((dag_NodeCount dag + 31) / 32)).
Proof.
  intros Ht. destruct (dk_tuples _ Hok _ Ht) as (_ & _ & HF). unfold FindReachableNodes.
  rewrite (foldM_map_arg (FindReachable (reach_fuel dag) dag) nn_NodeIndex). fold (entry_points tuple).
  destruct (fold_reachable (FindReachable (reach_fuel dag) dag) (length (dag_NodeData dag))) with (l := entry_points tuple)
    (words := zero_words ((dag_NodeCount dag + 31) / 32)) as (words & -> & M & Hin).
  - intros w i Hi Hs Hu. apply FindReachable_ok; [done..|unfold reach_fuel; lia].
  - by apply Forall_map.
  - done.
  - apply unseen_max.
  - exists words. split_and!; [done|apply (mk_ok _ _ _ M), zero_words_ok| |apply M].
    intros i Hi. split.
    + intros [H|H]%(mk_in _ _ _ M); [by rewrite zero_words_member in H|done|done].
    + intros H. assert (in_dag dag i) by (eapply reach_in_dag; [done|by apply Forall_map|exact H]). clear Hi.
      induction H as [r Hr|j d Hj IH Hd]; [by apply Hin|].
      assert (Hjr : in_dag dag j) by (eapply reach_in_dag; [done|by apply Forall_map|exact Hj]).
      apply (mk_closed _ _ _ M) with j; [unfold in_dag in Hjr; lia|by apply IH|apply zero_words_member|done].
Qed.
End Reach.

(** ** Looking names up *)

Lemma member_cons_lo w words i : 0 <= i < 32 -> member (w :: words) i = Z.testbit w i.
Proof. intros. unfold member. rewrite Z.div_small, Z.mod_small by lia. done. Qed.

Lemma member_cons_hi w words i : 32 <= i -> member (w :: words) i = member words (i - 32).
Proof.
  intros. unfold member. replace (i / 32) with ((i - 32) / 32 + 1) by (rewrite <- Z.div_add by lia; f_equal; lia).
  assert (0 <= (i - 32) / 32) by (apply Z.div_pos; lia). rewrite zlookup_cons by lia. replace ((i - 32) / 32 + 1 - 1) with ((i - 32) / 32) by lia.
  replace (i mod 32) with ((i - 32) mod 32); [done|]. rewrite <- (Z_mod_plus_full (i - 32) 1 32). f_equal. lia.
Qed.

Section Names.
Context (native : PathType) (ci : bool) (cwd : cstr) (junk_ends : list Z) (junk_data : cstr).
Context (dag : DagData) (Hok : dag_ok dag).

(** A node has the file among its inputs or outputs. *)
Definition has_file (fn : cstr) (i : Z) : bool :=
  match node_at dag i with Some nd => node_matches ci (Djb2HashPath ci fn) fn nd | None => false end.

(** The first index of a set with the file, or none. *)
Definition first_match (P : Z -> Prop) (fn : cstr) (r : option Z) : Prop :=
  match r with
  | Some i => P i /\ has_file fn i = true /\ forall j, j < i -> P j -> has_file fn j = false
  | None => forall j, P j -> has_file fn j = false
  end.

Lemma find_in_bits_ok fn base bits : StronglySorted Z.lt bits -> (forall b, b ∈ bits -> in_dag dag (base + b)) ->
  exists r, find_in_bits ci dag (Djb2HashPath ci fn) fn base bits = OK r /\ first_match (fun i => i - base ∈ bits) fn r.
Proof.
  induction 1 as [|b bits Hs IH Hf]; intros Hin; cbn [find_in_bits].
  { exists None. split; [done|]. intros j Hj. by apply elem_of_nil in Hj. }
  destruct (in_dag_node dag (base + b)) as [nd Hn]; [apply Hin; set_solver|]. unfold node_at in Hn. rewrite Hn. cbn [of_opt mbind res_bind].
  assert (Hfile : has_file fn (base + b) = node_matches ci (Djb2HashPath ci fn) fn nd) by (unfold has_file, node_at; by rewrite Hn).
  rewrite Forall_forall in Hf. destruct (node_matches _ _ _ nd).
  - exists (Some (base + b)). split; [done|]. split_and!; [replace (base + b - base) with b by lia; set_solver|done|].
    intros j Hj [E|Hjb%Hf]%elem_of_cons; lia.
  - destruct IH as (r & -> & Hr); [intros; apply Hin; set_solver|]. exists r. split; [done|].
    assert (Hb : forall j, j - base ∈ b :: bits -> j = base + b \/ j - base ∈ bits) by (intros j [?|?]%elem_of_cons; [left; lia|by right]).
    destruct r as [i|]; cbn [first_match] in *.
    + destruct Hr as (Hi & Hm & Hlt). split_and!; [set_solver|done|]. intros j Hj [->|Hjb]%Hb; [done|by apply Hlt].
    + intros j [->|Hjb]%Hb; [done|by apply Hr].
Qed.

Lemma find_in_words_ok fn words : forall base, words_ok words -> (forall i, base <= i -> member words (i - base) = true -> in_dag dag i) ->
  exists r, find_in_words ci dag (Djb2HashPath ci fn) fn base words = OK r /\
  first_match (fun i => base <= i /\ member words (i - base) = true) fn r.
Proof.
  induction words as [|w words IH]; intros base Hw Hin; cbn [find_in_words].
  { exists None. split; [done|]. intros j [_ Hj]. unfold member in Hj. case_match eqn:E; [|done]. apply zlookup_lt in E. cbn in E. lia. }
  apply Forall_cons in Hw as [Hu Hw].
  assert (Hbits : forall b, b ∈ visited_bits w <-> 0 <= b < 32 /\ member (w :: words) b = true).
  { intros b. rewrite elem_of_visited_bits by done. split.
    - intros [H0 Ht]. assert (b < 32). { destruct (Z.lt_ge_cases b 32); [done|]. apply in_u32_bits in Hu as [_ Hu]. by rewrite Hu in Ht. }
      rewrite member_cons_lo by lia. done.
    - intros [Hb Ht]. rewrite member_cons_lo in Ht by lia. split; [lia|done]. }
  destruct (find_in_bits_ok fn base (visited_bits w)) as (r & -> & Hr).
  { by apply visited_bits_sorted. }
  { intros b [Hb Hm]%Hbits. apply Hin; [lia|]. by replace (base + b - base) with b by lia. }
  cbn [mbind res_bind]. destruct r as [i|].
  - exists (Some i). split; [done|]. destruct Hr as ([Hi Him]%Hbits & Hf & Hlt). split_and!; [lia|done|done|].
    intros j Hj [Hjb Hjm]. apply Hlt; [done|]. apply Hbits. split; [lia|done].
  - cbn [first_match] in Hr. destruct (IH (base + 32)) as (r & -> & Hr'); [done| |].
    { intros i Hi Hm. apply Hin; [lia|]. rewrite member_cons_hi by lia. by replace (i - base - 32) with (i - (base + 32)) by lia. }
    exists r. split; [done|]. assert (Hsplit : forall j, base <= j -> member (w :: words) (j - base) = true ->
      j - base ∈ visited_bits w \/ (base + 32 <= j /\ member words (j - (base + 32)) = true)).
    { intros j Hj Hm. destruct (Z.lt_ge_cases j (base + 32)); [left; apply Hbits; split; [lia|done]|right].
      rewrite member_cons_hi in Hm by lia. split; [done|]. by replace (j - (base + 32)) with (j - base - 32) by lia. }
    destruct r as [i|]; cbn [first_match] in *.
    + destruct Hr' as ([Hi Hm] & Hf & Hlt). split_and!; [lia| |done|].
      * rewrite member_cons_hi by lia. by replace (i - base - 32) with (i - (base + 32)) by lia.
      * intros j Hj [Hjb Hjm]. destruct (Hsplit j Hjb Hjm); [by apply Hr|by apply Hlt].
    + intros j [Hjb Hjm]. destruct (Hsplit j Hjb Hjm); [by apply Hr|by apply Hr'].
Qed.

(** What a name stands for. *)
Definition resolves (tuple : BuildTupleData) (name : cstr) (r : option Z) : Prop :=
  match find_named (bt_NamedNodes tuple) name with
  | Some i => r = Some i
  | None => exists fn, search_name native ci cwd junk_ends junk_data name = OK fn /\ first_match (reach dag (entry_points tuple)) fn r
  end.

(** The marks, once computed, are the reachable nodes. *)
Definition bits_valid (tuple : BuildTupleData) (bits : option (list Z)) : Prop :=
  match bits with
  | None => True
  | Some words => words_ok words /\ forall i, 0 <= i -> member words i = true <-> reach dag (entry_points tuple) i
  end.

Lemma find_one_name_ok tuple bits out name : tuple ∈ dag_BuildTuples dag -> bits_valid tuple bits ->
  (find_named (bt_NamedNodes tuple) name = None -> exists fn, search_name native ci cwd junk_ends junk_data name = OK fn) ->
  exists bits' r, find_one_name native ci cwd junk_ends junk_data dag tuple (bits, out) name = OK (bits', out ++ option_list r) /\
  bits_valid tuple bits' /\ resolves tuple name r.
Proof.
  intros Ht Hb Hs. unfold find_one_name, resolves. destruct (find_named _ name) as [i|]; [by exists bits, (Some i)|].
  destruct Hs as [fn Hfn]; [done|]. rewrite Hfn. cbn [mbind res_bind].
  assert (Hw : exists words, match bits with Some b => OK b | None => FindReachableNodes dag (zero_words ((dag_NodeCount dag + 31) / 32)) tuple end = OK words /\
    words_ok words /\ forall i, 0 <= i -> member words i = true <-> reach dag (entry_points tuple) i).
  { destruct bits as [words|]; [by exists words|]. destruct (FindReachableNodes_ok dag Hok tuple Ht) as (words & E & ? & ? & _). eauto. }
  destruct Hw as (words & -> & Hwo & Hwm). cbn [mbind res_bind].
  assert (Hdag : forall i, 0 <= i -> member words (i - 0) = true -> in_dag dag i).
  { intros i Hi Hm. rewrite Z.sub_0_r in Hm. apply Hwm in Hm; [|done]. eapply reach_in_dag; [done| |exact Hm].
    apply Forall_map. by destruct (dk_tuples _ Hok _ Ht) as (_ & _ & ?). }
  destruct (find_in_words_ok fn words 0 Hwo Hdag) as (r & -> & Hr). cbn [mbind res_bind].
  assert (Hiff : forall i, 0 <= i /\ member words (i - 0) = true <-> reach dag (entry_points tuple) i).
  { intros i. rewrite Z.sub_0_r. split; [intros [Hi Hm]; by apply Hwm|]. intros Hi. assert (in_dag dag i) as Hd.
    { eapply reach_in_dag; [done| |exact Hi]. apply Forall_map. by destruct (dk_tuples _ Hok _ Ht) as (_ & _ & ?). }
    unfold in_dag in Hd. split; [lia|]. apply Hwm; [lia|done]. }
  exists (Some words), r. split; [by destruct r|]. split; [done|]. exists fn. split; [done|].
  unfold first_match in *. destruct r; setoid_rewrite Hiff in Hr; done.
Qed.

(** Names on the command line resolve as documented. For every name, in
    order: a node of that name in the build tuple, else the reachable node of
    least index that has the name (relative to the working directory when it
    is below it) among its input or output files, else nothing. The depth-first
    marking ends, marks exactly the reachable nodes, and is done at most once. *)
Theorem names_resolve_in_order tuple out names : tuple ∈ dag_BuildTuples dag ->
  (forall name, name ∈ names -> find_named (bt_NamedNodes tuple) name = None ->
     exists fn, search_name native ci cwd junk_ends junk_data name = OK fn) ->
  exists rs, FindNodesByName native ci cwd junk_ends junk_data dag out names tuple = OK (out ++ concat (map option_list rs)) /\
  Forall2 (resolves tuple) names rs.
Proof.
  intros Ht. unfold FindNodesByName. assert (Hgen : forall bits out, bits_valid tuple bits ->
    (forall name, name ∈ names -> find_named (bt_NamedNodes tuple) name = None -> exists fn, search_name native ci cwd junk_ends junk_data name = OK fn) ->
    exists rs bits', foldM (find_one_name native ci cwd junk_ends junk_data dag tuple) (bits, out) names = OK (bits', out ++ concat (map option_list rs)) /\
    Forall2 (resolves tuple) names rs).
  { clear out. induction names as [|n ns IH]; intros bits out Hb Hs; cbn [foldM].
    { exists [], bits. cbn. by rewrite app_nil_r. }
    destruct (find_one_name_ok tuple bits out n Ht Hb) as (bits1 & r & -> & Hb1 & Hr); [apply Hs; set_solver|]. cbn [mbind res_bind].
    destruct (IH bits1 (out ++ option_list r) Hb1) as (rs & bits2 & -> & HF); [intros; apply Hs; set_solver|].
    exists (r :: rs), bits2. cbn. rewrite <- app_assoc. split; [done|]. by constructor. }
  intros Hs. destruct (Hgen None out I Hs) as (rs & bits & -> & HF). exists rs. done.
Qed.
End Names.

Module DemoFiles.
Definition file (s : string) : FrozenFileAndHash := mkFile (s2l s) (Djb2HashPath false (s2l s)).
Definition node (deps back : list Z) (inputs outputs : list FrozenFileAndHash) : NodeData :=
  mkNodeData (Some (s2l "cc")) None (s2l "cc") 0 deps back inputs outputs [] [] None 0.
Definition tuple : BuildTupleData := mkTuple 0 0 0 [2] [] [mkNamed (s2l "prog") 2].
Definition dag : DagData :=
  mkDag [mkDigest 1 0; mkDigest 2 0; mkDigest 3 0; mkDigest 4 0]
    [node [] [2] [file "src/a.c"] [file "o/a.o"]; node [] [] [file "src/b.c"] [file "o/b.o"]; node [0] [] [file "o/a.o"] [file "o/prog"]; node [] [] [] []]
    [s2l "All"] [] [] [] [] [] [] [tuple] 0 0 0 [] [] [] (-1) [] [] [] [] [] [].

Lemma demo_files_ok : dag_ok dag.
Proof. apply (dag_okb_sound dag [0; 0; 1; 0]%nat). vm_compute. reflexivity. Qed.
End DemoFiles.

Lemma names_resolve_in_order_witness :
  FindNodesByName kUnix false (s2l "/w") junk_e junk_d DemoFiles.dag [] [s2l "/w/x/../o/a.o"; s2l "prog"; s2l "src/b.c"] DemoFiles.tuple = OK [0; 2] /\
  exists rs, FindNodesByName kUnix false (s2l "/w") junk_e junk_d DemoFiles.dag [] [s2l "/w/x/../o/a.o"; s2l "prog"; s2l "src/b.c"] DemoFiles.tuple
    = OK (concat (map option_list rs)) /\
  Forall2 (resolves kUnix false (s2l "/w") junk_e junk_d DemoFiles.dag DemoFiles.tuple) [s2l "/w/x/../o/a.o"; s2l "prog"; s2l "src/b.c"] rs.
Proof.
  split; [vm_compute; reflexivity|].
  apply (names_resolve_in_order kUnix false (s2l "/w") junk_e junk_d DemoFiles.dag DemoFiles.demo_files_ok DemoFiles.tuple []); [set_solver|].
  intros name Hn _. repeat (apply elem_of_cons in Hn as [->|Hn]); [eexists; vm_compute; reflexivity..|]. by apply elem_of_nil in Hn.
Defined.
