(* ===== verification/DriverSave.v ===== *)
(** * Saving the build state

    Models [DriverSaveBuildState] of src/src/Driver.cpp, which merges the node
    states of this build with the records of the previous one and writes them
    through the binary writer, and the reader's view of the file it writes: the
    structs of src/src/StateData.hpp in a mapped file. *)

From stdpp Require Import sorting.
From S2P Require Import Prelude CommonFns Hash HashImpl DagData SortedArray BinaryWriter FrozenFile Driver.

(** ** Writing *)

Record StateWriter : Type := mkSW {
  sw_main : BinarySegment; sw_guid : BinarySegment; sw_state : BinarySegment;
  sw_array : BinarySegment; sw_string : BinarySegment; sw_entry_count : Z }.

Definition new_state_writer : StateWriter :=
  mkSW (BinarySegmentInit 0) (BinarySegmentInit 1) (BinarySegmentInit 2) (BinarySegmentInit 3) (BinarySegmentInit 4) 0.

(** The loop over the names: a pointer in the array for each string. *)
Fixpoint write_files (files : list cstr) (array_seg string_seg : BinarySegment) : BinarySegment * BinarySegment :=
  match files with
  | [] => (array_seg, string_seg)
  | f :: files' =>
      let array_seg := BinarySegmentWritePointer (BinarySegmentPosition string_seg) array_seg in
      write_files files' array_seg (BinarySegmentWriteStringData f string_seg)
  end.

(** A [FrozenArray<FrozenString>] of the state segment. *)
Definition write_file_array (files : list cstr) (sw : StateWriter) : StateWriter :=
  let state_seg := BinarySegmentWriteInt32 (zlen files) (sw_state sw) in
  let state_seg := BinarySegmentWritePointer (BinarySegmentPosition (sw_array sw)) state_seg in
  let '(array_seg, string_seg) := write_files files (sw_array sw) (sw_string sw) in
  mkSW (sw_main sw) (sw_guid sw) state_seg array_seg string_seg (sw_entry_count sw).

Definition save_entry (build_result : Z) (input_signature : HashDigest) (output_files aux_output_files : list cstr)
  (guid : HashDigest) (sw : StateWriter) : StateWriter :=
  let guid_seg := BinarySegmentWrite (digest_bytes guid) (sw_guid sw) in
  let state_seg := BinarySegmentWriteInt32 build_result (sw_state sw) in
  let state_seg := BinarySegmentWrite (digest_bytes input_signature) state_seg in
  let sw := mkSW (sw_main sw) guid_seg state_seg (sw_array sw) (sw_string sw) (sw_entry_count sw) in
  let sw := write_file_array output_files sw in
  write_file_array aux_output_files sw.

(** [save_node_state]: the names come from the DAG. *)
Definition save_node_state (build_result : Z) (input_signature : HashDigest) (src_node : NodeData) (guid : HashDigest) : StateWriter -> StateWriter :=
  save_entry build_result input_signature (map m_Filename (nd_OutputFiles src_node)) (map m_Filename (nd_AuxOutputFiles src_node)) guid.

(** [save_node_state_old]: the names come from the previous state. *)
Definition save_node_state_old (build_result : Z) (input_signature : HashDigest) (src_node : NodeStateData) (guid : HashDigest) : StateWriter -> StateWriter :=
  save_entry build_result input_signature (nsd_OutputFiles src_node) (nsd_AuxOutputFiles src_node) guid.

Definition count_entry (sw : StateWriter) : StateWriter :=
  mkSW (sw_main sw) (sw_guid sw) (sw_state sw) (sw_array sw) (sw_string sw) (sw_entry_count sw + 1).

Section Save.
Context (dag : DagData) (new_state : list NodeState) (old : StateData).

Definition save_new (index : Z) (sw : StateWriter) : res StateWriter :=
  elem ← of_opt (new_state !!z index);
  src_elem ← of_opt (dag_NodeData dag !!z ns_MmapData elem);
  guid ← of_opt (dag_NodeGuids dag !!z ns_MmapData elem);
  if progress_code (ns_Progress elem) <? progress_code kUnblocked then
    match BinarySearch digest_lt digest_eq (sd_NodeGuids old) (zlen (sd_NodeGuids old)) guid with
    | Some old_index =>
        old_state_data ← of_opt (sd_NodeStates old !!z old_index);
        OK (count_entry (save_node_state_old (nsd_BuildResult old_state_data) (nsd_InputSignature old_state_data) old_state_data guid sw))
    | None => OK sw
    end
  else OK (count_entry (save_node_state (ns_BuildResult elem) (ns_InputSignature elem) src_elem guid sw)).

Definition save_old (index : Z) (sw : StateWriter) : res StateWriter :=
  guid ← of_opt (sd_NodeGuids old !!z index);
  match BinarySearch digest_lt digest_eq (dag_NodeGuids dag) (zlen (dag_NodeGuids dag)) guid with
  | Some src_index =>
      src_elem ← of_opt (dag_NodeData dag !!z src_index);
      data ← of_opt (sd_NodeStates old !!z index);
      OK (count_entry (save_node_state (nsd_BuildResult data) (nsd_InputSignature data) src_elem guid sw))
  | None => OK sw
  end.

Definition save_call (sw : StateWriter) (c : Z + Z) : res StateWriter :=
  match c with inl index => save_new index sw | inr index => save_old index sw end.

(** [key_new]. *)
Definition key_new (elem : NodeState) : res HashDigest := of_opt (dag_NodeGuids dag !!z ns_MmapData elem).
End Save.

Definition StateMagicNumber : Z := Z.lxor 0x15890102 0x7810221e.

(** The main structure, completed at the end. *)
Definition finish_main (sw : StateWriter) : StateWriter :=
  let main_seg := BinarySegmentWriteUint32 StateMagicNumber (sw_main sw) in
  let main_seg := BinarySegmentWriteInt32 (sw_entry_count sw) main_seg in
  let main_seg := BinarySegmentWritePointer (mkLoc 1 0) main_seg in
  let main_seg := BinarySegmentWritePointer (mkLoc 2 0) main_seg in
  mkSW main_seg (sw_guid sw) (sw_state sw) (sw_array sw) (sw_string sw) (sw_entry_count sw).

Definition segments (sw : StateWriter) : list BinarySegment := [sw_main sw; sw_guid sw; sw_state sw; sw_array sw; sw_string sw].

Definition no_state : StateData := mkStateData [] [].

(** The bytes of the file that is renamed over the old state file when the
    writes succeed. *)
Definition DriverSaveBuildState `{StdSort} (self : Driver) : res (list Z) :=
  let dag := dr_DagData self in
  let new_state := std_sort (fun l r => ns_MmapData l <? ns_MmapData r) (dr_Nodes self) in
  let old := default no_state (dr_StateData self) in
  keys_new ← foldM (fun out elem => k ← key_new dag elem; OK (out ++ [k])) [] new_state;
  sw ← foldM (save_call dag new_state old) new_state_writer (TraverseSortedArrays keys_new (sd_NodeGuids old));
  BinaryWriterFlush (segments (finish_main sw)).

(** ** Reading *)

(** [FrozenArray<FrozenString>]: the pointer is only followed for elements. *)
Definition read_strings (file : list Z) (off : Z) : option (list cstr) :=
  match read_i32 file off with
  | Some m_Count =>
      if m_Count =? 0 then Some [] else
      match deref file (off + 4) with
      | Some p => read_array (fun a => match deref file a with Some t => read_string file t | None => None end) 4 (Z.to_nat m_Count) p
      | None => None
      end
  | None => None
  end.

(** [struct NodeStateData], 36 bytes. *)
Definition read_node_state (file : list Z) (off : Z) : option NodeStateData :=
  match read_i32 file off, read_digest file (off + 4), read_strings file (off + 20), read_strings file (off + 28) with
  | Some r, Some d, Some o, Some a => Some (mkNodeStateData r d o a)
  | _, _, _, _ => None
  end.

Definition sizeof_StateData : Z := 16.

(** [LoadFrozenData<StateData>] and the arrays it leads to. *)
Definition load_state (mapping : option (list Z)) : option StateData :=
  match LoadFrozenData sizeof_StateData StateMagicNumber mapping with
  | Some file =>
      match read_i32 file 4 with
      | Some m_NodeCount =>
          if m_NodeCount =? 0 then Some (mkStateData [] []) else
          match deref file 8, deref file 12 with
          | Some guids, Some states =>
              match read_array (read_digest file) 16 (Z.to_nat m_NodeCount) guids, read_array (read_node_state file) 36 (Z.to_nat m_NodeCount) states with
              | Some g, Some s => Some (mkStateData g s)
              | _, _ => None
              end
          | _, _ => None
          end
      | None => None
      end
  | None => None
  end.
