(* ===== verification/ScanSave.v ===== *)
(** * Saving the scan cache

    [ScanCacheSave] (ScanCache.cpp): the records of this session, sorted, are
    merged with the frozen ones, of which those not used for a week are left
    out; every include path is written once, through a pool of strings. The file
    is read back by [LoadFrozenData<ScanData>]. *)

From stdpp Require Import gmap sorting.
From S2P Require Import Prelude CommonFns Hash HashImpl DagData SortedArray HashTable ScanCache BinaryWriter FrozenFile Driver.

Definition ScanMagicNumber : Z := Z.lxor 0x1517000e 0x7810221e.

(** [struct ScanCacheWriter] and the string pool. *)
Record ScanCacheWriter : Type := mkScanWriter {
  w_MainSeg : BinarySegment;
  w_DigestSeg : BinarySegment;
  w_DataSeg : BinarySegment;
  w_TimestampSeg : BinarySegment;
  w_ArraySeg : BinarySegment;
  w_StringSeg : BinarySegment;
  w_RecordsOut : Z;
  w_Atoms : HashTable BinaryLocator }.

Definition ScanCacheWriterInit : ScanCacheWriter :=
  mkScanWriter (BinarySegmentInit 0) (BinarySegmentInit 1) (BinarySegmentInit 2) (BinarySegmentInit 3) (BinarySegmentInit 4) (BinarySegmentInit 5) 0 HashTableInit.

(** The positions taken by [ScanCacheWriterInit]. *)
Definition m_DigestPtr : BinaryLocator := BinarySegmentPosition (BinarySegmentInit 1).
Definition m_EntryPtr : BinaryLocator := BinarySegmentPosition (BinarySegmentInit 2).
Definition m_TimestampPtr : BinaryLocator := BinarySegmentPosition (BinarySegmentInit 3).

Definition ScanCacheWriterFlush (self : ScanCacheWriter) : res (list Z) :=
  let main_seg := BinarySegmentWriteUint32 ScanMagicNumber (w_MainSeg self) in
  let main_seg := BinarySegmentWriteUint32 (w_RecordsOut self) main_seg in
  let main_seg := BinarySegmentWritePointer m_DigestPtr main_seg in
  let main_seg := BinarySegmentWritePointer m_EntryPtr main_seg in
  let main_seg := BinarySegmentWritePointer m_TimestampPtr main_seg in
  BinaryWriterFlush [main_seg; w_DigestSeg self; w_DataSeg self; w_TimestampSeg self; w_ArraySeg self; w_StringSeg self].

Definition no_loc : BinaryLocator := mkLoc 0 0.

Section Save.
Context (ci : bool).

(** The pool, the segment of the pointer and that of the strings. *)
Definition WriteUniqueStringPointer (atoms : HashTable BinaryLocator) (out_segment string_segment : BinarySegment) (hash : Z) (filename : cstr)
    : res (HashTable BinaryLocator * BinarySegment * BinarySegment) :=
  l ← HashTableLookup ci atoms hash filename;
  match l with
  | Some l => OK (atoms, BinarySegmentWritePointer l out_segment, string_segment)
  | None =>
      let pos := BinarySegmentPosition string_segment in
      atoms ← HashTableInsert no_loc atoms hash filename pos;
      OK (atoms, BinarySegmentWritePointer pos out_segment, BinarySegmentWriteStringData filename string_segment)
  end.

(** One iteration of the loop of [SaveRecord]. *)
Definition save_include (st : HashTable BinaryLocator * BinarySegment * BinarySegment) (f : FrozenFileAndHash)
    : res (HashTable BinaryLocator * BinarySegment * BinarySegment) :=
  let '(atoms, array_seg, string_seg) := st in
  '(atoms, array_seg, string_seg) ← WriteUniqueStringPointer atoms array_seg string_seg (m_FilenameHash f) (m_Filename f);
  OK (atoms, BinarySegmentWriteUint32 (m_FilenameHash f) array_seg, string_seg).

Definition SaveRecord (self : ScanCacheWriter) (digest : HashDigest) (includes : list FrozenFileAndHash) (file_timestamp access_time : Z) : res ScanCacheWriter :=
  let string_ptrs := BinarySegmentPosition (w_ArraySeg self) in
  '(atoms, array_seg, string_seg) ← foldM save_include (w_Atoms self, w_ArraySeg self, w_StringSeg self) includes;
  let digest_seg := BinarySegmentWrite (digest_bytes digest) (w_DigestSeg self) in
  let data_seg := BinarySegmentWriteUint64 file_timestamp (w_DataSeg self) in
  let data_seg := BinarySegmentWriteUint32 (u32 (zlen includes)) data_seg in
  let data_seg := BinarySegmentWritePointer string_ptrs data_seg in
  let timestamp_seg := BinarySegmentWriteUint64 access_time (w_TimestampSeg self) in
  OK (mkScanWriter (w_MainSeg self) digest_seg data_seg timestamp_seg array_seg string_seg (u32 (w_RecordsOut self + 1)) atoms).

Definition SortRecordsByHash (l r : ScanRecord) : bool := digest_lt (r_Key l) (r_Key r).

Definition scan_week : Z := 60 * 60 * 24 * 7.

(** [time(nullptr)], the sorted records, the frozen data and its access flags. *)
Context (now : Z) (dyn_records : list ScanRecord) (scan_data : ScanData) (frozen_access : list bool).

Definition timestamp_cutoff : Z := u64 (now - scan_week).

Definition save_dynamic (index : Z) (writer : ScanCacheWriter) : res ScanCacheWriter :=
  r ← of_opt (dyn_records !!z index);
  SaveRecord writer (r_Key r) (r_Includes r) (r_FileTimestamp r) now.

Definition save_frozen (index : Z) (writer : ScanCacheWriter) : res ScanCacheWriter :=
  time ← of_opt (sn_AccessTimes scan_data !!z index);
  accessed ← of_opt (frozen_access !!z index);
  let timestamp := match accessed with true => now | false => time end in
  if timestamp_cutoff <? timestamp then
    digest ← of_opt (sn_Keys scan_data !!z index);
    entry ← of_opt (sn_Data scan_data !!z index);
    SaveRecord writer digest (ce_IncludedFiles entry) (ce_FileTimestamp entry) timestamp
  else OK writer.

Definition save_scan_call (writer : ScanCacheWriter) (c : Z + Z) : res ScanCacheWriter :=
  match c with inl index => save_dynamic index writer | inr index => save_frozen index writer end.

End Save.

Definition no_scan_data : ScanData := mkScanData 0 [] [] [].

(** The bytes of the file. *)
Definition ScanCacheSave (ci : bool) `{StdSort} (now : Z) (self : ScanCache) : res (list Z) :=
  let all := concat (ca_Table self) in
  _ ← check (zlen all =? ca_RecordCount self) "records_out == record_count";
  let dyn_records := std_sort SortRecordsByHash all in
  let scan_data := default no_scan_data (ca_FrozenData self) in
  writer ← foldM (save_scan_call ci now dyn_records scan_data (ca_FrozenAccess self)) ScanCacheWriterInit
    (TraverseSortedArrays (map r_Key dyn_records) (take (Z.to_nat (sn_EntryCount scan_data)) (sn_Keys scan_data)));
  ScanCacheWriterFlush writer.

(** ** Reading *)

(** [FrozenFileAndHash], 8 bytes. *)
Definition read_include (file : list Z) (off : Z) : option FrozenFileAndHash :=
  match deref file off, read_u32 file (off + 4) with
  | Some p, Some hash => match read_string file p with Some s => Some (mkFile s hash) | None => None end
  | _, _ => None
  end.

(** [ScanCacheEntry], 16 bytes. *)
Definition read_scan_entry (file : list Z) (off : Z) : option ScanCacheEntry :=
  match read_u64 file off, read_i32 file (off + 8) with
  | Some ts, Some count =>
      if count =? 0 then Some (mkScanEntry ts []) else
      match deref file (off + 12) with
      | Some p => match read_array (read_include file) 8 (Z.to_nat count) p with Some l => Some (mkScanEntry ts l) | None => None end
      | None => None
      end
  | _, _ => None
  end.

Definition sizeof_ScanData : Z := 20.

(** [LoadFrozenData<ScanData>] and the arrays it leads to. *)
Definition load_scan_data (mapping : option (list Z)) : option ScanData :=
  match LoadFrozenData sizeof_ScanData ScanMagicNumber mapping with
  | Some file =>
      match read_i32 file 4 with
      | Some count =>
          if count =? 0 then Some no_scan_data else
          match deref file 8, deref file 12, deref file 16 with
          | Some keys, Some data, Some times =>
              match read_array (read_digest file) 16 (Z.to_nat count) keys, read_array (read_scan_entry file) 16 (Z.to_nat count) data,
                    read_array (read_u64 file) 8 (Z.to_nat count) times with
              | Some k, Some d, Some t => Some (mkScanData count k d t)
              | _, _, _ => None
              end
          | _, _, _ => None
          end
      | None => None
      end
  | None => None
  end.

(** ** What is written *)

Record saved : Type := mkSaved { se_Key : HashDigest; se_Timestamp : Z; se_Includes : list FrozenFileAndHash; se_Access : Z }.

Definition incs (l : list saved) : list FrozenFileAndHash := concat (map se_Includes l).

Definition inc_item (f : FrozenFileAndHash) (loc : BinaryLocator) : list item := IPtr loc :: ibytes (le_bytes 4 (u32 (m_FilenameHash f))).
Definition inc_items (fs : list FrozenFileAndHash) (locs : list BinaryLocator) : list item := concat (zip_with inc_item fs locs).

Definition data_item (aoff : Z) (r : saved) : list item :=
  ibytes (le_bytes 8 (u64 (se_Timestamp r)) ++ le_bytes 4 (u32 (u32 (zlen (se_Includes r))))) ++ [IPtr (mkLoc 4 aoff)].
Fixpoint data_items (aoff : Z) (l : list saved) : list item :=
  match l with
  | [] => []
  | r :: l' => data_item aoff r ++ data_items (aoff + 8 * zlen (se_Includes r)) l'
  end.

Definition key_bytes (l : list saved) : list Z := concat (map (fun r => digest_bytes (se_Key r)) l).
Definition time_bytes (l : list saved) : list Z := concat (map (fun r => le_bytes 8 (u64 (se_Access r))) l).

(** The bytes a list of records may take. *)
Definition names_size (fs : list FrozenFileAndHash) : Z := foldr (fun f n => zlen (m_Filename f) + 1 + n) 0 fs.
Definition volume (l : list saved) : Z := foldr (fun r n => 40 + 8 * zlen (se_Includes r) + names_size (se_Includes r) + n) 0 l.

Lemma names_size_ge fs : zlen fs <= names_size fs.
Proof. induction fs as [|f fs IH]; [done|]. cbn [names_size foldr length] in *. fold (names_size fs). lia. Qed.

Lemma names_size_app a b : names_size (a ++ b) = names_size a + names_size b.
Proof. induction a as [|f a IH]; [done|]. cbn [names_size foldr app] in *. fold (names_size (a ++ b)) (names_size a). lia. Qed.

Lemma incs_snoc l r : incs (l ++ [r]) = incs l ++ se_Includes r.
Proof. unfold incs. rewrite map_app, concat_app. cbn. by rewrite app_nil_r. Qed.

Lemma volume_incs l : volume l = 40 * zlen l + 8 * zlen (incs l) + names_size (incs l).
Proof.
  induction l as [|r l IH]; [done|]. unfold incs in *. cbn [volume foldr map concat length]. fold (volume l). rewrite IH, names_size_app, length_app. lia.
Qed.

Lemma volume_app a b : volume (a ++ b) = volume a + volume b.
Proof. induction a as [|r a IH]; [done|]. cbn [volume foldr app] in *. fold (volume (a ++ b)) (volume a). lia. Qed.

Lemma data_items_snoc l r : forall aoff, data_items aoff (l ++ [r]) = data_items aoff l ++ data_item (aoff + 8 * zlen (incs l)) r.
Proof.
  induction l as [|x l IH]; intros aoff; cbn [app data_items].
  - unfold incs. cbn [map concat length app]. rewrite app_nil_r. f_equal. lia.
  - rewrite IH, <- app_assoc. unfold incs. cbn [map concat]. rewrite length_app. do 3 f_equal. lia.
Qed.

Lemma inc_items_app a b la lb : length a = length la -> inc_items (a ++ b) (la ++ lb) = inc_items a la ++ inc_items b lb.
Proof. intros Hl. unfold inc_items. by rewrite zip_with_app, concat_app. Qed.

Lemma inc_items_size fs : forall locs, length fs = length locs -> items_size (inc_items fs locs) = 8 * zlen fs.
Proof.
  induction fs as [|f fs IH]; intros [|l locs] Hl; try done. injection Hl as Hl. unfold inc_items in *. cbn [zip_with concat]. rewrite items_size_app, IH by done.
  unfold inc_item. cbn [items_size foldr item_size]. fold (items_size (ibytes (le_bytes 4 (u32 (m_FilenameHash f))))). rewrite ibytes_size, length_le_bytes, length_cons. lia.
Qed.

Section Writer.
Context (ci : bool).

(** The name of [f], up to case, is at [loc]. *)
Definition spelt (sb : list Z) (k : cstr) (loc : BinaryLocator) : Prop :=
  exists s pre post, sb = pre ++ string_bytes s ++ post /\ loc = mkLoc 5 (zlen pre) /\ cstr_ok s /\ canon ci s = k.

Lemma spelt_more sb e k loc : spelt sb k loc -> spelt (sb ++ e) k loc.
Proof. intros (s & pre & post & -> & ? & ? & ?). exists s, pre, (post ++ e). by rewrite <- !app_assoc. Qed.

Record pool_ok (sb : list Z) (atoms : HashTable BinaryLocator) : Prop := {
  pl_table : ht_ok atoms;
  pl_keyed : keyed ci atoms;
  pl_spelt : forall h k loc, table_map ci atoms !! (h, k) = Some loc -> spelt sb k loc }.

Definition include_ok (f : FrozenFileAndHash) : Prop := cstr_ok (m_Filename f) /\ 0 < m_FilenameHash f < 2 ^ 32.

Lemma write_unique_ok sb atoms out str ai f : pool_ok sb atoms -> ht_RecordCount atoms < 2 ^ 27 -> seg_is out 4 ai -> seg_is str 5 (ibytes sb) -> include_ok f ->
  exists atoms' out' str' loc e, WriteUniqueStringPointer ci atoms out str (m_FilenameHash f) (m_Filename f) = OK (atoms', out', str') /\
  seg_is out' 4 (ai ++ [IPtr loc]) /\ seg_is str' 5 (ibytes (sb ++ e)) /\ spelt (sb ++ e) (canon ci (m_Filename f)) loc /\ pool_ok (sb ++ e) atoms' /\
  ht_RecordCount atoms' <= ht_RecordCount atoms + 1 /\ zlen e <= zlen (m_Filename f) + 1.
Proof.
  intros [P1 P2 P3] Hn Ho Hs [Hc Hh]. unfold WriteUniqueStringPointer. rewrite (lookup_refines ci atoms _ _ P1 P2 Hc). cbn [mbind res_bind].
  destruct (table_map ci atoms !! (m_FilenameHash f, canon ci (m_Filename f))) as [loc|] eqn:E.
  - exists atoms, (BinarySegmentWritePointer loc out), str, loc, []. rewrite app_nil_r. split; [done|]. split; [by apply seg_write_pointer|].
    split_and!; try done; [by eapply P3|lia|cbn; lia].
  - set (pos := BinarySegmentPosition str). assert (Ep : pos = mkLoc 5 (zlen sb)) by (unfold pos; rewrite (seg_position _ _ _ Hs), ibytes_size; done).
    destruct (insert_refines no_loc ci atoms (m_FilenameHash f) (m_Filename f) pos P1 P2 Hc Hh Hn E) as (t & -> & Hok & Hk & Em & HP). cbn [mbind res_bind].
    exists t, (BinarySegmentWritePointer pos out), (BinarySegmentWriteStringData (m_Filename f) str), pos, (string_bytes (m_Filename f)).
    assert (Hnew : spelt (sb ++ string_bytes (m_Filename f)) (canon ci (m_Filename f)) pos).
    { exists (m_Filename f), sb, []. by rewrite app_nil_r. }
    split; [done|]. split; [by apply seg_write_pointer|]. split; [unfold ibytes; rewrite map_app; by apply seg_write|]. split; [done|]. split.
    { split; [done|done|]. intros h k loc. rewrite Em. destruct (decide ((h, k) = (m_FilenameHash f, canon ci (m_Filename f)))) as [Ek|Hne].
      - rewrite Ek, lookup_insert_eq. injection Ek as _ ->. by intros [= <-].
      - rewrite lookup_insert_ne by congruence. intros Hl. eapply spelt_more, P3, Hl. }
    split; [rewrite (count_entries t), HP by done; cbn [length]; rewrite (count_entries atoms) by done; lia|].
    rewrite string_bytes_ok by done. rewrite length_app, length_map. cbn. lia.
Qed.

Lemma save_includes_ok fs : forall sb atoms out str ai, pool_ok sb atoms -> ht_RecordCount atoms + zlen fs < 2 ^ 27 -> seg_is out 4 ai -> seg_is str 5 (ibytes sb) ->
  Forall include_ok fs -> exists atoms' out' str' locs e, foldM (save_include ci) (atoms, out, str) fs = OK (atoms', out', str') /\
  seg_is out' 4 (ai ++ inc_items fs locs) /\ seg_is str' 5 (ibytes (sb ++ e)) /\ Forall2 (fun f loc => spelt (sb ++ e) (canon ci (m_Filename f)) loc) fs locs /\
  pool_ok (sb ++ e) atoms' /\ ht_RecordCount atoms' <= ht_RecordCount atoms + zlen fs /\ zlen e <= names_size fs.
Proof.
  induction fs as [|f fs IH]; intros sb atoms out str ai P Hn Ho Hs HF; cbn [foldM length].
  { exists atoms, out, str, [], []. unfold inc_items. cbn [zip_with concat]. rewrite !app_nil_r. split_and!; try done; lia. }
  apply Forall_cons in HF as [Hf HF]. cbn [length] in Hn. unfold save_include at 2.
  destruct (write_unique_ok sb atoms out str ai f P) as (a1 & o1 & s1 & loc & e1 & -> & Ho1 & Hs1 & Hl & P1 & Hc1 & He1); [lia|done..|]. cbn [mbind res_bind].
  destruct (IH (sb ++ e1) a1 (BinarySegmentWriteUint32 (m_FilenameHash f) o1) s1 (ai ++ inc_item f loc) P1) as (a2 & o2 & s2 & locs & e2 & -> & Ho2 & Hs2 & HF2 & P2 & Hc2 & He2);
    [lia|..|done|done|].
  { unfold inc_item. replace (ai ++ IPtr loc :: ibytes _) with ((ai ++ [IPtr loc]) ++ ibytes (le_bytes 4 (u32 (m_FilenameHash f)))) by (by rewrite <- app_assoc). by apply seg_write. }
  exists a2, o2, s2, (loc :: locs), (e1 ++ e2). rewrite (app_assoc sb). split; [done|]. split.
  { unfold inc_items in *. cbn [zip_with concat]. by rewrite app_assoc. }
  split; [done|]. split; [constructor; [by apply spelt_more|done]|]. split; [done|]. split; [lia|].
  cbn [names_size foldr]. fold (names_size fs). rewrite length_app. lia.
Qed.

(** The writer after the records [l]: where the names are, and the bytes of the
    string segment. *)
Record writer_holds (l : list saved) (locs : list BinaryLocator) (sb : list Z) (w : ScanCacheWriter) : Prop := {
  wh_main : seg_is (w_MainSeg w) 0 [];
  wh_digest : seg_is (w_DigestSeg w) 1 (ibytes (key_bytes l));
  wh_data : seg_is (w_DataSeg w) 2 (data_items 0 l);
  wh_time : seg_is (w_TimestampSeg w) 3 (ibytes (time_bytes l));
  wh_array : seg_is (w_ArraySeg w) 4 (inc_items (incs l) locs);
  wh_string : seg_is (w_StringSeg w) 5 (ibytes sb);
  wh_out : w_RecordsOut w = u32 (zlen l);
  wh_spelt : Forall2 (fun f loc => spelt sb (canon ci (m_Filename f)) loc) (incs l) locs;
  wh_pool : pool_ok sb (w_Atoms w);
  wh_count : ht_RecordCount (w_Atoms w) <= zlen (incs l);
  wh_size : zlen sb <= names_size (incs l) }.

Lemma init_holds : writer_holds [] [] [] ScanCacheWriterInit.
Proof.
  split; try apply seg_init; try done. split; [by left|split; constructor|]. intros h k loc Hl. unfold table_map in Hl. cbn in Hl. by rewrite lookup_empty in Hl.
Qed.

Lemma SaveRecord_ok l locs sb w r : writer_holds l locs sb w -> volume (l ++ [r]) <= 2 ^ 30 -> Forall include_ok (se_Includes r) ->
  exists w' locs' sb', SaveRecord ci w (se_Key r) (se_Includes r) (se_Timestamp r) (se_Access r) = OK w' /\ writer_holds (l ++ [r]) locs' sb' w'.
Proof.
  intros [H0 H1 H2 H3 H4 H5 H6 H7 H8 H9 H10] Hv HF. rewrite volume_incs, incs_snoc, length_app in Hv. pose proof (names_size_ge (incs l ++ se_Includes r)) as Hg.
  rewrite length_app in Hg. rewrite length_app in Hv. unfold SaveRecord.
  destruct (save_includes_ok (se_Includes r) sb (w_Atoms w) (w_ArraySeg w) (w_StringSeg w) _ H8 ltac:(lia) H4 H5 HF)
    as (a & o & s & locs' & e & -> & Ho & Hs & HF' & P & Hc & He). cbn [mbind res_bind].
  eexists _, (locs ++ locs'), (sb ++ e). split; [done|]. pose proof (Forall2_length _ _ _ H7) as Hlen.
  split; cbn [w_MainSeg w_DigestSeg w_DataSeg w_TimestampSeg w_ArraySeg w_StringSeg w_RecordsOut w_Atoms]; rewrite ?incs_snoc, ?names_size_app, ?length_app; try done; try lia.
  - unfold key_bytes. rewrite map_app, concat_app. cbn [map concat]. rewrite app_nil_r. unfold ibytes. rewrite map_app. by apply seg_write.
  - rewrite data_items_snoc. unfold data_item. rewrite (seg_position _ _ _ H4), inc_items_size by done. rewrite app_assoc. apply seg_write_pointer.
    unfold ibytes at 1. rewrite map_app, app_assoc. by apply seg_write, seg_write.
  - unfold time_bytes. rewrite map_app, concat_app. cbn [map concat]. rewrite app_nil_r. unfold ibytes. rewrite map_app. by apply seg_write.
  - by rewrite inc_items_app.
  - rewrite H6. unfold u32. rewrite Zplus_mod_idemp_l. f_equal. cbn [length]. lia.
  - apply Forall2_app; [|done]. eapply Forall2_impl; [exact H7|]. intros f loc. apply spelt_more.
Qed.

End Writer.

(** ** The file *)

Definition main_items (n : Z) : list item :=
  ibytes (le_bytes 4 (u32 ScanMagicNumber) ++ le_bytes 4 (u32 (u32 n))) ++ [IPtr (mkLoc 1 0); IPtr (mkLoc 2 0); IPtr (mkLoc 3 0)].

Definition scan_segs (l : list saved) (locs : list BinaryLocator) (sb : list Z) : list (list item) :=
  [main_items (zlen l); ibytes (key_bytes l); data_items 0 l; ibytes (time_bytes l); inc_items (incs l) locs; ibytes sb].

Lemma key_bytes_size l : zlen (key_bytes l) = 16 * zlen l.
Proof.
  unfold key_bytes. induction l as [|r l IH]; [done|]. cbn [map concat length]. rewrite length_app, length_digest_bytes. lia.
Qed.

Lemma time_bytes_size l : zlen (time_bytes l) = 8 * zlen l.
Proof.
  unfold time_bytes. induction l as [|r l IH]; [done|]. cbn [map concat length]. rewrite length_app, length_le_bytes. lia.
Qed.

Lemma data_item_size aoff r : items_size (data_item aoff r) = 16.
Proof. unfold data_item. rewrite items_size_app, ibytes_size, length_app, !length_le_bytes. done. Qed.

Lemma data_items_size l : forall aoff, items_size (data_items aoff l) = 16 * zlen l.
Proof. induction l as [|r l IH]; intros aoff; [done|]. cbn [data_items length]. rewrite items_size_app, data_item_size, IH. lia. Qed.

Section ScanFile.
Context (ci : bool) (l : list saved) (locs : list BinaryLocator) (sb : list Z).
Context (Hspelt : Forall2 (fun f loc => spelt ci sb (canon ci (m_Filename f)) loc) (incs l) locs).
Context (Hsb : zlen sb <= names_size (incs l)) (Hvol : volume l <= 2 ^ 30 - 128).

Abbreviation segs := (scan_segs l locs sb).
Abbreviation base := (seg_base (scan_segs l locs sb)).
Abbreviation file := (file_of (scan_segs l locs sb)).
Abbreviation addr := (address (scan_segs l locs sb)).

Lemma scan_bases : base 0 = 0 /\ base 1 = 32 /\ base 1 + 16 * zlen l <= base 2 /\ base 2 + 16 * zlen l <= base 3 /\ base 3 + 8 * zlen l <= base 4 /\
  base 4 + 8 * zlen (incs l) <= base 5 /\ base 5 + zlen sb <= zlen file /\ zlen file <= 2 ^ 30.
Proof.
  pose proof (Forall2_length _ _ _ Hspelt) as Hlen. pose proof (volume_incs l) as Hv.
  unfold file_of. rewrite length_render_all. unfold seg_base, scan_segs. cbn [bases lookup list_lookup default foldr]. unfold id.
  assert (Hp : forall x, items_size x <= items_size (padded x) <= items_size x + 15).
  { intros x. pose proof (padded_size x). pose proof (items_size_nonneg x). unfold padded in *. rewrite items_size_app in *. unfold aligned16 in *.
    assert (Hr : forall k, items_size (replicate k (IByte 254)) = Z.of_nat k).
    { induction k as [|k IH]; [done|]. cbn [replicate items_size foldr item_size]. fold (items_size (replicate k (IByte 254))). lia. }
    rewrite Hr in *. pose proof (Z.mul_div_le (items_size x + 15) 16). lia. }
  pose proof (Hp (ibytes (key_bytes l))) as P1. pose proof (Hp (data_items 0 l)) as P2. pose proof (Hp (ibytes (time_bytes l))) as P3.
  pose proof (Hp (inc_items (incs l) locs)) as P4. pose proof (Hp (ibytes sb)) as P5. rewrite inc_items_size in P4 by done.
  rewrite ibytes_size in *. rewrite key_bytes_size in P1. rewrite time_bytes_size in P3. rewrite data_items_size in P2.
  assert (Hm : items_size (padded (main_items (zlen l))) = 32).
  { unfold padded, main_items. rewrite !items_size_app, ibytes_size, length_app, !length_le_bytes. reflexivity. }
  rewrite Hm. lia.
Qed.

Lemma loc_range f loc : spelt ci sb f loc -> bl_SegIndex loc = 5 /\ 0 <= bl_Offset loc < zlen sb.
Proof. intros (s & pre & post & -> & -> & Hs & _). cbn. rewrite !length_app, string_bytes_ok, length_app by done. cbn. lia. Qed.

Lemma data_targets t : forall k aoff, IPtr t ∈ data_items aoff k -> bl_SegIndex t = 4 /\ aoff <= bl_Offset t <= aoff + 8 * zlen (incs k).
Proof.
  induction k as [|r k IH]; intros aoff; cbn [data_items]; [by intros ?%elem_of_nil|]. unfold incs in *. cbn [map concat]. rewrite length_app.
  rewrite elem_of_app. intros [H|H%IH]; [|lia]. unfold data_item in H. rewrite elem_of_app, list_elem_of_singleton in H.
  destruct H as [H|[= ->]]; [by apply ibytes_no_ptr in H|cbn; lia].
Qed.

Lemma inc_targets t : forall fs ls, Forall2 (fun f loc => spelt ci sb (canon ci (m_Filename f)) loc) fs ls -> IPtr t ∈ inc_items fs ls ->
  bl_SegIndex t = 5 /\ 0 <= bl_Offset t < zlen sb.
Proof.
  intros fs ls HF. induction HF as [|f loc fs ls Hf HF IH]; [by intros ?%elem_of_nil|]. unfold inc_items in *. cbn [zip_with concat]. rewrite elem_of_app.
  intros [H|H]; [|by apply IH]. unfold inc_item in H. apply elem_of_cons in H as [[= ->]|H]; [by eapply loc_range|by apply ibytes_no_ptr in H].
Qed.

Lemma scan_targets_ok : targets_ok segs.
Proof.
  pose proof scan_bases as (? & ? & ? & ? & ? & ? & ? & ?). split; [|done]. intros k t Hk Ht. change (zlen segs) with 6.
  unfold scan_segs in Hk. rewrite !elem_of_cons, elem_of_nil in Hk.
  destruct Hk as [->|[->|[->|[->|[->|[->|[]]]]]]]; try by apply ibytes_no_ptr in Ht.
  - unfold main_items in Ht. rewrite elem_of_app, !elem_of_cons, elem_of_nil in Ht.
    destruct Ht as [Ht|[[= ->]|[[= ->]|[[= ->]|[]]]]]; [by apply ibytes_no_ptr in Ht|cbn; lia..].
  - apply data_targets in Ht. lia.
  - apply (inc_targets t _ _ Hspelt) in Ht. lia.
Qed.

End ScanFile.

(** ** Reading it back *)

Section ReadScan.
Context (ci : bool) (file : list Z) (addr : BinaryLocator -> Z) (B4 B5 : Z) (sb : list Z).
Context (Hsize : zlen file <= 2 ^ 30) (H4 : forall o, addr (mkLoc 4 o) = B4 + o) (H5 : forall o, addr (mkLoc 5 o) = B5 + o).
Context (Hnames : has file B5 sb).

Definition same_file (f g : FrozenFileAndHash) : Prop := canon ci (m_Filename g) = canon ci (m_Filename f) /\ m_FilenameHash g = m_FilenameHash f.

Lemma read_include_ok pos f loc : include_ok f -> spelt ci sb (canon ci (m_Filename f)) loc -> has_items file addr pos (inc_item f loc) -> pos + 8 <= B5 ->
  exists g, read_include file pos = Some g /\ same_file f g.
Proof.
  intros [Hc Hh] (s & pre & post & E & -> & Hs & Ec) Hi Hp. unfold inc_item in Hi. change (IPtr _ :: ?x) with ([IPtr (mkLoc 5 (zlen pre))] ++ x) in Hi.
  apply has_items_app in Hi as [Hi1 Hi2]. change (items_size [IPtr (mkLoc 5 (zlen pre))]) with 4 in Hi2. apply has_items_bytes in Hi2.
  assert (Hn : has file (B5 + zlen pre) (string_bytes s)).
  { rewrite E in Hnames. apply has_app in Hnames as [_ Hn]. by apply has_app in Hn as [Hn _]. }
  pose proof (has_range _ _ _ Hn). unfold read_include. rewrite (deref_forward file addr pos _ Hi1) by (rewrite H5; lia). rewrite H5.
  rewrite u32_small in Hi2 by (unfold in_u32; lia). rewrite (read_u32_has _ _ (m_FilenameHash f)) by (done || unfold in_u32; lia).
  rewrite (read_string_has _ _ _ Hs Hn). eexists. split; [done|]. by split.
Qed.

Lemma read_includes_ok fs : forall pos locs, Forall include_ok fs -> Forall2 (fun f loc => spelt ci sb (canon ci (m_Filename f)) loc) fs locs ->
  has_items file addr pos (inc_items fs locs) -> pos + 8 * zlen fs <= B5 ->
  exists gs, read_array (read_include file) 8 (length fs) pos = Some gs /\ Forall2 same_file fs gs.
Proof.
  induction fs as [|f fs IH]; intros pos locs HF HS Hi Hp; cbn [length read_array]; [by exists []|].
  apply Forall_cons in HF as [Hf HF]. apply Forall2_cons_inv_l in HS as (loc & locs' & Hl & HS & ->). unfold inc_items in Hi. cbn [zip_with concat] in Hi.
  apply has_items_app in Hi as [Hi1 Hi2]. unfold inc_item in Hi2 at 1. cbn [items_size foldr item_size] in Hi2.
  fold (items_size (ibytes (le_bytes 4 (u32 (m_FilenameHash f))))) in Hi2. rewrite ibytes_size, length_le_bytes in Hi2. change (4 + Z.of_nat 4) with 8 in Hi2.
  cbn [length] in Hp. destruct (read_include_ok pos f loc Hf Hl Hi1) as (g & -> & Hg); [lia|].
  destruct (IH (pos + 8) locs' HF HS Hi2) as (gs & -> & Hgs); [lia|]. exists (g :: gs). split; [done|]. by constructor.
Qed.

Definition entry_of (r : saved) (e : ScanCacheEntry) : Prop := ce_FileTimestamp e = se_Timestamp r /\ Forall2 same_file (se_Includes r) (ce_IncludedFiles e).

Lemma read_entry_ok pos aoff r locs : 0 <= se_Timestamp r < 2 ^ 64 -> Forall include_ok (se_Includes r) -> 8 * zlen (se_Includes r) <= 2 ^ 30 ->
  Forall2 (fun f loc => spelt ci sb (canon ci (m_Filename f)) loc) (se_Includes r) locs -> has_items file addr pos (data_item aoff r) ->
  has_items file addr (B4 + aoff) (inc_items (se_Includes r) locs) -> pos + 16 <= B4 -> 0 <= aoff -> B4 + aoff + 8 * zlen (se_Includes r) <= B5 ->
  exists e, read_scan_entry file pos = Some e /\ entry_of r e.
Proof.
  intros Ht HF Hz HS Hd Hi Hp Ho Hb. unfold data_item in Hd. apply has_items_app in Hd as [Hd Hptr]. apply has_items_bytes, has_app in Hd as [Hd1 Hd2].
  rewrite ibytes_size, length_app, !length_le_bytes in Hptr. rewrite length_le_bytes in Hd2. change (Z.of_nat (8 + 4)) with 12 in Hptr. change (Z.of_nat 8) with 8 in Hd2.
  unfold read_scan_entry. rewrite u64_small in Hd1 by done. rewrite (read_u64_has _ _ _ Ht Hd1). rewrite (u32_small (u32 _)) in Hd2 by (apply u32_range).
  rewrite (read_i32_has _ _ (zlen (se_Includes r))) by (done || unfold in_i32; lia).
  destruct (Z.eqb_spec (zlen (se_Includes r)) 0) as [E|E].
  { eexists. split; [done|]. split; [done|]. destruct (se_Includes r); [constructor|cbn in E; lia]. }
  pose proof (has_range _ _ _ Hnames). rewrite (deref_forward file addr (pos + 12) _ Hptr) by (rewrite H4; lia). rewrite H4, Nat2Z.id.
  destruct (read_includes_ok _ _ _ HF HS Hi Hb) as (gs & -> & Hgs). eexists. split; [done|]. by split.
Qed.

Definition record_ok (r : saved) : Prop := Fast.digest_ok (se_Key r) /\ 0 <= se_Timestamp r < 2 ^ 64 /\ 0 <= se_Access r < 2 ^ 64 /\ Forall include_ok (se_Includes r).

Lemma read_entries_ok l : forall pos aoff locs, Forall record_ok l -> 8 * zlen (incs l) <= 2 ^ 30 ->
  Forall2 (fun f loc => spelt ci sb (canon ci (m_Filename f)) loc) (incs l) locs -> has_items file addr pos (data_items aoff l) ->
  has_items file addr (B4 + aoff) (inc_items (incs l) locs) -> pos + 16 * zlen l <= B4 -> 0 <= aoff -> B4 + aoff + 8 * zlen (incs l) <= B5 ->
  exists es, read_array (read_scan_entry file) 16 (length l) pos = Some es /\ Forall2 entry_of l es.
Proof.
  induction l as [|r l IH]; intros pos aoff locs HF Hz HS Hd Hi Hp Ho Hb; cbn [length read_array]; [by exists []|].
  apply Forall_cons in HF as [(_ & Ht & _ & Hr) HF]. unfold incs in *. cbn [map concat length data_items] in *. rewrite length_app in Hz, Hb.
  apply Forall2_app_inv_l in HS as (la & lb & HSa & HSb & ->). pose proof (Forall2_length _ _ _ HSa) as Hla. rewrite inc_items_app in Hi by done.
  apply has_items_app in Hi as [Hia Hib]. rewrite inc_items_size in Hib by done. apply has_items_app in Hd as [Hda Hdb]. rewrite data_item_size in Hdb.
  destruct (read_entry_ok pos aoff r la) as (e & -> & He); try done; try lia.
  destruct (IH (pos + 16) (aoff + 8 * zlen (se_Includes r)) lb) as (es & -> & Hes); try done; try lia.
  { by replace (B4 + (aoff + 8 * zlen (se_Includes r))) with (B4 + aoff + 8 * zlen (se_Includes r)) by lia. }
  exists (e :: es). split; [done|]. by constructor.
Qed.

Lemma read_keys_ok l : forall pos, Forall record_ok l -> has file pos (key_bytes l) -> read_array (read_digest file) 16 (length l) pos = Some (map se_Key l).
Proof.
  induction l as [|r l IH]; intros pos HF Hh; cbn [length read_array map]; [done|]. apply Forall_cons in HF as [(Hd & _) HF]. unfold key_bytes in Hh. cbn [map concat] in Hh.
  apply has_app in Hh as [Hh1 Hh2]. rewrite length_digest_bytes in Hh2. rewrite (read_digest_has _ _ _ Hd Hh1). by rewrite (IH (pos + 16)).
Qed.

Lemma read_times_ok l : forall pos, Forall record_ok l -> has file pos (time_bytes l) -> read_array (read_u64 file) 8 (length l) pos = Some (map se_Access l).
Proof.
  induction l as [|r l IH]; intros pos HF Hh; cbn [length read_array map]; [done|]. apply Forall_cons in HF as [(_ & _ & Ha & _) HF]. unfold time_bytes in Hh. cbn [map concat] in Hh.
  apply has_app in Hh as [Hh1 Hh2]. rewrite length_le_bytes in Hh2. rewrite u64_small in Hh1 by done. rewrite (read_u64_has _ _ _ Ha Hh1). by rewrite (IH (pos + 8)).
Qed.

End ReadScan.

Lemma scan_magic_range : in_u32 ScanMagicNumber.
Proof. vm_compute. split; [discriminate|reflexivity]. Qed.

Lemma load_scan_ok ci l locs sb : Forall2 (fun f loc => spelt ci sb (canon ci (m_Filename f)) loc) (incs l) locs ->
  zlen sb <= names_size (incs l) -> volume l <= 2 ^ 30 - 128 -> Forall record_ok l ->
  exists es, load_scan_data (Some (file_of (scan_segs l locs sb))) = Some (mkScanData (zlen l) (map se_Key l) es (map se_Access l)) /\ Forall2 (entry_of ci) l es.
Proof.
  intros HS Hsb Hv HF. pose proof (scan_bases ci l locs sb HS Hsb Hv) as (E0 & E1 & E2 & E3 & E4 & E5 & E6 & E7). pose proof (volume_incs l) as Hvi.
  pose proof (names_size_ge (incs l)) as Hge.
  pose proof (seg_has (scan_segs l locs sb) 0 _ eq_refl) as Hm. pose proof (seg_has (scan_segs l locs sb) 1 _ eq_refl) as Hk. pose proof (seg_has (scan_segs l locs sb) 2 _ eq_refl) as Hd.
  pose proof (seg_has (scan_segs l locs sb) 3 _ eq_refl) as Ht. pose proof (seg_has (scan_segs l locs sb) 4 _ eq_refl) as Ha. pose proof (seg_has (scan_segs l locs sb) 5 _ eq_refl) as Hn.
  assert (Haddr : forall i o, (i < 6)%nat -> address (scan_segs l locs sb) (mkLoc (Z.of_nat i) o) = seg_base (scan_segs l locs sb) i + o) by (intros; by apply seg_address).
  set (base := seg_base (scan_segs l locs sb)) in *. set (file := file_of (scan_segs l locs sb)) in *. set (addr := address (scan_segs l locs sb)) in *.
  rewrite E0 in Hm. unfold main_items in Hm. apply has_items_app in Hm as [Hm Hp]. apply has_items_bytes, has_app in Hm as [Hm1 Hm2].
  rewrite ibytes_size, length_app, !length_le_bytes in Hp. rewrite length_le_bytes in Hm2. change (0 + Z.of_nat (4 + 4)) with 8 in Hp. change (0 + Z.of_nat 4) with 4 in Hm2.
  change [IPtr (mkLoc 1 0); IPtr (mkLoc 2 0); IPtr (mkLoc 3 0)] with ([IPtr (mkLoc 1 0)] ++ [IPtr (mkLoc 2 0)] ++ [IPtr (mkLoc 3 0)]) in Hp.
  apply has_items_app in Hp as [Hp1 Hp]. apply has_items_app in Hp as [Hp2 Hp3]. change (8 + items_size [IPtr (mkLoc 1 0)]) with 12 in Hp2, Hp3.
  change (12 + items_size [IPtr (mkLoc 2 0)]) with 16 in Hp3. rewrite (u32_small _ scan_magic_range) in Hm1.
  pose proof (has_range _ _ _ Hp3) as Hr. change (zlen (render addr 16 [IPtr (mkLoc 3 0)])) with 4 in Hr.
  unfold load_scan_data, LoadFrozenData. rewrite (proj2 (Z.ltb_ge _ _)) by (unfold sizeof_ScanData; lia).
  rewrite bool_decide_true by (by apply read_u32_has; [apply scan_magic_range|]).
  rewrite (u32_small (u32 _)) in Hm2 by apply u32_range. rewrite (read_i32_has _ _ (zlen l)) by (done || unfold in_i32; lia).
  destruct (Z.eqb_spec (zlen l) 0) as [E|E].
  { destruct l; [|cbn in E; lia]. exists []. split; [done|constructor]. }
  assert (A1 : addr (mkLoc 1 0) = base 1%nat) by (rewrite <- Z.add_0_r; by apply (Haddr 1%nat); lia).
  assert (A2 : addr (mkLoc 2 0) = base 2%nat) by (rewrite <- Z.add_0_r; by apply (Haddr 2%nat); lia).
  assert (A3 : addr (mkLoc 3 0) = base 3%nat) by (rewrite <- Z.add_0_r; by apply (Haddr 3%nat); lia).
  rewrite (deref_forward file addr 8 _ Hp1), (deref_forward file addr 12 _ Hp2), (deref_forward file addr 16 _ Hp3) by lia. rewrite A1, A2, A3, Nat2Z.id.
  apply has_items_bytes in Hk, Ht, Hn. rewrite (read_keys_ok file l _ HF Hk), (read_times_ok file l _ HF Ht).
  destruct (read_entries_ok ci file addr (base 4%nat) (base 5%nat) sb E7 ltac:(intros o; apply (Haddr 4%nat); lia) ltac:(intros o; apply (Haddr 5%nat); lia) Hn
    l (base 2%nat) 0 locs HF ltac:(lia) HS Hd ltac:(by rewrite Z.add_0_r) ltac:(lia) ltac:(lia) ltac:(lia)) as (es & -> & Hes). eauto.
Qed.

(** ** The merge *)

Section Merge.
Context (ci : bool) (now : Z) (c : ScanCache) (Hok : scan_ok c).
Context (dyn : list ScanRecord) (Hperm : dyn ≡ₚ records c) (Hsorted : ssorted (map r_Key dyn)).

Definition old_data : ScanData := default no_scan_data (ca_FrozenData c).

Definition saved_of (call : Z + Z) : option saved :=
  match call with
  | inl i => (fun r => mkSaved (r_Key r) (r_FileTimestamp r) (r_Includes r) now) <$> dyn !!z i
  | inr i =>
      match sn_AccessTimes old_data !!z i, ca_FrozenAccess c !!z i, sn_Keys old_data !!z i, sn_Data old_data !!z i with
      | Some t, Some a, Some k, Some e =>
          let timestamp := match a with true => now | false => t end in
          if timestamp_cutoff now <? timestamp then Some (mkSaved k (ce_FileTimestamp e) (ce_IncludedFiles e) timestamp) else None
      | _, _, _, _ => None
      end
  end.

Definition merge_trace : list (Z + Z) := TraverseSortedArrays (map r_Key dyn) (take (Z.to_nat (sn_EntryCount old_data)) (sn_Keys old_data)).
Definition saved_list : list saved := omap saved_of merge_trace.

Lemma old_ok : frozen_ok old_data /\ forall i, 0 <= i < sn_EntryCount old_data -> is_Some (ca_FrozenAccess c !!z i).
Proof.
  destruct Hok as [_ Hf]. unfold old_data. destruct (ca_FrozenData c) as [d|]; cbn [default].
  - destruct (Hf d eq_refl) as [? Ha]. split; [done|]. intros i Hi. cbn in Hi. apply zlookup_is_Some. lia.
  - split; [split; try done; constructor|]. intros i Hi. cbn in Hi. lia.
Qed.

Lemma old_keys : take (Z.to_nat (sn_EntryCount old_data)) (sn_Keys old_data) = sn_Keys old_data.
Proof. destruct old_ok as [[_ Hk _ _] _]. apply take_ge. lia. Qed.

Lemma trace_left i : inl i ∈ merge_trace <-> 0 <= i < zlen dyn.
Proof.
  destruct old_ok as [[Hs _ _ _] _]. pose proof (traverse_left (map r_Key dyn) 0 (sn_Keys old_data) 0 Hsorted Hs) as E.
  fold (TraverseSortedArrays (map r_Key dyn) (sn_Keys old_data)) in E. unfold merge_trace. rewrite old_keys, length_map in *.
  assert (Hiff : forall tr : list (Z + Z), inl i ∈ tr <-> i ∈ omap from_left tr).
  { intros tr. rewrite list_elem_of_omap. split; [intros H; by exists (inl i)|]. intros ([j|j] & Hj & Ej); [|done]. by injection Ej as ->. }
  rewrite Hiff, E, elem_of_seqZ. lia.
Qed.

Lemma trace_right i : inr i ∈ merge_trace <-> exists k, sn_Keys old_data !!z i = Some k /\ k ∉ map r_Key dyn.
Proof.
  destruct old_ok as [[Hs _ _ _] _]. unfold merge_trace. rewrite old_keys. pose proof (traverse_right (map r_Key dyn) 0 (sn_Keys old_data) 0 Hsorted Hs i) as E.
  rewrite Z.sub_0_r in E. exact E.
Qed.

Lemma saved_key call k s : call_key (map r_Key dyn) (sn_Keys old_data) 0 0 call = Some k -> saved_of call = Some s -> se_Key s = k.
Proof.
  destruct call as [i|i]; cbn; rewrite Z.sub_0_r; intros Hk Hs.
  - rewrite zlookup_map in Hk. destruct (dyn !!z i); [|done]. cbn in Hk, Hs. by simplify_eq.
  - rewrite Hk in Hs. repeat case_match; by simplify_eq.
Qed.

Lemma saved_sorted_keys : ssorted (map se_Key saved_list).
Proof.
  destruct old_ok as [[Hs _ _ _] _]. destruct (traverse_keys (map r_Key dyn) 0 (sn_Keys old_data) 0 Hsorted Hs) as (ks & HF & Hks & _).
  unfold saved_list, merge_trace. rewrite old_keys. unfold TraverseSortedArrays. induction HF as [|call k tr ks Hc HF IH]; [constructor|].
  apply StronglySorted_inv in Hks as [Hks Hf]. cbn. destruct (saved_of call) as [s|] eqn:E; [|by apply IH]. cbn. constructor; [by apply IH|].
  rewrite (saved_key call k s Hc E). clear IH E Hc s call. induction HF as [|call k' tr ks Hc HF IH]; [constructor|].
  apply StronglySorted_inv in Hks as [Hks _]. apply Forall_cons in Hf as [Hkk Hf]. cbn. destruct (saved_of call) as [s|] eqn:E; [|by apply IH].
  cbn. constructor; [|by apply IH]. by rewrite (saved_key call k' s Hc E).
Qed.

(** Every call saves the record the reference asks for. *)
Lemma save_calls_ok tr : forall l locs sb w, (forall call, call ∈ tr -> call ∈ merge_trace) -> writer_holds ci l locs sb w ->
  volume (l ++ omap saved_of tr) <= 2 ^ 30 -> Forall record_ok (omap saved_of tr) ->
  exists w' locs' sb', foldM (save_scan_call ci now dyn old_data (ca_FrozenAccess c)) w tr = OK w' /\ writer_holds ci (l ++ omap saved_of tr) locs' sb' w'.
Proof.
  destruct old_ok as [[_ Hk Hd Ht] Ha].
  induction tr as [|call tr IH]; intros l locs sb w Hin Hw Hv HF; cbn [foldM omap list_omap]; [exists w, locs, sb; by rewrite app_nil_r|].
  assert (Hstep : exists w' locs' sb', save_scan_call ci now dyn old_data (ca_FrozenAccess c) w call = OK w' /\
    writer_holds ci (l ++ option_list (saved_of call)) locs' sb' w').
  { assert (Hrec : forall r, saved_of call = Some r -> exists w' locs' sb', SaveRecord ci w (se_Key r) (se_Includes r) (se_Timestamp r) (se_Access r) = OK w' /\
      writer_holds ci (l ++ [r]) locs' sb' w').
    { intros r E. cbn [omap list_omap] in Hv, HF. rewrite E in Hv, HF. apply Forall_cons in HF as [(_ & _ & _ & Hr) _]. apply (SaveRecord_ok ci l locs sb); try done.
      rewrite volume_app in Hv |- *. cbn [volume foldr] in Hv |- *. fold (volume (omap saved_of tr)) in Hv. pose proof (volume_incs (omap saved_of tr)).
      pose proof (names_size_ge (incs (omap saved_of tr))). lia. }
    specialize (Hin call ltac:(set_solver)). destruct call as [i|i]; cbn [save_scan_call saved_of] in *.
    - apply trace_left in Hin. unfold save_dynamic. destruct (zlookup_is_Some dyn i Hin) as [r Hr]. rewrite Hr in Hrec |- *. cbn [of_opt mbind res_bind fmap option_fmap option_map option_list] in *.
      by apply (Hrec _ eq_refl).
    - apply trace_right in Hin as (k & Hki & _). pose proof (zlookup_lt _ _ _ Hki). unfold save_frozen.
      destruct (zlookup_is_Some (sn_AccessTimes old_data) i) as [t Hti]; [lia|]. destruct (Ha i) as [a Hai]; [lia|]. destruct (zlookup_is_Some (sn_Data old_data) i) as [e Hei]; [lia|].
      rewrite Hti, Hai, Hki, Hei in Hrec |- *. cbn [of_opt mbind res_bind] in *. set (ts := match a with true => now | false => t end) in *.
      destruct (timestamp_cutoff now <? ts); [by apply (Hrec _ eq_refl)|]. exists w, locs, sb. cbn [option_list]. by rewrite app_nil_r. }
  destruct Hstep as (w1 & locs1 & sb1 & -> & Hw1). cbn [mbind res_bind].
  assert (El : forall k, (l ++ option_list (saved_of call)) ++ k = l ++ option_list (saved_of call) ++ k) by (intros; by rewrite <- app_assoc).
  cbn [omap list_omap] in Hv, HF. destruct (IH _ _ _ _ ltac:(intros; apply Hin; set_solver) Hw1) as (w2 & locs2 & sb2 & E2 & Hw2).
  - rewrite El. destruct (saved_of call); exact Hv.
  - destruct (saved_of call); [by apply Forall_cons in HF as [_ HF]|done].
  - exists w2, locs2, sb2. split; [exact E2|]. rewrite El in Hw2. by destruct (saved_of call).
Qed.

(** What is to survive: the session's records, and the frozen ones without a
    newer record that were used during the last week. *)
Definition survives (key : HashDigest) (f : Z * list FrozenFileAndHash) : Prop :=
  session c !! key = Some f \/
  (session c !! key = None /\ exists i e t a, sn_Keys old_data !!z i = Some key /\ sn_Data old_data !!z i = Some e /\ sn_AccessTimes old_data !!z i = Some t /\
     ca_FrozenAccess c !!z i = Some a /\ timestamp_cutoff now < (match a with true => now | false => t end) /\ f = (ce_FileTimestamp e, ce_IncludedFiles e)).

Lemma dyn_session key : key ∉ map r_Key dyn <-> session c !! key = None.
Proof.
  assert (E : map r_Key dyn ≡ₚ map r_Key (records c)) by (by rewrite Hperm). rewrite E. unfold session. rewrite <- (session_keys c). symmetry.
  split; [apply not_elem_of_list_to_map_2|apply not_elem_of_list_to_map_1].
Qed.

Lemma saved_iff key f : (exists s, s ∈ saved_list /\ se_Key s = key /\ (se_Timestamp s, se_Includes s) = f) <-> survives key f.
Proof.
  pose proof (co_keys c (sk_cache c Hok)) as Hnd. unfold saved_list, survives. split.
  - intros (s & (call & Hc & Hs)%list_elem_of_omap & <- & <-). destruct call as [i|i]; cbn in Hs.
    + left. destruct (dyn !!z i) as [r|] eqn:Er; [|done]. cbn in Hs. injection Hs as <-. apply session_lookup; [done|]. exists r.
      split; [rewrite <- Hperm; by eapply zlookup_elem|done].
    + right. apply trace_right in Hc as (k & Hk & Hni). rewrite Hk in Hs.
      destruct (sn_AccessTimes old_data !!z i) as [t|] eqn:Et; [|done]. destruct (ca_FrozenAccess c !!z i) as [a|] eqn:Ea; [|done].
      destruct (sn_Data old_data !!z i) as [e|] eqn:Ee; [|done]. destruct (Z.ltb_spec (timestamp_cutoff now) (match a with true => now | false => t end)) as [Hlt|]; [|done].
      injection Hs as <-. cbn. split; [by apply dyn_session|]. exists i, e, t, a. split_and!; done.
  - intros [Hs|(Hn & i & e & t & a & Hk & He & Ht & Ha & Hcut & ->)].
    + apply session_lookup in Hs as (r & Hr & <- & <-); [|done]. rewrite <- Hperm in Hr. apply list_elem_of_lookup in Hr as [j Hj]. rewrite <- zlookup_nat in Hj.
      exists (mkSaved (r_Key r) (r_FileTimestamp r) (r_Includes r) now). split; [|done]. apply list_elem_of_omap. exists (inl (Z.of_nat j)).
      split; [apply trace_left; apply zlookup_lt in Hj; lia|]. cbn. by rewrite Hj.
    + exists (mkSaved key (ce_FileTimestamp e) (ce_IncludedFiles e) (match a with true => now | false => t end)). split; [|done]. apply list_elem_of_omap. exists (inr i).
      split; [apply trace_right; exists key; split; [done|by apply dyn_session]|]. cbn. rewrite Ht, Ha, Hk, He. by rewrite (proj2 (Z.ltb_lt _ _) Hcut).
Qed.

End Merge.

(** ** The property *)

Lemma ssorted_checked l : ssorted l -> keys_sorted l = true.
Proof.
  induction 1 as [|a l Hs IH Hf]; [done|]. destruct l as [|b l]; [done|]. cbn [keys_sorted]. apply andb_true_iff. split; [|done].
  apply Forall_cons in Hf as [Hab _]. destruct (digest_lt b a) eqn:E; [|done]. pose proof (digest_lt_trans _ _ _ Hab E) as Hx. by rewrite digest_lt_irrefl in Hx.
Qed.

Section SaveThm.
Context (ci : bool) `{StdSort}.

Lemma sorted_records l : NoDup (map r_Key l) -> std_sort SortRecordsByHash l ≡ₚ l /\ ssorted (map r_Key (std_sort SortRecordsByHash l)).
Proof. apply (sorted_by_key r_Key). Qed.

(** The records of the new file. *)
Definition to_save (now : Z) (c : ScanCache) : list saved := saved_list now c (std_sort SortRecordsByHash (records c)).

(** They are in range for the fields of the file, and the file is small enough
    for 32-bit offsets. *)
Definition savable (now : Z) (c : ScanCache) : Prop := Forall record_ok (to_save now c) /\ volume (to_save now c) <= 2 ^ 30 - 128.

Definition same_fact (f g : Z * list FrozenFileAndHash) : Prop := g.1 = f.1 /\ Forall2 (same_file ci) f.2 g.2.

Lemma loaded_facts l es n ts : ssorted (map se_Key l) -> Forall2 (entry_of ci) l es ->
  (forall key f, (exists s, s ∈ l /\ se_Key s = key /\ (se_Timestamp s, se_Includes s) = f) -> exists g, frozen_facts (mkScanData n (map se_Key l) es ts) !! key = Some g /\ same_fact f g) /\
  (forall key g, frozen_facts (mkScanData n (map se_Key l) es ts) !! key = Some g -> exists f, (exists s, s ∈ l /\ se_Key s = key /\ (se_Timestamp s, se_Includes s) = f) /\ same_fact f g).
Proof.
  intros Hs HF. unfold frozen_facts. cbn [sn_Keys sn_Data]. set (rows := zip (map se_Key l) (map (fun e => (ce_FileTimestamp e, ce_IncludedFiles e)) es)).
  assert (Hk : rows.*1 = map se_Key l). { apply fst_zip. rewrite !length_map. by rewrite (Forall2_length _ _ _ HF). }
  assert (Hmem : forall key g, list_to_map (M := gmap _ _) rows !! key = Some g <-> (key, g) ∈ rows).
  { intros key g. symmetry. apply elem_of_list_to_map. rewrite Hk. by apply ssorted_nodup. }
  assert (Hrow : forall key g, (key, g) ∈ rows <-> exists i s e, l !! i = Some s /\ es !! i = Some e /\ key = se_Key s /\ g = (ce_FileTimestamp e, ce_IncludedFiles e)).
  { intros key g. rewrite list_elem_of_lookup. unfold rows. change (map se_Key l) with (se_Key <$> l).
    change (map (fun e => (ce_FileTimestamp e, ce_IncludedFiles e)) es) with ((fun e => (ce_FileTimestamp e, ce_IncludedFiles e)) <$> es). split.
    - intros [i Hi]. apply lookup_zip_with_Some in Hi as (k & v & [= -> ->] & Hk' & Hv).
      rewrite list_lookup_fmap in Hk'. rewrite list_lookup_fmap in Hv.
      destruct (l !! i) as [s|] eqn:Es; [|done]. destruct (es !! i) as [e|] eqn:Ee; [|done]. cbn in *. simplify_eq. exists i, s, e. auto.
    - intros (i & s & e & Hl & He & -> & ->). exists i. apply lookup_zip_with_Some. eexists _, _. split; [done|]. rewrite !list_lookup_fmap, Hl, He. done. }
  split.
  - intros key f (s & Hin & <- & <-). apply list_elem_of_lookup in Hin as [i Hi]. destruct (Forall2_lookup_l _ _ _ _ _ HF Hi) as (e & He & Hts & Hinc).
    exists (ce_FileTimestamp e, ce_IncludedFiles e). split; [|by split]. apply Hmem, Hrow. eauto 10.
  - intros key g Hg. apply Hmem, Hrow in Hg as (i & s & e & Hl & He & -> & ->). destruct (Forall2_lookup_lr _ _ _ _ _ _ HF Hl He) as [Hts Hinc].
    exists (se_Timestamp s, se_Includes s). split; [|by split]. exists s. split; [by eapply list_elem_of_lookup_2|done].
Qed.

(** The file a cache is saved to. *)
Lemma save_scan_ok now c : scan_ok c -> savable now c ->
  exists locs sb, ScanCacheSave ci now c = OK (file_of (scan_segs (to_save now c) locs sb)) /\
  Forall2 (fun f loc => spelt ci sb (canon ci (m_Filename f)) loc) (incs (to_save now c)) locs /\ zlen sb <= names_size (incs (to_save now c)).
Proof.
  intros Hok [HF Hv]. destruct (sorted_records (records c) (co_keys c (sk_cache c Hok))) as [Hp Hs]. unfold ScanCacheSave. fold (records c).
  unfold check. rewrite (co_count c (sk_cache c Hok)), Z.eqb_refl. cbn [mbind res_bind]. fold (old_data c).
  destruct (save_calls_ok ci now c Hok (std_sort SortRecordsByHash (records c)) Hp Hs (merge_trace c (std_sort SortRecordsByHash (records c))) [] [] [] ScanCacheWriterInit
    ltac:(done) (init_holds ci)) as (w & locs & sb & E & W); [unfold to_save, saved_list in *; cbn [app]; lia|done|].
  unfold merge_trace in E. rewrite E. cbn [mbind res_bind app] in *. fold (saved_list now c (std_sort SortRecordsByHash (records c))) in W. fold (to_save now c) in W.
  exists locs, sb. destruct W as [W0 W1 W2 W3 W4 W5 W6 W7 W8 W9 W10]. split; [|done]. unfold ScanCacheWriterFlush.
  apply flush_ok; [|by apply (scan_targets_ok ci)]. rewrite W6.
  assert (Hm : seg_is (BinarySegmentWritePointer m_TimestampPtr (BinarySegmentWritePointer m_EntryPtr (BinarySegmentWritePointer m_DigestPtr
    (BinarySegmentWriteUint32 (u32 (zlen (to_save now c))) (BinarySegmentWriteUint32 ScanMagicNumber (w_MainSeg w)))))) 0 (main_items (zlen (to_save now c)))).
  { unfold main_items. replace (ibytes (le_bytes 4 (u32 ScanMagicNumber) ++ le_bytes 4 (u32 (u32 (zlen (to_save now c))))) ++ [IPtr (mkLoc 1 0); IPtr (mkLoc 2 0); IPtr (mkLoc 3 0)])
      with ((((([] ++ ibytes (le_bytes 4 (u32 ScanMagicNumber))) ++ ibytes (le_bytes 4 (u32 (u32 (zlen (to_save now c)))))) ++ [IPtr m_DigestPtr]) ++ [IPtr m_EntryPtr]) ++ [IPtr m_TimestampPtr]).
    - by do 3 apply seg_write_pointer; do 2 apply seg_write.
    - unfold ibytes. rewrite map_app, <- !app_assoc. reflexivity. }
  unfold scan_segs. repeat constructor; try apply Hm; try apply W1; try apply W2; try apply W3; try apply W4; try apply W5.
Qed.

End SaveThm.

(** C20. The scan cache survives on disk. For a well-formed cache whose records fit
    the file format, saving succeeds, the next run accepts the file, its keys
    are strictly sorted as binary search needs, and it holds exactly the
    records found in this session and, where there is no newer record, the old
    ones that were used during the week before; each with its time stamp and its
    includes in order, a path up to the case of its letters where the file
    system ignores it. *)
Theorem scan_cache_save_roundtrip (ci : bool) `{StdSort} now c : scan_ok c -> savable now c ->
  exists bytes d c', ScanCacheSave ci now c = OK bytes /\ load_scan_data (Some bytes) = Some d /\ ScanCacheSetCache ScanCacheInit (Some d) = OK c' /\ scan_ok c' /\
  (forall key f, survives now c key f -> exists g, frozen c' !! key = Some g /\ same_fact ci f g) /\
  (forall key g, frozen c' !! key = Some g -> exists f, survives now c key f /\ same_fact ci f g).
Proof.
  intros Hok Hsv. pose proof Hsv as [HF Hv]. destruct (save_scan_ok ci now c Hok Hsv) as (locs & sb & E & HS & Hsb). set (l := to_save now c) in *.
  destruct (load_scan_ok ci l locs sb HS Hsb Hv HF) as (es & El & He). destruct (sorted_records (records c) (co_keys c (sk_cache c Hok))) as [Hp Hs].
  assert (Hk : ssorted (map se_Key l)) by (by apply saved_sorted_keys). set (d := mkScanData (zlen l) (map se_Key l) es (map se_Access l)) in *.
  assert (Hd : frozen_ok d). { split; cbn; [done|by rewrite length_map|by rewrite (Forall2_length _ _ _ He)|by rewrite length_map]. }
  exists (file_of (scan_segs l locs sb)), d. eexists. split; [done|]. split; [done|]. unfold ScanCacheSetCache. rewrite ssorted_checked.
  2:{ cbn [d sn_EntryCount sn_Keys]. rewrite take_ge; [done|]. rewrite length_map. lia. }
  split; [done|]. split.
  { split; [split; [by left|constructor|done|done]|]. cbn. intros d' [= <-]. split; [done|]. rewrite length_replicate. cbn. lia. }
  destruct (loaded_facts ci l es (zlen l) (map se_Access l) Hk He) as [F1 F2]. unfold frozen. cbn [ca_FrozenData]. split.
  - intros key f Hf. apply F1. by apply (saved_iff now c Hok _ Hp Hs).
  - intros key g Hg. destruct (F2 key g Hg) as (f & Hf & Hsame). exists f. split; [|done]. by apply (saved_iff now c Hok _ Hp Hs).
Qed.

(** A session with one record, over a frozen record that was last used long ago
    and one that was used a day ago. *)
Module DemoScanSave.

Definition header : FrozenFileAndHash := mkFile (s2l "inc/a.h") (Djb2HashPath false (s2l "inc/a.h")).
Definition old : ScanData :=
  mkScanData 2 [mkDigest 1 1; mkDigest 3 3] [mkScanEntry 10 [header]; mkScanEntry 20 [header; header]] [1000; 9900000].
Definition cache : ScanCache :=
  match (c ← ScanCacheSetCache ScanCacheInit (Some old); ScanCacheInsert false c (mkDigest 2 2) 30 [s2l "inc/a.h"]) with OK c => c | Err _ => ScanCacheInit end.

Lemma demo_cache_ok : scan_ok cache.
Proof.
  set (c0 := mkScanCache (Some old) 0 0 [] [false; false]).
  assert (H0 : scan_ok c0).
  { split; [split; [by left|constructor|done|done]|]. intros d [= <-]. split; [|done]. split; [repeat constructor|done..]. }
  destruct (scan_insert_ok false c0 (mkDigest 2 2) 30 [s2l "inc/a.h"] (sk_cache c0 H0)) as (c & E & Hok & _ & Ed & Ea & _); [cbn; lia|].
  unfold cache. change (ScanCacheSetCache ScanCacheInit (Some old)) with (OK c0). cbn [mbind res_bind]. rewrite E. split; [done|]. rewrite Ed, Ea. apply H0.
Qed.

End DemoScanSave.

Lemma scan_cache_save_roundtrip_witness :
  map se_Key (to_save 10000000 DemoScanSave.cache) = [mkDigest 2 2; mkDigest 3 3] /\
  exists bytes d c', ScanCacheSave false 10000000 DemoScanSave.cache = OK bytes /\ load_scan_data (Some bytes) = Some d /\ ScanCacheSetCache ScanCacheInit (Some d) = OK c' /\
  exists g, frozen c' !! mkDigest 2 2 = Some g /\ same_fact false (30, [DemoScanSave.header]) g.
Proof.
  split; [vm_compute; reflexivity|].
  destruct (scan_cache_save_roundtrip false 10000000 DemoScanSave.cache DemoScanSave.demo_cache_ok) as (bytes & d & c' & E1 & E2 & E3 & _ & F & _).
  - split; [|vm_compute; discriminate].
    match goal with |- Forall _ ?s => let v := eval vm_compute in s in replace s with v by (vm_compute; reflexivity) end.
    repeat constructor; try discriminate; try lia.
  - exists bytes, d, c'. split; [exact E1|]. split; [exact E2|]. split; [exact E3|]. apply F. left. vm_compute. reflexivity.
Defined.
