(* ===== verification/StateFile.v ===== *)
(** * The state file round trip

    What [DriverSaveBuildState] writes (src/src/Driver.cpp) is read back by
    [LoadFrozenData<StateData>] as the same records, and which records those
    are: the merge of this build with the previous one. *)

From stdpp Require Import sorting.
From S2P Require Import Prelude CommonFns Hash HashImpl DagData BuildQueue BuildQueueRun BuildQueueThms.
From S2P Require Import SortedArray BinaryWriter FrozenFile Driver DriverThms DriverSave.

(** ** The items of a list of records *)

Abbreviation entry := (HashDigest * NodeStateData)%type.

Definition entry_files (e : entry) : list cstr := nsd_OutputFiles e.2 ++ nsd_AuxOutputFiles e.2.
Definition all_files (es : list entry) : list cstr := concat (map entry_files es).

Fixpoint ptrs_from (off : Z) (files : list cstr) : list item :=
  match files with
  | [] => []
  | f :: files' => IPtr (mkLoc 4 off) :: ptrs_from (off + zlen (string_bytes f)) files'
  end.

Definition strings (files : list cstr) : list Z := concat (map string_bytes files).

Definition file_array (aoff : Z) (files : list cstr) : list item := ibytes (le_bytes 4 (u32 (zlen files))) ++ [IPtr (mkLoc 3 aoff)].

Definition state_item (aoff : Z) (e : entry) : list item :=
  ibytes (le_bytes 4 (u32 (nsd_BuildResult e.2)) ++ digest_bytes (nsd_InputSignature e.2)) ++
  file_array aoff (nsd_OutputFiles e.2) ++ file_array (aoff + 4 * zlen (nsd_OutputFiles e.2)) (nsd_AuxOutputFiles e.2).

Fixpoint state_items (aoff : Z) (es : list entry) : list item :=
  match es with
  | [] => []
  | e :: es' => state_item aoff e ++ state_items (aoff + 4 * zlen (entry_files e)) es'
  end.

Definition main_items (n : Z) : list item :=
  ibytes (le_bytes 4 (u32 StateMagicNumber) ++ le_bytes 4 (u32 n)) ++ [IPtr (mkLoc 1 0); IPtr (mkLoc 2 0)].

Definition guid_items (es : list entry) : list item := ibytes (concat (map (fun e => digest_bytes e.1) es)).

Definition state_segs (es : list entry) : list (list item) :=
  [main_items (zlen es); guid_items es; state_items 0 es; ptrs_from 0 (all_files es); ibytes (strings (all_files es))].

(** ** The writer builds them *)

Lemma ptrs_from_app off a b : ptrs_from off (a ++ b) = ptrs_from off a ++ ptrs_from (off + zlen (strings a)) b.
Proof.
  revert off. induction a as [|f a IH]; intros off; cbn [app ptrs_from]; [by rewrite Z.add_0_r|].
  rewrite IH. do 2 f_equal. f_equal. unfold strings. cbn [map concat]. rewrite length_app. lia.
Qed.

Lemma ptrs_size off files : items_size (ptrs_from off files) = 4 * zlen files.
Proof.
  revert off. induction files as [|f files IH]; intros off; [done|]. cbn [ptrs_from]. change (items_size (IPtr ?t :: ?l)) with (4 + items_size l).
  rewrite IH, length_cons. lia.
Qed.

Lemma strings_app a b : strings (a ++ b) = strings a ++ strings b.
Proof. unfold strings. by rewrite map_app, concat_app. Qed.

Lemma all_files_snoc es e : all_files (es ++ [e]) = all_files es ++ entry_files e.
Proof. unfold all_files. rewrite map_app, concat_app. cbn. by rewrite app_nil_r. Qed.

Lemma state_items_snoc es e : forall aoff, state_items aoff (es ++ [e]) = state_items aoff es ++ state_item (aoff + 4 * zlen (all_files es)) e.
Proof.
  induction es as [|x es IH]; intros aoff; cbn [app state_items]; [by rewrite Z.add_0_r, app_nil_r|].
  rewrite IH, <- app_assoc. do 2 f_equal. f_equal. unfold all_files. cbn [map concat]. rewrite length_app. lia.
Qed.

(** The segments hold the items of the records. *)
Record sw_is (sw : StateWriter) (es : list entry) : Prop := {
  sw_is_main : seg_is (sw_main sw) 0 [];
  sw_is_guid : seg_is (sw_guid sw) 1 (guid_items es);
  sw_is_state : seg_is (sw_state sw) 2 (state_items 0 es);
  sw_is_array : seg_is (sw_array sw) 3 (ptrs_from 0 (all_files es));
  sw_is_string : seg_is (sw_string sw) 4 (ibytes (strings (all_files es)));
  sw_is_count : sw_entry_count sw = zlen es
}.

Lemma write_files_is files : forall done aseg sseg, seg_is aseg 3 (ptrs_from 0 done) -> seg_is sseg 4 (ibytes (strings done)) ->
  seg_is (write_files files aseg sseg).1 3 (ptrs_from 0 (done ++ files)) /\
  seg_is (write_files files aseg sseg).2 4 (ibytes (strings (done ++ files))).
Proof.
  induction files as [|f files IH]; intros done aseg sseg Ha Hs; cbn [write_files]; [by rewrite app_nil_r|].
  rewrite cons_middle, app_assoc. apply IH.
  - rewrite (seg_position _ _ _ Hs), ibytes_size, ptrs_from_app. by apply seg_write_pointer.
  - rewrite strings_app. unfold ibytes. rewrite map_app. unfold strings at 2. cbn [map concat]. rewrite app_nil_r. by apply seg_write.
Qed.

Lemma write_file_array_is files sw items done : seg_is (sw_state sw) 2 items -> seg_is (sw_array sw) 3 (ptrs_from 0 done) ->
  seg_is (sw_string sw) 4 (ibytes (strings done)) ->
  let sw' := write_file_array files sw in
  seg_is (sw_state sw') 2 (items ++ file_array (4 * zlen done) files) /\ seg_is (sw_array sw') 3 (ptrs_from 0 (done ++ files)) /\
  seg_is (sw_string sw') 4 (ibytes (strings (done ++ files))) /\
  sw_main sw' = sw_main sw /\ sw_guid sw' = sw_guid sw /\ sw_entry_count sw' = sw_entry_count sw.
Proof.
  intros Hs Ha Hstr sw'. unfold sw', write_file_array. destruct (write_files_is files done _ _ Ha Hstr) as [H1 H2].
  destruct (write_files files (sw_array sw) (sw_string sw)) as [aseg sseg].
  cbn [fst snd sw_main sw_guid sw_state sw_array sw_string sw_entry_count] in *. split_and!; try done.
  rewrite (seg_position _ _ _ Ha), ptrs_size. unfold file_array. rewrite app_assoc. apply seg_write_pointer. by apply seg_write.
Qed.

Lemma save_entry_is r sig o a guid sw es : sw_is sw es ->
  sw_is (count_entry (save_entry r sig o a guid sw)) (es ++ [(guid, mkNodeStateData r sig o a)]).
Proof.
  intros [Hm Hg Hs Ha Hstr Hc]. unfold save_entry. set (sw1 := mkSW _ _ _ _ _ _).
  destruct (write_file_array_is o sw1 (state_items 0 es ++ ibytes (le_bytes 4 (u32 r) ++ digest_bytes sig)) (all_files es)) as (S1 & A1 & T1 & M1 & G1 & C1); [|done..|].
  { unfold ibytes. rewrite map_app, app_assoc. apply seg_write. by apply seg_write. }
  destruct (write_file_array_is a (write_file_array o sw1) _ _ S1 A1 T1) as (S2 & A2 & T2 & M2 & G2 & C2).
  set (e := (guid, mkNodeStateData r sig o a)). assert (Ef : all_files (es ++ [e]) = (all_files es ++ o) ++ a) by (rewrite all_files_snoc, <- app_assoc; done).
  unfold count_entry. split; cbn [sw_main sw_guid sw_state sw_array sw_string sw_entry_count].
  - by rewrite M2, M1.
  - rewrite G2, G1. unfold guid_items. rewrite map_app, concat_app. cbn [map concat]. rewrite app_nil_r. unfold ibytes. rewrite map_app. by apply seg_write.
  - rewrite state_items_snoc. unfold state_item. cbn [snd nsd_BuildResult nsd_InputSignature nsd_OutputFiles nsd_AuxOutputFiles e].
    rewrite Z.add_0_l. rewrite <- !app_assoc in S2. rewrite length_app in S2.
    replace (4 * zlen (all_files es) + 4 * zlen o) with (4 * Z.of_nat (length (all_files es) + length o)) by lia. done.
  - by rewrite Ef.
  - by rewrite Ef.
  - rewrite C2, C1. cbn. rewrite Hc, length_app. cbn. lia.
Qed.

Lemma new_state_writer_is : sw_is new_state_writer [].
Proof. split; done. Qed.

Lemma finish_main_is sw es : sw_is sw es -> writer_is (segments (finish_main sw)) (state_segs es).
Proof.
  intros [Hm Hg Hs Ha Hstr Hc]. split; [done|]. intros i s l Hi Hl. unfold segments, state_segs, finish_main in *. rewrite Hc in Hi.
  destruct i as [|i]; cbn [lookup list_lookup] in Hi, Hl.
  - injection Hi as <-. injection Hl as <-. unfold main_items, ibytes. rewrite map_app.
    change [IPtr (mkLoc 1 0); IPtr (mkLoc 2 0)] with ([IPtr (mkLoc 1 0)] ++ [IPtr (mkLoc 2 0)]). rewrite app_assoc.
    do 2 apply seg_write_pointer. apply (seg_write _ _ _ (ibytes _)). by apply (seg_write _ _ _ []).
  - do 4 (destruct i as [|i]; [cbn [lookup list_lookup] in Hi, Hl; injection Hi as <-; by injection Hl as <-|]). done.
Qed.

(** ** The reader follows them *)

Definition entry_ok (e : entry) : Prop :=
  Fast.digest_ok e.1 /\ in_i32 (nsd_BuildResult e.2) /\ Fast.digest_ok (nsd_InputSignature e.2) /\ Forall cstr_ok (entry_files e).

Lemma state_item_size aoff e : items_size (state_item aoff e) = 36.
Proof. unfold state_item. rewrite !items_size_app, ibytes_size, length_app, length_le_bytes, length_digest_bytes. done. Qed.

Lemma state_items_size es : forall aoff, items_size (state_items aoff es) = 36 * zlen es.
Proof. induction es as [|e es IH]; intros aoff; [done|]. cbn [state_items]. rewrite items_size_app, state_item_size, IH, length_cons. lia. Qed.

Section Reader.
Context (file : list Z) (addr : BinaryLocator -> Z) (B3 B4 : Z).
Hypothesis Hsize : zlen file <= 2 ^ 30.
Hypothesis Haddr3 : forall o, addr (mkLoc 3 o) = B3 + o.
Hypothesis Haddr4 : forall o, addr (mkLoc 4 o) = B4 + o.

Abbreviation has_items := (FrozenFile.has_items file addr).

(** The pointers of an array and the strings they lead to. *)
Lemma read_ptrs files : forall pos soff, Forall cstr_ok files -> pos + 4 * zlen files <= B4 -> 0 <= soff ->
  has_items pos (ptrs_from soff files) -> has file (B4 + soff) (strings files) ->
  read_array (fun a => match deref file a with Some t => read_string file t | None => None end) 4 (length files) pos = Some files.
Proof.
  induction files as [|f files IH]; intros pos soff HF Hp Hs Hi Hf; cbn [length read_array]; [done|].
  apply Forall_cons in HF as [Hok HF]. rewrite length_cons in Hp. cbn [ptrs_from] in Hi. change (?x :: ?l) with ([x] ++ l) in Hi at 1.
  apply has_items_app in Hi as [Hp1 Hi]. change (items_size [IPtr _]) with 4 in Hi. unfold strings in Hf. cbn [map concat] in Hf.
  apply has_app in Hf as [Hf1 Hf]. pose proof (has_range _ _ _ Hf1) as Hr.
  rewrite (deref_forward file addr pos _ Hp1) by (rewrite Haddr4; lia). rewrite Haddr4, (read_string_has _ _ _ Hok Hf1).
  rewrite (IH (pos + 4) (soff + zlen (string_bytes f))); [done|done|lia|lia|done|]. by rewrite Z.add_assoc.
Qed.

Lemma read_strings_ok files pos aoff soff : Forall cstr_ok files -> pos + 8 <= B3 -> 0 <= aoff -> B3 + aoff + 4 * zlen files <= B4 -> 0 <= soff ->
  has_items pos (file_array aoff files) -> has_items (B3 + aoff) (ptrs_from soff files) -> has file (B4 + soff) (strings files) ->
  read_strings file pos = Some files.
Proof.
  intros HF Hp Ha Hb Hs Hi Hpt Hst. unfold file_array in Hi. apply has_items_app in Hi as [Hn Hi]. apply has_items_bytes in Hn.
  rewrite ibytes_size, length_le_bytes in Hi. change (Z.of_nat 4) with 4 in Hi. unfold read_strings.
  assert (Hlen : zlen files <= 2 ^ 30).
  { pose proof (has_range _ _ _ Hst). pose proof (has_range _ _ _ Hn). lia. }
  rewrite (read_i32_has _ _ (zlen files)) by (done || unfold in_i32; lia).
  destruct files as [|f files]; [done|]. rewrite (proj2 (Z.eqb_neq _ _)) by (rewrite length_cons; lia).
  pose proof (has_range _ _ _ Hpt) as Hr. rewrite (deref_forward _ _ _ _ Hi) by (rewrite Haddr3; lia). rewrite Haddr3, Nat2Z.id.
  by apply (read_ptrs _ _ soff).
Qed.

Lemma read_node_state_ok e pos aoff soff : entry_ok e -> pos + 36 <= B3 -> 0 <= aoff -> B3 + aoff + 4 * zlen (entry_files e) <= B4 -> 0 <= soff ->
  has_items pos (state_item aoff e) -> has_items (B3 + aoff) (ptrs_from soff (entry_files e)) -> has file (B4 + soff) (strings (entry_files e)) ->
  read_node_state file pos = Some e.2.
Proof.
  destruct e as [g [r sig o a]]. intros (_ & Hr & Hsig & HF) Hp Ha Hb Hs Hi Hpt Hst. unfold entry_files in *. cbn [snd nsd_BuildResult nsd_InputSignature nsd_OutputFiles nsd_AuxOutputFiles] in *.
  unfold state_item in Hi. cbn [snd nsd_BuildResult nsd_InputSignature nsd_OutputFiles nsd_AuxOutputFiles] in Hi.
  apply has_items_app in Hi as [Hh Hi]. rewrite ibytes_size, length_app, length_le_bytes, length_digest_bytes in Hi. change (Z.of_nat (4 + 16)) with 20 in Hi.
  apply has_items_app in Hi as [Hi1 Hi2]. change (items_size (file_array aoff o)) with 8 in Hi2.
  apply has_items_bytes, has_app in Hh as [Hh1 Hh2]. rewrite length_le_bytes in Hh2. change (Z.of_nat 4) with 4 in Hh2.
  rewrite ptrs_from_app in Hpt. apply has_items_app in Hpt as [Hp1 Hp2]. rewrite ptrs_size in Hp2. rewrite strings_app in Hst. apply has_app in Hst as [Hs1 Hs2].
  apply Forall_app in HF as [HF1 HF2]. rewrite length_app in Hb. unfold read_node_state.
  rewrite (read_i32_has _ _ _ Hr Hh1), (read_digest_has _ _ _ Hsig Hh2).
  rewrite (read_strings_ok o (pos + 20) aoff soff) by (done || lia).
  rewrite (read_strings_ok a (pos + 28) (aoff + 4 * zlen o) (soff + zlen (strings o))); [done|done|lia..| | |].
  - by replace (pos + 28) with (pos + 20 + 8) by lia.
  - by rewrite Z.add_assoc.
  - by rewrite Z.add_assoc.
Qed.

Lemma read_states es : forall pos aoff soff, Forall entry_ok es -> pos + 36 * zlen es <= B3 -> 0 <= aoff ->
  B3 + aoff + 4 * zlen (all_files es) <= B4 -> 0 <= soff ->
  has_items pos (state_items aoff es) -> has_items (B3 + aoff) (ptrs_from soff (all_files es)) -> has file (B4 + soff) (strings (all_files es)) ->
  read_array (read_node_state file) 36 (length es) pos = Some (map snd es).
Proof.
  induction es as [|e es IH]; intros pos aoff soff HF Hp Ha Hb Hs Hi Hpt Hst; cbn [length read_array map]; [done|].
  apply Forall_cons in HF as [He HF]. rewrite length_cons in Hp. cbn [state_items] in Hi. apply has_items_app in Hi as [Hi1 Hi2]. rewrite state_item_size in Hi2.
  change (all_files (e :: es)) with (entry_files e ++ all_files es) in *. rewrite ptrs_from_app in Hpt. apply has_items_app in Hpt as [Hp1 Hp2].
  rewrite ptrs_size in Hp2. rewrite strings_app in Hst. apply has_app in Hst as [Hs1 Hs2]. rewrite length_app in Hb.
  rewrite (read_node_state_ok e pos aoff soff) by (done || lia).
  rewrite (IH (pos + 36) (aoff + 4 * zlen (entry_files e)) (soff + zlen (strings (entry_files e)))); [done|done|lia..|done| |]; by rewrite Z.add_assoc.
Qed.

Lemma read_guids es : forall pos, Forall entry_ok es -> has_items pos (guid_items es) ->
  read_array (read_digest file) 16 (length es) pos = Some (map fst es).
Proof.
  induction es as [|e es IH]; intros pos HF Hi; cbn [length read_array map]; [done|]. apply Forall_cons in HF as [(Hg & _) HF].
  unfold guid_items in Hi. apply (proj1 (has_items_bytes _ _ _ _)) in Hi. cbn [map concat] in Hi. apply has_app in Hi as [H1 H2]. rewrite length_digest_bytes in H2.
  rewrite (read_digest_has _ _ _ Hg H1), IH; [done|done|]. by apply has_items_bytes.
Qed.
End Reader.

(** ** Loading the file *)

Lemma magic_range : in_u32 StateMagicNumber.
Proof. vm_compute. split; [discriminate|reflexivity]. Qed.

Section Load.
Context (es : list entry) (Hok : Forall entry_ok es) (Hsz : zlen (file_of (state_segs es)) <= 2 ^ 30).

Abbreviation sbase := (seg_base (state_segs es)).

Lemma state_bases : sbase 0 = 0 /\ sbase 1 = 16 /\ sbase 1 + 16 * zlen es <= sbase 2 /\ sbase 2 + 36 * zlen es <= sbase 3 /\
  sbase 3 + 4 * zlen (all_files es) <= sbase 4 /\ sbase 4 + zlen (strings (all_files es)) <= zlen (file_of (state_segs es)).
Proof.
  unfold file_of. rewrite length_render_all. unfold seg_base, state_segs. cbn [bases lookup list_lookup default foldr]. unfold id.
  assert (Hg : items_size (guid_items es) = 16 * zlen es).
  { unfold guid_items. rewrite ibytes_size. clear. induction es as [|e l IH]; [done|]. cbn [map concat]. rewrite length_app, length_digest_bytes, length_cons. lia. }
  pose proof (padded_size (guid_items es)). pose proof (padded_size (state_items 0 es)). pose proof (padded_size (ptrs_from 0 (all_files es))).
  pose proof (padded_size (ibytes (strings (all_files es)))). rewrite (state_items_size es 0), (ptrs_size 0), (ibytes_size (strings _)), Hg in *.
  change (items_size (padded (main_items (zlen es)))) with 16. lia.
Qed.

Lemma ptrs_targets files t : forall off, IPtr t ∈ ptrs_from off files -> bl_SegIndex t = 4 /\ off <= bl_Offset t <= off + zlen (strings files).
Proof.
  induction files as [|f files IH]; intros off; cbn [ptrs_from]; [by intros ?%elem_of_nil|]. unfold strings in *. cbn [map concat]. rewrite length_app.
  intros [[= ->]|H%IH]%elem_of_cons; cbn; lia.
Qed.

Lemma state_targets t : forall l off, IPtr t ∈ state_items off l -> bl_SegIndex t = 3 /\ off <= bl_Offset t <= off + 4 * zlen (all_files l).
Proof.
  induction l as [|e l IH]; intros off; cbn [state_items]; [by intros ?%elem_of_nil|].
  change (all_files (e :: l)) with (entry_files e ++ all_files l). rewrite length_app. unfold entry_files in *. rewrite length_app.
  rewrite elem_of_app. intros [H|H%IH]; [|rewrite ?length_app in H; lia]. unfold state_item, file_array in H. rewrite !elem_of_app, !list_elem_of_singleton in H.
  destruct H as [H|[[H|[= ->]]|[H|[= ->]]]]; try (by apply ibytes_no_ptr in H); cbn; lia.
Qed.

Lemma state_targets_ok : targets_ok (state_segs es).
Proof.
  split; [|done]. pose proof state_bases. intros l t Hl Ht. change (zlen (state_segs es)) with 5. unfold state_segs in Hl.
  rewrite !elem_of_cons, elem_of_nil in Hl. destruct Hl as [->|[->|[->|[->|[->|[]]]]]].
  - unfold main_items in Ht. rewrite elem_of_app, !elem_of_cons, elem_of_nil in Ht. destruct Ht as [Ht|[[= ->]|[[= ->]|[]]]]; [by apply ibytes_no_ptr in Ht|cbn; lia..].
  - by apply ibytes_no_ptr in Ht.
  - apply state_targets in Ht. lia.
  - apply ptrs_targets in Ht. lia.
  - by apply ibytes_no_ptr in Ht.
Qed.

Lemma load_state_ok : load_state (Some (file_of (state_segs es))) = Some (mkStateData (map fst es) (map snd es)).
Proof.
  pose proof state_bases as (E0 & E1 & E2 & E3 & E4 & E5). set (file := file_of (state_segs es)) in *. set (addr := address (state_segs es)).
  pose proof (seg_has (state_segs es) 0 _ eq_refl) as Hm. pose proof (seg_has (state_segs es) 1 _ eq_refl) as Hg. pose proof (seg_has (state_segs es) 2 _ eq_refl) as Hs.
  pose proof (seg_has (state_segs es) 3 _ eq_refl) as Ha. pose proof (seg_has (state_segs es) 4 _ eq_refl) as Ht. fold file addr in Hm, Hg, Hs, Ha, Ht.
  rewrite E0 in Hm. unfold main_items in Hm. apply (proj1 (has_items_app _ _ _ _ _)) in Hm as [Hm Hp].
  apply (proj1 (has_items_bytes _ _ _ _)), has_app in Hm as [Hm1 Hm2]. rewrite ibytes_size, length_app, !length_le_bytes in Hp. rewrite length_le_bytes in Hm2.
  change (0 + Z.of_nat (4 + 4)) with 8 in Hp. change (0 + Z.of_nat 4) with 4 in Hm2. change ([IPtr ?a; IPtr ?b]) with ([IPtr a] ++ [IPtr b]) in Hp.
  apply (proj1 (has_items_app _ _ _ _ _)) in Hp as [Hp1 Hp2]. change (8 + items_size [IPtr (mkLoc 1 0)]) with 12 in Hp2.
  pose proof (has_range _ _ _ Hp2) as Hr. rewrite length_render in Hr. change (items_size [IPtr (mkLoc 2 0)]) with 4 in Hr.
  unfold load_state, LoadFrozenData, sizeof_StateData. rewrite (proj2 (Z.ltb_ge _ _)) by lia.
  rewrite (u32_small StateMagicNumber magic_range) in Hm1. rewrite (read_u32_has _ _ _ magic_range Hm1).
  rewrite bool_decide_true by done. rewrite (read_i32_has _ _ (zlen es)) by (done || unfold in_i32; lia).
  destruct (decide (es = [])) as [E|Hne]; [rewrite E; done|].
  assert (Hpos : 0 < zlen es) by (destruct es; [done|rewrite length_cons; lia]). rewrite (proj2 (Z.eqb_neq _ _)) by lia.
  assert (A1 : addr (mkLoc 1 0) = sbase 1) by (pose proof (seg_address (state_segs es) 1 0 ltac:(cbn; lia)) as A; rewrite Z.add_0_r in A; exact A).
  assert (A2 : addr (mkLoc 2 0) = sbase 2) by (pose proof (seg_address (state_segs es) 2 0 ltac:(cbn; lia)) as A; rewrite Z.add_0_r in A; exact A).
  rewrite (deref_forward file addr 8 _ Hp1), (deref_forward file addr 12 _ Hp2) by lia. rewrite A1, A2, Nat2Z.id.
  rewrite (read_guids file addr es (sbase 1) Hok Hg).
  rewrite (read_states file addr (sbase 3) (sbase 4) Hsz) with (aoff := 0) (soff := 0); try done; try lia.
  - by rewrite Z.add_0_r.
  - rewrite Z.add_0_r. by apply (proj1 (has_items_bytes _ addr _ _)).
Qed.
End Load.

(** ** Which records are saved *)

Definition names (l : list FrozenFileAndHash) : list cstr := map m_Filename l.

Section Merge.
Context (dag : DagData) (nodes : list NodeState) (old : StateData).

Definition new_record (n : NodeState) (nd : NodeData) : NodeStateData :=
  mkNodeStateData (ns_BuildResult n) (ns_InputSignature n) (names (nd_OutputFiles nd)) (names (nd_AuxOutputFiles nd)).

Definition renamed (o : NodeStateData) (nd : NodeData) : NodeStateData :=
  mkNodeStateData (nsd_BuildResult o) (nsd_InputSignature o) (names (nd_OutputFiles nd)) (names (nd_AuxOutputFiles nd)).

Definition is_saved (n : NodeState) : bool := negb (progress_code (ns_Progress n) <? progress_code kUnblocked).

(** The old record is for the files that the node has now. *)
Definition agrees (o : NodeStateData) (nd : NodeData) : bool :=
  bool_decide (nsd_OutputFiles o = names (nd_OutputFiles nd)) && bool_decide (nsd_AuxOutputFiles o = names (nd_AuxOutputFiles nd)).

(** The reference, after the comments of [DriverSaveBuildState]: what the next
    build is to find under a guid. A node of this build that got as far as its
    signature is recorded as it is now; one that did not keeps its old record, if
    its output files and auxiliary output files agree with it; a node of the DAG
    outside this build keeps its old result and signature under its current file
    names; all else goes. *)
Definition wanted (guid : HashDigest) : option NodeStateData :=
  match list_find (fun g => g = guid) (dag_NodeGuids dag) with
  | None => None
  | Some (i, _) =>
      match dag_NodeData dag !! i with
      | None => None
      | Some nd =>
          match list_find (fun n => ns_MmapData n = Z.of_nat i) nodes, old_state (Some old) guid with
          | Some (_, n), o => if is_saved n then Some (new_record n nd) else match o with Some o => if agrees o nd then Some o else None | None => None end
          | None, Some o => Some (renamed o nd)
          | None, None => None
          end
      end
  end.

(** No node under this guid lost its signature and changed its files at once. *)
Definition unchanged (guid : HashDigest) : Prop :=
  forall n nd o, n ∈ nodes -> is_saved n = false -> dag_NodeGuids dag !!z ns_MmapData n = Some guid ->
  dag_NodeData dag !!z ns_MmapData n = Some nd -> old_state (Some old) guid = Some o -> agrees o nd = true.

(** What the code does: the old record of a node without a signature is kept
    whatever files it is for. *)
Definition kept (guid : HashDigest) : option NodeStateData :=
  match list_find (fun g => g = guid) (dag_NodeGuids dag) with
  | None => None
  | Some (i, _) =>
      match dag_NodeData dag !! i with
      | None => None
      | Some nd =>
          match list_find (fun n => ns_MmapData n = Z.of_nat i) nodes with
          | Some (_, n) => if is_saved n then Some (new_record n nd) else old_state (Some old) guid
          | None => match old_state (Some old) guid with Some o => Some (renamed o nd) | None => None end
          end
      end
  end.

Lemma kept_wanted guid : unchanged guid -> kept guid = wanted guid.
Proof.
  intros Hu. unfold kept, wanted. destruct (list_find _ (dag_NodeGuids dag)) as [[i g]|] eqn:Eg; [|done].
  apply list_find_Some in Eg as (Hg & -> & _). destruct (dag_NodeData dag !! i) as [nd|] eqn:Ed; [|done].
  destruct (list_find _ nodes) as [[j n]|] eqn:En; [|by destruct (old_state _ _)]. apply list_find_Some in En as (Hn & Ei & _).
  destruct (is_saved n) eqn:Es; [done|]. destruct (old_state (Some old) guid) as [o|] eqn:Eo; [|done]. cbn.
  by rewrite (Hu n nd o (list_elem_of_lookup_2 _ _ _ Hn) Es) by (rewrite ?Ei, ?zlookup_nat; done).
Qed.

(** The record a call of the merge saves. *)
Definition call_entry (sorted_nodes : list NodeState) (c : Z + Z) : option entry :=
  match c with
  | inl index =>
      match sorted_nodes !!z index with
      | Some n => match dag_NodeGuids dag !!z ns_MmapData n with
                  | Some g => match kept g with Some r => Some (g, r) | None => None end
                  | None => None
                  end
      | None => None
      end
  | inr index => match sd_NodeGuids old !!z index with
                 | Some g => match kept g with Some r => Some (g, r) | None => None end
                 | None => None
                 end
  end.
End Merge.

(** Static facts about the data that is saved. *)
Record save_ok (dag : DagData) (nodes : list NodeState) (old : StateData) : Prop := {
  sv_guids : length (dag_NodeGuids dag) = length (dag_NodeData dag) /\ ssorted (dag_NodeGuids dag);
  sv_nodes : NoDup (map ns_MmapData nodes) /\ Forall (fun n => in_dag dag (ns_MmapData n)) nodes;
  sv_old : length (sd_NodeGuids old) = length (sd_NodeStates old) /\ ssorted (sd_NodeGuids old);
  sv_names nd : nd ∈ dag_NodeData dag -> Forall cstr_ok (names (nd_OutputFiles nd) ++ names (nd_AuxOutputFiles nd));
  sv_digests : Forall Fast.digest_ok (dag_NodeGuids dag);
  sv_results : Forall (fun n => in_i32 (ns_BuildResult n) /\ Fast.digest_ok (ns_InputSignature n)) nodes;
  sv_records : Forall (fun o => in_i32 (nsd_BuildResult o) /\ Fast.digest_ok (nsd_InputSignature o) /\ Forall cstr_ok (nsd_OutputFiles o ++ nsd_AuxOutputFiles o)) (sd_NodeStates old)
}.

Section Merged.
Context (dag : DagData) (nodes : list NodeState) (old : StateData) (Hok : save_ok dag nodes old).
Context (sorted_nodes : list NodeState) (Hperm : sorted_nodes ≡ₚ nodes).

Lemma find_guid g i : dag_NodeGuids dag !!z i = Some g -> exists x, list_find (fun x => x = g) (dag_NodeGuids dag) = Some (Z.to_nat i, x).
Proof.
  intros Hi. pose proof (zlookup_lt _ _ _ Hi) as Hr. unfold zlookup in Hi. rewrite bool_decide_true in Hi by lia.
  exists g. apply list_find_Some. split_and!; [done|done|]. intros j y Hj Hlt ->.
  pose proof (ssorted_nodup _ (proj2 (sv_guids _ _ _ Hok))) as Hn. pose proof (NoDup_lookup _ _ _ _ Hn Hj Hi). lia.
Qed.

Lemma find_node n : n ∈ nodes -> exists k, list_find (fun x => ns_MmapData x = ns_MmapData n) nodes = Some (k, n).
Proof.
  intros Hn. destruct (list_find_elem_of (fun x => ns_MmapData x = ns_MmapData n) nodes n Hn eq_refl) as [[k m] E]. exists k. rewrite E.
  apply list_find_Some in E as (Hk & Em & _). do 2 f_equal. apply list_elem_of_lookup in Hn as [j Hj].
  destruct (sv_nodes _ _ _ Hok) as [Hnd _]. assert (k = j); [|congruence]. apply (NoDup_lookup (map ns_MmapData nodes) k j (ns_MmapData n) Hnd).
  - change (map ns_MmapData nodes) with (ns_MmapData <$> nodes). rewrite list_lookup_fmap, Hk. cbn. by rewrite Em.
  - change (map ns_MmapData nodes) with (ns_MmapData <$> nodes). by rewrite list_lookup_fmap, Hj.
Qed.

Lemma old_state_index g k : BinarySearch digest_lt digest_eq (sd_NodeGuids old) (zlen (sd_NodeGuids old)) g = Some k ->
  exists o, sd_NodeStates old !!z k = Some o /\ old_state (Some old) g = Some o.
Proof.
  intros E. pose proof (digest_search (sd_NodeGuids old) g (proj2 (sv_old _ _ _ Hok))) as Hs. rewrite E in Hs. apply zlookup_lt in Hs.
  rewrite (proj1 (sv_old _ _ _ Hok)) in Hs. destruct (zlookup_is_Some (sd_NodeStates old) k Hs) as [o Ho]. exists o. split; [done|].
  unfold old_state. by rewrite E.
Qed.

(** The record of a node of this build, and of one that is not. *)
Lemma kept_new n g nd : n ∈ nodes -> dag_NodeGuids dag !!z ns_MmapData n = Some g -> dag_NodeData dag !!z ns_MmapData n = Some nd ->
  kept dag nodes old g = if is_saved n then Some (new_record n nd) else old_state (Some old) g.
Proof.
  intros Hn Hg Hd. unfold kept. destruct (find_guid g _ Hg) as [x ->]. pose proof (zlookup_lt _ _ _ Hd). unfold zlookup in Hd. rewrite bool_decide_true in Hd by lia.
  rewrite Hd, Z2Nat.id by lia. by destruct (find_node n Hn) as [k ->].
Qed.

Lemma kept_other g i nd : dag_NodeGuids dag !!z i = Some g -> dag_NodeData dag !!z i = Some nd -> i ∉ map ns_MmapData nodes ->
  kept dag nodes old g = match old_state (Some old) g with Some o => Some (renamed o nd) | None => None end.
Proof.
  intros Hg Hd Hn. unfold kept. destruct (find_guid g _ Hg) as [x ->]. pose proof (zlookup_lt _ _ _ Hd). unfold zlookup in Hd. rewrite bool_decide_true in Hd by lia.
  rewrite Hd, Z2Nat.id by lia. destruct (list_find _ nodes) as [[k n]|] eqn:E; [|done]. apply list_find_Some in E as (Hk & Em & _).
  exfalso. apply Hn. rewrite <- Em. apply list_elem_of_fmap_2. by eapply list_elem_of_lookup_2.
Qed.

Lemma kept_gone g : g ∉ dag_NodeGuids dag -> kept dag nodes old g = None.
Proof.
  intros Hg. unfold kept. destruct (list_find _ _) as [[i x]|] eqn:E; [|done]. apply list_find_Some in E as (Hi & -> & _). by apply list_elem_of_lookup_2 in Hi.
Qed.

(** ** The keys *)

Definition guid_of (n : NodeState) : HashDigest := default zero_digest (dag_NodeGuids dag !!z ns_MmapData n).

Lemma node_data n : n ∈ sorted_nodes -> n ∈ nodes /\ (exists nd, dag_NodeData dag !!z ns_MmapData n = Some nd) /\
  dag_NodeGuids dag !!z ns_MmapData n = Some (guid_of n).
Proof.
  rewrite Hperm. intros Hn. split; [done|]. destruct (sv_nodes _ _ _ Hok) as [_ HF]. rewrite Forall_forall in HF. specialize (HF n Hn). unfold in_dag, dag_NodeCount in HF.
  split; [by apply zlookup_is_Some|]. unfold guid_of. destruct (zlookup_is_Some (dag_NodeGuids dag) (ns_MmapData n)) as [g ->]; [|done].
  by rewrite (proj1 (sv_guids _ _ _ Hok)).
Qed.

Hypothesis Hsorted : StronglySorted (fun a b => ns_MmapData a < ns_MmapData b) sorted_nodes.

Lemma keys_sorted : ssorted (map guid_of sorted_nodes).
Proof.
  assert (Hall : forall n, n ∈ sorted_nodes -> dag_NodeGuids dag !!z ns_MmapData n = Some (guid_of n)) by (intros n Hn; by apply node_data).
  clear Hperm. induction Hsorted as [|n l Hs IH Hf]; cbn [map]; constructor.
  - apply IH; [done|]. intros m Hm. apply Hall. set_solver.
  - apply Forall_map, Forall_forall. intros m Hm. rewrite Forall_forall in Hf.
    apply (ssorted_lookup (dag_NodeGuids dag) (ns_MmapData n) (ns_MmapData m)); [apply (sv_guids _ _ _ Hok)|apply Hall; set_solver|apply Hall; set_solver|by apply Hf].
Qed.

Definition trace : list (Z + Z) := TraverseSortedArrays (map guid_of sorted_nodes) (sd_NodeGuids old).
Definition saved : list entry := omap (call_entry dag nodes old sorted_nodes) trace.

(** A call on the old array is for a guid outside this build. *)
Lemma trace_old j g : inr j ∈ trace -> sd_NodeGuids old !!z j = Some g -> g ∉ map guid_of sorted_nodes.
Proof.
  intros Hj Hg. apply (traverse_right _ 0 _ 0 keys_sorted (proj2 (sv_old _ _ _ Hok))) in Hj as (k & Hk & Hn). rewrite Z.sub_0_r in Hk. congruence.
Qed.

Lemma trace_new i : inl i ∈ trace <-> 0 <= i < zlen sorted_nodes.
Proof.
  pose proof (traverse_left _ 0 _ 0 keys_sorted (proj2 (sv_old _ _ _ Hok))) as E. fold (TraverseSortedArrays (map guid_of sorted_nodes) (sd_NodeGuids old)) in E. fold trace in E.
  rewrite length_map in E. assert (Hiff : inl i ∈ trace <-> i ∈ omap from_left trace).
  { rewrite list_elem_of_omap. split; [intros H; by exists (inl i)|]. intros ([j|j] & Hj & Ej); [|done]. by injection Ej as ->. }
  rewrite Hiff, E, elem_of_seqZ. lia.
Qed.

Lemma outside_build i g : dag_NodeGuids dag !!z i = Some g -> g ∉ map guid_of sorted_nodes -> i ∉ map ns_MmapData nodes.
Proof.
  intros Hi Hg (n & -> & Hn)%list_elem_of_fmap. apply Hg. apply list_elem_of_fmap. exists n. rewrite Hperm. split; [|done]. unfold guid_of. by rewrite Hi.
Qed.

Lemma old_index j g : sd_NodeGuids old !!z j = Some g -> exists o, sd_NodeStates old !!z j = Some o /\ old_state (Some old) g = Some o.
Proof.
  intros Hj. destruct (BinarySearch digest_lt digest_eq (sd_NodeGuids old) (zlen (sd_NodeGuids old)) g) as [k|] eqn:E.
  - pose proof (digest_search _ g (proj2 (sv_old _ _ _ Hok))) as Hs. rewrite E in Hs. assert (k = j) as ->; [|by apply old_state_index].
    pose proof (zlookup_lt _ _ _ Hj). pose proof (zlookup_lt _ _ _ Hs). unfold zlookup in Hj, Hs. rewrite bool_decide_true in Hj, Hs by lia.
    pose proof (NoDup_lookup _ _ _ _ (ssorted_nodup _ (proj2 (sv_old _ _ _ Hok))) Hj Hs). lia.
  - pose proof (digest_search _ g (proj2 (sv_old _ _ _ Hok))) as Hs. rewrite E in Hs. by apply zlookup_elem in Hj.
Qed.

(** Every call saves the record the reference asks for. *)
Lemma save_call_is c sw es : c ∈ trace -> sw_is sw es ->
  exists sw', save_call dag sorted_nodes old sw c = OK sw' /\ sw_is sw' (es ++ option_list (call_entry dag nodes old sorted_nodes c)).
Proof.
  intros Hc Hsw. destruct c as [i|j]; cbn [save_call call_entry].
  - apply trace_new in Hc. destruct (zlookup_is_Some sorted_nodes i Hc) as [n Hn]. unfold save_new. rewrite Hn. cbn [of_opt mbind res_bind].
    destruct (node_data n (zlookup_elem _ _ _ Hn)) as (Hin & [nd Hnd] & Hg). rewrite Hnd, Hg. cbn [of_opt mbind res_bind].
    rewrite (kept_new n _ nd Hin Hg Hnd). unfold is_saved. destruct (_ <? _); cbn [negb].
    + destruct (BinarySearch _ _ _ _ (guid_of n)) as [k|] eqn:E.
      * destruct (old_state_index _ _ E) as (o & Ho & ->). rewrite Ho. cbn [of_opt mbind res_bind option_list]. eexists. split; [done|].
        destruct o. by apply save_entry_is.
      * assert (old_state (Some old) (guid_of n) = None) as -> by (unfold old_state; by rewrite E). exists sw. cbn. by rewrite app_nil_r.
    + eexists. split; [done|]. by apply save_entry_is.
  - destruct (sd_NodeGuids old !!z j) as [g|] eqn:Eg; cycle 1.
    { apply (traverse_right _ 0 _ 0 keys_sorted (proj2 (sv_old _ _ _ Hok))) in Hc as (k & Hk & _). rewrite Z.sub_0_r in Hk. congruence. }
    pose proof (trace_old j g Hc Eg) as Hout. unfold save_old. rewrite Eg. cbn [of_opt mbind res_bind].
    destruct (old_index j g Eg) as (o & Ho & Hos).
    pose proof (digest_search (dag_NodeGuids dag) g (proj2 (sv_guids _ _ _ Hok))) as Hs. destruct (BinarySearch _ _ (dag_NodeGuids dag) _ g) as [k|].
    + destruct (zlookup_is_Some (dag_NodeData dag) k) as [nd Hnd]; [apply zlookup_lt in Hs; by rewrite (proj1 (sv_guids _ _ _ Hok)) in Hs|].
      rewrite Hnd, Ho. cbn [of_opt mbind res_bind]. rewrite (kept_other g k nd Hs Hnd (outside_build _ _ Hs Hout)), Hos. cbn [option_list].
      eexists. split; [done|]. by apply save_entry_is.
    + rewrite kept_gone by done. exists sw. cbn. by rewrite app_nil_r.
Qed.

Lemma save_calls_is : exists sw, foldM (save_call dag sorted_nodes old) new_state_writer trace = OK sw /\ sw_is sw saved.
Proof.
  unfold saved. assert (Hgen : forall tr, (forall c, c ∈ tr -> c ∈ trace) -> forall sw es, sw_is sw es ->
    exists sw', foldM (save_call dag sorted_nodes old) sw tr = OK sw' /\ sw_is sw' (es ++ omap (call_entry dag nodes old sorted_nodes) tr)).
  { induction tr as [|c tr IH]; intros Hin sw es Hsw; cbn [foldM]; [exists sw; cbn; by rewrite app_nil_r|].
    destruct (save_call_is c sw es) as (sw1 & -> & H1); [apply Hin; set_solver|done|]. cbn [mbind res_bind].
    destruct (IH (fun x Hx => Hin x (list_elem_of_further _ _ _ Hx)) sw1 _ H1) as (sw2 & -> & H2). exists sw2. split; [done|].
    rewrite <- app_assoc in H2. cbn. by destruct (call_entry dag nodes old sorted_nodes c). }
  apply (Hgen trace (fun c H => H) new_state_writer [] new_state_writer_is).
Qed.
End Merged.

(** ** The saved list *)

Section Saved.
Context (dag : DagData) (nodes : list NodeState) (old : StateData) (Hok : save_ok dag nodes old).
Context (sorted_nodes : list NodeState) (Hperm : sorted_nodes ≡ₚ nodes).
Hypothesis Hsorted : StronglySorted (fun a b => ns_MmapData a < ns_MmapData b) sorted_nodes.

Abbreviation es := (saved dag nodes old sorted_nodes).

Lemma call_entry_kept c e : call_entry dag nodes old sorted_nodes c = Some e -> kept dag nodes old e.1 = Some e.2.
Proof. destruct c; cbn; intros H; repeat case_match; by simplify_eq. Qed.

Lemma call_entry_key c k e : call_key (map (guid_of dag) sorted_nodes) (sd_NodeGuids old) 0 0 c = Some k ->
  call_entry dag nodes old sorted_nodes c = Some e -> e.1 = k.
Proof.
  destruct c as [i|i]; cbn; rewrite Z.sub_0_r; intros Hk He.
  - rewrite zlookup_map in Hk. destruct (sorted_nodes !!z i) as [n|]; [|done]. cbn in Hk. injection Hk as <-. unfold guid_of.
    destruct (dag_NodeGuids dag !!z ns_MmapData n); [|done]. case_match; by simplify_eq.
  - rewrite Hk in He. case_match; by simplify_eq.
Qed.

(** The guids of the records, in order. *)
Lemma saved_sorted : ssorted (map fst es).
Proof.
  destruct (traverse_keys _ 0 _ 0 (keys_sorted dag nodes old Hok sorted_nodes Hperm Hsorted) (proj2 (sv_old _ _ _ Hok))) as (ks & HF & Hks & _).
  fold (TraverseSortedArrays (map (guid_of dag) sorted_nodes) (sd_NodeGuids old)) in HF. fold (trace dag old sorted_nodes) in HF. unfold saved.
  induction HF as [|c k tr ks Hc HF IH]; [constructor|]. apply StronglySorted_inv in Hks as [Hks Hf]. cbn.
  destruct (call_entry dag nodes old sorted_nodes c) as [e|] eqn:E; [|by apply IH]. cbn. constructor; [by apply IH|].
  rewrite (call_entry_key c k e Hc E). clear IH E Hc e c. induction HF as [|c k' tr ks Hc HF IH]; [constructor|].
  apply StronglySorted_inv in Hks as [Hks _]. apply Forall_cons in Hf as [Hkk Hf]. cbn.
  destruct (call_entry dag nodes old sorted_nodes c) as [e|] eqn:E; [|by apply IH]. cbn. constructor; [|by apply IH].
  by rewrite (call_entry_key c k' e Hc E).
Qed.

Lemma saved_kept g r : kept dag nodes old g = Some r <-> (g, r) ∈ es.
Proof.
  unfold saved. rewrite list_elem_of_omap. split.
  - intros Hk. destruct (decide (g ∈ dag_NodeGuids dag)) as [Hg|Hg]; [|by rewrite kept_gone in Hk].
    apply list_elem_of_lookup in Hg as [i Hi]. rewrite <- zlookup_nat in Hi.
    destruct (zlookup_is_Some (dag_NodeData dag) (Z.of_nat i)) as [nd Hnd]; [apply zlookup_lt in Hi; by rewrite (proj1 (sv_guids _ _ _ Hok)) in Hi|].
    destruct (decide (Z.of_nat i ∈ map ns_MmapData nodes)) as [Hin|Hout].
    + apply list_elem_of_fmap in Hin as (n & En & Hn). rewrite <- Hperm in Hn. apply list_elem_of_lookup in Hn as [j Hj]. rewrite <- zlookup_nat in Hj.
      exists (inl (Z.of_nat j)). split; [apply (trace_new dag nodes old Hok sorted_nodes Hperm Hsorted); apply zlookup_lt in Hj; lia|].
      cbn. rewrite Hj, <- En, Hi. by rewrite Hk.
    + rewrite (kept_other dag nodes old Hok g _ nd Hi Hnd Hout) in Hk. destruct (old_state (Some old) g) as [o|] eqn:Eo; [|done].
      assert (exists j, sd_NodeGuids old !!z j = Some g) as [j Hj].
      { unfold old_state in Eo. pose proof (digest_search _ g (proj2 (sv_old _ _ _ Hok))) as Hs. destruct (BinarySearch _ _ _ _ g); [eauto|done]. }
      exists (inr j). split; [|cbn; rewrite Hj; rewrite (kept_other dag nodes old Hok g _ nd Hi Hnd Hout), Eo; by injection Hk as <-].
      apply (traverse_right _ 0 _ 0 (keys_sorted dag nodes old Hok sorted_nodes Hperm Hsorted) (proj2 (sv_old _ _ _ Hok))). exists g.
      rewrite Z.sub_0_r. split; [done|]. intros (n & En & Hn)%list_elem_of_fmap.
      destruct (node_data dag nodes old Hok sorted_nodes Hperm n Hn) as (Hnn & _ & Hng). rewrite <- En in Hng. apply Hout.
      pose proof (ssorted_nodup _ (proj2 (sv_guids _ _ _ Hok))) as Hnd'. pose proof (zlookup_lt _ _ _ Hi). pose proof (zlookup_lt _ _ _ Hng).
      unfold zlookup in Hi, Hng. rewrite bool_decide_true in Hi, Hng by lia. pose proof (NoDup_lookup _ _ _ _ Hnd' Hi Hng).
      apply list_elem_of_fmap. exists n. split; [lia|done].
  - intros (c & _ & Hc). by apply call_entry_kept in Hc.
Qed.

(** The lookup the next build makes. *)
Lemma saved_lookup g : old_state (Some (mkStateData (map fst es) (map snd es))) g = kept dag nodes old g.
Proof.
  unfold old_state. cbn [sd_NodeGuids sd_NodeStates]. pose proof (digest_search _ g saved_sorted) as Hs.
  destruct (BinarySearch _ _ _ _ g) as [k|].
  - rewrite (zlookup_map fst es k) in Hs. rewrite (zlookup_map snd es k). destruct (es !!z k) as [[g' r]|] eqn:E; [|done]. cbn in Hs |- *. injection Hs as ->. symmetry. apply saved_kept.
    by eapply zlookup_elem.
  - destruct (kept dag nodes old g) as [r|] eqn:E; [|done]. exfalso. apply Hs. apply list_elem_of_fmap. exists (g, r). split; [done|]. by apply saved_kept.
Qed.

Lemma saved_entries_ok : Forall entry_ok es.
Proof.
  apply Forall_forall. intros [g r] He. apply saved_kept in He. unfold entry_ok, entry_files. cbn [fst snd].
  assert (Hold : forall o, old_state (Some old) g = Some o -> in_i32 (nsd_BuildResult o) /\ Fast.digest_ok (nsd_InputSignature o) /\ Forall cstr_ok (nsd_OutputFiles o ++ nsd_AuxOutputFiles o)).
  { intros o Ho. unfold old_state in Ho. case_match; [|done]. apply zlookup_elem in Ho. pose proof (sv_records _ _ _ Hok) as HF. rewrite Forall_forall in HF. by apply HF. }
  unfold kept in He. destruct (list_find _ (dag_NodeGuids dag)) as [[i x]|] eqn:Eg; [|done]. apply list_find_Some in Eg as (Hi & -> & _).
  split; [pose proof (sv_digests _ _ _ Hok) as HF; rewrite Forall_forall in HF; apply HF; by eapply list_elem_of_lookup_2|].
  destruct (dag_NodeData dag !! i) as [nd|] eqn:End; [|done]. pose proof (sv_names _ _ _ Hok nd (list_elem_of_lookup_2 _ _ _ End)) as Hnm.
  destruct (list_find _ nodes) as [[k n]|] eqn:En.
  - destruct (is_saved n); [|by apply Hold]. injection He as <-. apply list_find_Some in En as (Hn & _). pose proof (sv_results _ _ _ Hok) as HF.
    rewrite Forall_forall in HF. destruct (HF n (list_elem_of_lookup_2 _ _ _ Hn)). done.
  - destruct (old_state (Some old) g) as [o|] eqn:Eo; [|done]. injection He as <-. destruct (Hold o eq_refl) as (? & ? & _). done.
Qed.
End Saved.

(** * The properties *)

Section Saving.
Context `{StdSort}.

Definition by_index (l r : NodeState) : bool := ns_MmapData l <? ns_MmapData r.

Lemma sorted_by_index nodes : NoDup (map ns_MmapData nodes) ->
  std_sort by_index nodes ≡ₚ nodes /\ StronglySorted (fun a b => ns_MmapData a < ns_MmapData b) (std_sort by_index nodes).
Proof.
  intros Hnd. pose proof (std_sort_perm by_index nodes) as Hp. split; [done|].
  assert (Hs : StronglySorted (fun x y => by_index y x = false) (std_sort by_index nodes)).
  { apply std_sort_sorted; unfold by_index; intros *; rewrite ?Z.ltb_ge, ?Z.ltb_lt; lia. }
  rewrite <- Hp in Hnd. clear Hp. induction Hs as [|n l Hs IH Hf]; [constructor|]. cbn [map] in Hnd. apply NoDup_cons in Hnd as [Hn Hnd].
  constructor; [by apply IH|]. rewrite Forall_forall in Hf |- *. intros m Hm. specialize (Hf m Hm). unfold by_index in Hf. apply Z.ltb_ge in Hf.
  assert (ns_MmapData n <> ns_MmapData m); [|lia]. intros E. apply Hn. rewrite E. by apply list_elem_of_fmap_2.
Qed.

(** C18. The state file carries exactly what the next build needs. For a
    well-formed build and previous state, of a size 32-bit offsets can span,
    [DriverSaveBuildState] succeeds; [LoadFrozenData] accepts the file it
    writes; the guids read back are strictly sorted, as binary search needs; and
    looking any guid up in the file, the way [DriverPrepareNodes] does, gives
    the record of the documented merge [wanted]: this build's for a node that got
    as far as its signature (one that was stopped between its signature and its
    action included, [interrupted_node_recorded_as_built]), the old one for a node
    that did not, and nothing for a node that left the DAG; a node outside this
    build keeps its old result and signature under its current file names. The one
    case left out ([unchanged]) is that of a node that never got its signature and
    whose output files are no longer those of its old record: the comment in the
    source says that the record is then dropped, and the code keeps it,
    [changed_outputs_kept]. *)
Theorem state_file_roundtrip self : let old := default no_state (dr_StateData self) in
  save_ok (dr_DagData self) (dr_Nodes self) old ->
  zlen (file_of (state_segs (saved (dr_DagData self) (dr_Nodes self) old (std_sort by_index (dr_Nodes self))))) <= 2 ^ 30 ->
  exists file sd, DriverSaveBuildState self = OK file /\ load_state (Some file) = Some sd /\ ssorted (sd_NodeGuids sd) /\
  forall guid, unchanged (dr_DagData self) (dr_Nodes self) old guid -> old_state (Some sd) guid = wanted (dr_DagData self) (dr_Nodes self) old guid.
Proof.
  intros old Hok Hsz. destruct (sorted_by_index (dr_Nodes self) (proj1 (sv_nodes _ _ _ Hok))) as [Hp Hs].
  unfold DriverSaveBuildState. fold by_index. fold old. set (sorted := std_sort _ (dr_Nodes self)) in *. change (std_sort _ (dr_Nodes self)) with sorted.
  rewrite (foldM_map _ (guid_of (dr_DagData self))).
  2:{ intros n Hn. unfold key_new. by destruct (node_data _ _ _ Hok _ Hp n Hn) as (_ & _ & ->). }
  cbn [mbind res_bind app]. destruct (save_calls_is _ _ _ Hok _ Hp Hs) as (sw & Esw & Hsw). unfold trace in Esw. rewrite Esw. cbn [mbind res_bind].
  set (es := saved (dr_DagData self) (dr_Nodes self) old sorted) in *.
  pose proof (saved_entries_ok _ _ _ Hok _ Hp Hs) as HE. fold es in HE.
  exists (file_of (state_segs es)), (mkStateData (map fst es) (map snd es)). split.
  { apply flush_ok; [by apply writer_holds, finish_main_is|by apply state_targets_ok]. }
  split; [by apply load_state_ok|]. split; [by apply saved_sorted|]. intros g Hu. rewrite <- kept_wanted by done. by apply saved_lookup.
Qed.
End Saving.

Lemma state_file_roundtrip_witness :
  let n1 := mkNodeState 0 0 kCompleted 1 None 7 (mkDigest 10 20) in
  let n4 := mkNodeState 0 1 kBlocked 4 None 0 (mkDigest 0 0) in
  let old := mkStateData [mkDigest 1 5; mkDigest 2 0; mkDigest 5 5; mkDigest 9 1]
    [mkNodeStateData 0 (mkDigest 1 1) [s2l "a.o"] []; mkNodeStateData 0 (mkDigest 2 2) [] []; mkNodeStateData 3 (mkDigest 3 3) [] [];
     mkNodeStateData 0 (mkDigest 4 4) [] []] in
  let self := mkDriver DemoDag.options DemoDag.dag (Some old) [] [n4; n1] [] in
  (exists file sd, DriverSaveBuildState self = OK file /\ load_state (Some file) = Some sd /\ ssorted (sd_NodeGuids sd) /\
   forall guid, unchanged DemoDag.dag [n4; n1] old guid -> old_state (Some sd) guid = wanted DemoDag.dag [n4; n1] old guid) /\
  map (wanted DemoDag.dag [n4; n1] old) [mkDigest 1 5; mkDigest 2 0; mkDigest 5 5; mkDigest 9 1] =
    [Some (mkNodeStateData 0 (mkDigest 1 1) [] []); Some (mkNodeStateData 7 (mkDigest 10 20) [] []); None;
     Some (mkNodeStateData 0 (mkDigest 4 4) [] [])].
Proof.
  intros n1 n4 old self. split; [|vm_compute; reflexivity]. apply (state_file_roundtrip self); [|vm_compute; discriminate].
  split; cbn.
  - split; [done|]. apply (bool_decide_eq_true_1 _). vm_compute. reflexivity.
  - split; [apply (bool_decide_eq_true_1 _); vm_compute; reflexivity|]. repeat constructor; vm_compute; done.
  - split; [done|]. apply (bool_decide_eq_true_1 _). vm_compute. reflexivity.
  - intros nd Hnd. unfold Demo.data in Hnd. repeat (apply elem_of_cons in Hnd as [->|Hnd]); [constructor..|by apply elem_of_nil in Hnd].
  - repeat constructor; vm_compute; done.
  - repeat constructor; vm_compute; done.
  - repeat constructor; cbn; try (vm_compute; done); discriminate.
Defined.

(** ** An old record that no longer fits is kept *)

(** A build fails before the link step of the small build has its signature. Its
    old record is for a program with a map file; the node has no such files any
    more, and the record is saved as it was. *)
Theorem changed_outputs_kept :
  let n4 := mkNodeState 0 1 kBlocked 4 None 0 (mkDigest 0 0) in
  let record := mkNodeStateData 0 (mkDigest 4 4) [s2l "prog"; s2l "prog.map"] [s2l "prog.ilk"] in
  let old := mkStateData [mkDigest 9 1] [record] in
  let self := mkDriver DemoDag.options DemoDag.dag (Some old) [] [n4] [] in
  wanted DemoDag.dag [n4] old (mkDigest 9 1) = None /\
  exists file sd, DriverSaveBuildState self = OK file /\ load_state (Some file) = Some sd /\ old_state (Some sd) (mkDigest 9 1) = Some record.
Proof.
  intros n4 record old self. split; [vm_compute; reflexivity|]. eexists _, _. split; [vm_compute; reflexivity|].
  split; vm_compute; reflexivity.
Qed.

(** ** A node that was stopped before its action is recorded as built *)

Module Interrupted.
Import DemoRun.

(** The compile of [a] has its signature and is parked for an expensive slot
    when the user interrupts the build. *)
Definition stop : sys := state (run s1 (to_mid ++ [exec 0 0; loop 0; sign 0; EvSignal None; loop 0])).

Definition parked_node : NodeState := default (Demo.fresh 0 0) (q_NodeState (sys_q stop) !!z 1).

Definition after : Driver := mkDriver DemoDag.options DemoDag.dag None [] (q_NodeState (sys_q stop)) [].

Definition saved_file : list Z := match DriverSaveBuildState after with OK f => f | Err _ => [] end.

(** A build can be interrupted when a node has computed its input signature
    but is still waiting to run its action. [DriverSaveBuildState] records such
    a node with the new signature and result 0, since only nodes before
    [kUnblocked] keep their old record; the next build then finds it up to
    date, and the action that never ran is not run. *)
Theorem interrupted_node_recorded_as_built :
  session Demo.cfg Demo.nodes Demo.counts 1 (Some ResultInterrupted) stop /\
  ns_Progress parked_node = kRunAction /\ ns_MmapData parked_node = 1 /\
  DriverSaveBuildState after = OK saved_file /\
  exists sd, load_state (Some saved_file) = Some sd /\
    forall nd, dag_NodeData DemoDag.dag !!z 1 = Some nd ->
    CheckInputSignature_decide (fun _ => true) nd (dag_NodeGuids DemoDag.dag !!z 1 ≫= old_state (Some sd)) (ns_InputSignature parked_node) = kUpToDate.
Proof.
  split.
  { change (Some ResultInterrupted) with (Some (BuildNodeRange_result (sys_signalled stop) (sys_q stop))).
    apply ses_result; [apply after_session|]; vm_compute; reflexivity. }
  do 3 (split; [vm_compute; reflexivity|]). eexists. split; [vm_compute; reflexivity|]. intros nd [= <-]. vm_compute. reflexivity.
Qed.
End Interrupted.
