(* ===== verification/StaleOutputs.v ===== *)
(** * Stale and cleaned outputs

    [DriverRemoveStaleOutputs] and [DriverCleanOutputs] of Driver.cpp: the files
    that the previous build recorded and no node of the DAG produces any more
    are removed, with the directories above them; [--clean] removes the outputs
    of the selected nodes. The file system is a state [W] with the operation
    [RemoveFileOrDir], which answers whether it removed the path. *)

From stdpp Require Import gmap sorting.
From S2P Require Import Prelude CommonFns DagData SortedArray HashTable HashSet PathUtil PathThms Driver.

Section Stale.
Context (ci : bool) (native : PathType) (je : list Z) (jd : cstr) `{StdSort}.

(** ** The code *)

Definition add_file (file_table : HashSet) (p : FrozenFileAndHash) : res HashSet :=
  set_add ci file_table (m_FilenameHash p) (m_Filename p).

(** [while (PathStripLast(&buffer))]. *)
Fixpoint add_parents (fuel : nat) (nuke_table : HashSet) (buffer : PathBuffer) : res HashSet :=
  match fuel with
  | O => Err OutOfFuel
  | S fuel =>
      let '(buffer, stripped) := PathStripLast buffer in
      if negb stripped then OK nuke_table
      else if pb_SegCount buffer =? 0 then OK nuke_table
      else
        dir ← PathFormat buffer;
        nuke_table ← set_add ci nuke_table (Djb2HashPath ci dir) dir;
        add_parents fuel nuke_table buffer
  end.

(** The loop strips a segment each time. *)
Definition parents_fuel (buffer : PathBuffer) : nat := S (Z.to_nat (pb_SegCount buffer)).

Definition check_file (file_table nuke_table : HashSet) (path : cstr) : res HashSet :=
  let path_hash := Djb2HashPath ci path in
  found ← HashSetLookup ci file_table path_hash path;
  match found with
  | true => OK nuke_table
  | false =>
      nuke_table ← set_add ci nuke_table path_hash path;
      buffer ← PathInit je jd path native;
      add_parents (parents_fuel buffer) nuke_table buffer
  end.

Definition node_outputs (node : NodeData) : list FrozenFileAndHash := nd_OutputFiles node ++ nd_AuxOutputFiles node.
Definition state_outputs (node : NodeStateData) : list cstr := nsd_OutputFiles node ++ nsd_AuxOutputFiles node.

(** [sort descending by path length]. *)
Definition longer (l r : cstr) : bool := strlen r <? strlen l.

(** The paths in the order of their removal. *)
Definition stale_paths (dag : DagData) (state : StateData) : res (list cstr) :=
  file_table ← foldM (foldM add_file) empty_set (map node_outputs (dag_NodeData dag));
  nuke_table ← foldM (foldM (check_file file_table)) empty_set (map state_outputs (sd_NodeStates state));
  paths ← HashTableWalk nuke_table;
  OK (std_sort longer (map sl_String paths)).

Section Files.
Context {W : Type} (RemoveFileOrDir : W -> cstr -> W * bool).

Definition DriverRemoveStaleOutputs (self : Driver) (w : W) : res W :=
  match dr_StateData self with
  | None => OK w
  | Some state =>
      paths ← stale_paths (dr_DagData self) state;
      OK (foldl (fun w path => (RemoveFileOrDir w path).1) w paths)
  end.

Definition clean_file (st : W * Z) (fh : FrozenFileAndHash) : W * Z :=
  let '(w, count) := st in
  let '(w, removed) := RemoveFileOrDir w (m_Filename fh) in
  (w, if negb removed then count + 1 else count).

(** The count is what the message [Removed %d output files] prints. *)
Definition DriverCleanOutputs (self : Driver) (w : W) : res (W * Z) :=
  foldM (fun st state =>
    node ← of_opt (dag_NodeData (dr_DagData self) !!z ns_MmapData state);
    OK (foldl clean_file st (nd_OutputFiles node))) (w, 0) (dr_Nodes self).
End Files.

(** ** Reference *)

(** The directories above a path, innermost first. *)
Definition parents (path : cstr) : list cstr :=
  let a := parse native path in
  map (fun k => format (with_segs (take k (ap_Segs a)) a)) (rev (seq 1 (pred (length (ap_Segs a))))).

Definition current (dag : DagData) : list cstr := map m_Filename (concat (map node_outputs (dag_NodeData dag))).
Definition recorded (state : StateData) : list cstr := concat (map state_outputs (sd_NodeStates state)).

Definition doomed_by (dag : DagData) (path : cstr) : list cstr :=
  if bool_decide (canon ci path ∈ map (canon ci) (current dag)) then [] else path :: parents path.

Definition doomed (dag : DagData) (state : StateData) : list cstr := concat (map (doomed_by dag) (recorded state)).

Record outputs_ok (dag : DagData) (state : StateData) : Prop := {
  oo_hashes : Forall (fun p => m_FilenameHash p = Djb2HashPath ci (m_Filename p) /\ cstr_ok (m_Filename p)) (concat (map node_outputs (dag_NodeData dag)));
  oo_paths : Forall (path_ok native) (recorded state);
  oo_current : zlen (current dag) < 2 ^ 27;
  oo_doomed : zlen (doomed dag state) < 2 ^ 27 }.

(** ** Lemmas *)

Lemma prefixed_app sep l k : prefixed sep (l ++ k) = prefixed sep l ++ prefixed sep k.
Proof. unfold prefixed. by rewrite map_app, concat_app. Qed.

Lemma format_take a k : (length (format (with_segs (take k (ap_Segs a)) a)) <= length (format a))%nat.
Proof.
  unfold format, with_segs, lead. cbn [ap_Type ap_Flags ap_Up ap_Segs]. rewrite !length_app.
  enough (length (join (sep_of (ap_Type a)) (take k (ap_Segs a))) <= length (join (sep_of (ap_Type a)) (ap_Segs a)))%nat by lia.
  rewrite <- (take_drop k (ap_Segs a)) at 2. set (sep := sep_of (ap_Type a)). destruct (take k (ap_Segs a)) as [|s l]; [cbn; lia|].
  cbn [join app]. rewrite prefixed_app, !length_app. lia.
Qed.

Lemma with_segs_twice l k a : with_segs l (with_segs k a) = with_segs l a.
Proof. done. Qed.

Lemma with_segs_id a : with_segs (ap_Segs a) a = a.
Proof. by destruct a. Qed.

(** The loop adds the directories with [n] segments and fewer. *)
Lemma add_parents_ok a : Forall cstr_ok (ap_Segs a) -> zlen (format a) + 1 < kMaxPathLength ->
  forall n fuel p set, (n <= length (ap_Segs a))%nat -> (n < fuel)%nat -> repr p (with_segs (take n (ap_Segs a)) a) ->
  set_ok ci set -> zlen (entries set) + Z.of_nat (pred n) < 2 ^ 27 ->
  exists set', add_parents fuel set p = OK set' /\
  adds ci set (map (fun k => format (with_segs (take k (ap_Segs a)) a)) (rev (seq 1 (pred n)))) set'.
Proof.
  intros HF Hlen. induction n as [|n IH]; intros fuel p set Hn Hf HR Hs Hsz; destruct fuel as [|fuel]; try lia; cbn [add_parents].
  - assert (E : (PathStripLast p).2 = false).
    { unfold PathStripLast. rewrite (rp_count _ _ HR). cbn. rewrite take_0. by destruct (is_device p). }
    destruct (PathStripLast p) as [p' b]. cbn in E. subst b. cbn. exists set. split; [done|by apply adds_nil].
  - assert (Hl : length (take (S n) (ap_Segs a)) = S n) by (rewrite length_take; lia).
    destruct (decide (n = 0%nat)) as [->|Hn0].
    + exists set. split; [|by apply adds_nil]. unfold PathStripLast. rewrite (rp_count _ _ HR). cbn [ap_Segs with_segs]. rewrite Hl.
      change (Z.of_nat 1) with 1. destruct (is_device p); cbn; done.
    + destruct (PathStripLast_ok p _ HR) as (p' & -> & HR').
      { right. cbn [ap_Segs with_segs]. rewrite Hl. lia. }
      { cbn [ap_Segs with_segs]. intros E. by rewrite E in Hl. }
      cbn [negb]. cbn [ap_Segs with_segs] in HR'. rewrite with_segs_twice in HR'.
      rewrite removelast_firstn_len, Hl in HR'. cbn [pred] in HR'. change (@firstn) with (@take) in HR'. rewrite take_take in HR'.
      replace (n `min` S n)%nat with n in HR' by lia.
      rewrite (rp_count _ _ HR'). cbn [ap_Segs with_segs]. rewrite length_take. rewrite (proj2 (Z.eqb_neq _ 0)) by lia.
      pose proof (format_take a n) as Hft. rewrite (PathFormat_ok p' _ HR') by lia. cbn [mbind res_bind].
      set (dir := format (with_segs (take n (ap_Segs a)) a)) in *.
      destruct (set_add_ok ci set dir Hs) as (s1 & -> & A1); [apply format_cstr; cbn [ap_Segs with_segs]; by apply Forall_take|lia|].
      cbn [mbind res_bind]. pose proof (ad_size _ _ _ _ A1) as Hz. cbn [length] in Hz.
      destruct (IH fuel p' s1) as (s2 & -> & A2); [lia|lia|done|apply A1|lia|]. exists s2. split; [done|].
      replace (rev (seq 1 (pred (S n)))) with (n :: rev (seq 1 (pred n))).
      * cbn [map]. change (?x :: ?l) with ([x] ++ l). by eapply adds_app.
      * destruct n as [|n]; [lia|]. cbn [pred]. rewrite (seq_S n 1), rev_app_distr. done.
Qed.

Lemma check_file_ok dag file_table nuke_table path : zlen je = kMaxPathSegments -> zlen jd = kMaxPathLength -> path_ok native path ->
  set_ok ci file_table -> (forall k, k ∈ keys ci file_table <-> k ∈ map (canon ci) (current dag)) ->
  set_ok ci nuke_table -> zlen (entries nuke_table) + zlen (doomed_by dag path) < 2 ^ 27 ->
  exists set', check_file file_table nuke_table path = OK set' /\ adds ci nuke_table (doomed_by dag path) set'.
Proof.
  intros Hje Hjd [Hc Hsz Hsg Hb Hf] Hft Hk Hs Hn. unfold check_file. rewrite lookup_set by done. cbn [mbind res_bind].
  unfold doomed_by in *. rewrite (bool_decide_ext _ _ (Hk (canon ci path))). case_bool_decide as Hin.
  { exists nuke_table. split; [done|by apply adds_nil]. }
  unfold parents in *. rewrite length_cons, length_map, length_rev, length_seq in Hn.
  destruct (set_add_ok ci nuke_table path Hs Hc) as (s1 & -> & A1); [lia|]. cbn [mbind res_bind].
  destruct (PathInit_ok je jd path native) as (p & -> & HR); [done..|]. cbn [mbind res_bind].
  pose proof (ad_size _ _ _ _ A1) as Hz. cbn [length] in Hz.
  destruct (decide (ap_Segs (parse native path) = [])) as [E0|E0].
  - destruct (add_parents_ok (parse native path) (segs_cstr native path Hc) Hf 0 (parents_fuel p) p s1) as (s2 & E & A2);
      [lia|unfold parents_fuel; lia| |apply A1|lia|].
    { rewrite take_0, <- E0, with_segs_id. done. }
    exists s2. split; [done|]. rewrite E0. change (?x :: ?l) with ([x] ++ l). by eapply adds_app.
  - assert (Hpos : (0 < length (ap_Segs (parse native path)))%nat) by (destruct (ap_Segs (parse native path)); [done|cbn; lia]).
    destruct (add_parents_ok (parse native path) (segs_cstr native path Hc) Hf (length (ap_Segs (parse native path))) (parents_fuel p) p s1) as (s2 & E & A2).
    + lia.
    + unfold parents_fuel. rewrite (rp_count _ _ HR). lia.
    + by rewrite firstn_all, with_segs_id.
    + apply A1.
    + lia.
    + exists s2. split; [done|]. change (?x :: ?l) with ([x] ++ l). by eapply adds_app.
Qed.

Lemma longer_sorted (l : list cstr) : StronglySorted (fun a b => strlen b <= strlen a) (std_sort longer l).
Proof.
  assert (Hs : StronglySorted (fun x y => longer y x = false) (std_sort longer l)).
  { apply std_sort_sorted; unfold longer; [intros x y z|intros x y]; rewrite ?Z.ltb_ge, ?Z.ltb_lt; lia. }
  induction Hs as [|x l' Hl IH HF]; constructor; [done|]. eapply Forall_impl; [exact HF|]. unfold longer. intros y. rewrite Z.ltb_ge. lia.
Qed.

Lemma current_table dag state : outputs_ok dag state ->
  exists file_table, foldM (foldM add_file) empty_set (map node_outputs (dag_NodeData dag)) = OK file_table /\ adds ci empty_set (current dag) file_table.
Proof.
  intros Hok. rewrite foldM_concat. pose proof (oo_current _ _ Hok) as Hc. unfold current in *.
  assert (Ec : map m_Filename (concat (map node_outputs (dag_NodeData dag))) = concat (map (fun p => [m_Filename p]) (concat (map node_outputs (dag_NodeData dag))))).
  { generalize (concat (map node_outputs (dag_NodeData dag))). induction l as [|p l IH]; cbn; [done|]. by f_equal. }
  rewrite Ec in *. apply foldM_adds; [|apply empty_set_ok|by cbn].
  intros set p Hp Hs Hn. unfold add_file. pose proof (oo_hashes _ _ Hok) as Hh. rewrite Forall_forall in Hh.
  destruct (Hh p Hp) as [-> Hcs]. apply set_add_ok; [done|done|cbn in Hn; lia].
Qed.

Lemma stale_table dag state file_table : outputs_ok dag state -> zlen je = kMaxPathSegments -> zlen jd = kMaxPathLength ->
  adds ci empty_set (current dag) file_table ->
  exists nuke_table, foldM (foldM (check_file file_table)) empty_set (map state_outputs (sd_NodeStates state)) = OK nuke_table /\
  adds ci empty_set (doomed dag state) nuke_table.
Proof.
  intros Hok Hje Hjd A. rewrite foldM_concat. apply foldM_adds; [|apply empty_set_ok|apply Hok].
  intros set path Hp Hs Hn. pose proof (oo_paths _ _ Hok) as Hps. rewrite Forall_forall in Hps.
  apply check_file_ok; try done; [by apply Hps|apply A|]. intros k. rewrite (ad_keys _ _ _ _ A). set_solver.
Qed.

(** C24. Exactly the stale outputs go. For the outputs of a DAG filed under their
    own hashes and a previous state whose paths fit the buffers, the removal
    list is computed without a fault; up to the case folding of the file system
    it has no duplicates and holds exactly the recorded outputs that no node
    produces any more and the directories above those; every entry is such a
    path; and a longer path comes before a shorter one, so files and
    subdirectories are removed before the directories they are in. *)
Theorem stale_outputs_exact dag state : zlen je = kMaxPathSegments -> zlen jd = kMaxPathLength -> outputs_ok dag state ->
  exists paths, stale_paths dag state = OK paths /\
  NoDup (map (canon ci) paths) /\ (forall k, k ∈ map (canon ci) paths <-> k ∈ map (canon ci) (doomed dag state)) /\
  (forall p, p ∈ paths -> p ∈ doomed dag state) /\ StronglySorted (fun a b => strlen b <= strlen a) paths.
Proof.
  intros Hje Hjd Hok. unfold stale_paths. destruct (current_table dag state Hok) as (ft & -> & A). cbn [mbind res_bind].
  destruct (stale_table dag state ft Hok Hje Hjd A) as (nt & -> & B). cbn [mbind res_bind].
  destruct (walk_refines ci nt) as (es & E & _); [apply (ad_ok _ _ _ _ B)..|]. rewrite E. cbn [mbind res_bind].
  assert (es = entries nt) as -> by (unfold HashTableWalk in E; destruct (check _ _); by inversion E).
  fold (strings nt). assert (HP : map (canon ci) (std_sort longer (strings nt)) ≡ₚ keys ci nt) by (unfold keys; by rewrite std_sort_perm).
  eexists. split; [done|]. split_and!.
  - rewrite HP. apply keys_NoDup, B.
  - intros k. rewrite HP, (ad_keys _ _ _ _ B). set_solver.
  - intros p. rewrite std_sort_perm. intros Hp%(ad_from _ _ _ _ B). set_solver.
  - apply longer_sorted.
Qed.

(** ** Cleaning *)

Section Clean.
Context {W : Type} (RemoveFileOrDir : W -> cstr -> W * bool).

(** The answers to the removals of [paths], one after the other. *)
Fixpoint answers (w : W) (paths : list cstr) : W * list bool :=
  match paths with
  | [] => (w, [])
  | p :: paths' => let '(w, b) := RemoveFileOrDir w p in let '(w, bs) := answers w paths' in (w, b :: bs)
  end.

Definition failures (bs : list bool) : Z := zlen (filter (fun b => b = false) bs).

Lemma answers_app w l k : answers w (l ++ k) = let '(w, bs) := answers w l in let '(w, cs) := answers w k in (w, bs ++ cs).
Proof.
  revert w. induction l as [|p l IH]; intros w; cbn; [by destruct (answers w k)|]. destruct (RemoveFileOrDir w p) as [w1 b].
  rewrite IH. destruct (answers w1 l) as [w2 bs], (answers w2 k). done.
Qed.

Lemma clean_files files : forall w count,
  foldl (clean_file RemoveFileOrDir) (w, count) files =
  let '(w, bs) := answers w (map m_Filename files) in (w, count + failures bs).
Proof.
  induction files as [|f files IH]; intros w count; cbn [foldl map answers]; [by rewrite Z.add_0_r|].
  cbn [clean_file]. destruct (RemoveFileOrDir w (m_Filename f)) as [w1 b]. rewrite IH. destruct (answers w1 _) as [w2 bs].
  f_equal. unfold failures. destruct b; cbn [negb].
  - by rewrite filter_cons_False by done.
  - rewrite filter_cons_True by done. rewrite length_cons. lia.
Qed.

(** The outputs of the selected nodes. *)
Definition selected_outputs (self : Driver) : list cstr :=
  concat (map (fun n => default [] ((fun nd => map m_Filename (nd_OutputFiles nd)) <$> (dag_NodeData (dr_DagData self) !!z ns_MmapData n))) (dr_Nodes self)).

(** Cleaning removes the outputs of the selected nodes, each once and in
    order, and the number it reports as removed is the number of removals that
    failed: [RemoveFileOrDir] answers true for a success and the count goes up
    when the answer is 0. *)
Theorem clean_counts_failures self w : Forall (fun n => is_Some (dag_NodeData (dr_DagData self) !!z ns_MmapData n)) (dr_Nodes self) ->
  DriverCleanOutputs RemoveFileOrDir self w =
  let '(w', bs) := answers w (selected_outputs self) in OK (w', failures bs).
Proof.
  intros HF. unfold DriverCleanOutputs, selected_outputs.
  enough (Hg : forall count, foldM (fun st state => node ← of_opt (dag_NodeData (dr_DagData self) !!z ns_MmapData state);
      OK (foldl (clean_file RemoveFileOrDir) st (nd_OutputFiles node))) (w, count) (dr_Nodes self) =
    let '(w', bs) := answers w (concat (map (fun n => default [] ((fun nd => map m_Filename (nd_OutputFiles nd)) <$> (dag_NodeData (dr_DagData self) !!z ns_MmapData n))) (dr_Nodes self))) in OK (w', count + failures bs)).
  { rewrite Hg. by destruct (answers _ _). }
  revert w. induction HF as [|n l [nd Hnd] HF IH]; intros w count; cbn [foldM map concat answers]; [by rewrite Z.add_0_r|].
  rewrite Hnd. cbn [of_opt mbind res_bind fmap option_fmap option_map default]. rewrite clean_files. cbv [id].
  rewrite answers_app. destruct (answers w (map m_Filename (nd_OutputFiles nd))) as [w1 bs]. rewrite IH.
  destruct (answers w1 _) as [w2 cs]. do 2 f_equal. unfold failures. rewrite filter_app, length_app, Nat2Z.inj_add. lia.
Qed.

End Clean.
End Stale.

Module DemoStale.
Definition file (s : string) : FrozenFileAndHash := mkFile (s2l s) (Djb2HashPath false (s2l s)).
Definition node (outputs aux : list string) : NodeData :=
  mkNodeData None None [] 0 [] [] [] (map file outputs) (map file aux) [] None 0.
Definition dag : DagData :=
  mkDag [mkDigest 1 1; mkDigest 2 2] [node ["out/a.o"] []; node ["out/lib/x.a"] ["out/x.map"]] [] [] [] [] [] [] [] [] 0 0 0 [] [] [] (-1) [] [] [] [] [] [].
Definition state : StateData :=
  mkStateData [mkDigest 1 1; mkDigest 3 3]
    [mkNodeStateData 0 (mkDigest 0 0) [s2l "out/a.o"] []; mkNodeStateData 0 (mkDigest 0 0) [s2l "out/old/dir/b.o"] [s2l "out/x.map"]].
End DemoStale.

Lemma stale_outputs_exact_witness :
  (exists paths, stale_paths false kUnix junk_e junk_d DemoStale.dag DemoStale.state = OK paths /\
   NoDup (map (canon false) paths) /\
   (forall k, k ∈ map (canon false) paths <-> k ∈ map (canon false) (doomed false kUnix DemoStale.dag DemoStale.state)) /\
   (forall p, p ∈ paths -> p ∈ doomed false kUnix DemoStale.dag DemoStale.state) /\
   StronglySorted (fun a b => strlen b <= strlen a) paths) /\
  doomed false kUnix DemoStale.dag DemoStale.state = [s2l "out/old/dir/b.o"; s2l "out/old/dir"; s2l "out/old"; s2l "out"].
Proof.
  split; [|vm_compute; reflexivity]. apply stale_outputs_exact; [reflexivity|reflexivity|]. split.
  - repeat constructor; try (vm_compute; reflexivity); apply (bool_decide_eq_true_1 _); vm_compute; reflexivity.
  - repeat constructor; try (vm_compute; reflexivity); try (vm_compute; discriminate); apply (bool_decide_eq_true_1 _); vm_compute; reflexivity.
  - vm_compute. reflexivity.
  - vm_compute. reflexivity.
Defined.

Lemma clean_counts_failures_witness :
  DriverCleanOutputs (fun (w : list cstr) p => (w ++ [p], true)) (mkDriver (DriverOptionsInit 2) DemoStale.dag None [] [mkNodeState 0 0 kInitial 1 None 0 zero_digest] []) []
  = OK ([s2l "out/lib/x.a"], 0).
Proof. rewrite clean_counts_failures; [reflexivity|]. repeat constructor. eexists. reflexivity. Defined.
