(* ===== verification/JsonParse.v ===== *)
(** * The JSON parser

    JsonParse.cpp and JsonParse.hpp. The lexer works in place: the text is a
    NUL-terminated array, a string literal is decoded over its own bytes and the
    lexeme is the offset of the result, so a value the parser returns is a tree
    whose strings are offsets into the array it leaves behind. Numbers are read
    by [strtod]; what it reads is kept as the exact literal, before rounding to
    a double. *)

From S2P Require Import Prelude CType.

(** ** [strtod], C locale *)

(** [Finite neg mant base exp] is [mant * base ^ exp], negated when [neg]. *)
Inductive number : Type :=
| Finite (neg : bool) (mant : Z) (base : Z) (exp : Z)
| Infinite (neg : bool)
| NotANumber (neg : bool).

Definition digits_value (base : Z) (ds : cstr) : Z := fold_left (fun n c => base * n + xdigit c) ds 0.

(** [marker] introduces an exponent: e or p, an optional sign, digits. *)
Definition scan_exponent (marker : Z) (s : cstr) : Z * cstr :=
  match s with
  | c :: s1 =>
      if tolower c =? marker then
        let '(neg, s2) :=
          match s1 with
          | "-"%char :: s2 => (true, s2)
          | "+"%char :: s2 => (false, s2)
          | _ => (false, s1)
          end in
        let '(ds, s3) := span isdigit s2 in
        match ds with
        | [] => (0, s)
        | _ => (if neg then - digits_value 10 ds else digits_value 10 ds, s3)
        end
      else (0, s)
  | [] => (0, [])
  end.

(** Digits with an optional point; at least one digit. The digits and how many
    of them follow the point. *)
Definition scan_mantissa (p : ascii -> bool) (s : cstr) : option (cstr * Z * cstr) :=
  let '(ints, s1) := span p s in
  let '(fracs, s2) := match s1 with "."%char :: s1' => span p s1' | _ => ([], s1) end in
  match ints, fracs with
  | [], [] => None
  | _, [] => Some (ints, 0, match s1 with "."%char :: s1' => s1' | _ => s1 end)
  | _, _ => Some (ints ++ fracs, zlen fracs, s2)
  end.

Definition scan_decimal (neg : bool) (s : cstr) : option (number * cstr) :=
  match scan_mantissa isdigit s with
  | None => None
  | Some (ds, frac, s1) => let '(e, s2) := scan_exponent 101 s1 in Some (Finite neg (digits_value 10 ds) 10 (e - frac), s2)
  end.

Definition scan_hex (neg : bool) (s : cstr) : option (number * cstr) :=
  match scan_mantissa isxdigit s with
  | None => None
  | Some (ds, frac, s1) => let '(e, s2) := scan_exponent 112 s1 in Some (Finite neg (digits_value 16 ds) 2 (e - 4 * frac), s2)
  end.

(** The word at the head, up to case. *)
Fixpoint scan_word (w : cstr) (s : cstr) : option cstr :=
  match w, s with
  | [], _ => Some s
  | c :: w', d :: s' => if tolower d =? uchar c then scan_word w' s' else None
  | _, [] => None
  end.

(** [nan(chars)]. *)
Definition scan_nan_suffix (s : cstr) : cstr :=
  match s with
  | "("%char :: s1 =>
      match span (fun c => isalnum c || (uchar c =? 95)) s1 with
      | (_, ")"%char :: s2) => s2
      | _ => s
      end
  | _ => s
  end.

(** [strtod]: the number and the text after it, or nothing when no prefix is a
    number. *)
Definition strtod (s : cstr) : option (number * cstr) :=
  let '(_, s) := span isspace s in
  let '(neg, s) :=
    match s with
    | "-"%char :: s' => (true, s')
    | "+"%char :: s' => (false, s')
    | _ => (false, s)
    end in
  match scan_word "infinity" s with
  | Some s' => Some (Infinite neg, s')
  | None =>
  match scan_word "inf" s with
  | Some s' => Some (Infinite neg, s')
  | None =>
  match scan_word "nan" s with
  | Some s' => Some (NotANumber neg, scan_nan_suffix s')
  | None =>
  match scan_word "0x" s with
  | Some s' => match scan_hex neg s' with Some r => Some r | None => scan_decimal neg s end
  | None => scan_decimal neg s
  end end end end.

(** ** The lexer *)

Inductive JsonLexeme : Type :=
| LexString (offset : Z)
| LexNumber (n : number)
| LexValueSeparator
| LexNameSeparator
| LexBeginObject
| LexBeginArray
| LexEndObject
| LexEndArray
| LexBoolean (b : bool)
| LexNull
| LexEof
| LexError
| LexInvalid.

Record JsonLexerState : Type := mkLexer {
  jl_Buffer : cstr;
  jl_Cursor : Z;
  jl_LineNumber : Z;
  jl_Lexeme : JsonLexeme;
  jl_Error : option (Z * string) }.

Definition JsonLexerStateInit (buffer : cstr) : JsonLexerState := mkLexer buffer 0 1 LexInvalid None.

Definition with_cursor (c : Z) (s : JsonLexerState) : JsonLexerState :=
  mkLexer (jl_Buffer s) c (jl_LineNumber s) (jl_Lexeme s) (jl_Error s).
Definition with_lexeme (l : JsonLexeme) (s : JsonLexerState) : JsonLexerState :=
  mkLexer (jl_Buffer s) (jl_Cursor s) (jl_LineNumber s) l (jl_Error s).
Definition with_buffer (b : cstr) (s : JsonLexerState) : JsonLexerState :=
  mkLexer b (jl_Cursor s) (jl_LineNumber s) (jl_Lexeme s) (jl_Error s).

Fixpoint SkipWhitespace_loop (fuel : nat) (buffer : cstr) (ptr line : Z) : res (Z * Z) :=
  match fuel with
  | O => Err OutOfFuel
  | S fuel =>
      ch ← of_opt (buffer !!z ptr);
      if Ascii.eqb ch NUL then OK (ptr, line)
      else
        let line := if uchar ch =? 10 then line + 1 else line in
        if isspace ch then SkipWhitespace_loop fuel buffer (ptr + 1) line else OK (ptr, line)
  end.

Definition SkipWhitespace (state : JsonLexerState) : res JsonLexerState :=
  '(ptr, line) ← SkipWhitespace_loop (length (jl_Buffer state)) (jl_Buffer state) (jl_Cursor state) (jl_LineNumber state);
  OK (mkLexer (jl_Buffer state) ptr line (jl_Lexeme state) (jl_Error state)).

Definition JsonLexerError (state : JsonLexerState) (error : string) : JsonLexerState * JsonLexeme :=
  (mkLexer (jl_Buffer state) (jl_Cursor state) (jl_LineNumber state) (jl_Lexeme state) (Some (jl_LineNumber state, error)), LexError).

Definition GetNumberLexeme (state : JsonLexerState) : JsonLexerState * JsonLexeme :=
  let start := drop (Z.to_nat (jl_Cursor state)) (jl_Buffer state) in
  match strtod start with
  | Some (n, rest) => (with_cursor (jl_Cursor state + (zlen start - zlen rest)) state, LexNumber n)
  | None => JsonLexerError state "bad number"
  end.

(** The four digits of a [\u] escape: the code, or the error. *)
Fixpoint hex_escape (n : nat) (buffer : cstr) (rptr hex_code : Z) : res (Z * (Z + string)) :=
  match n with
  | O => OK (rptr, inl hex_code)
  | S n =>
      code ← of_opt (buffer !!z rptr);
      let rptr := rptr + 1 in
      if Ascii.eqb code NUL then OK (rptr, inr "end of file inside escape")
      else if isxdigit code then
        let lc := tolower code in
        let digit := if (97 <=? lc) && (lc <=? 102) then lc - 97 + 10 else lc - 48 in
        hex_escape n buffer rptr (Z.lor (u32 (Z.shiftl hex_code 4)) digit)
      else OK (rptr, inr "expected hex number in \u escape")
  end.

(** The character a one-letter escape stands for. *)
Definition simple_escape (next : ascii) : option ascii :=
  match next with
  | "\"%char => Some "\"%char
  | "034"%char => Some "034"%char
  | "/"%char => Some "/"%char
  | "b"%char => Some "008"%char
  | "f"%char => Some "012"%char
  | "n"%char => Some "010"%char
  | "r"%char => Some "013"%char
  | "t"%char => Some "009"%char
  | _ => None
  end.

(** The loop of [GetStringLexeme]: the array, and the read pointer after the
    closing quote or the error. *)
Fixpoint GetStringLexeme_loop (fuel : nat) (buffer : cstr) (rptr wptr : Z) : res (cstr * (Z + string)) :=
  match fuel with
  | O => Err OutOfFuel
  | S fuel =>
      ch ← of_opt (buffer !!z rptr);
      let rptr := rptr + 1 in
      if Ascii.eqb ch NUL then OK (buffer, inr "end of file inside string")
      else if Ascii.eqb ch "034"%char then
        buffer ← zwrite wptr NUL buffer;
        OK (buffer, inl rptr)
      else if Ascii.eqb ch "\"%char then
        next ← of_opt (buffer !!z rptr);
        let rptr := rptr + 1 in
        match simple_escape next with
        | Some c =>
            buffer ← zwrite wptr c buffer;
            GetStringLexeme_loop fuel buffer rptr (wptr + 1)
        | None =>
            if Ascii.eqb next "u"%char then
              '(rptr, code) ← hex_escape 4 buffer rptr 0;
              match code with
              | inr e => OK (buffer, inr e)
              | inl hex_code =>
                  if 127 <? hex_code then OK (buffer, inr "we currently only support ASCII")
                  else
                    buffer ← zwrite wptr (ascii_of_N (Z.to_N hex_code)) buffer;
                    GetStringLexeme_loop fuel buffer rptr (wptr + 1)
              end
            else OK (buffer, inr "unsupported escape code")
        end
      else
        buffer ← zwrite wptr ch buffer;
        GetStringLexeme_loop fuel buffer rptr (wptr + 1)
  end.

Definition GetStringLexeme (state : JsonLexerState) : res (JsonLexerState * JsonLexeme) :=
  let wptr := jl_Cursor state in
  '(buffer, r) ← GetStringLexeme_loop (length (jl_Buffer state)) (jl_Buffer state) (wptr + 1) wptr;
  let state := with_buffer buffer state in
  match r with
  | inr e => OK (JsonLexerError state e)
  | inl rptr => OK (with_cursor rptr state, LexString wptr)
  end.

(** The characters of a literal run up to the first that is not alphanumeric. *)
Definition GetLiteralLexeme (state : JsonLexerState) : JsonLexerState * JsonLexeme :=
  let rptr := drop (Z.to_nat (jl_Cursor state)) (jl_Buffer state) in
  let kwlen := zlen (span isalnum rptr).1 in
  let eptr := with_cursor (jl_Cursor state + kwlen) state in
  if (4 =? kwlen) && strneq 4 "true" rptr then (eptr, LexBoolean true)
  else if (4 =? kwlen) && strneq 4 "null" rptr then (eptr, LexNull)
  else if (5 =? kwlen) && strneq 5 "false" rptr then (eptr, LexBoolean false)
  else JsonLexerError state "invalid literal, expected one of false, true or null".

Definition JsonLexerFetchNext (state : JsonLexerState) : res (JsonLexerState * JsonLexeme) :=
  state ← SkipWhitespace state;
  ch ← of_opt (jl_Buffer state !!z jl_Cursor state);
  let next := with_cursor (jl_Cursor state + 1) state in
  if Ascii.eqb ch "-"%char || isdigit ch then OK (GetNumberLexeme state)
  else if Ascii.eqb ch "034"%char then GetStringLexeme state
  else if Ascii.eqb ch "{"%char then OK (next, LexBeginObject)
  else if Ascii.eqb ch "}"%char then OK (next, LexEndObject)
  else if Ascii.eqb ch "["%char then OK (next, LexBeginArray)
  else if Ascii.eqb ch "]"%char then OK (next, LexEndArray)
  else if Ascii.eqb ch ","%char then OK (next, LexValueSeparator)
  else if Ascii.eqb ch ":"%char then OK (next, LexNameSeparator)
  else if Ascii.eqb ch NUL then OK (state, LexEof)
  else OK (GetLiteralLexeme state).

Definition JsonLexerPeek (state : JsonLexerState) : res (JsonLexerState * JsonLexeme) :=
  match jl_Lexeme state with
  | LexInvalid => '(state, l) ← JsonLexerFetchNext state; OK (with_lexeme l state, l)
  | l => OK (state, l)
  end.

Definition JsonLexerNext (state : JsonLexerState) : res (JsonLexerState * JsonLexeme) :=
  match jl_Lexeme state with
  | LexInvalid => JsonLexerFetchNext state
  | l => OK (with_lexeme LexInvalid state, l)
  end.

Definition JsonLexerSkip (state : JsonLexerState) : res JsonLexerState :=
  match jl_Lexeme state with
  | LexInvalid => '(state, _) ← JsonLexerNext state; OK state
  | _ => OK (with_lexeme LexInvalid state)
  end.

(** ** Values *)

(** A value over a type of strings: offsets for the parser, C strings for the
    readers of its result. Names may repeat; [Find] takes the first. *)
Inductive json (S : Type) : Type :=
| JNull
| JBoolean (b : bool)
| JObject (members : list (S * json S))
| JArray (values : list (json S))
| JString (s : S)
| JNumber (n : number).
Arguments JNull {S}.
Arguments JBoolean {S}.
Arguments JObject {S}.
Arguments JArray {S}.
Arguments JString {S}.
Arguments JNumber {S}.

Definition AsObject {S} (v : json S) : option (list (S * json S)) := match v with JObject m => Some m | _ => None end.
Definition AsArray {S} (v : json S) : option (list (json S)) := match v with JArray l => Some l | _ => None end.
Definition AsString {S} (v : json S) : option S := match v with JString s => Some s | _ => None end.
Definition AsNumber {S} (v : json S) : option number := match v with JNumber n => Some n | _ => None end.
Definition AsBoolean {S} (v : json S) : option bool := match v with JBoolean b => Some b | _ => None end.

Definition GetNumber {S} (v : json S) : res number :=
  match AsNumber v with Some n => OK n | None => Err (CheckFailed "num") end.
Definition GetString {S} (v : json S) : res S :=
  match AsString v with Some s => OK s | None => Err (CheckFailed "str") end.
Definition GetBoolean {S} (v : json S) : res bool :=
  match AsBoolean v with Some b => OK b | None => Err (CheckFailed "b") end.

(** A null [AsArray] or [AsObject] is dereferenced. *)
Definition Elem {S} (v : json S) (index : Z) : res (json S) :=
  array ← of_opt (AsArray v);
  _ ← check (index <? zlen array) "index < array->m_Count";
  of_opt (array !!z index).

Fixpoint find_member {A} (members : list (cstr * A)) (key : cstr) : option A :=
  match members with
  | [] => None
  | (k, v) :: members' => if strcmp k key =? 0 then Some v else find_member members' key
  end.

Definition Find (v : json cstr) (key : cstr) : res (option (json cstr)) :=
  obj ← of_opt (AsObject v);
  OK (find_member obj key).

(** ** The parser *)

Record JsonState : Type := mkJson { js_Lexer : JsonLexerState; js_ErrorMessage : option (Z * string) }.

Definition with_lexer (l : JsonLexerState) (s : JsonState) : JsonState := mkJson l (js_ErrorMessage s).

(** [nullptr] with the message [line %d: %s]. *)
Definition JsonError {A} (state : JsonState) (error : string) : res (JsonState * option A) :=
  OK (mkJson (js_Lexer state) (Some (jl_LineNumber (js_Lexer state), error)), None).

Definition lex_next (state : JsonState) : res (JsonState * JsonLexeme) :=
  '(l, x) ← JsonLexerNext (js_Lexer state); OK (with_lexer l state, x).
Definition lex_peek (state : JsonState) : res (JsonState * JsonLexeme) :=
  '(l, x) ← JsonLexerPeek (js_Lexer state); OK (with_lexer l state, x).
Definition lex_skip (state : JsonState) : res JsonState :=
  l ← JsonLexerSkip (js_Lexer state); OK (with_lexer l state).

Section Parse.
Context (parse_value : JsonState -> res (JsonState * option (json Z))).

(** The loop of [JsonParseObject]; [members] are the pairs so far. *)
Fixpoint object_loop (fuel : nat) (state : JsonState) (members : list (Z * json Z)) (seen_value seen_comma : bool)
  : res (JsonState * option (json Z)) :=
  match fuel with
  | O => Err OutOfFuel
  | S fuel =>
      '(state, l) ← lex_next state;
      match l with
      | LexString name =>
          if seen_value && negb seen_comma then JsonError state "expected ','" else
          '(state, sep) ← lex_next state;
          match sep with
          | LexNameSeparator =>
              '(state, value) ← parse_value state;
              match value with
              | None => OK (state, None)
              | Some v => object_loop fuel state (members ++ [(name, v)]) true false
              end
          | _ => JsonError state "expected ':'"
          end
      | LexEndObject => OK (state, Some (JObject members))
      | LexValueSeparator =>
          if negb seen_value then JsonError state "expected key name"
          else if seen_comma then JsonError state "duplicate comma"
          else object_loop fuel state members false true
      | _ => JsonError state "expected object to continue"
      end
  end.

Definition JsonParseObject (fuel : nat) (state : JsonState) : res (JsonState * option (json Z)) :=
  '(state, l) ← lex_next state;
  match l with
  | LexBeginObject => object_loop fuel state [] false false
  | _ => JsonError state "expected '{'"
  end.

Fixpoint array_loop (fuel : nat) (state : JsonState) (values : list (json Z)) : res (JsonState * option (json Z)) :=
  match fuel with
  | O => Err OutOfFuel
  | S fuel =>
      '(state, l) ← lex_peek state;
      match l with
      | LexEndArray => state ← lex_skip state; OK (state, Some (JArray values))
      | _ =>
          let element (state : JsonState) :=
            '(state, value) ← parse_value state;
            match value with
            | None => OK (state, None)
            | Some v => array_loop fuel state (values ++ [v])
            end in
          if 0 <? zlen values then
            match l with
            | LexValueSeparator => state ← lex_skip state; element state
            | _ => JsonError state "expected ','"
            end
          else element state
      end
  end.

Definition JsonParseArray (fuel : nat) (state : JsonState) : res (JsonState * option (json Z)) :=
  '(state, l) ← lex_next state;
  match l with
  | LexBeginArray => array_loop fuel state []
  | _ => JsonError state "expected '['"
  end.
End Parse.

Fixpoint JsonParseValue (fuel : nat) (state : JsonState) : res (JsonState * option (json Z)) :=
  match fuel with
  | O => Err OutOfFuel
  | S fuel =>
      '(state, l) ← lex_peek state;
      match l with
      | LexBeginObject => JsonParseObject (JsonParseValue fuel) fuel state
      | LexBeginArray => JsonParseArray (JsonParseValue fuel) fuel state
      | LexString s => state ← lex_skip state; OK (state, Some (JString s))
      | LexNumber n => state ← lex_skip state; OK (state, Some (JNumber n))
      | LexBoolean b => state ← lex_skip state; OK (state, Some (JBoolean b))
      | LexNull => state ← lex_skip state; OK (state, Some JNull)
      | _ => JsonError state "invalid document"
      end
  end.

(** The parser never nests or loops more often than the text has characters.
    The result is the array as the lexer left it and the root or the message. *)
Definition JsonParse (buffer : cstr) : res (cstr * (json Z + option (Z * string))) :=
  '(state, root) ← JsonParseValue (S (length buffer)) (mkJson (JsonLexerStateInit buffer) None);
  match root with
  | None => OK (jl_Buffer (js_Lexer state), inr (js_ErrorMessage state))
  | Some v =>
      '(state, l) ← lex_next state;
      match l with
      | LexEof => OK (jl_Buffer (js_Lexer state), inl v)
      | _ =>
          '(state, _) ← JsonError (A := unit) state "data after document";
          OK (jl_Buffer (js_Lexer state), inr (js_ErrorMessage state))
      end
  end.

(** The C string at an offset of the array. *)
Fixpoint until_nul (s : cstr) : cstr :=
  match s with
  | c :: s' => if Ascii.eqb c NUL then [] else c :: until_nul s'
  | [] => []
  end.

Definition string_at (buffer : cstr) (offset : Z) : cstr := until_nul (drop (Z.to_nat offset) buffer).

(** The value with its strings read out of the array. *)
Fixpoint json_map {A B} (f : A -> B) (v : json A) : json B :=
  match v with
  | JNull => JNull
  | JBoolean b => JBoolean b
  | JObject m => JObject (map (fun '(k, x) => (f k, json_map f x)) m)
  | JArray l => JArray (map (json_map f) l)
  | JString s => JString (f s)
  | JNumber n => JNumber n
  end.

Definition parsed (r : res (cstr * (json Z + option (Z * string)))) : option (json cstr) :=
  match r with
  | OK (buffer, inl v) => Some (json_map (string_at buffer) v)
  | _ => None
  end.
