(* ===== verification/JsonThms.v ===== *)
(** * The JSON parser: memory safety and termination

    Whatever the text, the lexer stays inside its NUL-terminated array, decodes
    strings only over bytes it has read, and the parser ends. *)

From S2P Require Import Prelude CType JsonParse.

(** ** Reading an array from an index *)

Lemma at_drop (b : cstr) i c r : 0 <= i -> drop (Z.to_nat i) b = c :: r -> b !!z i = Some c /\ drop (Z.to_nat (i + 1)) b = r.
Proof.
  intros Hi E. split.
  - unfold zlookup. rewrite bool_decide_true by done. rewrite <- (Nat.add_0_r (Z.to_nat i)), <- lookup_drop, E. done.
  - replace (Z.to_nat (i + 1)) with (Z.to_nat i + 1)%nat by lia. by rewrite <- drop_drop, E.
Qed.

Lemma drop_insert_low {A} (b : list A) i j x : 0 <= i < j -> drop (Z.to_nat j) (zinsert i x b) = drop (Z.to_nat j) b.
Proof. intros. unfold zinsert. rewrite bool_decide_true by lia. apply drop_insert_lt. lia. Qed.

Lemma take_insert_high {A} (b : list A) i j x : 0 <= j <= i -> take (Z.to_nat j) (zinsert i x b) = take (Z.to_nat j) b.
Proof. intros. unfold zinsert. rewrite bool_decide_true by lia. apply take_insert_ge. lia. Qed.

Lemma drop_size {A} (b : list A) i r : 0 <= i -> r <> [] -> drop (Z.to_nat i) b = r -> zlen b = i + zlen r.
Proof.
  intros Hi Hr E. assert (El : length (drop (Z.to_nat i) b) = length r) by (by rewrite E). rewrite length_drop in El.
  destruct r; [done|]. rewrite length_cons in *. lia.
Qed.

(** ** The text still to be read *)

Record view (b : cstr) (i : Z) (rest : cstr) : Prop := {
  vw_pos : 0 <= i;
  vw_text : drop (Z.to_nat i) b = rest ++ [NUL];
  vw_ok : cstr_ok rest }.

Lemma view_size b i rest : view b i rest -> zlen b = i + zlen rest + 1.
Proof.
  intros [Hi E _]. rewrite (drop_size b i (rest ++ [NUL]) Hi) by (done || by destruct rest). rewrite length_app. cbn. lia.
Qed.

Lemma view_nil b i : view b i [] -> b !!z i = Some NUL.
Proof. intros [Hi E _]. by destruct (at_drop b i NUL [] Hi E). Qed.

Lemma view_cons b i c rest : view b i (c :: rest) -> b !!z i = Some c /\ c <> NUL /\ view b (i + 1) rest.
Proof.
  intros [Hi E Hok]. apply Forall_cons in Hok as [Hc Hok]. destruct (at_drop b i c (rest ++ [NUL]) Hi E).
  split_and!; try done. split; [lia|done|done].
Qed.

Lemma view_write b i rest w c : view b i rest -> 0 <= w < i -> zwrite w c b = OK (zinsert w c b) /\ view (zinsert w c b) i rest.
Proof.
  intros Hv Hw. pose proof (view_size _ _ _ Hv). destruct Hv as [Hi E Hok]. split; [apply zwrite_ok; lia|].
  split; [done|by rewrite drop_insert_low|done].
Qed.

Lemma nul_eqb c : c <> NUL -> Ascii.eqb c NUL = false.
Proof. intros. by apply Ascii.eqb_neq. Qed.

(** ** Whitespace *)

Lemma skip_loop b rest : forall i line fuel, view b i rest -> (length rest < fuel)%nat ->
  exists line', SkipWhitespace_loop fuel b i line = OK (i + zlen (span isspace rest).1, line') /\
  view b (i + zlen (span isspace rest).1) (span isspace rest).2 /\ rest = (span isspace rest).1 ++ (span isspace rest).2.
Proof.
  induction rest as [|c rest IH]; intros i line fuel Hv Hf; destruct fuel as [|fuel]; try (cbn in Hf; lia); cbn [SkipWhitespace_loop].
  - rewrite (view_nil _ _ Hv). cbn. rewrite Z.add_0_r. eauto.
  - destruct (view_cons _ _ _ _ Hv) as (-> & Hc & Hv'). cbn [of_opt mbind res_bind]. rewrite nul_eqb by done. cbn [span].
    destruct (isspace c) eqn:Es; cycle 1.
    + cbn [fst snd length]. rewrite Z.add_0_r. eauto.
    + destruct (IH (i + 1) (if uchar c =? 10 then line + 1 else line) fuel Hv') as (line' & -> & Hv2 & E); [cbn in Hf; lia|].
      destruct (span isspace rest) as [a r]. cbn [fst snd length] in *. exists line'.
      replace (i + Z.of_nat (S (length a))) with (i + 1 + zlen a) by lia. split_and!; try done. by rewrite E.
Qed.

Lemma span_stop p s : match (span p s).2 with c :: _ => p c = false | [] => True end.
Proof.
  induction s as [|c s IH]; cbn; [done|]. destruct (p c) eqn:E; [|done]. destruct (span p s). done.
Qed.

Lemma skip_ok s rest : view (jl_Buffer s) (jl_Cursor s) rest ->
  exists cursor line rest', SkipWhitespace s = OK (mkLexer (jl_Buffer s) cursor line (jl_Lexeme s) (jl_Error s)) /\
  view (jl_Buffer s) cursor rest' /\ jl_Cursor s <= cursor /\ rest' = (span isspace rest).2 /\ (length rest' <= length rest)%nat.
Proof.
  intros Hv. unfold SkipWhitespace. pose proof (view_size _ _ _ Hv).
  destruct (skip_loop _ _ _ (jl_LineNumber s) (length (jl_Buffer s)) Hv) as (line & -> & Hv' & E).
  { pose proof (vw_pos _ _ _ Hv). lia. }
  cbn [mbind res_bind]. do 3 eexists. split; [done|]. split_and!; [done|lia|done|]. rewrite E at 2. rewrite length_app. lia.
Qed.

(** ** Strings *)

Lemma hex_escape_total b rest : forall n i code, view b i rest ->
  exists i' r, hex_escape n b i code = OK (i', r) /\
  match r with inl _ => exists rest', view b i' rest' /\ (length rest' <= length rest)%nat /\ i <= i' | inr _ => True end.
Proof.
  intros n. revert rest. induction n as [|n IH]; intros rest i code Hv; cbn [hex_escape].
  { exists i, (inl code). split; [done|]. exists rest. split_and!; [done|lia|lia]. }
  destruct rest as [|c rest].
  { rewrite (view_nil _ _ Hv). cbn. by do 2 eexists. }
  destruct (view_cons _ _ _ _ Hv) as (-> & Hc & Hv'). cbn [of_opt mbind res_bind]. rewrite nul_eqb by done.
  destruct (isxdigit c); [|by do 2 eexists].
  edestruct (IH rest) as (i' & r & -> & Hr); [exact Hv'|]. exists i', r. split; [done|]. destruct r; [|done].
  destruct Hr as (rest' & ? & ? & ?). exists rest'. split_and!; [done|cbn; lia|lia].
Qed.

(** The loop reads ahead of what it writes. *)
Lemma string_loop_total rest : forall fuel b i w, view b i rest -> 0 <= w < i -> (length rest < fuel)%nat ->
  exists b' r, GetStringLexeme_loop fuel b i w = OK (b', r) /\ take (Z.to_nat w) b' = take (Z.to_nat w) b /\ length b' = length b /\
  match r with inl i' => exists rest', view b' i' rest' /\ (length rest' < length rest)%nat /\ i <= i' | inr _ => True end.
Proof.
  induction rest as [rest IH] using (induction_ltof1 _ (@length ascii)); unfold ltof in IH. intros fuel b i w Hv Hw Hf.
  destruct fuel as [|fuel]; [lia|]. cbn [GetStringLexeme_loop].
  destruct rest as [|c rest]; [rewrite (view_nil _ _ Hv); cbn; do 2 eexists; by split_and!|]. cbn [length] in *.
  destruct (view_cons _ _ _ _ Hv) as (-> & Hc & Hv'). cbn [of_opt mbind res_bind]. rewrite nul_eqb by done.
  (* write a character and go on *)
  assert (Hgo : forall rest' j x, view b j rest' -> (length rest' <= length rest)%nat -> i + 1 <= j ->
    exists b' r, (b0 ← zwrite w x b; GetStringLexeme_loop fuel b0 j (w + 1)) = OK (b', r) /\ take (Z.to_nat w) b' = take (Z.to_nat w) b /\ length b' = length b /\
    match r with inl i' => exists rest'', view b' i' rest'' /\ (length rest'' < S (length rest))%nat /\ i <= i' | inr _ => True end).
  { intros rest' j x Hj Hl Hij. destruct (view_write b j rest' w x Hj) as [-> Hv2]; [lia|]. cbn [mbind res_bind].
    destruct (IH rest' ltac:(lia) fuel (zinsert w x b) j (w + 1) Hv2) as (b' & r & -> & Ht & Hlb & Hr); [lia|lia|].
    exists b', r. split_and!; [done| |by rewrite Hlb, zinsert_length|].
    - assert (Et : take (Z.to_nat w) (take (Z.to_nat (w + 1)) b') = take (Z.to_nat w) (take (Z.to_nat (w + 1)) (zinsert w x b))) by (by rewrite Ht).
      rewrite !take_take in Et. replace (Z.to_nat w `min` Z.to_nat (w + 1))%nat with (Z.to_nat w) in Et by lia.
      rewrite Et. apply take_insert_high. lia.
    - destruct r; [|done]. destruct Hr as (r2 & ? & ? & ?). exists r2. split_and!; [done|lia|lia]. }
  destruct (Ascii.eqb c _).
  { destruct (view_write b (i + 1) rest w NUL Hv') as [-> Hv2]; [lia|]. cbn [mbind res_bind]. do 2 eexists. split; [done|].
    split_and!; [apply take_insert_high; lia|apply zinsert_length|]. exists rest. split_and!; [done|lia|lia]. }
  destruct (Ascii.eqb c _); [|by apply (Hgo rest)].
  destruct rest as [|d rest].
  { rewrite (view_nil _ _ Hv'). cbn. do 2 eexists; by split_and!. }
  destruct (view_cons _ _ _ _ Hv') as (-> & Hd & Hv2). cbn [of_opt mbind res_bind].
  destruct (simple_escape d); [apply (Hgo rest); [done|cbn; lia|lia]|].
  destruct (Ascii.eqb d "u"%char); [|do 2 eexists; by split_and!].
  destruct (hex_escape_total b rest 4 (i + 1 + 1) 0 Hv2) as (i' & r & -> & Hr). cbn [mbind res_bind].
  destruct r as [code|e]; [|do 2 eexists; by split_and!]. destruct Hr as (rest' & Hv3 & Hl & Hi). destruct (127 <? code); [do 2 eexists; by split_and!|].
  apply (Hgo rest'); [done|cbn; lia|lia].
Qed.

(** ** Numbers *)

(** [r] is what is left of [s] after some characters, none of them NUL. *)
Definition consumes (s r : cstr) : Prop := exists p, s = p ++ r /\ cstr_ok p.
Definition progresses (s r : cstr) : Prop := exists c p, s = c :: p ++ r /\ cstr_ok (c :: p).

Lemma consumes_refl s : consumes s s.
Proof. exists []. split; [done|constructor]. Qed.

Lemma consumes_cons c s r : c <> NUL -> consumes s r -> consumes (c :: s) r.
Proof. intros Hc (p & -> & Hp). exists (c :: p). split; [done|by constructor]. Qed.

Lemma consumes_trans s r t : consumes s r -> consumes r t -> consumes s t.
Proof. intros (p & -> & Hp) (q & -> & Hq). exists (p ++ q). split; [by rewrite app_assoc|by apply Forall_app]. Qed.

Lemma consumes_progresses s r t : consumes s r -> progresses r t -> progresses s t.
Proof.
  intros (p & -> & Hp) (c & q & -> & Hq). destruct p as [|d p]; [by exists c, q|]. exists d, (p ++ c :: q).
  rewrite <- app_assoc. split; [done|]. change (cstr_ok ((d :: p) ++ c :: q)). by apply Forall_app.
Qed.

Lemma progresses_consumes s r t : progresses s r -> consumes r t -> progresses s t.
Proof.
  intros (c & q & -> & Hq) (p & -> & Hp). exists c, (q ++ p). rewrite <- app_assoc. split; [done|]. apply Forall_cons in Hq as [? ?].
  constructor; [done|by apply Forall_app].
Qed.

#[local] Hint Resolve consumes_refl consumes_cons consumes_trans consumes_progresses progresses_consumes : core.

Lemma span_consumes p s : p NUL = false -> consumes s (span p s).2.
Proof.
  intros Hp. induction s as [|c s IH]; cbn; [auto|]. destruct (p c) eqn:E; [|auto]. destruct (span p s) as [a b]. cbn in *.
  apply consumes_cons; [congruence|done].
Qed.

Lemma span_progresses p s c a : p NUL = false -> (span p s).1 = c :: a -> progresses s (span p s).2.
Proof.
  destruct s as [|d s]; cbn; [done|]. intros Hp. destruct (p d) eqn:E; [|done]. pose proof (span_consumes p s Hp) as (q & Eq & Hq).
  destruct (span p s) as [a' b]. cbn in *. intros _. exists d, q. split; [by rewrite Eq|]. constructor; [congruence|done].
Qed.

Lemma scan_exponent_consumes m s : 0 < m -> consumes s (scan_exponent m s).2.
Proof.
  intros Hm. destruct s as [|c s]; [cbn; auto|]. cbn [scan_exponent]. destruct (Z.eqb_spec (tolower c) m) as [E|]; [|cbn; auto].
  assert (Hc : c <> NUL) by (intros ->; change (tolower NUL) with 0 in E; lia). set (sg := match s with "-"%char :: s2 => (true, s2) | "+"%char :: s2 => (false, s2) | _ => (false, s) end).
  assert (Hs : consumes s sg.2).
  { unfold sg. repeat case_match; cbn; auto. }
  destruct sg as [neg s2]. cbn [snd] in Hs. pose proof (span_consumes isdigit s2 eq_refl) as Hd. destruct (span isdigit s2) as [ds s3].
  destruct ds; cbn [snd] in *; [auto|]. apply consumes_cons; [done|]. by eapply consumes_trans.
Qed.

Lemma scan_mantissa_progresses p s ds f r : p NUL = false -> scan_mantissa p s = Some (ds, f, r) -> progresses s r.
Proof.
  intros Hp. unfold scan_mantissa. pose proof (span_consumes p s Hp) as Hc. pose proof (fun c a => span_progresses p s c a Hp) as Hpr.
  destruct (span p s) as [ints s1]. cbn [fst snd] in *.
  assert (Hdot : forall s1', s1 = "."%char :: s1' -> consumes s1 (span p s1').2 /\ consumes s1 s1').
  { intros s1' ->. split; (apply consumes_cons; [discriminate|]); [by apply span_consumes|auto]. }
  set (fr := match s1 with "."%char :: s1' => span p s1' | _ => ([], s1) end).
  destruct fr as [fracs s2] eqn:Ef. unfold fr in Ef.
  destruct ints as [|i ints].
  - destruct fracs as [|f0 fracs]; [done|]. intros [= <- <- <-].
    destruct s1 as [|c s1']; [done|]. assert (c = "."%char /\ span p s1' = (f0 :: fracs, s2)) as [-> Es] by (repeat case_match; simplify_eq; done).
    eapply consumes_progresses; [exact Hc|]. pose proof (span_progresses p s1' f0 fracs Hp) as (d & q & E & Hq); [by rewrite Es|].
    rewrite Es in E. cbn [snd] in E. exists "."%char, (d :: q). split; [by rewrite E|]. constructor; [discriminate|done].
  - specialize (Hpr i ints eq_refl). destruct fracs as [|f0 fracs]; intros [= <- <- <-].
    + eapply progresses_consumes; [exact Hpr|]. repeat case_match; auto.
    + eapply progresses_consumes; [exact Hpr|]. destruct s1 as [|c s1']; [done|].
      assert (c = "."%char /\ span p s1' = (f0 :: fracs, s2)) as [-> Es] by (repeat case_match; simplify_eq; done).
      destruct (Hdot s1' eq_refl) as [Hx _]. by rewrite Es in Hx.
Qed.

Lemma scan_decimal_progresses neg s n r : scan_decimal neg s = Some (n, r) -> progresses s r.
Proof.
  unfold scan_decimal. destruct (scan_mantissa isdigit s) as [[[ds f] s1]|] eqn:E; [|done]. apply scan_mantissa_progresses in E; [|done].
  pose proof (scan_exponent_consumes 101 s1 ltac:(lia)). destruct (scan_exponent 101 s1). intros [= <- <-]. eauto.
Qed.

Lemma scan_hex_progresses neg s n r : scan_hex neg s = Some (n, r) -> progresses s r.
Proof.
  unfold scan_hex. destruct (scan_mantissa isxdigit s) as [[[ds f] s1]|] eqn:E; [|done]. apply scan_mantissa_progresses in E; [|done].
  pose proof (scan_exponent_consumes 112 s1 ltac:(lia)). destruct (scan_exponent 112 s1). intros [= <- <-]. eauto.
Qed.

Lemma scan_word_consumes w s r : cstr_ok w -> scan_word w s = Some r -> consumes s r.
Proof.
  intros Hw. revert s. induction Hw as [|c w Hc Hw IH]; intros s; cbn; [intros [= <-]; auto|]. destruct s as [|d s]; [done|].
  destruct (Z.eqb_spec (tolower d) (uchar c)) as [E|]; [|done]. intros Hr. apply consumes_cons; [|auto].
  intros ->. apply uchar_pos in Hc. change (tolower NUL) with 0 in E. lia.
Qed.

Lemma scan_word_progresses c w s r : cstr_ok (c :: w) -> scan_word (c :: w) s = Some r -> progresses s r.
Proof.
  intros Hw. apply Forall_cons in Hw as [Hc Hw]. cbn. destruct s as [|d s]; [done|]. destruct (Z.eqb_spec (tolower d) (uchar c)) as [E|]; [|done].
  intros (p & -> & Hp)%scan_word_consumes; [|done]. exists d, p. split; [done|]. constructor; [|done]. intros ->. apply uchar_pos in Hc. change (tolower NUL) with 0 in E. lia.
Qed.

Lemma scan_nan_consumes s : consumes s (scan_nan_suffix s).
Proof.
  unfold scan_nan_suffix. destruct s as [|c s]; [auto|].
  destruct (decide (c = "("%char)) as [->|Hn]; [|repeat case_match; simplify_eq; auto; done].
  pose proof (span_consumes (fun c => isalnum c || (uchar c =? 95)) s eq_refl) as Hc.
  destruct (span _ s) as [a b]. cbn [snd] in Hc. destruct b as [|d b]; [auto|].
  destruct (decide (d = ")"%char)) as [->|Hn]; [|repeat case_match; simplify_eq; auto; done].
  apply consumes_cons; [discriminate|]. eapply consumes_trans; [exact Hc|]. apply consumes_cons; [discriminate|auto].
Qed.

Lemma strtod_progresses s n r : strtod s = Some (n, r) -> progresses s r.
Proof.
  unfold strtod. pose proof (span_consumes isspace s eq_refl) as Hs. destruct (span isspace s) as [ws s0]. cbn [snd] in Hs.
  set (sg := match s0 with "-"%char :: s' => (true, s') | "+"%char :: s' => (false, s') | _ => (false, s0) end).
  assert (Hsg : consumes s0 sg.2).
  { unfold sg. repeat case_match; cbn; auto. }
  destruct sg as [neg s1]. cbn [snd] in Hsg. assert (Hall : consumes s s1) by eauto. intros E. eapply consumes_progresses; [exact Hall|].
  destruct (scan_word "infinity" s1) eqn:E1; [injection E as <- <-; eapply scan_word_progresses, E1; repeat constructor; discriminate|].
  destruct (scan_word "inf" s1) eqn:E2; [injection E as <- <-; eapply scan_word_progresses, E2; repeat constructor; discriminate|].
  destruct (scan_word "nan" s1) eqn:E3.
  { injection E as <- <-. eapply progresses_consumes; [|apply scan_nan_consumes]. eapply scan_word_progresses, E3. repeat constructor; discriminate. }
  destruct (scan_word "0x" s1) eqn:E4; [|by eapply scan_decimal_progresses].
  destruct (scan_hex neg l) as [[n' r']|] eqn:E5; [|by eapply scan_decimal_progresses]. injection E as <- <-.
  eapply consumes_progresses; [eapply scan_word_consumes, E4; repeat constructor; discriminate|by eapply scan_hex_progresses].
Qed.

(** What is left of a text that ends in NUL ends in NUL. *)
Lemma consumes_view b i rest r : view b i rest -> consumes (rest ++ [NUL]) r ->
  exists rest', r = rest' ++ [NUL] /\ view b (i + (zlen (rest ++ [NUL]) - zlen r)) rest' /\ zlen r <= zlen (rest ++ [NUL]).
Proof.
  intros Hv (p & E & Hp). revert i rest Hv E. induction Hp as [|c p Hc Hp IH]; intros i rest Hv E.
  - cbn in E. subst r. exists rest. rewrite Z.sub_diag, Z.add_0_r. split_and!; [done|done|lia].
  - destruct rest as [|d rest]; cbn in E; [injection E as E1 _; by destruct Hc|]. injection E as -> E.
    destruct (view_cons _ _ _ _ Hv) as (_ & _ & Hv'). destruct (IH (i + 1) rest Hv' E) as (rest' & -> & Hv2 & Hl). exists rest'.
    cbn [app]. rewrite length_cons. split_and!; [done| |lia]. by replace (i + (Z.of_nat (S (length (rest ++ [NUL]))) - zlen (rest' ++ [NUL])))
      with (i + 1 + (zlen (rest ++ [NUL]) - zlen (rest' ++ [NUL]))) by lia.
Qed.

(** ** Tokens *)

(** A token was fetched: nothing below the cursor has changed, and but for an
    error the text ahead is as before, shorter unless at its end. *)
Record fetched (s : JsonLexerState) (rest : cstr) (s' : JsonLexerState) (l : JsonLexeme) (rest' : cstr) : Prop := {
  ft_view : view (jl_Buffer s') (jl_Cursor s') rest';
  ft_pos : jl_Cursor s <= jl_Cursor s';
  ft_shorter : (length rest' <= length rest)%nat;
  ft_progress : l = LexEof \/ (length rest' < length rest)%nat;
  ft_below : take (Z.to_nat (jl_Cursor s)) (jl_Buffer s') = take (Z.to_nat (jl_Cursor s)) (jl_Buffer s);
  ft_size : length (jl_Buffer s') = length (jl_Buffer s);
  ft_lexeme : jl_Lexeme s' = jl_Lexeme s }.

Lemma number_fetched s rest : view (jl_Buffer s) (jl_Cursor s) rest ->
  (GetNumberLexeme s).2 = LexError \/ exists n rest', (GetNumberLexeme s).2 = LexNumber n /\ fetched s rest (GetNumberLexeme s).1 (LexNumber n) rest'.
Proof.
  intros Hv. unfold GetNumberLexeme. rewrite (vw_text _ _ _ Hv). destruct (strtod (rest ++ [NUL])) as [[n r]|] eqn:E; [|by left].
  right. apply strtod_progresses in E as (c & p & E & Hp). destruct (consumes_view _ _ _ r Hv) as (rest' & -> & Hv' & Hl).
  { exists (c :: p). split; [done|done]. }
  exists n, rest'. split; [done|]. assert (Hlen : (length rest = S (length p + length rest'))%nat).
  { assert (El : length (rest ++ [NUL]) = length (c :: p ++ rest' ++ [NUL])) by (by rewrite E). cbn in El. rewrite !length_app in El. cbn in El. lia. }
  split; cbn [fst jl_Buffer jl_Cursor with_cursor jl_Lexeme]; try done; lia || (right; lia).
Qed.

Lemma literal_fetched s rest : view (jl_Buffer s) (jl_Cursor s) rest ->
  (GetLiteralLexeme s).2 = LexError \/
  exists l rest', (GetLiteralLexeme s).2 = l /\ (l = LexNull \/ exists b, l = LexBoolean b) /\ fetched s rest (GetLiteralLexeme s).1 l rest'.
Proof.
  intros Hv. unfold GetLiteralLexeme. rewrite (vw_text _ _ _ Hv). set (k := zlen (span isalnum (rest ++ [NUL])).1).
  assert (Hgo : 0 < k -> exists rest', (length rest' < length rest)%nat /\ view (jl_Buffer s) (jl_Cursor s + k) rest').
  { intros Hk. destruct (consumes_view _ _ _ (span isalnum (rest ++ [NUL])).2 Hv) as (rest' & E & Hv' & Hl); [by apply span_consumes|].
    assert (Ek : k = zlen (rest ++ [NUL]) - zlen (span isalnum (rest ++ [NUL])).2).
    { unfold k. assert (Hx : forall t, (length (span isalnum t).1 + length (span isalnum t).2 = length t)%nat); [|specialize (Hx (rest ++ [NUL])); lia].
      induction t as [|c t IH]; cbn; [done|]. destruct (isalnum c); [|done]. destruct (span isalnum t). cbn in *. lia. }
    exists rest'. rewrite Ek. split; [|done]. rewrite E in Ek. rewrite !length_app in Ek. cbn in Ek. lia. }
  assert (Hf : forall l, 0 < k -> l <> LexEof -> exists rest', fetched s rest (with_cursor (jl_Cursor s + k) s) l rest').
  { intros l Hk Hl. destruct (Hgo Hk) as (rest' & Hlt & Hv'). exists rest'.
    split; cbn [jl_Buffer jl_Cursor with_cursor jl_Lexeme]; try done; try lia. }
  destruct ((4 =? k) && _) eqn:E1; [|destruct ((4 =? k) && strneq 4 "null" _) eqn:E2; [|destruct ((5 =? k) && _) eqn:E3; [|by left]]]; right.
  - apply andb_true_iff in E1 as [Ek%Z.eqb_eq _]. destruct (Hf (LexBoolean true)) as [rest' Hr]; [lia|done|]. exists (LexBoolean true), rest'. eauto.
  - apply andb_true_iff in E2 as [Ek%Z.eqb_eq _]. destruct (Hf LexNull) as [rest' Hr]; [lia|done|]. exists LexNull, rest'. eauto.
  - apply andb_true_iff in E3 as [Ek%Z.eqb_eq _]. destruct (Hf (LexBoolean false)) as [rest' Hr]; [lia|done|]. exists (LexBoolean false), rest'. eauto.
Qed.

Lemma string_fetched s rest : view (jl_Buffer s) (jl_Cursor s) ("034"%char :: rest) ->
  exists s' l, GetStringLexeme s = OK (s', l) /\
  (l = LexError \/ l = LexString (jl_Cursor s) /\ exists rest', fetched s ("034"%char :: rest) s' l rest').
Proof.
  intros Hv. destruct (view_cons _ _ _ _ Hv) as (_ & _ & Hv'). pose proof (view_size _ _ _ Hv) as Hz. pose proof (vw_pos _ _ _ Hv).
  unfold GetStringLexeme. destruct (string_loop_total rest (length (jl_Buffer s)) (jl_Buffer s) (jl_Cursor s + 1) (jl_Cursor s) Hv') as (b' & r & -> & Ht & Hl & Hr);
    [lia|rewrite length_cons in Hz; lia|].
  cbn [mbind res_bind]. destruct r as [i|e]; [|by do 2 eexists; split; [done|left]]. destruct Hr as (rest' & Hv2 & Hlt & Hi).
  do 2 eexists. split; [done|]. right. split; [done|]. exists rest'.
  split; cbn [jl_Buffer jl_Cursor with_cursor with_buffer jl_Lexeme]; try done; try lia; [rewrite length_cons; lia|]. right. rewrite length_cons. lia.
Qed.

Lemma fetch_total s rest : view (jl_Buffer s) (jl_Cursor s) rest ->
  exists s' l, JsonLexerFetchNext s = OK (s', l) /\ l <> LexInvalid /\ (l = LexError \/ exists rest', fetched s rest s' l rest').
Proof.
  intros Hv0. unfold JsonLexerFetchNext. destruct (skip_ok s rest Hv0) as (i & line & r & -> & Hv & Hi & _ & Hlen). cbn [mbind res_bind jl_Buffer jl_Cursor].
  set (s0 := mkLexer (jl_Buffer s) i line (jl_Lexeme s) (jl_Error s)). pose proof (vw_pos _ _ _ Hv0).
  assert (Hlift : forall s' l rest', fetched s0 r s' l rest' -> fetched s rest s' l rest').
  { intros s' l rest' [V P S1 S2 B Z L]. split; try done; cbn [jl_Buffer jl_Cursor s0] in *; [lia|lia|destruct S2; [by left|right; lia]|].
    assert (Et : take (Z.to_nat (jl_Cursor s)) (take (Z.to_nat i) (jl_Buffer s')) = take (Z.to_nat (jl_Cursor s)) (take (Z.to_nat i) (jl_Buffer s))) by (by rewrite B).
    rewrite !take_take in Et. by replace (Z.to_nat (jl_Cursor s) `min` Z.to_nat i)%nat with (Z.to_nat (jl_Cursor s)) in Et by lia. }
  assert (Hstep : forall c r' l, r = c :: r' -> l <> LexInvalid -> exists s' l', OK (with_cursor (i + 1) s0, l) = OK (s', l') /\ l' <> LexInvalid /\
    (l' = LexError \/ exists rest', fetched s rest s' l' rest')).
  { intros c r' l -> Hl. do 2 eexists. split; [done|]. split; [done|]. right. exists r'. apply Hlift. destruct (view_cons _ _ _ _ Hv) as (_ & _ & Hv').
    split; cbn [jl_Buffer jl_Cursor with_cursor jl_Lexeme s0]; try done; try lia; [cbn; lia|right; cbn; lia]. }
  assert (Hnum : exists s' l, OK (GetNumberLexeme s0) = OK (s', l) /\ l <> LexInvalid /\ (l = LexError \/ exists rest', fetched s rest s' l rest')).
  { pose proof (number_fetched s0 r Hv) as Hn. destruct (GetNumberLexeme s0) as [s' l]. cbn [fst snd] in Hn. do 2 eexists. split; [done|].
    destruct Hn as [->|(n & rest' & -> & Hf)]; [split; [done|by left]|]. split; [done|]. right. eauto. }
  assert (Hlit : exists s' l, OK (GetLiteralLexeme s0) = OK (s', l) /\ l <> LexInvalid /\ (l = LexError \/ exists rest', fetched s rest s' l rest')).
  { pose proof (literal_fetched s0 r Hv) as Hn. destruct (GetLiteralLexeme s0) as [s' l]. cbn [fst snd] in Hn. do 2 eexists. split; [done|].
    destruct Hn as [->|(l' & rest' & -> & Hl' & Hf)]; [split; [done|by left]|]. split; [destruct Hl' as [->|[? ->]]; done|]. right. eauto. }
  destruct r as [|c r].
  - rewrite (view_nil _ _ Hv). cbn -[isdigit]. change (isdigit NUL) with false. cbn iota. do 2 eexists. split; [done|]. split; [done|]. right.
    exists []. apply Hlift. split; cbn [jl_Buffer jl_Cursor s0 jl_Lexeme]; try done. by left.
  - destruct (view_cons _ _ _ _ Hv) as (-> & Hc & Hv'). cbn [of_opt mbind res_bind].
    destruct (Ascii.eqb c "-"%char || isdigit c); [done|].
    destruct (Ascii.eqb_spec c "034"%char) as [->|].
    { destruct (string_fetched s0 r Hv) as (s' & l & -> & Hs). do 2 eexists. split; [done|]. destruct Hs as [->|[-> [rest' Hf]]]; [split; [done|by left]|].
      split; [done|]. right. eauto. }
    do 6 (match goal with |- context [Ascii.eqb c ?x] => destruct (Ascii.eqb c x); [by eapply Hstep|] end).
    rewrite nul_eqb by done. done.
Qed.

(** ** The parser ends *)

Definition stopped (l : JsonLexeme) : bool := match l with LexError | LexEof => true | _ => false end.
Definition pend (s : JsonLexerState) : nat := match jl_Lexeme s with LexInvalid => 0 | _ => 1 end.

(** No token is pending and at most [n] characters are ahead. *)
Definition ahead (s : JsonState) (n : nat) : Prop :=
  jl_Lexeme (js_Lexer s) = LexInvalid /\
  exists rest, view (jl_Buffer (js_Lexer s)) (jl_Cursor (js_Lexer s)) rest /\ (length rest <= n)%nat.

(** A pending token counts as a character; at the end or after an error there is
    nothing to count. *)
Definition ready (s : JsonState) (n : nat) : Prop :=
  stopped (jl_Lexeme (js_Lexer s)) = true \/
  exists rest, view (jl_Buffer (js_Lexer s)) (jl_Cursor (js_Lexer s)) rest /\ (length rest + pend (js_Lexer s) <= n)%nat.

Lemma ahead_ready s n : ahead s n -> ready s n.
Proof. intros [E (rest & Hv & Hl)]. right. exists rest. split; [done|]. unfold pend. rewrite E. lia. Qed.

Lemma ahead_mono s n m : ahead s n -> (n <= m)%nat -> ahead s m.
Proof. intros [E (rest & Hv & Hl)] ?. split; [done|]. exists rest. split; [done|lia]. Qed.

Lemma next_total s n : ready s n -> exists s' l, lex_next s = OK (s', l) /\ (stopped l = true \/ (0 < n)%nat /\ ahead s' (pred n)).
Proof.
  intros Hr. unfold lex_next, JsonLexerNext. destruct (jl_Lexeme (js_Lexer s)) eqn:El;
    try (do 2 eexists; split; [reflexivity|]; by left);
    try (do 2 eexists; split; [reflexivity|]; unfold ready in Hr; rewrite El in Hr; destruct Hr as [|(rest & Hv & Hl)]; [done|];
      unfold pend in Hl; rewrite El in Hl; right; split; [lia|]; split; [done|]; exists rest; split; [exact Hv|lia]).
  unfold ready in Hr. rewrite El in Hr. destruct Hr as [|(rest & Hv & Hl)]; [done|]. unfold pend in Hl. rewrite El in Hl.
  destruct (fetch_total _ _ Hv) as (s' & l & -> & Hl' & Hf). cbn [mbind res_bind]. do 2 eexists. split; [done|].
  destruct Hf as [->|(rest' & Hf)]; [by left|]. destruct (ft_progress _ _ _ _ _ Hf) as [->|Hlt]; [by left|]. right. split; [lia|].
  split; [cbn; by rewrite (ft_lexeme _ _ _ _ _ Hf)|]. exists rest'. split; [apply Hf|lia].
Qed.

Lemma peek_total s n : ready s n -> exists s' l, lex_peek s = OK (s', l) /\ jl_Lexeme (js_Lexer s') = l /\ l <> LexInvalid /\ ready s' n.
Proof.
  intros Hr. unfold lex_peek, JsonLexerPeek. destruct (jl_Lexeme (js_Lexer s)) eqn:El;
    try (cbn [mbind res_bind]; do 2 eexists; split; [done|]; split_and!; [done|done|exact Hr]).
  unfold ready in Hr. rewrite El in Hr. destruct Hr as [|(rest & Hv & Hl)]; [done|]. unfold pend in Hl. rewrite El in Hl.
  destruct (fetch_total _ _ Hv) as (s' & l & -> & Hl' & Hf). cbn [mbind res_bind]. do 2 eexists. split; [done|]. split_and!; [done|done|].
  unfold ready. cbn [js_Lexer with_lexer with_lexeme jl_Lexeme jl_Buffer jl_Cursor].
  destruct Hf as [->|(rest' & Hf)]; [by left|]. destruct (ft_progress _ _ _ _ _ Hf) as [->|Hlt]; [by left|]. right.
  exists rest'. split; [apply Hf|]. unfold pend. cbn [with_lexeme jl_Lexeme]. destruct l; lia.
Qed.

Lemma skip_total s l n : jl_Lexeme (js_Lexer s) = l -> l <> LexInvalid -> stopped l = false -> ready s n ->
  exists s', lex_skip s = OK s' /\ (0 < n)%nat /\ ahead s' (pred n).
Proof.
  intros El Hl Hs Hr. unfold lex_skip, JsonLexerSkip. unfold ready in Hr. rewrite El, Hs in Hr. destruct Hr as [|(rest & Hv & Hn)]; [done|].
  unfold pend in Hn. rewrite El in Hn |- *. assert (H1 : (length rest + 1 <= n)%nat) by (by destruct l).
  eexists. split; [by destruct l|]. split; [lia|]. split; [done|]. exists rest. split; [exact Hv|lia].
Qed.

Section Total.
Context (parse_value : JsonState -> res (JsonState * option (json Z))) (F : nat).

(** A parser of values that ends for fewer than [F] characters. *)
Definition value_total : Prop := forall s n, ready s n -> (n < F)%nat ->
  exists s' r, parse_value s = OK (s', r) /\ (r = None \/ (0 < n)%nat /\ ahead s' (pred n)).

Hypothesis Hparse : value_total.

Lemma object_loop_total fuel : forall n s members sv sc, ready s n -> (n < fuel)%nat -> (n <= F)%nat ->
  exists s' r, object_loop parse_value fuel s members sv sc = OK (s', r) /\ (r = None \/ (0 < n)%nat /\ ahead s' (pred n)).
Proof.
  induction fuel as [|fuel IH]; intros n s members sv sc Hr Hf HF; [lia|]. cbn [object_loop].
  destruct (next_total s n Hr) as (s1 & l & -> & Hl). cbn [mbind res_bind].
  destruct Hl as [Hst|[Hn Ha]]; [destruct l; try done; cbn; eauto|].
  destruct l; cbn [JsonError]; eauto 6.
  - destruct (sv && negb sc); [eauto|]. destruct (next_total s1 (pred n) (ahead_ready _ _ Ha)) as (s2 & sep & -> & Hsep). cbn [mbind res_bind].
    destruct sep; cbn [JsonError]; eauto. destruct Hsep as [|[Hn2 Ha2]]; [done|].
    destruct (Hparse s2 (pred (pred n))) as (s3 & r & -> & Hr3); [by apply ahead_ready|lia|]. cbn [mbind res_bind]. destruct r as [v|]; [|eauto].
    destruct Hr3 as [|[Hn3 Ha3]]; [done|]. destruct (IH (pred (pred (pred n))) s3 (members ++ [(offset, v)]) true false) as (s4 & r & -> & Hr4);
      [by apply ahead_ready|lia|lia|]. exists s4, r. split; [done|]. destruct Hr4 as [->|[? Ha4]]; [by left|]. right. split; [lia|]. eapply ahead_mono; [done|lia].
  - destruct (negb sv); [eauto|]. destruct sc; [eauto|]. destruct (IH (pred n) s1 members false true) as (s2 & r & -> & Hr2); [by apply ahead_ready|lia|lia|].
    exists s2, r. split; [done|]. destruct Hr2 as [->|[? Ha2]]; [by left|]. right. split; [lia|]. eapply ahead_mono; [done|lia].
Qed.

Lemma array_loop_total fuel : forall n s values, ready s n -> (n < fuel)%nat -> (n < F)%nat ->
  exists s' r, array_loop parse_value fuel s values = OK (s', r) /\ (r = None \/ (0 < n)%nat /\ ahead s' (pred n)).
Proof.
  induction fuel as [|fuel IH]; intros n s values Hr Hf HF; [lia|]. cbn [array_loop].
  destruct (peek_total s n Hr) as (s1 & l & -> & El & Hl & Hr1). cbn [mbind res_bind].
  assert (Helem : forall s2 m, ready s2 m -> (m <= n)%nat -> exists s' r,
    ('(state, value) ← parse_value s2; match value with None => OK (state, None) | Some v => array_loop parse_value fuel state (values ++ [v]) end) = OK (s', r) /\
    (r = None \/ (0 < n)%nat /\ ahead s' (pred n))).
  { intros s2 m Hr2 Hm. destruct (Hparse s2 m Hr2) as (s3 & r & -> & Hr3); [lia|]. cbn [mbind res_bind]. destruct r as [v|]; [|eauto].
    destruct Hr3 as [|[Hm3 Ha3]]; [done|]. destruct (IH (pred m) s3 (values ++ [v])) as (s4 & r & -> & Hr4); [by apply ahead_ready|lia|lia|].
    exists s4, r. split; [done|]. destruct Hr4 as [->|[? Ha4]]; [by left|]. right. split; [lia|]. eapply ahead_mono; [done|lia]. }
  destruct l; try done; try (destruct (0 <? zlen values); [cbn [JsonError]; by eauto|by eapply Helem]).
  - destruct (0 <? zlen values); [|by eapply Helem]. destruct (skip_total s1 _ n El) as (s2 & -> & Hn & Ha); [done|done|done|]. cbn [mbind res_bind].
    eapply Helem; [by apply ahead_ready|lia].
  - destruct (skip_total s1 _ n El) as (s2 & -> & Hn & Ha); [done|done|done|]. cbn [mbind res_bind]. eauto 6.
Qed.
End Total.

Lemma parse_value_total F : value_total (JsonParseValue F) F.
Proof.
  induction F as [|F IH]; intros s n Hr Hn; [lia|]. cbn [JsonParseValue].
  destruct (peek_total s n Hr) as (s1 & l & -> & El & Hl & Hr1). cbn [mbind res_bind].
  assert (Hatom : forall v : json Z, stopped l = false -> exists s' r, (state ← lex_skip s1; OK (state, Some v)) = OK (s', r) /\ (r = None \/ (0 < n)%nat /\ ahead s' (pred n))).
  { intros v Hs. destruct (skip_total s1 l n El) as (s2 & -> & Hp & Ha); [done|done|done|]. cbn. eauto 6. }
  assert (Hbegin : forall k : JsonState -> res (JsonState * option (json Z)), stopped l = false ->
    (forall s2, ahead s2 (pred n) -> (0 < n)%nat -> exists s' r, k s2 = OK (s', r) /\ (r = None \/ (0 < pred n)%nat /\ ahead s' (pred (pred n)))) ->
    exists s' r, ('(state, _) ← lex_next s1; k state) = OK (s', r) /\ (r = None \/ (0 < n)%nat /\ ahead s' (pred n))).
  { intros k Hs Hk. destruct (next_total s1 n Hr1) as (s2 & l2 & E2 & Hl2). rewrite E2. cbn [mbind res_bind].
    assert (l2 = l) as ->. { unfold lex_next, JsonLexerNext in E2. rewrite El in E2. destruct l; cbn in E2; congruence. }
    destruct Hl2 as [|[Hp Ha]]; [congruence|]. destruct (Hk s2 Ha Hp) as (s' & r & -> & Hr'). exists s', r. split; [done|].
    destruct Hr' as [->|[? Ha']]; [by left|]. right. split; [done|]. eapply ahead_mono; [done|lia]. }
  assert (Hhead : forall s2 l2, lex_next s1 = OK (s2, l2) -> l2 = l).
  { intros s2 l2 E2. unfold lex_next, JsonLexerNext in E2. rewrite El in E2. destruct l; cbn in E2; congruence. }
  destruct l; try done; try (by apply Hatom); try (cbn [JsonError]; by eauto).
  - unfold JsonParseObject. destruct (Hbegin (fun s2 => object_loop (JsonParseValue F) F s2 [] false false)) as (s' & r & E & Hr'); [done| |].
    { intros s2 Ha Hp. apply (object_loop_total _ F IH); [by apply ahead_ready|lia|lia]. }
    exists s', r. split; [|done]. rewrite <- E. destruct (lex_next s1) as [[s2 l2]|] eqn:E2; [|done]. by rewrite (Hhead _ _ eq_refl).
  - unfold JsonParseArray. destruct (Hbegin (fun s2 => array_loop (JsonParseValue F) F s2 [])) as (s' & r & E & Hr'); [done| |].
    { intros s2 Ha Hp. apply (array_loop_total _ F IH); [by apply ahead_ready|lia|lia]. }
    exists s', r. split; [|done]. rewrite <- E. destruct (lex_next s1) as [[s2 l2]|] eqn:E2; [|done]. by rewrite (Hhead _ _ eq_refl).
Qed.

(** C29. The parser is total and memory safe: for every text without NUL in its
    NUL-terminated array it ends, reading and writing only inside the array,
    with a value or an error; the fuel of one more than the number of
    characters is never used up. *)
Theorem json_parse_total text : cstr_ok text -> exists r, JsonParse (text ++ [NUL]) = OK r.
Proof.
  intros Hok. set (s0 := mkJson (JsonLexerStateInit (text ++ [NUL])) None).
  assert (Hr : ready s0 (length text)).
  { right. exists text. cbn. split; [|unfold pend; cbn; lia]. split; [lia|by rewrite drop_0|done]. }
  unfold JsonParse. fold s0. destruct (parse_value_total (S (length (text ++ [NUL]))) s0 (length text) Hr) as (s & r & -> & Hr'); [rewrite length_app; cbn; lia|].
  cbn [mbind res_bind]. destruct r as [v|]; [|eauto]. destruct Hr' as [|[_ Ha]]; [done|].
  destruct (next_total s _ (ahead_ready _ _ Ha)) as (s' & l & -> & _). cbn [mbind res_bind]. destruct l; cbn; eauto.
Qed.

Lemma json_parse_total_witness : exists r, JsonParse (s2l "{'a':[1,}" ++ [NUL]) = OK r.
Proof. apply json_parse_total. apply (bool_decide_eq_true_1 _). vm_compute. reflexivity. Defined.
