(* ===== verification/JsonWriter.v ===== *)
(** * The JSON writer

    LuaJsonWriter.cpp: what the Lua front end hands to the DAG generator is
    written through this object, one call per value. [number2str] is what
    [lua_number2str] prints for a number. The file is the list of bytes
    written to it. *)

From S2P Require Import Prelude CType JsonParse JsonThms.

(** ** The buffered file *)

Record BufferedWriter : Type := mkBW { bw_Buffer : cstr; bw_File : cstr }.

Definition kBufferSize : Z := 8192.

Definition BufferedWriterInit : BufferedWriter := mkBW [] [].

Definition BufferedWriterFlush (w : BufferedWriter) : BufferedWriter := mkBW [] (bw_File w ++ bw_Buffer w).

Definition BufferedWriterAppend (ch : ascii) (w : BufferedWriter) : BufferedWriter :=
  let w := if zlen (bw_Buffer w) =? kBufferSize then BufferedWriterFlush w else w in
  mkBW (bw_Buffer w ++ [ch]) (bw_File w).

Definition BufferedWriterAppendString (str : cstr) (w : BufferedWriter) : BufferedWriter :=
  foldl (fun w c => BufferedWriterAppend c w) w (until_nul str).

(** ** Strings *)

(** Set up by [LuaJsonNativeOpen]. *)
Definition s_EscapeTable : list ascii :=
  zinsert 10 "n"%char (zinsert 13 "r"%char (zinsert 9 "t"%char (zinsert 11 "v"%char (zinsert 12 "f"%char
  (zinsert 92 "\"%char (zinsert 34 "034"%char (replicate 256 NUL))))))).

(** [s_EscapeTable[(uint32_t) ch]], [ch] being a signed char. *)
Definition escape_code (ch : ascii) : res ascii := of_opt (s_EscapeTable !!z u32 (schar ch)).

Definition write_escaped (w : BufferedWriter) (ch : ascii) : res BufferedWriter :=
  code ← escape_code ch;
  OK (if Ascii.eqb code NUL then BufferedWriterAppend ch w
      else BufferedWriterAppend code (BufferedWriterAppend "\"%char w)).

Definition WriteEscapedString (str : cstr) (w : BufferedWriter) : res BufferedWriter :=
  w ← foldM write_escaped (BufferedWriterAppend "034"%char w) str;
  OK (BufferedWriterAppend "034"%char w).

(** ** The writer *)

Record LuaJsonWriter : Type := mkJW { jw_FirstElem : bool; jw_Writer : BufferedWriter }.

Definition LuaJsonWriterNew : LuaJsonWriter := mkJW true BufferedWriterInit.

Definition WriteComma (self : LuaJsonWriter) : LuaJsonWriter :=
  if jw_FirstElem self then mkJW false (jw_Writer self)
  else mkJW false (BufferedWriterAppend ","%char (jw_Writer self)).

Definition WriteCommon (name : option cstr) (self : LuaJsonWriter) : res LuaJsonWriter :=
  let self := WriteComma self in
  match name with
  | None => OK self
  | Some str => w ← WriteEscapedString str (jw_Writer self); OK (mkJW (jw_FirstElem self) (BufferedWriterAppend ":"%char w))
  end.

Definition with_writer (f : BufferedWriter -> BufferedWriter) (self : LuaJsonWriter) : LuaJsonWriter :=
  mkJW (jw_FirstElem self) (f (jw_Writer self)).

Definition LuaJsonWriteBool (value : bool) (name : option cstr) (self : LuaJsonWriter) : res LuaJsonWriter :=
  self ← WriteCommon name self;
  OK (with_writer (BufferedWriterAppendString (if value then "true" else "false")) self).

Definition LuaJsonWriteString (value : cstr) (name : option cstr) (self : LuaJsonWriter) : res LuaJsonWriter :=
  self ← WriteCommon name self;
  w ← WriteEscapedString value (jw_Writer self);
  OK (mkJW (jw_FirstElem self) w).

Definition begin_with (c : ascii) (name : option cstr) (self : LuaJsonWriter) : res LuaJsonWriter :=
  self ← WriteCommon name self;
  OK (mkJW true (BufferedWriterAppend c (jw_Writer self))).

Definition end_with (c : ascii) (self : LuaJsonWriter) : LuaJsonWriter := mkJW false (BufferedWriterAppend c (jw_Writer self)).

Definition LuaJsonBeginObject : option cstr -> LuaJsonWriter -> res LuaJsonWriter := begin_with "{"%char.
Definition LuaJsonEndObject : LuaJsonWriter -> LuaJsonWriter := end_with "}"%char.
Definition LuaJsonBeginArray : option cstr -> LuaJsonWriter -> res LuaJsonWriter := begin_with "["%char.
Definition LuaJsonEndArray : LuaJsonWriter -> LuaJsonWriter := end_with "]"%char.

(** [LuaJsonGc], also [close]: what is in the file when it is closed. *)
Definition LuaJsonGc (self : LuaJsonWriter) : cstr := bw_File (BufferedWriterFlush (jw_Writer self)).

Section Numbers.
Context (number2str : number -> cstr).

Definition LuaJsonWriteNumber (num : number) (name : option cstr) (self : LuaJsonWriter) : res LuaJsonWriter :=
  self ← WriteCommon name self;
  OK (with_writer (BufferedWriterAppendString (number2str num)) self).

(** ** Writing a value

    The calls that write a tree, a name being passed for every member of an
    object. There is no call for null. *)
Inductive json_call : Type :=
| CallNumber (num : number) (name : option cstr)
| CallBool (value : bool) (name : option cstr)
| CallString (value : cstr) (name : option cstr)
| CallBeginObject (name : option cstr)
| CallEndObject
| CallBeginArray (name : option cstr)
| CallEndArray.

Definition do_json_call (self : LuaJsonWriter) (c : json_call) : res LuaJsonWriter :=
  match c with
  | CallNumber num name => LuaJsonWriteNumber num name self
  | CallBool value name => LuaJsonWriteBool value name self
  | CallString value name => LuaJsonWriteString value name self
  | CallBeginObject name => LuaJsonBeginObject name self
  | CallEndObject => OK (LuaJsonEndObject self)
  | CallBeginArray name => LuaJsonBeginArray name self
  | CallEndArray => OK (LuaJsonEndArray self)
  end.

Fixpoint calls_of (name : option cstr) (v : json cstr) : list json_call :=
  match v with
  | JNull => []
  | JBoolean b => [CallBool b name]
  | JNumber n => [CallNumber n name]
  | JString s => [CallString s name]
  | JArray l => CallBeginArray name :: concat (map (calls_of None) l) ++ [CallEndArray]
  | JObject m => CallBeginObject name :: concat (map (fun '(k, x) => calls_of (Some k) x) m) ++ [CallEndObject]
  end.

Definition write_json (v : json cstr) : res cstr :=
  self ← foldM do_json_call LuaJsonWriterNew (calls_of None v);
  OK (LuaJsonGc self).

(** ** Reference printer *)

Definition esc (c : ascii) : cstr :=
  match escape_code c with
  | OK code => if Ascii.eqb code NUL then [c] else ["\"%char; code]
  | Err _ => [c]
  end.

Definition quoted (s : cstr) : cstr := "034"%char :: concat (map esc s) ++ ["034"%char].

Definition comma_sep (l : list cstr) : cstr := match l with [] => [] | x :: l' => x ++ concat (map (cons ","%char) l') end.

Fixpoint show (v : json cstr) : cstr :=
  match v with
  | JNull => "null"
  | JBoolean b => if b then "true" else "false"
  | JNumber n => number2str n
  | JString s => quoted s
  | JArray l => "["%char :: comma_sep (map show l) ++ ["]"%char]
  | JObject m => "{"%char :: comma_sep (map (fun '(k, x) => quoted k ++ ":"%char :: show x) m) ++ ["}"%char]
  end.

(** A character that survives: ASCII, neither NUL nor vertical tab. *)
Definition char_ok (c : ascii) : bool := (0 <? uchar c) && (uchar c <? 128) && negb (uchar c =? 11).

(** What follows a value. *)
Definition delim (rest : cstr) : Prop :=
  match rest with [] => False | c :: _ => c = ","%char \/ c = "]"%char \/ c = "}"%char \/ c = NUL end.

(** The printed form of a number is read back. *)
Definition prints (n : number) : Prop :=
  cstr_ok (number2str n) /\ (exists c s, number2str n = c :: s /\ (c = "-"%char \/ isdigit c = true)) /\
  forall rest, delim rest -> strtod (number2str n ++ rest) = Some (n, rest).

Fixpoint writable (v : json cstr) : Prop :=
  match v with
  | JNull => False
  | JBoolean _ => True
  | JNumber n => prints n
  | JString s => Forall (fun c => char_ok c = true) s
  | JArray l => foldr (fun x P => writable x /\ P) True l
  | JObject m => foldr (fun '(k, x) P => Forall (fun c => char_ok c = true) k /\ writable x /\ P) True m
  end.

(** ** What the calls write *)

Definition out (w : BufferedWriter) : cstr := bw_File w ++ bw_Buffer w.

Lemma out_append c w : out (BufferedWriterAppend c w) = out w ++ [c].
Proof. unfold out, BufferedWriterAppend, BufferedWriterFlush. case_match; cbn; by rewrite ?app_assoc. Qed.

Lemma until_nul_ok s : cstr_ok s -> until_nul s = s.
Proof. induction 1 as [|c s Hc Hs IH]; cbn; [done|]. rewrite nul_eqb by done. by f_equal. Qed.

Lemma out_append_string s w : cstr_ok s -> out (BufferedWriterAppendString s w) = out w ++ s.
Proof.
  intros Hs. unfold BufferedWriterAppendString. rewrite until_nul_ok by done. clear Hs. revert w.
  induction s as [|c s IH]; intros w; cbn [foldl]; [by rewrite app_nil_r|]. rewrite IH, out_append. by rewrite <- app_assoc.
Qed.

Lemma escape_code_ok c : char_ok c = true -> exists code, escape_code c = OK code.
Proof. destruct c as [[] [] [] [] [] [] [] []]; intros H; vm_compute in H; try discriminate H; eexists; vm_compute; reflexivity. Qed.

Lemma write_escaped_ok s : Forall (fun c => char_ok c = true) s -> forall w,
  exists w', foldM write_escaped w s = OK w' /\ out w' = out w ++ concat (map esc s).
Proof.
  induction 1 as [|c s Hc Hs IH]; intros w; cbn [foldM map concat]; [exists w; by rewrite app_nil_r|].
  destruct (escape_code_ok c Hc) as [code Ec]. set (w1 := if Ascii.eqb code NUL then BufferedWriterAppend c w else BufferedWriterAppend code (BufferedWriterAppend "\"%char w)).
  assert (Ew : write_escaped w c = OK w1) by (unfold write_escaped; by rewrite Ec). rewrite Ew. cbn [mbind res_bind].
  assert (Ee : esc c = if Ascii.eqb code NUL then [c] else ["\"%char; code]) by (unfold esc; by rewrite Ec). rewrite Ee.
  destruct (IH w1) as (w' & -> & E). exists w'. split; [done|]. rewrite E. unfold w1. case_match; rewrite !out_append, <- ?app_assoc; done.
Qed.

Lemma write_string_ok s w : Forall (fun c => char_ok c = true) s ->
  exists w', WriteEscapedString s w = OK w' /\ out w' = out w ++ quoted s.
Proof.
  intros Hs. unfold WriteEscapedString, quoted. destruct (write_escaped_ok s Hs (BufferedWriterAppend "034"%char w)) as (w' & -> & E).
  cbn [mbind res_bind]. eexists. split; [done|]. by rewrite out_append, E, out_append, <- !app_assoc.
Qed.

Definition jout (self : LuaJsonWriter) : cstr := out (jw_Writer self).
Definition label (name : option cstr) : cstr := match name with None => [] | Some k => quoted k ++ [":"%char] end.
Definition name_ok (name : option cstr) : Prop := match name with None => True | Some k => Forall (fun c => char_ok c = true) k end.
Definition sep (self : LuaJsonWriter) : cstr := if jw_FirstElem self then [] else [","%char].

Lemma write_common_ok name self : name_ok name ->
  exists self', WriteCommon name self = OK self' /\ jout self' = jout self ++ sep self ++ label name /\ jw_FirstElem self' = false.
Proof.
  intros Hn. unfold WriteCommon, WriteComma, sep, jout.
  assert (E0 : forall b : bool, exists w0 : BufferedWriter, (if b then mkJW false (jw_Writer self) else mkJW false (BufferedWriterAppend ","%char (jw_Writer self))) = mkJW false w0 /\
    out w0 = out (jw_Writer self) ++ if b then [] else [","%char]).
  { intros []; eexists; (split; [done|]); [by rewrite app_nil_r|by rewrite out_append]. }
  destruct (E0 (jw_FirstElem self)) as (w0 & -> & E). destruct name as [k|]; cbn [label jw_Writer jw_FirstElem].
  - destruct (write_string_ok k w0 Hn) as (w1 & -> & E1). cbn [mbind res_bind]. eexists. split; [done|]. cbn [jw_Writer jw_FirstElem].
    split; [|done]. by rewrite out_append, E1, E, <- !app_assoc.
  - eexists. split; [done|]. cbn [jw_Writer jw_FirstElem]. split; [|done]. by rewrite E, app_nil_r.
Qed.

(** The effect of writing some values, one after the other: the text of each,
    separated by commas. *)
Definition written (self : LuaJsonWriter) (calls : list json_call) (texts : list cstr) (self' : LuaJsonWriter) : Prop :=
  foldM do_json_call self calls = OK self' /\
  jout self' = jout self ++ (match texts with [] => [] | _ => sep self end) ++ comma_sep texts /\
  jw_FirstElem self' = match texts with [] => jw_FirstElem self | _ => false end.

Lemma comma_sep_cons x l : l <> [] -> comma_sep (x :: l) = x ++ ","%char :: comma_sep l.
Proof. destruct l as [|y l]; [done|]. done. Qed.

Lemma written_nil self : written self [] [] self.
Proof. split_and!; [done| |done]. cbn. by rewrite app_nil_r. Qed.

Lemma written_cons self c1 t s1 c2 l s2 : written self c1 [t] s1 -> written s1 c2 l s2 -> written self (c1 ++ c2) (t :: l) s2.
Proof.
  intros (E1 & O1 & F1) (E2 & O2 & F2). split_and!.
  - rewrite foldM_app, E1. done.
  - rewrite O2, O1. cbn [comma_sep map concat]. destruct l as [|y l]; cbn [comma_sep map concat]; rewrite <- !app_assoc; cbn [app]; [by rewrite ?app_nil_r|].
    unfold sep at 2. rewrite F1. cbn [app]. do 4 f_equal.
  - rewrite F2. by destruct l.
Qed.

(** Structural induction on values. *)
Lemma json_rect' (P : json cstr -> Prop) : P JNull -> (forall b, P (JBoolean b)) -> (forall n, P (JNumber n)) -> (forall s, P (JString s)) ->
  (forall l, Forall P l -> P (JArray l)) -> (forall m, Forall (fun kv => P kv.2) m -> P (JObject m)) -> forall v, P v.
Proof.
  intros H0 Hb Hn Hs Ha Ho. fix IH 1. intros [|b|m|l|s|n]; [exact H0|apply Hb| | |apply Hs|apply Hn].
  - apply Ho. induction m as [|[k x] m IHm]; constructor; [apply IH|apply IHm].
  - apply Ha. induction l as [|x l IHl]; constructor; [apply IH|apply IHl].
Qed.

Lemma written_list {A} (f : A -> list json_call) (g : A -> cstr) l :
  (forall x self, x ∈ l -> exists self', written self (f x) [g x] self') ->
  forall self, exists self', written self (concat (map f l)) (map g l) self'.
Proof.
  induction l as [|x l IH]; intros Hf self; cbn [map concat]; [exists self; apply written_nil|].
  destruct (Hf x self) as [s1 H1]; [set_solver|]. destruct (IH (fun y s Hy => Hf y s ltac:(set_solver)) s1) as [s2 H2].
  exists s2. by eapply written_cons.
Qed.

Lemma written_bracket self o c name calls texts : name_ok name ->
  (forall s1, exists s2, written s1 calls texts s2) ->
  exists s', (s1 ← begin_with o name self; s2 ← foldM do_json_call s1 calls; OK (end_with c s2)) = OK s' /\
  jout s' = jout self ++ sep self ++ label name ++ o :: comma_sep texts ++ [c] /\ jw_FirstElem s' = false.
Proof.
  intros Hn Hw. unfold begin_with. destruct (write_common_ok name self Hn) as (s0 & -> & O0 & _). cbn [mbind res_bind].
  destruct (Hw (mkJW true (BufferedWriterAppend o (jw_Writer s0)))) as (s2 & -> & O2 & _). cbn [mbind res_bind]. eexists. split; [done|]. split; [|done].
  unfold jout, end_with in *. cbn [jw_Writer jw_FirstElem] in *. rewrite out_append, O2, out_append, O0. unfold sep. cbn [jw_FirstElem].
  destruct texts; cbn [app]; rewrite <- ?app_assoc; cbn [app]; by rewrite <- ?app_assoc.
Qed.

Lemma writable_array l : writable (JArray l) -> Forall writable l.
Proof. cbn [writable]. induction l as [|x l IH]; cbn; [constructor|]. intros [? ?]. constructor; auto. Qed.

Lemma writable_object m : writable (JObject m) -> Forall (fun kv => Forall (fun c => char_ok c = true) kv.1 /\ writable kv.2) m.
Proof. cbn [writable]. induction m as [|[k x] m IH]; cbn; [constructor|]. intros (? & ? & ?). constructor; auto. Qed.

Lemma calls_written v : writable v -> forall name self, name_ok name ->
  exists self', written self (calls_of name v) [label name ++ show v] self'.
Proof.
  induction v as [|b|n|s|l IH|m IH] using json_rect'; intros Hw name self Hn; [done|..]; cbn [calls_of show].
  - destruct (write_common_ok name self Hn) as (s1 & E & O & F). exists (with_writer (BufferedWriterAppendString (if b then "true" else "false")) s1).
    split_and!; [cbn; unfold LuaJsonWriteBool; rewrite E; done| |done]. cbn [comma_sep map concat]. rewrite app_nil_r.
    unfold jout in *. cbn [with_writer jw_Writer]. rewrite out_append_string, O by (destruct b; repeat constructor; discriminate).
    by rewrite <- !app_assoc; destruct b.
  - destruct (write_common_ok name self Hn) as (s1 & E & O & F). destruct Hw as (Hc & _). exists (with_writer (BufferedWriterAppendString (number2str n)) s1).
    split_and!; [cbn; unfold LuaJsonWriteNumber; rewrite E; done| |done]. cbn [comma_sep map concat]. rewrite app_nil_r.
    unfold jout in *. cbn [with_writer jw_Writer]. rewrite out_append_string, O by done. by rewrite <- !app_assoc.
  - destruct (write_common_ok name self Hn) as (s1 & E & O & F). destruct (write_string_ok s (jw_Writer s1) Hw) as (w & Ew & Ow).
    exists (mkJW (jw_FirstElem s1) w). split_and!; [cbn; unfold LuaJsonWriteString; rewrite E; cbn [mbind res_bind]; rewrite Ew; done| |done].
    cbn [comma_sep map concat]. rewrite app_nil_r. unfold jout in *. cbn [jw_Writer]. rewrite Ow, O. by rewrite <- !app_assoc.
  - apply writable_array in Hw. rewrite Forall_forall in IH, Hw.
    destruct (written_bracket self "["%char "]"%char name (concat (map (calls_of None) l)) (map show l) Hn) as (s' & E & O & F).
    { apply written_list. intros x s1 Hx. destruct (IH x Hx (Hw x Hx) None s1 I) as [s2 H2]. exists s2. exact H2. }
    exists s'. split_and!; [|cbn [comma_sep map concat]; by rewrite app_nil_r, O, <- ?app_assoc|done].
    rewrite <- E. cbn [foldM do_json_call]. unfold LuaJsonBeginArray. destruct (begin_with _ _ _); [|done]. cbn [mbind res_bind]. rewrite foldM_app.
    by destruct (foldM do_json_call a _).
  - apply writable_object in Hw. rewrite Forall_forall in IH, Hw.
    destruct (written_bracket self "{"%char "}"%char name (concat (map (fun '(k, x) => calls_of (Some k) x) m)) (map (fun '(k, x) => quoted k ++ ":"%char :: show x) m) Hn)
      as (s' & E & O & F).
    { apply written_list. intros [k x] s1 Hx. destruct (Hw _ Hx) as [Hk Hwx]. destruct (IH _ Hx Hwx (Some k) s1 Hk) as [s2 H2]. exists s2.
      cbn [label snd] in H2. by rewrite <- app_assoc in H2. }
    exists s'. split_and!; [|cbn [comma_sep map concat]; by rewrite app_nil_r, O, <- ?app_assoc|done].
    rewrite <- E. cbn [foldM do_json_call]. unfold LuaJsonBeginObject. destruct (begin_with _ _ _); [|done]. cbn [mbind res_bind]. rewrite foldM_app.
    by destruct (foldM do_json_call a _).
Qed.

Lemma write_json_ok v : writable v -> write_json v = OK (show v).
Proof.
  intros Hw. unfold write_json. destruct (calls_written v Hw None LuaJsonWriterNew I) as (self & -> & O & _). cbn [mbind res_bind].
  cbn [label app comma_sep map concat] in O. rewrite app_nil_r in O. unfold LuaJsonGc, BufferedWriterFlush. cbn [bw_File].
  fold (out (jw_Writer self)). fold (jout self). by rewrite O.
Qed.

End Numbers.
