(* ===== verification/JsonRound.v ===== *)
(** * What the writer writes the parser reads

    The round trip from the Lua front end to the DAG generator: the text
    LuaJsonWriter.cpp produces for a value is parsed by JsonParse.cpp into the
    same value, its strings read out of the array the parser decoded them in. *)

From S2P Require Import Prelude CType JsonParse JsonThms JsonWriter.

(** ** Strings read out of the array *)

(** The string at an offset ends below [c]. *)
Definition ends_below (b : cstr) (c o : Z) : Prop := 0 <= o /\ exists k, o <= k < c /\ b !!z k = Some NUL.

Lemma zlookup_take (b b' : cstr) c i : take (Z.to_nat c) b' = take (Z.to_nat c) b -> 0 <= i < c -> b' !!z i = b !!z i.
Proof.
  intros E Hi. unfold zlookup. rewrite bool_decide_true by lia. rewrite <- (lookup_take_lt b' (Z.to_nat c)), <- (lookup_take_lt b (Z.to_nat c)) by lia.
  by rewrite E.
Qed.

Lemma drop_at (b : cstr) i c : 0 <= i -> b !!z i = Some c -> drop (Z.to_nat i) b = c :: drop (Z.to_nat (i + 1)) b.
Proof.
  intros Hi E. unfold zlookup in E. rewrite bool_decide_true in E by lia. replace (Z.to_nat (i + 1)) with (S (Z.to_nat i)) by lia.
  by apply drop_S.
Qed.

Lemma string_stable b b' c o : take (Z.to_nat c) b' = take (Z.to_nat c) b -> ends_below b c o -> string_at b' o = string_at b o.
Proof.
  intros E [Ho (k & Hk & Hn)]. unfold string_at. remember (Z.to_nat (k - o)) as n eqn:En. revert o Ho Hk En.
  induction n as [|n IH]; intros o Ho Hk En.
  - assert (k = o) as -> by lia. rewrite (drop_at b o NUL), (drop_at b' o NUL); try done. by rewrite (zlookup_take b b' c) by (done || lia).
  - destruct (zlookup_is_Some b o) as [x Hx]; [apply zlookup_lt in Hn; lia|].
    rewrite (drop_at b o x), (drop_at b' o x) by (done || by rewrite (zlookup_take b b' c) by (done || lia)). cbn [until_nul].
    case_match; [done|]. f_equal. apply IH; lia.
Qed.

Lemma ends_below_stable b b' c c' o : take (Z.to_nat c) b' = take (Z.to_nat c) b -> c <= c' -> ends_below b c o -> ends_below b' c' o.
Proof.
  intros E Hc [Ho (k & Hk & Hn)]. split; [done|]. exists k. split; [lia|]. by rewrite (zlookup_take b b' c) by (done || lia).
Qed.

(** All the strings of a value. *)
Fixpoint json_all (P : Z -> Prop) (v : json Z) : Prop :=
  match v with
  | JString o => P o
  | JArray l => foldr (fun x Q => json_all P x /\ Q) True l
  | JObject m => foldr (fun '(k, x) Q => P k /\ json_all P x /\ Q) True m
  | _ => True
  end.

Lemma json_ind_offset (P : json Z -> Prop) : P JNull -> (forall b, P (JBoolean b)) -> (forall n, P (JNumber n)) -> (forall s, P (JString s)) ->
  (forall l, Forall P l -> P (JArray l)) -> (forall m, Forall (fun kv => P kv.2) m -> P (JObject m)) -> forall v, P v.
Proof.
  intros H0 Hb Hn Hs Ha Ho. fix IH 1. intros [|b|m|l|s|n]; [exact H0|apply Hb| | |apply Hs|apply Hn].
  - apply Ho. induction m as [|[k x] m IHm]; constructor; [apply IH|apply IHm].
  - apply Ha. induction l as [|x l IHl]; constructor; [apply IH|apply IHl].
Qed.

Lemma json_all_impl (P Q : Z -> Prop) v : (forall o, P o -> Q o) -> json_all P v -> json_all Q v.
Proof.
  intros HPQ. induction v as [|b|n|s|l IH|m IH] using json_ind_offset; cbn [json_all]; auto.
  - induction IH as [|x l Hx HF IHl]; cbn; [done|]. intros [? ?]. auto.
  - induction IH as [|[k x] m Hx HF IHm]; cbn; [done|]. intros (? & ? & ?). auto.
Qed.

Lemma json_map_ext {B} (f g : Z -> B) P v : (forall o, P o -> f o = g o) -> json_all P v -> json_map f v = json_map g v.
Proof.
  intros Hfg. induction v as [|b|n|s|l IH|m IH] using json_ind_offset; cbn [json_all json_map]; auto.
  - intros Hs. f_equal. auto.
  - intros Hl. f_equal. revert Hl. induction IH as [|x l Hx HF IHl]; cbn; [done|]. intros [? ?]. f_equal; auto.
  - intros Hm. f_equal. revert Hm. induction IH as [|[k x] m Hx HF IHm]; cbn; [done|]. intros (? & ? & ?). f_equal; [|auto]. f_equal; auto.
Qed.

(** ** A value has been read: between two states of the lexer *)

(** From [s] to [s'] nothing below the cursor of [s] changed; [rest'] is ahead
    and no token pending. *)
Record advanced (s s' : JsonState) (rest' : cstr) : Prop := {
  av_view : view (jl_Buffer (js_Lexer s')) (jl_Cursor (js_Lexer s')) rest';
  av_idle : jl_Lexeme (js_Lexer s') = LexInvalid;
  av_pos : jl_Cursor (js_Lexer s) <= jl_Cursor (js_Lexer s');
  av_start : 0 <= jl_Cursor (js_Lexer s);
  av_below : take (Z.to_nat (jl_Cursor (js_Lexer s))) (jl_Buffer (js_Lexer s')) = take (Z.to_nat (jl_Cursor (js_Lexer s))) (jl_Buffer (js_Lexer s)) }.

Lemma advanced_trans s1 s2 s3 r2 r3 : advanced s1 s2 r2 -> advanced s2 s3 r3 -> advanced s1 s3 r3.
Proof.
  intros [V1 I1 P1 S1 B1] [V2 I2 P2 S2 B2]. split; try done; [lia|].
  assert (E : forall b : cstr, take (Z.to_nat (jl_Cursor (js_Lexer s1))) b = take (Z.to_nat (jl_Cursor (js_Lexer s1))) (take (Z.to_nat (jl_Cursor (js_Lexer s2))) b)).
  { intros b. rewrite take_take. f_equal. lia. }
  by rewrite (E (jl_Buffer (js_Lexer s3))), B2, <- E.
Qed.

(** The value [cv] of the parser stands for [v] in the array of [s]. *)
Definition stands (s : JsonState) (cv : json Z) (v : json cstr) : Prop :=
  json_all (ends_below (jl_Buffer (js_Lexer s)) (jl_Cursor (js_Lexer s))) cv /\ json_map (string_at (jl_Buffer (js_Lexer s))) cv = v.

Lemma stands_stable s s' rest cv v : advanced s s' rest -> stands s cv v -> stands s' cv v.
Proof.
  intros Ha [Hall <-]. split.
  - eapply json_all_impl; [|exact Hall]. intros o. apply ends_below_stable; apply Ha.
  - eapply json_map_ext; [|exact Hall]. intros o Ho. eapply string_stable; [apply Ha|done].
Qed.

(** ** Tokens of the printed text *)

Lemma skip_none l c rest : view (jl_Buffer l) (jl_Cursor l) (c :: rest) -> isspace c = false -> SkipWhitespace l = OK l.
Proof.
  intros Hv Hc. unfold SkipWhitespace. pose proof (view_size _ _ _ Hv) as Hz. destruct (view_cons _ _ _ _ Hv) as (E & Hn & _).
  destruct (length (jl_Buffer l)) as [|n]; [pose proof (vw_pos _ _ _ Hv); cbn in Hz; lia|]. cbn [SkipWhitespace_loop]. rewrite E.
  cbn [of_opt mbind res_bind]. rewrite nul_eqb, Hc by done. assert (uchar c <> 10) as H10.
  { intros E10. unfold isspace in Hc. rewrite E10 in Hc. done. }
  rewrite (proj2 (Z.eqb_neq _ _)) by done. cbn. by destruct l.
Qed.

Definition punct (c : ascii) : option JsonLexeme :=
  if Ascii.eqb c "{"%char then Some LexBeginObject
  else if Ascii.eqb c "}"%char then Some LexEndObject
  else if Ascii.eqb c "["%char then Some LexBeginArray
  else if Ascii.eqb c "]"%char then Some LexEndArray
  else if Ascii.eqb c ","%char then Some LexValueSeparator
  else if Ascii.eqb c ":"%char then Some LexNameSeparator
  else None.

Lemma fetch_punct l c rest tok : view (jl_Buffer l) (jl_Cursor l) (c :: rest) -> punct c = Some tok ->
  JsonLexerFetchNext l = OK (with_cursor (jl_Cursor l + 1) l, tok) /\ view (jl_Buffer l) (jl_Cursor l + 1) rest.
Proof.
  intros Hv Hp. destruct (view_cons _ _ _ _ Hv) as (E & Hn & Hv'). split; [|done].
  assert (Hc : isspace c = false /\ (Ascii.eqb c "-"%char || isdigit c) = false /\ Ascii.eqb c "034"%char = false).
  { clear -Hp. unfold punct in Hp. repeat (match type of Hp with context [Ascii.eqb c ?x] => destruct (Ascii.eqb_spec c x) as [->|] end; [by vm_compute|]). done. }
  destruct Hc as (Hs & Hd & Hq). unfold JsonLexerFetchNext. rewrite (skip_none l c rest Hv Hs). cbn [mbind res_bind]. rewrite E. cbn [of_opt mbind res_bind].
  rewrite Hd, Hq. unfold punct in Hp. repeat (case_match; [by simplify_eq|]). done.
Qed.

Lemma eqb_refl' c : Ascii.eqb c c = true.
Proof. apply Ascii.eqb_refl. Qed.

(** A string decodes to itself, in place. *)
Lemma esc_cases c : char_ok c = true ->
  (esc c = [c] /\ Ascii.eqb c NUL = false /\ Ascii.eqb c "034"%char = false /\ Ascii.eqb c "\"%char = false) \/
  exists e, esc c = ["\"%char; e] /\ simple_escape e = Some c /\ e <> NUL.
Proof.
  destruct c as [[] [] [] [] [] [] [] []]; intros H; vm_compute in H; try discriminate H;
    first [left; vm_compute; split_and!; reflexivity | right; eexists; vm_compute; split_and!; [reflexivity|reflexivity|discriminate]].
Qed.

Lemma char_ok_nul c : char_ok c = true -> c <> NUL.
Proof. by intros H ->. Qed.

Lemma string_loop_shown s rest : Forall (fun c => char_ok c = true) s -> forall fuel b i w,
  view b i (concat (map esc s) ++ "034"%char :: rest) -> 0 <= w < i -> (length s < fuel)%nat ->
  exists b' i', GetStringLexeme_loop fuel b i w = OK (b', inl i') /\ view b' i' rest /\ i <= i' /\
  take (Z.to_nat w) b' = take (Z.to_nat w) b /\ string_at b' w = s /\ b' !!z (w + zlen s) = Some NUL /\ w + zlen s < i'.
Proof.
  induction 1 as [|c s Hc Hs IH]; intros fuel b i w Hv Hw Hf; (destruct fuel as [|fuel]; [cbn in Hf; lia|]).
  - cbn [map concat app GetStringLexeme_loop] in *. destruct (view_cons _ _ _ _ Hv) as (-> & Hn & Hv'). cbn [of_opt mbind res_bind].
    rewrite nul_eqb, eqb_refl' by done. destruct (view_write b (i + 1) rest w NUL Hv') as [-> Hv2]; [lia|]. cbn [mbind res_bind].
    pose proof (view_size _ _ _ Hv') as Hz. do 2 eexists. split; [done|]. cbn [length]. rewrite Z.add_0_r. split_and!; try done; try lia.
    + apply take_insert_high. lia.
    + unfold string_at. rewrite (drop_at _ w NUL) by (lia || (apply zlookup_insert_eq; lia)). done.
    + apply zlookup_insert_eq. lia.
  - cbn [map concat] in Hv. rewrite <- app_assoc in Hv. cbn [GetStringLexeme_loop].
    assert (Hgo : forall j, view b j (concat (map esc s) ++ "034"%char :: rest) -> i + 1 <= j -> exists b' i',
      (b0 ← zwrite w c b; GetStringLexeme_loop fuel b0 j (w + 1)) = OK (b', inl i') /\ view b' i' rest /\ i <= i' /\
      take (Z.to_nat w) b' = take (Z.to_nat w) b /\ string_at b' w = c :: s /\ b' !!z (w + zlen (c :: s)) = Some NUL /\ w + zlen (c :: s) < i').
    { intros j Hj Hij. destruct (view_write b j _ w c Hj) as [-> Hv2]; [lia|]. cbn [mbind res_bind]. pose proof (view_size _ _ _ Hj) as Hz.
      destruct (IH fuel (zinsert w c b) j (w + 1) Hv2) as (b' & i' & -> & Hv3 & Hi & Ht & Hst & Hnul & Hend); [lia|cbn in Hf; lia|].
      exists b', i'. rewrite length_cons. replace (w + Z.of_nat (S (length s))) with (w + 1 + zlen s) by lia. split_and!; try done; try lia.
      - assert (Et : take (Z.to_nat w) (take (Z.to_nat (w + 1)) b') = take (Z.to_nat w) (take (Z.to_nat (w + 1)) (zinsert w c b))) by (by rewrite Ht).
        rewrite !take_take in Et. replace (Z.to_nat w `min` Z.to_nat (w + 1))%nat with (Z.to_nat w) in Et by lia. rewrite Et. apply take_insert_high. lia.
      - unfold string_at in *. rewrite (drop_at b' w c); [|lia|].
        + cbn [until_nul]. rewrite nul_eqb by (by apply char_ok_nul). by f_equal.
        + rewrite (zlookup_take (zinsert w c b) b' (w + 1)) by (done || lia). apply zlookup_insert_eq. lia. }
    destruct (esc_cases c Hc) as [(Ee & E1 & E2 & E3)|(e & Ee & Ese & Hen)]; rewrite Ee in Hv; cbn [app] in Hv.
    + destruct (view_cons _ _ _ _ Hv) as (-> & Hn & Hv'). cbn [of_opt mbind res_bind]. rewrite E1, E2, E3. by apply Hgo.
    + destruct (view_cons _ _ _ _ Hv) as (-> & Hn & Hv'). cbn [of_opt mbind res_bind].
      change (Ascii.eqb "\" NUL) with false. change (Ascii.eqb "\" "034") with false. change (Ascii.eqb "\" "\") with true. cbn iota.
      destruct (view_cons _ _ _ _ Hv') as (-> & Hn2 & Hv2). cbn [of_opt mbind res_bind]. rewrite Ese. apply Hgo; [done|lia].
Qed.

Lemma view_app b i p rest : view b i (p ++ rest) -> view b (i + zlen p) rest.
Proof.
  revert i. induction p as [|c p IH]; intros i Hv; [by rewrite Z.add_0_r|]. destruct (view_cons _ _ _ _ Hv) as (_ & _ & Hv'). rewrite length_cons.
  replace (i + Z.of_nat (S (length p))) with (i + 1 + zlen p) by lia. by apply IH.
Qed.

(** [s] is between tokens with [text] ahead. *)
Record at_text (s : JsonState) (text : cstr) : Prop := {
  tx_view : view (jl_Buffer (js_Lexer s)) (jl_Cursor (js_Lexer s)) text;
  tx_idle : jl_Lexeme (js_Lexer s) = LexInvalid }.

Lemma advanced_at s s' rest : advanced s s' rest -> at_text s' rest.
Proof. intros []. by split. Qed.

(** The token [tok] is read: a token, or the text of one. *)
Definition reads_token (s : JsonState) (tok : JsonLexeme) (s' : JsonState) (rest : cstr) : Prop :=
  lex_next s = OK (s', tok) /\ tok <> LexInvalid /\ advanced s s' rest.

Lemma idle_next s l' tok rest : at_text s rest -> JsonLexerFetchNext (js_Lexer s) = OK (l', tok) -> lex_next s = OK (with_lexer l' s, tok).
Proof. intros [_ Hi] E. unfold lex_next, JsonLexerNext. rewrite Hi, E. done. Qed.

Lemma read_punct s c rest tok : at_text s (c :: rest) -> punct c = Some tok -> exists s', reads_token s tok s' rest.
Proof.
  intros Ht Hp. destruct (fetch_punct _ _ _ _ (tx_view _ _ Ht) Hp) as [E Hv]. eexists. split; [by eapply idle_next|]. split.
  - unfold punct in Hp. by repeat case_match; simplify_eq.
  - pose proof (vw_pos _ _ _ (tx_view _ _ Ht)). split; cbn; [done|apply Ht|lia|done|done].
Qed.

Lemma read_string s k rest : at_text s (quoted k ++ rest) -> Forall (fun c => char_ok c = true) k ->
  exists s', reads_token s (LexString (jl_Cursor (js_Lexer s))) s' rest /\
  ends_below (jl_Buffer (js_Lexer s')) (jl_Cursor (js_Lexer s')) (jl_Cursor (js_Lexer s)) /\ string_at (jl_Buffer (js_Lexer s')) (jl_Cursor (js_Lexer s)) = k.
Proof.
  intros Ht Hk. pose proof (tx_view _ _ Ht) as Hv. unfold quoted in Hv. cbn [app] in Hv. rewrite <- app_assoc in Hv. cbn [app] in Hv.
  pose proof (vw_pos _ _ _ Hv) as Hp. pose proof (view_size _ _ _ Hv) as Hz. destruct (view_cons _ _ _ _ Hv) as (E & _ & Hv').
  destruct (string_loop_shown k rest Hk (length (jl_Buffer (js_Lexer s))) _ _ (jl_Cursor (js_Lexer s)) Hv') as (b' & i' & El & Hv2 & Hi & Htk & Hst & Hn & He); [lia| |].
  { assert (Hl : (length k <= length (concat (map esc k)))%nat).
    { clear -Hk. induction Hk as [|c k Hc Hk IH]; cbn; [lia|]. rewrite length_app. destruct (esc_cases c Hc) as [(-> & _)|(e & -> & _)]; cbn; lia. }
    rewrite length_cons, length_app in Hz. lia. }
  assert (Ef : JsonLexerFetchNext (js_Lexer s) = OK (with_cursor i' (with_buffer b' (js_Lexer s)), LexString (jl_Cursor (js_Lexer s)))).
  { unfold JsonLexerFetchNext. rewrite (skip_none _ _ _ Hv eq_refl). cbn [mbind res_bind]. rewrite E. cbn [of_opt mbind res_bind].
    change (Ascii.eqb "034" "-" || isdigit "034"%char) with false. change (Ascii.eqb "034" "034") with true. cbn iota. unfold GetStringLexeme. by rewrite El. }
  exists (with_lexer (with_cursor i' (with_buffer b' (js_Lexer s))) s). split; [|split; cbn].
  - split; [by eapply idle_next|]. split; [done|]. split; cbn; try done; try lia. apply Ht.
  - split; [done|]. exists (jl_Cursor (js_Lexer s) + zlen k). split; [lia|done].
  - done.
Qed.

Section Round.
Context (number2str : number -> cstr).

Lemma read_number s n rest : at_text s (number2str n ++ rest) -> prints number2str n -> delim (rest ++ [NUL]) ->
  exists s', reads_token s (LexNumber n) s' rest.
Proof.
  intros Ht (Hok & (c & t & Ec & Hc) & Hst) Hd. pose proof (tx_view _ _ Ht) as Hv. pose proof (vw_pos _ _ _ Hv).
  assert (Hsp : isspace c = false).
  { destruct Hc as [->|Hc]; [done|]. unfold isdigit, isspace in *. apply andb_true_iff in Hc as [?%Z.leb_le ?%Z.leb_le].
    apply orb_false_iff. split; [apply Z.eqb_neq; lia|]. apply andb_false_iff. right. apply Z.leb_gt. lia. }
  assert (Hvc := Hv). rewrite Ec in Hvc. cbn [app] in Hvc. destruct (view_cons _ _ _ _ Hvc) as (E & _ & _).
  assert (Ef : JsonLexerFetchNext (js_Lexer s) = OK (with_cursor (jl_Cursor (js_Lexer s) + zlen (number2str n)) (js_Lexer s), LexNumber n)).
  { unfold JsonLexerFetchNext. rewrite (skip_none _ _ _ Hvc Hsp). cbn [mbind res_bind]. rewrite E. cbn [of_opt mbind res_bind].
    assert (Ascii.eqb c "-" || isdigit c = true) as -> by (destruct Hc as [->| ->]; [done|by rewrite orb_true_r]).
    unfold GetNumberLexeme. rewrite (vw_text _ _ _ Hv), <- app_assoc, (Hst _ Hd). do 3 f_equal. rewrite !length_app. lia. }
  eexists. split; [by eapply idle_next|]. split; [done|]. split; cbn; [by eapply view_app|apply Ht|lia|done|done].
Qed.

Lemma delim_not_alnum rest : delim rest -> span isalnum rest = ([], rest).
Proof. destruct rest as [|c rest]; [done|]. intros [->|[->|[->| ->]]]; done. Qed.

Lemma read_bool s (b : bool) rest : at_text s (s2l (if b then "true" else "false") ++ rest) -> delim (rest ++ [NUL]) ->
  exists s', reads_token s (LexBoolean b) s' rest.
Proof.
  intros Ht Hd. pose proof (tx_view _ _ Ht) as Hv. pose proof (vw_pos _ _ _ Hv). set (w := s2l (if b then "true" else "false")) in *.
  assert (Ef : JsonLexerFetchNext (js_Lexer s) = OK (with_cursor (jl_Cursor (js_Lexer s) + zlen w) (js_Lexer s), LexBoolean b)).
  { pose proof (delim_not_alnum _ Hd) as Es. destruct b; unfold w in *; cbn [s2l String.list_ascii_of_string app] in Hv;
      destruct (view_cons _ _ _ _ Hv) as (E & _ & _); unfold JsonLexerFetchNext; rewrite (skip_none _ _ _ Hv eq_refl); cbn [mbind res_bind]; rewrite E;
      cbn [of_opt mbind res_bind]; unfold GetLiteralLexeme; rewrite (vw_text _ _ _ Hv); cbn [app span]; rewrite Es; reflexivity. }
  eexists. split; [by eapply idle_next|]. split; [done|]. split; cbn -[Z.of_nat]; [by eapply view_app|apply Ht|lia|done|done].
Qed.

(** ** Peeking *)

Definition pending (s : JsonState) (tok : JsonLexeme) : JsonState := with_lexer (with_lexeme tok (js_Lexer s)) s.

Lemma with_lexeme_idle l tok : jl_Lexeme l = LexInvalid -> with_lexeme LexInvalid (with_lexeme tok l) = l.
Proof. destruct l. cbn. by intros ->. Qed.

Lemma pending_spec s tok s' rest : at_text s rest -> lex_next s = OK (s', tok) -> tok <> LexInvalid -> jl_Lexeme (js_Lexer s') = LexInvalid ->
  lex_peek s = OK (pending s' tok, tok) /\ lex_peek (pending s' tok) = OK (pending s' tok, tok) /\
  lex_skip (pending s' tok) = OK s' /\ lex_next (pending s' tok) = OK (s', tok).
Proof.
  intros [_ Hi] E Ht Hi'. unfold lex_next, JsonLexerNext in E. rewrite Hi in E.
  destruct (JsonLexerFetchNext (js_Lexer s)) as [[l x]|] eqn:Ef; [|done]. cbn in E. injection E as <- <-. cbn in Hi'.
  unfold lex_peek, lex_skip, lex_next, JsonLexerPeek, JsonLexerSkip, JsonLexerNext, pending. rewrite Hi, Ef.
  cbn [mbind res_bind with_lexer js_Lexer js_ErrorMessage with_lexeme jl_Lexeme].
  change (mkLexer (jl_Buffer l) (jl_Cursor l) (jl_LineNumber l) x (jl_Error l)) with (with_lexeme x l).
  split; [done|]. assert (El : with_lexeme LexInvalid (with_lexeme x l) = l) by (by apply with_lexeme_idle).
  destruct x; try done; rewrite El; done.
Qed.

Lemma parse_pending fuel s tok s' rest : at_text s rest -> lex_next s = OK (s', tok) -> tok <> LexInvalid -> jl_Lexeme (js_Lexer s') = LexInvalid ->
  JsonParseValue fuel (pending s' tok) = JsonParseValue fuel s.
Proof.
  intros Ht E Hn Hi. destruct (pending_spec s tok s' rest Ht E Hn Hi) as (E1 & E2 & _). destruct fuel as [|fuel]; [done|].
  cbn [JsonParseValue]. by rewrite E1, E2.
Qed.

(** ** Objects and arrays *)

Abbreviation show := (show number2str).
Abbreviation writable := (writable number2str).

(** [parse_value] reads the values with fewer than [F] characters. *)
Definition reads_value (parse_value : JsonState -> res (JsonState * option (json Z))) (v : json cstr) : Prop :=
  forall s rest, at_text s (show v ++ rest) -> delim (rest ++ [NUL]) ->
  exists s' cv, parse_value s = OK (s', Some cv) /\ advanced s s' rest /\ stands s' cv v.

Lemma json_all_members P acc o cx : json_all P (JObject acc) -> P o -> json_all P cx -> json_all P (JObject (acc ++ [(o, cx)])).
Proof. cbn [json_all]. induction acc as [|[a ca] acc IH]; cbn; [done|]. intros (? & ? & ?) ? ?. auto. Qed.

Lemma json_all_values P acc cx : json_all P (JArray acc) -> json_all P cx -> json_all P (JArray (acc ++ [cx])).
Proof. cbn [json_all]. induction acc as [|ca acc IH]; cbn; [done|]. intros (? & ?) ?. auto. Qed.

Lemma stands_values s acc accv cx x : stands s (JArray acc) (JArray accv) -> stands s cx x -> stands s (JArray (acc ++ [cx])) (JArray (accv ++ [x])).
Proof.
  intros [A1 E1] [A2 <-]. split; [by apply json_all_values|]. cbn [json_map] in *. injection E1 as <-. by rewrite map_app.
Qed.

Definition member_text (kv : cstr * json cstr) : cstr := let '(k, x) := kv in quoted k ++ ":"%char :: show x.

Lemma object_member parse_value fuel s acc accv sv sc k x rest : reads_value parse_value x -> Forall (fun c => char_ok c = true) k ->
  at_text s (member_text (k, x) ++ rest) -> delim (rest ++ [NUL]) -> stands s (JObject acc) (JObject accv) -> sv && negb sc = false ->
  exists s3 acc', object_loop parse_value (S fuel) s acc sv sc = object_loop parse_value fuel s3 acc' true false /\
  advanced s s3 rest /\ stands s3 (JObject acc') (JObject (accv ++ [(k, x)])).
Proof.
  intros Hx Hk Ht Hd Hs Hf. cbn [member_text] in Ht. rewrite <- app_assoc in Ht. cbn [app] in Ht.
  destruct (read_string s k _ Ht Hk) as (s1 & (E1 & _ & A1) & He & Hst).
  destruct (read_punct s1 ":"%char (show x ++ rest) LexNameSeparator (advanced_at _ _ _ A1) eq_refl) as (s2 & E2 & _ & A2).
  destruct (Hx s2 rest (advanced_at _ _ _ A2) Hd) as (s3 & cx & E3 & A3 & S3).
  assert (A12 := advanced_trans _ _ _ _ _ A2 A3). assert (A13 := advanced_trans _ _ _ _ _ A1 A12).
  exists s3, (acc ++ [(jl_Cursor (js_Lexer s), cx)]). split_and!; [|done|].
  - cbn [object_loop]. rewrite E1. cbn [mbind res_bind]. rewrite Hf, E2. cbn [mbind res_bind]. rewrite E3. done.
  - destruct (stands_stable _ _ _ _ _ A13 Hs) as [Aa Ea]. destruct S3 as [Ax Ex]. split.
    + apply json_all_members; [done| |done]. eapply ends_below_stable; [apply A12|apply A12|done].
    + cbn [json_map] in *. rewrite map_app. cbn [map]. injection Ea as ->. rewrite Ex. do 4 f_equal.
      rewrite (string_stable _ _ _ _ (av_below _ _ _ A12) He). done.
Qed.

Lemma object_rest parse_value m : Forall (fun kv => reads_value parse_value kv.2 /\ Forall (fun c => char_ok c = true) kv.1) m ->
  forall fuel s acc accv rest, at_text s (concat (map (fun kv => ","%char :: member_text kv) m) ++ "}"%char :: rest) ->
  (2 * length m < fuel)%nat -> stands s (JObject acc) (JObject accv) ->
  exists s' cv, object_loop parse_value fuel s acc true false = OK (s', Some cv) /\ advanced s s' rest /\ stands s' cv (JObject (accv ++ m)).
Proof.
  induction 1 as [|[k x] m [Hx Hk] HF IH]; intros fuel s acc accv rest Ht Hf Hs; cbn [map concat app] in *.
  - destruct fuel as [|fuel]; [cbn in Hf; lia|]. destruct (read_punct s _ _ LexEndObject Ht eq_refl) as (s1 & E1 & _ & A1).
    exists s1, (JObject acc). cbn [object_loop]. rewrite E1. cbn [mbind res_bind]. split_and!; [done|done|]. rewrite app_nil_r. eapply stands_stable; [exact A1|done].
  - rewrite <- app_assoc in Ht. cbn [length] in Hf. destruct fuel as [|[|fuel]]; try lia.
    destruct (read_punct s _ _ LexValueSeparator Ht eq_refl) as (s1 & E1 & _ & A1).
    destruct (object_member parse_value fuel s1 acc accv false true k x (concat (map (fun kv => ","%char :: member_text kv) m) ++ "}"%char :: rest))
      as (s3 & acc' & E3 & A3 & S3); [done|done|by eapply advanced_at| |eapply stands_stable; [exact A1|done]|done|].
    { destruct m as [|? m]; cbn; auto. }
    destruct (IH fuel s3 acc' (accv ++ [(k, x)]) rest (advanced_at _ _ _ A3)) as (s' & cv & E' & A' & S'); [lia|done|].
    exists s', cv. split_and!.
    + rewrite <- E', <- E3. cbn [object_loop]. rewrite E1. done.
    + eapply advanced_trans; [exact A1|]. by eapply advanced_trans.
    + by rewrite <- app_assoc in S'.
Qed.

Lemma object_shown parse_value m : Forall (fun kv => reads_value parse_value kv.2 /\ Forall (fun c => char_ok c = true) kv.1) m ->
  forall fuel s rest, at_text s (comma_sep (map member_text m) ++ "}"%char :: rest) -> (2 * length m < fuel)%nat ->
  exists s' cv, object_loop parse_value fuel s [] false false = OK (s', Some cv) /\ advanced s s' rest /\ stands s' cv (JObject m).
Proof.
  intros HF fuel s rest Ht Hf. assert (H0 : stands s (JObject []) (JObject [])) by done. destruct fuel as [|fuel]; [lia|].
  destruct HF as [|[k x] m [Hx Hk] HF]; cbn [map comma_sep app] in Ht.
  - destruct (read_punct s _ _ LexEndObject Ht eq_refl) as (s1 & E1 & _ & A1). exists s1, (JObject []). cbn [object_loop]. rewrite E1. done.
  - rewrite <- app_assoc, map_map in Ht. cbn [length] in Hf.
    destruct (object_member parse_value fuel s [] [] false false k x (concat (map (fun kv => ","%char :: member_text kv) m) ++ "}"%char :: rest))
      as (s3 & acc' & E3 & A3 & S3); [done|done|done| |done|done|].
    { destruct m as [|? m]; cbn; auto. }
    destruct (object_rest parse_value m HF fuel s3 acc' [(k, x)] rest (advanced_at _ _ _ A3)) as (s' & cv & E' & A' & S'); [lia|done|].
    exists s', cv. rewrite E3. split_and!; [done|by eapply advanced_trans|done].
Qed.

Lemma not_end_array v rest : writable v -> exists c t, show v ++ rest = c :: t /\ isspace c = false /\ punct c <> Some LexEndArray.
Proof.
  destruct v as [|b|m|l|s|n]; cbn; try done; intros Hw; try (by do 2 eexists; split_and!).
  - destruct b; do 2 eexists; by split_and!.
  - destruct Hw as (_ & (c & t & -> & Hc) & _). exists c, (t ++ rest). split; [done|]. destruct Hc as [->|Hc]; [done|].
    unfold isdigit, isspace in *. apply andb_true_iff in Hc as [?%Z.leb_le ?%Z.leb_le]. split.
    + apply orb_false_iff. split; [apply Z.eqb_neq; lia|]. apply andb_false_iff. right. apply Z.leb_gt. lia.
    + unfold punct. repeat (match goal with |- context [Ascii.eqb c ?x] => destruct (Ascii.eqb_spec c x) as [->|] end; [done|]). done.
Qed.

Lemma first_token v s rest : writable v -> at_text s (show v ++ rest) -> delim (rest ++ [NUL]) ->
  exists tok s' rest', reads_token s tok s' rest' /\ tok <> LexEndArray.
Proof.
  intros Hw Ht Hd. destruct v as [|b|m|l|t|n]; [done|..].
  - destruct (read_bool s b rest) as (s' & Hr); [by destruct b|done|]. by do 3 eexists.
  - destruct (read_punct s _ _ LexBeginObject Ht eq_refl) as (s' & Hr). by do 3 eexists.
  - destruct (read_punct s _ _ LexBeginArray Ht eq_refl) as (s' & Hr). by do 3 eexists.
  - destruct (read_string s t rest Ht Hw) as (s' & Hr & _). by do 3 eexists.
  - destruct (read_number s n rest Ht Hw Hd) as (s' & Hr). by do 3 eexists.
Qed.

Lemma array_rest F l : Forall (reads_value (JsonParseValue F)) l ->
  forall fuel s acc accv rest, acc <> [] -> at_text s (concat (map (fun x => ","%char :: show x) l) ++ "]"%char :: rest) ->
  (length l < fuel)%nat -> stands s (JArray acc) (JArray accv) ->
  exists s' cv, array_loop (JsonParseValue F) fuel s acc = OK (s', Some cv) /\ advanced s s' rest /\ stands s' cv (JArray (accv ++ l)).
Proof.
  induction 1 as [|x l Hx HF IH]; intros fuel s acc accv rest Hne Ht Hf Hs; cbn [map concat app length] in *; (destruct fuel as [|fuel]; [lia|]).
  - destruct (read_punct s _ _ LexEndArray Ht eq_refl) as (s1 & E1 & Hn & A1).
    destruct (pending_spec s _ s1 _ Ht E1 Hn (av_idle _ _ _ A1)) as (Ep & _ & Es & _). exists s1, (JArray acc). cbn [array_loop]. rewrite Ep.
    cbn [mbind res_bind]. rewrite Es. cbn [mbind res_bind]. rewrite app_nil_r. split_and!; [done|done|]. eapply stands_stable; [exact A1|done].
  - rewrite <- app_assoc in Ht. destruct (read_punct s _ _ LexValueSeparator Ht eq_refl) as (s1 & E1 & Hn & A1).
    destruct (pending_spec s _ s1 _ Ht E1 Hn (av_idle _ _ _ A1)) as (Ep & _ & Es & _).
    destruct (Hx s1 (concat (map (fun x => ","%char :: show x) l) ++ "]"%char :: rest)) as (s2 & cx & E2 & A2 & S2); [by eapply advanced_at| |].
    { destruct l as [|? l]; cbn; auto. }
    assert (A12 := advanced_trans _ _ _ _ _ A1 A2).
    destruct (IH fuel s2 (acc ++ [cx]) (accv ++ [x]) rest) as (s' & cv & E' & A' & S'); [by destruct acc|by eapply advanced_at|lia| |].
    { apply stands_values; [eapply stands_stable; [exact A12|done]|done]. }
    exists s', cv. split_and!; [|by eapply advanced_trans|by rewrite <- app_assoc in S'].
    cbn [array_loop]. rewrite Ep. cbn [mbind res_bind]. rewrite (proj2 (Z.ltb_lt 0 _)) by (destruct acc; [done|cbn; lia]).
    rewrite Es. cbn [mbind res_bind]. rewrite E2. done.
Qed.

Lemma array_shown F l : Forall (fun x => reads_value (JsonParseValue F) x /\ writable x) l ->
  forall fuel s rest, at_text s (comma_sep (map show l) ++ "]"%char :: rest) -> (length l < fuel)%nat ->
  exists s' cv, array_loop (JsonParseValue F) fuel s [] = OK (s', Some cv) /\ advanced s s' rest /\ stands s' cv (JArray l).
Proof.
  intros HF fuel s rest Ht Hf. destruct fuel as [|fuel]; [lia|]. destruct HF as [|x l [Hx Hw] HF]; cbn [map comma_sep app] in Ht.
  - destruct (read_punct s _ _ LexEndArray Ht eq_refl) as (s1 & E1 & Hn & A1).
    destruct (pending_spec s _ s1 _ Ht E1 Hn (av_idle _ _ _ A1)) as (Ep & _ & Es & _). exists s1, (JArray []). cbn [array_loop]. rewrite Ep.
    cbn [mbind res_bind]. rewrite Es. done.
  - rewrite <- app_assoc, map_map in Ht. cbn [length] in Hf. set (after := concat (map (fun x => ","%char :: show x) l) ++ "]"%char :: rest) in *.
    assert (Hd : delim (after ++ [NUL])) by (unfold after; destruct l as [|? l]; cbn; auto).
    destruct (first_token x s after Hw Ht Hd) as (tok & s1 & rest1 & (E1 & Hn & A1) & Hne).
    destruct (pending_spec s tok s1 _ Ht E1 Hn (av_idle _ _ _ A1)) as (Ep & _).
    destruct (Hx s after Ht Hd) as (s2 & cx & E2 & A2 & S2).
    destruct (array_rest F l) with (fuel := fuel) (s := s2) (acc := [cx]) (accv := [x]) (rest := rest) as (s' & cv & E' & A' & S').
    { eapply Forall_impl; [exact HF|]. by intros ? []. }
    { done. } { by eapply advanced_at. } { lia. }
    { apply (stands_values s2 [] [] cx x); [done|done]. }
    exists s', cv. split_and!; [|by eapply advanced_trans|done]. cbn [array_loop]. rewrite Ep. cbn [mbind res_bind length].
    change (0 <? Z.of_nat 0) with false. cbn iota. rewrite (parse_pending F s tok s1 _ Ht E1 Hn (av_idle _ _ _ A1)), E2. cbn [mbind res_bind app].
    by destruct tok.
Qed.

(** ** Sizes *)

Lemma comma_sep_size k l : (forall t, t ∈ l -> (k <= length t)%nat) -> (k * length l <= length (comma_sep l))%nat.
Proof.
  destruct l as [|x l]; intros Hk; cbn; [lia|]. rewrite length_app. assert (k <= length x)%nat by (apply Hk; set_solver).
  enough (k * length l <= length (concat (map (cons ","%char) l)))%nat by lia. assert (Hl : forall t, t ∈ l -> (k <= length t)%nat) by (intros; apply Hk; set_solver).
  clear Hk H. induction l as [|y l IH]; cbn; [lia|]. rewrite length_app. assert (k <= length y)%nat by (apply Hl; set_solver).
  assert (k * length l <= length (concat (map (cons ","%char) l)))%nat by (apply IH; intros; apply Hl; set_solver). lia.
Qed.

Lemma comma_sep_elem t l : t ∈ l -> (length t <= length (comma_sep l))%nat.
Proof.
  destruct l as [|x l]; [set_solver|]. cbn. rewrite length_app. intros [->|Ht]%elem_of_cons; [lia|].
  enough (length t <= length (concat (map (cons ","%char) l)))%nat by lia. induction l as [|y l IH]; [set_solver|]. cbn. rewrite length_app.
  apply elem_of_cons in Ht as [->|Ht]; [lia|]. specialize (IH Ht). lia.
Qed.

Lemma show_size v : writable v -> (1 <= length (show v))%nat.
Proof. intros Hw. destruct (not_end_array v [] Hw) as (c & t & E & _). rewrite app_nil_r in E. rewrite E. cbn. lia. Qed.

(** ** The round trip *)

Lemma parse_shown v : writable v -> forall F, (length (show v) < F)%nat -> reads_value (JsonParseValue F) v.
Proof.
  induction v as [|b|n|t|l IH|m IH] using json_rect'; intros Hw F HF s rest Ht Hd; [done|..]; (destruct F as [|F]; [lia|]); cbn [JsonParseValue].
  - destruct (read_bool s b rest) as (s' & E & Hn & A); [by destruct b|done|]. destruct (pending_spec s _ s' _ Ht E Hn (av_idle _ _ _ A)) as (Ep & _ & Es & _).
    exists s', (JBoolean b). rewrite Ep. cbn [mbind res_bind]. rewrite Es. done.
  - destruct (read_number s n rest Ht Hw Hd) as (s' & E & Hn & A). destruct (pending_spec s _ s' _ Ht E Hn (av_idle _ _ _ A)) as (Ep & _ & Es & _).
    exists s', (JNumber n). rewrite Ep. cbn [mbind res_bind]. rewrite Es. done.
  - destruct (read_string s t rest Ht Hw) as (s' & (E & Hn & A) & He & Hst). destruct (pending_spec s _ s' _ Ht E Hn (av_idle _ _ _ A)) as (Ep & _ & Es & _).
    exists s', (JString (jl_Cursor (js_Lexer s))). rewrite Ep. cbn [mbind res_bind]. rewrite Es. split_and!; [done|done|]. split; [done|]. cbn. by rewrite Hst.
  - apply writable_array in Hw. cbn [JsonWriter.show app] in Ht, HF. rewrite <- app_assoc in Ht. cbn [app] in Ht.
    destruct (read_punct s _ _ LexBeginArray Ht eq_refl) as (s1 & E & Hn & A). destruct (pending_spec s _ s1 _ Ht E Hn (av_idle _ _ _ A)) as (Ep & _ & _ & Ex).
    rewrite length_cons, length_app in HF. cbn [length] in HF. rewrite Forall_forall in IH, Hw.
    assert (Hsz : forall x, x ∈ l -> show x ∈ map show l) by (intros x Hx; apply list_elem_of_In, in_map; by apply list_elem_of_In).
    destruct (array_shown F l) with (fuel := F) (s := s1) (rest := rest) as (s' & cv & E' & A' & S').
    { apply Forall_forall. intros x Hx. split; [|by apply Hw]. apply IH; [done|by apply Hw|]. pose proof (comma_sep_elem _ _ (Hsz x Hx)). lia. }
    { by eapply advanced_at. }
    { pose proof (comma_sep_size 1 (map show l)) as Hc. rewrite length_map in Hc. specialize (fun H => Hc H).
      enough (1 * length l <= length (comma_sep (map show l)))%nat by lia. apply Hc. intros t (x & <- & Hx)%list_elem_of_In%in_map_iff.
      apply show_size, Hw. by apply list_elem_of_In. }
    exists s', cv. rewrite Ep. cbn [mbind res_bind]. unfold JsonParseArray. rewrite Ex. cbn [mbind res_bind]. split_and!; [done|by eapply advanced_trans|done].
  - apply writable_object in Hw. cbn [JsonWriter.show app] in Ht, HF. rewrite <- app_assoc in Ht. cbn [app] in Ht.
    change (map (fun '(k, x) => quoted k ++ ":"%char :: show x) m) with (map member_text m) in *.
    destruct (read_punct s _ _ LexBeginObject Ht eq_refl) as (s1 & E & Hn & A). destruct (pending_spec s _ s1 _ Ht E Hn (av_idle _ _ _ A)) as (Ep & _ & _ & Ex).
    rewrite length_cons, length_app in HF. cbn [length] in HF. rewrite Forall_forall in IH, Hw.
    assert (Hsz : forall kv, kv ∈ m -> member_text kv ∈ map member_text m) by (intros x Hx; apply list_elem_of_In, in_map; by apply list_elem_of_In).
    destruct (object_shown (JsonParseValue F) m) with (fuel := F) (s := s1) (rest := rest) as (s' & cv & E' & A' & S').
    { apply Forall_forall. intros [k x] Hx. destruct (Hw _ Hx) as [Hk Hwx]. split; [|done]. cbn [snd] in *. apply (IH (k, x)); [done|done|].
      pose proof (comma_sep_elem _ _ (Hsz _ Hx)) as Hc. cbn [member_text] in Hc. rewrite length_app, length_cons in Hc. cbn [snd]. lia. }
    { by eapply advanced_at. }
    { pose proof (comma_sep_size 2 (map member_text m)) as Hc. rewrite length_map in Hc.
      enough (2 * length m <= length (comma_sep (map member_text m)))%nat by lia. apply Hc. intros t ([k x] & <- & Hx)%list_elem_of_In%in_map_iff.
      cbn [member_text]. rewrite length_app. unfold quoted. cbn. lia. }
    exists s', cv. rewrite Ep. cbn [mbind res_bind]. unfold JsonParseObject. rewrite Ex. cbn [mbind res_bind]. split_and!; [done|by eapply advanced_trans|done].
Qed.

Lemma esc_cstr s : Forall (fun c => char_ok c = true) s -> cstr_ok (concat (map esc s)).
Proof.
  induction 1 as [|c s Hc Hs IH]; cbn; [constructor|]. apply Forall_app. split; [|done].
  destruct (esc_cases c Hc) as [(-> & _)|(e & -> & _ & He)]; repeat constructor; try done; by apply char_ok_nul.
Qed.

Lemma quoted_cstr s : Forall (fun c => char_ok c = true) s -> cstr_ok (quoted s).
Proof. intros Hs. constructor; [done|]. apply Forall_app. split; [by apply esc_cstr|]. by repeat constructor. Qed.

Lemma comma_sep_cstr l : Forall cstr_ok l -> cstr_ok (comma_sep l).
Proof.
  destruct 1 as [|x l Hx Hl]; [constructor|]. cbn. apply Forall_app. split; [done|]. induction Hl as [|y l Hy Hl IH]; cbn; [constructor|].
  constructor; [done|]. apply Forall_app. by split.
Qed.

Lemma show_cstr v : writable v -> cstr_ok (show v).
Proof.
  induction v as [|b|n|t|l IH|m IH] using json_rect'; intros Hw; [done|..]; cbn [JsonWriter.show].
  - destruct b; repeat constructor; done.
  - apply Hw.
  - by apply quoted_cstr.
  - apply writable_array in Hw. constructor; [done|]. apply Forall_app. split; [|by repeat constructor]. apply comma_sep_cstr.
    rewrite Forall_forall in IH, Hw. apply Forall_forall. intros t (x & <- & Hx)%list_elem_of_In%in_map_iff. apply list_elem_of_In in Hx. auto.
  - apply writable_object in Hw. constructor; [done|]. apply Forall_app. split; [|by repeat constructor]. apply comma_sep_cstr.
    rewrite Forall_forall in IH, Hw. apply Forall_forall. intros t ([k x] & <- & Hx)%list_elem_of_In%in_map_iff. apply list_elem_of_In in Hx.
    destruct (Hw _ Hx) as [Hk Hwx]. apply Forall_app. split; [by apply quoted_cstr|]. constructor; [done|]. by apply (IH (k, x)).
Qed.

Lemma read_eof s : at_text s [] -> exists s', lex_next s = OK (s', LexEof) /\ jl_Buffer (js_Lexer s') = jl_Buffer (js_Lexer s).
Proof.
  intros Ht. pose proof (tx_view _ _ Ht) as Hv. pose proof (view_nil _ _ Hv) as E. pose proof (view_size _ _ _ Hv) as Hz. pose proof (vw_pos _ _ _ Hv).
  assert (Es : SkipWhitespace (js_Lexer s) = OK (js_Lexer s)).
  { unfold SkipWhitespace. destruct (length (jl_Buffer (js_Lexer s))) as [|n]; [cbn in Hz; lia|]. cbn [SkipWhitespace_loop]. rewrite E.
    cbn. by destruct (js_Lexer s). }
  eexists. split; [eapply idle_next; [done|]|].
  - unfold JsonLexerFetchNext. rewrite Es. cbn [mbind res_bind]. rewrite E. cbn [of_opt mbind res_bind]. vm_compute (Ascii.eqb NUL "-" || _).
    reflexivity.
  - done.
Qed.

(** C19. The JSON round trip. For every value without null whose strings and names
    are ASCII without NUL and vertical tab, and whose numbers print as text that
    [strtod] reads back, the calls that write it succeed, and the parser reads
    the closed file back as the same value: decoding strings in place over the
    text disturbs neither the text still to be read nor a string read before. *)
Theorem json_roundtrip v : writable v ->
  exists text, write_json number2str v = OK text /\ cstr_ok text /\ parsed (JsonParse (text ++ [NUL])) = Some v.
Proof.
  intros Hw. exists (show v). split; [by apply write_json_ok|]. pose proof (show_cstr v Hw) as Hc. split; [done|].
  set (s0 := mkJson (JsonLexerStateInit (show v ++ [NUL])) None).
  assert (Ht : at_text s0 (show v ++ [])) by (rewrite app_nil_r; split; [split; [done|by rewrite drop_0|done]|done]).
  unfold JsonParse. fold s0. destruct (parse_shown v Hw (S (length (show v ++ [NUL])))) with (s := s0) (rest := @nil ascii) as (s1 & cv & E & A & S1).
  { rewrite length_app. cbn. lia. } { done. } { cbn. auto. }
  rewrite E. cbn [mbind res_bind]. destruct (read_eof s1 (advanced_at _ _ _ A)) as (s2 & E2 & Eb). rewrite E2. cbn [mbind res_bind parsed].
  f_equal. rewrite Eb. apply S1.
Qed.

End Round.

(** ** Integers print and read back *)

Definition digit (d : Z) : ascii := ascii_of_N (Z.to_N (d + 48)).

Fixpoint dec_digits (fuel : nat) (n : Z) : cstr :=
  match fuel with
  | O => []
  | S fuel => if n <? 10 then [digit n] else dec_digits fuel (n / 10) ++ [digit (n mod 10)]
  end.

(** What [%.14g] prints for an integer below 10^14. *)
Definition int_str (n : number) : cstr :=
  match n with
  | Finite neg m _ _ => (if neg then ["-"%char] else []) ++ dec_digits 14 m
  | _ => []
  end.

Lemma digit_ok d : 0 <= d < 10 -> isdigit (digit d) = true /\ xdigit (digit d) = d /\ digit d <> NUL.
Proof.
  intros Hd. assert (d = 0 \/ d = 1 \/ d = 2 \/ d = 3 \/ d = 4 \/ d = 5 \/ d = 6 \/ d = 7 \/ d = 8 \/ d = 9) as Hc by lia.
  repeat destruct Hc as [->|Hc]; try (subst d); vm_compute; split_and!; done.
Qed.

Lemma dec_digits_ok fuel : forall n, 0 <= n < 10 ^ Z.of_nat fuel -> (0 < fuel)%nat ->
  Forall (fun c => isdigit c = true /\ c <> NUL) (dec_digits fuel n) /\ dec_digits fuel n <> [] /\ digits_value 10 (dec_digits fuel n) = n.
Proof.
  induction fuel as [|fuel IH]; intros n Hn Hf; [lia|]. cbn [dec_digits]. destruct (Z.ltb_spec n 10) as [Hlt|Hge].
  - destruct (digit_ok n) as (H1 & H2 & H3); [lia|]. split_and!; [by repeat constructor|done|]. cbn. lia.
  - assert (Hq : 0 <= n / 10 < 10 ^ Z.of_nat fuel).
    { split; [apply Z.div_pos; lia|]. apply Z.div_lt_upper_bound; [lia|]. rewrite Nat2Z.inj_succ, Z.pow_succ_r in Hn by lia. lia. }
    assert (Hfuel : (0 < fuel)%nat). { destruct fuel; [|lia]. cbn in Hq. pose proof (Z.div_le_lower_bound n 10 1). lia. }
    destruct (IH (n / 10) Hq Hfuel) as (HF & Hne & Hv). destruct (digit_ok (n mod 10)) as (H1 & H2 & H3); [apply Z.mod_pos_bound; lia|].
    split_and!; [apply Forall_app; split; [done|by repeat constructor]|by destruct (dec_digits fuel (n / 10))|].
    unfold digits_value in *. rewrite fold_left_app, Hv. cbn. rewrite H2. pose proof (Z.div_mod n 10). lia.
Qed.

Lemma span_digits ds rest : Forall (fun c => isdigit c = true /\ c <> NUL) ds -> delim rest -> span isdigit (ds ++ rest) = (ds, rest).
Proof.
  intros HF Hd. induction HF as [|c ds [Hc _] HF IH]; cbn [app span].
  - destruct rest as [|c rest]; [done|]. destruct Hd as [->|[->|[->| ->]]]; done.
  - by rewrite Hc, IH.
Qed.

Lemma scan_word_digit c w d s : isdigit d = true -> uchar c < 48 \/ 57 < uchar c -> scan_word (c :: w) (d :: s) = None.
Proof.
  intros Hd Hc. cbn. unfold isdigit in Hd. apply andb_true_iff in Hd as [?%Z.leb_le ?%Z.leb_le]. unfold tolower.
  assert (isupper d = false) as -> by (unfold isupper; apply andb_false_iff; left; apply Z.leb_gt; lia).
  rewrite (proj2 (Z.eqb_neq _ _)) by lia. done.
Qed.

Lemma no_hex_prefix ds rest : Forall (fun c => isdigit c = true /\ c <> NUL) ds -> ds <> [] -> delim rest -> scan_word "0x" (ds ++ rest) = None.
Proof.
  intros HF Hne Hd. destruct HF as [|d ds [Hd1 _] HF]; [done|]. cbn [s2l String.list_ascii_of_string app scan_word]. case_match; [|done].
  destruct HF as [|e ds [He _] HF]; cbn [app].
  - destruct rest as [|c rest]; [done|]. destruct Hd as [->|[->|[->| ->]]]; done.
  - apply (scan_word_digit "x"%char []); [done|right; vm_compute; done].
Qed.

Lemma int_prints neg m : 0 <= m < 10 ^ 14 -> prints int_str (Finite neg m 10 0).
Proof.
  intros Hm. destruct (dec_digits_ok 14 m Hm) as (HF & Hne & Hv); [lia|]. unfold prints, int_str.
  set (ds := dec_digits 14 m) in *. split_and!.
  - apply Forall_app. split; [destruct neg; by repeat constructor|]. eapply Forall_impl; [exact HF|]. by intros ? [].
  - destruct neg; cbn [app]; [do 2 eexists; split; [done|by left]|]. destruct HF as [|c ds [Hc _] _]; [done|]. do 2 eexists. split; [done|by right].
  - intros rest Hd.
    assert (Hcore : forall b, match scan_word "infinity" (ds ++ rest) with Some s' => Some (Infinite b, s') | None =>
      match scan_word "inf" (ds ++ rest) with Some s' => Some (Infinite b, s') | None =>
      match scan_word "nan" (ds ++ rest) with Some s' => Some (NotANumber b, scan_nan_suffix s') | None =>
      match scan_word "0x" (ds ++ rest) with Some s' => match scan_hex b s' with Some r => Some r | None => scan_decimal b (ds ++ rest) end
      | None => scan_decimal b (ds ++ rest) end end end end = Some (Finite b m 10 0, rest)).
    { intros b. rewrite no_hex_prefix by done.
      assert (Hw : forall c w, 57 < uchar c -> scan_word (c :: w) (ds ++ rest) = None).
      { intros c w Hc. destruct HF as [|d ds' [Hd1 _] _]; [done|]. apply scan_word_digit; [done|by right]. }
      cbn [s2l String.list_ascii_of_string]. rewrite !Hw by (vm_compute; done). unfold scan_decimal, scan_mantissa. rewrite (span_digits ds rest HF Hd).
      destruct rest as [|c rest]; [done|]. assert (Hc : c <> "."%char /\ (tolower c =? 101) = false) by (destruct Hd as [->|[->|[->| ->]]]; done).
      destruct Hc as [Hdot He].
      assert (Efr : match c :: rest with "."%char :: s1' => span isdigit s1' | _ => ([], c :: rest) end = ([], c :: rest)) by (repeat case_match; simplify_eq; done).
      rewrite Efr. assert (Erest : match c :: rest with "."%char :: s1' => s1' | _ => c :: rest end = c :: rest) by (repeat case_match; simplify_eq; done).
      destruct ds as [|d ds'] eqn:Eds; [done|]. rewrite Erest. cbn [scan_exponent]. rewrite He. do 3 f_equal. exact Hv. }
    unfold strtod. destruct HF as [|d ds' [Hd1 _] HF']; [done|].
    assert (Hsp : isspace d = false).
    { unfold isdigit, isspace in *. apply andb_true_iff in Hd1 as [?%Z.leb_le ?%Z.leb_le].
      apply orb_false_iff. split; [apply Z.eqb_neq; lia|]. apply andb_false_iff. right. apply Z.leb_gt. lia. }
    destruct neg; cbn [app span].
    + change (isspace "-"%char) with false. cbn iota. apply Hcore.
    + rewrite Hsp. assert (Hsg : d <> "-"%char /\ d <> "+"%char) by (split; intros ->; done).
      cbn [app] in Hcore. specialize (Hcore false).
      destruct d as [[] [] [] [] [] [] [] []]; first [exact Hcore | vm_compute in Hd1; discriminate Hd1].
Qed.

Module DemoJson.
Definition str (s : string) : json cstr := JString (s2l s).
Definition num (n : Z) : json cstr := JNumber (Finite (n <? 0) (Z.abs n) 10 0).
Definition doc : json cstr :=
  JObject [(s2l "Name", JString ("a"%char :: "034"%char :: "\"%char :: "010"%char :: nil)); (s2l "Deps", JArray [num 0; num (-12); num 340]);
           (s2l "Empty", JObject []); (s2l "Flags", JArray [JBoolean true; JArray []; str "x/y"])].
End DemoJson.

Lemma json_roundtrip_witness :
  exists text, write_json int_str DemoJson.doc = OK text /\ cstr_ok text /\ parsed (JsonParse (text ++ [NUL])) = Some DemoJson.doc.
Proof.
  apply json_roundtrip. cbn [writable DemoJson.doc DemoJson.str DemoJson.num foldr].
  split_and!; try exact I; try (apply int_prints; vm_compute; split; [discriminate|reflexivity]);
    apply (bool_decide_eq_true_1 _); vm_compute; reflexivity.
Defined.

Lemma not_ascii_code c : 128 <= uchar c -> escape_code c = Err OutOfBounds.
Proof.
  intros Hc. pose proof (uchar_range c). unfold escape_code, schar. rewrite (proj2 (Z.ltb_ge _ _)) by done.
  assert (E : u32 (uchar c - 256) = 2 ^ 32 + uchar c - 256).
  { unfold u32. symmetry. apply (Z.mod_unique_pos _ _ (-1)); lia. }
  rewrite E, zlookup_ge; [done|]. change (zlen s_EscapeTable) with 256. lia.
Qed.

(** Strings outside that range are lost between the two programs: a byte that
    is not ASCII indexes the escape table out of bounds ([(uint32_t) ch] of a
    negative char), and a vertical tab is written as an escape the parser
    rejects. *)
Theorem json_writer_gaps number2str :
  (forall c, 128 <= uchar c -> write_json number2str (JString [c]) = Err OutOfBounds) /\
  exists text, write_json number2str (JString ["011"%char]) = OK text /\ parsed (JsonParse (text ++ [NUL])) = None.
Proof.
  split.
  - intros c Hc. unfold write_json. cbn [calls_of foldM do_json_call]. unfold LuaJsonWriteString, WriteEscapedString.
    cbn [WriteCommon mbind res_bind foldM]. unfold write_escaped. by rewrite (not_ascii_code c Hc).
  - exists ["034"%char; "\"%char; "v"%char; "034"%char]. split; vm_compute; reflexivity.
Qed.
