(* ===== verification/DagGenerator.v ===== *)
(** * The DAG generator

    DagGenerator.cpp: the front end describes the build as a JSON document; the
    generator compiles it to the memory-mapped file the build works from. Nodes
    get a guid, the digest of what identifies them, and are stored in guid
    order; dependencies are renumbered to that order and inverted into back
    links; strings that recur are stored once.

    The functions of the source share the segments of one writer and the table
    of shared strings; they are a state monad over both, in which the return
    value [false], which every caller passes on, ends the run. *)

From S2P Require Import Prelude CType CommonFns Hash HashImpl DagData SortedArray HashTable StatCache PathUtil BinaryWriter FrozenFile FileSign.
From S2P Require Import JsonParse.

(** ** Reading numbers *)

(** The double nearest to an exact number, ties to even, truncated to an
    integer; [None] when it has a magnitude of 2^64 or more or is not finite. *)
Definition round_half_even (a b : Z) : Z :=
  let m := a / b in
  let r := a mod b in
  if (b <? 2 * r) || ((2 * r =? b) && Z.odd m) then m + 1 else m.

Definition double_trunc (n : number) : option Z :=
  match n with
  | Finite neg mant base exp =>
      let '(p, q) := if 0 <=? exp then (mant * base ^ exp, 1) else (mant, base ^ (- exp)) in
      let t := p / q in
      if 2 ^ 64 <=? t then None else
      let e := if t =? 0 then -53 else Z.log2 t - 52 in
      let v := if 0 <=? e then round_half_even p (q * 2 ^ e) * 2 ^ e else round_half_even (p * 2 ^ (- e)) q / 2 ^ (- e) in
      Some (if neg then - v else v)
  | _ => None
  end.

(** [(int) d] and [(int64_t) d], undefined when the value does not fit. *)
Definition double_to_int (n : number) : res Z :=
  match double_trunc n with
  | Some v => if (- 2 ^ 31 <=? v) && (v <? 2 ^ 31) then OK v else Err (Undefined "(int) of a double out of range")
  | None => Err (Undefined "(int) of a double out of range")
  end.

Definition double_to_int64 (n : number) : res Z :=
  match double_trunc n with
  | Some v => if (- 2 ^ 63 <=? v) && (v <? 2 ^ 63) then OK v else Err (Undefined "(int64_t) of a double out of range")
  | None => Err (Undefined "(int64_t) of a double out of range")
  end.

(** ** Finding members *)

Abbreviation value := (json cstr).
Abbreviation object := (list (cstr * json cstr)).

Definition FindStringValue (obj : value) (key : cstr) (default_value : option cstr) : option cstr :=
  match obj with
  | JObject members =>
      match find_member members key with
      | Some (JString s) => Some s
      | _ => default_value
      end
  | _ => default_value
  end.

Definition FindArrayValue (obj : option object) (key : cstr) : option (list value) :=
  match obj with
  | None => None
  | Some members => match find_member members key with Some (JArray l) => Some l | _ => None end
  end.

Definition FindObjectValue (obj : object) (key : cstr) : option object :=
  match find_member obj key with Some (JObject m) => Some m | _ => None end.

Definition FindIntValue (obj : object) (key : cstr) (def_value : Z) : res Z :=
  match find_member obj key with
  | Some (JNumber n) => double_to_int64 n
  | _ => OK def_value
  end.

Definition EmptyArray (a : option (list value)) : bool :=
  match a with None => true | Some l => zlen l =? 0 end.

Definition GetNodeFlag (node : object) (name : cstr) (v : Z) : Z :=
  match find_member node name with
  | Some (JBoolean true) => v
  | _ => 0
  end.

(** [GetBoolean(obj, name)]; the accessor of [JsonValue] has the same name. *)
Definition GetBooleanMember (obj : object) (name : cstr) : bool :=
  match find_member obj name with
  | Some (JBoolean b) => b
  | _ => false
  end.

(** ** The writer's state *)

Record CommonStringRecord : Type := mkCommon { cs_Pointer : BinaryLocator }.

Definition no_record : CommonStringRecord := mkCommon (mkLoc 0 0).

Record Gen : Type := mkGen { g_Writer : BinaryWriter; g_SharedStrings : HashTable CommonStringRecord }.

Definition gen (A : Type) : Type := Gen -> res (option (A * Gen)).

#[global] Instance gen_ret : MRet gen := fun A a g => OK (Some (a, g)).
#[global] Instance gen_bind : MBind gen := fun A B k m g =>
  match m g with
  | OK (Some (a, g')) => k a g'
  | OK None => OK None
  | Err f => Err f
  end.

(** [return false] *)
Definition fails {A} : gen A := fun _ => OK None.
Definition lift {A} (r : res A) : gen A := fun g => match r with OK a => OK (Some (a, g)) | Err f => Err f end.
Definition or_false {A} (o : option A) : gen A := match o with Some a => mret a | None => fails end.
Definition require (b : bool) : gen unit := if b then mret tt else fails.

Fixpoint for_each {B} (body : B -> gen unit) (l : list B) : gen unit :=
  match l with
  | [] => mret tt
  | b :: l' => _ ← body b; for_each body l'
  end.

Fixpoint fold_gen {A B} (body : A -> B -> gen A) (a : A) (l : list B) : gen A :=
  match l with
  | [] => mret a
  | b :: l' => a' ← body a b; fold_gen body a' l'
  end.

(** The segments, in the order they are added. *)
Abbreviation main_seg := 0%nat.
Abbreviation node_guid_seg := 1%nat.
Abbreviation node_data_seg := 2%nat.
Abbreviation aux_seg := 3%nat.
Abbreviation aux2_seg := 4%nat.
Abbreviation str_seg := 5%nat.

Definition new_gen : Gen := mkGen (new_writer 6) HashTableInit.

Definition on (seg : nat) (f : BinarySegment -> BinarySegment) : gen unit :=
  fun g => OK (Some (tt, mkGen (alter f seg (g_Writer g)) (g_SharedStrings g))).

Definition position (seg : nat) : gen BinaryLocator :=
  fun g => match g_Writer g !! seg with Some s => OK (Some (BinarySegmentPosition s, g)) | None => Err OutOfBounds end.

(** [BinarySegmentWritePointer(seg, BinarySegmentPosition(target))] *)
Definition write_pointer_to (seg target : nat) : gen unit := p ← position target; on seg (BinarySegmentWritePointer p).

Definition write_i32 (seg : nat) (v : Z) : gen unit := on seg (BinarySegmentWriteInt32 v).

(** ** Buffers that grow

    [BufferAlloc] doubles the capacity when it does not suffice, and then the
    bytes move; pointers into the buffer are invalid from then on. *)

(** The capacity of a segment of [size] bytes that was only written in steps of
    at most 128 kilobytes: it starts with that and doubles. *)
Definition bytes_capacity (size : Z) : Z := Z.max (2 ^ 17) (2 ^ Z.log2_up size).

(** [HashFinalize] through the pointer [BinarySegmentAlloc] gave when the segment
    had capacity [capacity]. *)
Definition store_digest (seg : nat) (off capacity : Z) (d : HashDigest) : gen unit := fun g =>
  match g_Writer g !! seg with
  | None => Err OutOfBounds
  | Some s =>
      if negb (bytes_capacity (BinarySegmentSize s) =? capacity) then Err (Undefined "write into a buffer that was reallocated") else
      bytes ← patch (sg_Bytes s) off (digest_bytes d);
      OK (Some (tt, mkGen (alter (fun s => mkSegment (sg_Index s) (sg_GlobalOffset s) bytes (sg_Fixups s)) seg (g_Writer g)) (g_SharedStrings g)))
  end.

Section Generator.
(** Paths of the host; what the stack held where paths are built, where the hash
    buffers are and in fresh heap memory; the file system. *)
Context (native : PathType) (ci : bool) (junk_ends : list Z) (junk_data junk : cstr) (junk_byte : Z).
Context `{StdSort} (stat : cstr -> stat_result) {dirs : DirectoryReader}.

(** ** Strings and files *)

Definition WriteStringPtr (seg str : nat) (text : option cstr) : gen unit :=
  match text with
  | Some text => _ ← write_pointer_to seg str; on str (BinarySegmentWriteStringData text)
  | None => on seg BinarySegmentWriteNullPointer
  end.

(** A null [ptr] is dereferenced by [Djb2Hash]. *)
Definition WriteCommonStringPtr (seg str : nat) (ptr : option cstr) : gen unit :=
  ptr ← lift (of_opt ptr);
  let hash := Djb2Hash ptr in
  g ← (fun g => OK (Some (g, g)) : res (option (Gen * Gen)));
  r ← lift (HashTableLookup false (g_SharedStrings g) hash ptr);
  match r with
  | None =>
      p ← position str;
      t ← lift (HashTableInsert no_record (g_SharedStrings g) hash ptr (mkCommon p));
      _ ← (fun g => OK (Some (tt, mkGen (g_Writer g) t)) : res (option (unit * Gen)));
      _ ← on str (BinarySegmentWriteStringData ptr);
      on seg (BinarySegmentWritePointer p)
  | Some r => on seg (BinarySegmentWritePointer (cs_Pointer r))
  end.

Definition clean_path (path : cstr) : res cstr :=
  pathbuf ← PathInit junk_ends junk_data path native;
  PathFormat pathbuf.

(** The loop of [WriteFileArray]; the result is its return value. *)
Fixpoint write_files (ptr_seg str : nat) (files : list value) : gen bool :=
  match files with
  | [] => mret true
  | f :: files' =>
      match AsString f with
      | None => mret false
      | Some path =>
          cleaned_path ← lift (clean_path path);
          _ ← WriteStringPtr ptr_seg str (Some cleaned_path);
          _ ← on ptr_seg (BinarySegmentWriteUint32 (Djb2HashPath ci cleaned_path));
          write_files ptr_seg str files'
      end
  end.

Definition WriteFileArray (seg ptr_seg str : nat) (files : option (list value)) : gen bool :=
  match files with
  | None | Some [] =>
      _ ← write_i32 seg 0;
      _ ← on seg BinarySegmentWriteNullPointer;
      mret true
  | Some files =>
      _ ← write_i32 seg (i32 (zlen files));
      _ ← write_pointer_to seg ptr_seg;
      write_files ptr_seg str files
  end.

Definition WriteStrHashArray (main aux str : nat) (strings : list value) : gen unit :=
  _ ← write_i32 main (i32 (zlen strings));
  _ ← write_pointer_to main aux;
  _ ← for_each (fun v => s ← lift (GetString v); WriteStringPtr aux str (Some s)) strings;
  _ ← write_pointer_to main aux;
  for_each (fun v => s ← lift (GetString v); on aux (BinarySegmentWriteUint32 (Djb2Hash s))) strings.

Definition WriteNodeArray (top data : nat) (ints : list value) (remap_table : list Z) : gen unit :=
  _ ← write_i32 top (i32 (zlen ints));
  _ ← write_pointer_to top data;
  for_each (fun v =>
    num ← or_false (AsNumber v);
    i ← lift (double_to_int num);
    index ← lift (of_opt (remap_table !!z i));
    write_i32 data index) ints.

(** ** Scanners *)

Definition scanner_type_of (kind : cstr) : option ScannerType :=
  if strcmp kind (s2l "cpp") =? 0 then Some kCpp
  else if strcmp kind (s2l "generic") =? 0 then Some kGeneric
  else None.

Definition scanner_type_code (t : ScannerType) : Z := match t with kCpp => 0 | kGeneric => 1 end.

(** The lambda [write_kws]. *)
Definition write_kws (array_seg str : nat) (array : option (list value)) (follow : bool) : gen unit :=
  match array with
  | None => mret tt
  | Some values =>
      for_each (fun v =>
        s ← or_false (AsString v);
        _ ← WriteStringPtr array_seg str (Some s);
        _ ← on array_seg (BinarySegmentWriteInt16 (strlen s));
        _ ← on array_seg (BinarySegmentWriteUint8 (if follow then 1 else 0));
        on array_seg (BinarySegmentWriteUint8 0)) values
  end.

Definition count_of (a : option (list value)) : Z := match a with Some l => zlen l | None => 0 end.

Definition generic_flags (data : object) : Z :=
  Z.lor (Z.lor (if GetBooleanMember data (s2l "RequireWhitespace") then kFlagRequireWhitespace else 0)
    (if GetBooleanMember data (s2l "UseSeparators") then kFlagUseSeparators else 0))
    (if GetBooleanMember data (s2l "BareMeansSystem") then kFlagBareMeansSystem else 0).

Definition write_generic (seg array_seg str : nat) (data : object) : gen unit :=
  _ ← on seg (BinarySegmentWriteUint32 (generic_flags data));
  let follow_kws := FindArrayValue (Some data) (s2l "Keywords") in
  let nofollow_kws := FindArrayValue (Some data) (s2l "KeywordsNoFollow") in
  let kw_count := count_of follow_kws + count_of nofollow_kws in
  _ ← write_i32 seg (i32 kw_count);
  if 0 <? kw_count then
    _ ← on array_seg (BinarySegmentAlign 4);
    _ ← write_pointer_to seg array_seg;
    _ ← write_kws array_seg str follow_kws true;
    write_kws array_seg str nofollow_kws false
  else on seg BinarySegmentWriteNullPointer.

Definition WriteScanner (seg array_seg str : nat) (data : option object) : gen BinaryLocator :=
  data ← or_false data;
  kind ← or_false (FindStringValue (JObject data) (s2l "Kind") None);
  incpaths ← or_false (FindArrayValue (Some data) (s2l "IncludePaths"));
  _ ← on seg (BinarySegmentAlign 4);
  ptr_out ← position seg;
  type ← or_false (scanner_type_of kind);
  _ ← write_i32 seg (scanner_type_code type);
  _ ← write_i32 seg (i32 (zlen incpaths));
  _ ← write_pointer_to seg array_seg;
  h ← fold_gen (fun h v =>
    path ← lift (GetString v);
    _ ← WriteCommonStringPtr array_seg str (Some path);
    mret (HashAddPath ci h path)) (HashAddString (HashInit junk) kind) incpaths;
  digest_space ← position seg;
  _ ← on seg (BinarySegmentWrite (replicate 16 junk_byte));
  let capacity := bytes_capacity (bl_Offset digest_space + 16) in
  _ ← match type with kGeneric => write_generic seg array_seg str data | kCpp => mret tt end;
  digest ← lift (HashFinalize h);
  _ ← store_digest seg (bl_Offset digest_space) capacity digest;
  mret ptr_out.

(** ** Guids *)

(** [struct TempNodeGuid] *)
Record TempNodeGuid : Type := mkTemp { tg_Digest : HashDigest; tg_Node : Z }.

Definition temp_lt (a b : TempNodeGuid) : bool := digest_lt (tg_Digest a) (tg_Digest b).

Definition hash_input (h : HashState) (v : value) : HashState :=
  match AsString v with Some s => HashAddString h s | None => h end.

(** [!s || s[0] == '\0'] *)
Definition blank (s : option cstr) : bool :=
  match s with
  | None => true
  | Some [] => true
  | Some (c :: _) => Ascii.eqb c NUL
  end.

(** One iteration of the first loop of [ComputeNodeGuids]. *)
Definition node_guid (i : Z) (v : value) : gen TempNodeGuid :=
  nobj ← or_false (AsObject v);
  let h := HashInit junk in
  let action := FindStringValue (JObject nobj) (s2l "Action") None in
  let inputs := FindArrayValue (Some nobj) (s2l "Inputs") in
  let h := if blank action then h else HashAddString h (default [] action) in
  let h := match inputs with Some l => foldl hash_input h l | None => h end in
  let annotation := FindStringValue (JObject nobj) (s2l "Annotation") None in
  let h := match annotation with Some a => HashAddString h a | None => h end in
  _ ← require (negb (blank action && bool_decide (inputs = None) && bool_decide (annotation = None)));
  digest ← lift (HashFinalize h);
  mret (mkTemp digest i).

Fixpoint node_guids (i : Z) (nodes : list value) : gen (list TempNodeGuid) :=
  match nodes with
  | [] => mret []
  | v :: nodes' =>
      t ← node_guid i v;
      ts ← node_guids (i + 1) nodes';
      mret (t :: ts)
  end.

(** The loop over neighbours, which fails on the first equal pair. *)
Fixpoint neighbours_differ (table : list TempNodeGuid) : bool :=
  match table with
  | a :: (b :: _) as rest => if digest_eq (tg_Digest a) (tg_Digest b) then false else neighbours_differ rest
  | _ => true
  end.

Fixpoint fill_remap (remap_table : list Z) (i : Z) (guid_table : list TempNodeGuid) : res (list Z) :=
  match guid_table with
  | [] => OK remap_table
  | t :: guid_table' => remap_table ← zwrite (tg_Node t) i remap_table; fill_remap remap_table (i + 1) guid_table'
  end.

(** The guid table and the remap table, which starts out as fresh heap memory. *)
Definition ComputeNodeGuids (nodes : list value) : gen (list TempNodeGuid * list Z) :=
  table ← node_guids 0 nodes;
  let guid_table := std_sort temp_lt table in
  _ ← require (neighbours_differ guid_table);
  remap_table ← lift (fill_remap (replicate (length nodes) junk_byte) 0 guid_table);
  mret (guid_table, remap_table).

(** ** Nodes *)

(** [BufferAppendOne(&links[dep_index].m_Links, heap, int32_t(i))] *)
Definition add_link (links : list (list Z)) (dep_index i : Z) : res (list (list Z)) :=
  l ← of_opt (links !!z dep_index);
  zwrite dep_index (l ++ [i]) links.

Definition link_dep (node_count i : Z) (links : list (list Z)) (v : value) : gen (list (list Z)) :=
  n ← or_false (AsNumber v);
  dep_index ← lift (double_to_int n);
  _ ← require (negb ((dep_index <? 0) || (node_count <=? dep_index)));
  lift (add_link links dep_index i).

(** The first loop of [WriteNodes]. *)
Fixpoint collect_links (node_count i : Z) (links : list (list Z)) (nodes : list value) : gen (list (list Z)) :=
  match nodes with
  | [] => mret links
  | v :: nodes' =>
      node ← or_false (AsObject v);
      links ← match FindArrayValue (Some node) (s2l "Deps") with
              | Some deps => fold_gen (link_dep node_count i) links deps
              | None => mret links
              end;
      collect_links node_count (i + 1) links nodes'
  end.

Definition write_deps (node_seg array2 : nat) (remap_table : list Z) (deps : option (list value)) : gen unit :=
  match deps with
  | Some deps =>
      _ ← on array2 (BinarySegmentAlign 4);
      _ ← write_i32 node_seg (i32 (zlen deps));
      _ ← write_pointer_to node_seg array2;
      for_each (fun v =>
        n ← or_false (AsNumber v);
        index ← lift (double_to_int n);
        remapped_index ← lift (of_opt (remap_table !!z index));
        write_i32 array2 remapped_index) deps
  | None =>
      _ ← write_i32 node_seg 0;
      on node_seg BinarySegmentWriteNullPointer
  end.

Definition write_backlinks (node_seg array2 : nat) (remap_table backlinks : list Z) : gen unit :=
  if 0 <? zlen backlinks then
    _ ← write_i32 node_seg (i32 (zlen backlinks));
    _ ← write_pointer_to node_seg array2;
    for_each (fun index => remapped ← lift (of_opt (remap_table !!z index)); write_i32 array2 remapped) backlinks
  else
    _ ← write_i32 node_seg 0;
    on node_seg BinarySegmentWriteNullPointer.

Definition write_env (node_seg array2 str : nat) (env_vars : option (list value)) : gen unit :=
  match env_vars with
  | None | Some [] =>
      _ ← write_i32 node_seg 0;
      on node_seg BinarySegmentWriteNullPointer
  | Some vars =>
      _ ← on array2 (BinarySegmentAlign 4);
      _ ← write_i32 node_seg (i32 (zlen vars));
      _ ← write_pointer_to node_seg array2;
      for_each (fun v =>
        key ← or_false (FindStringValue v (s2l "Key") None);
        value ← or_false (FindStringValue v (s2l "Value") None);
        _ ← WriteCommonStringPtr array2 str (Some key);
        WriteCommonStringPtr array2 str (Some value)) vars
  end.

Definition write_scanner_ptr (node_seg : nat) (scanner_ptrs : list BinaryLocator) (scanner_index : Z) : gen unit :=
  if negb (-1 =? scanner_index) then
    p ← lift (of_opt (scanner_ptrs !!z scanner_index));
    on node_seg (BinarySegmentWritePointer p)
  else on node_seg BinarySegmentWriteNullPointer.

Definition node_flags (node : object) : Z :=
  Z.lor (Z.lor (GetNodeFlag node (s2l "OverwriteOutputs") kFlagOverwriteOutputs)
    (GetNodeFlag node (s2l "PreciousOutputs") kFlagPreciousOutputs))
    (GetNodeFlag node (s2l "Expensive") kFlagExpensive).

(** The body of the second loop of [WriteNodes]; the return values of
    [WriteFileArray] are dropped. *)
Definition write_node (nodes : list value) (node_seg array2 str : nat) (scanner_ptrs : list BinaryLocator) (remap_table : list Z)
    (links : list (list Z)) (t : TempNodeGuid) : gen unit :=
  let i := tg_Node t in
  v ← lift (of_opt (nodes !!z i));
  node ← lift (of_opt (AsObject v));
  pass_index ← lift (FindIntValue node (s2l "PassIndex") 0);
  scanner_index ← lift (FindIntValue node (s2l "ScannerIndex") (-1));
  _ ← WriteStringPtr node_seg str (FindStringValue v (s2l "Action") None);
  _ ← WriteStringPtr node_seg str (FindStringValue v (s2l "PreAction") None);
  _ ← WriteCommonStringPtr node_seg str (FindStringValue v (s2l "Annotation") None);
  _ ← write_i32 node_seg (i32 pass_index);
  _ ← write_deps node_seg array2 remap_table (FindArrayValue (Some node) (s2l "Deps"));
  backlinks ← lift (of_opt (links !!z i));
  _ ← write_backlinks node_seg array2 remap_table backlinks;
  _ ← WriteFileArray node_seg array2 str (FindArrayValue (Some node) (s2l "Inputs"));
  _ ← WriteFileArray node_seg array2 str (FindArrayValue (Some node) (s2l "Outputs"));
  _ ← WriteFileArray node_seg array2 str (FindArrayValue (Some node) (s2l "AuxOutputs"));
  _ ← write_env node_seg array2 str (FindArrayValue (Some node) (s2l "Env"));
  _ ← write_scanner_ptr node_seg scanner_ptrs (i32 scanner_index);
  on node_seg (BinarySegmentWriteUint32 (node_flags node)).

Definition WriteNodes (nodes : list value) (main node_seg array2 str : nat) (scanner_ptrs : list BinaryLocator)
    (order : list TempNodeGuid) (remap_table : list Z) : gen unit :=
  _ ← write_pointer_to main node_seg;
  links ← collect_links (zlen nodes) 0 (replicate (length nodes) []) nodes;
  for_each (write_node nodes node_seg array2 str scanner_ptrs remap_table links) order.

(** ** The document *)

Definition DagMagicNumber : Z := Z.lxor 0x1589010d 0x7810221e.

Definition write_named (remap_table : list Z) (m : cstr * value) : gen unit :=
  _ ← WriteStringPtr aux2_seg str_seg (Some m.1);
  node_index ← or_false (AsNumber m.2);
  i ← lift (double_to_int node_index);
  remapped_index ← lift (of_opt (remap_table !!z i));
  write_i32 aux2_seg remapped_index.

(** One build tuple. *)
Definition write_tuple (remap_table : list Z) (v : value) : gen unit :=
  obj ← or_false (AsObject v);
  config_index ← lift (FindIntValue obj (s2l "ConfigIndex") (-1));
  variant_index ← lift (FindIntValue obj (s2l "VariantIndex") (-1));
  subvariant_index ← lift (FindIntValue obj (s2l "SubVariantIndex") (-1));
  let default_nodes := FindArrayValue (Some obj) (s2l "DefaultNodes") in
  let always_nodes := FindArrayValue (Some obj) (s2l "AlwaysNodes") in
  let named_nodes := FindObjectValue obj (s2l "NamedNodes") in
  _ ← require (negb ((i32 config_index =? -1) || (i32 variant_index =? -1) || (i32 subvariant_index =? -1)));
  default_nodes ← or_false default_nodes;
  always_nodes ← or_false always_nodes;
  _ ← write_i32 aux_seg (i32 config_index);
  _ ← write_i32 aux_seg (i32 variant_index);
  _ ← write_i32 aux_seg (i32 subvariant_index);
  _ ← WriteNodeArray aux_seg aux2_seg default_nodes remap_table;
  _ ← WriteNodeArray aux_seg aux2_seg always_nodes remap_table;
  match named_nodes with
  | Some named =>
      _ ← write_i32 aux_seg (i32 (zlen named));
      _ ← write_pointer_to aux_seg aux2_seg;
      for_each (write_named remap_table) named
  | None =>
      _ ← write_i32 aux_seg 0;
      on aux_seg BinarySegmentWriteNullPointer
  end.

Definition write_file_signature (v : value) : gen unit :=
  sig ← or_false (AsObject v);
  path ← or_false (FindStringValue (JObject sig) (s2l "File") None);
  let timestamp := fi_Timestamp (GetFileInfo (stat path)) in
  _ ← WriteStringPtr aux_seg str_seg (Some path);
  _ ← on aux_seg (BinarySegmentWrite (replicate 4 0));
  on aux_seg (BinarySegmentWriteUint64 timestamp).

(** An entry that is not an object is passed over. *)
Definition write_glob_signature (v : value) : gen unit :=
  match AsObject v with
  | None => mret tt
  | Some sig =>
      path ← or_false (FindStringValue (JObject sig) (s2l "Path") None);
      digest ← lift (CalculateGlobSignatureFor ci junk stat path);
      _ ← WriteStringPtr aux_seg str_seg (Some path);
      on aux_seg (BinarySegmentWrite (digest_bytes digest))
  end.

Definition write_extension (v : value) : gen unit :=
  str ← or_false (AsString v);
  _ ← require (Ascii.eqb (char_at str 0) "."%char);
  on aux_seg (BinarySegmentWriteUint32 (Djb2Hash str)).

(** An array whose elements are written to the auxiliary segment. *)
Definition write_list (array : option (list value)) (body : value -> gen unit) : gen unit :=
  match array with
  | Some l =>
      _ ← write_i32 main_seg (i32 (zlen l));
      _ ← write_pointer_to main_seg aux_seg;
      for_each body l
  | None =>
      _ ← write_i32 main_seg 0;
      on main_seg BinarySegmentWriteNullPointer
  end.

Definition write_scanners (scanners : option (list value)) : gen (list BinaryLocator) :=
  if EmptyArray scanners then mret [] else
  fold_gen (fun ptrs v => p ← WriteScanner aux_seg aux2_seg str_seg (AsObject v); mret (ptrs ++ [p])) [] (default [] scanners).

Definition write_name (root : object) (key default_name : string) : gen unit :=
  WriteStringPtr main_seg str_seg (FindStringValue (JObject root) (s2l key) (Some (s2l default_name))).

(** The names of passes and the members of [Setup]. *)
Definition write_setup (root : object) (passes : list value) (remap_table : list Z) : gen unit :=
  _ ← write_i32 main_seg (i32 (zlen passes));
  _ ← write_pointer_to main_seg aux_seg;
  _ ← for_each (fun v => pass_name ← lift (GetString v); WriteStringPtr aux_seg str_seg (Some pass_name)) passes;
  let setup := FindObjectValue root (s2l "Setup") in
  let configs := FindArrayValue setup (s2l "Configs") in
  let variants := FindArrayValue setup (s2l "Variants") in
  let subvariants := FindArrayValue setup (s2l "SubVariants") in
  let tuples := FindArrayValue setup (s2l "BuildTuples") in
  setup ← or_false setup;
  _ ← require (negb (EmptyArray configs || EmptyArray variants || EmptyArray subvariants || EmptyArray tuples));
  _ ← WriteStrHashArray main_seg aux_seg str_seg (default [] configs);
  _ ← WriteStrHashArray main_seg aux_seg str_seg (default [] variants);
  _ ← WriteStrHashArray main_seg aux_seg str_seg (default [] subvariants);
  _ ← write_list tuples (write_tuple remap_table);
  default_tuple ← or_false (FindObjectValue setup (s2l "DefaultBuildTuple"));
  def_config_index ← lift (FindIntValue default_tuple (s2l "ConfigIndex") (-2));
  def_variant_index ← lift (FindIntValue default_tuple (s2l "VariantIndex") (-2));
  def_subvariant_index ← lift (FindIntValue default_tuple (s2l "SubVariantIndex") (-2));
  _ ← require (negb ((-2 =? i32 def_config_index) || (-2 =? i32 def_variant_index) || (-2 =? i32 def_subvariant_index)));
  _ ← write_i32 main_seg (i32 def_config_index);
  _ ← write_i32 main_seg (i32 def_variant_index);
  write_i32 main_seg (i32 def_subvariant_index).

(** The rest: signatures, extensions, file names. *)
Definition write_rest (root : object) : gen unit :=
  _ ← write_list (FindArrayValue (Some root) (s2l "FileSignatures")) write_file_signature;
  _ ← write_list (FindArrayValue (Some root) (s2l "GlobSignatures")) write_glob_signature;
  _ ← write_list (FindArrayValue (Some root) (s2l "ContentDigestExtensions")) write_extension;
  max_expensive ← lift (FindIntValue root (s2l "MaxExpensiveCount") (-1));
  _ ← write_i32 main_seg (i32 max_expensive);
  _ ← write_name root "StateFileName" ".tundra2.state";
  _ ← write_name root "StateFileNameTmp" ".tundra2.state.tmp";
  _ ← write_name root "ScanCacheFileName" ".tundra2.scancache";
  _ ← write_name root "ScanCacheFileNameTmp" ".tundra2.scancache.tmp";
  _ ← write_name root "DigestCacheFileName" ".tundra2.digestcache";
  write_name root "DigestCacheFileNameTmp" ".tundra2.digestcache.tmp".

Definition CompileDag (root : object) : gen unit :=
  let nodes := FindArrayValue (Some root) (s2l "Nodes") in
  let passes := FindArrayValue (Some root) (s2l "Passes") in
  let scanners := FindArrayValue (Some root) (s2l "Scanners") in
  _ ← require (negb (EmptyArray nodes));
  _ ← require (negb (EmptyArray passes));
  let nodes := default [] nodes in
  let passes := default [] passes in
  scanner_ptrs ← write_scanners scanners;
  _ ← on main_seg (BinarySegmentWriteUint32 DagMagicNumber);
  '(guid_table, remap_table) ← ComputeNodeGuids nodes;
  _ ← write_i32 main_seg (i32 (zlen nodes));
  _ ← write_pointer_to main_seg node_guid_seg;
  _ ← for_each (fun t => on node_guid_seg (BinarySegmentWrite (digest_bytes (tg_Digest t)))) guid_table;
  _ ← WriteNodes nodes main_seg node_data_seg aux_seg str_seg scanner_ptrs guid_table remap_table;
  _ ← write_setup root passes remap_table;
  write_rest root.

(** The file, when the result is [true]. *)
Definition CreateDagFromJsonData (json_memory : cstr) : res (option (list Z)) :=
  '(buffer, r) ← JsonParse json_memory;
  match r with
  | inr _ => OK None
  | inl v =>
      match AsObject (json_map (string_at buffer) v) with
      | None => OK None
      | Some obj =>
          r ← CompileDag obj new_gen;
          match r with
          | None => OK None
          | Some (_, g) => file ← BinaryWriterFlush (g_Writer g); OK (Some file)
          end
      end
  end.
End Generator.
