(* ===== verification/DagFile.v ===== *)
(** * The DAG file

    How the build reads the memory-mapped DAG (src/src/DagData.hpp: the layout of
    every structure, at the offsets the compiler gives its members), and the
    reference for the generator: the [DagData] a JSON document stands for. *)

From S2P Require Import Prelude CType CommonFns Hash HashImpl HashThms DagData SortedArray HashTable StatCache PathUtil PathThms BinaryWriter FrozenFile FileSign.
From S2P Require Import Driver JsonParse DagGenerator.

(** ** Reading *)

Section Read.
Context (file : list Z).

Definition read_u16 (off : Z) : option Z :=
  a ← file !!z off; b ← file !!z (off + 1); Some (a + 2 ^ 8 * b).

(** [int16_t] *)
Definition i16 (z : Z) : Z := (z + 2 ^ 15) mod 2 ^ 16 - 2 ^ 15.
Definition read_i16 (off : Z) : option Z := i16 <$> read_u16 off.

(** A [FrozenString] that may be null, and one that may not. *)
Definition read_string_opt (off : Z) : option (option cstr) :=
  p ← FrozenPtr_Get file off;
  match p with None => Some None | Some t => Some <$> read_string file t end.

Definition read_string_ptr (off : Z) : option cstr := t ← deref file off; read_string file t.

(** [FrozenArray<T>]: the pointer is only followed for elements. *)
Definition read_frozen_array {A} (read : Z -> option A) (size off : Z) : option (list A) :=
  m_Count ← read_i32 file off;
  if m_Count =? 0 then Some [] else
  m_Pointer ← deref file (off + 4);
  read_array read size (Z.to_nat m_Count) m_Pointer.

(** [FrozenPtr<T>] with the count in a member of its own. *)
Definition read_counted {A} (read : Z -> option A) (size count off : Z) : option (list A) :=
  if count =? 0 then Some [] else
  p ← deref file off;
  read_array read size (Z.to_nat count) p.

Definition read_file_and_hash (off : Z) : option FrozenFileAndHash :=
  m_Filename ← read_string_ptr off;
  m_FilenameHash ← read_u32 file (off + 4);
  Some (mkFile m_Filename m_FilenameHash).

Definition read_keyword (off : Z) : option KeywordData :=
  m_String ← read_string_ptr off;
  m_StringLength ← read_i16 (off + 4);
  m_ShouldFollow ← file !!z (off + 6);
  Some (mkKeyword m_String m_StringLength (negb (m_ShouldFollow =? 0))).

(** [ScannerData], or [GenericScannerData] when the type says so. *)
Definition read_scanner (off : Z) : option ScannerData :=
  m_ScannerType ← read_i32 file off;
  m_IncludePaths ← read_frozen_array read_string_ptr 4 (off + 4);
  m_ScannerGuid ← read_digest file (off + 12);
  if m_ScannerType =? 0 then Some (mkScanner kCpp m_IncludePaths m_ScannerGuid 0 [])
  else if m_ScannerType =? 1 then
    m_Flags ← read_u32 file (off + 28);
    m_Keywords ← read_frozen_array read_keyword 8 (off + 32);
    Some (mkScanner kGeneric m_IncludePaths m_ScannerGuid m_Flags m_Keywords)
  else None.

Definition read_env (off : Z) : option EnvVarData :=
  m_Name ← read_string_ptr off;
  m_Value ← read_string_ptr (off + 4);
  Some (mkEnv m_Name m_Value).

Definition read_scanner_ptr (off : Z) : option (option ScannerData) :=
  p ← FrozenPtr_Get file off;
  match p with None => Some None | Some t => Some <$> read_scanner t end.

Definition read_node (off : Z) : option NodeData :=
  m_Action ← read_string_opt off;
  m_PreAction ← read_string_opt (off + 4);
  m_Annotation ← read_string_ptr (off + 8);
  m_PassIndex ← read_i32 file (off + 12);
  m_Dependencies ← read_frozen_array (read_i32 file) 4 (off + 16);
  m_BackLinks ← read_frozen_array (read_i32 file) 4 (off + 24);
  m_InputFiles ← read_frozen_array read_file_and_hash 8 (off + 32);
  m_OutputFiles ← read_frozen_array read_file_and_hash 8 (off + 40);
  m_AuxOutputFiles ← read_frozen_array read_file_and_hash 8 (off + 48);
  m_EnvVars ← read_frozen_array read_env 8 (off + 56);
  m_Scanner ← read_scanner_ptr (off + 64);
  m_Flags ← read_u32 file (off + 68);
  Some (mkNodeData m_Action m_PreAction m_Annotation m_PassIndex m_Dependencies m_BackLinks m_InputFiles m_OutputFiles m_AuxOutputFiles
    m_EnvVars m_Scanner m_Flags).

Definition sizeof_NodeData : Z := 72.

Definition read_named (off : Z) : option NamedNodeData :=
  m_Name ← read_string_ptr off;
  m_NodeIndex ← read_i32 file (off + 4);
  Some (mkNamed m_Name m_NodeIndex).

Definition read_tuple (off : Z) : option BuildTupleData :=
  m_ConfigIndex ← read_i32 file off;
  m_VariantIndex ← read_i32 file (off + 4);
  m_SubVariantIndex ← read_i32 file (off + 8);
  m_DefaultNodes ← read_frozen_array (read_i32 file) 4 (off + 12);
  m_AlwaysNodes ← read_frozen_array (read_i32 file) 4 (off + 20);
  m_NamedNodes ← read_frozen_array read_named 8 (off + 28);
  Some (mkTuple m_ConfigIndex m_VariantIndex m_SubVariantIndex m_DefaultNodes m_AlwaysNodes m_NamedNodes).

Definition sizeof_BuildTupleData : Z := 36.

Definition read_file_signature (off : Z) : option DagFileSignature :=
  m_Path ← read_string_ptr off;
  m_Timestamp ← read_u64 file (off + 8);
  Some (mkFileSig m_Path m_Timestamp).

Definition read_glob_signature (off : Z) : option DagGlobSignature :=
  m_Path ← read_string_ptr off;
  m_Digest ← read_digest file (off + 4);
  Some (mkGlobSig m_Path m_Digest).

(** [struct DagData] at the start of the file. *)
Definition read_dag : option DagData :=
  m_NodeCount ← read_i32 file 4;
  m_NodeGuids ← read_counted (read_digest file) 16 m_NodeCount 8;
  m_NodeData ← read_counted read_node sizeof_NodeData m_NodeCount 12;
  m_Passes ← read_frozen_array read_string_ptr 4 16;
  m_ConfigCount ← read_i32 file 24;
  m_ConfigNames ← read_counted read_string_ptr 4 m_ConfigCount 28;
  m_ConfigNameHashes ← read_counted (read_u32 file) 4 m_ConfigCount 32;
  m_VariantCount ← read_i32 file 36;
  m_VariantNames ← read_counted read_string_ptr 4 m_VariantCount 40;
  m_VariantNameHashes ← read_counted (read_u32 file) 4 m_VariantCount 44;
  m_SubVariantCount ← read_i32 file 48;
  m_SubVariantNames ← read_counted read_string_ptr 4 m_SubVariantCount 52;
  m_SubVariantNameHashes ← read_counted (read_u32 file) 4 m_SubVariantCount 56;
  m_BuildTuples ← read_frozen_array read_tuple sizeof_BuildTupleData 60;
  m_DefaultConfigIndex ← read_i32 file 68;
  m_DefaultVariantIndex ← read_i32 file 72;
  m_DefaultSubVariantIndex ← read_i32 file 76;
  m_FileSignatures ← read_frozen_array read_file_signature 16 80;
  m_GlobSignatures ← read_frozen_array read_glob_signature 20 88;
  m_ShaExtensionHashes ← read_frozen_array (read_u32 file) 4 96;
  m_MaxExpensiveCount ← read_i32 file 104;
  m_StateFileName ← read_string_ptr 108;
  m_StateFileNameTmp ← read_string_ptr 112;
  m_ScanCacheFileName ← read_string_ptr 116;
  m_ScanCacheFileNameTmp ← read_string_ptr 120;
  m_DigestCacheFileName ← read_string_ptr 124;
  m_DigestCacheFileNameTmp ← read_string_ptr 128;
  Some (mkDag m_NodeGuids m_NodeData m_Passes m_ConfigNames m_ConfigNameHashes m_VariantNames m_VariantNameHashes
    m_SubVariantNames m_SubVariantNameHashes m_BuildTuples m_DefaultConfigIndex m_DefaultVariantIndex m_DefaultSubVariantIndex
    m_FileSignatures m_GlobSignatures m_ShaExtensionHashes m_MaxExpensiveCount m_StateFileName m_StateFileNameTmp
    m_ScanCacheFileName m_ScanCacheFileNameTmp m_DigestCacheFileName m_DigestCacheFileNameTmp).
End Read.

Definition sizeof_DagData : Z := 132.

(** [LoadFrozenData<DagData>] and everything it leads to. *)
Definition load_dag (mapping : option (list Z)) : option DagData :=
  file ← LoadFrozenData sizeof_DagData DagMagicNumber mapping;
  read_dag file.

(** ** The reference *)

Definition run {A} (r : res A) : option A := match r with OK a => Some a | Err _ => None end.

Section Reference.
Context (native : PathType) (ci : bool) (junk : cstr).
Context `{StdSort} (stat : cstr -> stat_result) {dirs : DirectoryReader}.

Definition str_member (v : value) (key : string) : option cstr := FindStringValue v (s2l key) None.
Definition list_member (obj : object) (key : string) : option (list value) := FindArrayValue (Some obj) (s2l key).
Definition elements (obj : object) (key : string) : list value := default [] (list_member obj key).
Definition int_member (obj : object) (key : string) (def : Z) : option Z := i32 <$> run (FindIntValue obj (s2l key) def).

Definition index_of (v : value) : option Z := n ← AsNumber v; run (double_to_int n).

(** A path the buffers can hold: see [path_ok]. *)
Definition path_okb (path : cstr) : bool :=
  bool_decide (cstr_ok path) && (zlen path <? 2 ^ 16) && (zlen (tokens (path_prefix native path).2) <=? kMaxPathSegments) &&
  (zlen (concat (ap_Segs (parse native path))) <=? kMaxPathLength) && (zlen (format (parse native path)) + 1 <? kMaxPathLength).

(** The path without redundant parts. *)
Definition file_of_path (v : value) : option FrozenFileAndHash :=
  path ← AsString v;
  if path_okb path then let cleaned := format (parse native path) in Some (mkFile cleaned (Djb2HashPath ci cleaned)) else None.

Definition files_member (obj : object) (key : string) : option (list FrozenFileAndHash) := mapM file_of_path (elements obj key).

(** *** Scanners *)

Definition keyword (follow : bool) (v : value) : option KeywordData :=
  s ← AsString v; Some (mkKeyword s (i16 (strlen s)) follow).

Definition scanner_message (kind : cstr) (paths : list cstr) : cstr := call_bytes (AddString kind) ++ concat (map (fun p => call_bytes (AddPath ci p)) paths).

Definition scanner_of (v : value) : option ScannerData :=
  data ← AsObject v;
  kind ← str_member v "Kind";
  incpaths ← list_member data "IncludePaths";
  type ← scanner_type_of kind;
  paths ← mapM AsString incpaths;
  let guid := digest_of (B := FastBackend) (scanner_message kind paths) in
  match type with
  | kCpp => Some (mkScanner kCpp paths guid 0 [])
  | kGeneric =>
      follow ← mapM (keyword true) (elements data "Keywords");
      nofollow ← mapM (keyword false) (elements data "KeywordsNoFollow");
      Some (mkScanner kGeneric paths guid (generic_flags data) (follow ++ nofollow))
  end.

(** *** Guids and the order of nodes *)

(** What identifies a node: its action, its inputs and its annotation. *)
Definition guid_message (v : value) : cstr :=
  match AsObject v with
  | None => []
  | Some obj =>
      (match str_member v "Action" with Some a => cbytes a | None => [] end) ++
      concat (map cbytes (omap AsString (elements obj "Inputs"))) ++
      (match str_member v "Annotation" with Some a => cbytes a | None => [] end)
  end.

Definition guid_of_node (v : value) : HashDigest := digest_of (B := FastBackend) (guid_message v).

(** An object with something that identifies it. *)
Definition identified (v : value) : bool :=
  match AsObject v with
  | None => false
  | Some obj => negb (blank (str_member v "Action") && bool_decide (list_member obj "Inputs" = None) && bool_decide (str_member v "Annotation" = None))
  end.

Definition temp_table (nodes : list value) : list TempNodeGuid := imap (fun i v => mkTemp (guid_of_node v) (Z.of_nat i)) nodes.

Definition node_order (nodes : list value) : list TempNodeGuid := std_sort temp_lt (temp_table nodes).

(** Where a node of the document is in the file. *)
Definition place_of (order : list TempNodeGuid) (i : Z) : option Z := (Z.of_nat ∘ fst) <$> list_find (fun t => tg_Node t = i) order.

(** *** Nodes *)

Definition deps_of (v : value) : option (list Z) :=
  obj ← AsObject v; mapM index_of (elements obj "Deps").

(** The nodes that name [i] among their dependencies, as often as they do. *)
Definition users_of (deps : list (list Z)) (i : Z) : list Z :=
  concat (imap (fun j ds => map (fun _ => Z.of_nat j) (filter (fun d => d = i) ds)) deps).

Definition env_of (v : value) : option EnvVarData :=
  key ← str_member v "Key";
  value ← str_member v "Value";
  Some (mkEnv key value).

Definition scanner_member (scanners : list ScannerData) (obj : object) : option (option ScannerData) :=
  index ← int_member obj "ScannerIndex" (-1);
  if index =? -1 then Some None else Some <$> (scanners !!z index).

Definition node_of (scanners : list ScannerData) (order : list TempNodeGuid) (deps : list (list Z)) (nodes : list value) (t : TempNodeGuid) : option NodeData :=
  v ← nodes !!z tg_Node t;
  obj ← AsObject v;
  annotation ← str_member v "Annotation";
  pass_index ← int_member obj "PassIndex" 0;
  dep_indices ← deps !!z tg_Node t;
  dependencies ← mapM (place_of order) dep_indices;
  backlinks ← mapM (place_of order) (users_of deps (tg_Node t));
  inputs ← files_member obj "Inputs";
  outputs ← files_member obj "Outputs";
  aux_outputs ← files_member obj "AuxOutputs";
  env ← mapM env_of (elements obj "Env");
  scanner ← scanner_member scanners obj;
  Some (mkNodeData (str_member v "Action") (str_member v "PreAction") annotation pass_index dependencies backlinks
    inputs outputs aux_outputs env scanner (node_flags obj)).

(** *** The set-up *)

Definition named_of (order : list TempNodeGuid) (m : cstr * value) : option NamedNodeData :=
  i ← index_of m.2;
  p ← place_of order i;
  Some (mkNamed m.1 p).

Definition places_member (order : list TempNodeGuid) (obj : object) (key : string) : option (list Z) :=
  l ← list_member obj key;
  mapM (fun v => i ← index_of v; place_of order i) l.

Definition tuple_of (order : list TempNodeGuid) (v : value) : option BuildTupleData :=
  obj ← AsObject v;
  config_index ← int_member obj "ConfigIndex" (-1);
  variant_index ← int_member obj "VariantIndex" (-1);
  subvariant_index ← int_member obj "SubVariantIndex" (-1);
  if (config_index =? -1) || (variant_index =? -1) || (subvariant_index =? -1) then None else
  default_nodes ← places_member order obj "DefaultNodes";
  always_nodes ← places_member order obj "AlwaysNodes";
  named ← mapM (named_of order) (default [] (FindObjectValue obj (s2l "NamedNodes")));
  Some (mkTuple config_index variant_index subvariant_index default_nodes always_nodes named).

Definition file_signature_of (v : value) : option DagFileSignature :=
  _ ← AsObject v;
  path ← str_member v "File";
  Some (mkFileSig path (u64 (fi_Timestamp (GetFileInfo (stat path))))).

Definition glob_signature_of (v : value) : option DagGlobSignature :=
  _ ← AsObject v;
  path ← str_member v "Path";
  digest ← run (CalculateGlobSignatureFor ci junk stat path);
  Some (mkGlobSig path digest).

Definition extension_of (v : value) : option Z :=
  s ← AsString v;
  if Ascii.eqb (char_at s 0) "."%char then Some (Djb2Hash s) else None.

(** A list that is there and not empty. *)
Definition some_elements (obj : object) (key : string) : option (list value) :=
  match list_member obj key with Some (v :: l) => Some (v :: l) | _ => None end.

Definition name_member (root : object) (key def : string) : cstr := default (s2l def) (str_member (JObject root) key).

(** The [DagData] a document stands for. *)
Definition dag_of (root : object) : option DagData :=
  nodes ← some_elements root "Nodes";
  passes ← some_elements root "Passes";
  scanners ← mapM scanner_of (elements root "Scanners");
  if negb (forallb identified nodes) then None else
  let order := node_order nodes in
  if negb (neighbours_differ order) then None else
  deps ← mapM deps_of nodes;
  node_data ← mapM (node_of scanners order deps nodes) order;
  pass_names ← mapM AsString passes;
  setup ← FindObjectValue root (s2l "Setup");
  configs ← some_elements setup "Configs" ≫= mapM AsString;
  variants ← some_elements setup "Variants" ≫= mapM AsString;
  subvariants ← some_elements setup "SubVariants" ≫= mapM AsString;
  tuples ← some_elements setup "BuildTuples" ≫= mapM (tuple_of order);
  default_tuple ← FindObjectValue setup (s2l "DefaultBuildTuple");
  def_config ← int_member default_tuple "ConfigIndex" (-2);
  def_variant ← int_member default_tuple "VariantIndex" (-2);
  def_subvariant ← int_member default_tuple "SubVariantIndex" (-2);
  if (-2 =? def_config) || (-2 =? def_variant) || (-2 =? def_subvariant) then None else
  file_sigs ← mapM file_signature_of (elements root "FileSignatures");
  glob_sigs ← mapM glob_signature_of (elements root "GlobSignatures");
  extensions ← mapM extension_of (elements root "ContentDigestExtensions");
  max_expensive ← int_member root "MaxExpensiveCount" (-1);
  Some (mkDag (map tg_Digest order) node_data pass_names configs (map Djb2Hash configs) variants (map Djb2Hash variants)
    subvariants (map Djb2Hash subvariants) tuples def_config def_variant def_subvariant file_sigs glob_sigs extensions max_expensive
    (name_member root "StateFileName" ".tundra2.state") (name_member root "StateFileNameTmp" ".tundra2.state.tmp")
    (name_member root "ScanCacheFileName" ".tundra2.scancache") (name_member root "ScanCacheFileNameTmp" ".tundra2.scancache.tmp")
    (name_member root "DigestCacheFileName" ".tundra2.digestcache") (name_member root "DigestCacheFileNameTmp" ".tundra2.digestcache.tmp")).
End Reference.
