(* ===== verification/DagWrite.v ===== *)
(** * Reasoning about the DAG generator's writes

    Assertions about what the segments hold so far, stable under further writes,
    and rules that give, for every piece of the generator, what it adds. *)

From stdpp Require Import gmap.
From S2P Require Import Prelude CType CommonFns Hash HashImpl DagData SortedArray HashTable StatCache PathUtil BinaryWriter FrozenFile FileSign.
From S2P Require Import JsonParse DagGenerator.

(** ** Segments as lists of items *)

Abbreviation segs := (list (list item)).

Definition seg_at (I : segs) (k : nat) : list item := default [] (I !! k).
Definition filled (I : segs) (k : nat) : Z := items_size (seg_at I k).

(** The items [l] at offset [off] of segment [k]. *)
Definition cells (k : nat) (off : Z) (l : list item) (I : segs) : Prop :=
  exists pre post, seg_at I k = pre ++ l ++ post /\ items_size pre = off.

Definition put (k : nat) (l : list item) (I : segs) : segs := alter (fun x => x ++ l) k I.

(** Segments only grow. *)
Definition ext (I I' : segs) : Prop := length I' = length I /\ forall k, exists l, seg_at I' k = seg_at I k ++ l.

(** Only the segments [ks] have changed. *)
Definition same (ks : list nat) (I I' : segs) : Prop := forall k, k ∉ ks -> seg_at I' k = seg_at I k.

(** Pointers lead to later segments. *)
Definition forward (I : segs) : Prop := forall k t, IPtr t ∈ seg_at I k ->
  exists j, bl_SegIndex t = Z.of_nat j /\ (k < j < length I)%nat /\ 0 <= bl_Offset t <= filled I j.

Lemma ext_same_refl I : ext I I.
Proof. split; [done|]. intros k. exists []. by rewrite app_nil_r. Qed.

Lemma ext_chain I1 I2 I3 : ext I1 I2 -> ext I2 I3 -> ext I1 I3.
Proof.
  intros [L1 H1] [L2 H2]. split; [congruence|]. intros k. destruct (H1 k) as [l1 E1]. destruct (H2 k) as [l2 E2]. exists (l1 ++ l2). by rewrite E2, E1, app_assoc.
Qed.

#[export] Instance ext_preorder : PreOrder ext.
Proof. split; [exact ext_same_refl|exact ext_chain]. Qed.

Lemma filled_nonneg I k : 0 <= filled I k.
Proof. apply items_size_nonneg. Qed.

Lemma ext_filled I I' k : ext I I' -> filled I k <= filled I' k.
Proof. intros [_ H]. destruct (H k) as [l E]. unfold filled. rewrite E, items_size_app. pose proof (items_size_nonneg l). lia. Qed.

Lemma seg_at_put k l I j : (k < length I)%nat -> seg_at (put k l I) j = if decide (j = k) then seg_at I k ++ l else seg_at I j.
Proof.
  intros Hk. unfold seg_at, put. case_decide as Hd.
  - subst. rewrite (list_lookup_alter_eq (fun x => x ++ l) I k). destruct (lookup_lt_is_Some_2 I k Hk) as [x ->]. done.
  - by rewrite (list_lookup_alter_ne (fun x => x ++ l) I k j) by congruence.
Qed.

Lemma put_ext k l I : (k < length I)%nat -> ext I (put k l I).
Proof.
  intros Hk. split; [by apply length_alter|]. intros j. rewrite seg_at_put by done. case_decide; [subst; by eexists|]. exists []. by rewrite app_nil_r.
Qed.

Lemma put_same k l I : (k < length I)%nat -> same [k] I (put k l I).
Proof. intros Hk j Hj. rewrite seg_at_put by done. case_decide; [set_solver|done]. Qed.

Lemma filled_put k l I : (k < length I)%nat -> filled (put k l I) k = filled I k + items_size l.
Proof. intros Hk. unfold filled. rewrite seg_at_put, decide_True by done. apply items_size_app. Qed.

Lemma put_cells k l I : (k < length I)%nat -> cells k (filled I k) l (put k l I).
Proof. intros Hk. exists (seg_at I k), []. rewrite seg_at_put, decide_True, app_nil_r by done. done. Qed.

Lemma same_refl ks I : same ks I I.
Proof. intros k _. done. Qed.

Lemma same_trans ks I1 I2 I3 : same ks I1 I2 -> same ks I2 I3 -> same ks I1 I3.
Proof. intros H1 H2 k Hk. by rewrite H2, H1. Qed.

Lemma same_sub ks ks' I I' : ks ⊆ ks' -> same ks I I' -> same ks' I I'.
Proof. intros Hs H k Hk. apply H. set_solver. Qed.

Lemma same_filled ks I I' k : same ks I I' -> k ∉ ks -> filled I' k = filled I k.
Proof. intros H Hk. unfold filled. by rewrite H. Qed.

(** ** Assertions *)

Abbreviation assn := (segs -> Prop).

Class Stable (P : assn) : Prop := stable : forall I I', ext I I' -> P I -> P I'.

#[export] Instance cells_stable k off l : Stable (cells k off l).
Proof.
  intros I I' [_ H] (pre & post & E & Ho). destruct (H k) as [x Ex]. exists pre, (post ++ x). split; [|done]. by rewrite Ex, E, <- !app_assoc.
Qed.

#[export] Instance and_stable P Q : Stable P -> Stable Q -> Stable (fun I => P I /\ Q I).
Proof. intros HP HQ I I' He [H1 H2]. split; by eapply stable. Qed.

#[export] Instance or_stable P Q : Stable P -> Stable Q -> Stable (fun I => P I \/ Q I).
Proof. intros HP HQ I I' He [H|H]; [left|right]; by eapply stable. Qed.

#[export] Instance ex_stable {A} (P : A -> assn) : (forall a, Stable (P a)) -> Stable (fun I => exists a, P a I).
Proof. intros HP I I' He [a H]. exists a. by eapply stable. Qed.

#[export] Instance pure_stable (P : Prop) : Stable (fun _ => P).
Proof. intros I I' _ H. done. Qed.

Definition bytes_at (k : nat) (off : Z) (bs : list Z) : assn := cells k off (ibytes bs).
Definition ptr_at (k : nat) (off : Z) (j : nat) (o : Z) : assn := cells k off [IPtr (mkLoc (Z.of_nat j) o)].

Definition i32_at (k : nat) (off v : Z) : assn := fun I => in_i32 v /\ bytes_at k off (le_bytes 4 (u32 v)) I.
Definition u32_at (k : nat) (off v : Z) : assn := fun I => in_u32 v /\ bytes_at k off (le_bytes 4 v) I.
Definition digest_at (k : nat) (off : Z) (d : HashDigest) : assn := fun I => Fast.digest_ok d /\ bytes_at k off (digest_bytes d) I.

Definition str_at (k : nat) (off : Z) (s : cstr) : assn :=
  fun I => cstr_ok s /\ exists o, ptr_at k off str_seg o I /\ bytes_at str_seg o (string_bytes s) I.

Definition null_at (k : nat) (off : Z) : assn := u32_at k off 0.

Definition opt_at {A} (P : nat -> Z -> A -> assn) (k : nat) (off : Z) (x : option A) : assn :=
  match x with Some x => P k off x | None => null_at k off end.

(** Elements of [sz] bytes one after the other. *)
Fixpoint elems {A} (P : Z -> A -> assn) (sz off : Z) (l : list A) : assn :=
  match l with
  | [] => fun _ => True
  | x :: l' => fun I => P off x I /\ elems P sz (off + sz) l' I
  end.

(** A pointer to elements in segment [j]. *)
Definition elems_ptr {A} (P : nat -> Z -> A -> assn) (sz : Z) (j k : nat) (off : Z) (l : list A) : assn :=
  fun I => l = [] \/ exists o, ptr_at k off j o I /\ elems (P j) sz o l I.

(** [FrozenArray<T>] with its elements in segment [j]. *)
Definition array_at {A} (P : nat -> Z -> A -> assn) (sz : Z) (j k : nat) (off : Z) (l : list A) : assn :=
  fun I => bytes_at k off (le_bytes 4 (u32 (zlen l))) I /\ elems_ptr P sz j k (off + 4) l I.

#[export] Instance bytes_at_stable k off bs : Stable (bytes_at k off bs).
Proof. apply cells_stable. Qed.
#[export] Instance ptr_at_stable k off j o : Stable (ptr_at k off j o).
Proof. apply cells_stable. Qed.
#[export] Instance i32_at_stable k off v : Stable (i32_at k off v).
Proof. unfold i32_at. apply _. Qed.
#[export] Instance u32_at_stable k off v : Stable (u32_at k off v).
Proof. unfold u32_at. apply _. Qed.
#[export] Instance digest_at_stable k off v : Stable (digest_at k off v).
Proof. unfold digest_at. apply _. Qed.
#[export] Instance str_at_stable k off v : Stable (str_at k off v).
Proof. unfold str_at. apply _. Qed.
#[export] Instance opt_at_stable {A} (P : nat -> Z -> A -> assn) k off x : (forall k off x, Stable (P k off x)) -> Stable (opt_at P k off x).
Proof. intros HP. destruct x; cbn; apply _. Qed.
#[export] Instance elems_stable {A} (P : Z -> A -> assn) sz off l : (forall off x, Stable (P off x)) -> Stable (elems P sz off l).
Proof. intros HP. revert off. induction l as [|x l IH]; intros off; cbn; apply _. Qed.
#[export] Instance elems_ptr_stable {A} (P : nat -> Z -> A -> assn) sz j k off l : (forall k off x, Stable (P k off x)) -> Stable (elems_ptr P sz j k off l).
Proof. intros HP. unfold elems_ptr. apply _. Qed.
#[export] Instance array_at_stable {A} (P : nat -> Z -> A -> assn) sz j k off l : (forall k off x, Stable (P k off x)) -> Stable (array_at P sz j k off l).
Proof. intros HP. unfold array_at. apply _. Qed.

Lemma elems_app {A} (P : Z -> A -> assn) sz l1 : forall off l2 I, elems P sz off l1 I -> elems P sz (off + sz * zlen l1) l2 I -> elems P sz off (l1 ++ l2) I.
Proof.
  induction l1 as [|x l1 IH]; intros off l2 I H1 H2; cbn [app elems] in *; [by rewrite Z.mul_0_r, Z.add_0_r in H2|]. destruct H1 as [Hx H1]. split; [done|].
  apply IH; [done|]. rewrite length_cons in H2. by replace (off + sz + sz * zlen l1) with (off + sz * Z.of_nat (S (length l1))) by lia.
Qed.

(** ** The state *)

(** The writer holds the items, and what the table of shared strings says is
    true of them; it has at most [c] strings. *)
Record st (g : Gen) (I : segs) (c : nat) : Prop := {
  st_writer : writer_is (g_Writer g) I;
  st_six : length I = 6%nat;
  st_forward : forward I;
  st_table : ht_ok (g_SharedStrings g) /\ keyed false (g_SharedStrings g);
  st_shared s : s ∈ entries (g_SharedStrings g) ->
    exists o, cs_Pointer (sl_Payload s) = mkLoc (Z.of_nat str_seg) o /\ bytes_at str_seg o (string_bytes (sl_String s)) I;
  st_count : zlen (entries (g_SharedStrings g)) <= Z.of_nat c
}.

(** [m] succeeds from segments [I], with up to [n] new shared strings. *)
Definition runs {A} (m : gen A) (I : segs) (n : nat) (Q : A -> assn) : Prop :=
  forall g c, st g I c -> Z.of_nat (c + n) <= 2 ^ 27 ->
  exists a g' I', m g = OK (Some (a, g')) /\ st g' I' (c + n) /\ ext I I' /\ Q a I'.

Lemma st_more g I c c' : (c <= c')%nat -> st g I c -> st g I c'.
Proof. intros Hc [? ? ? ? ? ?]. split; try done. lia. Qed.

Lemma runs_pure {A} (m : gen A) I n Q a : (forall g, m g = OK (Some (a, g))) -> Q a I -> runs m I n Q.
Proof. intros Hm HQ g c Hg Hc. exists a, g, I. rewrite Hm. split_and!; [done|apply (st_more g I c); [lia|done]|reflexivity|done]. Qed.

Lemma runs_ret {A} (a : A) I n (Q : A -> assn) : Q a I -> runs (mret a) I n Q.
Proof. by apply runs_pure. Qed.

Lemma runs_lift {A} (r : res A) a I n (Q : A -> assn) : r = OK a -> Q a I -> runs (lift r) I n Q.
Proof. intros ->. by apply runs_pure. Qed.

Lemma runs_or_false {A} (o : option A) a I n (Q : A -> assn) : o = Some a -> Q a I -> runs (or_false o) I n Q.
Proof. intros ->. by apply runs_pure. Qed.

Lemma runs_require b I n (Q : unit -> assn) : b = true -> Q tt I -> runs (require b) I n Q.
Proof. intros ->. by apply runs_pure. Qed.

Lemma runs_bind {A B} (m : gen A) (k : A -> gen B) I n1 n2 n (P : A -> assn) (Q : B -> assn) : (n1 + n2 <= n)%nat -> runs m I n1 P ->
  (forall a I', ext I I' -> P a I' -> runs (k a) I' n2 Q) -> runs (m ≫= k) I n Q.
Proof.
  intros Hn Hm Hk g c Hg Hc. destruct (Hm g c Hg) as (a & g1 & I1 & E1 & Hg1 & He1 & HP); [lia|].
  destruct (Hk a I1 He1 HP g1 (c + n1)%nat Hg1) as (b & g2 & I2 & E2 & Hg2 & He2 & HQ); [lia|]. exists b, g2, I2.
  split_and!; [|apply (st_more g2 I2 (c + n1 + n2)); [lia|done]|by transitivity I1|done]. unfold mbind, gen_bind. by rewrite E1.
Qed.

(** What follows as the postcondition; [runs_step] for what shares no strings. *)
Lemma runs_seq {A B} (m : gen A) (k : A -> gen B) I n1 n2 n (Q : B -> assn) : (n1 + n2 <= n)%nat ->
  runs m I n1 (fun a I' => runs (k a) I' n2 Q) -> runs (m ≫= k) I n Q.
Proof. intros Hn Hm. by eapply runs_bind; [|exact Hm|]. Qed.

Lemma runs_step {A B} (m : gen A) (k : A -> gen B) I n (Q : B -> assn) : runs m I 0 (fun a I' => runs (k a) I' n Q) -> runs (m ≫= k) I n Q.
Proof. apply runs_seq. lia. Qed.

(** Steps that leave the segments alone. *)
Lemma runs_eval {A B} (m : gen A) (k : A -> gen B) I n a (Q : B -> assn) : (forall g, m g = OK (Some (a, g))) -> runs (k a) I n Q -> runs (m ≫= k) I n Q.
Proof. intros Hm Hk g c Hg Hc. destruct (Hk g c Hg Hc) as (b & g' & I' & E & H'). exists b, g', I'. unfold mbind, gen_bind. by rewrite Hm. Qed.

Lemma runs_eval_lift {A B} (r : res A) (k : A -> gen B) I n a (Q : B -> assn) : r = OK a -> runs (k a) I n Q -> runs (lift r ≫= k) I n Q.
Proof. intros ->. by apply runs_eval. Qed.

Lemma runs_eval_or_false {A B} (o : option A) (k : A -> gen B) I n a (Q : B -> assn) : o = Some a -> runs (k a) I n Q -> runs (or_false o ≫= k) I n Q.
Proof. intros ->. by apply runs_eval. Qed.

Lemma runs_eval_require {B} b (k : unit -> gen B) I n (Q : B -> assn) : b = true -> runs (k tt) I n Q -> runs (require b ≫= k) I n Q.
Proof. intros ->. by apply runs_eval. Qed.

Lemma runs_eval_ret {A B} (a : A) (k : A -> gen B) I n (Q : B -> assn) : runs (k a) I n Q -> runs (mret a ≫= k) I n Q.
Proof. by apply runs_eval. Qed.

Lemma runs_post {A} (m : gen A) I n n' (P Q : A -> assn) : (n' <= n)%nat -> runs m I n' P -> (forall a I', ext I I' -> P a I' -> Q a I') -> runs m I n Q.
Proof.
  intros Hn Hm HQ g c Hg Hc. destruct (Hm g c Hg) as (a & g1 & I1 & E1 & Hg1 & He1 & HP); [lia|]. exists a, g1, I1.
  split_and!; [done|apply (st_more g1 I1 (c + n')); [lia|done]|done|by apply HQ].
Qed.

(** ** The primitive writes *)

Lemma forward_put_bytes k bs I : (k < length I)%nat -> forward I -> forward (put k (ibytes bs) I).
Proof.
  intros Hk Hf i t Hin. assert (Hin' : IPtr t ∈ seg_at I i).
  { rewrite seg_at_put in Hin by done. case_decide as Hd; [subst|done]. apply elem_of_app in Hin as [?|Hb]; [done|by apply ibytes_no_ptr in Hb]. }
  destruct (Hf i t Hin') as (j & Ej & Hj & Ho). exists j. split; [done|]. unfold put. rewrite length_alter. split; [done|].
  pose proof (ext_filled I (put k (ibytes bs) I) j (put_ext k _ I Hk)). unfold put in *. lia.
Qed.

Lemma forward_put_ptr k j o I : (k < j < length I)%nat -> 0 <= o <= filled I j -> forward I -> forward (put k [IPtr (mkLoc (Z.of_nat j) o)] I).
Proof.
  intros Hk Ho Hf i t Hin. assert (Hl : (k < length I)%nat) by lia. pose proof (put_ext k [IPtr (mkLoc (Z.of_nat j) o)] I Hl) as He.
  rewrite seg_at_put in Hin by done. assert (Hc : IPtr t ∈ seg_at I i \/ (i = k /\ t = mkLoc (Z.of_nat j) o)).
  { case_decide as Hd; [subst|by left]. apply elem_of_app in Hin as [?|Hb]; [by left|]. right. apply list_elem_of_singleton in Hb. by injection Hb as ->. }
  destruct Hc as [Hin'|[-> ->]].
  - destruct (Hf i t Hin') as (j' & Ej & Hj & Ho'). exists j'. pose proof (ext_filled _ _ j' He). rewrite (proj1 He). split; [done|lia].
  - exists j. pose proof (ext_filled _ _ j He). rewrite (proj1 He). cbn [bl_SegIndex bl_Offset]. split; [done|lia].
Qed.

(** A segment is extended by items a function of the writer adds. *)
Lemma runs_on k f l I n (Q : unit -> assn) : (k < 6)%nat -> (forall s i l0, seg_is s i l0 -> seg_is (f s) i (l0 ++ l)) -> (length I = 6%nat -> forward I -> forward (put k l I)) ->
  (length I = 6%nat -> Q tt (put k l I)) -> runs (on k f) I n Q.
Proof.
  intros Hk Hf Hfw HQ g c [Hw Hlen Hfo Ht Hs Hc] _. exists tt, (mkGen (alter f k (g_Writer g)) (g_SharedStrings g)), (put k l I).
  split; [done|]. assert (He : ext I (put k l I)) by (apply put_ext; lia). split_and!; [|done|by apply HQ]. split; cbn [g_Writer g_SharedStrings]; try done.
  - by apply (alter_is f (fun x => x ++ l)).
  - by rewrite (proj1 He).
  - by apply Hfw.
  - intros s Hin. destruct (Hs s Hin) as (o & Eo & Hb). exists o. split; [done|]. by apply (stable I).
  - lia.
Qed.

Lemma runs_write k bs I n (Q : unit -> assn) : (k < 6)%nat -> (length I = 6%nat -> Q tt (put k (ibytes bs) I)) -> runs (on k (BinarySegmentWrite bs)) I n Q.
Proof.
  intros Hk HQ. apply (runs_on k _ (ibytes bs)); [done| | |done].
  - intros s i l0. apply seg_write.
  - intros Hl. apply forward_put_bytes. lia.
Qed.

Lemma runs_ptr k j o I n (Q : unit -> assn) : (k < j < 6)%nat -> 0 <= o <= filled I j -> (length I = 6%nat -> Q tt (put k [IPtr (mkLoc (Z.of_nat j) o)] I)) ->
  runs (on k (BinarySegmentWritePointer (mkLoc (Z.of_nat j) o))) I n Q.
Proof.
  intros Hk Ho HQ. apply (runs_on k _ [IPtr (mkLoc (Z.of_nat j) o)]); [lia| | |done].
  - intros s i l0. apply seg_write_pointer.
  - intros Hl. apply forward_put_ptr; [lia|done].
Qed.

Lemma runs_position k I n (Q : BinaryLocator -> assn) : (k < 6)%nat -> Q (mkLoc (Z.of_nat k) (filled I k)) I -> runs (position k) I n Q.
Proof.
  intros Hk HQ g c Hg Hc. exists (mkLoc (Z.of_nat k) (filled I k)), g, I. split_and!; [|apply (st_more g I c); [lia|done]|reflexivity|done].
  unfold position. destruct (st_writer _ _ _ Hg) as [Hl Hs]. pose proof (st_six _ _ _ Hg) as H6.
  destruct (lookup_lt_is_Some_2 (g_Writer g) k) as [s Es]; [lia|]. destruct (lookup_lt_is_Some_2 I k) as [l El]; [lia|].
  rewrite Es, (seg_position s _ _ (Hs k s l Es El)). unfold filled, seg_at. by rewrite El.
Qed.

(** What a piece of the generator did: it added [n] bytes to segment [k] and
    changed only the segments [ks]. *)
Definition added (k : nat) (n : Z) (ks : list nat) (I I' : segs) : Prop := filled I' k = filled I k + n /\ same ks I I'.

Lemma put_added k l I : length I = 6%nat -> (k < 6)%nat -> added k (items_size l) [k] I (put k l I).
Proof. intros. split; [apply filled_put; lia|apply put_same; lia]. Qed.

Lemma runs_bytes k bs I n (Q : unit -> assn) : (k < 6)%nat ->
  (forall I', ext I I' -> added k (zlen bs) [k] I I' -> bytes_at k (filled I k) bs I' -> Q tt I') -> runs (on k (BinarySegmentWrite bs)) I n Q.
Proof.
  intros Hk HQ. apply runs_write; [done|]. intros Hl. apply HQ; [apply put_ext; lia| |apply put_cells; lia].
  rewrite <- ibytes_size. by apply put_added.
Qed.

Lemma runs_i32 k v I n (Q : unit -> assn) : (k < 6)%nat -> in_i32 v ->
  (forall I', ext I I' -> added k 4 [k] I I' -> i32_at k (filled I k) v I' -> Q tt I') -> runs (write_i32 k v) I n Q.
Proof. intros Hk Hv HQ. apply runs_bytes; [done|]. intros I' He Ha Hb. apply HQ; [done| |by split]. by rewrite length_le_bytes in Ha. Qed.

(** The count of an array, which is cut to 32 bits twice. *)
Lemma u32_i32 v : u32 (i32 v) = u32 v.
Proof. unfold u32, i32. rewrite Zminus_mod, Z.mod_mod, <- Zminus_mod by lia. f_equal. lia. Qed.

Lemma runs_count k v I n (Q : unit -> assn) : (k < 6)%nat ->
  (forall I', ext I I' -> added k 4 [k] I I' -> bytes_at k (filled I k) (le_bytes 4 (u32 v)) I' -> Q tt I') -> runs (write_i32 k (i32 v)) I n Q.
Proof.
  intros Hk HQ. apply runs_bytes; [done|]. intros I' He Ha Hb. apply HQ; [done| |by rewrite u32_i32 in Hb]. by rewrite length_le_bytes in Ha.
Qed.

Lemma runs_u32 k v I n (Q : unit -> assn) : (k < 6)%nat -> in_u32 v ->
  (forall I', ext I I' -> added k 4 [k] I I' -> u32_at k (filled I k) v I' -> Q tt I') -> runs (on k (BinarySegmentWriteUint32 v)) I n Q.
Proof.
  intros Hk Hv HQ. apply runs_bytes; [done|]. intros I' He Ha Hb. apply HQ; [done| |split; [done|]]; [by rewrite length_le_bytes in Ha|].
  by rewrite u32_small in Hb.
Qed.

Lemma runs_null k I n (Q : unit -> assn) : (k < 6)%nat ->
  (forall I', ext I I' -> added k 4 [k] I I' -> null_at k (filled I k) I' -> Q tt I') -> runs (on k BinarySegmentWriteNullPointer) I n Q.
Proof. intros Hk HQ. by apply runs_u32. Qed.

Lemma runs_pointer_to k j I n (Q : unit -> assn) : (k < j < 6)%nat ->
  (forall I', ext I I' -> added k 4 [k] I I' -> ptr_at k (filled I k) j (filled I j) I' -> Q tt I') -> runs (write_pointer_to k j) I n Q.
Proof.
  intros Hk HQ. apply runs_step, runs_position; [lia|]. pose proof (filled_nonneg I j). apply runs_ptr; [done|lia|]. intros Hl. apply HQ; [apply put_ext; lia| |apply put_cells; lia].
  apply (put_added k [IPtr (mkLoc (Z.of_nat j) (filled I j))]); [done|lia].
Qed.

Lemma land_le x m : 0 <= x -> Z.land x m <= x.
Proof.
  intros Hx. assert (E : Z.ldiff (Z.land x m) x = 0).
  { apply Z.bits_inj'. intros i Hi. rewrite Z.ldiff_spec, Z.land_spec, Z.bits_0. by destruct (Z.testbit x i), (Z.testbit m i). }
  pose proof (Z.sub_nocarry_ldiff x (Z.land x m) E) as Hs. assert (0 <= Z.ldiff x (Z.land x m)) by (apply Z.ldiff_nonneg; by left). lia.
Qed.

Lemma runs_align k a I n (Q : unit -> assn) : (k < 6)%nat -> 0 < a ->
  (forall I', ext I I' -> same [k] I I' -> filled I' k <= filled I k + a - 1 -> Q tt I') -> runs (on k (BinarySegmentAlign a)) I n Q.
Proof.
  intros Hk Hpos HQ g c Hg Hc. destruct (st_writer _ _ _ Hg) as [Hl Hs]. pose proof (st_six _ _ _ Hg) as H6.
  destruct (lookup_lt_is_Some_2 (g_Writer g) k) as [s Es]; [lia|].
  set (bs := replicate (Z.to_nat (Z.land (zlen (sg_Bytes s) + a - 1) (u64 (Z.lnot (a - 1))) - zlen (sg_Bytes s))) 0xfe).
  assert (Hbs : zlen bs <= a - 1).
  { unfold bs. rewrite length_replicate. pose proof (land_le (zlen (sg_Bytes s) + a - 1) (u64 (Z.lnot (a - 1))) ltac:(lia)). lia. }
  assert (HQ' : forall I', ext I I' -> added k (zlen bs) [k] I I' -> bytes_at k (filled I k) bs I' -> Q tt I').
  { intros I' He [Ha Hsm] _. apply HQ; [done|done|lia]. }
  destruct (runs_bytes k bs I n Q Hk HQ' g c Hg Hc) as (x & g' & I' & E & Hg' & He & Hq).
  exists x, g', I'. split_and!; try done. rewrite <- E. unfold on. do 4 f_equal. apply list_eq. intros i. destruct (decide (i = k)) as [->|Hne].
  - rewrite (list_lookup_alter_eq (BinarySegmentAlign a)), (list_lookup_alter_eq (BinarySegmentWrite bs)), Es. done.
  - by rewrite (list_lookup_alter_ne (BinarySegmentAlign a)), (list_lookup_alter_ne (BinarySegmentWrite bs)) by congruence.
Qed.

(** ** Loops *)

Lemma added_trans k n m ks I1 I2 I3 : added k n ks I1 I2 -> added k m ks I2 I3 -> added k (n + m) ks I1 I3.
Proof. intros [H1 S1] [H2 S2]. split; [lia|by eapply same_trans]. Qed.

Lemma added_zero k ks I : added k 0 ks I I.
Proof. split; [lia|apply same_refl]. Qed.

(** A loop that writes elements one after the other, with what each costs. *)
Lemma runs_for_each_cost {B X} (body : B -> gen unit) (P : nat -> Z -> X -> assn) (R : assn) k sz ks (cost : B -> nat) l xs :
  (forall k off x, Stable (P k off x)) -> Stable R ->
  Forall2 (fun b x => forall I, R I -> runs (body b) I (cost b) (fun _ I' => added k sz ks I I' /\ P k (filled I k) x I')) l xs ->
  forall I, R I -> runs (for_each body l) I (sum_list_with cost l) (fun _ I' => added k (sz * zlen l) ks I I' /\ elems (P k) sz (filled I k) xs I').
Proof.
  intros HP HR HF. induction HF as [|b x l xs Hb HF IH]; intros I HI; cbn [for_each length sum_list_with].
  { apply runs_ret. split; [|done]. rewrite Z.mul_0_r. apply added_zero. }
  eapply (runs_bind _ _ I (cost b) (sum_list_with cost l)); [lia|by apply Hb|]. intros _ I1 He1 [Ha1 Hx]. eapply runs_post; [done|by apply IH, (stable I)|].
  intros _ I2 He2 [Ha2 Hes]. cbn [elems]. split_and!.
  - replace (sz * Z.of_nat (S (length l))) with (sz + sz * zlen l) by lia. by eapply added_trans.
  - by eapply stable.
  - by rewrite (proj1 Ha1) in Hes.
Qed.

Lemma runs_for_each {B X} (body : B -> gen unit) (P : nat -> Z -> X -> assn) k sz ks c l xs : (forall k off x, Stable (P k off x)) ->
  Forall2 (fun b x => forall I, runs (body b) I c (fun _ I' => added k sz ks I I' /\ P k (filled I k) x I')) l xs ->
  forall I, runs (for_each body l) I (c * length l) (fun _ I' => added k (sz * zlen l) ks I I' /\ elems (P k) sz (filled I k) xs I').
Proof.
  intros HP HF I. assert (E : sum_list_with (fun _ : B => c) l = (c * length l)%nat).
  { clear. induction l as [|b l IH]; cbn [sum_list_with length]; lia. }
  rewrite <- E. apply (runs_for_each_cost body P (fun _ => True) k sz ks (fun _ => c)); [done|apply _| |done].
  eapply Forall2_impl; [exact HF|]. intros b x Hb J _. apply Hb.
Qed.

(** ** Automation: where things are after a run of steps *)

(** [k ∉ ks] for segment numbers. *)
Ltac notin := repeat (apply not_elem_of_cons; split; [first [lia | congruence]|]); apply not_elem_of_nil.

(** Sizes are rewritten to those of earlier states. *)
Ltac fills :=
  repeat match goal with
  | E : filled ?J ?k = _ |- context [filled ?J ?k] => rewrite E
  | S : same ?ks ?I ?J |- context [filled ?J ?k] => rewrite (same_filled ks I J k S) by notin
  end.

Ltac fills_in H :=
  repeat match type of H with
  | context [filled ?J ?k] =>
      match goal with
      | E : filled J k = _ |- _ => rewrite E in H
      | S : same ?ks ?I J |- _ => rewrite (same_filled ks I J k S) in H by notin
      end
  end.

(** Chains of extensions. *)
Ltac exts := solve [repeat first [reflexivity | eassumption | etransitivity; [eassumption|]]].

Ltac exact_at H := match type of H with ?T => match goal with |- ?G => replace G with T by (f_equal; lia); exact H end end.

(** What held earlier still holds. *)
Ltac keep H := fills_in H; match type of H with ?P ?I => apply (stable I); [exts|fills; exact_at H] end.

(** [same] and [added] over a run of steps. *)
Ltac frames :=
  repeat match goal with H : added _ _ _ _ _ |- _ => destruct H end;
  match goal with
  | |- same _ _ _ =>
      let j := fresh "j" in let Hj := fresh "Hj" in intros j Hj;
      repeat match goal with S : same ?ks ?I ?J |- context [seg_at ?J j] => rewrite (S j) by set_solver end; reflexivity
  | |- added _ _ _ _ _ => split; [fills; lia|frames]
  end.

(** ** Strings *)

Lemma runs_string k I n s (Q : unit -> assn) : (k < 5)%nat -> cstr_ok s ->
  (forall I', ext I I' -> added k 4 [k; str_seg] I I' -> str_at k (filled I k) s I' -> Q tt I') -> runs (WriteStringPtr k str_seg (Some s)) I n Q.
Proof.
  intros Hk Hs HQ. unfold WriteStringPtr. apply runs_step, runs_pointer_to; [lia|]. intros I1 He1 [Hf1 Hs1] Hp. apply runs_bytes; [lia|]. intros I2 He2 [Hf2 Hs2] Hb. apply HQ; [by transitivity I1| |].
  - frames.
  - split; [done|]. exists (filled I str_seg). split; [keep Hp|keep Hb].
Qed.

Lemma runs_string_opt k I n s (Q : unit -> assn) : (k < 5)%nat -> (forall x, s = Some x -> cstr_ok x) ->
  (forall I', ext I I' -> added k 4 [k; str_seg] I I' -> opt_at str_at k (filled I k) s I' -> Q tt I') -> runs (WriteStringPtr k str_seg s) I n Q.
Proof.
  intros Hk Hs HQ. destruct s as [s|]; [apply runs_string; auto|]. unfold WriteStringPtr. apply runs_null; [lia|].
  intros I' He Ha Hn. apply HQ; [done|frames|done].
Qed.

(** A shared string: stored now or before. *)
Lemma runs_common k I s n (Q : unit -> assn) : (k < 5)%nat -> cstr_ok s ->
  (forall I', ext I I' -> added k 4 [k; str_seg] I I' -> str_at k (filled I k) s I' -> Q tt I') -> runs (WriteCommonStringPtr k str_seg (Some s)) I (S n) Q.
Proof.
  intros Hk Hs HQ g c Hg Hc. destruct (st_table _ _ _ Hg) as [Hok Hkd]. unfold WriteCommonStringPtr, lift. unfold mbind, gen_bind. cbn [of_opt].
  rewrite (lookup_refines false _ _ _ Hok Hkd Hs). cbn [canon]. destruct (table_map false (g_SharedStrings g) !! (Djb2Hash s, s)) as [r|] eqn:Er.
  - apply table_map_lookup in Er as (x & Hx & Hkey & Hpay); [|done]. destruct (st_shared _ _ _ Hg x Hx) as (o & Eo & Hb). rewrite <- Hpay, Eo.
    injection Hkey as _ Ex. rewrite Ex in Hb. assert (Ho : 0 <= o <= filled I str_seg).
    { destruct Hb as (pre & post & E & <-). unfold filled. rewrite E, !items_size_app. pose proof (items_size_nonneg pre).
      pose proof (items_size_nonneg (ibytes (string_bytes s))). pose proof (items_size_nonneg post). lia. }
    apply (runs_ptr k str_seg o I (S n) Q); [lia|done| |done|done]. intros Hl. pose proof (put_ext k [IPtr (mkLoc (Z.of_nat str_seg) o)] I ltac:(lia)) as He.
    pose proof (put_added k [IPtr (mkLoc (Z.of_nat str_seg) o)] I Hl ltac:(lia)) as Ha. change (items_size [_]) with 4 in Ha. apply HQ; [done|frames|].
    split; [done|]. exists o. split; [apply put_cells; lia|by apply (stable I)].
  - destruct (runs_position str_seg I 0 (fun p J => J = I /\ p = mkLoc (Z.of_nat str_seg) (filled I str_seg)) ltac:(lia) ltac:(done) g c Hg ltac:(lia))
      as (p & g1 & I1 & -> & Hg1 & _ & -> & ->).
    destruct (insert_refines no_record false (g_SharedStrings g) (Djb2Hash s) s (mkCommon (mkLoc (Z.of_nat str_seg) (filled I str_seg))) Hok Hkd Hs (Djb2Hash_range s))
      as (t & -> & Hok' & Hkd' & _ & HP); [|done|].
    { rewrite count_entries by done. pose proof (st_count _ _ _ Hg). lia. }
    set (g2 := mkGen (g_Writer g1) t).
    (* The string and then the pointer to it. *)
    pose proof (runs_write str_seg (string_bytes s) I 0 (fun _ J => length I = 6%nat /\ J = put str_seg (ibytes (string_bytes s)) I) ltac:(lia) ltac:(done)) as Hw.
    destruct (Hw g1 (c + 0)%nat Hg1 ltac:(lia)) as ([] & g3 & I3 & E3 & Hg3 & He3 & H6 & ->). injection E3 as <-.
    unfold BinarySegmentWriteStringData, on at 1. cbn [g_Writer g_SharedStrings g2].
    set (I3 := put str_seg (ibytes (string_bytes s)) I) in *. set (g4 := mkGen _ t).
    assert (Hb3 : bytes_at str_seg (filled I str_seg) (string_bytes s) I3) by (apply put_cells; lia).
    pose proof (put_added str_seg (ibytes (string_bytes s)) I H6 ltac:(lia)) as Ha3. fold I3 in Ha3.
    assert (Hg4 : st g4 I3 (c + 1)).
    { destruct Hg3 as [Hw3 H63 Hf3 _ Hs3 Hc3]. split; cbn [g4 g_Writer g_SharedStrings]; try done.
      - intros x Hx. rewrite HP in Hx. apply elem_of_cons in Hx as [->|Hx]; [by exists (filled I str_seg)|].
        destruct (st_shared _ _ _ Hg x Hx) as (o & Eo & Hbo). exists o. split; [done|]. by apply (stable I).
      - rewrite HP, length_cons. pose proof (st_count _ _ _ Hg). lia. }
    pose proof (filled_nonneg I str_seg). pose proof (ext_filled _ _ str_seg He3).
    assert (Hr : runs (on k (BinarySegmentWritePointer (mkLoc (Z.of_nat str_seg) (filled I str_seg)))) I3 n (fun u J => ext I3 J /\ Q u J)).
    { apply runs_ptr; [lia|lia|]. intros Hl. pose proof (put_ext k [IPtr (mkLoc (Z.of_nat str_seg) (filled I str_seg))] I3 ltac:(lia)) as He.
      pose proof (put_added k [IPtr (mkLoc (Z.of_nat str_seg) (filled I str_seg))] I3 Hl ltac:(lia)) as Ha. change (items_size [_]) with 4 in Ha.
      set (I4 := put k _ I3) in *. split; [done|]. apply HQ; [exts|frames|]. split; [done|]. exists (filled I str_seg). split; [|by apply (stable I3)].
      destruct Ha3 as [_ Ha3]. rewrite <- (same_filled _ _ _ k Ha3) by notin. apply put_cells. lia. }
    destruct (Hr g4 (c + 1)%nat Hg4 ltac:(lia)) as (u & g5 & I5 & E5 & Hg5 & He5 & _ & Hq). exists u, g5, I5.
    split; [exact E5|]. replace (c + S n)%nat with (c + 1 + n)%nat by lia. split_and!; [done|exts|done].
Qed.

(** ** Space reserved and filled in later

    [WriteScanner] reserves the bytes of a digest, writes on, and comes back. A
    computation that only appends does the same whatever the reserved bytes
    hold, so it may as well have been written at once. *)

Section Reserve.
Context (k : nat) (off : Z) (d : list Z).
Hypothesis Hoff : 0 <= off.

Definition overwrite (bytes : list Z) : list Z := take (Z.to_nat off) bytes ++ d ++ drop (Z.to_nat off + length d) bytes.

Definition rewritten (s : BinarySegment) : BinarySegment := mkSegment (sg_Index s) (sg_GlobalOffset s) (overwrite (sg_Bytes s)) (sg_Fixups s).

Definition rewrite_gen (g : Gen) : Gen := mkGen (alter rewritten k (g_Writer g)) (g_SharedStrings g).

(** The reserved bytes are there. *)
Definition reserved (g : Gen) : Prop := forall s, g_Writer g !! k = Some s -> off + zlen d <= zlen (sg_Bytes s).

Definition rewrite_out {A} (r : res (option (A * Gen))) : res (option (A * Gen)) :=
  match r with OK (Some (a, g)) => OK (Some (a, rewrite_gen g)) | OK None => OK None | Err f => Err f end.

Definition blind {A} (m : gen A) : Prop := forall g, reserved g -> m (rewrite_gen g) = rewrite_out (m g) /\ forall a g', m g = OK (Some (a, g')) -> reserved g'.

Lemma overwrite_app bytes data : off + zlen d <= zlen bytes -> overwrite (bytes ++ data) = overwrite bytes ++ data.
Proof using Hoff.
  intros Hl. unfold overwrite. rewrite take_app_le by lia. rewrite drop_app_le by lia. by rewrite <- !app_assoc.
Qed.

Lemma overwrite_length bytes : off + zlen d <= zlen bytes -> length (overwrite bytes) = length bytes.
Proof using Hoff. intros Hl. unfold overwrite. rewrite !length_app, length_take, length_drop. lia. Qed.

Lemma blind_pure {A} (r : res (option A)) (m : gen A) : (forall g, m g = match r with OK (Some a) => OK (Some (a, g)) | OK None => OK None | Err f => Err f end) -> blind m.
Proof using Type. clear Hoff. intros Hm g Hg. rewrite !Hm. destruct r as [[a|]|]; cbn; split; try done. by intros a' g' [= <- <-]. Qed.

Lemma blind_ret {A} (a : A) : blind (mret a).
Proof using Type. by apply (blind_pure (OK (Some a))). Qed.

Lemma blind_or_false {A} (o : option A) : blind (or_false o).
Proof using Type. apply (blind_pure (OK o)). by destruct o. Qed.

Lemma blind_bind {A B} (m : gen A) (f : A -> gen B) : blind m -> (forall a, blind (f a)) -> blind (m ≫= f).
Proof using Type.
  clear Hoff. intros Hm Hf g Hg. destruct (Hm g Hg) as [E Hr]. unfold mbind, gen_bind. rewrite E. destruct (m g) as [[[a g1]|]|]; cbn; [|done|done].
  apply Hf. by apply (Hr a).
Qed.

Lemma blind_for_each {B} (body : B -> gen unit) l : (forall b, blind (body b)) -> blind (for_each body l).
Proof using Type. clear Hoff. intros Hb. induction l as [|b l IH]; cbn [for_each]; [apply blind_ret|]. by apply blind_bind. Qed.

Lemma blind_position j : blind (position j).
Proof using Hoff.
  intros g Hg. unfold position, rewrite_gen. cbn [g_Writer]. destruct (decide (j = k)) as [->|Hne].
  - rewrite (list_lookup_alter_eq rewritten). destruct (g_Writer g !! k) as [s|] eqn:E; cbn; [|done]. split; [|by intros a g' [= <- <-]].
    unfold BinarySegmentPosition, rewritten. cbn [sg_Bytes sg_Index]. by rewrite overwrite_length by (by apply Hg).
  - rewrite (list_lookup_alter_ne rewritten) by congruence. destruct (g_Writer g !! j) as [s|]; cbn; [|done]. split; [done|]. by intros a g' [= <- <-].
Qed.

(** Functions of a segment that only append. *)
Definition appends (f : BinarySegment -> BinarySegment) : Prop := forall s, (off + zlen d <= zlen (sg_Bytes s) -> f (rewritten s) = rewritten (f s)) /\
  zlen (sg_Bytes s) <= zlen (sg_Bytes (f s)).

Lemma appends_write bs : appends (BinarySegmentWrite bs).
Proof using Hoff.
  intros s. unfold BinarySegmentWrite, rewritten. cbn [sg_Bytes sg_Index sg_GlobalOffset sg_Fixups]. split; [|rewrite length_app; lia].
  intros Hl. by rewrite overwrite_app.
Qed.

Lemma appends_pointer p : appends (BinarySegmentWritePointer p).
Proof using Hoff.
  intros s. unfold BinarySegmentWritePointer, BinarySegmentWriteUint32, BinarySegmentWrite, rewritten. cbn [sg_Bytes sg_Index sg_GlobalOffset sg_Fixups]. split.
  - intros Hl. by rewrite overwrite_app, overwrite_length by done.
  - rewrite length_app. lia.
Qed.

Lemma appends_align a : appends (BinarySegmentAlign a).
Proof using Hoff.
  intros s. unfold BinarySegmentAlign. split; [|by apply appends_write]. intros Hl.
  assert (E : zlen (sg_Bytes (rewritten s)) = zlen (sg_Bytes s)) by (unfold rewritten; cbn; by rewrite overwrite_length).
  rewrite E. by apply appends_write.
Qed.

Lemma blind_on j f : appends f -> blind (on j f).
Proof using Hoff.
  intros Hf g Hg. unfold on, rewrite_out, rewrite_gen. cbn [g_Writer g_SharedStrings]. split.
  - do 4 f_equal. apply list_eq. intros i. destruct (decide (j = k)) as [->|Hne].
    + destruct (decide (i = k)) as [->|Hi].
      * rewrite (list_lookup_alter_eq f), (list_lookup_alter_eq rewritten), (list_lookup_alter_eq rewritten), (list_lookup_alter_eq f).
        destruct (g_Writer g !! k) as [s|] eqn:E; [|done]. cbn. f_equal. apply Hf. by apply Hg.
      * by rewrite (list_lookup_alter_ne f), (list_lookup_alter_ne rewritten), (list_lookup_alter_ne rewritten), (list_lookup_alter_ne f) by congruence.
    + destruct (decide (i = k)) as [->|Hi].
      * by rewrite (list_lookup_alter_ne f), !(list_lookup_alter_eq rewritten), (list_lookup_alter_ne f) by congruence.
      * rewrite (list_lookup_alter_ne rewritten _ k i) by congruence. destruct (decide (i = j)) as [->|Hij].
        -- by rewrite !(list_lookup_alter_eq f), (list_lookup_alter_ne rewritten) by congruence.
        -- by rewrite !(list_lookup_alter_ne f), (list_lookup_alter_ne rewritten) by congruence.
  - intros [] g' [= <-] s Hs. cbn [g_Writer] in Hs. destruct (decide (j = k)) as [->|Hne].
    + rewrite (list_lookup_alter_eq f) in Hs. destruct (g_Writer g !! k) as [s0|] eqn:E; [|done]. injection Hs as <-. pose proof (Hg s0 E). pose proof (proj2 (Hf s0)). lia.
    + rewrite (list_lookup_alter_ne f) in Hs by congruence. by apply Hg.
Qed.
End Reserve.

Lemma overwrite_end bytes old new : length old = length new -> overwrite (zlen bytes) new (bytes ++ old) = bytes ++ new.
Proof.
  intros Hl. unfold overwrite. rewrite Nat2Z.id, take_app_length. f_equal. rewrite drop_ge by (rewrite length_app; lia). by rewrite app_nil_r.
Qed.

Lemma runs_reserve {B} k old d (m : gen unit) (f : unit -> gen B) I n (Q : B -> assn) capacity : (k < 6)%nat -> length old = 16%nat ->
  (forall off, 0 <= off -> blind k off (digest_bytes d) m) ->
  runs (_ ← on k (BinarySegmentWrite (digest_bytes d)); m) I n (fun _ I' => bytes_capacity (filled I' k) = capacity /\ runs (f tt) I' 0 Q) ->
  runs (_ ← on k (BinarySegmentWrite old); _ ← m; _ ← store_digest k (filled I k) capacity d; f tt) I n Q.
Proof.
  intros Hk Ho Hb Hm g c Hg Hc. pose proof (filled_nonneg I k) as Hnn. destruct (Hm g c Hg Hc) as (u & g2' & I2 & E & Hg2 & He2 & Hcap & Hf).
  destruct (st_writer _ _ _ Hg) as [Hl Hs]. pose proof (st_six _ _ _ Hg) as H6. destruct (lookup_lt_is_Some_2 (g_Writer g) k) as [s Es]; [lia|].
  destruct (lookup_lt_is_Some_2 I k) as [l El]; [lia|]. assert (Esz : zlen (sg_Bytes s) = filled I k).
  { destruct (Hs k s l Es El) as (_ & -> & _). rewrite length_flat. unfold filled, seg_at. by rewrite El. }
  set (g1 := mkGen (alter (BinarySegmentWrite old) k (g_Writer g)) (g_SharedStrings g)).
  assert (Hres : reserved k (filled I k) (digest_bytes d) g1).
  { intros s1 Hs1. cbn [g1 g_Writer] in Hs1. rewrite (list_lookup_alter_eq (BinarySegmentWrite old)), Es in Hs1. injection Hs1 as <-. cbn [BinarySegmentWrite sg_Bytes].
    rewrite length_app, Nat2Z.inj_add, Esz, Ho, length_digest_bytes. lia. }
  assert (Eg : rewrite_gen k (filled I k) (digest_bytes d) g1 = mkGen (alter (BinarySegmentWrite (digest_bytes d)) k (g_Writer g)) (g_SharedStrings g)).
  { unfold rewrite_gen. cbn [g1 g_Writer g_SharedStrings]. f_equal. apply list_eq. intros i. destruct (decide (i = k)) as [->|Hi].
    - rewrite (list_lookup_alter_eq (rewritten _ _)), (list_lookup_alter_eq (BinarySegmentWrite old)), (list_lookup_alter_eq (BinarySegmentWrite (digest_bytes d))), Es. cbn [fmap option_fmap option_map]. f_equal.
      unfold rewritten, BinarySegmentWrite. cbn [sg_Bytes sg_Index sg_GlobalOffset sg_Fixups]. f_equal. rewrite <- Esz.
      apply overwrite_end. by rewrite Ho, length_digest_bytes.
    - by rewrite (list_lookup_alter_ne (rewritten _ _)), (list_lookup_alter_ne (BinarySegmentWrite old)), (list_lookup_alter_ne (BinarySegmentWrite (digest_bytes d))) by congruence. }
  change (m (mkGen (alter (BinarySegmentWrite (digest_bytes d)) k (g_Writer g)) (g_SharedStrings g)) = OK (Some (u, g2'))) in E. rewrite <- Eg in E.
  destruct (Hb (filled I k) Hnn g1 Hres) as [Ebl Hres2]. rewrite Ebl in E. destruct (m g1) as [[[u' g2]|]|] eqn:E1; try done. cbn in E. injection E as -> <-.
  specialize (Hres2 u g2 eq_refl). destruct (st_writer _ _ _ Hg2) as [Hl2 Hs2]. pose proof (st_six _ _ _ Hg2) as H62. cbn [rewrite_gen g_Writer] in Hl2.
  rewrite length_alter in Hl2. destruct (lookup_lt_is_Some_2 (g_Writer g2) k) as [s2 Es2]; [lia|]. destruct (lookup_lt_is_Some_2 I2 k) as [l2 El2]; [lia|].
  assert (Esz2 : zlen (sg_Bytes s2) = filled I2 k).
  { pose proof (Hs2 k (rewritten (filled I k) (digest_bytes d) s2) l2) as Hr. cbn [rewrite_gen g_Writer] in Hr. rewrite (list_lookup_alter_eq (rewritten _ _)), Es2 in Hr.
    destruct (Hr eq_refl El2) as (_ & Eb & _). unfold filled, seg_at. rewrite El2. change (default [] (Some l2)) with l2. rewrite <- length_flat, <- Eb. cbn [rewritten sg_Bytes].
    by rewrite overwrite_length by (done || by apply Hres2). }
  assert (Est : store_digest k (filled I k) capacity d g2 = OK (Some (tt, rewrite_gen k (filled I k) (digest_bytes d) g2))).
  { unfold store_digest, BinarySegmentSize. rewrite Es2, Esz2, Hcap, Z.eqb_refl. cbn [negb]. unfold patch. pose proof (Hres2 s2 Es2) as Hle.
    rewrite (proj2 (Z.leb_le 0 _)), (proj2 (Z.leb_le _ _)) by lia. cbn [andb mbind res_bind]. unfold rewrite_gen. do 4 f_equal. apply list_eq. intros i.
    destruct (decide (i = k)) as [->|Hi].
    - rewrite (list_lookup_alter_eq (rewritten _ _)), (list_lookup_alter_eq (fun s => mkSegment _ _ _ _)), Es2. done.
    - by rewrite (list_lookup_alter_ne (rewritten _ _)), (list_lookup_alter_ne (fun s => mkSegment _ _ _ _)) by congruence. }
  destruct (Hf _ _ Hg2 ltac:(lia)) as (b & g3 & I3 & E3 & Hg3 & He3 & HQ). exists b, g3, I3. split_and!; [|by replace (c + n)%nat with (c + n + 0)%nat by lia|exts|done].
  unfold mbind at 1, gen_bind at 1, on at 1. fold g1. unfold mbind at 1, gen_bind at 1. rewrite E1. unfold mbind, gen_bind. rewrite Est. exact E3.
Qed.
