(* ===== verification/DagLayout.v ===== *)
(** * The layout of the DAG file

    What the segments hold for each structure of src/src/DagData.hpp, and that
    the readers of DagFile find it in the file the segments make. *)

From S2P Require Import Prelude CType CommonFns Hash HashImpl DagData BinaryWriter FrozenFile Driver DagGenerator DagFile DagWrite.

(** ** Structures *)

Definition file_at (k : nat) (off : Z) (f : FrozenFileAndHash) : assn :=
  fun I => str_at k off (m_Filename f) I /\ u32_at k (off + 4) (m_FilenameHash f) I.

Definition env_at (k : nat) (off : Z) (e : EnvVarData) : assn :=
  fun I => str_at k off (ev_Name e) I /\ str_at k (off + 4) (ev_Value e) I.

Definition keyword_at (k : nat) (off : Z) (w : KeywordData) : assn := fun I =>
  str_at k off (kw_String w) I /\ - 2 ^ 15 <= kw_StringLength w < 2 ^ 15 /\ bytes_at k (off + 4) (le_bytes 2 (u16 (kw_StringLength w))) I /\
  bytes_at k (off + 6) [if kw_ShouldFollow w then 1 else 0] I.

Definition scanner_at (k : nat) (off : Z) (s : ScannerData) : assn := fun I =>
  i32_at k off (scanner_type_code (sc_ScannerType s)) I /\ array_at str_at 4 aux2_seg k (off + 4) (sc_IncludePaths s) I /\
  digest_at k (off + 12) (sc_ScannerGuid s) I /\
  match sc_ScannerType s with
  | kCpp => sc_Flags s = 0 /\ sc_Keywords s = []
  | kGeneric => u32_at k (off + 28) (sc_Flags s) I /\ array_at keyword_at 8 aux2_seg k (off + 32) (sc_Keywords s) I
  end.

Definition scanner_ref (k : nat) (off : Z) (s : ScannerData) : assn := fun I => exists o, ptr_at k off aux_seg o I /\ scanner_at aux_seg o s I.

Definition node_at (k : nat) (off : Z) (nd : NodeData) : assn := fun I =>
  opt_at str_at k off (nd_Action nd) I /\ opt_at str_at k (off + 4) (nd_PreAction nd) I /\ str_at k (off + 8) (nd_Annotation nd) I /\
  i32_at k (off + 12) (nd_PassIndex nd) I /\ array_at i32_at 4 aux_seg k (off + 16) (nd_Dependencies nd) I /\
  array_at i32_at 4 aux_seg k (off + 24) (nd_BackLinks nd) I /\ array_at file_at 8 aux_seg k (off + 32) (nd_InputFiles nd) I /\
  array_at file_at 8 aux_seg k (off + 40) (nd_OutputFiles nd) I /\ array_at file_at 8 aux_seg k (off + 48) (nd_AuxOutputFiles nd) I /\
  array_at env_at 8 aux_seg k (off + 56) (nd_EnvVars nd) I /\ opt_at scanner_ref k (off + 64) (nd_Scanner nd) I /\
  u32_at k (off + 68) (nd_Flags nd) I.

Definition named_at (k : nat) (off : Z) (n : NamedNodeData) : assn :=
  fun I => str_at k off (nn_Name n) I /\ i32_at k (off + 4) (nn_NodeIndex n) I.

Definition tuple_at (k : nat) (off : Z) (t : BuildTupleData) : assn := fun I =>
  i32_at k off (bt_ConfigIndex t) I /\ i32_at k (off + 4) (bt_VariantIndex t) I /\ i32_at k (off + 8) (bt_SubVariantIndex t) I /\
  array_at i32_at 4 aux2_seg k (off + 12) (bt_DefaultNodes t) I /\ array_at i32_at 4 aux2_seg k (off + 20) (bt_AlwaysNodes t) I /\
  array_at named_at 8 aux2_seg k (off + 28) (bt_NamedNodes t) I.

Definition file_signature_at (k : nat) (off : Z) (s : DagFileSignature) : assn := fun I =>
  str_at k off (fsig_Path s) I /\ 0 <= fsig_Timestamp s < 2 ^ 64 /\ bytes_at k (off + 8) (le_bytes 8 (fsig_Timestamp s)) I.

Definition glob_signature_at (k : nat) (off : Z) (s : DagGlobSignature) : assn :=
  fun I => str_at k off (gsig_Path s) I /\ digest_at k (off + 4) (gsig_Digest s) I.

(** Names and their hashes behind one count. *)
Definition names_at (off : Z) (names : list cstr) (hashes : list Z) : assn := fun I =>
  bytes_at main_seg off (le_bytes 4 (u32 (zlen names))) I /\ length hashes = length names /\
  elems_ptr str_at 4 aux_seg main_seg (off + 4) names I /\ elems_ptr u32_at 4 aux_seg main_seg (off + 8) hashes I.

Definition nodes_at (dag : DagData) : assn := fun I =>
  u32_at main_seg 0 DagMagicNumber I /\ length (dag_NodeGuids dag) = length (dag_NodeData dag) /\
  bytes_at main_seg 4 (le_bytes 4 (u32 (zlen (dag_NodeData dag)))) I /\
  elems_ptr digest_at 16 node_guid_seg main_seg 8 (dag_NodeGuids dag) I /\
  elems_ptr node_at 72 node_data_seg main_seg 12 (dag_NodeData dag) I.

Definition setup_at (dag : DagData) : assn := fun I =>
  array_at str_at 4 aux_seg main_seg 16 (dag_Passes dag) I /\ names_at 24 (dag_ConfigNames dag) (dag_ConfigNameHashes dag) I /\
  names_at 36 (dag_VariantNames dag) (dag_VariantNameHashes dag) I /\ names_at 48 (dag_SubVariantNames dag) (dag_SubVariantNameHashes dag) I /\
  array_at tuple_at 36 aux_seg main_seg 60 (dag_BuildTuples dag) I /\ i32_at main_seg 68 (dag_DefaultConfigIndex dag) I /\
  i32_at main_seg 72 (dag_DefaultVariantIndex dag) I /\ i32_at main_seg 76 (dag_DefaultSubVariantIndex dag) I.

Definition rest_at (dag : DagData) : assn := fun I =>
  array_at file_signature_at 16 aux_seg main_seg 80 (dag_FileSignatures dag) I /\
  array_at glob_signature_at 20 aux_seg main_seg 88 (dag_GlobSignatures dag) I /\
  array_at u32_at 4 aux_seg main_seg 96 (dag_ShaExtensionHashes dag) I /\ i32_at main_seg 104 (dag_MaxExpensiveCount dag) I /\
  str_at main_seg 108 (dag_StateFileName dag) I /\ str_at main_seg 112 (dag_StateFileNameTmp dag) I /\
  str_at main_seg 116 (dag_ScanCacheFileName dag) I /\ str_at main_seg 120 (dag_ScanCacheFileNameTmp dag) I /\
  str_at main_seg 124 (dag_DigestCacheFileName dag) I /\ str_at main_seg 128 (dag_DigestCacheFileNameTmp dag) I.

#[export] Instance file_at_stable k off f : Stable (file_at k off f).
Proof. unfold file_at. apply _. Qed.
#[export] Instance env_at_stable k off f : Stable (env_at k off f).
Proof. unfold env_at. apply _. Qed.
#[export] Instance keyword_at_stable k off f : Stable (keyword_at k off f).
Proof. unfold keyword_at. apply _. Qed.
#[export] Instance scanner_at_stable k off s : Stable (scanner_at k off s).
Proof. unfold scanner_at. destruct (sc_ScannerType s); apply _. Qed.
#[export] Instance scanner_ref_stable k off s : Stable (scanner_ref k off s).
Proof. unfold scanner_ref. apply _. Qed.
#[export] Instance node_at_stable k off s : Stable (node_at k off s).
Proof. unfold node_at. apply _. Qed.
#[export] Instance named_at_stable k off s : Stable (named_at k off s).
Proof. unfold named_at. apply _. Qed.
#[export] Instance tuple_at_stable k off s : Stable (tuple_at k off s).
Proof. unfold tuple_at. apply _. Qed.
#[export] Instance file_signature_at_stable k off s : Stable (file_signature_at k off s).
Proof. unfold file_signature_at. apply _. Qed.
#[export] Instance glob_signature_at_stable k off s : Stable (glob_signature_at k off s).
Proof. unfold glob_signature_at. apply _. Qed.
#[export] Instance names_at_stable off n h : Stable (names_at off n h).
Proof. unfold names_at. apply _. Qed.
#[export] Instance nodes_at_stable dag : Stable (nodes_at dag).
Proof. unfold nodes_at. apply _. Qed.
#[export] Instance setup_at_stable dag : Stable (setup_at dag).
Proof. unfold setup_at. apply _. Qed.

(** ** Reading them back *)

Section Reader.
Context (I : segs) (H6 : length I = 6%nat) (Hfw : forward I) (Hsz : zlen (file_of I) <= 2 ^ 30).

Abbreviation file := (file_of I).
Abbreviation base := (seg_base I).

Lemma seg_lookup k : (k < 6)%nat -> I !! k = Some (seg_at I k).
Proof. intros Hk. unfold seg_at. by destruct (lookup_lt_is_Some_2 I k) as [l ->]; [lia|]. Qed.

Lemma cells_bound k off l : cells k off l I -> 0 <= off /\ off + items_size l <= filled I k.
Proof.
  intros (pre & post & E & <-). unfold filled. rewrite E, !items_size_app. pose proof (items_size_nonneg pre). pose proof (items_size_nonneg post). lia.
Qed.

Lemma cells_segment k off l : cells k off l I -> l <> [] -> (k < 6)%nat.
Proof.
  intros (pre & post & E & _) Hl. destruct (decide (k < 6)%nat); [done|]. unfold seg_at in E. rewrite lookup_ge_None_2 in E by lia. cbn in E.
  by destruct pre, l.
Qed.

Lemma base_range k : (k < 6)%nat -> 0 <= base k /\ base k + filled I k <= 2 ^ 30.
Proof.
  intros Hk. pose proof (bases_range I 0 k (base k) (seg_at I k) (seg_base_is I k ltac:(lia)) (seg_lookup k Hk)) as Hr.
  unfold file_of in Hsz. rewrite length_render_all in Hsz. pose proof (padded_size (seg_at I k)). unfold filled. lia.
Qed.

Lemma base_next k j : (k < j < 6)%nat -> base k + filled I k <= base j.
Proof.
  intros Hk. pose proof (bases_mono I 0 k j (base k) (base j) (seg_at I k) ltac:(lia) (seg_base_is I k ltac:(lia)) (seg_lookup k ltac:(lia)) (seg_base_is I j ltac:(lia))) as Hr.
  pose proof (padded_size (seg_at I k)). unfold filled. lia.
Qed.

Lemma cells_file k off l : cells k off l I -> l <> [] -> has_items file (address I) (base k + off) l.
Proof.
  intros Hc Hl. pose proof (cells_segment _ _ _ Hc Hl) as Hk. destruct Hc as (pre & post & E & <-).
  pose proof (seg_has I k _ (seg_lookup k Hk)) as Hs. rewrite E in Hs. apply has_items_app in Hs as [_ Hs]. by apply has_items_app in Hs as [Hs _].
Qed.

Lemma bytes_file k off bs : bytes_at k off bs I -> bs <> [] -> has file (base k + off) bs.
Proof. intros Hb Hl. apply (has_items_bytes file (address I)). apply cells_file; [done|]. by destruct bs. Qed.

Lemma rd_i32 k off v : i32_at k off v I -> read_i32 file (base k + off) = Some v.
Proof. intros [Hv Hb]. apply read_i32_has; [done|]. by apply bytes_file. Qed.

Lemma rd_u32 k off v : u32_at k off v I -> read_u32 file (base k + off) = Some v.
Proof. intros [Hv Hb]. apply read_u32_has; [done|]. by apply bytes_file. Qed.

Lemma rd_digest k off d : digest_at k off d I -> read_digest file (base k + off) = Some d.
Proof. intros [Hv Hb]. apply read_digest_has; [done|]. by apply bytes_file. Qed.

Lemma ptr_forward k off j o : ptr_at k off j o I -> (k < j < 6)%nat /\ 0 <= o <= filled I j.
Proof.
  intros (pre & post & E & _). destruct (Hfw k (mkLoc (Z.of_nat j) o)) as (j' & Ej & Hj & Ho); [rewrite E; set_solver|].
  cbn [bl_SegIndex bl_Offset] in *. apply Nat2Z.inj in Ej as <-. rewrite H6 in Hj. done.
Qed.

Lemma rd_ptr k off j o : ptr_at k off j o I -> deref file (base k + off) = Some (base j + o).
Proof.
  intros Hp. destruct (ptr_forward _ _ _ _ Hp) as [Hj Ho]. pose proof (cells_bound _ _ _ Hp) as Hb. change (items_size [_]) with 4 in Hb.
  pose proof (base_next k j Hj). pose proof (base_range j ltac:(lia)). apply cells_file in Hp; [|done].
  assert (Ea : address I (mkLoc (Z.of_nat j) o) = base j + o) by (apply seg_address; lia).
  rewrite (deref_forward file (address I) _ _ Hp); [by f_equal|]. lia.
Qed.

Lemma rd_get k off j o : ptr_at k off j o I -> FrozenPtr_Get file (base k + off) = Some (Some (base j + o)).
Proof. intros Hp. apply rd_ptr in Hp. unfold deref in Hp. repeat case_match; by simplify_eq. Qed.

Lemma rd_null k off : null_at k off I -> FrozenPtr_Get file (base k + off) = Some None.
Proof. intros H. unfold FrozenPtr_Get, read_i32. by rewrite (rd_u32 _ _ _ H). Qed.

Lemma rd_string k off s : str_at k off s I -> read_string_ptr file (base k + off) = Some s.
Proof.
  intros (Hs & o & Hp & Hb). unfold read_string_ptr. rewrite (rd_ptr _ _ _ _ Hp). cbn. apply read_string_has; [done|]. apply bytes_file; [done|].
  unfold string_bytes. intros E. by apply app_eq_nil in E as [_ ?].
Qed.

Lemma rd_string_opt k off s : opt_at str_at k off s I -> read_string_opt file (base k + off) = Some s.
Proof.
  unfold read_string_opt. destruct s as [s|]; cbn [opt_at]; intros H; [|by rewrite (rd_null _ _ H)].
  pose proof (rd_string _ _ _ H) as Hr. unfold read_string_ptr, deref in Hr. destruct (FrozenPtr_Get file (base k + off)) as [[t|]|]; try done.
  cbn in Hr |- *. by rewrite Hr.
Qed.

(** *** Arrays *)

Section Elements.
Context {A : Type} (P : nat -> Z -> A -> assn) (R : Z -> option A) (sz : Z).
Hypothesis Hsz0 : 0 < sz.
Hypothesis Hread : forall k off x, P k off x I -> R (base k + off) = Some x.
Hypothesis Hin : forall k off x, P k off x I -> 0 <= off < filled I k.

Lemma rd_elems j l : forall o, elems (P j) sz o l I -> read_array R sz (length l) (base j + o) = Some l.
Proof using Hread.
  clear Hin Hsz0. induction l as [|x l IH]; intros o H; cbn [length read_array]; [done|]. destruct H as [Hx H]. rewrite (Hread _ _ _ Hx).
  rewrite <- Z.add_assoc, IH by done. done.
Qed.

Lemma elems_count j l : forall o, elems (P j) sz o l I -> l = [] \/ o + zlen l <= filled I j.
Proof using Hin Hsz0.
  clear Hread H6 Hfw Hsz. induction l as [|x l IH]; intros o H; [by left|]. right. destruct H as [Hx H]. pose proof (Hin _ _ _ Hx) as Hr. rewrite length_cons.
  destruct (IH _ H) as [->|Hl]; cbn [length]; lia.
Qed.

Lemma count_small j l o : elems (P j) sz o l I -> (j < 6)%nat -> 0 <= o -> 0 <= zlen l <= 2 ^ 30.
Proof using All. intros H Hj Ho. pose proof (base_range j Hj). destruct (elems_count j l o H) as [->|Hl]; cbn [length]; lia. Qed.

Lemma rd_counted j k off l : elems_ptr P sz j k off l I -> read_counted file R sz (zlen l) (base k + off) = Some l.
Proof using All.
  intros H. unfold read_counted. destruct H as [->|(o & Hp & He)]; [done|]. destruct l as [|x l]; [done|].
  rewrite (proj2 (Z.eqb_neq _ _)) by (rewrite length_cons; lia). rewrite (rd_ptr _ _ _ _ Hp). cbn [mbind option_bind]. rewrite Nat2Z.id. by apply rd_elems.
Qed.

Lemma rd_count j k c off l : bytes_at k c (le_bytes 4 (u32 (zlen l))) I -> elems_ptr P sz j k off l I -> read_i32 file (base k + c) = Some (zlen l).
Proof using All.
  intros Hb H. apply rd_i32. split; [|done]. destruct H as [->|(o & Hp & He)]; [done|]. destruct (ptr_forward _ _ _ _ Hp) as [Hj Ho].
  pose proof (count_small j l o He ltac:(lia) ltac:(lia)). unfold in_i32. lia.
Qed.

Lemma rd_array j k off l : array_at P sz j k off l I -> read_frozen_array file R sz (base k + off) = Some l.
Proof using All.
  intros [Hb H]. unfold read_frozen_array. rewrite (rd_count _ _ _ _ _ Hb H). cbn [mbind option_bind]. rewrite <- Z.add_assoc. by apply (rd_counted j).
Qed.
End Elements.

Lemma bytes_in k off bs : bytes_at k off bs I -> bs <> [] -> 0 <= off < filled I k.
Proof. intros Hb Hl. apply cells_bound in Hb. rewrite ibytes_size in Hb. destruct bs; [done|]. rewrite length_cons in Hb. lia. Qed.

Lemma i32_in k off v : i32_at k off v I -> 0 <= off < filled I k.
Proof. intros [_ Hb]. by apply (bytes_in _ _ _ Hb). Qed.

Lemma u32_in k off v : u32_at k off v I -> 0 <= off < filled I k.
Proof. intros [_ Hb]. by apply (bytes_in _ _ _ Hb). Qed.

Lemma digest_in k off v : digest_at k off v I -> 0 <= off < filled I k.
Proof. intros [_ Hb]. by apply (bytes_in _ _ _ Hb). Qed.

Lemma str_in k off v : str_at k off v I -> 0 <= off < filled I k.
Proof. intros (_ & o & Hp & _). apply cells_bound in Hp. change (items_size [_]) with 4 in Hp. lia. Qed.

Lemma opt_in k off v : opt_at str_at k off v I -> 0 <= off < filled I k.
Proof. destruct v; [apply str_in|apply u32_in]. Qed.

(** *** Structures *)

Lemma rd_file k off f : file_at k off f I -> read_file_and_hash file (base k + off) = Some f.
Proof. intros [H1 H2]. unfold read_file_and_hash. rewrite (rd_string _ _ _ H1). cbn. rewrite <- Z.add_assoc, (rd_u32 _ _ _ H2). by destruct f. Qed.

Lemma file_in k off f : file_at k off f I -> 0 <= off < filled I k.
Proof. intros [H1 _]. by eapply str_in. Qed.

Lemma rd_env k off f : env_at k off f I -> read_env file (base k + off) = Some f.
Proof. intros [H1 H2]. unfold read_env. rewrite (rd_string _ _ _ H1). cbn. rewrite <- Z.add_assoc, (rd_string _ _ _ H2). by destruct f. Qed.

Lemma env_in k off f : env_at k off f I -> 0 <= off < filled I k.
Proof. intros [H1 _]. by eapply str_in. Qed.

Lemma rd_i16 k off v : - 2 ^ 15 <= v < 2 ^ 15 -> bytes_at k off (le_bytes 2 (u16 v)) I -> read_i16 file (base k + off) = Some v.
Proof.
  intros Hv Hb. apply bytes_file in Hb; [|done]. cbn [le_bytes] in Hb. apply has_cons in Hb as [H0%has_lookup H1%has_lookup].
  unfold read_i16, read_u16. rewrite H0. cbn [mbind option_bind]. rewrite H1. cbn. f_equal. pose proof (u16_range v) as Hr. unfold in_u16 in Hr.
  rewrite (Z.mod_small (u16 v / 256) 256) by (split; [apply Z.div_pos; lia|apply Z.div_lt_upper_bound; lia]).
  pose proof (Z.div_mod (u16 v) 256 ltac:(lia)) as Hd. unfold i16.
  match goal with |- (?a + _) mod _ - _ = _ => replace a with (u16 v) by lia end. unfold u16. rewrite Zplus_mod_idemp_l, Z.mod_small; lia.
Qed.

Lemma rd_keyword k off w : keyword_at k off w I -> read_keyword file (base k + off) = Some w.
Proof.
  intros (H1 & Hr & H2 & H3). unfold read_keyword. rewrite (rd_string _ _ _ H1). cbn [mbind option_bind]. rewrite <- !Z.add_assoc, (rd_i16 _ _ _ Hr H2).
  cbn [mbind option_bind]. apply bytes_file in H3; [|done]. rewrite (has_lookup _ _ _ H3). destruct w as [s l []]; done.
Qed.

Lemma keyword_in k off w : keyword_at k off w I -> 0 <= off < filled I k.
Proof. intros [H1 _]. by eapply str_in. Qed.

Lemma rd_scanner k off s : scanner_at k off s I -> read_scanner file (base k + off) = Some s.
Proof.
  intros (H1 & H2 & H3 & H4). unfold read_scanner. rewrite (rd_i32 _ _ _ H1). cbn [mbind option_bind]. rewrite <- !Z.add_assoc.
  rewrite (rd_array str_at _ 4 ltac:(lia) rd_string str_in _ _ _ _ H2). cbn [mbind option_bind]. rewrite (rd_digest _ _ _ H3). cbn [mbind option_bind].
  destruct s as [[] p g f w]; cbn in *; [by destruct H4 as [-> ->]|]. destruct H4 as [H4 H5]. rewrite (rd_u32 _ _ _ H4). cbn [mbind option_bind].
  by rewrite (rd_array keyword_at _ 8 ltac:(lia) rd_keyword keyword_in _ _ _ _ H5).
Qed.

Lemma rd_scanner_ptr k off s : opt_at scanner_ref k off s I -> read_scanner_ptr file (base k + off) = Some s.
Proof.
  unfold read_scanner_ptr. destruct s as [s|]; cbn [opt_at]; [intros (o & Hp & Hs)|intros H; by rewrite (rd_null _ _ H)].
  rewrite (rd_get _ _ _ _ Hp). cbn [mbind option_bind]. by rewrite (rd_scanner _ _ _ Hs).
Qed.

Lemma rd_node k off nd : node_at k off nd I -> read_node file (base k + off) = Some nd.
Proof.
  intros (H1 & H2 & H3 & H4 & H5 & H6' & H7 & H8 & H9 & H10 & H11 & H12). unfold read_node. rewrite (rd_string_opt _ _ _ H1). cbn [mbind option_bind].
  rewrite <- !Z.add_assoc. rewrite (rd_string_opt _ _ _ H2). cbn [mbind option_bind]. rewrite (rd_string _ _ _ H3). cbn [mbind option_bind].
  rewrite (rd_i32 _ _ _ H4). cbn [mbind option_bind]. rewrite (rd_array i32_at _ 4 ltac:(lia) rd_i32 i32_in _ _ _ _ H5). cbn [mbind option_bind].
  rewrite (rd_array i32_at _ 4 ltac:(lia) rd_i32 i32_in _ _ _ _ H6'). cbn [mbind option_bind].
  rewrite (rd_array file_at _ 8 ltac:(lia) rd_file file_in _ _ _ _ H7). cbn [mbind option_bind].
  rewrite (rd_array file_at _ 8 ltac:(lia) rd_file file_in _ _ _ _ H8). cbn [mbind option_bind].
  rewrite (rd_array file_at _ 8 ltac:(lia) rd_file file_in _ _ _ _ H9). cbn [mbind option_bind].
  rewrite (rd_array env_at _ 8 ltac:(lia) rd_env env_in _ _ _ _ H10). cbn [mbind option_bind].
  rewrite (rd_scanner_ptr _ _ _ H11). cbn [mbind option_bind]. rewrite (rd_u32 _ _ _ H12). by destruct nd.
Qed.

Lemma node_in k off nd : node_at k off nd I -> 0 <= off < filled I k.
Proof. intros [H1 _]. by eapply opt_in. Qed.

Lemma rd_named k off n : named_at k off n I -> read_named file (base k + off) = Some n.
Proof. intros [H1 H2]. unfold read_named. rewrite (rd_string _ _ _ H1). cbn. rewrite <- Z.add_assoc, (rd_i32 _ _ _ H2). by destruct n. Qed.

Lemma named_in k off n : named_at k off n I -> 0 <= off < filled I k.
Proof. intros [H1 _]. by eapply str_in. Qed.

Lemma rd_tuple k off t : tuple_at k off t I -> read_tuple file (base k + off) = Some t.
Proof.
  intros (H1 & H2 & H3 & H4 & H5 & H6'). unfold read_tuple. rewrite (rd_i32 _ _ _ H1). cbn [mbind option_bind]. rewrite <- !Z.add_assoc.
  rewrite (rd_i32 _ _ _ H2). cbn [mbind option_bind]. rewrite (rd_i32 _ _ _ H3). cbn [mbind option_bind].
  rewrite (rd_array i32_at _ 4 ltac:(lia) rd_i32 i32_in _ _ _ _ H4). cbn [mbind option_bind].
  rewrite (rd_array i32_at _ 4 ltac:(lia) rd_i32 i32_in _ _ _ _ H5). cbn [mbind option_bind].
  rewrite (rd_array named_at _ 8 ltac:(lia) rd_named named_in _ _ _ _ H6'). by destruct t.
Qed.

Lemma tuple_in k off t : tuple_at k off t I -> 0 <= off < filled I k.
Proof. intros [H1 _]. by eapply i32_in. Qed.

Lemma rd_file_signature k off s : file_signature_at k off s I -> read_file_signature file (base k + off) = Some s.
Proof.
  intros (H1 & Hr & H2). unfold read_file_signature. rewrite (rd_string _ _ _ H1). cbn [mbind option_bind]. rewrite <- Z.add_assoc.
  apply bytes_file in H2; [|done]. rewrite (read_u64_has _ _ _ Hr H2). by destruct s.
Qed.

Lemma file_signature_in k off s : file_signature_at k off s I -> 0 <= off < filled I k.
Proof. intros [H1 _]. by eapply str_in. Qed.

Lemma rd_glob_signature k off s : glob_signature_at k off s I -> read_glob_signature file (base k + off) = Some s.
Proof. intros [H1 H2]. unfold read_glob_signature. rewrite (rd_string _ _ _ H1). cbn [mbind option_bind]. rewrite <- Z.add_assoc, (rd_digest _ _ _ H2). by destruct s. Qed.

Lemma glob_signature_in k off s : glob_signature_at k off s I -> 0 <= off < filled I k.
Proof. intros [H1 _]. by eapply str_in. Qed.

(** *** The whole *)

Lemma base_zero : base 0 = 0.
Proof. unfold seg_base. destruct I as [|l I']; [done|]. done. Qed.

Lemma names_read off names hashes : names_at off names hashes I ->
  read_i32 file off = Some (zlen names) /\ read_counted file (read_string_ptr file) 4 (zlen names) (off + 4) = Some names /\
  read_counted file (read_u32 file) 4 (zlen names) (off + 8) = Some hashes.
Proof.
  intros (H1 & Hl & H2 & H3). pose proof (rd_count str_at _ 4 ltac:(lia) rd_string str_in _ _ _ _ _ H1 H2) as E1.
  pose proof (rd_counted str_at _ 4 ltac:(lia) rd_string str_in _ _ _ _ H2) as E2. pose proof (rd_counted u32_at _ 4 ltac:(lia) rd_u32 u32_in _ _ _ _ H3) as E3.
  rewrite base_zero in E1, E2, E3. rewrite !Z.add_0_l in *. rewrite Hl in E3. done.
Qed.

Lemma load_dag_ok dag : nodes_at dag I -> setup_at dag I -> rest_at dag I -> load_dag (Some file) = Some dag.
Proof.
  intros (M & Hlen & N1 & N2 & N3) (S1 & S2 & S3 & S4 & S5 & S6 & S7 & S8) (R1 & R2 & R3 & R4 & R5 & R6 & R7 & R8 & R9 & R10).
  unfold load_dag, LoadFrozenData. pose proof base_zero as B0.
  assert (Hs : 132 <= zlen file).
  { destruct R10 as (_ & o & Hp & _). pose proof (cells_bound _ _ _ Hp) as Hb. change (items_size [_]) with 4 in Hb.
    apply cells_file in Hp; [|done]. apply has_items_ptr, has_range in Hp. rewrite length_le_bytes, B0 in Hp. lia. }
  rewrite (proj2 (Z.ltb_ge _ _)) by (unfold sizeof_DagData; lia).
  pose proof (rd_u32 _ _ _ M) as EM. rewrite B0 in EM. change (0 + 0) with 0 in EM. rewrite EM, bool_decide_true by done. cbn [mbind option_bind].
  destruct (names_read _ _ _ S2) as (C1 & C2 & C3). destruct (names_read _ _ _ S3) as (V1 & V2 & V3). destruct (names_read _ _ _ S4) as (U1 & U2 & U3).
  change (24 + 4) with 28 in C2. change (24 + 8) with 32 in C3. change (36 + 4) with 40 in V2. change (36 + 8) with 44 in V3.
  change (48 + 4) with 52 in U2. change (48 + 8) with 56 in U3.
  pose proof (rd_count node_at _ 72 ltac:(lia) rd_node node_in _ _ _ _ _ N1 N3) as EN.
  pose proof (rd_counted digest_at _ 16 ltac:(lia) rd_digest digest_in _ _ _ _ N2) as EG. rewrite Hlen in EG.
  pose proof (rd_counted node_at _ 72 ltac:(lia) rd_node node_in _ _ _ _ N3) as ED.
  pose proof (rd_array str_at _ 4 ltac:(lia) rd_string str_in _ _ _ _ S1) as EP.
  pose proof (rd_array tuple_at _ 36 ltac:(lia) rd_tuple tuple_in _ _ _ _ S5) as ET.
  pose proof (rd_array file_signature_at _ 16 ltac:(lia) rd_file_signature file_signature_in _ _ _ _ R1) as EF.
  pose proof (rd_array glob_signature_at _ 20 ltac:(lia) rd_glob_signature glob_signature_in _ _ _ _ R2) as EGl.
  pose proof (rd_array u32_at _ 4 ltac:(lia) rd_u32 u32_in _ _ _ _ R3) as EE.
  apply rd_i32 in S6, S7, S8, R4. apply rd_string in R5, R6, R7, R8, R9, R10. rewrite B0 in *. rewrite !Z.add_0_l in *.
  unfold read_dag, sizeof_NodeData, sizeof_BuildTupleData.
  repeat match goal with E : ?x = Some _ |- context [?x] => rewrite E; cbn [mbind option_bind] end. by destruct dag.
Qed.
End Reader.
