(* ===== verification/DagOrder.v ===== *)
(** * Guids and the order of nodes

    [ComputeNodeGuids] of DagGenerator.cpp: what the guid of a node is, that the
    table is strictly sorted or the document is rejected, and that the remap
    table inverts the order. *)

From stdpp Require Import sorting.
From S2P Require Import Prelude CType CommonFns Hash HashImpl HashThms DagData SortedArray PathUtil BinaryWriter FrozenFile FileSign.
From S2P Require Import JsonParse DagGenerator DagFile.

(** ** Digests are two 64-bit words *)

Lemma lxor_u32 a b : in_u32 a -> in_u32 b -> in_u32 (Z.lxor a b).
Proof.
  unfold in_u32. intros Ha Hb. split; [apply Z.lxor_nonneg; lia|]. destruct (decide (Z.lxor a b = 0)) as [->|Hne]; [lia|].
  assert (0 <= Z.lxor a b) by (apply Z.lxor_nonneg; lia). apply Z.log2_lt_pow2; [lia|]. pose proof (Z.log2_lxor a b ltac:(lia) ltac:(lia)).
  assert (forall x, 0 <= x < 2 ^ 32 -> Z.log2 x < 32).
  { intros x Hx. destruct (decide (x = 0)) as [->|]; [cbn; lia|]. apply Z.log2_lt_pow2; lia. }
  pose proof (H1 a Ha). pose proof (H1 b Hb). lia.
Qed.

Lemma shiftr_u32 a n : in_u32 a -> 0 <= n -> in_u32 (Z.shiftr a n).
Proof.
  unfold in_u32. intros Ha Hn. rewrite Z.shiftr_div_pow2 by done. pose proof (Z.pow_pos_nonneg 2 n ltac:(lia) Hn).
  split; [apply Z.div_pos; lia|]. apply Z.div_lt_upper_bound; nia.
Qed.

Lemma lane_u32 l : in_u32 (Fast.HashFinalize_lane l).
Proof. destruct l as [[[v0 v1] v2] v3]. unfold Fast.HashFinalize_lane. apply lxor_u32; [apply u32_range|]. apply shiftr_u32; [apply u32_range|lia]. Qed.

Lemma digest_of_ok msg : Fast.digest_ok (digest_of (B := FastBackend) msg).
Proof.
  unfold digest_of. cbn [HashFinalizeImpl FastBackend]. set (state := (absorb_all _).1). unfold Fast.HashFinalizeImpl, Fast.digest_ok.
  assert (Hn : forall i, in_u32 (nthZ (map Fast.HashFinalize_lane state) i)).
  { intros i. unfold nthZ. rewrite zlookup_map. destruct (state !!z i) as [l|]; cbn; [apply lane_u32|unfold in_u32; lia]. }
  cbn [Fast.m_Words64_0 Fast.m_Words64_1]. pose proof (Hn 0) as H0. pose proof (Hn 1) as H1. pose proof (Hn 2) as H2. pose proof (Hn 3) as H3.
  unfold in_u32 in *. lia.
Qed.

(** ** The guid of a node *)

Section Guid.
Context (junk : cstr) (Hjunk : length junk = 64%nat).

Lemma hash_inputs_repr l : forall h msg, hash_repr h msg -> hash_repr (foldl hash_input h l) (msg ++ concat (map cbytes (omap AsString l))).
Proof.
  induction l as [|v l IH]; intros h msg Hh; cbn [foldl]; [by rewrite app_nil_r|]. unfold hash_input at 2. cbn. destruct (AsString v) as [s|]; cbn.
  - rewrite app_assoc. apply IH. by apply (do_call_repr _ _ (AddString s)).
  - by apply IH.
Qed.

Lemma blank_bytes a : blank a = true -> match a with Some a => cbytes a | None => [] end = [].
Proof. destruct a as [[|c s]|]; cbn; [done| |done]. by intros ->. Qed.

Lemma node_guid_is i v g : identified v = true -> node_guid junk i v g = OK (Some (mkTemp (guid_of_node v) i, g)).
Proof.
  unfold identified, node_guid, guid_of_node, guid_message, str_member, list_member, elements. destruct (AsObject v) as [obj|] eqn:Ev; [|done].
  destruct v as [| |m| | |]; try done. injection Ev as ->. intros Hid. unfold mbind at 1, gen_bind at 1. cbn [or_false mret gen_ret].
  set (h1 := if blank (FindStringValue (JObject obj) (s2l "Action") None) then _ else _).
  assert (H1 : hash_repr h1 (match FindStringValue (JObject obj) (s2l "Action") None with Some a => cbytes a | None => [] end)).
  { unfold h1. destruct (blank _) eqn:Eb; [rewrite blank_bytes by done; by apply HashInit_repr|].
    destruct (FindStringValue (JObject obj) (s2l "Action") None) as [a|]; [|done]. by apply (do_call_repr _ [] (AddString a)), HashInit_repr. }
  set (h2 := match FindArrayValue (Some obj) (s2l "Inputs") with Some l => foldl hash_input h1 l | None => h1 end).
  assert (H2 : hash_repr h2 (match FindStringValue (JObject obj) (s2l "Action") None with Some a => cbytes a | None => [] end ++
    concat (map cbytes (omap AsString (default [] (list_member obj "Inputs")))))).
  { unfold h2, list_member. destruct (FindArrayValue (Some obj) (s2l "Inputs")) as [l|]; [by apply hash_inputs_repr|]. cbn. by rewrite app_nil_r. }
  set (h3 := match FindStringValue (JObject obj) (s2l "Annotation") None with Some a => HashAddString h2 a | None => h2 end).
  unfold mbind, gen_bind, require. rewrite Hid. cbn [mret gen_ret].
  rewrite (HashFinalize_repr h3 ((match FindStringValue (JObject obj) (s2l "Action") None with Some a => cbytes a | None => [] end ++
    concat (map cbytes (omap AsString (default [] (list_member obj "Inputs"))))) ++
    match FindStringValue (JObject obj) (s2l "Annotation") None with Some a => cbytes a | None => [] end)).
  - rewrite <- app_assoc. reflexivity.
  - unfold h3. destruct (FindStringValue (JObject obj) (s2l "Annotation") None) as [a|]; [by apply (do_call_repr _ _ (AddString a))|by rewrite app_nil_r].
Qed.

Lemma node_guids_is nodes : forall i g, forallb identified nodes = true ->
  node_guids junk i nodes g = OK (Some (imap (fun j v => mkTemp (guid_of_node v) (i + Z.of_nat j)) nodes, g)).
Proof.
  induction nodes as [|v nodes IH]; intros i g Hid; cbn [node_guids]; [done|]. cbn [forallb] in Hid. apply andb_true_iff in Hid as [Hv Hid].
  unfold mbind at 1, gen_bind at 1. rewrite node_guid_is by done. unfold mbind, gen_bind. rewrite IH by done. cbn [mret gen_ret imap].
  unfold mret, gen_ret. do 3 f_equal. f_equal; [by rewrite Z.add_0_r|]. apply imap_ext. intros j x _. cbn. f_equal. lia.
Qed.

Lemma temp_table_is nodes g : forallb identified nodes = true -> node_guids junk 0 nodes g = OK (Some (temp_table nodes, g)).
Proof. intros Hid. by rewrite node_guids_is. Qed.
End Guid.

(** ** The order *)

Lemma table_nodes nodes : map tg_Node (temp_table nodes) = map Z.of_nat (seq 0 (length nodes)).
Proof.
  unfold temp_table. change (map tg_Node ?l) with (tg_Node <$> l). rewrite fmap_imap. unfold compose. cbn.
  apply list_eq. intros i. rewrite list_lookup_imap. change (map Z.of_nat ?l) with (Z.of_nat <$> l). rewrite list_lookup_fmap.
  destruct (decide (i < length nodes)%nat) as [Hi|Hi].
  - rewrite lookup_seq_lt by done. destruct (lookup_lt_is_Some_2 nodes i Hi) as [v ->]. done.
  - rewrite (lookup_ge_None_2 nodes) by lia. rewrite lookup_seq_ge by lia. done.
Qed.

Lemma zseq_elem n i : i ∈ map Z.of_nat (seq 0 n) <-> 0 <= i < Z.of_nat n.
Proof.
  change (map Z.of_nat (seq 0 n)) with (Z.of_nat <$> seq 0 n). rewrite list_elem_of_fmap. split.
  - intros (x & -> & Hx%elem_of_seq). lia.
  - intros Hi. exists (Z.to_nat i). split; [lia|]. apply elem_of_seq. lia.
Qed.

Section Order.
Context `{StdSort} (nodes : list value).

Abbreviation order := (node_order nodes).

Lemma order_perm : order ≡ₚ temp_table nodes.
Proof. apply std_sort_perm. Qed.

Lemma order_length : length order = length nodes.
Proof. rewrite order_perm. unfold temp_table. by rewrite length_imap. Qed.

Lemma order_nodes : map tg_Node order ≡ₚ map Z.of_nat (seq 0 (length nodes)).
Proof. rewrite <- table_nodes. by apply Permutation_map, order_perm. Qed.

Lemma order_nodup : NoDup (map tg_Node order).
Proof. rewrite order_nodes. apply NoDup_fmap; [intros ? ? ?; lia|]. apply NoDup_seq. Qed.

Lemma order_elem t : t ∈ order -> exists v, nodes !!z tg_Node t = Some v /\ tg_Digest t = guid_of_node v.
Proof.
  rewrite order_perm. unfold temp_table. intros (i & v & -> & Hv)%elem_of_lookup_imap_1. cbn. exists v. by rewrite zlookup_nat.
Qed.

(** Neighbours that differ make the whole table strict. *)
Lemma neighbours_strict l : StronglySorted (fun x y => digest_lt (tg_Digest y) (tg_Digest x) = false) l -> neighbours_differ l = true -> ssorted (map tg_Digest l).
Proof.
  intros Hs Hn. apply Sorted_StronglySorted; [intros a b c; apply digest_lt_trans|].
  induction Hs as [|a l Hs IH Hf]; [constructor|]. destruct l as [|b l]; [repeat constructor|]. cbn [neighbours_differ] in Hn.
  destruct (digest_eq (tg_Digest a) (tg_Digest b)) eqn:E; [done|]. constructor; [by apply IH|]. constructor. apply Forall_cons in Hf as [Hab _].
  destruct (digest_lt_total (tg_Digest a) (tg_Digest b)) as [|[Eab|]]; [done| |congruence]. apply digest_eq_spec in Eab. congruence.
Qed.

Lemma order_sorted : neighbours_differ order = true -> ssorted (map tg_Digest order).
Proof. apply neighbours_strict. apply (sorted_by_key_weak tg_Digest). Qed.

(** Two nodes with the same guid are found. *)
Lemma strict_neighbours l : NoDup (map tg_Digest l) -> neighbours_differ l = true.
Proof.
  induction l as [|a l IH]; intros Hnd; [done|]. cbn [neighbours_differ]. destruct l as [|b l]; [done|].
  cbn [map] in Hnd. apply NoDup_cons in Hnd as [Ha Hnd]. destruct (digest_eq (tg_Digest a) (tg_Digest b)) eqn:E; [|by apply IH].
  apply digest_eq_spec in E. rewrite E in Ha. set_solver.
Qed.

Lemma neighbours_differ_iff : neighbours_differ order = true <-> NoDup (map guid_of_node nodes).
Proof.
  assert (Hp : map tg_Digest order ≡ₚ map guid_of_node nodes).
  { rewrite order_perm. unfold temp_table. change (map tg_Digest ?l) with (tg_Digest <$> l). rewrite fmap_imap.
    assert (E : forall (l : list value) (f : nat -> value -> HashDigest), (forall i v, f i v = guid_of_node v) -> imap f l = map guid_of_node l).
    { induction l as [|v l IH]; intros f Hf; [done|]. cbn. rewrite Hf. f_equal. apply IH. intros i x. apply Hf. }
    by rewrite E. }
  rewrite <- Hp. split; [|apply strict_neighbours]. intros Hn. by apply ssorted_nodup, order_sorted.
Qed.

(** ** Places *)

Lemma find_place (l : list TempNodeGuid) i : NoDup (map tg_Node l) ->
  match list_find (fun t => tg_Node t = i) l with
  | Some (p, t) => l !! p = Some t /\ tg_Node t = i
  | None => i ∉ map tg_Node l
  end.
Proof.
  intros Hnd. destruct (list_find _ l) as [[p t]|] eqn:E; [apply list_find_Some in E as (H1 & H2 & _); done|].
  apply list_find_None in E. rewrite Forall_forall in E. intros (t & -> & Ht)%list_elem_of_fmap. by apply (E t).
Qed.

Lemma place_of_range i p : place_of order i = Some p -> 0 <= i < zlen nodes /\ 0 <= p < zlen nodes.
Proof.
  unfold place_of. pose proof (find_place order i order_nodup) as Hf. destruct (list_find _ order) as [[q t]|]; [|done]. cbn. intros [= <-].
  destruct Hf as [Hq <-]. pose proof (lookup_lt_Some _ _ _ Hq) as Hl. rewrite order_length in Hl. split; [|lia].
  apply list_elem_of_lookup_2, order_elem in Hq as (v & Hv & _). by apply zlookup_lt in Hv.
Qed.

Lemma place_of_total i : 0 <= i < zlen nodes -> exists p, place_of order i = Some p.
Proof.
  intros Hi. unfold place_of. pose proof (find_place order i order_nodup) as Hf. destruct (list_find _ order) as [[q t]|]; [by eexists|].
  destruct Hf. rewrite order_nodes. by apply zseq_elem.
Qed.

Lemma place_of_spec i p : place_of order i = Some p <-> exists t, order !!z p = Some t /\ tg_Node t = i.
Proof.
  unfold place_of. split.
  - pose proof (find_place order i order_nodup) as Hf. destruct (list_find _ order) as [[q t]|]; [|done]. cbn. intros [= <-]. exists t. by rewrite zlookup_nat.
  - intros (t & Ht & Et). pose proof (zlookup_lt _ _ _ Ht) as Hp. unfold zlookup in Ht. rewrite bool_decide_true in Ht by lia.
    rewrite (proj2 (list_find_Some _ order (Z.to_nat p) t)); [cbn; f_equal; lia|]. split_and!; [done|done|].
    intros j y Hj Hlt Ey. pose proof order_nodup as Hnd. assert (j = Z.to_nat p); [|lia].
    apply (NoDup_lookup (map tg_Node order) j (Z.to_nat p) i Hnd); change (map tg_Node ?l) with (tg_Node <$> l); rewrite list_lookup_fmap; [by rewrite Hj, <- Ey|by rewrite Ht, <- Et].
Qed.

Lemma place_of_inj i j p : place_of order i = Some p -> place_of order j = Some p -> i = j.
Proof. rewrite !place_of_spec. intros (t & Ht & <-) (t' & Ht' & <-). congruence. Qed.

(** ** The remap table *)

Lemma fill_remap_ok l : forall remap i, NoDup (map tg_Node l) -> Forall (fun t => 0 <= tg_Node t < zlen remap) l ->
  exists remap', fill_remap remap i l = OK remap' /\ length remap' = length remap /\
  forall j, remap' !!z j = match list_find (fun t => tg_Node t = j) l with Some (p, _) => Some (i + Z.of_nat p) | None => remap !!z j end.
Proof.
  induction l as [|t l IH]; intros remap i Hnd HF; cbn [fill_remap]; [by exists remap|]. apply Forall_cons in HF as [Ht HF].
  cbn [map] in Hnd. apply NoDup_cons in Hnd as [Hn Hnd]. rewrite zwrite_ok by done. cbn [mbind res_bind].
  destruct (IH (zinsert (tg_Node t) i remap) (i + 1) Hnd) as (remap' & -> & Hl & Hj).
  { rewrite zinsert_length. done. }
  exists remap'. rewrite Hl, zinsert_length. split_and!; [done|done|]. intros j. rewrite Hj. cbn [list_find]. destruct (decide (tg_Node t = j)) as [<-|Hne].
  - rewrite Z.add_0_r. destruct (list_find _ l) as [[p t']|] eqn:E; [|by apply zlookup_insert_eq].
    apply list_find_Some in E as (H1 & H2 & _). destruct Hn. rewrite <- H2. apply (list_elem_of_fmap_2 tg_Node). by eapply list_elem_of_lookup_2.
  - destruct (list_find _ l) as [[p t']|] eqn:E; cbn; [f_equal; lia|]. by apply zlookup_insert_ne.
Qed.

(** The table [ComputeNodeGuids] leaves. *)
Definition remap_is (remap : list Z) : Prop := length remap = length nodes /\ forall i, remap !!z i = place_of order i.

Lemma compute_guids_ok junk junk_byte g : length junk = 64%nat -> forallb identified nodes = true -> neighbours_differ order = true ->
  exists remap, ComputeNodeGuids junk junk_byte nodes g = OK (Some ((order, remap), g)) /\ remap_is remap.
Proof.
  intros Hj Hid Hn. unfold ComputeNodeGuids. unfold mbind at 1, gen_bind at 1. rewrite temp_table_is by done.
  change (std_sort temp_lt (temp_table nodes)) with order. unfold mbind at 1, gen_bind at 1, require. rewrite Hn. cbn [mret gen_ret].
  destruct (fill_remap_ok order (replicate (length nodes) junk_byte) 0 order_nodup) as (remap & E & Hl & Hr).
  { apply Forall_forall. intros t (v & Hv & _)%order_elem. rewrite length_replicate. by apply zlookup_lt in Hv. }
  rewrite length_replicate in Hl. exists remap. unfold mbind, gen_bind, lift. rewrite E. split; [done|]. split; [done|]. intros i. rewrite Hr. unfold place_of.
  pose proof (find_place order i order_nodup) as Hf. destruct (list_find _ order) as [[p t]|]; [done|]. cbn.
  unfold zlookup. case_bool_decide as Hi; [|done]. apply lookup_replicate_None. rewrite order_nodes, zseq_elem in Hf. lia.
Qed.

(** A table with two equal guids, or a node nothing identifies, is rejected. *)
Lemma compute_guids_rejects junk junk_byte g : length junk = 64%nat -> forallb identified nodes = true -> ~ NoDup (map guid_of_node nodes) ->
  ComputeNodeGuids junk junk_byte nodes g = OK None.
Proof.
  intros Hj Hid Hn. unfold ComputeNodeGuids. unfold mbind at 1, gen_bind at 1. rewrite temp_table_is by done.
  change (std_sort temp_lt (temp_table nodes)) with order. unfold mbind at 1, gen_bind at 1, require.
  destruct (neighbours_differ order) eqn:E; [|done]. destruct Hn. by apply neighbours_differ_iff.
Qed.
End Order.
