(* ===== verification/DagCompile.v ===== *)
(** * The DAG generator writes what the document stands for

    Every piece of [CompileDag] (src/src/DagGenerator.cpp) leaves, in the segments,
    the structure the reference of DagFile gives for its part of the document. *)

From S2P Require Import Prelude CType CommonFns Buffers Hash HashImpl HashThms DagData SortedArray HashTable StatCache PathUtil PathThms BinaryWriter FrozenFile FileSign.
From S2P Require Import JsonParse DagGenerator DagFile DagWrite DagLayout DagOrder.

(** Split [m ≫= k = Some r] into the value of [m] and the rest. *)
Ltac split_bind H x E :=
  match type of H with
  | (?m ≫= _) = Some _ => destruct m as [x|] eqn:E; [cbn [mbind option_bind] in H|discriminate H]
  end.

(** ** Strings of a document *)

Fixpoint strings_ok (v : value) : Prop :=
  match v with
  | JString s => cstr_ok s
  | JArray l => foldr (fun x Q => strings_ok x /\ Q) True l
  | JObject m => foldr (fun '(k, x) Q => cstr_ok k /\ strings_ok x /\ Q) True m
  | _ => True
  end.

Definition object_ok (m : object) : Prop := strings_ok (JObject m).

Lemma array_ok l v : strings_ok (JArray l) -> v ∈ l -> strings_ok v.
Proof. cbn. induction l as [|x l IH]; intros H Hv; [set_solver|]. cbn in H. destruct H as [Hx H]. apply elem_of_cons in Hv as [->|Hv]; [done|by apply IH]. Qed.

Lemma member_ok m key v : object_ok m -> find_member m key = Some v -> strings_ok v.
Proof.
  unfold object_ok. cbn. induction m as [|[k x] m IH]; cbn; [done|]. intros (_ & Hx & Hm). case_match; [by intros [= <-]|by apply IH].
Qed.

Lemma names_ok m k v : object_ok m -> (k, v) ∈ m -> cstr_ok k /\ strings_ok v.
Proof.
  unfold object_ok. cbn. induction m as [|[k' x] m IH]; cbn; [set_solver|]. intros (Hk & Hx & Hm) Hin. apply elem_of_cons in Hin as [[= -> ->]|Hin]; [done|by apply IH].
Qed.

Lemma str_member_ok v key s : strings_ok v -> str_member v key = Some s -> cstr_ok s.
Proof.
  intros Hv. unfold str_member, FindStringValue. destruct v as [| |m| | |]; try done. destruct (find_member m (s2l key)) as [x|] eqn:E; [|done].
  pose proof (member_ok m _ _ Hv E) as Hx. destruct x; try done. by intros [= <-].
Qed.

Lemma list_member_ok m key l : object_ok m -> list_member m key = Some l -> Forall strings_ok l.
Proof.
  intros Hm. unfold list_member, FindArrayValue. destruct (find_member m (s2l key)) as [x|] eqn:E; [|done].
  pose proof (member_ok m _ _ Hm E) as Hx. destruct x; try done. intros [= <-]. apply Forall_forall. intros v Hv. by eapply array_ok.
Qed.

Lemma object_member_ok m key o : object_ok m -> FindObjectValue m key = Some o -> object_ok o.
Proof.
  intros Hm. unfold FindObjectValue. destruct (find_member m key) as [x|] eqn:E; [|done]. pose proof (member_ok m _ _ Hm E) as Hx. destruct x; try done. by intros [= <-].
Qed.

Lemma elements_ok m key : object_ok m -> Forall strings_ok (elements m key).
Proof. intros Hm. unfold elements. destruct (list_member m key) as [l|] eqn:E; [by eapply list_member_ok|constructor]. Qed.

Lemma as_string_ok v s : strings_ok v -> AsString v = Some s -> cstr_ok s.
Proof. destruct v; try done. by intros Hs [= <-]. Qed.

Lemma as_object_ok v m : strings_ok v -> AsObject v = Some m -> object_ok m /\ v = JObject m.
Proof. destruct v; try done. by intros Hs [= <-]. Qed.

Lemma Forall2_strengthen {A B} (P : A -> Prop) (R S : A -> B -> Prop) l k : Forall P l -> Forall2 R l k -> (forall a b, P a -> R a b -> S a b) -> Forall2 S l k.
Proof. intros HP HR HS. induction HR as [|a b l k Hab HR IH]; [constructor|]. apply Forall_cons in HP as [Ha HP]. constructor; [by apply HS|by apply IH]. Qed.

Lemma Forall2_right {A B} (R : A -> B -> Prop) (P : B -> Prop) l k : Forall2 R l k -> Forall P k -> Forall2 (fun a b => R a b /\ P b) l k.
Proof. intros HR HP. induction HR as [|a b l k Hab HR IH]; [constructor|]. apply Forall_cons in HP as [Hb HP]. constructor; [done|by apply IH]. Qed.

Lemma int_member_is m key d v : int_member m key d = Some v -> exists z, FindIntValue m (s2l key) d = OK z /\ i32 z = v.
Proof. unfold int_member. destruct (FindIntValue m (s2l key) d) as [z|]; [|done]. cbn. intros [= <-]. by exists z. Qed.

Lemma index_of_is v i : index_of v = Some i -> exists n, AsNumber v = Some n /\ double_to_int n = OK i.
Proof.
  unfold index_of. destruct (AsNumber v) as [n|]; [|done]. cbn. unfold run. destruct (double_to_int n) as [z|] eqn:E; [|done]. intros [= <-]. by exists n.
Qed.

(** ** Arrays *)

(** A [FrozenArray] with its elements in segment [j]: count, pointer, elements. *)
Lemma runs_array {B X} (body : B -> gen unit) (P : nat -> Z -> X -> assn) k j sz ks c l xs I (Q : unit -> assn) : (forall k off x, Stable (P k off x)) ->
  (k < j < 6)%nat -> k ∉ ks ->
  Forall2 (fun b x => forall I, runs (body b) I c (fun _ I' => added j sz ks I I' /\ P j (filled I j) x I')) l xs ->
  (forall I', ext I I' -> added k 8 (k :: ks) I I' -> array_at P sz j k (filled I k) xs I' -> Q tt I') ->
  runs (_ ← write_i32 k (i32 (zlen l)); _ ← write_pointer_to k j; for_each body l) I (c * length l) Q.
Proof.
  intros HP Hk Hks HF HQ. apply runs_step, runs_count; [lia|]. intros I1 He1 [Ha1 Hs1] Hc. apply runs_step, runs_pointer_to; [lia|].
  intros I2 He2 [Ha2 Hs2] Hp. eapply runs_post; [done|by apply (runs_for_each body P j sz ks)|]. intros [] I3 He3 [[Ha3 Hs3] Hes]. apply HQ; [exts| |].
  - split; [rewrite (same_filled _ _ _ k Hs3) by done; lia|]. intros i Hi. rewrite Hs3, Hs2, Hs1 by set_solver. done.
  - split; [rewrite <- (Forall2_length _ _ _ HF); by apply (stable I1); [exts|]|]. right. exists (filled I1 j). rewrite Ha1 in Hp. split; [by apply (stable I2); [exts|]|].
    by rewrite (same_filled _ _ _ j Hs2) in Hes by notin.
Qed.

(** The array of nothing. *)
Lemma runs_no_array {X} (P : nat -> Z -> X -> assn) k j sz I n (Q : unit -> assn) : (k < 6)%nat ->
  (forall I', ext I I' -> added k 8 [k] I I' -> array_at P sz j k (filled I k) [] I' -> Q tt I') ->
  runs (_ ← write_i32 k 0; on k BinarySegmentWriteNullPointer) I n Q.
Proof.
  intros Hk HQ. apply runs_step, runs_i32; [done|done|]. intros I1 He1 Ha1 [_ Hc]. apply runs_null; [done|]. intros I2 He2 Ha2 _. apply HQ; [exts|frames|].
  split; [by apply (stable I1); [exts|]|by left].
Qed.

(** ** Files *)

Section Files.
Context (native : PathType) (ci : bool) (junk_ends : list Z) (junk_data : cstr).
Hypothesis Hje : zlen junk_ends = kMaxPathSegments.
Hypothesis Hjd : zlen junk_data = kMaxPathLength.

Lemma clean_path_ok path : path_okb native path = true ->
  clean_path native junk_ends junk_data path = OK (format (parse native path)) /\ cstr_ok (format (parse native path)).
Proof using Hje Hjd.
  unfold path_okb. intros Hok. zbool. split.
  - unfold clean_path. destruct (PathInit_ok junk_ends junk_data path native) as (p & -> & Hp); [done..|]. cbn. by apply PathFormat_ok.
  - by apply format_cstr, segs_cstr.
Qed.

Lemma runs_write_files k l fs : (k < 5)%nat -> Forall2 (fun v f => file_of_path native ci v = Some f) l fs -> forall I n,
  runs (write_files native ci junk_ends junk_data k str_seg l) I n
    (fun b I' => b = true /\ added k (8 * zlen l) [k; str_seg] I I' /\ elems (file_at k) 8 (filled I k) fs I').
Proof using Hje Hjd.
  intros Hk. induction 1 as [|v f l fs Hv HF IH]; intros I n; cbn [write_files length].
  { apply runs_ret. split_and!; [done|apply added_zero|done]. }
  unfold file_of_path in Hv. destruct (AsString v) as [path|]; [|done]. cbn in Hv. destruct (path_okb native path) eqn:Hp; [|done]. injection Hv as <-.
  destruct (clean_path_ok path Hp) as [Ec Hc]. eapply runs_eval_lift; [exact Ec|]. apply runs_step, runs_string; [done|done|]. intros I1 He1 Ha1 Hs.
  apply runs_step, runs_u32; [lia|pose proof (Djb2HashPath_range ci (format (parse native path))); unfold in_u32; lia|]. intros I2 He2 Ha2 Hh.
  eapply runs_post; [done|apply IH|]. intros b I3 He3 (-> & Ha3 & Hes). destruct Ha1, Ha2. split_and!; [done| |].
  - replace (8 * Z.of_nat (S (length l))) with (8 + 8 * zlen l) by lia. apply (added_trans k 8 _ _ I I2 I3); [frames|done].
  - cbn [elems]. split; [split; cbn [m_Filename m_FilenameHash]|].
    + keep Hs.
    + keep Hh.
    + fills_in Hes. replace (filled I k + 8) with (filled I k + 4 + 4) by lia. done.
Qed.

Lemma runs_file_array k j files fs I n (Q : bool -> assn) : (k < j < 5)%nat -> mapM (file_of_path native ci) (default [] files) = Some fs ->
  (forall b I', ext I I' -> added k 8 [k; j; str_seg] I I' -> array_at file_at 8 j k (filled I k) fs I' -> Q b I') ->
  runs (WriteFileArray native ci junk_ends junk_data k j str_seg files) I n Q.
Proof using Hje Hjd.
  intros Hk HF%mapM_Some HQ. unfold WriteFileArray. destruct files as [[|v l]|]; cbn [default] in HF.
  1, 3: apply Forall2_nil_inv_l in HF as ->; apply runs_step, runs_i32; [lia|done|]; intros I1 He1 Ha1 [_ Hc]; apply runs_step, runs_null; [lia|];
    intros I2 He2 Ha2 _; apply runs_ret, HQ; [exts|frames|]; split; [by apply (stable I1); [exts|]|by left].
  set (l' := v :: l) in *. apply runs_step, runs_count; [lia|]. intros I1 He1 [Ha1 Hs1] Hc. apply runs_step, runs_pointer_to; [lia|]. intros I2 He2 [Ha2 Hs2] Hp.
  eapply runs_post; [done|apply (runs_write_files j l' fs ltac:(lia) HF I2 n)|]. intros b I3 He3 (_ & Ha3 & Hes). apply HQ; [exts|frames|]. split.
  - rewrite <- (Forall2_length _ _ _ HF). keep Hc.
  - right. exists (filled I j). fills_in Hes. split; [keep Hp|done].
Qed.

End Files.

(** ** Links between nodes *)

Section Links.
Context `{StdSort} (nodes : list value) (remap : list Z) (Hremap : remap_is nodes remap).
Hypothesis Hsmall : zlen nodes < 2 ^ 31.

Abbreviation order := (node_order nodes).

Lemma place_i32 i p : place_of order i = Some p -> in_i32 p.
Proof using Hsmall. intros Hp%place_of_range. unfold in_i32. lia. Qed.

(** A number of a document, in terms of places. *)
Definition placed (v : value) (p : Z) : Prop := exists i, index_of v = Some i /\ place_of order i = Some p.

Lemma runs_place {B} v p j (k : gen B) I n (Q : B -> assn) : (j < 6)%nat -> placed v p ->
  (forall I', ext I I' -> added j 4 [j] I I' -> i32_at j (filled I j) p I' -> runs k I' n Q) ->
  runs (num ← or_false (AsNumber v); i ← lift (double_to_int num); index ← lift (of_opt (remap !!z i)); _ ← write_i32 j index; k) I n Q.
Proof using Hremap Hsmall.
  intros Hj (i & Hi & Hp) HQ. apply index_of_is in Hi as (num & En & Ei). eapply runs_eval_or_false; [done|]. eapply runs_eval_lift; [done|].
  eapply runs_eval_lift; [by rewrite (proj2 Hremap), Hp|]. apply runs_step, runs_i32; [done|by eapply place_i32|done].
Qed.

Lemma runs_place_last v p j I n (Q : unit -> assn) : (j < 6)%nat -> placed v p ->
  (forall I', ext I I' -> added j 4 [j] I I' -> i32_at j (filled I j) p I' -> Q tt I') ->
  runs (num ← or_false (AsNumber v); i ← lift (double_to_int num); index ← lift (of_opt (remap !!z i)); write_i32 j index) I n Q.
Proof using Hremap Hsmall.
  intros Hj (i & Hi & Hp) HQ. apply index_of_is in Hi as (num & En & Ei). eapply runs_eval_or_false; [done|]. eapply runs_eval_lift; [done|].
  eapply runs_eval_lift; [by rewrite (proj2 Hremap), Hp|]. apply runs_i32; [done|by eapply place_i32|done].
Qed.

Lemma runs_node_array k j ints ps I n (Q : unit -> assn) : (k < j < 6)%nat -> Forall2 placed ints ps ->
  (forall I', ext I I' -> added k 8 [k; j] I I' -> array_at i32_at 4 j k (filled I k) ps I' -> Q tt I') ->
  runs (WriteNodeArray k j ints remap) I n Q.
Proof using Hremap Hsmall.
  intros Hk HF HQ. unfold WriteNodeArray. eapply (runs_post _ _ n (0 * length ints)); [lia| |intros [] I' He HI'; exact HI'].
  eapply (runs_array _ i32_at k j 4 [j] 0 ints ps); [apply _|done|notin| |done].
  eapply Forall2_impl; [exact HF|]. intros v p Hv I1. apply (runs_place_last v p j); [lia|done|]. auto.
Qed.

Lemma runs_deps k j deps ps I n (Q : unit -> assn) : (k < j < 6)%nat -> Forall2 placed (default [] deps) ps ->
  (forall I', ext I I' -> added k 8 [k; j] I I' -> array_at i32_at 4 j k (filled I k) ps I' -> Q tt I') ->
  runs (write_deps k j remap deps) I n Q.
Proof using Hremap Hsmall.
  intros Hk HF HQ. unfold write_deps. destruct deps as [deps|]; cbn [default] in HF.
  - apply runs_step, runs_align; [lia|lia|]. intros I1 He1 Hs1 _. apply runs_node_array with (ps := ps); [done|done|]. intros I2 He2 Ha2 Harr. fills_in Harr.
    apply HQ; [exts|frames|done].
  - apply Forall2_nil_inv_l in HF as ->. apply (runs_no_array i32_at k j 4); [lia|]. intros I' He Ha Harr. apply HQ; [done|frames|done].
Qed.

Lemma runs_backlinks k j links ps I n (Q : unit -> assn) : (k < j < 6)%nat -> Forall2 (fun i p => place_of order i = Some p) links ps ->
  (forall I', ext I I' -> added k 8 [k; j] I I' -> array_at i32_at 4 j k (filled I k) ps I' -> Q tt I') ->
  runs (write_backlinks k j remap links) I n Q.
Proof using Hremap Hsmall.
  intros Hk HF HQ. unfold write_backlinks. destruct (Z.ltb_spec 0 (zlen links)) as [Hl|Hl].
  - eapply (runs_post _ _ n (0 * length links)); [lia| |intros [] I' He HI'; exact HI'].
    eapply (runs_array _ i32_at k j 4 [j] 0 links ps); [apply _|done|notin| |done]. eapply Forall2_impl; [exact HF|]. intros i p Hi I1.
    eapply runs_eval_lift; [by rewrite (proj2 Hremap), Hi|]. apply runs_i32; [lia|by apply (place_i32 i)|auto].
  - destruct links; [|cbn [length] in Hl; lia]. apply Forall2_nil_inv_l in HF as ->. apply (runs_no_array i32_at k j 4); [lia|]. intros I' He Ha Harr.
    apply HQ; [done|frames|done].
Qed.
End Links.

(** ** Back links *)

Lemma gen_bind_ok {A B} (m : gen A) (k : A -> gen B) g a g' : m g = OK (Some (a, g')) -> (m ≫= k) g = k a g'.
Proof. intros E. unfold mbind, gen_bind. by rewrite E. Qed.

(** The users of [d] among nodes numbered from [i]. *)
Definition users_from (i : Z) (deps : list (list Z)) (d : Z) : list Z :=
  concat (imap (fun j ds => map (fun _ => i + Z.of_nat j) (filter (fun x => x = d) ds)) deps).

Lemma users_from_cons i ds deps d : users_from i (ds :: deps) d = map (fun _ => i) (filter (fun x => x = d) ds) ++ users_from (i + 1) deps d.
Proof.
  unfold users_from. cbn. rewrite Z.add_0_r. f_equal. f_equal. apply imap_ext. intros j x _. cbn. apply map_ext. intros _. lia.
Qed.

Lemma link_deps_ok N i vs ds : Forall2 (fun v d => index_of v = Some d /\ 0 <= d < N) vs ds -> forall links, zlen links = N ->
  exists links', (forall g, fold_gen (link_dep N i) links vs g = OK (Some (links', g))) /\ zlen links' = N /\
  forall d, links' !!z d = (fun l => l ++ map (fun _ => i) (filter (fun x => x = d) ds)) <$> links !!z d.
Proof.
  induction 1 as [|v e vs ds [Hv He] HF IH]; intros links Hl; cbn [fold_gen].
  { exists links. split_and!; [done|done|]. intros d. destruct (links !!z d); cbn; [by rewrite app_nil_r|done]. }
  apply index_of_is in Hv as (num & En & Ei). destruct (zlookup_is_Some links e) as [l El]; [lia|].
  destruct (IH (zinsert e (l ++ [i]) links)) as (links' & E & Hl' & Hd); [by rewrite zinsert_length|]. exists links'. split_and!; [|done|].
  { intros g. rewrite (gen_bind_ok _ _ g (zinsert e (l ++ [i]) links) g); [apply E|]. unfold link_dep. rewrite En, (gen_bind_ok _ _ g num g eq_refl).
    rewrite (gen_bind_ok _ _ g e g) by (unfold lift; by rewrite Ei). rewrite (proj2 (Z.ltb_ge e 0)), (proj2 (Z.leb_gt N e)) by lia.
    rewrite (gen_bind_ok _ _ g tt g eq_refl). unfold lift, add_link. rewrite El. cbn [of_opt mbind res_bind]. by rewrite zwrite_ok by lia. }
  intros d. rewrite Hd, filter_cons. destruct (decide (e = d)) as [->|Hne].
  - rewrite zlookup_insert_eq, El by lia. cbn. by rewrite <- app_assoc.
  - by rewrite zlookup_insert_ne by done.
Qed.

Lemma collect_links_ok N nodes deps : Forall2 (fun v ds => deps_of v = Some ds /\ Forall (fun d => 0 <= d < N) ds) nodes deps -> forall i links, zlen links = N ->
  exists links', (forall g, collect_links N i links nodes g = OK (Some (links', g))) /\ zlen links' = N /\
  forall d, links' !!z d = (fun l => l ++ users_from i deps d) <$> links !!z d.
Proof.
  induction 1 as [|v ds nodes deps [Hv Hr] HF IH]; intros i links Hl; cbn [collect_links].
  { exists links. split_and!; [done|done|]. intros d. destruct (links !!z d); cbn; [by rewrite app_nil_r|done]. }
  unfold deps_of, elements, list_member in Hv. destruct (AsObject v) as [obj|]; [|done]. cbn [mbind option_bind] in Hv. 
  assert (Hstep : exists links1, (forall g, match FindArrayValue (Some obj) (s2l "Deps") with Some deps => fold_gen (link_dep N i) links deps | None => mret links end g = OK (Some (links1, g))) /\
    zlen links1 = N /\ forall d, links1 !!z d = (fun l => l ++ map (fun _ => i) (filter (fun x => x = d) ds)) <$> links !!z d).
  { apply mapM_Some in Hv. destruct (FindArrayValue (Some obj) (s2l "Deps")) as [vs|]; cbn [default] in Hv.
    - apply link_deps_ok; [|done]. by apply Forall2_right.
    - apply Forall2_nil_inv_l in Hv as ->. exists links. split_and!; [done|done|]. intros d. destruct (links !!z d); cbn; [by rewrite app_nil_r|done]. }
  destruct Hstep as (links1 & E1 & Hl1 & Hd1). destruct (IH (i + 1) links1 Hl1) as (links' & E & Hl' & Hd). exists links'.
  split_and!; [|done|]; [intros g; by rewrite (gen_bind_ok _ _ g obj g eq_refl), (gen_bind_ok _ _ _ _ _ (E1 g))|]. intros d. rewrite Hd, Hd1, users_from_cons. destruct (links !!z d); cbn; [by rewrite <- app_assoc|done].
Qed.

Lemma links_ok nodes deps : Forall2 (fun v ds => deps_of v = Some ds /\ Forall (fun d => 0 <= d < zlen nodes) ds) nodes deps ->
  exists links, (forall g, collect_links (zlen nodes) 0 (replicate (length nodes) []) nodes g = OK (Some (links, g))) /\
  forall i, 0 <= i < zlen nodes -> links !!z i = Some (users_of deps i).
Proof.
  intros HF. destruct (collect_links_ok _ _ _ HF 0 (replicate (length nodes) [])) as (links & E & _ & Hd); [by rewrite length_replicate|].
  exists links. split; [done|]. intros i Hi. rewrite Hd. unfold zlookup. rewrite bool_decide_true by lia. rewrite lookup_replicate_2 by lia. done.
Qed.

(** ** Environment, scanner and flags of a node *)

Lemma env_of_is v e : strings_ok v -> env_of v = Some e ->
  FindStringValue v (s2l "Key") None = Some (ev_Name e) /\ FindStringValue v (s2l "Value") None = Some (ev_Value e) /\ cstr_ok (ev_Name e) /\ cstr_ok (ev_Value e).
Proof.
  intros Hv. unfold env_of. destruct (str_member v "Key") as [k|] eqn:Ek; [|done]. cbn. destruct (str_member v "Value") as [x|] eqn:Ex; [|done]. cbn.
  intros [= <-]. cbn. split_and!; [done|done|by eapply str_member_ok|by eapply str_member_ok].
Qed.

Lemma runs_env k j vars es I n (Q : unit -> assn) : (k < j < 5)%nat -> Forall strings_ok (default [] vars) -> mapM env_of (default [] vars) = Some es ->
  (2 * length (default [] vars) <= n)%nat ->
  (forall I', ext I I' -> added k 8 [k; j; str_seg] I I' -> array_at env_at 8 j k (filled I k) es I' -> Q tt I') ->
  runs (write_env k j str_seg vars) I n Q.
Proof.
  intros Hk Hok HF%mapM_Some Hn HQ. unfold write_env. destruct vars as [[|v l]|]; cbn [default] in *.
  1, 3: apply Forall2_nil_inv_l in HF as ->; apply (runs_no_array env_at k j 8); [lia|]; intros I' He Ha Harr; apply HQ; [done|frames|done].
  set (l' := v :: l) in *. apply runs_step, runs_align; [lia|lia|]. intros I1 He1 Hs1 _.
  eapply (runs_post _ _ n (2 * length l')); [done| |intros [] I' He HI'; exact HI'].
  eapply (runs_array _ env_at k j 8 [j; str_seg] 2 l' es); [apply _|lia|notin| |].
  - eapply Forall2_strengthen; [exact Hok|exact HF|]. intros x e Hx He%env_of_is I2; [|done]. destruct He as (Ek & Ev & Hk1 & Hv1).
    eapply runs_eval_or_false; [done|]. eapply runs_eval_or_false; [done|]. eapply (runs_seq _ _ I2 1 1); [lia|]. apply runs_common; [lia|done|].
    intros I3 He3 Ha3 Hs3. apply runs_common; [lia|done|]. intros I4 He4 Ha4 Hs4. split; [frames|]. destruct Ha3. split; [keep Hs3|keep Hs4].
  - intros I2 He2 Ha2 Harr. fills_in Harr. apply HQ; [exts|frames|done].
Qed.

Lemma node_flags_range node : in_u32 (node_flags node).
Proof.
  unfold node_flags, GetNodeFlag, kFlagOverwriteOutputs, kFlagPreciousOutputs, kFlagExpensive.
  repeat case_match; vm_compute; split; try discriminate; reflexivity.
Qed.

(** The scanners written so far and where they are. *)
Definition scanners_at (ptrs : list BinaryLocator) (scanners : list ScannerData) : assn :=
  fun I => Forall2 (fun p s => exists o, p = mkLoc (Z.of_nat aux_seg) o /\ scanner_at aux_seg o s I) ptrs scanners.

#[export] Instance scanners_at_stable ptrs scanners : Stable (scanners_at ptrs scanners).
Proof. intros I I' He H. eapply Forall2_impl; [exact H|]. intros p s (o & -> & Hs). exists o. split; [done|]. by eapply stable. Qed.

Lemma runs_scanner_ptr ptrs scanners node s I n z (Q : unit -> assn) : scanners_at ptrs scanners I ->
  scanner_member scanners node = Some s -> FindIntValue node (s2l "ScannerIndex") (-1) = OK z ->
  (forall I', ext I I' -> added node_data_seg 4 [node_data_seg] I I' -> opt_at scanner_ref node_data_seg (filled I node_data_seg) s I' -> Q tt I') ->
  runs (write_scanner_ptr node_data_seg ptrs (i32 z)) I n Q.
Proof.
  intros Hsc Hs Ez HQ. unfold scanner_member, int_member in Hs. change (FindIntValue node (s2l "ScannerIndex")) with (FindIntValue node "ScannerIndex") in Ez.
  rewrite Ez in Hs. cbn in Hs. unfold write_scanner_ptr. rewrite (Z.eqb_sym (-1)). destruct (i32 z =? -1); cbn [negb].
  - injection Hs as <-. apply runs_null; [lia|]. intros I' He Ha Hn. by apply HQ.
  - destruct (scanners !!z i32 z) as [sc|] eqn:Es; [|done]. injection Hs as <-. unfold zlookup in Es. case_bool_decide as Hi; [|done].
    destruct (Forall2_lookup_r _ _ _ _ _ Hsc Es) as (p & Ep & o & -> & Hat). eapply runs_eval_lift.
    { unfold zlookup. rewrite bool_decide_true by done. rewrite Ep. reflexivity. }
    assert (Ho : 0 <= o <= filled I aux_seg).
    { destruct Hat as ([_ (pre & post & E & <-)] & _). unfold filled. rewrite E, !items_size_app. pose proof (items_size_nonneg pre). pose proof (items_size_nonneg post).
      rewrite ibytes_size. lia. }
    apply runs_ptr; [lia|done|]. intros H6. pose proof (put_ext node_data_seg [IPtr (mkLoc (Z.of_nat aux_seg) o)] I ltac:(lia)) as He.
    pose proof (put_added node_data_seg [IPtr (mkLoc (Z.of_nat aux_seg) o)] I H6 ltac:(lia)) as Ha. apply HQ; [done|exact Ha|].
    exists o. split; [apply put_cells; lia|by apply (stable I)].
Qed.

(** ** Nodes *)

(** How often a node stores a shared string. *)
Definition node_uses (v : value) : nat :=
  match AsObject v with Some obj => S (2 * length (elements obj "Env")) | None => 0 end.

Section Nodes.
Context (native : PathType) (ci : bool) (junk_ends : list Z) (junk_data : cstr) `{StdSort}.
Hypothesis Hje : zlen junk_ends = kMaxPathSegments.
Hypothesis Hjd : zlen junk_data = kMaxPathLength.
Context (nodes : list value) (deps : list (list Z)) (scanners : list ScannerData) (ptrs : list BinaryLocator) (remap : list Z) (links : list (list Z)).
Hypothesis Hok : Forall strings_ok nodes.
Hypothesis Hsmall : zlen nodes < 2 ^ 31.
Hypothesis Hremap : remap_is nodes remap.
Hypothesis Hdeps : mapM deps_of nodes = Some deps.
Hypothesis Hlinks : forall i, 0 <= i < zlen nodes -> links !!z i = Some (users_of deps i).

Abbreviation order := (node_order nodes).
Abbreviation touched := [node_data_seg; aux_seg; str_seg].

(** The dependencies of a node, placed. *)
Lemma placed_deps i v obj ds ps : nodes !!z i = Some v -> AsObject v = Some obj -> deps !!z i = Some ds -> mapM (place_of order) ds = Some ps ->
  Forall2 (placed nodes) (default [] (FindArrayValue (Some obj) (s2l "Deps"))) ps.
Proof using Hdeps.
  clear Hje Hjd Hsmall. intros Hv Ho Hd Hp. apply mapM_Some in Hdeps. pose proof (zlookup_lt _ _ _ Hv) as Hi. unfold zlookup in Hv, Hd. rewrite bool_decide_true in Hv, Hd by lia.
  pose proof (Forall2_lookup_lr _ _ _ _ _ _ Hdeps Hv Hd) as Hds. unfold deps_of in Hds. rewrite Ho in Hds. cbn [mbind option_bind] in Hds.
  apply mapM_Some in Hds, Hp. unfold elements, list_member in Hds. clear -Hds Hp. revert ps Hp.
  induction Hds as [|a d vs ds Ha HF IH]; intros ps Hp; [apply Forall2_nil_inv_l in Hp as ->; constructor|].
  apply Forall2_cons_inv_l in Hp as (p & ps' & Hp & HF' & ->). constructor; [by exists d|by apply IH].
Qed.

Definition written (nd : NodeData) (I I' : segs) : Prop := added node_data_seg 72 touched I I' /\ node_at node_data_seg (filled I node_data_seg) nd I'.

Lemma runs_write_node t nd I : scanners_at ptrs scanners I -> node_of native ci scanners order deps nodes t = Some nd ->
  runs (write_node native ci junk_ends junk_data nodes node_data_seg aux_seg str_seg ptrs remap links t) I
    (match nodes !!z tg_Node t with Some v => node_uses v | None => 0 end) (fun _ I' => written nd I I').
Proof using Hje Hjd Hok Hsmall Hremap Hdeps Hlinks.
  intros Hsc Hnd. unfold node_of in Hnd. split_bind Hnd v Ev.
  assert (Hv : strings_ok v) by (rewrite Forall_forall in Hok; apply Hok; by eapply zlookup_elem).
  split_bind Hnd obj Eo. destruct (as_object_ok v obj Hv Eo) as [Hobj _]. split_bind Hnd anno Ean. split_bind Hnd pass Epass. split_bind Hnd ds Eds.
  split_bind Hnd dps Edps. split_bind Hnd bps Ebps. split_bind Hnd inputs Ein. split_bind Hnd outputs Eout. split_bind Hnd auxs Eaux.
  split_bind Hnd env Eenv. split_bind Hnd sc Esc. injection Hnd as <-.
  apply int_member_is in Epass as (pz & Epz & <-).
  assert (exists sz, FindIntValue obj (s2l "ScannerIndex") (-1) = OK sz) as [sz Esz].
  { unfold scanner_member in Esc. destruct (int_member obj "ScannerIndex" (-1)) eqn:E; [|done]. apply int_member_is in E as (y & -> & _). by exists y. }
  pose proof (placed_deps _ _ _ _ _ Ev Eo Eds Edps) as HD. apply mapM_Some in Ebps. unfold node_uses. rewrite Eo. unfold write_node. rewrite Ev.
  eapply runs_eval_lift; [done|]. eapply runs_eval_lift; [by rewrite Eo|]. eapply runs_eval_lift; [exact Epz|]. eapply runs_eval_lift; [exact Esz|].
  apply runs_step, runs_string_opt; [lia|intros x Hx; exact (str_member_ok v "Action" x Hv Hx)|]. intros I1 He1 [Ha1 Hf1] H1.
  apply runs_step, runs_string_opt; [lia|intros x Hx; exact (str_member_ok v "PreAction" x Hv Hx)|]. intros I2 He2 [Ha2 Hf2] H2.
  unfold str_member in Ean. rewrite Ean. eapply (runs_seq _ _ I2 1 (2 * length (elements obj "Env"))); [lia|].
  apply runs_common; [lia|by eapply (str_member_ok v "Annotation")|]. intros I3 He3 [Ha3 Hf3] H3.
  apply runs_step, runs_i32; [lia|apply i32_range|]. intros I4 He4 [Ha4 Hf4] H4.
  apply runs_step. eapply (runs_deps nodes remap Hremap Hsmall); [lia|exact HD|]. intros I5 He5 [Ha5 Hf5] H5.
  eapply runs_eval_lift; [rewrite Hlinks by (by apply zlookup_lt in Ev); reflexivity|].
  apply runs_step. eapply (runs_backlinks nodes remap Hremap Hsmall); [lia|exact Ebps|]. intros I6 He6 [Ha6 Hf6] H6.
  apply runs_step. eapply (runs_file_array native ci junk_ends junk_data Hje Hjd); [lia|exact Ein|]. intros _ I7 He7 [Ha7 Hf7] H7.
  apply runs_step. eapply (runs_file_array native ci junk_ends junk_data Hje Hjd); [lia|exact Eout|]. intros _ I8 He8 [Ha8 Hf8] H8.
  apply runs_step. eapply (runs_file_array native ci junk_ends junk_data Hje Hjd); [lia|exact Eaux|]. intros _ I9 He9 [Ha9 Hf9] H9.
  eapply (runs_seq _ _ I9 (2 * length (elements obj "Env")) 0); [lia|].
  eapply runs_env; [lia|by apply elements_ok|exact Eenv|done|]. intros I10 He10 [Ha10 Hf10] H10.
  apply runs_step. eapply runs_scanner_ptr; [by apply (stable I); [exts|]|exact Esc|exact Esz|]. intros I11 He11 [Ha11 Hf11] H11.
  apply runs_u32; [lia|apply node_flags_range|]. intros I12 He12 [Ha12 Hf12] H12. split; [split; [rewrite Ha12, Ha11, Ha10, Ha9, Ha8, Ha7, Ha6, Ha5, Ha4, Ha3, Ha2, Ha1; lia|frames]|].
  clear Hje Hjd Hsmall.
  unfold node_at. cbn [nd_Action nd_PreAction nd_Annotation nd_PassIndex nd_Dependencies nd_BackLinks nd_InputFiles nd_OutputFiles nd_AuxOutputFiles nd_EnvVars nd_Scanner nd_Flags].
  split_and!; [keep H1|keep H2|keep H3|keep H4|keep H5|keep H6|keep H7|keep H8|keep H9|keep H10|keep H11|keep H12].
Qed.
End Nodes.

(** ** Scanners *)

Lemma get_string_ok (v : value) s : AsString v = Some s -> GetString v = OK s.
Proof. unfold GetString. by intros ->. Qed.

Lemma u16_i16 v : u16 (i16 v) = u16 v.
Proof. unfold u16, i16. rewrite Zminus_mod, Z.mod_mod, <- Zminus_mod by lia. f_equal. lia. Qed.

Lemma i16_range v : - 2 ^ 15 <= i16 v < 2 ^ 15.
Proof. unfold i16. pose proof (Z.mod_pos_bound (v + 2 ^ 15) (2 ^ 16)). lia. Qed.

Lemma runs_kws follow array ks I n (Q : unit -> assn) : Forall strings_ok (default [] array) -> Forall2 (fun v k => keyword follow v = Some k) (default [] array) ks ->
  (forall I', ext I I' -> added aux2_seg (8 * zlen ks) [aux2_seg; str_seg] I I' -> elems (keyword_at aux2_seg) 8 (filled I aux2_seg) ks I' -> Q tt I') ->
  runs (write_kws aux2_seg str_seg array follow) I n Q.
Proof.
  intros Hok HF HQ. unfold write_kws. destruct array as [l|]; cbn [default] in *; cycle 1.
  { apply Forall2_nil_inv_l in HF as ->. apply runs_ret, HQ; [reflexivity|apply added_zero|done]. }
  eapply (runs_post _ _ n (0 * length l)); [lia| |intros [] I' He HI'; exact HI']. eapply runs_post; [done| |].
  - eapply (runs_for_each _ keyword_at aux2_seg 8 [aux2_seg; str_seg] 0 l ks); [apply _|]. eapply Forall2_strengthen; [exact Hok|exact HF|].
    intros v k Hv Hk I1. unfold keyword in Hk. destruct (AsString v) as [s|] eqn:Es; [|done]. injection Hk as <-. pose proof (as_string_ok v s Hv Es) as Hs.
    eapply runs_eval_or_false; [done|]. apply runs_step, runs_string; [lia|done|]. intros I2 He2 [Ha2 Hf2] H2.
    apply runs_step, runs_bytes; [lia|]. intros I3 He3 [Ha3 Hf3] H3. apply runs_step, runs_bytes; [lia|]. intros I4 He4 [Ha4 Hf4] H4.
    apply runs_bytes; [lia|]. intros I5 He5 [Ha5 Hf5] _. rewrite !length_le_bytes in *. split; [frames|]. unfold keyword_at. cbn [kw_String kw_StringLength kw_ShouldFollow].
    split_and!; [keep H2|apply i16_range|apply i16_range|rewrite u16_i16; keep H3|]. destruct follow; keep H4.
  - intros [] I' He [Ha Hes]. apply HQ; [done|by rewrite <- (Forall2_length _ _ _ HF)|done].
Qed.

Lemma generic_flags_range data : in_u32 (generic_flags data).
Proof.
  unfold generic_flags, kFlagRequireWhitespace, kFlagUseSeparators, kFlagBareMeansSystem. repeat case_match; vm_compute; split; try discriminate; reflexivity.
Qed.

Lemma runs_generic data fk nk I n (Q : unit -> assn) : object_ok data ->
  mapM (keyword true) (elements data "Keywords") = Some fk -> mapM (keyword false) (elements data "KeywordsNoFollow") = Some nk ->
  (forall I', ext I I' -> added aux_seg 12 [aux_seg; aux2_seg; str_seg] I I' -> u32_at aux_seg (filled I aux_seg) (generic_flags data) I' ->
    array_at keyword_at 8 aux2_seg aux_seg (filled I aux_seg + 4) (fk ++ nk) I' -> Q tt I') ->
  runs (write_generic aux_seg aux2_seg str_seg data) I n Q.
Proof.
  intros Hd Hf%mapM_Some Hn%mapM_Some HQ. unfold write_generic. pose proof (elements_ok data "Keywords" Hd) as Hok1. pose proof (elements_ok data "KeywordsNoFollow" Hd) as Hok2.
  unfold elements, list_member in *. set (fa := FindArrayValue (Some data) (s2l "Keywords")) in *. set (na := FindArrayValue (Some data) (s2l "KeywordsNoFollow")) in *.
  assert (Ec : count_of fa + count_of na = zlen (fk ++ nk)).
  { rewrite length_app, <- (Forall2_length _ _ _ Hf), <- (Forall2_length _ _ _ Hn). destruct fa, na; cbn; lia. }
  apply runs_step, runs_u32; [lia|apply generic_flags_range|]. intros I1 He1 [Ha1 Hs1] H1. rewrite Ec.
  apply runs_step, runs_count; [lia|]. intros I2 He2 [Ha2 Hs2] H2. destruct (Z.ltb_spec 0 (zlen (fk ++ nk))) as [Hl|Hl].
  - apply runs_step, runs_align; [lia|lia|]. intros I3 He3 Hs3 _. apply runs_step, runs_pointer_to; [lia|]. intros I4 He4 [Ha4 Hs4] H4.
    apply runs_step. eapply (runs_kws true fa fk); [exact Hok1|exact Hf|]. intros I5 He5 [Ha5 Hs5] H5.
    eapply (runs_kws false na nk); [exact Hok2|exact Hn|]. intros I6 He6 [Ha6 Hs6] H6. apply HQ; [exts|frames|keep H1|]. split; [keep H2|].
    right. exists (filled I3 aux2_seg). split; [fills_in H4; keep H4|]. rewrite (same_filled _ _ _ aux2_seg Hs4) in Ha5 by notin.
    rewrite (same_filled _ _ _ aux2_seg Hs4) in H5 by notin. apply elems_app; [by apply (stable I5)|]. by rewrite Ha5 in H6.
  - destruct fk; [|cbn [app length] in Hl; lia]. destruct nk; [|cbn [app length] in Hl; lia].
    apply runs_null; [lia|]. intros I3 He3 [Ha3 Hs3] _. apply HQ; [exts|frames|keep H1|]. split; [keep H2|by left].
Qed.

Lemma capacity_first x : 0 <= x <= 2 ^ 17 -> bytes_capacity x = 2 ^ 17.
Proof.
  intros Hx. unfold bytes_capacity. apply Z.max_l. apply Z.pow_le_mono_r; [lia|].
  pose proof (Z.log2_up_le_mono x (2 ^ 17) ltac:(lia)) as Hl. by rewrite Z.log2_up_pow2 in Hl by lia.
Qed.

Lemma log2_up_above n : n <= 2 ^ Z.log2_up n.
Proof. destruct (Z.le_gt_cases n 1) as [H1|H1]; [rewrite Z.log2_up_eqn0 by lia; lia|]. by destruct (Z.log2_up_spec n H1). Qed.

(** The capacity the source's [BufferAlloc] arrives at. *)
Lemma capacity_grows size count : 0 <= size -> 0 <= count <= 2 ^ 17 -> BufferAlloc_capacity (bytes_capacity size) size count = bytes_capacity (size + count).
Proof.
  intros Hs Hc. unfold BufferAlloc_capacity. assert (Hk : exists k, 17 <= k /\ bytes_capacity size = 2 ^ k /\ size <= 2 ^ k /\ (k = 17 \/ 2 ^ Z.pred k < size)).
  { unfold bytes_capacity. pose proof (log2_up_above size). destruct (Z.le_gt_cases (Z.log2_up size) 17) as [Hl|Hl].
    - pose proof (Z.pow_le_mono_r 2 _ 17 ltac:(lia) Hl). exists 17. split_and!; [lia|lia|lia|by left].
    - pose proof (Z.pow_le_mono_r 2 17 (Z.log2_up size) ltac:(lia) ltac:(lia)). exists (Z.log2_up size). split_and!; [lia|lia|lia|right].
      assert (H1 : 1 < size) by (destruct (Z.le_gt_cases size 1) as [H1|]; [rewrite Z.log2_up_eqn0 in Hl by lia; lia|done]). by destruct (Z.log2_up_spec size H1). }
  destruct Hk as (k & Hk & -> & Hsz & Hlow). pose proof (Z.pow_le_mono_r 2 17 k ltac:(lia) Hk) as H17. unfold bytes_capacity.
  destruct (Z.ltb_spec (2 ^ k) (size + count)) as [Hlt|Hge].
  - rewrite (proj2 (Z.eqb_neq (2 ^ k) 0)), (proj2 (Z.ltb_ge _ _)) by lia.
    assert (Z.log2_up (size + count) = Z.succ k) as ->; [|rewrite Z.pow_succ_r by lia; lia].
    apply Z.log2_up_unique; [lia|]. rewrite Z.pred_succ, Z.pow_succ_r by lia. lia.
  - destruct Hlow as [->|Hlow].
    + symmetry. apply capacity_first. lia.
    + assert (Z.log2_up (size + count) = k) as ->; [|lia]. apply Z.log2_up_unique; [lia|]. lia.
Qed.

Section Scanners.
Context (ci : bool) (junk : cstr) (junk_byte : Z) (Hjunk : length junk = 64%nat).

Definition path_bytes (p : cstr) : cstr := call_bytes (AddPath ci p).

Lemma runs_incpaths vs paths : Forall strings_ok vs -> Forall2 (fun v s => AsString v = Some s) vs paths -> forall h msg I, hash_repr h msg ->
  runs (fold_gen (fun h v => path ← lift (GetString v); _ ← WriteCommonStringPtr aux2_seg str_seg (Some path); mret (HashAddPath ci h path)) h vs) I (length vs)
    (fun h' I' => hash_repr h' (msg ++ concat (map path_bytes paths)) /\ added aux2_seg (4 * zlen paths) [aux2_seg; str_seg] I I' /\
      elems (str_at aux2_seg) 4 (filled I aux2_seg) paths I').
Proof using Type.
  clear Hjunk. intros Hok HF. induction HF as [|v s vs paths Hv HF IH]; intros h msg I Hh; cbn [fold_gen length map concat].
  { apply runs_ret. rewrite app_nil_r. split_and!; [done|apply added_zero|done]. }
  apply Forall_cons in Hok as [Hv' Hok]. eapply (runs_seq _ _ I 1 (length vs)); [lia|]. eapply runs_eval_lift; [by apply get_string_ok|].
  eapply (runs_seq _ _ I 1 0); [lia|]. apply runs_common; [lia|by eapply as_string_ok|]. intros I1 He1 [Ha1 Hs1] H1. apply runs_ret. eapply runs_post; [done|apply IH; [done|]|].
  - by apply (do_call_repr h msg (AddPath ci s)).
  - intros h' I2 He2 (Hr & Ha2 & Hes). rewrite <- app_assoc in Hr. split_and!; [done| |].
    + replace (4 * Z.of_nat (S (length paths))) with (4 + 4 * zlen paths) by lia. by apply (added_trans _ 4 _ _ I I1 I2).
    + cbn [elems]. split; [keep H1|]. by rewrite Ha1 in Hes.
Qed.

Definition scanner_uses (v : value) : nat := match AsObject v with Some m => length (elements m "IncludePaths") | None => 0 end.

Lemma blind_kws off d array follow : 0 <= off -> blind aux_seg off d (write_kws aux2_seg str_seg array follow).
Proof using Type.
  clear Hjunk. intros Ho. unfold write_kws. destruct array; [|apply blind_ret]. apply blind_for_each. intros v. apply blind_bind; [apply blind_or_false|]. intros s.
  repeat (apply blind_bind; [|intros ?]); try (by apply blind_on; [done|apply appends_write]); try (by apply blind_on; [done|apply appends_pointer]); by apply blind_position.
Qed.

Lemma blind_generic off d data : 0 <= off -> blind aux_seg off d (write_generic aux_seg aux2_seg str_seg data).
Proof using Type.
  clear Hjunk. intros Ho. unfold write_generic. apply blind_bind; [by apply blind_on; [done|apply appends_write]|]. intros _.
  apply blind_bind; [by apply blind_on; [done|apply appends_write]|]. intros _. case_match; [|by apply blind_on; [done|apply appends_write]].
  apply blind_bind; [by apply blind_on; [done|apply appends_align]|]. intros _. apply blind_bind; [|intros _; apply blind_bind; intros; by apply blind_kws].
  apply blind_bind; [by apply blind_position|]. intros p. by apply blind_on; [done|apply appends_pointer].
Qed.

Lemma runs_scanner v sc I n (Q : BinaryLocator -> assn) : strings_ok v -> scanner_of ci v = Some sc -> filled I aux_seg + 43 <= 2 ^ 17 -> (scanner_uses v <= n)%nat ->
  (forall o I', ext I I' -> same [aux_seg; aux2_seg; str_seg] I I' -> filled I' aux_seg <= filled I aux_seg + 43 -> scanner_at aux_seg o sc I' ->
    Q (mkLoc (Z.of_nat aux_seg) o) I') ->
  runs (WriteScanner ci junk junk_byte aux_seg aux2_seg str_seg (AsObject v)) I n Q.
Proof using Hjunk.
  intros Hv Hsc Hsz Hn HQ. unfold scanner_of in Hsc. unfold scanner_uses in Hn. split_bind Hsc data Eo. destruct (as_object_ok v data Hv Eo) as [Hd ->].
  split_bind Hsc kind Ek. unfold elements in Hn. split_bind Hsc incs Ei. change (length incs <= n)%nat in Hn. split_bind Hsc type Et. split_bind Hsc paths Ep.
  apply mapM_Some in Ep. pose proof (list_member_ok data _ _ Hd Ei) as Hinc. unfold WriteScanner.
  eapply runs_eval_or_false; [done|]. eapply runs_eval_or_false; [exact Ek|]. eapply runs_eval_or_false; [exact Ei|].
  apply runs_step, runs_align; [lia|lia|]. intros I0 He0 Hs0 Hal. apply runs_step, runs_position; [lia|]. eapply runs_eval_or_false; [exact Et|].
  apply runs_step, runs_i32; [lia|by destruct type|]. intros I1 He1 [Ha1 Hs1] H1. apply runs_step, runs_count; [lia|]. intros I2 He2 [Ha2 Hs2] H2.
  apply runs_step, runs_pointer_to; [lia|]. intros I3 He3 [Ha3 Hs3] H3. eapply (runs_bind _ _ I3 (length incs) 0); [lia|apply (runs_incpaths incs paths Hinc Ep)|].
  { by apply (do_call_repr _ [] (AddString kind)), HashInit_repr. }
  intros h I4 He4 (Hh & [Ha4 Hs4] & Hes). apply runs_step, runs_position; [lia|].
  set (guid := digest_of (B := FastBackend) (scanner_message ci kind paths)) in *. cbn [bl_Offset].
  assert (Hfin : HashFinalize h = OK guid) by (by rewrite (HashFinalize_repr h _ Hh)). rewrite Hfin.
  assert (Hin4 : array_at str_at 4 aux2_seg aux_seg (filled I0 aux_seg + 4) paths I4).
  { split; [rewrite <- (Forall2_length _ _ _ Ep); keep H2|]. right. exists (filled I aux2_seg). fills_in Hes. split; [fills_in H3; keep H3|done]. }
  assert (Hf4 : filled I4 aux_seg = filled I0 aux_seg + 12) by (fills; lia). pose proof (filled_nonneg I0 aux_seg) as Hnn.
  rewrite (capacity_first (filled I4 aux_seg + 16)) by lia.
  match goal with |- runs ?m _ _ _ => set (prog := m) end.
  assert (Eprog : forall g, prog g = (_ ← on aux_seg (BinarySegmentWrite (replicate 16 junk_byte)); _ ← match type with kCpp => mret tt | kGeneric => write_generic aux_seg aux2_seg str_seg data end;
    _ ← store_digest aux_seg (filled I4 aux_seg) (2 ^ 17) guid; mret (mkLoc (Z.of_nat aux_seg) (filled I0 aux_seg)) : gen BinaryLocator) g).
  { intros g. unfold prog. unfold mbind, gen_bind. destruct type; done. }
  assert (Hgoal : runs (_ ← on aux_seg (BinarySegmentWrite (replicate 16 junk_byte)); _ ← match type with kCpp => mret tt | kGeneric => write_generic aux_seg aux2_seg str_seg data end;
    _ ← store_digest aux_seg (filled I4 aux_seg) (2 ^ 17) guid; (fun _ : unit => mret (mkLoc (Z.of_nat aux_seg) (filled I0 aux_seg)) : gen BinaryLocator) tt) I4 0 Q);
    [|intros g c Hg Hc; rewrite Eprog; by apply Hgoal].
  apply (runs_reserve aux_seg (replicate 16 junk_byte) guid _ (fun _ => mret (mkLoc (Z.of_nat aux_seg) (filled I0 aux_seg)) : gen BinaryLocator)); [lia|apply length_replicate|intros off Hoff; destruct type; [apply blind_ret|by apply blind_generic]|].
  apply runs_step, runs_bytes; [lia|]. intros I5 He5 [Ha5 Hs5] H5. rewrite length_digest_bytes in Ha5. assert (Hg : digest_at aux_seg (filled I0 aux_seg + 12) guid I5).
  { split; [apply digest_of_ok|]. by rewrite <- Hf4. }
  destruct type.
  - injection Hsc as <-. apply runs_ret. split; [apply capacity_first; fills; lia|]. apply runs_ret, HQ; [exts|frames|fills; lia|].
    unfold scanner_at. cbn [sc_ScannerType sc_IncludePaths sc_ScannerGuid sc_Flags sc_Keywords]. split_and!; [keep H1|keep Hin4|exact Hg|done|done].
  - split_bind Hsc fk Ef. split_bind Hsc nk En. injection Hsc as <-.
    eapply runs_generic; [exact Hd|exact Ef|exact En|]. intros I6 He6 [Ha6 Hs6] H6 H7. split; [apply capacity_first; fills; lia|]. apply runs_ret, HQ; [exts|frames|fills; lia|].
    unfold scanner_at. cbn [sc_ScannerType sc_IncludePaths sc_ScannerGuid sc_Flags sc_Keywords]. split_and!; [keep H1|keep Hin4|keep Hg|keep H6|keep H7].
Qed.
End Scanners.
