(* ===== verification/DagRound.v ===== *)
(** * From the document to the build: the DAG generator's round trip

    [CompileDag] followed by [BinaryWriterFlush] makes a file that
    [LoadFrozenData<DagData>] accepts and that reads as the [DagData] the JSON
    document stands for; and what that [DagData] satisfies of what the build
    relies on. *)

From S2P Require Import Prelude CType CommonFns Hash HashImpl HashThms DagData SortedArray HashTable StatCache PathUtil PathThms BinaryWriter FrozenFile FileSign.
From S2P Require Import Driver JsonParse DagGenerator DagFile DagWrite DagLayout DagOrder DagCompile.

(** ** How often strings are shared *)

Lemma sum_perm {A} (f : A -> nat) l k : l ≡ₚ k -> sum_list_with f l = sum_list_with f k.
Proof. induction 1; cbn; lia. Qed.

Lemma sum_pairwise {A B} (f : A -> nat) (h : B -> nat) l k : Forall2 (fun a b => f a = h b) l k -> sum_list_with f l = sum_list_with h k.
Proof. induction 1; cbn; lia. Qed.

Definition shared_uses (root : object) : nat := sum_list_with scanner_uses (elements root "Scanners") + sum_list_with node_uses (elements root "Nodes").

Lemma order_uses `{StdSort} nodes : sum_list_with (fun t => match nodes !!z tg_Node t with Some v => node_uses v | None => 0%nat end) (node_order nodes) =
  sum_list_with node_uses nodes.
Proof.
  rewrite (sum_perm _ _ _ (order_perm nodes)). apply sum_pairwise. apply Forall2_same_length_lookup. unfold temp_table. split; [apply length_imap|].
  intros i t v Ht Hv. rewrite list_lookup_imap, Hv in Ht. cbn in Ht. injection Ht as <-. cbn [tg_Node]. by rewrite zlookup_nat, Hv.
Qed.

(** ** Lists of the main structure *)

Lemma runs_list {X} (body : value -> gen unit) (P : nat -> Z -> X -> assn) sz ks array xs I n (Q : unit -> assn) : (forall k off x, Stable (P k off x)) -> main_seg ∉ ks ->
  Forall2 (fun v x => forall I, runs (body v) I 0 (fun _ I' => added aux_seg sz ks I I' /\ P aux_seg (filled I aux_seg) x I')) (default [] array) xs ->
  (forall I', ext I I' -> filled I' main_seg = filled I main_seg + 8 -> array_at P sz aux_seg main_seg (filled I main_seg) xs I' -> Q tt I') ->
  runs (write_list array body) I n Q.
Proof.
  intros HP Hks HF HQ. unfold write_list. destruct array as [l|]; cbn [default] in HF.
  - eapply (runs_post _ _ n (0 * length l)); [lia| |intros [] I' He HI'; exact HI']. eapply (runs_array body P main_seg aux_seg sz ks 0 l xs); [done|lia|done|exact HF|].
    intros I' He [Ha _] Harr. by apply HQ.
  - apply Forall2_nil_inv_l in HF as ->. apply (runs_no_array P main_seg aux_seg sz); [lia|]. intros I' He [Ha _] Harr. by apply HQ.
Qed.

Lemma runs_string_body k I n v s (Q : unit -> assn) : (k < 5)%nat -> strings_ok v -> AsString v = Some s ->
  (forall I', ext I I' -> added k 4 [k; str_seg] I I' -> str_at k (filled I k) s I' -> Q tt I') ->
  runs (s ← lift (GetString v); WriteStringPtr k str_seg (Some s)) I n Q.
Proof. intros Hk Hv Es HQ. eapply runs_eval_lift; [by apply get_string_ok|]. apply runs_string; [done|by eapply as_string_ok|done]. Qed.

Lemma runs_str_hash l names I n (Q : unit -> assn) : Forall strings_ok l -> mapM AsString l = Some names ->
  (forall I', ext I I' -> filled I' main_seg = filled I main_seg + 12 -> names_at (filled I main_seg) names (map Djb2Hash names) I' -> Q tt I') ->
  runs (WriteStrHashArray main_seg aux_seg str_seg l) I n Q.
Proof.
  intros Hok HF%mapM_Some HQ. pose proof (Forall2_length _ _ _ HF) as Hl. unfold WriteStrHashArray.
  apply runs_step, runs_count; [lia|]. intros I1 He1 [Ha1 Hs1] H1. apply runs_step, runs_pointer_to; [lia|]. intros I2 He2 [Ha2 Hs2] H2.
  eapply (runs_bind _ _ I2 (0 * length l) n); [lia| |].
  { eapply (runs_for_each _ str_at aux_seg 4 [aux_seg; str_seg] 0 l names); [apply _|]. eapply Forall2_strengthen; [exact Hok|exact HF|].
    intros v s Hv Es J. eapply runs_string_body; [lia|done|exact Es|auto]. }
  intros [] I3 He3 [[Ha3 Hs3] H3]. apply runs_step, runs_pointer_to; [lia|]. intros I4 He4 [Ha4 Hs4] H4. eapply (runs_post _ _ n (0 * length l)); [lia| |].
  { eapply (runs_for_each _ u32_at aux_seg 4 [aux_seg] 0 l (map Djb2Hash names)); [apply _|]. clear -HF. induction HF as [|v s l names Es HF IH]; [constructor|]. constructor; [|done].
    intros J. eapply runs_eval_lift; [by apply get_string_ok|]. apply runs_u32; [lia|pose proof (Djb2Hash_range s); unfold in_u32; lia|auto]. }
  intros [] I5 He5 [[Ha5 Hs5] H5]. apply HQ; [exts|fills; lia|]. split_and!; [rewrite <- Hl; keep H1|by rewrite length_map| |]; right.
  - exists (filled I aux_seg). fills_in H2. fills_in H3. split; [keep H2|by apply (stable I3); [exts|]].
  - exists (filled I3 aux_seg). rewrite (same_filled _ _ _ aux_seg Hs4) in H5 by notin. split; [|done].
    assert (E : filled I3 main_seg = filled I main_seg + 8) by (fills; lia). rewrite E in H4. apply (stable I4); [exts|done].
Qed.

(** ** Build tuples *)

Section Tuples.
Context `{StdSort} (nodes : list value) (remap : list Z) (Hremap : remap_is nodes remap).
Hypothesis Hsmall : zlen nodes < 2 ^ 31.

Abbreviation order := (node_order nodes).

Lemma places_placed obj key l ps : places_member order obj key = Some ps -> FindArrayValue (Some obj) (s2l key) = Some l -> Forall2 (placed nodes) l ps.
Proof using Type.
  clear Hremap Hsmall. unfold places_member, list_member. intros Hm El. rewrite El in Hm. cbn [mbind option_bind] in Hm. apply mapM_Some in Hm. eapply Forall2_impl; [exact Hm|].
  intros v p Hp. cbn beta in Hp. split_bind Hp i Ei. by exists i.
Qed.

Lemma runs_named m x I n (Q : unit -> assn) : cstr_ok m.1 -> named_of order m = Some x ->
  (forall I', ext I I' -> added aux2_seg 8 [aux2_seg; str_seg] I I' -> named_at aux2_seg (filled I aux2_seg) x I' -> Q tt I') ->
  runs (write_named remap m) I n Q.
Proof using Hremap Hsmall.
  intros Hm Hx HQ. unfold named_of in Hx. split_bind Hx i Ei. split_bind Hx p Ep. injection Hx as <-. unfold write_named.
  apply runs_step, runs_string; [lia|done|]. intros I1 He1 [Ha1 Hs1] H1. apply (runs_place_last nodes remap Hremap Hsmall m.2 p); [lia|by exists i|].
  intros I2 He2 [Ha2 Hs2] H2. apply HQ; [exts|frames|]. clear Hsmall. split; cbn [nn_Name nn_NodeIndex]; [keep H1|keep H2].
Qed.

Lemma runs_tuple v t I (Q : unit -> assn) : strings_ok v -> tuple_of order v = Some t ->
  (forall I', ext I I' -> added aux_seg 36 [aux_seg; aux2_seg; str_seg] I I' -> tuple_at aux_seg (filled I aux_seg) t I' -> Q tt I') ->
  runs (write_tuple remap v) I 0 Q.
Proof using Hremap Hsmall.
  intros Hv Ht HQ. unfold tuple_of in Ht. split_bind Ht obj Eo. destruct (as_object_ok v obj Hv Eo) as [Hobj ->].
  split_bind Ht ci' Eci. split_bind Ht vi Evi. split_bind Ht si Esi. destruct ((ci' =? -1) || (vi =? -1) || (si =? -1)) eqn:Echk; [done|].
  split_bind Ht dn Edn. split_bind Ht an Ean. split_bind Ht nn Enn. injection Ht as <-.
  apply int_member_is in Eci as (zc & Ec & <-), Evi as (zv & Ev & <-), Esi as (zs & Es & <-). unfold write_tuple.
  assert (exists dl, FindArrayValue (Some obj) (s2l "DefaultNodes") = Some dl) as [dl Edl] by (unfold places_member, list_member in Edn; destruct (FindArrayValue (Some obj) (s2l "DefaultNodes")); [by eexists|done]).
  assert (exists al, FindArrayValue (Some obj) (s2l "AlwaysNodes") = Some al) as [al Eal] by (unfold places_member, list_member in Ean; destruct (FindArrayValue (Some obj) (s2l "AlwaysNodes")); [by eexists|done]).
  pose proof (places_placed _ _ _ _ Edn Edl) as HD. pose proof (places_placed _ _ _ _ Ean Eal) as HA. apply mapM_Some in Enn.
  eapply runs_eval_or_false; [done|]. eapply runs_eval_lift; [exact Ec|]. eapply runs_eval_lift; [exact Ev|]. eapply runs_eval_lift; [exact Es|].
  apply runs_eval_require; [by rewrite Echk|]. eapply runs_eval_or_false; [exact Edl|]. eapply runs_eval_or_false; [exact Eal|].
  apply runs_step, runs_i32; [lia|apply i32_range|]. intros I1 He1 [Ha1 Hs1] H1. apply runs_step, runs_i32; [lia|apply i32_range|]. intros I2 He2 [Ha2 Hs2] H2.
  apply runs_step, runs_i32; [lia|apply i32_range|]. intros I3 He3 [Ha3 Hs3] H3.
  apply runs_step. eapply (runs_node_array nodes remap Hremap Hsmall); [lia|exact HD|]. intros I4 He4 [Ha4 Hs4] H4.
  apply runs_step. eapply (runs_node_array nodes remap Hremap Hsmall); [lia|exact HA|]. intros I5 He5 [Ha5 Hs5] H5.
  assert (Hlast : forall I6, ext I5 I6 -> added aux_seg 8 [aux_seg; aux2_seg; str_seg] I5 I6 -> array_at named_at 8 aux2_seg aux_seg (filled I5 aux_seg) nn I6 -> Q tt I6).
  { intros I6 He6 [Ha6 Hs6] H6. apply HQ; [exts|frames|]. clear Hsmall. unfold tuple_at.
    cbn [bt_ConfigIndex bt_VariantIndex bt_SubVariantIndex bt_DefaultNodes bt_AlwaysNodes bt_NamedNodes].
    split_and!; [keep H1|keep H2|keep H3|keep H4|keep H5|keep H6]. }
  destruct (FindObjectValue obj (s2l "NamedNodes")) as [named|] eqn:En.
  - change (default [] (Some named)) with named in Enn. eapply (runs_post _ _ 0 (0 * length named)); [lia| |intros [] I' He HI'; exact HI'].
    eapply (runs_array _ named_at aux_seg aux2_seg 8 [aux2_seg; str_seg] 0 named nn); [apply _|lia|notin| |done].
    pose proof (object_member_ok _ _ _ Hobj En) as Hnm. assert (Hkeys : Forall (fun m => cstr_ok m.1) named).
    { apply Forall_forall. intros [k x] Hk. by apply (names_ok named k x). }
    eapply Forall2_strengthen; [exact Hkeys|exact Enn|]. intros m x Hm Hx J. apply (runs_named m x); [done|done|auto].
  - change (default [] None) with (@nil (cstr * value)) in Enn. apply Forall2_nil_inv_l in Enn as ->. apply (runs_no_array named_at aux_seg aux2_seg 8); [lia|].
    intros I6 He6 Ha6 H6. apply Hlast; [done|frames|done].
Qed.
End Tuples.

(** ** Signatures *)

Lemma runs_extension v x I n (Q : unit -> assn) : extension_of v = Some x ->
  (forall I', ext I I' -> added aux_seg 4 [aux_seg] I I' -> u32_at aux_seg (filled I aux_seg) x I' -> Q tt I') -> runs (write_extension v) I n Q.
Proof.
  unfold extension_of. intros Hx HQ. split_bind Hx s Es. destruct (Ascii.eqb (char_at s 0) "."%char) eqn:Ed; [|done]. injection Hx as <-. unfold write_extension.
  eapply runs_eval_or_false; [done|]. apply runs_eval_require; [done|]. apply runs_u32; [lia|pose proof (Djb2Hash_range s); unfold in_u32; lia|done].
Qed.

Lemma runs_file_signature stat v x I n (Q : unit -> assn) : strings_ok v -> file_signature_of stat v = Some x ->
  (forall I', ext I I' -> added aux_seg 16 [aux_seg; str_seg] I I' -> file_signature_at aux_seg (filled I aux_seg) x I' -> Q tt I') ->
  runs (write_file_signature stat v) I n Q.
Proof.
  unfold file_signature_of. intros Hv Hx HQ. split_bind Hx obj Eo. split_bind Hx path Ep. injection Hx as <-. destruct (as_object_ok v obj Hv Eo) as [_ ->]. unfold write_file_signature.
  eapply runs_eval_or_false; [done|]. eapply runs_eval_or_false; [exact Ep|]. apply runs_step, runs_string; [lia|by eapply str_member_ok|]. intros I1 He1 [Ha1 Hs1] H1.
  apply runs_step, runs_bytes; [lia|]. intros I2 He2 [Ha2 Hs2] _. apply runs_bytes; [lia|]. intros I3 He3 [Ha3 Hs3] H3. rewrite length_replicate in Ha2. rewrite length_le_bytes in Ha3.
  apply HQ; [exts|frames|]. unfold file_signature_at. cbn [fsig_Path fsig_Timestamp].
  pose proof (u64_range (fi_Timestamp (GetFileInfo (stat path)))). split_and!; [keep H1|lia|lia|keep H3].
Qed.

Lemma runs_glob_signature ci junk `{StdSort} stat (dirs : DirectoryReader) v x I n (Q : unit -> assn) : length junk = 64%nat -> strings_ok v ->
  glob_signature_of ci junk stat v = Some x ->
  (forall I', ext I I' -> added aux_seg 20 [aux_seg; str_seg] I I' -> glob_signature_at aux_seg (filled I aux_seg) x I' -> Q tt I') ->
  runs (write_glob_signature ci junk stat v) I n Q.
Proof.
  unfold glob_signature_of. intros Hj Hv Hx HQ. split_bind Hx obj Eo. split_bind Hx path Ep. rewrite glob_signature_is in Hx by done. cbn [run mbind option_bind] in Hx. injection Hx as <-.
  destruct (as_object_ok v obj Hv Eo) as [_ ->]. unfold write_glob_signature. rewrite Eo. eapply runs_eval_or_false; [exact Ep|].
  eapply runs_eval_lift; [by apply glob_signature_is|]. apply runs_step, runs_string; [lia|by eapply str_member_ok|]. intros I1 He1 [Ha1 Hs1] H1.
  apply runs_bytes; [lia|]. intros I2 He2 [Ha2 Hs2] H2. rewrite length_digest_bytes in Ha2. apply HQ; [exts|frames|].
  split; cbn [gsig_Path gsig_Digest]; [keep H1|]. split; [apply digest_of_ok|keep H2].
Qed.

(** ** The whole *)

Section Whole.
Context (native : PathType) (ci : bool) (junk_ends : list Z) (junk_data junk : cstr) (junk_byte : Z).
Context `{StdSort} (stat : cstr -> stat_result) {dirs : DirectoryReader}.
Hypothesis Hje : zlen junk_ends = kMaxPathSegments.
Hypothesis Hjd : zlen junk_data = kMaxPathLength.
Hypothesis Hjunk : length junk = 64%nat.

Lemma runs_scanner_loop vs scs : Forall strings_ok vs -> Forall2 (fun v s => scanner_of ci v = Some s) vs scs -> forall ptrs0 scs0 I,
  scanners_at ptrs0 scs0 I -> filled I aux_seg + 43 * zlen vs <= 2 ^ 17 ->
  runs (fold_gen (fun ptrs v => p ← WriteScanner ci junk junk_byte aux_seg aux2_seg str_seg (AsObject v); mret (ptrs ++ [p])) ptrs0 vs) I (sum_list_with scanner_uses vs)
    (fun ptrs I' => scanners_at ptrs (scs0 ++ scs) I' /\ same [aux_seg; aux2_seg; str_seg] I I').
Proof using Hjunk.
  clear Hje Hjd. intros Hok HF. induction HF as [|v sc vs scs Hv HF IH]; intros ptrs0 scs0 I Hsc Hsz; cbn [fold_gen sum_list_with].
  { apply runs_ret. rewrite app_nil_r. split; [done|apply same_refl]. }
  apply Forall_cons in Hok as [Hv' Hok]. rewrite length_cons in Hsz. eapply (runs_seq _ _ I (scanner_uses v) (sum_list_with scanner_uses vs)); [lia|].
  eapply (runs_seq _ _ I (scanner_uses v) 0); [lia|]. eapply (runs_scanner ci junk junk_byte Hjunk v sc); [done|done|lia|done|]. intros o I1 He1 Hs1 Hf1 Hat.
  apply runs_ret. eapply runs_post; [done|apply (IH Hok (ptrs0 ++ [mkLoc (Z.of_nat aux_seg) o]) (scs0 ++ [sc]))|].
  - apply Forall2_app; [exact (stable (P := scanners_at ptrs0 scs0) I I1 He1 Hsc)|]. constructor; [by exists o|constructor].
  - lia.
  - intros ptrs I2 He2 [Hsc2 Hs2]. rewrite <- app_assoc in Hsc2. split; [done|by eapply same_trans].
Qed.

Lemma runs_scanners root scs I n (Q : list BinaryLocator -> assn) : object_ok root -> mapM (scanner_of ci) (elements root "Scanners") = Some scs -> filled I aux_seg = 0 ->
  43 * zlen (elements root "Scanners") <= 2 ^ 17 -> (sum_list_with scanner_uses (elements root "Scanners") <= n)%nat ->
  (forall ptrs I', ext I I' -> same [aux_seg; aux2_seg; str_seg] I I' -> scanners_at ptrs scs I' -> Q ptrs I') ->
  runs (write_scanners ci junk junk_byte (FindArrayValue (Some root) (s2l "Scanners"))) I n Q.
Proof using Hjunk.
  clear Hje Hjd. intros Hroot HF%mapM_Some H0 Hsz Hn HQ. pose proof (elements_ok root "Scanners" Hroot) as Hok. unfold write_scanners.
  change (FindArrayValue (Some root) (s2l "Scanners")) with (list_member root "Scanners"). unfold elements in *. destruct (EmptyArray (list_member root "Scanners")) eqn:E.
  - apply runs_ret. destruct (list_member root "Scanners") as [[|v l]|]; cbn in E; try done; cbn in HF; apply Forall2_nil_inv_l in HF as ->; apply HQ; try reflexivity; try apply same_refl; constructor.
  - eapply runs_post; [exact Hn|apply (runs_scanner_loop _ scs Hok HF [] [])|]; [constructor|lia|]. intros ptrs I' He [Hsc Hs]. by apply HQ.
Qed.

Lemma runs_nodes root nodes deps scs ptrs order_nodes remap I n (Q : unit -> assn) : object_ok root -> elements root "Nodes" = nodes -> zlen nodes < 2 ^ 31 ->
  remap_is nodes remap -> mapM deps_of nodes = Some deps -> mapM (node_of native ci scs (node_order nodes) deps nodes) (node_order nodes) = Some order_nodes ->
  scanners_at ptrs scs I -> filled I main_seg = 12 -> filled I node_data_seg = 0 -> (sum_list_with node_uses nodes <= n)%nat ->
  (forall I', ext I I' -> filled I' main_seg = 16 -> elems_ptr node_at 72 node_data_seg main_seg 12 order_nodes I' -> Q tt I') ->
  runs (WriteNodes native ci junk_ends junk_data nodes main_seg node_data_seg aux_seg str_seg ptrs (node_order nodes) remap) I n Q.
Proof using Hje Hjd.
  clear Hjunk. intros Hroot En Hsmall Hremap Hdeps Hnodes Hsc Hm Hd Hn HQ. assert (Hok : Forall strings_ok nodes) by (rewrite <- En; by apply elements_ok).
  unfold WriteNodes. apply runs_step, runs_pointer_to; [lia|]. intros I1 He1 [Ha1 Hs1] H1. pose proof (proj1 (mapM_Some _ _ _) Hnodes) as HN. pose proof (proj1 (mapM_Some _ _ _) Hdeps) as HD.
  (* Every dependency has a place, so it is a node. *)
  assert (Hrange : Forall2 (fun v ds => deps_of v = Some ds /\ Forall (fun d => 0 <= d < zlen nodes) ds) nodes deps).
  { apply Forall2_same_length_lookup. split; [by eapply Forall2_length|]. intros i v ds Hi Hdi. split; [exact (Forall2_lookup_lr _ _ _ _ _ _ HD Hi Hdi)|].
    destruct (place_of_total nodes (Z.of_nat i)) as [p Hp]; [apply lookup_lt_Some in Hi; lia|]. apply place_of_spec in Hp as (t & Ht & Et).
    unfold zlookup in Ht. case_bool_decide; [|done]. destruct (Forall2_lookup_l _ _ _ _ _ HN Ht) as (nd & _ & Hnd). unfold node_of in Hnd.
    rewrite Et, !zlookup_nat, Hi, Hdi in Hnd. cbn [mbind option_bind] in Hnd. split_bind Hnd obj Eo. split_bind Hnd anno Ean. split_bind Hnd pass Epass. split_bind Hnd dps Edps.
    apply mapM_Some in Edps. clear -Edps. induction Edps as [|d p ds dps Hp HF IH]; constructor; [|done]. by apply place_of_range in Hp as [? _]. }
  destruct (links_ok nodes deps Hrange) as (links & Elinks & Hlinks). eapply runs_eval; [exact Elinks|]. eapply runs_post; [|eapply (runs_for_each_cost _ node_at (scanners_at ptrs scs) node_data_seg 72 [node_data_seg; aux_seg; str_seg]
    (fun t => match nodes !!z tg_Node t with Some v => node_uses v | None => 0%nat end) (node_order nodes) order_nodes); [apply _|apply _| |by apply (stable I)]|].
  - by rewrite order_uses.
  - eapply Forall2_impl; [exact HN|]. intros t nd Hnd J HJ. apply (runs_write_node native ci junk_ends junk_data Hje Hjd nodes deps scs ptrs remap links Hok Hsmall Hremap Hdeps Hlinks); [done|exact Hnd].
  - intros [] I2 He2 [[Ha2 Hs2] Hes]. apply HQ; [exts|clear Hsmall Hje Hjd; fills; lia|]. right. exists 0. rewrite (same_filled _ _ _ node_data_seg Hs1), Hd in Hes by notin.
    split; [|done]. rewrite Hm, Hd in H1. by apply (stable I1).
Qed.

Lemma some_elements_is obj key l : some_elements obj key = Some l -> list_member obj key = Some l /\ l <> [] /\ elements obj key = l /\ EmptyArray (FindArrayValue (Some obj) (s2l key)) = false.
Proof using Type.
  clear Hje Hjd Hjunk. unfold some_elements, elements, list_member. destruct (FindArrayValue (Some obj) (s2l key)) as [[|v l']|]; try done. by intros [= <-].
Qed.

Lemma runs_name root key def I n (Q : unit -> assn) : object_ok root -> cstr_ok (s2l def) ->
  (forall I', ext I I' -> added main_seg 4 [main_seg; str_seg] I I' -> str_at main_seg (filled I main_seg) (name_member root key def) I' -> Q tt I') ->
  runs (write_name root key def) I n Q.
Proof using Type.
  clear Hje Hjd Hjunk. intros Hroot Hdef HQ. unfold write_name. assert (E : FindStringValue (JObject root) (s2l key) (Some (s2l def)) = Some (name_member root key def)).
  { unfold name_member, str_member, FindStringValue. by repeat case_match. }
  rewrite E. apply runs_string; [lia| |done]. unfold name_member. destruct (str_member (JObject root) key) eqn:Es; [by eapply str_member_ok|done].
Qed.

Lemma name_literals : Forall (fun s => cstr_ok (s2l s)) [".tundra2.state"; ".tundra2.state.tmp"; ".tundra2.scancache"; ".tundra2.scancache.tmp"; ".tundra2.digestcache"; ".tundra2.digestcache.tmp"]%string.
Proof using Type. clear. apply (bool_decide_eq_true_1 _). vm_compute. reflexivity. Qed.

Lemma runs_rest root dag I n (Q : unit -> assn) : object_ok root -> filled I main_seg = 80 ->
  mapM (file_signature_of stat) (elements root "FileSignatures") = Some (dag_FileSignatures dag) ->
  mapM (glob_signature_of ci junk stat) (elements root "GlobSignatures") = Some (dag_GlobSignatures dag) ->
  mapM extension_of (elements root "ContentDigestExtensions") = Some (dag_ShaExtensionHashes dag) ->
  int_member root "MaxExpensiveCount" (-1) = Some (dag_MaxExpensiveCount dag) ->
  dag_StateFileName dag = name_member root "StateFileName" ".tundra2.state" -> dag_StateFileNameTmp dag = name_member root "StateFileNameTmp" ".tundra2.state.tmp" ->
  dag_ScanCacheFileName dag = name_member root "ScanCacheFileName" ".tundra2.scancache" ->
  dag_ScanCacheFileNameTmp dag = name_member root "ScanCacheFileNameTmp" ".tundra2.scancache.tmp" ->
  dag_DigestCacheFileName dag = name_member root "DigestCacheFileName" ".tundra2.digestcache" ->
  dag_DigestCacheFileNameTmp dag = name_member root "DigestCacheFileNameTmp" ".tundra2.digestcache.tmp" ->
  (forall I', ext I I' -> rest_at dag I' -> Q tt I') -> runs (write_rest ci junk stat root) I n Q.
Proof using Hjunk.
  clear Hje Hjd. intros Hroot Hm F1%mapM_Some F2%mapM_Some F3%mapM_Some F4 N1 N2 N3 N4 N5 N6 HQ. apply int_member_is in F4 as (z & Ez & Emax).
  pose proof name_literals as HL. rewrite !Forall_cons in HL. destruct HL as (L1 & L2 & L3 & L4 & L5 & L6 & _). unfold write_rest, elements, list_member in *.
  pose proof (elements_ok root "FileSignatures" Hroot) as O1. pose proof (elements_ok root "GlobSignatures" Hroot) as O2.
  apply runs_step. eapply (runs_list _ file_signature_at 16 [aux_seg; str_seg]); [apply _|notin| |].
  { eapply Forall2_strengthen; [exact O1|exact F1|]. intros v x Hv Hx J. apply (runs_file_signature stat v x); [done|done|auto]. }
  intros I1 He1 Ha1 H1. apply runs_step. eapply (runs_list _ glob_signature_at 20 [aux_seg; str_seg]); [apply _|notin| |].
  { eapply Forall2_strengthen; [exact O2|exact F2|]. intros v x Hv Hx J. apply (runs_glob_signature ci junk stat dirs v x); [done|done|done|auto]. }
  intros I2 He2 Ha2 H2. apply runs_step. eapply (runs_list _ u32_at 4 [aux_seg]); [apply _|notin| |].
  { eapply Forall2_impl; [exact F3|]. intros v x Hx J. apply (runs_extension v x); [done|auto]. }
  intros I3 He3 Ha3 H3. eapply runs_eval_lift; [exact Ez|]. apply runs_step, runs_i32; [lia|apply i32_range|]. intros I4 He4 [Ha4 Hs4] H4.
  apply runs_step, runs_name; [done|done|]. intros I5 He5 [Ha5 Hs5] H5. apply runs_step, runs_name; [done|done|]. intros I6 He6 [Ha6 Hs6] H6.
  apply runs_step, runs_name; [done|done|]. intros I7 He7 [Ha7 Hs7] H7. apply runs_step, runs_name; [done|done|]. intros I8 He8 [Ha8 Hs8] H8.
  apply runs_step, runs_name; [done|done|]. intros I9 He9 [Ha9 Hs9] H9. apply runs_name; [done|done|]. intros I10 He10 [Ha10 Hs10] H10.
  apply HQ; [exts|]. unfold rest_at. rewrite N1, N2, N3, N4, N5, N6, <- Emax.
  split_and!; [keep H1|keep H2|keep H3|keep H4|keep H5|keep H6|keep H7|keep H8|keep H9|keep H10].
Qed.

Lemma runs_setup root setup nodes passes remap dag deft I n (Q : unit -> assn) : object_ok root -> filled I main_seg = 16 -> zlen nodes < 2 ^ 31 -> remap_is nodes remap ->
  some_elements root "Passes" = Some passes -> mapM AsString passes = Some (dag_Passes dag) -> FindObjectValue root (s2l "Setup") = Some setup ->
  some_elements setup "Configs" ≫= mapM AsString = Some (dag_ConfigNames dag) -> some_elements setup "Variants" ≫= mapM AsString = Some (dag_VariantNames dag) ->
  some_elements setup "SubVariants" ≫= mapM AsString = Some (dag_SubVariantNames dag) ->
  some_elements setup "BuildTuples" ≫= mapM (tuple_of (node_order nodes)) = Some (dag_BuildTuples dag) ->
  dag_ConfigNameHashes dag = map Djb2Hash (dag_ConfigNames dag) -> dag_VariantNameHashes dag = map Djb2Hash (dag_VariantNames dag) ->
  dag_SubVariantNameHashes dag = map Djb2Hash (dag_SubVariantNames dag) ->
  FindObjectValue setup (s2l "DefaultBuildTuple") = Some deft -> int_member deft "ConfigIndex" (-2) = Some (dag_DefaultConfigIndex dag) ->
  int_member deft "VariantIndex" (-2) = Some (dag_DefaultVariantIndex dag) -> int_member deft "SubVariantIndex" (-2) = Some (dag_DefaultSubVariantIndex dag) ->
  (-2 =? dag_DefaultConfigIndex dag) || (-2 =? dag_DefaultVariantIndex dag) || (-2 =? dag_DefaultSubVariantIndex dag) = false ->
  (forall I', ext I I' -> filled I' main_seg = 80 -> setup_at dag I' -> Q tt I') -> runs (write_setup root passes remap) I n Q.
Proof using Type.
  clear Hje Hjd Hjunk. intros Hroot Hm Hsmall Hremap Ep Fp Es Ec Ev Eu Et Hc Hv Hu Ed D1 D2 D3 Hchk HQ. unfold write_setup.
  split_bind Ec cl Ecl. split_bind Ev vl Evl. split_bind Eu ul Eul. split_bind Et tupl Etl. pose proof (object_member_ok _ _ _ Hroot Es) as Hsetup.
  apply some_elements_is in Ep as (Ep & _ & _ & _), Ecl as (Lc & _ & _ & Nc), Evl as (Lv & _ & _ & Nv), Eul as (Lu & _ & _ & Nu), Etl as (Lt & _ & _ & Nt).
  pose proof (list_member_ok _ _ _ Hroot Ep) as Op. pose proof (list_member_ok _ _ _ Hsetup Lc) as Oc. pose proof (list_member_ok _ _ _ Hsetup Lv) as Ov.
  pose proof (list_member_ok _ _ _ Hsetup Lu) as Ou. pose proof (list_member_ok _ _ _ Hsetup Lt) as Ot.
  apply int_member_is in D1 as (z1 & Z1 & W1), D2 as (z2 & Z2 & W2), D3 as (z3 & Z3 & W3). unfold list_member in *.
  apply runs_step, runs_count; [lia|]. intros I1 He1 [Ha1 Hs1] H1. apply runs_step, runs_pointer_to; [lia|]. intros I2 He2 [Ha2 Hs2] H2.
  apply mapM_Some in Fp. eapply (runs_bind _ _ I2 (0 * length passes) n); [lia| |].
  { eapply (runs_for_each _ str_at aux_seg 4 [aux_seg; str_seg] 0 passes (dag_Passes dag)); [apply _|]. eapply Forall2_strengthen; [exact Op|exact Fp|].
    intros v s Hv' Es' J. eapply runs_string_body; [lia|done|exact Es'|auto]. }
  intros [] I3 He3 [[Ha3 Hs3] H3]. rewrite Es. eapply runs_eval_or_false; [done|]. rewrite Nc, Nv, Nu, Nt. apply runs_eval_require; [done|].
  rewrite Lc, Lv, Lu, Lt. change (default [] (Some ?x)) with x. apply runs_step. eapply runs_str_hash; [exact Oc|exact Ec|]. intros I4 He4 Ha4 H4.
  change (default [] (Some ?x)) with x. apply runs_step. eapply runs_str_hash; [exact Ov|exact Ev|]. intros I5 He5 Ha5 H5.
  change (default [] (Some ?x)) with x. apply runs_step. eapply runs_str_hash; [exact Ou|exact Eu|]. intros I6 He6 Ha6 H6.
  apply mapM_Some in Et. apply runs_step. eapply (runs_list _ tuple_at 36 [aux_seg; aux2_seg; str_seg]); [apply _|notin| |].
  { eapply Forall2_strengthen; [exact Ot|exact Et|]. intros v x Hv' Hx J. apply (runs_tuple nodes remap Hremap Hsmall v x); [done|exact Hx|auto]. }
  intros I7 He7 Ha7 H7. eapply runs_eval_or_false; [exact Ed|]. eapply runs_eval_lift; [exact Z1|]. eapply runs_eval_lift; [exact Z2|]. eapply runs_eval_lift; [exact Z3|].
  rewrite W1, W2, W3. apply runs_eval_require; [by rewrite Hchk|]. apply runs_step, runs_i32; [lia|rewrite <- W1; apply i32_range|]. intros I8 He8 [Ha8 Hs8] H8.
  apply runs_step, runs_i32; [lia|rewrite <- W2; apply i32_range|]. intros I9 He9 [Ha9 Hs9] H9. apply runs_i32; [lia|rewrite <- W3; apply i32_range|]. intros I10 He10 [Ha10 Hs10] H10.
  clear Hsmall. assert (Hpass : array_at str_at 4 aux_seg main_seg 16 (dag_Passes dag) I3).
  { split; [rewrite <- (Forall2_length _ _ _ Fp); keep H1|]. right. exists (filled I aux_seg). fills_in H2. fills_in H3. split; [keep H2|done]. }
  apply HQ; [exts|fills; lia|]. unfold setup_at. rewrite Hc, Hv, Hu.
  split_and!; [keep Hpass|keep H4|keep H5|keep H6|keep H7|keep H8|keep H9|keep H10].
Qed.

Abbreviation dag_of' := (dag_of native ci junk stat).
Abbreviation compile := (CompileDag native ci junk_ends junk_data junk junk_byte stat).

Lemma runs_guids l : forall I n (Q : unit -> assn), Forall (fun t => Fast.digest_ok (tg_Digest t)) l ->
  (forall I', ext I I' -> same [node_guid_seg] I I' -> elems (digest_at node_guid_seg) 16 (filled I node_guid_seg) (map tg_Digest l) I' -> Q tt I') ->
  runs (for_each (fun t => on node_guid_seg (BinarySegmentWrite (digest_bytes (tg_Digest t)))) l) I n Q.
Proof using Type.
  clear Hje Hjd Hjunk. intros I n Q HF HQ. eapply (runs_post _ _ n (0 * length l)); [lia| |].
  - eapply (runs_for_each _ digest_at node_guid_seg 16 [node_guid_seg] 0 l (map tg_Digest l)); [apply _|]. clear HQ. induction HF as [|t l Ht HF IH]; [constructor|]. constructor; [|done].
    intros J. apply runs_bytes; [lia|]. intros I' He Ha Hb. rewrite length_digest_bytes in Ha. by split; [|split].
  - intros [] I' He [[Ha Hs] Hes]. by apply HQ.
Qed.

Lemma runs_compile root dag I : object_ok root -> dag_of' root = Some dag -> 43 * zlen (elements root "Scanners") <= 2 ^ 17 -> zlen (elements root "Nodes") < 2 ^ 31 ->
  I = replicate 6 [] -> runs (compile root) I (shared_uses root) (fun _ I' => nodes_at dag I' /\ setup_at dag I' /\ rest_at dag I').
Proof using Hje Hjd Hjunk.
  intros Hroot Hdag Hsc Hsmall HI. unfold dag_of in Hdag. split_bind Hdag nodes Enodes. split_bind Hdag passes Epasses. split_bind Hdag scs Escs.
  destruct (forallb identified nodes) eqn:Hid; [|done]. destruct (neighbours_differ (node_order nodes)) eqn:Hnd; [|done]. cbn [negb] in Hdag.
  split_bind Hdag deps Edeps. split_bind Hdag nds Ends. split_bind Hdag pn Epn. split_bind Hdag setup Esetup. split_bind Hdag cfg Ecfg. split_bind Hdag vrt Evrt.
  split_bind Hdag sub Esub. split_bind Hdag tup Etup. split_bind Hdag deft Edeft. split_bind Hdag d1 Ed1. split_bind Hdag d2 Ed2. split_bind Hdag d3 Ed3.
  destruct ((-2 =? d1) || (-2 =? d2) || (-2 =? d3)) eqn:Echk; [done|]. split_bind Hdag fs Efs. split_bind Hdag gs Egs. split_bind Hdag exs Eexs. split_bind Hdag mx Emx.
  injection Hdag as <-. set (dag := mkDag _ _ _ _ _ _ _ _ _ _ _ _ _ _ _ _ _ _ _ _ _ _ _).
  destruct (some_elements_is _ _ _ Enodes) as (Ln & Nn & En & Mn). pose proof (some_elements_is _ _ _ Epasses) as (Lp & Np & _ & Mp). rewrite En in Hsmall.
  assert (H0 : forall k, filled I k = 0).
  { intros k. subst I. unfold filled, seg_at. destruct (replicate 6 [] !! k) as [l|] eqn:El; [|done]. apply lookup_replicate in El as [-> _]. done. }
  unfold CompileDag. rewrite Mn, Mp. apply runs_eval_require; [done|]. apply runs_eval_require; [done|]. unfold list_member in Ln, Lp. rewrite Ln, Lp.
  change (default [] (Some nodes)) with nodes. change (default [] (Some passes)) with passes. unfold shared_uses. rewrite En.
  eapply (runs_seq _ _ I (sum_list_with scanner_uses (elements root "Scanners")) (sum_list_with node_uses nodes)); [lia|].
  eapply (runs_scanners root scs); [done|exact Escs|done|done|done|]. intros ptrs I1 He1 Hs1 Hsat. clear Hsc.
  apply runs_step, runs_u32; [lia|split; vm_compute; [discriminate|reflexivity]|]. intros I2 He2 [Ha2 Hs2] H2.
  destruct (compute_guids_ok nodes junk junk_byte new_gen Hjunk Hid Hnd) as (remap & _ & Hremap).
  assert (Eg : forall g, ComputeNodeGuids junk junk_byte nodes g = OK (Some ((node_order nodes, remap), g))).
  { intros g. destruct (compute_guids_ok nodes junk junk_byte g Hjunk Hid Hnd) as (remap' & -> & Hr'). do 4 f_equal. apply list_eq. intros i.
    rewrite <- !zlookup_nat. by rewrite (proj2 Hr'), (proj2 Hremap). }
  eapply runs_eval; [exact Eg|]. cbv iota beta. clear Eg.
  apply runs_step, runs_count; [lia|]. intros I3 He3 [Ha3 Hs3] H3. apply runs_step, runs_pointer_to; [lia|]. intros I4 He4 [Ha4 Hs4] H4.
  apply runs_step. eapply runs_guids.
  { apply Forall_forall. intros t (v & _ & ->)%order_elem. apply digest_of_ok. }
  intros I5 He5 Hs5 H5. pose proof (H0 main_seg) as Z0. pose proof (H0 node_guid_seg) as Z1. pose proof (H0 node_data_seg) as Z2. pose proof Hsmall as Hsm. clear Hsmall H0.
  eapply (runs_seq _ _ I5 (sum_list_with node_uses nodes) 0); [lia|].
  eapply (runs_nodes root nodes deps scs ptrs nds remap); [done|exact En|exact Hsm|exact Hremap|exact Edeps|exact Ends|by apply (stable I1); [exts|]|fills; lia|fills; lia|done|].
  intros I6 He6 Ha6 H6. apply runs_step.
  eapply (runs_setup root setup nodes passes remap dag deft); [done|exact Ha6|exact Hsm|exact Hremap|exact Epasses|exact Epn|exact Esetup|exact Ecfg|exact Evrt|exact Esub|exact Etup|done|done|done|exact Edeft|exact Ed1|exact Ed2|exact Ed3|exact Echk|].
  intros I7 He7 Ha7 H7. eapply (runs_rest root dag); [done|exact Ha7|exact Efs|exact Egs|exact Eexs|exact Emx|done|done|done|done|done|done|]. intros I8 He8 H8.
  split_and!; [|by apply (stable I7)|done]. pose proof (proj1 (mapM_Some _ _ _) Ends) as HN. pose proof (Forall2_length _ _ _ HN) as Hln. rewrite order_length in Hln.
  unfold nodes_at, dag. cbn [dag_NodeGuids dag_NodeData]. rewrite length_map, order_length. split_and!; [keep H2|done|rewrite <- Hln; keep H3| |by apply (stable I6); [exts|]].
  right. exists 0. fills_in H4. fills_in H5. split; [keep H4|by apply (stable I5); [exts|]].
Qed.

(** The bytes the segments take in the file. *)
Definition writer_size (w : BinaryWriter) : Z := foldr (fun s n => aligned16 (BinarySegmentSize s) + n) 0 w.

Lemma padded_exact l : items_size (padded l) = aligned16 (items_size l).
Proof using Type.
  clear. unfold padded. rewrite items_size_app. assert (E : forall n, items_size (replicate n (IByte 254)) = Z.of_nat n).
  { induction n as [|n IH]; [done|]. cbn [replicate]. change (items_size (IByte 254 :: ?x)) with (1 + items_size x). lia. }
  rewrite E. unfold aligned16. pose proof (items_size_nonneg l). pose proof (Z.div_mod (items_size l + 15) 16 ltac:(lia)).
  pose proof (Z.mod_pos_bound (items_size l + 15) 16 ltac:(lia)). lia.
Qed.

Lemma writer_size_is w I : writer_is w I -> writer_size w = zlen (file_of I).
Proof using Type.
  clear. intros Hw%writer_holds. unfold file_of. rewrite length_render_all. unfold writer_size. induction Hw as [|s l w I [Hb _] Hw IH]; [done|].
  cbn [foldr]. rewrite IH, padded_exact. unfold BinarySegmentSize. by rewrite Hb, length_flat.
Qed.

Lemma compile_ok root dag : object_ok root -> dag_of' root = Some dag -> 43 * zlen (elements root "Scanners") <= 2 ^ 17 -> zlen (elements root "Nodes") < 2 ^ 31 ->
  Z.of_nat (shared_uses root) <= 2 ^ 27 ->
  exists g, compile root new_gen = OK (Some (tt, g)) /\
  (writer_size (g_Writer g) <= 2 ^ 30 -> exists file, BinaryWriterFlush (g_Writer g) = OK file /\ load_dag (Some file) = Some dag).
Proof using Hje Hjd Hjunk.
  intros Hroot Hdag Hsc Hn Hu. assert (Hst : st new_gen (replicate 6 []) 0).
  { split; try done; [apply (new_writer_is 6)| |split; [by left|split; constructor]|].
    - intros k t Hin. unfold seg_at in Hin. destruct (replicate 6 [] !! k) as [l|] eqn:El; cbn in Hin; [apply lookup_replicate in El as [-> _]|]; set_solver.
    - intros s Hs. cbn in Hs. set_solver. }
  destruct (runs_compile root dag _ Hroot Hdag Hsc Hn eq_refl new_gen 0%nat Hst Hu) as ([] & g & I & E & Hg & _ & H1 & H2 & H3). exists g. split; [done|]. intros Hsz.
  clear Hu Hn Hsc Hst Hje Hjd Hjunk. destruct Hg as [Hw H6 Hf _ _ _]. rewrite (writer_size_is _ I Hw) in Hsz. exists (file_of I). split; [|by apply load_dag_ok].
  apply flush_ok; [by apply writer_holds|]. split; [|done]. intros l t [k Hl]%list_elem_of_lookup Ht. assert (Hk : seg_at I k = l) by (unfold seg_at; by rewrite Hl).
  rewrite <- Hk in Ht. destruct (Hf k t Ht) as (j & -> & Hj & Ho). split; [lia|]. pose proof (base_range I H6 Hsz j ltac:(lia)) as Hb. destruct (decide (j = 0)%nat); [lia|].
  pose proof (base_next I H6 0 j ltac:(lia)). pose proof (base_range I H6 Hsz 0 ltac:(lia)). assert (0 < filled I 0); [|lia]. destruct H1 as [Hm _]. pose proof (u32_in I H6 _ _ _ Hm). lia.
Qed.
End Whole.
