(* ===== verification/DagThms.v ===== *)
(** * What the DAG generator promises the build

    The theorems of the generator (src/src/DagGenerator.cpp): the text of a
    document becomes a file that the driver maps and reads back as the document's
    [DagData]; the table of guids is computed or the document rejected; and a
    document without cycles whose passes are in order gives a DAG for which the
    driver's and the build queue's theorems hold. *)

From S2P Require Import Prelude CType CommonFns Hash HashImpl HashThms DagData SortedArray HashTable StatCache PathUtil PathThms BinaryWriter FrozenFile FileSign.
From S2P Require Import Driver DriverThms JsonParse JsonRound DagGenerator DagFile DagOrder DagCompile DagRound.

(** ** From text *)

Lemma until_nul_cstr s : cstr_ok (until_nul s).
Proof. induction s as [|c s IH]; cbn; [constructor|]. destruct (Ascii.eqb c NUL) eqn:E; [constructor|]. constructor; [|done]. intros ->. by rewrite Ascii.eqb_refl in E. Qed.

Lemma parsed_strings_ok b v : strings_ok (json_map (string_at b) v).
Proof.
  induction v as [| | |s|l IH|m IH] using json_ind_offset; cbn; try done; [apply until_nul_cstr| |].
  - induction IH as [|x l Hx HF IHl]; by cbn.
  - induction IH as [|[k x] m Hx HF IHm]; cbn; [done|]. split_and!; [apply until_nul_cstr|done|done].
Qed.

Lemma parsed_root text root : parsed (JsonParse text) = Some (JObject root) ->
  object_ok root /\ exists b v, JsonParse text = OK (b, inl v) /\ json_map (string_at b) v = JObject root.
Proof.
  unfold parsed. destruct (JsonParse text) as [[b [v|e]]|]; try done. intros [= E]. split; [|by exists b, v].
  unfold object_ok. rewrite <- E. apply parsed_strings_ok.
Qed.

(** ** The parts of a DAG *)

Section Parts.
Context (native : PathType) (ci : bool) (junk : cstr) `{StdSort} (stat : cstr -> stat_result) {dirs : DirectoryReader}.
Abbreviation dag_of' := (dag_of native ci junk stat).

Record parts (root : object) (dag : DagData) (nodes : list value) (scanners : list ScannerData) (deps : list (list Z)) : Prop := {
  p_nodes : elements root "Nodes" = nodes;
  p_differ : neighbours_differ (node_order nodes) = true;
  p_deps : Forall2 (fun v ds => deps_of v = Some ds) nodes deps;
  p_guids : dag_NodeGuids dag = map tg_Digest (node_order nodes);
  p_data : Forall2 (fun t nd => node_of native ci scanners (node_order nodes) deps nodes t = Some nd) (node_order nodes) (dag_NodeData dag);
  p_passes : length (elements root "Passes") = length (dag_Passes dag);
  p_tuples : exists l, Forall2 (fun v t => tuple_of (node_order nodes) v = Some t) l (dag_BuildTuples dag)
}.

Lemma dag_parts root dag : dag_of' root = Some dag -> exists nodes scanners deps, parts root dag nodes scanners deps.
Proof.
  unfold dag_of. intros Hdag. split_bind Hdag nodes Enodes. split_bind Hdag passes Epasses. split_bind Hdag scs Escs.
  destruct (forallb identified nodes) eqn:Hid; [|done]. destruct (neighbours_differ (node_order nodes)) eqn:Hnd; [|done]. cbn [negb] in Hdag.
  split_bind Hdag deps Edeps. split_bind Hdag nds Ends. split_bind Hdag pn Epn. split_bind Hdag setup Esetup. split_bind Hdag cfg Ecfg. split_bind Hdag vrt Evrt.
  split_bind Hdag sub Esub. split_bind Hdag tup Etup. split_bind Hdag deft Edeft. split_bind Hdag d1 Ed1. split_bind Hdag d2 Ed2. split_bind Hdag d3 Ed3.
  destruct ((-2 =? d1) || (-2 =? d2) || (-2 =? d3)) eqn:Echk; [done|]. split_bind Hdag fs Efs. split_bind Hdag gs Egs. split_bind Hdag exs Eexs. split_bind Hdag mx Emx.
  injection Hdag as <-. exists nodes, scs, deps. split_bind Etup tups Etl.
  destruct (some_elements_is _ _ _ Enodes) as (_ & _ & En & _). destruct (some_elements_is _ _ _ Epasses) as (_ & _ & Ep & _).
  constructor; cbn [dag_NodeGuids dag_NodeData dag_Passes dag_BuildTuples]; [done|done|by apply mapM_Some|done|by apply mapM_Some| |].
  - rewrite Ep. apply mapM_Some in Epn. by eapply Forall2_length.
  - exists tups. by apply mapM_Some.
Qed.

Lemma node_parts root dag nodes scs deps p nd : parts root dag nodes scs deps -> node_at dag p = Some nd ->
  exists i v obj ds, place_of (node_order nodes) i = Some p /\ nodes !!z i = Some v /\ AsObject v = Some obj /\ deps !!z i = Some ds /\ deps_of v = Some ds /\
  nd_Action nd = str_member v "Action" /\ int_member obj "PassIndex" 0 = Some (nd_PassIndex nd) /\ nd_Flags nd = node_flags obj /\
  mapM (place_of (node_order nodes)) ds = Some (nd_Dependencies nd) /\ mapM (place_of (node_order nodes)) (users_of deps i) = Some (nd_BackLinks nd).
Proof.
  intros P Hp. unfold node_at in Hp. pose proof (zlookup_lt _ _ _ Hp) as Hr. unfold zlookup in Hp. rewrite bool_decide_true in Hp by lia.
  destruct (Forall2_lookup_r _ _ _ _ _ (p_data _ _ _ _ _ P) Hp) as (t & Ht & Hn). unfold node_of in Hn.
  split_bind Hn v Ev. split_bind Hn obj Eo. split_bind Hn anno Ean. split_bind Hn pass Epass. split_bind Hn ds Eds. split_bind Hn dps Edps. split_bind Hn bls Ebls.
  split_bind Hn ins Eins. split_bind Hn outs Eouts. split_bind Hn auxs Eauxs. split_bind Hn envs Eenvs. split_bind Hn sc Esc. injection Hn as <-.
  exists (tg_Node t), v, obj, ds. cbn. split_and!; try done.
  - apply place_of_spec. exists t. split; [|done]. unfold zlookup. by rewrite bool_decide_true by lia.
  - unfold zlookup in Ev, Eds. case_bool_decide; [|done]. exact (Forall2_lookup_lr _ _ _ _ _ _ (p_deps _ _ _ _ _ P) Ev Eds).
Qed.

Lemma parts_length root dag nodes scs deps : parts root dag nodes scs deps -> length (dag_NodeData dag) = length nodes.
Proof. intros P. rewrite <- (Forall2_length _ _ _ (p_data _ _ _ _ _ P)). apply order_length. Qed.

Lemma place_in_dag root dag nodes scs deps i p : parts root dag nodes scs deps -> place_of (node_order nodes) i = Some p -> in_dag dag p.
Proof. intros P Hp%place_of_range. unfold in_dag, dag_NodeCount. rewrite (parts_length _ _ _ _ _ P). lia. Qed.

Lemma users_of_elem deps i j : j ∈ users_of deps i <-> exists ds, deps !!z j = Some ds /\ i ∈ ds.
Proof.
  unfold users_of. rewrite list_elem_of_In, in_concat. setoid_rewrite <- list_elem_of_In. split.
  - intros (l & (k & ds & -> & Hk)%elem_of_lookup_imap_1 & (d & -> & Hd)%list_elem_of_fmap). apply list_elem_of_filter in Hd as [-> Hd].
    exists ds. by rewrite zlookup_nat.
  - intros (ds & Hj & Hi). pose proof (zlookup_lt _ _ _ Hj). unfold zlookup in Hj. rewrite bool_decide_true in Hj by lia.
    eexists. split; [by apply elem_of_lookup_imap_2|]. apply list_elem_of_fmap. exists i. split; [lia|]. by apply list_elem_of_filter.
Qed.

Lemma mapM_elem {A B} (f : A -> option B) l k y : mapM f l = Some k -> y ∈ k <-> exists x, x ∈ l /\ f x = Some y.
Proof.
  intros HF%mapM_Some. split.
  - intros (i & Hi)%list_elem_of_lookup. destruct (Forall2_lookup_r _ _ _ _ _ HF Hi) as (x & Hx & Hf). exists x. split; [by eapply list_elem_of_lookup_2|done].
  - intros (x & (i & Hi)%list_elem_of_lookup & Hf). destruct (Forall2_lookup_l _ _ _ _ _ HF Hi) as (y' & Hy & Hf'). rewrite Hf in Hf'. injection Hf' as <-. by eapply list_elem_of_lookup_2.
Qed.

Lemma forallb_elem {A} (f : A -> bool) l x : forallb f l = true -> x ∈ l -> f x = true.
Proof. rewrite forallb_forall. intros Hl Hx. by apply Hl, list_elem_of_In. Qed.

Lemma mapM_zlookup {A B} (f : A -> option B) l k i x y : mapM f l = Some k -> l !!z i = Some x -> f x = Some y -> k !!z i = Some y.
Proof.
  intros HF%mapM_Some Hi Hf. pose proof (zlookup_lt _ _ _ Hi). unfold zlookup in *. rewrite bool_decide_true in * by lia.
  destruct (Forall2_lookup_l _ _ _ _ _ HF Hi) as (y' & -> & Hy). congruence.
Qed.

(** A dependency of the DAG is one of the document, both ends moved to their places. *)
Lemma depends_parts root dag nodes scs deps b p : parts root dag nodes scs deps ->
  depends dag b p <-> exists j i ds, place_of (node_order nodes) j = Some b /\ place_of (node_order nodes) i = Some p /\ deps !!z j = Some ds /\ i ∈ ds.
Proof.
  intros P. split.
  - intros (nd & Hn & Hd). destruct (node_parts _ _ _ _ _ _ _ P Hn) as (j & v & obj & ds & Hj & _ & _ & Hds & _ & _ & _ & _ & Hm & _).
    apply (mapM_elem _ _ _ p Hm) in Hd as (i & Hi & Hp). by exists j, i, ds.
  - intros (j & i & ds & Hj & Hi & Hds & Hin). destruct (in_dag_node dag b (place_in_dag _ _ _ _ _ _ _ P Hj)) as [nd Hn]. exists nd. split; [done|].
    destruct (node_parts _ _ _ _ _ _ _ P Hn) as (j' & v & obj & ds' & Hj' & _ & _ & Hds' & _ & _ & _ & _ & Hm & _).
    rewrite (place_of_inj nodes _ _ _ Hj Hj') in Hds. rewrite Hds in Hds'. injection Hds' as <-. apply (mapM_elem _ _ _ p Hm). by exists i.
Qed.

Lemma back_parts root dag nodes scs deps p nd b : parts root dag nodes scs deps -> node_at dag p = Some nd -> b ∈ nd_BackLinks nd <-> depends dag b p.
Proof.
  intros P Hn. destruct (node_parts _ _ _ _ _ _ _ P Hn) as (i & v & obj & ds & Hi & _ & _ & _ & _ & _ & _ & _ & _ & Hb).
  rewrite (depends_parts _ _ _ _ _ _ _ P), (mapM_elem _ _ _ b Hb). split.
  - intros (j & (dj & Hj & Hin)%users_of_elem & Hp). by exists j, i, dj.
  - intros (j & i' & dj & Hj & Hi' & Hdj & Hin). rewrite (place_of_inj nodes _ _ _ Hi' Hi) in Hin. exists j. split; [|done]. apply users_of_elem. by exists dj.
Qed.

Lemma tuple_parts root dag nodes scs deps t : parts root dag nodes scs deps -> t ∈ dag_BuildTuples dag ->
  Forall (in_dag dag) (bt_DefaultNodes t) /\ Forall (in_dag dag) (bt_AlwaysNodes t) /\ Forall (fun n => in_dag dag (nn_NodeIndex n)) (bt_NamedNodes t).
Proof.
  intros P (k & Hk)%list_elem_of_lookup. destruct (p_tuples _ _ _ _ _ P) as (l & HF). destruct (Forall2_lookup_r _ _ _ _ _ HF Hk) as (v & _ & Hv).
  unfold tuple_of in Hv. split_bind Hv obj Eo. split_bind Hv c1 E1. split_bind Hv c2 E2. split_bind Hv c3 E3. case_match; [done|].
  split_bind Hv dn Edn. split_bind Hv an Ean. split_bind Hv nn Enn. injection Hv as <-. cbn.
  assert (Hpl : forall key l', places_member (node_order nodes) obj key = Some l' -> Forall (in_dag dag) l').
  { intros key l' Hl. unfold places_member in Hl. split_bind Hl l0 E0. apply Forall_forall. intros p Hp. apply (mapM_elem _ _ _ p Hl) in Hp as (x & _ & Hx).
    split_bind Hx i Ei. by eapply place_in_dag. }
  split_and!; [by eapply Hpl|by eapply Hpl|]. apply Forall_forall. intros n Hn. apply (mapM_elem _ _ _ n Enn) in Hn as (x & _ & Hx). unfold named_of in Hx.
  split_bind Hx i Ei. split_bind Hx p Ep. injection Hx as <-. by eapply place_in_dag.
Qed.
End Parts.

(** ** The promise *)

(** What the generator leaves to the document: passes few enough and in order,
    no cycles, and an action for every expensive node. *)
Definition doc_pass (v : value) : option Z := obj ← AsObject v; int_member obj "PassIndex" 0.

Definition doc_depends (root : object) (i d : Z) : Prop :=
  exists v ds, elements root "Nodes" !!z i = Some v /\ deps_of v = Some ds /\ d ∈ ds.

Record document_ok (root : object) : Prop := {
  doc_count : zlen (elements root "Nodes") < 2 ^ 31;
  doc_passes : zlen (elements root "Passes") <= kMaxPasses;
  doc_pass_range v p : v ∈ elements root "Nodes" -> doc_pass v = Some p -> 0 <= p < zlen (elements root "Passes");
  doc_pass_order i d v w p q : doc_depends root i d -> elements root "Nodes" !!z i = Some v -> elements root "Nodes" !!z d = Some w ->
    doc_pass v = Some p -> doc_pass w = Some q -> q <= p;
  doc_rank : exists rank : Z -> nat, forall i d, doc_depends root i d -> (rank d < rank i)%nat;
  doc_expensive v obj : v ∈ elements root "Nodes" -> AsObject v = Some obj -> GetNodeFlag obj (s2l "Expensive") kFlagExpensive <> 0 ->
    blank (str_member v "Action") = false
}.

Lemma expensive_flag obj : Z.land (node_flags obj) kFlagExpensive <> 0 -> GetNodeFlag obj (s2l "Expensive") kFlagExpensive <> 0.
Proof. unfold node_flags, GetNodeFlag. repeat case_match; vm_compute; congruence. Qed.

Section Promise.
Context (native : PathType) (ci : bool) (junk : cstr) `{StdSort} (stat : cstr -> stat_result) {dirs : DirectoryReader}.
Context (root : object) (dag : DagData) (nodes : list value) (scs : list ScannerData) (deps : list (list Z)).
Hypothesis P : parts native ci root dag nodes scs deps.

Lemma parts_depends b p : depends dag b p -> exists j i, place_of (node_order nodes) j = Some b /\ place_of (node_order nodes) i = Some p /\ doc_depends root j i.
Proof using All.
  intros (j & i & ds & Hj & Hi & Hds & Hin)%(depends_parts _ _ _ _ _ _ _ _ _ P). exists j, i. split_and!; try done.
  pose proof (zlookup_lt _ _ _ Hds). unfold zlookup in Hds. rewrite bool_decide_true in Hds by lia.
  destruct (Forall2_lookup_r _ _ _ _ _ (p_deps _ _ _ _ _ _ _ P) Hds) as (v & Hv & Hd). exists v, ds. split_and!; try done.
  rewrite (p_nodes _ _ _ _ _ _ _ P). unfold zlookup. by rewrite bool_decide_true by lia.
Qed.

Lemma parts_pass p nd i : node_at dag p = Some nd -> place_of (node_order nodes) i = Some p ->
  exists v obj, elements root "Nodes" !!z i = Some v /\ AsObject v = Some obj /\ doc_pass v = Some (nd_PassIndex nd) /\ nd_Action nd = str_member v "Action" /\ nd_Flags nd = node_flags obj.
Proof using All.
  intros Hn Hi. destruct (node_parts _ _ _ _ _ _ _ _ _ P Hn) as (i' & v & obj & ds & Hi' & Hv & Ho & _ & _ & Ha & Hp & Hf & _).
  rewrite (place_of_inj nodes _ _ _ Hi Hi'), (p_nodes _ _ _ _ _ _ _ P). exists v, obj. split_and!; try done. unfold doc_pass. by rewrite Ho.
Qed.

Lemma place_rank (rank : Z -> nat) : exists rank' : Z -> nat, forall i p, place_of (node_order nodes) i = Some p -> rank' p = rank i.
Proof using All.
  exists (fun p => match node_order nodes !!z p with Some t => rank (tg_Node t) | None => 0%nat end).
  intros i p (t & -> & ->)%place_of_spec. done.
Qed.

Lemma parts_dag_ok : document_ok root -> dag_ok dag.
Proof using All.
  intros D. pose proof (parts_length _ _ _ _ _ _ _ P) as Hl. constructor.
  - rewrite (p_guids _ _ _ _ _ _ _ P), length_map, order_length, Hl. split; [done|]. by apply order_sorted, (p_differ _ _ _ _ _ _ _ P).
  - unfold dag_NodeCount. rewrite Hl, <- (p_nodes _ _ _ _ _ _ _ P). apply (doc_count _ D).
  - rewrite <- (p_passes _ _ _ _ _ _ _ P). apply (doc_passes _ D).
  - intros p nd Hn. destruct (node_parts _ _ _ _ _ _ _ _ _ P Hn) as (i & _ & _ & _ & Hi & _). destruct (parts_pass _ _ _ Hn Hi) as (v & obj & Hv & _ & Hp & _).
    rewrite <- (p_passes _ _ _ _ _ _ _ P). apply (doc_pass_range _ D v); [by eapply zlookup_elem|done].
  - intros b nd p Hn Hd. destruct (parts_depends b p) as (j & i & Hj & Hi & Hdep); [by exists nd|]. destruct (in_dag_node dag p) as [nd' Hn']; [by eapply place_in_dag|].
    exists nd'. split; [done|]. destruct (parts_pass _ _ _ Hn Hj) as (v & _ & Hv & _ & Hp & _). destruct (parts_pass _ _ _ Hn' Hi) as (w & _ & Hw & _ & Hq & _).
    by eapply (doc_pass_order _ D j i v w).
  - intros p nd b Hn. by eapply back_parts.
  - destruct (doc_rank _ D) as [rank Hrank]. destruct (place_rank rank) as [rank' Hr]. exists rank'. intros b p (j & i & Hj & Hi & Hdep)%parts_depends.
    rewrite (Hr _ _ Hj), (Hr _ _ Hi). by apply Hrank.
  - intros p nd Hn He. destruct (node_parts _ _ _ _ _ _ _ _ _ P Hn) as (i & _ & _ & _ & Hi & _). destruct (parts_pass _ _ _ Hn Hi) as (v & obj & Hv & Ho & _ & Ha & Hf).
    unfold empty_action. rewrite Ha. apply (doc_expensive _ D v obj); [by eapply zlookup_elem|done|]. apply expensive_flag. unfold expensive in He. rewrite Hf in He.
    intros E. by rewrite E in He.
  - intros t Ht. by eapply tuple_parts.
Qed.
End Promise.

(** A node nothing identifies ends the computation. *)
Lemma node_guid_rejects junk i v g : identified v = false -> node_guid junk i v g = OK None.
Proof.
  unfold identified, node_guid, str_member, list_member. destruct (AsObject v) as [obj|] eqn:Ev; [|by intros _].
  destruct v as [| |m| | |]; try done. injection Ev as ->. intros Hid. unfold mbind at 1, gen_bind at 1. cbn [or_false mret gen_ret]. unfold mbind, gen_bind, require. by rewrite Hid.
Qed.

Lemma node_guids_reject junk nodes : length junk = 64%nat -> forall i g, forallb identified nodes = false -> node_guids junk i nodes g = OK None.
Proof.
  intros Hj. induction nodes as [|v nodes IH]; intros i g Hid; cbn [node_guids]; [done|]. cbn [forallb] in Hid. unfold mbind at 1, gen_bind at 1.
  destruct (identified v) eqn:Ev; [|by rewrite node_guid_rejects]. rewrite node_guid_is by done. unfold mbind, gen_bind. by rewrite IH.
Qed.

Lemma create_ok native ci junk_ends junk_data junk junk_byte `{StdSort} stat {dirs : DirectoryReader} text root dag :
  zlen junk_ends = kMaxPathSegments -> zlen junk_data = kMaxPathLength -> length junk = 64%nat ->
  parsed (JsonParse text) = Some (JObject root) -> dag_of native ci junk stat root = Some dag ->
  43 * zlen (elements root "Scanners") <= 2 ^ 17 -> zlen (elements root "Nodes") < 2 ^ 31 -> Z.of_nat (shared_uses root) <= 2 ^ 27 ->
  exists g, CompileDag native ci junk_ends junk_data junk junk_byte stat root new_gen = OK (Some (tt, g)) /\
  (writer_size (g_Writer g) <= 2 ^ 30 -> exists file,
    CreateDagFromJsonData native ci junk_ends junk_data junk junk_byte stat text = OK (Some file) /\ load_dag (Some file) = Some dag).
Proof.
  intros Hje Hjd Hj Htext Hdag Hsc Hn Hu. destruct (parsed_root _ _ Htext) as (Hroot & b & v & Ep & Ev).
  destruct (compile_ok native ci junk_ends junk_data junk junk_byte stat Hje Hjd Hj root dag Hroot Hdag Hsc Hn Hu) as (g & Eg & Hfile).
  exists g. split; [done|]. intros Hsz. destruct (Hfile Hsz) as (file & Ef & Hl). exists file. split; [|done].
  unfold CreateDagFromJsonData. rewrite Ep. cbn [mbind res_bind]. rewrite Ev. cbn [AsObject]. rewrite Eg. cbn [mbind res_bind]. by rewrite Ef.
Qed.

(** ** Properties *)

(** [ComputeNodeGuids] returns, for every list of nodes: the nodes by guid,
    strictly increasing, with the table that takes a node of the document to its
    place in that order, when every node is identified by an action, inputs or
    an annotation and no two nodes have one guid; [false] in every other case. *)
Theorem compute_node_guids_total `{StdSort} junk junk_byte nodes g : length junk = 64%nat ->
  if forallb identified nodes && bool_decide (NoDup (map guid_of_node nodes)) then
    exists order remap, ComputeNodeGuids junk junk_byte nodes g = OK (Some ((order, remap), g)) /\
    order ≡ₚ temp_table nodes /\ ssorted (map tg_Digest order) /\ length remap = length nodes /\
    forall i p, remap !!z i = Some p <-> exists t, order !!z p = Some t /\ tg_Node t = i
  else ComputeNodeGuids junk junk_byte nodes g = OK None.
Proof.
  intros Hj. destruct (forallb identified nodes) eqn:Hid; cbn [andb].
  - case_bool_decide as Hn; [|by apply compute_guids_rejects]. apply neighbours_differ_iff in Hn.
    destruct (compute_guids_ok nodes junk junk_byte g Hj Hid Hn) as (remap & E & Hl & Hr). exists (node_order nodes), remap.
    split_and!; [done|apply order_perm|by apply order_sorted|done|]. intros i p. rewrite Hr. apply place_of_spec.
  - unfold ComputeNodeGuids, mbind, gen_bind. by rewrite node_guids_reject.
Qed.

(** C10. From the text of a document to the build: a text that parses and stands for
    [dag] is compiled, and the file [BinaryWriterFlush] writes for it is accepted by
    [LoadFrozenData] and reads as [dag], while the tables stay within their limits
    (scanners within the first capacity of their segment, 2^27 shared strings,
    2^30 bytes of file), whatever was in the memory the code does not initialise. *)
Theorem generated_dag_loads native ci junk_ends junk_data junk junk_byte `{StdSort} stat {dirs : DirectoryReader} text root dag :
  zlen junk_ends = kMaxPathSegments -> zlen junk_data = kMaxPathLength -> length junk = 64%nat ->
  parsed (JsonParse text) = Some (JObject root) -> dag_of native ci junk stat root = Some dag ->
  43 * zlen (elements root "Scanners") <= 2 ^ 17 -> zlen (elements root "Nodes") < 2 ^ 31 -> Z.of_nat (shared_uses root) <= 2 ^ 27 ->
  exists g, CompileDag native ci junk_ends junk_data junk junk_byte stat root new_gen = OK (Some (tt, g)) /\
  (writer_size (g_Writer g) <= 2 ^ 30 -> exists file,
    CreateDagFromJsonData native ci junk_ends junk_data junk junk_byte stat text = OK (Some file) /\ load_dag (Some file) = Some dag).
Proof. apply create_ok. Qed.

(** C11. The promise of the generator to the driver: a document with at most
    [kMaxPasses] passes, without cycles, whose dependencies never lead to a later
    pass and whose expensive nodes have actions, gives a DAG that is well formed
    in the sense of the driver's theorems: guids strictly sorted, one per node,
    dependencies and targets in range, and the back links of a node exactly the
    nodes that depend on it. *)
Theorem generated_dag_ok native ci junk_ends junk_data junk junk_byte `{StdSort} stat {dirs : DirectoryReader} text root dag :
  zlen junk_ends = kMaxPathSegments -> zlen junk_data = kMaxPathLength -> length junk = 64%nat ->
  parsed (JsonParse text) = Some (JObject root) -> dag_of native ci junk stat root = Some dag -> document_ok root ->
  43 * zlen (elements root "Scanners") <= 2 ^ 17 -> Z.of_nat (shared_uses root) <= 2 ^ 27 ->
  (forall g, CompileDag native ci junk_ends junk_data junk junk_byte stat root new_gen = OK (Some (tt, g)) -> writer_size (g_Writer g) <= 2 ^ 30) ->
  exists file loaded, CreateDagFromJsonData native ci junk_ends junk_data junk junk_byte stat text = OK (Some file) /\
  load_dag (Some file) = Some loaded /\ dag_ok loaded.
Proof.
  intros Hje Hjd Hj Htext Hdag Hok Hsc Hu Hsize. destruct (create_ok native ci junk_ends junk_data junk junk_byte stat text root dag Hje Hjd Hj Htext Hdag Hsc (doc_count _ Hok) Hu) as (g & Eg & Hf).
  destruct (Hf (Hsize g Eg)) as (file & Ef & Hl). exists file, dag. split_and!; [done|done|]. destruct (dag_parts _ _ _ _ _ _ Hdag) as (nodes & scs & deps & Hp). by eapply parts_dag_ok.
Qed.

(** ** A document *)

Module DemoDocument.
Definition quote (s : string) : cstr := map (fun c => if Ascii.eqb c "'"%char then ascii_of_N 34 else c) (s2l s).
Definition text : cstr := quote "{'Nodes':[
  {'Action':'cc a.c','Annotation':'CC a.c','PassIndex':0,'Deps':[2],'Inputs':['./x/../a.c','gen.h'],'Outputs':['a.o'],'ScannerIndex':1,
   'OverwriteOutputs':true,'Env':[{'Key':'PATH','Value':'/bin'}]},
  {'Action':'ld','Annotation':'LINK','PassIndex':1,'Deps':[0,2],'Inputs':['a.o'],'Outputs':['prog'],'Expensive':true},
  {'Annotation':'GEN gen.h','Action':'gen','Outputs':['gen.h'],'AuxOutputs':['gen.log']}],
 'Passes':['Default','Link'],
 'Scanners':[{'Kind':'cpp','IncludePaths':['inc','/bin']},
  {'Kind':'generic','IncludePaths':['inc'],'Keywords':['include'],'KeywordsNoFollow':['use','x'],'UseSeparators':true}],
 'Setup':{'Configs':['linux-gcc'],'Variants':['debug'],'SubVariants':['default'],
  'BuildTuples':[{'ConfigIndex':0,'VariantIndex':0,'SubVariantIndex':0,'DefaultNodes':[1],'AlwaysNodes':[],'NamedNodes':{'prog':1,'gen':2}}],
  'DefaultBuildTuple':{'ConfigIndex':-1,'VariantIndex':0,'SubVariantIndex':-1}},
 'FileSignatures':[{'File':'tundra.lua'}],'GlobSignatures':[{'Path':'src'}],'ContentDigestExtensions':['.c'],'MaxExpensiveCount':2}" ++ [NUL].
Definition junk_ends : list Z := replicate (Z.to_nat kMaxPathSegments) 7.
Definition junk_data : cstr := replicate (Z.to_nat kMaxPathLength) "x"%char.
Definition dirs : DirectoryReader := {| read_names _ := Some [s2l "a.c"] |}.
Definition object_of (v : option value) : object := match v with Some (JObject m) => m | _ => [] end.
Definition root : object := object_of (parsed (JsonParse text)).
Definition nodes : list value := elements root "Nodes".
Definition no_dag : DagData := mkDag [] [] [] [] [] [] [] [] [] [] 0 0 0 [] [] [] 0 [] [] [] [] [] [].
Definition dag : DagData := default no_dag (dag_of (dirs := dirs) kUnix false zeroes64 DemoListing.stat root).
End DemoDocument.

Lemma demo_root : parsed (JsonParse DemoDocument.text) = Some (JObject DemoDocument.root).
Proof. vm_compute. reflexivity. Qed.

Lemma demo_dag : dag_of (dirs := DemoDocument.dirs) kUnix false zeroes64 DemoListing.stat DemoDocument.root = Some DemoDocument.dag.
Proof. vm_compute. reflexivity. Qed.

Lemma demo_nodes_deps : mapM deps_of DemoDocument.nodes = Some [[2]; [0; 2]; []].
Proof. vm_compute. reflexivity. Qed.

Lemma demo_nodes_passes : mapM doc_pass DemoDocument.nodes = Some [0; 1; 0].
Proof. vm_compute. reflexivity. Qed.

Lemma demo_nodes_actions : forallb (fun v => negb (blank (str_member v "Action"))) DemoDocument.nodes = true.
Proof. vm_compute. reflexivity. Qed.

Lemma demo_deps i d : doc_depends DemoDocument.root i d -> (i, d) ∈ [(0, 2); (1, 0); (1, 2)].
Proof.
  intros (v & ds & Hv & Hd & Hin). pose proof (mapM_zlookup _ _ _ _ _ _ demo_nodes_deps Hv Hd) as Hi. clear Hv Hd. pose proof (zlookup_lt _ _ _ Hi) as Hr. cbn in Hr.
  assert (i = 0 \/ i = 1 \/ i = 2) as [->|[->| ->]] by lia; cbn in Hi; injection Hi as <-; set_solver.
Qed.

Lemma demo_passes i v p : DemoDocument.nodes !!z i = Some v -> doc_pass v = Some p -> p = (if i =? 1 then 1 else 0).
Proof.
  intros Hv Hp. pose proof (mapM_zlookup _ _ _ _ _ _ demo_nodes_passes Hv Hp) as Hi. clear Hv Hp. pose proof (zlookup_lt _ _ _ Hi) as Hr. cbn in Hr.
  assert (i = 0 \/ i = 1 \/ i = 2) as [->|[->| ->]] by lia; cbn in Hi; by injection Hi as <-.
Qed.

Lemma demo_document_ok : document_ok DemoDocument.root.
Proof.
  assert (Hp : zlen (elements DemoDocument.root "Passes") = 2) by (vm_compute; reflexivity). constructor.
  - vm_compute. reflexivity.
  - rewrite Hp. vm_compute. discriminate.
  - intros v p (k & Hk)%list_elem_of_lookup Hv. rewrite <- zlookup_nat in Hk. pose proof (demo_passes _ _ _ Hk Hv) as ->. rewrite Hp. case_match; lia.
  - intros i d v w p q Hd%demo_deps Hv Hw Hvp Hwq. pose proof (demo_passes _ _ _ Hv Hvp) as ->. pose proof (demo_passes _ _ _ Hw Hwq) as ->. clear Hv Hw Hvp Hwq. rewrite !elem_of_cons, elem_of_nil in Hd.
    destruct Hd as [[= -> ->]|[[= -> ->]|[[= -> ->]|[]]]]; cbn; lia.
  - exists (fun i : Z => if i =? 1 then 2%nat else if i =? 0 then 1%nat else 0%nat). intros i d Hd%demo_deps. rewrite !elem_of_cons, elem_of_nil in Hd. destruct Hd as [[= -> ->]|[[= -> ->]|[[= -> ->]|[]]]]; cbn; lia.
  - intros v obj Hv _ _. apply negb_true_iff. exact (forallb_elem _ _ _ demo_nodes_actions Hv).
Qed.

Lemma demo_identified : forallb identified DemoDocument.nodes && bool_decide (NoDup (map guid_of_node DemoDocument.nodes)) = true.
Proof. vm_compute. reflexivity. Qed.

Lemma compute_node_guids_total_witness :
  exists (order : list TempNodeGuid) (remap : list Z), ComputeNodeGuids zeroes64 77 DemoDocument.nodes new_gen = OK (Some ((order, remap), new_gen)) /\
    forall i p, remap !!z i = Some p <-> exists t, order !!z p = Some t /\ tg_Node t = i.
Proof.
  pose proof (compute_node_guids_total zeroes64 77 DemoDocument.nodes new_gen eq_refl) as Hg.
  rewrite demo_identified in Hg. destruct Hg as (order & remap & E & _ & _ & _ & Hr). exists order, remap. split; [exact E|exact Hr].
Defined.

Lemma demo_size :
  match CompileDag (dirs := DemoDocument.dirs) kUnix false DemoDocument.junk_ends DemoDocument.junk_data zeroes64 77 DemoListing.stat DemoDocument.root new_gen with
  | OK (Some (_, g)) => writer_size (g_Writer g) <= 2 ^ 30
  | _ => False
  end.
Proof. vm_compute. discriminate. Qed.

Lemma generated_dag_loads_witness : exists file,
  CreateDagFromJsonData (dirs := DemoDocument.dirs) kUnix false DemoDocument.junk_ends DemoDocument.junk_data zeroes64 77 DemoListing.stat DemoDocument.text = OK (Some file) /\
  load_dag (Some file) = Some DemoDocument.dag.
Proof.
  destruct (generated_dag_loads (dirs := DemoDocument.dirs) kUnix false DemoDocument.junk_ends DemoDocument.junk_data zeroes64 77 DemoListing.stat
    DemoDocument.text DemoDocument.root DemoDocument.dag ltac:(vm_compute; reflexivity) ltac:(vm_compute; reflexivity) eq_refl demo_root demo_dag
    ltac:(vm_compute; discriminate) ltac:(vm_compute; reflexivity) ltac:(vm_compute; discriminate)) as (g & Eg & Hf).
  pose proof demo_size as Hs. rewrite Eg in Hs. exact (Hf Hs).
Defined.

Lemma demo_small g : CompileDag (dirs := DemoDocument.dirs) kUnix false DemoDocument.junk_ends DemoDocument.junk_data zeroes64 77 DemoListing.stat DemoDocument.root new_gen =
  OK (Some (tt, g)) -> writer_size (g_Writer g) <= 2 ^ 30.
Proof. intros Eg. pose proof demo_size as Hs. rewrite Eg in Hs. exact Hs. Qed.

Lemma generated_dag_ok_witness : exists file loaded,
  CreateDagFromJsonData (dirs := DemoDocument.dirs) kUnix false DemoDocument.junk_ends DemoDocument.junk_data zeroes64 77 DemoListing.stat DemoDocument.text = OK (Some file) /\
  load_dag (Some file) = Some loaded /\ dag_ok loaded.
Proof.
  exact (generated_dag_ok (dirs := DemoDocument.dirs) kUnix false DemoDocument.junk_ends DemoDocument.junk_data zeroes64 77 DemoListing.stat
    DemoDocument.text DemoDocument.root DemoDocument.dag ltac:(vm_compute; reflexivity) ltac:(vm_compute; reflexivity) eq_refl demo_root demo_dag demo_document_ok
    ltac:(vm_compute; discriminate) ltac:(vm_compute; discriminate) demo_small).
Defined.
