(* ===== verification/DagHost.v ===== *)
(** * Generating the DAG from the build scripts

    The rest of src/src/DagGenerator.cpp: running the front end as an external
    tool, reading the document it writes and turning it into the DAG file; the
    command lines of the other two front-end modes. The host (environment,
    processes and files) is a parameter. With it, [DriverPrepareDag] of Driver is
    put together with the generator and with the readers of DagFile. *)

From stdpp Require Import sorting.
From S2P Require Import Prelude CType CommonFns Hash HashImpl HashThms DagData SortedArray HashTable StatCache PathUtil PathThms BinaryWriter FrozenFile FileSign.
From S2P Require Import Driver DriverThms JsonParse JsonRound DagGenerator DagFile DagOrder DagCompile DagRound DagThms.

(** ** The host *)

Class Host (W : Type) : Type := {
  h_getenv : W -> cstr -> option cstr;
  (** [GetExePath()] *)
  h_exe_path : W -> cstr;
  h_remove : W -> cstr -> W;
  (** [ExecuteProcess]: the command line, the environment added, the exit code. *)
  h_execute : W -> cstr -> list (cstr * cstr) -> W * Z;
  h_stat : W -> cstr -> stat_result;
  h_dirs : W -> DirectoryReader;
  (** The bytes of a file that can be opened for reading, read and mapped. *)
  h_read : W -> cstr -> option cstr;
  h_map : W -> cstr -> option (list Z);
  (** Writing a file, and whether all of it could be written. *)
  h_write : W -> cstr -> list Z -> W * bool }.

(** [snprintf] into an array of [size] characters that is terminated after the call. *)
Definition snprintf (size : Z) (s : cstr) : cstr := take (Z.to_nat (size - 1)) s.

Definition TUNDRA_EXE_SUFFIX (native : PathType) : cstr := match native with kWindows => s2l ".exe" | kUnix => [] end.

(** ** Command lines *)

Definition quote_char : ascii := ascii_of_N 34.
Definition space : ascii := " "%char.

(** [strchr(s, c) != nullptr], for a character that is not the terminator. *)
Definition has_char (c : ascii) (s : cstr) : bool := existsb (Ascii.eqb c) s.

Definition quoted_arg (arg : cstr) : cstr := if has_char space arg then [quote_char] ++ arg ++ [quote_char] else arg.

Fixpoint append_args (first : bool) (argv : list cstr) : cstr :=
  match argv with
  | [] => []
  | arg :: argv' => (if first then [] else [space]) ++ quoted_arg arg ++ append_args false argv'
  end.

(** The contents of [args], terminator included. *)
Definition CreateCommandLine (argv : list cstr) : cstr := append_args true argv ++ [NUL].

Section Tool.
Context {W : Type} `{Host W} (native : PathType) (junk_ends : list Z) (junk_data : cstr).

(** Where the front end is. *)
Definition dag_gen_path (w : W) : res cstr :=
  match h_getenv w (s2l "TUNDRA_DAGTOOL") with
  | Some env_option => OK (take (Z.to_nat (kMaxPathLength - 1)) env_option)
  | None =>
      pbuf ← PathInit junk_ends junk_data (h_exe_path w) native;
      let '(pbuf, _) := PathStripLast pbuf in
      pbuf ← PathConcatString native junk_ends junk_data pbuf (s2l "t2-lua" ++ TUNDRA_EXE_SUFFIX native);
      PathFormat pbuf
  end.

(** [options] is the formatted string before it is cut to its buffer. *)
Definition RunExternalTool (options : cstr) (w : W) : res (W * bool) :=
  dag_gen_path ← dag_gen_path w;
  let option_str := snprintf 1024 options in
  let cmdline_to_use :=
    match h_getenv w (s2l "TUNDRA_DAGTOOL_FULLCOMMANDLINE") with
    | Some env_option => env_option
    | None =>
        let quotes := if has_char space dag_gen_path then [quote_char] else [] in
        snprintf 1024 (quotes ++ dag_gen_path ++ quotes ++ [space] ++ option_str)
    end in
  let '(w, return_code) := h_execute w cmdline_to_use [(s2l "TUNDRA_FRONTEND_OPTIONS", option_str)] in
  OK (w, return_code =? 0).

Definition GenerateIdeIntegrationFiles (build_file : cstr) (argv : list cstr) (w : W) : res (W * bool) :=
  let args := CreateCommandLine argv in
  RunExternalTool (s2l "generate-ide-files " ++ build_file ++ [space] ++ until_nul args) w.

Definition GenerateTemplateFiles (argv : list cstr) (w : W) : res (W * bool) :=
  let args := CreateCommandLine argv in
  RunExternalTool (s2l "create-template-file " ++ until_nul args) w.

(** ** The DAG file *)

Context (ci : bool) (junk : cstr) (junk_byte : Z) `{StdSort}.

Definition json_filename (dag_fn : cstr) : cstr := snprintf kMaxPathLength (dag_fn ++ s2l ".json").

(** Reading the document: [None] when the file cannot be opened or is short. *)
Definition read_json (w : W) (fn : cstr) (m_Size : Z) : option cstr :=
  let json_size := u64 (m_Size + 1) in
  match h_read w fn with
  | None => None
  | Some bytes =>
      let read_count := Z.min (json_size - 1) (zlen bytes) in
      if negb (json_size - 1 =? read_count) then None
      else Some (take (Z.to_nat (json_size - 1)) bytes ++ [NUL])
  end.

Definition GenerateDag (script_fn dag_fn : cstr) (w : W) : res (W * bool) :=
  let json_filename := json_filename dag_fn in
  let w := h_remove w json_filename in
  '(w, ok) ← RunExternalTool (s2l "generate-dag " ++ script_fn ++ [space] ++ json_filename) w;
  if negb ok then OK (w, false) else
  let json_info := GetFileInfo (h_stat w json_filename) in
  if negb (Exists json_info) then OK (w, false) else
  match read_json w json_filename (fi_Size json_info) with
  | None => OK (w, false)
  | Some json_memory =>
      success ← CreateDagFromJsonData native ci junk_ends junk_data junk junk_byte (h_stat w) (dirs := h_dirs w) json_memory;
      match success with
      | None => OK (w, false)
      | Some file => OK (h_write w dag_fn file)
      end
  end.

(** [DriverPrepareDag] on this host, in a checked build or another. *)
Definition host_timestamp (w : W) (path : cstr) : Z := fi_Timestamp (GetFileInfo (h_stat w path)).
Definition host_glob_signature (w : W) (path : cstr) : res HashDigest := CalculateGlobSignatureFor ci junk (h_stat w) (dirs := h_dirs w) path.
Definition host_load_dag (dag_fn : cstr) (w : W) : option DagData := load_dag (h_map w dag_fn).

Definition PrepareDag (checked : bool) (script_fn : cstr) (options : DriverOptions) (w : W) : res (W * option DagData) :=
  let dag_fn := opt_DAGFileName options in
  DriverPrepareDag checked (host_load_dag dag_fn) (GenerateDag script_fn dag_fn) host_timestamp host_glob_signature options w.
End Tool.

(** ** Splitting a command line *)

(** Words separated by spaces that are not between quotes; quotes are dropped. *)
Fixpoint split_words (quoted : bool) (word : option cstr) (s : cstr) : list cstr :=
  match s with
  | [] => match word with Some w => [w] | None => [] end
  | c :: s' =>
      if Ascii.eqb c quote_char then split_words (negb quoted) (Some (default [] word)) s'
      else if Ascii.eqb c space && negb quoted then
        match word with Some w => w :: split_words false None s' | None => split_words false None s' end
      else split_words quoted (Some (default [] word ++ [c])) s'
  end.

Lemma eqb_false_ne c d : c <> d -> Ascii.eqb c d = false.
Proof. intros Hne. destruct (Ascii.eqb_spec c d); [done|done]. Qed.

Lemma until_nul_app s t : cstr_ok s -> until_nul (s ++ NUL :: t) = s.
Proof. induction 1 as [|c s Hc HF IH]; cbn; [done|]. rewrite eqb_false_ne by done. by rewrite IH. Qed.

Lemma has_char_spec c s : has_char c s = false <-> c ∉ s.
Proof.
  unfold has_char. induction s as [|x s IH]; cbn; [split; [set_solver|done]|]. rewrite orb_false_iff, IH, not_elem_of_cons.
  destruct (Ascii.eqb_spec c x); naive_solver.
Qed.

(** A stretch without quotes, and without spaces unless it is quoted. *)
Lemma split_run quoted w s t : quote_char ∉ s -> (quoted = false -> space ∉ s) -> s <> [] \/ is_Some w ->
  split_words quoted w (s ++ t) = split_words quoted (Some (default [] w ++ s)) t.
Proof.
  revert w. induction s as [|c s IH]; intros w Hq Hs Hne; cbn [app].
  { destruct Hne as [?|[x ->]]; [done|]. cbn. by rewrite app_nil_r. }
  apply not_elem_of_cons in Hq as [Hc Hq]. cbn [split_words]. rewrite eqb_false_ne by done.
  assert (Ascii.eqb c space && negb quoted = false) as ->.
  { destruct quoted; [by rewrite andb_false_r|]. specialize (Hs eq_refl). apply not_elem_of_cons in Hs as [? _]. by rewrite eqb_false_ne. }
  rewrite IH; [|done| |by right; eexists].
  - change (default [] (Some ?x)) with x. by rewrite <- app_assoc.
  - intros E. specialize (Hs E). set_solver.
Qed.

Lemma split_arg arg t : arg <> [] -> quote_char ∉ arg -> split_words false None (quoted_arg arg ++ t) = split_words false (Some arg) t.
Proof.
  intros Hne Hq. unfold quoted_arg. destruct (has_char space arg) eqn:Hs.
  - rewrite <- !app_assoc. change ([quote_char] ++ ?x) with (quote_char :: x). cbn [split_words]. change (Ascii.eqb quote_char quote_char) with true. cbn [negb default].
    rewrite split_run; [|done|done|by left]. done.
  - apply has_char_spec in Hs. by rewrite split_run; [|done|done|left].
Qed.

Lemma append_args_ok first argv : Forall cstr_ok argv -> cstr_ok (append_args first argv).
Proof.
  intros HF. revert first. induction HF as [|a argv Ha HF IH]; intros first; [constructor|]. cbn [append_args]. unfold cstr_ok in *. rewrite !Forall_app. split_and!.
  - destruct first; repeat constructor; discriminate.
  - unfold quoted_arg. case_match; [|done]. rewrite !Forall_app. split_and!; [repeat constructor; discriminate|done|repeat constructor; discriminate].
  - apply IH.
Qed.

Lemma split_args first argv : Forall (fun a => a <> [] /\ quote_char ∉ a) argv -> split_words false None (append_args first argv) = argv.
Proof.
  revert first. induction argv as [|a argv IH]; intros first HF; [done|]. apply Forall_cons in HF as [[Ha Hq] HF]. cbn [append_args].
  assert (E : split_words false None ((if first then [] else [space]) ++ quoted_arg a ++ append_args false argv) =
    split_words false None (quoted_arg a ++ append_args false argv)) by (by destruct first).
  rewrite E, split_arg by done. destruct argv as [|b argv]; [done|]. cbn [append_args].
  change (split_words false (Some a) ([space] ++ ?s)) with (a :: split_words false None s). f_equal. apply (IH true HF).
Qed.

(** ** The listing of a directory *)

Section Listing.
Context (stat stat' : cstr -> stat_result) (ci : bool) (junk : cstr) `{StdSort} (dirs dirs' : DirectoryReader).

(** The same entries, noise apart, and the same kinds. *)
Definition same_listing (path : cstr) : Prop :=
  match read_names (DirectoryReader := dirs) path, read_names (DirectoryReader := dirs') path with
  | Some names, Some names' => Forall cstr_ok names /\ wanted names ≡ₚ wanted names' /\ Forall (fun n => stat' (path ++ "/"%char :: n) = stat (path ++ "/"%char :: n)) (wanted names)
  | None, None => True
  | _, _ => False
  end.

Lemma same_signature path : length junk = 64%nat -> same_listing path ->
  CalculateGlobSignatureFor ci junk stat' (dirs := dirs') path = CalculateGlobSignatureFor ci junk stat (dirs := dirs) path.
Proof.
  intros Hj Hs. unfold same_listing in Hs. rewrite !glob_signature_is by done. do 2 f_equal. unfold ListDirectory.
  destruct (read_names (DirectoryReader := dirs) path) as [names|]; [|by destruct (read_names (DirectoryReader := dirs') path)].
  destruct (read_names (DirectoryReader := dirs') path) as [names'|]; [|done]. destruct Hs as (HF & HP & Hk). case_match; [done|].
  rewrite (list_wanted stat path names), (list_wanted stat' path names'). symmetry. apply listing_message_perm.
  - apply list_cstr. rewrite Forall_forall in HF. apply Forall_forall. intros n [_ Hn]%list_elem_of_filter. by apply HF.
  - rewrite <- HP. clear HP. induction Hk as [|n l Hn Hk IH]; [done|]. cbn [omap list_omap].
    assert (list_entry stat' path n = list_entry stat path n) as -> by (unfold list_entry; by rewrite Hn). case_match; by rewrite IH.
Qed.
End Listing.

(** The build system's own files are noise. *)
Lemma own_files_unwanted s names : wanted ((s2l ".tundra2." ++ s) :: names) = wanted names.
Proof.
  unfold wanted. rewrite filter_cons. rewrite decide_False; [done|]. enough (ShouldFilter (s2l ".tundra2." ++ s) = true) by congruence.
  unfold ShouldFilter. assert ((9 <=? zlen (s2l ".tundra2." ++ s)) = true) as ->.
  { apply Z.leb_le. rewrite length_app. change (length (s2l ".tundra2.")) with 9%nat. lia. }
  change (bytes_at (s2l ".tundra2." ++ s) 0 9) with (s2l ".tundra2."). rewrite (bool_decide_true (s2l ".tundra2." = s2l ".tundra2.")) by done. by repeat case_match.
Qed.

(** ** Signatures of a generated DAG *)

Section Signatures.
Context (native : PathType) (ci : bool) (junk : cstr) `{StdSort} (stat : cstr -> stat_result) {dirs : DirectoryReader}.

Lemma timestamp_u64 r : u64 (fi_Timestamp (GetFileInfo r)) = fi_Timestamp (GetFileInfo r).
Proof. destruct r; cbn; [|done]. unfold u64. by rewrite Z.mod_mod. Qed.

Lemma dag_signatures root dag : dag_of native ci junk stat root = Some dag ->
  Forall (fun s => fi_Timestamp (GetFileInfo (stat (fsig_Path s))) = fsig_Timestamp s) (dag_FileSignatures dag) /\
  Forall (fun s => CalculateGlobSignatureFor ci junk stat (gsig_Path s) = OK (gsig_Digest s)) (dag_GlobSignatures dag).
Proof.
  unfold dag_of. intros Hdag. split_bind Hdag nodes Enodes. split_bind Hdag passes Epasses. split_bind Hdag scs Escs.
  destruct (forallb identified nodes); [|done]. destruct (neighbours_differ (node_order nodes)); [|done]. cbn [negb] in Hdag.
  split_bind Hdag deps Edeps. split_bind Hdag nds Ends. split_bind Hdag pn Epn. split_bind Hdag setup Esetup. split_bind Hdag cfg Ecfg. split_bind Hdag vrt Evrt.
  split_bind Hdag sub Esub. split_bind Hdag tup Etup. split_bind Hdag deft Edeft. split_bind Hdag d1 Ed1. split_bind Hdag d2 Ed2. split_bind Hdag d3 Ed3.
  destruct ((-2 =? d1) || (-2 =? d2) || (-2 =? d3)); [done|]. split_bind Hdag fs Efs. split_bind Hdag gs Egs. split_bind Hdag exs Eexs. split_bind Hdag mx Emx.
  injection Hdag as <-. cbn [dag_FileSignatures dag_GlobSignatures]. split; apply Forall_forall.
  - intros s Hs. apply (mapM_elem _ _ _ s Efs) in Hs as (v & _ & Hv). unfold file_signature_of in Hv. split_bind Hv obj Eo. split_bind Hv path Ep.
    injection Hv as <-. cbn [fsig_Path fsig_Timestamp]. by rewrite timestamp_u64.
  - intros s Hs. apply (mapM_elem _ _ _ s Egs) in Hs as (v & _ & Hv). unfold glob_signature_of in Hv. split_bind Hv obj Eo. split_bind Hv path Ep. split_bind Hv d Ed.
    injection Hv as <-. cbn [gsig_Path gsig_Digest]. destruct (CalculateGlobSignatureFor _ _ _ _); [by injection Ed as <-|done].
Qed.

Lemma dag_guids_sorted root dag : dag_of native ci junk stat root = Some dag -> guids_sorted (dag_NodeGuids dag) = OK tt.
Proof.
  intros (nodes & scs & deps & P)%dag_parts. rewrite (p_guids _ _ _ _ _ _ _ P). pose proof (order_sorted nodes (p_differ _ _ _ _ _ _ _ P)) as Hs.
  induction Hs as [|a l Hs IH Hf]; [done|]. destruct l as [|b l]; [done|]. apply Forall_cons in Hf as [Hab _]. change (guids_sorted (a :: b :: l)) with
    (if digest_lt b a then Err (Croak "DAG data is not sorted by guid") else guids_sorted (b :: l)).
  destruct (digest_lt b a) eqn:E; [|done]. pose proof (digest_lt_trans _ _ _ Hab E) as Hx. by rewrite digest_lt_irrefl in Hx.
Qed.
End Signatures.

(** ** Regeneration *)

Section Regenerate.
Context {W : Type} `{Host W} (native : PathType) (ci : bool) (junk_ends : list Z) (junk_data junk : cstr) (junk_byte : Z) `{StdSort}.

(** Writing the DAG file does not touch what its signatures are taken of. *)
Definition quiet (w w' : W) (dag : DagData) : Prop :=
  Forall (fun s => h_stat w' (fsig_Path s) = h_stat w (fsig_Path s)) (dag_FileSignatures dag) /\
  Forall (fun s => same_listing (h_stat w) (h_stat w') (h_dirs w) (h_dirs w') (gsig_Path s)) (dag_GlobSignatures dag).

Lemma generated_current w w' root dag : length junk = 64%nat -> dag_of native ci junk (h_stat w) (dirs := h_dirs w) root = Some dag ->
  quiet w w' dag -> zlen (dag_Passes dag) <= kMaxPasses -> dag_current host_timestamp (host_glob_signature ci junk) w' dag.
Proof.
  intros Hj [HF HG]%dag_signatures [QF QG] Hp. split_and!; [done| |].
  - rewrite Forall_forall in HF, QF. apply Forall_forall. intros s Hs. unfold host_timestamp. by rewrite (QF s Hs), (HF s Hs).
  - rewrite Forall_forall in HG, QG. apply Forall_forall. intros s Hs. exists (gsig_Digest s). split; [|by apply digest_eq_spec].
    unfold host_glob_signature. rewrite (same_signature _ _ _ _ _ _ _ Hj (QG s Hs)). by apply HG.
Qed.

Lemma read_json_whole w fn text : h_read w fn = Some text -> zlen text < 2 ^ 64 - 1 -> read_json w fn (zlen text) = Some (text ++ [NUL]).
Proof.
  intros Hr Hl. unfold read_json. rewrite Hr. assert (u64 (zlen text + 1) = zlen text + 1) as -> by (unfold u64; apply Z.mod_small; lia).
  rewrite Z.add_simpl_r, Z.min_id, Z.eqb_refl. cbn [negb]. by rewrite Nat2Z.id, firstn_all.
Qed.
End Regenerate.

(** ** Properties *)

(** C9. Regenerating the DAG, from the command line to the data the build uses:
    when there is no DAG file or regeneration is asked for, the front end succeeds
    and leaves a document that stands for [dag], and writing the DAG file succeeds
    and leaves alone the files and directories the signatures are taken of (the
    DAG file itself is noise in a listing), then [DriverPrepareDag] maps the new
    file, its check of the signatures does not fail (in a checked build, where it
    is made), and the build runs on [dag]. *)
Theorem regenerated_dag_accepted {W : Type} `{Host W} native ci junk_ends junk_data junk junk_byte `{StdSort} checked script_fn options (w w1 : W) mode mtime text root dag :
  let json := json_filename (opt_DAGFileName options) in
  zlen junk_ends = kMaxPathSegments -> zlen junk_data = kMaxPathLength -> length junk = 64%nat ->
  opt_ForceDagRegen options = true \/ h_map w (opt_DAGFileName options) = None ->
  RunExternalTool native junk_ends junk_data (s2l "generate-dag " ++ script_fn ++ [space] ++ json) (h_remove w json) = OK (w1, true) ->
  h_stat w1 json = StatOK mode mtime (zlen text) -> h_read w1 json = Some text -> zlen text < 2 ^ 64 - 1 ->
  parsed (JsonParse (text ++ [NUL])) = Some (JObject root) -> dag_of native ci junk (h_stat w1) (dirs := h_dirs w1) root = Some dag ->
  43 * zlen (elements root "Scanners") <= 2 ^ 17 -> zlen (elements root "Nodes") < 2 ^ 31 -> Z.of_nat (shared_uses root) <= 2 ^ 27 ->
  (forall g, CompileDag native ci junk_ends junk_data junk junk_byte (h_stat w1) (dirs := h_dirs w1) root new_gen = OK (Some (tt, g)) -> writer_size (g_Writer g) <= 2 ^ 30) ->
  zlen (dag_Passes dag) <= kMaxPasses ->
  (forall file, load_dag (Some file) = Some dag ->
     exists w2, h_write w1 (opt_DAGFileName options) file = (w2, true) /\ h_map w2 (opt_DAGFileName options) = Some file /\ quiet w1 w2 dag) ->
  exists w2, PrepareDag native junk_ends junk_data ci junk junk_byte checked script_fn options w = OK (w2, Some dag).
Proof.
  intros json Hje Hjd Hj Hregen Htool Hstat Hread Hlen Htext Hdag Hsc Hn Hu Hsize Hp Hwrite.
  destruct (create_ok native ci junk_ends junk_data junk junk_byte (h_stat w1) (dirs := h_dirs w1) (text ++ [NUL]) root dag Hje Hjd Hj Htext Hdag Hsc Hn Hu) as (g & Eg & Hfile).
  destruct (Hfile (Hsize g Eg)) as (file & Ef & Hl). destruct (Hwrite file Hl) as (w2 & Ew & Em & Hq). exists w2.
  assert (Hgen : GenerateDag native junk_ends junk_data ci junk junk_byte script_fn (opt_DAGFileName options) w = OK (w2, true)).
  { unfold GenerateDag. fold json. rewrite Htool. cbn [mbind res_bind negb]. rewrite Hstat. change (Exists (GetFileInfo (StatOK ?m ?t ?n))) with (negb (Z.land kFlagExists (fi_Flags (GetFileInfo (StatOK m t n))) =? 0)).
    assert (Hx : (Z.land kFlagExists (fi_Flags (GetFileInfo (StatOK mode mtime (zlen text)))) =? 0) = false) by (cbn [GetFileInfo fi_Flags]; by repeat case_match).
    rewrite Hx. cbn [negb]. assert (fi_Size (GetFileInfo (StatOK mode mtime (zlen text))) = zlen text) as -> by (cbn; unfold u64; apply Z.mod_small; lia).
    rewrite (read_json_whole w1 json text) by done. rewrite Ef. cbn [mbind res_bind]. by rewrite Ew. }
  assert (Hre : regenerate_dag checked (host_load_dag (opt_DAGFileName options)) (GenerateDag native junk_ends junk_data ci junk junk_byte script_fn (opt_DAGFileName options))
    host_timestamp (host_glob_signature ci junk) w = OK (w2, Some dag)).
  { unfold regenerate_dag. rewrite Hgen. cbn [mbind res_bind negb]. unfold host_load_dag. rewrite Em, Hl.
    destruct checked; [|done].
    assert (DriverCheckDagSignatures true host_timestamp (host_glob_signature ci junk) w2 dag = OK true) as ->; [|done].
    apply check_signatures_spec; [intros _; exact (dag_guids_sorted native ci junk (h_stat w1) (dirs := h_dirs w1) root dag Hdag)|].
    exact (generated_current native ci junk w1 w2 root dag Hj Hdag Hq Hp). }
  unfold PrepareDag, DriverPrepareDag. destruct Hregen as [-> | Hnone]; [done|]. assert (host_load_dag (opt_DAGFileName options) w = None) as -> by (unfold host_load_dag; by rewrite Hnone).
  by case_match.
Qed.

(** The command line made of the arguments splits back into them, for arguments
    that are not empty and hold no quotes: exactly those with spaces are quoted. *)
Theorem command_line_splits argv : Forall (fun a => cstr_ok a /\ a <> [] /\ quote_char ∉ a) argv ->
  split_words false None (until_nul (CreateCommandLine argv)) = argv.
Proof.
  intros HF. unfold CreateCommandLine. rewrite until_nul_app.
  - apply split_args. eapply Forall_impl; [exact HF|]. naive_solver.
  - apply append_args_ok. eapply Forall_impl; [exact HF|]. naive_solver.
Qed.

Lemma command_line_splits_witness : split_words false None (until_nul (CreateCommandLine [s2l "a b"; s2l "c"; s2l "d e f"])) = [s2l "a b"; s2l "c"; s2l "d e f"].
Proof. apply command_line_splits. apply (bool_decide_eq_true_1 (Forall (fun a : cstr => cstr_ok a /\ a <> [] /\ quote_char ∉ a) _)). vm_compute. reflexivity. Defined.

(** ** A host in memory *)

Module DemoHost.
Record World : Type := mkWorld { files : list (cstr * list Z) }.
Definition find (w : World) (fn : cstr) : option (list Z) := snd <$> List.find (fun f => streq f.1 fn) (files w).
Definition store (w : World) (fn : cstr) (bytes : list Z) : World := mkWorld ((fn, bytes) :: files w).
Definition chars (s : cstr) : list Z := map (fun c => Z.of_N (N_of_ascii c)) s.
(** The front end writes the document whatever the command line; directories hold a source file and the files written. *)
Definition document_name : cstr := s2l ".tundra2.dag.json".
Definition host_of (document_name : cstr) : Host World := {|
  h_getenv _ _ := None; h_exe_path _ := s2l "/usr/bin/tundra2";
  h_remove w fn := mkWorld (filter (fun f => streq f.1 fn = false) (files w));
  h_execute w _ _ := (store w document_name (chars (take (length DemoDocument.text - 1) DemoDocument.text)), 0);
  h_stat w fn := match find w fn with Some bytes => StatOK S_IFREG 7 (zlen bytes) | None => DemoListing.stat fn end;
  h_dirs w := {| read_names _ := Some (s2l "a.c" :: map fst (files w)) |};
  h_read w fn := map byte_of <$> find w fn;
  h_map w fn := find w fn;
  h_write w fn bytes := (store w fn bytes, true) |}.
#[global] Instance host : Host World := host_of document_name.
Definition before : World := mkWorld [].
Definition after_tool : World := store before document_name (chars (take (length DemoDocument.text - 1) DemoDocument.text)).
Definition options : DriverOptions := DriverOptionsInit 4.
Definition renamed : DriverOptions :=
  mkOptions false false false false false false false false false false false false false false false false 4 None (s2l "b.dag") None.
Definition text : cstr := take (length DemoDocument.text - 1) DemoDocument.text.
Definition dag : DagData :=
  default DemoDocument.no_dag (dag_of kUnix false zeroes64 (h_stat after_tool) (dirs := h_dirs after_tool) DemoDocument.root).
End DemoHost.

Lemma demo_sizes g : CompileDag (dirs := h_dirs DemoHost.after_tool) kUnix false DemoDocument.junk_ends DemoDocument.junk_data zeroes64 77 (h_stat DemoHost.after_tool)
    DemoDocument.root new_gen = OK (Some (tt, g)) -> writer_size (g_Writer g) <= 2 ^ 30.
Proof.
  intros Eg. assert (Hs : match CompileDag (dirs := h_dirs DemoHost.after_tool) kUnix false DemoDocument.junk_ends DemoDocument.junk_data zeroes64 77
    (h_stat DemoHost.after_tool) DemoDocument.root new_gen with OK (Some (_, g)) => writer_size (g_Writer g) <= 2 ^ 30 | _ => False end) by (vm_compute; discriminate).
  by rewrite Eg in Hs.
Qed.

(** The listing of the demo gains the DAG file, which is noise. *)
Lemma demo_quiet file dag : dag_FileSignatures dag = [mkFileSig (s2l "tundra.lua") 7] -> map gsig_Path (dag_GlobSignatures dag) = [s2l "src"] ->
  quiet DemoHost.after_tool (DemoHost.store DemoHost.after_tool (s2l ".tundra2.dag") file) dag.
Proof.
  intros Ef Eg. split; [rewrite Ef; constructor; [reflexivity|constructor]|].
  destruct (dag_GlobSignatures dag) as [|s [|]]; try discriminate. injection Eg as Eg. constructor; [|constructor]. rewrite Eg. unfold same_listing. cbn [read_names h_dirs DemoHost.host DemoHost.host_of].
  split_and!.
  - apply (bool_decide_eq_true_1 (Forall cstr_ok _)). vm_compute. reflexivity.
  - reflexivity.
  - constructor; [reflexivity|constructor].
Qed.

Lemma demo_generated : dag_of kUnix false zeroes64 (h_stat DemoHost.after_tool) (dirs := h_dirs DemoHost.after_tool) DemoDocument.root = Some DemoHost.dag.
Proof. vm_compute. reflexivity. Qed.

Lemma demo_parsed : parsed (JsonParse (DemoHost.text ++ [NUL])) = Some (JObject DemoDocument.root).
Proof. vm_compute. reflexivity. Qed.

Lemma demo_tool : RunExternalTool kUnix DemoDocument.junk_ends DemoDocument.junk_data
  (s2l "generate-dag " ++ s2l "tundra.lua" ++ [space] ++ json_filename (s2l ".tundra2.dag")) (h_remove DemoHost.before (json_filename (s2l ".tundra2.dag"))) =
  OK (DemoHost.after_tool, true).
Proof. vm_compute. reflexivity. Qed.

Lemma demo_dag_facts : dag_FileSignatures DemoHost.dag = [mkFileSig (s2l "tundra.lua") 7] /\ map gsig_Path (dag_GlobSignatures DemoHost.dag) = [s2l "src"] /\
  zlen (dag_Passes DemoHost.dag) = 2.
Proof. vm_compute. auto. Qed.

Lemma regenerated_dag_accepted_witness : exists w2,
  PrepareDag kUnix DemoDocument.junk_ends DemoDocument.junk_data false zeroes64 77 true (s2l "tundra.lua") DemoHost.options DemoHost.before = OK (w2, Some DemoHost.dag).
Proof.
  destruct demo_dag_facts as (Hf & Hg & Hp).
  apply (regenerated_dag_accepted kUnix false DemoDocument.junk_ends DemoDocument.junk_data zeroes64 77 true (s2l "tundra.lua") DemoHost.options DemoHost.before DemoHost.after_tool
    S_IFREG 7 DemoHost.text DemoDocument.root DemoHost.dag ltac:(vm_compute; reflexivity) ltac:(vm_compute; reflexivity) eq_refl (or_intror eq_refl) demo_tool
    ltac:(vm_compute; reflexivity) ltac:(vm_compute; reflexivity) ltac:(vm_compute; reflexivity) demo_parsed demo_generated
    ltac:(vm_compute; discriminate) ltac:(vm_compute; reflexivity) ltac:(vm_compute; discriminate) demo_sizes).
  - rewrite Hp. vm_compute. discriminate.
  - intros file _. eexists. split; [reflexivity|]. split; [reflexivity|]. apply (demo_quiet file DemoHost.dag Hf Hg).
Defined.

(** A DAG file under another name ([-R]) in a directory the scripts look at is an
    entry of the next listing: in a checked build the check after the first
    generation fails. *)
Example renamed_dag_fails_check :
  PrepareDag (H := DemoHost.host_of (s2l "b.dag.json")) kUnix DemoDocument.junk_ends DemoDocument.junk_data false zeroes64 77 true (s2l "tundra.lua") DemoHost.renamed DemoHost.before =
  Err (CheckFailed "DriverCheckDagSignatures(self)").
Proof. vm_compute. reflexivity. Qed.
