(* ===== verification/Interpolate.v ===== *)
(** * String interpolation of the front end

    src/src/LuaInterpolate.cpp: the native routine behind [env:interpolate] of the
    build scripts. Text with [$(NAME:options)] references is expanded over the
    tables of an environment and its parents; the values are built in a
    [StringBuffer], an array of 64 characters that moves to the heap when it is
    full, and transformed in place by the options of the reference. Lua tables
    are functions and lists; the interpreter's stack is not modelled. *)

From S2P Require Import Prelude CType CommonFns Buffers Hash JsonParse PathUtil DagGenerator.

(** ** StringBuffer *)

Definition kInternalBufferSize : Z := 64.

(** [m_Buffer] has the size [sb_Size] and the length of [sb_Storage] as capacity. *)
Record StringBuffer : Type := mkSB { sb_InternalBufferUsed : Z; sb_InternalBuffer : cstr; sb_Size : Z; sb_Storage : cstr }.

Section Buffer.
(** What the stack and fresh heap memory hold. *)
Context (junk_internal : cstr) (junk_char : ascii).

Definition StringBufferInit : StringBuffer := mkSB 0 junk_internal 0 [].

(** [BufferAlloc(&m_Buffer, m_Heap, count)] *)
Definition buffer_alloc (b : StringBuffer) (count : Z) : StringBuffer :=
  let capacity := BufferAlloc_capacity (zlen (sb_Storage b)) (sb_Size b) count in
  mkSB (sb_InternalBufferUsed b) (sb_InternalBuffer b) (sb_Size b + count)
    (sb_Storage b ++ replicate (Z.to_nat (capacity - zlen (sb_Storage b))) junk_char).

Definition GetSize (b : StringBuffer) : Z := if negb (sb_Size b =? 0) then sb_Size b else sb_InternalBufferUsed b.
Definition GetBuffer (b : StringBuffer) : cstr := if negb (sb_Size b =? 0) then sb_Storage b else sb_InternalBuffer b.

Definition set_buffer (b : StringBuffer) (data : cstr) : StringBuffer :=
  if negb (sb_Size b =? 0) then mkSB (sb_InternalBufferUsed b) (sb_InternalBuffer b) (sb_Size b) data
  else mkSB (sb_InternalBufferUsed b) data (sb_Size b) (sb_Storage b).

(** [memcpy] and [memmove] to an offset of the current array. *)
Definition poke (b : StringBuffer) (off : Z) (data : cstr) : res StringBuffer :=
  d ← copy_into (GetBuffer b) off data; OK (set_buffer b d).

(** The buffer and the offset, in its current array, of the room made. *)
Definition Grow (b : StringBuffer) (len : Z) : res (StringBuffer * Z) :=
  if negb (sb_Size b =? 0) then OK (buffer_alloc b len, sb_Size b)
  else if len + sb_InternalBufferUsed b <=? kInternalBufferSize then
    let offset := sb_InternalBufferUsed b in
    OK (mkSB (sb_InternalBufferUsed b + len) (sb_InternalBuffer b) (sb_Size b) (sb_Storage b), offset)
  else
    let used := bytes_at (sb_InternalBuffer b) 0 (sb_InternalBufferUsed b) in
    let b := buffer_alloc b (sb_InternalBufferUsed b) in
    storage ← copy_into (sb_Storage b) 0 used;
    let b := mkSB (sb_InternalBufferUsed b) (sb_InternalBuffer b) (sb_Size b) storage in
    OK (buffer_alloc b len, sb_Size b).

Definition Add (b : StringBuffer) (data : cstr) : res StringBuffer :=
  '(b, dest) ← Grow b (zlen data);
  poke b dest data.

Definition Shrink (b : StringBuffer) (size : Z) : res StringBuffer :=
  _ ← check (size <=? GetSize b) "size <= GetSize()";
  if negb (sb_Size b =? 0) then OK (mkSB (sb_InternalBufferUsed b) (sb_InternalBuffer b) size (sb_Storage b))
  else
    _ ← check (size <=? kInternalBufferSize) "size <= kInternalBufferSize";
    OK (mkSB size (sb_InternalBuffer b) (sb_Size b) (sb_Storage b)).

Definition NullTerminate (b : StringBuffer) : res StringBuffer := Add b [NUL].

(** ** Transformations *)

Definition Prepend (b : StringBuffer) (data : cstr) : res StringBuffer :=
  '(b, _) ← Grow b (zlen data);
  let buffer := GetBuffer b in
  let buflen := GetSize b in
  b ← poke b (zlen data) (bytes_at buffer 0 (buflen - zlen data));
  poke b 0 data.

Definition Append : StringBuffer -> cstr -> res StringBuffer := Add.

Definition PrependUnless (b : StringBuffer) (data : cstr) : res StringBuffer :=
  if (GetSize b <? zlen data) || negb (bool_decide (bytes_at (GetBuffer b) 0 (zlen data) = data)) then Prepend b data else OK b.

Definition AppendUnless (b : StringBuffer) (data : cstr) : res StringBuffer :=
  let len := GetSize b in
  let buf := GetBuffer b in
  if (len <? zlen data) || negb (bool_decide (bytes_at buf (len - zlen data) (zlen data) = data)) then Append b data else OK b.

(** A loop that replaces every character. *)
Definition each_char (f : ascii -> ascii) (b : StringBuffer) : res StringBuffer :=
  poke b 0 (map f (bytes_at (GetBuffer b) 0 (GetSize b))).

Definition to_forward (c : ascii) : ascii := if Ascii.eqb c backslash then slash else c.
Definition to_back (c : ascii) : ascii := if Ascii.eqb c slash then backslash else c.
Definition toupper_char (c : ascii) : ascii := if islower c then byte_of (uchar c - 32) else c.
Definition tolower_char (c : ascii) : ascii := byte_of (tolower c).

Definition ToForwardSlashes : StringBuffer -> res StringBuffer := each_char to_forward.
Definition ToBackSlashes : StringBuffer -> res StringBuffer := each_char to_back.
Definition ToUppercase : StringBuffer -> res StringBuffer := each_char toupper_char.
Definition ToLowercase : StringBuffer -> res StringBuffer := each_char tolower_char.

(** [for (int i = n - 1; i >= 0; --i) if (p(buf[i]))]: the index where it stops. *)
Fixpoint last_index (p : ascii -> bool) (n : nat) (buf : cstr) : res (option Z) :=
  match n with
  | O => OK None
  | S i => c ← of_opt (buf !! i); if p c then OK (Some (Z.of_nat i)) else last_index p i buf
  end.

Definition is_dot (c : ascii) : bool := Ascii.eqb c "."%char.
Definition is_separator (c : ascii) : bool := Ascii.eqb c slash || Ascii.eqb c backslash.

Definition DropSuffix (b : StringBuffer) : res StringBuffer :=
  i ← last_index is_dot (Z.to_nat (i32 (GetSize b))) (GetBuffer b);
  match i with Some i => Shrink b i | None => OK b end.

Definition GetFilename (b : StringBuffer) : res StringBuffer :=
  let len := GetSize b in
  i ← last_index is_separator (Z.to_nat (i32 len)) (GetBuffer b);
  match i with
  | Some i =>
      let target_len := i32 (len - i - 1) in
      b ← poke b 0 (bytes_at (GetBuffer b) (i + 1) target_len);
      Shrink b target_len
  | None => OK b
  end.

Definition GetFilenameDir (b : StringBuffer) : res StringBuffer :=
  i ← last_index is_separator (Z.to_nat (i32 (GetSize b))) (GetBuffer b);
  match i with Some i => Shrink b i | None => OK b end.

(** The loop that doubles backslashes, [n] characters from [r] on written from [w] on. *)
Fixpoint double_loop (n : nat) (data : cstr) (r w : Z) : res cstr :=
  match n with
  | O => OK data
  | S n =>
      ch ← of_opt (data !!z r);
      data ← zwrite w ch data;
      if Ascii.eqb ch backslash then
        data ← zwrite (w + 1) backslash data;
        double_loop n data (r + 1) (w + 2)
      else double_loop n data (r + 1) (w + 1)
  end.

Definition count_char (c : ascii) (s : cstr) : Z := zlen (filter (fun x => x = c) s).

Definition drop_trailing_backslash (b : StringBuffer) : res StringBuffer :=
  let len := GetSize b in
  if 0 <? len then
    c ← of_opt (GetBuffer b !!z (len - 1));
    if Ascii.eqb c backslash then Shrink b (len - 1) else OK b
  else OK b.

Definition PrepQuoteCommon (b : StringBuffer) : res StringBuffer :=
  b ← drop_trailing_backslash b;
  let bs_count := count_char backslash (bytes_at (GetBuffer b) 0 (GetSize b)) in
  if 0 <? bs_count then
    let orig_len := GetSize b in
    '(b, _) ← Grow b bs_count;
    b ← poke b bs_count (bytes_at (GetBuffer b) 0 orig_len);
    data ← double_loop (Z.to_nat orig_len) (GetBuffer b) bs_count 0;
    OK (set_buffer b data)
  else OK b.

Definition dquote : ascii := ascii_of_N 34.

Definition Quote (b : StringBuffer) : res StringBuffer :=
  let data := GetBuffer b in
  let orig_len := GetSize b in
  if (0 <? orig_len) && Ascii.eqb (char_at data 0) dquote && Ascii.eqb (char_at data (Z.to_nat (orig_len - 1))) dquote then
    if (1 <? orig_len) && Ascii.eqb (char_at data (Z.to_nat (orig_len - 2))) backslash then
      b ← Shrink b (orig_len - 1);
      let len := orig_len - 1 in
      poke b (len - 1) [dquote]
    else OK b
  else
    b ← PrepQuoteCommon b;
    b ← Prepend b [dquote];
    Append b [dquote].

Definition EscapeForCmdlineDefine (b : StringBuffer) : res StringBuffer :=
  b ← PrepQuoteCommon b;
  b ← Prepend b [backslash; dquote];
  Append b [backslash; dquote].
End Buffer.

(** ** Lua tables *)

(** A value; the array part of a table; [None] is an element that is not a string. *)

Inductive lua_value : Type :=
| LNil
| LString (s : cstr)
| LTable (elems : list (option cstr))
| LOther.

(** The table of per-call variables, when there is one, and the [vars] tables of
    the environment and its parents. *)
Record LuaEnvLookup : Type := mkLookup { lk_Vars : option (cstr -> lua_value); lk_Envs : list (cstr -> lua_value) }.

Fixpoint walk_envs (envs : list (cstr -> lua_value)) (key : cstr) : res (list (option cstr)) :=
  match envs with
  | [] => Err (LuaError "No key present in environment")
  | vars :: envs' =>
      match vars key with
      | LNil => walk_envs envs' key
      | LTable l => OK l
      | _ => Err (LuaError "table expected")
      end
  end.

(** The elements of the value found. *)
Definition LuaEnvLookupScope (lookup : LuaEnvLookup) (key : cstr) : res (list (option cstr)) :=
  match lk_Vars lookup with
  | Some vars =>
      match vars key with
      | LNil => walk_envs (lk_Envs lookup) key
      | LTable l => OK l
      | LString s => OK [Some s]
      | LOther => OK [None]
      end
  | None => walk_envs (lk_Envs lookup) key
  end.

Definition GetValue (elems : list (option cstr)) (index : Z) : option cstr :=
  match elems !!z index with Some (Some s) => Some s | _ => None end.

(** ** Options *)

(** A backslash before a colon is dropped. *)
Fixpoint UnescapeOption (p : cstr) : cstr :=
  match p with
  | c :: rest =>
      if Ascii.eqb c backslash then
        match rest with
        | d :: rest' => if Ascii.eqb d ":"%char then ":"%char :: UnescapeOption rest' else c :: UnescapeOption rest
        | [] => [c]
        end
      else c :: UnescapeOption rest
  | [] => []
  end.

Definition kMaxOptions : nat := 10.

(** Cut at colons that have no backslash before them; [prev] is the character
    before [s], none at the start of the array. *)
Fixpoint cut_options (prev : option ascii) (s : cstr) : res (cstr * list cstr) :=
  match s with
  | [] => OK ([], [])
  | c :: s' =>
      if Ascii.eqb c ":"%char then
        match prev with
        | None => Err OutOfBounds
        | Some p =>
            '(piece, pieces) ← cut_options (Some c) s';
            if Ascii.eqb p backslash then OK (c :: piece, pieces) else OK ([], piece :: pieces)
        end
      else
        '(piece, pieces) ← cut_options (Some c) s';
        OK (c :: piece, pieces)
  end.

(** [atoi]; the result is undefined when it does not fit. *)
Definition atoi (s : cstr) : res Z :=
  let '(_, s) := span isspace s in
  let '(sign, s) :=
    match s with
    | c :: s' => if Ascii.eqb c "-"%char then (-1, s') else if Ascii.eqb c "+"%char then (1, s') else (1, s)
    | [] => (1, s)
    end in
  let n := sign * foldl (fun n c => 10 * n + (uchar c - 48)) 0 (span isdigit s).1 in
  if (- 2 ^ 31 <=? n) && (n <? 2 ^ 31) then OK n else Err (Undefined "atoi").

Record selection : Type := mkSel { sel_Join : cstr; sel_First : Z; sel_Max : Z }.

(** The first loop over the options; [None] is [return false]. *)
Fixpoint select_items (count : Z) (sel : selection) (options : list cstr) : res (option selection) :=
  match options with
  | [] => OK (Some sel)
  | option :: options' =>
      if Ascii.eqb (char_at option 0) "j"%char then select_items count (mkSel (drop 1 option) (sel_First sel) (sel_Max sel)) options'
      else if Ascii.eqb (char_at option 0) "["%char then
        n ← atoi (drop 1 option);
        let first_index := u64 (n - 1) in
        let max_index := u64 (first_index + 1) in
        if count <=? first_index then OK None else select_items count (mkSel (sel_Join sel) first_index max_index) options'
      else select_items count sel options'
  end.

(** ** Interpolation *)

(** What is between the parentheses and what follows them. *)
Fixpoint FindEndParen (nesting : Z) (str : cstr) : option (cstr * cstr) :=
  match str with
  | [] => None
  | c :: str' =>
      if Ascii.eqb c ")"%char && (nesting =? 1) then Some ([], str') else
      let nesting := if Ascii.eqb c "("%char then nesting + 1 else if Ascii.eqb c ")"%char then nesting - 1 else nesting in
      match FindEndParen nesting str' with
      | Some (inside, rest) => Some (c :: inside, rest)
      | None => None
      end
  end.

(** [$(] starts a reference; without a table of variables [$(<)] and [$(@)] stay. *)
Definition starts_reference (has_vars : bool) (str : cstr) : bool :=
  Ascii.eqb (char_at str 0) "("%char && (has_vars || (negb (Ascii.eqb (char_at str 1) "<"%char) && negb (Ascii.eqb (char_at str 1) "@"%char))).

Section Interpolate.
Context (junk_internal : cstr) (junk_char : ascii) (windows : bool).

(** The second switch; [None] is [return false]. *)
Definition apply_option (item : StringBuffer) (opt : cstr) : res (option StringBuffer) :=
  let c := char_at opt 0 in
  let arg := drop 1 opt in
  let done r := item ← r; OK (Some item) in
  let on x := Ascii.eqb c x in
  if on "p"%char then done (Prepend junk_char item arg)
  else if on "a"%char then done (Append junk_char item arg)
  else if on "P"%char then done (PrependUnless junk_char item arg)
  else if on "A"%char then done (AppendUnless junk_char item arg)
  else if on "f"%char then done (ToForwardSlashes item)
  else if on "b"%char then done (ToBackSlashes item)
  else if on "n"%char then done (if windows then ToBackSlashes item else ToForwardSlashes item)
  else if on "u"%char then done (ToUppercase item)
  else if on "l"%char then done (ToLowercase item)
  else if on "B"%char then done (DropSuffix item)
  else if on "F"%char then done (GetFilename item)
  else if on "D"%char then done (GetFilenameDir item)
  else if on "q"%char then done (Quote junk_char item)
  else if on "#"%char then done (EscapeForCmdlineDefine junk_char item)
  else if on "["%char || on "j"%char then OK (Some item)
  else OK None.

Fixpoint apply_options (item : StringBuffer) (options : list cstr) : res (option StringBuffer) :=
  match options with
  | [] => OK (Some item)
  | option :: options' =>
      r ← apply_option item option;
      match r with Some item => apply_options item options' | None => OK None end
  end.

(** [interp] is [DoInterpolate]. *)
Section Var.
Context (interp : StringBuffer -> cstr -> res (option StringBuffer)).

(** The loop over items: [n] of them from [i] on. *)
Fixpoint items_loop (n : nat) (elems : list (option cstr)) (options : list cstr) (join_string : cstr) (first_index i : Z) (output : StringBuffer)
    : res (option StringBuffer) :=
  match n with
  | O => OK (Some output)
  | S n =>
      match GetValue elems i with
      | None => OK None
      | Some item_text =>
          r ← interp (StringBufferInit junk_internal) item_text;
          match r with
          | None => OK None
          | Some item =>
              r ← apply_options item options;
              match r with
              | None => OK None
              | Some item =>
                  output ← if first_index <? i then Add junk_char output join_string else OK output;
                  output ← Add junk_char output (bytes_at (GetBuffer item) 0 (GetSize item));
                  items_loop n elems options join_string first_index (i + 1) output
              end
          end
      end
  end.

Definition InterpolateVar (lookup : LuaEnvLookup) (output : StringBuffer) (str : cstr) : res (option StringBuffer) :=
  r ← interp (StringBufferInit junk_internal) str;
  match r with
  | None => OK None
  | Some var_name =>
      var_name ← NullTerminate junk_char var_name;
      let data := until_nul (bytes_at (GetBuffer var_name) 0 (GetSize var_name)) in
      '(key, options) ← cut_options None data;
      if (kMaxOptions <? length options)%nat then OK None else
      let options := map UnescapeOption options in
      elems ← LuaEnvLookupScope lookup key;
      sel ← select_items (zlen elems) (mkSel [" "%char] 0 (zlen elems)) options;
      match sel with
      | None => OK None
      | Some sel =>
          items_loop (Z.to_nat (sel_Max sel - sel_First sel)) elems options (sel_Join sel) (sel_First sel) (sel_First sel) output
      end
  end.
End Var.

Fixpoint DoInterpolate (fuel : nat) (lookup : LuaEnvLookup) (output : StringBuffer) (str : cstr) {struct fuel} : res (option StringBuffer) :=
  match fuel with
  | O => Err OutOfFuel
  | S fuel =>
      match str with
      | [] => OK (Some output)
      | ch :: str =>
          if Ascii.eqb ch "$"%char && starts_reference (bool_decide (is_Some (lk_Vars lookup))) str then
            match FindEndParen 1 (drop 1 str) with
            | None => OK None
            | Some (inside, rest) =>
                r ← InterpolateVar (DoInterpolate fuel lookup) lookup output inside;
                match r with
                | None => OK None
                | Some output => DoInterpolate fuel lookup output rest
                end
            end
          else
            output ← Add junk_char output [ch];
            DoInterpolate fuel lookup output str
      end
  end.

(** The string pushed on the stack. *)
Definition LuaInterpolate (fuel : nat) (lookup : LuaEnvLookup) (input : cstr) : res cstr :=
  r ← DoInterpolate fuel lookup (StringBufferInit junk_internal) input;
  match r with
  | Some output => OK (bytes_at (GetBuffer output) 0 (GetSize output))
  | None => Err (LuaError "interpolation failed")
  end.
End Interpolate.
