(* ===== verification/InterpolateThms.v ===== *)
(** * Interpolation: the buffer and the text it stands for

    A reference for src/src/LuaInterpolate.cpp on plain strings, the proof that
    the [StringBuffer] code computes it, and when interpolation ends. The
    reference keeps one bit beside a text: whether it has ever been longer than
    the internal array, because emptying a text that has been brings an old
    prefix of it back. *)

From S2P Require Import Prelude CType CommonFns Buffers Hash JsonParse PathUtil DagGenerator Interpolate.

(** ** Reference *)

Record text : Type := mkText { t_spilled : bool; t_str : cstr }.

Definition grown (sp : bool) (s : cstr) : text := mkText (sp || (kInternalBufferSize <? zlen s)) s.

(** A text made shorter, where that is what the code does. *)
Definition shorter (sp : bool) (s : cstr) : res text :=
  if sp && bool_decide (s = []) then Err (Undefined "an emptied buffer shows its first characters again") else OK (mkText sp s).

(** Before and after the last character of a kind. *)
Fixpoint rsplit (p : ascii -> bool) (s : cstr) : option (cstr * cstr) :=
  match s with
  | [] => None
  | c :: s' =>
      match rsplit p s' with
      | Some (a, b) => Some (c :: a, b)
      | None => if p c then Some ([], s') else None
      end
  end.

Definition double_backslashes (s : cstr) : cstr := concat (map (fun c => if Ascii.eqb c backslash then [c; c] else [c]) s).

Definition has_prefix (d s : cstr) : bool := bool_decide (take (length d) s = d).
Definition has_suffix (d s : cstr) : bool := bool_decide (drop (length s - length d) s = d).

Definition last_char (s : cstr) : ascii := default NUL (last s).

(** Without a backslash at the end, and the others doubled. *)
Definition ref_prep (t : text) : res text :=
  let s := t_str t in
  t ← if Ascii.eqb (last_char s) backslash then shorter (t_spilled t) (take (length s - 1) s) else OK t;
  OK (grown (t_spilled t) (double_backslashes (t_str t))).

Definition ref_around (d : cstr) (t : text) : res text :=
  t ← ref_prep t;
  OK (grown (t_spilled t) (d ++ t_str t ++ d)).

Definition ref_quote (t : text) : res text :=
  let s := t_str t in
  if has_prefix [dquote] s && has_suffix [dquote] s then
    if (1 <? zlen s) && Ascii.eqb (char_at s (length s - 2)) backslash then OK (mkText (t_spilled t) (take (length s - 2) s ++ [dquote])) else OK t
  else ref_around [dquote] t.

Definition ref_cut (p : ascii -> bool) (keep : cstr * cstr -> cstr) (t : text) : res text :=
  if zlen (t_str t) <? 2 ^ 31 then
    match rsplit p (t_str t) with Some ab => shorter (t_spilled t) (keep ab) | None => OK t end
  else Err (Undefined "length that does not fit an int").

Definition ref_map (f : ascii -> ascii) (t : text) : res text := OK (mkText (t_spilled t) (map f (t_str t))).

(** *** The syntax of references *)

(** [$(] starts a reference; without per-call variables [$(<)] and [$(@)] do not. *)
Definition opens (has_vars : bool) (str : cstr) : bool :=
  has_prefix (s2l "(") str && (has_vars || negb (has_prefix (s2l "(<") str || has_prefix (s2l "(@") str)).

Definition occurrences (c : ascii) (s : cstr) : Z := zlen (filter (fun x => x = c) s).

(** The closing parenthesis is the first before which none is left open. *)
Fixpoint close_paren (before str : cstr) : option (cstr * cstr) :=
  match str with
  | [] => None
  | c :: str' =>
      if bool_decide (c = ")"%char /\ occurrences "("%char before = occurrences ")"%char before) then Some (before, str')
      else close_paren (before ++ [c]) str'
  end.

(** Pieces between colons; one that ends in a backslash and the next one are
    one piece, with the colon in it, and [f] is done to the first. *)
Fixpoint glue (f : cstr -> cstr) (pieces : list cstr) : list cstr :=
  match pieces with
  | [] => []
  | p :: pieces' =>
      match glue f pieces' with
      | [] => [p]
      | q :: qs => if bool_decide (last p = Some backslash) then (f p ++ ":"%char :: q) :: qs else p :: q :: qs
      end
  end.

(** A name keeps the backslash, an option does not. *)
Definition ref_name (s : cstr) : cstr := hd [] (glue id (split_on ":"%char s)).
Definition ref_opts (s : cstr) : list cstr := tail (glue (@List.removelast ascii) (split_on ":"%char s)).

(** *** What a reference stands for *)

(** A per-call variable, or that of the innermost environment that has it. *)
Definition elements (lookup : LuaEnvLookup) (key : cstr) : res (list (option cstr)) :=
  let of_call v := match v with LNil => None | LTable l => Some (OK l) | LString s => Some (OK [Some s]) | LOther => Some (OK [None]) end in
  let of_env v := match v with LNil => None | LTable l => Some (OK l) | _ => Some (Err (LuaError "table expected")) end in
  let found := omap (fun vars => of_call (vars key)) (option_list (lk_Vars lookup)) ++ omap (fun vars => of_env (vars key)) (lk_Envs lookup) in
  default (Err (LuaError "No key present in environment")) (head found).

(** The arguments of the options of a kind, and of those the numbers. *)
Definition arguments (kind : ascii) (options : list cstr) : list cstr :=
  omap (fun o => match o with c :: arg => if bool_decide (c = kind) then Some arg else None | [] => None end) options.

Fixpoint numbers (args : list cstr) : res (list Z) :=
  match args with
  | [] => OK []
  | arg :: args' => n ← atoi arg; ns ← numbers args'; OK (n :: ns)
  end.

(** Between the items, the last [j] option or a space. *)
Definition ref_join (options : list cstr) : cstr := default (s2l " ") (last (arguments "j"%char options)).

(** All the items, or the one the last index option names, from 1 on; every index has to be one. *)
Definition ref_selected (elems : list (option cstr)) (options : list cstr) : res (option (list (option cstr))) :=
  if 2 ^ 63 <=? zlen elems then Err (Undefined "index that does not fit") else
  ns ← numbers (arguments "["%char options);
  if bool_decide (Forall (fun n => 1 <= n <= zlen elems) ns)
  then OK (Some (match last ns with Some n => option_list (elems !!z (n - 1)) | None => elems end))
  else OK None.

Section Reference.
Context (windows : bool).

Definition ref_option (t : text) (opt : cstr) : res (option text) :=
  let c := char_at opt 0 in
  let arg := drop 1 opt in
  let s := t_str t in
  let done r := t ← r; OK (Some t) in
  let on x := Ascii.eqb c x in
  if on "p"%char then done (OK (grown (t_spilled t) (arg ++ s)))
  else if on "a"%char then done (OK (grown (t_spilled t) (s ++ arg)))
  else if on "P"%char then done (OK (if has_prefix arg s then t else grown (t_spilled t) (arg ++ s)))
  else if on "A"%char then done (OK (if has_suffix arg s then t else grown (t_spilled t) (s ++ arg)))
  else if on "f"%char then done (ref_map to_forward t)
  else if on "b"%char then done (ref_map to_back t)
  else if on "n"%char then done (if windows then ref_map to_back t else ref_map to_forward t)
  else if on "u"%char then done (ref_map toupper_char t)
  else if on "l"%char then done (ref_map tolower_char t)
  else if on "B"%char then done (ref_cut is_dot fst t)
  else if on "F"%char then done (ref_cut is_separator snd t)
  else if on "D"%char then done (ref_cut is_separator fst t)
  else if on "q"%char then done (ref_quote t)
  else if on "#"%char then done (ref_around [backslash; dquote] t)
  else if on "["%char || on "j"%char then OK (Some t)
  else OK None.

Fixpoint ref_options (t : text) (options : list cstr) : res (option text) :=
  match options with
  | [] => OK (Some t)
  | option :: options' =>
      r ← ref_option t option;
      match r with Some t => ref_options t options' | None => OK None end
  end.

Section RefVar.
Context (interp : cstr -> res (option text)).

(** The items one after the other, with the join string between them. *)
Fixpoint ref_items (items : list (option cstr)) (options : list cstr) (join : cstr) (first : bool) : res (option cstr) :=
  match items with
  | [] => OK (Some [])
  | None :: _ => OK None
  | Some item :: items' =>
      r ← interp item;
      match r with
      | None => OK None
      | Some t =>
          r ← ref_options t options;
          match r with
          | None => OK None
          | Some t =>
              r ← ref_items items' options join false;
              match r with
              | None => OK None
              | Some s => OK (Some ((if first then [] else join) ++ t_str t ++ s))
              end
          end
      end
  end.

Definition ref_var (lookup : LuaEnvLookup) (str : cstr) : res (option cstr) :=
  r ← interp str;
  match r with
  | None => OK None
  | Some t =>
      let s := until_nul (t_str t) in
      if has_prefix (s2l ":") s then Err OutOfBounds else
      if 10 <? zlen (ref_opts s) then OK None else
      elems ← elements lookup (ref_name s);
      items ← ref_selected elems (ref_opts s);
      match items with
      | None => OK None
      | Some items => ref_items items (ref_opts s) (ref_join (ref_opts s)) true
      end
  end.
End RefVar.

(** The expansion of a string. *)
Fixpoint expand (fuel : nat) (lookup : LuaEnvLookup) (str : cstr) {struct fuel} : res (option cstr) :=
  match fuel with
  | O => Err OutOfFuel
  | S fuel =>
      match str with
      | [] => OK (Some [])
      | ch :: str =>
          if Ascii.eqb ch "$"%char && opens (bool_decide (is_Some (lk_Vars lookup))) str then
            match close_paren [] (drop 1 str) with
            | None => OK None
            | Some (inside, rest) =>
                r ← ref_var (fun s => r ← expand fuel lookup s; OK (option_map (grown false) r)) lookup inside;
                match r with
                | None => OK None
                | Some a => r ← expand fuel lookup rest; OK (option_map (app a) r)
                end
            end
          else r ← expand fuel lookup str; OK (option_map (cons ch) r)
      end
  end.
End Reference.

(** ** What a buffer holds *)

Definition holds (b : StringBuffer) (sp : bool) (s rest : cstr) : Prop :=
  zlen (sb_InternalBuffer b) = kInternalBufferSize /\ 0 <= sb_Size b /\ GetBuffer b = s ++ rest /\ GetSize b = zlen s /\ negb (sb_Size b =? 0) = sp.

Definition sb_repr (b : StringBuffer) (t : text) : Prop := exists rest, holds b (t_spilled t) (t_str t) rest.

Lemma bytes_front s rest : bytes_at (s ++ rest) 0 (zlen s) = s.
Proof. unfold bytes_at. rewrite Nat2Z.id. change (drop (Z.to_nat 0) ?l) with l. by rewrite take_app_length. Qed.

Lemma bytes_middle a s rest : bytes_at (a ++ s ++ rest) (zlen a) (zlen s) = s.
Proof. unfold bytes_at. by rewrite !Nat2Z.id, drop_app_length, take_app_length. Qed.

Lemma copy_into_middle x y z d : zlen d = zlen y -> copy_into (x ++ y ++ z) (zlen x) d = OK (x ++ d ++ z).
Proof.
  intros Hd. unfold copy_into. rewrite (proj2 (Z.leb_le _ _)) by (rewrite !length_app; lia).
  rewrite Nat2Z.id, take_app_length. do 3 f_equal. replace (length x + length d)%nat with (length (x ++ y)) by (rewrite length_app; lia).
  by rewrite app_assoc, drop_app_length.
Qed.

(** The same buffer with other contents of the same length. *)
Lemma holds_set b sp s rest d : holds b sp s rest -> zlen d = zlen (s ++ rest) -> 
  GetBuffer (set_buffer b d) = d /\ GetSize (set_buffer b d) = zlen s /\ sb_Size (set_buffer b d) = sb_Size b /\ zlen (sb_InternalBuffer (set_buffer b d)) = kInternalBufferSize.
Proof.
  intros (Hi & Hn & Hb & Hs & Hsp) Hd. unfold GetBuffer, GetSize, set_buffer in *. destruct (sb_Size b =? 0) eqn:E; cbn in *; rewrite ?E; cbn; [|done].
  rewrite Hd, <- Hb. done.
Qed.

Lemma poke_holds b sp x y z rest d : holds b sp (x ++ y ++ z) rest -> zlen d = zlen y -> exists b', poke b (zlen x) d = OK b' /\ holds b' sp (x ++ d ++ z) rest.
Proof.
  intros Hh Hd. pose proof Hh as (Hi & Hn & Hb & Hs & Hsp). unfold poke. rewrite Hb, <- !app_assoc, copy_into_middle by done. cbn [mbind res_bind]. eexists. split; [done|].
  destruct (holds_set b sp _ _ (x ++ d ++ z ++ rest) Hh) as (G1 & G2 & G3 & G4); [rewrite !length_app; lia|].
  split_and!; [done|by rewrite G3|by rewrite G1, <- !app_assoc|rewrite G2, !length_app; lia|by rewrite G3].
Qed.

Section Ops.
Context (junk_char : ascii).

Lemma capacity_enough cap old count : old + count <= BufferAlloc_capacity cap old count /\ cap <= BufferAlloc_capacity cap old count \/ cap < 0.
Proof. unfold BufferAlloc_capacity. repeat case_match; lia. Qed.

(** Room for more in a buffer on the heap. *)
Lemma alloc_room b s rest len : 0 <= len -> sb_Storage b = s ++ rest -> sb_Size b = zlen s ->
  exists mid rest', sb_Storage (buffer_alloc junk_char b len) = s ++ mid ++ rest' /\ zlen mid = len.
Proof.
  intros Hl Hb Hs. unfold buffer_alloc. cbn [sb_Storage]. destruct (capacity_enough (zlen (sb_Storage b)) (sb_Size b) len) as [[H1 H2]|]; [|lia].
  set (cap := BufferAlloc_capacity _ _ _) in *. set (more := replicate _ _).
  exists (take (Z.to_nat len) (rest ++ more)), (drop (Z.to_nat len) (rest ++ more)). rewrite take_drop, Hb, <- app_assoc. split; [done|].
  rewrite length_take, length_app. unfold more. rewrite length_replicate. rewrite Hb, length_app in *. lia.
Qed.

Lemma grow_holds b sp s rest len : holds b sp s rest -> 0 <= len ->
  exists b' mid rest', Grow junk_char b len = OK (b', zlen s) /\ zlen mid = len /\ holds b' (sp || (kInternalBufferSize <? zlen s + len)) (s ++ mid) rest'.
Proof.
  intros (Hi & Hn & Hb & Hs & Hsp) Hl. unfold Grow, GetBuffer, GetSize in *. destruct (Z.eqb_spec (sb_Size b) 0) as [E|E]; cbn [negb] in *; subst sp; cbn [orb].
  - destruct (Z.leb_spec (len + sb_InternalBufferUsed b) kInternalBufferSize) as [Hf|Hf].
    + exists (mkSB (sb_InternalBufferUsed b + len) (sb_InternalBuffer b) (sb_Size b) (sb_Storage b)), (take (Z.to_nat len) rest), (drop (Z.to_nat len) rest).
      rewrite Hs. rewrite Hb, length_app in Hi. split_and!; [done|rewrite length_take; lia|]. rewrite (proj2 (Z.ltb_ge _ _)) by lia. unfold holds, GetBuffer, GetSize. cbn. rewrite E. cbn.
      rewrite <- app_assoc, take_drop. split_and!; try done; rewrite ?Hb, ?length_app, ?length_take; lia.
    + rewrite Hb, Hs, bytes_front. destruct (alloc_room b [] (sb_Storage b) (zlen s)) as (mid & rest1 & Em & Hm); [lia|done|done|].
      pose proof (copy_into_middle [] mid rest1 s ltac:(lia)) as Ec. cbn [app length] in Ec, Em. change (Z.of_nat 0) with 0 in Ec.
      rewrite Em, Ec. cbn [mbind res_bind]. set (b1 := mkSB _ _ _ _).
      destruct (alloc_room b1 s rest1 len) as (mid' & rest' & Em' & Hm'); [lia|done|unfold b1; cbn [buffer_alloc sb_Size]; lia|].
      exists (buffer_alloc junk_char b1 len), mid', rest'. assert (Hz : sb_Size (buffer_alloc junk_char b1 len) = zlen s + len) by (cbn; lia).
      assert (Hz1 : sb_Size b1 = zlen s) by (cbn; lia). rewrite Hz1. split_and!; [done|done|]. rewrite (proj2 (Z.ltb_lt _ _)) by lia.
      assert (Hne : (sb_Size (buffer_alloc junk_char b1 len) =? 0) = false) by (apply Z.eqb_neq; unfold kInternalBufferSize in *; lia).
      unfold holds, GetBuffer, GetSize. rewrite Hne. cbn [negb]. rewrite Em', <- app_assoc. split_and!; [exact Hi|rewrite Hz; lia|done|rewrite Hz, length_app; lia|done].
  - destruct (alloc_room b s rest len Hl Hb Hs) as (mid & rest' & Em & Hm). exists (buffer_alloc junk_char b len), mid, rest'. rewrite Hs. split_and!; [done|done|].
    unfold holds, GetBuffer, GetSize. rewrite Em. cbn [buffer_alloc sb_Size sb_InternalBuffer]. rewrite (proj2 (Z.eqb_neq _ 0)) by lia. cbn [negb].
    rewrite <- app_assoc. split_and!; try done; [lia|rewrite length_app; lia].
Qed.

Lemma holds_short b s rest : holds b false s rest -> zlen (s ++ rest) = kInternalBufferSize /\ zlen s <= kInternalBufferSize.
Proof.
  intros (Hi & _ & Hb & Hs & Hsp). unfold GetBuffer in Hb. rewrite Hsp in Hb. rewrite <- Hb. split; [done|]. rewrite Hb, length_app in Hi. lia.
Qed.

(** [grown] says nothing new of what a buffer holds. *)
Lemma grown_repr b sp s : sb_repr b (mkText sp s) -> sb_repr b (grown sp s).
Proof.
  intros [rest Hh]. exists rest. unfold grown. cbn in *. destruct sp; [done|]. destruct (holds_short _ _ _ Hh) as [_ Hl]. by rewrite (proj2 (Z.ltb_ge _ _)).
Qed.

Lemma Add_repr b t d : sb_repr b t -> exists b', Add junk_char b d = OK b' /\ sb_repr b' (grown (t_spilled t) (t_str t ++ d)).
Proof.
  intros [rest Hh]. destruct (grow_holds b _ _ _ (zlen d) Hh) as (b1 & mid & rest1 & E & Hm & H1); [lia|]. unfold Add. rewrite E. cbn [mbind res_bind].
  rewrite <- (app_nil_r mid) in H1. destruct (poke_holds b1 _ _ _ _ _ d H1) as (b2 & -> & H2); [lia|]. exists b2. split; [done|]. exists rest1.
  unfold grown. cbn. by rewrite app_nil_r, length_app, Nat2Z.inj_add in *.
Qed.

Lemma Prepend_repr b t d : sb_repr b t -> exists b', Prepend junk_char b d = OK b' /\ sb_repr b' (grown (t_spilled t) (d ++ t_str t)).
Proof.
  intros [rest Hh]. set (s := t_str t) in *. destruct (grow_holds b _ _ _ (zlen d) Hh) as (b1 & mid & rest1 & E & Hm & H1); [lia|]. unfold Prepend. rewrite E. cbn [mbind res_bind].
  pose proof H1 as (_ & _ & Hb & Hs & _). rewrite Hb, Hs. replace (zlen (s ++ mid) - zlen d) with (zlen s) by (rewrite length_app; lia).
  rewrite <- app_assoc, bytes_front. set (all := s ++ mid) in *. rewrite <- (take_drop (length d) all), <- (app_nil_r (drop _ all)) in H1.
  assert (Hd : zlen (take (length d) all) = zlen d) by (unfold all; rewrite length_take, length_app; lia).
  destruct (poke_holds b1 _ _ _ _ _ s H1) as (b2 & E2 & H2); [unfold all; rewrite length_drop, length_app; lia|]. rewrite Hd in E2. rewrite E2. cbn [mbind res_bind].
  destruct (poke_holds b2 _ [] _ _ _ d H2) as (b3 & E3 & H3); [lia|]. cbn [length] in E3. change (Z.of_nat 0) with 0 in E3. rewrite E3. exists b3. split; [done|]. exists rest1.
  unfold grown. cbn in *. rewrite app_nil_r in H3. by rewrite length_app, Nat2Z.inj_add, Z.add_comm.
Qed.

Lemma Shrink_repr b sp s n : sb_repr b (mkText sp s) -> (n <= length s)%nat -> (sp = true -> n <> 0%nat) -> exists b', Shrink b (Z.of_nat n) = OK b' /\ sb_repr b' (mkText sp (take n s)).
Proof.
  intros [rest Hh] Hn Hz. cbn in Hh. pose proof Hh as (Hi & H0 & Hb & Hs & Hsp). unfold Shrink. rewrite Hs, (proj2 (Z.leb_le (Z.of_nat n) (zlen s))) by lia. cbn [check mbind res_bind].
  rewrite Hsp. assert (Ht : zlen (take n s) = Z.of_nat n) by (rewrite length_take; lia). destruct sp.
  - eexists. split; [done|]. exists (drop n s ++ rest). unfold holds, GetBuffer, GetSize in *. cbn [sb_InternalBufferUsed sb_InternalBuffer sb_Size sb_Storage t_spilled t_str]. rewrite Hsp in Hb. rewrite (proj2 (Z.eqb_neq (Z.of_nat n) 0)) by (specialize (Hz eq_refl); lia). cbn [negb].
    rewrite app_assoc, take_drop. split_and!; try done; lia.
  - destruct (holds_short _ _ _ Hh) as [_ Hl]. rewrite (proj2 (Z.leb_le _ _)) by lia. cbn [check mbind res_bind]. eexists. split; [done|]. exists (drop n s ++ rest).
    unfold holds, GetBuffer, GetSize in *. cbn. rewrite Hsp in *. rewrite app_assoc, take_drop. split_and!; try done; lia.
Qed.

Lemma repr_view b t : sb_repr b t -> exists rest, GetBuffer b = t_str t ++ rest /\ GetSize b = zlen (t_str t).
Proof. intros [rest (_ & _ & Hb & Hs & _)]. by exists rest. Qed.

Lemma PrependUnless_repr b t d : sb_repr b t ->
  exists b', PrependUnless junk_char b d = OK b' /\ sb_repr b' (if has_prefix d (t_str t) then t else grown (t_spilled t) (d ++ t_str t)).
Proof.
  intros Hr. destruct (repr_view b t Hr) as (rest & Hb & Hs). unfold PrependUnless, has_prefix. rewrite Hs, Hb.
  assert (E : (zlen (t_str t) <? zlen d) || negb (bool_decide (bytes_at (t_str t ++ rest) 0 (zlen d) = d)) = negb (bool_decide (take (length d) (t_str t) = d))).
  { unfold bytes_at. rewrite Nat2Z.id. change (drop (Z.to_nat 0) ?l) with l. destruct (Z.ltb_spec (zlen (t_str t)) (zlen d)) as [Hl|Hl]; cbn [orb].
    - rewrite bool_decide_false; [done|]. intros Ed. apply (f_equal length) in Ed. rewrite length_take in Ed. lia.
    - by rewrite take_app_le by lia. }
  rewrite E. clear E. case_bool_decide; cbn [negb]; [by exists b|by apply Prepend_repr].
Qed.

Lemma AppendUnless_repr b t d : sb_repr b t ->
  exists b', AppendUnless junk_char b d = OK b' /\ sb_repr b' (if has_suffix d (t_str t) then t else grown (t_spilled t) (t_str t ++ d)).
Proof.
  intros Hr. destruct (repr_view b t Hr) as (rest & Hb & Hs). unfold AppendUnless, has_suffix, Append. rewrite Hs, Hb. set (s := t_str t) in *.
  assert (E : (zlen s <? zlen d) || negb (bool_decide (bytes_at (s ++ rest) (zlen s - zlen d) (zlen d) = d)) = negb (bool_decide (drop (length s - length d) s = d))).
  { unfold bytes_at. rewrite Nat2Z.id. destruct (Z.ltb_spec (zlen s) (zlen d)) as [Hl|Hl]; cbn [orb].
    - rewrite bool_decide_false; [done|]. intros Ed. apply (f_equal length) in Ed. rewrite length_drop in Ed. lia.
    - replace (Z.to_nat (zlen s - zlen d)) with (length s - length d)%nat by lia. rewrite drop_app_le by lia.
      by rewrite (take_app_length' (drop (length s - length d) s)) by (rewrite length_drop; lia). }
  rewrite E. clear E. case_bool_decide; cbn [negb]; [by exists b|by apply Add_repr].
Qed.

Lemma each_char_repr f b t : sb_repr b t -> exists b', each_char f b = OK b' /\ sb_repr b' (mkText (t_spilled t) (map f (t_str t))).
Proof.
  intros [rest Hh]. pose proof Hh as (_ & _ & Hb & Hs & _). unfold each_char. rewrite Hb, Hs, bytes_front. rewrite <- (app_nil_r (t_str t)) in Hh at 1.
  destruct (poke_holds b _ [] _ _ _ (map f (t_str t)) Hh) as (b' & E & H'); [by rewrite length_map|]. cbn [length] in E. change (Z.of_nat 0) with 0 in E.
  exists b'. split; [done|]. exists rest. cbn in *. by rewrite app_nil_r in H'.
Qed.

(** *** Cutting at the last character of a kind *)

Lemma rsplit_app p s c : rsplit p (s ++ [c]) = if p c then Some (s, []) else match rsplit p s with Some (a, b) => Some (a, b ++ [c]) | None => None end.
Proof.
  induction s as [|x s IH]; cbn [rsplit app]; [by destruct (p c)|]. rewrite IH. destruct (p c); [done|]. destruct (rsplit p s) as [[a b]|]; [done|]. by destruct (p x).
Qed.

Lemma rsplit_spec p s a b : rsplit p s = Some (a, b) -> exists c, s = a ++ c :: b.
Proof.
  revert a b. induction s as [|x s IH]; intros a b E; cbn in E; [done|]. destruct (rsplit p s) as [[a' b']|] eqn:Er.
  - injection E as <- <-. destruct (IH _ _ eq_refl) as (c & ->). by exists c.
  - destruct (p x); [|done]. injection E as <- <-. by exists x.
Qed.

Lemma last_index_is p s : forall rest, last_index p (length s) (s ++ rest) = OK (match rsplit p s with Some (a, _) => Some (zlen a) | None => None end).
Proof.
  induction s as [|c s IH] using rev_ind; intros rest; [done|]. rewrite length_app, Nat.add_comm. change (length [c] + length s)%nat with (S (length s)). cbn [last_index].
  rewrite <- app_assoc. change (s ++ [c] ++ rest) with (s ++ c :: rest). rewrite (list_lookup_middle s rest c) by done. cbn [of_opt mbind res_bind]. rewrite rsplit_app. destruct (p c); [done|]. change (s ++ c :: rest) with (s ++ [c] ++ rest). rewrite IH. by destruct (rsplit p s) as [[a b]|].
Qed.

Lemma i32_len (s : cstr) : zlen s < 2 ^ 31 -> i32 (zlen s) = zlen s.
Proof. intros Hl. unfold i32. rewrite Z.mod_small; lia. Qed.

(** What an operation on buffers does for one on texts. *)
Definition computes (r : res StringBuffer) (t : res text) : Prop :=
  match t with
  | OK t => exists b, r = OK b /\ sb_repr b t
  | Err (Undefined _) => True
  | Err f => r = Err f
  end.

Lemma computes_ok b t : sb_repr b t -> computes (OK b) (OK t).
Proof. intros Hr. by exists b. Qed.

Lemma computes_bind r t k k' : computes r t -> (forall b x, sb_repr b x -> computes (k b) (k' x)) -> computes (b ← r; k b) (x ← t; k' x).
Proof. intros Hr Hk. destruct t as [x|[]]; cbn in *; try (by subst r); [|done]. destruct Hr as (b & -> & Hb). by apply Hk. Qed.

Lemma shrink_computes b t n : sb_repr b t -> (n <= length (t_str t))%nat -> computes (Shrink b (Z.of_nat n)) (shorter (t_spilled t) (take n (t_str t))).
Proof.
  intros Hr Hn. unfold shorter. destruct (t_spilled t && bool_decide (take n (t_str t) = [])) eqn:E; [done|]. destruct t as [sp s]. cbn in *.
  destruct (Shrink_repr b sp s n Hr Hn) as (b' & -> & Hr'); [|by exists b']. intros -> ->. by rewrite bool_decide_true in E.
Qed.

Lemma cut_dir_computes p b t : sb_repr b t ->
  computes (i ← last_index p (Z.to_nat (i32 (GetSize b))) (GetBuffer b); match i with Some i => Shrink b i | None => OK b end) (ref_cut p fst t).
Proof.
  intros Hr. destruct (repr_view b t Hr) as (rest & Hb & Hs). unfold ref_cut. destruct (Z.ltb_spec (zlen (t_str t)) (2 ^ 31)); [|done].
  rewrite Hs, i32_len, Nat2Z.id, Hb, last_index_is by done. cbn [mbind res_bind]. destruct (rsplit p (t_str t)) as [[a d]|] eqn:E; [|by apply computes_ok].
  apply rsplit_spec in E as (c & E). cbn [fst]. replace a with (take (length a) (t_str t)) at 2 by (by rewrite E, take_app_length).
  apply shrink_computes; [done|]. rewrite E, length_app. lia.
Qed.

Lemma GetFilename_computes b t : sb_repr b t -> computes (GetFilename b) (ref_cut is_separator snd t).
Proof.
  intros Hr. destruct (repr_view b t Hr) as (rest & Hb & Hs). unfold ref_cut, GetFilename. destruct (Z.ltb_spec (zlen (t_str t)) (2 ^ 31)) as [Hl|]; [|done].
  rewrite Hs, i32_len, Nat2Z.id, Hb, last_index_is by done. cbn [mbind res_bind]. destruct (rsplit is_separator (t_str t)) as [[a d]|] eqn:E; [|by apply computes_ok].
  apply rsplit_spec in E as (c & E). cbn [snd]. destruct t as [sp s]. cbn [t_str t_spilled] in *. subst s.
  assert (Hd : i32 (zlen (a ++ c :: d) - zlen a - 1) = zlen d) by (rewrite length_app in *; cbn [length] in *; unfold i32; rewrite Z.mod_small; lia).
  rewrite Hd. replace (zlen a + 1) with (zlen (a ++ [c])) by (rewrite length_app; cbn; lia). replace ((a ++ c :: d) ++ rest) with ((a ++ [c]) ++ d ++ rest) by (by rewrite <- !app_assoc).
  rewrite bytes_middle. destruct Hr as [rest' Hh]. cbn [t_spilled t_str] in Hh. set (all := a ++ c :: d) in *. rewrite <- (take_drop (length d) all) in Hh.
  assert (Hle : (length d <= length all)%nat) by (unfold all; rewrite length_app; cbn; lia).
  destruct (poke_holds b sp [] _ _ rest' d Hh) as (b1 & E1 & H1); [rewrite length_take; lia|]. cbn [length] in E1. change (Z.of_nat 0) with 0 in E1. rewrite E1. cbn [mbind res_bind].
  assert (Hr1 : sb_repr b1 (mkText sp (d ++ drop (length d) all))) by (by exists rest'). pose proof (shrink_computes b1 _ (length d) Hr1) as Hx. cbn [t_str t_spilled] in Hx.
  rewrite take_app_length, length_app in Hx. apply Hx. lia.
Qed.

(** *** Quoting *)

Lemma count_char_cons c x s : count_char c (x :: s) = (if Ascii.eqb x c then 1 else 0) + count_char c s.
Proof. unfold count_char. rewrite filter_cons. destruct (Ascii.eqb_spec x c) as [->|Hne]; [rewrite decide_True by done|rewrite decide_False by done]; cbn [length]; lia. Qed.

Lemma double_loop_ok todo : forall front gap rest, zlen gap = count_char backslash todo ->
  double_loop (length todo) (front ++ gap ++ todo ++ rest) (zlen front + zlen gap) (zlen front) = OK (front ++ double_backslashes todo ++ rest).
Proof.
  induction todo as [|ch todo IH]; intros front gap rest Hg.
  { change (count_char backslash []) with 0 in Hg. destruct gap; [done|cbn in Hg; lia]. }
  rewrite count_char_cons in Hg. cbn [length double_loop].
  assert ((front ++ gap ++ (ch :: todo) ++ rest) !!z (zlen front + zlen gap) = Some ch) as ->.
  { rewrite <- Nat2Z.inj_add, <- length_app, zlookup_nat, app_assoc. by apply list_lookup_middle. }
  cbn [of_opt mbind res_bind]. assert (exists x g, gap ++ [ch] = x :: g) as (x & g & Eg) by (destruct gap; eauto).
  assert (Hlen : zlen g = zlen gap) by (apply (f_equal length) in Eg; rewrite length_app in Eg; cbn in Eg; lia).
  replace (front ++ gap ++ (ch :: todo) ++ rest) with (front ++ x :: g ++ todo ++ rest).
  2: { change (front ++ x :: g ++ todo ++ rest) with (front ++ (x :: g) ++ todo ++ rest). rewrite <- Eg. by rewrite <- !app_assoc. }
  rewrite zwrite_middle. cbn [mbind res_bind]. unfold double_backslashes. cbn [map concat]. fold (double_backslashes todo).
  destruct (Ascii.eqb_spec ch backslash) as [->|Hne].
  - destruct g as [|y g]; [cbn in Hlen; unfold count_char in Hg; lia|]. replace (front ++ backslash :: (y :: g) ++ todo ++ rest) with ((front ++ [backslash]) ++ y :: g ++ todo ++ rest) by (by rewrite <- app_assoc).
    replace (zlen front + 1) with (zlen (front ++ [backslash])) by (rewrite length_app; cbn; lia). rewrite zwrite_middle. cbn [mbind res_bind].
    specialize (IH (front ++ [backslash; backslash]) g rest). rewrite !length_app in IH. cbn [length] in IH, Hlen. rewrite <- !app_assoc in IH. cbn [app] in IH. rewrite <- !app_assoc. cbn [app].
    replace (zlen front + zlen gap + 1) with (Z.of_nat (length front + 2) + zlen g) by lia. replace (zlen front + 2) with (Z.of_nat (length front + 2)) by lia. apply IH. lia.
  - specialize (IH (front ++ [ch]) g rest). rewrite !length_app in IH. cbn [length] in IH. rewrite <- !app_assoc in IH. cbn [app] in IH |- *.
    replace (zlen front + zlen gap + 1) with (Z.of_nat (length front + 1) + zlen g) by lia. replace (zlen front + 1) with (Z.of_nat (length front + 1)) by lia. apply IH. lia.
Qed.

Lemma double_length s : zlen (double_backslashes s) = zlen s + count_char backslash s.
Proof.
  induction s as [|c s IH]; [done|]. rewrite count_char_cons. unfold double_backslashes in *. cbn [map concat]. rewrite length_app. destruct (Ascii.eqb c backslash); cbn [length]; lia.
Qed.

Lemma double_none s : count_char backslash s = 0 -> double_backslashes s = s.
Proof.
  induction s as [|c s IH]; [done|]. rewrite count_char_cons. intros Hc. unfold double_backslashes in *. cbn [map concat].
  destruct (Ascii.eqb c backslash); [unfold count_char in Hc; lia|]. cbn. f_equal. apply IH. lia.
Qed.

Lemma drop_trailing_computes b t : sb_repr b t ->
  computes (drop_trailing_backslash b) (if Ascii.eqb (last_char (t_str t)) backslash then shorter (t_spilled t) (take (length (t_str t) - 1) (t_str t)) else OK t).
Proof.
  intros Hr. destruct (repr_view b t Hr) as (rest & Hb & Hs). unfold drop_trailing_backslash. rewrite Hs, Hb. set (s := t_str t) in *.
  destruct s as [|c s' _] eqn:Es using rev_ind; [by apply computes_ok|]. unfold last_char. rewrite last_snoc. change (default NUL (Some c)) with c.
  rewrite (proj2 (Z.ltb_lt _ _)) by (rewrite length_app; cbn; lia). replace (zlen (s' ++ [c]) - 1) with (zlen s') by (rewrite length_app; cbn; lia).
  rewrite <- app_assoc. change (s' ++ [c] ++ rest) with (s' ++ c :: rest). rewrite zlookup_nat, list_lookup_middle by done. cbn [of_opt mbind res_bind].
  destruct (Ascii.eqb c backslash); [|by apply computes_ok]. rewrite <- Es. replace (length s - 1)%nat with (length s') by (rewrite Es, length_app; cbn; lia).
  apply shrink_computes; [done|]. fold s. rewrite Es, length_app. lia.
Qed.

Lemma PrepQuoteCommon_computes b t : sb_repr b t -> computes (PrepQuoteCommon junk_char b) (ref_prep t).
Proof.
  intros Hr. unfold PrepQuoteCommon, ref_prep. eapply computes_bind; [by apply drop_trailing_computes|]. clear b t Hr. intros b t Hr.
  destruct (repr_view b t Hr) as (rest & Hb & Hs). rewrite Hs, Hb, bytes_front. set (s := t_str t) in *. destruct (Z.ltb_spec 0 (count_char backslash s)) as [Hc|Hc].
  - destruct Hr as [rest0 Hh]. change (t_str t) with s in Hh. destruct (grow_holds b _ _ _ (count_char backslash s) Hh) as (b1 & mid & rest1 & E & Hm & H1); [lia|]. rewrite E. cbn [mbind res_bind].
    pose proof H1 as (_ & _ & Hb1 & Hs1 & _). rewrite Hb1, <- app_assoc, bytes_front. fold s. set (all := s ++ mid) in *. set (bs := count_char backslash s) in *.
    rewrite <- (take_drop (Z.to_nat bs) all), <- (app_nil_r (drop _ all)) in H1. assert (Ht : zlen (take (Z.to_nat bs) all) = bs) by (unfold all; rewrite length_take, length_app; lia).
    destruct (poke_holds b1 _ _ _ _ _ s H1) as (b2 & E2 & H2); [unfold all; rewrite length_drop, length_app; lia|]. rewrite Ht in E2. rewrite E2. cbn [mbind res_bind].
    pose proof H2 as (Hi2 & Hn2 & Hb2 & Hs2 & Hsp2). rewrite Hb2, app_nil_r. rewrite Nat2Z.id. pose proof (double_loop_ok s [] (take (Z.to_nat bs) all) rest1 Ht) as Ed.
    cbn [app length] in Ed. rewrite Ht in Ed. change (Z.of_nat 0) with 0 in Ed. rewrite Z.add_0_l in Ed. rewrite <- app_assoc, Ed. cbn [mbind res_bind].
    pose proof (double_length s) as Hdl. fold bs in Hdl. destruct (holds_set b2 _ _ _ (double_backslashes s ++ rest1) H2) as (G1 & G2 & G3 & G4); [rewrite !length_app; cbn; lia|].
    eexists. split; [done|]. exists rest1. unfold grown. cbn [t_spilled t_str]. split_and!; [done|by rewrite G3|done|rewrite G2, !length_app; cbn; lia|].
    rewrite G3, Hsp2. f_equal. f_equal. rewrite Hdl. done.
  - rewrite double_none by (unfold count_char in *; lia). apply computes_ok. destruct t. by apply grown_repr.
Qed.

Lemma grown_grown sp a b : zlen a <= zlen b -> grown (t_spilled (grown sp a)) b = grown sp b.
Proof. intros Hl. unfold grown. cbn. f_equal. destruct sp; [done|]. cbn. destruct (Z.ltb_spec kInternalBufferSize (zlen a)); [|done]. cbn. symmetry. apply Z.ltb_lt. lia. Qed.

Lemma around_computes d b t : sb_repr b t -> computes (b ← PrepQuoteCommon junk_char b; b ← Prepend junk_char b d; Append junk_char b d) (ref_around d t).
Proof.
  intros Hr. unfold ref_around. eapply computes_bind; [by apply PrepQuoteCommon_computes|]. clear b t Hr. intros b t Hr.
  destruct (Prepend_repr b t d Hr) as (b1 & -> & H1). cbn [mbind res_bind]. destruct (Add_repr b1 _ d H1) as (b2 & E2 & H2). exists b2. split; [exact E2|].
  change (t_str (grown ?x ?y)) with y in H2. rewrite grown_grown in H2 by (rewrite !length_app; lia). by rewrite <- app_assoc in H2.
Qed.

Lemma quoted_ends s rest : (0 <? zlen s) && Ascii.eqb (char_at (s ++ rest) 0) dquote && Ascii.eqb (char_at (s ++ rest) (Z.to_nat (zlen s - 1))) dquote =
  has_prefix [dquote] s && has_suffix [dquote] s.
Proof.
  destruct s as [|c s]; [done|]. rewrite (proj2 (Z.ltb_lt _ _)) by (cbn; lia). cbn [andb]. f_equal.
  - change (char_at ((c :: s) ++ rest) 0) with c. unfold has_prefix. change (take (length [dquote]) (c :: s)) with [c]. destruct (Ascii.eqb_spec c dquote) as [->|Hne]; [by rewrite bool_decide_true|]. rewrite bool_decide_false; [done|]. by intros [= ?].
  - unfold has_suffix. destruct (exists_last (l := c :: s) ltac:(done)) as (l & x & ->). rewrite length_app. cbn [length].
    replace (Z.to_nat (Z.of_nat (length l + 1) - 1)) with (length l) by lia. replace (length l + 1 - 1)%nat with (length l) by lia. rewrite drop_app_length.
    unfold char_at. rewrite <- app_assoc. change (l ++ [x] ++ rest) with (l ++ x :: rest). rewrite list_lookup_middle by done. change (default NUL (Some x)) with x.
    destruct (Ascii.eqb_spec x dquote) as [->|Hne]; [by rewrite bool_decide_true|]. rewrite bool_decide_false; [done|]. by intros [= ?].
Qed.

Lemma Quote_computes b t : sb_repr b t -> computes (Quote junk_char b) (ref_quote t).
Proof.
  intros Hr. destruct (repr_view b t Hr) as (rest & Hb & Hs). unfold Quote, ref_quote. rewrite Hs, Hb, quoted_ends.
  destruct (has_prefix [dquote] (t_str t) && has_suffix [dquote] (t_str t)); [|by apply around_computes].
  destruct (Z.ltb_spec 1 (zlen (t_str t))) as [Hl|Hl]; cbn [andb]; [|by apply computes_ok].
  assert (char_at (t_str t ++ rest) (Z.to_nat (zlen (t_str t) - 2)) = char_at (t_str t) (length (t_str t) - 2)) as ->.
  { unfold char_at. replace (Z.to_nat (zlen (t_str t) - 2)) with (length (t_str t) - 2)%nat by lia. by rewrite lookup_app_l by lia. }
  destruct (Ascii.eqb _ backslash); [|by apply computes_ok]. destruct t as [sp s]. cbn [t_str t_spilled] in *.
  replace (zlen s - 1) with (Z.of_nat (length s - 1)) by lia. destruct (Shrink_repr b sp s (length s - 1) Hr) as (b1 & -> & rest1 & H1); [lia|lia|]. cbn [mbind res_bind].
  cbn [t_spilled t_str] in H1. set (k := (length s - 2)%nat). assert (exists x, take (length s - 1) s = take k s ++ [x] ++ []) as (x & Ex).
  { destruct (lookup_lt_is_Some_2 s k) as [x Hx]; [lia|]. exists x. replace (length s - 1)%nat with (S k) by lia. by rewrite (take_S_r s k x Hx), app_nil_r. }
  rewrite Ex in H1. destruct (poke_holds b1 _ _ _ _ _ [dquote] H1) as (b2 & E2 & H2); [done|]. replace (zlen (take k s)) with (Z.of_nat (length s - 1) - 1) in E2 by (rewrite length_take; lia).
  exists b2. split; [exact E2|]. exists rest1. cbn [t_spilled t_str]. by rewrite app_nil_r in H2.
Qed.
End Ops.

(** ** Simulation *)

Definition sim {A B} (R : A -> B -> Prop) (r : res A) (t : res B) : Prop :=
  match t with
  | OK y => exists x, r = OK x /\ R x y
  | Err (Undefined _) => True
  | Err f => r = Err f
  end.

Lemma sim_ok {A B} (R : A -> B -> Prop) x y : R x y -> sim R (OK x) (OK y).
Proof. intros HR. by exists x. Qed.

Lemma sim_bind {A B C D} (R : A -> B -> Prop) (S : C -> D -> Prop) r t k k' :
  sim R r t -> (forall x y, R x y -> sim S (k x) (k' y)) -> sim S (x ← r; k x) (y ← t; k' y).
Proof. intros Hr Hk. destruct t as [y|[]]; cbn in *; try (by subst r); [|done]. destruct Hr as (x & -> & Hx). by apply Hk. Qed.

Lemma sim_same {A C D} (S : C -> D -> Prop) (r : res A) k k' : (forall x, r = OK x -> sim S (k x) (k' x)) -> sim S (x ← r; k x) (y ← r; k' y).
Proof. intros Hk. destruct r as [x|[]]; cbn; try done. by apply Hk. Qed.

(** A step that returns [false] or goes on. *)
Lemma sim_try {A B C D} (R : A -> B -> Prop) (S : C -> D -> Prop) r t k k' :
  sim (option_Forall2 R) r t -> (forall x y, R x y -> sim (option_Forall2 S) (k x) (k' y)) ->
  sim (option_Forall2 S) (x ← r; match x with Some x => k x | None => OK None end) (y ← t; match y with Some y => k' y | None => OK None end).
Proof. intros Hr Hk. eapply sim_bind; [exact Hr|]. intros x y [a b Hab|]; [by apply Hk|]. apply sim_ok. constructor. Qed.

(** A result that is changed at the end. *)
Lemma sim_map {A B C} (R : A -> B -> Prop) (S : A -> C -> Prop) r t (f : B -> C) :
  sim (option_Forall2 R) r t -> (forall x y, R x y -> S x (f y)) -> sim (option_Forall2 S) r (y ← t; OK (option_map f y)).
Proof.
  intros Hr Hf. destruct t as [y|[]]; cbn in *; try done. destruct Hr as (x & -> & [a b Hab|]); eexists; (split; [done|]); constructor. by apply Hf.
Qed.

Lemma sim_done (r : res StringBuffer) t : computes r t -> sim (option_Forall2 sb_repr) (x ← r; OK (Some x)) (y ← t; OK (Some y)).
Proof. intros Hr. eapply (sim_bind sb_repr); [exact Hr|]. intros x y Hx. apply sim_ok. by constructor. Qed.

(** ** The syntax *)

Lemma opens_spec has_vars str : starts_reference has_vars str = opens has_vars str.
Proof.
  unfold starts_reference, opens, has_prefix, char_at. destruct str as [|a [|b str]]; cbn.
  - by rewrite bool_decide_false.
  - rewrite (bool_decide_false ([a] = s2l "(<")), (bool_decide_false ([a] = s2l "(@")) by done. cbn.
    rewrite orb_true_r, andb_true_r. destruct (Ascii.eqb_spec a "("%char) as [->|Ha]; [done|]. rewrite bool_decide_false; [done|]. by intros [= ?].
  - rewrite take_0. destruct (Ascii.eqb_spec a "("%char) as [->|Ha]; cbn; [|by rewrite bool_decide_false by (by intros [= ?])]. rewrite (bool_decide_true (["("%char] = _)) by done.
    destruct (Ascii.eqb_spec b "<"%char) as [->|Hb]; [by rewrite bool_decide_true|]. rewrite bool_decide_false by (by intros [= ?]).
    destruct (Ascii.eqb_spec b "@"%char) as [->|Hb']; [by rewrite bool_decide_true|]. by rewrite bool_decide_false by (by intros [= ?]).
Qed.

Lemma occurrences_snoc c s x : occurrences c (s ++ [x]) = occurrences c s + (if Ascii.eqb x c then 1 else 0).
Proof.
  unfold occurrences. rewrite filter_app, length_app, filter_cons, filter_nil. destruct (Ascii.eqb_spec x c) as [->|Hne]; [rewrite decide_True by done|rewrite decide_False by done]; cbn; lia.
Qed.

Lemma close_paren_spec str : forall before,
  close_paren before str = (fun ir => (before ++ ir.1, ir.2)) <$> FindEndParen (1 + occurrences "("%char before - occurrences ")"%char before) str.
Proof.
  induction str as [|c str IH]; intros before; cbn [close_paren FindEndParen]; [done|]. set (n := 1 + _ - _).
  destruct (Ascii.eqb_spec c ")"%char) as [->|Hc]; cbn [andb].
  - destruct (Z.eqb_spec n 1) as [E|E].
    + rewrite bool_decide_true by (split; [done|lia]). cbn. by rewrite app_nil_r.
    + rewrite bool_decide_false by (intros [_ ?]; lia). rewrite IH, !occurrences_snoc. cbn. replace (1 + _ - _) with (n - 1) by lia.
      destruct (FindEndParen (n - 1) str) as [[i r]|]; [|done]. cbn. by rewrite <- app_assoc.
  - rewrite bool_decide_false by (by intros [? _]). rewrite IH, !occurrences_snoc. destruct (Ascii.eqb_spec c ")"%char); [done|].
    replace (1 + _ - _) with (if Ascii.eqb c "("%char then n + 1 else n) by (destruct (Ascii.eqb c "("%char); lia).
    destruct (FindEndParen _ str) as [[i r]|]; [|done]. cbn. by rewrite <- app_assoc.
Qed.

Lemma close_paren_start str : FindEndParen 1 str = close_paren [] str.
Proof. rewrite close_paren_spec. change (1 + _ - _) with 1. by destruct (FindEndParen 1 str) as [[]|]. Qed.

Lemma glue_not_nil f p ps : glue f (p :: ps) <> [].
Proof. cbn. case_match; [done|]. by case_bool_decide. Qed.

(** One more character at the front. *)
Lemma glue_front c d q ps a l : glue id ((d :: q) :: ps) = a :: l -> glue id ((c :: d :: q) :: ps) = (c :: a) :: l.
Proof.
  cbn [glue]. change (last (c :: d :: q)) with (last (d :: q)). destruct (glue id ps); [by intros [= <- <-]|]. case_bool_decide; by intros [= <- <-].
Qed.

(** The character before, when it belongs to the piece. *)
Definition of_piece (p : ascii) : cstr := if Ascii.eqb p ":"%char then [] else [p].

Lemma cut_glue s : forall p, exists a l, cut_options (Some p) s = OK (a, l) /\ glue id (split_on ":"%char (of_piece p ++ s)) = (of_piece p ++ a) :: l.
Proof.
  unfold of_piece. induction s as [|c s IH]; intros p; cbn [cut_options].
  { exists [], []. split; [done|]. rewrite !app_nil_r. by destruct (Ascii.eqb p ":"%char) eqn:E; cbn; rewrite ?E. }
  destruct (IH c) as (a & l & -> & E). cbn [mbind res_bind]. destruct (Ascii.eqb_spec c ":"%char) as [->|Hc].
  - cbn [app] in E. assert (Hb : forall q, glue id (q :: split_on ":"%char s) = if bool_decide (last q = Some backslash) then (q ++ ":"%char :: a) :: l else q :: a :: l)
      by (intros q; cbn [glue]; by rewrite E).
    destruct (Ascii.eqb_spec p ":"%char) as [->|Hp]; cbn [app].
    + eexists _, _. split; [done|]. by rewrite split_on_sep, Hb.
    + assert (split_on ":"%char (p :: ":"%char :: s) = [p] :: split_on ":"%char s) as -> by (apply (split_on_app _ [p]); set_solver). rewrite Hb. change (last [p]) with (Some p).
      destruct (Ascii.eqb_spec p backslash) as [->|Hne]; (eexists _, _; split; [done|]); [by rewrite bool_decide_true|]. rewrite bool_decide_false; [done|]. by intros [= ?].
  - eexists _, _. split; [done|]. destruct (Ascii.eqb_spec p ":"%char) as [->|Hp]; [done|]. cbn [app] in *.
    destruct (split_on ":"%char (c :: s)) as [|q qs] eqn:Es; [done|]. rewrite (split_on_char _ p _ _ _ Hp Es).
    cbn [split_on] in Es. destruct (Ascii.eqb_spec c ":"%char); [done|]. destruct (split_on ":"%char s); injection Es as <- <-; by apply glue_front.
Qed.

Lemma cut_options_spec s : cut_options None s =
  if has_prefix (s2l ":") s then Err OutOfBounds else OK (ref_name s, tail (glue id (split_on ":"%char s))).
Proof.
  unfold has_prefix, ref_name. destruct s as [|c s]; cbn [cut_options]; [by rewrite bool_decide_false|]. cbn [s2l length String.list_ascii_of_string take]. rewrite take_0.
  destruct (Ascii.eqb_spec c ":"%char) as [->|Hc]; [by rewrite bool_decide_true|]. rewrite bool_decide_false by (by intros [= ?]).
  destruct (cut_glue s c) as (a & l & -> & E). unfold of_piece in E. destruct (Ascii.eqb_spec c ":"%char); [done|]. cbn [app] in E. by rewrite E.
Qed.

Lemma unescape_plain p : ":"%char ∉ p -> UnescapeOption p = p.
Proof.
  induction p as [|c p IH]; [done|]. intros [Hc Hp]%not_elem_of_cons. specialize (IH Hp). destruct p as [|d p]; cbn [UnescapeOption].
  - by destruct (Ascii.eqb c backslash).
  - destruct (Ascii.eqb_spec d ":"%char) as [->|]; [set_solver|]. cbn [UnescapeOption] in IH. destruct (Ascii.eqb c backslash); by f_equal.
Qed.

Lemma unescape_colon p q : ":"%char ∉ p -> last p = Some backslash -> UnescapeOption (p ++ ":"%char :: q) = List.removelast p ++ ":"%char :: UnescapeOption q.
Proof.
  induction p as [|c p IH]; [done|]. intros [Hc Hp]%not_elem_of_cons. destruct p as [|d p]; [by intros [= ->]|]. change (last (c :: d :: p)) with (last (d :: p)). intros Hl. specialize (IH Hp Hl).
  change (List.removelast (c :: d :: p)) with (c :: List.removelast (d :: p)). cbn [app]. rewrite <- IH. cbn [UnescapeOption app].
  destruct (Ascii.eqb_spec d ":"%char) as [->|]; [set_solver|]. by destruct (Ascii.eqb c backslash).
Qed.

Lemma unescape_glue ps : Forall (fun p => ":"%char ∉ p) ps -> map UnescapeOption (glue id ps) = glue (@List.removelast ascii) ps.
Proof.
  induction 1 as [|p ps Hp Hps IH]; [done|]. cbn [glue]. rewrite <- IH. destruct (glue id ps) as [|q qs]; cbn [map]; [by rewrite unescape_plain|].
  case_bool_decide; cbn [map]; [by rewrite unescape_colon|by rewrite unescape_plain].
Qed.

Lemma ref_opts_spec s : map UnescapeOption (tail (glue id (split_on ":"%char s))) = ref_opts s.
Proof. unfold ref_opts. rewrite <- unescape_glue by apply split_on_pieces. by destruct (glue id _). Qed.

Lemma elements_spec lookup key : LuaEnvLookupScope lookup key = elements lookup key.
Proof.
  unfold LuaEnvLookupScope, elements. assert (E : forall envs, walk_envs envs key = default (Err (LuaError "No key present in environment"))
    (head (omap (fun vars : cstr -> lua_value => match vars key with LNil => None | LTable l => Some (OK l) | _ => Some (Err (LuaError "table expected")) end) envs))).
  { induction envs as [|vars envs IH]; cbn; [done|]. by destruct (vars key). }
  destruct (lk_Vars lookup) as [vars|]; [|apply E]. cbn. by destruct (vars key).
Qed.

(** ** Selection *)

Lemma atoi_range s : match atoi s with OK n => in_i32 n | Err f => exists x, f = Undefined x end.
Proof.
  unfold atoi, in_i32. destruct (span isspace s) as [? s']. destruct (match s' with [] => _ | _ => _ end) as [sign s'']. set (n := sign * _).
  destruct ((- 2 ^ 31 <=? n) && (n <? 2 ^ 31)) eqn:E; [|by eexists]. apply andb_true_iff in E as [?%Z.leb_le ?%Z.ltb_lt]. lia.
Qed.

Lemma numbers_ends args : match numbers args with OK _ => True | Err f => exists x, f = Undefined x end.
Proof.
  induction args as [|arg args IH]; cbn [numbers]; [done|]. pose proof (atoi_range arg). destruct (atoi arg) as [n|]; cbn; [|done]. by destruct (numbers args).
Qed.

(** The selection after the options, when every index is one. *)
Definition selects (sel : selection) (options : list cstr) (ns : list Z) : selection :=
  mkSel (default (sel_Join sel) (last (arguments "j"%char options))) (from_option (fun n => n - 1) (sel_First sel) (last ns)) (default (sel_Max sel) (last ns)).

Lemma last_default {A B} (f : A -> B) d x (l : list A) : from_option f d (last (x :: l)) = from_option f (f x) (last l).
Proof. rewrite last_cons. by destruct (last l). Qed.

Lemma arguments_eq k arg options : arguments k ((k :: arg) :: options) = arg :: arguments k options.
Proof. unfold arguments. cbn. by rewrite bool_decide_true. Qed.

Lemma arguments_ne k c arg options : c <> k -> arguments k ((c :: arg) :: options) = arguments k options.
Proof. intros Hc. unfold arguments. cbn. by rewrite bool_decide_false. Qed.

Lemma select_items_spec count options : count < 2 ^ 63 -> forall sel,
  sim eq (select_items count sel options)
    (ns ← numbers (arguments "["%char options); if bool_decide (Forall (fun n => 1 <= n <= count) ns) then OK (Some (selects sel options ns)) else OK None).
Proof.
  intros Hcount. induction options as [|o options IH]; intros sel; cbn [select_items].
  { cbn. exists (Some sel). by destruct sel. }
  destruct o as [|c arg]; [exact (IH sel)|]. change (char_at (c :: arg) 0) with c. change (drop 1 (c :: arg)) with arg.
  destruct (Ascii.eqb_spec c "j"%char) as [->|Hj].
  { specialize (IH (mkSel arg (sel_First sel) (sel_Max sel))). rewrite arguments_ne by done. destruct (numbers _) as [ns|]; cbn [mbind res_bind] in *; [|done].
    assert (selects sel (("j"%char :: arg) :: options) ns = selects (mkSel arg (sel_First sel) (sel_Max sel)) options ns) as -> by (unfold selects; by rewrite arguments_eq, (last_default id)). done. }
  destruct (Ascii.eqb_spec c "["%char) as [->|Hb].
  - rewrite arguments_eq. cbn [numbers].
    pose proof (atoi_range arg) as Ha. destruct (atoi arg) as [n|f]; [|destruct Ha as [x ->]; done]. unfold in_i32 in Ha. cbn [mbind res_bind].
    pose proof (numbers_ends (arguments "["%char options)) as Hn. specialize (IH (mkSel (sel_Join sel) (n - 1) n)).
    destruct (decide (1 <= n <= count)) as [Hr|Hr].
    + assert (u64 (n - 1) = n - 1) as -> by (apply Z.mod_small; lia). rewrite (proj2 (Z.leb_gt _ _)) by lia. assert (u64 (n - 1 + 1) = n) as -> by (unfold u64; rewrite Z.mod_small; lia).
      destruct (numbers (arguments "["%char options)) as [ns|f]; [|destruct Hn as [x ->]; done]. cbn [mbind res_bind] in *.
      rewrite (bool_decide_ext _ (Forall (fun n => 1 <= n <= count) ns)) by (rewrite Forall_cons; naive_solver). case_bool_decide; [|done].
      unfold selects in *. by rewrite arguments_ne, (last_default (fun n => n - 1)), (last_default id).
    + assert (count <=? u64 (n - 1) = true) as ->.
      { apply Z.leb_le. destruct (decide (n <= 0)); [|unfold u64; rewrite Z.mod_small; lia]. unfold u64. rewrite <- (Z.mod_add _ 1), Z.mod_small; lia. }
      destruct (numbers (arguments "["%char options)) as [ns|f]; [|destruct Hn as [x ->]; done]. cbn [mbind res_bind]. rewrite bool_decide_false; [by exists None|]. by intros [? _]%Forall_cons.
  - specialize (IH sel). unfold selects in *. by rewrite !arguments_ne.
Qed.

(** The range of a selection, as a list. *)
Lemma selects_items (elems : list (option cstr)) options ns : Forall (fun n => 1 <= n <= zlen elems) ns ->
  let sel := selects (mkSel [" "%char] 0 (zlen elems)) options ns in
  0 <= sel_First sel /\ sel_Max sel <= zlen elems /\
  take (Z.to_nat (sel_Max sel - sel_First sel)) (drop (Z.to_nat (sel_First sel)) elems) = match last ns with Some n => option_list (elems !!z (n - 1)) | None => elems end.
Proof.
  intros Hns. cbn. destruct (last ns) as [n|] eqn:El; cbn.
  - assert (Hr : 1 <= n <= zlen elems). { rewrite Forall_forall in Hns. apply Hns. apply last_Some in El as [l' ->]. set_solver. }
    destruct (zlookup_is_Some elems (n - 1)) as [x Hx]; [lia|]. rewrite Hx. split_and!; [lia..|]. replace (Z.to_nat (n - (n - 1))) with 1%nat by lia.
    unfold zlookup in Hx. rewrite bool_decide_true in Hx by lia. by rewrite (drop_S _ _ _ Hx).
  - split_and!; [lia..|]. rewrite drop_0, Z.sub_0_r, Nat2Z.id. by rewrite firstn_all.
Qed.

Section Refines.
Context (junk_internal : cstr) (junk_char : ascii) (windows : bool) (lookup : LuaEnvLookup).
Hypothesis Hjunk : zlen junk_internal = kInternalBufferSize.

Abbreviation interpolate fuel := (DoInterpolate junk_internal junk_char windows fuel lookup).

Lemma exists_computes r t : (exists b, r = OK b /\ sb_repr b t) -> computes r (OK t).
Proof. done. Qed.

Lemma option_sim b t opt : sb_repr b t -> sim (option_Forall2 sb_repr) (apply_option junk_char windows b opt) (ref_option windows t opt).
Proof using Type.
  clear Hjunk. intros Hr. unfold apply_option, ref_option.
  repeat match goal with |- sim _ (if ?c then _ else _) _ => destruct c end.
  all: try (apply sim_ok; by constructor). all: apply sim_done.
  - by apply exists_computes, Prepend_repr.
  - by apply exists_computes, Add_repr.
  - by apply exists_computes, PrependUnless_repr.
  - by apply exists_computes, AppendUnless_repr.
  - by apply exists_computes, each_char_repr.
  - by apply exists_computes, each_char_repr.
  - destruct windows; by apply exists_computes, each_char_repr.
  - by apply exists_computes, each_char_repr.
  - by apply exists_computes, each_char_repr.
  - by apply cut_dir_computes.
  - by apply GetFilename_computes.
  - by apply cut_dir_computes.
  - by apply Quote_computes.
  - by apply around_computes.
Qed.

Lemma options_sim options : forall b t, sb_repr b t -> sim (option_Forall2 sb_repr) (apply_options junk_char windows b options) (ref_options windows t options).
Proof using Type.
  clear Hjunk. induction options as [|o options IH]; intros b t Hr; cbn [apply_options ref_options]; [apply sim_ok; by constructor|].
  eapply sim_try; [by apply option_sim|]. intros x y Hx. by apply IH.
Qed.

(** The output is what was there with the expansion after it. *)
Definition after (t : text) (b : StringBuffer) (s : cstr) : Prop := sb_repr b (grown (t_spilled t) (t_str t ++ s)).

Lemma after_nil t b : sb_repr b t -> after t b [].
Proof using Type. clear Hjunk. intros Hr. unfold after. rewrite app_nil_r. destruct t. by apply grown_repr. Qed.

Lemma after_after t a b s : after (grown (t_spilled t) (t_str t ++ a)) b s -> after t b (a ++ s).
Proof using Type.
  clear Hjunk. unfold after. change (t_str (grown ?x ?y)) with y. rewrite grown_grown by (rewrite !length_app; lia). by rewrite <- app_assoc.
Qed.

Lemma fresh_repr : sb_repr (StringBufferInit junk_internal) (mkText false []).
Proof using Hjunk. exists junk_internal. by split_and!. Qed.

Section Var.
Context (interp : StringBuffer -> cstr -> res (option StringBuffer)) (ref : cstr -> res (option text)).
Hypothesis Hint : forall s, sim (option_Forall2 sb_repr) (interp (StringBufferInit junk_internal) s) (ref s).

Lemma items_sim elems options join first n : forall i out t, 0 <= first <= i -> i + Z.of_nat n <= zlen elems \/ n = 0%nat -> sb_repr out t ->
  sim (option_Forall2 (after t)) (items_loop junk_internal junk_char windows interp n elems options join first i out)
    (ref_items windows ref (take n (drop (Z.to_nat i) elems)) options join (negb (first <? i))).
Proof using Hint.
  clear Hjunk. induction n as [|n IH]; intros i out t Hf Hn Hr; cbn [items_loop].
  { apply sim_ok. constructor. by apply after_nil. }
  destruct (zlookup_is_Some elems i) as [x Hx]; [lia|]. unfold GetValue. rewrite Hx. pose proof Hx as Hd. unfold zlookup in Hd. rewrite bool_decide_true in Hd by lia.
  rewrite (drop_S _ _ _ Hd). cbn [take ref_items]. destruct x as [item|]; [|apply sim_ok; constructor].
  eapply sim_try; [apply Hint|]. intros b1 t1 H1. eapply sim_try; [by apply options_sim|]. intros b2 t2 H2. destruct (repr_view b2 t2 H2) as (rest & -> & ->). rewrite bytes_front.
  set (j := if first <? i then join else []). assert (exists out1, (if first <? i then Add junk_char out join else OK out) = OK out1 /\ sb_repr out1 (grown (t_spilled t) (t_str t ++ j))) as (out1 & -> & Ho1).
  { unfold j. destruct (first <? i); [by apply Add_repr|]. exists out. split; [done|]. by apply after_nil. }
  cbn [mbind res_bind]. destruct (Add_repr junk_char out1 _ (t_str t2) Ho1) as (out2 & -> & Ho2). cbn [mbind res_bind].
  specialize (IH (i + 1) out2 _ ltac:(lia) ltac:(lia) Ho2). rewrite (proj2 (Z.ltb_lt first (i + 1))) in IH by lia. cbn [negb] in IH. replace (Z.to_nat (i + 1)) with (S (Z.to_nat i)) in IH by lia.
  assert (E : forall r, (r0 ← r; match r0 with Some s => OK (Some ((if negb (first <? i) then [] else join) ++ t_str t2 ++ s)) | None => OK None end) =
    (y ← r; OK (option_map (fun s => j ++ t_str t2 ++ s) y))).
  { intros [[s|]|f]; try done. cbn. unfold j. by destruct (first <? i). }
  rewrite E. eapply sim_map; [exact IH|]. intros b s Hb. by apply after_after, after_after.
Qed.

Lemma until_nul_end s : until_nul (s ++ [NUL]) = until_nul s.
Proof using Type. clear Hjunk Hint. induction s as [|c s IH]; [done|]. cbn. by rewrite IH. Qed.

Lemma var_sim out t str : sb_repr out t ->
  sim (option_Forall2 (after t)) (InterpolateVar junk_internal junk_char windows interp lookup out str) (ref_var windows ref lookup str).
Proof using Hint.
  clear Hjunk. intros Hr. unfold InterpolateVar, ref_var. eapply sim_try; [apply Hint|]. intros b1 t1 H1.
  destruct (Add_repr junk_char b1 t1 [NUL] H1) as (b2 & E2 & H2). unfold NullTerminate. rewrite E2. cbn [mbind res_bind].
  destruct (repr_view b2 _ H2) as (rest & -> & ->). rewrite bytes_front. change (t_str (grown ?x ?y)) with y. rewrite until_nul_end.
  rewrite cut_options_spec. set (s := until_nul (t_str t1)). destruct (has_prefix (s2l ":") s); [done|]. cbn [mbind res_bind].
  assert ((kMaxOptions <? length (tail (glue id (split_on ":"%char s))))%nat = (10 <? zlen (ref_opts s))) as ->.
  { rewrite <- ref_opts_spec, length_map. unfold kMaxOptions. apply Bool.eq_iff_eq_true. rewrite Nat.ltb_lt, Z.ltb_lt. lia. }
  destruct (10 <? zlen (ref_opts s)); [apply sim_ok; constructor|]. rewrite ref_opts_spec, elements_spec. apply sim_same. intros elems _. unfold ref_selected.
  destruct (Z.leb_spec (2 ^ 63) (zlen elems)); [done|]. pose proof (select_items_spec (zlen elems) (ref_opts s) ltac:(lia) (mkSel [" "%char] 0 (zlen elems))) as Hs.
  destruct (numbers (arguments "["%char (ref_opts s))) as [ns|[]]; cbn [mbind res_bind sim] in *; try done; try (by rewrite Hs).
  case_bool_decide as Hns; cbn [sim] in Hs; destruct Hs as (x & -> & ->); cbn [mbind res_bind]; [|apply sim_ok; constructor].
  destruct (selects_items elems (ref_opts s) ns Hns) as (H0 & Hm & <-). set (sel := selects _ _ ns) in *.
  pose proof (items_sim elems (ref_opts s) (sel_Join sel) (sel_First sel) (Z.to_nat (sel_Max sel - sel_First sel)) (sel_First sel) out t ltac:(lia) ltac:(lia) Hr) as Hi.
  by rewrite Z.ltb_irrefl in Hi.
Qed.
End Var.

Lemma interpolate_sim fuel : forall out t str, sb_repr out t -> sim (option_Forall2 (after t)) (interpolate fuel out str) (expand windows fuel lookup str).
Proof using Hjunk.
  induction fuel as [|fuel IH]; intros out t str Hr; cbn [DoInterpolate expand]; [done|]. destruct str as [|ch str]; [apply sim_ok; constructor; by apply after_nil|].
  assert (Hfresh : forall s, sim (option_Forall2 sb_repr) (interpolate fuel (StringBufferInit junk_internal) s) (r ← expand windows fuel lookup s; OK (option_map (grown false) r))).
  { intros s. eapply sim_map; [exact (IH _ _ s fresh_repr)|]. by intros x y Hx. }
  rewrite opens_spec, close_paren_start. destruct (Ascii.eqb ch "$"%char && opens _ str).
  - destruct (close_paren [] (drop 1 str)) as [[inside rest]|]; [|apply sim_ok; constructor].
    eapply sim_try; [apply (var_sim _ _ Hfresh _ _ _ Hr)|]. intros b a Ha. eapply sim_map; [exact (IH b _ rest Ha)|]. intros x y. apply after_after.
  - destruct (Add_repr junk_char out t [ch] Hr) as (b & -> & Hb). cbn [mbind res_bind]. eapply sim_map; [exact (IH b _ str Hb)|]. intros x y. apply (after_after t [ch]).
Qed.
End Refines.

(** ** Interpolation ends *)

Definition ends {A} (r : res A) : Prop := r <> Err OutOfFuel.

Lemma ends_ok {A} (a : A) : ends (OK a).
Proof. done. Qed.

Lemma ends_bind {A B} (r : res A) (k : A -> res B) : ends r -> (forall a, r = OK a -> ends (k a)) -> ends (a ← r; k a).
Proof. unfold ends. destruct r as [a|f]; cbn; [auto|]. intros Hf _ [= ->]. done. Qed.

Lemma ends_check b e : ends (check b e).
Proof. by destruct b. Qed.

Lemma ends_opt {A} (o : option A) : ends (of_opt o).
Proof. by destruct o. Qed.

Lemma ends_write {A} i (x : A) l : ends (zwrite i x l).
Proof. unfold zwrite. by case_match. Qed.

Lemma ends_copy d off s : ends (copy_into d off s).
Proof. unfold copy_into. by case_match. Qed.

Create HintDb ends discriminated.
#[export] Hint Resolve ends_ok ends_check ends_opt ends_write ends_copy : ends.

Ltac ends_step :=
  first
    [ progress auto with ends
    | apply ends_bind; [|intros]
    | match goal with |- ends (match ?x with _ => _ end) => destruct x end
    | discriminate ].
Ltac ends := repeat ends_step.

Section Ends.
Context (junk_internal : cstr) (junk_char : ascii) (windows : bool) (lookup : LuaEnvLookup).

Lemma ends_poke b off d : ends (poke b off d).
Proof. unfold poke. ends. Qed.
#[local] Hint Resolve ends_poke : ends.

Lemma ends_grow b len : ends (Grow junk_char b len).
Proof. unfold Grow. ends. Qed.
#[local] Hint Resolve ends_grow : ends.

Lemma ends_add b d : ends (Add junk_char b d).
Proof. unfold Add. ends. Qed.

Lemma ends_prepend b d : ends (Prepend junk_char b d).
Proof. unfold Prepend. ends. Qed.

Lemma ends_shrink b n : ends (Shrink b n).
Proof. unfold Shrink. ends. Qed.

Lemma ends_index p n buf : ends (last_index p n buf).
Proof. induction n as [|n IH]; cbn [last_index]; ends. Qed.

Lemma ends_double n : forall data r w, ends (double_loop n data r w).
Proof. induction n as [|n IH]; intros data r w; cbn [double_loop]; ends. Qed.
#[local] Hint Resolve ends_add ends_prepend ends_shrink ends_index ends_double : ends.

Lemma ends_prep b : ends (PrepQuoteCommon junk_char b).
Proof. unfold PrepQuoteCommon, drop_trailing_backslash. ends. Qed.
#[local] Hint Resolve ends_prep : ends.

Lemma ends_option b opt : ends (apply_option junk_char windows b opt).
Proof.
  unfold apply_option, Append, PrependUnless, AppendUnless, Append, ToForwardSlashes, ToBackSlashes, ToUppercase, ToLowercase, each_char, DropSuffix, GetFilename,
    GetFilenameDir, Quote, EscapeForCmdlineDefine, Append. ends.
Qed.
#[local] Hint Resolve ends_option : ends.

Lemma ends_options options : forall b, ends (apply_options junk_char windows b options).
Proof. induction options as [|o options IH]; intros b; cbn [apply_options]; ends. Qed.

Lemma ends_cut s : forall prev, ends (cut_options prev s).
Proof. induction s as [|c s IH]; intros prev; cbn [cut_options]; ends. Qed.

Lemma ends_envs envs key : ends (walk_envs envs key).
Proof. induction envs as [|e envs IH]; cbn [walk_envs]; ends. Qed.

Lemma ends_lookup key : ends (LuaEnvLookupScope lookup key).
Proof. unfold LuaEnvLookupScope. ends; apply ends_envs. Qed.

Lemma ends_select count options : forall sel, ends (select_items count sel options).
Proof. induction options as [|o options IH]; intros sel; cbn [select_items]; [ends|]. unfold atoi. ends. Qed.
#[local] Hint Resolve ends_options ends_cut ends_lookup ends_select : ends.

Lemma ends_items interp elems options join first : (forall b s, Some s ∈ elems -> ends (interp b s)) ->
  forall n i out, ends (items_loop junk_internal junk_char windows interp n elems options join first i out).
Proof.
  intros Hi. induction n as [|n IH]; intros i out; cbn [items_loop]; [ends|]. unfold GetValue. destruct (elems !!z i) as [[s|]|] eqn:E; [|ends|ends].
  apply ends_bind; [apply Hi; by eapply zlookup_elem|]. intros [item|] _; ends.
Qed.

Lemma ends_var interp out str : (forall b, ends (interp b str)) -> (forall key elems b s, LuaEnvLookupScope lookup key = OK elems -> Some s ∈ elems -> ends (interp b s)) ->
  ends (InterpolateVar junk_internal junk_char windows interp lookup out str).
Proof.
  intros Hn Hv. unfold InterpolateVar, NullTerminate. apply ends_bind; [apply Hn|]. intros [b|] _; [|done]. apply ends_bind; [auto with ends|]. intros b' _.
  apply ends_bind; [auto with ends|]. intros [key options] _. case_match; [done|]. apply ends_bind; [auto with ends|]. intros elems El. apply ends_bind; [auto with ends|].
  intros [sel|] _; [|done]. apply ends_items. intros b0 s Hs. by eapply Hv.
Qed.

Abbreviation interpolate fuel := (DoInterpolate junk_internal junk_char windows fuel lookup).

Lemma plain_ends fuel : forall out str, (length str < fuel)%nat -> "$"%char ∉ str -> ends (interpolate fuel out str).
Proof.
  induction fuel as [|fuel IH]; intros out str Hf Hs; [lia|]. cbn [DoInterpolate]. destruct str as [|ch str]; [done|]. apply not_elem_of_cons in Hs as [Hc Hs].
  destruct (Ascii.eqb_spec ch "$"%char) as [->|_]; [done|]. cbn [andb]. apply ends_bind; [auto with ends|]. intros b _. apply IH; [cbn in Hf; lia|done].
Qed.

Lemma paren_length str : forall n inside rest, FindEndParen n str = Some (inside, rest) -> (length inside + length rest < length str)%nat.
Proof.
  induction str as [|c str IH]; intros n inside rest E; cbn [FindEndParen] in E; [done|]. case_match; [injection E as <- <-; cbn; lia|].
  destruct (FindEndParen _ str) as [[i r]|] eqn:Ef; [|done]. injection E as <- <-. apply IH in Ef. cbn. lia.
Qed.

(** Values without references, of bounded length. *)
Definition plain_values (M : nat) : Prop :=
  forall key elems s, LuaEnvLookupScope lookup key = OK elems -> Some s ∈ elems -> ("$"%char ∉ s) /\ (length s <= M)%nat.

Lemma interpolate_ends M : plain_values M -> forall fuel out str, (length str + M < fuel)%nat -> ends (interpolate fuel out str).
Proof.
  intros HM. induction fuel as [|fuel IH]; intros out str Hf; [lia|]. cbn [DoInterpolate]. destruct str as [|ch str]; [done|]. cbn [length] in Hf.
  case_match; [|apply ends_bind; [auto with ends|]; intros b _; apply IH; lia].
  destruct (FindEndParen 1 (drop 1 str)) as [[inside rest]|] eqn:E; [|done]. apply paren_length in E. rewrite length_drop in E. apply ends_bind.
  - apply ends_var; [intros b; apply IH; lia|]. intros key elems b s Hk Hs. destruct (HM key elems s Hk Hs) as [Hd Hl]. apply plain_ends; [lia|done].
  - intros [b|] _; [|done]. apply IH. lia.
Qed.
End Ends.

(** ** Properties *)


(** Interpolation ends when the values of the environment hold no references
    themselves: the depth needed is bounded by the lengths of the string and of the
    longest value, whatever the options do. *)
Theorem interpolation_ends junk_internal junk_char windows lookup M input fuel : plain_values lookup M -> (length input + M < fuel)%nat ->
  LuaInterpolate junk_internal junk_char windows fuel lookup input <> Err OutOfFuel.
Proof.
  intros HM Hf. unfold LuaInterpolate. apply (ends_bind (DoInterpolate _ _ _ fuel lookup _ input)); [by apply (interpolate_ends _ _ _ _ M)|]. intros [b|] _; discriminate.
Qed.

(** ** An environment *)

Module DemoEnv.
Definition vars (k : cstr) : lua_value :=
  if bool_decide (k = s2l "SRC") then LTable [Some (s2l "a b.c"); Some (s2l "lib/x.c")]
  else if bool_decide (k = s2l "KIND") then LTable [Some (s2l "SRC")]
  else if bool_decide (k = s2l "SELF") then LTable [Some (s2l "$(SELF)")]
  else if bool_decide (k = s2l "LONG") then LTable [Some ("/"%char :: replicate 70 "a"%char)]
  else LNil.
Definition lookup : LuaEnvLookup := mkLookup None [vars].
Definition plain (k : cstr) : lua_value := if bool_decide (k = s2l "SELF") then LNil else vars k.
Definition junk : cstr := replicate 64 "?"%char.
Definition run (s : string) : res cstr := LuaInterpolate junk "!"%char false 200 lookup (s2l s).
End DemoEnv.


Lemma demo_plain : plain_values (mkLookup None [DemoEnv.plain]) 71.
Proof.
  intros key elems s. unfold LuaEnvLookupScope, DemoEnv.plain, DemoEnv.vars. cbn. repeat case_bool_decide; try done; intros [= <-] Hs; rewrite ?elem_of_cons, elem_of_nil in Hs;
    repeat destruct Hs as [[= ->]|Hs]; try done; (split; [apply (bool_decide_eq_true_1 _); vm_compute; reflexivity|vm_compute; lia]).
Qed.

Lemma interpolation_ends_witness : LuaInterpolate DemoEnv.junk "!"%char false 100 (mkLookup None [DemoEnv.plain]) (s2l "$(SRC:q)") <> Err OutOfFuel.
Proof. apply (interpolation_ends DemoEnv.junk "!"%char false (mkLookup None [DemoEnv.plain]) 71); [exact demo_plain|cbn; lia]. Defined.

(** A value that refers to itself is expanded for ever. *)
Lemma self_loops fuel : forall out, DoInterpolate DemoEnv.junk "!"%char false fuel DemoEnv.lookup out (s2l "$(SELF)") = Err OutOfFuel.
Proof.
  induction fuel as [|fuel IH]; intros out; [done|].
  change (DoInterpolate DemoEnv.junk "!"%char false (S fuel) DemoEnv.lookup out (s2l "$(SELF)")) with
    (r ← InterpolateVar DemoEnv.junk "!"%char false (DoInterpolate DemoEnv.junk "!"%char false fuel DemoEnv.lookup) DemoEnv.lookup out (s2l "SELF");
     match r with Some output => DoInterpolate DemoEnv.junk "!"%char false fuel DemoEnv.lookup output [] | None => OK None end).
  enough (InterpolateVar DemoEnv.junk "!"%char false (DoInterpolate DemoEnv.junk "!"%char false fuel DemoEnv.lookup) DemoEnv.lookup out (s2l "SELF") = Err OutOfFuel) as -> by done.
  assert (Hn : DoInterpolate DemoEnv.junk "!"%char false fuel DemoEnv.lookup (StringBufferInit DemoEnv.junk) (s2l "SELF") = Err OutOfFuel \/
    DoInterpolate DemoEnv.junk "!"%char false fuel DemoEnv.lookup (StringBufferInit DemoEnv.junk) (s2l "SELF") = OK (Some (mkSB 4 (s2l "SELF" ++ replicate 60 "?"%char) 0 []))).
  { clear IH. do 5 (destruct fuel as [|fuel]; [left; vm_compute; reflexivity|]). right. vm_compute. reflexivity. }
  unfold InterpolateVar. destruct Hn as [-> | ->]; [done|]. cbn [mbind res_bind].
  match goal with |- (v ← NullTerminate _ ?b; @?k v) = _ => replace (NullTerminate "!"%char b) with (OK (mkSB 5 (s2l "SELF" ++ [NUL] ++ replicate 59 "?"%char) 0 [])) by (vm_compute; reflexivity) end.
  cbn [mbind res_bind]. match goal with |- ('(key, options) ← ?c; _) = _ => replace c with (OK (s2l "SELF", @nil cstr)) by (vm_compute; reflexivity) end. cbn [mbind res_bind].
  change ((kMaxOptions <? length (@nil cstr))%nat) with false. cbv iota. change (LuaEnvLookupScope DemoEnv.lookup (s2l "SELF")) with (OK [Some (s2l "$(SELF)")]). cbn [mbind res_bind map select_items].
  change (Z.to_nat (sel_Max (mkSel [" "%char] 0 (zlen [Some (s2l "$(SELF)")])) - sel_First (mkSel [" "%char] 0 (zlen [Some (s2l "$(SELF)")])))) with 1%nat. cbn [items_loop sel_First].
  change (GetValue [Some (s2l "$(SELF)")] 0) with (Some (s2l "$(SELF)")). cbv iota. by rewrite IH.
Qed.

(** The directory of a long path right below the root is not empty but the first
    64 characters of the path. *)
Example emptied_buffer_shows_old_text : DemoEnv.run "$(LONG:D)" = OK ("/"%char :: replicate 63 "a"%char).
Proof. vm_compute. reflexivity. Qed.

(** An option without a name makes the code look at the character before the array. *)
Example option_without_name : DemoEnv.run "$(:q)" = Err OutOfBounds.
Proof. vm_compute. reflexivity. Qed.

(** Quotes inside a value are not escaped, a trailing backslash is dropped, and a single quote is left alone. *)
Example quoting_gaps :
  LuaInterpolate DemoEnv.junk "!"%char true 200 (mkLookup (Some (fun _ => LString [dquote])) []) (s2l "$(X:q)") = OK [dquote].
Proof. vm_compute. reflexivity. Qed.
