(* ===== verification/Options.v ===== *)
(** * Options of the command line

    [InitOptions] of src/src/Main.cpp: the table of options, short options with
    their value in the next word and long options with theirs after an equals
    sign, up to the first word that is not an option. *)

From S2P Require Import Prelude CType CommonFns JsonParse PathUtil Driver Interpolate.

(** ** The table *)

Inductive OptionType : Type := kBool | kInt | kString.

(** The member of [DriverOptions] an option sets; the table of the source has its offset. *)
Inductive OptionMember : Type :=
| m_ThreadCount | m_DryRun | m_ForceDagRegen | m_GenDagOnly | m_ShowTargets | m_Verbose | m_Quiet | m_Clean | m_Rebuild | m_SpammyVerbose
| m_DebugMessages | m_DebugSigning | m_DisplayStats | m_ProfileOutput | m_WorkingDir | m_DAGFileName | m_ShowHelp | m_ContinueOnError | m_IdeGen | m_QuickstartGen.

Record OptionTemplate : Type := mkTemplate { ot_ShortName : ascii; ot_LongName : cstr; ot_Type : OptionType; ot_Member : OptionMember }.

#[export] Instance OptionType_eq : EqDecision OptionType.
Proof. solve_decision. Defined.
#[export] Instance OptionMember_eq : EqDecision OptionMember.
Proof. solve_decision. Defined.
#[export] Instance OptionTemplate_eq : EqDecision OptionTemplate.
Proof. solve_decision. Defined.

Definition g_OptionTemplates : list OptionTemplate :=
  [ mkTemplate "j"%char (s2l "threads") kInt m_ThreadCount; mkTemplate "n"%char (s2l "dry-run") kBool m_DryRun;
    mkTemplate "f"%char (s2l "force-dag-regen") kBool m_ForceDagRegen; mkTemplate "G"%char (s2l "dag-regen-only") kBool m_GenDagOnly;
    mkTemplate "t"%char (s2l "show-targets") kBool m_ShowTargets; mkTemplate "v"%char (s2l "verbose") kBool m_Verbose;
    mkTemplate "q"%char (s2l "quiet") kBool m_Quiet; mkTemplate "c"%char (s2l "clean") kBool m_Clean;
    mkTemplate "l"%char (s2l "rebuild") kBool m_Rebuild; mkTemplate "w"%char (s2l "spammy-verbose") kBool m_SpammyVerbose;
    mkTemplate "D"%char (s2l "debug") kBool m_DebugMessages; mkTemplate "S"%char (s2l "debug-signing") kBool m_DebugSigning;
    mkTemplate "s"%char (s2l "stats") kBool m_DisplayStats; mkTemplate "p"%char (s2l "profile") kString m_ProfileOutput;
    mkTemplate "C"%char (s2l "working-dir") kString m_WorkingDir; mkTemplate "R"%char (s2l "dagfile") kString m_DAGFileName;
    mkTemplate "h"%char (s2l "help") kBool m_ShowHelp; mkTemplate "k"%char (s2l "continue") kBool m_ContinueOnError;
    mkTemplate "g"%char (s2l "ide-gen") kBool m_IdeGen; mkTemplate "Q"%char (s2l "quickstart") kBool m_QuickstartGen ].

(** ** Values *)

Inductive OptionValue : Type := VBool (b : bool) | VInt (n : Z) | VString (s : cstr).

(** The store through [option_base + templ->m_Offset]. *)
Definition store_member (o : DriverOptions) (m : OptionMember) (v : OptionValue) : DriverOptions :=
  let b (mm : OptionMember) (old : bool) := match v with VBool x => if bool_decide (m = mm) then x else old | _ => old end in
  let n old := match v with VInt x => if bool_decide (m = m_ThreadCount) then x else old | _ => old end in
  let s (mm : OptionMember) (old : option cstr) := match v with VString x => if bool_decide (m = mm) then Some x else old | _ => old end in
  mkOptions (b m_ShowHelp (opt_ShowHelp o)) (b m_DryRun (opt_DryRun o)) (b m_ForceDagRegen (opt_ForceDagRegen o)) (b m_ShowTargets (opt_ShowTargets o))
    (b m_DebugMessages (opt_DebugMessages o)) (b m_Verbose (opt_Verbose o)) (b m_SpammyVerbose (opt_SpammyVerbose o)) (b m_DisplayStats (opt_DisplayStats o))
    (b m_GenDagOnly (opt_GenDagOnly o)) (b m_Quiet (opt_Quiet o)) (b m_IdeGen (opt_IdeGen o)) (b m_Clean (opt_Clean o)) (b m_Rebuild (opt_Rebuild o))
    (b m_DebugSigning (opt_DebugSigning o)) (b m_ContinueOnError (opt_ContinueOnError o)) (b m_QuickstartGen (opt_QuickstartGen o))
    (n (opt_ThreadCount o)) (s m_WorkingDir (opt_WorkingDir o)) (default [] (s m_DAGFileName (Some (opt_DAGFileName o)))) (s m_ProfileOutput (opt_ProfileOutput o)).

(** The options and the number of words used; 0 when the value is missing. *)
Definition AssignOptionValue (o : DriverOptions) (templ : OptionTemplate) (value : option cstr) (is_short : bool) : res (DriverOptions * nat) :=
  match ot_Type templ with
  | kBool => OK (store_member o (ot_Member templ) (VBool true), 1%nat)
  | kInt =>
      match value with
      | Some value => n ← atoi value; OK (store_member o (ot_Member templ) (VInt n), if is_short then 2%nat else 1%nat)
      | None => OK (o, 0%nat)
      end
  | kString =>
      match value with
      | Some value => OK (store_member o (ot_Member templ) (VString value), if is_short then 2%nat else 1%nat)
      | None => OK (o, 0%nat)
      end
  end.

(** ** The loop *)

Definition find_short (c : ascii) : option OptionTemplate := List.find (fun t => Ascii.eqb c (ot_ShortName t)) g_OptionTemplates.
Definition find_long (name : cstr) : option OptionTemplate := List.find (fun t => bool_decide (ot_LongName t = name)) g_OptionTemplates.

(** The text before and after the first equals sign. *)
Fixpoint split_equals (s : cstr) : cstr * option cstr :=
  match s with
  | [] => ([], None)
  | c :: s' => if Ascii.eqb c "="%char then ([], Some s') else let '(a, b) := split_equals s' in (c :: a, b)
  end.

(** One option; [None] is [return false]. *)
Definition parse_option (o : DriverOptions) (opt_str : cstr) (next : option cstr) : res (option (DriverOptions * nat)) :=
  let found (r : res (DriverOptions * nat)) := '(o, advance_count) ← r; if (advance_count =? 0)%nat then OK None else OK (Some (o, advance_count)) in
  match opt_str with
  | _ :: c :: rest =>
      if Ascii.eqb c "-"%char then
        let '(name, opt_arg) := split_equals rest in
        match find_long name with
        | Some templ => found (AssignOptionValue o templ opt_arg false)
        | None => OK None
        end
      else
        match rest with
        | _ :: _ => OK None
        | [] =>
            match find_short c with
            | Some templ => found (AssignOptionValue o templ next true)
            | None => OK None
            end
        end
  | _ => Err OutOfBounds
  end.

(** The options and the words left; [argv] without the name of the program. A
    lone dash is shorter than the characters looked at. *)
Fixpoint InitOptions_loop (fuel : nat) (o : DriverOptions) (argv : list cstr) : res (option (DriverOptions * list cstr)) :=
  match fuel with
  | O => Err OutOfFuel
  | S fuel =>
      match argv with
      | [] => OK (Some (o, []))
      | opt_str :: argv' =>
          if negb (Ascii.eqb (char_at opt_str 0) "-"%char) then OK (Some (o, argv))
          else
            r ← parse_option o opt_str (head argv');
            match r with
            | None => OK None
            | Some (o, advance_count) => InitOptions_loop fuel o (drop advance_count argv)
            end
      end
  end.

Definition InitOptions (o : DriverOptions) (argv : list cstr) : res (option (DriverOptions * list cstr)) := InitOptions_loop (S (length argv)) o argv.

(** ** Options as they are given *)

Record Given : Type := mkGiven { gv_Template : OptionTemplate; gv_Short : bool; gv_Value : cstr }.

Definition words (g : Given) : list cstr :=
  let t := gv_Template g in
  let short := ["-"%char; ot_ShortName t] in
  match ot_Type t, gv_Short g with
  | kBool, true => [short]
  | kBool, false => [s2l "--" ++ ot_LongName t]
  | _, true => [short; gv_Value g]
  | _, false => [s2l "--" ++ ot_LongName t ++ "="%char :: gv_Value g]
  end.

(** What the option stores. *)
Definition value_of (g : Given) : option OptionValue :=
  match ot_Type (gv_Template g) with
  | kBool => Some (VBool true)
  | kInt => match atoi (gv_Value g) with OK n => Some (VInt n) | Err _ => None end
  | kString => Some (VString (gv_Value g))
  end.

Definition given_ok (g : Given) : Prop := gv_Template g ∈ g_OptionTemplates /\ is_Some (value_of g).

Definition set_option (o : DriverOptions) (g : Given) : DriverOptions :=
  match value_of g with Some v => store_member o (ot_Member (gv_Template g)) v | None => o end.

Lemma templates_found : Forall (fun t => find_short (ot_ShortName t) = Some t /\ find_long (ot_LongName t) = Some t /\ ot_ShortName t <> "-"%char /\ ("="%char ∉ ot_LongName t)) g_OptionTemplates.
Proof. apply (bool_decide_eq_true_1 _). vm_compute. reflexivity. Qed.

Lemma split_equals_none s : "="%char ∉ s -> split_equals s = (s, None).
Proof. induction s as [|c s IH]; intros Hs; [done|]. apply not_elem_of_cons in Hs as [Hc Hs]. cbn. rewrite IH by done. by destruct (Ascii.eqb_spec c "="%char) as [->|]. Qed.

Lemma split_equals_some s v : "="%char ∉ s -> split_equals (s ++ "="%char :: v) = (s, Some v).
Proof. induction s as [|c s IH]; intros Hs; [done|]. apply not_elem_of_cons in Hs as [Hc Hs]. cbn. rewrite IH by done. by destruct (Ascii.eqb_spec c "="%char) as [->|]. Qed.

(** What follows once the template is found. *)
Definition assigned (r : res (DriverOptions * nat)) : res (option (DriverOptions * nat)) :=
  '(o, advance_count) ← r; if (advance_count =? 0)%nat then OK None else OK (Some (o, advance_count)).

Lemma parse_short o t next : t ∈ g_OptionTemplates -> parse_option o ["-"%char; ot_ShortName t] next = assigned (AssignOptionValue o t next true).
Proof.
  intros Ht. pose proof templates_found as HF. rewrite Forall_forall in HF. destruct (HF _ Ht) as (Hs & _ & Hd & _). unfold parse_option.
  destruct (Ascii.eqb_spec (ot_ShortName t) "-"%char) as [|_]; [done|]. by rewrite Hs.
Qed.

Lemma parse_long o t s arg next : t ∈ g_OptionTemplates -> split_equals s = (ot_LongName t, arg) -> parse_option o (s2l "--" ++ s) next = assigned (AssignOptionValue o t arg false).
Proof.
  intros Ht Es. pose proof templates_found as HF. rewrite Forall_forall in HF. destruct (HF _ Ht) as (_ & Hl & _ & _).
  change (parse_option o (s2l "--" ++ s) next) with (let '(name, opt_arg) := split_equals s in match find_long name with Some templ => assigned (AssignOptionValue o templ opt_arg false) | None => OK None end).
  by rewrite Es, Hl.
Qed.

Lemma parse_given o g argv : given_ok g -> exists opt_str rest, words g ++ argv = opt_str :: rest /\ char_at opt_str 0 = "-"%char /\
  parse_option o opt_str (head rest) = OK (Some (set_option o g, length (words g))).
Proof.
  intros [Ht [v Hv]]. pose proof templates_found as HF. rewrite Forall_forall in HF. destruct (HF _ Ht) as (_ & _ & _ & He).
  unfold words, set_option, value_of in *. destruct g as [t short value]. cbn [gv_Template gv_Short gv_Value] in *.
  destruct (ot_Type t) eqn:Ety, short; cbn [app]; (eexists _, _; split; [reflexivity|]; split; [reflexivity|]).
  all: first [rewrite parse_short by done|erewrite parse_long; [|done|first [by apply split_equals_none|by apply split_equals_some]]].
  all: unfold AssignOptionValue; rewrite Ety; cbn [head mbind res_bind]; try reflexivity.
  all: destruct (atoi value); [reflexivity|discriminate Hv].
Qed.

(** The words that are left do not start with a dash. *)
Definition targets_ok (targets : list cstr) : Prop := match targets with [] => True | t :: _ => char_at t 0 <> "-"%char end.

Lemma loop_reads gs : forall fuel o targets, Forall given_ok gs -> targets_ok targets -> (length (concat (map words gs) ++ targets) < fuel)%nat ->
  InitOptions_loop fuel o (concat (map words gs) ++ targets) = OK (Some (foldl set_option o gs, targets)).
Proof.
  induction gs as [|g gs IH]; intros fuel o targets HF Ht Hl; (destruct fuel as [|fuel]; [lia|]); cbn [map concat foldl app InitOptions_loop].
  - destruct targets as [|t targets]; [done|]. cbn in Ht. by destruct (Ascii.eqb_spec (char_at t 0) "-"%char).
  - apply Forall_cons in HF as [Hg HF]. rewrite <- app_assoc. destruct (parse_given o g (concat (map words gs) ++ targets) Hg) as (x & rest & Ex & Ec & Ep).
    cbn [map concat] in Hl. rewrite <- app_assoc in Hl. rewrite Ex in Hl |- *. rewrite Ec. change (Ascii.eqb "-"%char "-"%char) with true. cbn [negb]. rewrite Ep. cbn [mbind res_bind].
    rewrite <- Ex, drop_app_length. apply IH; [done|done|]. apply (f_equal length) in Ex. rewrite length_app in Ex. assert (length (words g) <> 0%nat) by (unfold words; by repeat case_match).
    cbn [length] in Hl, Ex. lia.
Qed.

(** ** Properties *)

(** Every option of the table, short or long, sets its member and no other; options
    are read in order, a later one overriding an earlier one, up to the first word
    that does not start with a dash, and the words from there on are left. *)
Theorem options_read_back o gs targets : Forall given_ok gs -> targets_ok targets ->
  InitOptions o (concat (map words gs) ++ targets) = OK (Some (foldl set_option o gs, targets)).
Proof. intros HF Ht. apply loop_reads; [done|done|]. unfold lt. reflexivity. Qed.

Lemma options_read_back_witness :
  InitOptions (DriverOptionsInit 4) (map s2l ["-j"; "2"; "--dagfile=x.dag"; "-c"; "all"; "-v"]%string) =
  OK (Some (store_member (store_member (store_member (DriverOptionsInit 4) m_ThreadCount (VInt 2)) m_DAGFileName (VString (s2l "x.dag"))) m_Clean (VBool true), map s2l ["all"; "-v"]%string)).
Proof.
  apply (options_read_back (DriverOptionsInit 4)
    [mkGiven (mkTemplate "j"%char (s2l "threads") kInt m_ThreadCount) true (s2l "2"); mkGiven (mkTemplate "R"%char (s2l "dagfile") kString m_DAGFileName) false (s2l "x.dag");
     mkGiven (mkTemplate "c"%char (s2l "clean") kBool m_Clean) true []] (map s2l ["all"; "-v"]%string)).
  - apply (bool_decide_eq_true_1 (Forall (fun g => gv_Template g ∈ g_OptionTemplates /\ is_Some (value_of g)) _)). vm_compute. reflexivity.
  - discriminate.
Defined.

Lemma parse_advances o opt_str next o' n : parse_option o opt_str next = OK (Some (o', n)) -> n <> 0%nat.
Proof.
  unfold parse_option. destruct opt_str as [|x [|c rest]]; [done|done|]. repeat case_match; try done.
  all: destruct (AssignOptionValue _ _ _ _) as [[o2 k]|]; [|done]; cbn [mbind res_bind]; destruct (Nat.eqb_spec k 0); [done|]; by intros [= <- <-].
Qed.

(** The loop ends, whatever the words. *)
Lemma InitOptions_ends o argv : InitOptions o argv <> Err OutOfFuel.
Proof.
  unfold InitOptions. assert (H : forall fuel o argv, (length argv < fuel)%nat -> InitOptions_loop fuel o argv <> Err OutOfFuel); [|apply H; lia].
  induction fuel as [|fuel IH]; intros o' argv' Hl; [lia|]. cbn [InitOptions_loop]. destruct argv' as [|x rest]; [done|]. case_match; [done|].
  destruct (parse_option o' x (head rest)) as [[[o1 n]|]|f] eqn:E; cbn [mbind res_bind]; [|done|].
  - apply parse_advances in E. apply IH. rewrite length_drop. cbn [length] in *. lia.
  - intros [= ->]. unfold parse_option, AssignOptionValue, atoi in E. repeat case_match; try done; cbn [mbind res_bind] in E; repeat case_match; done.
Qed.

Example lone_dash : InitOptions (DriverOptionsInit 4) [s2l "-"] = Err OutOfBounds.
Proof. reflexivity. Qed.
