(* ===== verification/Main.v ===== *)
(** * The program

    [main] in src/src/Main.cpp for the Unix builds, from the command line to the
    exit code. The parts it calls are operations of a class, on a state of their
    own and each with what it answers; the calls are recorded in the order they
    are made. The statistics and messages that are printed are left out. *)

From S2P Require Import Prelude BuildQueue Driver Options.

(** What [main] calls. *)
Class Program (W : Type) : Type := {
  pg_cpu_count : Z;
  pg_SetCwd : cstr -> W -> W * bool;
  pg_GenerateFiles : bool -> list cstr -> W -> W;
  pg_DriverInit : DriverOptions -> W -> W * bool;
  pg_ProfilerInit : cstr -> W -> W;
  pg_DriverInitData : W -> W * bool;
  pg_DriverShowTargets : W -> W;
  pg_DriverRemoveStaleOutputs : W -> W;
  pg_DriverPrepareNodes : list cstr -> W -> W * bool;
  pg_DriverCleanOutputs : W -> W;
  pg_DriverBuild : W -> W * BuildResult;
  pg_DriverSaveBuildState : W -> W * bool;
  pg_DriverSaveScanCache : W -> W * bool;
  pg_DriverSaveDigestCache : W -> W * bool;
  pg_DriverDestroy : W -> W;
  pg_ProfilerDestroy : W -> W }.

Inductive call : Type :=
| CSetCwd | CShowHelp | CGenerateFiles | CDriverInit | CProfilerInit | CDriverInitData | CShowTargets
| CRemoveStaleOutputs | CPrepareNodes | CCleanOutputs | CBuild (r : BuildResult) | CSaveBuildState | CSaveScanCache | CSaveDigestCache
| CDriverDestroy | CProfilerDestroy.

(** The state, the calls and the exit code. *)
Definition outcome (W : Type) : Type := W * list call * Z.

Section Main.
Context {W : Type} `{Program W}.

(** From the label [leave] on. *)
Definition leave (o : DriverOptions) (result : BuildResult) (w : W) (log : list call) : outcome W :=
  let '(w, log) := (pg_DriverDestroy w, log ++ [CDriverDestroy]) in
  let '(w, log) := match opt_ProfileOutput o with Some _ => (pg_ProfilerDestroy w, log ++ [CProfilerDestroy]) | None => (w, log) end in
  (w, log, match result with ResultOk => 0 | _ => 1 end).

(** The build and what is saved after it; a failure to save is only reported. *)
Definition build_and_save (o : DriverOptions) (w : W) (log : list call) : outcome W :=
  let '(w, result) := pg_DriverBuild w in
  let '(w, _) := pg_DriverSaveBuildState w in
  let '(w, _) := pg_DriverSaveScanCache w in
  let '(w, _) := pg_DriverSaveDigestCache w in
  leave o result w (log ++ [CBuild result; CSaveBuildState; CSaveScanCache; CSaveDigestCache]).

(** With the data of the driver there. *)
Definition with_data (o : DriverOptions) (argv : list cstr) (w : W) (log : list call) : outcome W :=
  if opt_GenDagOnly o then leave o ResultOk w log
  else if opt_ShowTargets o then leave o ResultOk (pg_DriverShowTargets w) (log ++ [CShowTargets])
  else
    let '(w, log) := (pg_DriverRemoveStaleOutputs w, log ++ [CRemoveStaleOutputs]) in
    let '(w, prepared) := pg_DriverPrepareNodes argv w in
    let log := log ++ [CPrepareNodes] in
    if negb prepared then leave o ResultSetupError w log
    else if opt_Clean o || opt_Rebuild o then
      let '(w, log) := (pg_DriverCleanOutputs w, log ++ [CCleanOutputs]) in
      if negb (opt_Rebuild o) then leave o ResultOk w log else build_and_save o w log
    else build_and_save o w log.

Definition run_driver (o : DriverOptions) (argv : list cstr) (w : W) (log : list call) : outcome W :=
  let '(w, ok) := pg_DriverInit o w in
  let log := log ++ [CDriverInit] in
  if negb ok then (w, log, 1)
  else
    let '(w, log) := match opt_ProfileOutput o with Some file => (pg_ProfilerInit file w, log ++ [CProfilerInit]) | None => (w, log) end in
    let '(w, ok) := pg_DriverInitData w in
    let log := log ++ [CDriverInitData] in
    if negb ok then leave o ResultSetupError w log else with_data o argv w log.

Definition main (argv : list cstr) (w : W) : res (outcome W) :=
  parsed ← InitOptions (DriverOptionsInit pg_cpu_count) argv;
  match parsed with
  | None => OK (w, [CShowHelp], 1)
  | Some (o, argv) =>
      '(w, log) ← match opt_WorkingDir o with
                  | Some dir => let '(w, ok) := pg_SetCwd dir w in if ok : bool then OK (w, [CSetCwd]) else Err (Croak "couldn't change directory to %s")
                  | None => OK (w, [])
                  end;
      OK (if opt_ShowHelp o then (w, log ++ [CShowHelp], 0)
          else if opt_IdeGen o then (pg_GenerateFiles true argv w, log ++ [CGenerateFiles], 0)
          else if opt_QuickstartGen o then (pg_GenerateFiles false argv w, log ++ [CGenerateFiles], 0)
          else run_driver o argv w log)
  end.

(** ** The calls of a run *)

Definition profiled (o : DriverOptions) (c : call) : list call := match opt_ProfileOutput o with Some _ => [c] | None => [] end.

(** The calls once the driver is there, up to the build. *)
Inductive until_leave (o : DriverOptions) : list call -> BuildResult -> Prop :=
| ul_no_data : until_leave o [] ResultSetupError
| ul_dag : opt_GenDagOnly o = true -> until_leave o [] ResultOk
| ul_targets : opt_ShowTargets o = true -> until_leave o [CShowTargets] ResultOk
| ul_not_prepared : until_leave o [CRemoveStaleOutputs; CPrepareNodes] ResultSetupError
| ul_cleaned : opt_Clean o = true -> opt_Rebuild o = false -> until_leave o [CRemoveStaleOutputs; CPrepareNodes; CCleanOutputs] ResultOk
| ul_built r cleaned : cleaned = (if opt_Rebuild o then [CCleanOutputs] else []) -> (opt_Rebuild o = false -> opt_Clean o = false) ->
    until_leave o ([CRemoveStaleOutputs; CPrepareNodes] ++ cleaned ++ [CBuild r; CSaveBuildState; CSaveScanCache; CSaveDigestCache]) r.

Definition exit_code (r : BuildResult) : Z := match r with ResultOk => 0 | _ => 1 end.

Lemma leave_eq o result w log : exists w', leave o result w log = (w', log ++ [CDriverDestroy] ++ profiled o CProfilerDestroy, exit_code result).
Proof. unfold leave, profiled. destruct (opt_ProfileOutput o); eexists; rewrite <- ?app_assoc; done. Qed.

Lemma build_and_save_eq o w log : exists w' r,
  build_and_save o w log = (w', log ++ [CBuild r; CSaveBuildState; CSaveScanCache; CSaveDigestCache] ++ [CDriverDestroy] ++ profiled o CProfilerDestroy, exit_code r).
Proof.
  unfold build_and_save. destruct (pg_DriverBuild w) as [w1 r], (pg_DriverSaveBuildState w1) as [w2 ?], (pg_DriverSaveScanCache w2) as [w3 ?], (pg_DriverSaveDigestCache w3) as [w4 ?].
  destruct (leave_eq o r w4 (log ++ [CBuild r; CSaveBuildState; CSaveScanCache; CSaveDigestCache])) as [w' ->]. exists w', r. by rewrite <- !app_assoc.
Qed.

Lemma with_data_calls o argv w log : exists w' calls r, with_data o argv w log = (w', log ++ calls ++ [CDriverDestroy] ++ profiled o CProfilerDestroy, exit_code r) /\
  until_leave o calls r.
Proof.
  unfold with_data. destruct (opt_GenDagOnly o) eqn:E1; [destruct (leave_eq o ResultOk w log) as [w' ->]; exists w', [], ResultOk; split; [done|by apply ul_dag]|].
  destruct (opt_ShowTargets o) eqn:E2.
  { destruct (leave_eq o ResultOk (pg_DriverShowTargets w) (log ++ [CShowTargets])) as [w' ->]. exists w', [CShowTargets], ResultOk. rewrite <- app_assoc. split; [done|by apply ul_targets]. }
  destruct (pg_DriverPrepareNodes argv (pg_DriverRemoveStaleOutputs w)) as [w1 prepared]. destruct prepared; cbn [negb].
  2: { destruct (leave_eq o ResultSetupError w1 ((log ++ [CRemoveStaleOutputs]) ++ [CPrepareNodes])) as [w' ->]. exists w', [CRemoveStaleOutputs; CPrepareNodes], ResultSetupError. rewrite <- !app_assoc. split; [reflexivity|apply ul_not_prepared]. }
  destruct (opt_Clean o || opt_Rebuild o) eqn:E3; [destruct (opt_Rebuild o) eqn:E4; cbn [negb]|].
  - destruct (build_and_save_eq o (pg_DriverCleanOutputs w1) (((log ++ [CRemoveStaleOutputs]) ++ [CPrepareNodes]) ++ [CCleanOutputs])) as (w' & r & ->).
    exists w', ([CRemoveStaleOutputs; CPrepareNodes] ++ [CCleanOutputs] ++ [CBuild r; CSaveBuildState; CSaveScanCache; CSaveDigestCache]), r.
    rewrite <- !app_assoc. split; [done|apply ul_built; by rewrite E4].
  - destruct (leave_eq o ResultOk (pg_DriverCleanOutputs w1) (((log ++ [CRemoveStaleOutputs]) ++ [CPrepareNodes]) ++ [CCleanOutputs])) as [w' ->].
    exists w', [CRemoveStaleOutputs; CPrepareNodes; CCleanOutputs], ResultOk. rewrite <- !app_assoc. split; [reflexivity|]. apply ul_cleaned; [|done]. by rewrite orb_false_r in E3.
  - apply orb_false_iff in E3 as [E3 E4]. destruct (build_and_save_eq o w1 ((log ++ [CRemoveStaleOutputs]) ++ [CPrepareNodes])) as (w' & r & ->).
    exists w', ([CRemoveStaleOutputs; CPrepareNodes] ++ [] ++ [CBuild r; CSaveBuildState; CSaveScanCache; CSaveDigestCache]), r.
    rewrite <- !app_assoc. split; [done|apply ul_built; by rewrite E4].
Qed.

(** The order of a run, whatever the parts of the program answer: the driver is
    set up and destroyed exactly once around everything else, and so is the
    profiler when it is asked for; stale outputs go before nodes are prepared,
    outputs are cleaned only after that; and a build is followed at once by saving
    the build state, the scan cache and the digest cache, whatever its result,
    before anything is destroyed. The exit code is 0 exactly when the result is
    that everything went well. *)
Theorem run_order o argv w log : exists w' calls r,
  run_driver o argv w log = (w', log ++ [CDriverInit], 1) \/
  (run_driver o argv w log =
     (w', log ++ [CDriverInit] ++ profiled o CProfilerInit ++ [CDriverInitData] ++ calls ++ [CDriverDestroy] ++ profiled o CProfilerDestroy, exit_code r) /\
   until_leave o calls r).
Proof.
  unfold run_driver. destruct (pg_DriverInit o w) as [w1 ok]. destruct ok; cbn [negb]; [|exists w1, [], ResultOk; by left].
  assert (Hp : exists w2, match opt_ProfileOutput o with Some file => (pg_ProfilerInit file w1, (log ++ [CDriverInit]) ++ [CProfilerInit]) | None => (w1, log ++ [CDriverInit]) end =
    (w2, (log ++ [CDriverInit]) ++ profiled o CProfilerInit)) by (unfold profiled; destruct (opt_ProfileOutput o); eexists; rewrite ?app_nil_r; done).
  destruct Hp as [w2 ->]. destruct (pg_DriverInitData w2) as [w3 ok]. destruct ok; cbn [negb].
  - destruct (with_data_calls o argv w3 (((log ++ [CDriverInit]) ++ profiled o CProfilerInit) ++ [CDriverInitData])) as (w' & calls & r & -> & Hu).
    exists w', calls, r. right. rewrite <- !app_assoc. done.
  - destruct (leave_eq o ResultSetupError w3 (((log ++ [CDriverInit]) ++ profiled o CProfilerInit) ++ [CDriverInitData])) as [w' ->].
    exists w', [], ResultSetupError. right. rewrite <- !app_assoc. split; [done|apply ul_no_data].
Qed.

End Main.

(** The option for a dry run is read and stored, and nothing depends on it: the
    configuration of the build is the same. *)
Definition dry (o : DriverOptions) : DriverOptions := store_member o m_DryRun (VBool true).

Lemma dry_run_ignored (d : Driver) (options : DriverOptions) :
  let with_options o := mkDriver o (dr_DagData d) (dr_StateData d) (dr_NodeRemap d) (dr_Nodes d) (dr_PassNodeCount d) in
  DriverBuild_config (with_options (dry options)) = DriverBuild_config (with_options options).
Proof. by destruct options. Qed.
