(* ===== verification/LinearAlloc.v ===== *)
(** * The linear allocator

    src/src/MemAllocLinear.cpp and MemAllocLinear.hpp: blocks are taken from the
    front of one large block and given back all at once, by [LinearAllocReset] or
    at the end of a [MemAllocLinearScope]. Addresses are 64-bit integers. *)

From S2P Require Import Prelude.

Record MemAllocLinear : Type := mkLinear { la_BasePointer : Z; la_Pointer : Z; la_Size : Z; la_Offset : Z; la_OwnerThread : Z }.

Definition kMaxAlignment : Z := 64.

(** [base] is what [HeapAllocate(heap, max_size + kMaxAlignment - 1)] returned. *)
Definition LinearAllocInit (base max_size : Z) : MemAllocLinear :=
  let aligned_base := Z.land (u64 (base + kMaxAlignment - 1)) (Z.lnot (kMaxAlignment - 1)) in
  let delta := u64 (aligned_base - base) in
  mkLinear base (u64 (base + delta)) (u64 (max_size - delta)) 0 0.

Definition LinearAllocSetOwner (self : MemAllocLinear) (thread_id : Z) : MemAllocLinear :=
  mkLinear (la_BasePointer self) (la_Pointer self) (la_Size self) (la_Offset self) thread_id.

Definition with_offset (self : MemAllocLinear) (offset : Z) : MemAllocLinear :=
  mkLinear (la_BasePointer self) (la_Pointer self) (la_Size self) offset (la_OwnerThread self).

Definition check_thread_ownership (self : MemAllocLinear) (thread : Z) : res unit :=
  check ((0 =? la_OwnerThread self) || (thread =? la_OwnerThread self)) "0 == alloc->m_OwnerThread || ThreadCurrent() == alloc->m_OwnerThread".

(** The allocator and the address of the block. *)
Definition LinearAllocate (thread : Z) (self : MemAllocLinear) (size align : Z) : res (MemAllocLinear * Z) :=
  _ ← check_thread_ownership self thread;
  _ ← check (0 =? Z.land align (u64 (align - 1))) "0 == (align & (align - 1))";
  _ ← check (0 <? align) "align > 0";
  let offset := Z.land (u64 (la_Offset self + align - 1)) (Z.lnot (align - 1)) in
  _ ← check (0 =? Z.land offset (align - 1)) "0 == (offset & (align -1))";
  if u64 (offset + size) <=? la_Size self then
    OK (with_offset self (u64 (offset + size)), u64 (la_Pointer self + offset))
  else Err (Croak "Out of memory in linear allocator").

Definition LinearAllocReset (thread : Z) (self : MemAllocLinear) : res MemAllocLinear :=
  _ ← check_thread_ownership self thread;
  OK (with_offset self 0).

(** [MemAllocLinearScope]: the offset when it begins, and what its end does. *)
Definition scope_begin (self : MemAllocLinear) : Z := la_Offset self.
Definition scope_end (self : MemAllocLinear) (m_Offset : Z) : MemAllocLinear := with_offset self m_Offset.

(** ** Blocks in use *)

Inductive alloc_op : Type :=
| Allocate (size align : Z)
| Begin
| End.

Record block : Type := mkBlock { bk_Address : Z; bk_Size : Z; bk_Align : Z }.

(** The blocks of the scopes, innermost first, each with the offset at its
    beginning; the last entry is what is outside every scope. *)
Record in_use : Type := mkUse { us_Alloc : MemAllocLinear; us_Scopes : list (Z * list block) }.

Definition step (thread : Z) (u : in_use) (op : alloc_op) : res in_use :=
  match op, us_Scopes u with
  | Allocate size align, (start, blocks) :: scopes =>
      '(a, p) ← LinearAllocate thread (us_Alloc u) size align;
      OK (mkUse a ((start, mkBlock p size align :: blocks) :: scopes))
  | Begin, scopes => OK (mkUse (us_Alloc u) ((scope_begin (us_Alloc u), []) :: scopes))
  | End, (start, _) :: scope :: scopes => OK (mkUse (scope_end (us_Alloc u) start) (scope :: scopes))
  | _, _ => Err OutOfBounds
  end.

Definition run_ops (thread : Z) (u : in_use) (ops : list alloc_op) : res in_use := foldl (fun r op => u ← r; step thread u op) (OK u) ops.

Definition blocks_of (u : in_use) : list block := concat (map snd (us_Scopes u)).

Definition start_use (a : MemAllocLinear) : in_use := mkUse a [(0, [])].

Definition op_ok (op : alloc_op) : Prop := match op with Allocate size align => 0 <= size < 2 ^ 62 /\ 0 <= align < 2 ^ 62 | _ => True end.

Definition disjoint (x y : block) : Prop := bk_Address x + bk_Size x <= bk_Address y \/ bk_Address y + bk_Size y <= bk_Address x.

(** ** Invariant *)

Lemma align_down x k : 0 <= k -> Z.land x (Z.lnot (2 ^ k - 1)) = x / 2 ^ k * 2 ^ k.
Proof.
  intros Hk. rewrite <- Z.shiftr_div_pow2, <- Z.shiftl_mul_pow2 by done. apply Z.bits_inj'. intros n Hn. rewrite Z.land_spec, Z.lnot_spec by done.
  replace (2 ^ k - 1) with (Z.ones k) by (rewrite Z.ones_equiv; lia). destruct (Z.ltb_spec n k).
  - rewrite Z.ones_spec_low by lia. cbn. rewrite Z.shiftl_spec_low by lia. apply andb_false_r.
  - rewrite Z.ones_spec_high by lia. cbn. rewrite Z.shiftl_spec, Z.shiftr_spec by lia. rewrite Z.sub_add. by rewrite andb_true_r.
Qed.

Lemma land_ones_pow x k : 0 <= k -> Z.land x (2 ^ k - 1) = x mod 2 ^ k.
Proof. intros Hk. replace (2 ^ k - 1) with (Z.ones k) by (rewrite Z.ones_equiv; lia). by apply Z.land_ones. Qed.

(** A positive number that shares no bit with its predecessor is a power of two. *)
Lemma power_of_two a : 0 < a -> Z.land a (a - 1) = 0 -> exists k, 0 <= k /\ a = 2 ^ k.
Proof.
  intros Ha Hl. exists (Z.log2 a). split; [apply Z.log2_nonneg|]. pose proof (Z.log2_spec a Ha) as [H1 H2]. destruct (Z.eq_dec a (2 ^ Z.log2 a)) as [|Hne]; [done|].
  exfalso. assert (Hb : Z.testbit (Z.land a (a - 1)) (Z.log2 a) = true).
  { rewrite Z.land_spec, Z.bit_log2 by done. cbn. assert (Z.log2 (a - 1) = Z.log2 a) as <- by (apply Z.log2_unique; [apply Z.log2_nonneg|lia]).
    apply Z.bit_log2. pose proof (Z.pow_pos_nonneg 2 (Z.log2 a) ltac:(lia) (Z.log2_nonneg a)). lia. }
  rewrite Hl, Z.bits_0 in Hb. done.
Qed.

Section Inv.
Context (P S : Z).

(** Blocks, the latest first, between two offsets, each after the one before it. *)
Fixpoint stacked (lo hi : Z) (blocks : list block) : Prop :=
  match blocks with
  | [] => lo <= hi
  | b :: blocks' =>
      let o := bk_Address b - P in
      0 <= bk_Size b /\ o + bk_Size b <= hi /\ (bk_Align b <= kMaxAlignment -> bk_Address b mod bk_Align b = 0) /\ stacked lo o blocks'
  end.

Fixpoint scopes_ok (top : Z) (scopes : list (Z * list block)) : Prop :=
  match scopes with
  | [] => 0 <= top
  | (start, blocks) :: scopes' => stacked start top blocks /\ scopes_ok start scopes'
  end.

Definition use_ok (u : in_use) : Prop :=
  la_Pointer (us_Alloc u) = P /\ la_Size (us_Alloc u) = S /\ la_Offset (us_Alloc u) <= S /\ scopes_ok (la_Offset (us_Alloc u)) (us_Scopes u).

Lemma stacked_le lo hi blocks : stacked lo hi blocks -> lo <= hi.
Proof. revert hi. induction blocks as [|b blocks IH]; intros hi; cbn; [done|]. intros (H0 & H1 & _ & H2). apply IH in H2. lia. Qed.

Lemma scopes_top top scopes : scopes_ok top scopes -> 0 <= top.
Proof. revert top. induction scopes as [|[start blocks] scopes IH]; intros top; cbn; [done|]. intros [H1%stacked_le H2%IH]. lia. Qed.

(** Every block is in range, and any two do not overlap. *)
Lemma stacked_in lo hi blocks b : 0 <= lo -> stacked lo hi blocks -> b ∈ blocks ->
  P + lo <= bk_Address b /\ 0 <= bk_Size b /\ bk_Address b + bk_Size b <= P + hi /\ (bk_Align b <= kMaxAlignment -> bk_Address b mod bk_Align b = 0).
Proof.
  intros H0. revert hi. induction blocks as [|x blocks IH]; intros hi Hs Hb; [set_solver|]. destruct Hs as (A & B & C & D). pose proof (stacked_le _ _ _ D).
  apply elem_of_cons in Hb as [->|Hb]; [split_and!; try done; lia|]. apply IH in D; [|done]. split_and!; try tauto; lia.
Qed.

Lemma stacked_disjoint lo hi blocks : 0 <= lo -> stacked lo hi blocks -> ForallOrdPairs disjoint blocks.
Proof.
  intros H0. revert hi. induction blocks as [|x blocks IH]; intros hi Hs; [constructor|]. destruct Hs as (A & B & C & D). constructor; [|by eapply IH].
  apply List.Forall_forall. intros y Hy%list_elem_of_In. destruct (stacked_in _ _ _ y H0 D Hy) as (_ & _ & H1 & _). right. lia.
Qed.

Lemma scopes_blocks top scopes : scopes_ok top scopes -> Forall (fun b => P <= bk_Address b /\ 0 <= bk_Size b /\ bk_Address b + bk_Size b <= P + top /\
    (bk_Align b <= kMaxAlignment -> bk_Address b mod bk_Align b = 0)) (concat (map snd scopes)) /\ ForallOrdPairs disjoint (concat (map snd scopes)).
Proof.
  revert top. induction scopes as [|[start blocks] scopes IH]; intros top Hs; [split; constructor|]. destruct Hs as [Hst Hsc]. pose proof (scopes_top _ _ Hsc) as H0. pose proof (stacked_le _ _ _ Hst).
  apply IH in Hsc as [HF HD]. cbn [map concat snd]. split.
  - apply Forall_app. split; [|apply (Forall_impl _ _ _ HF); intros b (?&?&?&?); split_and!; try done; lia]. apply Forall_forall. intros b Hb.
    destruct (stacked_in _ _ _ b H0 Hst Hb) as (?&?&?&?). split_and!; try done; lia.
  - pose proof (stacked_disjoint _ _ _ H0 Hst) as HB. assert (HX : forall b c, b ∈ blocks -> c ∈ concat (map snd scopes) -> disjoint b c).
    { intros b c Hb Hc. destruct (stacked_in _ _ _ b H0 Hst Hb) as (? & _ & _ & _). rewrite Forall_forall in HF. destruct (HF c Hc) as (_ & _ & ? & _). right. lia. }
    clear Hst HF. induction HB as [|b blocks Hb HB IHb]; [done|]. cbn [app]. constructor.
    + apply List.Forall_app. split; [done|]. apply List.Forall_forall. intros c Hc%list_elem_of_In. apply HX; [left|done].
    + apply IHb. intros b' c Hb' Hc. apply HX; [by right|done].
Qed.
Hypothesis HP : P mod kMaxAlignment = 0.
Hypothesis HPS : 0 <= P /\ 0 <= S /\ P + S < 2 ^ 63.

Lemma allocate_ok thread a size align a' p : la_Pointer a = P -> la_Size a = S -> 0 <= la_Offset a <= S -> 0 <= size < 2 ^ 62 -> 0 <= align < 2 ^ 62 ->
  LinearAllocate thread a size align = OK (a', p) ->
  exists o, la_Offset a <= o /\ p = P + o /\ a' = with_offset a (o + size) /\ o + size <= S /\ (align <= kMaxAlignment -> p mod align = 0).
Proof.
  intros EP ES Ho Hs Ha. unfold LinearAllocate, check_thread_ownership. destruct (_ || _); [|done]. cbn [check mbind res_bind].
  destruct (Z.eqb_spec 0 (Z.land align (u64 (align - 1)))) as [Hp|]; [|done]. cbn [check mbind res_bind]. destruct (Z.ltb_spec 0 align) as [Hpos|]; [|done]. cbn [check mbind res_bind].
  assert (Hu : u64 (align - 1) = align - 1) by (unfold u64; apply Z.mod_small; lia). rewrite Hu in Hp.
  destruct (power_of_two align Hpos (eq_sym Hp)) as (k & Hk & Ek). assert (Hoff : u64 (la_Offset a + align - 1) = la_Offset a + align - 1) by (unfold u64; apply Z.mod_small; lia).
  rewrite Hoff, Ek, align_down, <- Ek by done. set (o := (la_Offset a + align - 1) / align * align).
  assert (Hom : o mod align = 0) by (unfold o; apply Z.mod_mul; lia). assert (Hor : la_Offset a <= o <= la_Offset a + align - 1).
  { unfold o. pose proof (Z.div_mod (la_Offset a + align - 1) align ltac:(lia)). pose proof (Z.mod_pos_bound (la_Offset a + align - 1) align Hpos). nia. }
  destruct (0 =? Z.land o (align - 1)); [|done]. cbn [check mbind res_bind]. assert (Hos : u64 (o + size) = o + size) by (unfold u64; apply Z.mod_small; lia). rewrite Hos, ES, EP.
  destruct (Z.leb_spec (o + size) S) as [Hf|]; [|done]. intros [= <- <-]. exists o. assert (Hpo : u64 (P + o) = P + o) by (unfold u64; apply Z.mod_small; lia). rewrite Hpo.
  split_and!; try done; [lia|]. intros Hal. rewrite Z.add_mod, Hom, Z.add_0_r, Z.mod_mod by lia.
  assert (exists c, kMaxAlignment = c * align) as (c & Ec).
  { assert (k <= 6) by (destruct (Z.le_gt_cases k 6); [done|]; assert (2 ^ 7 <= 2 ^ k) by (apply Z.pow_le_mono_r; lia); unfold kMaxAlignment in *; lia).
    exists (2 ^ (6 - k)). rewrite Ek, <- Z.pow_add_r by lia. by replace (6 - k + k) with 6 by lia. }
  rewrite (Z.div_mod P kMaxAlignment), HP, Z.add_0_r, Ec by done. rewrite (Z.mul_comm c align), <- Z.mul_assoc, Z.mul_comm. apply Z.mod_mul. lia.
Qed.

Lemma step_ok thread u op u' : use_ok u -> op_ok op -> step thread u op = OK u' -> use_ok u'.
Proof.
  intros (EP & ES & Ho & Hs) Hop E. destruct op as [size align| |]; unfold step in E.
  - destruct (us_Scopes u) as [|[start blocks] scopes]; [done|]. destruct Hs as [Hst Hsc]. destruct (LinearAllocate _ _ _ _) as [[a p]|] eqn:Ea; [|done]. cbn [mbind res_bind] in E. injection E as <-.
    pose proof (stacked_le _ _ _ Hst). pose proof (scopes_top _ _ Hsc). destruct Hop as [Hsz Hal]. apply allocate_ok in Ea as (o & H1 & -> & -> & H3 & H4); [|done|done|lia|done|done].
    split_and!; try done. cbn. split_and!; try done; try lia. replace (P + o - P) with o by lia. clear -Hst H1. revert Hst. generalize (la_Offset (us_Alloc u)), H1. clear.
    intros hi Hle. destruct blocks as [|b blocks]; cbn; [lia|]. intros (A & B & C & D). split_and!; try done. lia.
  - injection E as <-. split_and!; try done. cbn. by split.
  - destruct (us_Scopes u) as [|[start blocks] [|s scopes]]; [done|done|]. injection E as <-. destruct Hs as [Hst Hsc]. apply stacked_le in Hst. split_and!; try done. cbn. lia.
Qed.

End Inv.

Lemma linear_init_ok base max_size : 0 <= base -> kMaxAlignment <= max_size -> base + max_size + kMaxAlignment < 2 ^ 63 ->
  let a := LinearAllocInit base max_size in
  la_Pointer a mod kMaxAlignment = 0 /\ base <= la_Pointer a /\ 0 <= la_Size a /\ la_Pointer a + la_Size a = base + max_size /\ la_Offset a = 0.
Proof.
  intros Hb Hm Hs. unfold LinearAllocInit. cbn. assert (Hu : u64 (base + kMaxAlignment - 1) = base + kMaxAlignment - 1) by (unfold u64; apply Z.mod_small; unfold kMaxAlignment in *; lia).
  rewrite Hu. change (Z.lnot (kMaxAlignment - 1)) with (Z.lnot (2 ^ 6 - 1)). rewrite align_down by lia. change (2 ^ 6) with kMaxAlignment. set (al := (base + kMaxAlignment - 1) / kMaxAlignment * kMaxAlignment).
  assert (Har : base <= al <= base + kMaxAlignment - 1).
  { unfold al. pose proof (Z.div_mod (base + kMaxAlignment - 1) kMaxAlignment ltac:(done)). pose proof (Z.mod_pos_bound (base + kMaxAlignment - 1) kMaxAlignment ltac:(done)). nia. }
  unfold kMaxAlignment in Har, Hm, Hs. assert (u64 (al - base) = al - base) as -> by (unfold u64; apply Z.mod_small; lia).
  assert (u64 (max_size - (al - base)) = max_size - (al - base)) as -> by (unfold u64; apply Z.mod_small; lia).
  assert (u64 (base + (al - base)) = al) as -> by (unfold u64; rewrite Z.mod_small; lia). split_and!; [apply Z.mod_mul; done|lia|lia|lia|done].
Qed.

(** ** Properties *)

(** C37. However allocations and scopes are nested, the blocks in use do not overlap,
    lie within the memory the allocator got from the heap, and have the
    alignment asked for, up to the 64 bytes the allocator itself is aligned to. *)
Theorem linear_blocks_disjoint base max_size thread ops u : 0 <= base -> kMaxAlignment <= max_size -> base + max_size + kMaxAlignment < 2 ^ 63 -> Forall op_ok ops ->
  run_ops thread (start_use (LinearAllocInit base max_size)) ops = OK u ->
  ForallOrdPairs disjoint (blocks_of u) /\
  Forall (fun b => base <= bk_Address b /\ bk_Address b + bk_Size b <= base + max_size /\ (bk_Align b <= kMaxAlignment -> bk_Address b mod bk_Align b = 0)) (blocks_of u).
Proof.
  intros Hb Hm Hs HF E. destruct (linear_init_ok base max_size Hb Hm Hs) as (HP & H1 & H2 & H3 & H4). set (a := LinearAllocInit base max_size) in *.
  assert (Hu : use_ok (la_Pointer a) (la_Size a) u).
  { assert (Hst : use_ok (la_Pointer a) (la_Size a) (start_use a)) by (split_and!; cbn; rewrite ?H4; done). revert E Hst. unfold run_ops. generalize (start_use a). clear -HF HP H1 H2 H3 Hb Hm Hs.
    induction HF as [|op ops Hop HF IH]; intros u0 E Hst; cbn [foldl] in E; [by injection E as <-|]. cbn [mbind res_bind] in E. destruct (step thread u0 op) as [u1|f] eqn:Es.
    - apply (IH u1 E). eapply step_ok; [exact HP|unfold kMaxAlignment in *; lia|exact Hst|exact Hop|exact Es].
    - exfalso. clear -E. induction ops as [|op' ops IH]; cbn in E; [done|by apply IH]. }
  destruct Hu as (_ & _ & Ho & Hsc). destruct (scopes_blocks _ _ _ Hsc) as [HB HD]. split; [done|]. apply (Forall_impl _ _ _ HB). intros b (?&?&?&?). split_and!; try done; lia.
Qed.

Lemma linear_blocks_disjoint_witness :
  exists u, run_ops 7 (start_use (LinearAllocInit 1000 4096)) [Allocate 10 1; Begin; Allocate 32 16; Allocate 3 8; End; Allocate 100 64] = OK u /\
  ForallOrdPairs disjoint (blocks_of u) /\ map bk_Address (blocks_of u) = [1088; 1024].
Proof.
  eexists. split; [vm_compute; reflexivity|]. split; [|reflexivity].
  refine (proj1 (linear_blocks_disjoint 1000 4096 7 [Allocate 10 1; Begin; Allocate 32 16; Allocate 3 8; End; Allocate 100 64] _ _ _ _ _ eq_refl)).
  - discriminate.
  - discriminate.
  - reflexivity.
  - repeat constructor; try discriminate.
Defined.

(** The sum of offset and size can wrap around, and then the next block overlaps. *)
Example linear_size_wraps :
  map (fun r => match r with OK u => map (fun b => (bk_Address b, bk_Size b)) (blocks_of u) | Err _ => [] end)
    [run_ops 7 (start_use (LinearAllocInit 1024 4096)) [Allocate 16 1; Allocate (2 ^ 64 - 8) 1; Allocate 8 1]] = [[(1032, 8); (1040, 2 ^ 64 - 8); (1024, 16)]].
Proof. reflexivity. Qed.
