(* ===== verification/Profiler.v ===== *)
(** * The profiler of the build

    src/src/Profiler.cpp and Profiler.hpp: every thread records named events that
    do not nest, in an array of its own and with the names in a linear allocator
    of its own; at the end the events are written as a trace. *)

From stdpp Require Import pretty.
From S2P Require Import Prelude LinearAlloc.

Definition kProfilerThreadMaxEvents : Z := 32 * 1024.
Definition kProfilerThreadStringsSize : Z := kProfilerThreadMaxEvents * 128.

(** The duration is not set before the event ends. *)
Record ProfilerEvent : Type := mkPEvent { pe_Time : Z; pe_Duration : option Z; pe_Name : cstr; pe_Info : cstr }.

(** Of the array of events, the first [m_EventCount]. *)
Record ProfilerThread : Type := mkPThread { pt_ScratchStrings : MemAllocLinear; pt_Events : list ProfilerEvent; pt_IsBegin : bool }.

Record ProfilerState : Type := mkPState { ps_Enabled : bool; ps_FileName : cstr; ps_Threads : list ProfilerThread }.

Definition pt_EventCount (t : ProfilerThread) : Z := zlen (pt_Events t).

(** [bases] are the blocks the heap returns for the strings of the threads. *)
Definition ProfilerInit (bases : list Z) (fileName : cstr) (s : ProfilerState) : res ProfilerState :=
  _ ← check (negb (ps_Enabled s)) "!g_ProfilerEnabled";
  _ ← check (0 <? zlen bases) "threadCount > 0";
  OK (mkPState true fileName (map (fun base => mkPThread (LinearAllocInit base kProfilerThreadStringsSize) [] false) bases)).

(** The copy of the first [len] characters of a string. *)
Definition StrDupN (a : MemAllocLinear) (str : cstr) (len : Z) : res (MemAllocLinear * cstr) :=
  '(a, _) ← LinearAllocate 0 a (len + 1) 1; OK (a, take (Z.to_nat len) str).

Definition StrDup (a : MemAllocLinear) (str : cstr) : res (MemAllocLinear * cstr) := StrDupN a str (zlen str).

(** The word before the first space, and what is after it. *)
Fixpoint split_name (name : cstr) : option (cstr * cstr) :=
  match name with
  | [] => None
  | c :: name' => if Ascii.eqb c " "%char then Some ([], name') else '(a, b) ← split_name name'; Some (c :: a, b)
  end.

Definition with_thread (i : Z) (t : ProfilerThread) (s : ProfilerState) : ProfilerState :=
  mkPState (ps_Enabled s) (ps_FileName s) (zinsert i t (ps_Threads s)).

(** The thread of that index, after the checks. *)
Definition the_thread (threadIndex : Z) (s : ProfilerState) : res ProfilerThread :=
  _ ← check (ps_Enabled s) "g_ProfilerEnabled";
  _ ← check ((0 <=? threadIndex) && (threadIndex <? zlen (ps_Threads s))) "threadIndex >= 0 && threadIndex < s_ProfilerState.m_ThreadCount";
  of_opt (ps_Threads s !!z threadIndex).

(** A new event of a thread; [now] is what the timer says. *)
Definition begin_event (name : cstr) (now : Z) (thread : ProfilerThread) : res ProfilerThread :=
  _ ← check (negb (pt_IsBegin thread)) "!thread.m_IsBegin";
  if kProfilerThreadMaxEvents <=? pt_EventCount thread then OK (mkPThread (pt_ScratchStrings thread) (pt_Events thread) true)
  else
    match split_name name with
    | None =>
        '(a, n) ← StrDup (pt_ScratchStrings thread) name;
        OK (mkPThread a (pt_Events thread ++ [mkPEvent now None n []]) true)
    | Some (word, rest) =>
        '(a, n) ← StrDupN (pt_ScratchStrings thread) name (zlen word);
        '(a, i) ← StrDup a rest;
        OK (mkPThread a (pt_Events thread ++ [mkPEvent now None n i]) true)
    end.

Definition end_event (now : Z) (thread : ProfilerThread) : res ProfilerThread :=
  _ ← check (pt_IsBegin thread) "thread.m_IsBegin";
  _ ← check (0 <? pt_EventCount thread) "thread.m_EventCount > 0";
  if kProfilerThreadMaxEvents <? pt_EventCount thread then OK (mkPThread (pt_ScratchStrings thread) (pt_Events thread) false)
  else
    evt ← of_opt (pt_Events thread !!z (pt_EventCount thread - 1));
    let evt := mkPEvent (pe_Time evt) (Some (u64 (now - pe_Time evt))) (pe_Name evt) (pe_Info evt) in
    OK (mkPThread (pt_ScratchStrings thread) (zinsert (pt_EventCount thread - 1) evt (pt_Events thread)) false).

Definition ProfilerBeginImpl (name : cstr) (threadIndex now : Z) (s : ProfilerState) : res ProfilerState :=
  thread ← the_thread threadIndex s; thread ← begin_event name now thread; OK (with_thread threadIndex thread s).

Definition ProfilerEndImpl (threadIndex now : Z) (s : ProfilerState) : res ProfilerState :=
  thread ← the_thread threadIndex s; thread ← end_event now thread; OK (with_thread threadIndex thread s).

(** What the scopes call: nothing when there is no profiling. *)
Definition ProfilerBegin (name : cstr) (threadIndex now : Z) (s : ProfilerState) : res ProfilerState :=
  if ps_Enabled s then ProfilerBeginImpl name threadIndex now s else OK s.
Definition ProfilerEnd (threadIndex now : Z) (s : ProfilerState) : res ProfilerState :=
  if ps_Enabled s then ProfilerEndImpl threadIndex now s else OK s.

(** ** The trace *)

Definition kBackslash : ascii := ascii_of_nat 92.

(** The characters that get a backslash. *)
Definition escaped (c : ascii) : bool := existsb (fun n => uchar c =? n) [34; 92; 8; 12; 10; 13; 9].

(** [while ( *src && dstSpace > 2 )]. *)
Fixpoint EscapeString (src : cstr) (dstSpace : Z) : cstr :=
  match src with
  | [] => []
  | c :: src' =>
      if 2 <? dstSpace then
        if escaped c then kBackslash :: c :: EscapeString src' (dstSpace - 2)
        else if (32 <=? schar c) && (schar c <? 126) then c :: EscapeString src' (dstSpace - 1)
        else EscapeString src' dstSpace
      else []
  end.

(** One event of the trace; [us] and [ms] print a time with no decimals. *)
Section Output.
Context (us ms : option Z -> cstr).

Definition dq : cstr := [ascii_of_nat 34].
Definition key (k : string) : cstr := dq ++ s2l k ++ dq ++ ":".

Definition write_event (i : nat) (evt : ProfilerEvent) : cstr :=
  ",{ " ++ key "pid" ++ "1, " ++ key "tid" ++ s2l (pretty (Z.of_nat i)) ++ ", " ++ key "ts" ++ us (Some (pe_Time evt)) ++ ", " ++
  key "dur" ++ us (pe_Duration evt) ++ ", " ++ key "ph" ++ dq ++ "X" ++ dq ++ ", " ++ key "name" ++ " " ++ dq ++ EscapeString (pe_Name evt) 1024 ++ dq ++
  ", " ++ key "args" ++ " { " ++ key "durationMS" ++ ms (pe_Duration evt) ++ ", " ++ key "detail" ++ dq ++ EscapeString (pe_Info evt) 1024 ++ dq ++ " }}" ++ [ascii_of_nat 10].

Definition write_events (s : ProfilerState) : cstr := concat (concat (imap (fun i t => map (write_event i) (pt_Events t)) (ps_Threads s))).

(** [ProfilerDestroy]: open events end, and the trace is written. *)
Definition end_open (now : Z) (s : ProfilerState) (i : nat) : res ProfilerState :=
  t ← of_opt (ps_Threads s !! i);
  if pt_IsBegin t then ProfilerEndImpl (Z.of_nat i) now s else OK s.

Definition ProfilerDestroy (now : Z) (s : ProfilerState) : res (ProfilerState * option cstr) :=
  if negb (ps_Enabled s) then OK (s, None)
  else s ← foldM (end_open now) s (seq 0 (length (ps_Threads s))); OK (s, Some (write_events s)).
End Output.

(** ** Escaping *)

(** What a reader of the string makes of it: a backslash stands for the next character. *)
Fixpoint unescape (s : cstr) : cstr :=
  match s with
  | [] => []
  | c :: s' => if Ascii.eqb c kBackslash then match s' with [] => [] | d :: s'' => d :: unescape s'' end else c :: unescape s'
  end.

(** Within a string: no quotation mark without a backslash, no backslash at the end. *)
Fixpoint inside (s : cstr) : bool :=
  match s with
  | [] => true
  | c :: s' =>
      if Ascii.eqb c kBackslash then match s' with [] => false | _ :: s'' => inside s'' end
      else negb (uchar c =? 34) && inside s'
  end.

Definition visible (c : ascii) : bool := escaped c || ((32 <=? schar c) && (schar c <? 126)).

Lemma escape_fits src : forall space, 1 <= space -> zlen (EscapeString src space) <= space - 1.
Proof.
  induction src as [|c src IH]; intros space Hs; cbn [EscapeString]; [cbn; lia|]. destruct (Z.ltb_spec 2 space); [|cbn; lia].
  destruct (escaped c); [|destruct (_ && _)]; cbn [length]; [specialize (IH (space - 2) ltac:(lia))|specialize (IH (space - 1) ltac:(lia))|by apply IH]; lia.
Qed.

Lemma escape_inside src : forall space, inside (EscapeString src space) = true.
Proof.
  induction src as [|c src IH]; intros space; cbn [EscapeString]; [done|]. destruct (2 <? space); [|done].
  destruct (escaped c) eqn:E; [cbn; apply IH|]. destruct (_ && _); [|apply IH]. cbn [inside].
  assert (H : Ascii.eqb c kBackslash = false /\ (uchar c =? 34) = false).
  { unfold escaped in E. cbn in E. repeat rewrite orb_false_iff in E. destruct E as (E1 & E2 & _). split; [|done].
    apply Ascii.eqb_neq. intros ->. done. }
  destruct H as [-> ->]. apply IH.
Qed.

(** What is read is a beginning of the visible characters, and all of them when
    there is room for each to be escaped. *)
Lemma escape_read src : forall space,
  (exists k, unescape (EscapeString src space) = take k (List.filter visible src)) /\
  (2 * zlen src < space -> unescape (EscapeString src space) = List.filter visible src).
Proof.
  induction src as [|c src IH]; intros space; cbn [EscapeString List.filter]; [split; [by exists 0%nat|done]|].
  destruct (Z.ltb_spec 2 space); [|split; [by exists 0%nat|cbn [length]; lia]]. change (visible c) with (escaped c || ((32 <=? schar c) && (schar c <? 126))). destruct (escaped c) eqn:E; cbn [orb].
  - destruct (IH (space - 2)) as [[k Hk] Hall]. change (unescape (kBackslash :: c :: ?x)) with (c :: unescape x). split; [exists (S k); cbn; by rewrite Hk|]. intros Hl. rewrite Hall; [done|cbn [length] in Hl; lia].
  - destruct (_ && _).
    + destruct (IH (space - 1)) as [[k Hk] Hall]. assert (Ec : Ascii.eqb c kBackslash = false) by (apply Ascii.eqb_neq; intros ->; done).
      cbn [unescape]. rewrite Ec. split; [exists (S k); cbn; by rewrite Hk|]. intros Hl. rewrite Hall; [done|cbn [length] in Hl; lia].
    + destruct (IH space) as [Hk Hall]. split; [done|]. intros Hl. apply Hall. cbn [length] in Hl. lia.
Qed.

(** ** Recording *)

(** The calls of the threads, in the order they happen. *)
Inductive call : Type :=
| CallBegin (name : cstr) (now : Z)
| CallEnd (now : Z).

Definition thread_call (t : ProfilerThread) (c : call) : res ProfilerThread :=
  match c with CallBegin name now => begin_event name now t | CallEnd now => end_event now t end.

Definition profiler_call (s : ProfilerState) (ic : nat * call) : res ProfilerState :=
  match ic.2 with
  | CallBegin name now => ProfilerBegin name (Z.of_nat ic.1) now s
  | CallEnd now => ProfilerEnd (Z.of_nat ic.1) now s
  end.

Definition calls_of (i : nat) (cs : list (nat * call)) : list call := map snd (List.filter (fun ic => Nat.eqb ic.1 i) cs).

(** A scope of a thread: its name, its beginning and its end. *)
Record scope : Type := mkScope { sc_Name : cstr; sc_Begin : Z; sc_End : Z }.

Definition scope_calls (sc : scope) : list call := [CallBegin (sc_Name sc) (sc_Begin sc); CallEnd (sc_End sc)].

Definition scope_event (sc : scope) : ProfilerEvent :=
  let '(word, rest) := default (sc_Name sc, []) (split_name (sc_Name sc)) in
  mkPEvent (sc_Begin sc) (Some (u64 (sc_End sc - sc_Begin sc))) word rest.

(** The bytes of the names, with their terminators. *)
Definition scope_bytes (sc : scope) : Z := zlen (sc_Name sc) + 1.
Fixpoint total_bytes (scs : list scope) : Z := match scs with [] => 0 | sc :: scs => scope_bytes sc + total_bytes scs end.

Lemma split_name_pieces name : forall a b, split_name name = Some (a, b) -> name = a ++ " "%char :: b.
Proof.
  induction name as [|c name IH]; intros a b Hs; cbn in Hs; [done|]. destruct (Ascii.eqb_spec c " "%char) as [->|_]; [by simplify_eq|].
  destruct (split_name name) as [[a' b']|]; [|done]. cbn in Hs. simplify_eq. by rewrite (IH _ _ eq_refl).
Qed.

(** An allocator with room gives it. *)
Lemma dup_ok a str len : la_OwnerThread a = 0 -> 0 <= la_Offset a -> 0 <= len -> la_Offset a + len + 1 <= la_Size a -> la_Size a < 2 ^ 62 ->
  StrDupN a str len = OK (with_offset a (la_Offset a + len + 1), take (Z.to_nat len) str).
Proof.
  intros Ho H0 Hl Hs Hb. unfold StrDupN, LinearAllocate, check_thread_ownership. rewrite Ho. cbn [Z.eqb orb check mbind res_bind].
  change (Z.land 1 (u64 (1 - 1))) with 0. cbn [Z.eqb Z.ltb Z.compare check mbind res_bind]. change (1 - 1) with 0. rewrite Z.land_0_r. cbn [Z.eqb check mbind res_bind].
  change (Z.lnot 0) with (-1). rewrite Z.land_m1_r. rewrite (Z.add_simpl_r (la_Offset a) 1 : la_Offset a + 1 - 1 = la_Offset a).
  assert (Hu : forall z, 0 <= z < 2 ^ 62 -> u64 z = z) by (intros; apply Z.mod_small; lia).
  rewrite (Hu (la_Offset a)) by lia. rewrite (Hu (la_Offset a + (len + 1))) by lia. rewrite (proj2 (Z.leb_le _ _)) by lia. cbn [mbind res_bind]. by rewrite Z.add_assoc.
Qed.

Record thread_ok (t : ProfilerThread) (room : Z) : Prop := {
  tk_owner : la_OwnerThread (pt_ScratchStrings t) = 0;
  tk_offset : 0 <= la_Offset (pt_ScratchStrings t);
  tk_room : la_Offset (pt_ScratchStrings t) + room <= la_Size (pt_ScratchStrings t);
  tk_size : la_Size (pt_ScratchStrings t) < 2 ^ 62 }.

Lemma begin_ok t sc room : thread_ok t (scope_bytes sc + room) -> 0 <= room -> pt_IsBegin t = false -> pt_EventCount t < kProfilerThreadMaxEvents ->
  exists a, begin_event (sc_Name sc) (sc_Begin sc) t =
      OK (mkPThread a (pt_Events t ++ [mkPEvent (sc_Begin sc) None (pe_Name (scope_event sc)) (pe_Info (scope_event sc))]) true) /\
    thread_ok (mkPThread a [] true) room.
Proof.
  intros [H1 H2 H3 H4] Hr Hb Hc. unfold scope_bytes in H3. unfold begin_event. rewrite Hb. cbn [negb check mbind res_bind]. rewrite (proj2 (Z.leb_gt _ _)) by lia.
  unfold scope_event. destruct (split_name (sc_Name sc)) as [[word rest]|] eqn:E; cbn [default option_map from_option id pe_Name pe_Info].
  - pose proof (split_name_pieces _ _ _ E) as Hn. assert (Hl : zlen (sc_Name sc) = zlen word + 1 + zlen rest) by (rewrite Hn, length_app; cbn; lia).
    rewrite dup_ok by lia. cbn [mbind res_bind]. unfold StrDup. rewrite dup_ok by (cbn; lia). cbn [mbind res_bind].
    assert (Hw : take (Z.to_nat (zlen word)) (sc_Name sc) = word) by (rewrite Hn, take_app_le, take_ge by lia; done).
    assert (Ht : take (Z.to_nat (zlen rest)) rest = rest) by (apply take_ge; lia).
    eexists. split; [by rewrite Hw, Ht|]. constructor; cbn; lia.
  - unfold StrDup. rewrite dup_ok by lia. cbn [mbind res_bind]. assert (Ht : take (Z.to_nat (zlen (sc_Name sc))) (sc_Name sc) = sc_Name sc) by (apply take_ge; lia).
    eexists. split; [by rewrite Ht|]. constructor; cbn; lia.
Qed.

Lemma scopes_ok scs : forall t, thread_ok t (total_bytes scs) -> pt_IsBegin t = false -> pt_EventCount t + zlen scs <= kProfilerThreadMaxEvents ->
  exists t', foldM thread_call t (concat (map scope_calls scs)) = OK t' /\ pt_Events t' = pt_Events t ++ map scope_event scs /\ pt_IsBegin t' = false.
Proof.
  induction scs as [|sc scs IH]; intros t Ht Hb Hc; cbn [map concat]; [exists t; by rewrite app_nil_r|].
  assert (Hz : forall l, 0 <= total_bytes l) by (induction l; cbn; unfold scope_bytes; lia). cbn [total_bytes length] in *.
  destruct (begin_ok t sc (total_bytes scs)) as (a & E1 & [K1 K2 K3 K4]); [done|apply Hz|done|lia|]. cbn [scope_calls app foldM thread_call]. rewrite E1. cbn [mbind res_bind].
  set (e := mkPEvent _ _ _ _). unfold end_event. cbn [pt_IsBegin check mbind res_bind pt_Events pt_ScratchStrings]. unfold pt_EventCount in *. cbn [pt_Events].
  rewrite length_app. cbn [length]. rewrite (proj2 (Z.ltb_lt 0 _)) by lia. cbn [check mbind res_bind]. rewrite (proj2 (Z.ltb_ge _ _)) by lia.
  replace (Z.of_nat (length (pt_Events t) + 1) - 1) with (zlen (pt_Events t)) by lia. rewrite zlookup_middle. cbn [of_opt mbind res_bind].
  edestruct (IH (mkPThread a (pt_Events t ++ [scope_event sc]) false)) as (t' & E2 & He & Hb'); [by constructor|done|unfold pt_EventCount; cbn; rewrite length_app; cbn; lia|].
  exists t'. split_and!; [|rewrite He; cbn; by rewrite <- app_assoc|done]. rewrite <- E2. f_equal. f_equal.
  unfold zinsert. rewrite bool_decide_true by lia. rewrite Nat2Z.id, insert_app_r_alt, Nat.sub_diag by lia. cbn. f_equal. unfold e, scope_event. cbn.
  by destruct (default _ _).
Qed.

(** A call of one thread does not touch the others. *)
Lemma calls_independent cs : forall s (ts : list ProfilerThread), ps_Enabled s = true -> length ts = length (ps_Threads s) ->
  Forall (fun ic => ic.1 < length (ps_Threads s))%nat cs ->
  (forall i t t', ps_Threads s !! i = Some t -> ts !! i = Some t' -> foldM thread_call t (calls_of i cs) = OK t') ->
  exists s', foldM profiler_call s cs = OK s' /\ ps_Threads s' = ts /\ ps_Enabled s' = true.
Proof.
  induction cs as [|[i c] cs IH]; intros s ts He Hl Hin Hall; cbn [foldM].
  { exists s. split_and!; [done| |done]. apply list_eq_same_length with (n := length ts); [done|done|]. intros i x y Hi Hx Hy. specialize (Hall i x y Hx Hy). by injection Hall. }
  apply Forall_cons in Hin as [Hi Hin]. cbn in Hi. destruct (lookup_lt_is_Some_2 _ _ Hi) as [t Ht]. destruct (lookup_lt_is_Some_2 ts i) as [t' Ht']; [lia|].
  pose proof (Hall i t t' Ht Ht') as Hrun. unfold calls_of in Hrun. cbn [List.filter fst] in Hrun. rewrite Nat.eqb_refl in Hrun. cbn [map snd foldM] in Hrun.
  destruct (thread_call t c) as [t1|] eqn:E1; [|done]. cbn [mbind res_bind] in Hrun.
  assert (Hstep : profiler_call s (i, c) = OK (with_thread (Z.of_nat i) t1 s)).
  { assert (Hthe : the_thread (Z.of_nat i) s = OK t).
    { unfold the_thread. rewrite He. cbn [check mbind res_bind]. rewrite (proj2 (Z.leb_le 0 _)), (proj2 (Z.ltb_lt _ _)) by lia. cbn [andb check mbind res_bind]. by rewrite zlookup_nat, Ht. }
    unfold profiler_call, ProfilerBegin, ProfilerEnd, ProfilerBeginImpl, ProfilerEndImpl. cbn [fst snd]. rewrite He.
    destruct c; rewrite Hthe; cbn [mbind res_bind]; cbn in E1; by rewrite E1. }
  rewrite Hstep. cbn [mbind res_bind]. apply IH; [done|cbn; by rewrite zinsert_length|cbn; by rewrite zinsert_length|].
  intros j u u' Hu Hu'. cbn [ps_Threads with_thread] in Hu. unfold zinsert in Hu. rewrite bool_decide_true, Nat2Z.id in Hu by lia. destruct (decide (j = i)) as [->|Hne].
  - rewrite list_lookup_insert_eq in Hu by done. simplify_eq. done.
  - rewrite list_lookup_insert_ne in Hu by done. pose proof (Hall j u u' Hu Hu') as Hj. unfold calls_of in Hj. cbn [List.filter fst] in Hj.
    by rewrite (proj2 (Nat.eqb_neq i j)) in Hj by done.
Qed.

Lemma list_choice {A} n : forall P : nat -> A -> Prop, (forall i, (i < n)%nat -> exists t, P i t) -> exists ts, length ts = n /\ forall i t, ts !! i = Some t -> P i t.
Proof.
  induction n as [|n IH]; intros P H; [by exists []|]. destruct (IH P) as (ts & Hl & Hts); [intros; apply H; lia|]. destruct (H n) as [t Ht]; [lia|].
  exists (ts ++ [t]). rewrite length_app, Hl. split; [cbn; lia|]. intros i u [[_ Hi]|[-> <-]]%lookup_snoc_Some; [by apply Hts|by rewrite Hl].
Qed.

Lemma foldM_const {A B} (f : A -> B -> res A) (a : A) l : (forall b, b ∈ l -> f a b = OK a) -> foldM f a l = OK a.
Proof. induction l as [|b l IH]; intros H; cbn; [done|]. rewrite H by set_solver. cbn. apply IH. set_solver. Qed.

Definition kStringsRoom : Z := kProfilerThreadStringsSize - kMaxAlignment.

Lemma strings_init_ok base : 0 <= base < 2 ^ 62 -> let a := LinearAllocInit base kProfilerThreadStringsSize in
  la_OwnerThread a = 0 /\ la_Offset a = 0 /\ kStringsRoom <= la_Size a < 2 ^ 62.
Proof.
  intros Hb a. split; [done|]. split; [done|]. unfold a, LinearAllocInit. cbn [la_Size].
  change (kMaxAlignment - 1) with (2 ^ 6 - 1). rewrite align_down by lia. change (base + kMaxAlignment - 1) with (base + 64 - 1).
  assert (Hu : forall z, 0 <= z < 2 ^ 64 -> u64 z = z) by (intros; by apply Z.mod_small).
  rewrite (Hu (base + 64 - 1)) by lia. pose proof (Z.div_mod (base + 64 - 1) (2 ^ 6) ltac:(lia)). pose proof (Z.mod_pos_bound (base + 64 - 1) (2 ^ 6) ltac:(lia)).
  assert (Hd : 0 <= (base + 64 - 1) / 2 ^ 6 * 2 ^ 6 - base < 64) by lia. rewrite (Hu (_ - base)) by lia.
  rewrite Hu; unfold kStringsRoom, kProfilerThreadStringsSize, kProfilerThreadMaxEvents, kMaxAlignment; lia.
Qed.

Definition no_profiler : ProfilerState := mkPState false [] [].

(** The profiler of the build records what the threads do, however their
    calls interleave: when every thread runs scopes that do not nest, not more
    than the arrays hold, the events of each thread are its scopes in their
    order, each with the first word of its name, the rest of the name, its
    beginning and its duration; no check fails, and the trace has one entry for
    each. What is written for a name fits its array, has no quotation mark that
    would end the string, and reads as the visible characters of the name when it
    is short enough. *)
Theorem profiler_records_scopes us ms now bases file cs (scopes : list (list scope)) :
  (0 < length bases)%nat -> Forall (fun base => 0 <= base < 2 ^ 62) bases -> length scopes = length bases ->
  Forall (fun ic => ic.1 < length bases)%nat cs ->
  (forall i scs, scopes !! i = Some scs ->
     calls_of i cs = concat (map scope_calls scs) /\ zlen scs <= kProfilerThreadMaxEvents /\ total_bytes scs <= kStringsRoom) ->
  (exists s0 s, ProfilerInit bases file no_profiler = OK s0 /\ foldM profiler_call s0 cs = OK s /\
     map pt_Events (ps_Threads s) = map (map scope_event) scopes /\
     ProfilerDestroy us ms now s = OK (s, Some (concat (concat (imap (fun i scs => map (write_event us ms i) (map scope_event scs)) scopes))))) /\
  forall str, zlen (EscapeString str 1024) <= 1023 /\ inside (EscapeString str 1024) = true /\
    (zlen str < 512 -> unescape (EscapeString str 1024) = List.filter visible str).
Proof.
  intros Hn Hb Hl Hin Hsc. split; [|intros str; split_and!; [apply (escape_fits str 1024); lia|apply escape_inside|intros; apply (escape_read str 1024); lia]].
  unfold ProfilerInit. cbn [no_profiler ps_Enabled negb check mbind res_bind]. rewrite (proj2 (Z.ltb_lt _ _)) by lia. cbn [check mbind res_bind].
  set (start base := mkPThread (LinearAllocInit base kProfilerThreadStringsSize) [] false). set (s0 := mkPState true file (map start bases)).
  destruct (list_choice (length bases) (fun i t => forall base scs, bases !! i = Some base -> scopes !! i = Some scs ->
    foldM thread_call (start base) (calls_of i cs) = OK t /\ pt_Events t = map scope_event scs /\ pt_IsBegin t = false)) as (ts & Hts & Hend).
  { intros i Hi. destruct (lookup_lt_is_Some_2 _ _ Hi) as [base Hbase]. destruct (lookup_lt_is_Some_2 scopes i) as [scs Hscs]; [lia|].
    destruct (Hsc i scs Hscs) as (Hcalls & Hc & Ht). rewrite Forall_forall in Hb.
    destruct (strings_init_ok base) as (K1 & K2 & K3); [apply Hb; by eapply list_elem_of_lookup_2|].
    destruct (scopes_ok scs (start base)) as (t & Hrun & He & Hbg); [constructor; unfold start; cbn [pt_ScratchStrings]; lia|done|unfold pt_EventCount; cbn; lia|].
    exists t. intros base' scs' Hbase' Hscs'. simplify_eq. by rewrite Hcalls. }
  destruct (calls_independent cs s0 ts) as (s & Hrun & Hth & Hen); [done|cbn; by rewrite length_map|cbn; by rewrite length_map| |].
  { intros i t t' Ht Ht'. cbn in Ht. change (map start bases) with (start <$> bases) in Ht. rewrite list_lookup_fmap in Ht. destruct (bases !! i) as [base|] eqn:Ebase; [|done].
    cbn in Ht. simplify_eq. destruct (lookup_lt_is_Some_2 scopes i) as [scs Hscs]; [rewrite Hl; by eapply lookup_lt_Some|]. by apply (Hend i t' Ht' base scs). }
  assert (Hev : forall i t, ts !! i = Some t -> exists scs, scopes !! i = Some scs /\ pt_Events t = map scope_event scs /\ pt_IsBegin t = false).
  { intros i t Ht. assert (Hi : (i < length bases)%nat) by (rewrite <- Hts; by eapply lookup_lt_Some). destruct (lookup_lt_is_Some_2 _ _ Hi) as [base Hbase].
    destruct (lookup_lt_is_Some_2 scopes i) as [scs Hscs]; [lia|]. exists scs. split; [done|]. by destruct (Hend i t Ht base scs) as (_ & ? & ?). }
  assert (Hmap : forall i, pt_Events <$> ts !! i = map scope_event <$> scopes !! i).
  { intros i. destruct (ts !! i) as [t|] eqn:Et; [destruct (Hev i t Et) as (scs & -> & He & _); cbn; by rewrite He|].
    apply lookup_ge_None in Et. rewrite (proj2 (lookup_ge_None scopes i)); [done|lia]. }
  exists s0, s. split_and!; [done|done| |].
  - rewrite Hth. apply list_eq. intros i. change (map ?f ?l) with (f <$> l). by rewrite !list_lookup_fmap, Hmap.
  - unfold ProfilerDestroy. rewrite Hen. cbn [negb]. rewrite (foldM_const _ s).
    + cbn [mbind res_bind]. unfold write_events. do 5 f_equal. apply list_eq. intros i. rewrite !list_lookup_imap, Hth. specialize (Hmap i).
      destruct (ts !! i), (scopes !! i); cbn in *; try done. by injection Hmap as ->.
    + intros i Hi. apply elem_of_seq in Hi. unfold end_open. rewrite Hth in *. destruct (lookup_lt_is_Some_2 ts i) as [t Ht]; [lia|]. rewrite Ht.
      destruct (Hev i t Ht) as (_ & _ & _ & Hb'). cbn. by rewrite Hb'.
Qed.

Lemma profiler_records_scopes_witness :
  let cs := [(0%nat, CallBegin (s2l "CC a.c b") 10); (1%nat, CallBegin (s2l "Scan") 11); (0%nat, CallEnd 15); (1%nat, CallEnd 30)] in
  let scopes := [[mkScope (s2l "CC a.c b") 10 15]; [mkScope (s2l "Scan") 11 30]] in
  exists s0 s, ProfilerInit [4096; 8192] (s2l "t.json") no_profiler = OK s0 /\ foldM profiler_call s0 cs = OK s /\
    map pt_Events (ps_Threads s) = [[mkPEvent 10 (Some 5) (s2l "CC") (s2l "a.c b")]; [mkPEvent 11 (Some 19) (s2l "Scan") []]].
Proof.
  intros cs scopes. edestruct (profiler_records_scopes (fun _ => []) (fun _ => []) 40 [4096; 8192] (s2l "t.json") cs scopes) as [(s0 & s & H1 & H2 & H3 & _) _].
  - cbn. lia.
  - repeat constructor; lia.
  - reflexivity.
  - repeat constructor; cbn; lia.
  - intros [|[|i]] scs Hi; cbn in Hi; [injection Hi as <-|injection Hi as <-|discriminate]; (split; [reflexivity|vm_compute; split; discriminate]).
  - exists s0, s. split; [exact H1|]. split; [exact H2|]. exact H3.
Defined.

(** ** Gaps *)

(** When the array of a thread is full the next event is not recorded, but its
    end still finds an event and changes the duration of the last one. *)
Lemma full_array_changes_last a last rest now :
  zlen (rest ++ [last]) = kProfilerThreadMaxEvents ->
  (t ← begin_event (s2l "late") (now - 1) (mkPThread a (rest ++ [last]) false); end_event now t) =
  OK (mkPThread a (rest ++ [mkPEvent (pe_Time last) (Some (u64 (now - pe_Time last))) (pe_Name last) (pe_Info last)]) false).
Proof.
  intros Hn. unfold begin_event, end_event, pt_EventCount. cbn [pt_IsBegin pt_Events pt_ScratchStrings negb check mbind res_bind]. rewrite Hn, Z.leb_refl.
  cbn [mbind res_bind pt_IsBegin pt_Events pt_ScratchStrings check]. rewrite Hn. cbn [check mbind res_bind]. change (0 <? kProfilerThreadMaxEvents) with true. cbn [check mbind res_bind].
  rewrite Z.ltb_irrefl. rewrite length_app in Hn. cbn in Hn. replace (kProfilerThreadMaxEvents - 1) with (zlen rest) by lia. rewrite zlookup_middle. cbn [of_opt mbind res_bind].
  unfold zinsert. rewrite bool_decide_true by lia. by rewrite Nat2Z.id, insert_app_r_alt, Nat.sub_diag by lia.
Qed.

(** A line break is written as a backslash and a line break, which JSON does not
    have, and the tilde, which is visible, is left out. *)
Lemma escape_gaps : EscapeString [ascii_of_nat 10] 1024 = [kBackslash; ascii_of_nat 10] /\ EscapeString (s2l "a~b") 1024 = s2l "ab".
Proof. split; reflexivity. Qed.
