(* ===== verification/MemoryMap.v ===== *)
(** * Mapped files

    src/src/MemoryMappedFile.cpp: a file is opened, mapped and, at the end,
    unmapped and closed. The operating system keeps the open descriptors or
    handles and the mapped regions; what each call answers is an argument.
    The definitions for Windows have names that end in _win32. *)

From stdpp Require Import gmap.
From S2P Require Import Prelude.

(** [m_Address] is 0 for the null pointer. *)
Record MemoryMappedFile : Type := mkMmap { mm_Address : Z; mm_Size : Z; mm_SysData0 : Z; mm_SysData1 : Z }.

Definition Clear : MemoryMappedFile := mkMmap 0 0 0 0.
Definition MmapFileInit : MemoryMappedFile := Clear.
Definition MmapFileValid (self : MemoryMappedFile) : bool := negb (mm_Address self =? 0).

(** What the system holds for the process. *)
Record system : Type := mkSys { os_Open : gset Z; os_Mapped : gmap Z Z }.

Definition open_file (fd : Z) (s : system) : system := mkSys ({[fd]} ∪ os_Open s) (os_Mapped s).
Definition close_file (fd : Z) (s : system) : system := mkSys (os_Open s ∖ {[fd]}) (os_Mapped s).
Definition map_region (address size : Z) (s : system) : system := mkSys (os_Open s) (<[address := size]> (os_Mapped s)).
Definition unmap_region (address : Z) (s : system) : system := mkSys (os_Open s) (delete address (os_Mapped s)).

(** ** With [mmap] *)

(** [open], [fstat] and [mmap]; the last is [MAP_FAILED] when there is no mapping. *)
Record answers : Type := mkAnswers { an_open : option Z; an_size : option Z; an_mmap : option Z }.

Definition MAP_FAILED : Z := 2 ^ 64 - 1.

(** [munmap] of a region that is not mapped fails. *)
Definition MmapFileUnmap (self : MemoryMappedFile) (s : system) : res (MemoryMappedFile * system) :=
  if MmapFileValid self then
    if bool_decide (os_Mapped s !! mm_Address self = Some (mm_Size self)) then
      OK (Clear, close_file (mm_SysData0 self) (unmap_region (mm_Address self) s))
    else Err (Croak "munmap(%p, %d) failed: %d")
  else OK (Clear, s).

Definition MmapFileMap (self : MemoryMappedFile) (a : answers) (s : system) : res (MemoryMappedFile * system) :=
  '(_, s) ← MmapFileUnmap self s;
  match an_open a with
  | None => OK (Clear, s)
  | Some fd =>
      let s := open_file fd s in
      match an_size a with
      | None => OK (Clear, close_file fd s)
      | Some size =>
          let '(address, s) := match an_mmap a with Some p => (p, map_region p size s) | None => (MAP_FAILED, s) end in
          if negb (address =? 0) then OK (mkMmap address size fd 0, s) else OK (Clear, close_file fd s)
      end
  end.

Definition MmapFileDestroy (self : MemoryMappedFile) (s : system) : res (MemoryMappedFile * system) := MmapFileUnmap self s.

(** What is documented of the answers: descriptors and regions are new, regions
    are not at address 0; [fails] says whether [mmap] can fail. *)
Definition answers_ok (fails : bool) (a : answers) (s : system) : Prop :=
  (forall fd, an_open a = Some fd -> fd ∉ os_Open s) /\
  match an_mmap a with Some p => 0 < p < MAP_FAILED /\ os_Mapped s !! p = None | None => fails = true end.

(** The file is cleared, or holds one descriptor and one region of the system. *)
Definition holds (base : system) (self : MemoryMappedFile) (s : system) : Prop :=
  if MmapFileValid self then
    s = map_region (mm_Address self) (mm_Size self) (open_file (mm_SysData0 self) base) /\
    mm_SysData0 self ∉ os_Open base /\ os_Mapped base !! mm_Address self = None
  else self = Clear /\ s = base.

Inductive op : Type :=
| Map (a : answers)
| Unmap.

Definition step (fs : MemoryMappedFile * system) (o : op) : res (MemoryMappedFile * system) :=
  match o with Map a => MmapFileMap fs.1 a fs.2 | Unmap => MmapFileUnmap fs.1 fs.2 end.

Lemma close_open fd address size base : fd ∉ os_Open base -> os_Mapped base !! address = None ->
  close_file fd (unmap_region address (map_region address size (open_file fd base))) = base.
Proof.
  intros Hf Hm. destruct base as [fds maps]. cbn in *. unfold close_file, unmap_region, map_region, open_file. cbn. f_equal; [set_solver|by rewrite delete_insert_id].
Qed.

Lemma unmap_holds base self s : holds base self s -> MmapFileUnmap self s = OK (Clear, base).
Proof.
  unfold holds, MmapFileUnmap. destruct (MmapFileValid self) eqn:E; [|by intros [-> ->]]. intros (-> & Hf & Hm).
  rewrite bool_decide_true by (cbn; apply lookup_insert_eq). by rewrite close_open.
Qed.

(** Mapping is from the state in which the old mapping is gone. *)
Lemma map_holds base self s a : holds base self s -> answers_ok false a base ->
  exists self' s', MmapFileMap self a s = OK (self', s') /\ holds base self' s' /\
    (MmapFileValid self' = true <-> is_Some (an_open a) /\ is_Some (an_size a)) /\ (MmapFileValid self' = true -> an_size a = Some (mm_Size self')).
Proof.
  intros Hh [Ho Hm]. unfold MmapFileMap. rewrite (unmap_holds _ _ _ Hh). cbn [mbind res_bind].
  destruct (an_open a) as [fd|] eqn:E1; [|exists Clear, base; split_and!; [done|done| |done]; split; [done|by intros [[? ?] _]]]. specialize (Ho fd eq_refl).
  destruct (an_size a) as [size|] eqn:E2.
  - destruct (an_mmap a) as [p|] eqn:E3; [|done]. destruct Hm as [Hp Hn]. rewrite (proj2 (Z.eqb_neq p 0)) by lia. cbn [negb].
    assert (Hv : MmapFileValid (mkMmap p size fd 0) = true) by (unfold MmapFileValid; cbn; by rewrite (proj2 (Z.eqb_neq p 0)) by lia).
    exists (mkMmap p size fd 0), (map_region p size (open_file fd base)). split; [done|]. unfold holds. rewrite Hv. split_and!; [done|done|done|split; [eauto|done]|done].
  - exists Clear, (close_file fd (open_file fd base)). split; [done|]. split_and!; [split; [done|]| |done].
    + destruct base. unfold close_file, open_file. cbn in *. f_equal. set_solver.
    + split; [done|by intros [_ [? ?]]].
Qed.

(** Mapped files do not leak: on a system where [mmap] succeeds, after any
    sequence of mappings and unmappings the process holds what it held before and,
    when a file is mapped, the one descriptor and the one region of it; the
    members say which; the end of the file gives both back. *)
Theorem mapped_files_do_not_leak base ops : forall self s,
  holds base self s -> Forall (fun o => match o with Map a => answers_ok false a base | Unmap => True end) ops ->
  exists self' s', foldM step (self, s) ops = OK (self', s') /\ holds base self' s' /\ MmapFileDestroy self' s' = OK (Clear, base).
Proof.
  induction ops as [|o ops IH]; intros self s Hh Hok; cbn [foldM]; [exists self, s; split_and!; [done|done|by apply unmap_holds]|].
  apply Forall_cons in Hok as [Ho Hok]. destruct o as [a|]; cbn [step fst snd].
  - destruct (map_holds base self s a Hh Ho) as (self1 & s1 & -> & Hh1 & _). cbn [mbind res_bind]. by apply IH.
  - rewrite (unmap_holds _ _ _ Hh). cbn [mbind res_bind]. by apply IH.
Qed.

Lemma mapped_files_do_not_leak_witness :
  let base := mkSys {[0; 1; 2]} ∅ in
  let ops := [Map (mkAnswers (Some 3) (Some 100) (Some 4096)); Map (mkAnswers (Some 3) (Some 200) (Some 8192)); Map (mkAnswers None None (Some 4096))] in
  exists self' s', foldM step (MmapFileInit, base) ops = OK (self', s') /\ holds base self' s' /\ MmapFileDestroy self' s' = OK (Clear, base).
Proof.
  intros base ops. apply (mapped_files_do_not_leak base ops MmapFileInit base); [by split|].
  repeat constructor; cbn; try lia; try discriminate; intros fd [= <-]; vm_compute; intros H; exact (match H with end) || by apply (bool_decide_unpack _ I).
Defined.

(** [mmap] signals a failure by [MAP_FAILED], which is not the null pointer: a
    file of size 0, which cannot be mapped, counts as mapped, and giving it back
    ends the process. *)
Lemma failed_mapping_is_fatal fd base : fd ∉ os_Open base -> os_Mapped base !! MAP_FAILED = None ->
  exists self s, MmapFileMap MmapFileInit (mkAnswers (Some fd) (Some 0) None) base = OK (self, s) /\ MmapFileValid self = true /\
    MmapFileDestroy self s = Err (Croak "munmap(%p, %d) failed: %d").
Proof.
  intros Hf Hm. eexists _, _. split; [reflexivity|]. split; [done|]. unfold MmapFileDestroy, MmapFileUnmap. cbn [MmapFileValid mm_Address].
  rewrite bool_decide_false; [done|]. cbn. by rewrite Hm.
Qed.

(** ** On Windows *)

(** [CreateFileA], [GetFileSize] in two halves, [CreateFileMapping] and [MapViewOfFile]. *)
Record answers_win32 : Type := mkWin32Answers { an_file : option Z; an_size_hi : Z; an_size_lo : Z; an_mapping : option Z; an_view : option Z }.

Definition GetFileSize64 (hi lo : Z) : Z := Z.lor (Z.shiftl hi 32) lo.

(** The mapping and the view stay as they were when a call fails; an earlier
    mapping is not given back. *)
Definition MmapFileMap_win32 (self : MemoryMappedFile) (a : answers_win32) (s : system) : MemoryMappedFile * system :=
  match an_file a with
  | None => (self, s)
  | Some file =>
      let s := open_file file s in
      let file_size := GetFileSize64 (an_size_hi a) (an_size_lo a) in
      match an_mapping a with
      | None => (self, close_file file s)
      | Some mapping =>
          let s := open_file mapping s in
          match an_view a with
          | None => (self, close_file file (close_file mapping s))
          | Some address => (mkMmap address file_size file mapping, map_region address (u32 file_size) s)
          end
      end
  end.

Definition MmapFileUnmap_win32 (self : MemoryMappedFile) (s : system) : res (MemoryMappedFile * system) :=
  if MmapFileValid self then
    if bool_decide (is_Some (os_Mapped s !! mm_Address self)) then
      OK (Clear, close_file (mm_SysData0 self) (close_file (mm_SysData1 self) (unmap_region (mm_Address self) s)))
    else Err (Croak "UnMapViewOfFile() failed")
  else OK (Clear, s).

Definition MmapFileDestroy_win32 (self : MemoryMappedFile) (s : system) : res (MemoryMappedFile * system) := MmapFileUnmap_win32 self s.

(** The size in two halves is the size. *)
Lemma file_size_halves n : 0 <= n < 2 ^ 64 -> GetFileSize64 (n / 2 ^ 32) (n mod 2 ^ 32) = n.
Proof.
  intros Hn. unfold GetFileSize64.
  assert (Hl : Z.land (Z.shiftl (n / 2 ^ 32) 32) (n mod 2 ^ 32) = 0).
  { apply Z.bits_inj'. intros k Hk. rewrite Z.land_spec, Z.bits_0. destruct (Z.ltb_spec k 32).
    - by rewrite Z.shiftl_spec_low.
    - rewrite <- Z.land_ones, Z.land_spec, Z.ones_spec_high by lia. by rewrite !andb_false_r. }
  rewrite <- Z.lxor_lor by done. rewrite <- Z.add_nocarry_lxor by done. rewrite Z.shiftl_mul_pow2 by lia. pose proof (Z.div_mod n (2 ^ 32) ltac:(lia)). lia.
Qed.

(** Mapping a cleared file and giving it back leaves the system as it was. *)
Lemma map_then_destroy base a : (forall f, an_file a = Some f -> f ∉ os_Open base) -> (forall m, an_mapping a = Some m -> m ∉ os_Open base) ->
  (forall p, an_view a = Some p -> 0 < p /\ os_Mapped base !! p = None) ->
  let '(self, s) := MmapFileMap_win32 MmapFileInit a base in MmapFileDestroy_win32 self s = OK (Clear, base).
Proof.
  intros Hf Hm Hv. unfold MmapFileMap_win32. destruct base as [fds maps]. cbn in *. destruct (an_file a) as [f|]; [|done]. specialize (Hf f eq_refl).
  destruct (an_mapping a) as [m|]; [specialize (Hm m eq_refl)|].
  - destruct (an_view a) as [p|]; unfold MmapFileDestroy_win32, MmapFileUnmap_win32, MmapFileValid, open_file, close_file, map_region, unmap_region; cbn.
    + destruct (Hv p eq_refl) as [Hp Hn]. rewrite (proj2 (Z.eqb_neq p 0)) by lia. cbn. rewrite bool_decide_true by (rewrite lookup_insert_eq; eauto).
      rewrite delete_insert_id by done. do 3 f_equal. set_solver.
    + do 3 f_equal. set_solver.
  - unfold MmapFileDestroy_win32, MmapFileUnmap_win32, MmapFileValid, open_file, close_file. cbn. do 3 f_equal. set_solver.
Qed.

(** Unlike on the other systems a file can be mapped over: the first one is never
    given back. *)
Lemma mapping_twice_leaks :
  let first := mkWin32Answers (Some 1) 0 100 (Some 2) (Some 65536) in
  let second := mkWin32Answers (Some 3) 0 100 (Some 4) (Some 131072) in
  let '(self, s) := MmapFileMap_win32 MmapFileInit first (mkSys ∅ ∅) in
  let '(self, s) := MmapFileMap_win32 self second s in
  match MmapFileDestroy_win32 self s with OK (_, s) => bool_decide (os_Open s = {[1; 2]}) && bool_decide (os_Mapped s = {[65536 := 100]}) | Err _ => false end = true.
Proof. vm_compute. reflexivity. Qed.
