(* ===== verification/Counting.v ===== *)
(** * Counting threads

    How many threads of a list are at a given point of their program: the
    bookkeeping of the emulated lock and the emulated condition variable. *)

From S2P Require Import Prelude.

Section Count.
Context {A : Type} `{EqDecision A}.

Fixpoint count (p : A) (ts : list A) : Z :=
  match ts with
  | [] => 0
  | t :: ts => (if bool_decide (t = p) then 1 else 0) + count p ts
  end.

Lemma count_nonneg p ts : 0 <= count p ts.
Proof. induction ts; cbn; [lia|]. case_bool_decide; lia. Qed.

Lemma count_insert p ts i x y : ts !! i = Some x ->
  count p (<[i := y]> ts) = count p ts - (if bool_decide (x = p) then 1 else 0) + (if bool_decide (y = p) then 1 else 0).
Proof.
  revert i. induction ts as [|t ts IH]; intros [|i] H; simpl in *; try done.
  - simplify_eq. lia.
  - rewrite (IH i H). lia.
Qed.

Lemma count_elem p ts : 0 < count p ts <-> p ∈ ts.
Proof.
  pose proof (count_nonneg p) as Hn. induction ts as [|t ts IH]; cbn; [split; [lia | set_solver]|].
  specialize (Hn ts). rewrite elem_of_cons. case_bool_decide as Ht; [split; [by left | lia]|].
  split; [intros; right; apply IH; lia | intros [<-|Hin]; [done | apply IH in Hin; lia]].
Qed.

Lemma count_lookup p ts i : ts !! i = Some p -> 0 < count p ts.
Proof. intros Hi. apply count_elem. by eapply list_elem_of_lookup_2. Qed.

Lemma count_found p ts : 0 < count p ts -> exists i, ts !! i = Some p.
Proof. intros Hc. apply count_elem, list_elem_of_lookup_1 in Hc. done. Qed.

Lemma count_replicate p x n : count p (replicate n x) = if bool_decide (x = p) then Z.of_nat n else 0.
Proof. induction n; cbn [replicate count]; [by case_bool_decide|]. rewrite IHn. case_bool_decide; lia. Qed.

Lemma count_two p ts i j : i <> j -> ts !! i = Some p -> ts !! j = Some p -> 1 < count p ts.
Proof.
  revert i j. induction ts as [|t ts IH]; intros [|i] [|j] Hij Hi Hj; simpl in *; try done.
  - simplify_eq. rewrite bool_decide_true by done. apply count_lookup in Hj. lia.
  - simplify_eq. rewrite bool_decide_true by done. apply count_lookup in Hi. lia.
  - specialize (IH i j ltac:(congruence) Hi Hj). case_bool_decide; lia.
Qed.

End Count.

(** The counts after the program counter of one thread changed. *)
Ltac counts :=
  repeat match goal with
  | H : ?ts !! _ = Some _ |- context [count _ (<[_ := _]> ?ts)] => rewrite !(count_insert _ _ _ _ _ H)
  end;
  repeat (case_bool_decide; try congruence).

(** The same everywhere. *)
Ltac counts_in :=
  repeat match goal with
  | H : ?ts !! _ = Some _, K : context [count _ (<[_ := _]> ?ts)] |- _ => rewrite !(count_insert _ _ _ _ _ H) in K
  end; counts;
  repeat match goal with
  | K : context [bool_decide (?a = ?b)] |- _ =>
      destruct (bool_decide (a = b)) eqn:?; zbool; try congruence
  end.
