(* ===== verification/ReadWriteLock.v ===== *)
(** * The emulated reader-writer lock

    src/src/ReadWriteLock.cpp: on systems without one, a lock that many readers
    or one writer may hold, made of a mutex and two condition variables. What a
    thread does between taking the mutex and giving it back, or waiting, is a
    function on the four counters; the interleavings of the threads, with
    wake-ups that come for no reason, are a step relation. *)

From S2P Require Import Prelude Counting.

Record ReadWriteLock : Type := mkRW {
  m_ActiveReaders : Z;
  m_ActiveWriters : Z;
  m_WaitingReaders : Z;
  m_WaitingWriters : Z }.

Definition ReadWriteLockInit : ReadWriteLock := mkRW 0 0 0 0.

(** What a stretch of code under the mutex ends with. *)
Inductive lock_end : Type := Acquired | Sleeps.

(** What it does to the condition variables. *)
Inductive notice : Type := NoNotice | SignalWrite | BroadcastRead.

(** ** The stretches under the mutex *)

(** From the [while] on, after a wake-up too. *)
Definition LockRead_wait (l : ReadWriteLock) : ReadWriteLock * lock_end :=
  if 0 <? m_ActiveWriters l then (l, Sleeps)
  else (mkRW (m_ActiveReaders l + 1) (m_ActiveWriters l) (m_WaitingReaders l - 1) (m_WaitingWriters l), Acquired).

Definition ReadWriteLockRead (l : ReadWriteLock) : ReadWriteLock * lock_end :=
  if 0 <? m_ActiveWriters l then
    LockRead_wait (mkRW (m_ActiveReaders l) (m_ActiveWriters l) (m_WaitingReaders l + 1) (m_WaitingWriters l))
  else (mkRW (m_ActiveReaders l + 1) (m_ActiveWriters l) (m_WaitingReaders l) (m_WaitingWriters l), Acquired).

Definition ReadWriteUnlockRead (l : ReadWriteLock) : ReadWriteLock * notice :=
  let reader_count := m_ActiveReaders l - 1 in
  (mkRW reader_count (m_ActiveWriters l) (m_WaitingReaders l) (m_WaitingWriters l),
   if (0 =? reader_count) && (0 <? m_WaitingWriters l) then SignalWrite else NoNotice).

Definition LockWrite_wait (l : ReadWriteLock) : ReadWriteLock * lock_end :=
  if (0 <? m_ActiveReaders l) || (0 <? m_ActiveWriters l) then (l, Sleeps)
  else (mkRW (m_ActiveReaders l) (m_ActiveWriters l + 1) (m_WaitingReaders l) (m_WaitingWriters l - 1), Acquired).

Definition ReadWriteLockWrite (l : ReadWriteLock) : ReadWriteLock * lock_end :=
  if (0 <? m_ActiveReaders l) || (0 <? m_ActiveWriters l) then
    LockWrite_wait (mkRW (m_ActiveReaders l) (m_ActiveWriters l) (m_WaitingReaders l) (m_WaitingWriters l + 1))
  else (mkRW (m_ActiveReaders l) (m_ActiveWriters l + 1) (m_WaitingReaders l) (m_WaitingWriters l), Acquired).

Definition ReadWriteUnlockWrite (l : ReadWriteLock) : ReadWriteLock * notice :=
  (mkRW (m_ActiveReaders l) (m_ActiveWriters l - 1) (m_WaitingReaders l) (m_WaitingWriters l),
   if negb (m_WaitingReaders l =? 0) then BroadcastRead
   else if negb (m_WaitingWriters l =? 0) then SignalWrite else NoNotice).

(** ** Threads *)

Inductive rw_pc : Type :=
| Outside
| SleepRead
| WokenRead
| Reading
| SleepWrite
| WokenWrite
| Writing.

#[global] Instance rw_pc_eq_dec : EqDecision rw_pc.
Proof. solve_decision. Defined.

Definition read_pc (e : lock_end) : rw_pc := match e with Acquired => Reading | Sleeps => SleepRead end.
Definition write_pc (e : lock_end) : rw_pc := match e with Acquired => Writing | Sleeps => SleepWrite end.

Definition wake_reader (p : rw_pc) : rw_pc := match p with SleepRead => WokenRead | _ => p end.

(** The threads after a notice: a signal wakes one sleeping writer, if there is one. *)
Inductive notify (ts : list rw_pc) : notice -> list rw_pc -> Prop :=
| notify_none : notify ts NoNotice ts
| notify_broadcast : notify ts BroadcastRead (wake_reader <$> ts)
| notify_one i : ts !! i = Some SleepWrite -> notify ts SignalWrite (<[i := WokenWrite]> ts)
| notify_nobody : SleepWrite ∉ ts -> notify ts SignalWrite ts.

Definition rw_sys : Type := ReadWriteLock * list rw_pc.

Inductive rw_step : rw_sys -> rw_sys -> Prop :=
| step_read l ts i l' e : ts !! i = Some Outside ->
    ReadWriteLockRead l = (l', e) -> rw_step (l, ts) (l', <[i := read_pc e]> ts)
| step_read_woken l ts i l' e : ts !! i = Some WokenRead ->
    LockRead_wait l = (l', e) -> rw_step (l, ts) (l', <[i := read_pc e]> ts)
| step_write l ts i l' e : ts !! i = Some Outside ->
    ReadWriteLockWrite l = (l', e) -> rw_step (l, ts) (l', <[i := write_pc e]> ts)
| step_write_woken l ts i l' e : ts !! i = Some WokenWrite ->
    LockWrite_wait l = (l', e) -> rw_step (l, ts) (l', <[i := write_pc e]> ts)
| step_unlock_read l ts i l' n ts' : ts !! i = Some Reading ->
    ReadWriteUnlockRead l = (l', n) -> notify (<[i := Outside]> ts) n ts' -> rw_step (l, ts) (l', ts')
| step_unlock_write l ts i l' n ts' : ts !! i = Some Writing ->
    ReadWriteUnlockWrite l = (l', n) -> notify (<[i := Outside]> ts) n ts' -> rw_step (l, ts) (l', ts')
| step_spurious_read l ts i : ts !! i = Some SleepRead -> rw_step (l, ts) (l, <[i := WokenRead]> ts)
| step_spurious_write l ts i : ts !! i = Some SleepWrite -> rw_step (l, ts) (l, <[i := WokenWrite]> ts).

Definition rw_start (n : nat) : rw_sys := (ReadWriteLockInit, replicate n Outside).

(** ** Counting threads *)

Lemma count_broadcast p ts : count p (wake_reader <$> ts) =
  match p with
  | SleepRead => 0
  | WokenRead => count WokenRead ts + count SleepRead ts
  | _ => count p ts
  end.
Proof. induction ts as [|t ts IH]; [by destruct p|]. cbn. rewrite IH. destruct p, t; cbn; repeat case_bool_decide; try done; lia. Qed.

(** ** The invariant *)

Record rw_inv (s : rw_sys) : Prop := {
  inv_readers : m_ActiveReaders s.1 = count Reading s.2;
  inv_writers : m_ActiveWriters s.1 = count Writing s.2;
  inv_waiting_readers : m_WaitingReaders s.1 = count SleepRead s.2 + count WokenRead s.2;
  inv_waiting_writers : m_WaitingWriters s.1 = count SleepWrite s.2 + count WokenWrite s.2;
  inv_exclusive : count Writing s.2 = 0 \/ count Writing s.2 = 1 /\ count Reading s.2 = 0;
  (* readers sleep only while somebody writes *)
  inv_sleep_read : count Writing s.2 = 0 -> count SleepRead s.2 = 0;
  (* when nobody holds the lock and a writer sleeps, somebody is about to take it *)
  inv_sleep_write : count Writing s.2 = 0 -> count Reading s.2 = 0 -> 0 < count SleepWrite s.2 ->
    0 < count WokenRead s.2 + count WokenWrite s.2 }.

(** Case analysis on the comparisons of the code. *)
Ltac rw_cases :=
  repeat match goal with
  | H : context [if ?b then _ else _] |- _ => destruct b eqn:?
  end; simplify_eq; zbool;
  repeat match goal with
  | H : (_ || _) = true |- _ => apply orb_true_iff in H as [H|H]; zbool
  | H : (_ && _) = false |- _ => apply andb_false_iff in H as [H|H]; zbool
  end.

Lemma signal_counts ts ts' p : notify ts SignalWrite ts' -> p <> SleepWrite -> p <> WokenWrite -> count p ts' = count p ts.
Proof. inversion 1; subst; [|done]. intros. counts. lia. Qed.

Lemma signal_writers ts ts' : notify ts SignalWrite ts' ->
  count SleepWrite ts' + count WokenWrite ts' = count SleepWrite ts + count WokenWrite ts /\
  (0 < count SleepWrite ts -> 0 < count WokenWrite ts') /\ count SleepWrite ts' <= count SleepWrite ts.
Proof.
  pose proof (count_nonneg WokenWrite ts). inversion 1; subst; [counts; lia|].
  split_and!; [done | by intros ?%count_elem | done].
Qed.

Lemma rw_start_inv n : rw_inv (rw_start n).
Proof. split; cbn [fst snd rw_start]; rewrite ?count_replicate; repeat (case_bool_decide; try congruence); cbn; lia. Qed.

Lemma rw_step_inv s s' : rw_step s s' -> rw_inv s -> rw_inv s'.
Proof.
  intros Hs [H1 H2 H3 H4 H5 H6 H7].
  assert (forall p, 0 <= count p s.2) as Hn by (intros; apply count_nonneg).
  pose proof (Hn SleepRead). pose proof (Hn WokenRead). pose proof (Hn Reading).
  pose proof (Hn SleepWrite). pose proof (Hn WokenWrite). pose proof (Hn Writing).
  destruct Hs; cbn [fst snd] in *;
    unfold ReadWriteLockRead, ReadWriteLockWrite, LockRead_wait, LockWrite_wait, ReadWriteUnlockRead, ReadWriteUnlockWrite in *;
    rw_cases; cbn in *; try lia.
  all: match goal with
  | H : ?ts !! _ = Some ?p |- _ =>
    pose proof (proj2 (count_elem p ts) (list_elem_of_lookup_2 _ _ _ H))
  end.
  all: try (split; cbn; counts; lia).
  all: match goal with
  | H : notify _ NoNotice _ |- _ => inversion H; subst; clear H
  | H : notify _ BroadcastRead _ |- _ => inversion H; subst; clear H
  | H : notify _ SignalWrite _ |- _ => destruct (signal_writers _ _ H) as (? & ? & ?);
      pose proof (signal_counts _ _ SleepRead H ltac:(done) ltac:(done));
      pose proof (signal_counts _ _ WokenRead H ltac:(done) ltac:(done));
      pose proof (signal_counts _ _ Reading H ltac:(done) ltac:(done));
      pose proof (signal_counts _ _ Writing H ltac:(done) ltac:(done))
  end.
  all: split; cbn; rewrite ?count_broadcast; counts_in; lia.
Qed.

Inductive rw_reachable (n : nat) : rw_sys -> Prop :=
| rw_reach_start : rw_reachable n (rw_start n)
| rw_reach_step s s' : rw_reachable n s -> rw_step s s' -> rw_reachable n s'.

Lemma rw_reachable_inv n s : rw_reachable n s -> rw_inv s.
Proof. induction 1; [apply rw_start_inv | by eapply rw_step_inv]. Qed.

(** ** What the lock promises *)

(** C31. A writer is alone with the lock, and the lock is never left idle with
    somebody asleep: when nobody holds it and a thread waits, a thread that was
    woken is about to take it, and it will get it. *)
Theorem rwlock_exclusive_no_lost_wakeup n l ts : rw_reachable n (l, ts) ->
  (forall i j p, ts !! i = Some Writing -> ts !! j = Some p -> p = Reading \/ p = Writing -> i = j) /\
  (SleepRead ∈ ts \/ SleepWrite ∈ ts -> Reading ∉ ts -> Writing ∉ ts ->
     exists i, ts !! i = Some WokenRead /\ (LockRead_wait l).2 = Acquired \/
               ts !! i = Some WokenWrite /\ (LockWrite_wait l).2 = Acquired).
Proof.
  intros [H1 H2 H3 H4 H5 H6 H7]%rw_reachable_inv. cbn in *. split.
  - intros i j p Hi Hj Hp. destruct (decide (i = j)) as [|Hij]; [done|exfalso].
    pose proof (proj2 (count_elem _ _) (list_elem_of_lookup_2 _ _ _ Hi)).
    destruct Hp as [->| ->].
    + pose proof (proj2 (count_elem _ _) (list_elem_of_lookup_2 _ _ _ Hj)). lia.
    + pose proof (count_two _ _ _ _ Hij Hi Hj). lia.
  - rewrite <- !count_elem. intros Hs Hr Hw.
    pose proof (count_nonneg Reading ts). pose proof (count_nonneg Writing ts).
    assert (0 < count WokenRead ts \/ 0 < count WokenWrite ts) as [Hk|Hk].
    { pose proof (count_nonneg WokenRead ts). pose proof (count_nonneg WokenWrite ts). lia. }
    all: apply count_elem, list_elem_of_lookup_1 in Hk as [i Hi]; exists i.
    + left. split; [done|]. unfold LockRead_wait. destruct (0 <? _) eqn:E; [zbool; lia | done].
    + right. split; [done|]. unfold LockWrite_wait. destruct (_ || _) eqn:E; [|done]. apply orb_true_iff in E as [E|E]; zbool; lia.
Qed.

(** One thread writes, one asks to read and one to write, and both sleep; the
    first gives the lock back, which wakes the reader. *)
Lemma rwlock_exclusive_no_lost_wakeup_witness : exists i,
  [Outside; WokenRead; SleepWrite] !! i = Some WokenRead /\ (LockRead_wait (mkRW 0 0 1 1)).2 = Acquired \/
  [Outside; WokenRead; SleepWrite] !! i = Some WokenWrite /\ (LockWrite_wait (mkRW 0 0 1 1)).2 = Acquired.
Proof.
  assert (rw_reachable 3 (mkRW 0 0 1 1, [Outside; WokenRead; SleepWrite])) as H.
  { eapply rw_reach_step; [eapply rw_reach_step; [eapply rw_reach_step; [eapply rw_reach_step; [apply rw_reach_start|]|]|]|].
    - by eapply (step_write _ _ 0).
    - by eapply (step_read _ _ 1).
    - by eapply (step_write _ _ 2).
    - eapply (step_unlock_write _ _ 0); [done | done | apply notify_broadcast]. }
  destruct (rwlock_exclusive_no_lost_wakeup 3 _ _ H) as [_ Hw].
  apply Hw; [right; set_solver | set_solver | set_solver].
Defined.
