(* ===== verification/CondVar.v ===== *)
(** * The emulated condition variable

    src/src/ConditionVar.cpp: on Windows before Vista a condition variable is a
    count of waiters, a semaphore they sleep on and an event the last of them
    sets for the thread that broadcasts. The critical section around the count
    makes each stretch of code inside it one step; the operations on the kernel
    objects are steps of their own, between which other threads run. *)

From stdpp Require Import relations.
From S2P Require Import Prelude Counting.

(** The fields, with the counter of the semaphore and the state of the
    auto-reset event. *)
Record ConditionVariable : Type := mkCond {
  waiters_count : Z;
  was_broadcast : bool;
  sema : Z;
  waiters_done : bool }.

Definition CondInit : ConditionVariable := mkCond 0 false 0 false.

(** ** The stretches inside the critical section *)

Definition CondWait_enter (v : ConditionVariable) : ConditionVariable :=
  mkCond (waiters_count v + 1) (was_broadcast v) (sema v) (waiters_done v).

(** After the semaphore: one waiter less, and whether it is the last one of a
    broadcast. *)
Definition CondWait_leave (v : ConditionVariable) : ConditionVariable * bool :=
  let count := waiters_count v - 1 in
  (mkCond count (was_broadcast v) (sema v) (waiters_done v), was_broadcast v && (count =? 0)).

Definition CondSignal_check (v : ConditionVariable) : bool := 0 <? waiters_count v.

(** Up to leaving the critical section; the flag says whether to wait for the
    waiters. *)
Definition CondBroadcast_begin (v : ConditionVariable) : ConditionVariable * bool :=
  if 0 <? waiters_count v then (mkCond (waiters_count v) true (sema v + waiters_count v) (waiters_done v), true)
  else (v, false).

(** ** The kernel objects *)

Definition release_one (v : ConditionVariable) : ConditionVariable :=
  mkCond (waiters_count v) (was_broadcast v) (sema v + 1) (waiters_done v).

Definition take_one (v : ConditionVariable) : ConditionVariable :=
  mkCond (waiters_count v) (was_broadcast v) (sema v - 1) (waiters_done v).

Definition set_done (v : ConditionVariable) : ConditionVariable :=
  mkCond (waiters_count v) (was_broadcast v) (sema v) true.

(** The wait for the event, which resets it, and the assignment after it. *)
Definition CondBroadcast_end (v : ConditionVariable) : ConditionVariable :=
  mkCond (waiters_count v) false (sema v) false.

(** ** Threads

    [CvOwns]: has the mutex of the caller. [CvEntered]: in [CondWait], counted,
    about to give the mutex back. [CvSleeps]: waits on the semaphore.
    [CvWoken]: past it. [CvLast]: about to set the event. [CvReturns]: waits
    for the mutex again. [CvSignals], [CvBroadcasts]: about to release the
    semaphore, waiting for the event; the flag says whether the caller has the
    mutex. *)
Inductive cv_pc : Type :=
| CvOutside
| CvOwns
| CvEntered
| CvSleeps
| CvWoken
| CvLast
| CvReturns
| CvSignals (held : bool)
| CvBroadcasts (held : bool).

#[global] Instance cv_pc_eq_dec : EqDecision cv_pc.
Proof. solve_decision. Defined.

Definition caller (held : bool) : cv_pc := if held then CvOwns else CvOutside.

Record cv_sys : Type := mkCv { cs_var : ConditionVariable; cs_mutex : bool; cs_threads : list cv_pc }.

(** [free]: whether threads may signal and broadcast without the mutex. *)
Inductive cv_step (free : bool) : cv_sys -> cv_sys -> Prop :=
| cv_lock v ts i : ts !! i = Some CvOutside -> cv_step free (mkCv v false ts) (mkCv v true (<[i := CvOwns]> ts))
| cv_unlock v ts i m : ts !! i = Some CvOwns -> cv_step free (mkCv v m ts) (mkCv v false (<[i := CvOutside]> ts))
| cv_wait v ts i m : ts !! i = Some CvOwns ->
    cv_step free (mkCv v m ts) (mkCv (CondWait_enter v) m (<[i := CvEntered]> ts))
| cv_sleep v ts i m : ts !! i = Some CvEntered -> cv_step free (mkCv v m ts) (mkCv v false (<[i := CvSleeps]> ts))
| cv_wake v ts i m : ts !! i = Some CvSleeps -> 0 < sema v ->
    cv_step free (mkCv v m ts) (mkCv (take_one v) m (<[i := CvWoken]> ts))
| cv_leave v ts i m v' (last : bool) : ts !! i = Some CvWoken -> CondWait_leave v = (v', last) ->
    cv_step free (mkCv v m ts) (mkCv v' m (<[i := if last then CvLast else CvReturns]> ts))
| cv_last v ts i m : ts !! i = Some CvLast -> cv_step free (mkCv v m ts) (mkCv (set_done v) m (<[i := CvReturns]> ts))
| cv_return v ts i : ts !! i = Some CvReturns -> cv_step free (mkCv v false ts) (mkCv v true (<[i := CvOwns]> ts))
| cv_signal v ts i m held : ts !! i = Some (caller held) -> held || free -> CondSignal_check v = true ->
    cv_step free (mkCv v m ts) (mkCv v m (<[i := CvSignals held]> ts))
| cv_release v ts i m held : ts !! i = Some (CvSignals held) ->
    cv_step free (mkCv v m ts) (mkCv (release_one v) m (<[i := caller held]> ts))
| cv_broadcast v ts i m held v' : ts !! i = Some (caller held) -> held || free -> CondBroadcast_begin v = (v', true) ->
    cv_step free (mkCv v m ts) (mkCv v' m (<[i := CvBroadcasts held]> ts))
| cv_broadcast_end v ts i m held : ts !! i = Some (CvBroadcasts held) -> waiters_done v = true ->
    cv_step free (mkCv v m ts) (mkCv (CondBroadcast_end v) m (<[i := caller held]> ts)).

Inductive cv_reachable (free : bool) (n : nat) : cv_sys -> Prop :=
| cv_reach_start : cv_reachable free n (mkCv CondInit false (replicate n CvOutside))
| cv_reach_step s s' : cv_reachable free n s -> cv_step free s s' -> cv_reachable free n s'.

(** ** The invariant, when signals come from threads that have the mutex *)

Definition waiting (ts : list cv_pc) : Z := count CvEntered ts + count CvSleeps ts + count CvWoken ts.

Record cv_inv (s : cv_sys) : Prop := {
  ci_mutex : count CvOwns (cs_threads s) + count CvEntered (cs_threads s) + count (CvSignals true) (cs_threads s) +
    count (CvBroadcasts true) (cs_threads s) = if cs_mutex s then 1 else 0;
  ci_held : count (CvSignals false) (cs_threads s) = 0 /\ count (CvBroadcasts false) (cs_threads s) = 0;
  ci_waiters : waiters_count (cs_var s) = waiting (cs_threads s);
  ci_sema : 0 <= sema (cs_var s);
  ci_quiet : count (CvBroadcasts true) (cs_threads s) = 0 ->
    was_broadcast (cs_var s) = false /\ waiters_done (cs_var s) = false /\ count CvLast (cs_threads s) = 0;
  (* during a broadcast the semaphore has a place for every sleeper, until the
     last one is about to set the event or has set it *)
  ci_broadcast : count (CvBroadcasts true) (cs_threads s) = 1 ->
    was_broadcast (cs_var s) = true /\ count CvSleeps (cs_threads s) <= sema (cs_var s) /\
    (if waiters_done (cs_var s) then 1 else 0) + count CvLast (cs_threads s) + (if 0 <? waiting (cs_threads s) then 1 else 0) = 1 }.

Lemma cv_start_inv n : cv_inv (mkCv CondInit false (replicate n CvOutside)).
Proof. split; cbn; unfold waiting; rewrite ?count_replicate; repeat (case_bool_decide; try congruence); lia || auto. Qed.

(** The counts that are not negative. *)
Ltac cv_nonneg ts :=
  pose proof (count_nonneg CvOwns ts); pose proof (count_nonneg CvEntered ts); pose proof (count_nonneg CvSleeps ts);
  pose proof (count_nonneg CvWoken ts); pose proof (count_nonneg CvLast ts);
  pose proof (count_nonneg (CvSignals true) ts); pose proof (count_nonneg (CvBroadcasts true) ts);
  pose proof (count_nonneg (CvSignals false) ts); pose proof (count_nonneg (CvBroadcasts false) ts).

(** Linear arithmetic with the comparisons and flags of the invariant. *)
Ltac cv_arith :=
  intros; split_and?;
  repeat match goal with
  | |- context [?a <? ?b] => destruct (Z.ltb_spec a b)
  | H : context [?a <? ?b] |- _ => destruct (Z.ltb_spec a b)
  | b : bool |- _ => destruct b
  end; try done; try lia.

Lemma cv_step_inv s s' : cv_step false s s' -> cv_inv s -> cv_inv s'.
Proof.
  intros Hs [H1 [H2 H3] H4 H5 H6 H7]. unfold waiting in *. cv_nonneg (cs_threads s).
  assert (count (CvBroadcasts true) (cs_threads s) = 0 \/ count (CvBroadcasts true) (cs_threads s) = 1) as HB
    by (destruct (cs_mutex s); lia).
  destruct HB as [HB|HB]; [destruct (H6 HB) as (W & D & Hl) | destruct (H7 HB) as (W & Hse & Hd)]; clear H6 H7.
  all: destruct Hs; destruct v as [wc wb se wd]; cbn in *; subst; unfold CondWait_leave, CondBroadcast_begin, CondSignal_check in *; cbn in *;
    repeat match goal with held : bool |- _ => destruct held; cbn [caller orb] in *; try done end;
    match goal with H : ?ts !! _ = Some ?p |- _ => pose proof (count_lookup p ts _ H) end.
  all: repeat match goal with H : context [if ?b then _ else _] |- _ => destruct b eqn:? end; simplify_eq; zbool.
  all: split; unfold waiting; cbn in *; counts.
  all: cv_arith.
Qed.

Lemma cv_reachable_inv n s : cv_reachable false n s -> cv_inv s /\ length (cs_threads s) = n.
Proof.
  induction 1 as [|s s' _ [IH Hn] Hs]; [split; [apply cv_start_inv|apply length_replicate]|].
  split; [by eapply cv_step_inv|]. rewrite <- Hn. destruct Hs; apply length_insert.
Qed.

(** ** What a broadcast promises *)

(** A step of the system during which thread [i] is still broadcasting. *)
Definition during (i : nat) (s s' : cv_sys) : Prop :=
  cv_step false s s' /\ cs_threads s' !! i = Some (CvBroadcasts true).

(** What the waiters have left to do. *)
Definition work (ts : list cv_pc) : Z := 3 * count CvSleeps ts + 2 * count CvWoken ts + count CvLast ts.

Lemma work_bound ts : 0 <= work ts <= 3 * zlen ts.
Proof.
  unfold work. induction ts as [|t ts IH]; cbn [count length]; [lia|].
  repeat (case_bool_decide; try congruence); subst; try congruence; lia.
Qed.

Lemma during_work i s s' : cv_inv s -> cs_threads s !! i = Some (CvBroadcasts true) -> during i s s' ->
  work (cs_threads s') < work (cs_threads s).
Proof.
  intros [H1 [H2 H3] H4 H5 _ _] Hi [Hs Hi']. pose proof (count_lookup _ _ _ Hi). cv_nonneg (cs_threads s).
  assert (cs_mutex s = true) as Hm by (destruct (cs_mutex s); [done|lia]). rewrite Hm in H1.
  destruct Hs; cbn in *; simplify_eq;
    repeat match goal with held : bool |- _ => destruct held; cbn [caller orb] in *; try done end;
    try match goal with H : ?ts !! _ = Some ?p |- _ =>
      lazymatch p with CvBroadcasts _ => fail | _ => pose proof (count_lookup p ts _ H) end end; try lia.
  all: try (unfold work; repeat case_match; counts; lia).
  - match goal with H : ts !! i0 = Some _ |- _ =>
      destruct (decide (i = i0)) as [->|Hne]; [by rewrite list_lookup_insert_eq in Hi' by (by eapply lookup_lt_Some)|];
      pose proof (count_two _ ts _ _ Hne Hi H); lia end.
  - match goal with H : ts !! i0 = Some _ |- _ => pose proof (count_lookup _ ts _ H); lia end.
Qed.

(** C32. A broadcast by a thread that has the mutex returns: while it waits some
    waiter can go on, every step of the system brings it nearer, and there are at
    most three for every thread. When the event is set nobody is asleep. *)
Theorem condvar_broadcast_returns n s i : cv_reachable false n s -> cs_threads s !! i = Some (CvBroadcasts true) ->
  (exists s', cv_step false s s') /\
  (forall k s', nsteps (during i) k s s' -> Z.of_nat k <= 3 * Z.of_nat n) /\
  (waiters_done (cs_var s) = true -> waiters_count (cs_var s) = 0 /\ CvSleeps ∉ cs_threads s).
Proof.
  intros Hr Hi. destruct (cv_reachable_inv _ _ Hr) as [HI Hn]. split_and!.
  - destruct s as [v m ts]. destruct HI as [H1 [H2 H3] H4 H5 H6 H7]. unfold waiting in *. cbn in *. cv_nonneg ts.
    pose proof (count_lookup _ _ _ Hi). destruct H7 as (W & Hse & Hd); [destruct m; lia|].
    destruct (waiters_done v) eqn:D; [eexists; by eapply cv_broadcast_end|].
    destruct (Z.ltb_spec 0 (count CvEntered ts + count CvSleeps ts + count CvWoken ts)).
    + destruct (decide (0 < count CvWoken ts)) as [Hw|Hw].
      * destruct (count_found _ _ Hw) as [j Hj]. destruct (CondWait_leave v) eqn:E. eexists. by eapply cv_leave.
      * assert (0 < count CvSleeps ts) as Hsl by (destruct m; lia). destruct (count_found _ _ Hsl) as [j Hj].
        eexists. eapply cv_wake; [done|lia].
    + assert (0 < count CvLast ts) as Hl by lia. destruct (count_found _ _ Hl) as [j Hj]. eexists. by eapply cv_last.
  - assert (forall k s', nsteps (during i) k s s' -> Z.of_nat k + work (cs_threads s') <= work (cs_threads s)) as Hk.
    { intros k s' Hk. clear Hn Hr. induction Hk as [|k s s1 s' Hs Hk IH]; [lia|].
      pose proof (during_work i s s1 HI Hi Hs). destruct Hs as [Hs Hi1]. specialize (IH Hi1 (cv_step_inv _ _ Hs HI)). lia. }
    intros k s' Hs. specialize (Hk k s' Hs). pose proof (work_bound (cs_threads s)). pose proof (work_bound (cs_threads s')). lia.
  - intros D. destruct HI as [H1 [H2 H3] H4 H5 H6 H7]. pose proof (count_lookup _ _ _ Hi). cv_nonneg (cs_threads s).
    destruct H7 as (W & Hse & Hd); [destruct (cs_mutex s); lia|]. rewrite D in Hd. unfold waiting in *.
    destruct (Z.ltb_spec 0 (count CvEntered (cs_threads s) + count CvSleeps (cs_threads s) + count CvWoken (cs_threads s))); [lia|].
    split; [lia|]. rewrite <- count_elem. lia.
Qed.

Lemma cv_reach_to free n s s1 s' : cv_reachable free n s -> cv_step free s s1 -> s1 = s' -> cv_reachable free n s'.
Proof. intros Hr Hs <-. by eapply cv_reach_step. Qed.

(** A number of steps from the start. *)
Ltac cv_reach n :=
  lazymatch n with O => apply cv_reach_start | S ?m => eapply cv_reach_step; [cv_reach m|] end.

(** One thread sleeps, another takes the mutex and broadcasts. *)
Definition cv_demo : cv_sys := mkCv (mkCond 1 true 1 false) true [CvSleeps; CvBroadcasts true].

Lemma cv_demo_reachable : cv_reachable false 2 cv_demo.
Proof.
  eapply cv_reach_to; [cv_reach 4%nat| |].
  - by eapply (cv_lock _ _ _ 0).
  - by eapply (cv_wait _ _ _ 0).
  - by eapply (cv_sleep _ _ _ 0).
  - by eapply (cv_lock _ _ _ 1).
  - by eapply (cv_broadcast _ _ _ 1 _ true).
  - reflexivity.
Qed.

Lemma condvar_broadcast_returns_witness :
  (exists s', cv_step false cv_demo s') /\
  (forall k s', nsteps (during 1) k cv_demo s' -> Z.of_nat k <= 3 * Z.of_nat 2) /\
  (waiters_done (cs_var cv_demo) = true -> waiters_count (cs_var cv_demo) = 0 /\ CvSleeps ∉ cs_threads cv_demo).
Proof. apply (condvar_broadcast_returns 2 cv_demo 1); [apply cv_demo_reachable | reflexivity]. Defined.

(** A broadcast without the mutex, as [SignalSet] makes it, can wait for ever:
    a thread that starts to wait after the semaphore was released is counted
    too, so the thread that was woken is not the last one. *)
Definition cv_stuck : cv_sys := mkCv (mkCond 1 true 0 false) false [CvOutside; CvBroadcasts false; CvSleeps].

Lemma unlocked_broadcast_hangs : cv_reachable true 3 cv_stuck /\
  forall s', cv_step true cv_stuck s' -> cs_threads s' !! 1%nat = Some (CvBroadcasts false) /\ cs_threads s' !! 2%nat = Some CvSleeps.
Proof.
  split.
  - eapply cv_reach_to; [cv_reach 10%nat| |].
    + by eapply (cv_lock _ _ _ 0).
    + by eapply (cv_wait _ _ _ 0).
    + by eapply (cv_sleep _ _ _ 0).
    + by eapply (cv_broadcast _ _ _ 1 _ false).
    + by eapply (cv_lock _ _ _ 2).
    + by eapply (cv_wait _ _ _ 2).
    + by eapply (cv_sleep _ _ _ 2).
    + by eapply (cv_wake _ _ _ 0).
    + by eapply (cv_leave _ _ _ 0).
    + by eapply (cv_return _ _ _ 0).
    + by eapply (cv_unlock _ _ _ 0).
    + reflexivity.
  - intros s' Hs. inversion Hs; subst; cbn in *.
    all: match goal with H : _ !! ?i = Some _ |- _ => destruct i as [|[|[|i]]]; cbn in H; simplify_eq end; try done.
    all: by destruct held.
Qed.
