(* ===== verification/SignalHandler.v ===== *)
(** * Signals

    src/src/SignalHandler.cpp: a signal sets a reason and wakes the threads of the
    build through the condition variable they wait on. The reason has a mutex of
    its own; the mutex that the waiting threads give up is that of the queue
    (BuildLoop in BuildQueue.cpp), which [SignalSet] does not take. *)

From S2P Require Import Prelude Counting.

(** [sg_Cond]: a condition variable has been set. *)
Record SignalInfo : Type := mkSignal { sg_Signalled : bool; sg_Reason : option cstr; sg_Cond : bool }.

Definition no_signal : SignalInfo := mkSignal false None false.

Definition SignalGetReason (s : SignalInfo) : option cstr := sg_Reason s.
Definition SignalHandlerSetCondition (cvar : bool) (s : SignalInfo) : SignalInfo := mkSignal (sg_Signalled s) (sg_Reason s) cvar.

(** The state, and whether the condition variable is broadcast. *)
Definition SignalSet (reason : cstr) (s : SignalInfo) : SignalInfo * bool := (mkSignal true (Some reason) (sg_Cond s), sg_Cond s).

(** Where a signal comes from. *)
Definition SIGINT : Z := 2.
Definition SIGQUIT : Z := 3.
Definition SIGTERM : Z := 15.

Definition PosixSignalHandlerThread (sigwait : Z + Z) (s : SignalInfo) : res (SignalInfo * bool) :=
  match sigwait with
  | inl _ => Err (Croak "sigwait() failed")
  | inr sig =>
      OK (SignalSet (if sig =? SIGINT then "SIGINT" else if sig =? SIGTERM then "SIGTERM" else if sig =? SIGQUIT then "SIGQUIT" else "unknown") s)
  end.

Definition CTRL_C_EVENT : Z := 0.
Definition CTRL_BREAK_EVENT : Z := 1.

(** The last component is what the handler returns: whether the event was its own. *)
Definition WindowsSignalHandlerFunc (ctrl_type : Z) (s : SignalInfo) : SignalInfo * bool * bool :=
  let reason := if ctrl_type =? CTRL_C_EVENT then Some (s2l "Ctrl+C") else if ctrl_type =? CTRL_BREAK_EVENT then Some (s2l "Ctrl+Break") else None in
  match reason with
  | Some reason => (SignalSet reason s, true)
  | None => (s, false, false)
  end.

(** ** The waiting threads *)

(** A thread in [BuildLoop]: without the mutex of the queue, with it at the test
    of the loop, with it and about to wait, waiting, and after the loop. *)
Inductive sg_pc : Type := SgOutside | SgTests | SgDecided | SgSleeps | SgLeft.

#[global] Instance sg_pc_eq : EqDecision sg_pc.
Proof. solve_decision. Defined.

Record sg_sys : Type := mkSgSys { ss_Info : SignalInfo; ss_Mutex : bool; ss_Threads : list sg_pc }.

Definition woken (t : sg_pc) : sg_pc := match t with SgSleeps => SgOutside | _ => t end.

(** [locked] says whether the signal waits for the mutex of the queue, which the
    source does not do. *)
Inductive sg_step (locked : bool) : sg_sys -> sg_sys -> Prop :=
| sg_lock s i : ss_Threads s !! i = Some SgOutside -> ss_Mutex s = false ->
    sg_step locked s (mkSgSys (ss_Info s) true (<[i := SgTests]> (ss_Threads s)))
| sg_leave s i : ss_Threads s !! i = Some SgTests -> is_Some (SignalGetReason (ss_Info s)) ->
    sg_step locked s (mkSgSys (ss_Info s) false (<[i := SgLeft]> (ss_Threads s)))
| sg_work s i : ss_Threads s !! i = Some SgTests -> SignalGetReason (ss_Info s) = None ->
    sg_step locked s (mkSgSys (ss_Info s) false (<[i := SgOutside]> (ss_Threads s)))
| sg_decide s i : ss_Threads s !! i = Some SgTests -> SignalGetReason (ss_Info s) = None ->
    sg_step locked s (mkSgSys (ss_Info s) true (<[i := SgDecided]> (ss_Threads s)))
| sg_wait s i : ss_Threads s !! i = Some SgDecided ->
    sg_step locked s (mkSgSys (ss_Info s) false (<[i := SgSleeps]> (ss_Threads s)))
| sg_wake s i : ss_Threads s !! i = Some SgSleeps ->
    sg_step locked s (mkSgSys (ss_Info s) (ss_Mutex s) (<[i := SgOutside]> (ss_Threads s)))
| sg_signal s reason info wakes : (locked = true -> ss_Mutex s = false) -> SignalSet reason (ss_Info s) = (info, wakes) ->
    sg_step locked s (mkSgSys info (ss_Mutex s) (if wakes then map woken (ss_Threads s) else ss_Threads s)).

Definition sg_start (n : nat) : sg_sys := mkSgSys (SignalHandlerSetCondition true no_signal) false (replicate n SgOutside).

Inductive sg_reachable (locked : bool) (n : nat) : sg_sys -> Prop :=
| sg_begin : sg_reachable locked n (sg_start n)
| sg_then s s' : sg_reachable locked n s -> sg_step locked s s' -> sg_reachable locked n s'.

(** At most one thread has the mutex; after a signal at most one thread is on its
    way to sleep or asleep, none when the signal waits for the mutex. *)
Record sg_inv (locked : bool) (s : sg_sys) : Prop := {
  sv_cond : sg_Cond (ss_Info s) = true;
  sv_mutex : count SgTests (ss_Threads s) + count SgDecided (ss_Threads s) = if ss_Mutex s then 1 else 0;
  sv_late : is_Some (SignalGetReason (ss_Info s)) ->
    count SgDecided (ss_Threads s) + count SgSleeps (ss_Threads s) <= if locked then 0 else 1 }.

Lemma count_woken p ts : count p (map woken ts) =
  match p with SgSleeps => 0 | SgOutside => count SgOutside ts + count SgSleeps ts | _ => count p ts end.
Proof. induction ts as [|t ts IH]; [by destruct p|]. cbn [map count]. rewrite IH. destruct p, t; cbn [woken]; repeat case_bool_decide; try congruence; lia. Qed.

Lemma sg_inv_step locked s s' : sg_inv locked s -> sg_step locked s s' -> sg_inv locked s'.
Proof.
  intros [H1 H2 H3] Hs. destruct Hs as [s i Hi Hm|s i Hi Hr|s i Hi Hr|s i Hi Hr|s i Hi|s i Hi|s reason info wakes Hl He]; (split; [try done| |]); cbn [ss_Info ss_Mutex ss_Threads] in *.
  all: try (counts; pose proof (count_lookup _ _ _ Hi); pose proof (count_nonneg SgTests (ss_Threads s)); pose proof (count_nonneg SgDecided (ss_Threads s)); destruct (ss_Mutex s); lia || congruence).
  all: try (intros Hsig; try (rewrite Hr in Hsig; by destruct Hsig); specialize (H3 Hsig); counts; lia).
  - by injection He as <- _.
  - unfold SignalSet in He. rewrite H1 in He. injection He as <- <-. rewrite !count_woken. exact H2.
  - intros _. unfold SignalSet in He. rewrite H1 in He. injection He as <- <-. rewrite !count_woken.
    pose proof (count_nonneg SgTests (ss_Threads s)). destruct locked; [rewrite Hl in H2 by done|destruct (ss_Mutex s)]; lia.
Qed.

Lemma sg_inv_reachable locked n s : sg_reachable locked n s -> sg_inv locked s.
Proof.
  induction 1 as [|s s' _ IH Hs]; [|by eapply sg_inv_step]. constructor; cbn; [done| |by intros []].
  rewrite !count_replicate. by rewrite !bool_decide_false by done.
Qed.

(** After a signal all threads of the loop but at most one are awake, the one that
    had tested before the signal and had not begun to wait; a thread that tests
    afterwards leaves the loop. When the signal waits for the mutex of the queue,
    no thread is asleep. *)
Lemma signal_wakes_all_but_one locked n s : sg_reachable locked n s -> is_Some (SignalGetReason (ss_Info s)) ->
  count SgDecided (ss_Threads s) + count SgSleeps (ss_Threads s) <= (if locked then 0 else 1) /\
  forall i s', ss_Threads s !! i = Some SgTests -> sg_step locked s s' -> ss_Threads s' !! i = Some SgTests \/ ss_Threads s' !! i = Some SgLeft.
Proof.
  intros Hr Hsig. split; [by apply (sg_inv_reachable _ _ _ Hr)|]. intros i s' Hi Hs.
  assert (Hlt : (i < length (ss_Threads s))%nat) by (by eapply lookup_lt_Some).
  destruct Hs as [s j Hj _|s j Hj _|s j Hj Hn|s j Hj Hn|s j Hj|s j Hj|s reason info wakes _ _]; cbn [ss_Threads ss_Info] in *;
    try (by rewrite Hn in Hsig; destruct Hsig);
    try (destruct (decide (j = i)) as [->|Hne]; [try congruence; right; by rewrite list_lookup_insert_eq|left; by rewrite list_lookup_insert_ne]).
  left. destruct wakes; [|done]. change (map woken ?l) with (woken <$> l). by rewrite list_lookup_fmap, Hi.
Qed.

(** As it is one can be lost: the thread begins to wait after the broadcast and is
    asleep when everybody else has left. The scheduler's events allow for it
    ([EvSignal] of [BuildQueue.sys_step]); there a thread that still builds a node
    broadcasts when it is done, and the build ends. *)
Lemma signal_lost : exists s, sg_reachable false 2 s /\ is_Some (SignalGetReason (ss_Info s)) /\ ss_Threads s = [SgSleeps; SgLeft] /\ ss_Mutex s = false.
Proof.
  set (quiet := SignalHandlerSetCondition true no_signal). set (signalled := mkSignal true (Some (s2l "SIGINT")) true).
  exists (mkSgSys signalled false [SgSleeps; SgLeft]). split; [|split; [by eexists|done]].
  apply (sg_then _ _ (mkSgSys signalled true [SgSleeps; SgTests])); [|apply (sg_leave false (mkSgSys signalled true [SgSleeps; SgTests]) 1%nat); [done|by eexists]].
  apply (sg_then _ _ (mkSgSys signalled false [SgSleeps; SgOutside])); [|by apply (sg_lock false (mkSgSys signalled false [SgSleeps; SgOutside]) 1%nat)].
  apply (sg_then _ _ (mkSgSys signalled true [SgDecided; SgOutside])); [|by apply (sg_wait false (mkSgSys signalled true [SgDecided; SgOutside]) 0%nat)].
  apply (sg_then _ _ (mkSgSys quiet true [SgDecided; SgOutside])); [|by apply (sg_signal false (mkSgSys quiet true [SgDecided; SgOutside]) (s2l "SIGINT") signalled true)].
  apply (sg_then _ _ (mkSgSys quiet true [SgTests; SgOutside])); [|by apply (sg_decide false (mkSgSys quiet true [SgTests; SgOutside]) 0%nat)].
  apply (sg_then _ _ (sg_start 2)); [apply sg_begin|by apply (sg_lock false (sg_start 2) 0%nat)].
Qed.
