(* ===== verification/TerminalIo.v ===== *)
(** * The terminal

    src/src/TerminalIo.cpp: the commands of several jobs print at the same time;
    one job at a time owns the terminal and prints directly, what the others
    print is kept in 64 line buffers until they own it. What a thread does with
    the mutex held, up to giving it back or waiting, is a function; the
    interleavings of the jobs, one thread each, are a step relation that
    records the calls and the writes. *)

From stdpp Require Import sorting.
From S2P Require Import Prelude PathUtil.

Definition kLineBufSize : Z := 8192.
Definition kLineBufCount : Z := 64.

(** [m_Data] is the row of [s_BufferData] that belongs to the buffer. *)
Record LineBuffer : Type := mkLine {
  lb_JobId : Z;
  lb_SortKey : Z;
  lb_IsStderr : bool;
  lb_Len : Z;
  lb_Data : cstr }.

(** The static variables. A [LineBuffer*] is an index into [s_Linebufs], NULL is -1. *)
Record Terminal : Type := mkTerm {
  s_PrintingJobIndex : Z;
  s_FreeLinebufCount : Z;
  s_QueuedLinebufCount : Z;
  s_FreeLinebufs : list Z;
  s_QueuedLinebufs : list Z;
  s_Linebufs : list LineBuffer }.

Definition TerminalIoInit : Terminal :=
  mkTerm (-1) kLineBufCount 0 (seqZ 0 kLineBufCount) (replicate (Z.to_nat kLineBufCount) (-1))
    (replicate (Z.to_nat kLineBufCount) (mkLine 0 0 false 0 (replicate (Z.to_nat kLineBufSize) NUL))).

Definition set_owner (job_id : Z) (t : Terminal) : Terminal :=
  mkTerm job_id (s_FreeLinebufCount t) (s_QueuedLinebufCount t) (s_FreeLinebufs t) (s_QueuedLinebufs t) (s_Linebufs t).

Definition AllocLineBuffer (t : Terminal) : res (Terminal * option Z) :=
  _ ← check (s_FreeLinebufCount t + s_QueuedLinebufCount t =? kLineBufCount)
    "s_FreeLinebufCount + s_QueuedLinebufCount == kLineBufCount";
  if negb (s_FreeLinebufCount t =? 0) then
    let count := s_FreeLinebufCount t - 1 in
    b ← of_opt (s_FreeLinebufs t !!z count);
    OK (mkTerm (s_PrintingJobIndex t) count (s_QueuedLinebufCount t) (s_FreeLinebufs t) (s_QueuedLinebufs t) (s_Linebufs t), Some b)
  else OK (t, None).

(** ** Flushing the queue of a job *)

(** The difference of two [int]s; it can wrap. *)
Definition CompareBuffers (li ri : LineBuffer) : Z := i32 (lb_SortKey li - lb_SortKey ri).

(** What the C standard promises of [qsort]: when the comparison is that of a
    total preorder on the elements of the array, they come out in its order;
    elements that compare equal come in any order. *)
Definition consistent {A} (cmp : A -> A -> Z) (l : list A) : Prop :=
  (forall x y, x ∈ l -> y ∈ l -> 0 <= cmp x y -> cmp y x <= 0) /\
  (forall x y z, x ∈ l -> y ∈ l -> z ∈ l -> cmp x y <= 0 -> cmp y z <= 0 -> cmp x z <= 0) /\
  (forall x y, x ∈ l -> y ∈ l -> cmp x y <= 0 -> 0 <= cmp y x).

Class QSort : Type := {
  qsort : forall {A : Type}, (A -> A -> Z) -> list A -> list A;
  qsort_perm : forall {A : Type} (cmp : A -> A -> Z) (l : list A), consistent cmp l -> qsort cmp l ≡ₚ l;
  qsort_sorted : forall {A : Type} (cmp : A -> A -> Z) (l : list A), consistent cmp l ->
    StronglySorted (fun x y => cmp x y <= 0) (qsort cmp l) }.

(** An instance, for running the model: insertion sort, which keeps equal
    elements in their order. *)
Section Insertion.
Context {A : Type} (cmp : A -> A -> Z).

Fixpoint qinsert (x : A) (l : list A) : list A :=
  match l with
  | [] => [x]
  | y :: l' => if cmp x y <=? 0 then x :: y :: l' else y :: qinsert x l'
  end.

Definition insertion_qsort (l : list A) : list A := foldr qinsert [] l.

Lemma qinsert_perm x l : qinsert x l ≡ₚ x :: l.
Proof. induction l as [|y l IH]; cbn; [done|]. destruct (_ <=? _); [done|]. by rewrite IH, Permutation_swap. Qed.

Lemma insertion_qsort_perm l : insertion_qsort l ≡ₚ l.
Proof. induction l as [|x l IH]; cbn; [done|]. by rewrite qinsert_perm, IH. Qed.

Lemma qinsert_sorted x l : consistent cmp (x :: l) -> StronglySorted (fun x y => cmp x y <= 0) l ->
  StronglySorted (fun x y => cmp x y <= 0) (qinsert x l).
Proof.
  intros (Ha & Ht & Hb) Hl. induction Hl as [|y l Hl IH Hy]; cbn; [by repeat constructor|]. rewrite Forall_forall in Hy.
  destruct (Z.leb_spec (cmp x y) 0) as [Hx|Hx].
  - constructor; [constructor; [done|by rewrite Forall_forall]|]. constructor; [done|]. apply Forall_forall.
    intros z Hz. apply (Ht x y z); try set_solver.
  - constructor.
    + apply IH; intros; [eapply Ha|eapply Ht|eapply Hb]; try eassumption; set_solver.
    + apply Forall_forall. intros z. rewrite qinsert_perm. intros [->|Hz]%elem_of_cons; [|by apply Hy].
      apply Ha; [set_solver..|lia].
Qed.

Lemma consistent_sub l l' : consistent cmp l -> (forall x, x ∈ l' -> x ∈ l) -> consistent cmp l'.
Proof. intros (Ha & Ht & Hb) Hs. split_and!; [intros x y ? ?; apply Ha|intros x y z ? ? ?; apply (Ht x y z)|intros x y ? ?; apply Hb]; auto. Qed.

Lemma insertion_qsort_sorted l : consistent cmp l -> StronglySorted (fun x y => cmp x y <= 0) (insertion_qsort l).
Proof.
  induction l as [|x l IH]; intros Hc; cbn; [constructor|]. apply qinsert_sorted.
  - eapply consistent_sub; [exact Hc|]. intros y. by rewrite !elem_of_cons, insertion_qsort_perm.
  - apply IH. eapply consistent_sub; [exact Hc|set_solver].
Qed.

End Insertion.

#[export] Instance insertion_qsort_instance : QSort := {
  qsort := @insertion_qsort;
  qsort_perm := fun A cmp l _ => insertion_qsort_perm cmp l;
  qsort_sorted := @insertion_qsort_sorted }.

(** What a stretch under the mutex does to [s_CanPrint]. *)
Inductive cond_op : Type := CondSignal | CondBroadcast.

(** A call of [write] on the error or the output stream. *)
Definition stream_write : Type := bool * cstr.

Section Flush.
Context `{QSort}.

(** The first loop: the queued buffers of the job, each with its contents. *)
Fixpoint collect (t : Terminal) (job_id : Z) (n : nat) (i : Z) : res (list LineBuffer) :=
  match n with
  | O => OK []
  | S n =>
      b ← of_opt (s_QueuedLinebufs t !!z i);
      l ← of_opt (s_Linebufs t !!z b);
      rest ← collect t job_id n (i + 1);
      OK (if job_id =? lb_JobId l then l :: rest else rest)
  end.

(** The last loop: the last pointer moves to the slot of a removed one. *)
Fixpoint compact (fuel : nat) (job_id : Z) (i : Z) (t : Terminal) : res Terminal :=
  if i <? s_QueuedLinebufCount t then
    match fuel with
    | O => Err OutOfFuel
    | S fuel =>
        b ← of_opt (s_QueuedLinebufs t !!z i);
        l ← of_opt (s_Linebufs t !!z b);
        if lb_JobId l =? job_id then
          let count := s_QueuedLinebufCount t - 1 in
          last ← of_opt (s_QueuedLinebufs t !!z count);
          queued ← zwrite i last (s_QueuedLinebufs t);
          free ← zwrite (s_FreeLinebufCount t) b (s_FreeLinebufs t);
          compact fuel job_id i
            (mkTerm (s_PrintingJobIndex t) (s_FreeLinebufCount t + 1) count free queued (s_Linebufs t))
        else compact fuel job_id (i + 1) t
    end
  else OK t.

Definition buffer_write (l : LineBuffer) : stream_write := (lb_IsStderr l, bytes_at (lb_Data l) 0 (lb_Len l)).

Definition FlushOutputQueue (job_id : Z) (t : Terminal) : res (Terminal * list stream_write * list cond_op) :=
  buffers ← collect t job_id (Z.to_nat (s_QueuedLinebufCount t)) 0;
  t' ← compact (Z.to_nat (s_QueuedLinebufCount t)) job_id 0 t;
  OK (t', map buffer_write (qsort CompareBuffers buffers),
      if 1 =? zlen buffers then [CondSignal] else if 1 <? zlen buffers then [CondBroadcast] else []).

(** ** Printing *)

(** The arguments of [TerminalIoEmit] besides the job. *)
Record emission : Type := mkEm { em_IsStderr : bool; em_SortKey : Z; em_Data : cstr }.

(** How a stretch under the mutex ends: the call is over, or waits with some
    of its data left, or has given the mutex back and is about to write. *)
Inductive emit_end : Type :=
| EmitDone
| EmitSleep (data : cstr)
| EmitWrite (data : cstr).

(** Filling a buffer and queueing it; what is left of the data. *)
Definition fill_buffer (t : Terminal) (buf : Z) (job_id : Z) (e : emission) (data : cstr) : res (Terminal * cstr) :=
  let len := zlen data in
  l ← of_opt (s_Linebufs t !!z buf);
  let n := if kLineBufSize - 1 <? len then kLineBufSize - 1 else len in
  text ← copy_into (lb_Data l) 0 (bytes_at data 0 n);
  text ← zwrite n NUL text;
  lines ← zwrite buf (mkLine job_id (em_SortKey e) (em_IsStderr e) n text) (s_Linebufs t);
  queued ← zwrite (s_QueuedLinebufCount t) buf (s_QueuedLinebufs t);
  OK (mkTerm (s_PrintingJobIndex t) (s_FreeLinebufCount t) (s_QueuedLinebufCount t + 1) (s_FreeLinebufs t) queued lines,
      drop (Z.to_nat n) data).

(** The loop [while (len > 0)], from there or from a wake-up in the inner loop;
    [buf] keeps its value from one iteration to the next. *)
Fixpoint emit_loop (fuel : nat) (job_id : Z) (e : emission) (data : cstr) (buf : option Z) (t : Terminal)
  : res (Terminal * list stream_write * list cond_op * emit_end) :=
  if 0 <? zlen data then
    match fuel with
    | O => Err OutOfFuel
    | S fuel =>
        found ← (if (-1 =? s_PrintingJobIndex t) || (job_id =? s_PrintingJobIndex t) then OK (t, buf, true)
                 else
                   '(t, b) ← AllocLineBuffer t;
                   OK (t, b, match b with Some _ => true | None => false end));
        let '(t, buf, go) := found in
        if negb go then OK (t, [], [], EmitSleep data)
        else
          '(t, out, ops) ← (if -1 =? s_PrintingJobIndex t then FlushOutputQueue job_id (set_owner job_id t)
                            else if negb (job_id =? s_PrintingJobIndex t) then
                              _ ← check (match buf with Some _ => true | None => false end) "buf";
                              OK (t, [], [])
                            else OK (t, [], []));
          match buf with
          | None => OK (t, out, ops, EmitWrite data)
          | Some b =>
              '(t, data) ← fill_buffer t b job_id e data;
              '(t, out', ops', e') ← emit_loop fuel job_id e data (Some b) t;
              OK (t, out ++ out', ops ++ ops', e')
          end
    end
  else OK (t, [], [], EmitDone).

Definition TerminalIoEmit (job_id : Z) (e : emission) (data : cstr) (t : Terminal)
  : res (Terminal * list stream_write * list cond_op * emit_end) :=
  emit_loop (length data) job_id e data None t.

(** [TerminalIoPrintf], of the formatted text: what fits its buffer is emitted. *)
Definition TerminalIoPrintf (sort_key : Z) (text : cstr) : emission := mkEm false sort_key (take (16384 - 1) text).

(** [TerminalIoJobExit] from the point where the terminal is free. *)
Definition JobExit_flush (job_id : Z) (t : Terminal) : res (Terminal * list stream_write * list cond_op) :=
  '(t, out, ops) ← FlushOutputQueue job_id (set_owner job_id t);
  OK (set_owner (-1) t, out, ops).

(** After a wake-up; [None] is another wait. *)
Definition JobExit_wait (job_id : Z) (t : Terminal) : res (option (Terminal * list stream_write * list cond_op)) :=
  if negb (-1 =? s_PrintingJobIndex t) then OK None
  else r ← JobExit_flush job_id t; OK (Some r).

Definition TerminalIoJobExit (job_id : Z) (t : Terminal) : res (option (Terminal * list stream_write * list cond_op)) :=
  if negb (job_id =? s_PrintingJobIndex t) then JobExit_wait job_id t
  else r ← JobExit_flush job_id t; OK (Some r).

End Flush.

(** ** The jobs

    A job is a thread, its id the index of the thread. The trace, newest entry
    first, has the calls, the writes and the ends of the jobs. *)

Inductive job_pc : Type :=
| JobOutside
| JobEmitSleeps (e : emission) (data : cstr)
| JobEmitWoken (e : emission) (data : cstr)
| JobWrites (is_stderr : bool) (data : cstr)
| JobExitSleeps
| JobExitWoken
| JobBroadcasts.

Inductive entry : Type :=
| Called (job : nat) (e : emission)
| Wrote (job : nat) (w : stream_write)
| Exited (job : nat).

Definition asleep (p : job_pc) : bool :=
  match p with JobEmitSleeps _ _ | JobExitSleeps => true | _ => false end.

Definition wake_job (p : job_pc) : job_pc :=
  match p with
  | JobEmitSleeps e data => JobEmitWoken e data
  | JobExitSleeps => JobExitWoken
  | _ => p
  end.

(** The jobs after the operations on the condition variable: a signal wakes one
    sleeping job, if there is one. *)
Inductive notified : list cond_op -> list job_pc -> list job_pc -> Prop :=
| notified_nil jobs : notified [] jobs jobs
| notified_broadcast ops jobs jobs' :
    notified ops (wake_job <$> jobs) jobs' -> notified (CondBroadcast :: ops) jobs jobs'
| notified_signal ops jobs jobs' i p : jobs !! i = Some p -> asleep p = true ->
    notified ops (<[i := wake_job p]> jobs) jobs' -> notified (CondSignal :: ops) jobs jobs'
| notified_nobody ops jobs jobs' : (forall i p, jobs !! i = Some p -> asleep p = false) ->
    notified ops jobs jobs' -> notified (CondSignal :: ops) jobs jobs'.

Record term_sys : Type := mkTSys {
  ts_term : Terminal;
  ts_jobs : list job_pc;
  ts_trace : list entry }.

Definition emit_pc (e : emission) (r : emit_end) : job_pc :=
  match r with
  | EmitDone => JobOutside
  | EmitSleep data => JobEmitSleeps e data
  | EmitWrite data => JobWrites (em_IsStderr e) data
  end.

(** Writes made one after the other, on top of a trace. *)
Definition wrote (j : nat) (out : list stream_write) (trace : list entry) : list entry :=
  rev (map (Wrote j) out) ++ trace.

Section Jobs.
Context `{QSort}.

Inductive term_step : term_sys -> term_sys -> Prop :=
| term_emit t jobs tr j e t' out ops r jobs' : jobs !! j = Some JobOutside ->
    TerminalIoEmit (Z.of_nat j) e (em_Data e) t = OK (t', out, ops, r) ->
    notified ops (<[j := emit_pc e r]> jobs) jobs' ->
    term_step (mkTSys t jobs tr) (mkTSys t' jobs' (wrote j out (Called j e :: tr)))
| term_emit_woken t jobs tr j e data t' out ops r jobs' : jobs !! j = Some (JobEmitWoken e data) ->
    TerminalIoEmit (Z.of_nat j) e data t = OK (t', out, ops, r) ->
    notified ops (<[j := emit_pc e r]> jobs) jobs' ->
    term_step (mkTSys t jobs tr) (mkTSys t' jobs' (wrote j out tr))
| term_write t jobs tr j s data : jobs !! j = Some (JobWrites s data) ->
    term_step (mkTSys t jobs tr) (mkTSys t (<[j := JobOutside]> jobs) (Wrote j (s, data) :: tr))
| term_exit t jobs tr j t' out ops jobs' : jobs !! j = Some JobOutside ->
    TerminalIoJobExit (Z.of_nat j) t = OK (Some (t', out, ops)) ->
    notified ops (<[j := JobBroadcasts]> jobs) jobs' ->
    term_step (mkTSys t jobs tr) (mkTSys t' jobs' (Exited j :: wrote j out tr))
| term_exit_sleeps t jobs tr j : jobs !! j = Some JobOutside ->
    TerminalIoJobExit (Z.of_nat j) t = OK None ->
    term_step (mkTSys t jobs tr) (mkTSys t (<[j := JobExitSleeps]> jobs) tr)
| term_exit_woken t jobs tr j t' out ops jobs' : jobs !! j = Some JobExitWoken ->
    JobExit_wait (Z.of_nat j) t = OK (Some (t', out, ops)) ->
    notified ops (<[j := JobBroadcasts]> jobs) jobs' ->
    term_step (mkTSys t jobs tr) (mkTSys t' jobs' (Exited j :: wrote j out tr))
| term_exit_again t jobs tr j : jobs !! j = Some JobExitWoken ->
    JobExit_wait (Z.of_nat j) t = OK None ->
    term_step (mkTSys t jobs tr) (mkTSys t (<[j := JobExitSleeps]> jobs) tr)
| term_broadcast t jobs tr j jobs' : jobs !! j = Some JobBroadcasts ->
    notified [CondBroadcast] (<[j := JobOutside]> jobs) jobs' ->
    term_step (mkTSys t jobs tr) (mkTSys t jobs' tr)
| term_spurious t jobs tr j p : jobs !! j = Some p -> asleep p = true ->
    term_step (mkTSys t jobs tr) (mkTSys t (<[j := wake_job p]> jobs) tr).

Inductive term_reachable (n : nat) : term_sys -> Prop :=
| term_reach_start : term_reachable n (mkTSys TerminalIoInit (replicate n JobOutside) [])
| term_reach_step s s' : term_reachable n s -> term_step s s' -> term_reachable n s'.

End Jobs.
