(* ===== verification/TerminalThms.v ===== *)
(** * What the terminal shows

    For src/src/TerminalIo.cpp: the line buffers are never lost or used twice,
    no assertion fails, what a job prints appears together and in order, and no
    job that could go on is left asleep. *)

From stdpp Require Import sorting.
From S2P Require Import Prelude PathUtil TerminalIo.

#[local] Arguments Z.eqb : simpl never.
#[local] Arguments Z.add : simpl never.

(** ** The line buffers

    [F] and [Q] are the buffers in use of the two arrays, [L] the contents of
    the queued ones. *)

Definition line_is (t : Terminal) (b : Z) (l : LineBuffer) : Prop := s_Linebufs t !!z b = Some l.

Record buffers_ok (t : Terminal) (F Q : list Z) (L : list LineBuffer) : Prop := {
  bo_free : exists junk, s_FreeLinebufs t = F ++ junk;
  bo_queued : exists junk, s_QueuedLinebufs t = Q ++ junk;
  bo_free_count : s_FreeLinebufCount t = zlen F;
  bo_queued_count : s_QueuedLinebufCount t = zlen Q;
  bo_free_size : length (s_FreeLinebufs t) = 64%nat;
  bo_queued_size : length (s_QueuedLinebufs t) = 64%nat;
  bo_lines_size : length (s_Linebufs t) = 64%nat;
  bo_perm : F ++ Q ≡ₚ seqZ 0 64;
  bo_lines : Forall2 (line_is t) Q L;
  bo_data : Forall (fun l => zlen (lb_Data l) = 8192) (s_Linebufs t) }.

Definition of_job (j : Z) (L : list LineBuffer) : list LineBuffer := filter (fun l => lb_JobId l = j) L.
Definition not_of (j : Z) (L : list LineBuffer) : list LineBuffer := filter (fun l => lb_JobId l <> j) L.

Lemma collect_ok t job A B junk LB : s_QueuedLinebufs t = A ++ B ++ junk -> Forall2 (line_is t) B LB ->
  collect t job (length B) (zlen A) = OK (of_job job LB).
Proof.
  intros Hq HB. revert A Hq. induction HB as [|b l B LB Hb HB IH]; intros A Hq; cbn [collect length]; [done|].
  rewrite Hq, <- app_comm_cons, zlookup_middle. cbn [of_opt mbind res_bind]. rewrite Hb. cbn [of_opt mbind res_bind].
  replace (zlen A + 1) with (zlen (A ++ [b])) by (rewrite length_app; cbn; lia).
  rewrite (IH (A ++ [b])) by (rewrite <- app_assoc; done). cbn [mbind res_bind]. unfold of_job. rewrite filter_cons.
  case_decide; destruct (Z.eqb_spec job (lb_JobId l)); done || congruence.
Qed.

Lemma not_of_perm j L L' : L ≡ₚ L' -> not_of j L ≡ₚ not_of j L'.
Proof. intros. unfold not_of. by rewrite H. Qed.

Lemma not_of_skip j l L : lb_JobId l = j -> not_of j (l :: L) = not_of j L.
Proof. intros. unfold not_of. by rewrite filter_cons_False by auto. Qed.

Lemma not_of_keep j l L : lb_JobId l <> j -> not_of j (l :: L) = l :: not_of j L.
Proof. intros. unfold not_of. by rewrite filter_cons_True. Qed.

Lemma buffers_room t F Q L : buffers_ok t F Q L -> (length F + length Q = 64)%nat.
Proof. intros HB. rewrite <- length_app, (bo_perm _ _ _ _ HB), length_seqZ. done. Qed.

(** A full array has a cell after any of its prefixes that is not all of it. *)
Lemma next_cell {A} (arr P junk : list A) : arr = P ++ junk -> (length P < length arr)%nat -> exists x junk', junk = x :: junk'.
Proof. intros -> Hl. rewrite length_app in Hl. destruct junk; [cbn in Hl; lia|eauto]. Qed.

(** One removal: the last pointer of the queue moves to the slot, the buffer is free. *)
Lemma remove_slot t F A b B LA l LB : buffers_ok t F (A ++ b :: B) (LA ++ l :: LB) -> length A = length LA ->
  exists z queued free B' LB', s_QueuedLinebufs t !!z (s_QueuedLinebufCount t - 1) = Some z /\
    zwrite (zlen A) z (s_QueuedLinebufs t) = OK queued /\
    zwrite (s_FreeLinebufCount t) b (s_FreeLinebufs t) = OK free /\
    buffers_ok (mkTerm (s_PrintingJobIndex t) (s_FreeLinebufCount t + 1) (s_QueuedLinebufCount t - 1) free queued (s_Linebufs t))
      (F ++ [b]) (A ++ B') (LA ++ LB') /\
    length B' = length B /\ LB' ≡ₚ LB.
Proof.
  intros HB HA. pose proof (buffers_room _ _ _ _ HB) as Hroom. rewrite length_app in Hroom. cbn in Hroom.
  destruct HB as [[jf Hf] [jq Hq] Hfc Hqc Hfs Hqs Hls Hp Hl Hd].
  destruct (next_cell _ _ _ Hf) as (x & jf' & ->); [lia|].
  apply Forall2_app_inv in Hl as [HlA HlB]; [|done]. apply Forall2_cons in HlB as [Hb HlB].
  assert (zwrite (s_FreeLinebufCount t) b (s_FreeLinebufs t) = OK ((F ++ [b]) ++ jf')) as Hfree.
  { by rewrite Hfc, Hf, zwrite_middle, <- app_assoc. }
  rewrite <- app_assoc, <- app_comm_cons in Hq.
  assert (forall z, zwrite (zlen A) z (s_QueuedLinebufs t) = OK (A ++ z :: B ++ jq)) as Hwrite.
  { intros. by rewrite Hq, zwrite_middle. }
  rewrite length_app in Hqc. cbn in Hqc. rewrite Hf, length_app in Hfs. cbn in Hfs. rewrite Hq, !length_app in Hqs. cbn in Hqs.
  destruct B as [|y B _] using rev_ind.
  - cbn [length app] in *. apply Forall2_nil_inv_l in HlB as ->. exists b, (A ++ b :: jq), ((F ++ [b]) ++ jf'), [], [].
    split_and!; try done.
    + rewrite Hqc, Hq. replace (Z.of_nat _ - 1) with (zlen A) by (cbn; lia). apply zlookup_middle.
    + split; cbn; rewrite ?app_nil_r; try done; rewrite ?length_app; cbn; try lia; try by eexists.
      rewrite <- Hp. by rewrite <- app_assoc, (Permutation_app_comm [b]).
  - apply Forall2_app_inv_l in HlB as (LB0 & ly & HlB & Hy & ->).
    apply Forall2_cons_inv_l in Hy as (ly' & ? & Hy & Hn & ->). apply Forall2_nil_inv_l in Hn as ->.
    exists y, (A ++ y :: (B ++ [y]) ++ jq), ((F ++ [b]) ++ jf'), (y :: B), (ly' :: LB0).
    rewrite !length_app in *. cbn in *.
    split_and!; try done.
    + rewrite Hqc, Hq. replace (Z.of_nat _ - 1) with (zlen (A ++ b :: B)) by (rewrite length_app; cbn; lia).
      rewrite <- app_assoc, app_comm_cons, app_assoc. apply zlookup_middle.
    + split; cbn; try done; rewrite ?length_app; cbn; rewrite ?length_app; cbn; try lia; try by eexists.
      * exists ([y] ++ jq). by rewrite <- !app_assoc.
      * rewrite <- Hp, <- !app_assoc. apply Permutation_app_head. cbn.
        etrans; [|apply Permutation_middle]. apply perm_skip, Permutation_app_head, Permutation_cons_append.
      * apply Forall2_app; [done|]. by constructor.
    + lia.
    + by rewrite Permutation_app_comm.
Qed.

(** The queue after the loop that compacts it: the lines of the other jobs. *)
Lemma compact_ok job : forall fuel A B t F LA LB, (length B <= fuel)%nat ->
  buffers_ok t F (A ++ B) (LA ++ LB) -> length A = length LA -> Forall (fun l => lb_JobId l <> job) LA ->
  exists t' F' Q' L', compact fuel job (zlen A) t = OK t' /\ buffers_ok t' F' Q' L' /\
    L' ≡ₚ LA ++ not_of job LB /\ s_PrintingJobIndex t' = s_PrintingJobIndex t /\ s_Linebufs t' = s_Linebufs t.
Proof.
  induction fuel as [|fuel IH]; intros A B t F LA LB Hf HB Hlen HA.
  { destruct B; [|cbn in Hf; lia]. rewrite app_nil_r in HB. exists t, F, A, (LA ++ LB). 
    pose proof (bo_queued_count _ _ _ _ HB). cbn. destruct (zlen A <? _) eqn:E; [zbool; lia|].
    pose proof (Forall2_length _ _ _ (bo_lines _ _ _ _ HB)) as HL. rewrite length_app in HL.
    destruct LB; [|cbn in HL; lia]. cbn. by rewrite app_nil_r in *. }
  pose proof (Forall2_length _ _ _ (bo_lines _ _ _ _ HB)) as HL. rewrite !length_app in HL.
  pose proof (bo_queued_count _ _ _ _ HB) as Hc. rewrite length_app in Hc.
  destruct B as [|b B].
  { destruct LB; [|cbn in HL; lia]. exists t, F, A, LA. rewrite !app_nil_r in *. cbn in *.
    destruct (zlen A <? _) eqn:E; [zbool; lia|]. done. }
  destruct LB as [|l LB]; [cbn in HL; lia|].
  destruct (bo_queued _ _ _ _ HB) as [junk Hq]. rewrite <- app_assoc in Hq.
  pose proof (bo_lines _ _ _ _ HB) as Hl. apply Forall2_app_inv in Hl as [HlA HlB]; [|done].
  apply Forall2_cons in HlB as [Hb HlB].
  cbn [compact]. destruct (zlen A <? _) eqn:E; [|zbool; cbn in Hc; lia].
  assert (s_QueuedLinebufs t !!z zlen A = Some b) as Hslot by (rewrite Hq; apply zlookup_middle).
  rewrite Hslot. cbn [of_opt mbind res_bind]. rewrite Hb. cbn [of_opt mbind res_bind].
  destruct (Z.eqb_spec (lb_JobId l) job) as [Hj|Hj].
  - subst job. destruct (remove_slot _ _ _ _ _ _ _ _ HB Hlen) as (z & queued & free & B' & LB' & Hz & Hw & Hfr & HB' & HlB' & HLB').
    rewrite Hz. cbn [of_opt mbind res_bind]. rewrite Hw. cbn [mbind res_bind]. rewrite Hfr. cbn [mbind res_bind].
    destruct (IH A B' _ _ LA LB' ltac:(cbn in Hf; lia) HB' Hlen HA) as (t' & F' & Q' & L' & Hr & HB2 & HL' & Ho & Hs).
    exists t', F', Q', L'. split_and!; try done. by rewrite HL', not_of_skip, (not_of_perm _ _ _ HLB').
  - replace (zlen A + 1) with (zlen (A ++ [b])) by (rewrite length_app; cbn; lia).
    destruct (IH (A ++ [b]) B t F (LA ++ [l]) LB) as (t' & F' & Q' & L' & Hr & HB' & HL' & Ho & Hs).
    { cbn in Hf. lia. } { by rewrite <- !app_assoc. } { rewrite !length_app. cbn. lia. }
    { apply Forall_app_2; [done|]. by repeat constructor. }
    exists t', F', Q', L'. split_and!; try done. by rewrite HL', <- app_assoc, not_of_keep.
Qed.

Section Terminal.
Context `{QSort}.

(** Flushing: the lines of the job are taken out of the queue and written in
    order of their keys. *)
Lemma queue_flush_ok t F Q L job : buffers_ok t F Q L ->
  exists t' F' Q' L' ops, FlushOutputQueue job t = OK (t', buffer_write <$> qsort CompareBuffers (of_job job L), ops) /\
    buffers_ok t' F' Q' L' /\ L' ≡ₚ not_of job L /\ s_PrintingJobIndex t' = s_PrintingJobIndex t.
Proof.
  intros HB. unfold FlushOutputQueue. destruct (bo_queued _ _ _ _ HB) as [junk Hq].
  rewrite (bo_queued_count _ _ _ _ HB), Nat2Z.id.
  pose proof (collect_ok t job [] Q junk L Hq (bo_lines _ _ _ _ HB)) as Hc. change (zlen []) with 0 in Hc. rewrite Hc. cbn [mbind res_bind].
  destruct (compact_ok job (length Q) [] Q t F [] L) as (t' & F' & Q' & L' & Hr & HB' & HL' & Ho & _); try done.
  change (zlen []) with 0 in Hr. rewrite Hr. cbn [mbind res_bind]. by eexists t', F', Q', L', _.
Qed.

(** Taking a buffer and filling it. *)
Definition line_em (l : LineBuffer) : emission := mkEm (lb_IsStderr l) (lb_SortKey l) (bytes_at (lb_Data l) 0 (lb_Len l)).

Lemma alloc_none t Q L : buffers_ok t [] Q L -> AllocLineBuffer t = OK (t, None).
Proof.
  intros HB. pose proof (buffers_room _ _ _ _ HB) as Hr. unfold AllocLineBuffer.
  rewrite (bo_free_count _ _ _ _ HB), (bo_queued_count _ _ _ _ HB). unfold kLineBufCount, check.
  destruct (_ =? 64) eqn:E; [done|]. zbool. cbn in *. lia.
Qed.

Lemma buffer_ok t F Q L b : buffers_ok t F Q L -> b ∈ F ++ Q -> exists l, s_Linebufs t !!z b = Some l /\ zlen (lb_Data l) = 8192.
Proof.
  intros HB Hb. rewrite (bo_perm _ _ _ _ HB) in Hb. apply elem_of_seqZ in Hb.
  destruct (zlookup_is_Some (s_Linebufs t) b) as [l Hl]; [rewrite (bo_lines_size _ _ _ _ HB); lia|].
  exists l. split; [done|]. apply (Forall_lookup_1 _ _ (Z.to_nat b) _ (bo_data _ _ _ _ HB)).
  unfold zlookup in Hl. by case_bool_decide.
Qed.

(** The text of a buffer after the two writes into it. *)
Lemma fill_text (old data : cstr) : zlen old = 8192 -> zlen data <= 8191 ->
  exists text, (text ← copy_into old 0 (bytes_at data 0 (zlen data)); zwrite (zlen data) NUL text) = OK text /\
    zlen text = 8192 /\ bytes_at text 0 (zlen data) = data.
Proof.
  intros Ho Hd. unfold bytes_at, copy_into. change (Z.to_nat 0) with 0%nat. rewrite drop_0, Nat2Z.id, firstn_all, Z.add_0_l, take_0, app_nil_l.
  destruct (Z.leb_spec (zlen data) (zlen old)); [|lia].
  cbn [mbind res_bind]. rewrite Nat.add_0_l. destruct (drop (length data) old) as [|x rest] eqn:E.
  { apply (f_equal length) in E. rewrite length_drop in E. cbn in E. lia. }
  rewrite zwrite_middle. eexists. split; [done|].
  apply (f_equal length) in E. rewrite length_drop in E. cbn in E.
  split; [rewrite length_app; cbn; lia|]. by rewrite drop_0, take_app_length.
Qed.

Lemma lines_frame t t' Q L b l : Forall2 (line_is t) Q L -> b ∉ Q -> s_Linebufs t' = zinsert b l (s_Linebufs t) ->
  Forall2 (line_is t') Q L.
Proof.
  intros HQ Hb Ht. induction HQ as [|q x Q L Hq HQ IH]; [done|]. apply not_elem_of_cons in Hb as [Hne Hb].
  constructor; [|by apply IH]. unfold line_is. by rewrite Ht, zlookup_insert_ne.
Qed.

(** A short text goes into one buffer, the last of the free ones. *)
Lemma alloc_fill t F b Q L job e : buffers_ok t (F ++ [b]) Q L -> zlen (em_Data e) <= 8191 ->
  exists t1 t2 l, AllocLineBuffer t = OK (t1, Some b) /\ s_PrintingJobIndex t1 = s_PrintingJobIndex t /\
    fill_buffer t1 b job e (em_Data e) = OK (t2, []) /\ s_PrintingJobIndex t2 = s_PrintingJobIndex t /\
    buffers_ok t2 F (Q ++ [b]) (L ++ [l]) /\ lb_JobId l = job /\ line_em l = e.
Proof.
  intros HB Hlen. pose proof (buffers_room _ _ _ _ HB) as Hroom. rewrite length_app in Hroom. cbn in Hroom.
  destruct (buffer_ok t (F ++ [b]) Q L b HB) as (old & Hold & Hsize); [set_solver|].
  destruct (fill_text _ _ Hsize Hlen) as (text & Htext & Htsize & Hbytes).
  assert (b ∉ F /\ b ∉ Q /\ NoDup Q) as (HbF & HbQ & HQ).
  { assert (NoDup ((F ++ [b]) ++ Q)) as Hnd by (rewrite (bo_perm _ _ _ _ HB); apply NoDup_seqZ).
    rewrite <- app_assoc in Hnd. apply NoDup_app in Hnd as (_ & Hd & Hnd). cbn in Hnd. apply NoDup_cons in Hnd as [? ?].
    split_and!; try done. intros ?. by eapply (Hd b); [|set_solver]. }
  pose proof HB as [[jf Hf] [jq Hq] Hfc Hqc Hfs Hqs Hls Hp Hl Hd].
  destruct (next_cell _ _ _ Hq) as (x & jq' & ->); [lia|].
  rewrite length_app in Hfc. cbn in Hfc.
  pose proof (zlookup_lt _ _ _ Hold) as Hrange.
  set (l := mkLine job (em_SortKey e) (em_IsStderr e) (zlen (em_Data e)) text).
  eexists _, _, l. split_and!.
  - unfold AllocLineBuffer, check. destruct (Z.eqb_spec (s_FreeLinebufCount t + s_QueuedLinebufCount t) kLineBufCount) as [|E];
      [|unfold kLineBufCount in E; lia]. cbn [mbind res_bind].
    destruct (Z.eqb_spec (s_FreeLinebufCount t) 0); [lia|]. cbn [negb].
    rewrite Hf, <- app_assoc. replace (s_FreeLinebufCount t - 1) with (zlen F) by lia. cbn [app].
    rewrite zlookup_middle. cbn. reflexivity.
  - done.
  - unfold fill_buffer. cbn [s_Linebufs]. rewrite Hold. cbn [of_opt mbind res_bind].
    destruct (Z.ltb_spec (kLineBufSize - 1) (zlen (em_Data e))) as [E|_]; [unfold kLineBufSize in E; lia|].
    destruct (copy_into _ _ _) as [mid|]; [|done]. cbn [mbind res_bind] in Htext |- *. rewrite Htext. cbn [mbind res_bind].
    cbn [s_Linebufs].
    rewrite (zwrite_ok b _ _ Hrange). cbn [mbind res_bind s_QueuedLinebufs s_QueuedLinebufCount].
    rewrite Hqc, Hq, zwrite_middle. cbn [mbind res_bind]. rewrite drop_ge by lia. reflexivity.
  - done.
  - split; cbn; rewrite ?zinsert_length; try done.
    + by exists ([b] ++ jf).
    + exists jq'. by rewrite <- app_assoc.
    + rewrite length_app. cbn. lia.
    + rewrite Hf, <- app_assoc in Hfs. done.
    + rewrite Hq, length_app in Hqs. rewrite length_app. done.
    + rewrite <- Hp, <- app_assoc. apply Permutation_app_head, Permutation_app_comm.
    + apply Forall2_app.
      * by eapply lines_frame.
      * constructor; [|done]. by apply zlookup_insert_eq.
    + unfold zinsert. case_bool_decide; [|done]. by apply Forall_insert.
  - done.
  - unfold line_em. cbn. rewrite Hbytes. by destruct e.
Qed.

Lemma emit_empty fuel job e buf t : emit_loop fuel job e [] buf t = OK (t, [], [], EmitDone).
Proof. by destruct fuel. Qed.

(** What one run under the mutex makes of a text that fits a buffer. *)
Lemma emit_cases t F Q L job e : buffers_ok t F Q L -> 0 < zlen (em_Data e) <= 8191 ->
  if decide (s_PrintingJobIndex t = -1) then
    forall t' out ops, FlushOutputQueue job (set_owner job t) = OK (t', out, ops) ->
      TerminalIoEmit job e (em_Data e) t = OK (t', out, ops, EmitWrite (em_Data e))
  else if decide (s_PrintingJobIndex t = job) then
    TerminalIoEmit job e (em_Data e) t = OK (t, [], [], EmitWrite (em_Data e))
  else
    F = [] /\ TerminalIoEmit job e (em_Data e) t = OK (t, [], [], EmitSleep (em_Data e)) \/
    exists t' F' Q' l, TerminalIoEmit job e (em_Data e) t = OK (t', [], [], EmitDone) /\
      buffers_ok t' F' Q' (L ++ [l]) /\ s_PrintingJobIndex t' = s_PrintingJobIndex t /\ lb_JobId l = job /\ line_em l = e.
Proof.
  intros HB Hlen. unfold TerminalIoEmit. destruct (length (em_Data e)) as [|fuel] eqn:Hn; [lia|].
  cbn [emit_loop]. destruct (Z.ltb_spec 0 (zlen (em_Data e))); [|lia].
  destruct (decide (s_PrintingJobIndex t = -1)) as [Ho|Ho]; [|destruct (decide (s_PrintingJobIndex t = job)) as [Hj|Hj]].
  - intros t' out ops Hf. rewrite Ho, Z.eqb_refl. cbn. rewrite Ho, Z.eqb_refl, Hf. done.
  - rewrite <- Hj, Z.eqb_refl, orb_true_r. cbn. destruct (Z.eqb_spec (-1) (s_PrintingJobIndex t)); [congruence|].
    by rewrite Z.eqb_refl.
  - destruct (Z.eqb_spec (-1) (s_PrintingJobIndex t)); [congruence|].
    destruct (Z.eqb_spec job (s_PrintingJobIndex t)); [congruence|]. cbn [orb].
    destruct F as [|b F _] using rev_ind.
    + left. rewrite (alloc_none _ _ _ HB). done.
    + right. destruct (alloc_fill _ _ _ _ _ job e HB) as (t1 & t2 & l & Ha & Ho1 & Hf & Ho2 & HB2 & Hl & He); [lia|].
      rewrite Ha. cbn. rewrite Ho1.
      destruct (Z.eqb_spec (-1) (s_PrintingJobIndex t)); [congruence|].
      destruct (Z.eqb_spec job (s_PrintingJobIndex t)); [congruence|]. cbn.
      rewrite Hf. cbn. rewrite emit_empty. cbn. by exists t2, F, (Q ++ [b]), l.
Qed.

End Terminal.

(** ** Traces *)

Definition em_bytes (e : emission) : list (bool * ascii) := pair (em_IsStderr e) <$> em_Data e.
Definition write_bytes (w : stream_write) : list (bool * ascii) := pair w.1 <$> w.2.

(** The calls of a job since it last ended, newest first. *)
Fixpoint session (j : nat) (trace : list entry) : list emission :=
  match trace with
  | [] => []
  | Called k e :: trace => if decide (k = j) then e :: session j trace else session j trace
  | Exited k :: trace => if decide (k = j) then [] else session j trace
  | Wrote _ _ :: trace => session j trace
  end.

(** What a job has asked to print, and what it has printed. *)
Fixpoint said (j : nat) (trace : list entry) : list (bool * ascii) :=
  match trace with
  | [] => []
  | Called k e :: trace => said j trace ++ if decide (k = j) then em_bytes e else []
  | _ :: trace => said j trace
  end.

Fixpoint shown (j : nat) (trace : list entry) : list (bool * ascii) :=
  match trace with
  | [] => []
  | Wrote k w :: trace => shown j trace ++ if decide (k = j) then write_bytes w else []
  | _ :: trace => shown j trace
  end.

(** The keys of a job's calls grow, over a range an [int] difference can span,
    and every text fits a buffer. *)
Definition call_ok (e : emission) (earlier : list emission) : Prop :=
  zlen (em_Data e) <= kLineBufSize - 1 /\
  Forall (fun e' => em_SortKey e' < em_SortKey e < em_SortKey e' + 2 ^ 31) earlier.

Fixpoint disciplined (trace : list entry) : Prop :=
  match trace with
  | [] => True
  | Called j e :: trace => call_ok e (session j trace) /\ disciplined trace
  | _ :: trace => disciplined trace
  end.

(** The job that has written since the last end of a job. *)
Fixpoint holder (trace : list entry) : option nat :=
  match trace with
  | [] => None
  | Wrote j _ :: _ => Some j
  | Exited _ :: _ => None
  | Called _ _ :: trace => holder trace
  end.

(** Between the writes of two jobs the first one ends. *)
Fixpoint linear (trace : list entry) : Prop :=
  match trace with
  | [] => True
  | Wrote j _ :: trace => (holder trace = None \/ holder trace = Some j) /\ linear trace
  | Exited j :: trace => (holder trace = None \/ holder trace = Some j) /\ linear trace
  | Called _ _ :: trace => linear trace
  end.

Lemma wrote_cons j w out tr : wrote j (w :: out) tr = wrote j out (Wrote j w :: tr).
Proof. unfold wrote. cbn. by rewrite <- app_assoc. Qed.

Lemma wrote_session k j out tr : session k (wrote j out tr) = session k tr.
Proof. revert tr. induction out as [|w out IH]; intros; [done|]. by rewrite wrote_cons, IH. Qed.

Lemma wrote_said k j out tr : said k (wrote j out tr) = said k tr.
Proof. revert tr. induction out as [|w out IH]; intros; [done|]. by rewrite wrote_cons, IH. Qed.

Lemma wrote_shown j out tr : shown j (wrote j out tr) = shown j tr ++ out ≫= write_bytes.
Proof.
  revert tr. induction out as [|w out IH]; intros; [by rewrite app_nil_r|]. rewrite wrote_cons, IH. cbn.
  by rewrite decide_True, <- app_assoc.
Qed.

Lemma wrote_shown_other k j out tr : k <> j -> shown k (wrote j out tr) = shown k tr.
Proof.
  intros. revert tr. induction out as [|w out IH]; intros; [done|]. rewrite wrote_cons, IH. cbn.
  by rewrite decide_False, app_nil_r by done.
Qed.

Lemma wrote_disciplined j out tr : disciplined (wrote j out tr) <-> disciplined tr.
Proof. revert tr. induction out as [|w out IH]; intros; [done|]. by rewrite wrote_cons, IH. Qed.

Definition may_write (j : nat) (tr : list entry) : Prop := holder tr = None \/ holder tr = Some j.

Lemma wrote_linear j out tr : linear tr -> may_write j tr -> linear (wrote j out tr) /\ may_write j (wrote j out tr).
Proof.
  revert tr. induction out as [|w out IH]; intros; [done|]. rewrite wrote_cons. apply IH; [done | by right].
Qed.

(** A call that is disciplined comes after its session's earlier ones. *)
Lemma session_ok j tr e rest : disciplined tr -> session j tr = e :: rest -> call_ok e rest.
Proof.
  induction tr as [|[k e'|k w|k] tr IH]; cbn; intros Hd Hs; try done.
  - destruct Hd as [Hc Hd]. case_decide; simplify_eq; [done | by apply IH].
  - by apply IH.
  - case_decide; [done | by apply IH].
Qed.

(** ** The order in which the queue of a job is written *)

Definition near (a b : emission) : Prop := em_SortKey a < em_SortKey b < em_SortKey a + 2 ^ 31.

Lemma near_snoc P e earlier : StronglySorted near P -> Forall (fun a => a ∈ earlier) P -> call_ok e earlier ->
  StronglySorted near (P ++ [e]).
Proof.
  intros HP Hin [_ Hc]. induction HP as [|a P HP IH Ha]; cbn; [by repeat constructor|].
  apply Forall_cons in Hin as [Hin1 Hin]. constructor; [by apply IH|]. apply Forall_app. split; [done|].
  constructor; [|done]. rewrite Forall_forall in Hc. by apply Hc.
Qed.

Lemma near_pair P a b : StronglySorted near P -> a ∈ P -> b ∈ P -> a = b \/ near a b \/ near b a.
Proof.
  intros HP. induction HP as [|x P HP IH Hx]; [set_solver|]. rewrite Forall_forall in Hx.
  intros [->|Ha]%elem_of_cons [->|Hb]%elem_of_cons; eauto.
Qed.

Section Order.
Context `{QSort}.

Lemma flush_bytes L P : line_em <$> L ≡ₚ P -> StronglySorted near P ->
  (buffer_write <$> qsort CompareBuffers L) ≫= write_bytes = P ≫= em_bytes.
Proof.
  intros HP Hs.
  assert (forall x, x ∈ L -> line_em x ∈ P) as Hin by (intros; rewrite <- HP; by apply list_elem_of_fmap_2).
  assert (forall x y, x ∈ L -> y ∈ L -> CompareBuffers x y = lb_SortKey x - lb_SortKey y) as Hcmp.
  { intros x y Hx Hy. apply i32_small. pose proof (near_pair _ _ _ Hs (Hin x Hx) (Hin y Hy)) as Hn.
    unfold near, in_i32 in *. cbn in Hn. destruct Hn as [[= _ -> _]|Hn]; lia. }
  assert (consistent CompareBuffers L) as Hc.
  { split_and!; [intros x y | intros x y z | intros x y]; intros; rewrite !Hcmp in * by done; lia. }
  assert (line_em <$> qsort CompareBuffers L = P) as HQ.
  { apply (StronglySorted_unique_strong (fun a b => em_SortKey a <= em_SortKey b)).
    - intros a b Ha Hb ? ?. rewrite (qsort_perm _ _ Hc), HP in Ha.
      destruct (near_pair _ _ _ Hs Ha Hb) as [|[Hn|Hn]]; [done|unfold near in Hn; lia..].
    - assert (forall x, x ∈ qsort CompareBuffers L -> x ∈ L) as Hsub by (intros ?; by rewrite (qsort_perm _ _ Hc)).
      pose proof (qsort_sorted _ _ Hc) as Hq. induction Hq as [|x l Hq IH Hx]; cbn; [constructor|].
      constructor; [apply IH; set_solver|]. apply Forall_fmap. rewrite Forall_forall in *. intros y Hy. cbn.
      specialize (Hx y Hy). rewrite Hcmp in Hx by set_solver. lia.
    - clear -Hs. induction Hs as [|x l Hq IH Hx]; [constructor|]. constructor; [done|].
      eapply Forall_impl; [exact Hx|]. intros ? ?. unfold near in *. lia.
    - by rewrite (qsort_perm _ _ Hc). }
  rewrite <- HQ. clear. induction (qsort CompareBuffers L) as [|x l IH]; cbn; [done|]. by rewrite IH.
Qed.

End Order.

(** ** The invariant *)

(** What a job in this state still has to print, besides what is queued. The
    states are those after [wake_job]: sleeping does not matter here. *)
Definition inflight (p : job_pc) : list (bool * ascii) :=
  match p with
  | JobEmitWoken e _ => em_bytes e
  | JobWrites s data => pair s <$> data
  | _ => []
  end.

(** The queued lines of a job, in the order of its calls. *)
Record queued_ok (owner : Z) (L : list LineBuffer) (earlier : list emission) (j : nat) (P : list emission) : Prop := {
  qo_lines : line_em <$> of_job (Z.of_nat j) L ≡ₚ P;
  qo_sorted : StronglySorted near P;
  qo_earlier : Forall (fun e => e ∈ earlier) P;
  qo_owner : owner = Z.of_nat j -> P = [] }.

Definition job_ok (owner : Z) (L : list LineBuffer) (tr : list entry) (j : nat) (p : job_pc) : Prop :=
  match p with
  | JobOutside =>
      exists P, queued_ok owner L (session j tr) j P /\ said j tr = shown j tr ++ (P ≫= em_bytes)
  | JobExitWoken | JobBroadcasts =>
      owner <> Z.of_nat j /\
      exists P, queued_ok owner L (session j tr) j P /\ said j tr = shown j tr ++ (P ≫= em_bytes)
  | JobEmitWoken e data =>
      owner <> Z.of_nat j /\ data = em_Data e /\ data <> [] /\
      exists P rest, session j tr = e :: rest /\ queued_ok owner L rest j P /\
        said j tr = shown j tr ++ (P ≫= em_bytes) ++ em_bytes e
  | JobWrites s data =>
      owner = Z.of_nat j /\ of_job (Z.of_nat j) L = [] /\ session j tr <> [] /\
      said j tr = shown j tr ++ (pair s <$> data)
  | JobEmitSleeps _ _ | JobExitSleeps => False
  end.

Record quiet (t : Terminal) (F Q : list Z) (L : list LineBuffer) (tr : list entry) : Prop := {
  qu_buffers : buffers_ok t F Q L;
  qu_linear : linear tr;
  qu_holder : forall j, holder tr = Some j -> s_PrintingJobIndex t = Z.of_nat j;
  qu_owner : s_PrintingJobIndex t = -1 \/ 0 <= s_PrintingJobIndex t }.

Lemma queued_frame owner owner' L L' earlier k P : queued_ok owner L earlier k P ->
  of_job (Z.of_nat k) L' ≡ₚ of_job (Z.of_nat k) L -> (owner' = Z.of_nat k -> owner = Z.of_nat k) ->
  queued_ok owner' L' earlier k P.
Proof. intros [H1 H2 H3 H4] HL Ho. split; [by rewrite HL | done | done | eauto]. Qed.

(** What one job does leaves the others as they are. *)
Lemma job_frame owner owner' L L' tr tr' k p : job_ok owner L tr k p ->
  of_job (Z.of_nat k) L' ≡ₚ of_job (Z.of_nat k) L -> (owner' = Z.of_nat k <-> owner = Z.of_nat k) ->
  session k tr' = session k tr -> said k tr' = said k tr -> shown k tr' = shown k tr ->
  job_ok owner' L' tr' k p.
Proof.
  intros Hj HL Ho Hs Hsaid Hshown.
  assert (forall earlier P, queued_ok owner L earlier k P -> queued_ok owner' L' earlier k P) as Hq.
  { intros. eapply queued_frame; [done..|tauto]. }
  destruct p; cbn in *; rewrite ?Hs, ?Hsaid, ?Hshown; try done.
  - naive_solver.
  - destruct Hj as (? & ? & ? & P & rest & ? & ? & ?). split_and!; [tauto|done|done|]. eauto 10.
  - destruct Hj as (? & HL0 & ? & ?). split_and!; [tauto| |done|done]. rewrite HL0 in HL. by apply Permutation_nil_r.
  - destruct Hj as (? & P & ? & ?). split; [tauto|]. eauto.
  - destruct Hj as (? & P & ? & ?). split; [tauto|]. eauto.
Qed.

Lemma of_other j k L : j <> k -> of_job k (not_of j L) = of_job k L.
Proof.
  intros. unfold of_job, not_of. induction L as [|l L IH]; [done|]. rewrite (filter_cons _ l L).
  case_decide as E; [by rewrite !filter_cons, IH|]. rewrite (filter_cons_False _ l L) by congruence. done.
Qed.

Lemma of_none j L : of_job j (not_of j L) = [].
Proof. unfold of_job, not_of. induction L as [|l L IH]; [done|]. rewrite (filter_cons _ l L). case_decide; [by rewrite filter_cons_False|done]. Qed.

Lemma of_perm j L L' : L ≡ₚ L' -> of_job j L ≡ₚ of_job j L'.
Proof. intros HL. unfold of_job. by rewrite HL. Qed.

(** ** The stretches under the mutex keep the invariant *)

Section Sections.
Context `{QSort}.

(** From one state to the next by job [j]: the others do not notice. *)
Record advance (j : nat) (t : Terminal) (L : list LineBuffer) (tr : list entry)
    (t' : Terminal) (L' : list LineBuffer) (tr' : list entry) : Prop := {
  ad_others : forall k p, k <> j -> job_ok (s_PrintingJobIndex t) L tr k p -> job_ok (s_PrintingJobIndex t') L' tr' k p;
  ad_owner : s_PrintingJobIndex t' = s_PrintingJobIndex t \/ s_PrintingJobIndex t' = Z.of_nat j \/
    s_PrintingJobIndex t' = -1 }.

(** A flush, of the job that takes the terminal or has it. *)
Lemma flush_step t F Q L tr j earlier P : quiet t F Q L tr ->
  (s_PrintingJobIndex t = -1 \/ s_PrintingJobIndex t = Z.of_nat j) ->
  queued_ok (s_PrintingJobIndex t) L earlier j P ->
  exists t' F' Q' L' out ops, FlushOutputQueue (Z.of_nat j) (set_owner (Z.of_nat j) t) = OK (t', out, ops) /\
    quiet t' F' Q' L' (wrote j out tr) /\ s_PrintingJobIndex t' = Z.of_nat j /\ may_write j (wrote j out tr) /\
    of_job (Z.of_nat j) L' = [] /\ shown j (wrote j out tr) = shown j tr ++ (P ≫= em_bytes) /\
    (forall k, k <> j -> of_job (Z.of_nat k) L' ≡ₚ of_job (Z.of_nat k) L).
Proof.
  intros HQ Hown HP.
  assert (may_write j tr) as Hm.
  { destruct (holder tr) as [k|] eqn:E; [right|by left]. rewrite E. f_equal. apply (qu_holder _ _ _ _ _ HQ) in E. lia. }
  assert (buffers_ok (set_owner (Z.of_nat j) t) F Q L) as HB by (by destruct (qu_buffers _ _ _ _ _ HQ); constructor).
  destruct (queue_flush_ok _ _ _ _ (Z.of_nat j) HB) as (t' & F' & Q' & L' & ops & Hf & HB' & HL' & Ho').
  destruct (wrote_linear j (buffer_write <$> qsort CompareBuffers (of_job (Z.of_nat j) L)) tr (qu_linear _ _ _ _ _ HQ) Hm) as [Hl Hm'].
  eexists t', F', Q', L', _, ops. split_and!; try done.
  - split; [done|done| |rewrite Ho'; cbn; lia]. intros k Hk. rewrite Ho'. cbn. destruct Hm' as [Hm'|Hm']; congruence.
  - apply Permutation_nil_r. by rewrite (of_perm _ _ _ HL'), of_none.
  - by rewrite wrote_shown, (flush_bytes _ P (qo_lines _ _ _ _ _ HP) (qo_sorted _ _ _ _ _ HP)).
  - intros k Hk. rewrite (of_perm _ _ _ HL'), of_other; [done|lia].
Qed.

(** The job and the others after a flush. *)
Lemma flush_others t t' L L' tr out j : (s_PrintingJobIndex t = -1 \/ s_PrintingJobIndex t = Z.of_nat j) ->
  (s_PrintingJobIndex t' = -1 \/ s_PrintingJobIndex t' = Z.of_nat j) ->
  (forall k, k <> j -> of_job (Z.of_nat k) L' ≡ₚ of_job (Z.of_nat k) L) ->
  advance j t L tr t' L' (wrote j out tr).
Proof.
  intros Ho Ho' HL. split; [|tauto]. intros k p Hk Hj. eapply job_frame; [exact Hj|by apply HL|lia|..].
  - apply wrote_session.
  - apply wrote_said.
  - by apply wrote_shown_other.
Qed.

(** A call whose text is not queued yet. *)
Definition pending (owner : Z) (L : list LineBuffer) (tr : list entry) (j : nat) (e : emission) : Prop :=
  exists P rest, session j tr = e :: rest /\ call_ok e rest /\ queued_ok owner L rest j P /\
    said j tr = shown j tr ++ (P ≫= em_bytes) ++ em_bytes e.

Lemma queued_none owner L earlier j P : of_job (Z.of_nat j) L = [] -> queued_ok owner L earlier j P -> P = [].
Proof. intros HL [HP _ _ _]. rewrite HL in HP. by apply Permutation_nil_l in HP. Qed.

Lemma emit_step t F Q L tr j e : quiet t F Q L tr -> pending (s_PrintingJobIndex t) L tr j e -> em_Data e <> [] ->
  exists t' F' Q' L' out ops r, TerminalIoEmit (Z.of_nat j) e (em_Data e) t = OK (t', out, ops, r) /\
    quiet t' F' Q' L' (wrote j out tr) /\
    job_ok (s_PrintingJobIndex t') L' (wrote j out tr) j (wake_job (emit_pc e r)) /\
    advance j t L tr t' L' (wrote j out tr) /\
    (s_PrintingJobIndex t' = -1 -> s_PrintingJobIndex t = -1 /\ asleep (emit_pc e r) = false).
Proof.
  intros HQ (P & rest & Hs & Hc & HP & Hsaid) Hne.
  assert (0 < zlen (em_Data e) <= 8191) as Hlen.
  { destruct Hc as [Hc _]. unfold kLineBufSize in Hc. destruct (em_Data e); [done|]. cbn in *. lia. }
  pose proof (emit_cases _ _ _ _ (Z.of_nat j) e (qu_buffers _ _ _ _ _ HQ) Hlen) as HC.
  destruct (decide (s_PrintingJobIndex t = -1)) as [Ho|Ho]; [|destruct (decide (s_PrintingJobIndex t = Z.of_nat j)) as [Hj|Hj]].
  - destruct (flush_step _ _ _ _ _ j _ _ HQ (or_introl Ho) HP) as (t' & F' & Q' & L' & out & ops & Hf & HQ' & Ho' & _ & HL & Hsh & HL').
    exists t', F', Q', L', out, ops, (EmitWrite (em_Data e)). split_and!; [by apply HC|done| | |done || lia].
    + cbn. rewrite wrote_session, wrote_said, Hsh, Hs, <- app_assoc. done.
    + apply flush_others; tauto.
  - exists t, F, Q, L, [], [], (EmitWrite (em_Data e)). pose proof (qo_owner _ _ _ _ _ HP Hj) as ->. split_and!; try done.
    + cbn. split_and!; [done| |by rewrite Hs|done]. pose proof (qo_lines _ _ _ _ _ HP) as HL.
      apply Permutation_nil_r in HL. by apply fmap_nil_inv in HL.
    + split; [done | by left].
  - destruct HC as [[-> HC]|(t' & F' & Q' & l & HC & HB' & Ho' & Hlj & Hle)].
    + exists t, [], Q, L, [], [], (EmitSleep (em_Data e)). split_and!; try done; try lia; [|by split; [done|left]]. cbn.
      split_and!; try done. eauto 10.
    + exists t', F', Q', (L ++ [l]), [], [], EmitDone. split_and!; try done.
      * destruct HQ. split; [done|done|by rewrite Ho'|by rewrite Ho'].
      * cbn. exists (P ++ [e]). rewrite Hs, Hsaid, bind_app. cbn. rewrite app_nil_r. split; [|done]. split.
        -- unfold of_job. rewrite filter_app, fmap_app, filter_cons_True by done. cbn. by rewrite Hle, (qo_lines _ _ _ _ _ HP).
        -- eapply near_snoc; [apply HP|apply HP|done].
        -- apply Forall_app. split; [|by constructor; [left|]].
           eapply Forall_impl; [apply HP|]. intros ? ?. by right.
        -- rewrite Ho'. done.
      * split; [|by left]. intros k p Hk Hok. eapply job_frame; [exact Hok| |by rewrite Ho'|done..].
        unfold of_job. rewrite filter_app, filter_cons_False by lia. by rewrite app_nil_r.
      * lia.
Qed.

(** The end of a job, once it can have the terminal. *)
Lemma exit_step t F Q L tr j P : quiet t F Q L tr ->
  (s_PrintingJobIndex t = -1 \/ s_PrintingJobIndex t = Z.of_nat j) ->
  queued_ok (s_PrintingJobIndex t) L (session j tr) j P -> said j tr = shown j tr ++ (P ≫= em_bytes) ->
  exists t' F' Q' L' out ops, JobExit_flush (Z.of_nat j) t = OK (t', out, ops) /\
    quiet t' F' Q' L' (Exited j :: wrote j out tr) /\
    job_ok (s_PrintingJobIndex t') L' (Exited j :: wrote j out tr) j JobBroadcasts /\
    advance j t L tr t' L' (Exited j :: wrote j out tr) /\ s_PrintingJobIndex t' = -1.
Proof.
  intros HQ Ho HP Hsaid.
  destruct (flush_step _ _ _ _ _ j _ _ HQ Ho HP) as (t' & F' & Q' & L' & out & ops & Hf & HQ' & Ho' & Hm & HL & Hsh & HL').
  exists (set_owner (-1) t'), F', Q', L', out, ops. unfold JobExit_flush. rewrite Hf. cbn. split_and!; try done.
  - destruct HQ' as [HB Hl Hh Hown]. split; [by destruct HB; constructor|done|done|by left].
  - lia.
  - exists []. rewrite decide_True by done. rewrite wrote_said, Hsh, app_nil_r. split; [|done].
    split; [by rewrite HL|constructor|constructor|done].
  - destruct (flush_others t (set_owner (-1) t') L L' tr out j Ho ltac:(by left) HL') as [Hk Hown].
    split; [|done]. intros k p Hne Hok. eapply job_frame; [by apply Hk|done|done| |done|done]. cbn. by rewrite decide_False.
Qed.

End Sections.

(** ** Wake-ups *)

Lemma wake_wake p : wake_job (wake_job p) = wake_job p.
Proof. by destruct p. Qed.

Lemma wake_awake p : asleep (wake_job p) = false.
Proof. by destruct p. Qed.

Lemma wake_insert (j : nat) p (jobs : list job_pc) : wake_job <$> <[j := p]> jobs = <[j := wake_job p]> (wake_job <$> jobs).
Proof. by rewrite list_fmap_insert. Qed.

Lemma wake_same (j : nat) p (jobs : list job_pc) : jobs !! j = Some p -> <[j := wake_job p]> (wake_job <$> jobs) = wake_job <$> jobs.
Proof. intros Hj. apply list_insert_id. by rewrite list_lookup_fmap, Hj. Qed.

Lemma notified_wake ops jobs jobs' : notified ops jobs jobs' -> wake_job <$> jobs' = wake_job <$> jobs.
Proof.
  induction 1 as [| ops jobs jobs' _ IH | ops jobs jobs' i p Hi _ _ IH |]; [done| | |done]; rewrite IH.
  - rewrite <- list_fmap_compose. apply list_fmap_ext. intros. apply wake_wake.
  - by rewrite wake_insert, wake_wake, wake_same.
Qed.

Lemma notified_sleeper ops jobs jobs' i p : notified ops jobs jobs' -> jobs' !! i = Some p -> asleep p = true -> jobs !! i = Some p.
Proof.
  intros Hn. revert i p. induction Hn as [| ops jobs jobs' _ IH | ops jobs jobs' k q Hk _ _ IH |]; intros i p Hi Hp; [done| | |eauto].
  - pose proof (IH i p Hi Hp) as Hx. rewrite list_lookup_fmap in Hx. destruct (jobs !! i) as [q|] eqn:E; [|done].
    cbn in Hx. simplify_eq. by rewrite wake_awake in Hp.
  - pose proof (IH i p Hi Hp) as Hx. destruct (decide (i = k)) as [->|Hne].
    + rewrite list_lookup_insert_eq in Hx by (by eapply lookup_lt_Some). simplify_eq. by rewrite wake_awake in Hp.
    + by rewrite list_lookup_insert_ne in Hx by done.
Qed.

Lemma notified_keeps ops jobs jobs' k p : notified ops jobs jobs' -> jobs !! k = Some p -> asleep p = false -> jobs' !! k = Some p.
Proof.
  intros Hn Hk Hp. revert Hk. induction Hn as [| ops jobs jobs' _ IH | ops jobs jobs' i q Hi Hq _ IH |]; intros Hk; [done| | |eauto].
  - apply IH. rewrite list_lookup_fmap, Hk. by destruct p.
  - apply IH. destruct (decide (k = i)) as [->|Hne]; [congruence|]. by rewrite list_lookup_insert_ne.
Qed.

(** ** All jobs *)

Record sys_inv (s : term_sys) (F Q : list Z) (L : list LineBuffer) : Prop := {
  si_quiet : quiet (ts_term s) F Q L (ts_trace s);
  si_jobs : forall j p, (wake_job <$> ts_jobs s) !! j = Some p -> job_ok (s_PrintingJobIndex (ts_term s)) L (ts_trace s) j p;
  (* when the terminal is free and a job sleeps, a broadcast is on its way *)
  si_wake : s_PrintingJobIndex (ts_term s) = -1 -> forall i p, ts_jobs s !! i = Some p -> asleep p = true ->
    exists k, ts_jobs s !! k = Some JobBroadcasts;
  si_owner : s_PrintingJobIndex (ts_term s) <> -1 -> exists j p, s_PrintingJobIndex (ts_term s) = Z.of_nat j /\ ts_jobs s !! j = Some p }.

Lemma inv_job s F Q L j p : sys_inv s F Q L -> ts_jobs s !! j = Some p ->
  job_ok (s_PrintingJobIndex (ts_term s)) L (ts_trace s) j (wake_job p).
Proof. intros HI Hj. apply (si_jobs _ _ _ _ HI). by rewrite list_lookup_fmap, Hj. Qed.

(** One job advances and wakes others. *)
Lemma inv_advance t jobs tr F Q L j p q t' F' Q' L' tr' ops jobs' : sys_inv (mkTSys t jobs tr) F Q L ->
  jobs !! j = Some p -> quiet t' F' Q' L' tr' -> job_ok (s_PrintingJobIndex t') L' tr' j (wake_job q) ->
  advance j t L tr t' L' tr' -> notified ops (<[j := q]> jobs) jobs' ->
  (s_PrintingJobIndex t' = -1 -> q = JobBroadcasts \/ s_PrintingJobIndex t = -1 /\ asleep q = false /\ p <> JobBroadcasts) ->
  sys_inv (mkTSys t' jobs' tr') F' Q' L'.
Proof.
  intros [HQ HJ HW HO] Hj HQ' Hok [Hadv Hown] Hn Hwake. cbn in *. pose proof (lookup_lt_Some _ _ _ Hj) as Hlt. split; cbn.
  - done.
  - intros k x. rewrite (notified_wake _ _ _ Hn), wake_insert. destruct (decide (k = j)) as [->|Hne].
    + rewrite list_lookup_insert_eq by (by rewrite length_fmap). by intros [= <-].
    + rewrite list_lookup_insert_ne by done. intros Hk. apply Hadv; [done|]. by apply HJ.
  - intros Ho i x Hi Hx. pose proof (notified_sleeper _ _ _ _ _ Hn Hi Hx) as Hs.
    destruct (Hwake Ho) as [->|(Ho0 & Hq & Hp)].
    { exists j. eapply notified_keeps; [done| |done]. by apply list_lookup_insert_eq. }
    destruct (decide (i = j)) as [->|Hne]; [rewrite list_lookup_insert_eq in Hs by done; congruence|].
    rewrite list_lookup_insert_ne in Hs by done. destruct (HW Ho0 i x Hs Hx) as [k Hk].
    exists k. eapply notified_keeps; [done| |done]. rewrite list_lookup_insert_ne; congruence.
  - intros Ho. assert (exists i, s_PrintingJobIndex t' = Z.of_nat i /\ (i < length jobs)%nat) as (i & Hi & Hil).
    { destruct Hown as [Hown|[Hown|Hown]]; [|by exists j|done]. rewrite Hown in *. destruct (HO Ho) as (i & x & Hi & Hx).
      exists i. split; [done|]. by eapply lookup_lt_Some. }
    assert (length jobs' = length jobs) as Hlen.
    { pose proof (notified_wake _ _ _ Hn) as Hw. apply (f_equal length) in Hw. by rewrite !length_fmap, length_insert in Hw. }
    destruct (lookup_lt_is_Some_2 jobs' i) as [x Hx]; [lia|]. eauto.
Qed.

(** A job that broadcasts wakes everybody. *)
Lemma inv_broadcast t jobs tr F Q L j jobs' : sys_inv (mkTSys t jobs tr) F Q L -> jobs !! j = Some JobBroadcasts ->
  job_ok (s_PrintingJobIndex t) L tr j JobOutside -> notified [CondBroadcast] (<[j := JobOutside]> jobs) jobs' ->
  sys_inv (mkTSys t jobs' tr) F Q L.
Proof.
  intros [HQ HJ HW HO] Hj Hok Hn. cbn in *. pose proof (lookup_lt_Some _ _ _ Hj) as Hlt.
  assert (jobs' = wake_job <$> <[j := JobOutside]> jobs) as ->.
  { inversion Hn as [|? ? ? Hn'| |]; subst. by inversion Hn'. }
  split; cbn; try done.
  - intros k x. rewrite wake_insert, list_lookup_fmap. destruct (decide (k = j)) as [->|Hne].
    + rewrite list_lookup_insert_eq by (by rewrite length_fmap). by intros [= <-].
    + rewrite list_lookup_insert_ne by done. intros Hk. apply HJ. rewrite list_lookup_fmap in *.
      destruct (jobs !! k); [|done]. cbn in *. by rewrite wake_wake in Hk.
  - intros _ i x Hi Hx. rewrite list_lookup_fmap in Hi. destruct (_ !! i); [|done]. cbn in Hi. simplify_eq. by rewrite wake_awake in Hx.
  - intros Ho. destruct (HO Ho) as (i & x & Hi & Hx).
    destruct (lookup_lt_is_Some_2 (wake_job <$> <[j := JobOutside]> jobs) i) as [y Hy]; [|eauto].
    rewrite length_fmap, length_insert. by eapply lookup_lt_Some.
Qed.

Section Steps.
Context `{QSort}.

Lemma called_advance t L tr j e t' L' tr' : advance j t L (Called j e :: tr) t' L' tr' -> advance j t L tr t' L' tr'.
Proof.
  intros [Hk Ho]. split; [|done]. intros k p Hne Hok. apply Hk; [done|]. eapply job_frame; [exact Hok|done|done|..]; cbn.
  - by rewrite decide_False.
  - by rewrite decide_False, app_nil_r.
  - done.
Qed.

Lemma called_quiet t F Q L tr j e : quiet t F Q L tr -> quiet t F Q L (Called j e :: tr).
Proof. intros []. by split. Qed.

Lemma advance_refl j t L tr : advance j t L tr t L tr.
Proof. split; [done | by left]. Qed.

(** A new call: it has nothing to print, or is pending. *)
Lemma called_pending owner L tr j e : job_ok owner L tr j JobOutside -> call_ok e (session j tr) ->
  pending owner L (Called j e :: tr) j e.
Proof.
  intros (P & HP & Hs) Hc. exists P, (session j tr). cbn. rewrite !decide_True by done. split_and!; try done.
  by rewrite Hs, <- app_assoc.
Qed.

Lemma called_empty owner L tr j e : job_ok owner L tr j JobOutside -> em_Data e = [] ->
  job_ok owner L (Called j e :: tr) j JobOutside.
Proof.
  intros (P & HP & Hs) He. exists P. cbn. rewrite !decide_True by done. unfold em_bytes at 1. rewrite He, app_nil_r.
  split; [|done]. destruct HP. split; try done. eapply Forall_impl; [done|]. intros ? ?. by right.
Qed.

(** The whole call, from outside: its first run under the mutex. *)
Lemma call_step t F Q L tr j e : quiet t F Q L tr -> job_ok (s_PrintingJobIndex t) L tr j JobOutside ->
  call_ok e (session j tr) ->
  exists t' F' Q' L' out ops r, TerminalIoEmit (Z.of_nat j) e (em_Data e) t = OK (t', out, ops, r) /\
    quiet t' F' Q' L' (wrote j out (Called j e :: tr)) /\
    job_ok (s_PrintingJobIndex t') L' (wrote j out (Called j e :: tr)) j (wake_job (emit_pc e r)) /\
    advance j t L tr t' L' (wrote j out (Called j e :: tr)) /\
    (s_PrintingJobIndex t' = -1 -> s_PrintingJobIndex t = -1 /\ asleep (emit_pc e r) = false).
Proof.
  intros HQ Hok Hc. destruct (em_Data e) as [|c d] eqn:E.
  - exists t, F, Q, L, [], [], EmitDone. cbn. split_and!; try done.
    + by apply called_quiet.
    + by apply called_empty.
    + apply (called_advance _ _ _ _ e). apply advance_refl.
  - destruct (emit_step t F Q L (Called j e :: tr) j e) as (t' & F' & Q' & L' & out & ops & r & Hr & HQ' & Hok' & Ha & Hw).
    { by apply called_quiet. } { by apply called_pending. } { by rewrite E. }
    rewrite E in Hr. exists t', F', Q', L', out, ops, r. split_and!; try done. by eapply called_advance.
Qed.

Lemma woken_step t F Q L tr j e data : quiet t F Q L tr -> disciplined tr ->
  job_ok (s_PrintingJobIndex t) L tr j (JobEmitWoken e data) ->
  exists t' F' Q' L' out ops r, TerminalIoEmit (Z.of_nat j) e data t = OK (t', out, ops, r) /\
    quiet t' F' Q' L' (wrote j out tr) /\
    job_ok (s_PrintingJobIndex t') L' (wrote j out tr) j (wake_job (emit_pc e r)) /\
    advance j t L tr t' L' (wrote j out tr) /\
    (s_PrintingJobIndex t' = -1 -> s_PrintingJobIndex t = -1 /\ asleep (emit_pc e r) = false).
Proof.
  intros HQ Hd (Ho & -> & Hne & P & rest & Hs & HP & Hsaid). apply (emit_step _ _ _ _ _ _ _ HQ); [|done].
  exists P, rest. split_and!; try done. by eapply session_ok.
Qed.

(** The end of a job, from outside and after a wake-up: it waits, or ends. *)
Lemma exit_cases t F Q L tr j P : quiet t F Q L tr ->
  queued_ok (s_PrintingJobIndex t) L (session j tr) j P -> said j tr = shown j tr ++ (P ≫= em_bytes) ->
  forall waited, (waited = true -> s_PrintingJobIndex t <> Z.of_nat j) ->
  let exit := if waited : bool then JobExit_wait (Z.of_nat j) t else TerminalIoJobExit (Z.of_nat j) t in
  exit = OK None /\ s_PrintingJobIndex t <> -1 /\ s_PrintingJobIndex t <> Z.of_nat j \/
  exists t' F' Q' L' out ops, exit = OK (Some (t', out, ops)) /\
    quiet t' F' Q' L' (Exited j :: wrote j out tr) /\
    job_ok (s_PrintingJobIndex t') L' (Exited j :: wrote j out tr) j JobBroadcasts /\
    advance j t L tr t' L' (Exited j :: wrote j out tr).
Proof.
  intros HQ HP Hs waited Hwt exit.
  assert ((s_PrintingJobIndex t = -1 \/ s_PrintingJobIndex t = Z.of_nat j) \/
    s_PrintingJobIndex t <> -1 /\ s_PrintingJobIndex t <> Z.of_nat j) as [Ho|[Ho1 Ho2]] by lia.
  - right. destruct (exit_step _ _ _ _ _ _ _ HQ Ho HP Hs) as (t' & F' & Q' & L' & out & ops & Hr & HQ' & Hok & Ha & _).
    exists t', F', Q', L', out, ops. split_and!; try done. subst exit. unfold TerminalIoJobExit, JobExit_wait. rewrite Hr.
    destruct waited; repeat case_match; zbool; subst; try done; lia.
  - left. split; [|done]. subst exit. unfold TerminalIoJobExit, JobExit_wait.
    destruct (Z.eqb_spec (-1) (s_PrintingJobIndex t)); [lia|]. destruct (Z.eqb_spec (Z.of_nat j) (s_PrintingJobIndex t)); [lia|].
    by destruct waited.
Qed.

Lemma write_quiet t F Q L tr j w : quiet t F Q L tr -> s_PrintingJobIndex t = Z.of_nat j -> quiet t F Q L (Wrote j w :: tr).
Proof.
  intros [HB Hl Hh Ho] Hj. split; cbn; try done.
  - split; [|done]. destruct (holder tr) as [k|]; [right|by left]. f_equal. specialize (Hh k eq_refl). lia.
  - by intros k [= <-].
Qed.

Lemma disciplined_step s s' : term_step s s' -> disciplined (ts_trace s') -> disciplined (ts_trace s).
Proof. destruct 1; cbn; rewrite ?wrote_disciplined; cbn; tauto. Qed.

Lemma term_step_inv s s' F Q L : term_step s s' -> disciplined (ts_trace s') -> sys_inv s F Q L ->
  exists F' Q' L', sys_inv s' F' Q' L'.
Proof.
  intros Hs Hd HI. pose proof (disciplined_step _ _ Hs Hd) as Hd0. pose proof (si_quiet _ _ _ _ HI) as HQ.
  destruct Hs as [t jobs tr j e t' out ops r jobs' Hj Hr Hn | t jobs tr j e data t' out ops r jobs' Hj Hr Hn
    | t jobs tr j str data Hj | t jobs tr j t' out ops jobs' Hj Hr Hn | t jobs tr j Hj Hr | t jobs tr j t' out ops jobs' Hj Hr Hn
    | t jobs tr j Hj Hr | t jobs tr j jobs' Hj Hn | t jobs tr j p Hj Hp ];
    cbn in *; pose proof (inv_job _ _ _ _ _ _ HI Hj) as Hok; cbn in Hok.
  - rewrite wrote_disciplined in Hd. destruct Hd as [Hc _].
    destruct (call_step _ _ _ _ _ _ _ HQ Hok Hc) as (t2 & F' & Q' & L' & out2 & ops2 & r2 & Hr2 & HQ' & Hok' & Ha & Hw).
    rewrite Hr in Hr2. simplify_eq. exists F', Q', L'. eapply inv_advance; try done. naive_solver.
  - destruct (woken_step _ _ _ _ _ _ _ _ HQ Hd0 Hok) as (t2 & F' & Q' & L' & out2 & ops2 & r2 & Hr2 & HQ' & Hok' & Ha & Hw).
    rewrite Hr in Hr2. simplify_eq. exists F', Q', L'. eapply inv_advance; try done. naive_solver.
  - exists F, Q, L. destruct Hok as (Ho & HL & Hs & Hsaid). eapply (inv_advance _ _ _ _ _ _ _ _ JobOutside); try done.
    + by apply write_quiet.
    + cbn. exists []. rewrite decide_True, app_nil_r by done. split; [|done].
      split; [by rewrite HL|constructor..|done].
    + apply (flush_others t t L L tr [(str, data)] j); [tauto..|done].
    + constructor.
    + lia.
  - destruct Hok as (P & HP & Hs).
    destruct (exit_cases _ _ _ _ _ _ _ HQ HP Hs false) as [[Hx _]|(t2 & F' & Q' & L' & out2 & ops2 & Hr2 & HQ' & Hok' & Ha)];
      [done|congruence|]. rewrite Hr in Hr2. simplify_eq. exists F', Q', L'. eapply inv_advance; try done; [exact Hok' | by intros _; left].
  - exists F, Q, L. destruct Hok as (P & HP & Hs).
    destruct (exit_cases _ _ _ _ _ _ _ HQ HP Hs false) as [(_ & Ho1 & Ho2)|(t2 & F' & Q' & L' & out2 & ops2 & Hr2 & _)];
      [done| |congruence].
    eapply (inv_advance _ _ _ _ _ _ _ _ JobExitSleeps); try done; [by cbn; eauto|apply advance_refl|constructor].
  - destruct Hok as (Ho & P & HP & Hs).
    destruct (exit_cases _ _ _ _ _ _ _ HQ HP Hs true) as [[Hx _]|(t2 & F' & Q' & L' & out2 & ops2 & Hr2 & HQ' & Hok' & Ha)];
      [done|congruence|]. rewrite Hr in Hr2. simplify_eq. exists F', Q', L'. eapply inv_advance; try done; [exact Hok' | by intros _; left].
  - exists F, Q, L. pose proof Hok as (Ho & P & HP & Hs).
    destruct (exit_cases _ _ _ _ _ _ _ HQ HP Hs true) as [(_ & Ho1 & Ho2)|(t2 & F' & Q' & L' & out2 & ops2 & Hr2 & _)];
      [done| |congruence].
    eapply (inv_advance _ _ _ _ _ _ _ _ JobExitSleeps); try done; [apply advance_refl|constructor].
  - exists F, Q, L. destruct Hok as [_ Hok]. by eapply inv_broadcast.
  - exists F, Q, L. eapply (inv_advance _ _ _ _ _ _ _ _ (wake_job p)); try done.
    + by rewrite wake_wake.
    + apply advance_refl.
    + constructor.
    + intros Ho. right. split_and!; [done|apply wake_awake|]. by intros ->.
Qed.
End Steps.

(** ** What the terminal promises *)

Section Promises.
Context `{QSort}.

Lemma start_inv n : sys_inv (mkTSys TerminalIoInit (replicate n JobOutside) []) (seqZ 0 64) [] [].
Proof.
  split; cbn.
  - split; cbn; [|done|done|by left]. split; try done.
    + by exists [].
    + by exists (replicate 64 (-1)).
    + apply Forall_replicate. cbn [lb_Data]. rewrite length_replicate. done.
  - intros j p Hp. rewrite fmap_replicate in Hp. apply lookup_replicate in Hp as [-> _]. cbn. exists []. split; [|done].
    by split; try constructor.
  - intros _ i p Hp Ha. apply lookup_replicate in Hp as [-> _]. done.
  - done.
Qed.

Lemma reachable_inv n s : term_reachable n s -> disciplined (ts_trace s) ->
  length (ts_jobs s) = n /\ exists F Q L, sys_inv s F Q L.
Proof.
  induction 1 as [|s s' _ IH Hs]; intros Hd.
  - split; [apply length_replicate|]. eauto using start_inv.
  - destruct (IH (disciplined_step _ _ Hs Hd)) as (Hn & F & Q & L & HI). split; [|by eapply term_step_inv].
    rewrite <- Hn. assert (forall j p ops jobs jobs', notified ops (<[j := p]> jobs) jobs' -> length jobs' = length jobs) as Hlen.
    { intros j p ops jobs jobs' Hx%notified_wake%(f_equal length). by rewrite !length_fmap, length_insert in Hx. }
    destruct Hs; cbn; try apply length_insert; by eapply Hlen.
Qed.

(** Whatever the interleaving, what the jobs print does not mix: between writes
    of two jobs the first one ends. Each job's text appears in the order it was
    printed in, both streams together, and when a job has ended all of it has
    appeared. *)
Theorem terminal_output_linear n s : term_reachable n s -> disciplined (ts_trace s) ->
  linear (ts_trace s) /\
  forall j, (j < n)%nat ->
    (exists rest, said j (ts_trace s) = shown j (ts_trace s) ++ rest) /\
    (session j (ts_trace s) = [] -> said j (ts_trace s) = shown j (ts_trace s)).
Proof.
  intros Hr Hd. destruct (reachable_inv _ _ Hr Hd) as (Hn & F & Q & L & HI).
  split; [apply (si_quiet _ _ _ _ HI)|]. intros j Hj. rewrite <- Hn in Hj. apply lookup_lt_is_Some_2 in Hj as [p Hp].
  pose proof (inv_job _ _ _ _ _ _ HI Hp) as Hok.
  assert (forall P, queued_ok (s_PrintingJobIndex (ts_term s)) L (session j (ts_trace s)) j P ->
    said j (ts_trace s) = shown j (ts_trace s) ++ (P ≫= em_bytes) ->
    (exists rest, said j (ts_trace s) = shown j (ts_trace s) ++ rest) /\
    (session j (ts_trace s) = [] -> said j (ts_trace s) = shown j (ts_trace s))) as Hqueue.
  { intros P HP Hs. split; [eauto|]. intros E. pose proof (qo_earlier _ _ _ _ _ HP) as HE. rewrite E in HE.
    destruct P as [|x P]; [by rewrite Hs, app_nil_r|]. apply Forall_cons in HE as [Hx _]. by apply not_elem_of_nil in Hx. }
  destruct p; cbn in Hok.
  1: destruct Hok as (P & HP & Hs); eauto.
  1-2: destruct Hok as (_ & _ & _ & P & rest & Hs & HP & Hsaid); rewrite Hs; split; [eauto|done].
  1: destruct Hok as (_ & _ & Hs & Hsaid); split; [eauto|done].
  all: destruct Hok as (_ & P & HP & Hs); eauto.
Qed.

(** No assertion fails, no access is out of range and no loop runs on, in any
    stretch under the mutex that a job can start. *)
Theorem terminal_never_faults n s j p : term_reachable n s -> disciplined (ts_trace s) -> ts_jobs s !! j = Some p ->
  match p with
  | JobOutside =>
      (forall e, call_ok e (session j (ts_trace s)) -> exists r, TerminalIoEmit (Z.of_nat j) e (em_Data e) (ts_term s) = OK r) /\
      exists r, TerminalIoJobExit (Z.of_nat j) (ts_term s) = OK r
  | JobEmitWoken e data => exists r, TerminalIoEmit (Z.of_nat j) e data (ts_term s) = OK r
  | JobExitWoken => exists r, JobExit_wait (Z.of_nat j) (ts_term s) = OK r
  | _ => True
  end.
Proof.
  intros Hr Hd Hp. destruct (reachable_inv _ _ Hr Hd) as (_ & F & Q & L & HI). pose proof (si_quiet _ _ _ _ HI) as HQ.
  pose proof (inv_job _ _ _ _ _ _ HI Hp) as Hok. destruct p as [|e data|e data|str data| | |]; try done.
  - split.
    + intros e Hc. destruct (call_step _ _ _ _ _ _ _ HQ Hok Hc) as (? & ? & ? & ? & ? & ? & ? & Hx & _). eauto.
    + destruct Hok as (P & HP & Hs). destruct (exit_cases _ _ _ _ _ _ _ HQ HP Hs false) as [[Hx _]|(? & ? & ? & ? & ? & ? & Hx & _)]; eauto.
  - destruct (woken_step _ _ _ _ _ _ _ _ HQ Hd Hok) as (? & ? & ? & ? & ? & ? & ? & Hx & _). eauto.
  - destruct Hok as (Ho & P & HP & Hs). destruct (exit_cases _ _ _ _ _ _ _ HQ HP Hs true) as [[Hx _]|(? & ? & ? & ? & ? & ? & Hx & _)]; eauto.
Qed.

(** A job that sleeps is not forgotten: somebody is about to wake everybody, or
    a job that is not waiting has the terminal. *)
Theorem terminal_no_lost_wakeup n s i p : term_reachable n s -> disciplined (ts_trace s) ->
  ts_jobs s !! i = Some p -> asleep p = true ->
  (exists k, ts_jobs s !! k = Some JobBroadcasts) \/
  exists k q, s_PrintingJobIndex (ts_term s) = Z.of_nat k /\ ts_jobs s !! k = Some q /\
    (q = JobOutside \/ exists str data, q = JobWrites str data).
Proof.
  intros Hr Hd Hp Ha. destruct (reachable_inv _ _ Hr Hd) as (_ & F & Q & L & HI).
  destruct (decide (s_PrintingJobIndex (ts_term s) = -1)) as [Ho|Ho]; [left; by eapply (si_wake _ _ _ _ HI)|right].
  destruct (si_owner _ _ _ _ HI Ho) as (k & q & Hk & Hq). exists k, q. split_and!; try done.
  pose proof (inv_job _ _ _ _ _ _ HI Hq) as Hok. destruct q; cbn in Hok; try by destruct Hok; eauto.
Qed.

End Promises.

(** ** Running the model *)

(** What a job does next: print, end, or go on with the call it is in. *)
Inductive job_move : Type := Prints (e : emission) | Ends | GoesOn.

(** A signal wakes the first sleeper. *)
Fixpoint notify_first (ops : list cond_op) (jobs : list job_pc) : list job_pc :=
  match ops with
  | [] => jobs
  | CondBroadcast :: ops => notify_first ops (wake_job <$> jobs)
  | CondSignal :: ops =>
      match list_find (fun p => asleep p = true) jobs with
      | Some (i, p) => notify_first ops (<[i := wake_job p]> jobs)
      | None => notify_first ops jobs
      end
  end.

Lemma notify_first_ok ops jobs : notified ops jobs (notify_first ops jobs).
Proof.
  revert jobs. induction ops as [|[] ops IH]; intros jobs; cbn; [constructor| |by constructor].
  destruct (list_find _ jobs) as [[i p]|] eqn:E.
  - apply list_find_Some in E as (Hi & Hp & _). by eapply notified_signal.
  - apply notified_nobody; [|done]. apply list_find_None in E. intros i p Hi. eapply Forall_lookup_1 in E; [|done].
    by destruct (asleep p).
Qed.

Section Exec.
Context `{QSort}.

Definition term_exec (s : term_sys) (j : nat) (a : job_move) : option term_sys :=
  let t := ts_term s in let jobs := ts_jobs s in let tr := ts_trace s in
  p ← jobs !! j;
  match p, a with
  | JobOutside, Prints e =>
      match TerminalIoEmit (Z.of_nat j) e (em_Data e) t with
      | OK (t', out, ops, r) => Some (mkTSys t' (notify_first ops (<[j := emit_pc e r]> jobs)) (wrote j out (Called j e :: tr)))
      | Err _ => None
      end
  | JobEmitWoken e data, GoesOn =>
      match TerminalIoEmit (Z.of_nat j) e data t with
      | OK (t', out, ops, r) => Some (mkTSys t' (notify_first ops (<[j := emit_pc e r]> jobs)) (wrote j out tr))
      | Err _ => None
      end
  | JobWrites str data, GoesOn => Some (mkTSys t (<[j := JobOutside]> jobs) (Wrote j (str, data) :: tr))
  | JobOutside, Ends =>
      match TerminalIoJobExit (Z.of_nat j) t with
      | OK (Some (t', out, ops)) => Some (mkTSys t' (notify_first ops (<[j := JobBroadcasts]> jobs)) (Exited j :: wrote j out tr))
      | OK None => Some (mkTSys t (<[j := JobExitSleeps]> jobs) tr)
      | Err _ => None
      end
  | JobExitWoken, GoesOn =>
      match JobExit_wait (Z.of_nat j) t with
      | OK (Some (t', out, ops)) => Some (mkTSys t' (notify_first ops (<[j := JobBroadcasts]> jobs)) (Exited j :: wrote j out tr))
      | OK None => Some (mkTSys t (<[j := JobExitSleeps]> jobs) tr)
      | Err _ => None
      end
  | JobBroadcasts, GoesOn => Some (mkTSys t (notify_first [CondBroadcast] (<[j := JobOutside]> jobs)) tr)
  | _, _ => None
  end.

Lemma term_exec_step s j a s' : term_exec s j a = Some s' -> term_step s s'.
Proof.
  destruct s as [t jobs tr]. unfold term_exec. cbn [ts_term ts_jobs ts_trace].
  destruct (jobs !! j) as [p|] eqn:Hj; [|done]. cbn [mbind option_bind]. intros He.
  pose proof notify_first_ok as Hn.
  destruct p, a; try done; repeat case_match; simplify_eq.
  - by eapply term_emit.
  - by eapply term_exit.
  - by apply term_exit_sleeps.
  - by eapply term_emit_woken.
  - by apply term_write.
  - by eapply term_exit_woken.
  - by apply term_exit_again.
  - by eapply term_broadcast.
Qed.

Fixpoint term_run (s : term_sys) (acts : list (nat * job_move)) : option term_sys :=
  match acts with
  | [] => Some s
  | (j, a) :: acts => s' ← term_exec s j a; term_run s' acts
  end.

Lemma term_run_reachable n s acts s' : term_reachable n s -> term_run s acts = Some s' -> term_reachable n s'.
Proof.
  revert s. induction acts as [|[j a] acts IH]; cbn; intros s Hr He; [by simplify_eq|].
  destruct (term_exec s j a) as [s1|] eqn:E; [|done]. eapply IH; [|done]. eapply term_reach_step; [done|]. by eapply term_exec_step.
Qed.

Definition after (n : nat) (acts : list (nat * job_move)) : term_sys :=
  let s := mkTSys TerminalIoInit (replicate n JobOutside) [] in default s (term_run s acts).

Lemma after_reachable n acts : term_reachable n (after n acts).
Proof.
  unfold after. destruct (term_run _ acts) as [s|] eqn:E; cbn; [|constructor]. eapply term_run_reachable; [|done]. constructor.
Qed.

End Exec.

(** ** Examples *)

Definition hello : emission := mkEm false 0 (s2l "hello").
Definition world : emission := mkEm true 0 (s2l "world").

(** Job 1 prints while job 0 has the terminal, and ends first. *)
Definition two_jobs : term_sys :=
  after 2 [(0%nat, Prints hello); (1%nat, Prints world); (0%nat, GoesOn); (1%nat, Ends); (0%nat, Ends); (0%nat, GoesOn);
           (1%nat, GoesOn); (1%nat, GoesOn)].

Lemma two_jobs_trace : rev (ts_trace two_jobs) =
  [Called 0 hello; Called 1 world; Wrote 0 (false, s2l "hello"); Exited 0; Wrote 1 (true, s2l "world"); Exited 1].
Proof. vm_compute. reflexivity. Qed.

Lemma two_jobs_disciplined : disciplined (ts_trace two_jobs).
Proof. rewrite <- (rev_involutive (ts_trace _)), two_jobs_trace. cbn. unfold call_ok. split_and!; try done; repeat constructor. Qed.

Lemma terminal_output_linear_witness : said 1 (ts_trace two_jobs) = shown 1 (ts_trace two_jobs) /\ said 1 (ts_trace two_jobs) <> [].
Proof.
  destruct (terminal_output_linear 2 two_jobs (after_reachable _ _) two_jobs_disciplined) as [_ Hj].
  split; [apply (Hj 1%nat); [lia | vm_compute; reflexivity] | vm_compute; discriminate].
Defined.

(** Two keys whose difference does not fit: [qsort] puts the larger one first,
    whatever its algorithm. *)
Lemma far_keys_reversed `{QSort} a b : in_i32 (lb_SortKey a) -> in_i32 (lb_SortKey b) ->
  lb_SortKey a + 2 ^ 31 < lb_SortKey b -> qsort CompareBuffers [a; b] = [b; a].
Proof.
  intros Ha Hb Hab. unfold in_i32 in *.
  assert (CompareBuffers a b = lb_SortKey a - lb_SortKey b + 2 ^ 32) as Cab.
  { unfold CompareBuffers, i32. rewrite <- (Z.mod_unique _ _ (-1) (lb_SortKey a - lb_SortKey b + 2 ^ 31 + 2 ^ 32)); lia. }
  assert (CompareBuffers b a = lb_SortKey b - lb_SortKey a - 2 ^ 32) as Cba.
  { unfold CompareBuffers, i32. rewrite <- (Z.mod_unique _ _ 1 (lb_SortKey b - lb_SortKey a + 2 ^ 31 - 2 ^ 32)); lia. }
  assert (forall x, CompareBuffers x x = 0) as Cxx by (intros; unfold CompareBuffers; by rewrite Z.sub_diag).
  assert (consistent CompareBuffers [a; b]) as Hc.
  { split_and!; intros *; rewrite !elem_of_cons; intros;
      repeat match goal with H : _ ∈ [] |- _ => by apply not_elem_of_nil in H | H : _ \/ _ |- _ => destruct H end; subst;
      rewrite ?Cxx, ?Cab, ?Cba in *; lia. }
  pose proof (qsort_perm _ _ Hc) as Hp. pose proof (qsort_sorted _ _ Hc) as Hs.
  symmetry in Hp. apply Permutation_length_2_inv in Hp as [Hp|Hp]; [|done]. rewrite Hp in Hs.
  apply StronglySorted_inv in Hs as [_ Hs]. apply Forall_cons in Hs as [Hs _]. lia.
Qed.

(** A command fails without output while another job has the terminal: its
    failure message, with the largest key, comes before its annotation. *)
Definition annotation : emission := TerminalIoPrintf (-200) (s2l "CC a.o").
Definition failure : emission := TerminalIoPrintf 2147483647 (s2l "child process failed").

Lemma failure_before_annotation :
  let tr := ts_trace (after 2 [(0%nat, Prints hello); (0%nat, GoesOn); (1%nat, Prints annotation); (1%nat, Prints failure);
                               (0%nat, Ends); (1%nat, Ends)]) in
  session 1 tr = [] /\ said 1 tr = em_bytes annotation ++ em_bytes failure /\ shown 1 tr = em_bytes failure ++ em_bytes annotation.
Proof. vm_compute. done. Qed.

(** A command line that needs two buffers: removing another job's line from the
    queue swaps them, and their keys are the same. *)
Definition long_text : emission := TerminalIoPrintf (-199) (replicate 8191 "a"%char ++ s2l "b").

Lemma long_text_swapped :
  let tr := ts_trace (after 3 [(0%nat, Prints hello); (0%nat, GoesOn); (1%nat, Prints world); (2%nat, Prints long_text);
                               (0%nat, Ends); (1%nat, Ends); (2%nat, Ends)]) in
  session 2 tr = [] /\ (said 2 tr !! 0%nat, shown 2 tr !! 0%nat) = (Some (false, "a"%char), Some (false, "b"%char)).
Proof. vm_compute. done. Qed.
