(* ===== verification/ExecUnix.v ===== *)
(** * Running a command

    src/src/ExecUnix.cpp: the parent's half of [ExecuteProcess]. The child's
    output comes through two pipes, read in a loop around [select] and
    [waitpid], and goes to the terminal with growing sort keys. What the
    operating system answers in each round of the loop is an argument; the
    result has the calls of [TerminalIoEmit] in order, after which the job ends. *)

From stdpp Require Import pretty sorting.
From S2P Require Import Prelude TerminalIo TerminalThms.

Record ExecResult : Type := mkResult { er_ReturnCode : Z; er_WasSignalled : bool }.

(** What [pipe], [fork] and [fcntl] do: no child, or a child and the reading
    ends of its pipes. *)
Inductive spawn : Type :=
| SpawnFailed
| Spawned (stdout_fd stderr_fd : Z) (unblocked : bool).

(** [read] gives some bytes, or none and leaves some value in [errno]. *)
Inductive read_result : Type :=
| ReadBytes (text : cstr)
| ReadNothing (errno : Z).

Inductive wait_result : Type :=
| ChildRunning
| WaitFailed
| ChildStatus (status : Z).

(** One round of the loop: [select] fails or says which descriptors are ready,
    [read] of each, [waitpid]. *)
Record round : Type := mkRound {
  rd_select : option (Z -> bool);
  rd_read : Z -> read_result;
  rd_wait : wait_result }.

Definition EAGAIN : Z := 11.

(** What the call prints, and its return value. *)
Definition EmitData (is_stderr : bool) (sort_key : Z) (r : read_result) : list emission * Z :=
  match r with
  | ReadBytes text => ([mkEm is_stderr sort_key text], 0)
  | ReadNothing errno => ([], if EAGAIN =? errno then 0 else -1)
  end.

(** The status of a child, with the macros of <sys/wait.h> on Linux. *)
Definition WTERMSIG (status : Z) : Z := Z.land status 127.
Definition WIFSIGNALED (status : Z) : bool :=
  let x := Z.land status 127 + 1 in 0 <? Z.shiftr (if x <? 128 then x else x - 256) 1.
Definition WEXITSTATUS (status : Z) : Z := Z.shiftr (Z.land status 65280) 8.

(** The variables of the loop. *)
Record exec_state : Type := mkExec {
  ex_rfds : Z * Z;
  ex_rfd_count : Z;
  ex_sort_key : Z;
  ex_calls : list emission }.

(** The body of [for (fd = 0; fd < 2; ++fd)] after [select], for one descriptor:
    the descriptor, or 0 when it is done, and the rest of the state. *)
Definition poll_fd (r : round) (ready : Z -> bool) (is_stderr : bool) (fd count key : Z) (calls : list emission)
  : Z * Z * Z * list emission :=
  if negb (0 =? fd) && ready fd then
    let '(es, ret) := EmitData is_stderr key (rd_read r fd) in
    if negb (0 =? ret) then (0, count - 1, key + 1, calls ++ es) else (fd, count, key + 1, calls ++ es)
  else (fd, count, key, calls).

Definition poll_fds (r : round) (ready : Z -> bool) (s : exec_state) : exec_state :=
  let '(fd0, count, key, calls) := poll_fd r ready false (ex_rfds s).1 (ex_rfd_count s) (ex_sort_key s) (ex_calls s) in
  let '(fd1, count, key, calls) := poll_fd r ready true (ex_rfds s).2 count key calls in
  mkExec (fd0, fd1) count key calls.

(** The loop; when the rounds are used up it has not ended. *)
Fixpoint exec_loop (rounds : list round) (s : exec_state) : res (exec_state * Z) :=
  match rounds with
  | [] => Err OutOfFuel
  | r :: rounds =>
      let wait s :=
        match rd_wait r with
        | ChildRunning => exec_loop rounds s
        | WaitFailed => OK (s, 1)
        | ChildStatus status => OK (s, status)
        end in
      if 0 <? ex_rfd_count s then
        match rd_select r with
        | None => exec_loop rounds s
        | Some ready => wait (poll_fds r ready s)
        end
      else wait s
  end.

(** The announcements before the loop and the message after it. *)
Definition announcements (cmd_line : cstr) (echo_cmdline : bool) (annotation : option cstr) : list emission :=
  match annotation with Some text => [TerminalIoPrintf (-200) (text ++ [ascii_of_nat 10])] | None => [] end ++
  if echo_cmdline then [TerminalIoPrintf (-199) (cmd_line ++ [ascii_of_nat 10])] else [].

Definition INT_MAX : Z := 2 ^ 31 - 1.

Definition decode_status (cmd_line : cstr) (echo_cmdline : bool) (status : Z) : list emission * ExecResult :=
  if WIFSIGNALED status then
    ([TerminalIoPrintf INT_MAX
       ("child process exited on signal " ++ s2l (pretty (WTERMSIG status)) ++ ": " ++ cmd_line ++ [ascii_of_nat 10])],
     mkResult 1 true)
  else
    (if negb (0 =? WEXITSTATUS status) && negb echo_cmdline then
       [TerminalIoPrintf INT_MAX
         ("child process failed with exit code " ++ s2l (pretty (WEXITSTATUS status)) ++ ": " ++ cmd_line ++ [ascii_of_nat 10])]
     else [],
     mkResult (WEXITSTATUS status) false).

(** The calls of the terminal, in order, and the result; the flag says whether
    [TerminalIoJobExit] is called at the end. *)
Definition ExecuteProcess (start : spawn) (rounds : list round) (cmd_line : cstr) (echo_cmdline : bool) (annotation : option cstr)
  : res (list emission * bool * ExecResult) :=
  match start with
  | SpawnFailed => OK ([], false, mkResult 1 false)
  | Spawned stdout_fd stderr_fd unblocked =>
      if negb unblocked then Err (Croak "couldn't unblock fd %d")
      else
        '(s, status) ← exec_loop rounds (mkExec (stdout_fd, stderr_fd) 2 0 (announcements cmd_line echo_cmdline annotation));
        let '(message, result) := decode_status cmd_line echo_cmdline status in
        OK (ex_calls s ++ message, true, result)
  end.

(** ** The calls of one run *)

Definition fits (e : emission) : Prop := zlen (em_Data e) <= kLineBufSize - 1.

(** [read] gives at most the size it is asked for. *)
Definition reads_fit (r : round) : Prop := forall fd text, rd_read r fd = ReadBytes text -> zlen text <= 8191.

(** The calls so far: keys below the next one, growing, from [lo] on. *)
Record calls_ok (lo key : Z) (calls : list emission) : Prop := {
  co_range : Forall (fun e => lo <= em_SortKey e < key) calls;
  co_sorted : StronglySorted (fun a b => em_SortKey a < em_SortKey b) calls;
  co_fits : Forall fits calls }.

Lemma calls_snoc lo key key' calls e : calls_ok lo key calls -> lo <= key -> key <= em_SortKey e < key' -> fits e ->
  calls_ok lo key' (calls ++ [e]).
Proof.
  intros [Hr Hs Hf] Hlo He Hfit. split.
  - apply Forall_app. split; [|by repeat constructor; lia]. eapply Forall_impl; [exact Hr|]. cbn. lia.
  - clear Hf. induction Hs as [|a calls Hs IH Ha]; cbn; [by repeat constructor|]. apply Forall_cons in Hr as [Ha0 Hr].
    constructor; [by apply IH|]. apply Forall_app. split; [done|]. constructor; [lia|done].
  - apply Forall_app. split; [done | by repeat constructor].
Qed.

Lemma calls_later lo key key' calls : calls_ok lo key calls -> key <= key' -> calls_ok lo key' calls.
Proof. intros [Hr Hs Hf] Hk. split; [|done|done]. eapply Forall_impl; [exact Hr|]. cbn. lia. Qed.

Lemma poll_fd_ok r ready b fd count key calls lo : reads_fit r -> lo <= key -> calls_ok lo key calls ->
  let '(_, _, key', calls') := poll_fd r ready b fd count key calls in
  key <= key' <= key + 1 /\ calls_ok lo key' calls'.
Proof.
  intros Hr Hlo Hc. unfold poll_fd. destruct (_ && _); [|split; [lia|done]]. unfold EmitData.
  destruct (rd_read r fd) as [text|errno] eqn:E.
  - cbn. split; [lia|]. eapply calls_snoc; [done|done|cbn; lia|]. by apply (Hr fd).
  - rewrite app_nil_r. destruct (negb _); (split; [lia|]; eapply calls_later; [done|lia]).
Qed.

Lemma poll_fds_ok r ready s lo : reads_fit r -> lo <= ex_sort_key s -> calls_ok lo (ex_sort_key s) (ex_calls s) ->
  ex_sort_key s <= ex_sort_key (poll_fds r ready s) <= ex_sort_key s + 2 /\
  calls_ok lo (ex_sort_key (poll_fds r ready s)) (ex_calls (poll_fds r ready s)).
Proof.
  intros Hr Hlo Hc. unfold poll_fds.
  pose proof (poll_fd_ok r ready false (ex_rfds s).1 (ex_rfd_count s) _ _ _ Hr Hlo Hc) as H1.
  destruct (poll_fd _ _ false _ _ _ _) as [[[fd0 c0] k0] l0]. destruct H1 as [Hk0 Hc0].
  pose proof (poll_fd_ok r ready true (ex_rfds s).2 c0 k0 l0 lo Hr ltac:(lia) Hc0) as H2.
  destruct (poll_fd _ _ true _ _ _ _) as [[[fd1 c1] k1] l1]. destruct H2 as [Hk1 Hc1]. cbn. split; [lia|done].
Qed.

Lemma exec_loop_ok rounds s s' status lo : exec_loop rounds s = OK (s', status) -> Forall reads_fit rounds ->
  lo <= ex_sort_key s -> calls_ok lo (ex_sort_key s) (ex_calls s) ->
  ex_sort_key s <= ex_sort_key s' <= ex_sort_key s + 2 * zlen rounds /\ calls_ok lo (ex_sort_key s') (ex_calls s').
Proof.
  revert s. induction rounds as [|r rounds IH]; intros s Hl Hr Hlo Hc; [done|]. apply Forall_cons in Hr as [Hr Hrs].
  assert (forall s1, ex_sort_key s <= ex_sort_key s1 <= ex_sort_key s + 2 -> calls_ok lo (ex_sort_key s1) (ex_calls s1) ->
    match rd_wait r with
    | ChildRunning => exec_loop rounds s1
    | WaitFailed => OK (s1, 1)
    | ChildStatus status => OK (s1, status)
    end = OK (s', status) ->
    ex_sort_key s <= ex_sort_key s' <= ex_sort_key s + 2 * zlen (r :: rounds) /\ calls_ok lo (ex_sort_key s') (ex_calls s')) as Hwait.
  { intros s1 Hk Hc1 Hw. cbn [length]. destruct (rd_wait r); simplify_eq; [|split; [lia|done]..].
    destruct (IH s1 Hw Hrs ltac:(lia) Hc1) as [? ?]. split; [lia|done]. }
  cbn [exec_loop] in Hl. destruct (0 <? ex_rfd_count s); [|apply (Hwait s); [lia|done|done]].
  destruct (rd_select r) as [ready|]; [|destruct (IH s Hl Hrs Hlo Hc) as [? ?]; split; [cbn [length]; lia|done]].
  destruct (poll_fds_ok r ready s lo Hr Hlo Hc) as [? ?]. by apply (Hwait (poll_fds r ready s)).
Qed.

(** A decimal number below 256 has at most three digits. *)
Lemma pretty_short z : 0 <= z < 256 -> zlen (s2l (pretty z)) <= 3.
Proof.
  intros Hz. assert (Forall (fun z => zlen (s2l (pretty z)) <=? 3) (seqZ 0 256)) as H.
  { apply forallb_True. vm_compute. done. }
  rewrite Forall_forall in H. apply Z.leb_le, Is_true_true, H, elem_of_seqZ. lia.
Qed.

Lemma status_range status : 0 <= WTERMSIG status < 256 /\ 0 <= WEXITSTATUS status < 256.
Proof.
  unfold WTERMSIG, WEXITSTATUS. replace 127 with (Z.ones 7) by done. rewrite Z.land_ones by lia.
  pose proof (Z.mod_pos_bound status (2 ^ 7)). split; [lia|].
  replace 65280 with (Z.shiftl (Z.ones 8) 8) by done. rewrite Z.shiftr_land, Z.shiftr_shiftl_l, Z.sub_diag, Z.shiftl_0_r by lia.
  rewrite Z.land_ones by lia. pose proof (Z.mod_pos_bound (Z.shiftr status 8) (2 ^ 8)). lia.
Qed.

Lemma printf_fits key text : zlen text <= 8191 -> fits (TerminalIoPrintf key text).
Proof. intros. unfold fits, kLineBufSize. cbn [em_Data TerminalIoPrintf]. rewrite length_take. lia. Qed.

(** The whole list of calls is in the order of the keys, over the range of an
    [int] difference, when what is announced before the loop and what is
    reported after it do not both occur. A command that was announced and then
    fails is reported with the largest key, the announcement has -200, and the
    difference that [CompareBuffers] of TerminalIo.cpp takes of the two does not
    fit an [int]: the order of these two is undefined in C, and such runs are left
    out where this is assumed ([failure_before_annotation] is what wrapping
    arithmetic makes of one). *)
Definition no_far_keys (echo_cmdline : bool) (annotation : option cstr) (r : ExecResult) : Prop :=
  (annotation = None /\ echo_cmdline = false) \/
  (er_WasSignalled r = false /\ (er_ReturnCode r = 0 \/ echo_cmdline = true)).

Lemma calls_near lo key calls : calls_ok lo key calls -> key <= lo + 2 ^ 31 -> StronglySorted near calls.
Proof.
  intros [Hr Hs _] Hk. induction Hs as [|a calls Hs IH Ha]; [constructor|]. apply Forall_cons in Hr as [Ha0 Hr].
  constructor; [by apply IH|]. rewrite Forall_forall in *. intros b Hb. specialize (Ha b Hb). specialize (Hr b Hb).
  cbn in *. unfold near. lia.
Qed.

Lemma announcements_ok cmd_line echo annotation : zlen cmd_line <= 8000 -> (forall text, annotation = Some text -> zlen text <= 8000) ->
  calls_ok (-200) 0 (announcements cmd_line echo annotation).
Proof.
  intros Hc Ha. unfold announcements.
  assert (forall key text, zlen text <= 8000 -> fits (TerminalIoPrintf key (text ++ [ascii_of_nat 10]))) as Hf.
  { intros. apply printf_fits. rewrite length_app. cbn. lia. }
  destruct annotation as [text|], echo; cbn; split; repeat constructor; cbn; try lia; try by apply Hf. all: by apply Hf, Ha.
Qed.

(** The message after the loop, and when there is one. *)
Lemma decode_message cmd_line echo status message r : decode_status cmd_line echo status = (message, r) -> zlen cmd_line <= 8000 ->
  message = [] \/
  (exists m, message = [m] /\ em_SortKey m = INT_MAX /\ fits m) /\
  (er_WasSignalled r = true \/ er_ReturnCode r <> 0 /\ echo = false).
Proof.
  intros Hd Hc. destruct (status_range status) as [Ht He].
  assert (forall (text : cstr) z, 0 <= z < 256 -> zlen text <= 64 ->
    fits (TerminalIoPrintf INT_MAX (text ++ s2l (pretty z) ++ s2l ": " ++ cmd_line ++ [ascii_of_nat 10]))) as Hf.
  { intros text z Hz Ht'. apply printf_fits. pose proof (pretty_short z Hz). rewrite !length_app. cbn [length s2l String.list_ascii_of_string]. lia. }
  unfold decode_status in Hd. destruct (WIFSIGNALED status); simplify_eq.
  - right. split; [|by left]. eexists. split_and!; [done|done|]. apply Hf; [done|cbn; lia].
  - destruct (_ && _) eqn:E; simplify_eq; [right|by left]. zbool. split; [|right; cbn; split; [lia|done]].
    eexists. split_and!; [done|done|]. apply Hf; [done|cbn; lia].
Qed.

Theorem exec_calls_in_order start rounds cmd_line echo annotation es ended r :
  ExecuteProcess start rounds cmd_line echo annotation = OK (es, ended, r) ->
  Forall reads_fit rounds -> 2 * zlen rounds < 2 ^ 31 - 200 ->
  zlen cmd_line <= 8000 -> (forall text, annotation = Some text -> zlen text <= 8000) ->
  no_far_keys echo annotation r ->
  StronglySorted near es /\ Forall fits es.
Proof.
  intros He Hr Hn Hc Ha Hfar. unfold ExecuteProcess in He. destruct start as [|out err unblocked]; [by simplify_eq; repeat constructor|].
  destruct unblocked; [|done]. cbn [negb] in He.
  destruct (exec_loop _ _) as [[s status]|] eqn:El; [|done]. cbn [mbind res_bind] in He.
  destruct (decode_status cmd_line echo status) as [message result] eqn:Ed. simplify_eq.
  destruct (exec_loop_ok _ _ _ _ (-200) El Hr) as [Hk Hcalls]; [cbn; lia|by apply announcements_ok|]. cbn in Hk.
  destruct (decode_message _ _ _ _ _ Ed Hc) as [->|((m & -> & Hmk & Hmf) & Hfail)].
  - rewrite app_nil_r. split; [eapply calls_near; [done|lia]|apply Hcalls].
  - assert (annotation = None /\ echo = false) as [-> ->].
    { destruct Hfar as [?|[Hs Hrc]]; [done|]. destruct Hfail as [?|[? ?]]; [congruence|]. destruct Hrc; congruence. }
    destruct (exec_loop_ok _ _ _ _ 0 El Hr) as [_ Hcalls0]; [done|by repeat constructor|].
    unfold INT_MAX in Hmk.
    assert (calls_ok 0 (2 ^ 31) (ex_calls s ++ [m])) as Hall by (eapply calls_snoc; [done|lia|lia|done]).
    split; [eapply calls_near; [done|lia]|apply Hall].
Qed.

(** ** Jobs that run commands *)

(** The calls of some run of [ExecuteProcess] whose texts are short and in
    which nothing is both announced and reported. *)
Definition exec_run (es : list emission) : Prop :=
  exists start rounds cmd_line echo annotation ended r,
    ExecuteProcess start rounds cmd_line echo annotation = OK (es, ended, r) /\
    Forall reads_fit rounds /\ 2 * zlen rounds < 2 ^ 31 - 200 /\
    zlen cmd_line <= 8000 /\ (forall text, annotation = Some text -> zlen text <= 8000) /\
    no_far_keys echo annotation r.

(** Every job makes the calls of a run, ends, and makes those of the next. *)
Fixpoint runs_commands (trace : list entry) : Prop :=
  match trace with
  | [] => True
  | Called j e :: trace => (exists es later, exec_run es /\ es = rev (session j trace) ++ e :: later) /\ runs_commands trace
  | _ :: trace => runs_commands trace
  end.

Lemma near_split es pre e later : StronglySorted near es -> Forall fits es -> es = pre ++ e :: later -> call_ok e (rev pre).
Proof.
  intros Hs Hf ->. split; [by apply Forall_app in Hf as [_ [? _]%Forall_cons]|]. apply Forall_rev. apply Forall_forall. intros a Ha.
  clear Hf. induction pre as [|b pre IH]; [by apply not_elem_of_nil in Ha|]. cbn in Hs. apply StronglySorted_inv in Hs as [Hs Hb].
  apply elem_of_cons in Ha as [->|Ha]; [|by apply IH]. rewrite Forall_forall in Hb. apply Hb. set_solver.
Qed.

Lemma commands_disciplined trace : runs_commands trace -> disciplined trace.
Proof.
  induction trace as [|[j e|j w|j] trace IH]; cbn; try done. intros [(es & later & Hr & Hes) Ht]. split; [|by apply IH].
  destruct Hr as (start & rounds & cmd_line & echo & annotation & ended & r & He & Hf & Hn & Hc & Ha & Hfar).
  destruct (exec_calls_in_order _ _ _ _ _ _ _ _ He Hf Hn Hc Ha Hfar) as [Hs Hfit].
  rewrite <- (rev_involutive (session j trace)). by eapply near_split.
Qed.

(** C15. Jobs run commands at the same time, in any interleaving, on these
    conditions ([exec_run]): a command that was announced, by its annotation or its
    command line, succeeds or is one whose failure is not reported ([no_far_keys]:
    the keys of the two texts are too far apart for the comparison of
    TerminalIo.cpp, [failure_before_annotation]); and an announcement has at most
    8000 characters ([long_text_swapped] has a longer one). Then what they print
    does not mix, what is on the terminal of what was read from a job's pipes is
    the beginning of it, standard output and error in the order they were read,
    and when the job has ended all that was read is there. (What the child left
    in a pipe when it was waited for is not read, [unread_output_lost].) *)
Theorem exec_output_shown `{QSort} n s : term_reachable n s -> runs_commands (ts_trace s) ->
  linear (ts_trace s) /\
  forall j, (j < n)%nat ->
    (exists rest, said j (ts_trace s) = shown j (ts_trace s) ++ rest) /\
    (session j (ts_trace s) = [] -> said j (ts_trace s) = shown j (ts_trace s)).
Proof. intros Hr Hc. by apply terminal_output_linear; [|apply commands_disciplined]. Qed.

(** C16. Jobs that run commands never fault in the terminal and are never left
    asleep: somebody is about to wake everybody, or a job that is not waiting
    has the terminal. The commands are those of the theorem before: one that was
    announced succeeds or is one whose failure is not reported, because the
    comparison of the keys of the two texts overflows an [int] ([no_far_keys]),
    and an announcement has at most 8000 characters. *)
Theorem exec_jobs_progress `{QSort} n s i p : term_reachable n s -> runs_commands (ts_trace s) -> ts_jobs s !! i = Some p ->
  match p with
  | JobOutside =>
      (forall e, runs_commands (Called i e :: ts_trace s) ->
        exists r, TerminalIoEmit (Z.of_nat i) e (em_Data e) (ts_term s) = OK r) /\
      exists r, TerminalIoJobExit (Z.of_nat i) (ts_term s) = OK r
  | JobEmitWoken e data => exists r, TerminalIoEmit (Z.of_nat i) e data (ts_term s) = OK r
  | JobExitWoken => exists r, JobExit_wait (Z.of_nat i) (ts_term s) = OK r
  | JobWrites _ _ | JobBroadcasts => True
  | JobEmitSleeps _ _ | JobExitSleeps =>
      (exists k, ts_jobs s !! k = Some JobBroadcasts) \/
      exists k q, s_PrintingJobIndex (ts_term s) = Z.of_nat k /\ ts_jobs s !! k = Some q /\
        (q = JobOutside \/ exists str data, q = JobWrites str data)
  end.
Proof.
  intros Hr Hc Hp. pose proof (commands_disciplined _ Hc) as Hd. pose proof (terminal_never_faults n s i p Hr Hd Hp) as Hf.
  destruct p; try done; [|by eapply terminal_no_lost_wakeup..]. destruct Hf as [Hf Hx]. split; [|done]. intros e He.
  apply Hf. by apply commands_disciplined in He as [? _].
Qed.

(** ** The result *)

(** The loop ends with the first round in which [waitpid] has an answer and
    [select] did not fail, and it ends when there is one. *)
Lemma exec_loop_status rounds s s' status : exec_loop rounds s = OK (s', status) ->
  exists r, r ∈ rounds /\ (rd_wait r = ChildStatus status \/ rd_wait r = WaitFailed /\ status = 1).
Proof.
  revert s. induction rounds as [|r rounds IH]; intros s Hl; [done|]. cbn [exec_loop] in Hl.
  assert (forall s1, exec_loop rounds s1 = OK (s', status) ->
    exists r0, r0 ∈ r :: rounds /\ (rd_wait r0 = ChildStatus status \/ rd_wait r0 = WaitFailed /\ status = 1)) as Hrest.
  { intros s1 H1. destruct (IH s1 H1) as (r0 & Hin & Hr0). exists r0. split; [by right|done]. }
  destruct (0 <? _); [destruct (rd_select r) as [ready|]; [|by eapply Hrest]|]; destruct (rd_wait r) eqn:E; simplify_eq;
    (by eapply Hrest) || (exists r; split; [left|]; tauto).
Qed.

Lemma exec_loop_ends rounds : (exists r, r ∈ rounds /\ rd_select r <> None /\ rd_wait r <> ChildRunning) ->
  forall s, exists s' status, exec_loop rounds s = OK (s', status).
Proof.
  induction rounds as [|r rounds IH]; intros (r0 & Hin & Hs & Hw) s; [by apply not_elem_of_nil in Hin|]. cbn [exec_loop].
  apply elem_of_cons in Hin as [<-|Hin].
  - destruct (0 <? _); [destruct (rd_select r0) as [ready|]; [|done]|]; destruct (rd_wait r0); eauto; done.
  - assert (forall s1, exists s' status, exec_loop rounds s1 = OK (s', status)) as Hrest by (intros; apply IH; eauto).
    destruct (0 <? _); [destruct (rd_select r) as [ready|]; [|apply Hrest]|]; destruct (rd_wait r); eauto.
Qed.

(** The call returns once the child is waited for, and reports success exactly
    when the child exited with status zero; every run of a child ends the job. *)
Theorem exec_result_exact out err rounds cmd_line echo annotation :
  (exists r, r ∈ rounds /\ rd_select r <> None /\ rd_wait r <> ChildRunning) ->
  exists es result r, ExecuteProcess (Spawned out err true) rounds cmd_line echo annotation = OK (es, true, result) /\
    r ∈ rounds /\ rd_wait r <> ChildRunning /\
    (er_ReturnCode result = 0 <->
     exists status, rd_wait r = ChildStatus status /\ WIFSIGNALED status = false /\ WEXITSTATUS status = 0) /\
    (er_WasSignalled result = true <->
     rd_wait r = WaitFailed \/ exists status, rd_wait r = ChildStatus status /\ WIFSIGNALED status = true).
Proof.
  intros Hends. cbn [ExecuteProcess negb].
  destruct (exec_loop_ends rounds Hends (mkExec (out, err) 2 0 (announcements cmd_line echo annotation))) as (s & status & Hl).
  rewrite Hl. cbn [mbind res_bind]. destruct (exec_loop_status _ _ _ _ Hl) as (r & Hr & Hw).
  unfold decode_status. destruct (WIFSIGNALED status) eqn:E.
  - eexists _, _, r. cbn. split_and!; [done|done|by destruct Hw as [->|[-> _]]| |].
    + split; [done|]. intros (st & Hst & H1 & _). destruct Hw as [Hw|[Hw ->]]; congruence.
    + split; [|done]. intros _. destruct Hw as [Hw|[Hw _]]; [right; eauto|by left].
  - assert (rd_wait r = ChildStatus status) as Hst by (destruct Hw as [?|[? ->]]; done).
    eexists _, _, r. rewrite Hst. cbn. split_and!; [done|done|done| |].
    + split; [eauto|]. by intros (st & [= <-] & _ & ?).
    + split; [done|]. intros [?|(st & [= <-] & ?)]; congruence.
Qed.

(** ** Examples *)

Definition no_bytes (fd : Z) : read_result := ReadNothing 0.

(** The child prints and exits with status 0 or 3. *)
Definition rounds_of (fd : Z) (text : cstr) (status : Z) : list round :=
  [mkRound (Some (Z.eqb fd)) (fun _ => ReadBytes text) ChildRunning; mkRound None no_bytes ChildRunning;
   mkRound (Some (fun _ => true)) no_bytes (ChildStatus status)].

Definition hello_run : list emission := [hello].
Definition world_failed : emission :=
  TerminalIoPrintf INT_MAX (s2l "child process failed with exit code 3: b" ++ [ascii_of_nat 10]).
Definition world_run : list emission := [world; world_failed].

Lemma rounds_fit fd text status : zlen text <= 8191 -> Forall reads_fit (rounds_of fd text status).
Proof. intros. repeat constructor; intros fd' text' [=]; by subst. Qed.

Lemma hello_run_ok : exec_run hello_run.
Proof.
  eexists (Spawned 3 5 true), (rounds_of 3 (s2l "hello") 0), (s2l "a"), false, None, _, _.
  split_and!; [vm_compute; reflexivity|by apply rounds_fit|done..|]. by left.
Qed.

Lemma world_run_ok : exec_run world_run.
Proof.
  eexists (Spawned 3 5 true), (rounds_of 5 (s2l "world") 768), (s2l "b"), false, None, _, _.
  split_and!; [vm_compute; reflexivity|by apply rounds_fit|done..|]. by left.
Qed.

Definition two_commands : term_sys :=
  after 2 [(0%nat, Prints hello); (1%nat, Prints world); (0%nat, GoesOn); (1%nat, Prints world_failed);
           (1%nat, Ends); (0%nat, Ends); (0%nat, GoesOn); (1%nat, GoesOn)].

Lemma two_commands_run : runs_commands (ts_trace two_commands).
Proof.
  assert (ts_trace two_commands = rev
    [Called 0 hello; Called 1 world; Wrote 0 (false, s2l "hello"); Called 1 world_failed; Exited 0;
     Wrote 1 (true, s2l "world"); Wrote 1 (false, em_Data world_failed); Exited 1]) as -> by (vm_compute; reflexivity).
  cbn. split_and!; [|exists world_run, (tail world_run)|exists hello_run, []|done].
  - exists world_run, []. split; [apply world_run_ok|done].
  - split; [apply world_run_ok|done].
  - split; [apply hello_run_ok|done].
Qed.

Lemma exec_output_shown_witness :
  said 1 (ts_trace two_commands) = shown 1 (ts_trace two_commands) /\ said 1 (ts_trace two_commands) = world_run ≫= em_bytes.
Proof.
  destruct (exec_output_shown 2 two_commands (after_reachable _ _) two_commands_run) as [_ Hj].
  split; [apply (Hj 1%nat); [lia | vm_compute; reflexivity] | vm_compute; reflexivity].
Defined.

(** Job 1 has asked to end and sleeps; job 0 has the terminal. *)
Definition one_waits : term_sys :=
  after 2 [(0%nat, Prints hello); (1%nat, Prints world); (1%nat, Ends)].

Lemma exec_jobs_progress_witness :
  (exists k, ts_jobs one_waits !! k = Some JobBroadcasts) \/
  exists k q, s_PrintingJobIndex (ts_term one_waits) = Z.of_nat k /\ ts_jobs one_waits !! k = Some q /\
    (q = JobOutside \/ exists str data, q = JobWrites str data).
Proof.
  apply (exec_jobs_progress 2 one_waits 1 JobExitSleeps); [apply after_reachable| |vm_compute; reflexivity].
  assert (ts_trace one_waits = rev [Called 0 hello; Called 1 world]) as -> by (vm_compute; reflexivity).
  cbn. split_and!; [exists world_run, [world_failed]|exists hello_run, []|done].
  - split; [apply world_run_ok|done].
  - split; [apply hello_run_ok|done].
Defined.

Lemma exec_result_exact_witness :
  exists es result r, ExecuteProcess (Spawned 3 5 true) (rounds_of 3 (s2l "hello") 0) (s2l "a") false None = OK (es, true, result) /\
    r ∈ rounds_of 3 (s2l "hello") 0 /\ rd_wait r <> ChildRunning /\
    (er_ReturnCode result = 0 <->
     exists status, rd_wait r = ChildStatus status /\ WIFSIGNALED status = false /\ WEXITSTATUS status = 0) /\
    (er_WasSignalled result = true <->
     rd_wait r = WaitFailed \/ exists status, rd_wait r = ChildStatus status /\ WIFSIGNALED status = true).
Proof.
  apply exec_result_exact. eexists. split; [right; right; left|]. done.
Defined.

(** A failing [waitpid] is reported as a signal. *)
Lemma wait_failure_is_a_signal rounds cmd_line echo annotation :
  exists es, ExecuteProcess (Spawned 3 5 true) (mkRound (Some (fun _ => false)) no_bytes WaitFailed :: rounds) cmd_line echo annotation =
    OK (es, true, mkResult 1 true).
Proof. by eexists. Qed.

(** What is still in the pipes when the child is waited for is not printed. *)
Lemma unread_output_lost rounds :
  ExecuteProcess (Spawned 3 5 true) (mkRound (Some (Z.eqb 3)) (fun _ => ReadBytes (s2l "first part")) (ChildStatus 0) :: rounds)
    (s2l "a") false None = OK ([mkEm false 0 (s2l "first part")], true, mkResult 0 false).
Proof. done. Qed.
