(* ===== verification/Win32Env.v ===== *)
(** * The environment of a command on Windows

    src/src/ExecWin32.cpp, the part about the environment: [ExecInit] cuts the
    block of the system into bindings, and [MakeEnvBlock] writes the block of a
    child, which is the environment of the process with the variables of the
    node over it. The block is UTF-8; its conversion from and to the characters
    of the system is the system's. *)

From S2P Require Import Prelude CType.

(** A name and a value. *)
Abbreviation binding := (cstr * cstr)%type.

(** ** The environment *)

(** [strchr], and the two pieces it makes. *)
Fixpoint cut_at (d : ascii) (s : cstr) : option (cstr * cstr) :=
  match s with
  | [] => None
  | c :: s' => if Ascii.eqb c d then Some ([], s') else '(a, b) ← cut_at d s'; Some (c :: a, b)
  end.

(** A string in an array: what is before its terminator, and what is after. *)
Definition cut_string (s : cstr) : option (cstr * cstr) := cut_at NUL s.

(** [strchr(env, '=')]. *)
Definition split_binding (s : cstr) : option binding := cut_at "="%char s.

Definition kWin32EnvSize : Z := 1024.

(** The loop of [ExecInit] over the block of strings: the bindings in it, up to
    the empty string or the size of the table. Strings without a name are left
    out. *)
Fixpoint read_env (fuel : nat) (env : cstr) (table : list binding) : res (list binding) :=
  match env with
  | [] => Err OutOfBounds
  | c :: _ =>
      if negb (Ascii.eqb c NUL) && (zlen table <? kWin32EnvSize) then
        match fuel with
        | O => Err OutOfFuel
        | S fuel =>
            '(s, rest) ← of_opt (cut_string env);
            read_env fuel rest
              (match split_binding s with
               | Some (name, value) => if bool_decide (name = []) then table else table ++ [(name, value)]
               | None => table
               end)
        end
      else OK table
  end.

Definition ExecInit_env (env : cstr) : res (list binding) := read_env (length env) env [].

(** ** The block for a child *)

(** [block] is what has been written, the cursor its length. *)
Definition AppendEnvVar (block_size : Z) (block : cstr) (name value : cstr) : option cstr :=
  if block_size <? zlen block + zlen name + zlen value + 2 then None
  else Some (block ++ name ++ "="%char :: value ++ [NUL]).

(** [_memicmp] of two names of the same length. *)
Definition same_name (a b : cstr) : bool := (zlen a =? zlen b) && bool_decide (map tolower a = map tolower b).

(** The loop over the variables of the node: the first unused one of that name. *)
Fixpoint find_override (x : nat) (used : list bool) (vars : list binding) (name : cstr) : option (nat * binding) :=
  match used, vars with
  | u :: used', v :: vars' =>
      if negb u && same_name v.1 name then Some (x, v) else find_override (S x) used' vars' name
  | _, _ => None
  end.

Fixpoint emit_windows (size : Z) (vars : list binding) (win : list binding) (used : list bool) (block : cstr)
  : option (list bool * cstr) :=
  match win with
  | [] => Some (used, block)
  | (name, value) :: win' =>
      match find_override 0 used vars name with
      | Some (x, v) => block ← AppendEnvVar size block v.1 v.2; emit_windows size vars win' (<[x := true]> used) block
      | None => block ← AppendEnvVar size block name value; emit_windows size vars win' used block
      end
  end.

Fixpoint emit_rest (size : Z) (vars : list binding) (used : list bool) (block : cstr) : option cstr :=
  match vars, used with
  | v :: vars', u :: used' =>
      if u : bool then emit_rest size vars' used' block
      else block ← AppendEnvVar size block v.1 v.2; emit_rest size vars' used' block
  | _, _ => Some block
  end.

Definition MakeEnvBlock (size : Z) (win vars : list binding) : option cstr :=
  if kWin32EnvSize <? zlen vars then None
  else
    '(used, block) ← emit_windows size vars win (replicate (length vars) false) [];
    block ← emit_rest size vars used block;
    Some (block ++ [NUL; NUL]).

(** ** What the block stands for *)

(** The bindings it is made of: those of Windows with the overrides in their
    places, then the rest of the overrides. *)
Fixpoint merge_windows (vars : list binding) (win : list binding) (used : list bool) : list bool * list binding :=
  match win with
  | [] => (used, [])
  | (name, value) :: win' =>
      match find_override 0 used vars name with
      | Some (x, v) => let '(used, out) := merge_windows vars win' (<[x := true]> used) in (used, v :: out)
      | None => let '(used, out) := merge_windows vars win' used in (used, (name, value) :: out)
      end
  end.

Fixpoint unused (vars : list binding) (used : list bool) : list binding :=
  match vars, used with
  | v :: vars', u :: used' => if u : bool then unused vars' used' else v :: unused vars' used'
  | _, _ => []
  end.

Definition merged (win vars : list binding) : list binding :=
  let '(used, out) := merge_windows vars win (replicate (length vars) false) in out ++ unused vars used.

Definition encode (b : binding) : cstr := b.1 ++ "="%char :: b.2 ++ [NUL].

(** The value of a variable, whose name does not depend on case. *)
Fixpoint env_lookup (env : list binding) (name : cstr) : option cstr :=
  match env with
  | [] => None
  | (n, v) :: env' => if same_name n name then Some v else env_lookup env' name
  end.

Definition binding_ok (b : binding) : Prop := b.1 <> [] /\ Forall (fun c => c <> NUL /\ c <> "="%char) b.1 /\ cstr_ok b.2.

(** ** Lemmas *)

Lemma same_name_sym a b : same_name a b = same_name b a.
Proof. unfold same_name. rewrite Z.eqb_sym. f_equal. apply bool_decide_ext. split; congruence. Qed.

Lemma same_name_trans a b c : same_name a b = true -> same_name b c = same_name a c.
Proof.
  unfold same_name. intros [Hl Hn]%andb_true_iff. apply Z.eqb_eq in Hl. apply bool_decide_eq_true in Hn. by rewrite Hl, Hn.
Qed.

Lemma emit_windows_ok size vars : forall win used block r,
  emit_windows size vars win used block = Some r -> r = ((merge_windows vars win used).1, block ++ concat (map encode (merge_windows vars win used).2)).
Proof.
  induction win as [|[name value] win IH]; intros used block r Hr; cbn in *; [simplify_eq; by rewrite app_nil_r|].
  destruct (find_override 0 used vars name) as [[x v]|]; unfold AppendEnvVar in Hr; cbn in Hr; case_match; try done; cbn in Hr; apply IH in Hr; subst.
  - destruct (merge_windows vars win (<[x := true]> used)). cbn. f_equal. unfold encode. rewrite <- !app_assoc. cbn. by rewrite <- app_assoc.
  - destruct (merge_windows vars win used). cbn. f_equal. unfold encode. rewrite <- !app_assoc. cbn. by rewrite <- app_assoc.
Qed.

Lemma emit_rest_ok size : forall vars used block r, emit_rest size vars used block = Some r -> r = block ++ concat (map encode (unused vars used)).
Proof.
  induction vars as [|v vars IH]; intros [|u used] block r Hr; cbn in *; try (simplify_eq; by rewrite app_nil_r).
  destruct u; [by apply IH|]. unfold AppendEnvVar in Hr. case_match; [done|]. cbn in Hr. apply IH in Hr. subst. cbn.
  unfold encode at 2. rewrite <- !app_assoc. cbn. by rewrite <- app_assoc.
Qed.

Lemma MakeEnvBlock_ok size win vars block : MakeEnvBlock size win vars = Some block ->
  block = concat (map encode (merged win vars)) ++ [NUL; NUL].
Proof.
  unfold MakeEnvBlock, merged. case_match; [done|]. destruct (emit_windows _ _ _ _ _) as [[used b1]|] eqn:E1; [|done]. cbn.
  apply emit_windows_ok in E1. destruct (merge_windows vars win _) as [used' out]. cbn in E1. simplify_eq.
  destruct (emit_rest _ _ _ _) as [b2|] eqn:E2; [|done]. cbn. intros [= <-]. apply emit_rest_ok in E2. subst.
  by rewrite map_app, concat_app.
Qed.

Lemma cut_at_app d a b : Forall (fun c => c <> d) a -> cut_at d (a ++ d :: b) = Some (a, b).
Proof.
  induction 1 as [|c s Hc Hs IH]; cbn; [by rewrite Ascii.eqb_refl|]. rewrite (proj2 (Ascii.eqb_neq c d) Hc), IH. done.
Qed.

Lemma split_encode name value : Forall (fun c => c <> NUL /\ c <> "="%char) name -> split_binding (name ++ "="%char :: value) = Some (name, value).
Proof. intros H. apply cut_at_app. eapply Forall_impl; [exact H|]. naive_solver. Qed.

(** Reading back what was written. *)
Lemma read_env_encoded bs : forall fuel table, Forall binding_ok bs -> zlen table + zlen bs <= kWin32EnvSize -> (length bs <= fuel)%nat ->
  read_env fuel (concat (map encode bs) ++ [NUL; NUL]) table = OK (table ++ bs).
Proof.
  induction bs as [|[name value] bs IH]; intros fuel table Hok Hsize Hfuel; cbn [map concat app].
  { rewrite app_nil_r. by destruct fuel. }
  apply Forall_cons in Hok as [(Hne & Hname & Hvalue) Hok]. cbn [length] in Hsize, Hfuel. destruct fuel as [|fuel]; [lia|].
  unfold encode at 1. cbn [fst snd] in *. rewrite <- !app_assoc. cbn [app].
  destruct name as [|c name]; [done|]. cbn [app read_env]. pose proof Hname as [[Hc _] _]%Forall_cons.
  rewrite (proj2 (Ascii.eqb_neq c NUL) Hc). cbn [negb andb]. rewrite (proj2 (Z.ltb_lt _ _)) by lia.
  change (c :: name ++ "="%char :: (value ++ [NUL]) ++ concat (map encode bs) ++ [NUL; NUL]) with
    ((c :: name) ++ "="%char :: (value ++ [NUL]) ++ concat (map encode bs) ++ [NUL; NUL]).
  replace ((c :: name) ++ "="%char :: (value ++ [NUL]) ++ concat (map encode bs) ++ [NUL; NUL]) with
    (((c :: name) ++ "="%char :: value) ++ NUL :: concat (map encode bs) ++ [NUL; NUL]) by (rewrite <- !app_assoc; done).
  unfold cut_string. rewrite cut_at_app.
  2: { apply Forall_app. split; [eapply Forall_impl; [exact Hname|]; naive_solver|]. constructor; [discriminate|done]. }
  cbn [of_opt mbind res_bind]. rewrite split_encode by done. rewrite bool_decide_false by done.
  rewrite IH; [by rewrite <- app_assoc|done|rewrite length_app; cbn [length]; lia|lia].
Qed.

(** ** Overrides *)

Lemma find_override_some vars : forall used x0 name x v, find_override x0 used vars name = Some (x, v) ->
  exists k, x = (x0 + k)%nat /\ vars !! k = Some v /\ used !! k = Some false /\ same_name v.1 name = true /\
    forall k' v', (k' < k)%nat -> vars !! k' = Some v' -> used !! k' = Some true \/ same_name v'.1 name = false.
Proof.
  induction vars as [|w vars IH]; intros [|u used] x0 name x v Hf; try done. cbn in Hf.
  destruct (negb u && same_name w.1 name) eqn:E.
  - simplify_eq. apply andb_true_iff in E as [E1 E2]. exists 0%nat. split_and!; [lia|done|by destruct u|done|lia].
  - destruct (IH _ _ _ _ _ Hf) as (k & -> & Hk & Hu & Hn & Hb). exists (S k). split_and!; [lia|done|done|done|].
    intros [|k'] v' Hlt Hv'; cbn in *; [|apply (Hb k'); [lia|done]]. simplify_eq. apply andb_false_iff in E as [E|E]; [left; by destruct u|by right].
Qed.

Lemma find_override_none vars : forall used x0 name, length used = length vars -> find_override x0 used vars name = None ->
  forall k v, vars !! k = Some v -> used !! k = Some true \/ same_name v.1 name = false.
Proof.
  induction vars as [|w vars IH]; intros [|u used] x0 name Hl Hf k v Hk; try done. cbn in Hf.
  destruct (negb u && same_name w.1 name) eqn:E; [done|]. apply andb_false_iff in E.
  destruct k as [|k]; cbn in *; [simplify_eq; destruct E as [E|E]; [left; by destruct u|by right]|]. apply (IH used (S x0) name); [lia|done|done].
Qed.

Lemma env_lookup_app a b name : env_lookup (a ++ b) name = match env_lookup a name with Some v => Some v | None => env_lookup b name end.
Proof. induction a as [|[n v] a IH]; cbn; [done|]. by destruct (same_name n name). Qed.

(** The first of the bindings of a name is its value. *)
Lemma env_lookup_first env : forall k v name, env !! k = Some v -> same_name v.1 name = true ->
  (forall k' v', (k' < k)%nat -> env !! k' = Some v' -> same_name v'.1 name = false) -> env_lookup env name = Some v.2.
Proof.
  induction env as [|[n w] env IH]; intros k v name Hk Hv Hb; [done|]. destruct k as [|k]; cbn in *; [by simplify_eq; cbn in *; rewrite Hv|].
  pose proof (Hb 0%nat (n, w) ltac:(lia) eq_refl) as Hn. cbn in Hn. rewrite Hn. apply (IH k v); [done..|]. intros k' v' Hlt Hv'. apply (Hb (S k')); [lia|done].
Qed.

Lemma env_lookup_none env name : (forall k v, env !! k = Some v -> same_name v.1 name = false) -> env_lookup env name = None.
Proof.
  induction env as [|[n w] env IH]; intros H; cbn; [done|]. pose proof (H 0%nat (n, w) eq_refl) as Hn. cbn in Hn. rewrite Hn. apply IH. intros k. apply (H (S k)).
Qed.

(** No variable of that name has been used. *)
Definition fresh (vars : list binding) (used : list bool) (name : cstr) : Prop :=
  forall k v, vars !! k = Some v -> same_name v.1 name = true -> used !! k = Some false.

Lemma fresh_unused vars : forall used name, fresh vars used name -> env_lookup (unused vars used) name = env_lookup vars name.
Proof.
  induction vars as [|[n v] vars IH]; intros [|u used] name Hf; cbn; try done.
  - destruct (same_name n name) eqn:E; [by specialize (Hf 0%nat (n, v) eq_refl E)|]. symmetry. apply env_lookup_none.
    intros k w Hk. apply not_true_iff_false. intros Hw. by specialize (Hf (S k) w Hk Hw).
  - assert (Hf' : fresh vars used name) by (intros k w; apply (Hf (S k))). destruct u; cbn; rewrite IH by done; [|done].
    destruct (same_name n name) eqn:E; [by specialize (Hf 0%nat (n, v) eq_refl E)|done].
Qed.

(** The override of a name none of whose variables is used: the first. *)
Lemma fresh_override vars used name n : length used = length vars -> fresh vars used name -> same_name n name = true ->
  env_lookup vars name = (find_override 0 used vars n) ≫= fun '(_, v) => Some v.2.
Proof.
  intros Hl Hf Hn. assert (Hs : forall w, same_name w n = same_name w name).
  { intros w. rewrite (same_name_sym w n), (same_name_sym w name). apply same_name_trans. by rewrite same_name_sym. }
  assert (Hnu : forall k w, vars !! k = Some w -> used !! k = Some true -> same_name w.1 name = false).
  { intros k w Hk Hu. apply not_true_iff_false. intros Hw. specialize (Hf k w Hk Hw). congruence. }
  destruct (find_override 0 used vars n) as [[x v]|] eqn:E; cbn.
  - apply find_override_some in E as (k & -> & Hk & Hu & Hv & Hb). rewrite Hs in Hv. apply (env_lookup_first _ k); [done..|].
    intros k' v' Hlt Hv'. destruct (Hb k' v' Hlt Hv') as [Ht|Ht]; [by eapply Hnu|by rewrite <- Hs].
  - apply env_lookup_none. intros k v Hk. destruct (find_override_none _ _ _ _ Hl E k v Hk) as [Ht|Ht]; [by eapply Hnu|by rewrite <- Hs].
Qed.

Lemma fresh_use vars used name n x v : fresh vars used name -> same_name n name = false -> find_override 0 used vars n = Some (x, v) ->
  fresh vars (<[x := true]> used) name.
Proof.
  intros Hf Hn E k w Hk Hw. apply find_override_some in E as (k' & -> & Hk' & Hu & Hv & _). cbn.
  rewrite list_lookup_insert_ne; [by eapply Hf|]. intros ->. assert (w = v) as -> by congruence.
  rewrite same_name_sym in Hv. rewrite (same_name_trans n v.1 name) in Hw by done. congruence.
Qed.

Lemma merge_windows_lookup vars name : forall win used, length used = length vars -> fresh vars used name ->
  let '(used', out) := merge_windows vars win used in
  env_lookup (out ++ unused vars used') name = match env_lookup vars name with Some v => Some v | None => env_lookup win name end.
Proof.
  induction win as [|[n v] win IH]; intros used Hl Hf; cbn; [by rewrite fresh_unused by done; destruct (env_lookup vars name)|].
  destruct (same_name n name) eqn:En.
  - pose proof (fresh_override vars used name n Hl Hf En) as ->. destruct (find_override 0 used vars n) as [[x [m w]]|] eqn:Eo.
    + destruct (merge_windows vars win _). cbn. apply find_override_some in Eo as (k & -> & _ & _ & Hv & _). cbn in Hv.
      rewrite same_name_sym in Hv. by rewrite (same_name_trans n m) by done; rewrite En.
    + destruct (merge_windows vars win _). cbn. by rewrite En.
  - destruct (find_override 0 used vars n) as [[x [m w]]|] eqn:Eo.
    + pose proof (IH (<[x := true]> used)) as IHx. rewrite length_insert in IHx. specialize (IHx Hl (fresh_use _ _ _ _ _ _ Hf En Eo)).
      destruct (merge_windows vars win _). cbn. apply find_override_some in Eo as (k & -> & _ & _ & Hv & _). cbn in Hv.
      rewrite same_name_sym in Hv. by rewrite (same_name_trans n m) by done; rewrite En.
    + specialize (IH used Hl Hf). destruct (merge_windows vars win _). cbn. by rewrite En.
Qed.

Lemma merged_lookup win vars name :
  env_lookup (merged win vars) name = match env_lookup vars name with Some v => Some v | None => env_lookup win name end.
Proof.
  unfold merged. pose proof (merge_windows_lookup vars name win (replicate (length vars) false)) as H.
  rewrite length_replicate in H. destruct (merge_windows _ _ _). apply H; [done|].
  intros k v Hk _. apply lookup_replicate. split; [done|]. by eapply lookup_lt_Some.
Qed.

(** Every binding of the block comes from one of the two lists. *)
Lemma merge_windows_from vars : forall win used,
  Forall (fun b => b ∈ win \/ b ∈ vars) (merge_windows vars win used).2 /\ length (merge_windows vars win used).2 = length win.
Proof.
  induction win as [|[n v] win IH]; intros used; cbn; [done|]. destruct (find_override 0 used vars n) as [[x w]|] eqn:E.
  - specialize (IH (<[x := true]> used)). destruct (merge_windows vars win _). cbn in *. destruct IH as [IH Hl]. split; [|lia].
    constructor; [|eapply Forall_impl; [exact IH|]; set_solver].
    apply find_override_some in E as (k & _ & Hk & _). right. by eapply list_elem_of_lookup_2.
  - specialize (IH used). destruct (merge_windows vars win _). cbn in *. destruct IH as [IH Hl]. split; [|lia].
    constructor; [set_solver|eapply Forall_impl; [exact IH|]; set_solver].
Qed.

Lemma unused_from vars : forall used, Forall (fun b => b ∈ vars) (unused vars used) /\ (length (unused vars used) <= length vars)%nat.
Proof.
  induction vars as [|v vars IH]; intros [|u used]; cbn; try (split; [done|lia]). destruct (IH used) as [H1 H2]. destruct u; cbn.
  - split; [eapply Forall_impl; [exact H1|]; set_solver|lia].
  - split; [constructor; [set_solver|eapply Forall_impl; [exact H1|]; set_solver]|lia].
Qed.

Lemma merged_ok win vars : Forall binding_ok win -> Forall binding_ok vars ->
  Forall binding_ok (merged win vars) /\ (length (merged win vars) <= length win + length vars)%nat.
Proof.
  intros Hw Hv. unfold merged. pose proof (merge_windows_from vars win (replicate (length vars) false)) as [H1 H2].
  destruct (merge_windows _ _ _) as [used out]. cbn in *. destruct (unused_from vars used) as [H3 H4].
  rewrite length_app. split; [|lia]. rewrite !Forall_forall in *. intros b [Hb|Hb]%elem_of_app; naive_solver.
Qed.

(** What [MakeEnvBlock] needs and uses of the array. *)
Lemma AppendEnvVar_fits size block name value block' : AppendEnvVar size block name value = Some block' -> zlen block' <= size.
Proof.
  unfold AppendEnvVar. destruct (Z.ltb_spec size (zlen block + zlen name + zlen value + 2)); [done|]. intros [= <-].
  rewrite !length_app. cbn [length]. rewrite length_app. cbn [length]. lia.
Qed.

Lemma emit_windows_fits size vars : forall win used block r, zlen block <= size -> emit_windows size vars win used block = Some r -> zlen r.2 <= size.
Proof.
  induction win as [|[n v] win IH]; intros used block r Hb Hr; cbn in Hr; [by simplify_eq|].
  destruct (find_override _ _ _ _) as [[x w]|]; (destruct (AppendEnvVar _ _ _ _) eqn:E; [|done]); cbn in Hr; eapply IH; try exact Hr; by eapply AppendEnvVar_fits.
Qed.

Lemma emit_rest_fits size : forall vars used block r, zlen block <= size -> emit_rest size vars used block = Some r -> zlen r <= size.
Proof.
  induction vars as [|v vars IH]; intros [|u used] block r Hb Hr; cbn in Hr; try (by simplify_eq). destruct u; [by eapply IH|].
  destruct (AppendEnvVar _ _ _ _) eqn:E; [|done]. cbn in Hr. eapply IH; [by eapply AppendEnvVar_fits|done].
Qed.

Lemma MakeEnvBlock_fits size win vars block : 0 <= size -> MakeEnvBlock size win vars = Some block -> zlen block <= size + 2.
Proof.
  unfold MakeEnvBlock. intros Hs Hb. case_match; [done|]. destruct (emit_windows _ _ _ _ _) as [[used b1]|] eqn:E1; [|done]. cbn in Hb.
  destruct (emit_rest _ _ _ _) as [b2|] eqn:E2; [|done]. cbn in Hb. simplify_eq. rewrite length_app. cbn [length].
  apply emit_windows_fits in E1; [|done]. apply emit_rest_fits in E2; [lia|done].
Qed.

(** C34. The environment of a child on Windows: for well-formed bindings, the
    block that [MakeEnvBlock] writes fits the array it is given with its two
    terminators; cutting it the way [ExecInit] cuts the environment of the
    process gives back the bindings; and in them every name, whatever its case,
    has the value of the node's first variable of that name and, only when the
    node has none, the value it has in the environment of the process. *)
Theorem env_block_round_trip size win vars block :
  0 <= size -> Forall binding_ok win -> Forall binding_ok vars -> zlen win + zlen vars <= kWin32EnvSize ->
  MakeEnvBlock size win vars = Some block ->
  zlen block <= size + 2 /\ ExecInit_env block = OK (merged win vars) /\
  forall name, env_lookup (merged win vars) name = match env_lookup vars name with Some v => Some v | None => env_lookup win name end.
Proof.
  intros Hs Hw Hv Hn Hb. split; [by eapply MakeEnvBlock_fits|]. split; [|intros; apply merged_lookup].
  destruct (merged_ok win vars Hw Hv) as [Hok Hl]. apply MakeEnvBlock_ok in Hb. subst. unfold ExecInit_env.
  rewrite read_env_encoded; [done|done|cbn; lia|]. rewrite length_app.
  assert (He : forall bs, (length bs <= length (concat (map encode bs)))%nat); [|specialize (He (merged win vars)); lia].
  induction bs as [|b bs IH]; cbn; [lia|]. unfold encode at 1. rewrite !length_app. cbn. rewrite length_app. cbn. lia.
Qed.

Lemma env_block_round_trip_witness :
  let win := [(s2l "Path", s2l "C:\bin"); (s2l "TMP", s2l "C:\t")] in
  let vars := [(s2l "PATH", s2l "D:\tools"); (s2l "INCLUDE", s2l "x=y")] in
  exists block, MakeEnvBlock 100 win vars = Some block /\ ExecInit_env block = OK (merged win vars) /\
    env_lookup (merged win vars) (s2l "path") = Some (s2l "D:\tools").
Proof.
  intros win vars. eexists. split; [vm_compute; reflexivity|].
  edestruct (env_block_round_trip 100 win vars) as (_ & H & Hl);
    [done|repeat constructor; discriminate|repeat constructor; discriminate|vm_compute; discriminate|vm_compute; reflexivity|].
  split; [exact H|]. rewrite Hl. vm_compute. reflexivity.
Defined.
