(* ===== verification/PathControl.v ===== *)
(** * The search path of Windows

    src/src/PathControl.cpp, the program of the installer that adds a directory
    to the search path of the system or removes it. The value is cut at the
    semicolons in place: the tokens are offsets into the buffer, in which the
    semicolons become terminators. *)

From S2P Require Import Prelude CType Win32Env.

Definition semicolon : ascii := ";"%char.

(** ** Cutting the value *)

(** [while (WCHAR ch = *p++) max_segs += ';' == ch]. *)
Fixpoint count_segs (buffer : cstr) (max_segs : Z) : Z :=
  match buffer with
  | [] => max_segs
  | ch :: buffer => if Ascii.eqb ch NUL then max_segs else count_segs buffer (max_segs + if Ascii.eqb ch semicolon then 1 else 0)
  end.

(** The string at an offset of the buffer. *)
Definition string_at (buffer : cstr) (p : Z) : res cstr := '(s, _) ← of_opt (cut_string (drop (Z.to_nat p) buffer)); OK s.

(** [wcschr(p, ';')]: the offset of the next semicolon. *)
Definition next_semicolon (buffer : cstr) (p : Z) : res (option Z) :=
  s ← string_at buffer p;
  OK ('(a, _) ← cut_at semicolon s; Some (p + zlen a)).

(** The array of tokens has room for [max_segs] of them. *)
Fixpoint tokenize_loop (fuel : nat) (max_segs : Z) (buffer : cstr) (p : Z) (tokens : list Z) : res (cstr * list Z) :=
  match fuel with
  | O => Err OutOfFuel
  | S fuel =>
      ch ← of_opt (buffer !!z p);
      '(buffer, p) ← (if Ascii.eqb ch semicolon then buffer ← zwrite p NUL buffer; OK (buffer, p + 1) else OK (buffer, p));
      if zlen tokens <? max_segs then
        let tokens := tokens ++ [p] in
        next ← next_semicolon buffer p;
        match next with
        | Some p => tokenize_loop fuel max_segs buffer p tokens
        | None => OK (buffer, tokens)
        end
      else Err OutOfBounds
  end.

Definition TokenizePath (buffer : cstr) : res (cstr * list Z) :=
  tokenize_loop (S (length buffer)) (count_segs buffer 2) buffer 0 [].

(** ** The new value *)

(** [_wcsicmp], for characters of the C locale. *)
Definition wcsicmp_eq (a b : cstr) : bool := bool_decide (map tolower a = map tolower b).

(** The first token that is the directory is taken out. *)
Fixpoint remove_first (dir : cstr) (tokens : list cstr) : list cstr :=
  match tokens with
  | [] => []
  | t :: tokens => if wcsicmp_eq t dir then tokens else t :: remove_first dir tokens
  end.

Fixpoint join (tokens : list cstr) : cstr :=
  match tokens with
  | [] => []
  | [t] => t
  | t :: tokens => t ++ semicolon :: join tokens
  end.

(** The value that is written; [None] for a wrong command. *)
Definition WinMain (command dir : cstr) (path : cstr) : res (option cstr) :=
  '(buffer, offsets) ← TokenizePath (path ++ [NUL]);
  tokens ← foldM (fun acc p => s ← string_at buffer p; OK (acc ++ [s])) [] offsets;
  let tokens := remove_first dir tokens in
  if streq command "/ADD" then
    if zlen tokens <? count_segs (path ++ [NUL]) 2 then OK (Some (join (tokens ++ [dir]))) else Err OutOfBounds
  else if streq command "/REMOVE" then OK (Some (join tokens))
  else OK None.

(** ** What the value means *)

(** The pieces between the semicolons. *)
Fixpoint split (s : cstr) : list cstr :=
  match s with
  | [] => [[]]
  | c :: s => if Ascii.eqb c semicolon then [] :: split s else match split s with t :: ts => (c :: t) :: ts | [] => [] end
  end.

(** The directories of a path: a semicolon at the beginning is left out. *)
Definition directories (path : cstr) : list cstr :=
  match path with
  | c :: path' => if Ascii.eqb c semicolon then split path' else split path
  | [] => split path
  end.

Definition nul_out (s : cstr) : cstr := map (fun c => if Ascii.eqb c semicolon then NUL else c) s.

(** The offsets after the semicolons. *)
Fixpoint offsets_after (i : Z) (s : cstr) : list Z :=
  match s with
  | [] => []
  | c :: s => if Ascii.eqb c semicolon then (i + 1) :: offsets_after (i + 1) s else offsets_after (i + 1) s
  end.

Definition no_semicolon (s : cstr) : Prop := Forall (fun c => c <> semicolon) s.

Lemma split_pieces a : no_semicolon a -> split a = [a] /\ forall b, split (a ++ semicolon :: b) = a :: split b.
Proof.
  induction 1 as [|c a Hc Ha [IH1 IH2]]; [done|]. cbn. rewrite (proj2 (Ascii.eqb_neq c semicolon) Hc), IH1. split; [done|]. intros b. by rewrite IH2.
Qed.

Lemma split_nonempty s : split s <> [].
Proof. destruct s as [|c s]; cbn; [done|]. destruct (Ascii.eqb c semicolon); [done|]. destruct (split s) eqn:E; [|done]. induction s; cbn in E; [done|]. repeat case_match; naive_solver. Qed.

Lemma cut_at_none d s : cut_at d s = None <-> Forall (fun c => c <> d) s.
Proof.
  induction s as [|c s IH]; cbn; [split; [constructor|done]|]. destruct (Ascii.eqb_spec c d) as [->|Hc].
  - split; [done|]. intros [? _]%Forall_cons. done.
  - destruct (cut_at d s) as [[a b]|]; cbn; [split; [done|]; intros [_ H]%Forall_cons; by apply IH in H|]. split; [intros _; constructor; [done|by apply IH]|done].
Qed.

Lemma cut_at_some d s a b : cut_at d s = Some (a, b) -> s = a ++ d :: b /\ Forall (fun c => c <> d) a.
Proof.
  revert a. induction s as [|c s IH]; intros a H; cbn in H; [done|]. destruct (Ascii.eqb_spec c d) as [->|Hc]; [by simplify_eq|].
  destruct (cut_at d s) as [[a' b']|] eqn:E; [|done]. cbn in H. simplify_eq. destruct (IH _ eq_refl) as [-> Ha]. split; [done|by constructor].
Qed.

Lemma nul_out_id a : no_semicolon a -> nul_out a = a.
Proof. induction 1 as [|c a Hc Ha IH]; cbn; [done|]. rewrite (proj2 (Ascii.eqb_neq c semicolon) Hc). f_equal. exact IH. Qed.

Lemma nul_out_piece x y : no_semicolon x -> nul_out (x ++ semicolon :: y) = x ++ NUL :: nul_out y.
Proof. intros Hx. unfold nul_out. rewrite map_app. cbn [map]. rewrite Ascii.eqb_refl. f_equal. by apply nul_out_id. Qed.

Lemma offsets_app a : forall i b, offsets_after i (a ++ b) = offsets_after i a ++ offsets_after (i + zlen a) b.
Proof.
  induction a as [|c a IH]; intros i b; [by cbn; rewrite Z.add_0_r|]. cbn [offsets_after app]. rewrite !IH.
  replace (i + zlen (c :: a)) with (i + 1 + zlen a) by (cbn [length]; lia). by destruct (Ascii.eqb c semicolon).
Qed.

Lemma offsets_none a : forall i, no_semicolon a -> offsets_after i a = [].
Proof. induction a as [|c a IH]; intros i H; [done|]. apply Forall_cons in H as [Hc Ha]. cbn. rewrite (proj2 (Ascii.eqb_neq c semicolon) Hc). by apply IH. Qed.

Lemma offsets_length s : forall i j, length (offsets_after i s) = length (offsets_after j s).
Proof. induction s as [|c s IH]; intros i j; cbn; [done|]. destruct (Ascii.eqb c semicolon); cbn; [f_equal|]; apply IH. Qed.

Lemma count_segs_eq s : forall n, cstr_ok s -> count_segs (s ++ [NUL]) n = n + zlen (offsets_after 0 s).
Proof.
  induction s as [|c s IH]; intros n H; cbn [app count_segs offsets_after]; [cbn; lia|]. apply Forall_cons in H as [Hc Hs].
  rewrite (proj2 (Ascii.eqb_neq c NUL) Hc), IH by done. rewrite (offsets_length s 0 (0 + 1)). destruct (Ascii.eqb c semicolon); cbn [length]; lia.
Qed.

(** ** The loop *)

Lemma string_at_middle a s rest : cstr_ok s -> string_at (a ++ s ++ NUL :: rest) (zlen a) = OK s.
Proof. intros Hs. unfold string_at, cut_string. rewrite Nat2Z.id, drop_app_length, cut_at_app by done. done. Qed.

Lemma next_semicolon_spec a s rest : cstr_ok s ->
  next_semicolon (a ++ s ++ NUL :: rest) (zlen a) = OK ('(x, _) ← cut_at semicolon s; Some (zlen a + zlen x)).
Proof. intros Hs. unfold next_semicolon. by rewrite string_at_middle. Qed.

(** From a semicolon on. *)
Lemma tokenize_loop_spec fuel : forall max_segs a r tokens, cstr_ok r -> (length r < fuel)%nat -> zlen tokens + zlen (offsets_after 0 (semicolon :: r)) <= max_segs ->
  tokenize_loop fuel max_segs (a ++ semicolon :: r ++ [NUL]) (zlen a) tokens =
  OK (a ++ NUL :: nul_out r ++ [NUL], tokens ++ offsets_after (zlen a) (semicolon :: r)).
Proof.
  induction fuel as [|fuel IH]; intros max_segs a r tokens Hr Hf Hn; [lia|]. cbn [tokenize_loop]. rewrite zlookup_middle. cbn [of_opt mbind res_bind].
  rewrite Ascii.eqb_refl. rewrite zwrite_middle. cbn [mbind res_bind]. cbn [offsets_after] in *. rewrite Ascii.eqb_refl in *. cbn [length] in Hn.
  rewrite (proj2 (Z.ltb_lt _ _)) by lia. replace (a ++ NUL :: r ++ [NUL]) with ((a ++ [NUL]) ++ r ++ NUL :: []) by (by rewrite <- app_assoc).
  replace (zlen a + 1) with (zlen (a ++ [NUL])) by (rewrite length_app; cbn; lia). rewrite next_semicolon_spec by done. cbn [mbind res_bind].
  destruct (cut_at semicolon r) as [[x y]|] eqn:E; cbn [mbind option_bind].
  - apply cut_at_some in E as [-> Hx]. pose proof Hr as [Hx0 [_ Hy]%Forall_cons]%Forall_app.
    replace ((a ++ [NUL]) ++ (x ++ semicolon :: y) ++ [NUL]) with (((a ++ [NUL]) ++ x) ++ semicolon :: y ++ [NUL]) by (by rewrite <- !app_assoc).
    replace (zlen (a ++ [NUL]) + zlen x) with (zlen ((a ++ [NUL]) ++ x)) by (rewrite (length_app (a ++ [NUL])); lia).
    rewrite IH; [|done|rewrite length_app in Hf; cbn in Hf; lia|].
    + f_equal. rewrite offsets_app, (offsets_none x) by done. cbn [app]. rewrite nul_out_piece by done.
      cbn [offsets_after]. rewrite Ascii.eqb_refl. rewrite <- !app_assoc. cbn [app].
      replace (zlen (a ++ NUL :: x)) with (zlen (a ++ [NUL]) + zlen x) by (rewrite !length_app; cbn; lia). done.
    + rewrite offsets_app, (offsets_none x) in Hn by done. cbn [app] in Hn. rewrite length_app. cbn [length].
      pose proof (offsets_length (semicolon :: y) (0 + 1 + zlen x) 0) as Ho. cbn [offsets_after] in Ho, Hn. rewrite Ascii.eqb_refl in Ho, Hn. cbn [length] in *. lia.
  - apply cut_at_none in E. rewrite offsets_none by done. rewrite nul_out_id by done. by rewrite <- app_assoc.
Qed.

Lemma TokenizePath_spec path : cstr_ok path ->
  TokenizePath (path ++ [NUL]) =
  OK (nul_out path ++ [NUL], match path with c :: _ => if Ascii.eqb c semicolon then [] else [0] | [] => [0] end ++ offsets_after 0 path).
Proof.
  intros Hp. unfold TokenizePath. rewrite count_segs_eq by done. destruct path as [|c path]; [done|].
  destruct (Ascii.eqb_spec c semicolon) as [->|Hc].
  - pose proof Hp as [_ Hp']%Forall_cons. apply (tokenize_loop_spec _ _ [] path []); [done|cbn; rewrite length_app; cbn; lia|cbn [length]; lia].
  - cbn [tokenize_loop app]. change ((c :: path ++ [NUL]) !!z 0) with (Some c). cbn [of_opt mbind res_bind]. rewrite (proj2 (Ascii.eqb_neq c semicolon) Hc). cbn [mbind res_bind length].
    rewrite (proj2 (Z.ltb_lt _ _)) by lia. pose proof (next_semicolon_spec [] (c :: path) [] Hp) as Hnext. cbn [app length] in Hnext. change (Z.of_nat 0) with 0 in Hnext. rewrite Hnext. cbn [mbind res_bind].
    destruct (cut_at semicolon (c :: path)) as [[x y]|] eqn:E; cbn [mbind option_bind].
    + apply cut_at_some in E as [E Hx]. assert (Hlen : (length y < length (path ++ [NUL]))%nat) by (apply (f_equal length) in E; rewrite length_app in E; rewrite length_app; cbn in *; lia).
      rewrite app_comm_cons, E. rewrite E in Hp. pose proof Hp as [Hx0 [_ Hy]%Forall_cons]%Forall_app. rewrite <- app_assoc. cbn [app length].
      rewrite (tokenize_loop_spec _ _ x y [0]); [|done|lia|].
      * rewrite nul_out_piece by done. rewrite <- app_assoc. cbn [app].
        rewrite offsets_app, (offsets_none x) by done. done.
      * rewrite offsets_app, (offsets_none x) by done. cbn [app]. rewrite (offsets_length (semicolon :: y) 0 (0 + zlen x)). cbn [length]. lia.
    + apply cut_at_none in E. rewrite app_comm_cons, nul_out_id, (offsets_none (c :: path)) by done. done.
Qed.

(** The strings at the offsets are the pieces. *)
Lemma strings_at_offsets r : forall a acc, cstr_ok r ->
  foldM (fun acc p => s ← string_at (a ++ nul_out r ++ [NUL]) p; OK (acc ++ [s])) acc (offsets_after (zlen a) r) = OK (acc ++ tail (split r)).
Proof.
  intros a acc Hr. remember (length r) as n eqn:En. revert r a acc Hr En. induction n as [n IH] using lt_wf_ind. intros r a acc Hr ->.
  destruct (cut_at semicolon r) as [[x y]|] eqn:E.
  - apply cut_at_some in E as [-> Hx]. pose proof Hr as [Hx0 [_ Hy]%Forall_cons]%Forall_app. rewrite offsets_app, (offsets_none x) by done. cbn [app offsets_after].
    rewrite Ascii.eqb_refl. cbn [foldM]. rewrite (proj2 (split_pieces x Hx)). cbn [tail].
    assert (Eb : a ++ nul_out (x ++ semicolon :: y) ++ [NUL] = (a ++ x ++ [NUL]) ++ nul_out y ++ [NUL]).
    { rewrite nul_out_piece by done. by rewrite <- !app_assoc. }
    rewrite Eb. replace (zlen a + zlen x + 1) with (zlen (a ++ x ++ [NUL])) by (rewrite !length_app; cbn; lia).
    assert (Hhead : exists t ts, split y = t :: ts /\ string_at ((a ++ x ++ [NUL]) ++ nul_out y ++ [NUL]) (zlen (a ++ x ++ [NUL])) = OK t).
    { destruct (cut_at semicolon y) as [[u v]|] eqn:Ey.
      - apply cut_at_some in Ey as [-> Hu]. pose proof Hy as [Hu0 _]%Forall_app. exists u, (split v). split; [apply (split_pieces u Hu)|].
        rewrite nul_out_piece by done. rewrite <- (app_assoc u). by apply string_at_middle.
      - apply cut_at_none in Ey. exists y, []. split; [by apply split_pieces|]. rewrite nul_out_id by done. by apply string_at_middle. }
    destruct Hhead as (t & ts & Ht & ->). cbn [mbind res_bind]. rewrite (IH (length y)); [|rewrite length_app; cbn; lia|done|done]. rewrite Ht. cbn [tail]. by rewrite <- app_assoc.
  - apply cut_at_none in E. rewrite offsets_none by done. rewrite (proj1 (split_pieces r E)). cbn. by rewrite app_nil_r.
Qed.

(** ** Editing the path *)

Lemma split_no_semicolon s : Forall no_semicolon (split s).
Proof.
  induction s as [|c s IH]; cbn; [repeat constructor|]. destruct (Ascii.eqb_spec c semicolon) as [->|Hc]; [constructor; [constructor|done]|].
  destruct (split s) as [|t ts]; [done|]. apply Forall_cons in IH as [Ht Hts]. constructor; [by constructor|done].
Qed.

Lemma split_length s : length (split s) = S (length (offsets_after 0 s)).
Proof.
  induction s as [|c s IH]; cbn; [done|]. destruct (Ascii.eqb c semicolon); cbn; rewrite (offsets_length s (0 + 1) 0); [lia|].
  pose proof (split_nonempty s). destruct (split s); [done|]. cbn in *. lia.
Qed.

Lemma directories_no_semicolon path : Forall no_semicolon (directories path).
Proof. destruct path as [|c path]; [apply split_no_semicolon|]. unfold directories. destruct (Ascii.eqb c semicolon); apply split_no_semicolon. Qed.

(** What the program makes of the value. *)
Lemma tokens_are_directories path : cstr_ok path ->
  ('(buffer, offsets) ← TokenizePath (path ++ [NUL]); foldM (fun acc p => s ← string_at buffer p; OK (acc ++ [s])) [] offsets) = OK (directories path).
Proof.
  intros Hp. rewrite TokenizePath_spec by done. cbn [mbind res_bind].
  pose proof (strings_at_offsets path [] [] Hp) as Hs. cbn [app length] in Hs. change (Z.of_nat 0) with 0 in Hs.
  assert (Hfirst : forall acc, foldM (fun acc p => s ← string_at (nul_out path ++ [NUL]) p; OK (acc ++ [s])) acc (offsets_after 0 path) = OK (acc ++ tail (split path))).
  { intros acc. exact (strings_at_offsets path [] acc Hp). }
  destruct path as [|c path]; [done|]. unfold directories. destruct (Ascii.eqb_spec c semicolon) as [->|Hc]; [exact Hs|].
  cbn [app foldM]. assert (Hhead : exists t ts, split (c :: path) = t :: ts /\ string_at (nul_out (c :: path) ++ [NUL]) 0 = OK t).
  { destruct (cut_at semicolon (c :: path)) as [[u v]|] eqn:E.
    - apply cut_at_some in E as [E Hu]. rewrite E in Hp |- *. pose proof Hp as [Hu0 _]%Forall_app. exists u, (split v). split; [apply (split_pieces u Hu)|].
      rewrite nul_out_piece by done. rewrite <- (app_assoc u). exact (string_at_middle [] u _ Hu0).
    - apply cut_at_none in E. exists (c :: path), []. split; [by apply split_pieces|]. rewrite nul_out_id by done. exact (string_at_middle [] _ [] Hp). }
  destruct Hhead as (t & ts & Ht & ->). cbn [mbind res_bind]. rewrite Hfirst, Ht. done.
Qed.

Lemma remove_first_length dir ts : (length (remove_first dir ts) <= length ts)%nat.
Proof. induction ts as [|t ts IH]; cbn; [lia|]. destruct (wcsicmp_eq t dir); cbn; lia. Qed.

Lemma directories_length path : cstr_ok path -> zlen (directories path) < count_segs (path ++ [NUL]) 2.
Proof.
  intros Hp. rewrite count_segs_eq by done. pose proof (split_length path) as Hl.
  destruct path as [|c path]; unfold directories; [cbn; lia|]. destruct (Ascii.eqb c semicolon) eqn:E; [|lia]. cbn [offsets_after split] in *. rewrite E in *. cbn [length] in *. lia.
Qed.

Lemma WinMain_spec command dir path : cstr_ok path ->
  WinMain command dir path =
  OK (if streq command "/ADD" then Some (join (remove_first dir (directories path) ++ [dir]))
      else if streq command "/REMOVE" then Some (join (remove_first dir (directories path))) else None).
Proof.
  intros Hp. unfold WinMain. pose proof (tokens_are_directories path Hp) as Ht. rewrite TokenizePath_spec in * by done. cbn [mbind res_bind] in *. rewrite Ht. cbn [mbind res_bind].
  pose proof (directories_length path Hp) as Hl. pose proof (remove_first_length dir (directories path)).
  rewrite (proj2 (Z.ltb_lt _ _)) by lia. by destruct (streq command "/ADD"), (streq command "/REMOVE").
Qed.

(** Tokens without semicolons, the first of them not empty, can be read back. *)
Lemma directories_join t ts : t <> [] -> Forall no_semicolon (t :: ts) -> directories (join (t :: ts)) = t :: ts.
Proof.
  intros Ht Hts. assert (Hj : forall l, l <> [] -> Forall no_semicolon l -> split (join l) = l).
  { induction l as [|x l IH]; intros Hn Hl; [done|]. apply Forall_cons in Hl as [Hx Hl]. destruct l as [|y l]; [by apply split_pieces|].
    change (join (x :: y :: l)) with (x ++ semicolon :: join (y :: l)). rewrite (proj2 (split_pieces x Hx)). by rewrite IH. }
  rewrite <- (Hj (t :: ts)) at 2 by done. destruct t as [|c t]; [done|]. apply Forall_cons in Hts as [[Hc _]%Forall_cons _].
  unfold directories. assert (Hh : exists rest, join ((c :: t) :: ts) = c :: rest) by (destruct ts; eexists; reflexivity). destruct Hh as [rest ->].
  by rewrite (proj2 (Ascii.eqb_neq c semicolon) Hc).
Qed.

Lemma remove_first_sub dir ts (P : cstr -> Prop) : Forall P ts -> Forall P (remove_first dir ts).
Proof. induction 1 as [|t ts Ht Hts IH]; cbn; [done|]. destruct (wcsicmp_eq t dir); [done|by constructor]. Qed.

Lemma join_paths_cstr ts : Forall cstr_ok ts -> cstr_ok (join ts).
Proof.
  induction 1 as [|t ts Ht Hts IH]; [constructor|]. destruct ts as [|u ts]; [done|]. change (join (t :: u :: ts)) with (t ++ semicolon :: join (u :: ts)).
  apply Forall_app. split; [done|]. by constructor.
Qed.

Lemma remove_absent dir ts : Forall (fun t => wcsicmp_eq t dir = false) ts -> remove_first dir (ts ++ [dir]) = ts /\ remove_first dir ts = ts.
Proof.
  induction 1 as [|t ts Ht Hts [IH1 IH2]]; cbn; [unfold wcsicmp_eq; by rewrite bool_decide_true|]. by rewrite Ht, IH1, IH2.
Qed.

Lemma split_cstr s : cstr_ok s -> Forall cstr_ok (split s).
Proof.
  induction 1 as [|c s Hc Hs IH]; cbn; [repeat constructor|]. destruct (Ascii.eqb c semicolon); [constructor; [constructor|done]|]. destruct (split s) as [|t ts]; [done|].
  apply Forall_cons in IH as [Ht Hts]. constructor; [by constructor|done].
Qed.

(** The search path is edited as a list of directories: the program ends without
    leaving its array for every value; a directory that is added is the last one
    and what was there keeps its order, less an earlier copy in whatever case;
    and removing it again gives the path back when it was not there before. *)
Theorem path_edited dir path : cstr_ok path -> cstr_ok dir -> dir <> [] -> no_semicolon dir -> Forall (fun t => t <> []) (directories path) ->
  exists added, WinMain (s2l "/ADD") dir path = OK (Some added) /\ directories added = remove_first dir (directories path) ++ [dir] /\
    (Forall (fun t => wcsicmp_eq t dir = false) (directories path) ->
     exists removed, WinMain (s2l "/REMOVE") dir added = OK (Some removed) /\ directories removed = directories path).
Proof.
  intros Hp Hd Hdn Hds Hne. set (ts := directories path) in *. rewrite WinMain_spec by done. change (streq (s2l "/ADD") "/ADD") with true. cbv iota. fold ts.
  assert (Hok : Forall cstr_ok ts) by (unfold ts, directories; destruct path as [|c p]; [apply split_cstr; done|]; destruct (Ascii.eqb c semicolon); apply split_cstr; [by apply Forall_cons in Hp as [_ ?]|done]).
  pose proof (directories_no_semicolon path) as Hns. fold ts in Hns.
  assert (Hread : forall l, Forall (fun t => t <> []) l -> Forall no_semicolon l -> l <> [] -> directories (join l) = l).
  { intros [|t l] H1 H2 H3; [done|]. apply Forall_cons in H1 as [H1 _]. by apply directories_join. }
  eexists. split; [reflexivity|]. rewrite Hread; [split; [done|]|apply Forall_app; split; [by apply remove_first_sub|by repeat constructor]|apply Forall_app; split; [by apply remove_first_sub|by repeat constructor]|by destruct (remove_first dir ts)].
  intros Habs. destruct (remove_absent dir ts Habs) as [Hr1 Hr2]. rewrite Hr2.
  rewrite WinMain_spec by (apply join_paths_cstr, Forall_app; split; [done|by repeat constructor]). change (streq (s2l "/REMOVE") "/ADD") with false. change (streq (s2l "/REMOVE") "/REMOVE") with true. cbv iota.
  rewrite Hread; [rewrite Hr1|apply Forall_app; split; [done|by repeat constructor]|apply Forall_app; split; [done|by repeat constructor]|by destruct ts].
  eexists. split; [reflexivity|]. apply Hread; [done|done|]. unfold ts, directories. destruct path as [|c p]; [done|]. destruct (Ascii.eqb c semicolon); apply split_nonempty.
Qed.

(** Removing the only directory leaves a value that is read as one empty directory. *)
Example last_directory_removed : WinMain (s2l "/REMOVE") (s2l "c:\Tools") (s2l "C:\tools") = OK (Some []) /\ directories [] = [[]].
Proof. split; reflexivity. Qed.
