(* ===== verification/ExecWin32.v ===== *)
(** * Running a command on Windows

    src/src/ExecWin32.cpp without the environment (Win32Env): a command line
    with a "@RESPONSE" section keeps its arguments or moves them to a response
    file; what the child prints goes to a temporary file of the job, and from
    there to the terminal when the child has ended. What the calls of the system
    answer is an argument; reads and writes of open files succeed. *)

From stdpp Require Import gmap pretty strings.
From S2P Require Import Prelude CType Win32Env ExecUnix.

(** ** What the system answers *)

(** [WaitForMultipleObjects]: the child has ended, the user has interrupted the
    build, or neither. *)
Inductive wait_outcome : Type :=
| Completed (exit_code : Z)
| Interrupted
| WaitError.

(** One call of [ExecuteProcess]. [sy_launch] is what [CreateProcessA] does: it
    fails with an error, or the child prints something and is waited for. *)
Record system : Type := mkSystem {
  sy_temp_ok : bool;
  sy_wide_ok : bool;
  sy_job_error : option Z;
  sy_launch : Z + cstr * wait_outcome;
  sy_temp_path : cstr;
  sy_resp_created : bool;
  sy_resp_closed : bool;
  sy_pid : Z;
  sy_sequence : Z }.

(** A child as it is started: its command line, its environment and the files
    that are there. *)
Record child : Type := mkChild { ch_cmd : cstr; ch_env : cstr; ch_files : gmap cstr cstr }.

(** The terminal, the error stream, the temporary file of each job, the response
    files, and the children that have been started. *)
Record host : Type := mkHost {
  ho_tty : cstr;
  ho_err : cstr;
  ho_temp : gmap Z cstr;
  ho_files : gmap cstr cstr;
  ho_children : list child }.

Definition crlf : cstr := map ascii_of_nat [13; 10]%nat.
Definition newline : ascii := ascii_of_nat 10.

(** [_snprintf] or [strncpy] into an array of that size, whose last element is
    then set to the terminator. *)
Definition bounded (size : Z) (s : cstr) : cstr := take (Z.to_nat (size - 1)) s.

Definition MAX_PATH : Z := 260.

(** ** The temporary file of a job *)

(** The file, made when the job first needs it; [None] is the invalid handle. *)
Definition AllocFd (sy : system) (job_id : Z) (h : host) : host * option cstr :=
  match ho_temp h !! job_id with
  | Some text => (h, Some text)
  | None =>
      if sy_temp_ok sy then (mkHost (ho_tty h) (ho_err h) (<[job_id := []]> (ho_temp h)) (ho_files h) (ho_children h), Some [])
      else (mkHost (ho_tty h) (ho_err h ++ "failed to create temporary file") (ho_temp h) (ho_files h) (ho_children h), None)
  end.

(** Writing through the handle, by this process or by the child. *)
Definition write_temp (job_id : Z) (text : cstr) (h : host) : host :=
  mkHost (ho_tty h) (ho_err h) (alter (fun old => old ++ text) job_id (ho_temp h)) (ho_files h) (ho_children h).

Definition exts : list cstr := [".cpp" ++ crlf; ".c++" ++ crlf; ".c" ++ crlf; ".CC" ++ crlf; ".cc" ++ crlf].

Definition has_ext (buf ext : cstr) : bool :=
  (zlen ext <? zlen buf) && bool_decide (drop (length buf - length ext) buf = ext).

(** The whole output is the name of a source file, as cl.exe prints it. *)
Definition is_src_file (buf : cstr) : bool :=
  match list_find (fun ext => has_ext buf ext = true) exts with
  | Some (_, ext) => forallb isalnum (take (length buf - length ext) buf)
  | None => false
  end.

(** The loop that copies the file: [size] characters at a time. *)
Fixpoint dump_file (fuel : nat) (size : nat) (file : cstr) (tty : cstr) : res cstr :=
  match fuel with
  | O => Err OutOfFuel
  | S fuel =>
      let chunk := take size file in
      if bool_decide (chunk = []) then OK tty else dump_file fuel size (drop size file) (tty ++ chunk)
  end.

(** The handle was inherited by the child, so that its position is the end of
    what was printed. *)
Definition FreeFd (job_id : Z) (handle : option cstr) (h : host) : res host :=
  match handle with
  | None => OK h
  | Some _ =>
      file ← of_opt (ho_temp h !! job_id);
      tty ←
        (if zlen file <? 1024 - 1 then
           (let buf := take (Z.to_nat (1024 - 1)) file in OK (if is_src_file buf then ho_tty h else ho_tty h ++ buf))
         else dump_file (S (length file)) 1024 file (ho_tty h));
      OK (mkHost tty (ho_err h) (<[job_id := []]> (ho_temp h)) (ho_files h) (ho_children h))
  end.

(** ** Starting a child *)

Definition print_line (text : cstr) (h : host) : host :=
  mkHost (ho_tty h ++ text ++ crlf) (ho_err h) (ho_temp h) (ho_files h) (ho_children h).

Definition print_error (text : cstr) (h : host) : host :=
  mkHost (ho_tty h) (ho_err h ++ text) (ho_temp h) (ho_files h) (ho_children h).

Definition start_child (c : child) (h : host) : host :=
  mkHost (ho_tty h) (ho_err h) (ho_temp h) (ho_files h) (ho_children h ++ [c]).

Definition announce (annotation echo_cmdline : option cstr) (h : host) : host :=
  let h := match annotation with Some text => print_line text h | None => h end in
  match echo_cmdline with Some text => print_line text h | None => h end.

Definition kEnvBlockSize : Z := 128 * 1024.

Definition PrintLineToHandle (job_id : Z) (handle : option cstr) (text : cstr) (h : host) : host :=
  match handle with Some _ => write_temp job_id (text ++ crlf) h | None => h end.

Definition Win32Spawn (sy : system) (win : list binding) (job_id : Z) (cmd_line : cstr) (env_vars : list binding)
    (annotation echo_cmdline : option cstr) (h : host) : res (host * Z) :=
  let h := announce annotation echo_cmdline h in
  match MakeEnvBlock (kEnvBlockSize - 2) win env_vars with
  | None => OK (print_error (s2l (pretty job_id) ++ ": env block error; too big?") h, 1)
  | Some env_block =>
      if negb (sy_wide_ok sy) then OK (print_error (s2l (pretty job_id) ++ ": Failed converting environment block to wide char") h, 1)
      else
        let buffer := bounded 8192 ("cmd.exe /c " ++ ascii_of_nat 34 :: cmd_line ++ [ascii_of_nat 34]) in
        let '(h, output_handle) := AllocFd sy job_id h in
        match sy_job_error sy with
        | Some error =>
            OK (PrintLineToHandle job_id output_handle
                  (bounded 256 ("ERROR: Couldn't create job object. Win32 error = " ++ s2l (pretty error))) h, 1)
        | None =>
            let '(h, result_code) :=
              match sy_launch sy with
              | inl error =>
                  (PrintLineToHandle job_id output_handle
                     (bounded 256 ("ERROR: Couldn't launch process. Win32 error = " ++ s2l (pretty error))) h, 1)
              | inr (text, outcome) =>
                  let h := start_child (mkChild buffer env_block (ho_files h)) h in
                  let h := match output_handle with Some _ => write_temp job_id text h | None => h end in
                  (h, match outcome with Completed code => code | Interrupted | WaitError => 1 end)
              end in
            h ← FreeFd job_id output_handle h;
            OK (h, i32 result_code)
        end
  end.

(** ** The response file *)

(** [strstr]: what is before the first occurrence, and the string from there on. *)
Fixpoint strstr (pat s : cstr) : option (cstr * cstr) :=
  if bool_decide (take (length pat) s = pat) then Some ([], s)
  else match s with [] => None | c :: s' => '(a, b) ← strstr pat s'; Some (c :: a, b) end.

Definition response_prefix : cstr := s2l "@RESPONSE|".
Definition response_suffix_char : ascii := "|"%char.
Definition always_response_prefix : cstr := s2l "@RESPONSE!".
Definition always_response_suffix_char : ascii := "!"%char.

(** The section, and the character that ends its option. *)
Definition find_response (cmd_line : cstr) : option (cstr * cstr * ascii) :=
  match strstr response_prefix cmd_line with
  | Some (pre, response) => Some (pre, response, response_suffix_char)
  | None => '(pre, response) ← strstr always_response_prefix cmd_line; Some (pre, response, always_response_suffix_char)
  end.

Definition drop_newlines (s : cstr) : cstr := map (fun c => if Ascii.eqb c newline then " "%char else c) s.

(** The name of the file, from the answer of [GetTempPath]. *)
Definition response_file_name (sy : system) : cstr :=
  let tmp_dir := sy_temp_path sy in
  let tmp_dir := if bool_decide (last tmp_dir = Some "\"%char) then take (length tmp_dir - 1) tmp_dir else tmp_dir in
  bounded MAX_PATH (tmp_dir ++ s2l "\tundra.resp." ++ s2l (pretty (sy_pid sy)) ++ s2l "." ++ s2l (pretty (sy_sequence sy))).

Definition write_file (name text : cstr) (h : host) : host :=
  mkHost (ho_tty h) (ho_err h) (ho_temp h) (<[name := text]> (ho_files h)) (ho_children h).

Definition remove_file (name : cstr) (h : host) : host :=
  mkHost (ho_tty h) (ho_err h) (ho_temp h) (delete name (ho_files h)) (ho_children h).

Definition echoed (echo_cmdline : bool) (cmd_line : cstr) : option cstr := if echo_cmdline then Some cmd_line else None.

(** The branch with a response file: [pre], [option] and [args] are the pieces
    of the command line. *)
Definition run_with_response (sy : system) (win : list binding) (cmd_line pre option args : cstr) (env_vars : list binding)
    (job_id : Z) (echo_cmdline : bool) (annotation : Datatypes.option cstr) (h : host) : res (host * ExecResult) :=
  if (MAX_PATH <=? zlen (sy_temp_path sy)) || (0 =? zlen (sy_temp_path sy)) then
    OK (print_error "couldn't get temporary directory for response file" h, mkResult 1 false)
  else
    let response_file := response_file_name sy in
    if negb (sy_resp_created sy) then OK (print_error ("couldn't create response file " ++ response_file) h, mkResult 1 false)
    else
      let h := write_file response_file args h in
      if negb (sy_resp_closed sy) then OK (print_error ("couldn't close response file " ++ response_file) h, mkResult 1 false)
      else if negb (Z.min (zlen pre) (512 - 1) =? zlen pre) then
        OK (print_error ("Couldn't copy command (" ++ bounded 512 cmd_line ++ "...) before response file suffix.") h, mkResult 1 false)
      else
        let command_buf := pre in
        let option_buf := take (Z.to_nat (Z.min (zlen option) (32 - 1))) option in
        let new_cmd := bounded 8192 (command_buf ++ " "%char :: option_buf ++ response_file) in
        '(h, cmd_result) ← Win32Spawn sy win job_id new_cmd env_vars annotation (echoed echo_cmdline cmd_line) h;
        OK (remove_file response_file h, mkResult cmd_result false).

Definition ExecuteProcess (sy : system) (win : list binding) (cmd_line : cstr) (env_vars : list binding) (job_id : Z)
    (echo_cmdline : bool) (annotation : option cstr) (h : host) : res (host * ExecResult) :=
  let run new_cmd :=
    '(h, code) ← Win32Spawn sy win job_id (drop_newlines new_cmd) env_vars annotation (echoed echo_cmdline cmd_line) h;
    OK (h, mkResult code false) in
  match find_response cmd_line with
  | Some (pre, response, response_suffix) =>
      match cut_at response_suffix (drop (length response_prefix) response) with
      | None =>
          OK (print_error ("badly formatted @RESPONSE section; missing " ++ [response_suffix] ++ " after option: " ++ cmd_line) h,
              mkResult 1 false)
      | Some (option, args) =>
          if Ascii.eqb response_suffix always_response_suffix_char || (8000 <? zlen cmd_line) then
            run_with_response sy win cmd_line pre option args env_vars job_id echo_cmdline annotation h
          else
            let command_buf := take (Z.to_nat (Z.min (zlen pre) (512 - 1))) pre in
            run (bounded 8192 (command_buf ++ args))
      end
  | None => run (bounded 8192 cmd_line)
  end.

(** ** Lemmas *)

Definition quoted (cmd : cstr) : cstr := "cmd.exe /c " ++ ascii_of_nat 34 :: cmd ++ [ascii_of_nat 34].

Arguments quoted : simpl never.
Arguments bounded : simpl never.

(** What of the output of a child is shown. *)
Definition shown (text : cstr) : cstr := if (zlen text <? 1023) && is_src_file text then [] else text.

Definition lines (annotation echo : option cstr) : cstr :=
  match annotation with Some text => text ++ crlf | None => [] end ++ match echo with Some text => text ++ crlf | None => [] end.

Lemma bounded_short size s : zlen s < size -> bounded size s = s.
Proof. intros. unfold bounded. apply take_ge. lia. Qed.

Lemma bounded_length size s : 0 < size -> zlen (bounded size s) < size.
Proof. intros. unfold bounded. rewrite length_take. lia. Qed.

Lemma quoted_length cmd : zlen (quoted cmd) = zlen cmd + 13.
Proof. unfold quoted. rewrite length_app. cbn [length]. rewrite length_app. cbn. lia. Qed.

Lemma dump_file_all size : (0 < size)%nat -> forall fuel file tty, (length file < fuel)%nat -> dump_file fuel size file tty = OK (tty ++ file).
Proof.
  intros Hs. induction fuel as [|fuel IH]; intros file tty Hf; [lia|]. cbn [dump_file].
  destruct file as [|c file]; [rewrite take_nil; cbn; by rewrite app_nil_r|].
  rewrite bool_decide_false by (destruct size; [lia|done]). rewrite IH by (rewrite length_drop; cbn in *; lia).
  by rewrite <- app_assoc, take_drop.
Qed.

(** Only the name of a source file alone on its line is hidden. *)
Lemma is_src_file_spec buf : is_src_file buf = true ->
  exists name ext, ext ∈ exts /\ name <> [] /\ buf = name ++ ext /\ forallb isalnum name = true.
Proof.
  unfold is_src_file. destruct (list_find _ exts) as [[i ext]|] eqn:E; [|done]. intros Hn.
  apply list_find_Some in E as (Hi & He & _). apply andb_true_iff in He as [Hl He]. apply Z.ltb_lt in Hl. apply bool_decide_eq_true in He.
  exists (take (length buf - length ext) buf), ext. split_and!; [by eapply list_elem_of_lookup_2| |by rewrite <- (take_drop (length buf - length ext) buf) at 1; rewrite He|done].
  intros Hz%(f_equal length). rewrite length_take in Hz. cbn in Hz. lia.
Qed.

Lemma FreeFd_shows job_id x text h : ho_temp h !! job_id = Some text ->
  FreeFd job_id (Some x) h = OK (mkHost (ho_tty h ++ shown text) (ho_err h) (<[job_id := []]> (ho_temp h)) (ho_files h) (ho_children h)).
Proof.
  intros Ht. unfold FreeFd, shown. rewrite Ht. cbn [of_opt mbind res_bind]. change (1024 - 1) with 1023.
  destruct (Z.ltb_spec (zlen text) 1023).
  - rewrite take_ge by lia. cbn. destruct (is_src_file text); cbn; by rewrite ?app_nil_r.
  - rewrite dump_file_all by lia. done.
Qed.

Lemma announce_eq annotation echo h :
  announce annotation echo h = mkHost (ho_tty h ++ lines annotation echo) (ho_err h) (ho_temp h) (ho_files h) (ho_children h).
Proof.
  destruct h. unfold announce, lines, print_line. destruct annotation, echo; cbn; rewrite ?app_nil_r, <- ?app_assoc; reflexivity.
Qed.

Section Runs.
Context (sy : system) (win env_vars : list binding) (env_block text : cstr) (outcome : wait_outcome) (job_id : Z) (h : host).

(** The system does what it is asked for, and nothing is left of an earlier
    command of the job. *)
Record runs : Prop := {
  ru_env : MakeEnvBlock (kEnvBlockSize - 2) win env_vars = Some env_block;
  ru_wide : sy_wide_ok sy = true;
  ru_temp_ok : sy_temp_ok sy = true;
  ru_job : sy_job_error sy = None;
  ru_launch : sy_launch sy = inr (text, outcome);
  ru_temp : ho_temp h !! job_id = None \/ ho_temp h !! job_id = Some [] }.

Definition exit_code : Z := i32 match outcome with Completed code => code | Interrupted | WaitError => 1 end.

(** What a run of [cmd] leaves. *)
Definition after (cmd : cstr) (annotation echo : option cstr) : host :=
  mkHost (ho_tty h ++ lines annotation echo ++ shown text) (ho_err h) (<[job_id := []]> (ho_temp h)) (ho_files h)
    (ho_children h ++ [mkChild (bounded 8192 (quoted cmd)) env_block (ho_files h)]).

Lemma Win32Spawn_runs cmd annotation echo : runs ->
  Win32Spawn sy win job_id cmd env_vars annotation echo h = OK (after cmd annotation echo, exit_code).
Proof.
  intros [He Hw Hto Hj Hl Ht]. unfold Win32Spawn. rewrite announce_eq, He, Hw, Hj, Hl. cbn [negb]. unfold AllocFd. cbn [ho_temp].
  destruct Ht as [Ht|Ht]; rewrite Ht; rewrite ?Hto; unfold write_temp, start_child; cbn [ho_tty ho_err ho_temp ho_files ho_children];
    (erewrite FreeFd_shows by (cbn [ho_temp]; rewrite lookup_alter_eq, ?lookup_insert_eq, ?Ht; reflexivity));
    cbn [app mbind res_bind ho_tty ho_err ho_temp ho_files ho_children]; unfold after, exit_code; rewrite <- app_assoc; do 3 f_equal;
    apply map_eq; intros k; destruct (decide (k = job_id)) as [->|Hk]; by rewrite ?lookup_insert_eq, ?lookup_insert_ne, ?lookup_alter_ne, ?lookup_insert_ne by done.
Qed.
End Runs.
Arguments runs : clear implicits.
Arguments after : clear implicits.

(** ** The pieces of the command line *)

Lemma strstr_pieces pat s : forall a b, strstr pat s = Some (a, b) -> s = a ++ b /\ take (length pat) b = pat.
Proof.
  induction s as [|c s IH]; intros a b Hs; cbn in Hs; case_bool_decide as Hp; try (simplify_eq; done).
  destruct (strstr pat s) as [[a' b']|] eqn:E; [|done]. cbn in Hs. simplify_eq. destruct (IH _ _ eq_refl) as [-> ?]. done.
Qed.

Lemma cut_at_pieces d s : forall a b, cut_at d s = Some (a, b) -> s = a ++ d :: b.
Proof.
  induction s as [|c s IH]; intros a b Hs; cbn in Hs; [done|]. destruct (Ascii.eqb_spec c d) as [->|Hd]; [by simplify_eq|].
  destruct (cut_at d s) as [[a' b']|] eqn:E; [|done]. cbn in Hs. simplify_eq. by rewrite (IH _ _ eq_refl).
Qed.

Definition section (suffix : ascii) : cstr := "@RESPONSE" ++ [suffix].

Lemma response_pieces cmd_line pre response suffix option args :
  find_response cmd_line = Some (pre, response, suffix) -> cut_at suffix (drop (length response_prefix) response) = Some (option, args) ->
  cmd_line = pre ++ section suffix ++ option ++ suffix :: args.
Proof.
  unfold find_response. intros Hf Hc.
  assert (Hs : cmd_line = pre ++ response /\ take 10 response = section suffix).
  { destruct (strstr response_prefix cmd_line) as [[a b]|] eqn:E1; [|destruct (strstr always_response_prefix cmd_line) as [[a b]|] eqn:E2; [|done]];
      cbn in Hf; simplify_eq; match goal with H : strstr _ _ = Some _ |- _ => by apply strstr_pieces in H end. }
  destruct Hs as [-> Ht]. apply cut_at_pieces in Hc. f_equal. rewrite <- (take_drop 10 response) at 1. rewrite Ht. f_equal. exact Hc.
Qed.

Lemma runs_write_file sy win env_vars env_block text outcome job_id h name contents :
  runs sy win env_vars env_block text outcome job_id h -> runs sy win env_vars env_block text outcome job_id (write_file name contents h).
Proof. intros [? ? ? ? ? ?]. by constructor. Qed.

Lemma drop_newlines_length s : length (drop_newlines s) = length s.
Proof. apply length_map. Qed.

(** C33. A command line with a "@RESPONSE" section, on these conditions: what is
    before the section has at most 511 characters and the option at most 31, the
    sizes of the code's buffers (a longer command is cut and its response file is
    left behind, [long_command_truncated], [long_command_leaves_file]); the path
    of the directory for temporary files fits its buffer; and the system calls
    succeed. Then the section is cut into the command, the option and the
    arguments and nothing is lost; exactly one child is started, with the
    environment that was made for it. When the section asks for it or the command
    line is long, the child is given the command, the option and the name of a
    file that holds the arguments unchanged while it runs and is gone afterwards;
    else it is given the command and the arguments in one line. Its command line
    is whole, its exit code is the result, and the terminal shows the
    announcements and then its output, all of it unless it is the name of a
    source file alone. *)
Theorem response_section_runs sy win env_vars env_block text outcome job_id h cmd_line pre response suffix option args echo annotation :
  find_response cmd_line = Some (pre, response, suffix) ->
  cut_at suffix (drop (length response_prefix) response) = Some (option, args) ->
  zlen pre <= 511 -> zlen option <= 31 -> 0 < zlen (sy_temp_path sy) < MAX_PATH ->
  sy_resp_created sy = true -> sy_resp_closed sy = true ->
  runs sy win env_vars env_block text outcome job_id h ->
  cmd_line = pre ++ section suffix ++ option ++ suffix :: args /\
  exists h' c, ExecuteProcess sy win cmd_line env_vars job_id echo annotation h = OK (h', mkResult (exit_code outcome) false) /\
    ho_children h' = ho_children h ++ [c] /\ ch_env c = env_block /\
    ho_tty h' = ho_tty h ++ lines annotation (echoed echo cmd_line) ++ shown text /\ ho_temp h' !! job_id = Some [] /\
    if Ascii.eqb suffix always_response_suffix_char || (8000 <? zlen cmd_line) then
      ch_cmd c = quoted (pre ++ " "%char :: option ++ response_file_name sy) /\
      ch_files c !! response_file_name sy = Some args /\ ho_files h' = delete (response_file_name sy) (ho_files h)
    else ch_cmd c = quoted (drop_newlines (pre ++ args)) /\ ho_files h' = ho_files h.
Proof.
  intros Hf Hc Hp Ho Htp Hcr Hcl Hr. pose proof (response_pieces _ _ _ _ _ _ Hf Hc) as E. split; [done|].
  unfold ExecuteProcess. rewrite Hf, Hc. assert (El : zlen cmd_line = zlen pre + 10 + zlen option + 1 + zlen args).
  { rewrite E. unfold section. rewrite !length_app. cbn. lia. }
  destruct (Ascii.eqb suffix always_response_suffix_char || (8000 <? zlen cmd_line)) eqn:Elong.
  - unfold run_with_response. rewrite (proj2 (Z.leb_gt _ _)), (proj2 (Z.eqb_neq _ _)) by lia. cbn [orb]. rewrite Hcr, Hcl. cbn [negb].
    rewrite (proj2 (Z.eqb_eq _ (zlen pre))) by lia. cbn [negb]. rewrite (take_ge option) by lia.
    rewrite (Win32Spawn_runs _ _ _ _ _ _ _ _ _ _ _ (runs_write_file _ _ _ _ _ _ _ _ _ _ Hr)). cbn [mbind res_bind].
    assert (Hn : zlen (response_file_name sy) < MAX_PATH) by (apply bounded_length; reflexivity).
    assert (Hlen : zlen (pre ++ " "%char :: option ++ response_file_name sy) < 1000).
    { rewrite length_app. cbn [length]. rewrite length_app. unfold MAX_PATH in Hn. lia. }
    eexists _, _. split; [reflexivity|]. cbn. rewrite lookup_insert_eq. split_and!; [reflexivity|done|done|done| | |].
    + rewrite (bounded_short 8192 (pre ++ _)) by lia. rewrite bounded_short; [done|rewrite quoted_length; lia].
    + cbn. by rewrite lookup_insert_eq.
    + apply map_eq. intros k. destruct (decide (k = response_file_name sy)) as [->|Hk]; by rewrite ?lookup_delete_eq, ?lookup_delete_ne, ?lookup_insert_ne by done.
  - apply orb_false_iff in Elong as [_ Hs]. apply Z.ltb_ge in Hs. rewrite (take_ge pre) by lia.
    rewrite (bounded_short 8192 (pre ++ args)) by (rewrite length_app; lia).
    rewrite (Win32Spawn_runs _ _ _ _ _ _ _ _ _ _ _ Hr). cbn [mbind res_bind].
    eexists _, _. split; [reflexivity|]. cbn. rewrite lookup_insert_eq. split_and!; [reflexivity|done|done|done| |done].
    rewrite bounded_short; [done|]. rewrite quoted_length, drop_newlines_length, length_app. lia.
Qed.

Definition sample_system : system :=
  mkSystem true true None (inr (s2l "done", Completed 3)) (s2l "C:\tmp\") true true 12 1.

Definition empty_host : host := mkHost [] [] ∅ ∅ [].

Lemma response_section_runs_witness :
  exists h' c, ExecuteProcess sample_system [] (s2l "link @RESPONSE!@!a.o b.o") [] 0 false (Some (s2l "Linking")) empty_host =
      OK (h', mkResult 3 false) /\ ho_children h' = [c] /\
    ch_cmd c = quoted (s2l "link  @C:\tmp\tundra.resp.12.1") /\ ch_files c !! s2l "C:\tmp\tundra.resp.12.1" = Some (s2l "a.o b.o").
Proof.
  edestruct (response_section_runs sample_system [] [] [NUL; NUL] (s2l "done") (Completed 3) 0 empty_host (s2l "link @RESPONSE!@!a.o b.o")
    (s2l "link ") (s2l "@RESPONSE!@!a.o b.o") "!"%char (s2l "@") (s2l "a.o b.o") false (Some (s2l "Linking")))
    as (_ & h' & c & H1 & H2 & _ & _ & _ & H3); [reflexivity|reflexivity|vm_compute; discriminate|vm_compute; discriminate|vm_compute; split; reflexivity|done|done| |].
  { constructor; try reflexivity. by left. }
  exists h', c. split; [exact H1|]. split; [exact H2|]. cbn [Ascii.eqb orb] in H3. destruct H3 as (H3 & H4 & _). split; [exact H3|exact H4].
Defined.

(** ** Where the pieces do not fit *)

(** A command before the section that is longer than its array: in the short case
    the rest of it is lost without a message ... *)
Lemma long_command_truncated :
  let pre := replicate 600 "x"%char in
  exists h' c, ExecuteProcess sample_system [] (pre ++ s2l "@RESPONSE|@|a.o") [] 0 false None empty_host = OK (h', mkResult 3 false) /\
    ho_children h' = [c] /\ ch_cmd c = quoted (replicate 511 "x"%char ++ s2l "a.o").
Proof. eexists _, _. split_and!; vm_compute; reflexivity. Qed.

(** ... and in the long case the command fails and its response file stays. *)
Lemma long_command_leaves_file :
  let pre := replicate 600 "x"%char in
  exists h', ExecuteProcess sample_system [] (pre ++ s2l "@RESPONSE!@!a.o") [] 0 false None empty_host = OK (h', mkResult 1 false) /\
    ho_children h' = [] /\ ho_files h' !! s2l "C:\tmp\tundra.resp.12.1" = Some (s2l "a.o").
Proof. eexists. split_and!; vm_compute; reflexivity. Qed.

(** A command without a section that is almost as long as the array loses its
    closing quote. *)
Lemma closing_quote_lost :
  exists h' c, ExecuteProcess sample_system [] (replicate 8190 "x"%char) [] 0 false None empty_host = OK (h', mkResult 3 false) /\
    ho_children h' = [c] /\ ch_cmd c = "cmd.exe /c " ++ ascii_of_nat 34 :: replicate 8179 "x"%char.
Proof. eexists _, _. split_and!; vm_compute; reflexivity. Qed.

(** When the job object cannot be made, the message stays in the temporary file
    and is shown with the output of the next command of the thread. *)
Lemma job_error_shown_late :
  let failing := mkSystem true true (Some 8) (inl 0) (s2l "C:\tmp\") true true 12 1 in
  let message := "ERROR: Couldn't create job object. Win32 error = 8" ++ crlf in
  exists h1 h2, ExecuteProcess failing [] (s2l "a") [] 0 false None empty_host = OK (h1, mkResult 1 false) /\ ho_tty h1 = [] /\
    ExecuteProcess sample_system [] (s2l "b") [] 0 false None h1 = OK (h2, mkResult 3 false) /\ ho_tty h2 = message ++ s2l "done".
Proof. eexists _, _. split_and!; vm_compute; reflexivity. Qed.
