(* ===== verification/LuaPath.v ===== *)
(** * Path functions of the build scripts

    src/src/LuaPath.cpp: the native functions behind tundra.path. A function
    takes the C strings of its arguments and gives those it pushes; the path
    buffers are on the stack and hold anything before they are written. *)

From S2P Require Import Prelude PathUtil PathThms.

(** [strrchr]: the rest of the string from the last [c] on. *)
Fixpoint strrchr (s : cstr) (c : ascii) : option cstr :=
  match s with
  | [] => None
  | d :: s' =>
      if Ascii.eqb d NUL then None
      else match strrchr s' c with
           | Some r => Some r
           | None => if Ascii.eqb d c then Some s else None
           end
  end.

Definition period : ascii := "."%char.

Section Bindings.
Context (native : PathType) (junk_ends : list Z) (junk_data : cstr).

Definition init (path : cstr) : res PathBuffer := PathInit junk_ends junk_data path native.

Definition LuaPathSplit (path : cstr) : res (cstr * cstr) :=
  pbuf ← init path;
  if 1 <? pb_SegCount pbuf then
    dir ← PathFormatPartial pbuf 0 (pb_SegCount pbuf - 2);
    file ← PathFormatPartial pbuf (pb_SegCount pbuf - 1) (pb_SegCount pbuf - 1);
    OK (dir, file)
  else
    file ← PathFormat pbuf;
    OK (s2l ".", file).

Definition LuaPathNormalize (input : cstr) : res cstr :=
  buf ← init input;
  PathFormat buf.

Definition LuaPathJoin (p1 p2 : cstr) : res cstr :=
  buf ← init p1;
  buf ← PathConcatString native junk_ends junk_data buf p2;
  PathFormat buf.

Definition LuaPathGetFilenameDir (path : cstr) : res cstr :=
  buf ← init path;
  let '(buf, stripped) := PathStripLast buf in
  if stripped : bool then PathFormat buf else OK (s2l ".").

Definition LuaPathGetFilename (path : cstr) : res cstr :=
  pbuf ← init path;
  if 0 <? pb_SegCount pbuf then PathFormatPartial pbuf (pb_SegCount pbuf - 1) (pb_SegCount pbuf - 1)
  else OK [].

Definition LuaPathGetExtension (input : cstr) : cstr :=
  let input := match strrchr input slash with Some pslash => pslash | None => input end in
  let input := match strrchr input backslash with
               | Some pslash => if zlen pslash <? zlen input then pslash else input
               | None => input
               end in
  match strrchr input period with Some d => d | None => [] end.

Definition LuaPathDropSuffix (input : cstr) : cstr :=
  match strrchr input period with
  | Some d => take (length input - length d) input
  | None => input
  end.

Definition LuaPathGetFilenameBase (path : cstr) : res cstr :=
  pbuf ← init path;
  if 0 <? pb_SegCount pbuf then
    buf ← PathFormatPartial pbuf (pb_SegCount pbuf - 1) (pb_SegCount pbuf - 1);
    OK (match strrchr buf period with Some d => take (length buf - length d) buf | None => buf end)
  else OK [].

Definition LuaPathIsAbsolute (path : cstr) : res bool :=
  pbuf ← init path;
  OK (PathIsAbsolute pbuf).

End Bindings.

(** The cases of scripts/tundra/test/t_path.lua. *)
Definition is_ok {A} `{EqDecision A} (r : res A) (a : A) : bool := match r with OK b => bool_decide (b = a) | Err _ => false end.

Example lua_path_tests :
  forallb (fun '(i, o) => is_ok (LuaPathNormalize kUnix junk_e junk_d (s2l i)) (s2l o))
    [("foo", "foo"); ("foo/bar", "foo/bar"); ("foo//bar", "foo/bar"); ("foo/./bar", "foo/bar"); ("foo/../bar", "bar");
     ("../bar", "../bar"); ("foo/../../bar", "../bar")]%string &&
  forallb (fun '(a, b, o) => is_ok (LuaPathJoin kUnix junk_e junk_d (s2l a) (s2l b)) (s2l o))
    [("foo", "bar", "foo/bar"); ("foo", "../bar", "bar"); ("/foo", "bar", "/foo/bar")]%string &&
  forallb (fun '(i, d, f) => is_ok (LuaPathSplit kUnix junk_e junk_d (s2l i)) (s2l d, s2l f))
    [("", ".", ""); ("foo", ".", "foo"); ("foo/bar", "foo", "bar"); ("/foo/bar", "/foo", "bar"); ("x:\foo\bar", "x:/foo", "bar")]%string &&
  forallb (fun '(i, o) => is_ok (LuaPathGetFilenameDir kUnix junk_e junk_d (s2l i)) (s2l o)) [("foo/bar", "foo"); ("foo", "")]%string &&
  forallb (fun '(i, o) => is_ok (LuaPathGetFilename kUnix junk_e junk_d (s2l i)) (s2l o)) [("foo/bar", "bar"); ("foo", "foo")]%string &&
  forallb (fun '(i, o) => bool_decide (LuaPathGetExtension (s2l i) = s2l o))
    [("foo", ""); ("foo.", "."); ("foo.c", ".c"); ("foo/bar/.c", ".c"); ("foo/bar/baz.cpp", ".cpp")]%string &&
  forallb (fun '(i, o) => bool_decide (LuaPathDropSuffix (s2l i) = s2l o))
    [("foo.c", "foo"); ("foo/bar.c", "foo/bar"); ("/foo/bar.c", "/foo/bar")]%string &&
  forallb (fun '(i, o) => is_ok (LuaPathGetFilenameBase kUnix junk_e junk_d (s2l i)) (s2l o))
    [("foo1", "foo1"); ("foo2.c", "foo2"); ("/path/to/foo3", "foo3"); ("/path/to/foo4.c", "foo4")]%string &&
  is_ok (LuaPathIsAbsolute kUnix junk_e junk_d (s2l "/foo")) true && is_ok (LuaPathIsAbsolute kUnix junk_e junk_d (s2l "foo")) false = true.
Proof. vm_compute. reflexivity. Qed.

(** ** Part of a path *)

Lemma skip_segments_ok p a n : repr p a -> (n <= length (ap_Segs a))%nat ->
  forall k i, (i + k = n)%nat -> skip_segments k p (Z.of_nat i) (zlen (concat (take i (ap_Segs a)))) = OK (zlen (concat (take n (ap_Segs a)))).
Proof.
  intros HR Hn k. induction k as [|k IH]; intros i Hi; cbn [skip_segments]; [by replace n with i by lia|].
  destruct (lookup_lt_is_Some_2 (ap_Segs a) i) as [s Hs]; [lia|]. rewrite (seg_length _ _ HR i s Hs). cbn [mbind res_bind].
  pose proof (length_concat_take (ap_Segs a) (S i)) as Hm. pose proof (rp_size_max _ _ HR) as Hx. unfold kMaxPathLength in Hx.
  rewrite (length_concat_take_S _ _ _ Hs) in Hm. rewrite u16_small by (unfold in_u16; lia).
  rewrite <- (length_concat_take_S _ _ _ Hs). replace (Z.of_nat i + 1) with (Z.of_nat (S i)) by lia. apply IH. lia.
Qed.

(** The [..] a path begins with. *)
Definition ups (a : apath) : cstr := concat (replicate (Z.to_nat (ap_Up a)) (dotdot ++ [sep_of (ap_Type a)])).

(** The last segment alone is written with the leading [..] before it. *)
Lemma format_last p a segs t : repr p a -> ap_Segs a = segs ++ [t] -> segs <> [] \/ lead a = ups a -> zlen (ups a ++ t) + 1 < kMaxPathLength ->
  PathFormatPartial p (pb_SegCount p - 1) (pb_SegCount p - 1) = OK (ups a ++ t).
Proof.
  intros HR Ha Hlead Hl. unfold PathFormatPartial. cbv zeta. rewrite (rp_count _ _ HR), Ha, !(length_app segs). cbn [length].
  replace (Z.of_nat (length segs + 1) - 1) with (zlen segs) by lia.
  rewrite (rp_flags _ _ HR), (rp_up _ _ HR). replace (pathsep p) with (sep_of (ap_Type a)) by (unfold pathsep; by rewrite (rp_type _ _ HR)).
  match goal with |- context [?l ++ concat ?r] => assert (l ++ concat r = ups a) as -> end.
  { destruct (Z.eqb_spec (zlen segs) 0) as [E|E]; cbn [andb]; [|done]. destruct Hlead as [Hne|Hl']; [destruct segs; [done|cbn in E; lia]|].
    exact Hl'. }
  rewrite length_app in Hl. unfold kMaxPathLength in *. rewrite (proj2 (Z.ltb_ge _ _)) by lia. rewrite Nat2Z.id.
  pose proof (skip_segments_ok p a (length segs) HR) as Hskip. rewrite Ha, length_app in Hskip. cbn [length] in Hskip.
  specialize (Hskip ltac:(lia) (length segs) 0%nat eq_refl). change (skip_segments (length segs) p 0 0 = OK (zlen (concat (take (length segs) (segs ++ [t]))))) in Hskip.
  rewrite Hskip. cbn [mbind res_bind]. replace (Z.to_nat (zlen segs + 1 - zlen segs)) with 1%nat by lia. cbn [format_segments].
  assert (ap_Segs a !! length segs = Some t) as Ht by (rewrite Ha; apply list_lookup_middle; done).
  rewrite (seg_length _ _ HR _ _ Ht). cbn [mbind res_bind]. unfold kMaxPathLength. rewrite (proj2 (Z.leb_gt _ _)) by lia. rewrite Z.ltb_irrefl.
  pose proof (seg_bytes _ _ HR _ _ Ht) as Hb. rewrite Ha in Hb. rewrite Hb. cbn [mbind res_bind].
  rewrite (proj2 (Z.leb_gt _ _)) by (rewrite length_app; lia). done.
Qed.

(** Writing some of the first segments is writing the path cut off there. *)
Lemma cut_seg_length p k i : 0 <= i < k -> k <= pb_SegCount p < 2 ^ 16 -> SegLength p i = SegLength (with_count k p) i.
Proof.
  intros Hi Hk. unfold SegLength. cbn [with_count pb_SegCount pb_SegEnds]. rewrite (u16_small i) by (unfold in_u16; lia).
  by rewrite (proj2 (Z.ltb_lt i (pb_SegCount p))), (proj2 (Z.ltb_lt i k)) by lia.
Qed.

Lemma cut_format p k : k <= pb_SegCount p < 2 ^ 16 -> forall n i off out, 0 <= i -> i + Z.of_nat n <= k ->
  format_segments n p 0 i off out = format_segments n (with_count k p) 0 i off out.
Proof.
  intros Hk. induction n as [|n IH]; intros i off out Hi Hn; cbn [format_segments]; [done|].
  rewrite (cut_seg_length p k) by lia. destruct (SegLength _ i) as [len|]; [|done]. cbn [mbind res_bind].
  destruct (_ <=? _); [done|]. apply IH; lia.
Qed.

Lemma format_cut p k : 0 <= k <= pb_SegCount p -> pb_SegCount p < 2 ^ 16 -> PathFormatPartial p 0 (k - 1) = PathFormat (with_count k p).
Proof.
  intros Hk Hc. unfold PathFormat, PathFormatPartial. cbn [with_count pb_SegCount pb_Flags pb_LeadingDotDots pb_Type].
  change (pathsep (with_count k p)) with (pathsep p). destruct (kMaxPathLength <? _); [done|].
  change (skip_segments (Z.to_nat 0) p 0 0) with (OK 0). change (skip_segments (Z.to_nat 0) (with_count k p) 0 0) with (OK 0). cbn [mbind res_bind].
  rewrite (cut_format p k) by lia. done.
Qed.

Lemma format_snoc a segs t : ap_Segs a = segs ++ [t] -> zlen (format (with_segs segs a)) + zlen t <= zlen (format a).
Proof.
  intros Ha. unfold format. cbn [with_segs ap_Type ap_Segs]. change (lead (with_segs segs a)) with (lead a). rewrite Ha.
  destruct segs as [|s segs]; cbn [join app].
  - rewrite !length_app. cbn [length prefixed map concat]. lia.
  - unfold prefixed. rewrite map_app, concat_app, !length_app. cbn [map concat]. rewrite app_nil_r, length_cons. lia.
Qed.

Lemma ups_short a : zlen (ups a) <= zlen (lead a).
Proof. unfold lead, ups. rewrite length_app. lia. Qed.

Section Promises.
Context (native : PathType) (je : list Z) (jd : cstr).
Hypothesis ends_size : zlen je = kMaxPathSegments.
Hypothesis data_size : zlen jd = kMaxPathLength.

Lemma buffer_init_ok path : path_ok native path -> exists p, init native je jd path = OK p /\ repr p (parse native path).
Proof. intros [H1 H2 H3 H4 _]. by apply PathInit_ok. Qed.

Lemma normalize_ok path : path_ok native path -> LuaPathNormalize native je jd path = OK (format (parse native path)).
Proof.
  intros Hp. destruct (buffer_init_ok path Hp) as (p & Hi & HR). unfold LuaPathNormalize. rewrite Hi. cbn [mbind res_bind].
  apply PathFormat_ok; [done|]. apply Hp.
Qed.

(** A path of several segments is split before the last one. *)
Lemma split_ok path segs t : path_ok native path -> ap_Segs (parse native path) = segs ++ [t] -> segs <> [] ->
  LuaPathSplit native je jd path = OK (format (with_segs segs (parse native path)), ups (parse native path) ++ t).
Proof.
  intros Hp Hs Hne. destruct (buffer_init_ok path Hp) as (p & Hi & HR). unfold LuaPathSplit. rewrite Hi. cbn [mbind res_bind].
  set (a := parse native path) in *. pose proof (rp_count _ _ HR) as Hc. pose proof (rp_count_max _ _ HR) as Hm. unfold kMaxPathSegments in Hm.
  rewrite Hs in Hc, Hm. rewrite length_app in Hc, Hm. cbn [length] in Hc, Hm.
  assert (0 < zlen segs) by (destruct segs; [done|cbn; lia]). rewrite (proj2 (Z.ltb_lt _ _)) by lia.
  pose proof (po_format _ _ Hp) as Hf. fold a in Hf. pose proof (format_snoc a segs t Hs) as Hsn.
  replace (pb_SegCount p - 2) with (zlen segs - 1) by lia. rewrite (format_cut p (zlen segs)) by lia.
  pose proof (repr_take p a (length segs) HR ltac:(rewrite Hs, length_app; cbn; lia)) as HR'. rewrite Hs, take_app_length in HR'.
  rewrite (PathFormat_ok _ _ HR') by (unfold kMaxPathLength in *; lia). cbn [mbind res_bind].
  rewrite (format_last p a segs t HR Hs); [done|by left|].
  pose proof (ups_short a). unfold format in Hsn at 1. change (lead (with_segs segs a)) with (lead a) in Hsn. rewrite length_app in Hsn |- *. unfold kMaxPathLength in *. lia.
Qed.

(** The file name of a path, with the [..] the path begins with. *)
Lemma filename_ok path segs t : path_ok native path -> ap_Segs (parse native path) = segs ++ [t] -> segs <> [] ->
  LuaPathGetFilename native je jd path = OK (ups (parse native path) ++ t).
Proof.
  intros Hp Hs Hne. destruct (buffer_init_ok path Hp) as (p & Hi & HR). unfold LuaPathGetFilename. rewrite Hi. cbn [mbind res_bind].
  set (a := parse native path) in *. pose proof (rp_count _ _ HR) as Hc. rewrite Hs in Hc. rewrite length_app in Hc. cbn [length] in Hc.
  rewrite (proj2 (Z.ltb_lt _ _)) by lia. apply (format_last p a segs t); [done|done|by left|].
  pose proof (po_format _ _ Hp) as Hf. fold a in Hf. pose proof (format_snoc a segs t Hs) as Hsn. pose proof (ups_short a).
  unfold format in Hsn at 1. change (lead (with_segs segs a)) with (lead a) in Hsn. rewrite length_app in Hsn |- *. unfold kMaxPathLength in *. lia.
Qed.

(** The directory: everything but the last segment. *)
Lemma filename_dir_ok path segs t : path_ok native path -> ap_Segs (parse native path) = segs ++ [t] ->
  Z.land (ap_Flags (parse native path)) kFlagWindowsDevicePath = 0 \/ segs <> [] ->
  LuaPathGetFilenameDir native je jd path = OK (format (with_segs segs (parse native path))).
Proof.
  intros Hp Hs Hdev. destruct (buffer_init_ok path Hp) as (p & Hi & HR). unfold LuaPathGetFilenameDir. rewrite Hi. cbn [mbind res_bind].
  destruct (PathStripLast_ok _ _ HR) as (p' & Hst & HR').
  { destruct Hdev as [?|Hne]; [by left|right]. rewrite Hs, length_app. destruct segs; [done|cbn; lia]. }
  { rewrite Hs. by destruct segs. }
  rewrite Hst. rewrite Hs, removelast_last in HR'. apply PathFormat_ok; [done|].
  pose proof (po_format _ _ Hp). pose proof (format_snoc _ segs t Hs). unfold kMaxPathLength in *. lia.
Qed.

End Promises.

(** ** Splitting and joining *)

Lemma name_parses t : name_ok t -> t <> dot -> t <> dotdot -> parse kUnix t = mkAPath kUnix 0 0 [t].
Proof.
  intros [Hne Hn] Hd Hdd. rewrite parse_unix_eq.
  assert (tokens t = [t]) as -> by (unfold tokens; rewrite <- (app_nil_r t) at 1; rewrite tokens_from_name by done; cbn; by destruct t).
  rewrite resolve_names by (by repeat constructor). destruct (unix_prefix t) as [E|(rest & -> & E)]; rewrite E; [done|].
  by apply Forall_cons in Hn as [? _].
Qed.

Lemma aconcat_name a segs t : canonical a -> ap_Segs a = segs ++ [t] -> ap_Up a = 0 ->
  aconcat (with_segs segs a) (mkAPath kUnix 0 0 [t]) = a.
Proof.
  intros Hc Hs Hu. unfold aconcat. cbn [ap_Type ap_Flags ap_Up ap_Segs with_segs].
  change (aabsolute (mkAPath kUnix 0 0 [t])) with false. cbn iota.
  assert (adevice (with_segs segs a) = false) as ->.
  { unfold adevice. cbn [with_segs ap_Flags]. by destruct (cn_flags _ Hc) as [-> | ->]. }
  unfold keep_count, up_gain. replace (Z.to_nat (Z.max 0 (zlen segs - 0))) with (length segs) by lia. rewrite firstn_all, <- Hs.
  replace (Z.max 0 (0 - zlen segs)) with 0 by lia. rewrite Hu. destruct a; cbn in *. subst. by case_match.
Qed.

Lemma path_ok_fits path : path_ok kUnix path -> zlen (tokens path) <= kMaxPathSegments.
Proof. intros Hp. rewrite <- tokens_unix_rest. apply Hp. Qed.

(** The last segment split off a path and joined to the rest again is the path
    in normal form, when it does not begin with [..]. *)
Theorem lua_split_joins je jd path segs t : zlen je = kMaxPathSegments -> zlen jd = kMaxPathLength ->
  path_ok kUnix path -> ap_Up (parse kUnix path) = 0 -> ap_Segs (parse kUnix path) = segs ++ [t] -> segs <> [] ->
  exists dir, LuaPathSplit kUnix je jd path = OK (dir, t) /\
    LuaPathGetFilenameDir kUnix je jd path = OK dir /\ LuaPathGetFilename kUnix je jd path = OK t /\
    LuaPathJoin kUnix je jd dir t = LuaPathNormalize kUnix je jd path /\
    LuaPathNormalize kUnix je jd path = OK (format (parse kUnix path)).
Proof.
  intros He Hd Hp Hup Hs Hne. set (a := parse kUnix path) in *.
  pose proof (parse_canonical path (po_cstr _ _ Hp)) as Hc. fold a in Hc.
  assert (ups a = []) as Hups by (unfold ups; by rewrite Hup).
  exists (format (with_segs segs a)).
  rewrite (split_ok kUnix je jd He Hd path segs t Hp Hs Hne), (filename_dir_ok kUnix je jd He Hd path segs t Hp Hs (or_intror Hne)).
  rewrite (filename_ok kUnix je jd He Hd path segs t Hp Hs Hne), (normalize_ok kUnix je jd He Hd path Hp). fold a. rewrite Hups.
  split_and!; try done.
  assert (canonical (with_segs segs a)) as Hc'.
  { destruct Hc as [H1 H2 H3 H4]. split; cbn; try done. rewrite Hs in H4. by apply Forall_app in H4 as [? _]. }
  assert (name_ok t /\ t <> dot /\ t <> dotdot /\ cstr_ok t) as (Hn & Hd1 & Hd2 & Hcs).
  { pose proof (cn_segs _ Hc) as H4. rewrite Hs in H4. by apply Forall_app in H4 as [_ [? _]%Forall_cons]. }
  destruct (parse_format _ Hc') as [Epf Etf].
  pose proof (po_format _ _ Hp) as Hf. fold a in Hf. pose proof (format_snoc a segs t Hs) as Hsn. unfold kMaxPathLength in Hf.
  pose proof (parse_bounds path) as Hb. fold a in Hb. rewrite Hs, length_app in Hb. cbn [length] in Hb.
  pose proof (path_ok_fits path Hp) as Ht.
  destruct (PathInit_fits je jd (format (with_segs segs a)) He Hd) as (p & Ep & HRp); [|unfold kMaxPathLength; lia| |].
  { rewrite format_unix by done. apply Forall_app. split; [|by apply body_cstr]. case_match; repeat constructor. discriminate. }
  { rewrite Etf, length_app, length_replicate. cbn [with_segs ap_Up ap_Segs]. lia. }
  destruct (PathInit_fits je jd t He Hd) as (q & Eq & HRq); [done|unfold kMaxPathLength; lia| |].
  { unfold tokens. rewrite <- (app_nil_r t). destruct Hn as [Hne' Hn]. rewrite tokens_from_name by done. cbn. destruct t; cbn; unfold kMaxPathSegments; lia. }
  rewrite Epf in HRp. rewrite (name_parses t Hn Hd1 Hd2) in HRq. unfold LuaPathJoin, init. rewrite Ep. cbn [mbind res_bind].
  unfold PathConcatString. rewrite Eq. cbn [mbind res_bind].
  pose proof (aconcat_name a segs t Hc Hs Hup) as Eac.
  destruct (PathConcat_ok p q _ _ HRp HRq) as (r & Er & HRr).
  - cbn. rewrite Hup. lia.
  - rewrite Eac, Hs, length_app. cbn [length]. unfold kMaxPathSegments in *. lia.
  - rewrite Eac. pose proof (po_bytes _ _ Hp). done.
  - rewrite Er. cbn [mbind res_bind]. rewrite Eac in HRr. apply PathFormat_ok; [done|]. unfold kMaxPathLength. lia.
Qed.

Lemma lua_split_joins_witness : exists dir, LuaPathSplit kUnix junk_e junk_d (s2l "/src/./lib//a.c") = OK (dir, s2l "a.c") /\
    LuaPathGetFilenameDir kUnix junk_e junk_d (s2l "/src/./lib//a.c") = OK dir /\
    LuaPathGetFilename kUnix junk_e junk_d (s2l "/src/./lib//a.c") = OK (s2l "a.c") /\
    LuaPathJoin kUnix junk_e junk_d dir (s2l "a.c") = LuaPathNormalize kUnix junk_e junk_d (s2l "/src/./lib//a.c") /\
    LuaPathNormalize kUnix junk_e junk_d (s2l "/src/./lib//a.c") = OK (format (parse kUnix (s2l "/src/./lib//a.c"))).
Proof.
  apply (lua_split_joins junk_e junk_d (s2l "/src/./lib//a.c") [s2l "src"; s2l "lib"] (s2l "a.c")); try reflexivity; [|discriminate].
  split; [apply (bool_decide_eq_true_1 _); vm_compute; reflexivity|vm_compute; reflexivity|vm_compute; discriminate|vm_compute; discriminate|vm_compute; reflexivity].
Defined.

(** ** Suffixes *)

Lemma strrchr_none s c : cstr_ok s -> strrchr s c = None <-> c ∉ s.
Proof.
  induction 1 as [|d s Hd Hs IH]; cbn [strrchr]; [split; [intros _; apply not_elem_of_nil|done]|].
  rewrite (proj2 (Ascii.eqb_neq d NUL) Hd), not_elem_of_cons. destruct (strrchr s c).
  - split; [done|]. intros [_ Hn]. by apply IH in Hn.
  - destruct (Ascii.eqb_spec d c); [split; [done|intros [? _]; congruence]|]. split; [|done]. intros _. split; [congruence|by apply IH].
Qed.

Lemma strrchr_last c pre rest : cstr_ok (pre ++ c :: rest) -> c ∉ rest -> strrchr (pre ++ c :: rest) c = Some (c :: rest).
Proof.
  intros Hok Hn. induction pre as [|d pre IH]; cbn [app strrchr] in *; apply Forall_cons in Hok as [Hd Hok]; rewrite (proj2 (Ascii.eqb_neq _ NUL) Hd).
  - rewrite (proj2 (strrchr_none rest c Hok) Hn). by rewrite Ascii.eqb_refl.
  - by rewrite IH.
Qed.

(** After the last separator the rest of the name is as it was. *)
Lemma strrchr_keeps c pre rest : cstr_ok (pre ++ period :: rest) -> c <> period -> c ∉ rest ->
  exists pre', match strrchr (pre ++ period :: rest) c with Some s => s | None => pre ++ period :: rest end = pre' ++ period :: rest /\
    cstr_ok (pre' ++ period :: rest).
Proof.
  intros Hok Hc Hn. destruct (strrchr _ c) as [s|] eqn:E; [|by exists pre].
  induction pre as [|d pre IH]; cbn [app strrchr] in *; apply Forall_cons in Hok as [Hd Hok]; rewrite (proj2 (Ascii.eqb_neq _ NUL) Hd) in E.
  - rewrite (proj2 (strrchr_none rest c Hok) Hn) in E. destruct (Ascii.eqb_spec period c); congruence.
  - destruct (strrchr (pre ++ period :: rest) c) as [r|]; [simplify_eq; by apply IH|].
    destruct (Ascii.eqb d c); [|done]. simplify_eq. exists (d :: pre). split; [done|by constructor].
Qed.

(** A name without its suffix, and the suffix, make the name, when the last
    period is in its last segment. *)
Theorem lua_suffix_splits pre rest : cstr_ok (pre ++ period :: rest) -> period ∉ rest -> slash ∉ rest -> backslash ∉ rest ->
  LuaPathDropSuffix (pre ++ period :: rest) = pre /\ LuaPathGetExtension (pre ++ period :: rest) = period :: rest.
Proof.
  intros Hok Hp Hs Hb. split.
  - unfold LuaPathDropSuffix. rewrite strrchr_last by done. rewrite length_app, Nat.add_sub. apply take_app_length.
  - unfold LuaPathGetExtension. destruct (strrchr_keeps slash pre rest Hok) as (pre1 & -> & Hok1); [discriminate|done|].
    destruct (strrchr_keeps backslash pre1 rest Hok1) as (pre2 & E2 & Hok2); [discriminate|done|].
    assert (exists pre3, match strrchr (pre1 ++ period :: rest) backslash with
      | Some pslash => if zlen pslash <? zlen (pre1 ++ period :: rest) then pslash else pre1 ++ period :: rest
      | None => pre1 ++ period :: rest end = pre3 ++ period :: rest /\ cstr_ok (pre3 ++ period :: rest)) as (pre3 & -> & Hok3).
    { destruct (strrchr _ backslash); [case_match|]; eauto. }
    by rewrite strrchr_last.
Qed.

Lemma lua_suffix_splits_witness :
  LuaPathDropSuffix (s2l "lib.d/a" ++ period :: s2l "cpp") = s2l "lib.d/a" /\
  LuaPathGetExtension (s2l "lib.d/a" ++ period :: s2l "cpp") = period :: s2l "cpp".
Proof. apply lua_suffix_splits; apply (bool_decide_eq_true_1 _); vm_compute; reflexivity. Defined.

(** ** Where the functions surprise *)

(** The file name of a path above the current directory has its [..] too, so
    that joining it to the directory gives another file. *)
Lemma filename_keeps_dotdots :
  LuaPathSplit kUnix junk_e junk_d (s2l "../lib/a.c") = OK (s2l "../lib", s2l "../a.c") /\
  LuaPathJoin kUnix junk_e junk_d (s2l "../lib") (s2l "../a.c") = OK (s2l "../a.c").
Proof. by vm_compute. Qed.

(** A period in a directory's name counts when the file has none. *)
Lemma suffix_of_directory : LuaPathDropSuffix (s2l "lib.d/readme") = s2l "lib" /\ LuaPathGetExtension (s2l "lib.d/readme") = [].
Proof. by vm_compute. Qed.

(** The directory of a file in the root directory is the current one. *)
Lemma split_of_root : LuaPathSplit kUnix junk_e junk_d (s2l "/vmlinuz") = OK (s2l ".", s2l "/vmlinuz").
Proof. by vm_compute. Qed.
