(* ===== verification/LuaInterface.v ===== *)
(** * Native functions of the build scripts

    src/src/LuaInterface.cpp: the search for the directory of the scripts, and the
    functions for digests, directory listings, paths and the environment. A
    function takes the values of its arguments and gives those it pushes; what
    [table.sort] of the interpreter does is a class, as for [std::sort]. *)

From S2P Require Import Prelude CommonFns Hash HashImpl HashThms DagData SortedArray StatCache PathUtil PathThms FileSign.

(** ** The directory of the scripts *)

Section Scripts.
Context (native : PathType) (junk_ends : list Z) (junk_data : cstr) (stat : cstr -> stat_result).

(** A directory of the installation and the file that is looked for in it. *)
Definition dirs : list (cstr * cstr) := [(s2l "share/tundra", s2l "tundra.lua"); (s2l "scripts", s2l "tundra.lua")].

Fixpoint probe_dirs (dir : PathBuffer) (probes : list (cstr * cstr)) : res (option cstr) :=
  match probes with
  | [] => OK None
  | (m_Subdir, m_ProbeFile) :: probes =>
      sdir ← PathConcatString native junk_ends junk_data dir m_Subdir;
      test_file ← PathConcatString native junk_ends junk_data sdir m_ProbeFile;
      test_file_p ← PathFormat test_file;
      if Exists (GetFileInfo (stat test_file_p)) then script_dir ← PathFormat sdir; OK (Some script_dir)
      else probe_dirs dir probes
  end.

(** [while (PathStripLast(&dir))]. *)
Fixpoint find_upwards (fuel : nat) (dir : PathBuffer) : res (option cstr) :=
  match fuel with
  | O => Err OutOfFuel
  | S fuel =>
      let '(dir, stripped) := PathStripLast dir in
      if stripped : bool then
        found ← probe_dirs dir dirs;
        match found with Some script_dir => OK (Some script_dir) | None => find_upwards fuel dir end
      else OK None
  end.

(** [script_dir] is what an earlier call has found, [tundra_home] the variable of
    the environment. *)
Definition FindScriptDirectory (script_dir : cstr) (tundra_home : option cstr) (exe_path : cstr) : res cstr :=
  if negb (bool_decide (script_dir = [])) then OK script_dir
  else
    match tundra_home with
    | Some tmp => dir ← PathInit junk_ends junk_data tmp native; PathFormat dir
    | None =>
        dir ← PathInit junk_ends junk_data exe_path native;
        found ← find_upwards (S (Z.to_nat kMaxPathSegments)) dir;
        match found with Some script_dir => OK script_dir | None => Err (Croak "Can't detect script directory.") end
    end.

(** The members of the table [make_pathbuf] returns. *)
Definition LuaMakePathBuf (fn : cstr) : res (Z * Z * list Z * cstr) :=
  buffer ← PathInit junk_ends junk_data fn native;
  let count := pb_SegCount buffer in
  len ← (if 0 <? count then of_opt (pb_SegEnds buffer !!z (count - 1)) else OK 0);
  OK (pb_Flags buffer, pb_LeadingDotDots buffer, take (Z.to_nat count) (pb_SegEnds buffer), take (Z.to_nat len) (pb_Data buffer)).

End Scripts.

(** [package.path], cut to the size of its array. *)
Definition package_path (homedir : cstr) (luapath : option cstr) : cstr :=
  take 1023 (homedir ++ s2l "/?.lua;" ++ default [] luapath).

(** The value of a variable or the default, which must be there when the variable is not. *)
Definition LuaTundraGetEnv (getenv : cstr -> option cstr) (key : cstr) (fallback : option cstr) : res cstr :=
  match getenv key, fallback with
  | Some result, _ => OK result
  | None, Some value => OK value
  | None, None => Err (LuaError "key %s not present in environment (and no default given)")
  end.

(** ** Digests *)

Definition DoDigest (junk : cstr) (args : list cstr) : res HashDigest := HashFinalize (foldl HashUpdate (HashInit junk) args).

Definition LuaTundraDigestGuid (junk : cstr) (args : list cstr) : res cstr := digest ← DoDigest junk args; OK (Fast.DigestToString digest).

(** ** Listings *)

Section List.
Context (junk : cstr) `{StdSort} (stat : cstr -> stat_result) {reader : DirectoryReader}.

(** The tables of directories and of files, as [OnFileIter] fills them. *)
Definition OnFileIter (tables : list cstr * list cstr) (e : FileInfo * cstr) : list cstr * list cstr :=
  let '(info, name) := e in
  if IsFile info then (tables.1, tables.2 ++ [name]) else if IsDirectory info then (tables.1 ++ [name], tables.2) else tables.

Definition hash_name (h : HashState) (name : cstr) : HashState := HashAddSeparator (HashAddString h name).

(** The sorted tables and their digest. *)
Definition LuaListDirectory (dir : cstr) : res (list cstr * list cstr * HashDigest) :=
  let '(ds, fs) := foldl OnFileIter ([], []) (ListDirectory stat (read_names dir) dir) in
  let ds := std_sort string_lt ds in
  let fs := std_sort string_lt fs in
  digest ← HashFinalize (foldl hash_name (foldl hash_name (HashInit junk) ds) fs);
  OK (ds, fs, digest).

(** Every entry is a file or a directory, and not both. *)
Definition plain (e : FileInfo * cstr) : Prop := IsFile e.1 = negb (IsDirectory e.1).

Lemma tables_are l : forall ds fs, Forall plain l -> foldl OnFileIter (ds, fs) l =
  (ds ++ map snd (filter (fun e => IsDirectory e.1 = true) l), fs ++ map snd (filter (fun e => IsDirectory e.1 = false) l)).
Proof.
  induction l as [|[info name] l IH]; intros ds fs Hl; cbn [foldl]; [cbn; by rewrite !app_nil_r|]. apply Forall_cons in Hl as [Hp Hl]. unfold plain in Hp. cbn [fst] in Hp.
  unfold OnFileIter at 2. rewrite Hp. rewrite !filter_cons. cbn [fst snd]. destruct (IsDirectory info); cbn [negb].
  - rewrite IH by done. rewrite decide_True, decide_False by done. cbn. by rewrite <- app_assoc.
  - rewrite IH by done. rewrite decide_False, decide_True by done. cbn. by rewrite <- app_assoc.
Qed.

Lemma hash_names_same l : forall h, foldl hash_name h l = foldl (add_entry false) h l.
Proof. induction l as [|n l IH]; intros h; [done|]. apply IH. Qed.

(** What a script gets for a directory is what the driver computes to see whether
    the directory has changed, on the systems where case matters and for
    directories that hold nothing but files and directories. *)
Lemma listing_digest_is_signature dir : Forall plain (ListDirectory stat (read_names dir) dir) ->
  (r ← LuaListDirectory dir; OK r.2) = CalculateGlobSignatureFor false junk stat dir.
Proof.
  intros Hp. unfold LuaListDirectory, CalculateGlobSignatureFor. rewrite tables_are by done. cbn [app]. rewrite !hash_names_same.
  by destruct (HashFinalize _).
Qed.
End List.

(** The arguments of a digest are one message; where one ends does not count. *)
Lemma digest_of_arguments junk args : length junk = 64%nat -> DoDigest junk args = OK (digest_of (B := FastBackend) (concat args)).
Proof.
  intros Hj. unfold DoDigest. apply (HashFinalize_repr (B := FastBackend)). assert (H : forall h msg, hash_repr h msg -> hash_repr (foldl HashUpdate h args) (msg ++ concat args)).
  { induction args as [|d args IH]; intros h msg Hh; cbn; [by rewrite app_nil_r|]. rewrite app_assoc. by apply IH, HashUpdate_repr. }
  apply (H _ []). by apply HashInit_repr.
Qed.

(** ** The search *)

Section Search.
Context (je : list Z) (jd : cstr) (stat : cstr -> stat_result).
Context (Hje : zlen je = kMaxPathSegments) (Hjd : zlen jd = kMaxPathLength).

(** The directories above a path, the nearest first. *)
Definition above (a : apath) : list apath := map (fun k => with_segs (take k (ap_Segs a)) a) (rev (seq 0 (length (ap_Segs a)))).

(** A directory of the installation below another one, and the file in it. *)
Definition below (d : apath) (p : cstr * cstr) : apath * apath :=
  let home := aconcat d (parse kUnix p.1) in (home, aconcat home (parse kUnix p.2)).

Definition candidates (a : apath) : list (apath * apath) := concat (map (fun d => map (below d) dirs) (above a)).

Definition there (c : apath * apath) : bool := Exists (GetFileInfo (stat (format c.2))).

Definition nearest (cs : list (apath * apath)) : option cstr := '(home, _) ← List.find there cs; Some (format home).

(** There is room for the names that are appended. *)
Record roomy (a : apath) : Prop := {
  ro_type : ap_Type a = kUnix;
  ro_device : adevice a = false;
  ro_up : aabsolute a = true -> ap_Up a = 0;
  ro_segs : zlen (ap_Segs a) + 3 <= kMaxPathSegments;
  ro_bytes : zlen (concat (ap_Segs a)) + 22 <= kMaxPathLength;
  ro_format : zlen (format a) + 26 < kMaxPathLength }.

Lemma take_roomy a k : roomy a -> roomy (with_segs (take k (ap_Segs a)) a).
Proof.
  intros [H1 H2 H3 H4 H5 H6]. pose proof (length_concat_take (ap_Segs a) k). constructor; cbn [ap_Type ap_Flags ap_Up ap_Segs with_segs]; try done.
  - rewrite length_take. lia.
  - lia.
  - unfold format, with_segs, lead in *. cbn [ap_Type ap_Flags ap_Up ap_Segs] in *. rewrite !length_app in *.
    enough (length (join (sep_of (ap_Type a)) (take k (ap_Segs a))) <= length (join (sep_of (ap_Type a)) (ap_Segs a)))%nat by lia.
    rewrite <- (take_drop k (ap_Segs a)) at 2. destruct (take k (ap_Segs a)) as [|s l]; [cbn; lia|].
    cbn [join app]. unfold prefixed. rewrite map_app, concat_app, !length_app. lia.
Qed.

(** Appending names to a path. *)
Lemma append_names p a other names : repr p a -> parse kUnix other = mkAPath kUnix 0 0 names -> path_ok kUnix other ->
  ap_Type a = kUnix -> adevice a = false -> (aabsolute a = true -> ap_Up a = 0) ->
  zlen (ap_Segs a) + zlen names <= kMaxPathSegments -> zlen (concat (ap_Segs a)) + zlen (concat names) <= kMaxPathLength ->
  exists r, PathConcatString kUnix je jd p other = OK r /\ repr r (with_segs (ap_Segs a ++ names) a) /\
    aconcat a (parse kUnix other) = with_segs (ap_Segs a ++ names) a.
Proof.
  intros HR Ep Hok Ht Hd Hu Hs Hb. destruct (PathInit_ok je jd other kUnix) as (q & Eq & HQ); [done|done|apply Hok..|].
  assert (Ea : aconcat a (parse kUnix other) = with_segs (ap_Segs a ++ names) a).
  { rewrite Ep. unfold aconcat, keep_count, up_gain. cbn [ap_Up ap_Segs]. change (aabsolute (mkAPath kUnix 0 0 names)) with false. rewrite Hd. cbn iota.
    unfold with_segs. f_equal; [|rewrite take_ge by lia; done]. destruct (aabsolute a) eqn:E; [symmetry; by apply Hu|lia]. }
  unfold PathConcatString. rewrite Eq. cbn [mbind res_bind]. pose proof (rp_up_range _ _ HR) as Hup. unfold in_u16 in Hup.
  destruct (PathConcat_ok p q a (parse kUnix other) HR HQ) as (r & Er & HRr); [rewrite Ep; cbn; lia|rewrite Ea; cbn; rewrite length_app; lia|rewrite Ea; cbn; rewrite concat_app, length_app; lia|].
  rewrite Ea in HRr. eauto.
Qed.

Lemma format_append a names : zlen (format (with_segs (ap_Segs a ++ names) a)) <= zlen (format a) + zlen (concat names) + zlen names.
Proof.
  unfold format, with_segs, lead. cbn [ap_Type ap_Flags ap_Up ap_Segs]. rewrite !length_app. set (sep := sep_of (ap_Type a)).
  assert (Hp : forall l, zlen (prefixed sep l) = zlen (concat l) + zlen l).
  { induction l as [|x l IH]; [done|]. unfold prefixed in *. cbn [map concat length app]. rewrite !length_app. lia. }
  enough (zlen (join sep (ap_Segs a ++ names)) <= zlen (join sep (ap_Segs a)) + zlen (concat names) + zlen names) by lia.
  destruct (ap_Segs a) as [|s l]; cbn [join app length].
  - destruct names as [|x names]; [cbn; lia|]. cbn [join concat length]. rewrite !length_app. specialize (Hp names). lia.
  - unfold prefixed. rewrite map_app, concat_app. fold (prefixed sep l) (prefixed sep names). rewrite !length_app. specialize (Hp names). lia.
Qed.

Lemma probe_one p a sub names : repr p a -> roomy a -> parse kUnix sub = mkAPath kUnix 0 0 names -> path_ok kUnix sub ->
  zlen names <= 2 -> zlen (concat names) <= 12 ->
  exists sdir test_file, PathConcatString kUnix je jd p sub = OK sdir /\ PathConcatString kUnix je jd sdir (s2l "tundra.lua") = OK test_file /\
    PathFormat sdir = OK (format (below a (sub, s2l "tundra.lua")).1) /\ PathFormat test_file = OK (format (below a (sub, s2l "tundra.lua")).2).
Proof.
  intros HR [H1 H2 H3 H4 H5 H6] Ep Hok Hn Hc.
  destruct (append_names p a sub names HR Ep Hok H1 H2 H3) as (sdir & Es & HRs & Ea); [lia|lia|].
  set (a1 := with_segs (ap_Segs a ++ names) a) in *. assert (Hl : zlen (concat (ap_Segs a1)) = zlen (concat (ap_Segs a)) + zlen (concat names)) by (cbn; rewrite concat_app, length_app; lia).
  assert (Hs1 : zlen (ap_Segs a1) = zlen (ap_Segs a) + zlen names) by (cbn; rewrite length_app; lia).
  destruct (append_names sdir a1 (s2l "tundra.lua") [s2l "tundra.lua"] HRs) as (tf & Et & HRt & Ea2);
    [reflexivity|constructor; try (vm_compute; intros; discriminate); [repeat constructor; discriminate|reflexivity|reflexivity]|done|done|done|rewrite Hs1; cbn; lia|rewrite Hl; cbn; lia|].
  pose proof (format_append a names) as F1. pose proof (format_append a1 [s2l "tundra.lua"]) as F2. fold a1 in F1.
  assert (Hten : zlen (concat [s2l "tundra.lua"]) = 10 /\ zlen [s2l "tundra.lua"] = 1) by done. destruct Hten as [Hten Hone]. rewrite Hten, Hone in F2.
  exists sdir, tf. unfold below. cbn [fst snd]. rewrite Ea, Ea2. split_and!; [done|done|apply PathFormat_ok; [done|lia]|apply PathFormat_ok; [done|lia]].
Qed.

Lemma probe_dirs_ok p a : repr p a -> roomy a -> probe_dirs kUnix je jd stat p dirs = OK (nearest (map (below a) dirs)).
Proof.
  intros HR Hr. unfold dirs. cbn [probe_dirs map].
  destruct (probe_one p a (s2l "share/tundra") [s2l "share"; s2l "tundra"] HR Hr) as (s1 & t1 & E1 & E2 & E3 & E4);
    [reflexivity|constructor; try (vm_compute; intros; discriminate); [repeat constructor; discriminate|reflexivity|reflexivity]|cbn; lia|cbn; lia|].
  destruct (probe_one p a (s2l "scripts") [s2l "scripts"] HR Hr) as (s2 & t2 & E5 & E6 & E7 & E8);
    [reflexivity|constructor; try (vm_compute; intros; discriminate); [repeat constructor; discriminate|reflexivity|reflexivity]|cbn; lia|cbn; lia|].
  rewrite E1. cbn [mbind res_bind]. rewrite E2. cbn [mbind res_bind]. rewrite E4. cbn [mbind res_bind]. unfold nearest. cbn [List.find]. unfold there at 1.
  destruct (Exists (GetFileInfo (stat (format (below a (s2l "share/tundra", s2l "tundra.lua")).2)))); [by rewrite E3|].
  rewrite E5. cbn [mbind res_bind]. rewrite E6. cbn [mbind res_bind]. rewrite E8. cbn [mbind res_bind]. unfold there at 1.
  destruct (Exists (GetFileInfo (stat (format (below a (s2l "scripts", s2l "tundra.lua")).2)))); [by rewrite E7|done].
Qed.

Lemma nearest_app l k : nearest (l ++ k) = match nearest l with Some d => Some d | None => nearest k end.
Proof. unfold nearest. induction l as [|c l IH]; cbn [app List.find]; [done|]. destruct (there c); [by destruct c|done]. Qed.

Lemma find_upwards_ok a : roomy a -> forall n fuel p, (n <= length (ap_Segs a))%nat -> (n < fuel)%nat -> repr p (with_segs (take n (ap_Segs a)) a) ->
  find_upwards kUnix je jd stat fuel p =
  OK (nearest (concat (map (fun d => map (below d) dirs) (map (fun k => with_segs (take k (ap_Segs a)) a) (rev (seq 0 n)))))).
Proof.
  intros Hr. induction n as [|n IH]; intros fuel p Hn Hf HR; (destruct fuel as [|fuel]; [lia|]); cbn [find_upwards].
  - unfold PathStripLast. rewrite (rp_count _ _ HR). cbn [ap_Segs with_segs]. rewrite take_0. by destruct (is_device p).
  - assert (Hl : length (take (S n) (ap_Segs a)) = S n) by (rewrite length_take; lia).
    destruct (PathStripLast_ok p _ HR) as (p' & -> & HR').
    { left. pose proof (ro_device _ Hr) as Hd. unfold adevice in Hd. apply negb_false_iff, Z.eqb_eq in Hd. exact Hd. }
    { cbn [ap_Segs with_segs]. intros E. by rewrite E in Hl. }
    cbn [ap_Segs with_segs] in HR'. rewrite removelast_firstn_len, Hl in HR'. cbn [pred] in HR'. change (@firstn) with (@take) in HR'. rewrite take_take in HR'.
    replace (n `min` S n)%nat with n in HR' by lia. change (with_segs (take n (ap_Segs a)) (with_segs (take (S n) (ap_Segs a)) a)) with (with_segs (take n (ap_Segs a)) a) in HR'.
    rewrite (probe_dirs_ok p' (with_segs (take n (ap_Segs a)) a) HR') by (by apply take_roomy). cbn [mbind res_bind].
    rewrite seq_S, rev_app_distr. cbn [rev app map concat Nat.add]. rewrite nearest_app. destruct (nearest (map (below _) dirs)); [done|]. apply IH; [lia|lia|done].
Qed.
End Search.

(** The scripts are found: for the path of the program, in a buffer with room
    for the names that are tried, the search ends and gives the directory nearest
    to the program, going up to the root, whose share/tundra or scripts holds
    tundra.lua, the first of the two before the second; when there is none it ends
    the process. A directory found earlier or given by the environment is taken
    instead. *)
Theorem script_directory_found je jd stat exe_path : zlen je = kMaxPathSegments -> zlen jd = kMaxPathLength ->
  path_ok kUnix exe_path -> roomy (parse kUnix exe_path) ->
  FindScriptDirectory kUnix je jd stat [] None exe_path =
    match nearest stat (candidates (parse kUnix exe_path)) with
    | Some script_dir => OK script_dir
    | None => Err (Croak "Can't detect script directory.")
    end /\
  (forall home, path_ok kUnix home -> FindScriptDirectory kUnix je jd stat [] (Some home) exe_path = OK (format (parse kUnix home))) /\
  (forall cached home, cached <> [] -> FindScriptDirectory kUnix je jd stat cached home exe_path = OK cached).
Proof.
  intros He Hd Hp Hr. split_and!.
  - unfold FindScriptDirectory. rewrite bool_decide_true by done. cbn [negb]. destruct (PathInit_ok je jd exe_path kUnix He Hd) as (p & -> & HR); [apply Hp..|]. cbn [mbind res_bind].
    pose proof (ro_segs _ Hr) as Hs. rewrite (find_upwards_ok je jd stat He Hd _ Hr (length (ap_Segs (parse kUnix exe_path)))); [|lia|unfold kMaxPathSegments in *; lia|].
    + unfold candidates, above. cbn [mbind res_bind]. by destruct (nearest _ _).
    + rewrite take_ge by lia. by destruct (parse kUnix exe_path).
  - intros home Hh. unfold FindScriptDirectory. rewrite bool_decide_true by done. cbn [negb]. destruct (PathInit_ok je jd home kUnix He Hd) as (p & -> & HR); [apply Hh..|].
    cbn [mbind res_bind]. apply PathFormat_ok; [done|]. apply Hh.
  - intros cached home Hc. unfold FindScriptDirectory. by rewrite bool_decide_false.
Qed.

Module DemoScripts.
Definition stat (p : cstr) : stat_result := if bool_decide (p = s2l "/usr/local/share/tundra/tundra.lua") then StatOK S_IFREG 7 10 else StatFailed 2.
End DemoScripts.

Lemma script_directory_found_witness :
  FindScriptDirectory kUnix junk_e junk_d DemoScripts.stat [] None (s2l "/usr/local/bin/t2-lua") = OK (s2l "/usr/local/share/tundra").
Proof.
  destruct (script_directory_found junk_e junk_d DemoScripts.stat (s2l "/usr/local/bin/t2-lua")) as [E _]; [reflexivity|reflexivity| | |].
  - constructor; try (vm_compute; intros; discriminate); [repeat constructor; discriminate|reflexivity|reflexivity].
  - constructor; try (vm_compute; intros; discriminate); reflexivity.
  - rewrite E. vm_compute. reflexivity.
Defined.
