(* ===== verification/LuaProfiler.v ===== *)
(** * The profiler of the scripts

    src/src/LuaProfiler.cpp: a hook of the interpreter is called for every call
    and return of a function. It keeps one record per call stack, an invocation,
    in a hash table with chains, and adds to it the calls and the time spent with
    that stack. Pointers to invocations are indices into the list of those that
    have been allocated; a function is a number, 0 for the top level. *)

From stdpp Require Import gmap pretty strings.
From S2P Require Import Prelude CommonFns HashTable Counting.

(** What [lua_getinfo] says of a function. *)
Record lua_Debug : Type := mkDebug {
  ar_name : option cstr;
  ar_namewhat : option cstr;
  ar_source : cstr;
  ar_linedefined : Z }.

Record Invocation : Type := mkInvocation {
  iv_Hash : Z;
  iv_Function : Z;
  iv_Parent : option nat;
  iv_CallCount : Z;
  iv_Ticks : Z;
  iv_StartTick : Z;
  iv_Next : option nat }.

Record LuaProfilerState : Type := mkProfiler {
  lp_Functions : HashTable Z;
  lp_FunctionCount : Z;
  lp_InvocationCount : Z;
  lp_InvocationTableSize : Z;
  lp_InvocationTable : list (option nat);
  lp_Heap : list Invocation;
  lp_CurrentInvocation : option nat }.

Definition s_TopLevelString : cstr := s2l "toplevel;global;;0".
Definition s_TopLevel : Z := 0.

(** ** Functions *)

(** The text that stands for a function, cut to the size of the array. *)
Definition function_key (ar : lua_Debug) : cstr :=
  take 1023 (default [] (ar_name ar) ++ ";" ++ default [] (ar_namewhat ar) ++ ";" ++ ar_source ar ++ ";" ++ s2l (pretty (ar_linedefined ar))).

(** The function and its hash; a new one is the next number. *)
Definition FindFunction (self : LuaProfilerState) (ar : lua_Debug) : res (LuaProfilerState * Z * Z) :=
  let buffer := function_key ar in
  let hash := Djb2Hash buffer in
  r ← HashTableLookup false (lp_Functions self) hash buffer;
  match r with
  | Some f => OK (self, f, hash)
  | None =>
      let meta := lp_FunctionCount self + 1 in
      table ← HashTableInsert 0 (lp_Functions self) hash buffer meta;
      OK (mkProfiler table meta (lp_InvocationCount self) (lp_InvocationTableSize self) (lp_InvocationTable self) (lp_Heap self)
            (lp_CurrentInvocation self), meta, hash)
  end.

(** ** Invocations *)

Definition set_Next (next : option nat) (i : Invocation) : Invocation :=
  mkInvocation (iv_Hash i) (iv_Function i) (iv_Parent i) (iv_CallCount i) (iv_Ticks i) (iv_StartTick i) next.

Definition bucket (hash size : Z) : Z := Z.land hash (u32 (size - 1)).

(** One chain of the old table goes to the new one. *)
Fixpoint rehash_chain (fuel : nat) (new_size : Z) (chain : option nat) (heap : list Invocation) (new_table : list (option nat))
  : res (list Invocation * list (option nat)) :=
  match chain with
  | None => OK (heap, new_table)
  | Some c =>
      match fuel with
      | O => Err OutOfFuel
      | S fuel =>
          i ← of_opt (heap !! c);
          let new_index := bucket (iv_Hash i) new_size in
          old ← of_opt (new_table !!z new_index);
          rehash_chain fuel new_size (iv_Next i) (<[c := set_Next old i]> heap) (zinsert new_index (Some c) new_table)
      end
  end.

Definition RehashInvocationTable (new_size : Z) (self : LuaProfilerState) : res LuaProfilerState :=
  '(heap, new_table) ← foldM (fun '(heap, new_table) chain => rehash_chain (S (length heap)) new_size chain heap new_table)
    (lp_Heap self, replicate (Z.to_nat new_size) None) (lp_InvocationTable self);
  OK (mkProfiler (lp_Functions self) (lp_FunctionCount self) (lp_InvocationCount self) new_size new_table heap (lp_CurrentInvocation self)).

(** [while (l && l == r)]: up the two stacks. *)
Fixpoint MatchInvocation (fuel : nat) (heap : list Invocation) (l r : option nat) : res bool :=
  match l with
  | Some a =>
      if bool_decide (l = r) then
        match fuel with
        | O => Err OutOfFuel
        | S fuel => i ← of_opt (heap !! a); MatchInvocation fuel heap (iv_Parent i) (iv_Parent i)
        end
      else OK false
  | None => OK (bool_decide (l = r))
  end.

Fixpoint find_invocation (fuel : nat) (heap : list Invocation) (chain : option nat) (hash f : Z) (current : option nat) : res (option nat) :=
  match chain with
  | None => OK None
  | Some c =>
      match fuel with
      | O => Err OutOfFuel
      | S fuel =>
          i ← of_opt (heap !! c);
          same ← (if (iv_Hash i =? hash) && (iv_Function i =? f) then MatchInvocation (S (length heap)) heap (iv_Parent i) current else OK false);
          if same : bool then OK (Some c) else find_invocation fuel heap (iv_Next i) hash f current
      end
  end.

(** [double(count + 1) / double(size) > 0.75], which is exact for numbers of 32 bits. *)
Definition needs_rehash (self : LuaProfilerState) : bool := 3 * lp_InvocationTableSize self <? 4 * u32 (lp_InvocationCount self + 1).

Definition PushInvocation (f hash : Z) (self : LuaProfilerState) : res (LuaProfilerState * nat) :=
  let parent := lp_CurrentInvocation self in
  hash ← match parent with Some p => i ← of_opt (lp_Heap self !! p); OK (Z.lxor hash (iv_Hash i)) | None => OK hash end;
  chain ← of_opt (lp_InvocationTable self !!z bucket hash (lp_InvocationTableSize self));
  found ← find_invocation (S (length (lp_Heap self))) (lp_Heap self) chain hash f parent;
  match found with
  | Some c => OK (self, c)
  | None =>
      self ← (if needs_rehash self then RehashInvocationTable (u32 (lp_InvocationTableSize self * 2)) self else OK self);
      let index := bucket hash (lp_InvocationTableSize self) in
      next ← of_opt (lp_InvocationTable self !!z index);
      let i := length (lp_Heap self) in
      OK (mkProfiler (lp_Functions self) (lp_FunctionCount self) (lp_InvocationCount self) (lp_InvocationTableSize self)
            (zinsert index (Some i) (lp_InvocationTable self)) (lp_Heap self ++ [mkInvocation hash f parent 0 0 0 next])
            (lp_CurrentInvocation self), i)
  end.

(** ** The hook *)

Inductive hook : Type :=
| HookCall (ar : lua_Debug)
| HookReturn.

(** An event, and what the timer says when the hook begins and ends. *)
Record event : Type := mkEvent { ev_hook : hook; ev_now : Z; ev_later : Z }.

Definition add_ticks (now : Z) (i : Invocation) : Invocation :=
  mkInvocation (iv_Hash i) (iv_Function i) (iv_Parent i) (iv_CallCount i) (u64 (iv_Ticks i + u64 (now - iv_StartTick i))) (iv_StartTick i) (iv_Next i).

Definition add_call (i : Invocation) : Invocation :=
  mkInvocation (iv_Hash i) (iv_Function i) (iv_Parent i) (i32 (iv_CallCount i + 1)) (iv_Ticks i) (iv_StartTick i) (iv_Next i).

Definition set_start (now : Z) (i : Invocation) : Invocation :=
  mkInvocation (iv_Hash i) (iv_Function i) (iv_Parent i) (iv_CallCount i) (iv_Ticks i) now (iv_Next i).

(** Access through a pointer, which must not be null. *)
Definition update (p : option nat) (f : Invocation -> Invocation) (self : LuaProfilerState) : res LuaProfilerState :=
  match p with
  | None => Err (Undefined "access through a null pointer")
  | Some c =>
      i ← of_opt (lp_Heap self !! c);
      OK (mkProfiler (lp_Functions self) (lp_FunctionCount self) (lp_InvocationCount self) (lp_InvocationTableSize self)
            (lp_InvocationTable self) (<[c := f i]> (lp_Heap self)) (lp_CurrentInvocation self))
  end.

Definition set_current (p : option nat) (self : LuaProfilerState) : LuaProfilerState :=
  mkProfiler (lp_Functions self) (lp_FunctionCount self) (lp_InvocationCount self) (lp_InvocationTableSize self)
    (lp_InvocationTable self) (lp_Heap self) p.

Definition ProfilerLuaEvent (self : LuaProfilerState) (e : event) : res LuaProfilerState :=
  let i := lp_CurrentInvocation self in
  self ← update i (add_ticks (ev_now e)) self;
  self ←
    match ev_hook e with
    | HookCall ar =>
        '(self, f, hash) ← FindFunction self ar;
        '(self, c) ← PushInvocation f hash self;
        let self := set_current (Some c) self in
        update (Some c) add_call self
    | HookReturn =>
        inv ← of_opt (i ≫= fun c => lp_Heap self !! c);
        OK (set_current (iv_Parent inv) self)
    end;
  update (lp_CurrentInvocation self) (set_start (ev_later e)) self.

Definition LuaProfilerInit (start : Z) : res LuaProfilerState :=
  self ← RehashInvocationTable 1024 (mkProfiler HashTableInit 0 0 0 [] [] None);
  '(self, c) ← PushInvocation s_TopLevel (Djb2Hash s_TopLevelString) self;
  let self := set_current (Some c) self in
  update (Some c) (set_start start) self.

(** ** The report *)

(** The functions of a stack, the innermost first. *)
Fixpoint report_stack (fuel : nat) (heap : list Invocation) (stack : option nat) : res (list Z) :=
  match stack with
  | None => OK []
  | Some c =>
      match fuel with
      | O => Err OutOfFuel
      | S fuel => i ← of_opt (heap !! c); fs ← report_stack fuel heap (iv_Parent i); OK (iv_Function i :: fs)
      end
  end.

(** A line: the stack, the number of calls and the time. *)
Record line : Type := mkLine { ln_Stack : list Z; ln_Calls : Z; ln_Ticks : Z }.

Fixpoint report_chain (fuel : nat) (heap : list Invocation) (chain : option nat) : res (list line) :=
  match chain with
  | None => OK []
  | Some c =>
      match fuel with
      | O => Err OutOfFuel
      | S fuel =>
          i ← of_opt (heap !! c);
          stack ← report_stack (S (length heap)) heap (Some c);
          lines ← report_chain fuel heap (iv_Next i);
          OK (mkLine stack (iv_CallCount i) (iv_Ticks i) :: lines)
      end
  end.

(** The functions with their texts, and the lines. *)
Definition DumpReport (self : LuaProfilerState) : res (list (Z * cstr) * list line) :=
  functions ← HashTableWalk (lp_Functions self);
  lines ← foldM (fun acc chain => lines ← report_chain (S (length (lp_Heap self))) (lp_Heap self) chain; OK (acc ++ lines)) []
    (lp_InvocationTable self);
  OK ((s_TopLevel, s_TopLevelString) :: map (fun s => (sl_Payload s, sl_String s)) functions, lines).
