(* ===== verification/LuaProfilerThms.v ===== *)
(** * What the profiler of the scripts reports

    The call stacks of a run, their calls and the time spent with each, computed
    from the events alone, and the theorem that the report of LuaProfiler lists
    exactly those. *)

From stdpp Require Import gmap strings.
From S2P Require Import Prelude CommonFns HashTable Counting LuaProfiler.

Abbreviation context := (list cstr).

(** ** The run *)

(** The stack and the time it is on top of since; the spans of time spent with a
    stack, and the stacks that calls have made. *)
Record run : Type := mkRun {
  rn_ctx : context;
  rn_start : Z;
  rn_spans : list (context * Z);
  rn_calls : list context }.

Definition run_begin (start : Z) : run := mkRun [] start [] [].

(** [None] for a return from the top level. *)
Definition run_event (r : run) (e : event) : option run :=
  let spans := rn_spans r ++ [(rn_ctx r, ev_now e - rn_start r)] in
  match ev_hook e with
  | HookCall ar =>
      let ctx := function_key ar :: rn_ctx r in
      Some (mkRun ctx (ev_later e) spans (rn_calls r ++ [ctx]))
  | HookReturn =>
      match rn_ctx r with
      | [] => None
      | _ :: ctx => Some (mkRun ctx (ev_later e) spans (rn_calls r))
      end
  end.

Fixpoint run_events (r : run) (es : list event) : option run :=
  match es with
  | [] => Some r
  | e :: es => r ← run_event r e; run_events r es
  end.

Fixpoint time_in (c : context) (spans : list (context * Z)) : Z :=
  match spans with
  | [] => 0
  | (d, t) :: spans => (if bool_decide (d = c) then t else 0) + time_in c spans
  end.

(** The stacks of the run, each once. *)
Definition contexts (r : run) : list context := remove_dups ([] :: rn_calls r).
Definition functions (r : run) : list cstr := remove_dups (omap head (rn_calls r)).

Definition event_ok (e : event) : Prop := match ev_hook e with HookCall ar => cstr_ok (function_key ar) | HookReturn => True end.

Lemma count_app {A} `{EqDecision A} (p : A) a b : count p (a ++ b) = count p a + count p b.
Proof. induction a as [|x a IH]; cbn; [done|]. rewrite IH. lia. Qed.

Lemma time_in_app c a b : time_in c (a ++ b) = time_in c a + time_in c b.
Proof. induction a as [|[d t] a IH]; cbn; [done|]. rewrite IH. lia. Qed.

Lemma time_in_none c spans : (forall d t, (d, t) ∈ spans -> d <> c) -> time_in c spans = 0.
Proof.
  induction spans as [|[d t] spans IH]; intros H; cbn; [done|]. rewrite bool_decide_false by (apply (H d t); set_solver).
  rewrite IH; [done|]. intros d' t' Hin. apply (H d' t'). set_solver.
Qed.

(** ** The links between invocations *)

(** What does not change when time and calls are added. *)
Record node : Type := mkNode { nd_Hash : Z; nd_Function : Z; nd_Parent : option nat; nd_Next : option nat }.
Definition node_of (i : Invocation) : node := mkNode (iv_Hash i) (iv_Function i) (iv_Parent i) (iv_Next i).

Section Nodes.
Context (names : list cstr) (heap : list node).

Definition name_of (f : Z) : cstr := if f =? s_TopLevel then s_TopLevelString else default [] (names !! Z.to_nat (f - 1)).

Definition hash_at (p : option nat) : Z := match p ≫= fun q => heap !! q with Some n => nd_Hash n | None => 0 end.

Record nodes_ok : Prop := {
  no_parent : forall i n, heap !! i = Some n ->
    match nd_Parent n with
    | None => i = 0%nat /\ nd_Function n = 0
    | Some p => (p < i)%nat /\ 0 < nd_Function n <= zlen names
    end;
  no_unique : forall i j n m, heap !! i = Some n -> heap !! j = Some m ->
    nd_Function n = nd_Function m -> nd_Parent n = nd_Parent m -> i = j;
  no_hash : forall i n, heap !! i = Some n -> nd_Hash n = Z.lxor (Djb2Hash (name_of (nd_Function n))) (hash_at (nd_Parent n)) }.

(** The stack of an invocation. *)
Inductive ctx_of : nat -> context -> Prop :=
| ctx_top i n : heap !! i = Some n -> nd_Parent n = None -> ctx_of i []
| ctx_call i n p name c : heap !! i = Some n -> nd_Parent n = Some p -> names !! Z.to_nat (nd_Function n - 1) = Some name ->
    ctx_of p c -> ctx_of i (name :: c).

Lemma ctx_total : nodes_ok -> forall i, (i < length heap)%nat -> exists c, ctx_of i c.
Proof.
  intros [Hp _ _] i. induction i as [i IH] using lt_wf_ind. intros Hi. destruct (lookup_lt_is_Some_2 _ _ Hi) as [n Hn].
  specialize (Hp i n Hn). destruct (nd_Parent n) as [p|] eqn:Ep; [|eexists; by eapply ctx_top]. destruct Hp as [Hlt Hf].
  destruct (IH p) as [c Hc]; [done|lia|]. destruct (lookup_lt_is_Some_2 names (Z.to_nat (nd_Function n - 1))) as [name Hname]; [lia|].
  eexists. by eapply ctx_call.
Qed.

Lemma ctx_fun i c : ctx_of i c -> forall d, ctx_of i d -> c = d.
Proof.
  induction 1 as [i n Hn Hp|i n p name c Hn Hp Hname Hc IH]; intros d Hd; destruct Hd as [i m Hm Hq|i m q name' d Hm Hq Hname' Hd]; try congruence.
  assert (n = m) as -> by congruence. assert (p = q) as -> by congruence. f_equal; [congruence|by apply IH].
Qed.

Lemma ctx_inj : nodes_ok -> NoDup names -> forall i c, ctx_of i c -> forall j, ctx_of j c -> i = j.
Proof.
  intros Hok Hnd. pose proof (no_parent Hok) as Hp.
  induction 1 as [i n Hn Hpn|i n p name c Hn Hpn Hname Hc IH]; intros j Hj.
  - inversion Hj as [j' m Hm Hpm|]; subst. specialize (Hp i n Hn) as Hi. specialize (Hp j m Hm) as Hj'. rewrite Hpn in Hi. rewrite Hpm in Hj'. lia.
  - inversion Hj as [|j' m q name' d Hm Hpm Hname' Hd]; subst. apply IH in Hd as <-.
    specialize (Hp i n Hn) as Hi. specialize (Hp j m Hm) as Hj'. rewrite Hpn in Hi. rewrite Hpm in Hj'.
    apply (no_unique Hok i j n m Hn Hm); [|congruence]. pose proof (NoDup_lookup _ _ _ _ Hnd Hname Hname'). lia.
Qed.
End Nodes.

Lemma ctx_grow names heap names' heap' i c : ctx_of names heap i c -> ctx_of (names ++ names') (heap ++ heap') i c.
Proof. induction 1; [eapply ctx_top|eapply ctx_call]; eauto using lookup_app_l_Some. Qed.

Lemma ctx_lt names heap i c : ctx_of names heap i c -> (i < length heap)%nat.
Proof. destruct 1; by eapply lookup_lt_Some. Qed.

(** ** Chains *)

Fixpoint linked (heap : list node) (p : option nat) (l : list nat) : Prop :=
  match l with
  | [] => p = None
  | c :: l => p = Some c /\ exists n, heap !! c = Some n /\ linked heap (nd_Next n) l
  end.

Lemma linked_grow heap more l : forall p, linked heap p l -> linked (heap ++ more) p l.
Proof.
  induction l as [|c l IH]; intros p; cbn; [done|]. intros [-> (n & Hn & Hl)]. split; [done|]. exists n. split; [by apply lookup_app_l_Some|by apply IH].
Qed.

(** Every invocation is in one chain, that of its hash. *)
Definition chains_ok (heap : list node) (table : list (option nat)) (chains : list (list nat)) : Prop :=
  length chains = length table /\
  (forall k p l, table !! k = Some p -> chains !! k = Some l ->
     linked heap p l /\ forall c n, c ∈ l -> heap !! c = Some n -> bucket (nd_Hash n) 1024 = Z.of_nat k) /\
  concat chains ≡ₚ seq 0 (length heap).

Lemma bucket_range hash : 0 <= bucket hash 1024 < 1024.
Proof. unfold bucket. change (u32 (1024 - 1)) with (2 ^ 10 - 1). rewrite land_mask by lia. apply Z.mod_pos_bound. lia. Qed.

Lemma chain_length heap table chains k l : chains_ok heap table chains -> chains !! k = Some l -> (length l <= length heap)%nat.
Proof.
  intros (_ & _ & HP) Hk. apply Permutation_length in HP. rewrite length_seq in HP. rewrite <- HP.
  apply list_elem_of_split_length in Hk as (a & b & -> & _). rewrite concat_app, length_app. cbn. rewrite length_app. lia.
Qed.

Lemma node_lookup heap c i : heap !! c = Some i -> map node_of heap !! c = Some (node_of i).
Proof. intros H. change (map node_of heap) with (node_of <$> heap). by rewrite list_lookup_fmap, H. Qed.

Lemma node_lookup_inv heap c n : map node_of heap !! c = Some n -> exists i, heap !! c = Some i /\ node_of i = n.
Proof. change (map node_of heap) with (node_of <$> heap). rewrite list_lookup_fmap. destruct (heap !! c) as [i|]; [|done]. cbn. intros [= <-]. eauto. Qed.

Lemma nodes_update heap c i j : heap !! c = Some i -> node_of j = node_of i -> map node_of (<[c := j]> heap) = map node_of heap.
Proof. intros Hc Hj. change (map node_of ?l) with (node_of <$> l). rewrite list_fmap_insert, Hj. apply list_insert_id. by apply node_lookup. Qed.

(** Two stacks with the same top are the same stack. *)
Lemma MatchInvocation_spec names heap : nodes_ok names (map node_of heap) -> forall fuel l r, (forall a, l = Some a -> (a < fuel)%nat /\ (a < length heap)%nat) ->
  MatchInvocation fuel heap l r = OK (bool_decide (l = r)).
Proof.
  intros Hok. induction fuel as [|fuel IH]; intros l r Hl; cbn.
  - destruct l as [a|]; [by destruct (Hl a eq_refl); lia|done].
  - destruct l as [a|]; [|done]. destruct (Hl a eq_refl) as [Hf Ha]. case_bool_decide as Hr; [|done].
    destruct (lookup_lt_is_Some_2 _ _ Ha) as [i Hi]. rewrite Hi. cbn. rewrite IH; [by rewrite bool_decide_true|].
    intros b Hb. pose proof (no_parent _ _ Hok _ _ (node_lookup _ _ _ Hi)) as Hp. cbn in Hp. rewrite Hb in Hp. lia.
Qed.

Definition is_it (hash f : Z) (current : option nat) (n : node) : Prop := nd_Hash n = hash /\ nd_Function n = f /\ nd_Parent n = current.

Lemma find_invocation_spec names heap hash f current : nodes_ok names (map node_of heap) -> forall l fuel p, linked (map node_of heap) p l -> (length l < fuel)%nat ->
  (exists c n, find_invocation fuel heap p hash f current = OK (Some c) /\ c ∈ l /\ map node_of heap !! c = Some n /\ is_it hash f current n) \/
  (find_invocation fuel heap p hash f current = OK None /\ forall c n, c ∈ l -> map node_of heap !! c = Some n -> ~ is_it hash f current n).
Proof.
  intros Hok. induction l as [|c l IH]; intros fuel p Hl Hf; cbn in Hl.
  { subst. right. split; [by destruct fuel|]. intros c n Hc. by apply not_elem_of_nil in Hc. }
  destruct Hl as [-> (n & Hn & Hl)]. destruct fuel as [|fuel]; [lia|]. cbn [find_invocation].
  destruct (node_lookup_inv _ _ _ Hn) as (i & Hi & <-). rewrite Hi. cbn [of_opt mbind res_bind].
  assert (Hm : MatchInvocation (S (length heap)) heap (iv_Parent i) current = OK (bool_decide (iv_Parent i = current))).
  { apply (MatchInvocation_spec names); [done|]. intros a Ha. pose proof (no_parent _ _ Hok _ _ Hn) as Hp. cbn in Hp. rewrite Ha in Hp.
    apply lookup_lt_Some in Hi. lia. }
  assert (Hs : (if (iv_Hash i =? hash) && (iv_Function i =? f) then MatchInvocation (S (length heap)) heap (iv_Parent i) current else OK false) =
    OK (bool_decide (is_it hash f current (node_of i)))).
  { rewrite Hm. unfold is_it. cbn. destruct (Z.eqb_spec (iv_Hash i) hash), (Z.eqb_spec (iv_Function i) f); cbn; f_equal;
      [apply bool_decide_ext; naive_solver|symmetry; apply bool_decide_eq_false; naive_solver..]. }
  rewrite Hs. cbn [mbind res_bind]. case_bool_decide as Hit; [left; exists c, (node_of i); split_and!; [done|set_solver|done|done]|].
  destruct (IH fuel (iv_Next i) Hl ltac:(cbn in Hf; lia)) as [(d & m & Hd & Hin & Hdm & Him)|[Hd Hno]].
  - left. exists d, m. split_and!; [done|set_solver|done|done].
  - right. split; [done|]. intros d m [->|Hin]%elem_of_cons Hdm; [|by eapply Hno]. by assert (m = node_of i) as -> by congruence.
Qed.

(** ** The state *)

Record links_ok (names : list cstr) (s : LuaProfilerState) : Prop := {
  lo_count : lp_InvocationCount s = 0;
  lo_size : lp_InvocationTableSize s = 1024;
  lo_table : length (lp_InvocationTable s) = 1024%nat;
  lo_nodes : nodes_ok names (map node_of (lp_Heap s));
  lo_chains : exists chains, chains_ok (map node_of (lp_Heap s)) (lp_InvocationTable s) chains }.

(** The table of functions gives the names their numbers. *)
Record functions_ok (names : list cstr) (s : LuaProfilerState) : Prop := {
  fo_ok : ht_ok (lp_Functions s);
  fo_keyed : keyed false (lp_Functions s);
  fo_nodup : NoDup names;
  fo_count : lp_FunctionCount s = zlen names;
  fo_records : ht_RecordCount (lp_Functions s) = zlen names;
  fo_entries : map (fun e => (sl_Hash e, sl_String e, sl_Payload e)) (entries (lp_Functions s)) ≡ₚ imap (fun k n => (Djb2Hash n, n, Z.of_nat (S k))) names }.

Lemma function_entry names s n v : functions_ok names s ->
  table_map false (lp_Functions s) !! (Djb2Hash n, n) = Some v <-> exists k, names !! k = Some n /\ v = Z.of_nat (S k).
Proof.
  intros F. rewrite table_map_lookup by apply (fo_keyed _ _ F). split.
  - intros (e & He & Hk & <-). assert (Hin : (sl_Hash e, sl_String e, sl_Payload e) ∈ imap (fun k n => (Djb2Hash n, n, Z.of_nat (S k))) names).
    { rewrite <- (fo_entries _ _ F). apply list_elem_of_In, in_map_iff. exists e. split; [done|by apply list_elem_of_In]. }
    apply elem_of_lookup_imap_1 in Hin as (k & m & [= H1 H2 H3] & Hm). unfold slot_key in Hk. cbn in Hk. injection Hk as _ Hk. exists k. by subst.
  - intros (k & Hk & ->). assert (Hin : (Djb2Hash n, n, Z.of_nat (S k)) ∈ imap (fun k n => (Djb2Hash n, n, Z.of_nat (S k))) names)
      by (apply elem_of_lookup_imap_2 with (i := k) (x := n) (f := fun k n => (Djb2Hash n, n, Z.of_nat (S k))); done).
    rewrite <- (fo_entries _ _ F) in Hin. apply list_elem_of_In, in_map_iff in Hin as (e & [= H1 H2 H3] & He).
    exists e. split_and!; [by apply list_elem_of_In| |done]. unfold slot_key. cbn. congruence.
Qed.

(** A function that was seen keeps its number; a new one gets the next. *)
Lemma FindFunction_spec names s ar : functions_ok names s -> links_ok names s -> zlen names < 2 ^ 27 -> cstr_ok (function_key ar) ->
  exists names' s' k, FindFunction s ar = OK (s', Z.of_nat (S k), Djb2Hash (function_key ar)) /\
    names' !! k = Some (function_key ar) /\ functions_ok names' s' /\ links_ok names' s' /\
    lp_Heap s' = lp_Heap s /\ lp_CurrentInvocation s' = lp_CurrentInvocation s /\
    ((names' = names /\ function_key ar ∈ names) \/ (names' = names ++ [function_key ar] /\ function_key ar ∉ names)).
Proof.
  intros F L Hn Hc. unfold FindFunction. set (n := function_key ar) in *.
  rewrite (lookup_refines false) by (apply F || done). cbn [mbind res_bind canon].
  destruct (table_map false (lp_Functions s) !! (Djb2Hash n, n)) as [v|] eqn:E.
  - apply (function_entry names s n v F) in E as (k & Hk & ->). exists names, s, k. split_and!; try done. left. split; [done|]. by eapply list_elem_of_lookup_2.
  - destruct (insert_refines 0 false (lp_Functions s) (Djb2Hash n) n (lp_FunctionCount s + 1)) as (t & Ht & Hok & Hk & Hm & HP);
      [apply F|apply F|done|apply Djb2Hash_range|rewrite (fo_records _ _ F); lia|done|].
    rewrite Ht. cbn [mbind res_bind]. exists (names ++ [n]). eexists _, (length names). rewrite (fo_count _ _ F).
    assert (Hnew : n ∉ names).
    { intros (k & Hk')%list_elem_of_lookup_1. assert (Some (Z.of_nat (S k)) = None); [|done]. rewrite <- E. symmetry. apply (function_entry names s n _ F). eauto. }
    split; [do 3 f_equal; lia|]. split; [apply list_lookup_middle; done|]. split_and!; try done; [| |by right].
    + constructor; cbn; [done|done| |rewrite length_app; cbn; lia| |].
      * apply NoDup_app. split_and!; [apply F|set_solver|apply NoDup_singleton].
      * rewrite (count_entries _ Hok). apply Permutation_length in HP. rewrite HP. cbn [length].
        pose proof (fo_records _ _ F) as Hr. rewrite (count_entries _ (fo_ok _ _ F)) in Hr. rewrite length_app. cbn. lia.
      * rewrite HP. cbn [map sl_Hash sl_String sl_Payload]. rewrite imap_app. cbn. rewrite (fo_entries _ _ F), <- Permutation_cons_append, (fo_count _ _ F).
        replace (Z.of_nat (S (length names + 0))) with (zlen names + 1) by lia. reflexivity.
    + destruct L as [L1 L2 L3 [P U H] L5]. constructor; cbn; try done. constructor; [|done|].
      * intros i m Hi. specialize (P i m Hi). destruct (nd_Parent m); [|done]. rewrite length_app. cbn. lia.
      * intros i m Hi. rewrite (H i m Hi). f_equal. f_equal. unfold name_of. destruct (nd_Function m =? s_TopLevel) eqn:Ef; [done|].
        specialize (P i m Hi). zbool. destruct (nd_Parent m); [|destruct P; done]. rewrite lookup_app_l by lia. done.
Qed.

(** ** Finding or making the invocation of a call *)

(** A new invocation goes to the head of the chain of its hash. *)
Lemma chains_grow heap table chains k p n : chains_ok heap table chains -> table !! k = Some p -> bucket (nd_Hash n) 1024 = Z.of_nat k -> nd_Next n = p ->
  exists chains', chains_ok (heap ++ [n]) (<[k := Some (length heap)]> table) chains'.
Proof.
  intros (HL & HC & HP) Hk Hb Hp. destruct (lookup_lt_is_Some_2 chains k) as [l Hl]; [rewrite HL; by eapply lookup_lt_Some|].
  exists (<[k := length heap :: l]> chains). split_and!; [by rewrite !length_insert| |].
  - intros k' p' l' Hk' Hl'. destruct (decide (k' = k)) as [->|Hne].
    + rewrite list_lookup_insert_eq in Hk' by (by eapply lookup_lt_Some). rewrite list_lookup_insert_eq in Hl' by (by eapply lookup_lt_Some). simplify_eq. destruct (HC k _ l Hk Hl) as [Hlk Hbk]. split.
      * split; [done|]. exists n. split; [by apply list_lookup_middle|]. by apply linked_grow.
      * intros c m [->|Hc]%elem_of_cons Hm; [rewrite list_lookup_middle in Hm by done; by simplify_eq|].
        apply lookup_app_Some in Hm as [Hm|[Hge Hm]]; [by eapply Hbk|]. exfalso. assert (Hin : c ∈ concat chains).
        { apply list_elem_of_In, in_concat. exists l. split; apply list_elem_of_In; [by eapply list_elem_of_lookup_2|done]. }
        rewrite HP in Hin. apply elem_of_seq in Hin. lia.
    + rewrite list_lookup_insert_ne in Hk' by done. rewrite list_lookup_insert_ne in Hl' by done. destruct (HC k' p' l' Hk' Hl') as [Hlk Hbk]. split; [by apply linked_grow|].
      intros c m Hc Hm. apply lookup_app_Some in Hm as [Hm|[Hge Hm]]; [by eapply Hbk|]. exfalso. assert (Hin : c ∈ concat chains).
      { apply list_elem_of_In, in_concat. exists l'. split; apply list_elem_of_In; [by eapply list_elem_of_lookup_2|done]. }
      rewrite HP in Hin. apply elem_of_seq in Hin. lia.
  - rewrite (concat_push _ _ _ _ Hl), HP, length_app, Nat.add_comm. cbn [length Nat.add]. rewrite seq_S. cbn. by rewrite <- Permutation_cons_append.
Qed.

(** Who can be called: the top level once, and functions from an invocation. *)
Definition callable (names : list cstr) (heap : list node) (parent : option nat) (f : Z) : Prop :=
  match parent with
  | None => heap = [] /\ f = 0
  | Some p => (p < length heap)%nat /\ 0 < f <= zlen names
  end.

Lemma nodes_grow names heap parent f next : nodes_ok names heap -> callable names heap parent f ->
  (forall i m, heap !! i = Some m -> ~ (nd_Function m = f /\ nd_Parent m = parent)) ->
  nodes_ok names (heap ++ [mkNode (Z.lxor (Djb2Hash (name_of names f)) (hash_at heap parent)) f parent next]).
Proof.
  intros [P U H] Hcall Hnew. constructor.
  - intros i n [[Hlt Hi]|[Hi Hn]]%lookup_snoc_Some; [by apply P|]. subst. cbn. unfold callable in Hcall. destruct parent; [lia|]. destruct Hcall as [-> ->]. done.
  - intros i j n m [[Hi0 Hi]|[Hi Hn]]%lookup_snoc_Some [[Hj0 Hj]|[Hj Hm]]%lookup_snoc_Some Hf Hp; subst; cbn in *; [by eapply U| | |done].
    + by destruct (Hnew i n Hi).
    + by destruct (Hnew j m Hj).
  - intros i n Hi. assert (Hh : forall p, match p with Some q => (q < length heap)%nat | None => True end ->
      hash_at (heap ++ [mkNode (Z.lxor (Djb2Hash (name_of names f)) (hash_at heap parent)) f parent next]) p = hash_at heap p).
    { intros [q|] Hq; [|done]. unfold hash_at. cbn. by rewrite lookup_app_l. }
    apply lookup_snoc_Some in Hi as [[Hlt Hi]|[Hi Hn]].
    + rewrite Hh; [by apply (H i)|]. specialize (P i n Hi). destruct (nd_Parent n); [lia|done].
    + subst. cbn. rewrite Hh; [done|]. unfold callable in Hcall. destruct parent; [lia|done].
Qed.

Lemma PushInvocation_spec names s f : links_ok names s -> callable names (map node_of (lp_Heap s)) (lp_CurrentInvocation s) f ->
  exists s' j n, PushInvocation f (Djb2Hash (name_of names f)) s = OK (s', j) /\ links_ok names s' /\
    lp_Functions s' = lp_Functions s /\ lp_FunctionCount s' = lp_FunctionCount s /\ lp_CurrentInvocation s' = lp_CurrentInvocation s /\
    map node_of (lp_Heap s') !! j = Some n /\ nd_Function n = f /\ nd_Parent n = lp_CurrentInvocation s /\
    (s' = s \/ (j = length (lp_Heap s) /\ exists hash next, lp_Heap s' = lp_Heap s ++ [mkInvocation hash f (lp_CurrentInvocation s) 0 0 0 next])).
Proof.
  intros [L1 L2 L3 L4 (chains & L5)] Hcall. set (heap := map node_of (lp_Heap s)) in *. set (parent := lp_CurrentInvocation s) in *.
  set (h := Z.lxor (Djb2Hash (name_of names f)) (hash_at heap parent)).
  assert (Eh : match parent with Some p => i ← of_opt (lp_Heap s !! p); OK (Z.lxor (Djb2Hash (name_of names f)) (iv_Hash i))
               | None => OK (Djb2Hash (name_of names f)) end = OK h).
  { unfold h, hash_at. destruct parent as [p|]; cbn; [|by rewrite Z.lxor_0_r]. destruct Hcall as [Hp _]. unfold heap in *. rewrite length_map in Hp.
    destruct (lookup_lt_is_Some_2 _ _ Hp) as [i Hi]. rewrite (node_lookup _ _ _ Hi), Hi. done. }
  unfold PushInvocation. fold parent. rewrite Eh. cbn [mbind res_bind]. rewrite L2. pose proof (bucket_range h) as Hb. set (k := Z.to_nat (bucket h 1024)).
  assert (Hk : (k < length (lp_InvocationTable s))%nat) by (rewrite L3; unfold k; lia).
  destruct (lookup_lt_is_Some_2 _ _ Hk) as [chain Hchain]. pose proof L5 as (HL & HC & HP).
  assert (Hz : lp_InvocationTable s !!z bucket h 1024 = Some chain) by (unfold zlookup; rewrite bool_decide_true by lia; exact Hchain).
  rewrite Hz. cbn [of_opt mbind res_bind].
  destruct (lookup_lt_is_Some_2 chains k) as [l Hl]; [by rewrite HL|]. destruct (HC k chain l Hchain Hl) as [Hlink Hbk].
  destruct (find_invocation_spec names (lp_Heap s) h f parent L4 l (S (length (lp_Heap s))) chain Hlink) as [(c & n & Hfind & Hin & Hn & Hit)|[Hfind Hno]].
  { pose proof (chain_length _ _ _ _ _ L5 Hl) as Hll. unfold heap in Hll. rewrite length_map in Hll. lia. }
  - rewrite Hfind. cbn [mbind res_bind]. exists s, c, n. destruct Hit as (? & ? & ?). split_and!; try done; [by constructor; eauto|by left].
  - rewrite Hfind. cbn [mbind res_bind]. unfold needs_rehash. rewrite L1, L2. change (3 * 1024 <? 4 * u32 (0 + 1)) with false. cbn [mbind res_bind]. rewrite L2, Hz. cbn [of_opt mbind res_bind].
    assert (Hnew : forall i m, heap !! i = Some m -> ~ (nd_Function m = f /\ nd_Parent m = parent)).
    { intros i m Hi [Hf Hp]. assert (Hm : nd_Hash m = h) by (rewrite (no_hash _ _ L4 i m Hi), Hf, Hp; done).
      assert (Hin : i ∈ concat chains) by (rewrite HP; apply elem_of_seq; apply lookup_lt_Some in Hi; lia).
      apply list_elem_of_In, in_concat in Hin as (l' & Hl' & Hil). apply list_elem_of_In, list_elem_of_lookup_1 in Hl' as [k' Hk'].
      apply list_elem_of_In in Hil. destruct (lookup_lt_is_Some_2 (lp_InvocationTable s) k') as [p' Hp']; [rewrite <- HL; by eapply lookup_lt_Some|].
      destruct (HC k' p' l' Hp' Hk') as [_ Hb']. specialize (Hb' i m Hil Hi). assert (k' = k) as -> by (unfold k; rewrite <- Hm; lia).
      assert (l' = l) as -> by congruence. by apply (Hno i m Hil Hi). }
    eexists _, _, (mkNode h f parent chain). split; [reflexivity|]. cbn [lp_Heap lp_Functions lp_FunctionCount lp_CurrentInvocation]. rewrite map_app.
    split_and!; [|done..| |done|done|right; split; [done|]; eauto].
    + constructor; cbn [lp_InvocationCount lp_InvocationTableSize lp_InvocationTable lp_Heap]; rewrite ?map_app; [done|done|by rewrite zinsert_length|by apply nodes_grow|].
      unfold zinsert. rewrite bool_decide_true by lia. rewrite <- (length_map node_of). by eapply (chains_grow heap _ chains k chain); [| | unfold k; cbn; lia|].
    + change (map node_of [_]) with [mkNode h f parent chain]. apply list_lookup_middle. by rewrite length_map.
Qed.

(** ** The events *)

Definition with_heap (s : LuaProfilerState) (heap : list Invocation) : LuaProfilerState :=
  mkProfiler (lp_Functions s) (lp_FunctionCount s) (lp_InvocationCount s) (lp_InvocationTableSize s) (lp_InvocationTable s) heap (lp_CurrentInvocation s).

Lemma update_spec c f s i : lp_Heap s !! c = Some i -> update (Some c) f s = OK (with_heap s (<[c := f i]> (lp_Heap s))).
Proof. intros H. unfold update. by rewrite H. Qed.

Lemma functions_same names s s' : lp_Functions s' = lp_Functions s -> lp_FunctionCount s' = lp_FunctionCount s -> functions_ok names s -> functions_ok names s'.
Proof. intros E1 E2 [? ? ? ? ? ?]. constructor; rewrite ?E1, ?E2; done. Qed.

Lemma links_same names s s' : map node_of (lp_Heap s') = map node_of (lp_Heap s) -> lp_InvocationCount s' = lp_InvocationCount s ->
  lp_InvocationTableSize s' = lp_InvocationTableSize s -> lp_InvocationTable s' = lp_InvocationTable s -> links_ok names s -> links_ok names s'.
Proof. intros E1 E2 E3 E4 [? ? ? ? ?]. constructor; rewrite ?E1, ?E2, ?E3, ?E4; done. Qed.

(** Calls and time of every invocation are those of its stack. *)
Definition counted (names : list cstr) (heap : list Invocation) (calls : list context) (spans : list (context * Z)) : Prop :=
  forall i inv c, heap !! i = Some inv -> ctx_of names (map node_of heap) i c ->
    iv_CallCount inv = i32 (count c calls) /\ iv_Ticks inv = u64 (time_in c spans).

Lemma counted_update names heap calls spans calls' spans' i inv inv' d : nodes_ok names (map node_of heap) -> NoDup names ->
  counted names heap calls spans -> heap !! i = Some inv -> node_of inv' = node_of inv -> ctx_of names (map node_of heap) i d ->
  (forall c, c <> d -> count c calls' = count c calls /\ time_in c spans' = time_in c spans) ->
  iv_CallCount inv' = i32 (count d calls') -> iv_Ticks inv' = u64 (time_in d spans') ->
  counted names (<[i := inv']> heap) calls' spans'.
Proof.
  intros Hok Hnd Hc Hi Hnode Hd Hother H1 H2 j m c Hj Hctx. rewrite (nodes_update _ _ _ _ Hi Hnode) in Hctx.
  destruct (decide (j = i)) as [->|Hne].
  - rewrite list_lookup_insert_eq in Hj by (by eapply lookup_lt_Some). simplify_eq. by rewrite (ctx_fun _ _ _ _ Hctx _ Hd).
  - rewrite list_lookup_insert_ne in Hj by done. destruct (Hc j m c Hj Hctx) as [-> ->]. destruct (Hother c) as [-> ->]; [|done].
    intros ->. apply Hne. by eapply ctx_inj.
Qed.

Lemma i32_succ a : i32 (i32 a + 1) = i32 (a + 1).
Proof.
  unfold i32. replace ((a + 2 ^ 31) mod 2 ^ 32 - 2 ^ 31 + 1 + 2 ^ 31) with ((a + 2 ^ 31) mod 2 ^ 32 + 1) by lia.
  rewrite Zplus_mod_idemp_l. do 2 f_equal. lia.
Qed.

Lemma u64_add a b : u64 (u64 a + u64 b) = u64 (a + b).
Proof. unfold u64. by rewrite <- Zplus_mod. Qed.

Record sim (names : list cstr) (s : LuaProfilerState) (r : run) : Prop := {
  si_functions : functions_ok names s;
  si_links : links_ok names s;
  si_current : exists c i, lp_CurrentInvocation s = Some c /\ lp_Heap s !! c = Some i /\
    ctx_of names (map node_of (lp_Heap s)) c (rn_ctx r) /\ iv_StartTick i = rn_start r;
  si_counted : counted names (lp_Heap s) (rn_calls r) (rn_spans r);
  si_known : forall c, (exists i, ctx_of names (map node_of (lp_Heap s)) i c) <-> c = [] \/ c ∈ rn_calls r;
  si_spans : forall c t, (c, t) ∈ rn_spans r -> c = [] \/ c ∈ rn_calls r;
  si_names : forall n, n ∈ names <-> n ∈ omap head (rn_calls r) }.

(** Setting the start is the last thing the hook does. *)
Lemma set_start_sim names s r c i start : functions_ok names s -> links_ok names s -> lp_CurrentInvocation s = Some c -> lp_Heap s !! c = Some i ->
  ctx_of names (map node_of (lp_Heap s)) c (rn_ctx r) -> start = rn_start r -> counted names (lp_Heap s) (rn_calls r) (rn_spans r) ->
  (forall c, (exists i, ctx_of names (map node_of (lp_Heap s)) i c) <-> c = [] \/ c ∈ rn_calls r) ->
  (forall c t, (c, t) ∈ rn_spans r -> c = [] \/ c ∈ rn_calls r) -> (forall n, n ∈ names <-> n ∈ omap head (rn_calls r)) ->
  exists s', update (lp_CurrentInvocation s) (set_start start) s = OK s' /\ sim names s' r.
Proof.
  intros HF HL Hcur Hi Hctx Hs Hcount Hknown Hspans Hnames. rewrite Hcur. rewrite (update_spec _ _ _ _ Hi). eexists. split; [done|].
  assert (Hmap : map node_of (<[c := set_start start i]> (lp_Heap s)) = map node_of (lp_Heap s)) by (eapply nodes_update; done).
  constructor; cbn [lp_Heap with_heap lp_CurrentInvocation]; rewrite ?Hmap; try done.
  - by apply (functions_same names s).
  - apply (links_same names s); [exact Hmap|done..].
  - exists c, (set_start start i). split_and!; [done|apply list_lookup_insert_eq; by eapply lookup_lt_Some|done|done].
  - destruct (Hcount c i _ Hi Hctx) as [H1 H2]. eapply counted_update; try done; [apply HL|apply HF].
Qed.

Lemma old_ctx names heap names' heap' i d : nodes_ok names heap -> (i < length heap)%nat -> ctx_of (names ++ names') (heap ++ heap') i d -> ctx_of names heap i d.
Proof.
  intros Hok Hi Hd. destruct (ctx_total names heap Hok i Hi) as [c Hc]. by rewrite <- (ctx_fun _ _ _ _ (ctx_grow _ _ names' heap' _ _ Hc) _ Hd).
Qed.

(** The time until the event goes to the stack that ends or is covered. *)
Lemma event_begin names s r now : sim names s r ->
  exists c i s1, lp_CurrentInvocation s = Some c /\ update (lp_CurrentInvocation s) (add_ticks now) s = OK s1 /\
    functions_ok names s1 /\ links_ok names s1 /\ lp_CurrentInvocation s1 = Some c /\ lp_Heap s1 !! c = Some i /\
    map node_of (lp_Heap s1) = map node_of (lp_Heap s) /\ ctx_of names (map node_of (lp_Heap s1)) c (rn_ctx r) /\
    counted names (lp_Heap s1) (rn_calls r) (rn_spans r ++ [(rn_ctx r, now - rn_start r)]).
Proof.
  intros [HF HL (c & i & Hc & Hi & Hctx & Hs) Hcount _ _ _].
  assert (Hmap : map node_of (<[c := add_ticks now i]> (lp_Heap s)) = map node_of (lp_Heap s)) by (eapply nodes_update; done).
  exists c, (add_ticks now i). rewrite Hc, (update_spec _ _ _ _ Hi). eexists. split; [done|]. split; [done|].
  cbn [lp_Heap with_heap lp_CurrentInvocation]. rewrite Hmap. split_and!; try done.
  - by apply (functions_same names s).
  - apply (links_same names s); [exact Hmap|done..].
  - apply list_lookup_insert_eq. by eapply lookup_lt_Some.
  - destruct (Hcount c i _ Hi Hctx) as [H1 H2]. apply (counted_update names (lp_Heap s) (rn_calls r) (rn_spans r) _ _ c i _ (rn_ctx r));
      [apply HL|apply HF|done|done|done|done| |done|].
    + intros d Hd. rewrite time_in_app. cbn. rewrite bool_decide_false by done. split; [done|lia].
    + cbn. rewrite H2, Hs, time_in_app. cbn. rewrite bool_decide_true by done. rewrite u64_add. f_equal. lia.
Qed.

(** A stack that was never on top has no calls and no time. *)
Lemma new_context (r : run) d now : d <> [] -> d ∉ rn_calls r -> (rn_ctx r = [] \/ rn_ctx r ∈ rn_calls r) ->
  (forall c t, (c, t) ∈ rn_spans r -> c = [] \/ c ∈ rn_calls r) ->
  count d (rn_calls r) = 0 /\ time_in d (rn_spans r ++ [(rn_ctx r, now - rn_start r)]) = 0.
Proof.
  intros Hd Hn Hr Hs. split; [pose proof (count_nonneg d (rn_calls r)); pose proof (count_elem d (rn_calls r)); destruct (decide (0 < count d (rn_calls r))); [naive_solver|lia]|].
  apply time_in_none. intros c t Hin ->. apply elem_of_app in Hin as [Hin|Hin]; [destruct (Hs d t Hin); done|].
  apply list_elem_of_singleton in Hin as [= -> ->]. naive_solver.
Qed.

(** Calling a function from an invocation: what is there stays, and the stack
    with the function on top has an invocation, an old one or a new one. *)
Record called (names names' : list cstr) (heap heap' : list Invocation) (key : cstr) (ctx : context) (j : nat) : Prop := {
  ca_grow : exists x y, names' = names ++ x /\ heap' = heap ++ y;
  ca_ctx : ctx_of names' (map node_of heap') j (key :: ctx);
  ca_old : forall i d, ctx_of names' (map node_of heap') i d ->
    ctx_of names (map node_of heap) i d \/ (i = j /\ d = key :: ctx /\ (length heap <= j)%nat);
  ca_new : (length heap <= j)%nat -> exists hash f parent next, heap' !! j = Some (mkInvocation hash f parent 0 0 0 next);
  ca_names : forall m, m ∈ names' <-> m ∈ names \/ m = key;
  ca_length : (length names' <= S (length names))%nat }.

Lemma call_context names s ar c i ctx : functions_ok names s -> links_ok names s -> lp_CurrentInvocation s = Some c -> lp_Heap s !! c = Some i ->
  ctx_of names (map node_of (lp_Heap s)) c ctx -> cstr_ok (function_key ar) -> zlen names < 2 ^ 27 ->
  exists names' s2 f hash s3 j, FindFunction s ar = OK (s2, f, hash) /\ PushInvocation f hash s2 = OK (s3, j) /\
    functions_ok names' s3 /\ links_ok names' s3 /\ called names names' (lp_Heap s) (lp_Heap s3) (function_key ar) ctx j.
Proof.
  intros F1 L1 Hc1 Hi1 Hctx1 Hkey Hsize.
  destruct (FindFunction_spec names s ar F1 L1 Hsize Hkey) as (names' & s2 & k & E2 & Hk & F2 & L2 & Hheap2 & Hcur2 & Hnames').
  assert (Hk' : Z.to_nat (Z.of_nat (S k) - 1) = k) by lia.
  assert (Hn : name_of names' (Z.of_nat (S k)) = function_key ar).
  { unfold name_of. change s_TopLevel with 0. rewrite (proj2 (Z.eqb_neq _ _)) by lia. by rewrite Hk', Hk. }
  destruct (PushInvocation_spec names' s2 (Z.of_nat (S k)) L2) as (s3 & j & n & E3 & L3 & HF3 & HC3 & Hcur3 & Hj & Hjf & Hjp & Hcase).
  { rewrite Hcur2, Hc1. cbn. rewrite Hheap2, length_map. split; [by eapply lookup_lt_Some|]. apply lookup_lt_Some in Hk. lia. }
  rewrite Hn in E3. exists names', s2, (Z.of_nat (S k)), (Djb2Hash (function_key ar)), s3, j. rewrite Hheap2 in Hcase. split_and!; [done|done|by apply (functions_same names' s2)|done|].
  assert (Hx : exists x, names' = names ++ x) by (destruct Hnames' as [[-> _]|[-> _]]; [exists []; by rewrite app_nil_r|eauto]).
  assert (Hy : exists y, lp_Heap s3 = lp_Heap s ++ y) by (destruct Hcase as [->|(_ & ? & ? & ->)]; [exists []; by rewrite app_nil_r|eauto]).
  destruct Hx as [x Hx], Hy as [y Hy]. assert (Hmap3 : map node_of (lp_Heap s3) = map node_of (lp_Heap s) ++ map node_of y) by (by rewrite Hy, map_app).
  assert (Hctxj : ctx_of names' (map node_of (lp_Heap s3)) j (function_key ar :: ctx)).
  { eapply ctx_call; [exact Hj|by rewrite Hjp, Hcur2, Hc1|by rewrite Hjf, Hk'|]. rewrite Hx, Hmap3. by apply ctx_grow. }
  constructor; [by exists x, y|done| | | |].
  - intros i' d Hd. destruct (decide (i' < length (lp_Heap s))%nat) as [Hlt|Hge].
    + left. apply (old_ctx names _ x (map node_of y)); [apply L1|by rewrite length_map|]. by rewrite <- Hx, <- Hmap3.
    + right. pose proof (ctx_lt _ _ _ _ Hd) as Hlt. rewrite length_map in Hlt. destruct Hcase as [->|(Hje & h & nx & Hh)]; [by rewrite Hheap2 in Hlt|].
      rewrite Hh, length_app in Hlt. cbn in Hlt. assert (i' = j) as -> by lia. split_and!; [done|by eapply ctx_fun|lia].
  - intros Hge. destruct Hcase as [->|(Hje & h & nx & Hh)].
    + apply lookup_lt_Some in Hj. rewrite length_map, Hheap2 in Hj. lia.
    + rewrite Hh. do 4 eexists. by apply list_lookup_middle.
  - intros m. destruct Hnames' as [[-> Hin]|[-> Hin]]; [naive_solver|by rewrite elem_of_app, list_elem_of_singleton].
  - destruct Hnames' as [[-> _]|[-> _]]; [lia|rewrite length_app; cbn; lia].
Qed.

(** The counts are right for the new invocation too. *)
Lemma called_counted names names' heap heap' key ctx j calls spans : called names names' heap heap' key ctx j ->
  counted names heap calls spans -> ((length heap <= j)%nat -> count (key :: ctx) calls = 0 /\ time_in (key :: ctx) spans = 0) ->
  counted names' heap' calls spans.
Proof.
  intros [(x & y & Hx & Hy) Hj Hold Hnew _ _] Hc Hz i inv d Hi Hd. destruct (Hold i d Hd) as [Hd'|(-> & -> & Hge)].
  - apply (Hc i); [|done]. rewrite Hy in Hi. apply lookup_app_Some in Hi as [?|[Hge _]]; [done|]. apply ctx_lt in Hd'. rewrite length_map in Hd'. lia.
  - destruct (Hnew Hge) as (h & f & p & nx & Hn). rewrite Hn in Hi. injection Hi as <-. destruct (Hz Hge) as [-> ->]. done.
Qed.

Lemma called_known names names' heap heap' key ctx j calls : called names names' heap heap' key ctx j ->
  (forall c, (exists i, ctx_of names (map node_of heap) i c) <-> c = [] \/ c ∈ calls) ->
  forall c, (exists i, ctx_of names' (map node_of heap') i c) <-> c = [] \/ c ∈ calls ++ [key :: ctx].
Proof.
  intros [(x & y & Hx & Hy) Hj Hold _ _ _] Hknown d. rewrite elem_of_app, list_elem_of_singleton.
  assert (Hgr : forall i d, ctx_of names (map node_of heap) i d -> ctx_of names' (map node_of heap') i d) by (intros; rewrite Hx, Hy, map_app; by apply ctx_grow).
  split.
  - intros [i' Hd]. destruct (Hold i' d Hd) as [Hd'|(_ & -> & _)]; [|auto]. destruct (proj1 (Hknown d)); eauto.
  - intros [->|[Hd| ->]]; [destruct (proj2 (Hknown [])) as [i' ?]; eauto|destruct (proj2 (Hknown d)) as [i' ?]; eauto|eauto].
Qed.

Lemma sim_call names s r ar now later : sim names s r -> cstr_ok (function_key ar) -> zlen names < 2 ^ 27 ->
  let ctx := function_key ar :: rn_ctx r in
  exists names' s', ProfilerLuaEvent s (mkEvent (HookCall ar) now later) = OK s' /\
    sim names' s' (mkRun ctx later (rn_spans r ++ [(rn_ctx r, now - rn_start r)]) (rn_calls r ++ [ctx])) /\ (length names' <= S (length names))%nat.
Proof.
  intros HS Hkey Hsize ctx. destruct (event_begin names s r now HS) as (c & i & s1 & Hc & E1 & F1 & L1 & Hc1 & Hi1 & Hmap1 & Hctx1 & Hcnt1).
  unfold ProfilerLuaEvent. cbn [ev_now ev_hook ev_later]. rewrite E1. cbn [mbind res_bind].
  destruct (call_context names s1 ar c i (rn_ctx r) F1 L1 Hc1 Hi1 Hctx1 Hkey Hsize) as (names' & s2 & f & hash & s3 & j & E2 & E3 & F3 & L3 & HC).
  rewrite E2. cbn [mbind res_bind]. rewrite E3. cbn [mbind res_bind]. pose proof (si_known _ _ _ HS) as Hknown. rewrite <- Hmap1 in Hknown.
  assert (Hcnt3 : counted names' (lp_Heap s3) (rn_calls r) (rn_spans r ++ [(rn_ctx r, now - rn_start r)])).
  { eapply called_counted; [done|done|]. intros Hge. apply new_context; [done| |apply Hknown; eauto|apply (si_spans _ _ _ HS)].
    intros Hin. destruct (proj2 (Hknown ctx)) as [i0 Hi0]; [by right|]. pose proof (ctx_lt _ _ _ _ Hi0) as Hlt. rewrite length_map in Hlt.
    destruct (ca_grow _ _ _ _ _ _ _ HC) as (x & y & Hx & Hy). assert (i0 = j); [|lia].
    eapply (ctx_inj names'); [apply L3|apply F3| |apply (ca_ctx _ _ _ _ _ _ _ HC)]. rewrite Hx, Hy, map_app. by apply ctx_grow. }
  pose proof (ca_ctx _ _ _ _ _ _ _ HC) as Hctxj. pose proof (ctx_lt _ _ _ _ Hctxj) as Hlt. rewrite length_map in Hlt.
  destruct (lookup_lt_is_Some_2 _ _ Hlt) as [inv Hinv]. destruct (Hcnt3 j inv ctx Hinv Hctxj) as [Hcc Htt].
  rewrite (update_spec j add_call (set_current (Some j) s3) inv Hinv). cbn [mbind res_bind].
  assert (Hmap4 : map node_of (<[j := add_call inv]> (lp_Heap s3)) = map node_of (lp_Heap s3)) by (eapply nodes_update; done).
  edestruct (set_start_sim names' (with_heap (set_current (Some j) s3) (<[j := add_call inv]> (lp_Heap s3)))
    (mkRun ctx later (rn_spans r ++ [(rn_ctx r, now - rn_start r)]) (rn_calls r ++ [ctx])) j (add_call inv) later) as (s' & E' & S');
    cbn [lp_Heap with_heap set_current lp_CurrentInvocation rn_ctx rn_start rn_calls rn_spans]; rewrite ?Hmap4; try done.
  - by apply (functions_same names' s3).
  - apply (links_same names' s3); [exact Hmap4|done..].
  - apply list_lookup_insert_eq. by eapply lookup_lt_Some.
  - eapply (counted_update names' (lp_Heap s3)); [apply L3|apply F3|exact Hcnt3|done|done|exact Hctxj| | |done].
    + intros d Hd. rewrite count_app. cbn. rewrite bool_decide_false by done. split; [lia|done].
    + cbn. rewrite Hcc, count_app. cbn. rewrite bool_decide_true by done. by rewrite Z.add_0_r, i32_succ.
  - by eapply called_known.
  - intros d t [Hd|Hd]%elem_of_app; [apply (si_spans _ _ _ HS) in Hd; set_solver|]. apply list_elem_of_singleton in Hd as [= -> ->].
    destruct (proj1 (Hknown (rn_ctx r))); eauto. right. set_solver.
  - intros m. rewrite omap_app, elem_of_app, (ca_names _ _ _ _ _ _ _ HC). cbn. by rewrite list_elem_of_singleton, <- (si_names _ _ _ HS).
  - exists names', s'. split_and!; [exact E'|exact S'|apply HC].
Qed.

Lemma sim_return names s r f ctx now later : sim names s r -> rn_ctx r = f :: ctx ->
  exists s', ProfilerLuaEvent s (mkEvent HookReturn now later) = OK s' /\
    sim names s' (mkRun ctx later (rn_spans r ++ [(rn_ctx r, now - rn_start r)]) (rn_calls r)).
Proof.
  intros HS Hr. destruct (event_begin names s r now HS) as (c & i & s1 & Hc & E1 & F1 & L1 & Hc1 & Hi1 & Hmap1 & Hctx1 & Hcnt1).
  unfold ProfilerLuaEvent. cbn [ev_now ev_hook ev_later]. rewrite E1. cbn [mbind res_bind]. rewrite Hc. cbn [mbind option_bind]. rewrite Hi1. cbn [of_opt mbind res_bind].
  rewrite Hr in Hctx1. inversion Hctx1 as [|c' n p name d Hn Hp Hname Hd]; subst. rewrite (node_lookup _ _ _ Hi1) in Hn. injection Hn as <-. cbn in Hp.
  pose proof (ctx_lt _ _ _ _ Hd) as Hlt. rewrite length_map in Hlt. destruct (lookup_lt_is_Some_2 _ _ Hlt) as [j Hj].
  apply (set_start_sim names (set_current (iv_Parent i) s1) (mkRun ctx later (rn_spans r ++ [(rn_ctx r, now - rn_start r)]) (rn_calls r)) p j later); cbn; try done.
  - by apply (functions_same names s1).
  - by apply (links_same names s1).
  - rewrite Hmap1. apply (si_known _ _ _ HS).
  - pose proof (si_known _ _ _ HS (rn_ctx r)) as Hk. destruct (si_current _ _ _ HS) as (c0 & ? & _ & _ & Hc0 & _).
    intros d t [Hin|Hin]%elem_of_app; [by eapply (si_spans _ _ _ HS)|]. apply list_elem_of_singleton in Hin as [= -> ->]. apply Hk. eauto.
  - apply (si_names _ _ _ HS).
Qed.

Lemma sim_begin start : exists s, LuaProfilerInit start = OK s /\ sim [] s (run_begin start).
Proof.
  unfold LuaProfilerInit. set (s0 := mkProfiler HashTableInit 0 0 1024 (replicate 1024 None) [] None).
  change (RehashInvocationTable 1024 (mkProfiler HashTableInit 0 0 0 [] [] None)) with (OK s0). cbn [mbind res_bind].
  assert (L0 : links_ok [] s0).
  { constructor; cbn [s0 lp_InvocationCount lp_InvocationTableSize lp_InvocationTable lp_Heap]; [done|done|by rewrite length_replicate|constructor; intros ? ?; by rewrite ?lookup_nil|].
    exists (replicate 1024 []). split_and!; [by rewrite !length_replicate| |].
    - intros k p l [-> _]%lookup_replicate [-> _]%lookup_replicate. split; [done|]. intros c n Hc. by apply not_elem_of_nil in Hc.
    - generalize 1024%nat. intros n. induction n; [done|exact IHn]. }
  assert (F0 : functions_ok [] s0) by (constructor; cbn; [by left|apply (init_ok false)|constructor|done|done|done]).
  destruct (PushInvocation_spec [] s0 s_TopLevel L0) as (s1 & j & n & E1 & L1 & HF & HC & Hcur & Hj & Hjf & Hjp & Hcase); [done|].
  change (name_of [] s_TopLevel) with s_TopLevelString in E1. rewrite E1. cbn [mbind res_bind].
  destruct (node_lookup_inv _ _ _ Hj) as (inv & Hinv & Hnode).
  assert (Hheap : j = 0%nat /\ exists h nx, lp_Heap s1 = [mkInvocation h 0 None 0 0 0 nx]).
  { destruct Hcase as [->|(-> & h & nx & Hh)]; [by cbn in Hj|]. split; [done|]. by exists h, nx. }
  destruct Hheap as [-> (h & nx & Hheap)].
  assert (Hctx : forall i c, ctx_of [] (map node_of (lp_Heap s1)) i c <-> i = 0%nat /\ c = []).
  { intros i c. rewrite Hheap. split; [intros [i' m Hm Hp|i' m p name c' Hm Hp Hname]|].
    - destruct i' as [|i']; [done|by destruct i'].
    - by rewrite lookup_nil in Hname.
    - intros [-> ->]. by eapply ctx_top. }
  clearbody s0. apply (set_start_sim [] (set_current (Some 0%nat) s1) (run_begin start) 0 inv start);
    cbn [lp_Heap set_current lp_CurrentInvocation run_begin rn_ctx rn_start rn_calls rn_spans].
  - by apply (functions_same [] s0).
  - by apply (links_same [] s1).
  - reflexivity.
  - exact Hinv.
  - by apply Hctx.
  - reflexivity.
  - intros i m c Hi Hc. apply Hctx in Hc as [-> ->]. rewrite Hheap in Hi. by injection Hi as <-.
  - intros c. split; [intros [i Hi]; apply Hctx in Hi; naive_solver|]. intros [->|Hc]; [exists 0%nat; by apply Hctx|by apply not_elem_of_nil in Hc].
  - intros c t Hc. by apply not_elem_of_nil in Hc.
  - intros n'. split; intros Hn'; by apply not_elem_of_nil in Hn'.
Qed.

Lemma sim_events es : forall names s r r', sim names s r -> Forall event_ok es -> zlen names + zlen es < 2 ^ 27 -> run_events r es = Some r' ->
  exists names' s', foldM ProfilerLuaEvent s es = OK s' /\ sim names' s' r'.
Proof.
  induction es as [|e es IH]; intros names s r r' HS Hok Hn Hr; cbn in *; [simplify_eq; eauto|].
  apply Forall_cons in Hok as [He Hok]. destruct (run_event r e) as [r1|] eqn:E1; [|done]. cbn in Hr.
  destruct e as [[ar|] now later]; unfold run_event in E1; cbn in E1.
  - injection E1 as <-. destruct (sim_call names s r ar now later HS He ltac:(lia)) as (names1 & s1 & -> & HS1 & Hl). cbn. eapply IH; [done|done|lia|done].
  - destruct (rn_ctx r) as [|f ctx] eqn:Ec; [done|]. injection E1 as <-. destruct (sim_return names s r f ctx now later HS Ec) as (s1 & -> & HS1). cbn.
    rewrite Ec in HS1. eapply IH; [done|done|lia|done].
Qed.

(** ** The report *)

Definition id_of (names : list cstr) (n : cstr) : Z := match list_find (fun m => m = n) names with Some (k, _) => Z.of_nat (S k) | None => 0 end.

Lemma id_of_spec names k n : NoDup names -> names !! k = Some n -> id_of names n = Z.of_nat (S k).
Proof.
  intros Hnd Hk. unfold id_of. destruct (list_find _ names) as [[j m]|] eqn:E.
  - apply list_find_Some in E as (Hj & -> & _). by rewrite (NoDup_lookup _ _ _ _ Hnd Hj Hk).
  - apply list_find_None in E. rewrite Forall_forall in E. by destruct (E n (list_elem_of_lookup_2 _ _ _ Hk)).
Qed.

Definition line_of (names : list cstr) (r : run) (c : context) : line :=
  mkLine (map (id_of names) c ++ [s_TopLevel]) (i32 (count c (rn_calls r))) (u64 (time_in c (rn_spans r))).

Lemma report_stack_spec names heap : nodes_ok names (map node_of heap) -> NoDup names -> forall c i fuel, ctx_of names (map node_of heap) i c -> (i < fuel)%nat ->
  report_stack fuel heap (Some i) = OK (map (id_of names) c ++ [s_TopLevel]).
Proof.
  intros Hok Hnd. induction c as [|name c IH]; intros i fuel Hc Hf; (destruct fuel as [|fuel]; [lia|]); cbn [report_stack].
  - inversion Hc as [i' n Hn Hp|]; subst. pose proof (no_parent _ _ Hok _ _ Hn) as Hz. destruct (node_lookup_inv _ _ _ Hn) as (inv & Hi & <-).
    cbn in Hp, Hz. rewrite Hp in Hz. rewrite Hi. cbn. rewrite Hp. destruct Hz as [_ ->]. by destruct fuel.
  - inversion Hc as [|i' n p name' c' Hn Hp Hname Hd]; subst. pose proof (no_parent _ _ Hok _ _ Hn) as Hz.
    destruct (node_lookup_inv _ _ _ Hn) as (inv & Hi & <-). cbn in Hp, Hz, Hname. rewrite Hp in Hz. rewrite Hi. cbn [of_opt mbind res_bind]. rewrite Hp.
    rewrite (IH p fuel Hd) by lia. cbn. rewrite (id_of_spec _ _ _ Hnd Hname). do 2 f_equal. lia.
Qed.

Lemma report_chain_spec names s r : sim names s r -> forall l fuel p, linked (map node_of (lp_Heap s)) p l -> (length l < fuel)%nat ->
  exists ds, report_chain fuel (lp_Heap s) p = OK (map (line_of names r) ds) /\ Forall2 (ctx_of names (map node_of (lp_Heap s))) l ds.
Proof.
  intros HS. pose proof (lo_nodes _ _ (si_links _ _ _ HS)) as Hok. pose proof (fo_nodup _ _ (si_functions _ _ _ HS)) as Hnd.
  induction l as [|c l IH]; intros fuel p Hl Hf; cbn in Hl; [subst; exists []; split; [by destruct fuel|constructor]|].
  destruct Hl as [-> (n & Hn & Hl)]. destruct fuel as [|fuel]; [lia|]. destruct (node_lookup_inv _ _ _ Hn) as (inv & Hi & <-).
  cbn [report_chain]. rewrite Hi. cbn [of_opt mbind res_bind]. pose proof (lookup_lt_Some _ _ _ Hn) as Hlt.
  destruct (ctx_total _ _ Hok c Hlt) as [d Hd]. rewrite length_map in Hlt. rewrite (report_stack_spec names _ Hok Hnd d c) by (done || lia). cbn [mbind res_bind].
  destruct (IH fuel (iv_Next inv) Hl ltac:(cbn in Hf; lia)) as (ds & -> & Hds). cbn [mbind res_bind].
  exists (d :: ds). split; [|by constructor]. destruct (si_counted _ _ _ HS c inv d Hi Hd) as [H1 H2]. unfold line_of at 1. cbn. by rewrite H1, H2.
Qed.

Lemma report_table_spec names s r : sim names s r -> forall table chains acc,
  Forall2 (fun p l => linked (map node_of (lp_Heap s)) p l /\ (length l <= length (lp_Heap s))%nat) table chains ->
  exists ds, foldM (fun acc chain => lines ← report_chain (S (length (lp_Heap s))) (lp_Heap s) chain; OK (acc ++ lines)) acc table =
      OK (acc ++ map (line_of names r) ds) /\ Forall2 (ctx_of names (map node_of (lp_Heap s))) (concat chains) ds.
Proof.
  intros HS table chains acc H. revert acc. induction H as [|p l table chains [Hl Hlen] H IH]; intros acc; cbn [foldM concat].
  { exists []. cbn. rewrite app_nil_r. split; [done|constructor]. }
  destruct (report_chain_spec names s r HS l (S (length (lp_Heap s))) p Hl ltac:(lia)) as (ds & -> & Hds). cbn [mbind res_bind].
  destruct (IH (acc ++ map (line_of names r) ds)) as (es & -> & Hes). exists (ds ++ es). rewrite map_app, app_assoc. split; [done|]. by apply Forall2_app.
Qed.

(** The lines are those of the stacks of the run, each once. *)
Lemma report_lines names s r : sim names s r ->
  exists lines, foldM (fun acc chain => lines ← report_chain (S (length (lp_Heap s))) (lp_Heap s) chain; OK (acc ++ lines)) [] (lp_InvocationTable s) = OK lines /\
    lines ≡ₚ map (line_of names r) (contexts r).
Proof.
  intros HS. pose proof (lo_nodes _ _ (si_links _ _ _ HS)) as Hok. pose proof (fo_nodup _ _ (si_functions _ _ _ HS)) as Hnd.
  destruct (lo_chains _ _ (si_links _ _ _ HS)) as (chains & HC). pose proof HC as (HL & Hlink & HP).
  destruct (report_table_spec names s r HS (lp_InvocationTable s) chains []) as (ds & E & Hds).
  { apply Forall2_same_length_lookup. split; [done|]. intros k p l Hp Hl. split; [by apply (Hlink k)|].
    pose proof (chain_length _ _ _ _ _ HC Hl) as H. by rewrite length_map in H. }
  exists (map (line_of names r) ds). split; [done|]. apply Permutation_map, NoDup_Permutation.
  - apply NoDup_alt. intros i j d Hi Hj. destruct (Forall2_lookup_r _ _ _ _ _ Hds Hi) as (a & Ha & Hca), (Forall2_lookup_r _ _ _ _ _ Hds Hj) as (b & Hb & Hcb).
    assert (a = b) as -> by (by eapply ctx_inj). assert (Hnc : NoDup (concat chains)) by (rewrite HP; apply NoDup_seq). by eapply NoDup_lookup.
  - apply NoDup_remove_dups.
  - intros d. unfold contexts. rewrite elem_of_remove_dups, elem_of_cons, <- (si_known _ _ _ HS d). split.
    + intros [j Hj]%list_elem_of_lookup_1. destruct (Forall2_lookup_r _ _ _ _ _ Hds Hj) as (a & _ & Ha). eauto.
    + intros [i Hi]. assert (Hin : i ∈ concat chains) by (rewrite HP; apply elem_of_seq; apply ctx_lt in Hi; lia).
      apply list_elem_of_lookup_1 in Hin as [k Hk]. destruct (Forall2_lookup_l _ _ _ _ _ Hds Hk) as (d' & Hd' & Hc).
      rewrite (ctx_fun _ _ _ _ Hi _ Hc). by eapply list_elem_of_lookup_2.
Qed.

Lemma report_functions names s r : sim names s r ->
  exists es, HashTableWalk (lp_Functions s) = OK es /\ map (fun e => (sl_Payload e, sl_String e)) es ≡ₚ map (fun n => (id_of names n, n)) names.
Proof.
  intros HS. pose proof (si_functions _ _ _ HS) as F. exists (entries (lp_Functions s)). split.
  - unfold HashTableWalk, check. destruct (fo_ok _ _ F) as [->|L]; [done|]. by rewrite (hl_count _ L), Z.eqb_refl.
  - pose proof (Permutation_map (fun '(_, n, k) => (k, n)) (fo_entries _ _ F)) as HP. rewrite map_map in HP. rewrite HP.
    replace (map (fun n => (id_of names n, n)) names) with ((fun '(_, n, k) => (k, n)) <$> imap (fun k n => (Djb2Hash n, n, Z.of_nat (S k))) names); [done|].
    apply list_eq. intros k. rewrite list_lookup_fmap, list_lookup_imap. change (map ?f ?l) with (f <$> l). rewrite list_lookup_fmap.
    destruct (names !! k) as [n|] eqn:E; [|done]. cbn. by rewrite (id_of_spec _ _ _ (fo_nodup _ _ F) E).
Qed.

(** C36. The profiler of the scripts refines the run it watches: for every
    sequence of calls and returns that does not return from the top level, the
    hook never fails, and the report has one number for every function that was
    called and one line for every call stack that arose, whose calls are the
    number of times a call made that stack and whose time is the sum of the spans
    with that stack on top, up to the widths of the counters; collisions of
    hashes do not matter. *)
Theorem lua_profile_exact start es r : Forall event_ok es -> zlen es < 2 ^ 27 -> run_events (run_begin start) es = Some r ->
  exists s0 s fs lines number, LuaProfilerInit start = OK s0 /\ foldM ProfilerLuaEvent s0 es = OK s /\
    DumpReport s = OK ((s_TopLevel, s_TopLevelString) :: fs, lines) /\
    fs ≡ₚ map (fun n => (number n, n)) (functions r) /\ NoDup (s_TopLevel :: map fst fs) /\
    lines ≡ₚ map (fun c => mkLine (map number c ++ [s_TopLevel]) (i32 (count c (rn_calls r))) (u64 (time_in c (rn_spans r)))) (contexts r).
Proof.
  intros Hok Hn Hr. destruct (sim_begin start) as (s0 & E0 & H0). destruct (sim_events es [] s0 _ r H0 Hok Hn Hr) as (names & s & Es & HS).
  destruct (report_functions names s r HS) as (fs & Ef & Hf). destruct (report_lines names s r HS) as (lines & El & Hl).
  exists s0, s, (map (fun e => (sl_Payload e, sl_String e)) fs), lines, (id_of names). split_and!; [done|done| | | |done].
  - unfold DumpReport. rewrite Ef. cbn [mbind res_bind]. rewrite El. done.
  - rewrite Hf. apply Permutation_map, NoDup_Permutation; [apply HS|apply NoDup_remove_dups|].
    intros n. unfold functions. by rewrite elem_of_remove_dups, (si_names _ _ _ HS).
  - rewrite Hf, map_map. cbn [fst]. pose proof (fo_nodup _ _ (si_functions _ _ _ HS)) as Hnd. constructor.
    + intros (n & Hz & Hin)%list_elem_of_In%in_map_iff. apply list_elem_of_In, list_elem_of_lookup_1 in Hin as [k Hk].
      rewrite (id_of_spec _ _ _ Hnd Hk) in Hz. unfold s_TopLevel in Hz. lia.
    + apply NoDup_alt. intros i j v. change (map ?f ?l) with (f <$> l). rewrite !list_lookup_fmap.
      destruct (names !! i) as [a|] eqn:Ea; [|done]. destruct (names !! j) as [b|] eqn:Eb; [|done]. cbn. intros [= <-] [= Hv].
      rewrite (id_of_spec _ _ _ Hnd Ea), (id_of_spec _ _ _ Hnd Eb) in Hv. lia.
Qed.

Definition sample_events : list event :=
  let f := mkDebug (Some (s2l "f")) None (s2l "@a.lua") 3 in
  let g := mkDebug (Some (s2l "g")) (Some (s2l "global")) (s2l "@a.lua") 9 in
  [mkEvent (HookCall f) 10 11; mkEvent (HookCall g) 15 16; mkEvent HookReturn 20 21; mkEvent (HookCall g) 30 31; mkEvent HookReturn 32 33; mkEvent HookReturn 40 41].

Lemma lua_profile_exact_witness :
  let f := s2l "f;;@a.lua;3" in
  let g := s2l "g;global;@a.lua;9" in
  exists s0 s fs lines number, LuaProfilerInit 0 = OK s0 /\ foldM ProfilerLuaEvent s0 sample_events = OK s /\
    DumpReport s = OK ((s_TopLevel, s_TopLevelString) :: fs, lines) /\
    lines ≡ₚ [mkLine [0] 0 10; mkLine [number f; 0] 1 20; mkLine [number g; number f; 0] 2 5].
Proof.
  intros f g. edestruct (lua_profile_exact 0 sample_events) as (s0 & s & fs & lines & number & H1 & H2 & H3 & _ & _ & H4);
    [repeat constructor; discriminate|vm_compute; reflexivity|vm_compute; reflexivity|].
  exists s0, s, fs, lines, number. split; [exact H1|]. split; [exact H2|]. split; [exact H3|]. exact H4.
Defined.

(** ** Gaps *)

(** Nothing increments the count of invocations, so the table never grows. *)
Lemma table_never_grows start es r : Forall event_ok es -> zlen es < 2 ^ 27 -> run_events (run_begin start) es = Some r ->
  exists s0 s, LuaProfilerInit start = OK s0 /\ foldM ProfilerLuaEvent s0 es = OK s /\ lp_InvocationCount s = 0 /\ lp_InvocationTableSize s = 1024.
Proof.
  intros Hok Hn Hr. destruct (sim_begin start) as (s0 & E0 & H0). destruct (sim_events es [] s0 _ r H0 Hok Hn Hr) as (names & s & Es & HS).
  exists s0, s. split_and!; [done|done|apply (si_links _ _ _ HS)..].
Qed.

(** A return from the top level, which the hook does not expect. *)
Lemma return_from_top :
  (s0 ← LuaProfilerInit 0; ProfilerLuaEvent s0 (mkEvent HookReturn 1 2)) = Err (Undefined "access through a null pointer").
Proof. vm_compute. reflexivity. Qed.
